(* ===== verification/_CoqProject ===== *)
-Q . S2P
Prelude.v
Js.v
Concrete.v
Json.v
AuditChain.v
JsonParse.v
Regex.v
Core.v
Policy.v
StorageKeys.v
Storage.v
MemoryStorage.v
UploadMachine.v
Quarantine.v
TransferGrants.v
IngestStore.v
Ingest.v
History.v
Schema.v
SchemaRegistry.v
Verification.v
Archive.v
ArchiveLineage.v
ArchiveVerify.v
ArchiveRoundTrip.v
ArchiveSignature.v
ArchiveContainer.v
ImportPlan.v
ImportExecutor.v
PostgresImport.v
AppStorage.v
Access.v
ApiRoutes.v
Outbox.v
Reconciliation.v
Identity.v
Gates.v
AppProtocol.v
Server.v
Sdk.v
SdkServer.v
Contracts.v
Uploads.v
PostgresScans.v
Commands.v
AppRepository.v
AppCommands.v
AppDurability.v
StorageDiagnostics.v
StorageHealth.v
