(* ===== verification/Prelude.v ===== *)
(** * Trust Core: verification development

    Trust Core (the TypeScript monorepo under src/) keeps versioned resources
    and their bytes for applications, and promises that what it stores is
    authorised, immutable, auditable and recoverable.  Its packages layer as
    follows: [packages/core] has the domain records; [packages/policy] decides
    requests; [packages/storage] stores bytes under keys; [packages/audit] chains
    events; [packages/schema-registry] versions the schemas of payloads;
    [packages/operations] has the services (object ingest, quarantine scanning
    and promotion, transfer grants, resource history) that combine them over the
    tables of [packages/persistence-postgres]; [packages/verification] checks
    stored data against all of it; the apps expose the services.

    ** Files, in dependency order, and the sources they model

    - [Prelude] (this file): results, the state-and-exception monad [M], Hoare
      triples, rewriting tactics ([run], [run_inv], [guards], [to_prop]).
    - [Js]: the JavaScript runtime the sources use: strings, numbers received
      from callers ([jsnum], with NaN and infinities), sets, insertion-ordered
      maps, and the classes [JsDate] and [Crypto] for [Date] and [node:crypto].
    - [Concrete]: executable instances of both classes, on which every theorem
      that has hypotheses is exercised.
    - [Json]: JSON values and the canonical encoding (archive/src/canonical.ts,
      audit/src/audit-chain.ts, schema-registry/src/canonical.ts).
    - [AuditChain]: packages/audit.
    - [Core]: packages/core.
    - [Policy]: packages/policy.
    - [StorageKeys], [Storage], [MemoryStorage]: packages/storage; its keys and
      errors, the [ObjectStorage] interface as a class with the laws its clients
      rely on, and the in-memory provider, which discharges them.
    - [UploadMachine]: operations/src/upload-state-machine.ts.
    - [Quarantine]: operations/src/quarantine-scan.ts, quarantine-scan-store.ts,
      promote-quarantine.ts.
    - [TransferGrants]: operations/src/transfer-grants.ts.
    - [IngestStore], [Ingest]: persistence-postgres/src/operation-store.ts,
      blob-catalog.ts, ids.ts; operations/src/object-ingest.ts.
    - [History]: operations/src/history-service.ts over
      persistence-postgres/src/history-repository.ts.
    - [Schema], [SchemaRegistry]: packages/schema-registry.
    - [Verification]: packages/verification over
      persistence-postgres/src/verification-catalog.ts.
    - [JsonParse]: [JSON.parse], which reads what [Json] writes.
    - [Archive], [ArchiveLineage], [ArchiveVerify], [ArchiveRoundTrip]:
      archive/src/types.ts, paths.ts, assemble.ts, verify.ts.
    - [ArchiveSignature]: archive/src/signature.ts; [ArchiveContainer]:
      archive/src/container.ts.
    - [ImportPlan], [ImportExecutor]: archive/src/import-plan.ts,
      import-executor.ts; the store and the target of an import are classes with
      laws, which [PostgresImport] (persistence-postgres/src/archive-import.ts)
      discharges over the object storage interface.
    - [AppStorage]: trust-api/src/app-storage-bindings.ts, storage-router.ts.
    - [Access], [ApiRoutes]: trust-api/src/access.ts and app.ts: the gateways,
      the routing table with its validators and scopes; the providers of commands
      are an argument.
    - [Outbox], [Reconciliation]: packages/reconciliation over
      persistence-postgres/src/outbox-store.ts, reconciliation-catalog.ts.
    - [Identity]: identity/src/oidc.ts over persistence-postgres/src/identity-store.ts.
    - [Regex]: regular expressions by derivatives, with their language.
    - [Gates]: packages/recovery, identity/src/acceptance.ts,
      packages/observability.
    - [AppProtocol]: packages/app-protocol.
    - [Server]: trust-api/src/server.ts; [Sdk]: sdk-typescript/src/client.ts with
      its transport; [SdkServer]: the client on the server.
    - [Contracts], [Uploads]: persistence-postgres/src/contract-repository.ts over
      the tables of migration 0009; the applications, policy assignments and
      grants, and the uploads with their operations.
    - [PostgresScans]: persistence-postgres/src/quarantine-scan-store.ts, which
      discharges the laws [Quarantine] asks of its store.
    - [Commands]: trust-api/src/postgres-commands.ts: the command provider of the
      API over the repository, the schema registry and the scan orchestrator.
    - [AppRepository]: persistence-postgres/src/app-storage-repository.ts over the
      tables of migration 0015; [AppCommands]: the registry of bindings as an
      interface with its two implementations (in memory, and
      trust-api/src/postgres-app-storage-registry.ts) and
      trust-api/src/app-storage-commands.ts over it; [AppDurability]: what the
      tables hold against what the process holds.
    - [StorageDiagnostics]: trust-api/src/storage-diagnostics.ts; [StorageHealth]:
      the commands of postgres-commands.ts over it, with the limiter and the cache
      of a process.

    A definition that translates code is preceded by a comment that names its
    file, lines and symbol.  A class or service of the source is a record (its
    state) with one definition per method; a method that throws or changes state
    is a program of [M]; a database transaction is [transaction], which restores
    the state on a throw; clocks, random identifiers and injected collaborators
    are arguments.

    ** What the theorems show

    - Access: [evaluatePolicy] allows a request exactly when an unrevoked
      assignment or active break-glass grant of the workspace covers it, workspaces and
      infrastructure roles are isolated, break-glass is bounded in time and
      scope; a grant to transfer bytes is authorised, for a downloadable object,
      bounded in time and audited, and a refused one never reaches the signer.
    - Bytes: object keys are injective and temporary and canonical ones never
      meet; no sequence of storage calls changes a committed object; a completed
      multipart upload is its parts in order; a range read is exactly the range.
    - Ingest: whatever faults (an error or a crash at any awaited call) strike
      whatever number of attempts, one further undisturbed attempt with the same
      idempotency key completes with the bytes stored, catalogued and audited.
    - Quarantine: calls overtaking each other at their awaits, an upload is accepted
      on an authentic clean verdict only; a verdict that stands when no call is
      in progress is final; promotion stores the scanned bytes.
    - History: revisions are append-only and linear, a stale base always
      conflicts, a deletion can be undone, and every history passes verification.
    - Audit: appending keeps a chain valid; two valid chains with one last hash
      are the same log, or exhibit a SHA-256 collision.
    - Schemas: published packages are immutable and named by their digest,
      publication is idempotent, versions increase with the major number moving
      exactly on breaking changes, and a backward-compatible version accepts the
      payloads its predecessor accepted.
    - Verification: a run passes exactly when the data in its scope is
      consistent with what the storage reports of its objects (their bytes are not
      read), each condition spelled out.
    - Archives: what an export assembles verifies, signed or not, and the records
      read are those exported; archives are tamper evident by their checksum file,
      and a signed archive that verifies has a manifest and a checksum file that
      the key's holder signed, if signatures cannot be forged; a container is
      decompressed within its limits only, and, its names being ones the ZIP library
      keeps, read back as written; a plan that is ready respects every reference, its identity binds its
      content; an import never passes a checkpoint before its effects, ends after
      at most seven passes, and on PostgreSQL throws or completes with every record
      but those of workspaces in its table.
    - Application storage: a write is routed to a connected binding of the
      caller's own tenant or application, and bindings keep their identity.
    - API: no request reaches a provider but through the policy engine, with the
      action its command needs and in the workspace it acts in; applications make
      only the calls open to them; a session is honoured exactly from its creation
      to its expiry or revocation, with its CSRF token; the use of break-glass is
      recorded before it takes effect.
    - Identity: a login is completed at most once, by the browser and for the nonce
      it was begun with, before it expires; the tables hold digests.
    - Outbox: a completed or quarantined event stays so; undisturbed runs drain
      the outbox; a blob is reconciled by comparing what the storage answers with
      what is catalogued, and an incident is recorded exactly where they differ.
    - Gates: release evidence passes exactly on the stated conditions.
    - End to end: a call of the client runs the command it stands for, with the
      identifiers and the value the caller gave, and returns what the command
      returned; what the gateway refuses the client throws; the limits of the two
      ends agree for uploads and disagree for archives.
    - Application protocol: a bundle is made exactly from a valid manifest, each of
      its fields being the one of the input, in normal form.
    - Contract repository: the row an idempotency key is first given to stays its
      row, a revocation is final, a grant listed is bounded, and an upload is
      touched by its own commands only and ends in one way.
    - Commands over PostgreSQL: an upload whose bytes arrived, and which is given a
      route, completes; a
      completion interrupted between its two transactions can never be resumed;
      a download grant is issued exactly for an object the catalogue marks verified,
      to a caller who may read it, whatever its scan, and never to an application; an assignment key is good until revoked.
    - Application storage over PostgreSQL: after any commands, as long as none
      failed on the database, a process started anew from the tables routes as the one it replaces; no change of bindings
      reaches its cutover; where a second process or the registry in memory would
      answer otherwise.
    - Health of the storage: the health query calls it healthy only after a probe of
      the process that succeeded in the last thirty seconds, a probe command only on
      its own probe or the one it repeats; probes of a workspace are at least
      five seconds apart; no answer matches the pattern of secrets.

    Each file ends with a module of witnesses: concrete inputs on which the
    theorems' hypotheses hold, and theorems about particular inputs where the
    code departs from what its comments or its callers expect.

    ** Bounds and fuel

    Loops over lists are structural.  Three recursions take fuel, and the theorems
    about them give enough of it: [History.lineage] follows parents (the number of
    the head revision), the walk of an archive's audit lineage (the number of
    events and two), the parser of JSON (twice the length of the text and two).
    The loop of an import has a bound of its own, seven passes.  Numbers that
    callers supply are [jsnum] and are checked against 2^53 - 1 where the code
    calls [Number.isSafeInteger]; numbers the code computes from them are [Z].
    SHA-256 is any function into 64 hexadecimal digits: injectivity is never
    assumed, a conclusion that needs it offers a collision as the alternative.

    ** Not modelled

    Vendor SDK adapters (S3, MinIO), the start of the processes, the user
    interface, the archive viewer and the fixtures are input/output or data.  Of
    the providers of the API the listings, the choice of adapters from the
    environment, the portability provider, the retention repository and the
    conformance runner are left out.  The ZIP library, signers and verifiers of
    archives, the malware scanner, the token library of identity/src/provider.ts,
    [new URL] and the PostgreSQL server are parameters.
    Concurrency inside one database transaction is PostgreSQL's; the model's steps
    are whole transactions (for ingest and for scans: single awaited calls). *)
From Stdlib Require Export ZArith Lia Ascii String.
From stdpp Require Export base tactics option list list_numbers strings gmap sorting.

(** ** Scope: TypeScript's strict equality on decidable types *)

Declare Scope ts_scope.
Delimit Scope ts_scope with ts.
Notation "x === y" := (bool_decide (x = y)) (at level 70, no associativity) : ts_scope.
Notation "x !== y" := (negb (bool_decide (x = y))) (at level 70, no associativity) : ts_scope.
#[global] Open Scope ts_scope.

(** ** Results: a call returns a value or throws *)

Inductive result (E A : Type) : Type :=
  | Ok (a : A)
  | Err (e : E).
Arguments Ok {E A} a.
Arguments Err {E A} e.

#[global] Instance result_eq_dec {E A} `{EqDecision E, EqDecision A} : EqDecision (result E A).
Proof. solve_decision. Defined.

#[global] Instance result_ret {E} : MRet (result E) := λ A a, Ok a.
#[global] Instance result_bind {E} : MBind (result E) := λ A B f m,
  match m with Ok a => f a | Err e => Err e end.

#[global] Instance result_fmap {E} : FMap (result E) := λ A B f m,
  match m with Ok a => Ok (f a) | Err e => Err e end.

(** [if (b) throw e]. *)
Definition throw_if {E} (b : bool) (e : E) : result E unit :=
  if b then Err e else Ok tt.

Definition is_Ok {E A} (r : result E A) : bool :=
  match r with Ok _ => true | Err _ => false end.

Lemma result_bind_Ok {E A B} (f : A → result E B) (m : result E A) b :
  (m ≫= f) = Ok b ↔ ∃ a, m = Ok a ∧ f a = Ok b.
Proof. destruct m; simpl; naive_solver. Qed.

Lemma throw_if_Ok {E} b (e : E) u : throw_if b e = Ok u ↔ b = false.
Proof. destruct b, u; simpl; naive_solver. Qed.

Lemma is_Ok_true {E A} (r : result E A) : is_Ok r = true ↔ ∃ a, r = Ok a.
Proof. destruct r; naive_solver. Qed.

(** ** Effects: a stateful call that may throw

    A method of a class mutates the object it belongs to and may throw; what it
    wrote before the throw stays written.  [transaction] is the exception: a
    database transaction rolls the state back. *)

Definition M (S E A : Type) : Type := S → result E A * S.

#[global] Instance M_ret {S E} : MRet (M S E) := λ A a s, (Ok a, s).
#[global] Instance M_bind {S E} : MBind (M S E) := λ A B f m s,
  match m s with
  | (Ok a, s') => f a s'
  | (Err e, s') => (Err e, s')
  end.

Section Effects.
Context {S E : Type}.

Definition throw {A} (e : E) : M S E A := λ s, (Err e, s).
Definition lift {A} (r : result E A) : M S E A := λ s, (r, s).
Definition gets {A} (f : S → A) : M S E A := λ s, (Ok (f s), s).
Definition modify (f : S → S) : M S E unit := λ s, (Ok tt, f s).
Definition throw_when (b : bool) (e : E) : M S E unit := lift (throw_if b e).
Definition try_catch {A} (m : M S E A) (h : E → M S E A) : M S E A := λ s,
  match m s with
  | (Ok a, s') => (Ok a, s')
  | (Err e, s') => h e s'
  end.
Definition transaction {A} (m : M S E A) : M S E A := λ s,
  match m s with
  | (Ok a, s') => (Ok a, s')
  | (Err e, _) => (Err e, s)
  end.
(** [for (const x of xs) await f(x)]. *)
Fixpoint for_each {A} (f : A → M S E unit) (xs : list A) : M S E unit :=
  match xs with
  | [] => mret tt
  | x :: xs => f x ≫= λ _, for_each f xs
  end.

Lemma M_bind_Ok {A B} (m : M S E A) (f : A → M S E B) s b s'' :
  (m ≫= f) s = (Ok b, s'') ↔ ∃ a s', m s = (Ok a, s') ∧ f a s' = (Ok b, s'').
Proof.
  unfold mbind, M_bind. destruct (m s) as [[a|e] s'].
  - naive_solver.
  - split; [congruence | intros (? & ? & ? & ?); congruence].
Qed.

Lemma M_bind_Err {A B} (m : M S E A) (f : A → M S E B) s e s'' :
  (m ≫= f) s = (Err e, s'') ↔
    m s = (Err e, s'') ∨ ∃ a s', m s = (Ok a, s') ∧ f a s' = (Err e, s'').
Proof.
  unfold mbind, M_bind. destruct (m s) as [[a|e'] s'].
  - naive_solver.
  - split; [naive_solver | intros [?|(? & ? & ? & ?)]; congruence].
Qed.

Lemma throw_when_Ok b (e : E) s u s' : throw_when b e s = (Ok u, s') ↔ b = false ∧ s = s'.
Proof. unfold throw_when, lift. destruct b, u; simpl; naive_solver. Qed.

(** *** Hoare triples with an exceptional postcondition *)

Definition triple {A} (P : S → Prop) (m : M S E A)
    (Q : A → S → Prop) (X : E → S → Prop) : Prop :=
  ∀ s, P s → match m s with (Ok a, s') => Q a s' | (Err e, s') => X e s' end.

(** [m] keeps [I] whether it returns or throws. *)
Definition preserves {A} (I : S → Prop) (m : M S E A) : Prop :=
  triple I m (λ _, I) (λ _, I).

Lemma triple_bind {A B} P (m : M S E A) (f : A → M S E B) R Q X :
  triple P m R X → (∀ a, triple (R a) (f a) Q X) → triple P (m ≫= f) Q X.
Proof.
  intros Hm Hf s HP. unfold mbind, M_bind. specialize (Hm s HP).
  destruct (m s) as [[a|e] s']; [apply (Hf a s' Hm) | exact Hm].
Qed.

Lemma preserves_ret {A} I (a : A) : preserves I (mret a).
Proof. intros s H. exact H. Qed.
Lemma preserves_throw {A} I e : preserves (A:=A) I (throw e).
Proof. intros s H. exact H. Qed.
Lemma preserves_lift {A} I (r : result E A) : preserves I (lift r).
Proof. intros s H. unfold lift. destruct r; exact H. Qed.
Lemma preserves_gets {A} I (f : S → A) : preserves I (gets f).
Proof. intros s H. exact H. Qed.
Lemma preserves_throw_when I b e : preserves I (throw_when b e).
Proof. apply preserves_lift. Qed.
Lemma preserves_bind {A B} I (m : M S E A) (f : A → M S E B) :
  preserves I m → (∀ a, preserves I (f a)) → preserves I (m ≫= f).
Proof. intros Hm Hf. exact (triple_bind _ _ _ (λ _, I) _ _ Hm Hf). Qed.
Lemma preserves_modify (I : S → Prop) f : (∀ s, I s → I (f s)) → preserves I (modify f).
Proof. intros H s HI. exact (H s HI). Qed.
Lemma preserves_try_catch {A} I (m : M S E A) h :
  preserves I m → (∀ e, preserves I (h e)) → preserves I (try_catch m h).
Proof.
  intros Hm Hh s HI. specialize (Hm s HI). unfold try_catch.
  destruct (m s) as [[a|e] s']; [exact Hm | exact (Hh e s' Hm)].
Qed.
Lemma preserves_transaction {A} I (m : M S E A) :
  preserves I m → preserves I (transaction m).
Proof.
  intros Hm s HI. specialize (Hm s HI). unfold transaction.
  destruct (m s) as [[a|e] s']; [exact Hm | exact HI].
Qed.
Lemma preserves_for_each {A} I (f : A → M S E unit) xs :
  (∀ x, preserves I (f x)) → preserves I (for_each f xs).
Proof.
  intros Hf. induction xs as [|x xs IH]; simpl;
    [apply preserves_ret | apply preserves_bind; auto].
Qed.
Lemma preserves_if {A} I (b : bool) (m1 m2 : M S E A) :
  preserves I m1 → preserves I m2 → preserves I (if b then m1 else m2).
Proof. destruct b; auto. Qed.

(** A transaction that throws leaves the state as it found it. *)
Lemma transaction_Err {A} (m : M S E A) s e s' : transaction m s = (Err e, s') → s' = s.
Proof. unfold transaction. destruct (m s) as [[a|e'] s'']; congruence. Qed.
Lemma transaction_Ok {A} (m : M S E A) s a s' :
  transaction m s = (Ok a, s') ↔ m s = (Ok a, s').
Proof. unfold transaction. destruct (m s) as [[a'|e'] s'']; naive_solver. Qed.
End Effects.

#[global] Arguments throw {S E A} e _ /.
#[global] Arguments gets {S E A} f _ /.
#[global] Arguments modify {S E} f _ /.

Create HintDb effects.
#[export] Hint Resolve preserves_ret preserves_throw preserves_lift preserves_gets
  preserves_throw_when preserves_bind preserves_modify preserves_try_catch
  preserves_transaction preserves_for_each preserves_if : effects.

(** Take apart an equation [m s = (Ok a, s')] of a monadic program, one bind at
    a time. *)
Ltac run_inv :=
  repeat match goal with
  | H : (_ ≫= _) _ = (Ok _, _) |- _ =>
      apply M_bind_Ok in H; destruct H as (? & ? & H & ?)
  | H : throw_when _ _ _ = (Ok _, _) |- _ =>
      apply throw_when_Ok in H; destruct H as [? ?]; subst
  | H : gets _ _ = (Ok _, _) |- _ => unfold gets in H
  | H : modify _ _ = (Ok _, _) |- _ => unfold modify in H
  | H : lift _ _ = (Ok _, _) |- _ => unfold lift in H
  | H : throw _ _ = (Ok _, _) |- _ => discriminate H
  | H : mret _ _ = (Ok _, _) |- _ => unfold mret, M_ret in H
  | H : (_, _) = (Ok _, _) |- _ => injection H as ? ?; subst
  | H : (_ ≫= _) = Ok _ |- _ =>
      apply result_bind_Ok in H; destruct H as (? & H & ?)
  | H : throw_if _ _ = Ok _ |- _ => apply throw_if_Ok in H
  | H : Ok _ = Ok _ |- _ => injection H as ?; subst
  | H : Err _ = Ok _ |- _ => discriminate H
  end.

(** Execute a program one bind at a time, whatever its outcome. *)
Section Run.
Context {S E A B : Type}.
Implicit Types (s : S) (e : E).

Lemma throw_when_bind b e (f : unit → M S E B) s :
  (throw_when b e ≫= f) s = if b then (Err e, s) else f tt s.
Proof. by destruct b. Qed.
Lemma gets_bind (g : S → A) (f : A → M S E B) s : (gets g ≫= f) s = f (g s) s.
Proof. done. Qed.
Lemma modify_bind g (f : unit → M S E B) s : (modify g ≫= f) s = f tt (g s).
Proof. done. Qed.
Lemma mret_bind (a : A) (f : A → M S E B) s : (mret a ≫= f) s = f a s.
Proof. done. Qed.
Lemma throw_bind e (f : A → M S E B) s : (throw e ≫= f) s = (Err e, s).
Proof. done. Qed.
Lemma lift_bind (r : result E A) (f : A → M S E B) s :
  (lift r ≫= f) s = match r with Ok a => f a s | Err e => (Err e, s) end.
Proof. by destruct r. Qed.
Lemma bind_bind {C} (m : M S E A) (f : A → M S E B) (g : B → M S E C) s :
  ((m ≫= f) ≫= g) s = (m ≫= λ a, f a ≫= g) s.
Proof. unfold mbind, M_bind. by destruct (m s) as [[a|e] s']. Qed.
Lemma throw_when_run b e s :
  throw_when b e s = if b then (Err e, s) else (Ok tt, s).
Proof. by destruct b. Qed.
Lemma modify_run (g : S → S) s : @modify S E g s = (Ok tt, g s).
Proof. done. Qed.
Lemma mret_run (a : A) s : @mret (M S E) _ A a s = (Ok a, s).
Proof. done. Qed.
Lemma gets_run (g : S → A) s : @gets S E A g s = (Ok (g s), s).
Proof. done. Qed.
Lemma throw_run e s : @throw S E A e s = (Err e, s).
Proof. done. Qed.
(** Continue after a call whose outcome is known. *)
Lemma bind_Ok_run (m : M S E A) (f : A → M S E B) s a s' :
  m s = (Ok a, s') → (m ≫= f) s = f a s'.
Proof. unfold mbind, M_bind. by intros ->. Qed.
Lemma bind_Err_run (m : M S E A) (f : A → M S E B) s e s' :
  m s = (Err e, s') → (m ≫= f) s = (Err e, s').
Proof. unfold mbind, M_bind. by intros ->. Qed.
End Run.

Create Rewrite HintDb run.
#[export] Hint Rewrite @throw_when_bind @gets_bind @modify_bind @mret_bind @throw_bind
  @lift_bind @bind_bind @throw_when_run @modify_run @mret_run @gets_run @throw_run : run.
Ltac run := cbn beta iota; repeat (progress autorewrite with run; cbn beta iota).
Ltac run_in H :=
  cbn beta iota in H; repeat (progress autorewrite with run in H; cbn beta iota in H).
(** Explore every branch of a program in the goal. *)
Ltac run_all :=
  run; repeat (case_match; cbn beta iota; run).

(** Boolean guards as propositions. *)
Ltac to_prop :=
  repeat match goal with
  | H : negb _ = true |- _ => apply negb_true_iff in H
  | H : negb _ = false |- _ => apply negb_false_iff in H
  | H : _ && _ = true |- _ => apply andb_true_iff in H; destruct H
  | H : _ || _ = false |- _ => apply orb_false_iff in H; destruct H
  | H : bool_decide _ = true |- _ => apply bool_decide_eq_true_1 in H
  | H : bool_decide _ = false |- _ => apply bool_decide_eq_false_1 in H
  end.

(** [x === x] and [x !== x], for rewriting after the guards' equations. *)
Lemma strict_eq_refl {A} (x : A) `{Decision (x = x)} : (x === x) = true.
Proof. by apply bool_decide_eq_true_2. Qed.
Lemma strict_ne_refl {A} (x : A) `{Decision (x = x)} : (x !== x) = false.
Proof. by rewrite strict_eq_refl. Qed.

Create Rewrite HintDb guards.
#[export] Hint Rewrite @strict_eq_refl @strict_ne_refl orb_false_r orb_true_r
  andb_true_r andb_false_r : guards.
Ltac guards := autorewrite with guards; cbn [andb orb negb].

(** Case analysis on the head guard of a program in a hypothesis, closing the
    branches that throw where a return is required. *)
Ltac case_guards :=
  repeat match goal with
  | H : context [if ?b then _ else _] |- _ => destruct b eqn:?; simplify_eq/=; try discriminate H
  | H : context [match ?x with _ => _ end] |- _ => destruct x eqn:?; simplify_eq/=; try discriminate H
  end.

Lemma flat_map_nil {A B} (f : A → list B) l : flat_map f l = [] ↔ ∀ x, x ∈ l → f x = [].
Proof.
  induction l as [|x l IH]; cbn; [split; [by intros _ ? ?%elem_of_nil|done]|]. rewrite app_nil, IH. setoid_rewrite elem_of_cons. naive_solver.
Qed.
