(* ===== verification/Js.v ===== *)
(** * The JavaScript runtime the sources use

    Strings, numbers, arrays, sets and dates as the TypeScript sources use them.

    - A string is a sequence of 8-bit characters; the patterns of the sources
      only inspect ASCII, and [TextEncoder.encode] is the identity on ASCII.  A
      [Buffer] or [Uint8Array] is the same type, read as bytes.
    - A number the sources receive from a caller and then validate is a [jsnum]:
      an integer, a non-integer (the modelled code never looks at its
      fraction), an infinity or [NaN].  A number the code computes itself from
      integers is a [Z].
    - [Array.prototype.sort()] with no comparator is the code-unit order. *)
From stdpp Require Export pretty.
From S2P Require Import Prelude.
Local Open Scope string_scope.
#[local] Arguments String.append !s1 s2 /.

(** ** Numbers *)

Inductive jsnum : Type :=
  | JInt (z : Z)
  | JFrac (floor : Z) (* a finite number strictly between [floor] and [floor + 1] *)
  | JInf (negative : bool)
  | JNaN.

#[global] Instance jsnum_eq_dec : EqDecision jsnum.
Proof. solve_decision. Defined.

Definition MAX_SAFE_INTEGER : Z := 9007199254740991.

Definition isSafe (z : Z) : bool :=
  (Z.leb (- MAX_SAFE_INTEGER) z && Z.leb z MAX_SAFE_INTEGER)%Z.

(** [Number.isSafeInteger]. *)
Definition isSafeInteger (n : jsnum) : bool :=
  match n with JInt z => isSafe z | _ => false end.

(** [n < z], [n <= z] and [n > z] for an integer [z]; every comparison with
    [NaN] is false. *)
Definition jlt (n : jsnum) (z : Z) : bool :=
  match n with
  | JInt x => Z.ltb x z
  | JFrac f => Z.ltb f z
  | JInf negative => negative
  | JNaN => false
  end.
Definition jle (n : jsnum) (z : Z) : bool :=
  match n with
  | JInt x => Z.leb x z
  | JFrac f => Z.ltb f z
  | JInf negative => negative
  | JNaN => false
  end.
Definition jgt (n : jsnum) (z : Z) : bool :=
  match n with
  | JInt x => Z.ltb z x
  | JFrac f => Z.leb z f
  | JInf negative => negb negative
  | JNaN => false
  end.

(** A safe integer within [lo, hi] is exactly what the usual triple guard
    [!isSafeInteger(n) || n < lo || n > hi] lets through. *)
Lemma safe_range_guard n lo hi :
  (negb (isSafeInteger n) || jlt n lo || jgt n hi) = false ↔
  ∃ z, n = JInt z ∧ (lo ≤ z ≤ hi)%Z ∧ isSafe z = true.
Proof.
  rewrite !orb_false_iff, negb_false_iff.
  destruct n as [z| | |]; simpl; [| naive_solver..].
  split.
  - intros [[H1 H2] H3]. exists z. split_and!; [done | lia | lia | done].
  - intros (z' & [= <-] & ? & ?). split_and!; [done | lia | lia].
Qed.

(** ** Characters and strings *)

Definition chars (s : string) : list ascii := list_ascii_of_string s.

Definition in_range (lo hi : nat) (c : ascii) : bool :=
  let n := nat_of_ascii c in Nat.leb lo n && Nat.leb n hi.

Definition is_lower : ascii → bool := in_range 97 122.
Definition is_upper : ascii → bool := in_range 65 90.
Definition is_digit : ascii → bool := in_range 48 57.
Definition is_hex_lower (c : ascii) : bool := is_digit c || in_range 97 102 c.
(** The characters [String.prototype.trim] removes, below U+0100. *)
Definition is_space (c : ascii) : bool :=
  in_range 9 13 c || in_range 32 32 c || in_range 160 160 c.
(** [A-Za-z0-9_-] *)
Definition is_safe_id_char (c : ascii) : bool :=
  is_lower c || is_upper c || is_digit c || (c === "_"%char) || (c === "-"%char).

Fixpoint drop_while {A} (p : A → bool) (l : list A) : list A :=
  match l with
  | [] => []
  | x :: l' => if p x then drop_while p l' else l
  end.

Definition trim (s : string) : string :=
  string_of_list_ascii
    (rev (drop_while is_space (rev (drop_while is_space (chars s))))).

(** [!s.trim()] and [s.trim().length === 0]. *)
Definition blank (s : string) : bool := trim s === "".

Definition startsWith (s p : string) : bool := String.prefix p s.

Fixpoint includes (s sub : string) : bool :=
  startsWith s sub ||
  match s with
  | EmptyString => false
  | String _ s' => includes s' sub
  end.

(** [s.slice(0, n)]. *)
Definition slice0 (n : nat) (s : string) : string := String.substring 0 n s.

(** [xs.join(sep)]. *)
Definition join (sep : string) (xs : list string) : string := String.concat sep xs.

(** [s.toLowerCase()], on ASCII. *)
Definition lower_char (c : ascii) : ascii :=
  if is_upper c then ascii_of_nat (nat_of_ascii c + 32) else c.
Fixpoint toLowerCase (s : string) : string :=
  match s with
  | EmptyString => EmptyString
  | String c s' => String (lower_char c) (toLowerCase s')
  end.

(** [/^[a-f0-9]{n}$/] *)
Definition hex_pattern (n : nat) (s : string) : bool :=
  Nat.eqb (String.length s) n && forallb is_hex_lower (chars s).
(** [SHA256_PATTERN = /^[a-f0-9]{64}$/] *)
Definition SHA256_PATTERN : string → bool := hex_pattern 64.
(** [SAFE_ID_PATTERN = /^[A-Za-z0-9_-]+$/] *)
Definition SAFE_ID_PATTERN (s : string) : bool :=
  negb (s === "") && forallb is_safe_id_char (chars s).

Lemma chars_app s1 s2 : chars (s1 ++ s2) = (chars s1 ++ chars s2)%list.
Proof. induction s1 as [|c s1 IH]; simpl; [done|]. unfold chars in *. simpl. by rewrite IH. Qed.

Lemma chars_inj s1 s2 : chars s1 = chars s2 → s1 = s2.
Proof.
  intros H. rewrite <- (string_of_list_ascii_of_string s1).
  rewrite <- (string_of_list_ascii_of_string s2). unfold chars in H. by rewrite H.
Qed.

Lemma string_app_assoc (s1 s2 s3 : string) : s1 ++ (s2 ++ s3) = (s1 ++ s2) ++ s3.
Proof. induction s1 as [|c s1 IH]; simpl; congruence. Qed.

Lemma string_app_nil_r (s : string) : s ++ "" = s.
Proof. induction s as [|c s IH]; simpl; congruence. Qed.

Lemma string_length_app (s1 s2 : string) :
  String.length (s1 ++ s2) = (String.length s1 + String.length s2)%nat.
Proof. induction s1; simpl; lia. Qed.

(** Two concatenations with left parts of equal length split. *)
Lemma string_app_inj_length (a1 a2 b1 b2 : string) :
  String.length a1 = String.length a2 → a1 ++ b1 = a2 ++ b2 → a1 = a2 ∧ b1 = b2.
Proof.
  revert a2. induction a1 as [|c a1 IH]; intros [|c' a2] Hl H; try discriminate Hl.
  - done.
  - injection Hl as Hl. injection H as -> H.
    destruct (IH a2 Hl H) as [-> ->]. done.
Qed.

(** A separator that does not occur on the left of it splits a string uniquely. *)
Lemma string_sep_inj (c : ascii) (a1 a2 b1 b2 : string) :
  c ∉ chars a1 → c ∉ chars a2 →
  a1 ++ String c b1 = a2 ++ String c b2 → a1 = a2 ∧ b1 = b2.
Proof.
  revert a2. induction a1 as [|x a1 IH]; intros [|y a2] H1 H2 H; simpl in *.
  - by injection H.
  - injection H as -> _. exfalso. apply H2. by left.
  - injection H as -> _. exfalso. apply H1. by left.
  - injection H as -> H.
    destruct (IH a2) as [-> ->]; [ | | done | done].
    + intros ?. apply H1. by right.
    + intros ?. apply H2. by right.
Qed.

Lemma prefix_app (p s : string) : String.prefix p (p ++ s) = true.
Proof. induction p as [|c p IH]; simpl; [by destruct s|]. by destruct (ascii_dec c c). Qed.

(** [s.slice(a, a + n)] inside [s]. *)
Lemma substring_split a n (s : string) :
  (a + n ≤ String.length s)%nat →
  String.length (String.substring a n s) = n ∧
  ∃ pre post, s = pre +:+ String.substring a n s +:+ post ∧ String.length pre = a.
Proof.
  revert a n. induction s as [|c s IH]; intros a n Hle.
  - simpl in Hle. assert (a = 0%nat ∧ n = 0%nat) as [-> ->] by lia. split; [done|]. by exists EmptyString, EmptyString.
  - destruct a as [|a]; [destruct n as [|n]|]; simpl in *.
    + split; [done|]. by exists EmptyString, (String c s).
    + destruct (IH 0%nat n) as (Hl & pre & post & Hs & Hp); [lia|]. split; [by rewrite Hl|].
      destruct pre; [|done]. exists EmptyString, post. split; [|done].
      change (String c s = String c (String.substring 0 n s +:+ post)). by f_equal.
    + destruct (IH a n) as (Hl & pre & post & Hs & Hp); [lia|]. split; [done|].
      exists (String c pre), post. split; [|simpl; by rewrite Hp].
      change (String c s = String c (pre +:+ String.substring a n s +:+ post)). by f_equal.
Qed.

Lemma SHA256_PATTERN_spec s :
  SHA256_PATTERN s = true ↔
  String.length s = 64 ∧ (∀ c, c ∈ chars s → is_hex_lower c = true).
Proof.
  unfold SHA256_PATTERN, hex_pattern. rewrite andb_true_iff, Nat.eqb_eq, forallb_forall.
  setoid_rewrite list_elem_of_In. done.
Qed.

Lemma SAFE_ID_PATTERN_spec s :
  SAFE_ID_PATTERN s = true ↔
  s ≠ "" ∧ (∀ c, c ∈ chars s → is_safe_id_char c = true).
Proof.
  unfold SAFE_ID_PATTERN. rewrite andb_true_iff, negb_true_iff, bool_decide_eq_false, forallb_forall.
  setoid_rewrite list_elem_of_In. done.
Qed.

Lemma safe_id_no_slash s : SAFE_ID_PATTERN s = true → "/"%char ∉ chars s.
Proof. intros [_ H]%SAFE_ID_PATTERN_spec Hin. by apply H in Hin. Qed.

(** ** Arrays and sets *)

(** [[...new Set(xs)]]: the first occurrence of every value, in order. *)
Fixpoint new_Set_from {A} `{EqDecision A} (seen xs : list A) : list A :=
  match xs with
  | [] => []
  | x :: xs' =>
      if bool_decide (x ∈ seen) then new_Set_from seen xs'
      else x :: new_Set_from (x :: seen) xs'
  end.
Definition new_Set {A} `{EqDecision A} (xs : list A) : list A := new_Set_from [] xs.

Lemma elem_of_new_Set_from {A} `{EqDecision A} (seen xs : list A) x :
  x ∈ new_Set_from seen xs ↔ x ∈ xs ∧ x ∉ seen.
Proof.
  revert seen. induction xs as [|y xs IH]; intros seen; simpl; [set_solver|].
  case_bool_decide; [rewrite IH; set_solver|].
  rewrite elem_of_cons, IH. destruct (decide (x = y)); set_solver.
Qed.

Lemma elem_of_new_Set {A} `{EqDecision A} (xs : list A) x : x ∈ new_Set xs ↔ x ∈ xs.
Proof. unfold new_Set. rewrite elem_of_new_Set_from. set_solver. Qed.

Lemma NoDup_new_Set_from {A} `{EqDecision A} (seen xs : list A) : NoDup (new_Set_from seen xs).
Proof.
  revert seen. induction xs as [|y xs IH]; intros seen; simpl; [constructor|].
  case_bool_decide; [done|]. constructor; [|done].
  rewrite elem_of_new_Set_from. set_solver.
Qed.

Lemma NoDup_new_Set {A} `{EqDecision A} (xs : list A) : NoDup (new_Set xs).
Proof. apply NoDup_new_Set_from. Qed.

(** A list has no duplicate exactly when its set is as long. *)
Lemma new_Set_length {A} `{EqDecision A} (xs : list A) : length (new_Set xs) = length xs ↔ NoDup xs.
Proof.
  split.
  - intros Hl. rewrite <- (submseteq_length_Permutation (new_Set xs) xs); [apply NoDup_new_Set| |lia].
    apply NoDup_submseteq; [apply NoDup_new_Set|]. intros x. by rewrite elem_of_new_Set.
  - intros Hnd. apply Permutation_length, NoDup_Permutation; [apply NoDup_new_Set|done|].
    intros x. apply elem_of_new_Set.
Qed.

(** [xs.sort()] on strings. *)
Definition js_sort (xs : list string) : list string := merge_sort String.le xs.

(** [xs.includes(x)]. *)
Definition array_includes {A} `{EqDecision A} (xs : list A) (x : A) : bool := bool_decide (x ∈ xs).

Lemma find_Some_elem {A} (f : A → bool) (l : list A) x :
  List.find f l = Some x → x ∈ l ∧ f x = true.
Proof. intros H. apply find_some in H. by rewrite list_elem_of_In. Qed.

Lemma find_None_elem {A} (f : A → bool) (l : list A) x :
  List.find f l = None → x ∈ l → f x = false.
Proof. intros H Hx. apply list_elem_of_In in Hx. by apply (find_none _ _ H). Qed.

Lemma existsb_elem {A} (f : A → bool) (l : list A) :
  existsb f l = true ↔ ∃ x, x ∈ l ∧ f x = true.
Proof. rewrite existsb_exists. setoid_rewrite list_elem_of_In. done. Qed.

Lemma forallb_elem {A} (f : A → bool) (l : list A) :
  forallb f l = true ↔ ∀ x, x ∈ l → f x = true.
Proof. rewrite forallb_forall. setoid_rewrite list_elem_of_In. done. Qed.

Lemma List_filter_elem {A} (f : A → bool) (l : list A) x :
  x ∈ List.filter f l ↔ x ∈ l ∧ f x = true.
Proof. rewrite !list_elem_of_In. apply filter_In. Qed.

(** ** Map: iteration follows insertion order, and setting an existing key
    keeps its place *)

Section JsMap.
Context {K V : Type} `{EqDecision K}.

Fixpoint map_get (k : K) (m : list (K * V)) : option V :=
  match m with
  | [] => None
  | (k', v) :: m => if k === k' then Some v else map_get k m
  end.
Fixpoint map_set (k : K) (v : V) (m : list (K * V)) : list (K * V) :=
  match m with
  | [] => [(k, v)]
  | (k', v') :: m => if k === k' then (k', v) :: m else (k', v') :: map_set k v m
  end.

Lemma map_get_set_eq k v m : map_get k (map_set k v m) = Some v.
Proof.
  induction m as [|[k' v'] m IH]; simpl; [by rewrite strict_eq_refl|].
  destruct (k === k') eqn:E; simpl; by rewrite E.
Qed.
Lemma map_get_set_ne k k' v m : k ≠ k' → map_get k (map_set k' v m) = map_get k m.
Proof.
  intros Hk. induction m as [|[k'' v'] m IH]; simpl; [by rewrite bool_decide_eq_false_2|].
  destruct (k' === k'') eqn:E; simpl; [|by rewrite IH].
  to_prop. subst. by rewrite bool_decide_eq_false_2.
Qed.
Lemma map_get_elem k v m : map_get k m = Some v → (k, v) ∈ m.
Proof.
  induction m as [|[k' v'] m IH]; simpl; [done|]. case_bool_decide; subst.
  - intros [= ->]. apply list_elem_of_here.
  - intros H'. by apply list_elem_of_further, IH.
Qed.
Lemma map_keys_set k v m :
  (map_set k v m).*1 = if bool_decide (k ∈ m.*1) then m.*1 else (m.*1 ++ [k])%list.
Proof.
  induction m as [|[k' v'] m IH]; [done|]. cbn [map_set]. rewrite fmap_cons. cbn [fst].
  destruct (decide (k = k')) as [->|Hne].
  - rewrite strict_eq_refl. rewrite bool_decide_eq_true_2; [done|apply list_elem_of_here].
  - rewrite (bool_decide_eq_false_2 (k = k')) by done. rewrite fmap_cons. cbn [fst]. rewrite IH.
    destruct (decide (k ∈ m.*1)).
    + rewrite !bool_decide_eq_true_2; [done|by apply list_elem_of_further|done].
    + rewrite !bool_decide_eq_false_2; [done|rewrite elem_of_cons; naive_solver|done].
Qed.
Lemma NoDup_map_set k v m : NoDup m.*1 → NoDup (map_set k v m).*1.
Proof.
  intros Hm. rewrite map_keys_set. case_bool_decide; [done|].
  apply NoDup_app. split_and!; [done| |apply NoDup_singleton].
  intros x Hx Hs. apply list_elem_of_singleton in Hs as ->. done.
Qed.
Lemma map_elem_get k v m : NoDup m.*1 → (k, v) ∈ m → map_get k m = Some v.
Proof.
  induction m as [|[k' v'] m IH]; simpl; [by intros _ ?%elem_of_nil|].
  intros [Hn Hm]%NoDup_cons [[= -> ->]|Hin]%elem_of_cons; [by rewrite strict_eq_refl|].
  rewrite bool_decide_eq_false_2; [by apply IH|]. intros ->. apply Hn.
  apply list_elem_of_fmap. by exists (k', v).
Qed.
End JsMap.

(** [new Map(xs.map((x) => [f(x), x]))] *)
Definition index_by {A} (f : A → string) (xs : list A) : list (string * A) :=
  fold_left (λ m x, map_set (f x) x m) xs [].

Section IndexBy.
Context {A : Type} (f : A → string).
Implicit Types (xs : list A).

Lemma map_set_new (k : string) (v : A) m : k ∉ m.*1 → map_set k v m = (m ++ [(k, v)])%list.
Proof.
  induction m as [|[k' v'] m IH]; cbn; [done|]. rewrite elem_of_cons. intros Hn.
  rewrite bool_decide_eq_false_2 by (clear -Hn; intros ->; by apply Hn; left). rewrite IH; [done|].
  clear -Hn. intros Hm. by apply Hn; right.
Qed.

Lemma index_by_from xs (m : list (string * A)) :
  NoDup (m.*1 ++ map f xs)%list → fold_left (λ m x, map_set (f x) x m) xs m = (m ++ map (λ x, (f x, x)) xs)%list.
Proof.
  revert m. induction xs as [|x xs IH]; intros m Hnd; cbn; [by rewrite app_nil_r|].
  rewrite map_set_new.
  2: { apply NoDup_app in Hnd as (_ & Hd & _). intros Hin. apply (Hd _ Hin). apply list_elem_of_here. }
  rewrite IH; [by rewrite <- app_assoc|]. rewrite fmap_app, <- app_assoc. exact Hnd.
Qed.

(** With distinct keys the map is the list of entries, and a lookup finds the
    element with that key. *)
Lemma index_by_map xs : NoDup (map f xs) → index_by f xs = map (λ x, (f x, x)) xs.
Proof. intros Hnd. exact (index_by_from xs [] Hnd). Qed.

Lemma index_by_get xs k : map_get k (map (λ x, (f x, x)) xs) = List.find (λ x, f x === k) xs.
Proof.
  induction xs as [|x xs IH]; cbn; [done|]. destruct (decide (k = f x)) as [->|Hne].
  - by rewrite !strict_eq_refl.
  - rewrite !bool_decide_eq_false_2 by congruence. done.
Qed.

Lemma index_by_Some xs k x : NoDup (map f xs) → map_get k (index_by f xs) = Some x ↔ x ∈ xs ∧ f x = k.
Proof.
  intros Hnd. rewrite index_by_map by done. split.
  - intros Hx%map_get_elem. apply list_elem_of_fmap in Hx as (y & [= -> ->] & Hy). done.
  - intros [Hx <-]. apply map_elem_get; [|apply list_elem_of_fmap; by exists x].
    rewrite <- list_fmap_compose. exact Hnd.
Qed.

Lemma index_unique xs x y : NoDup (map f xs) → x ∈ xs → y ∈ xs → f x = f y → x = y.
Proof.
  intros Hnd Hx Hy He. assert (map_get (f x) (index_by f xs) = Some x) as H1 by (by apply index_by_Some).
  assert (map_get (f x) (index_by f xs) = Some y) as H2 by (by apply index_by_Some). congruence.
Qed.
End IndexBy.

(** ** Dates

    [Date.parse] and [Date.prototype.toISOString].  [Date.parse] is
    implementation-defined off the ISO format, so the model takes both as an
    interface; an instant is a number of milliseconds. *)
Class JsDate := {
  Date_parse : string → option Z; (* [None] is [NaN] *)
  toISOString : Z → string;
}.

(** Instants ECMA-262 represents: 100,000,000 days around the epoch. *)
Definition valid_time (t : Z) : Prop := (-8640000000000000 <= t <= 8640000000000000)%Z.

(** The round trip ECMA-262 requires of the pair. *)
Class JsDateLaws `{JsDate} := {
  Date_parse_toISOString : ∀ t, valid_time t → Date_parse (toISOString t) = Some t;
}.

(** Truthiness of an optional string: [undefined], [null] and the empty string
    are falsy. *)
Definition truthy (o : option string) : bool :=
  match o with Some s => s !== EmptyString | None => false end.

(** [a <= b] and [a > b] on the results of [Date.parse]; false on [NaN]. *)
Definition date_le (a b : option Z) : bool :=
  match a, b with Some x, Some y => Z.leb x y | _, _ => false end.
Definition date_lt (a b : option Z) : bool :=
  match a, b with Some x, Some y => Z.ltb x y | _, _ => false end.

(** ** node:crypto

    The digests are parameters: [createHash("sha256").update(b).digest("hex")]
    and the MD5 of an entity tag.  What the code relies on is the shape of a
    hexadecimal SHA-256; where a theorem needs two inputs to be the same
    because their digests are, it returns the collision instead. *)
Class Crypto := {
  sha256 : string → string;
  md5 : string → string;
}.
Class CryptoLaws `{Crypto} := {
  sha256_hex : ∀ b, SHA256_PATTERN (sha256 b) = true;
}.

(** Two different inputs with one digest. *)
Definition sha256_collision `{Crypto} (x y : string) : Prop := x ≠ y ∧ sha256 x = sha256 y.

Lemma sha256_eq_or_collision `{Crypto} x y : sha256 x = sha256 y → x = y ∨ sha256_collision x y.
Proof. intros H'. destruct (decide (x = y)); [by left | by right]. Qed.
