(* ===== verification/Concrete.v ===== *)
(** * Concrete dates and digests

    Executable instances of [JsDate] and [Crypto] on which the theorems'
    hypotheses are exercised: timestamps are decimal milliseconds (or the tagged
    binary form [toISOString] prints), the digest is a polynomial checksum
    printed as 64 hexadecimal digits. *)
From S2P Require Import Prelude Js.

(** ** Dates *)

Fixpoint print_pos (p : positive) : string :=
  match p with
  | xI p => String "1" (print_pos p)
  | xO p => String "0" (print_pos p)
  | xH => "."
  end.
Fixpoint parse_pos (s : string) : option positive :=
  match s with
  | String c s' =>
      if c === "."%char then (if s' === EmptyString then Some xH else None)
      else if c === "1"%char then xI <$> parse_pos s'
      else if c === "0"%char then xO <$> parse_pos s' else None
  | EmptyString => None
  end.
Definition print_time (t : Z) : string :=
  match t with
  | Z0 => "b"
  | Zpos p => String "b" (print_pos p)
  | Zneg p => String "-" (print_pos p)
  end.
Definition parse_decimal (s : string) : option Z :=
  if (s !== EmptyString) && forallb is_digit (chars s)
  then Some (fold_left (λ acc c, 10 * acc + Z.of_nat (nat_of_ascii c - 48))%Z (chars s) 0%Z)
  else None.
Definition parse_time (s : string) : option Z :=
  match s with
  | String "b" EmptyString => Some 0%Z
  | String "b" s' => Zpos <$> parse_pos s'
  | String "-" s' => Zneg <$> parse_pos s'
  | _ => parse_decimal s
  end.

Lemma parse_print_pos p : parse_pos (print_pos p) = Some p.
Proof. induction p as [p IH|p IH|]; simpl; try rewrite IH; reflexivity. Qed.
Lemma parse_print_time t : parse_time (print_time t) = Some t.
Proof.
  destruct t as [|p|p]; simpl; [done| |by rewrite parse_print_pos].
  rewrite parse_print_pos. by destruct p.
Qed.

#[export] Instance concrete_date : JsDate :=
  {| Date_parse := parse_time; toISOString := print_time |}.
#[export] Instance concrete_date_laws : JsDateLaws.
Proof. constructor. intros. apply parse_print_time. Qed.

(** ** Digests *)

Definition hex_digit (d : Z) : ascii :=
  ascii_of_nat (if (d <? 10)%Z then 48 + Z.to_nat d else 87 + Z.to_nat d).
Fixpoint hex_of (n : nat) (z : Z) : string :=
  match n with
  | O => EmptyString
  | S n => hex_of n (z / 16) +:+ String (hex_digit (z mod 16)) EmptyString
  end.
Definition checksum (b : string) : Z :=
  fold_left (λ h c, (h * 257 + Z.of_nat (nat_of_ascii c) + 1) mod 4294967291)%Z (chars b) 0%Z.
(** [n] copies of the eight digits of a checksum. *)
Fixpoint copies (n : nat) (s : string) : string :=
  match n with O => EmptyString | S n => s +:+ copies n s end.
Definition digest (n : nat) (b : string) : string := copies n (hex_of 8 (checksum b)).

Lemma hex_of_length n z : String.length (hex_of n z) = n.
Proof. revert z. induction n as [|n IH]; intros z; simpl; [done|]. rewrite string_length_app, IH. simpl. lia. Qed.
Lemma hex_digit_hex z : (0 <= z < 16)%Z → is_hex_lower (hex_digit z) = true.
Proof.
  intros Hz.
  assert (∀ n, n < 16 → is_hex_lower (hex_digit (Z.of_nat n)) = true) as Hall.
  { intros n Hn. do 16 (destruct n as [|n]; [reflexivity|]). lia. }
  rewrite <- (Z2Nat.id z) by lia. apply Hall. lia.
Qed.
Lemma hex_of_hex n z : forallb is_hex_lower (chars (hex_of n z)) = true.
Proof.
  revert z. induction n as [|n IH]; intros z; simpl; [done|].
  rewrite chars_app, forallb_app, IH. simpl. rewrite hex_digit_hex; [done|]. apply Z.mod_pos_bound. lia.
Qed.

Lemma digest_length n b : String.length (digest n b) = (8 * n)%nat.
Proof. induction n as [|n IH]; [done|]. unfold digest in *. cbn [copies]. rewrite string_length_app, hex_of_length, IH. lia. Qed.
Lemma digest_hex n b : forallb is_hex_lower (chars (digest n b)) = true.
Proof. induction n as [|n IH]; [done|]. unfold digest in *. cbn [copies]. by rewrite chars_app, forallb_app, hex_of_hex, IH. Qed.

#[export] Instance concrete_crypto : Crypto := {| sha256 := digest 8; md5 := digest 4 |}.
#[export] Instance concrete_crypto_laws : CryptoLaws.
Proof. constructor. intros b. apply SHA256_PATTERN_spec. split; [apply digest_length|]. apply forallb_elem, digest_hex. Qed.
