(* ===== verification/Json.v ===== *)
(** * JSON values and their canonical encodings

    The sources hash JSON values through four copies of one recursive printer
    (audit chain, schema registry, archive, revision history): object keys in
    sorted order, no white space.  The printer is written once here over the
    key order; the archive, audit and schema copies sort by code unit, the
    history copy by [localeCompare].

    A JSON number is an integer (what the sources put in hashed values:
    counts, lengths, revision numbers, days); an object is its list of
    own enumerable properties in insertion order. *)
From S2P Require Import Prelude Js.
#[local] Arguments String.append !s1 s2 /.

Inductive json : Type :=
  | JNull
  | JBool (b : bool)
  | JNumber (z : Z)
  | JString (s : string)
  | JArray (items : list json)
  | JObject (entries : list (string * json)).

(** ** Induction through the nested lists *)

Section JsonInd.
Variable P : json → Prop.
Hypothesis HNull : P JNull.
Hypothesis HBool : ∀ b, P (JBool b).
Hypothesis HNumber : ∀ z, P (JNumber z).
Hypothesis HString : ∀ s, P (JString s).
Hypothesis HArray : ∀ l, Forall P l → P (JArray l).
Hypothesis HObject : ∀ l, Forall (λ kv, P kv.2) l → P (JObject l).

Fixpoint json_nested_ind (j : json) : P j :=
  match j with
  | JNull => HNull
  | JBool b => HBool b
  | JNumber z => HNumber z
  | JString s => HString s
  | JArray l => HArray l
      ((fix go (l : list json) : Forall P l :=
          match l with
          | [] => List.Forall_nil _
          | x :: l' => List.Forall_cons _ _ _ (json_nested_ind x) (go l')
          end) l)
  | JObject l => HObject l
      ((fix go (l : list (string * json)) : Forall (λ kv, P kv.2) l :=
          match l with
          | [] => List.Forall_nil _
          | x :: l' => List.Forall_cons _ _ _ (json_nested_ind x.2) (go l')
          end) l)
  end.
End JsonInd.

#[global] Instance json_eq_dec : EqDecision json.
Proof.
  refine (fix go (x y : json) {struct x} : Decision (x = y) :=
    match x, y with
    | JNull, JNull => left eq_refl
    | JBool a, JBool b => cast_if (decide (a = b))
    | JNumber a, JNumber b => cast_if (decide (a = b))
    | JString a, JString b => cast_if (decide (a = b))
    | JArray a, JArray b => cast_if (@list_eq_dec json go a b)
    | JObject a, JObject b =>
        cast_if (@list_eq_dec _ (@prod_eq_dec string String.eq_dec json go) a b)
    | _, _ => right _
    end); try discriminate; try abstract congruence.
Defined.

(** Property lookup, [record[key]]. *)
Definition obj_get (entries : list (string * json)) (key : string) : option json :=
  snd <$> List.find (λ kv, kv.1 === key) entries.

(** ** [JSON.stringify] of a string *)

Definition hex_digit (n : nat) : ascii :=
  if Nat.ltb n 10 then ascii_of_nat (48 + n) else ascii_of_nat (87 + n).

Definition QUOTE : ascii := ascii_of_nat 34.
Definition BACKSLASH : ascii := ascii_of_nat 92.

Definition escape_char (c : ascii) : string :=
  let n := nat_of_ascii c in
  match n with
  | 8 => String BACKSLASH "b"
  | 9 => String BACKSLASH "t"
  | 10 => String BACKSLASH "n"
  | 12 => String BACKSLASH "f"
  | 13 => String BACKSLASH "r"
  | 34 => String BACKSLASH (String QUOTE EmptyString)
  | 92 => String BACKSLASH (String BACKSLASH EmptyString)
  | _ =>
      if Nat.ltb n 32
      then String BACKSLASH ("u00" +:+
             String (hex_digit (n / 16)) (String (hex_digit (n mod 16)) EmptyString))
      else String c EmptyString
  end.

Fixpoint escape (s : string) : string :=
  match s with
  | EmptyString => EmptyString
  | String c s' => escape_char c +:+ escape s'
  end.

Definition stringify_string (s : string) : string :=
  String QUOTE (escape s +:+ String QUOTE EmptyString).

(** ** Canonical encoding, over the order of the keys *)

(** [.sort()] of the entries by key; insertion sort is stable, as JavaScript's
    sort is. *)
Section Sort.
Context {A : Type} (leb : string → string → bool).

Fixpoint insert_key (kv : string * A) (l : list (string * A)) : list (string * A) :=
  match l with
  | [] => [kv]
  | kv' :: l' => if leb kv.1 kv'.1 then kv :: l else kv' :: insert_key kv l'
  end.
Fixpoint sort_keys (l : list (string * A)) : list (string * A) :=
  match l with
  | [] => []
  | kv :: l' => insert_key kv (sort_keys l')
  end.
End Sort.

(** [xs.join(",")]. *)
Fixpoint commas (xs : list string) : string :=
  match xs with
  | [] => EmptyString
  | [x] => x
  | x :: xs' => x +:+ String "," (commas xs')
  end.

Definition stringify_entry (kv : string * string) : string :=
  stringify_string kv.1 +:+ String ":" kv.2.

Fixpoint canonical_with (leb : string → string → bool) (v : json) : string :=
  match v with
  | JNull => "null"
  | JBool true => "true"
  | JBool false => "false"
  | JNumber z => pretty z
  | JString s => stringify_string s
  | JArray items =>
      String "[" (commas (map (canonical_with leb) items) +:+ "]")
  | JObject entries =>
      String "{" (commas (map stringify_entry
        (sort_keys leb (map (λ kv, (kv.1, canonical_with leb kv.2)) entries))) +:+ "}")
  end.

(** The value an encoding stands for: every object's entries sorted. *)
Fixpoint normalise (leb : string → string → bool) (v : json) : json :=
  match v with
  | JArray items => JArray (map (normalise leb) items)
  | JObject entries =>
      JObject (sort_keys leb (map (λ kv, (kv.1, normalise leb kv.2)) entries))
  | _ => v
  end.

(** Source: packages/archive/src/canonical.ts:3-16 canonicalJson *)
Definition canonicalJson : json → string := canonical_with String.leb.
(** Source: packages/audit/src/audit-chain.ts:22-27 canonicalValue *)
Definition canonicalValue : json → string := canonical_with String.leb.
(** Source: packages/schema-registry/src/canonical.ts:3-8 canonicalize *)
Definition canonicalize : json → string := canonical_with String.leb.
(** [JSON.stringify]: the properties in insertion order. *)
Definition JSON_stringify : json → string := canonical_with (λ _ _, true).

(** No object of the value has a repeated key. *)
Fixpoint json_wf (v : json) : Prop :=
  match v with
  | JArray items => Forall id (map json_wf items)
  | JObject entries =>
      NoDup (map fst entries) ∧ Forall id (map (λ kv, json_wf kv.2) entries)
  | _ => True
  end.

(** ** The escaped string is self-delimiting *)

Definition all_ascii : list ascii := map ascii_of_nat (seq 0 256).

Lemma elem_of_all_ascii c : c ∈ all_ascii.
Proof.
  unfold all_ascii. rewrite <- (ascii_nat_embedding c). apply list_elem_of_In, in_map, in_seq.
  pose proof (nat_ascii_bounded c). lia.
Qed.

Lemma all_ascii_forall (p : ascii → bool) : forallb p all_ascii = true → ∀ c, p c = true.
Proof. intros H c. rewrite forallb_elem in H. apply H, elem_of_all_ascii. Qed.

(** No escape sequence is a prefix of another one, and none starts with the
    closing quote. *)
Definition prefix_code_ok (c1 c2 : ascii) : bool :=
  negb (String.prefix (escape_char c1) (escape_char c2)) || (c1 === c2).
Definition no_quote_head (c : ascii) : bool :=
  match escape_char c with String x _ => x !== QUOTE | EmptyString => false end.

Lemma prefix_code_all c1 : forallb (prefix_code_ok c1) all_ascii = true.
Proof.
  revert c1. apply (all_ascii_forall (λ c1, forallb (prefix_code_ok c1) all_ascii)).
  vm_compute. reflexivity.
Qed.

Lemma escape_char_prefix_code c1 c2 :
  String.prefix (escape_char c1) (escape_char c2) = true → c1 = c2.
Proof.
  intros H. pose proof (all_ascii_forall _ (prefix_code_all c1) c2) as Hc.
  unfold prefix_code_ok in Hc. rewrite H in Hc. simpl in Hc. by to_prop.
Qed.

Lemma escape_char_head c : ∃ x t, escape_char c = String x t ∧ x ≠ QUOTE.
Proof.
  assert (no_quote_head c = true) as H
    by (apply all_ascii_forall; vm_compute; reflexivity).
  unfold no_quote_head in H. destruct (escape_char c) as [|x t]; [done|]. to_prop. eauto.
Qed.

Lemma app_prefix_cases (a1 a2 t1 t2 : string) :
  a1 +:+ t1 = a2 +:+ t2 → String.prefix a1 a2 = true ∨ String.prefix a2 a1 = true.
Proof.
  revert a2. induction a1 as [|x a1 IH]; intros [|y a2] H; simpl in *; auto.
  injection H as -> H. destruct (ascii_dec y y); [|done]. auto.
Qed.

Lemma escape_inj s1 s2 r1 r2 :
  escape s1 +:+ String QUOTE r1 = escape s2 +:+ String QUOTE r2 → s1 = s2 ∧ r1 = r2.
Proof.
  revert s2. induction s1 as [|c1 s1 IH]; intros [|c2 s2] H; simpl in *.
  - by injection H.
  - destruct (escape_char_head c2) as (x & t & Hx & Hne). rewrite Hx in H. simpl in H. congruence.
  - destruct (escape_char_head c1) as (x & t & Hx & Hne). rewrite Hx in H. simpl in H. congruence.
  - rewrite <- !string_app_assoc in H.
    assert (c1 = c2) as ->.
    { destruct (app_prefix_cases _ _ _ _ H) as [Hp|Hp]; [|symmetry];
        by apply escape_char_prefix_code. }
    apply (inj (String.append _)) in H. by destruct (IH _ H) as [-> ->].
Qed.

Lemma stringify_string_inj s1 s2 r1 r2 :
  stringify_string s1 +:+ r1 = stringify_string s2 +:+ r2 → s1 = s2 ∧ r1 = r2.
Proof.
  unfold stringify_string. simpl. intros [= H]. rewrite <- !string_app_assoc in H.
  by apply escape_inj in H.
Qed.

(** ** Decimal numerals end where a delimiter begins *)

Definition numeral_char (c : ascii) : bool := is_digit c || (c === "-"%char).

Lemma pretty_N_go_numeral x s :
  forallb numeral_char (chars s) = true → forallb numeral_char (chars (pretty_N_go x s)) = true.
Proof.
  revert s. induction (N.lt_wf_0 x) as [x _ IH]; intros s Hs.
  destruct (decide (0 < x)%N) as [Hx|Hx].
  - rewrite pretty_N_go_step by done. apply IH; [by apply N.div_lt|].
    simpl. rewrite Hs, andb_true_r. unfold pretty_N_char. by repeat case_match.
  - assert (x = 0%N) as -> by lia. by rewrite pretty_N_go_0.
Qed.

Lemma pretty_N_numeral (x : N) :
  ∃ c t, pretty x = String c t ∧ forallb numeral_char (chars (String c t)) = true.
Proof.
  unfold pretty, pretty_N. case_decide as Hx; [by eexists _, _|].
  assert (pretty_N_go x "" ≠ "") as Hne.
  { rewrite pretty_N_go_step by lia. intros Hn.
    assert (∀ y s, String.length s ≤ String.length (pretty_N_go y s)) as Hlen.
    { intros y. induction (N.lt_wf_0 y) as [y _ IH]; intros s.
      destruct (decide (0 < y)%N); [|assert (y = 0%N) as -> by lia; by rewrite pretty_N_go_0].
      rewrite pretty_N_go_step by done. etrans; [|apply IH; by apply N.div_lt]. simpl. lia. }
    specialize (Hlen (x `div` 10)%N (String (pretty_N_char (x `mod` 10)) "")).
    rewrite Hn in Hlen. simpl in Hlen. lia. }
  pose proof (pretty_N_go_numeral x "" eq_refl) as Hf.
  destruct (pretty_N_go x "") as [|c t]; [done|]. eauto.
Qed.

Lemma pretty_Z_numeral (z : Z) :
  ∃ c t, pretty z = String c t ∧ forallb numeral_char (chars (String c t)) = true.
Proof.
  destruct z as [|p|p].
  - by eexists _, _.
  - exact (pretty_N_numeral (Npos p)).
  - destruct (pretty_N_numeral (Npos p)) as (c & t & Hp & Hf).
    change (pretty (Zneg p)) with ("-" +:+ pretty (Npos p)). rewrite Hp. simpl.
    eexists _, _. split; [done|]. simpl in *. by rewrite Hf.
Qed.

(** What may follow an encoded value: the end, or a delimiter. *)
Definition tail_ok (r : string) : Prop :=
  match r with EmptyString => True | String c _ => c ∈ [","; "]"; "}"]%char end.

Lemma numeral_split a1 a2 r1 r2 :
  forallb numeral_char (chars a1) = true → forallb numeral_char (chars a2) = true →
  tail_ok r1 → tail_ok r2 → a1 +:+ r1 = a2 +:+ r2 → a1 = a2 ∧ r1 = r2.
Proof.
  assert (∀ c, numeral_char c = true → c ∉ [","; "]"; "}"]%char) as Hd.
  { intros c Hc Hin. rewrite !elem_of_cons, elem_of_nil in Hin.
    destruct Hin as [->|[->|[->|[]]]]; discriminate Hc. }
  revert a2. induction a1 as [|x a1 IH]; intros [|y a2] H1 H2 Ht1 Ht2 H; simpl in *; to_prop.
  - done.
  - subst r1. exfalso. by eapply Hd.
  - subst r2. exfalso. by eapply Hd.
  - injection H as -> H. destruct (IH a2) as [-> ->]; auto.
Qed.

(** ** The encoding is injective up to key order *)

Section Injective.
Context (leb : string → string → bool).
Abbreviation canon := (canonical_with leb).
Abbreviation norm := (normalise leb).

Definition tag_of (v : json) : nat :=
  match v with
  | JNull => 0 | JBool true => 1 | JBool false => 2 | JNumber _ => 3
  | JString _ => 4 | JArray _ => 5 | JObject _ => 6
  end.
Definition tag_head (c : ascii) : nat :=
  if numeral_char c then 3
  else if c === "n"%char then 0 else if c === "t"%char then 1
  else if c === "f"%char then 2 else if c === QUOTE then 4
  else if c === "["%char then 5 else if c === "{"%char then 6 else 7.

Lemma canon_head v : ∃ c t, canon v = String c t ∧ tag_head c = tag_of v.
Proof.
  destruct v as [|[]|z|s|l|l]; try (by eexists _, _).
  destruct (pretty_Z_numeral z) as (c & t & Hz & Hf). simpl in *. to_prop.
  rewrite Hz. exists c, t. split; [done|]. unfold tag_head. by rewrite H.
Qed.

Definition inj_at (v1 : json) : Prop := ∀ v2 r1 r2,
  tail_ok r1 → tail_ok r2 → canon v1 +:+ r1 = canon v2 +:+ r2 → norm v1 = norm v2 ∧ r1 = r2.

Lemma canon_not_delim v r c t : tail_ok (String c t) → canon v +:+ r ≠ String c t.
Proof.
  destruct (canon_head v) as (x & u & -> & Htag). intros Hin [= -> _].
  simpl in Hin. rewrite !elem_of_cons, elem_of_nil in Hin.
  destruct Hin as [->|[->|[->|[]]]]; by destruct v as [|[]| | | |].
Qed.

Lemma commas_cons x xs r :
  commas (x :: xs) +:+ r = x +:+ match xs with [] => r | _ => String "," (commas xs +:+ r) end.
Proof. destruct xs as [|y xs]; [done|]. simpl. by rewrite <- string_app_assoc. Qed.

(** Items of an array, or of a sorted object given how entries split. *)
Lemma commas_inj {A} (f : A → string) (R : A → A → Prop) close (l1 l2 : list A) r1 r2 :
  close ∈ ["]"; "}"]%char →
  (∀ x t c u, c ∈ [","; "]"; "}"]%char → f x +:+ t ≠ String c u) →
  Forall (λ x, ∀ y t1 t2, tail_ok t1 → tail_ok t2 →
    f x +:+ t1 = f y +:+ t2 → R x y ∧ t1 = t2) l1 →
  commas (map f l1) +:+ String close r1 = commas (map f l2) +:+ String close r2 →
  Forall2 R l1 l2 ∧ r1 = r2.
Proof.
  intros Hclose Hhead. assert (close ∈ [","; "]"; "}"]%char) as Hc by set_solver.
  revert l2. induction l1 as [|x l1 IH]; intros [|y l2] HF H.
  - by injection H.
  - cbn [map] in H. rewrite commas_cons in H. simpl in H. by apply (eq_sym), Hhead in H.
  - cbn [map] in H. rewrite commas_cons in H. simpl in H. by apply Hhead in H.
  - inversion HF as [|?? Hx HF']; subst. cbn [map] in H. rewrite !commas_cons in H.
    assert (close ≠ ","%char) as Hne by set_solver.
    apply Hx in H as [HR H]; [| by destruct l1; simpl; set_solver | by destruct l2; simpl; set_solver].
    destruct l1 as [|x' l1], l2 as [|y' l2]; simpl in H; try congruence.
    + injection H as ->. repeat constructor; auto.
    + injection H as H. destruct (IH (y' :: l2) HF' H) as [? ->].
      split; [by constructor | done].
Qed.

Lemma insert_key_map {A B} (g : A → B) kv (l : list (string * A)) :
  insert_key leb (kv.1, g kv.2) (map (λ kv, (kv.1, g kv.2)) l) =
  map (λ kv, (kv.1, g kv.2)) (insert_key leb kv l).
Proof. induction l as [|kv' l IH]; simpl; [done|]. destruct (leb _ _); simpl; congruence. Qed.

Lemma sort_keys_map {A B} (g : A → B) (l : list (string * A)) :
  sort_keys leb (map (λ kv, (kv.1, g kv.2)) l) = map (λ kv, (kv.1, g kv.2)) (sort_keys leb l).
Proof. induction l as [|kv l IH]; simpl; [done|]. rewrite IH. apply insert_key_map. Qed.

Lemma insert_key_perm {A} (kv : string * A) l : insert_key leb kv l ≡ₚ kv :: l.
Proof.
  induction l as [|kv' l IH]; simpl; [done|]. destruct (leb _ _); [done|].
  rewrite IH. constructor.
Qed.
Lemma sort_keys_perm {A} (l : list (string * A)) : sort_keys leb l ≡ₚ l.
Proof. induction l as [|kv l IH]; simpl; [done|]. by rewrite insert_key_perm, IH. Qed.

Lemma canon_object l :
  canon (JObject l) =
  String "{" (commas (map (λ kv, stringify_entry (kv.1, canon kv.2)) (sort_keys leb l)) +:+ "}").
Proof. simpl. rewrite (sort_keys_map canon). by rewrite map_map. Qed.

Lemma norm_object l :
  norm (JObject l) = JObject (map (λ kv, (kv.1, norm kv.2)) (sort_keys leb l)).
Proof. simpl. by rewrite (sort_keys_map norm). Qed.

Lemma Forall2_norm_map (l1 l2 : list json) :
  Forall2 (λ x y, norm x = norm y) l1 l2 → map norm l1 = map norm l2.
Proof. induction 1; simpl; congruence. Qed.

Lemma Forall2_norm_entries (l1 l2 : list (string * json)) :
  Forall2 (λ x y, x.1 = y.1 ∧ norm x.2 = norm y.2) l1 l2 →
  map (λ kv, (kv.1, norm kv.2)) l1 = map (λ kv, (kv.1, norm kv.2)) l2.
Proof. induction 1 as [|[] [] ?? [??]]; simpl in *; congruence. Qed.

Lemma entry_inj kv1 : inj_at kv1.2 → ∀ kv2 t1 t2, tail_ok t1 → tail_ok t2 →
  stringify_entry (kv1.1, canon kv1.2) +:+ t1 = stringify_entry (kv2.1, canon kv2.2) +:+ t2 →
  (kv1.1 = kv2.1 ∧ norm kv1.2 = norm kv2.2) ∧ t1 = t2.
Proof.
  intros Hi kv2 t1 t2 Ht1 Ht2 H. unfold stringify_entry in H. cbn [fst snd] in H.
  rewrite <- !string_app_assoc in H. apply stringify_string_inj in H as [-> [= H]].
  apply Hi in H as [-> ->]; auto.
Qed.

Lemma canon_entries_inj l l2 r1 r2 :
  Forall (λ kv, inj_at kv.2) l →
  canon (JObject l) +:+ r1 = canon (JObject l2) +:+ r2 →
  norm (JObject l) = norm (JObject l2) ∧ r1 = r2.
Proof.
  intros IH H. rewrite !canon_object in H. simpl in H. injection H as H.
  rewrite <- !string_app_assoc in H. simpl in H.
  apply (commas_inj _ (λ x y, x.1 = y.1 ∧ norm x.2 = norm y.2)) in H as [HF ->]; [| set_solver | | ].
  - split; [|done]. rewrite !norm_object. f_equal. by apply Forall2_norm_entries.
  - intros [k v] t c u Hc He. unfold stringify_entry, stringify_string in He. simpl in He.
    injection He as <- _. set_solver.
  - rewrite (sort_keys_perm l). eapply Forall_impl; [exact IH|]. intros kv. apply entry_inj.
Qed.

Lemma canon_inj_at v : inj_at v.
Proof.
  induction v as [|b|z|s|l IH|l IH] using json_nested_ind; intros v2 r1 r2 Ht1 Ht2 H;
    (destruct (canon_head v2) as (c2 & u2 & Hc2 & Htag2)).
  all: match type of H with ?c +:+ _ = _ =>
         lazymatch c with canon ?v => destruct (canon_head v) as (c1 & u1 & Hc1 & Htag1) end end.
  all: assert (c1 = c2) as -> by (rewrite Hc1, Hc2 in H; by injection H).
  all: rewrite Htag1 in Htag2; clear Htag1 Hc1 Hc2.
  - destruct v2 as [|[]| | | |]; try discriminate Htag2. simpl in H. by injection H.
  - destruct b, v2 as [|[]| | | |]; try discriminate Htag2; simpl in H; by injection H.
  - destruct v2 as [|[]|z2| | |]; try discriminate Htag2. simpl in H.
    destruct (pretty_Z_numeral z) as (? & ? & E1 & F1), (pretty_Z_numeral z2) as (? & ? & E2 & F2).
    rewrite <- E1 in F1. rewrite <- E2 in F2.
    destruct (numeral_split _ _ _ _ F1 F2 Ht1 Ht2 H) as [->%(inj pretty) ->]. done.
  - destruct v2 as [|[]| |s2| |]; try discriminate Htag2.
    change (stringify_string s +:+ r1 = stringify_string s2 +:+ r2) in H.
    by apply stringify_string_inj in H as [-> ->].
  - destruct v2 as [|[]| | |l2|]; try discriminate Htag2. simpl in H. injection H as H.
    rewrite <- !string_app_assoc in H. simpl in H.
    apply (commas_inj canon (λ x y, norm x = norm y)) in H as [HF ->]; [| set_solver | | ].
    + split; [|done]. simpl. f_equal. by apply Forall2_norm_map.
    + intros x t c u Hc. by apply canon_not_delim.
    + exact IH.
  - destruct v2 as [|[]| | | |l2]; try discriminate Htag2. by apply canon_entries_inj.
Qed.

(** An encoded object ends where it ends, whatever follows it. *)
Lemma canon_object_inj l l2 r1 r2 :
  canon (JObject l) +:+ r1 = canon (JObject l2) +:+ r2 →
  norm (JObject l) = norm (JObject l2) ∧ r1 = r2.
Proof. apply canon_entries_inj, Forall_forall. intros kv _. apply canon_inj_at. Qed.
End Injective.

(** ** Equality of JSON values: the order of an object's keys is insignificant *)

Inductive json_equiv : json → json → Prop :=
  | equiv_null : json_equiv JNull JNull
  | equiv_bool b : json_equiv (JBool b) (JBool b)
  | equiv_number z : json_equiv (JNumber z) (JNumber z)
  | equiv_string s : json_equiv (JString s) (JString s)
  | equiv_array l1 l2 : Forall2 json_equiv l1 l2 → json_equiv (JArray l1) (JArray l2)
  | equiv_object l1 l2 l2' :
      Forall2 (λ x y, x.1 = y.1 ∧ json_equiv x.2 y.2) l1 l2 → l2 ≡ₚ l2' →
      json_equiv (JObject l1) (JObject l2').

(** Sorting by a total order on keys does not depend on the order of the entries. *)
Class KeyOrder (leb : string → string → bool) : Prop := {
  key_total a b : leb a b = true ∨ leb b a = true;
  key_trans a b c : leb a b = true → leb b c = true → leb a c = true;
  key_antisym a b : leb a b = true → leb b a = true → a = b;
}.
#[export] Instance string_key_order : KeyOrder String.leb.
Proof.
  constructor.
  - intros a b. destruct (total String.le a b) as [H|H]; [left|right]; by apply Is_true_true.
  - intros a b c H1 H2. apply Is_true_true. eapply (transitivity (R := String.le)); by apply Is_true_true.
  - intros a b H1 H2. apply (anti_symm String.le); by apply Is_true_true.
Qed.

Section SortUnique.
Context (leb : string → string → bool) `{!KeyOrder leb} {A : Type}.

Definition key_le (a b : string * A) : Prop := leb a.1 b.1 = true.
#[local] Instance key_le_trans : Transitive key_le.
Proof. unfold key_le. intros a b c H1 H2. by eapply key_trans. Qed.

Lemma sort_keys_sorted (l : list (string * A)) : Sorted key_le (sort_keys leb l).
Proof.
  induction l as [|kv l IH]; simpl; [constructor|].
  assert (∀ kv' : string * A, leb kv.1 kv'.1 = false → key_le kv' kv) as Htot.
  { intros kv' H. unfold key_le. destruct (key_total kv.1 kv'.1) as [Hle|Hle]; [congruence|exact Hle]. }
  induction IH as [|kv' l' Hs IH Hd]; simpl; [by repeat constructor|].
  destruct (leb kv.1 kv'.1) eqn:E.
  - constructor; [by constructor|]. constructor. exact E.
  - constructor; [exact IH|]. destruct Hd as [|kv'' l'' Hd]; simpl.
    + constructor. by apply Htot.
    + destruct (leb kv.1 kv''.1); constructor; auto.
Qed.

Lemma fst_functional (l : list (string * A)) k a b :
  NoDup (map fst l) → (k, a) ∈ l → (k, b) ∈ l → a = b.
Proof.
  intros Hnd. induction l as [|[k' c] l IH]; simpl in *; [set_solver|].
  inversion Hnd as [|?? Hk Hnd']; subst. rewrite !elem_of_cons.
  assert (∀ d, (k, d) ∈ l → k ∈ map fst l) as Hfst.
  { intros d Hd. apply list_elem_of_In. apply (in_map fst l (k, d)). by apply list_elem_of_In. }
  intros [[= -> ->]|Ha] [Hb|Hb]; simplify_eq/=; auto; exfalso; eauto.
Qed.

Lemma sort_keys_unique (l1 l2 : list (string * A)) :
  NoDup (map fst l1) → l1 ≡ₚ l2 → sort_keys leb l1 = sort_keys leb l2.
Proof.
  intros Hnd Hp. assert (sort_keys leb l1 ≡ₚ l1) as Hs1 by apply sort_keys_perm.
  apply (Sorted_unique_strong key_le); auto using sort_keys_sorted.
  - intros [k1 a1] [k2 a2] Hin1 Hin2 Hle1 Hle2. unfold key_le in *. simpl in *.
    assert (k1 = k2) as -> by by apply key_antisym.
    rewrite Hs1 in Hin1. rewrite sort_keys_perm, <- Hp in Hin2. f_equal. by eapply fst_functional.
  - by rewrite Hs1, Hp, sort_keys_perm.
Qed.
End SortUnique.

Lemma norm_equiv v1 v2 :
  normalise String.leb v1 = normalise String.leb v2 → json_equiv v1 v2.
Proof.
  revert v2. induction v1 as [|b|z|s|l IH|l IH] using json_nested_ind; intros v2 H.
  1-4: destruct v2; simpl in H; simplify_eq; constructor.
  - destruct v2 as [| | | |l2|]; simpl in H; simplify_eq. constructor.
    revert l2 H. induction IH as [|x l Hx _ IHl]; intros [|y l2] H; simplify_eq/=; constructor; auto.
  - destruct v2 as [| | | | |l2]; try discriminate H. rewrite !norm_object in H. injection H as H.
    assert (Forall2 (λ x y, x.1 = y.1 ∧ json_equiv x.2 y.2)
      (sort_keys String.leb l) (sort_keys String.leb l2)) as HF.
    { rewrite <- (sort_keys_perm String.leb l) in IH.
      revert H IH. generalize (sort_keys String.leb l) (sort_keys String.leb l2).
      intros k1. induction k1 as [|[] k1 IHk]; intros [|[] k2] H HF; simplify_eq/=; constructor;
        inversion HF; subst; auto. }
    destruct (Permutation_Forall2 (sort_keys_perm String.leb l) HF) as (l2' & Hp & HF').
    econstructor; [exact HF'|]. by rewrite <- Hp, sort_keys_perm.
Qed.

Lemma equiv_norm v1 v2 :
  json_wf v1 → json_equiv v1 v2 → normalise String.leb v1 = normalise String.leb v2.
Proof.
  revert v2. induction v1 as [|b|z|s|l IH|l IH] using json_nested_ind; intros v2 Hwf He;
    inversion He as [| | | |? l2 HF|? l2 l2' HF Hp]; subst; try done.
  - simpl in *. f_equal. clear He. revert l2 HF. induction IH as [|x l Hx _ IHl]; intros l2 HF;
      inversion HF; subst; simpl in *; [done|]. inversion Hwf; subst. f_equal; auto.
  - destruct Hwf as [Hnd Hwf]. simpl. f_equal.
    assert (map (λ kv, (kv.1, normalise String.leb kv.2)) l =
            map (λ kv, (kv.1, normalise String.leb kv.2)) l2) as Hm.
    { clear He Hp Hnd. revert l2 HF. induction IH as [|[] l Hx _ IHl]; intros l2 HF;
        inversion HF as [|? [] ? ? [? ?]]; subst; simpl in *; [done|].
      inversion Hwf; subst. f_equal; [f_equal; auto | auto]. }
    apply (sort_keys_unique String.leb).
    + by rewrite map_map.
    + rewrite Hm. by apply Permutation_map.
Qed.

(** The encoding depends only on the normal form. *)
Lemma norm_canonical leb v1 v2 :
  normalise leb v1 = normalise leb v2 → canonical_with leb v1 = canonical_with leb v2.
Proof.
  revert v2. induction v1 as [|b|z|s|l IH|l IH] using json_nested_ind; intros v2 H.
  1-4: destruct v2; simpl in H; by simplify_eq.
  - destruct v2 as [| | | |l2|]; simpl in H; simplify_eq. simpl. do 3 f_equal.
    revert l2 H. induction IH as [|x l Hx _ IHl]; intros [|y l2] H; simplify_eq/=; f_equal; auto.
  - destruct v2 as [| | | | |l2]; try discriminate H. rewrite !norm_object in H. injection H as H.
    rewrite !canon_object. do 3 f_equal. rewrite <- (sort_keys_perm leb l) in IH.
    revert H IH. generalize (sort_keys leb l) (sort_keys leb l2).
    intros k1. induction k1 as [|[] k1 IHk]; intros [|[] k2] H HF; simplify_eq/=; [done|].
    inversion HF; subst. f_equal; [f_equal; f_equal; auto | auto].
Qed.

Lemma canonical_norm v1 v2 :
  canonicalJson v1 = canonicalJson v2 ↔ normalise String.leb v1 = normalise String.leb v2.
Proof.
  split; [|apply norm_canonical].
  intros H. apply (canon_inj_at String.leb v1 v2 EmptyString EmptyString); simpl; auto.
  unfold canonicalJson in H. by rewrite H.
Qed.

(** Two JSON values have the same canonical encoding exactly when they are
    equal as JSON values, the order of object keys aside (the left value having
    no object with a repeated key, as no JavaScript object has).  So what the
    audit chain, the schema registry and the archive hash is an unambiguous
    name of the value. *)
Theorem canonicalJson_faithful v1 v2 :
  json_wf v1 → canonicalJson v1 = canonicalJson v2 ↔ json_equiv v1 v2.
Proof.
  intros Hwf. rewrite canonical_norm. split; [apply norm_equiv | by apply equiv_norm].
Qed.

Lemma canonicalJson_faithful_witness :
  json_equiv (JObject [("b", JNumber 1); ("a", JArray [JString "x,y"; JNull])])
             (JObject [("a", JArray [JString "x,y"; JNull]); ("b", JNumber 1)]).
Proof.
  apply canonicalJson_faithful; [|vm_compute; reflexivity].
  simpl. split; [|by repeat constructor].
  apply (bool_decide_unpack _). vm_compute. exact I.
Defined.
