(* ===== verification/AuditChain.v ===== *)
(** * packages/audit: the hash-chained audit log

    [appendAuditEvent] hashes the canonical encoding of the event followed by
    the previous event's hash; [verifyAuditChain] recomputes the chain.  The
    theorems: appending keeps a chain verifiable, and two verifiable chains with
    the same last hash are the same log, or exhibit two different hashed inputs
    with one SHA-256. *)
From S2P Require Import Prelude Js Concrete Json.

(** Source: packages/audit/src/audit-chain.ts:3-15 AuditEventBody *)
Record AuditEventBody := mkAuditBody {
  event_id : string;
  event_workspaceId : string;
  event_actorType : string;
  event_actorId : string;
  event_action : string;
  event_subjectKind : string;
  event_subjectId : string;
  event_timestamp : string;
  event_requestId : string;
  event_correlationId : string;
  event_metadata : json;
}.
#[global] Instance AuditEventBody_eq_dec : EqDecision AuditEventBody.
Proof. solve_decision. Defined.

(** Source: packages/audit/src/audit-chain.ts:17-20 ChainedAuditEvent *)
Record ChainedAuditEvent := mkChained {
  chained_body : AuditEventBody;
  previousEventHash : string;
  eventHash : string;
}.
#[global] Instance ChainedAuditEvent_eq_dec : EqDecision ChainedAuditEvent.
Proof. solve_decision. Defined.

(** The object an event body is. *)
Definition body_entries (b : AuditEventBody) : list (string * json) :=
  [("id", JString (event_id b)); ("workspaceId", JString (event_workspaceId b));
   ("actorType", JString (event_actorType b)); ("actorId", JString (event_actorId b));
   ("action", JString (event_action b)); ("subjectKind", JString (event_subjectKind b));
   ("subjectId", JString (event_subjectId b)); ("timestamp", JString (event_timestamp b));
   ("requestId", JString (event_requestId b)); ("correlationId", JString (event_correlationId b));
   ("metadata", event_metadata b)].

(** What is hashed. *)
Definition hashed_input (b : AuditEventBody) (previous : string) : string :=
  canonicalValue (JObject (body_entries b)) +:+ previous.

Section Chain.
Context `{Crypto}.

(** Source: packages/audit/src/audit-chain.ts:29-32 appendAuditEvent *)
Definition appendAuditEvent (body : AuditEventBody) (previous : string) : ChainedAuditEvent :=
  mkChained body previous (sha256 (hashed_input body previous)).

(** The loop of [verifyAuditChain], from a given previous hash. *)
(** Source: packages/audit/src/audit-chain.ts:37-42 verifyAuditChain *)
Fixpoint verify_from (previous : string) (events : list ChainedAuditEvent) : bool :=
  match events with
  | [] => true
  | e :: events =>
      if previousEventHash e !== previous then false
      else if eventHash (appendAuditEvent (chained_body e) previous) !== eventHash e then false
      else verify_from (eventHash e) events
  end.

(** Source: packages/audit/src/audit-chain.ts:34-44 verifyAuditChain *)
Definition verifyAuditChain (events : list ChainedAuditEvent) : bool := verify_from EmptyString events.

(** The hash the next event is chained to. *)
Definition chain_head (events : list ChainedAuditEvent) : string :=
  from_option eventHash EmptyString (last events).

(** ** The chain read from its end *)

Lemma verify_snoc p l e :
  verify_from p (l ++ [e]) = true ↔
  verify_from p l = true ∧ previousEventHash e = from_option eventHash p (last l) ∧
  eventHash e = sha256 (hashed_input (chained_body e) (previousEventHash e)).
Proof.
  revert p. induction l as [|x l IH]; intros p; simpl.
  - repeat case_bool_decide; simpl; split; try done; naive_solver congruence.
  - case_match; [naive_solver|]. case_match; [naive_solver|]. rewrite IH.
    destruct l as [|y l]; [done|]. change (last (x :: y :: l)) with (last (y :: l)).
    destruct (last (y :: l)) eqn:E; [done|by apply last_None in E].
Qed.

Lemma last_last_snoc (l : list ChainedAuditEvent) e : chain_head (l ++ [e]) = eventHash e.
Proof. unfold chain_head. by rewrite last_snoc. Qed.

Lemma verify_head_hash `{!CryptoLaws} l :
  verifyAuditChain l = true → l = [] ∨ SHA256_PATTERN (chain_head l) = true.
Proof.
  destruct l as [|e l _] using rev_ind; [by left|]. intros (_ & _ & He)%verify_snoc. right.
  rewrite last_last_snoc, He. apply sha256_hex.
Qed.

(** Appending to the log keeps it verifiable: an event appended with the
    hash of the last one extends any verified chain to a verified chain whose
    head is the new event. *)
Theorem append_keeps_chain events body :
  verifyAuditChain events = true →
  verifyAuditChain (events ++ [appendAuditEvent body (chain_head events)]) = true ∧
  chain_head (events ++ [appendAuditEvent body (chain_head events)]) =
    sha256 (hashed_input body (chain_head events)).
Proof.
  intros Hv. split; [|apply last_last_snoc]. unfold verifyAuditChain. apply verify_snoc. by split_and!.
Qed.

(** ** Tamper evidence *)

(** Bodies equal as JavaScript values: the order of metadata keys aside. *)
Definition body_equiv (a b : AuditEventBody) : Prop :=
  event_id a = event_id b ∧ event_workspaceId a = event_workspaceId b ∧
  event_actorType a = event_actorType b ∧ event_actorId a = event_actorId b ∧
  event_action a = event_action b ∧ event_subjectKind a = event_subjectKind b ∧
  event_subjectId a = event_subjectId b ∧ event_timestamp a = event_timestamp b ∧
  event_requestId a = event_requestId b ∧ event_correlationId a = event_correlationId b ∧
  json_equiv (event_metadata a) (event_metadata b).

Definition event_equiv (a b : ChainedAuditEvent) : Prop :=
  body_equiv (chained_body a) (chained_body b) ∧
  previousEventHash a = previousEventHash b ∧ eventHash a = eventHash b.

Lemma hashed_input_inj a b p q :
  hashed_input a p = hashed_input b q → body_equiv a b ∧ p = q.
Proof.
  intros [Hn ->]%canon_object_inj. split; [|done]. revert Hn. clear.
  destruct a, b. cbn -[normalise]. cbn [normalise map]. vm_compute sort_keys.
  intros Hn. simplify_eq. unfold body_equiv; simpl. split_and!; try done. by apply norm_equiv.
Qed.

(** The inputs a chain hashes. *)
Definition hashed_inputs (l : list ChainedAuditEvent) : list string :=
  map (λ e, hashed_input (chained_body e) (previousEventHash e)) l.

Lemma hashed_inputs_app l1 l2 : hashed_inputs (l1 ++ l2) = hashed_inputs l1 ++ hashed_inputs l2.
Proof. apply map_app. Qed.

(** C5. The audit log is tamper-evident: two logs that both verify and have
    the same head hash contain the same events in the same order (the order of
    metadata keys aside), unless two different inputs hashed by the two logs
    have the same SHA-256.  So an edited, removed, inserted or reordered event
    changes the head or is a found collision. *)
Theorem audit_chain_tamper_evident `{!CryptoLaws} l1 l2 :
  verifyAuditChain l1 = true → verifyAuditChain l2 = true → chain_head l1 = chain_head l2 →
  Forall2 event_equiv l1 l2 ∨
  ∃ x y, x ∈ hashed_inputs l1 ∧ y ∈ hashed_inputs l2 ∧ sha256_collision x y.
Proof.
  revert l2. induction l1 as [|e1 l1 IH] using rev_ind; intros l2.
  - intros _ Hv2 Hh. left. destruct (verify_head_hash _ Hv2) as [->|Hx]; [done|].
    rewrite <- Hh in Hx. discriminate Hx.
  - destruct l2 as [|e2 l2 _] using rev_ind.
    { intros Hv1 _ Hh. destruct (verify_head_hash _ Hv1) as [?|Hx]; [by destruct l1|].
      rewrite Hh in Hx. discriminate Hx. }
    intros (Hv1 & Hp1 & He1)%verify_snoc (Hv2 & Hp2 & He2)%verify_snoc.
    rewrite !last_last_snoc, He1, He2, !hashed_inputs_app. intros Hh.
    destruct (sha256_eq_or_collision _ _ Hh) as [Hin|Hcol].
    + apply hashed_input_inj in Hin as [Hbody Hprev].
      destruct (IH l2 Hv1 Hv2) as [HF|(x & y & Hx & Hy & Hc)].
      { unfold chain_head. congruence. }
      * left. apply Forall2_app; [done|]. constructor; [|constructor].
        split_and!; [done|done|]. by rewrite He1, He2, Hh.
      * right. exists x, y. by rewrite !elem_of_app; auto.
    + right. eexists _, _. rewrite !elem_of_app. split_and!; [right; apply list_elem_of_here..|done].
Qed.
End Chain.

(** ** Witnesses *)

Module AuditWitness.
Definition event (id action : string) : AuditEventBody :=
  mkAuditBody id "ws-1" "user" "u-1" action "blob" "b-1" "100" "r-1" "c-1"
    (JObject [("sha256", JString "00"); ("byteLength", JNumber 3)]).
Definition log1 : list ChainedAuditEvent := [appendAuditEvent (event "e1" "blob.ingested") ""].
Definition log2 : list ChainedAuditEvent :=
  log1 ++ [appendAuditEvent (event "e2" "blob.read") (chain_head log1)].
(** The same log, metadata keys in another order. *)
Definition log2' : list ChainedAuditEvent :=
  let swap b := mkAuditBody (event_id b) (event_workspaceId b) (event_actorType b) (event_actorId b)
    (event_action b) (event_subjectKind b) (event_subjectId b) (event_timestamp b)
    (event_requestId b) (event_correlationId b)
    (JObject [("byteLength", JNumber 3); ("sha256", JString "00")]) in
  map (λ e, mkChained (swap (chained_body e)) (previousEventHash e) (eventHash e)) log2.

Lemma append_keeps_chain_witness : verifyAuditChain log2 = true.
Proof. apply (append_keeps_chain log1 (event "e2" "blob.read")). vm_compute. reflexivity. Defined.

Lemma audit_chain_tamper_evident_witness :
  Forall2 event_equiv log2 log2' ∨
  ∃ x y, x ∈ hashed_inputs log2 ∧ y ∈ hashed_inputs log2' ∧ sha256_collision x y.
Proof. apply (audit_chain_tamper_evident log2 log2'); vm_compute; reflexivity. Defined.

Example edited_log_rejected :
  verifyAuditChain (map (λ e, mkChained (event "e1" "nothing.happened") (previousEventHash e) (eventHash e)) log1)
    = false.
Proof. vm_compute. reflexivity. Qed.
End AuditWitness.
