(* ===== verification/JsonParse.v ===== *)
(** * JSON.parse

    [JSON.parse] on the values of [Json]: white space, literals, strings with
    their escapes, integers, arrays and objects (a repeated key keeps its place
    and takes its last value).  A number with a fraction or an exponent and an
    escaped character outside ASCII are outside the model, and are read as a
    syntax error.  The lemma at the end is that parsing a canonical encoding
    gives the value back, keys sorted. *)
From S2P Require Import Prelude Js Json.
#[local] Arguments String.append !s1 s2 /.

(** ** Lexing *)

Definition is_ws (c : ascii) : bool := bool_decide (nat_of_ascii c ∈ [9; 10; 13; 32]).

Fixpoint skip_ws (s : string) : string :=
  match s with
  | String c s' => if is_ws c then skip_ws s' else s
  | EmptyString => EmptyString
  end.

Fixpoint take_digits (s : string) : list ascii * string :=
  match s with
  | String c s' => if is_digit c then let '(d, r) := take_digits s' in (c :: d, r) else ([], s)
  | EmptyString => ([], EmptyString)
  end.

Definition digits_value (ds : list ascii) : Z :=
  fold_left (λ acc c, 10 * acc + Z.of_nat (nat_of_ascii c - 48))%Z ds 0%Z.

(** No leading zero, and no fraction or exponent after the digits. *)
Definition number_ends (ds : list ascii) (r : string) : bool :=
  match ds with
  | [] => false
  | d :: ds' => (d !== "0"%char) || (ds' === [])
  end &&
  match r with
  | String c _ => negb (bool_decide (c ∈ ["."; "e"; "E"]%char))
  | EmptyString => true
  end.

Definition parse_number (s : string) : option (json * string) :=
  match s with
  | String "-" s' =>
      let '(ds, r) := take_digits s' in
      if number_ends ds r then Some (JNumber (- digits_value ds), r) else None
  | _ =>
      let '(ds, r) := take_digits s in
      if number_ends ds r then Some (JNumber (digits_value ds), r) else None
  end.

Definition hex_value (c : ascii) : option nat :=
  let n := nat_of_ascii c in
  if is_digit c then Some (n - 48)
  else if in_range 97 102 c then Some (n - 87)
  else if in_range 65 70 c then Some (n - 55) else None.

(** One character of a string literal, or its closing quote. *)
Definition parse_char (s : string) : option (option ascii * string) :=
  match s with
  | EmptyString => None
  | String c s =>
      if c === QUOTE then Some (None, s)
      else if c === BACKSLASH then
        match s with
        | EmptyString => None
        | String e s =>
            match nat_of_ascii e with
            | 34 => Some (Some QUOTE, s)
            | 92 => Some (Some BACKSLASH, s)
            | 47 => Some (Some "/"%char, s)
            | 98 => Some (Some (ascii_of_nat 8), s)
            | 102 => Some (Some (ascii_of_nat 12), s)
            | 110 => Some (Some (ascii_of_nat 10), s)
            | 114 => Some (Some (ascii_of_nat 13), s)
            | 116 => Some (Some (ascii_of_nat 9), s)
            | 117 =>
                match s with
                | String a (String b (String c (String d s))) =>
                    match hex_value a, hex_value b, hex_value c, hex_value d with
                    | Some 0, Some 0, Some x, Some y =>
                        if Nat.ltb x 8 then Some (Some (ascii_of_nat (16 * x + y)), s) else None
                    | _, _, _, _ => None
                    end
                | _ => None
                end
            | _ => None
            end
        end
      else if Nat.ltb (nat_of_ascii c) 32 then None
      else Some (Some c, s)
  end.

Fixpoint parse_chars (fuel : nat) (s : string) : option (string * string) :=
  match fuel with
  | O => None
  | S fuel =>
      match parse_char s with
      | None => None
      | Some (None, r) => Some (EmptyString, r)
      | Some (Some c, r) =>
          match parse_chars fuel r with
          | Some (t, r) => Some (String c t, r)
          | None => None
          end
      end
  end.

(** A string literal after its opening quote. *)
Definition parse_string (s : string) : option (string * string) := parse_chars (S (String.length s)) s.

(** The rest of [s] after [word]. *)
Fixpoint after (word s : string) : option string :=
  match word, s with
  | EmptyString, _ => Some s
  | String c w, String d s' => if c === d then after w s' else None
  | String _ _, EmptyString => None
  end.

Definition expect (word : string) (v : json) (s : string) : option (json * string) :=
  match after word s with Some r => Some (v, r) | None => None end.

(** ** Values *)

Definition own_entries (l : list (string * json)) : list (string * json) :=
  fold_left (λ m kv, map_set kv.1 kv.2 m) l [].

Fixpoint parse_value (fuel : nat) (s : string) : option (json * string) :=
  match fuel with
  | O => None
  | S fuel =>
      match skip_ws s with
      | EmptyString => None
      | String c r =>
          if c === "n"%char then expect "ull" JNull r
          else if c === "t"%char then expect "rue" (JBool true) r
          else if c === "f"%char then expect "alse" (JBool false) r
          else if c === QUOTE then
            match parse_string r with Some (t, r) => Some (JString t, r) | None => None end
          else if c === "["%char then
            match skip_ws r with
            | String "]" r => Some (JArray [], r)
            | r => match parse_items fuel r with Some (l, r) => Some (JArray l, r) | None => None end
            end
          else if c === "{"%char then
            match skip_ws r with
            | String "}" r => Some (JObject [], r)
            | r => match parse_members fuel r with
                   | Some (l, r) => Some (JObject (own_entries l), r) | None => None end
            end
          else parse_number (String c r)
      end
  end
with parse_items (fuel : nat) (s : string) : option (list json * string) :=
  match fuel with
  | O => None
  | S fuel =>
      match parse_value fuel s with
      | None => None
      | Some (v, r) =>
          match skip_ws r with
          | String "]" r => Some ([v], r)
          | String "," r => match parse_items fuel r with Some (l, r) => Some (v :: l, r) | None => None end
          | _ => None
          end
      end
  end
with parse_members (fuel : nat) (s : string) : option (list (string * json) * string) :=
  match fuel with
  | O => None
  | S fuel =>
      match skip_ws s with
      | String q r =>
          if q === QUOTE then
            match parse_string r with
            | None => None
            | Some (k, r) =>
                match skip_ws r with
                | String ":" r =>
                    match parse_value fuel r with
                    | None => None
                    | Some (v, r) =>
                        match skip_ws r with
                        | String "}" r => Some ([(k, v)], r)
                        | String "," r => match parse_members fuel r with
                                          | Some (l, r) => Some ((k, v) :: l, r) | None => None end
                        | _ => None
                        end
                    end
                | _ => None
                end
            end
          else None
      | EmptyString => None
      end
  end.

(** [JSON.parse(s)]; [None] when it throws. *)
Definition JSON_parse (s : string) : option json :=
  match parse_value (2 * String.length s + 2) s with
  | Some (v, r) => if skip_ws r === EmptyString then Some v else None
  | None => None
  end.

(** ** Parsing an encoding *)

Lemma parse_char_escape c r : parse_char (escape_char c +:+ r) = Some (Some c, r).
Proof. destruct c as [[] [] [] [] [] [] [] []]; reflexivity. Qed.

Lemma parse_chars_escape t r fuel :
  String.length t < fuel → parse_chars fuel (escape t +:+ String QUOTE r) = Some (t, r).
Proof.
  revert fuel. induction t as [|c t IH]; intros [|fuel] Hf; cbn [String.length] in Hf; try lia; [done|].
  cbn [parse_chars escape]. rewrite <- string_app_assoc, parse_char_escape, IH by lia. done.
Qed.

Lemma escape_length t : String.length t ≤ String.length (escape t).
Proof.
  induction t as [|c t IH]; cbn [escape String.length]; [done|]. rewrite string_length_app.
  destruct (escape_char_head c) as (x & u & -> & _). cbn. lia.
Qed.

Lemma parse_string_escape t r : parse_string (escape t +:+ String QUOTE r) = Some (t, r).
Proof.
  apply parse_chars_escape. rewrite string_length_app. pose proof (escape_length t). cbn. lia.
Qed.

(** What may follow a value: the end, a delimiter or a line break. *)
Definition tail_fine (r : string) : Prop :=
  match r with EmptyString => True | String c _ => c ∈ [","; "]"; "}"; ascii_of_nat 10]%char end.

Lemma take_digits_app ds r :
  forallb is_digit (chars ds) = true → tail_fine r → take_digits (ds +:+ r) = (chars ds, r).
Proof.
  intros Hd Hr. induction ds as [|c ds IH]; cbn [String.append take_digits chars list_ascii_of_string forallb] in *.
  - destruct r as [|c r]; [done|]. cbn [take_digits]. assert (is_digit c = false) as ->; [|done].
    unfold tail_fine in Hr. rewrite !elem_of_cons, elem_of_nil in Hr. by destruct Hr as [->|[->|[->|[->|[]]]]].
  - apply andb_true_iff in Hd as [-> Hd]. by rewrite IH.
Qed.

(** Decimal digits of a positive number: no leading zero, and their value. *)
Lemma pretty_N_char_digit x :
  (x < 10)%N → is_digit (pretty_N_char x) = true ∧ Z.of_nat (nat_of_ascii (pretty_N_char x) - 48) = Z.of_N x ∧
    (x ≠ 0%N → pretty_N_char x ≠ "0"%char).
Proof.
  intros Hx. assert (x = 0 ∨ x = 1 ∨ x = 2 ∨ x = 3 ∨ x = 4 ∨ x = 5 ∨ x = 6 ∨ x = 7 ∨ x = 8 ∨ x = 9)%N as Hc by lia.
  repeat destruct Hc as [->|Hc]; try subst x; by split_and!.
Qed.

Lemma pretty_N_go_digits x s :
  (0 < x)%N → ∃ d ds, pretty_N_go x s = String d ds +:+ s ∧ forallb is_digit (chars (String d ds)) = true ∧
    d ≠ "0"%char ∧ digits_value (chars (String d ds)) = Z.of_N x.
Proof.
  revert s. induction (N.lt_wf_0 x) as [x _ IH]; intros s Hx. rewrite pretty_N_go_step by done.
  destruct (pretty_N_char_digit (x `mod` 10)) as (Hdig & Hval & Hnz); [by apply N.mod_lt|].
  pose proof (N.div_mod x 10 ltac:(done)) as Hdm.
  destruct (decide (0 < x `div` 10)%N) as [Hq|Hq].
  - destruct (IH (x `div` 10)%N (N.div_lt x 10 Hx eq_refl) (String (pretty_N_char (x `mod` 10)) s) Hq)
      as (d & ds & -> & Hall & Hd & Hv).
    exists d, (ds +:+ String (pretty_N_char (x `mod` 10)) EmptyString). split_and!.
    + cbn. by rewrite <- string_app_assoc.
    + change (String d (ds +:+ ?t)) with (String d ds +:+ t). rewrite chars_app, forallb_app, Hall.
      cbn [chars list_ascii_of_string forallb andb]. by rewrite Hdig.
    + done.
    + change (String d (ds +:+ ?t)) with (String d ds +:+ t). rewrite chars_app.
      unfold digits_value in *. rewrite fold_left_app, Hv. cbn [chars list_ascii_of_string fold_left]. rewrite Hval. lia.
  - apply N.nlt_ge, N.le_0_r in Hq as Hz. rewrite Hz, pretty_N_go_0. exists (pretty_N_char (x `mod` 10)), EmptyString.
    rewrite Hz in Hdm. split_and!; [done| |apply Hnz; lia|].
    { cbn [chars list_ascii_of_string forallb andb]. by rewrite Hdig. }
    unfold digits_value. cbn [chars list_ascii_of_string fold_left]. rewrite Hval. lia.
Qed.

Lemma pretty_N_digits (x : N) :
  ∃ d ds, pretty x = String d ds ∧ forallb is_digit (chars (String d ds)) = true ∧
    ((d !== "0"%char) || (chars ds === [])) = true ∧ digits_value (chars (String d ds)) = Z.of_N x.
Proof.
  unfold pretty, pretty_N. case_decide as Hx; [subst; by exists "0"%char, EmptyString|].
  destruct (pretty_N_go_digits x "") as (d & ds & -> & Hall & Hd & Hv); [lia|].
  exists d, ds. rewrite string_app_nil_r. split_and!; [done|done| |done].
  by rewrite bool_decide_eq_false_2.
Qed.

Lemma number_ends_fine d ds r :
  ((d !== "0"%char) || (ds === [])) = true → tail_fine r → number_ends (d :: ds) r = true.
Proof.
  intros Hd Hr. unfold number_ends. rewrite Hd. destruct r as [|c r]; [done|]. cbn [andb].
  unfold tail_fine in Hr.
  repeat (apply elem_of_cons in Hr as [->|Hr]; [by apply negb_true_iff, bool_decide_eq_false_2; set_solver|]).
  by apply elem_of_nil in Hr.
Qed.

Lemma parse_number_pretty (z : Z) r : tail_fine r → parse_number (pretty z +:+ r) = Some (JNumber z, r).
Proof.
  intros Hr. assert (∀ x : N, parse_number (pretty x +:+ r) = Some (JNumber (Z.of_N x), r)) as Hpos.
  { intros x. destruct (pretty_N_digits x) as (d & ds & -> & Hall & Hlead & Hv).
    assert (d ≠ "-"%char) as Hd by (intros ->; by cbn in Hall). unfold parse_number.
    change (String d ds +:+ r) with (String d (ds +:+ r)). 
    assert (take_digits (String d (ds +:+ r)) = (chars (String d ds), r)) as Ht by (by apply (take_digits_app (String d ds))).
    assert (number_ends (chars (String d ds)) r = true) as He by (by apply number_ends_fine).
    rewrite Ht, He, Hv. by destruct d as [[] [] [] [] [] [] [] []]. }
  destruct z as [|p|p]; [exact (Hpos 0%N)|exact (Hpos (Npos p))|].
  change (pretty (Zneg p)) with ("-" +:+ pretty (Npos p)). destruct (pretty_N_digits (Npos p)) as (d & ds & -> & Hall & Hlead & Hv).
  cbn [String.append parse_number]. change (String d (ds +:+ r)) with (String d ds +:+ r).
  rewrite take_digits_app by done. cbn [chars list_ascii_of_string]. rewrite number_ends_fine by done.
  cbn [chars list_ascii_of_string] in Hv. by rewrite Hv.
Qed.

Section RoundTrip.
Context (leb : string → string → bool).
Abbreviation canon := (canonical_with leb).
Abbreviation norm := (normalise leb).

(** The fuel a value takes. *)
Fixpoint need (v : json) : nat :=
  match v with
  | JArray l => 2 + list_sum (map (λ x, S (need x)) l)
  | JObject l => 2 + list_sum (map (λ kv, S (need kv.2)) l)
  | _ => 1
  end.

Definition parses (v : json) : Prop := ∀ fuel r,
  need v ≤ fuel → json_wf v → tail_fine r → parse_value fuel (canon v +:+ r) = Some (norm v, r).

Lemma numeral_other c x : numeral_char c = true → numeral_char x = false → (c === x) = false.
Proof. intros Hc Hx. apply bool_decide_eq_false_2. intros ->. congruence. Qed.

Lemma skip_ws_head c r : is_ws c = false → skip_ws (String c r) = String c r.
Proof. intros Hc. cbn. by rewrite Hc. Qed.

Lemma skip_ws_fine r : tail_fine r → r = EmptyString ∨ (∃ r', r = String (ascii_of_nat 10) r') ∨ skip_ws r = r.
Proof.
  destruct r as [|c r]; [by left|]. unfold tail_fine. intros Hc. right.
  repeat (apply elem_of_cons in Hc as [->|Hc]; [by eauto|]). by apply elem_of_nil in Hc.
Qed.

(** Every encoding starts with a character that is no white space. *)
Lemma canon_starts v r : ∃ c t, canon v +:+ r = String c (t +:+ r) ∧ canon v = String c t ∧ is_ws c = false ∧
  c ≠ "]"%char ∧ c ≠ "}"%char.
Proof.
  destruct (canon_head leb v) as (c & t & E & Htag). exists c, t. rewrite E. split_and!; [done|done| | |].
  - destruct (is_ws c) eqn:Hw; [|done]. exfalso. unfold is_ws in Hw. apply bool_decide_eq_true in Hw.
    assert (tag_head c = 7) as Hx by (clear -Hw; by destruct c as [[] [] [] [] [] [] [] []]; vm_compute in Hw |- *; try done; exfalso; set_solver).
    destruct v as [|[]| | | |]; cbn in Htag; congruence.
  - intros ->. destruct v as [|[]| | | |]; by cbn in Htag.
  - intros ->. destruct v as [|[]| | | |]; by cbn in Htag.
Qed.

Lemma parse_items_canon l r fuel :
  l ≠ [] → Forall parses l → Forall json_wf l → list_sum (map (λ x, S (need x)) l) ≤ fuel →
  parse_items fuel (commas (map canon l) +:+ String "]" r) = Some (map norm l, r).
Proof.
  intros Hne Hp Hwf. revert fuel Hne. induction l as [|x l IH]; intros fuel Hne Hf; [done|].
  inversion Hp as [|? ? Hx Hl]; inversion Hwf as [|? ? Hwx Hwl]; subst. cbn [map list_sum foldr] in Hf.
  destruct fuel as [|fuel]; [lia|]. cbn [map parse_items]. rewrite commas_cons. rewrite Hx; [|lia|done|].
  2: { destruct l; cbn; rewrite !elem_of_cons; auto. }
  destruct l as [|y l]; [done|]. cbn [map] in *. cbn [skip_ws].
  assert (is_ws "," = false) as -> by done. rewrite IH; [done|done|done|done|cbn in *; lia].
Qed.

Lemma parse_members_canon l r fuel :
  l ≠ [] → Forall (λ kv, parses kv.2) l → Forall (λ kv, json_wf kv.2) l →
  list_sum (map (λ kv, S (need kv.2)) l) ≤ fuel →
  parse_members fuel (commas (map (λ kv, stringify_entry (kv.1, canon kv.2)) l) +:+ String "}" r) =
    Some (map (λ kv, (kv.1, norm kv.2)) l, r).
Proof.
  intros Hne Hp Hwf. revert fuel Hne. induction l as [|[k x] l IH]; intros fuel Hne Hf; [done|].
  inversion Hp as [|? ? Hx Hl]; inversion Hwf as [|? ? Hwx Hwl]; subst. cbn [map list_sum foldr snd] in *.
  destruct fuel as [|fuel]; [lia|]. cbn [map parse_members]. rewrite commas_cons.
  unfold stringify_entry at 1, stringify_string. cbn [fst snd String.append].
  rewrite skip_ws_head by done. rewrite strict_eq_refl. rewrite <- !string_app_assoc. cbn [String.append].
  rewrite parse_string_escape. rewrite skip_ws_head by done. rewrite Hx; [|lia|done|].
  2: { destruct l; cbn; rewrite !elem_of_cons; auto. }
  destruct l as [|y l]; [done|]. cbn [map] in *. cbn [skip_ws].
  assert (is_ws "," = false) as -> by done. rewrite IH; [done|done|done|done|cbn in *; lia].
Qed.

Lemma own_entries_from (l m : list (string * json)) :
  NoDup (map fst (m ++ l)%list) → fold_left (λ m kv, map_set kv.1 kv.2 m) l m = (m ++ l)%list.
Proof.
  revert m. induction l as [|[k v] l IH]; intros m Hnd; cbn; [by rewrite app_nil_r|].
  rewrite (map_set_new k v m).
  - rewrite IH by (by rewrite <- app_assoc). by rewrite <- app_assoc.
  - rewrite map_app in Hnd. apply NoDup_app in Hnd as (_ & Hd & _). intros Hin. apply (Hd k Hin), list_elem_of_here.
Qed.

Lemma own_entries_nodup (l : list (string * json)) : NoDup (map fst l) → own_entries l = l.
Proof. intros Hnd. unfold own_entries. by rewrite own_entries_from. Qed.

Lemma need_sorted l :
  list_sum (map (λ kv : string * json, S (need kv.2)) (sort_keys leb l)) = list_sum (map (λ kv, S (need kv.2)) l).
Proof. by rewrite (sort_keys_perm leb l). Qed.

Lemma parse_array fuel r l :
  skip_ws r ≠ EmptyString → (∀ r', skip_ws r ≠ String "]" r') →
  parse_items fuel (skip_ws r) = l →
  parse_value (S fuel) (String "[" r) = match l with Some (l, r) => Some (JArray l, r) | None => None end.
Proof.
  intros Hne Hnb <-. cbn [parse_value skip_ws]. assert (is_ws "[" = false) as -> by done.
  destruct (skip_ws r) as [|c r']; [done|]. specialize (Hnb r').
  destruct c as [[] [] [] [] [] [] [] []]; try reflexivity; done.
Qed.

Lemma parse_object fuel r l :
  skip_ws r ≠ EmptyString → (∀ r', skip_ws r ≠ String "}" r') →
  parse_members fuel (skip_ws r) = l →
  parse_value (S fuel) (String "{" r) =
    match l with Some (l, r) => Some (JObject (own_entries l), r) | None => None end.
Proof.
  intros Hne Hnb <-. cbn [parse_value skip_ws]. assert (is_ws "{" = false) as -> by done.
  destruct (skip_ws r) as [|c r']; [done|]. specialize (Hnb r').
  destruct c as [[] [] [] [] [] [] [] []]; try reflexivity; done.
Qed.

Lemma parse_numeral fuel c r :
  numeral_char c = true → parse_value (S fuel) (String c r) = parse_number (String c r).
Proof.
  intros Hc. cbn [parse_value skip_ws].
  destruct c as [[] [] [] [] [] [] [] []]; try discriminate Hc; reflexivity.
Qed.

Lemma after_app w r : after w (w +:+ r) = Some r.
Proof. induction w as [|c w IH]; cbn; [done|]. by rewrite strict_eq_refl. Qed.

Lemma expect_word w v r : expect w v (w +:+ r) = Some (v, r).
Proof. unfold expect. by rewrite after_app. Qed.

Lemma parses_all v : parses v.
Proof.
  induction v as [|b|z|t|l IH|l IH] using json_nested_ind; intros fuel r Hf Hwf Hr;
    (destruct fuel as [|fuel]; [cbn in Hf; lia|]).
  - exact (expect_word "ull" JNull r).
  - destruct b; [exact (expect_word "rue" (JBool true) r)|exact (expect_word "alse" (JBool false) r)].
  - cbn [canonical_with normalise]. destruct (pretty_Z_numeral z) as (c & t & E & Hc).
    pose proof (parse_number_pretty z r Hr) as Hp. rewrite E in *. cbn [String.append] in *.
    rewrite parse_numeral; [done|]. cbn in Hc. by apply andb_true_iff in Hc as [Hc _].
  - change (canon (JString t) +:+ r) with (String QUOTE ((escape t +:+ String QUOTE EmptyString) +:+ r)).
    rewrite <- string_app_assoc. cbn [String.append parse_value skip_ws].
    assert (is_ws QUOTE = false) as -> by done.
    pose proof (parse_string_escape t r) as Hp. cbn -[parse_string]. by rewrite Hp.
  - destruct l as [|x l]; [done|]. 
    change (canon (JArray (x :: l)) +:+ r) with (String "[" ((commas (map canon (x :: l)) +:+ "]") +:+ r)).
    rewrite <- string_app_assoc. cbn [String.append].
    assert (skip_ws (commas (map canon (x :: l)) +:+ String "]" r) = commas (map canon (x :: l)) +:+ String "]" r ∧
      (∃ c t, commas (map canon (x :: l)) +:+ String "]" r = String c t ∧ c ≠ "]"%char)) as [Hs (c & t & E & Hc)].
    { cbn [map]. rewrite commas_cons. destruct (canon_starts x "") as (c & t & _ & E & Hw & Hb & _).
      rewrite E. cbn [String.append]. split; [by apply skip_ws_head|eauto]. }
    rewrite (parse_array fuel _ (Some (map norm (x :: l), r))); [done|rewrite Hs, E; done|rewrite Hs, E; congruence|].
    rewrite Hs. apply parse_items_canon; [done|done| |cbn in *; lia].
    exact (proj1 (Forall_map _ _ _) Hwf).
  - destruct Hwf as [Hnd Hwf]. rewrite canon_object, norm_object. 
    assert (l = [] ∨ sort_keys leb l ≠ []) as [->|Hne]; [|done|].
    { destruct l as [|y l]; [by left|right]. intros E. pose proof (sort_keys_perm leb (y :: l)) as Hp. rewrite E in Hp.
      by apply Permutation_nil_cons in Hp. }
    change (String "{" ?x +:+ r) with (String "{" (x +:+ r)). rewrite <- string_app_assoc. cbn [String.append].
    set (body := commas _ +:+ String "}" r).
    assert (∃ t, body = String QUOTE t) as [t E].
    { unfold body. destruct (sort_keys leb l) as [|[k x] l']; [done|]. cbn [map]. rewrite commas_cons. eauto. }
    assert (skip_ws body = body) as Hs by (by rewrite E).
    rewrite (parse_object fuel _ (Some (map (λ kv, (kv.1, norm kv.2)) (sort_keys leb l), r)));
      [|rewrite Hs, E; done|rewrite Hs, E; discriminate|].
    + rewrite own_entries_nodup; [done|]. rewrite map_map. cbn [fst]. by rewrite (sort_keys_perm leb l).
    + rewrite Hs. apply parse_members_canon; [done| | |].
      * by rewrite (sort_keys_perm leb l).
      * rewrite (sort_keys_perm leb l). exact (proj1 (Forall_map _ _ _) Hwf).
      * rewrite need_sorted. cbn in Hf. lia.
Qed.

Lemma commas_length {A} (f : A → nat) (g : A → string) (l : list A) :
  Forall (λ x, f x ≤ 2 * String.length (g x)) l →
  list_sum (map (λ x, S (f x)) l) ≤ 2 * S (String.length (commas (map g l))).
Proof.
  induction 1 as [|x l Hx _ IH]; [cbn; lia|].
  pose proof (commas_cons (g x) (map g l) EmptyString) as E. rewrite !string_app_nil_r in E.
  cbn [map] in *. rewrite E, string_length_app. cbn [list_sum foldr]. unfold list_sum in IH.
  destruct l as [|y l]; cbn [map] in *; cbn -[Nat.mul commas] in *; lia.
Qed.

Lemma need_bound v : need v ≤ 2 * String.length (canon v).
Proof.
  induction v as [|b|z|t|l IH|l IH] using json_nested_ind; cbn [need].
  - cbn. lia.
  - destruct b; cbn; lia.
  - cbn [canonical_with]. destruct (pretty_Z_numeral z) as (c & t & -> & _). cbn. lia.
  - cbn. lia.
  - cbn [canonical_with String.append String.length]. rewrite string_length_app. cbn [String.length].
    pose proof (commas_length need canon l IH). lia.
  - rewrite canon_object, <- need_sorted. cbn [String.length]. rewrite string_length_app. cbn [String.length].
    pose proof (commas_length (λ kv : string * json, need kv.2) (λ kv, stringify_entry (kv.1, canon kv.2)) (sort_keys leb l)) as Hc.
    ospecialize (Hc _); [|cbn [snd] in Hc; lia]. rewrite (sort_keys_perm leb l). eapply Forall_impl; [exact IH|].
    intros [k x] Hx. unfold stringify_entry. cbn [fst snd] in *. cbn [String.length]. rewrite !string_length_app. cbn [String.length]. lia.
Qed.

(** Reading an encoding back, with or without a final line break. *)
Lemma JSON_parse_canonical v r :
  json_wf v → r = EmptyString ∨ r = String (ascii_of_nat 10) EmptyString →
  JSON_parse (canon v +:+ r) = Some (norm v).
Proof.
  intros Hwf Hr. unfold JSON_parse. rewrite parses_all; [| |done|].
  - by destruct Hr as [->| ->].
  - rewrite string_length_app. pose proof (need_bound v). lia.
  - destruct Hr as [->| ->]; [done|]. unfold tail_fine. set_solver.
Qed.
End RoundTrip.

(** ** The canonical encoding read back *)

Lemma equiv_normalise leb v : json_equiv v (normalise leb v).
Proof.
  induction v as [|b|z|t|l IH|l IH] using json_nested_ind; try constructor.
  - induction IH as [|x l Hx _ IH]; constructor; auto.
  - econstructor; [|symmetry; apply sort_keys_perm]. induction IH as [|x l Hx _ IH]; constructor; auto.
Qed.

Lemma normalise_idem v : json_wf v → normalise String.leb (normalise String.leb v) = normalise String.leb v.
Proof. intros Hwf. symmetry. apply equiv_norm; [done|]. apply equiv_normalise. Qed.

Lemma canonicalJson_normalise v : json_wf v → canonicalJson (normalise String.leb v) = canonicalJson v.
Proof. intros Hwf. by apply canonical_norm, normalise_idem. Qed.

Lemma canonicalJson_read v r :
  json_wf v → r = EmptyString ∨ r = String (ascii_of_nat 10) EmptyString →
  JSON_parse (canonicalJson v +:+ r) = Some (normalise String.leb v).
Proof. apply JSON_parse_canonical. Qed.

(** What [canonicalJson] writes, [JSON.parse] reads: the text of a value of
    [json], whose numbers are integers, that is canonically encoded (a final line break after it or not) parses, to
    a value that is the same up to the order of object keys and whose own
    canonical encoding is that text. *)
Theorem canonicalJson_roundtrip v r :
  json_wf v → r = EmptyString ∨ r = String (ascii_of_nat 10) EmptyString →
  ∃ v', JSON_parse (canonicalJson v +:+ r) = Some v' ∧ json_equiv v v' ∧ canonicalJson v' = canonicalJson v.
Proof.
  intros Hwf Hr. exists (normalise String.leb v).
  split_and!; [by apply canonicalJson_read|apply equiv_normalise|by apply canonicalJson_normalise].
Qed.

Lemma canonicalJson_roundtrip_witness :
  ∃ v', JSON_parse (canonicalJson (JObject [("b", JNumber (-12)); ("a", JArray [JString "x"; JNull])]) +:+
          String (ascii_of_nat 10) EmptyString) = Some v' ∧
        json_equiv (JObject [("b", JNumber (-12)); ("a", JArray [JString "x"; JNull])]) v' ∧
        canonicalJson v' = canonicalJson (JObject [("b", JNumber (-12)); ("a", JArray [JString "x"; JNull])]).
Proof.
  apply canonicalJson_roundtrip; [|by right]. split; [|by repeat constructor].
  apply (bool_decide_unpack _). vm_compute. exact I.
Defined.
