(* ===== verification/Regex.v ===== *)
(** * Regular expressions

    The patterns of the source that are matched as they are written: expressions
    over classes of characters, with a matcher by derivatives.  [matches] is the
    anchored test [/^...$/.test(s)]; [finds] the search without anchors.  The
    matcher is proved against the language of an expression. *)
From S2P Require Import Prelude Js.

Inductive re :=
  | Nothing
  | Eps
  | Chr (p : ascii → bool)
  | Cat (a b : re)
  | Alt (a b : re)
  | Star (a : re).

(** The language of an expression. *)
Inductive lang : re → list ascii → Prop :=
  | lang_eps : lang Eps []
  | lang_chr p c : p c = true → lang (Chr p) [c]
  | lang_cat a b s t : lang a s → lang b t → lang (Cat a b) (s ++ t)
  | lang_alt_l a b s : lang a s → lang (Alt a b) s
  | lang_alt_r a b s : lang b s → lang (Alt a b) s
  | lang_star_nil a : lang (Star a) []
  | lang_star_app a s t : lang a s → lang (Star a) t → lang (Star a) (s ++ t).

Fixpoint nullable (r : re) : bool :=
  match r with
  | Nothing | Chr _ => false
  | Eps | Star _ => true
  | Cat a b => nullable a && nullable b
  | Alt a b => nullable a || nullable b
  end.
(** What is left of an expression after a character. *)
Fixpoint deriv (c : ascii) (r : re) : re :=
  match r with
  | Nothing | Eps => Nothing
  | Chr p => if p c then Eps else Nothing
  | Cat a b => if nullable a then Alt (Cat (deriv c a) b) (deriv c b) else Cat (deriv c a) b
  | Alt a b => Alt (deriv c a) (deriv c b)
  | Star a => Cat (deriv c a) (Star a)
  end.
Fixpoint match_chars (r : re) (s : list ascii) : bool :=
  match s with [] => nullable r | c :: s => match_chars (deriv c r) s end.

Definition matches (r : re) (s : string) : bool := match_chars r (list_ascii_of_string s).
Definition any : re := Chr (λ _, true).
Definition finds (r : re) (s : string) : bool := matches (Cat (Star any) (Cat r (Star any))) s.

(** ** Notations of the source *)

Definition Plus (a : re) : re := Cat a (Star a).
Definition Opt (a : re) : re := Alt a Eps.
Fixpoint Times (n : nat) (a : re) : re := match n with 0 => Eps | S n => Cat a (Times n a) end.
Definition Char (c : ascii) : re := Chr (λ d, d === c).
Fixpoint Text (s : string) : re := match s with EmptyString => Eps | String c s => Cat (Char c) (Text s) end.
Fixpoint OneOf (rs : list re) : re := match rs with [] => Nothing | r :: rs => Alt r (OneOf rs) end.
Fixpoint Sequence (rs : list re) : re := match rs with [] => Eps | r :: rs => Cat r (Sequence rs) end.
Definition one_of (s : string) (c : ascii) : bool := array_includes (list_ascii_of_string s) c.
(** ** The matcher decides the language *)

Lemma lang_cat_inv a b s : lang (Cat a b) s ↔ ∃ t u, s = (t ++ u)%list ∧ lang a t ∧ lang b u.
Proof. split; [inversion 1; subst; eauto|]. intros (t & u & -> & Ha & Hb). by constructor. Qed.
Lemma lang_alt_inv a b s : lang (Alt a b) s ↔ lang a s ∨ lang b s.
Proof. split; [inversion 1; subst; auto|]. intros [?|?]; by constructor. Qed.
Lemma nullable_spec r : nullable r = true ↔ lang r [].
Proof.
  induction r as [| |p|a IHa b IHb|a IHa b IHb|a IHa]; cbn.
  - split; [done|inversion 1].
  - split; [constructor|done].
  - split; [done|inversion 1].
  - rewrite andb_true_iff, IHa, IHb, lang_cat_inv. split.
    + intros [Ha Hb]. by exists [], [].
    + intros (t & u & Hnil%eq_sym & Ha & Hb). by apply app_eq_nil in Hnil as [-> ->].
  - by rewrite orb_true_iff, IHa, IHb, lang_alt_inv.
  - split; [constructor|done].
Qed.
(** A word of a star that begins with a character begins with a word that does. *)
Lemma lang_star_cons a c s : lang (Star a) (c :: s) → ∃ t u, s = (t ++ u)%list ∧ lang a (c :: t) ∧ lang (Star a) u.
Proof.
  remember (Star a) as r eqn:Er. remember (c :: s) as w eqn:Ew. intros Hl. revert Er Ew.
  induction Hl as [| | | | | |a' t u Ha _ Hs IH]; intros Er Ew; try done. injection Er as ->.
  destruct t as [|d t]; [by apply IH|]. injection Ew as -> <-. by exists t, u.
Qed.
Lemma deriv_spec c r s : lang (deriv c r) s ↔ lang r (c :: s).
Proof.
  revert s. induction r as [| |p|a IHa b IHb|a IHa b IHb|a IHa]; intros s; cbn [deriv].
  - split; inversion 1.
  - split; inversion 1.
  - destruct (p c) eqn:Ep; (split; [inversion 1; subst; by constructor|inversion 1; subst; first [constructor|congruence]]).
  - assert (lang (Cat (deriv c a) b) s ↔ ∃ t u, s = (t ++ u)%list ∧ lang a (c :: t) ∧ lang b u) as Hl.
    { rewrite lang_cat_inv. split; intros (t & u & ? & Ha & ?); exists t, u; by rewrite ?IHa, <- ?IHa in *. }
    assert (lang (Cat a b) (c :: s) ↔ (∃ t u, s = (t ++ u)%list ∧ lang a (c :: t) ∧ lang b u) ∨ lang a [] ∧ lang b (c :: s)) as Hr.
    { rewrite lang_cat_inv. split.
      - intros ([|d t] & u & E & Ha & Hb); [right; by rewrite E|]. injection E as <- ->. left. by exists t, u.
      - intros [(t & u & -> & Ha & Hb)|[Ha Hb]]; [by exists (c :: t), u|by exists [], (c :: s)]. }
    destruct (nullable a) eqn:En; rewrite ?lang_alt_inv, Hl, Hr, ?IHb.
    + apply nullable_spec in En. tauto.
    + split; [by left|]. intros [?|[Hn _]]; [done|]. apply nullable_spec in Hn. congruence.
  - by rewrite !lang_alt_inv, IHa, IHb.
  - rewrite lang_cat_inv. split.
    + intros (t & u & -> & Ha%IHa & Hs). exact (lang_star_app a (c :: t) u Ha Hs).
    + intros (t & u & -> & Ha & Hs)%lang_star_cons. exists t, u. by rewrite IHa.
Qed.
Lemma matches_spec r s : matches r s = true ↔ lang r (list_ascii_of_string s).
Proof.
  unfold matches. generalize (list_ascii_of_string s). clear s. intros s. revert r. induction s as [|c s IH]; intros r; cbn.
  - apply nullable_spec.
  - by rewrite IH, deriv_spec.
Qed.
Lemma finds_spec r s :
  finds r s = true ↔ ∃ a b c, list_ascii_of_string s = (a ++ b ++ c)%list ∧ lang r b.
Proof.
  assert (∀ s, lang (Star any) s) as Hany.
  { intros t. induction t as [|c t IH]; [constructor|]. apply (lang_star_app any [c] t); [by constructor|done]. }
  unfold finds. rewrite matches_spec, lang_cat_inv. split.
  - intros (a & u & -> & _ & (b & c & -> & Hb & _)%lang_cat_inv). by exists a, b, c.
  - intros (a & b & c & -> & Hb). exists a, (b ++ c)%list. split_and!; [done|apply Hany|]. by constructor.
Qed.
