(* ===== verification/Core.v ===== *)
(** * packages/core: the domain types and their invariants

    [errors.ts], [types.ts] and [invariants.ts]: the records every other
    package shares, and the assertions that guard a revision, a blob and a
    retention policy.  An assertion returns or throws a [TrustInvariantError];
    the model keeps its code (the message is fixed per site). *)
From S2P Require Import Prelude Js Json.

(** Source: packages/core/src/errors.ts:1-11 TrustErrorCode *)
Inductive TrustErrorCode :=
  | WORKSPACE_MISMATCH | INVALID_CURRENT_REVISION | INVALID_PARENT_REVISION
  | BASE_REVISION_CONFLICT | INVALID_REVISION_NUMBER | BLOB_HASH_INVALID
  | BLOB_ENCRYPTION_METADATA_INVALID | RETENTION_POLICY_INVALID
  | PURGE_NOT_IMPLEMENTED | RETENTION_PREVENTS_PURGE.
#[global] Instance TrustErrorCode_eq_dec : EqDecision TrustErrorCode.
Proof. solve_decision. Defined.

(** Source: packages/core/src/types.ts:4-5 ResourceStatus *)
Inductive ResourceStatus := active | archived | deleted_logically | legal_hold.
#[global] Instance ResourceStatus_eq_dec : EqDecision ResourceStatus.
Proof. solve_decision. Defined.

(** Source: packages/core/src/types.ts:16-27 Dataset *)
Record Dataset := mkDataset {
  dataset_id : string;
  dataset_workspaceId : string;
  dataset_schemaPackageId : string;
  dataset_datasetType : string;
  dataset_name : string;
  dataset_status : ResourceStatus;
  dataset_retentionPolicyId : option string;
  dataset_createdBy : string;
  dataset_createdAt : string;
  dataset_updatedAt : string;
}.

(** Source: packages/core/src/types.ts:29-40 Resource *)
Record Resource := mkResource {
  resource_id : string;
  resource_workspaceId : string;
  resource_datasetId : string;
  resource_resourceType : string;
  resource_title : option string;
  resource_status : ResourceStatus;
  resource_currentRevisionId : option string;
  resource_createdBy : string;
  resource_createdAt : string;
  resource_updatedAt : string;
}.

Inductive RevisionSource := source_user | source_application | source_import | source_restore | source_merge.
#[global] Instance RevisionSource_eq_dec : EqDecision RevisionSource.
Proof. solve_decision. Defined.

(** Source: packages/core/src/types.ts:42-60 Revision *)
Record Revision := mkRevision {
  revision_id : string;
  revision_workspaceId : string;
  revision_datasetId : string;
  revision_resourceId : string;
  revision_revisionNumber : Z;
  revision_parentRevisionId : option string;
  revision_mergeParentRevisionIds : list string;
  revision_schemaPackageId : string;
  revision_schemaVersion : string;
  revision_canonicalPayload : list (string * json);
  revision_canonicalPayloadHash : string;
  revision_createdBy : string;
  revision_createdOnDeviceId : option string;
  revision_source : RevisionSource;
  revision_changeNote : option string;
  revision_restoredFromRevisionId : option string;
  revision_createdAt : string;
}.

Inductive EncryptionState := provider_managed | customer_managed.
#[global] Instance EncryptionState_eq_dec : EqDecision EncryptionState.
Proof. solve_decision. Defined.
Inductive VerificationState := verification_pending | verification_verified | verification_failed.
#[global] Instance VerificationState_eq_dec : EqDecision VerificationState.
Proof. solve_decision. Defined.

(** Source: packages/core/src/types.ts:62-77 BlobObject *)
Record BlobObject := mkBlob {
  blob_id : string;
  blob_workspaceId : string;
  blob_sha256 : string;
  blob_byteLength : Z;
  blob_mediaType : string;
  blob_storageProvider : string;
  blob_storageKey : string;
  blob_encryptionState : EncryptionState;
  blob_encryptionKeyRef : option string;
  blob_verificationState : VerificationState;
  blob_createdAt : string;
  blob_storageBindingId : option string;
  blob_storageBindingGeneration : option Z;
}.

Inductive EndpointKind := kind_resource | kind_revision | kind_blob | kind_external.
#[global] Instance EndpointKind_eq_dec : EqDecision EndpointKind.
Proof. solve_decision. Defined.

(** Source: packages/core/src/types.ts:79-92 Relation *)
Record Relation := mkRelation {
  relation_id : string;
  relation_workspaceId : string;
  relation_datasetId : string;
  relation_sourceKind : EndpointKind;
  relation_sourceId : string;
  relation_targetKind : EndpointKind;
  relation_targetId : string;
  relation_relationType : string;
  relation_metadata : list (string * json);
  relation_createdBy : string;
  relation_createdAt : string;
  relation_endedAt : option string;
}.

Inductive SubjectKind := subject_dataset | subject_resource | subject_relation.
#[global] Instance SubjectKind_eq_dec : EqDecision SubjectKind.
Proof. solve_decision. Defined.
Inductive PurgeState := not_eligible | eligible | planned | purged.
#[global] Instance PurgeState_eq_dec : EqDecision PurgeState.
Proof. solve_decision. Defined.

(** Source: packages/core/src/types.ts:94-108 Tombstone *)
Record Tombstone := mkTombstone {
  tombstone_id : string;
  tombstone_workspaceId : string;
  tombstone_datasetId : string;
  tombstone_subjectKind : SubjectKind;
  tombstone_subjectId : string;
  tombstone_deletedBy : string;
  tombstone_deletedAt : string;
  tombstone_reason : option string;
  tombstone_recoverUntil : option string;
  tombstone_priorRevisionId : option string;
  tombstone_restoredAt : option string;
  tombstone_restoredBy : option string;
  tombstone_purgeState : PurgeState;
}.

#[global] Instance Resource_eq_dec : EqDecision Resource.
Proof. solve_decision. Defined.
#[global] Instance Revision_eq_dec : EqDecision Revision.
Proof. solve_decision. Defined.
#[global] Instance BlobObject_eq_dec : EqDecision BlobObject.
Proof. solve_decision. Defined.
#[global] Instance Tombstone_eq_dec : EqDecision Tombstone.
Proof. solve_decision. Defined.

(** The fields [assertRetentionPolicy] reads, before validation. *)
(** Source: packages/core/src/types.ts:110-123 RetentionPolicy *)
Record RetentionPolicy := mkRetentionPolicy {
  retention_name : string;
  retention_recoveryWindowDays : jsnum;
  retention_minimumHistoryDays : jsnum;
  retention_backupRetentionDays : jsnum;
  retention_purgeEnabled : bool;
}.

(** Source: packages/core/src/invariants.ts:11-15 assertBlobHash *)
Definition assertBlobHash (sha256 : string) : result TrustErrorCode unit :=
  throw_if (negb (SHA256_PATTERN sha256)) BLOB_HASH_INVALID.

(** [/(?:secret|password|private[_-]?key)\s*[:=]/i.test(s)] *)
Definition secret_words : list string :=
  ["secret"; "password"; "private_key"; "private-key"; "privatekey"].

Fixpoint assignment_follows (s : string) : bool :=
  match s with
  | EmptyString => false
  | String c s' => (c === ":"%char) || (c === "="%char) || (is_space c && assignment_follows s')
  end.

Definition secret_at (s : string) : bool :=
  existsb (λ w, startsWith (toLowerCase s) w &&
                assignment_follows (String.substring (String.length w) (String.length s) s))
    secret_words.

Fixpoint secret_material (s : string) : bool :=
  secret_at s ||
  match s with EmptyString => false | String _ s' => secret_material s' end.

(** Source: packages/core/src/invariants.ts:17-38 assertBlobEncryptionMetadata *)
Definition assertBlobEncryptionMetadata (encryptionState : EncryptionState)
    (encryptionKeyRef : option string) : result TrustErrorCode unit :=
  throw_if ((encryptionState === customer_managed) &&
            match encryptionKeyRef with None => true | Some k => blank k end)
    BLOB_ENCRYPTION_METADATA_INVALID ≫= λ _,
  throw_if (match encryptionKeyRef with None => false | Some k => secret_material k end)
    BLOB_ENCRYPTION_METADATA_INVALID.

Definition bad_days (value : jsnum) : bool :=
  negb (isSafeInteger value) || jlt value 0 || jgt value 36500.

(** Source: packages/core/src/invariants.ts:40-70 assertRetentionPolicy *)
Definition assertRetentionPolicy (policy : RetentionPolicy) : result TrustErrorCode unit :=
  throw_if (blank (retention_name policy)) RETENTION_POLICY_INVALID ≫= λ _,
  throw_if (existsb bad_days [retention_recoveryWindowDays policy;
              retention_minimumHistoryDays policy; retention_backupRetentionDays policy])
    RETENTION_POLICY_INVALID ≫= λ _,
  throw_if (retention_purgeEnabled policy) PURGE_NOT_IMPLEMENTED.

(** Source: packages/core/src/invariants.ts:72-82 assertResourceCurrentRevision *)
Definition assertResourceCurrentRevision (resource : Resource) (revision : Revision)
    : result TrustErrorCode unit :=
  throw_if ((resource_workspaceId resource !== revision_workspaceId revision) ||
            (resource_datasetId resource !== revision_datasetId revision))
    WORKSPACE_MISMATCH ≫= λ _,
  throw_if ((resource_id resource !== revision_resourceId revision) ||
            (resource_currentRevisionId resource !== Some (revision_id revision)))
    INVALID_CURRENT_REVISION.

(** Source: packages/core/src/invariants.ts:84-111 assertNextRevision *)
Definition assertNextRevision (resource : Resource) (currentRevision : option Revision)
    (proposed : Revision) : result TrustErrorCode unit :=
  throw_if ((revision_resourceId proposed !== resource_id resource) ||
            (revision_workspaceId proposed !== resource_workspaceId resource) ||
            (revision_datasetId proposed !== resource_datasetId resource))
    WORKSPACE_MISMATCH ≫= λ _,
  match currentRevision with
  | None =>
      throw_if ((revision_parentRevisionId proposed !== None) ||
                (revision_revisionNumber proposed !== 1%Z))
        INVALID_REVISION_NUMBER
  | Some current =>
      throw_if (resource_currentRevisionId resource !== Some (revision_id current))
        INVALID_CURRENT_REVISION ≫= λ _,
      throw_if (revision_parentRevisionId proposed !== Some (revision_id current))
        BASE_REVISION_CONFLICT ≫= λ _,
      throw_if (revision_revisionNumber proposed !== (revision_revisionNumber current + 1)%Z)
        INVALID_REVISION_NUMBER
  end.

(** ** What the assertions let through *)

(** The successor relation on a resource's history. *)
Definition next_revision (resource : Resource) (current : option Revision) (r : Revision) : Prop :=
  revision_resourceId r = resource_id resource ∧
  revision_workspaceId r = resource_workspaceId resource ∧
  revision_datasetId r = resource_datasetId resource ∧
  match current with
  | None => revision_parentRevisionId r = None ∧ revision_revisionNumber r = 1%Z
  | Some c =>
      resource_currentRevisionId resource = Some (revision_id c) ∧
      revision_parentRevisionId r = Some (revision_id c) ∧
      revision_revisionNumber r = (revision_revisionNumber c + 1)%Z
  end.

Lemma assertNextRevision_Ok resource current r u :
  assertNextRevision resource current r = Ok u ↔ next_revision resource current r.
Proof.
  unfold assertNextRevision, next_revision. destruct u. split.
  - intros H. destruct current; run_inv; to_prop; auto 10.
  - intros (-> & -> & -> & H). destruct current as [c|]; simpl.
    + destruct H as (-> & -> & ->). by guards.
    + destruct H as [-> ->]. by guards.
Qed.

Lemma bad_days_false n :
  bad_days n = false ↔ ∃ d, n = JInt d ∧ (0 ≤ d ≤ 36500)%Z.
Proof.
  unfold bad_days. rewrite safe_range_guard. split.
  - intros (z & -> & ? & ?). eauto.
  - intros (z & -> & ?). exists z. split_and!; [done | lia | lia |].
    unfold isSafe, MAX_SAFE_INTEGER. lia.
Qed.
