(* ===== verification/Policy.v ===== *)
(** * packages/policy: role-based access, scopes and break-glass grants

    [evaluatePolicy] decides one request: an application principal must be
    registered and hold the capability; then a role assignment (stored, or
    claimed by the identity provider) whose scope matches may allow it; then an
    active break-glass grant may.  Everything else is denied. *)
From S2P Require Import Prelude Js Concrete.

(** Source: packages/policy/src/index.ts:1-35 PolicyAction *)
Inductive PolicyAction :=
  | workspace_read
  | workspace_manage
  | control_read
  | dataset_read
  | dataset_write
  | dataset_manage
  | resource_read
  | revision_create
  | resource_delete
  | resource_restore
  | blob_read
  | object_ingest
  | relation_read
  | relation_write
  | history_read
  | audit_read
  | verification_run
  | retention_manage
  | purge_execute
  | access_manage
  | break_glass_grant
  | break_glass_revoke
  | break_glass_use
  | health_read
  | storage_probe_ingest
  | storage_manage
  | operation_process
  | portability_read
  | portability_export
  | portability_plan
  | portability_execute.
#[global] Instance PolicyAction_eq_dec : EqDecision PolicyAction.
Proof. solve_decision. Defined.

(** The string of the source. *)
Definition action_name (a : PolicyAction) : string :=
  match a with
  | workspace_read => "workspace:read"
  | workspace_manage => "workspace:manage"
  | control_read => "control:read"
  | dataset_read => "dataset:read"
  | dataset_write => "dataset:write"
  | dataset_manage => "dataset:manage"
  | resource_read => "resource:read"
  | revision_create => "revision:create"
  | resource_delete => "resource:delete"
  | resource_restore => "resource:restore"
  | blob_read => "blob:read"
  | object_ingest => "object:ingest"
  | relation_read => "relation:read"
  | relation_write => "relation:write"
  | history_read => "history:read"
  | audit_read => "audit:read"
  | verification_run => "verification:run"
  | retention_manage => "retention:manage"
  | purge_execute => "purge:execute"
  | access_manage => "access:manage"
  | break_glass_grant => "break_glass:grant"
  | break_glass_revoke => "break_glass:revoke"
  | break_glass_use => "break_glass:use"
  | health_read => "health:read"
  | storage_probe_ingest => "storage:probe_ingest"
  | storage_manage => "storage:manage"
  | operation_process => "operation:process"
  | portability_read => "portability:read"
  | portability_export => "portability:export"
  | portability_plan => "portability:plan"
  | portability_execute => "portability:execute"
  end.

(** Source: packages/policy/src/index.ts:1-33 policyActions *)
Definition policyActions : list PolicyAction :=
  [
    workspace_read; workspace_manage; control_read; dataset_read; dataset_write;
    dataset_manage; resource_read; revision_create; resource_delete; resource_restore;
    blob_read; object_ingest; relation_read; relation_write; history_read; audit_read;
    verification_run; retention_manage; purge_execute; access_manage;
    break_glass_grant; break_glass_revoke; break_glass_use; health_read;
    storage_probe_ingest; storage_manage; operation_process; portability_read;
    portability_export; portability_plan; portability_execute
  ].

(** Source: packages/policy/src/index.ts:36-43 PolicyRole *)
Inductive PolicyRole :=
  | owner | admin | editor | recovery_operator | auditor | worker | infrastructure_operator.
#[global] Instance PolicyRole_eq_dec : EqDecision PolicyRole.
Proof. solve_decision. Defined.

Inductive PrincipalType := principal_user | principal_service | principal_application.
#[global] Instance PrincipalType_eq_dec : EqDecision PrincipalType.
Proof. solve_decision. Defined.
Inductive ScopeKind := scope_workspace | scope_dataset | scope_application.
#[global] Instance ScopeKind_eq_dec : EqDecision ScopeKind.
Proof. solve_decision. Defined.
Inductive ActionBoundary := boundary_content | boundary_infrastructure | boundary_security.
#[global] Instance ActionBoundary_eq_dec : EqDecision ActionBoundary.
Proof. solve_decision. Defined.
Inductive ApplicationStatus := app_active | app_suspended | app_revoked.
#[global] Instance ApplicationStatus_eq_dec : EqDecision ApplicationStatus.
Proof. solve_decision. Defined.

(** Source: packages/policy/src/index.ts:48-53 PolicyPrincipal *)
Record PolicyPrincipal := mkPrincipal {
  principal_id : string;
  principal_type : PrincipalType;
  principal_roles : list string;
  principal_workspaceIds : list string;
}.

(** Source: packages/policy/src/index.ts:55-59 PolicyScope *)
Record PolicyScope := mkScope {
  scope_workspaceId : string;
  scope_datasetId : option string;
  scope_applicationId : option string;
}.

(** Source: packages/policy/src/index.ts:61-70 ScopedPolicyAssignment *)
Record ScopedPolicyAssignment := mkAssignment {
  assignment_id : string;
  assignment_workspaceId : string;
  assignment_principalType : PrincipalType;
  assignment_principalId : string;
  assignment_role : string;
  assignment_scopeKind : ScopeKind;
  assignment_scopeId : string;
  assignment_revokedAt : option string;
}.

(** Source: packages/policy/src/index.ts:72-78 RegisteredApplication *)
Record RegisteredApplication := mkApplication {
  application_id : string;
  application_workspaceId : string;
  application_namespace : string;
  application_capabilities : list string;
  application_status : ApplicationStatus;
}.

(** Source: packages/policy/src/index.ts:80-89 ActiveBreakGlassGrant *)
Record ActiveBreakGlassGrant := mkGrant {
  grant_id : string;
  grant_workspaceId : string;
  grant_principalId : string;
  grant_reason : string;
  grant_actions : list string;
  grant_grantedAt : string;
  grant_expiresAt : string;
  grant_revokedAt : option string;
}.

(** An absent optional array is the empty one ([?? []], [?.find]). *)
(** Source: packages/policy/src/index.ts:91-99 PolicyEvaluationInput *)
Record PolicyEvaluationInput := mkPolicyInput {
  input_principal : PolicyPrincipal;
  input_action : PolicyAction;
  input_scope : PolicyScope;
  input_assignments : list ScopedPolicyAssignment;
  input_applications : list RegisteredApplication;
  input_breakGlassGrants : list ActiveBreakGlassGrant;
  input_at : option string;
}.

Inductive DenialReason :=
  | unknown_action | unregistered_application | application_capability_denied
  | no_matching_assignment.
#[global] Instance DenialReason_eq_dec : EqDecision DenialReason.
Proof. solve_decision. Defined.

(** Source: packages/policy/src/index.ts:101-111 PolicyDecision *)
Inductive PolicyDecision :=
  | Allowed_role (assignmentId : string)
  | Allowed_break_glass (grantId reason : string)
  | Denied (reason : DenialReason).

(** [decision.allowed] *)
Definition allowed (d : PolicyDecision) : bool :=
  match d with Denied _ => false | _ => true end.

(** Source: packages/policy/src/index.ts:113-119 breakGlassEligibleActions *)
Definition breakGlassEligibleActions : list PolicyAction :=
  [dataset_read; resource_read; resource_restore; blob_read; history_read].

(** Source: packages/policy/src/index.ts:121-199 roleCapabilities *)
Definition roleCapabilities (role : PolicyRole) : list PolicyAction :=
  match role with
  | owner => List.filter (λ action, action !== operation_process) policyActions
  | admin => [
    workspace_read; workspace_manage; control_read; dataset_read; dataset_write;
    dataset_manage; resource_read; revision_create; resource_delete; resource_restore;
    blob_read; object_ingest; relation_read; relation_write; history_read; audit_read;
    verification_run; retention_manage; purge_execute; access_manage;
    break_glass_grant; break_glass_revoke; health_read; storage_probe_ingest;
    storage_manage; portability_read; portability_export; portability_plan;
    portability_execute]
  | editor => [
    dataset_read; dataset_write; resource_read; revision_create; blob_read;
    object_ingest; relation_read; relation_write]
  | recovery_operator => [
    dataset_read; resource_read; resource_restore; history_read; portability_read;
    portability_plan; portability_execute]
  | auditor => [
    workspace_read; control_read; dataset_read; resource_read; blob_read;
    relation_read; history_read; audit_read; verification_run; health_read;
    portability_read]
  | infrastructure_operator => [
    workspace_read; control_read; audit_read; verification_run; health_read;
    portability_read]
  | worker => [health_read; operation_process]
  end.

(** Source: packages/policy/src/index.ts:201-203 isPolicyAction *)
Definition isPolicyAction (value : string) : bool :=
  existsb (λ a, action_name a === value) policyActions.

(** Source: packages/policy/src/index.ts:205-209 isBreakGlassEligibleAction *)
Definition isBreakGlassEligibleAction (value : string) : bool :=
  isPolicyAction value && existsb (λ a, action_name a === value) breakGlassEligibleActions.

(** Source: packages/policy/src/index.ts:211-250 actionBoundary *)
Definition actionBoundary (action : PolicyAction) : ActionBoundary :=
  match action with
  | dataset_read | dataset_write | dataset_manage | resource_read | revision_create | resource_delete | resource_restore
  | blob_read | object_ingest | relation_read | relation_write | history_read | retention_manage | purge_execute => boundary_content
  | workspace_read | control_read | audit_read | verification_run | health_read
  | storage_probe_ingest | storage_manage | operation_process | portability_read => boundary_infrastructure
  | workspace_manage | access_manage | break_glass_grant | break_glass_revoke
  | break_glass_use | portability_plan | portability_export | portability_execute => boundary_security
  end.

(** Source: packages/policy/src/index.ts:362-372 isPolicyRole *)
Definition isPolicyRole (value : string) : option PolicyRole :=
  if value === "owner" then Some owner
  else if value === "admin" then Some admin
  else if value === "editor" then Some editor
  else if value === "recovery_operator" then Some recovery_operator
  else if value === "auditor" then Some auditor
  else if value === "worker" then Some worker
  else if value === "infrastructure_operator" then Some infrastructure_operator
  else None.

(** Source: packages/policy/src/index.ts:252-254 capabilitiesForRole *)
Definition capabilitiesForRole (role : string) : list PolicyAction :=
  match isPolicyRole role with Some r => roleCapabilities r | None => [] end.

(** Source: packages/policy/src/index.ts:288-315 assignmentMatches *)
Definition assignmentMatches (assignment : ScopedPolicyAssignment)
    (input : PolicyEvaluationInput) : bool :=
  if truthy (assignment_revokedAt assignment)
     || (assignment_workspaceId assignment !== scope_workspaceId (input_scope input))
     || (assignment_principalType assignment !== principal_type (input_principal input))
     || (assignment_principalId assignment !== principal_id (input_principal input))
  then false
  else match assignment_scopeKind assignment with
  | scope_workspace => assignment_scopeId assignment === scope_workspaceId (input_scope input)
  | scope_dataset =>
      Some (assignment_scopeId assignment) === scope_datasetId (input_scope input)
  | scope_application =>
      Some (assignment_scopeId assignment) === scope_applicationId (input_scope input)
  end.

(** Source: packages/policy/src/index.ts:317-331 claimedRoleAssignments *)
Definition claimedRoleAssignments (input : PolicyEvaluationInput) : list ScopedPolicyAssignment :=
  if negb (array_includes (principal_workspaceIds (input_principal input))
             (scope_workspaceId (input_scope input)))
  then []
  else imap (λ (index : nat) role,
    {| assignment_id := "identity-claim:" +:+ pretty index +:+ ":" +:+ role;
       assignment_workspaceId := scope_workspaceId (input_scope input);
       assignment_principalType := principal_type (input_principal input);
       assignment_principalId := principal_id (input_principal input);
       assignment_role := role;
       assignment_scopeKind := scope_workspace;
       assignment_scopeId := scope_workspaceId (input_scope input);
       assignment_revokedAt := None |}) (principal_roles (input_principal input)).

(** Source: packages/policy/src/index.ts:333-343 registeredApplication *)
Definition registeredApplication (input : PolicyEvaluationInput) : option RegisteredApplication :=
  List.find (λ application,
    (application_workspaceId application === scope_workspaceId (input_scope input)) &&
    (application_status application === app_active) &&
    ((application_id application === principal_id (input_principal input)) ||
     (application_namespace application === principal_id (input_principal input))))
    (input_applications input).

Section Evaluate.
Context `{JsDate}.
(** [new Date().toISOString()] at the time of the call. *)
Context (clock : string).

Definition grant_active (input : PolicyEvaluationInput) (at_ : option Z)
    (grant : ActiveBreakGlassGrant) : bool :=
  (grant_workspaceId grant === scope_workspaceId (input_scope input)) &&
  (grant_principalId grant === principal_id (input_principal input)) &&
  negb (truthy (grant_revokedAt grant)) &&
  negb (blank (grant_reason grant)) &&
  existsb (λ action, action === action_name (input_action input)) (grant_actions grant) &&
  date_le (Date_parse (grant_grantedAt grant)) at_ &&
  date_lt at_ (Date_parse (grant_expiresAt grant)).

(** Source: packages/policy/src/index.ts:345-360 activeBreakGlassGrant *)
Definition activeBreakGlassGrant (input : PolicyEvaluationInput) : option ActiveBreakGlassGrant :=
  if negb (isBreakGlassEligibleAction (action_name (input_action input))) then None
  else
    let at_ := Date_parse (default clock (input_at input)) in
    List.find (grant_active input at_) (input_breakGlassGrants input).

(** The loop over the assignments. *)
Fixpoint first_authorising (input : PolicyEvaluationInput)
    (assignments : list ScopedPolicyAssignment) : option ScopedPolicyAssignment :=
  match assignments with
  | [] => None
  | assignment :: rest =>
      if negb (assignmentMatches assignment input) then first_authorising input rest
      else if array_includes (capabilitiesForRole (assignment_role assignment)) (input_action input)
      then Some assignment
      else first_authorising input rest
  end.

(** Source: packages/policy/src/index.ts:256-286 evaluatePolicy *)
Definition evaluatePolicy (input : PolicyEvaluationInput) : PolicyDecision :=
  let decide_by_assignment :=
    match first_authorising input (input_assignments input ++ claimedRoleAssignments input) with
    | Some assignment => Allowed_role (assignment_id assignment)
    | None =>
        match activeBreakGlassGrant input with
        | Some breakGlass => Allowed_break_glass (grant_id breakGlass) (grant_reason breakGlass)
        | None => Denied no_matching_assignment
        end
    end in
  if principal_type (input_principal input) === principal_application then
    match registeredApplication input with
    | None => Denied unregistered_application
    | Some application =>
        if negb (existsb (λ action, action === action_name (input_action input))
                   (application_capabilities application))
        then Denied application_capability_denied
        else decide_by_assignment
    end
  else decide_by_assignment.
End Evaluate.

(** ** Specification of a decision *)

Definition assignment_covers (a : ScopedPolicyAssignment) (i : PolicyEvaluationInput) : Prop :=
  truthy (assignment_revokedAt a) = false ∧
  assignment_workspaceId a = scope_workspaceId (input_scope i) ∧
  assignment_principalType a = principal_type (input_principal i) ∧
  assignment_principalId a = principal_id (input_principal i) ∧
  match assignment_scopeKind a with
  | scope_workspace => assignment_scopeId a = scope_workspaceId (input_scope i)
  | scope_dataset => scope_datasetId (input_scope i) = Some (assignment_scopeId a)
  | scope_application => scope_applicationId (input_scope i) = Some (assignment_scopeId a)
  end.

Definition stored_role_allows (i : PolicyEvaluationInput) : Prop :=
  ∃ a, a ∈ input_assignments i ∧ assignment_covers a i ∧
       input_action i ∈ capabilitiesForRole (assignment_role a).

Definition claimed_role_allows (i : PolicyEvaluationInput) : Prop :=
  scope_workspaceId (input_scope i) ∈ principal_workspaceIds (input_principal i) ∧
  ∃ role, role ∈ principal_roles (input_principal i) ∧ input_action i ∈ capabilitiesForRole role.

Definition application_gate (i : PolicyEvaluationInput) : Prop :=
  principal_type (input_principal i) = principal_application →
  ∃ app, registeredApplication i = Some app ∧
         action_name (input_action i) ∈ application_capabilities app.

Definition break_glass_allows `{JsDate} (clock : string) (i : PolicyEvaluationInput) : Prop :=
  input_action i ∈ breakGlassEligibleActions ∧
  ∃ g, g ∈ input_breakGlassGrants i ∧
    grant_workspaceId g = scope_workspaceId (input_scope i) ∧
    grant_principalId g = principal_id (input_principal i) ∧
    truthy (grant_revokedAt g) = false ∧ blank (grant_reason g) = false ∧
    action_name (input_action i) ∈ grant_actions g ∧
    ∃ granted now expires,
      Date_parse (grant_grantedAt g) = Some granted ∧
      Date_parse (default clock (input_at i)) = Some now ∧
      Date_parse (grant_expiresAt g) = Some expires ∧
      (granted ≤ now < expires)%Z.

(** ** The helpers meet their specification *)

Lemma action_name_inj a b : action_name a = action_name b → a = b.
Proof. destruct a, b; intros H; try reflexivity; discriminate H. Qed.

Lemma elem_of_policyActions a : a ∈ policyActions.
Proof. apply (bool_decide_unpack _). destruct a; vm_compute; exact I. Qed.

Lemma isBreakGlassEligibleAction_spec a :
  isBreakGlassEligibleAction (action_name a) = true ↔ a ∈ breakGlassEligibleActions.
Proof.
  unfold isBreakGlassEligibleAction, isPolicyAction. rewrite andb_true_iff, !existsb_elem. split.
  - intros [_ (b & Hb & Heq)]. to_prop. by apply action_name_inj in Heq as ->.
  - intros Ha. split; exists a; (split; [auto using elem_of_policyActions | apply strict_eq_refl]).
Qed.

Lemma some_action_spec (l : list string) n : existsb (λ x, x === n) l = true ↔ n ∈ l.
Proof.
  rewrite existsb_elem. split; [|intros; exists n; split; [done | apply strict_eq_refl]].
  intros (x & Hx & Heq). to_prop. by subst.
Qed.

Lemma assignmentMatches_spec a i : assignmentMatches a i = true ↔ assignment_covers a i.
Proof.
  unfold assignmentMatches, assignment_covers. split.
  - intros Hm. destruct (_ || _) eqn:E; [done|]. to_prop. split_and!; auto.
    destruct (assignment_scopeKind a); by to_prop.
  - intros (-> & -> & -> & -> & Hs). guards.
    destruct (assignment_scopeKind a); rewrite Hs; apply strict_eq_refl.
Qed.

Lemma first_authorising_Some i l a :
  first_authorising i l = Some a →
  a ∈ l ∧ assignmentMatches a i = true ∧ input_action i ∈ capabilitiesForRole (assignment_role a).
Proof.
  induction l as [|b l IH]; simpl; [done|].
  destruct (assignmentMatches b i) eqn:Hm; simpl.
  - unfold array_includes. case_bool_decide.
    + intros [= ->]. split_and!; [by left | done | done].
    + intros (? & ? & ?)%IH. split_and!; [by right | done | done].
  - intros (? & ? & ?)%IH. split_and!; [by right | done | done].
Qed.

Lemma first_authorising_None i l a :
  first_authorising i l = None → a ∈ l → assignmentMatches a i = true →
  input_action i ∉ capabilitiesForRole (assignment_role a).
Proof.
  induction l as [|b l IH]; simpl; intros Hn Hin; [by apply elem_of_nil in Hin|].
  destruct (assignmentMatches b i) eqn:Hm; simpl in Hn; apply elem_of_cons in Hin as [->|Hin]; auto.
  - intros _. unfold array_includes in Hn. by case_bool_decide.
  - unfold array_includes in Hn. case_bool_decide; [done|]. auto.
  - congruence.
Qed.

Lemma elem_of_imap_role {B} (f : nat → string → B) (l : list string) b :
  b ∈ imap f l ↔ ∃ k role, l !! k = Some role ∧ b = f k role.
Proof.
  rewrite list_elem_of_lookup. setoid_rewrite list_lookup_imap. split.
  - intros (k & Hk). destruct (l !! k) as [r|] eqn:E; simpl in Hk; [|done].
    exists k, r. split; [done | congruence].
  - intros (k & r & Hk & ->). exists k. by rewrite Hk.
Qed.

Lemma role_allows_spec i :
  (∃ a, first_authorising i (input_assignments i ++ claimedRoleAssignments i) = Some a) ↔
  stored_role_allows i ∨ claimed_role_allows i.
Proof.
  split.
  - intros (a & (Hin & Hm & Hc)%first_authorising_Some).
    apply elem_of_app in Hin as [Hin|Hin].
    + left. exists a. rewrite <- assignmentMatches_spec. auto.
    + right. unfold claimedRoleAssignments, array_includes in Hin. case_bool_decide; simpl in Hin; [|set_solver].
      apply elem_of_imap_role in Hin as (k & role & Hk & ->). split; [done|].
      exists role. split; [by eapply list_elem_of_lookup_2 | done].
  - intros Hr. destruct (first_authorising _ _) as [a|] eqn:E; [eauto|]. exfalso.
    pose proof first_authorising_None as Hnone.
    destruct Hr as [(a & Hin & Hcov & Hc)|[Hws (role & Hrole & Hc)]].
    + eapply Hnone; [exact E | apply elem_of_app; by left | by apply assignmentMatches_spec | done].
    + apply list_elem_of_lookup in Hrole as [k Hk].
      set (f := λ (index : nat) role,
        {| assignment_id := "identity-claim:" +:+ pretty index +:+ ":" +:+ role;
           assignment_workspaceId := scope_workspaceId (input_scope i);
           assignment_principalType := principal_type (input_principal i);
           assignment_principalId := principal_id (input_principal i);
           assignment_role := role; assignment_scopeKind := scope_workspace;
           assignment_scopeId := scope_workspaceId (input_scope i);
           assignment_revokedAt := None |}).
      apply (Hnone i (input_assignments i ++ claimedRoleAssignments i) (f k role)).
      * exact E.
      * apply elem_of_app. right. unfold claimedRoleAssignments, array_includes.
        rewrite bool_decide_true by done. simpl. apply elem_of_imap_role. eauto.
      * apply assignmentMatches_spec. by unfold assignment_covers.
      * exact Hc.
Qed.

Section Theorems.
Context `{JsDate} (clock : string).

Lemma grant_active_spec i at_ g :
  grant_active i at_ g = true ↔
  grant_workspaceId g = scope_workspaceId (input_scope i) ∧
  grant_principalId g = principal_id (input_principal i) ∧
  truthy (grant_revokedAt g) = false ∧ blank (grant_reason g) = false ∧
  action_name (input_action i) ∈ grant_actions g ∧
  ∃ granted now expires,
    Date_parse (grant_grantedAt g) = Some granted ∧ at_ = Some now ∧
    Date_parse (grant_expiresAt g) = Some expires ∧ (granted ≤ now < expires)%Z.
Proof.
  unfold grant_active. rewrite !andb_true_iff, !bool_decide_eq_true, !negb_true_iff, some_action_spec.
  unfold date_le, date_lt. split.
  - intros ((((((Hw & Hp) & Hr) & Hb) & Ha) & Hd1) & Hd2). split_and!; auto.
    destruct (Date_parse (grant_grantedAt g)), at_, (Date_parse (grant_expiresAt g)); try done.
    eexists _, _, _. split_and!; [done..| |]; lia.
  - intros (-> & -> & -> & -> & Ha & t0 & t & t1 & -> & -> & -> & Ht). split_and!; auto; lia.
Qed.

Lemma activeBreakGlassGrant_spec i :
  (∃ g, activeBreakGlassGrant clock i = Some g) ↔ break_glass_allows clock i.
Proof.
  unfold activeBreakGlassGrant, break_glass_allows. rewrite <- isBreakGlassEligibleAction_spec.
  destruct (isBreakGlassEligibleAction _); simpl; [|split; [intros [? [=]] | intros [[=] _]]].
  setoid_rewrite <- grant_active_spec. split.
  - intros (g & Hg%find_Some_elem). eauto.
  - intros (_ & g & Hin & Hg). destruct (List.find _ _) as [g'|] eqn:E; [eauto|].
    eapply find_None_elem in E; [|exact Hin]. congruence.
Qed.

Lemma application_gate_dec i :
  (principal_type (input_principal i) === principal_application) = true →
  match registeredApplication i with
  | None => False
  | Some app => existsb (λ x, x === action_name (input_action i)) (application_capabilities app) = true
  end ↔ application_gate i.
Proof.
  intros Hp. to_prop. unfold application_gate.
  destruct (registeredApplication i) as [app|].
  - rewrite some_action_spec. naive_solver.
  - naive_solver.
Qed.

(** C2. A request is allowed exactly when the application gate holds (an
    application principal is registered, active, in the request's workspace
    and has the capability) and one of three things is true: an unrevoked
    stored assignment of the principal covers the scope and its role has the
    action; a role claimed by the identity provider for this workspace has it;
    or the action is break-glass eligible and an unrevoked grant with a
    reason, for this principal, workspace and action, is within its window. *)
Theorem evaluatePolicy_spec i :
  allowed (evaluatePolicy clock i) = true ↔
  application_gate i ∧
  (stored_role_allows i ∨ claimed_role_allows i ∨ break_glass_allows clock i).
Proof.
  assert (allowed match first_authorising i (input_assignments i ++ claimedRoleAssignments i) with
    | Some a => Allowed_role (assignment_id a)
    | None => match activeBreakGlassGrant clock i with
              | Some g => Allowed_break_glass (grant_id g) (grant_reason g)
              | None => Denied no_matching_assignment end end = true ↔
    stored_role_allows i ∨ claimed_role_allows i ∨ break_glass_allows clock i) as Hbody.
  { rewrite <- Logic.or_assoc, <- role_allows_spec, <- activeBreakGlassGrant_spec.
    destruct (first_authorising _ _), (activeBreakGlassGrant _ _); simpl; naive_solver. }
  unfold evaluatePolicy. destruct (_ === principal_application) eqn:Hp.
  - rewrite <- (application_gate_dec i Hp). destruct (registeredApplication i); simpl; [|naive_solver].
    destruct (existsb _ _); simpl; [by rewrite Hbody; naive_solver | naive_solver].
  - rewrite Hbody. to_prop. unfold application_gate. naive_solver.
Qed.

(** *** Tenant isolation *)

(** The input with only the records of the request's own workspace. *)
Definition restrict_to_workspace (i : PolicyEvaluationInput) : PolicyEvaluationInput :=
  let ws := scope_workspaceId (input_scope i) in
  {| input_principal := input_principal i;
     input_action := input_action i;
     input_scope := input_scope i;
     input_assignments := List.filter (λ a, assignment_workspaceId a === ws) (input_assignments i);
     input_applications := List.filter (λ a, application_workspaceId a === ws) (input_applications i);
     input_breakGlassGrants := List.filter (λ g, grant_workspaceId g === ws) (input_breakGlassGrants i);
     input_at := input_at i |}.

Lemma find_filter {A} (f p : A → bool) l :
  (∀ x, f x = true → p x = true) → List.find f (List.filter p l) = List.find f l.
Proof.
  intros Hfp. induction l as [|x l IH]; simpl; [done|].
  destruct (p x) eqn:Hp; simpl; [by rewrite IH|].
  destruct (f x) eqn:Hf; [|done]. apply Hfp in Hf. congruence.
Qed.

Lemma first_authorising_ext i j l :
  (∀ a, assignmentMatches a j = assignmentMatches a i) → input_action j = input_action i →
  first_authorising j l = first_authorising i l.
Proof. intros Hm Ha. induction l as [|a l IH]; simpl; [done|]. by rewrite Hm, Ha, IH. Qed.

Lemma first_authorising_filter i j (p : ScopedPolicyAssignment → bool) l r :
  (∀ a, assignmentMatches a i = true → p a = true) →
  (∀ a, assignmentMatches a j = assignmentMatches a i) → input_action j = input_action i →
  first_authorising j (List.filter p l ++ r) = first_authorising i (l ++ r).
Proof.
  intros Hp Hm Ha. induction l as [|a l IH]; simpl.
  - by apply first_authorising_ext.
  - destruct (p a) eqn:E; simpl; [by rewrite Hm, Ha, IH|].
    destruct (assignmentMatches a i) eqn:Hmi; simpl; [|done]. apply Hp in Hmi. congruence.
Qed.

(** Tenant isolation: the decision on a request is unchanged when every
    role assignment, application registration and break-glass grant of
    another workspace is removed from the policy data. *)
Theorem workspace_isolation i :
  evaluatePolicy clock (restrict_to_workspace i) = evaluatePolicy clock i.
Proof.
  assert (registeredApplication (restrict_to_workspace i) = registeredApplication i) as Happ.
  { apply find_filter. intros x Hx. to_prop. subst. by rewrite bool_decide_eq_true. }
  assert (activeBreakGlassGrant clock (restrict_to_workspace i) = activeBreakGlassGrant clock i) as Hbg.
  { unfold activeBreakGlassGrant. simpl. destruct (isBreakGlassEligibleAction _); [|done].
    apply find_filter. intros g Hg%grant_active_spec. rewrite bool_decide_eq_true. tauto. }
  unfold evaluatePolicy. rewrite Happ, Hbg.
  change (claimedRoleAssignments (restrict_to_workspace i)) with (claimedRoleAssignments i).
  cbn [input_assignments restrict_to_workspace input_principal input_action].
  rewrite (first_authorising_filter i); [done | | done | done].
  intros a (_ & Hw & _)%assignmentMatches_spec. by rewrite bool_decide_eq_true.
Qed.

(** *** Break glass *)

Definition without_grants (i : PolicyEvaluationInput) : PolicyEvaluationInput :=
  mkPolicyInput (input_principal i) (input_action i) (input_scope i) (input_assignments i)
    (input_applications i) [] (input_at i).

(** Break glass reaches content reads and restores only: the eligible
    actions all lie within the content boundary, and for any other action the
    decision ignores the break-glass grants altogether. *)
Theorem break_glass_bounded i :
  input_action i ∉ breakGlassEligibleActions →
  (∀ a, a ∈ breakGlassEligibleActions → actionBoundary a = boundary_content) ∧
  evaluatePolicy clock i = evaluatePolicy clock (without_grants i).
Proof.
  intros Hne. split.
  { intros a Ha. apply list_elem_of_In in Ha. vm_compute in Ha. destruct_or?; by subst. }
  assert (isBreakGlassEligibleAction (action_name (input_action i)) = false) as Hf.
  { apply not_true_iff_false. by rewrite isBreakGlassEligibleAction_spec. }
  unfold evaluatePolicy, activeBreakGlassGrant. cbn [without_grants input_action]. rewrite Hf.
  by rewrite (first_authorising_ext i (without_grants i)).
Qed.

(** *** Separation of infrastructure from content *)

Definition infrastructure_roles : list string := ["infrastructure_operator"; "worker"].

Lemma infrastructure_capabilities role a :
  role ∈ infrastructure_roles → a ∈ capabilitiesForRole role → actionBoundary a ≠ boundary_content.
Proof.
  intros Hr Ha. apply list_elem_of_In in Hr. simpl in Hr. destruct Hr as [<-|[<-|[]]];
    apply list_elem_of_In in Ha; vm_compute in Ha; destruct_or?; try done; by subst.
Qed.

(** An operator of the infrastructure cannot read or change content: when
    every role a user or service holds in the scope is [infrastructure_operator]
    or [worker], an action of the content boundary is allowed only through a
    break-glass grant, never through a role. *)
Theorem infrastructure_isolation i :
  (∀ a, a ∈ input_assignments i → assignment_covers a i → assignment_role a ∈ infrastructure_roles) →
  (∀ r, r ∈ principal_roles (input_principal i) → r ∈ infrastructure_roles) →
  actionBoundary (input_action i) = boundary_content →
  allowed (evaluatePolicy clock i) = true →
  ∃ grantId reason, evaluatePolicy clock i = Allowed_break_glass grantId reason.
Proof.
  intros Hs Hc Hb Hall.
  assert (first_authorising i (input_assignments i ++ claimedRoleAssignments i) = None) as Hn.
  { destruct (first_authorising _ _) as [a|] eqn:E; [|done]. exfalso.
    assert (stored_role_allows i ∨ claimed_role_allows i) as Hr by (apply role_allows_spec; eauto).
    destruct Hr as [(b & Hin & Hcov & Hcap)|[_ (r & Hr & Hcap)]];
      eapply infrastructure_capabilities in Hcap; eauto. }
  unfold evaluatePolicy in *. rewrite Hn in *.
  destruct (_ === _); [destruct (registeredApplication i); [destruct (existsb _ _)|]|];
    simpl in *; try discriminate Hall; (destruct (activeBreakGlassGrant clock i); [eauto | discriminate Hall]).
Qed.
End Theorems.

(** ** Witnesses *)

Module PolicyWitness.
Definition operator : PolicyPrincipal :=
  mkPrincipal "op-1" principal_user ["infrastructure_operator"] ["ws-1"].
Definition emergency : ActiveBreakGlassGrant :=
  mkGrant "g-1" "ws-1" "op-1" "incident 42" ["blob:read"] "100" "200" None.
Definition request (action : PolicyAction) (at_ : string) : PolicyEvaluationInput :=
  mkPolicyInput operator action (mkScope "ws-1" None None) [] [] [emergency] (Some at_).

Example operator_reads_under_grant :
  evaluatePolicy "0" (request blob_read "150") = Allowed_break_glass "g-1" "incident 42".
Proof. reflexivity. Qed.
Example operator_denied_after_expiry :
  evaluatePolicy "0" (request blob_read "200") = Denied no_matching_assignment.
Proof. reflexivity. Qed.

Lemma break_glass_bounded_witness :
  evaluatePolicy "0" (request blob_read "150") = Allowed_break_glass "g-1" "incident 42" ∧
  evaluatePolicy "0" (request access_manage "150") =
    evaluatePolicy "0" (without_grants (request access_manage "150")).
Proof.
  split; [reflexivity|]. apply (break_glass_bounded "0" (request access_manage "150")).
  apply (bool_decide_unpack _). vm_compute. exact I.
Defined.

Lemma infrastructure_isolation_witness :
  ∃ grantId reason,
    evaluatePolicy "0" (request blob_read "150") = Allowed_break_glass grantId reason.
Proof.
  apply (infrastructure_isolation "0" (request blob_read "150")).
  - intros a Ha. by apply elem_of_nil in Ha.
  - intros r Hr. apply list_elem_of_singleton in Hr as ->. by left.
  - reflexivity.
  - reflexivity.
Defined.
End PolicyWitness.
