(* ===== verification/StorageKeys.v ===== *)
(** * packages/storage, keys.ts and errors.ts: object keys and storage errors

    Every object lives under a key built from validated identifiers.  The
    theorems are that the builders are injective, that the committed and the
    temporary key spaces do not meet, and that a key stays below its tenant's
    prefix. *)
From S2P Require Import Prelude Js.

(** Source: packages/storage/src/errors.ts:1-11 StorageErrorCode *)
Inductive StorageErrorCode :=
  | not_found | access_denied | conflict | invalid_request | throttled | transient | permanent.
#[global] Instance StorageErrorCode_eq_dec : EqDecision StorageErrorCode.
Proof. solve_decision. Defined.

(** What a storage call throws: a [StorageError] with its code, or a plain
    [Error]. *)
(** Source: packages/storage/src/errors.ts:13-27 StorageError *)
Inductive storage_exn :=
  | StorageError (code : StorageErrorCode)
  | PlainError (message : string).
#[global] Instance storage_exn_eq_dec : EqDecision storage_exn.
Proof. solve_decision. Defined.

(** Source: packages/storage/src/keys.ts:4-8 canonicalObjectKey *)
Definition canonicalObjectKey (workspaceId sha256 : string) : result storage_exn string :=
  throw_if (negb (SAFE_ID_PATTERN workspaceId)) (PlainError "Unsafe workspace identifier") ≫= λ _,
  throw_if (negb (SHA256_PATTERN sha256)) (PlainError "Invalid SHA-256") ≫= λ _,
  Ok ("workspaces/" +:+ workspaceId +:+ "/objects/" +:+ slice0 2 sha256 +:+ "/" +:+ sha256).

(** Source: packages/storage/src/keys.ts:10-13 temporaryObjectKey *)
Definition temporaryObjectKey (workspaceId operationId : string) : result storage_exn string :=
  throw_if (negb (SAFE_ID_PATTERN workspaceId) || negb (SAFE_ID_PATTERN operationId))
    (PlainError "Unsafe identifier") ≫= λ _,
  Ok ("workspaces/" +:+ workspaceId +:+ "/temporary/" +:+ operationId).

(** Source: packages/storage/src/keys.ts:43-55 assertSafeAppTenantIds *)
Definition assertSafeAppTenantIds (workspaceId applicationId tenantKey : string)
    : result storage_exn unit :=
  throw_if (negb (SAFE_ID_PATTERN workspaceId) || negb (SAFE_ID_PATTERN applicationId)
            || negb (SAFE_ID_PATTERN tenantKey)) (PlainError "Unsafe identifier").

(** Source: packages/storage/src/keys.ts:16-25 canonicalAppTenantPoolObjectKey *)
Definition canonicalAppTenantPoolObjectKey (workspaceId applicationId tenantKey sha256 : string)
    : result storage_exn string :=
  assertSafeAppTenantIds workspaceId applicationId tenantKey ≫= λ _,
  throw_if (negb (SHA256_PATTERN sha256)) (PlainError "Invalid SHA-256") ≫= λ _,
  Ok ("workspaces/" +:+ workspaceId +:+ "/apps/" +:+ applicationId +:+ "/tenants/" +:+ tenantKey
      +:+ "/objects/" +:+ slice0 2 sha256 +:+ "/" +:+ sha256).

(** Source: packages/storage/src/keys.ts:28-41 canonicalAppTenantSiloObjectKey *)
Definition canonicalAppTenantSiloObjectKey (applicationId tenantKey sha256 : string)
    : result storage_exn string :=
  throw_if (negb (SAFE_ID_PATTERN applicationId) || negb (SAFE_ID_PATTERN tenantKey))
    (PlainError "Unsafe identifier") ≫= λ _,
  throw_if (negb (SHA256_PATTERN sha256)) (PlainError "Invalid SHA-256") ≫= λ _,
  Ok ("apps/" +:+ applicationId +:+ "/tenants/" +:+ tenantKey
      +:+ "/objects/" +:+ slice0 2 sha256 +:+ "/" +:+ sha256).

(** [s] without the prefix [p]. *)
Fixpoint strip_prefix (p s : string) : option string :=
  match p, s with
  | EmptyString, _ => Some s
  | String c p', String d s' => if c === d then strip_prefix p' s' else None
  | String _ _, EmptyString => None
  end.

(** The longest prefix of safe identifier characters, and the rest. *)
Fixpoint span_safe (s : string) : string * string :=
  match s with
  | EmptyString => (EmptyString, EmptyString)
  | String c s' =>
      if is_safe_id_char c
      then let '(a, b) := span_safe s' in (String c a, b)
      else (EmptyString, s)
  end.

(** [/^workspaces\/[A-Za-z0-9_-]+\/temporary\/[A-Za-z0-9_-]+$/]: the class
    excludes the slash, so the greedy match is the only one. *)
(** Source: packages/storage/src/memory-object-storage.ts:17-18 TEMPORARY_KEY_PATTERN *)
Definition TEMPORARY_KEY_PATTERN (key : string) : bool :=
  match strip_prefix "workspaces/" key with
  | None => false
  | Some rest =>
      let '(ws, rest) := span_safe rest in
      (ws !== EmptyString) &&
      match strip_prefix "/temporary/" rest with
      | None => false
      | Some op => SAFE_ID_PATTERN op
      end
  end.

(** ** The pattern recognises exactly the temporary keys *)

Lemma strip_prefix_spec p s t : strip_prefix p s = Some t ↔ s = p +:+ t.
Proof.
  revert s. induction p as [|c p IH]; intros s.
  - change (EmptyString +:+ t) with t. simpl. split; congruence.
  - change (String c p +:+ t) with (String c (p +:+ t)). destruct s as [|d s]; simpl; [split; congruence|].
    case_bool_decide; subst; [rewrite IH | ]; split; congruence.
Qed.

Lemma span_safe_spec s : s = (span_safe s).1 +:+ (span_safe s).2.
Proof.
  induction s as [|c s IH]; simpl; [done|].
  destruct (is_safe_id_char c); [|done]. destruct (span_safe s) as [a b]. simpl in *.
  change (String c a +:+ b) with (String c (a +:+ b)). by rewrite <- IH.
Qed.

Lemma span_safe_chars s : forallb is_safe_id_char (chars (span_safe s).1) = true.
Proof.
  induction s as [|c s IH]; simpl; [done|].
  destruct (is_safe_id_char c) eqn:E; [|done]. destruct (span_safe s) as [a b]. simpl in *. by rewrite E.
Qed.

Lemma span_safe_app w c rest :
  forallb is_safe_id_char (chars w) = true → is_safe_id_char c = false →
  span_safe (w +:+ String c rest) = (w, String c rest).
Proof.
  intros Hw Hc. induction w as [|d w IH].
  - change (EmptyString +:+ String c rest) with (String c rest). simpl. by rewrite Hc.
  - simpl in Hw. apply andb_true_iff in Hw as [Hd Hw].
    change (String d w +:+ String c rest) with (String d (w +:+ String c rest)).
    simpl. rewrite Hd. by rewrite IH.
Qed.

Lemma TEMPORARY_KEY_PATTERN_spec key :
  TEMPORARY_KEY_PATTERN key = true ↔
  ∃ w o, SAFE_ID_PATTERN w = true ∧ SAFE_ID_PATTERN o = true ∧
         key = "workspaces/" +:+ w +:+ "/temporary/" +:+ o.
Proof.
  unfold TEMPORARY_KEY_PATTERN. split.
  - destruct (strip_prefix "workspaces/" key) as [rest|] eqn:E; [|done].
    apply strip_prefix_spec in E as ->.
    pose proof (span_safe_spec rest) as Hs. pose proof (span_safe_chars rest) as Hc.
    destruct (span_safe rest) as [w rest']. cbn [fst snd] in *.
    destruct (strip_prefix "/temporary/" rest') as [o|] eqn:E; [|by rewrite andb_false_r].
    intros H. to_prop.
    apply strip_prefix_spec in E as ->. exists w, o. split_and!; [|done|by subst].
    unfold SAFE_ID_PATTERN. rewrite Hc, andb_true_r. by rewrite negb_true_iff, bool_decide_eq_false.
  - intros (w & o & Hw & Ho & ->).
    assert (strip_prefix "workspaces/" ("workspaces/" +:+ w +:+ "/temporary/" +:+ o) =
            Some (w +:+ "/temporary/" +:+ o)) as -> by by apply strip_prefix_spec.
    unfold SAFE_ID_PATTERN in Hw. to_prop.
    change ("/temporary/" +:+ o) with (String "/" ("temporary/" +:+ o)).
    rewrite span_safe_app by done.
    assert (strip_prefix "/temporary/" (String "/" ("temporary/" +:+ o)) = Some o) as ->
      by by apply strip_prefix_spec.
    rewrite Ho, andb_true_r. by rewrite negb_true_iff, bool_decide_eq_false.
Qed.

(** ** Key builders: success, injectivity, disjointness *)

Lemma canonicalObjectKey_Ok w h k :
  canonicalObjectKey w h = Ok k ↔
  SAFE_ID_PATTERN w = true ∧ SHA256_PATTERN h = true ∧
  k = "workspaces/" +:+ w +:+ "/objects/" +:+ slice0 2 h +:+ "/" +:+ h.
Proof.
  unfold canonicalObjectKey. split.
  - intros H. run_inv. to_prop. done.
  - intros (-> & -> & ->). done.
Qed.

Lemma temporaryObjectKey_Ok w o k :
  temporaryObjectKey w o = Ok k ↔
  SAFE_ID_PATTERN w = true ∧ SAFE_ID_PATTERN o = true ∧
  k = "workspaces/" +:+ w +:+ "/temporary/" +:+ o.
Proof.
  unfold temporaryObjectKey. split.
  - intros H. run_inv. to_prop. done.
  - intros (-> & -> & ->). done.
Qed.

Lemma temporaryObjectKey_temporary w o k :
  temporaryObjectKey w o = Ok k → TEMPORARY_KEY_PATTERN k = true.
Proof. intros H%temporaryObjectKey_Ok. apply TEMPORARY_KEY_PATTERN_spec. naive_solver. Qed.

(** Split [a ++ "/" ++ b] at the first slash when [a] is a safe identifier. *)
Lemma safe_segment_inj w1 w2 r1 r2 :
  SAFE_ID_PATTERN w1 = true → SAFE_ID_PATTERN w2 = true →
  w1 +:+ String "/" r1 = w2 +:+ String "/" r2 → w1 = w2 ∧ r1 = r2.
Proof. intros H1%safe_id_no_slash H2%safe_id_no_slash. by apply string_sep_inj. Qed.

Lemma slice0_length n s : n ≤ String.length s → String.length (slice0 n s) = n.
Proof.
  unfold slice0. revert n. induction s as [|c s IH]; intros [|n] H; simpl in *; try lia.
  f_equal. apply IH. lia.
Qed.

Lemma digest_segment_inj h1 h2 :
  SHA256_PATTERN h1 = true → SHA256_PATTERN h2 = true →
  slice0 2 h1 +:+ "/" +:+ h1 = slice0 2 h2 +:+ "/" +:+ h2 → h1 = h2.
Proof.
  intros [H1 _]%SHA256_PATTERN_spec [H2 _]%SHA256_PATTERN_spec H.
  apply string_app_inj_length in H as [_ H]; [by injection H|].
  rewrite !slice0_length; lia.
Qed.

Lemma canonicalObjectKey_inj w1 h1 w2 h2 k :
  canonicalObjectKey w1 h1 = Ok k → canonicalObjectKey w2 h2 = Ok k → w1 = w2 ∧ h1 = h2.
Proof.
  intros (Hw1 & Hh1 & ->)%canonicalObjectKey_Ok (Hw2 & Hh2 & H)%canonicalObjectKey_Ok.
  apply (inj (String.append "workspaces/")) in H.
  apply safe_segment_inj in H as [-> H]; [|done..]. split; [done|].
  apply (inj (String.append "objects/")) in H. by apply digest_segment_inj in H.
Qed.

Lemma canonical_not_temporary w h k :
  canonicalObjectKey w h = Ok k → TEMPORARY_KEY_PATTERN k = false.
Proof.
  intros (Hw & Hh & ->)%canonicalObjectKey_Ok. apply not_true_iff_false.
  intros (w' & o & Hw' & Ho & H)%TEMPORARY_KEY_PATTERN_spec.
  apply (inj (String.append "workspaces/")) in H.
  apply safe_segment_inj in H as [-> H]; [|done..]. discriminate H.
Qed.

(** The committed key space is sound: a canonical key determines its
    workspace and digest, a temporary key its workspace and operation, no key
    is both, and both kinds stay below [workspaces/<workspaceId>/]. *)
Theorem object_keys_injective_disjoint w1 w2 a1 a2 k1 k2 :
  canonicalObjectKey w1 a1 = Ok k1 → temporaryObjectKey w2 a2 = Ok k2 →
  (∀ w h, canonicalObjectKey w h = Ok k1 → w = w1 ∧ h = a1) ∧
  (∀ w o, temporaryObjectKey w o = Ok k2 → w = w2 ∧ o = a2) ∧
  k1 ≠ k2 ∧
  startsWith k1 ("workspaces/" +:+ w1 +:+ "/") = true ∧
  startsWith k2 ("workspaces/" +:+ w2 +:+ "/") = true.
Proof.
  intros H1 H2. split_and!.
  - intros w h H. by eapply canonicalObjectKey_inj.
  - apply temporaryObjectKey_Ok in H2 as (Hw2 & Ho2 & ->).
    intros w o (Hw & Ho & H)%temporaryObjectKey_Ok.
    apply (inj (String.append "workspaces/")) in H.
    apply safe_segment_inj in H as [-> H]; [|done..].
    by apply (inj (String.append "temporary/")) in H as ->.
  - intros ->. apply canonical_not_temporary in H1. apply temporaryObjectKey_temporary in H2. congruence.
  - apply canonicalObjectKey_Ok in H1 as (_ & _ & ->). unfold startsWith.
    assert (∀ a b c, a +:+ b +:+ "/objects/" +:+ c = (a +:+ b +:+ "/") +:+ ("objects/" +:+ c)) as ->.
    { intros. by rewrite <- !string_app_assoc. }
    apply prefix_app.
  - apply temporaryObjectKey_Ok in H2 as (_ & _ & ->). unfold startsWith.
    assert (∀ a b c, a +:+ b +:+ "/temporary/" +:+ c = (a +:+ b +:+ "/") +:+ ("temporary/" +:+ c)) as ->.
    { intros. by rewrite <- !string_app_assoc. }
    apply prefix_app.
Qed.

Definition digest0 : string := "0123456789abcdef0123456789abcdef0123456789abcdef0123456789abcdef".

Lemma object_keys_injective_disjoint_witness :
  ("workspaces/ws-1/objects/01/" +:+ digest0) ≠ "workspaces/ws-1/temporary/op_7".
Proof.
  apply (object_keys_injective_disjoint "ws-1" "ws-1" digest0 "op_7"); vm_compute; reflexivity.
Defined.

Lemma canonicalAppTenantPoolObjectKey_Ok w a t h k :
  canonicalAppTenantPoolObjectKey w a t h = Ok k ↔
  SAFE_ID_PATTERN w = true ∧ SAFE_ID_PATTERN a = true ∧ SAFE_ID_PATTERN t = true ∧
  SHA256_PATTERN h = true ∧
  k = "workspaces/" +:+ w +:+ "/apps/" +:+ a +:+ "/tenants/" +:+ t
      +:+ "/objects/" +:+ slice0 2 h +:+ "/" +:+ h.
Proof.
  unfold canonicalAppTenantPoolObjectKey, assertSafeAppTenantIds. split.
  - rewrite result_bind_Ok. setoid_rewrite result_bind_Ok. setoid_rewrite throw_if_Ok.
    intros (_ & Hids & _ & Hsha & [= <-]). to_prop. done.
  - intros (-> & -> & -> & -> & ->). done.
Qed.

(** App-tenant keys are sound too: a pooled key determines workspace,
    application, tenant and digest, so no two tenants of the shared bucket can
    share an object. *)
Theorem app_tenant_keys_injective w1 a1 t1 h1 w2 a2 t2 h2 k :
  canonicalAppTenantPoolObjectKey w1 a1 t1 h1 = Ok k →
  canonicalAppTenantPoolObjectKey w2 a2 t2 h2 = Ok k →
  w1 = w2 ∧ a1 = a2 ∧ t1 = t2 ∧ h1 = h2.
Proof.
  intros (Hw1 & Ha1 & Ht1 & Hh1 & ->)%canonicalAppTenantPoolObjectKey_Ok.
  intros (Hw2 & Ha2 & Ht2 & Hh2 & HE)%canonicalAppTenantPoolObjectKey_Ok.
  apply (inj (String.append "workspaces/")) in HE.
  apply safe_segment_inj in HE as [-> HE]; [|done..].
  apply (inj (String.append "apps/")) in HE.
  apply safe_segment_inj in HE as [-> HE]; [|done..].
  apply (inj (String.append "tenants/")) in HE.
  apply safe_segment_inj in HE as [-> HE]; [|done..].
  apply (inj (String.append "objects/")) in HE.
  apply digest_segment_inj in HE as ->; done.
Qed.

Lemma app_tenant_keys_injective_witness :
  "acme" = "acme" ∧ "app" = "app" ∧ "t-1" = "t-1" ∧ digest0 = digest0.
Proof.
  apply (app_tenant_keys_injective _ _ _ _ _ _ _ _
    ("workspaces/acme/apps/app/tenants/t-1/objects/01/" +:+ digest0)); vm_compute; reflexivity.
Defined.
