(* ===== verification/Storage.v ===== *)
(** * packages/storage, types.ts: the ObjectStorage interface

    The operations a storage provider offers, as a class over the provider's
    state, and what its clients rely on: a commit leaves the declared bytes
    under the canonical key, committed objects never change, temporary objects
    are the only ones written or deleted.  [MemoryStorage] discharges the laws;
    object ingest and quarantine promotion are proved against them. *)
From S2P Require Import Prelude Js StorageKeys.

(** Source: packages/storage/src/types.ts:6-8 TemporaryObject *)
Record TemporaryObject := mkTemporary {
  temporary_key : string;
  temporary_expiresAt : string;
}.

(** Source: packages/storage/src/types.ts:9-14 ObjectMetadata *)
Record ObjectMetadata := mkMetadata {
  metadata_key : string;
  metadata_byteLength : Z;
  metadata_mediaType : string;
  metadata_sha256 : option string;
}.
#[global] Instance ObjectMetadata_eq_dec : EqDecision ObjectMetadata.
Proof. solve_decision. Defined.

(** Source: packages/storage/src/types.ts:20-23 ByteRange *)
Record ByteRange := mkRange { range_start : jsnum; range_end : jsnum }.

(** The declaration of [commitImmutable]. *)
Record CommitInput := mkCommit {
  commit_temporary : string;
  commit_workspaceId : string;
  commit_sha256 : string;
  commit_byteLength : jsnum;
  commit_mediaType : string;
}.

Definition byteLength (b : string) : Z := Z.of_nat (String.length b).

(** [Buffer.concat] of the chunks of a stream. *)
(** Source: packages/storage/src/memory-object-storage.ts:500-504 readAll *)
Definition readAll (chunks : list string) : string := foldr String.append EmptyString chunks.

(** Source: packages/storage/src/types.ts:56-79 ObjectStorage *)
Class ObjectStorage (S : Type) := {
  createTemporaryUpload : Z → string → string → M S storage_exn TemporaryObject;
  writeTemporary : string → list string → string → M S storage_exn ObjectMetadata;
  commitImmutable : CommitInput → M S storage_exn ObjectMetadata;
  openReadStream : string → option ByteRange → M S storage_exn string;
  head : string → M S storage_exn ObjectMetadata;
  exists_ : string → M S storage_exn bool;
  deleteTemporary : string → M S storage_exn unit;
}.

(** [stored s key b mt]: the provider holds exactly the bytes [b] under [key],
    with media type [mt]. *)
Class ObjectStorageLaws (S : Type) `{Crypto} `{ObjectStorage S} := {
  stored : S → string → string → string → Prop;
  storage_inv : S → Prop;

  stored_functional s key b1 m1 b2 m2 :
    stored s key b1 m1 → stored s key b2 m2 → b1 = b2 ∧ m1 = m2;

  (** What a canonical key holds has the digest the key names. *)
  stored_canonical s w d key b m :
    storage_inv s → canonicalObjectKey w d = Ok key → stored s key b m → sha256 b = d;

  createTemporaryUpload_law s now w o t s' :
    createTemporaryUpload now w o s = (Ok t, s') →
    temporaryObjectKey w o = Ok (temporary_key t) ∧ s' = s;
  createTemporaryUpload_total s now w o key :
    temporaryObjectKey w o = Ok key → ∃ t, createTemporaryUpload now w o s = (Ok t, s);
  writeTemporary_law s key body mt md s' :
    storage_inv s → writeTemporary key body mt s = (Ok md, s') →
    storage_inv s' ∧ stored s' key (readAll body) mt ∧
    md = mkMetadata key (byteLength (readAll body)) mt (Some (sha256 (readAll body))) ∧
    (∀ k b m, k ≠ key → stored s k b m ↔ stored s' k b m);
  writeTemporary_total s w o key body mt :
    temporaryObjectKey w o = Ok key → blank mt = false →
    ∃ md s', writeTemporary key body mt s = (Ok md, s');
  commitImmutable_law s input md s' :
    storage_inv s → commitImmutable input s = (Ok md, s') →
    storage_inv s' ∧
    canonicalObjectKey (commit_workspaceId input) (commit_sha256 input) = Ok (metadata_key md) ∧
    metadata_sha256 md = Some (commit_sha256 input) ∧
    JInt (metadata_byteLength md) = commit_byteLength input ∧
    (∃ b m, stored s' (metadata_key md) b m ∧ sha256 b = commit_sha256 input ∧
            byteLength b = metadata_byteLength md) ∧
    (** only the temporary object may disappear, only the committed one appears *)
    TEMPORARY_KEY_PATTERN (commit_temporary input) = true ∧
    (∀ k b m, k ≠ commit_temporary input → stored s k b m → stored s' k b m) ∧
    (∀ k b m, k ≠ metadata_key md → stored s' k b m → stored s k b m);
  commitImmutable_total s tmp w b mt key :
    storage_inv s →
    stored s tmp b mt ∨ ((∀ b' m', ¬ stored s tmp b' m') ∧ ∃ b' m', stored s key b' m') →
    TEMPORARY_KEY_PATTERN tmp = true → canonicalObjectKey w (sha256 b) = Ok key → blank mt = false →
    (byteLength b <= MAX_SAFE_INTEGER)%Z →
    (∀ b' m', stored s key b' m' → byteLength b' = byteLength b) →
    ∃ md s', commitImmutable (mkCommit tmp w (sha256 b) (JInt (byteLength b)) mt) s = (Ok md, s');
  commitImmutable_retry s input md s' :
    storage_inv s → commitImmutable input s = (Ok md, s') →
    commitImmutable input s' = (Ok md, s');
  head_law s key md s' :
    head key s = (Ok md, s') → storage_inv s →
    s' = s ∧ metadata_key md = key ∧
    ∃ b m, stored s key b m ∧ metadata_byteLength md = byteLength b ∧
           metadata_mediaType md = m ∧ metadata_sha256 md = Some (sha256 b);
  head_total s key b m : stored s key b m → ∃ md, head key s = (Ok md, s);
  reads_pure s key : snd (head key s) = s ∧ ∀ range, snd (openReadStream key range s) = s;
  openReadStream_law s key b s' :
    openReadStream key None s = (Ok b, s') → ∃ m, stored s key b m;
  openReadStream_total s key b m : stored s key b m → openReadStream key None s = (Ok b, s);
  exists_law s key :
    ∃ r, exists_ key s = (Ok r, s) ∧ (r = true ↔ ∃ b m, stored s key b m);
  deleteTemporary_law s key u s' :
    storage_inv s → deleteTemporary key s = (Ok u, s') →
    storage_inv s' ∧ (∀ b m, ¬ stored s' key b m) ∧ (∀ k b m, k ≠ key → stored s k b m ↔ stored s' k b m);
}.

(** What a client that only reads relies on: that reading changes nothing.  What
    [head] and the stream answer, an error for bytes that are there included, is
    left open. *)
Class StorageReads (S : Type) `{ObjectStorage S} : Prop :=
  reads_only s key : snd (head key s) = s ∧ ∀ range, snd (openReadStream key range s) = s.
#[global] Instance laws_read_only (S : Type) `{Crypto} `{ObjectStorage S} `{!ObjectStorageLaws S} : StorageReads S.
Proof. exact reads_pure. Qed.
