(* ===== verification/MemoryStorage.v ===== *)
(** * packages/storage, memory-object-storage.ts: the in-process provider

    [MemoryObjectStorage]: the objects and multipart sessions as maps, every
    method as a program over that state.  The random [providerUploadRef] and
    the clock are arguments.  The invariant says that every stored object's
    recorded digest is the digest of its bytes, that a canonical key names that
    digest, and that a multipart session only ever targets a temporary key; the
    theorems are that every method keeps it and that no sequence of calls
    changes a committed object. *)
From S2P Require Import Prelude Js Concrete StorageKeys Storage.

(** Source: packages/storage/src/memory-object-storage.ts:20-24 StoredBytes *)
Record StoredBytes := mkStored {
  stored_body : string;
  stored_mediaType : string;
  stored_sha256 : string;
}.
#[global] Instance StoredBytes_eq_dec : EqDecision StoredBytes.
Proof. solve_decision. Defined.

Inductive MultipartStatus := mp_initiated | mp_uploading | mp_completed | mp_aborted.
#[global] Instance MultipartStatus_eq_dec : EqDecision MultipartStatus.
Proof. solve_decision. Defined.

(** Source: packages/storage/src/types.ts:43-47 MultipartUploadedPart *)
Record MultipartUploadedPart := mkPart {
  part_partNumber : Z;
  part_etag : string;
  part_size : Z;
}.
#[global] Instance MultipartUploadedPart_eq_dec : EqDecision MultipartUploadedPart.
Proof. solve_decision. Defined.

(** Source: packages/storage/src/types.ts:29-41 MultipartUploadSession *)
Record MultipartUploadSession := mkSession {
  session_uploadId : string;
  session_providerUploadRef : string;
  session_locator : string;
  session_mediaType : string;
  session_partSize : Z;
  session_expectedByteLength : option Z;
  session_expectedSha256 : option string;
  session_status : MultipartStatus;
  session_parts : list MultipartUploadedPart;
  session_createdAt : string;
  session_expiresAt : string;
}.

(** Source: packages/storage/src/memory-object-storage.ts:26-29 MemoryMultipartSession *)
Record MemoryMultipartSession := mkMemorySession {
  ms_session : MultipartUploadSession;
  ms_partBodies : gmap Z string;
}.

(** Source: packages/storage/src/memory-object-storage.ts:32-39 MemoryObjectStorage *)
Record MemoryObjectStorage := mkMemory {
  mem_objects : gmap string StoredBytes;
  mem_multipart : gmap string MemoryMultipartSession;
  mem_relaxMultipartLimits : bool;
}.

Definition set_objects (f : gmap string StoredBytes → gmap string StoredBytes)
    (s : MemoryObjectStorage) : MemoryObjectStorage :=
  mkMemory (f (mem_objects s)) (mem_multipart s) (mem_relaxMultipartLimits s).
Definition set_multipart (f : gmap string MemoryMultipartSession → gmap string MemoryMultipartSession)
    (s : MemoryObjectStorage) : MemoryObjectStorage :=
  mkMemory (mem_objects s) (f (mem_multipart s)) (mem_relaxMultipartLimits s).

(** [{ ...session, status, parts }] *)
Definition with_parts (session : MultipartUploadSession) (status : MultipartStatus)
    (parts : list MultipartUploadedPart) : MultipartUploadSession :=
  mkSession (session_uploadId session) (session_providerUploadRef session) (session_locator session)
    (session_mediaType session) (session_partSize session) (session_expectedByteLength session)
    (session_expectedSha256 session) status parts (session_createdAt session) (session_expiresAt session).

(** Source: packages/storage/src/types.ts:50-54 MULTIPART_PROVIDER_LIMITS *)
Definition minPartSize : Z := 5 * 1024 * 1024.
(** Source: packages/storage/src/types.ts:50-54 MULTIPART_PROVIDER_LIMITS *)
Definition maxPartSize : Z := 5 * 1024 * 1024 * 1024.
(** Source: packages/storage/src/types.ts:50-54 MULTIPART_PROVIDER_LIMITS *)
Definition maxParts : Z := 10000.

Abbreviation Mem := (M MemoryObjectStorage storage_exn).

(** ** Assertions *)

(** Source: packages/storage/src/memory-object-storage.ts:455-462 assertTemporaryKey *)
Definition assertTemporaryKey (key : string) : Mem unit :=
  throw_when (negb (TEMPORARY_KEY_PATTERN key)) (StorageError invalid_request).

(** Source: packages/storage/src/memory-object-storage.ts:464-468 assertByteLength *)
Definition assertByteLength (n : jsnum) : Mem unit :=
  throw_when (negb (isSafeInteger n) || jlt n 0) (StorageError invalid_request).

(** Source: packages/storage/src/memory-object-storage.ts:470-474 assertMediaType *)
Definition assertMediaType (mediaType : string) : Mem unit :=
  throw_when (blank mediaType) (StorageError invalid_request).

(** Source: packages/storage/src/memory-object-storage.ts:476-488 assertPartSize *)
Definition assertPartSize (partSize : jsnum) (relax : bool) : Mem unit :=
  let min := if relax then 1%Z else minPartSize in
  throw_when (negb (isSafeInteger partSize) || jlt partSize min || jgt partSize maxPartSize)
    (StorageError invalid_request).

(** Source: packages/storage/src/memory-object-storage.ts:490-498 assertPartNumber *)
Definition assertPartNumber (partNumber : jsnum) : Mem unit :=
  throw_when (negb (isSafeInteger partNumber) || jlt partNumber 1 || jgt partNumber maxParts)
    (StorageError invalid_request).

(** The integer a validated number is. *)
Definition num_value (n : jsnum) : Z := match n with JInt z => z | _ => 0 end.

(** Source: packages/storage/src/memory-object-storage.ts:385-391 require *)
Definition mem_require (key : string) : Mem StoredBytes :=
  gets (λ s, mem_objects s !! key) ≫= λ o,
  match o with Some object => mret object | None => throw (StorageError not_found) end.

(** Source: packages/storage/src/memory-object-storage.ts:393-409 requireMultipart *)
Definition requireMultipart (uploadId locator providerUploadRef : string) : Mem MemoryMultipartSession :=
  gets (λ s, mem_multipart s !! uploadId) ≫= λ o,
  match o with
  | None => throw (StorageError not_found)
  | Some state =>
      throw_when ((session_locator (ms_session state) !== locator) ||
                  (session_providerUploadRef (ms_session state) !== providerUploadRef))
        (StorageError conflict) ≫= λ _,
      mret state
  end.

Definition object_metadata (key : string) (object : StoredBytes) : ObjectMetadata :=
  mkMetadata key (byteLength (stored_body object)) (stored_mediaType object) (Some (stored_sha256 object)).

(** ** The ObjectStorage methods *)

Section Methods.
Context `{JsDate} `{Crypto}.

(** Source: packages/storage/src/memory-object-storage.ts:41-49 createTemporaryUpload *)
Definition mem_createTemporaryUpload (now : Z) (workspaceId operationId : string)
    : Mem TemporaryObject :=
  lift (temporaryObjectKey workspaceId operationId) ≫= λ key,
  mret (mkTemporary key (toISOString (now + 24 * 60 * 60 * 1000))).

(** Source: packages/storage/src/memory-object-storage.ts:51-71 writeTemporary *)
Definition mem_writeTemporary (locator : string) (stream : list string) (mediaType : string)
    : Mem ObjectMetadata :=
  assertTemporaryKey locator ≫= λ _,
  assertMediaType mediaType ≫= λ _,
  let body := readAll stream in
  let sha := sha256 body in
  modify (set_objects <[locator := mkStored body mediaType sha]>) ≫= λ _,
  mret (mkMetadata locator (byteLength body) mediaType (Some sha)).

(** Source: packages/storage/src/memory-object-storage.ts:73-141 commitImmutable *)
Definition mem_commitImmutable (input : CommitInput) : Mem ObjectMetadata :=
  assertTemporaryKey (commit_temporary input) ≫= λ _,
  assertByteLength (commit_byteLength input) ≫= λ _,
  assertMediaType (commit_mediaType input) ≫= λ _,
  lift (canonicalObjectKey (commit_workspaceId input) (commit_sha256 input)) ≫= λ key,
  gets (λ s, mem_objects s !! commit_temporary input) ≫= λ temporary,
  gets (λ s, mem_objects s !! key) ≫= λ existing,
  match temporary with
  | None =>
      match existing with
      | Some existing =>
          if (stored_sha256 existing === commit_sha256 input) &&
             (JInt (byteLength (stored_body existing)) === commit_byteLength input)
          then mret (object_metadata key existing)
          else throw (StorageError not_found)
      | None => throw (StorageError not_found)
      end
  | Some temporary =>
      throw_when ((stored_sha256 temporary !== commit_sha256 input) ||
                  (JInt (byteLength (stored_body temporary)) !== commit_byteLength input) ||
                  (stored_mediaType temporary !== commit_mediaType input))
        (StorageError invalid_request) ≫= λ _,
      match existing with
      | Some existing =>
          throw_when ((stored_sha256 existing !== commit_sha256 input) ||
                      (JInt (byteLength (stored_body existing)) !== commit_byteLength input))
            (StorageError conflict) ≫= λ _,
          modify (set_objects (delete (commit_temporary input))) ≫= λ _,
          mret (object_metadata key existing)
      | None =>
          modify (set_objects <[key := temporary]>) ≫= λ _,
          modify (set_objects (delete (commit_temporary input))) ≫= λ _,
          mret (object_metadata key temporary)
      end
  end.

(** Source: packages/storage/src/memory-object-storage.ts:143-159 openReadStream *)
Definition mem_openReadStream (key : string) (range : option ByteRange) : Mem string :=
  mem_require key ≫= λ object,
  match range with
  | None => mret (stored_body object)
  | Some (mkRange start end_) =>
      throw_when (negb (isSafeInteger start) || negb (isSafeInteger end_) || jlt start 0 ||
                  jlt end_ (num_value start) ||
                  negb (jlt end_ (byteLength (stored_body object))))
        (StorageError invalid_request) ≫= λ _,
      mret (String.substring (Z.to_nat (num_value start))
              (Z.to_nat (num_value end_ + 1 - num_value start)) (stored_body object))
  end.

(** Source: packages/storage/src/memory-object-storage.ts:161-169 head *)
Definition mem_head (key : string) : Mem ObjectMetadata :=
  mem_require key ≫= λ object, mret (object_metadata key object).

(** Source: packages/storage/src/memory-object-storage.ts:171-173 exists *)
Definition mem_exists (key : string) : Mem bool :=
  gets (λ s, bool_decide (is_Some (mem_objects s !! key))).

(** Source: packages/storage/src/memory-object-storage.ts:175-178 deleteTemporary *)
Definition mem_deleteTemporary (key : string) : Mem unit :=
  assertTemporaryKey key ≫= λ _, modify (set_objects (delete key)).

(** ** Multipart uploads *)

(** Source: packages/storage/src/memory-object-storage.ts:180-230 initiateMultipartUpload *)
Definition initiateMultipartUpload (now : Z) (nonce uploadId locator mediaType : string)
    (partSize : jsnum) (expectedByteLength : option Z) (expectedSha256 expiresAt : option string)
    : Mem MultipartUploadSession :=
  assertTemporaryKey locator ≫= λ _,
  assertMediaType mediaType ≫= λ _,
  gets mem_relaxMultipartLimits ≫= λ relax,
  assertPartSize partSize relax ≫= λ _,
  gets (λ s, mem_multipart s !! uploadId) ≫= λ existing,
  match existing with
  | Some existing =>
      throw_when ((session_locator (ms_session existing) !== locator) ||
                  (session_mediaType (ms_session existing) !== mediaType) ||
                  (JInt (session_partSize (ms_session existing)) !== partSize))
        (StorageError conflict) ≫= λ _,
      mret (ms_session existing)
  | None =>
      let session := mkSession uploadId ("memory-" +:+ nonce) locator mediaType
        (num_value partSize) expectedByteLength expectedSha256 mp_initiated []
        (toISOString now) (default (toISOString (now + 24 * 60 * 60 * 1000)) expiresAt) in
      modify (set_multipart <[uploadId := mkMemorySession session ∅]>) ≫= λ _,
      mret session
  end.

(** Source: packages/storage/src/memory-object-storage.ts:232-239 listMultipartParts *)
Definition listMultipartParts (uploadId locator providerUploadRef : string)
    : Mem (list MultipartUploadedPart) :=
  requireMultipart uploadId locator providerUploadRef ≫= λ state,
  mret (session_parts (ms_session state)).

(** [.sort((a, b) => a.partNumber - b.partNumber)], stable. *)
Fixpoint insert_part (p : MultipartUploadedPart) (l : list MultipartUploadedPart)
    : list MultipartUploadedPart :=
  match l with
  | [] => [p]
  | q :: l' => if Z.leb (part_partNumber p) (part_partNumber q) then p :: l else q :: insert_part p l'
  end.
Definition sort_parts (l : list MultipartUploadedPart) : list MultipartUploadedPart :=
  foldr insert_part [] l.

(** Source: packages/storage/src/memory-object-storage.ts:241-301 uploadMultipartPart *)
Definition uploadMultipartPart (uploadId locator providerUploadRef : string) (partNumber : jsnum)
    (stream : list string) (size : Z) : Mem MultipartUploadedPart :=
  requireMultipart uploadId locator providerUploadRef ≫= λ state,
  throw_when ((session_status (ms_session state) === mp_aborted) ||
              (session_status (ms_session state) === mp_completed))
    (StorageError invalid_request) ≫= λ _,
  assertPartNumber partNumber ≫= λ _,
  let body := readAll stream in
  throw_when (byteLength body !== size) (StorageError invalid_request) ≫= λ _,
  throw_when (Z.ltb maxPartSize (byteLength body)) (StorageError invalid_request) ≫= λ _,
  let etag := String (ascii_of_nat 34) (md5 body +:+ String (ascii_of_nat 34) EmptyString) in
  match List.find (λ part, JInt (part_partNumber part) === partNumber)
          (session_parts (ms_session state)) with
  | Some existing =>
      throw_when ((part_etag existing !== etag) || (part_size existing !== byteLength body))
        (StorageError conflict) ≫= λ _,
      mret existing
  | None =>
      let part := mkPart (num_value partNumber) etag (byteLength body) in
      let session := with_parts (ms_session state) mp_uploading
        (sort_parts (session_parts (ms_session state) ++ [part])) in
      modify (set_multipart <[uploadId :=
        mkMemorySession session (<[num_value partNumber := body]> (ms_partBodies state))]>) ≫= λ _,
      mret part
  end.

(** [new Map(recorded.map(...)).get(n)]: the last entry of a number wins. *)
Definition by_number (recorded : list MultipartUploadedPart) (n : Z) : option MultipartUploadedPart :=
  List.find (λ part, part_partNumber part === n) (rev recorded).

(** Source: packages/storage/src/memory-object-storage.ts:416-445 reconcileParts *)
Definition reconcileParts (recorded declared : list MultipartUploadedPart) : Mem unit :=
  throw_when (length recorded !== length declared) (StorageError invalid_request) ≫= λ _,
  throw_when (negb (forallb (λ part,
      match by_number recorded (part_partNumber part) with
      | None => false
      | Some match_ => (part_etag match_ === part_etag part) && (part_size match_ === part_size part)
      end) declared)) (StorageError invalid_request) ≫= λ _,
  let numbers := map part_partNumber (sort_parts declared) in
  throw_when (numbers !== map Z.of_nat (seq 1 (length numbers))) (StorageError invalid_request).

(** Source: packages/storage/src/memory-object-storage.ts:303-366 completeMultipartUpload *)
Definition completeMultipartUpload (uploadId locator providerUploadRef : string)
    (parts : list MultipartUploadedPart) (expectedByteLength : Z) (expectedSha256 : string)
    : Mem ObjectMetadata :=
  requireMultipart uploadId locator providerUploadRef ≫= λ state,
  throw_when (session_status (ms_session state) === mp_aborted) (StorageError invalid_request) ≫= λ _,
  if session_status (ms_session state) === mp_completed then
    mem_require locator ≫= λ object,
    throw_when ((stored_sha256 object !== expectedSha256) ||
                (byteLength (stored_body object) !== expectedByteLength)) (StorageError conflict) ≫= λ _,
    mret (object_metadata locator object)
  else
    reconcileParts (session_parts (ms_session state)) parts ≫= λ _,
    let ordered := sort_parts parts in
    let buffers := map (λ part, ms_partBodies state !! part_partNumber part) ordered in
    match mapM id buffers with
    | None => throw (StorageError invalid_request)
    | Some buffers =>
        let assembled := readAll buffers in
        let sha := sha256 assembled in
        throw_when ((byteLength assembled !== expectedByteLength) || (sha !== expectedSha256))
          (StorageError invalid_request) ≫= λ _,
        let object := mkStored assembled (session_mediaType (ms_session state)) sha in
        modify (set_objects <[locator := object]>) ≫= λ _,
        modify (set_multipart <[uploadId :=
          mkMemorySession (with_parts (ms_session state) mp_completed ordered)
            (ms_partBodies state)]>) ≫= λ _,
        mret (object_metadata locator object)
    end.

(** Source: packages/storage/src/memory-object-storage.ts:368-383 abortMultipartUpload *)
Definition abortMultipartUpload (uploadId locator providerUploadRef : string) : Mem unit :=
  gets (λ s, mem_multipart s !! uploadId) ≫= λ existing,
  match existing with
  | None => mret tt
  | Some existing =>
      throw_when ((session_locator (ms_session existing) !== locator) ||
                  (session_providerUploadRef (ms_session existing) !== providerUploadRef))
        (StorageError conflict) ≫= λ _,
      modify (set_multipart <[uploadId :=
        mkMemorySession (with_parts (ms_session existing) mp_aborted []) ∅]>)
  end.

#[global] Instance memory_ObjectStorage : ObjectStorage MemoryObjectStorage := {|
  createTemporaryUpload := mem_createTemporaryUpload;
  writeTemporary := mem_writeTemporary;
  commitImmutable := mem_commitImmutable;
  openReadStream := mem_openReadStream;
  head := mem_head;
  exists_ := mem_exists;
  deleteTemporary := mem_deleteTemporary;
|}.
End Methods.

(** ** The invariant *)

Definition quoted (s : string) : string :=
  String (ascii_of_nat 34) (s +:+ String (ascii_of_nat 34) EmptyString).

Section Invariant.
Context `{JsDate} `{Crypto}.

(** An object is what its digest says, and lives under a temporary key or
    under the canonical key of its digest. *)
Definition object_ok (key : string) (o : StoredBytes) : Prop :=
  stored_sha256 o = sha256 (stored_body o) ∧
  (TEMPORARY_KEY_PATTERN key = true ∨ ∃ w, canonicalObjectKey w (stored_sha256 o) = Ok key).

(** Every recorded part is backed by received bytes of that size and tag. *)
Definition part_backed (bodies : gmap Z string) (p : MultipartUploadedPart) : Prop :=
  ∃ b, bodies !! part_partNumber p = Some b ∧ part_size p = byteLength b ∧
       part_etag p = quoted (md5 b).

Definition session_ok (st : MemoryMultipartSession) : Prop :=
  TEMPORARY_KEY_PATTERN (session_locator (ms_session st)) = true ∧
  Forall (part_backed (ms_partBodies st)) (session_parts (ms_session st)) ∧
  NoDup (map part_partNumber (session_parts (ms_session st))).

Definition mem_inv (s : MemoryObjectStorage) : Prop :=
  map_Forall object_ok (mem_objects s) ∧ map_Forall (λ _, session_ok) (mem_multipart s).

(** [s'] keeps the invariant of [s] and every object of [s] outside the
    temporary key space. *)
Definition mem_le (s s' : MemoryObjectStorage) : Prop :=
  mem_inv s' ∧
  ∀ k o, TEMPORARY_KEY_PATTERN k = false →
    mem_objects s !! k = Some o → mem_objects s' !! k = Some o.

Lemma mem_le_refl s : mem_inv s → mem_le s s.
Proof. by split. Qed.

Lemma mem_le_trans s1 s2 s3 : mem_le s1 s2 → mem_le s2 s3 → mem_le s1 s3.
Proof. intros [_ H1] [? H2]. split; auto. Qed.

Lemma mem_le_write s k o :
  mem_inv s → TEMPORARY_KEY_PATTERN k = true → stored_sha256 o = sha256 (stored_body o) →
  mem_le s (set_objects <[k := o]> s).
Proof.
  intros [Ho Hm] Hk Hd. split; [split; [|done]|].
  - apply map_Forall_insert_2; [split; auto | done].
  - intros k' o' Hk' Hl. simpl. rewrite lookup_insert_ne; [done|]. intros ->. congruence.
Qed.

Lemma mem_le_delete s k :
  mem_inv s → TEMPORARY_KEY_PATTERN k = true → mem_le s (set_objects (delete k) s).
Proof.
  intros [Ho Hm] Hk. split; [split; [|done]|].
  - by apply map_Forall_delete.
  - intros k' o' Hk' Hl. simpl. rewrite lookup_delete_ne; [done|]. intros ->. congruence.
Qed.

Lemma mem_le_commit s w k o :
  mem_inv s → mem_objects s !! k = None → canonicalObjectKey w (stored_sha256 o) = Ok k →
  stored_sha256 o = sha256 (stored_body o) → mem_le s (set_objects <[k := o]> s).
Proof.
  intros [Ho Hm] Hfree Hk Hd. split; [split; [|done]|].
  - apply map_Forall_insert_2; [split; eauto | done].
  - intros k' o' Hk' Hl. simpl. rewrite lookup_insert_ne; [done|]. intros ->. congruence.
Qed.

Lemma mem_le_session s u st : mem_inv s → session_ok st → mem_le s (set_multipart <[u := st]> s).
Proof. intros [Ho Hm] Hs. split; [split; [done|]|done]. by apply map_Forall_insert_2. Qed.

Lemma mem_inv_object s k o : mem_inv s → mem_objects s !! k = Some o → object_ok k o.
Proof. intros [Ho _]. apply Ho. Qed.
Lemma mem_inv_session s u st : mem_inv s → mem_multipart s !! u = Some st → session_ok st.
Proof. intros [_ Hm]. apply (Hm u). Qed.
End Invariant.

Create HintDb memory.
#[export] Hint Resolve mem_le_refl mem_le_write mem_le_delete mem_le_commit mem_le_session : memory.

(** ** Multipart parts *)

Section Parts.
Lemma insert_part_perm p l : insert_part p l ≡ₚ p :: l.
Proof.
  induction l as [|q l IH]; simpl; [done|]. case_match; [done|].
  rewrite IH. apply Permutation_swap.
Qed.
Lemma sort_parts_perm l : sort_parts l ≡ₚ l.
Proof. induction l as [|p l IH]; simpl; [done|]. by rewrite insert_part_perm, IH. Qed.

Lemma by_number_Some recorded n p :
  by_number recorded n = Some p → p ∈ recorded ∧ part_partNumber p = n.
Proof.
  intros [Hin Hn]%find_Some_elem. apply bool_decide_eq_true_1 in Hn.
  split; [|done]. by apply list_elem_of_In, in_rev, list_elem_of_In in Hin.
Qed.

Lemma reconcileParts_Ok recorded declared s u s' :
  reconcileParts recorded declared s = (Ok u, s') →
  s' = s ∧ length recorded = length declared ∧
  Forall (λ p, ∃ q, q ∈ recorded ∧ part_partNumber q = part_partNumber p ∧
                    part_etag q = part_etag p ∧ part_size q = part_size p) declared ∧
  map part_partNumber (sort_parts declared) = map Z.of_nat (seq 1 (length declared)).
Proof.
  unfold reconcileParts. intros HR. run_inv. to_prop. split_and!; [done|done| |].
  - apply Forall_forall. intros p Hp. rewrite forallb_elem in *.
    match goal with H : ∀ _, _ → _ |- _ => specialize (H p Hp) end.
    case_match eqn:E; [|done]. apply by_number_Some in E as [??]. to_prop. eauto 10.
  - match goal with H : map _ _ = map _ _ |- _ => rewrite H end.
    by rewrite length_map, (Permutation_length (sort_parts_perm declared)).
Qed.
End Parts.

(** ** Every method keeps the invariant and the committed objects *)

(** A method called on a state with the invariant, whatever its outcome. *)
Definition keeps `{Crypto} {A} (m : Mem A) : Prop :=
  ∀ s, mem_inv s → mem_le s (snd (m s)).

Ltac keep_branches :=
  run; repeat (case_match; cbn beta iota delta [snd]; run); simplify_eq/=; to_prop;
  eauto with memory.

Section Keeps.
Context `{JsDate} `{Crypto}.

Lemma keeps_createTemporaryUpload now w o : keeps (mem_createTemporaryUpload now w o).
Proof. intros s Hs. unfold mem_createTemporaryUpload. keep_branches. Qed.

Lemma keeps_writeTemporary l b mt : keeps (mem_writeTemporary l b mt).
Proof.
  intros s Hs. unfold mem_writeTemporary, assertTemporaryKey, assertMediaType. keep_branches.
Qed.

Lemma keeps_commitImmutable input : keeps (mem_commitImmutable input).
Proof.
  intros s Hs. unfold mem_commitImmutable, assertTemporaryKey, assertByteLength, assertMediaType.
  keep_branches.
  destruct (mem_inv_object _ _ _ Hs ltac:(eassumption)) as [Hd _].
  assert (mem_le s (set_objects <[a := s0]> s)) as Hle.
  { eapply (mem_le_commit s (commit_workspaceId input)); congruence. }
  eapply mem_le_trans; [exact Hle|]. apply mem_le_delete; [apply Hle | done].
Qed.

Lemma keeps_openReadStream k r : keeps (mem_openReadStream k r).
Proof. intros s Hs. unfold mem_openReadStream, mem_require. keep_branches. Qed.
Lemma keeps_head k : keeps (mem_head k).
Proof. intros s Hs. unfold mem_head, mem_require. keep_branches. Qed.
Lemma keeps_exists k : keeps (mem_exists k).
Proof. intros s Hs. unfold mem_exists. keep_branches. Qed.
Lemma keeps_deleteTemporary k : keeps (mem_deleteTemporary k).
Proof. intros s Hs. unfold mem_deleteTemporary, assertTemporaryKey. keep_branches. Qed.

Lemma keeps_initiateMultipartUpload now nonce u l mt ps len sha ex :
  keeps (initiateMultipartUpload now nonce u l mt ps len sha ex).
Proof.
  intros s Hs. unfold initiateMultipartUpload, assertTemporaryKey, assertMediaType, assertPartSize.
  keep_branches;
    (apply mem_le_session; [done|]; split_and!; simpl; [done|constructor|constructor]).
Qed.

Lemma requireMultipart_run u l r s :
  requireMultipart u l r s =
  match mem_multipart s !! u with
  | None => (Err (StorageError not_found), s)
  | Some st =>
      if (session_locator (ms_session st) !== l) || (session_providerUploadRef (ms_session st) !== r)
      then (Err (StorageError conflict), s) else (Ok st, s)
  end.
Proof. unfold requireMultipart. by run_all. Qed.

Lemma requireMultipart_bind {B} u l r (f : MemoryMultipartSession → Mem B) s :
  (requireMultipart u l r ≫= f) s =
  match mem_multipart s !! u with
  | None => (Err (StorageError not_found), s)
  | Some st =>
      if (session_locator (ms_session st) !== l) || (session_providerUploadRef (ms_session st) !== r)
      then (Err (StorageError conflict), s) else f st s
  end.
Proof. unfold requireMultipart. by run_all. Qed.

Lemma keeps_listMultipartParts u l r : keeps (listMultipartParts u l r).
Proof. intros s Hs. unfold listMultipartParts. rewrite requireMultipart_bind. keep_branches. Qed.

(** Recording a part with a new number. *)
Lemma session_ok_add_part st n body :
  session_ok st →
  (∀ p, p ∈ session_parts (ms_session st) → part_partNumber p ≠ n) →
  session_ok (mkMemorySession
    (with_parts (ms_session st) mp_uploading
      (sort_parts (session_parts (ms_session st) ++
                   [mkPart n (quoted (md5 body)) (byteLength body)])))
    (<[n := body]> (ms_partBodies st))).
Proof.
  intros (Hl & Hb & Hn) Hfresh. split_and!; simpl; [done| |].
  - rewrite sort_parts_perm. apply Forall_app_2.
    + apply Forall_forall. intros p Hp. rewrite Forall_forall in Hb.
      destruct (Hb p Hp) as (b & ? & ?). exists b.
      rewrite lookup_insert_ne; [done|]. intros Heq. by apply (Hfresh p Hp).
    + constructor; [|done]. exists body. by rewrite lookup_insert_eq.
  - rewrite sort_parts_perm, map_app. apply NoDup_app. split_and!; [done| |by repeat constructor; set_solver].
    intros m (p & -> & Hp)%list_elem_of_fmap Hm. apply list_elem_of_singleton in Hm. by apply (Hfresh p).
Qed.

Lemma keeps_uploadMultipartPart u l r n b size : keeps (uploadMultipartPart u l r n b size).
Proof.
  intros s Hs. unfold uploadMultipartPart, assertPartNumber. rewrite requireMultipart_bind.
  keep_branches. apply mem_le_session; [done|].
  assert (n = JInt (num_value n)) as Hn by by destruct n.
  apply session_ok_add_part; [by eapply mem_inv_session|].
  intros p Hp Hnum. eapply find_None_elem in Hp; [|done]. cbn beta in Hp. to_prop. congruence.
Qed.

(** Completing a session with a reconciled declaration. *)
Lemma session_ok_complete st parts :
  session_ok st →
  Forall (λ p, ∃ q, q ∈ session_parts (ms_session st) ∧ part_partNumber q = part_partNumber p ∧
                    part_etag q = part_etag p ∧ part_size q = part_size p) parts →
  map part_partNumber (sort_parts parts) = map Z.of_nat (seq 1 (length parts)) →
  session_ok (mkMemorySession (with_parts (ms_session st) mp_completed (sort_parts parts))
                (ms_partBodies st)).
Proof.
  intros (Hl & Hb & _) Hmatch Hnum. split_and!; simpl; [done| |].
  - rewrite sort_parts_perm. eapply Forall_impl; [exact Hmatch|].
    intros p (q & Hq & Hn & He & Hz). rewrite Forall_forall in Hb.
    destruct (Hb q Hq) as (b & Hbq). exists b. by rewrite <- Hn, <- He, <- Hz.
  - rewrite Hnum. apply NoDup_fmap_2; [intros ???; lia | apply NoDup_seq].
Qed.

Lemma mapM_id_map {A B} (f : A → option B) l : mapM id (map f l) = mapM f l.
Proof. induction l as [|x l IH]; simpl; [done|]. by rewrite IH. Qed.

Lemma completeMultipartUpload_fresh u l r parts len sha s st :
  mem_multipart s !! u = Some st →
  session_status (ms_session st) ≠ mp_completed →
  ∀ md s', completeMultipartUpload u l r parts len sha s = (Ok md, s') →
  session_locator (ms_session st) = l ∧
  fst (reconcileParts (session_parts (ms_session st)) parts s) = Ok tt ∧
  ∃ bufs, mapM (λ part, ms_partBodies st !! part_partNumber part) (sort_parts parts) = Some bufs ∧
    byteLength (readAll bufs) = len ∧ sha256 (readAll bufs) = sha ∧
    let object := mkStored (readAll bufs) (session_mediaType (ms_session st)) sha in
    md = object_metadata l object ∧
    s' = set_multipart <[u := mkMemorySession
           (with_parts (ms_session st) mp_completed (sort_parts parts)) (ms_partBodies st)]>
           (set_objects <[l := object]> s).
Proof.
  intros Hst Hfresh md s'. unfold completeMultipartUpload. rewrite requireMultipart_bind, Hst.
  case_match; [done|]. run. case_match; [done|]. case_match; [by to_prop|].
  intros HR. apply M_bind_Ok in HR as ([] & s1 & Hrec & HR). rewrite Hrec.
  pose proof (reconcileParts_Ok _ _ _ _ _ Hrec) as (-> & _).
  destruct (mapM id _) as [bufs|] eqn:Hm; [|done].
  run_in HR. case_match; [done|]. run_inv. to_prop. split_and!; [done|done|].
  exists bufs. rewrite mapM_id_map in Hm. split_and!; try done; by subst.
Qed.

Lemma reconcileParts_state r d s : snd (reconcileParts r d s) = s.
Proof. unfold reconcileParts. by run_all. Qed.

Lemma keeps_completeMultipartUpload u l r parts len sha :
  keeps (completeMultipartUpload u l r parts len sha).
Proof.
  intros s Hs. unfold completeMultipartUpload, mem_require. rewrite requireMultipart_bind.
  destruct (mem_multipart s !! u) as [st|] eqn:Hst; [|by apply mem_le_refl].
  case_match; [by apply mem_le_refl|]. to_prop. subst l. run.
  case_match; [by apply mem_le_refl|]. case_match; [keep_branches|].
  pose proof (reconcileParts_state (session_parts (ms_session st)) parts s) as Hpure.
  destruct (reconcileParts _ parts s) as [[[]|e] s1] eqn:Hr; cbn [snd] in Hpure; subst s1;
    [rewrite (bind_Ok_run _ _ _ _ _ Hr) | rewrite (bind_Err_run _ _ _ _ _ Hr); by apply mem_le_refl].
  apply reconcileParts_Ok in Hr as (_ & _ & Hmatch & Hnum).
  destruct (mapM id _) as [bufs|]; [|by apply mem_le_refl].
  keep_branches. pose proof (mem_inv_session _ _ _ Hs Hst) as Hok.
  assert (mem_le s (set_objects <[session_locator (ms_session st) :=
    mkStored (readAll bufs) (session_mediaType (ms_session st)) (sha256 (readAll bufs))]> s)) as Hle.
  { apply mem_le_write; [done|apply Hok|done]. }
  eapply mem_le_trans; [exact Hle|].
  apply mem_le_session; [apply Hle|]. by apply session_ok_complete.
Qed.

Lemma keeps_abortMultipartUpload u l r : keeps (abortMultipartUpload u l r).
Proof.
  intros s Hs. unfold abortMultipartUpload. keep_branches.
  apply mem_le_session; [done|]. split_and!; simpl; [|constructor..].
  eapply mem_inv_session; done.
Qed.
End Keeps.

(** ** Any sequence of calls *)

Inductive mem_call :=
  | CreateTemporaryUpload (now : Z) (workspaceId operationId : string)
  | WriteTemporary (locator : string) (stream : list string) (mediaType : string)
  | CommitImmutable (input : CommitInput)
  | OpenReadStream (key : string) (range : option ByteRange)
  | Head (key : string)
  | Exists (key : string)
  | DeleteTemporary (key : string)
  | InitiateMultipartUpload (now : Z) (nonce uploadId locator mediaType : string) (partSize : jsnum)
      (expectedByteLength : option Z) (expectedSha256 expiresAt : option string)
  | ListMultipartParts (uploadId locator providerUploadRef : string)
  | UploadMultipartPart (uploadId locator providerUploadRef : string) (partNumber : jsnum)
      (stream : list string) (size : Z)
  | CompleteMultipartUpload (uploadId locator providerUploadRef : string)
      (parts : list MultipartUploadedPart) (expectedByteLength : Z) (expectedSha256 : string)
  | AbortMultipartUpload (uploadId locator providerUploadRef : string).

Section Calls.
Context `{JsDate} `{Crypto}.

(** The state after a call, returned or thrown. *)
Definition run_call (c : mem_call) (s : MemoryObjectStorage) : MemoryObjectStorage :=
  match c with
  | CreateTemporaryUpload now w o => snd (mem_createTemporaryUpload now w o s)
  | WriteTemporary l b mt => snd (mem_writeTemporary l b mt s)
  | CommitImmutable input => snd (mem_commitImmutable input s)
  | OpenReadStream k r => snd (mem_openReadStream k r s)
  | Head k => snd (mem_head k s)
  | Exists k => snd (mem_exists k s)
  | DeleteTemporary k => snd (mem_deleteTemporary k s)
  | InitiateMultipartUpload now n u l mt ps len sha ex =>
      snd (initiateMultipartUpload now n u l mt ps len sha ex s)
  | ListMultipartParts u l r => snd (listMultipartParts u l r s)
  | UploadMultipartPart u l r n b size => snd (uploadMultipartPart u l r n b size s)
  | CompleteMultipartUpload u l r ps len sha => snd (completeMultipartUpload u l r ps len sha s)
  | AbortMultipartUpload u l r => snd (abortMultipartUpload u l r s)
  end.

Inductive mem_step (s : MemoryObjectStorage) : MemoryObjectStorage → Prop :=
  | mem_step_call c : mem_step s (run_call c s).

Definition mem_init (relax : bool) : MemoryObjectStorage := mkMemory ∅ ∅ relax.

Lemma mem_inv_init relax : mem_inv (mem_init relax).
Proof. split; apply map_Forall_empty. Qed.

Lemma mem_step_le s s' : mem_inv s → mem_step s s' → mem_le s s'.
Proof.
  intros Hs [c]. destruct c; cbn [run_call];
    [apply keeps_createTemporaryUpload | apply keeps_writeTemporary | apply keeps_commitImmutable
    | apply keeps_openReadStream | apply keeps_head | apply keeps_exists
    | apply keeps_deleteTemporary | apply keeps_initiateMultipartUpload
    | apply keeps_listMultipartParts | apply keeps_uploadMultipartPart
    | apply keeps_completeMultipartUpload | apply keeps_abortMultipartUpload]; exact Hs.
Qed.

Lemma mem_steps_le s s' : mem_inv s → rtc mem_step s s' → mem_le s s'.
Proof.
  intros Hs HR. induction HR as [s|s1 s2 s3 H1 _ IH]; [by apply mem_le_refl|].
  pose proof (mem_step_le _ _ Hs H1) as Hle. eapply mem_le_trans; [exact Hle|]. apply IH, Hle.
Qed.

(** C4. Committed objects are immutable: whatever calls the provider has
    served and goes on to serve, failing ones included, an object under a
    canonical key keeps its bytes, and those bytes hash to the digest in the
    key. *)
Theorem committed_objects_immutable relax s s' w digest key o :
  rtc mem_step (mem_init relax) s → rtc mem_step s s' →
  canonicalObjectKey w digest = Ok key → mem_objects s !! key = Some o →
  mem_objects s' !! key = Some o ∧ sha256 (stored_body o) = digest.
Proof.
  intros H1 H2 Hkey Ho.
  destruct (mem_steps_le _ _ (mem_inv_init relax) H1) as [Hs _].
  destruct (mem_steps_le _ _ Hs H2) as [_ Hkeep].
  pose proof (canonical_not_temporary _ _ _ Hkey) as Hnt. split; [by apply Hkeep|].
  destruct (mem_inv_object _ _ _ Hs Ho) as [Hd [Ht|[w' Hk]]]; [congruence|].
  destruct (canonicalObjectKey_inj _ _ _ _ _ Hkey Hk) as [_ ->]. done.
Qed.
End Calls.

(** ** Multipart assembly *)

Section Assembly.
Context `{JsDate} `{Crypto}.

(** The parts [1..n] a session received, in order. *)
Definition received_parts (st : MemoryMultipartSession) : list string :=
  map (λ i, default EmptyString (ms_partBodies st !! Z.of_nat i))
      (seq 1 (length (session_parts (ms_session st)))).

Lemma bodies_in_order (bodies : gmap Z string) parts ns bufs :
  map part_partNumber parts = map Z.of_nat ns →
  mapM (λ part, bodies !! part_partNumber part) parts = Some bufs →
  bufs = map (λ i, default EmptyString (bodies !! Z.of_nat i)) ns.
Proof.
  revert ns bufs. induction parts as [|p parts IH]; intros [|n ns] bufs Hns Hm;
    try discriminate Hns; [by injection Hm as <-|]. injection Hns as Hn Hns.
  apply bind_Some in Hm as (b & Hb & Hm). apply bind_Some in Hm as (bs & Hbs & Hm).
  injection Hm as <-. simpl. rewrite <- Hn, Hb. simpl. f_equal. by apply IH.
Qed.

(** Completing a multipart upload stores, under the session's temporary
    locator and with its media type, exactly the bytes of the received parts
    1..n in part-number order, whatever the order they arrived or were
    declared in, and only when they have the declared length and digest; the
    session is then completed and every later part upload is refused. *)
Theorem multipart_completion_assembles s u l r parts len sha st md s' :
  mem_inv s → mem_multipart s !! u = Some st →
  session_status (ms_session st) ≠ mp_completed →
  completeMultipartUpload u l r parts len sha s = (Ok md, s') →
  let body := readAll (received_parts st) in
  mem_objects s' !! l = Some (mkStored body (session_mediaType (ms_session st)) sha) ∧
  byteLength body = len ∧ sha256 body = sha ∧ length parts = length (session_parts (ms_session st)) ∧
  (∀ n b size, is_Ok (fst (uploadMultipartPart u l r n b size s')) = false).
Proof.
  intros Hs Hst Hfresh HR.
  destruct (completeMultipartUpload_fresh _ _ _ _ _ _ _ _ Hst Hfresh _ _ HR)
    as (Hl & Hrec & bufs & Hm & Hlen & Hsha & -> & ->).
  destruct (reconcileParts _ parts s) as [[[]|e] s1] eqn:Hr; [|done].
  apply reconcileParts_Ok in Hr as (_ & Hn & _ & Hnum). rewrite <- Hn in Hnum.
  assert (bufs = received_parts st) as -> by (by eapply bodies_in_order).
  split_and!; [by apply lookup_insert_eq|done|done|done|].
  intros n b size. unfold uploadMultipartPart. rewrite requireMultipart_bind. simpl.
  rewrite lookup_insert_eq. case_match; [done|]. run. done.
Qed.

(** A range read returns exactly the requested bytes of the object, and
    every range outside it, reversed, fractional, negative or not finite is
    refused. *)
Theorem range_read_exact s key o start end_ :
  mem_objects s !! key = Some o →
  (byteLength (stored_body o) <= MAX_SAFE_INTEGER)%Z →
  match mem_openReadStream key (Some (mkRange start end_)) s with
  | (Ok b, s') =>
      s' = s ∧ ∃ i j, start = JInt i ∧ end_ = JInt j ∧
      (0 <= i <= j)%Z ∧ (j < byteLength (stored_body o))%Z ∧ byteLength b = (j - i + 1)%Z ∧
      ∃ pre post, stored_body o = pre +:+ b +:+ post ∧ byteLength pre = i
  | (Err e, s') =>
      s' = s ∧ e = StorageError invalid_request ∧
      ∀ i j, start = JInt i → end_ = JInt j →
        ¬ (0 <= i <= j ∧ j < byteLength (stored_body o))%Z
  end.
Proof.
  intros Ho Hsafe. unfold mem_openReadStream, mem_require. run. rewrite Ho. run.
  match goal with |- context [if ?b then _ else _] => destruct b eqn:HG end.
  - split_and!; [done..|]. intros i j -> -> Hij. apply not_false_iff_true in HG. apply HG.
    unfold isSafeInteger, isSafe, jlt, num_value, MAX_SAFE_INTEGER in *. lia.
  - rewrite !orb_false_iff, !negb_false_iff in HG. destruct HG as ((((Hi & Hj) & H1) & H2) & H3).
    destruct start as [i| | |], end_ as [j| | |]; try done. cbn [jlt num_value] in *.
    split; [done|]. exists i, j. unfold byteLength in *.
    destruct (substring_split (Z.to_nat i) (Z.to_nat (j + 1 - i)) (stored_body o))
      as (Hlen & pre & post & Hsplit & Hpre); [lia|].
    split_and!; [done|done|lia|lia|lia|lia|]. exists pre, post. split; [done|lia].
Qed.
End Assembly.

(** ** The interface's laws *)

Section Laws.
Context `{JsDate} `{Crypto}.

Definition mem_stored (s : MemoryObjectStorage) (key b mt : string) : Prop :=
  ∃ o, mem_objects s !! key = Some o ∧ stored_body o = b ∧ stored_mediaType o = mt.

(** A successful commit: the object it returns, and what it leaves. *)
Lemma mem_commitImmutable_Ok input s md s' :
  mem_commitImmutable input s = (Ok md, s') →
  TEMPORARY_KEY_PATTERN (commit_temporary input) = true ∧
  ∃ key o, canonicalObjectKey (commit_workspaceId input) (commit_sha256 input) = Ok key ∧
    (mem_objects s !! key = Some o ∨
     mem_objects s !! key = None ∧ mem_objects s !! commit_temporary input = Some o) ∧
    stored_sha256 o = commit_sha256 input ∧
    JInt (byteLength (stored_body o)) = commit_byteLength input ∧
    md = object_metadata key o ∧
    mem_objects s' = <[key := o]> (delete (commit_temporary input) (mem_objects s)).
Proof.
  unfold mem_commitImmutable, assertTemporaryKey, assertByteLength, assertMediaType. run.
  destruct (TEMPORARY_KEY_PATTERN _) eqn:Ht; [|done]. cbn [negb]. run.
  case_match; [done|]. case_match; [done|]. case_match eqn:Hkey; [|done].
  pose proof (canonical_not_temporary _ _ _ Hkey) as Hnt. run.
  destruct (mem_objects s !! commit_temporary input) as [t|] eqn:Htmp;
    destruct (mem_objects s !! a) as [o|] eqn:Hex; run; intros HR; repeat case_match;
    run_inv; simplify_eq/=; to_prop; (split; [done|]).
  - exists a, o. split_and!; try done; [by left|]. symmetry. apply insert_id.
    rewrite lookup_delete_ne; [done|congruence].
  - exists a, t. split_and!; try done; [by right|]. simpl. apply delete_insert_ne. congruence.
  - exists a, o. split_and!; try done; [by left|].
    rewrite delete_id by done. by rewrite insert_id.
Qed.

#[global] Program Instance memory_ObjectStorageLaws : ObjectStorageLaws MemoryObjectStorage :=
  {| stored := mem_stored; storage_inv := mem_inv |}.
Next Obligation. intros s key b1 m1 b2 m2 (o1 & ? & <- & <-) (o2 & ? & <- & <-). by simplify_eq. Qed.
Next Obligation.
  intros s w d key b m Hs Hkey (o & Ho & <- & <-).
  destruct (mem_inv_object _ _ _ Hs Ho) as [Hd [Ht|[w' Hk]]].
  - apply canonical_not_temporary in Hkey. congruence.
  - destruct (canonicalObjectKey_inj _ _ _ _ _ Hkey Hk) as [_ ->]. done.
Qed.
Next Obligation.
  intros s now w o t s'. simpl. unfold mem_createTemporaryUpload.
  intros HR. run_inv. by split.
Qed.
Next Obligation.
  intros s now w o key Hkey. simpl. unfold mem_createTemporaryUpload. run. rewrite Hkey. eauto.
Qed.
Next Obligation.
  intros s key body mt md s' Hs HR. pose proof (keeps_writeTemporary key body mt s Hs) as [Hinv _].
  simpl in HR. rewrite HR in Hinv.
  unfold mem_writeTemporary, assertTemporaryKey, assertMediaType in HR. run_inv. to_prop.
  split_and!; [done| |done|].
  - eexists. split; [apply lookup_insert_eq|done].
  - intros k b m Hk. unfold mem_stored. simpl. by rewrite lookup_insert_ne.
Qed.
Next Obligation.
  intros s w o key body mt Hkey Hmt. simpl.
  unfold mem_writeTemporary, assertTemporaryKey, assertMediaType. run.
  rewrite (temporaryObjectKey_temporary _ _ _ Hkey), Hmt. simpl. eauto.
Qed.
Next Obligation.
  intros s input md s' Hs HR. pose proof (keeps_commitImmutable input s Hs) as [Hinv Hkeep].
  simpl in HR. rewrite HR in Hinv, Hkeep.
  destruct (mem_commitImmutable_Ok _ _ _ _ HR) as (Ht & key & o & Hkey & Ho & Hsha & Hlen & -> & Hs').
  assert (mem_objects s' !! key = Some o) as Hnew by (rewrite Hs'; apply lookup_insert_eq).
  destruct (mem_inv_object _ _ _ Hinv Hnew) as [Hd _].
  split_and!; simpl; try done; [by rewrite Hsha| | |].
  - exists (stored_body o), (stored_mediaType o). split_and!; [by exists o|congruence|done].
  - intros k b m Hk (o' & Ho' & Hb). exists o'. split; [|done]. rewrite Hs'.
    destruct (decide (k = key)) as [->|Hne].
    + rewrite lookup_insert_eq. f_equal. destruct Ho as [?|[? _]]; congruence.
    + by rewrite lookup_insert_ne, lookup_delete_ne.
  - intros k b m Hk (o' & Ho' & Hb). exists o'. split; [|done]. rewrite Hs' in Ho'.
    rewrite lookup_insert_ne in Ho' by done. by apply lookup_delete_Some in Ho' as [_ ?].
Qed.
Next Obligation.
  intros s tmp w b mt key Hs Hsrc Ht Hkey Hmt Hlen Hother. simpl.
  unfold mem_commitImmutable, assertTemporaryKey, assertByteLength, assertMediaType; cbn [commit_temporary
    commit_byteLength commit_mediaType commit_sha256 commit_workspaceId].
  rewrite Ht, Hmt, Hkey. unfold isSafeInteger, jlt, isSafe.
  assert (0 <= byteLength b)%Z as Hpos by (unfold byteLength; lia).
  rewrite (proj2 (Z.ltb_ge (byteLength b) 0)) by done.
  rewrite !(proj2 (Z.leb_le _ _)) by (unfold MAX_SAFE_INTEGER in *; lia). cbn [andb negb orb]. run.
  assert (∀ o', mem_objects s !! key = Some o' →
    stored_sha256 o' = sha256 b ∧ byteLength (stored_body o') = byteLength b) as Hkeyed.
  { intros o' Ho'. split; [|apply (Hother _ (stored_mediaType o')); by exists o'].
    destruct (mem_inv_object _ _ _ Hs Ho') as [Hd' [Ht'|[w' Hk']]].
    - apply canonical_not_temporary in Hkey. congruence.
    - by destruct (canonicalObjectKey_inj _ _ _ _ _ Hkey Hk') as [_ <-]. }
  destruct Hsrc as [(o & Ho & <- & <-)|[Hnone (b' & m' & o' & Ho' & _)]].
  - rewrite Ho. run. destruct (mem_inv_object _ _ _ Hs Ho) as [-> _]. guards.
    destruct (mem_objects s !! key) as [o'|] eqn:Ho'; run; [|eauto].
    destruct (Hkeyed o' eq_refl) as [-> ->]. guards. eauto.
  - destruct (mem_objects s !! tmp) as [o|] eqn:Ho.
    { exfalso. apply (Hnone (stored_body o) (stored_mediaType o)). by exists o. }
    rewrite Ho'. destruct (Hkeyed o' Ho') as [-> ->]. guards. eauto.
Qed.
Next Obligation.
  intros s input md s' Hs HR. simpl in *.
  destruct (mem_commitImmutable_Ok _ _ _ _ HR) as (Ht & key & o & Hkey & Ho & Hsha & Hlen & -> & Hs').
  revert HR. unfold mem_commitImmutable, assertTemporaryKey, assertByteLength, assertMediaType. run.
  rewrite Ht, Hkey. case_match; [done|]. case_match; [done|]. case_match; [done|]. intros _.
  run. rewrite Hs'. rewrite lookup_insert_eq, lookup_insert_ne, lookup_delete_eq.
  - run. rewrite Hsha, Hlen. by guards.
  - intros ->. apply canonical_not_temporary in Hkey. congruence.
Qed.
Next Obligation.
  intros s key md s'. simpl. unfold mem_head, mem_require. run. intros HR Hs.
  destruct (mem_objects s !! key) as [o|] eqn:Ho; run_in HR; [|done]. simplify_eq.
  destruct (mem_inv_object _ _ _ Hs Ho) as [Hd _]. split_and!; [done|done|].
  exists (stored_body o), (stored_mediaType o). split_and!; try done; [by exists o|]. simpl. by rewrite Hd.
Qed.
Next Obligation.
  intros s key b m (o & Ho & _). simpl. unfold mem_head, mem_require. run. rewrite Ho. eauto.
Qed.
Next Obligation.
  intros s key. simpl. unfold mem_head, mem_openReadStream, mem_require. split; [|intros [[a b]|]]; run;
    destruct (mem_objects s !! key); run; try done. by case_match.
Qed.
Next Obligation.
  intros s key b s'. simpl. unfold mem_openReadStream, mem_require. run.
  destruct (mem_objects s !! key) as [o|] eqn:Ho; run; [|done]. intros [= <- _]. by exists (stored_mediaType o), o.
Qed.
Next Obligation.
  intros s key b m (o & Ho & <- & _). simpl. unfold mem_openReadStream, mem_require. run. by rewrite Ho.
Qed.
Next Obligation.
  intros s key. simpl. unfold mem_exists. run. eexists. split; [done|].
  rewrite bool_decide_eq_true. unfold mem_stored, is_Some. naive_solver.
Qed.
Next Obligation.
  intros s key u s' Hs HR. pose proof (keeps_deleteTemporary key s Hs) as [Hinv _].
  simpl in HR. rewrite HR in Hinv. unfold mem_deleteTemporary, assertTemporaryKey in HR. run_inv. to_prop.
  split_and!; [done| |].
  - intros b m (o & Ho & _). cbn in Ho. by rewrite lookup_delete_eq in Ho.
  - intros k b m Hk. unfold mem_stored. simpl. by rewrite lookup_delete_ne.
Qed.
End Laws.

(** ** Witnesses *)

Module MemoryWitness.
Definition run_calls (cs : list mem_call) (s : MemoryObjectStorage) : MemoryObjectStorage :=
  fold_left (λ s c, run_call c s) cs s.

Lemma run_calls_steps cs s : rtc mem_step s (run_calls cs s).
Proof. revert s. induction cs as [|c cs IH]; intros s; [done|]. eapply rtc_l; [constructor|apply IH]. Qed.

Definition body : string := "trusted bytes".
Definition digest : string := sha256 body.
Definition tmp : string := "workspaces/ws-1/temporary/op-1".
Definition key : string := "workspaces/ws-1/objects/" +:+ slice0 2 digest +:+ "/" +:+ digest.
Definition object : StoredBytes := mkStored body "text/plain" digest.

Definition upload : list mem_call :=
  [WriteTemporary tmp ["trusted "; "bytes"] "text/plain";
   CommitImmutable (mkCommit tmp "ws-1" digest (JInt 13) "text/plain")].
(** Attempts to replace or remove the committed object. *)
Definition attack : list mem_call :=
  [WriteTemporary key ["evil"] "text/plain"; DeleteTemporary key;
   WriteTemporary tmp ["evil"] "text/plain";
   CommitImmutable (mkCommit tmp "ws-1" digest (JInt 4) "text/plain");
   InitiateMultipartUpload 0 "n" "up-1" key "text/plain" (JInt 1) None None None].

Definition committed : MemoryObjectStorage := run_calls upload (mem_init true).

Lemma committed_objects_immutable_witness :
  mem_objects (run_calls attack committed) !! key = Some object ∧ sha256 (stored_body object) = digest.
Proof.
  apply (committed_objects_immutable true committed _ "ws-1" digest key).
  - apply run_calls_steps.
  - apply run_calls_steps.
  - vm_compute. reflexivity.
  - vm_compute. reflexivity.
Defined.

(** Part 2 arrives before part 1. *)
Definition parts : list MultipartUploadedPart :=
  [mkPart 2 (quoted (md5 "bytes")) 5; mkPart 1 (quoted (md5 "trusted ")) 8].
Definition receiving : MemoryObjectStorage := run_calls
  [InitiateMultipartUpload 0 "n" "up-1" tmp "text/plain" (JInt 8) None None None;
   UploadMultipartPart "up-1" tmp "memory-n" (JInt 2) ["bytes"] 5;
   UploadMultipartPart "up-1" tmp "memory-n" (JInt 1) ["trusted "] 8] (mem_init true).
Definition session : MemoryMultipartSession :=
  mkMemorySession (mkSession "up-1" "memory-n" tmp "text/plain" 8 None None mp_uploading
    (sort_parts parts) (toISOString 0) (toISOString 86400000))
    (<[1%Z := "trusted "]> {[2%Z := "bytes"]}).

Lemma multipart_completion_assembles_witness :
  mem_objects (snd (completeMultipartUpload "up-1" tmp "memory-n" parts 13 digest receiving)) !! tmp
    = Some (mkStored (readAll (received_parts session)) "text/plain" digest) ∧
  readAll (received_parts session) = body.
Proof.
  split; [|vm_compute; reflexivity].
  eapply (multipart_completion_assembles receiving "up-1" tmp "memory-n" parts 13 digest session).
  - apply (mem_steps_le (mem_init true)); [apply mem_inv_init | apply run_calls_steps].
  - vm_compute. reflexivity.
  - discriminate.
  - vm_compute. reflexivity.
Defined.

Lemma range_read_exact_witness :
  ∃ b, mem_openReadStream key (Some (mkRange (JInt 8) (JInt 12))) committed = (Ok b, committed) ∧
  byteLength b = 5%Z ∧ b = "bytes".
Proof.
  exists "bytes". split; [vm_compute; reflexivity|]. split; [|reflexivity].
  pose proof (range_read_exact committed key object (JInt 8) (JInt 12)
    ltac:(vm_compute; reflexivity) ltac:(vm_compute; discriminate)) as Hr.
  vm_compute in Hr. destruct Hr as (_ & i & j & Hi & Hj & _ & _ & Hlen & _).
  injection Hi as <-. injection Hj as <-. exact Hlen.
Defined.
End MemoryWitness.
