(* ===== verification/UploadMachine.v ===== *)
(** * packages/operations, upload-state-machine.ts: the operation lifecycle

    The states of a durable operation and the transitions between them.  A run
    is a sequence of successful [transitionUpload] calls; the theorem fixes
    which states are final, that completion is only ever entered from
    [audit_committed] and stays possible from every other state, and that a run
    without a retry visits every stage in order. *)
From S2P Require Import Prelude Js.

(** Source: packages/protocol/src/index.ts:55-70 OperationState *)
Inductive OperationState :=
  | requested | authorised | temporary_upload_created | bytes_received | hash_verified
  | immutable_object_committed | metadata_committed | audit_committed | completed
  | rejected | failed_retryable | failed_terminal | quarantined.
#[global] Instance OperationState_eq_dec : EqDecision OperationState.
Proof. solve_decision. Defined.

(** Source: packages/protocol/src/index.ts:55-70 operationStates *)
Definition operationStates : list OperationState :=
  [requested; authorised; temporary_upload_created; bytes_received; hash_verified;
   immutable_object_committed; metadata_committed; audit_committed; completed;
   rejected; failed_retryable; failed_terminal; quarantined].

(** Source: packages/operations/src/upload-state-machine.ts:7-52 transitions *)
Definition transitions (s : OperationState) : list OperationState :=
  match s with
  | requested => [authorised; rejected; failed_terminal]
  | authorised => [temporary_upload_created; failed_retryable; failed_terminal]
  | temporary_upload_created => [bytes_received; failed_retryable; quarantined]
  | bytes_received => [hash_verified; failed_retryable; failed_terminal; quarantined]
  | hash_verified => [immutable_object_committed; failed_retryable; quarantined]
  | immutable_object_committed => [metadata_committed; failed_retryable; quarantined]
  | metadata_committed => [audit_committed; failed_retryable; quarantined]
  | audit_committed => [completed; failed_retryable]
  | completed => []
  | rejected => []
  | failed_retryable =>
      [authorised; temporary_upload_created; bytes_received; hash_verified;
       immutable_object_committed; metadata_committed; audit_committed;
       failed_terminal; quarantined]
  | failed_terminal => []
  | quarantined => []
  end.

(** Source: packages/operations/src/upload-state-machine.ts:54-62 InvalidOperationTransition *)
Inductive InvalidOperationTransition := invalid_operation_transition (from to : OperationState).

(** Source: packages/operations/src/upload-state-machine.ts:64-66 canTransition *)
Definition canTransition (from to : OperationState) : bool := array_includes (transitions from) to.

(** Source: packages/operations/src/upload-state-machine.ts:68-74 transitionUpload *)
Definition transitionUpload (from to : OperationState)
    : result InvalidOperationTransition OperationState :=
  if negb (canTransition from to) then Err (invalid_operation_transition from to) else Ok to.

(** ** Runs *)

Definition upload_step (from to : OperationState) : Prop := transitionUpload from to = Ok to.

Lemma upload_step_spec from to : upload_step from to ↔ to ∈ transitions from.
Proof.
  unfold upload_step, transitionUpload, canTransition, array_includes.
  case_bool_decide; simpl; split; intros; congruence || done.
Qed.

Definition terminal (s : OperationState) : bool :=
  match s with completed | rejected | failed_terminal | quarantined => true | _ => false end.

(** The stages in the order a run without a retry takes them. *)
Definition stages : list OperationState :=
  [requested; authorised; temporary_upload_created; bytes_received; hash_verified;
   immutable_object_committed; metadata_committed; audit_committed; completed].

(** A run listed with all its states. *)
Inductive run_of : OperationState → list OperationState → OperationState → Prop :=
  | run_nil s : run_of s [s] s
  | run_cons s t tr u : upload_step s t → run_of t tr u → run_of s (s :: tr) u.

Lemma run_of_rtc s t : rtc upload_step s t ↔ ∃ tr, run_of s tr t.
Proof.
  split.
  - induction 1 as [s|s t u Hst _ [tr IH]]; eexists; econstructor; eauto.
  - intros [tr Hr]. induction Hr; [done|]. by eapply rtc_l.
Qed.

Lemma terminal_final s t : terminal s = true → rtc upload_step s t → t = s.
Proof.
  intros Hs Hr. inversion Hr as [|? u ? Hu _]; subst; [done|].
  apply upload_step_spec in Hu. destruct s; try done; by apply elem_of_nil in Hu.
Qed.

(** Case analysis on both ends of a step. *)
Ltac step_cases s t H :=
  destruct s, t; vm_compute in H; try discriminate H.

(** The stages a run that never failed must still take after [s]. *)
Definition stages_from (s : OperationState) : list OperationState :=
  match s with
  | requested => stages
  | authorised => drop 1 stages
  | temporary_upload_created => drop 2 stages
  | bytes_received => drop 3 stages
  | hash_verified => drop 4 stages
  | immutable_object_committed => drop 5 stages
  | metadata_committed => drop 6 stages
  | audit_committed => drop 7 stages
  | completed => [completed]
  | _ => []
  end.

Lemma run_without_retry s tr :
  run_of s tr completed → failed_retryable ∉ tr → tr = stages_from s.
Proof.
  intros Hr. remember completed as u eqn:Hu. induction Hr as [s|s t tr u Hst Hr IH]; subst; [done|].
  intros Hno. rewrite not_elem_of_cons in Hno. destruct Hno as [Hs Hno].
  rewrite (IH eq_refl Hno). specialize (IH eq_refl Hno).
  assert (stages_from t ≠ []) as Hne by (intros E; rewrite E in IH; subst tr; inversion Hr).
  step_cases s t Hst; (reflexivity || by destruct Hs || by destruct Hne).
Qed.

Lemma completion_step s : upload_step s completed → s = audit_committed.
Proof. intros Hu. by destruct s; vm_compute in Hu; try discriminate Hu. Qed.

Lemma completion_entry s tr :
  run_of s tr completed → s ≠ completed → audit_committed ∈ tr.
Proof.
  intros Hr. remember completed as u eqn:Hu. induction Hr as [s|s t tr u Hst Hr IH]; subst; [done|].
  intros _. destruct (decide (t = completed)) as [->|Ht].
  - apply completion_step in Hst as ->. apply list_elem_of_here.
  - apply list_elem_of_further. by apply IH.
Qed.

Lemma completion_possible s : terminal s = false → rtc upload_step s completed.
Proof.
  intros Hs.
  assert (rtc upload_step audit_committed completed) as H7 by (by apply rtc_once).
  assert (rtc upload_step metadata_committed completed) as H6 by (by eapply rtc_l; [|exact H7]).
  assert (rtc upload_step immutable_object_committed completed) as H5 by (by eapply rtc_l; [|exact H6]).
  assert (rtc upload_step hash_verified completed) as H4 by (by eapply rtc_l; [|exact H5]).
  assert (rtc upload_step bytes_received completed) as H3 by (by eapply rtc_l; [|exact H4]).
  assert (rtc upload_step temporary_upload_created completed) as H2 by (by eapply rtc_l; [|exact H3]).
  assert (rtc upload_step authorised completed) as H1 by (by eapply rtc_l; [|exact H2]).
  destruct s; try done; by eapply rtc_l; [|exact H1].
Qed.

(** The operation lifecycle: a completed, rejected, quarantined or
    terminally failed operation never changes again; every other operation can
    still complete; completion is entered through the audit commit only; and an
    operation that completes without a retry has passed every stage exactly
    once, in order. *)
Theorem upload_lifecycle s :
  (terminal s = true ↔ ∀ t, rtc upload_step s t → t = s) ∧
  (rtc upload_step s completed ↔ terminal s = false ∨ s = completed) ∧
  (∀ tr, run_of s tr completed → s ≠ completed → audit_committed ∈ tr) ∧
  (∀ tr, run_of requested tr completed → failed_retryable ∉ tr → tr = stages).
Proof.
  split_and!.
  - split; [intros; by apply terminal_final|]. intros Hfin. destruct (terminal s) eqn:E; [done|].
    pose proof (Hfin completed (completion_possible s E)). by subst.
  - split; [|intros [?| ->]; [by apply completion_possible|done]].
    intros Hr. destruct (terminal s) eqn:E; [right; symmetry; by apply terminal_final|by left].
  - intros tr. apply completion_entry.
  - intros tr. apply run_without_retry.
Qed.
