(* ===== verification/Quarantine.v ===== *)
(** * packages/operations: quarantine scans and promotion

    quarantine-scan.ts, quarantine-scan-store.ts and promote-quarantine.ts.  The
    orchestrator is written against a [QuarantineScanStore], with the outcome of
    [scanner.submit] and the readings of the clock as arguments;
    [InMemoryQuarantineScanStore] is the store that implements it.  A call of the
    orchestrator is written once as a program that runs alone, and once as a task
    that may be overtaken at each of its awaits; alone, the task is the program.
    The theorems: the store never rebinds a scan's identity; under any
    interleaving an upload is accepted on an authentic clean verdict only, and a
    verdict that stands when no call is in progress is final; promotion leaves the
    scanned bytes under the canonical key. *)
From S2P Require Import Prelude Js Concrete StorageKeys Storage MemoryStorage.

(** Source: packages/protocol/src/index.ts:504-516 UploadScanState *)
Inductive QuarantineScanState :=
  | pending_upload | uploaded | scan_queued | scanning | accepted | rejected
  | manual_review | promotion_pending | promoted | failed.
#[global] Instance QuarantineScanState_eq_dec : EqDecision QuarantineScanState.
Proof. solve_decision. Defined.

(** Source: packages/protocol/src/index.ts:518-526 UploadScanOutcome *)
Inductive ScanOutcome := clean | malicious | suspicious | unsupported | error_ | timeout_.
#[global] Instance ScanOutcome_eq_dec : EqDecision ScanOutcome.
Proof. solve_decision. Defined.

(** Source: packages/protocol/src/index.ts:504-515 uploadScanStates *)
Definition scan_state_name (s : QuarantineScanState) : string :=
  match s with
  | pending_upload => "pending_upload" | uploaded => "uploaded" | scan_queued => "scan_queued"
  | scanning => "scanning" | accepted => "accepted" | rejected => "rejected"
  | manual_review => "manual_review" | promotion_pending => "promotion_pending"
  | promoted => "promoted" | failed => "failed"
  end.

(** Source: packages/operations/src/quarantine-scan.ts:16-29 transitions *)
Definition quarantine_transitions (s : QuarantineScanState) : list QuarantineScanState :=
  match s with
  | pending_upload => [uploaded; failed]
  | uploaded => [scan_queued; failed]
  | scan_queued => [scanning; failed]
  | scanning => [accepted; rejected; manual_review; failed]
  | accepted => [promotion_pending; failed]
  | rejected => []
  | manual_review => [accepted; rejected; failed]
  | promotion_pending => [promoted; failed]
  | promoted => []
  | failed => [scan_queued]
  end.

(** What the orchestrator and its stores throw. *)
Inductive quarantine_exn :=
  | InvalidQuarantineTransition (from to : QuarantineScanState)
  | QuarantineScanConflictError
  | CallbackNotAuthentic
  | UnknownScanJob
  | ProviderFailure (message : string).
#[global] Instance quarantine_exn_eq_dec : EqDecision quarantine_exn.
Proof. solve_decision. Defined.

(** Source: packages/operations/src/quarantine-scan.ts:41-46 canTransitionQuarantine *)
Definition canTransitionQuarantine (from to : QuarantineScanState) : bool :=
  array_includes (quarantine_transitions from) to.

(** Source: packages/operations/src/quarantine-scan.ts:48-57 transitionQuarantine *)
Definition transitionQuarantine (from to : QuarantineScanState)
    : result quarantine_exn QuarantineScanState :=
  if from === to then Ok from
  else if negb (canTransitionQuarantine from to) then Err (InvalidQuarantineTransition from to)
  else Ok to.

(** Source: packages/operations/src/quarantine-scan.ts:71-77 ScanCallback *)
Record ScanCallback := mkCallback {
  callback_scanJobId : string;
  callback_workspaceId : string;
  callback_outcome : ScanOutcome;
  callback_engine : option string;
  callback_authentic : bool;
}.

(** Source: packages/operations/src/quarantine-scan.ts:79-88 QuarantineScanRecord *)
Record QuarantineScanRecord := mkScan {
  scan_jobId : string;
  scan_workspaceId : string;
  scan_uploadId : string;
  scan_storageKey : string;
  scan_state : QuarantineScanState;
  scan_outcome : option ScanOutcome;
  scan_createdAt : string;
  scan_updatedAt : string;
}.
#[global] Instance QuarantineScanRecord_eq_dec : EqDecision QuarantineScanRecord.
Proof. solve_decision. Defined.

(** Source: packages/operations/src/quarantine-scan.ts:116-131 outcomeState *)
Definition outcomeState (outcome : ScanOutcome) : QuarantineScanState :=
  match outcome with
  | clean => accepted
  | malicious => rejected
  | suspicious => manual_review
  | unsupported | error_ | timeout_ => failed
  end.

(** The spelling of an outcome in the callback key. *)
(** Source: packages/protocol/src/index.ts:518-526 uploadScanOutcomes *)
Definition outcome_name (o : ScanOutcome) : string :=
  match o with
  | clean => "clean" | malicious => "malicious" | suspicious => "suspicious"
  | unsupported => "unsupported" | error_ => "error" | timeout_ => "timeout"
  end.

(** ** The store *)

(** Source: packages/operations/src/quarantine-scan-store.ts:12-22 QuarantineScanStore *)
Class QuarantineScanStore (S : Type) := {
  getByUploadId : string → string → M S quarantine_exn (option QuarantineScanRecord);
  getByScanJobId : string → string → M S quarantine_exn (option QuarantineScanRecord);
  save : QuarantineScanRecord → M S quarantine_exn unit;
}.

Inductive QuarantineScanSaveAction := save_insert | save_update.

(** Source: packages/operations/src/quarantine-scan-store.ts:26-69 resolveQuarantineScanSave *)
Definition resolveQuarantineScanSave (existingByJobId existingByUpload : option QuarantineScanRecord)
    (incoming : QuarantineScanRecord) : result quarantine_exn QuarantineScanSaveAction :=
  match existingByJobId with
  | Some e =>
      if (scan_workspaceId e !== scan_workspaceId incoming) ||
         (scan_uploadId e !== scan_uploadId incoming)
      then Err QuarantineScanConflictError
      else if (scan_storageKey e !== scan_storageKey incoming) ||
              (scan_createdAt e !== scan_createdAt incoming)
      then Err QuarantineScanConflictError
      else Ok save_update
  | None =>
      match existingByUpload with
      | Some e =>
          if scan_jobId e !== scan_jobId incoming then Err QuarantineScanConflictError
          else if (scan_storageKey e !== scan_storageKey incoming) ||
                  (scan_createdAt e !== scan_createdAt incoming)
          then Err QuarantineScanConflictError
          else Ok save_update
      | None => Ok save_insert
      end
  end.

(** [byJobId], in insertion order. *)
(** Source: packages/operations/src/quarantine-scan-store.ts:71-72 InMemoryQuarantineScanStore *)
Definition InMemoryScans : Type := list (string * QuarantineScanRecord).

Definition belongs_to (workspaceId uploadId : string) (r : QuarantineScanRecord) : bool :=
  (scan_workspaceId r === workspaceId) && (scan_uploadId r === uploadId).

(** Source: packages/operations/src/quarantine-scan-store.ts:74-82 getByUploadId *)
Definition scans_getByUploadId (workspaceId uploadId : string)
    : M InMemoryScans quarantine_exn (option QuarantineScanRecord) :=
  gets (λ s, List.find (belongs_to workspaceId uploadId) s.*2).

(** Source: packages/operations/src/quarantine-scan-store.ts:84-91 getByScanJobId *)
Definition scans_getByScanJobId (workspaceId scanJobId : string)
    : M InMemoryScans quarantine_exn (option QuarantineScanRecord) :=
  gets (λ s, map_get scanJobId s) ≫= λ record,
  match record with
  | None => mret None
  | Some record =>
      if scan_workspaceId record !== workspaceId then mret None else mret (Some record)
  end.

(** Source: packages/operations/src/quarantine-scan-store.ts:93-101 save *)
Definition scans_save (record : QuarantineScanRecord) : M InMemoryScans quarantine_exn unit :=
  gets (λ s, map_get (scan_jobId record) s) ≫= λ existingByJobId,
  scans_getByUploadId (scan_workspaceId record) (scan_uploadId record) ≫= λ existingByUpload,
  lift (resolveQuarantineScanSave existingByJobId existingByUpload record) ≫= λ _,
  modify (map_set (scan_jobId record) record).

#[global] Instance in_memory_scan_store : QuarantineScanStore InMemoryScans := {|
  getByUploadId := scans_getByUploadId;
  getByScanJobId := scans_getByScanJobId;
  save := scans_save;
|}.

(** ** The orchestrator *)

(** Source: packages/operations/src/quarantine-scan.ts:133-140 QuarantineScanOrchestrator *)
Record QuarantineScanOrchestrator (S : Type) := mkOrchestrator {
  processedCallbacks : list string;
  scan_store : S;
}.
Arguments mkOrchestrator {S}. Arguments processedCallbacks {S}. Arguments scan_store {S}.

Section Orchestrator.
Context {S : Type} `{QuarantineScanStore S}.
Abbreviation Orch := (M (QuarantineScanOrchestrator S) quarantine_exn).

(** A call of the store. *)
Definition on_store {A} (m : M S quarantine_exn A) : Orch A := λ o,
  let '(r, st) := m (scan_store o) in (r, mkOrchestrator (processedCallbacks o) st).

(** [processedCallbacks.add(key)] *)
Definition add_processed (key : string) : Orch unit :=
  modify (λ o, mkOrchestrator (key :: processedCallbacks o) (scan_store o)).

(** [{ ...record, state, updatedAt }] *)
Definition with_state (r : QuarantineScanRecord) (st : QuarantineScanState) (updatedAt : string)
    : QuarantineScanRecord :=
  mkScan (scan_jobId r) (scan_workspaceId r) (scan_uploadId r) (scan_storageKey r) st
    (scan_outcome r) (scan_createdAt r) updatedAt.

(** Source: packages/operations/src/quarantine-scan.ts:142-174 queueUploaded *)
Definition queueUploaded (t0 t1 t2 : string) (submit : result quarantine_exn unit)
    (scanJobId workspaceId uploadId storageKey : string) : Orch QuarantineScanRecord :=
  on_store (getByScanJobId workspaceId scanJobId) ≫= λ existing,
  match existing with
  | Some existing => mret existing
  | None =>
      let record := mkScan scanJobId workspaceId uploadId storageKey uploaded None t0 t0 in
      lift (transitionQuarantine (scan_state record) scan_queued) ≫= λ st,
      let record := with_state record st t1 in
      on_store (save record) ≫= λ _,
      lift (transitionQuarantine (scan_state record) scanning) ≫= λ st,
      let record := with_state record st t2 in
      lift submit ≫= λ _,
      on_store (save record) ≫= λ _,
      mret record
  end.

(** Between the two awaits of [handleCallback]: the record that is answered, and
    whether it is saved before. *)
(** Source: packages/operations/src/quarantine-scan.ts:184-213 handleCallback *)
Definition decideCallback (now : string) (callback : ScanCallback) (record : option QuarantineScanRecord)
    : Orch (QuarantineScanRecord * bool) :=
  match record with
  | None => throw UnknownScanJob
  | Some record =>
      throw_when (scan_workspaceId record !== callback_workspaceId callback) UnknownScanJob ≫= λ _,
      let callbackKey :=
        callback_scanJobId callback +:+ ":" +:+ outcome_name (callback_outcome callback) in
      gets (λ o : QuarantineScanOrchestrator S, array_includes (processedCallbacks o) callbackKey) ≫= λ seen : bool,
      if seen then mret (record, false)
      else if (scan_outcome record === Some (callback_outcome callback)) &&
              (scan_state record === outcomeState (callback_outcome callback))
      then add_processed callbackKey ≫= λ _, mret (record, false)
      else if scan_state record !== scanning
      then throw (InvalidQuarantineTransition (scan_state record) accepted)
      else
        let next := outcomeState (callback_outcome callback) in
        lift (transitionQuarantine (scan_state record) next) ≫= λ st,
        let updated := mkScan (scan_jobId record) (scan_workspaceId record) (scan_uploadId record)
          (scan_storageKey record) st (Some (callback_outcome callback)) (scan_createdAt record) now in
        add_processed callbackKey ≫= λ _,
        mret (updated, true)
  end.

(** Source: packages/operations/src/quarantine-scan.ts:176-214 handleCallback *)
Definition handleCallback (now : string) (callback : ScanCallback) : Orch QuarantineScanRecord :=
  throw_when (negb (callback_authentic callback)) CallbackNotAuthentic ≫= λ _,
  on_store (getByScanJobId (callback_workspaceId callback) (callback_scanJobId callback)) ≫= λ record,
  decideCallback now callback record ≫= λ answer : QuarantineScanRecord * bool,
  (if answer.2 then on_store (save answer.1) else mret tt : Orch unit) ≫= λ _,
  mret answer.1.

(** Source: packages/operations/src/quarantine-scan.ts:216-221 get *)
Definition scan_get (workspaceId scanJobId : string) : Orch (option QuarantineScanRecord) :=
  on_store (getByScanJobId workspaceId scanJobId).

(** Source: packages/operations/src/quarantine-scan.ts:223-228 getByUploadId *)
Definition scan_getByUploadId (workspaceId uploadId : string) : Orch (option QuarantineScanRecord) :=
  on_store (getByUploadId workspaceId uploadId).
End Orchestrator.

(** ** What the orchestrator relies on *)

(** Workspace, upload, object and creation time: fixed when the scan is queued. *)
Definition same_identity (a b : QuarantineScanRecord) : Prop :=
  scan_jobId a = scan_jobId b ∧ scan_workspaceId a = scan_workspaceId b ∧
  scan_uploadId a = scan_uploadId b ∧ scan_storageKey a = scan_storageKey b ∧
  scan_createdAt a = scan_createdAt b.

Lemma same_identity_trans a b c : same_identity a b → same_identity b c → same_identity a c.
Proof. unfold same_identity. intros. destruct_and!. split_and!; congruence. Qed.

Definition visible_in (workspaceId : string) (r : option QuarantineScanRecord)
    : option QuarantineScanRecord :=
  match r with
  | Some r => if scan_workspaceId r !== workspaceId then None else Some r
  | None => None
  end.

(** A store may normalise the timestamps of a record; the rest reads back as it
    was saved. *)
Definition same_scan (a b : QuarantineScanRecord) : Prop :=
  scan_jobId a = scan_jobId b ∧ scan_workspaceId a = scan_workspaceId b ∧ scan_uploadId a = scan_uploadId b ∧
  scan_storageKey a = scan_storageKey b ∧ scan_state a = scan_state b ∧ scan_outcome a = scan_outcome b.

Class QuarantineScanStoreLaws (S : Type) `{QuarantineScanStore S} := {
  scan_lookup : S → string → option QuarantineScanRecord;
  scan_store_inv : S → Prop;
  scan_kept : QuarantineScanRecord → QuarantineScanRecord;
  scan_kept_same r : same_scan (scan_kept r) r;
  scan_lookup_job s j r : scan_store_inv s → scan_lookup s j = Some r → scan_jobId r = j;
  getByScanJobId_law s w j res s' :
    scan_store_inv s → getByScanJobId w j s = (res, s') →
    s' = s ∧ ∀ o, res = Ok o → o = visible_in w (scan_lookup s j);
  save_law s r res s' :
    scan_store_inv s → save r s = (res, s') →
    scan_store_inv s' ∧
    match res with
    | Ok _ =>
        (∀ j, scan_lookup s' j = if j === scan_jobId r then Some (scan_kept r) else scan_lookup s j) ∧
        (∀ e, scan_lookup s (scan_jobId r) = Some e → same_identity e (scan_kept r))
    | Err _ => ∀ j, scan_lookup s' j = scan_lookup s j
    end;
}.

(** ** The in-memory store keeps one job per upload *)

Definition scans_ok (s : InMemoryScans) : Prop :=
  NoDup s.*1 ∧
  (∀ j r, (j, r) ∈ s → scan_jobId r = j) ∧
  (∀ j1 r1 j2 r2, (j1, r1) ∈ s → (j2, r2) ∈ s →
     scan_workspaceId r1 = scan_workspaceId r2 → scan_uploadId r1 = scan_uploadId r2 → j1 = j2).

Lemma map_set_elem {K V} `{EqDecision K} (k : K) (v : V) m k' v' :
  NoDup m.*1 → (k', v') ∈ map_set k v m → (k' = k ∧ v' = v) ∨ (k' ≠ k ∧ (k', v') ∈ m).
Proof.
  intros Hm Hin. apply (map_elem_get k' v') in Hin; [|by apply NoDup_map_set].
  destruct (decide (k' = k)) as [->|Hne].
  - rewrite map_get_set_eq in Hin. injection Hin as ->. by left.
  - rewrite map_get_set_ne in Hin by done. right. split; [done|]. by apply map_get_elem.
Qed.

Lemma resolve_Ok byJob byUpload r a :
  resolveQuarantineScanSave byJob byUpload r = Ok a →
  match byJob with
  | Some e => scan_workspaceId e = scan_workspaceId r ∧ scan_uploadId e = scan_uploadId r ∧
              scan_storageKey e = scan_storageKey r ∧ scan_createdAt e = scan_createdAt r
  | None => ∀ e, byUpload = Some e → scan_jobId e = scan_jobId r
  end.
Proof.
  unfold resolveQuarantineScanSave. intros HR. repeat case_match; simplify_eq; to_prop; try done.
  intros e' [= <-]. done.
Qed.

Lemma belongs_to_spec w u r :
  belongs_to w u r = true ↔ scan_workspaceId r = w ∧ scan_uploadId r = u.
Proof. unfold belongs_to. rewrite andb_true_iff, !bool_decide_eq_true. done. Qed.

Lemma scans_ok_save s r a :
  scans_ok s →
  resolveQuarantineScanSave (map_get (scan_jobId r) s)
    (List.find (belongs_to (scan_workspaceId r) (scan_uploadId r)) s.*2) r = Ok a →
  scans_ok (map_set (scan_jobId r) r s).
Proof.
  intros (Hnd & Hjob & Huniq) Hres%resolve_Ok.
  assert (∀ j' r', (j', r') ∈ s → scan_workspaceId r' = scan_workspaceId r →
    scan_uploadId r' = scan_uploadId r → j' = scan_jobId r) as Hown.
  { intros j' r' Hin Hw Hu. destruct (map_get (scan_jobId r) s) as [e|] eqn:He.
    - apply map_get_elem in He. destruct Hres as (? & ? & _). eapply Huniq; eauto; congruence.
    - destruct (List.find _ _) as [e|] eqn:Hf.
      + specialize (Hres e eq_refl). apply find_Some_elem in Hf as [Hel Hb%belongs_to_spec].
        apply list_elem_of_fmap in Hel as ([je e'] & -> & Hel). simpl in *.
        pose proof (Hjob _ _ Hel). pose proof (Huniq _ _ _ _ Hel Hin). naive_solver congruence.
      + exfalso. assert (r' ∈ s.*2) as Hin2 by (apply list_elem_of_fmap; by exists (j', r')).
        apply (find_None_elem _ _ _ Hf) in Hin2.
        assert (belongs_to (scan_workspaceId r) (scan_uploadId r) r' = true) by (by apply belongs_to_spec).
        congruence. }
  split_and!; [by apply NoDup_map_set| |].
  - intros j' r' [[-> ->]|[_ Hin]]%map_set_elem; [done|by apply Hjob|done].
  - intros j1 r1 j2 r2 [[-> ->]|[Hn1 H1]]%map_set_elem [[-> ->]|[Hn2 H2]]%map_set_elem Hw Hu;
      try done; [symmetry; by eapply Hown|by eapply Hown|by eapply Huniq].
Qed.

#[global] Program Instance in_memory_scan_store_laws : QuarantineScanStoreLaws InMemoryScans :=
  {| scan_lookup := λ s j, map_get j s; scan_store_inv := scans_ok; scan_kept := id |}.
Next Obligation. done. Qed.
Next Obligation. intros s j r (_ & Hjob & _) Hget%map_get_elem. by apply Hjob. Qed.
Next Obligation.
  intros s w j res s' Hs. simpl. unfold scans_getByScanJobId. run.
  destruct (map_get j s) as [r|]; simpl; [destruct (_ === w)|]; simpl; intros HR;
    run_in HR; simplify_eq; (split; [done|]); by intros o [= <-].
Qed.
Next Obligation.
  intros s r res s' Hs. simpl. unfold scans_save, scans_getByUploadId. run.
  destruct (resolveQuarantineScanSave _ _ r) as [a|e] eqn:Hres; intros HR; run_in HR; simplify_eq; [|done].
  split; [by eapply scans_ok_save|]. split.
  - intros j. case_bool_decide; subst; [apply map_get_set_eq|by apply map_get_set_ne].
  - intros e He. apply resolve_Ok in Hres. rewrite He in Hres.
    apply map_get_elem in He. destruct Hs as (_ & Hjob & _). split; [by apply Hjob|naive_solver].
Qed.

(** ** Calls that overtake each other *)

(** A call of the orchestrator, and a call in progress: at an [await], with what
    it has read and what it goes on with.  A call of the store takes effect at
    one moment; the code between two of them runs at another. *)
Inductive scan_call :=
  | QueueUploaded (t0 t1 t2 : string) (submit : result quarantine_exn unit)
      (scanJobId workspaceId uploadId storageKey : string)
  | HandleCallback (now : string) (callback : ScanCallback).
Inductive scan_task :=
  | QueueRead (t0 t1 t2 : string) (submit : result quarantine_exn unit) (scanJobId workspaceId uploadId storageKey : string)
  | QueueFound (t0 t1 t2 : string) (submit : result quarantine_exn unit) (scanJobId workspaceId uploadId storageKey : string)
      (existing : option QuarantineScanRecord)
  | QueueSave (record : QuarantineScanRecord) (t2 : string) (submit : result quarantine_exn unit)
  | QueueSubmit (record : QuarantineScanRecord) (t2 : string) (submit : result quarantine_exn unit)
  | QueueScanning (record : QuarantineScanRecord)
  | CallbackRead (now : string) (callback : ScanCallback)
  | CallbackFound (now : string) (callback : ScanCallback) (record : option QuarantineScanRecord)
  | CallbackSave (updated : QuarantineScanRecord).

Section Tasks.
Context {S : Type} `{QuarantineScanStore S}.
Abbreviation Orch := (M (QuarantineScanOrchestrator S) quarantine_exn).

Definition start_of (c : scan_call) : scan_task :=
  match c with
  | QueueUploaded t0 t1 t2 submit j w u k => QueueRead t0 t1 t2 submit j w u k
  | HandleCallback now cb => CallbackRead now cb
  end.

(** One step of a call: the record it resolves to, or how it goes on. *)
(** Source: packages/operations/src/quarantine-scan.ts:142-214 QuarantineScanOrchestrator *)
Definition step_task (t : scan_task) : Orch (QuarantineScanRecord + scan_task) :=
  match t with
  | QueueRead t0 t1 t2 submit j w u k =>
      on_store (getByScanJobId w j) ≫= λ existing, mret (inr (QueueFound t0 t1 t2 submit j w u k existing))
  | QueueFound _ _ _ _ _ _ _ _ (Some existing) => mret (inl existing)
  | QueueFound t0 t1 t2 submit j w u k None =>
      let record := mkScan j w u k uploaded None t0 t0 in
      lift (transitionQuarantine (scan_state record) scan_queued) ≫= λ st,
      mret (inr (QueueSave (with_state record st t1) t2 submit))
  | QueueSave record t2 submit => on_store (save record) ≫= λ _, mret (inr (QueueSubmit record t2 submit))
  | QueueSubmit record t2 submit =>
      lift (transitionQuarantine (scan_state record) scanning) ≫= λ st,
      lift submit ≫= λ _, mret (inr (QueueScanning (with_state record st t2)))
  | QueueScanning record => on_store (save record) ≫= λ _, mret (inl record)
  | CallbackRead now callback =>
      throw_when (negb (callback_authentic callback)) CallbackNotAuthentic ≫= λ _,
      on_store (getByScanJobId (callback_workspaceId callback) (callback_scanJobId callback)) ≫= λ record,
      mret (inr (CallbackFound now callback record))
  | CallbackFound now callback record =>
      decideCallback now callback record ≫= λ answer : QuarantineScanRecord * bool,
      mret (if answer.2 then inr (CallbackSave answer.1) else inl answer.1)
  | CallbackSave updated => on_store (save updated) ≫= λ _, mret (inl updated)
  end.

(** A call that is not overtaken. *)
Fixpoint run_task (fuel : nat) (t : scan_task) : Orch (option QuarantineScanRecord) :=
  match fuel with
  | O => mret None
  | Datatypes.S fuel => step_task t ≫= λ next, match next with inl r => mret (Some r) | inr t => run_task fuel t end
  end.
Definition call_alone (c : scan_call) : Orch QuarantineScanRecord :=
  match c with
  | QueueUploaded t0 t1 t2 submit j w u k => queueUploaded t0 t1 t2 submit j w u k
  | HandleCallback now cb => handleCallback now cb
  end.
#[local] Ltac go := repeat (progress (cbn [step_task run_task fst snd scan_state with_state]; unfold mbind, M_bind, throw_when, lift, mret, M_ret)).
Lemma task_alone c o : run_task 5 (start_of c) o = (call_alone c ≫= λ r, mret (Some r)) o.
Proof.
  destruct c; cbn [start_of call_alone]; unfold queueUploaded, handleCallback; go.
  - destruct (on_store (getByScanJobId _ _) o) as [[[r|]|e] o1]; [done| |done]. go.
    change (transitionQuarantine uploaded scan_queued) with (@Ok quarantine_exn _ scan_queued). go.
    destruct (on_store (save _) o1) as [[[]|e] o2]; [|done]. go.
    change (transitionQuarantine scan_queued scanning) with (@Ok quarantine_exn _ scanning). go.
    destruct submit as [[]|e]; [|done]. go. by destruct (on_store (save _) o2) as [[[]|e] o3].
  - destruct (callback_authentic callback); [|done]. cbn [negb throw_if].
    destruct (on_store (getByScanJobId _ _) o) as [[r|e] o1]; [|done]. go.
    destruct (decideCallback _ _ _ o1) as [[[r' []]|e] o2]; [|done|done]. go.
    by destruct (on_store (save _) o2) as [[[]|e] o3].
Qed.

(** The calls in progress, in one process: calls arrive, each takes its steps when
    it can, and the process may be restarted, which ends the calls in progress and
    empties [processedCallbacks].  The calls are recorded as they arrive. *)
Inductive interleaved (o0 : QuarantineScanOrchestrator S) :
    list scan_call → list scan_task → QuarantineScanOrchestrator S → Prop :=
  | il_init : interleaved o0 [] [] o0
  | il_call cs ts o c : interleaved o0 cs ts o → interleaved o0 (cs ++ [c]) (ts ++ [start_of c]) o
  | il_step cs ts1 t ts2 o t' o' : interleaved o0 cs (ts1 ++ t :: ts2) o → step_task t o = (Ok (inr t'), o') →
      interleaved o0 cs (ts1 ++ t' :: ts2) o'
  | il_end cs ts1 t ts2 o r o' : interleaved o0 cs (ts1 ++ t :: ts2) o → step_task t o = (r, o') →
      (∀ t', r ≠ Ok (inr t')) → interleaved o0 cs (ts1 ++ ts2) o'
  | il_restart cs ts o : interleaved o0 cs ts o → interleaved o0 cs [] (mkOrchestrator [] (scan_store o)).
End Tasks.

Section Verdicts.
Context {S : Type} `{QuarantineScanStoreLaws S}.
Abbreviation Orchestrator := (QuarantineScanOrchestrator S).
Abbreviation scan_of o j := (scan_lookup (scan_store o) j).
Abbreviation orch_inv o := (scan_store_inv (scan_store o)).

(** No verdict yet: queued or being scanned. *)
Definition undecided (r : QuarantineScanRecord) : Prop :=
  scan_outcome r = None ∧ (scan_state r = scan_queued ∨ scan_state r = scanning).

(** The verdict [r] carries was delivered by the call [c]. *)
Definition verdict_by (c : scan_call) (r : QuarantineScanRecord) : Prop :=
  ∃ now cb, c = HandleCallback now cb ∧ callback_authentic cb = true ∧
    callback_scanJobId cb = scan_jobId r ∧ callback_workspaceId cb = scan_workspaceId r ∧
    scan_outcome r = Some (callback_outcome cb) ∧ scan_state r = outcomeState (callback_outcome cb).

(** Undecided, or decided by one of the calls. *)
Definition justified (cs : list scan_call) (r : QuarantineScanRecord) : Prop :=
  undecided r ∨ ∃ c, c ∈ cs ∧ verdict_by c r.

Lemma justified_app cs cs' r : justified cs r → justified (cs ++ cs') r.
Proof. intros [?|(c & Hc & ?)]; [by left|]. right. exists c. split; [|done]. apply elem_of_app. by left. Qed.
Lemma justified_kept cs r : justified cs r → justified cs (scan_kept r).
Proof.
  unfold justified, undecided, verdict_by. by destruct (scan_kept_same r) as (-> & -> & _ & _ & -> & ->).
Qed.

(** *** The calls of the store *)

Lemma on_store_run {A} (m : M S quarantine_exn A) (o : Orchestrator) res st :
  m (scan_store o) = (res, st) → on_store m o = (res, mkOrchestrator (processedCallbacks o) st).
Proof. unfold on_store. by intros ->. Qed.

(** Reading a job. *)
Lemma read_job_run (w j : string) (o : Orchestrator) :
  orch_inv o →
  (∃ e, on_store (getByScanJobId w j) o = (Err e, o)) ∨
  on_store (getByScanJobId w j) o = (Ok (visible_in w (scan_of o j)), o).
Proof.
  intros Ho. destruct (getByScanJobId w j (scan_store o)) as [res st] eqn:HR.
  destruct (getByScanJobId_law _ _ _ _ _ Ho HR) as [-> Hres].
  pose proof (on_store_run _ _ _ _ HR) as Hrun. destruct o as [p st]. simpl in *.
  destruct res as [r|e]; [right|left; eauto]. by rewrite Hrun, (Hres r eq_refl).
Qed.

(** Saving a record. *)
Lemma save_run (r : QuarantineScanRecord) (o : Orchestrator) :
  orch_inv o →
  ∃ res o', on_store (save r) o = (res, o') ∧ orch_inv o' ∧
    match res with
    | Ok _ =>
        (∀ j, scan_of o' j = if j === scan_jobId r then Some (scan_kept r) else scan_of o j) ∧
        (∀ e, scan_of o (scan_jobId r) = Some e → same_identity e (scan_kept r))
    | Err _ => ∀ j, scan_of o' j = scan_of o j
    end.
Proof.
  intros Ho. destruct (save r (scan_store o)) as [res st] eqn:HR.
  destruct (save_law _ _ _ _ Ho HR) as [Hinv Hres].
  eexists res, _. split; [by apply on_store_run|]. by destruct res.
Qed.

Lemma visible_in_Some w r e : visible_in w r = Some e → r = Some e ∧ scan_workspaceId e = w.
Proof. destruct r as [r|]; simpl; [|done]. case_match; [done|]. intros [= ->]. by to_prop. Qed.

(** The decision leaves the store, and saves a verdict on a record that was
    being scanned only. *)
Lemma decide_run now cb record (o : Orchestrator) res o' :
  decideCallback now cb record o = (res, o') →
  scan_store o' = scan_store o ∧
  ∀ updated, res = Ok (updated, true) →
    ∃ r, record = Some r ∧ scan_workspaceId r = callback_workspaceId cb ∧ scan_state r = scanning ∧
      updated = mkScan (scan_jobId r) (scan_workspaceId r) (scan_uploadId r) (scan_storageKey r)
        (outcomeState (callback_outcome cb)) (Some (callback_outcome cb)) (scan_createdAt r) now.
Proof.
  unfold decideCallback. destruct record as [r|]; [|by intros [= <- <-]]. run.
  destruct (negb _) eqn:Hw; [by intros [= <- <-]|]. run. case_match; [by intros [= <- <-]|].
  case_match; [unfold add_processed; run; by intros [= <- <-]|]. case_match; [by intros [= <- <-]|]. to_prop. run.
  assert (transitionQuarantine (scan_state r) (outcomeState (callback_outcome cb)) =
          Ok (outcomeState (callback_outcome cb))) as ->.
  { match goal with E : scan_state r = scanning |- _ => rewrite E end. by destruct (callback_outcome cb). }
  unfold add_processed. run. intros [= <- <-]. split; [done|]. intros updated [= <-]. by exists r.
Qed.

(** *** Soundness *)

(** What a call in progress may save is justified by the calls that arrived. *)
Definition task_sound (cs : list scan_call) (t : scan_task) : Prop :=
  match t with
  | QueueRead _ _ _ _ _ _ _ _ | QueueFound _ _ _ _ _ _ _ _ _ => True
  | QueueSave r _ _ | QueueSubmit r _ _ => undecided r ∧ scan_state r = scan_queued
  | QueueScanning r => undecided r
  | CallbackRead now cb => HandleCallback now cb ∈ cs
  | CallbackFound now cb record => HandleCallback now cb ∈ cs ∧ callback_authentic cb = true ∧
      ∀ r, record = Some r → scan_jobId r = callback_scanJobId cb
  | CallbackSave r => justified cs r
  end.
Definition sound (cs : list scan_call) (ts : list scan_task) (o : Orchestrator) : Prop :=
  orch_inv o ∧ (∀ j r, scan_of o j = Some r → justified cs r) ∧ Forall (task_sound cs) ts.

Lemma task_sound_app cs c t : task_sound cs t → task_sound (cs ++ [c]) t.
Proof.
  destruct t; cbn; rewrite ?elem_of_app; try done; [by left|intros [? ?]; by split; [left|]|apply justified_app].
Qed.

(** Saving a justified record. *)
Lemma save_sound cs r (o : Orchestrator) :
  orch_inv o → (∀ j r, scan_of o j = Some r → justified cs r) → justified cs r →
  let o' := (on_store (save r) o).2 in orch_inv o' ∧ ∀ j r, scan_of o' j = Some r → justified cs r.
Proof.
  intros Ho Hj Hr. destruct (save_run r o Ho) as (res & o' & -> & Ho' & Hres). split; [done|]. cbn [snd]. intros j r'.
  destruct res as [[]|e]; [|rewrite Hres; apply Hj]. destruct Hres as [-> _].
  case_bool_decide; [intros [= <-]; by apply justified_kept|apply Hj].
Qed.

Lemma step_sound cs t (o : Orchestrator) :
  sound cs [] o → task_sound cs t →
  let '(res, o') := step_task t o in sound cs [] o' ∧ ∀ t', res = Ok (inr t') → task_sound cs t'.
Proof.
  intros (Ho & Hj & _) Ht. destruct t; cbn [step_task task_sound] in *.
  - unfold mbind, M_bind. destruct (read_job_run workspaceId scanJobId o Ho) as [[e ->]| ->]; [done|]. split; [done|]. by intros t' [= <-].
  - destruct existing; [done|]. run. split; [done|]. intros t' [= <-]. cbn. unfold undecided. cbn. by split_and!; [..|left|].
  - destruct (save_sound cs record o Ho Hj (or_introl (proj1 Ht))) as [Ho' Hj']. unfold mbind, M_bind.
    destruct (on_store (save record) o) as [[[]|e] o']; (split; [done|]); [by intros t' [= <-]|done].
  - destruct Ht as [[Hn _] Hq]. run. rewrite Hq. change (transitionQuarantine scan_queued scanning) with (@Ok quarantine_exn _ scanning). run.
    destruct submit as [[]|e]; [|done]. split; [done|]. intros t' [= <-]. cbn. split; [done|by right].
  - destruct (save_sound cs record o Ho Hj (or_introl Ht)) as [Ho' Hj']. unfold mbind, M_bind.
    by destruct (on_store (save record) o) as [[[]|e] o'].
  - run. destruct (callback_authentic callback) eqn:Ha; [|done]. cbn [negb]. unfold mbind, M_bind.
    destruct (read_job_run (callback_workspaceId callback) (callback_scanJobId callback) o Ho) as [[e ->]| ->]; [done|].
    split; [done|]. intros t' [= <-]. split_and!; [done..|]. intros r [Hr _]%visible_in_Some. by eapply scan_lookup_job.
  - destruct Ht as (Hin & Ha & Hr). unfold mbind, M_bind. destruct (decideCallback now callback record o) as [res o'] eqn:Hd.
    destruct (decide_run _ _ _ _ _ _ Hd) as [Hs Hu]. destruct res as [[updated []]|e]; cbn; unfold sound; rewrite Hs;
      (split; [done|]); try done. intros t' [= <-]. right. exists (HandleCallback now callback). split; [done|].
    destruct (Hu updated eq_refl) as (r & -> & Hw & _ & ->). exists now, callback. cbn. by rewrite (Hr r eq_refl).
  - destruct (save_sound cs updated o Ho Hj Ht) as [Ho' Hj']. unfold mbind, M_bind.
    by destruct (on_store (save updated) o) as [[[]|e] o'].
Qed.

Lemma interleaved_sound (o : Orchestrator) cs ts o' :
  orch_inv o → (∀ j, scan_of o j = None) → interleaved o cs ts o' → sound cs ts o'.
Proof.
  intros Ho He. induction 1 as [|cs ts o1 c _ (Hi & Hj & Ht)|cs ts1 t ts2 o1 t' o2 _ (Hi & Hj & Ht) Hs|cs ts1 t ts2 o1 res o2 _ (Hi & Hj & Ht) Hs _
    |cs ts o1 _ (Hi & Hj & _)].
  - split_and!; [done| |done]. intros j r. by rewrite He.
  - split_and!; [done|eauto using justified_app|]. apply Forall_app_2; [eapply Forall_impl; [exact Ht|apply task_sound_app]|].
    constructor; [|done]. destruct c; cbn; [done|]. apply elem_of_app. right. apply list_elem_of_here.
  - rewrite Forall_app, Forall_cons in Ht. destruct Ht as (H1 & H2 & H3).
    pose proof (step_sound cs t o1) as Hst. rewrite Hs in Hst. destruct Hst as [(Hi2 & Hj2 & _) Ht']; [done..|].
    split_and!; [done..|]. rewrite Forall_app, Forall_cons. eauto.
  - rewrite Forall_app, Forall_cons in Ht. destruct Ht as (H1 & H2 & H3).
    pose proof (step_sound cs t o1) as Hst. rewrite Hs in Hst. destruct Hst as [(Hi2 & Hj2 & _) _]; [done..|].
    split_and!; [done..|]. by rewrite Forall_app.
  - done.
Qed.

(** *** Finality *)

(** The record [r] of the job [j] has its verdict, and no call in progress saves
    another for it: what was read of the job is [r], and what is queued for it is
    of another workspace, which the store refuses. *)
Section Final.
Context (j : string) (r : QuarantineScanRecord).
Definition task_yields (t : scan_task) : Prop :=
  match t with
  | QueueRead _ _ _ _ _ _ _ _ | CallbackRead _ _ => True
  | QueueFound _ _ _ _ j' w _ _ existing => existing = None → j' = j → w ≠ scan_workspaceId r
  | QueueSave r' _ _ | QueueSubmit r' _ _ | QueueScanning r' => scan_jobId r' = j → scan_workspaceId r' ≠ scan_workspaceId r
  | CallbackFound _ _ record => ∀ r', record = Some r' → scan_jobId r' = j → r' = r
  | CallbackSave r' => scan_jobId r' ≠ j
  end.
Definition final (ts : list scan_task) (o : Orchestrator) : Prop :=
  orch_inv o ∧ scan_of o j = Some r ∧ Forall task_yields ts.

Lemma save_yields r' (o : Orchestrator) :
  orch_inv o → scan_of o j = Some r → (scan_jobId r' = j → scan_workspaceId r' ≠ scan_workspaceId r) →
  let o' := (on_store (save r') o).2 in orch_inv o' ∧ scan_of o' j = Some r.
Proof.
  intros Ho Hr Hne. destruct (save_run r' o Ho) as (res & o' & -> & Ho' & Hres). split; [done|]. cbn [snd].
  destruct res as [[]|e]; [|by rewrite Hres]. destruct Hres as [-> Hid]. case_bool_decide as Hj; [|done]. exfalso.
  rewrite <- Hj in Hid. destruct (Hid r Hr) as (_ & Hw & _). apply (Hne (eq_sym Hj)). rewrite Hw. symmetry. apply (scan_kept_same r').
Qed.

Lemma step_final t (o : Orchestrator) :
  scan_state r ≠ scanning → final [] o → task_yields t →
  let '(res, o') := step_task t o in final [] o' ∧ ∀ t', res = Ok (inr t') → task_yields t'.
Proof.
  intros Hst (Ho & Hr & _) Ht. destruct t; cbn [step_task task_yields] in *.
  - unfold mbind, M_bind. destruct (read_job_run workspaceId scanJobId o Ho) as [[e ->]| ->]; [done|]. split; [done|].
    intros t' [= <-] Hn -> ->. rewrite Hr in Hn. cbn in Hn. by rewrite strict_ne_refl in Hn.
  - destruct existing; [done|]. run. split; [done|]. intros t' [= <-]. cbn. auto.
  - destruct (save_yields record o Ho Hr Ht) as [Ho' Hr']. unfold mbind, M_bind.
    destruct (on_store (save record) o) as [[[]|e] o']; (split; [done|]); [by intros t' [= <-]|done].
  - run. destruct (transitionQuarantine _ _) as [st|]; [|done]. run. destruct submit as [[]|e]; [|done]. split; [done|]. by intros t' [= <-].
  - destruct (save_yields record o Ho Hr Ht) as [Ho' Hr']. unfold mbind, M_bind.
    by destruct (on_store (save record) o) as [[[]|e] o'].
  - run. destruct (negb _); [done|]. unfold mbind, M_bind.
    destruct (read_job_run (callback_workspaceId callback) (callback_scanJobId callback) o Ho) as [[e ->]| ->]; [done|].
    split; [done|]. intros t' [= <-] r' [Hr' _]%visible_in_Some Hj.
    pose proof (scan_lookup_job _ _ _ Ho Hr') as Hjob. rewrite Hj in Hjob. rewrite <- Hjob in Hr'. congruence.
  - unfold mbind, M_bind. destruct (decideCallback now callback record o) as [res o'] eqn:Hd.
    destruct (decide_run _ _ _ _ _ _ Hd) as [Hs Hu]. destruct res as [[updated []]|e]; cbn; unfold final; rewrite Hs;
      (split; [done|]); try done. intros t' [= <-] Hj. destruct (Hu updated eq_refl) as (r' & -> & _ & Hsc & ->). cbn in Hj.
    by rewrite (Ht r' eq_refl Hj) in Hsc.
  - destruct (save_yields updated o Ho Hr) as [Ho' Hr']; [done|]. unfold mbind, M_bind.
    by destruct (on_store (save updated) o) as [[[]|e] o'].
Qed.

Lemma interleaved_final (o : Orchestrator) cs ts o' :
  scan_state r ≠ scanning → orch_inv o → scan_of o j = Some r → interleaved o cs ts o' → final ts o'.
Proof.
  intros Hst Ho Hr. induction 1 as [|cs ts o1 c _ (Hi & Hj & Ht)|cs ts1 t ts2 o1 t' o2 _ (Hi & Hj & Ht) Hs
    |cs ts1 t ts2 o1 res o2 _ (Hi & Hj & Ht) Hs _|cs ts o1 _ (Hi & Hj & _)].
  - done.
  - split_and!; [done..|]. apply Forall_app_2; [done|]. constructor; [by destruct c|done].
  - rewrite Forall_app, Forall_cons in Ht. destruct Ht as (H1 & H2 & H3).
    pose proof (step_final t o1) as Hst'. rewrite Hs in Hst'. destruct Hst' as [(Hi2 & Hj2 & _) Ht']; [done..|].
    split_and!; [done..|]. rewrite Forall_app, Forall_cons. eauto.
  - rewrite Forall_app, Forall_cons in Ht. destruct Ht as (H1 & H2 & H3).
    pose proof (step_final t o1) as Hst'. rewrite Hs in Hst'. destruct Hst' as [(Hi2 & Hj2 & _) _]; [done..|].
    split_and!; [done..|]. by rewrite Forall_app.
  - done.
Qed.
End Final.

(** C6. Scan verdicts of the orchestrator are sound, and final once no call is in
    progress. Calls of
    [queueUploaded] and [handleCallback] arrive at any time, overtake each other at
    any of their awaits, fail in the store or the scanner, and are cut off by a
    restart of the process. A record in the store then has a verdict only when an
    authentic callback for its own job and workspace delivered that outcome, and
    its state is the one of the outcome: an accepted upload had a clean callback.
    And a verdict that the store holds at a moment when no call is in progress is
    never changed by calls that arrive later, however these interleave. (Callbacks
    with different outcomes that overtake each other between reading and saving may
    still replace one verdict by another: [racing_callbacks_overwrite]. The promotion
    of the fake scanner saves into the store beside the orchestrator.) *)
Theorem scan_verdict_sound_final (o : Orchestrator) cs ts o' j r :
  orch_inv o → (∀ j, scan_of o j = None) → interleaved o cs ts o' → scan_of o' j = Some r →
  (∀ outcome, scan_outcome r = Some outcome →
     scan_state r = outcomeState outcome ∧
     ∃ now cb, HandleCallback now cb ∈ cs ∧ callback_authentic cb = true ∧
       callback_outcome cb = outcome ∧ callback_scanJobId cb = j ∧ callback_workspaceId cb = scan_workspaceId r) ∧
  (scan_outcome r = None → scan_state r = scan_queued ∨ scan_state r = scanning) ∧
  (ts = [] → is_Some (scan_outcome r) →
   ∀ cs' ts' o'', interleaved o' cs' ts' o'' → scan_of o'' j = Some r).
Proof.
  intros Ho He Hi Hr. destruct (interleaved_sound _ _ _ _ Ho He Hi) as (Ho' & Hj & _).
  pose proof (scan_lookup_job _ _ _ Ho' Hr) as Hjob. specialize (Hj j r Hr). split_and!.
  - intros v Hv. destruct Hj as [[? _]|(c & Hc & now & cb & -> & Ha & Hcj & Hcw & Hco & Hcs)]; [congruence|].
    rewrite Hv in Hco. injection Hco as ->. split; [done|]. exists now, cb. split_and!; [done..|congruence|done].
  - intros Hn. destruct Hj as [[_ ?]|(c & _ & now & cb & _ & _ & _ & _ & Hco & _)]; [done|congruence].
  - intros _ [v Hv] cs' ts' o'' Hi'. apply (interleaved_final j r o' cs' ts' o''); [|done..].
    destruct Hj as [[? _]|(c & _ & now & cb & _ & _ & _ & _ & _ & ->)]; [congruence|]. by destruct (callback_outcome cb).
Qed.
End Verdicts.

(** ** Public status *)

(** Source: packages/protocol/src/index.ts:528-534 UploadScanStatus *)
Record UploadScanStatus := mkStatus {
  status_uploadId : string;
  status_workspaceId : string;
  status_state : QuarantineScanState;
  status_outcome : option ScanOutcome;
  status_updatedAt : string;
}.

(** The own properties of the object: [outcome] is set only when defined. *)
Definition status_keys (st : UploadScanStatus) : list string :=
  ["uploadId"; "workspaceId"; "state"; "updatedAt"] ++
  match status_outcome st with Some _ => ["outcome"] | None => [] end.

(** Source: packages/operations/src/quarantine-scan.ts:90-98 forbiddenPublicKeys *)
Definition forbiddenPublicKeys : list string :=
  ["scanJobId"; "storageKey"; "bucket"; "provider"; "engine"; "url"; "callback"].

(** Source: packages/operations/src/quarantine-scan.ts:100-114 toUploadScanStatus *)
Definition toUploadScanStatus (r : QuarantineScanRecord) : result string UploadScanStatus :=
  let status := mkStatus (scan_uploadId r) (scan_workspaceId r) (scan_state r) (scan_outcome r)
    (scan_updatedAt r) in
  match List.find (array_includes (status_keys status)) forbiddenPublicKeys with
  | Some key => Err ("Public scan status must not expose " +:+ key)
  | None => Ok status
  end.

(** The forbidden-key check never fires: a public status has only public fields. *)
Lemma toUploadScanStatus_total r :
  toUploadScanStatus r = Ok (mkStatus (scan_uploadId r) (scan_workspaceId r) (scan_state r)
    (scan_outcome r) (scan_updatedAt r)).
Proof. unfold toUploadScanStatus. by destruct (scan_outcome r). Qed.

(** ** Promotion *)

(** Source: packages/operations/src/promote-quarantine.ts:10-19 PromoteQuarantineInput *)
Record PromoteQuarantineInput := mkPromote {
  promote_workspaceId : string;
  promote_quarantine : string;
  promote_canonical : string;
  promote_sha256 : string;
  promote_byteLength : jsnum;
  promote_mediaType : string;
  promote_scanState : QuarantineScanState;
}.

Section Promotion.
Context {S : Type} `{Crypto} `{ObjectStorage S}.

(** [head.sha256 && head.sha256 !== sha256] *)
Definition digest_differs (recorded : option string) (sha : string) : bool :=
  truthy recorded && (recorded !== Some sha).

(** Source: packages/operations/src/promote-quarantine.ts:25-88 promoteQuarantineObject *)
Definition promoteQuarantineObject (input : PromoteQuarantineInput) : M S storage_exn ObjectMetadata :=
  throw_when ((promote_scanState input !== accepted) && (promote_scanState input !== promotion_pending))
    (StorageError invalid_request) ≫= λ _,
  exists_ (promote_canonical input) ≫= λ present : bool,
  if present then
    head (promote_canonical input) ≫= λ existing,
    if (JInt (metadata_byteLength existing) === promote_byteLength input) &&
       (metadata_sha256 existing === Some (promote_sha256 input))
    then mret existing
    else throw (StorageError conflict)
  else
    exists_ (promote_quarantine input) ≫= λ found : bool,
    throw_when (negb found) (StorageError not_found) ≫= λ _,
    head (promote_quarantine input) ≫= λ source,
    throw_when ((JInt (metadata_byteLength source) !== promote_byteLength input) ||
                digest_differs (metadata_sha256 source) (promote_sha256 input))
      (StorageError invalid_request) ≫= λ _,
    throw_when (negb (includes (promote_quarantine input) "/temporary/"))
      (StorageError invalid_request) ≫= λ _,
    commitImmutable (mkCommit (promote_quarantine input) (promote_workspaceId input)
      (promote_sha256 input) (promote_byteLength input) (promote_mediaType input)) ≫= λ committed,
    if (metadata_sha256 committed === Some (promote_sha256 input)) &&
       (JInt (metadata_byteLength committed) === promote_byteLength input)
    then mret committed
    else throw (StorageError conflict).
End Promotion.

Section PromotionTheorem.
Context {S : Type} `{ObjectStorageLaws S}.

(** The bytes of the declaration are stored under [key]. *)
Definition holds_declared (s : S) (key : string) (input : PromoteQuarantineInput) : Prop :=
  ∃ b m, stored s key b m ∧ sha256 b = promote_sha256 input ∧
         JInt (byteLength b) = promote_byteLength input.

Lemma exists_run {B} key (f : bool → M S storage_exn B) s :
  ∃ r, (exists_ key ≫= f) s = f r s ∧ (r = true ↔ ∃ b m, stored s key b m).
Proof.
  destruct (exists_law s key) as (r & HR & Hr). exists r. split; [|done].
  by rewrite (bind_Ok_run _ _ _ _ _ HR).
Qed.

Lemma promote_Ok input s md s' :
  storage_inv s → promoteQuarantineObject input s = (Ok md, s') →
  (promote_scanState input = accepted ∨ promote_scanState input = promotion_pending) ∧
  storage_inv s' ∧ holds_declared s' (metadata_key md) input ∧
  (metadata_key md = promote_canonical input ∨
   canonicalObjectKey (promote_workspaceId input) (promote_sha256 input) = Ok (metadata_key md)) ∧
  (∀ k b m, TEMPORARY_KEY_PATTERN k = false → stored s k b m → stored s' k b m).
Proof.
  intros Hs. unfold promoteQuarantineObject. run.
  destruct (_ && _) eqn:Hstate; [done|]. apply andb_false_iff in Hstate. rewrite !negb_false_iff in Hstate.
  rewrite !bool_decide_eq_true in Hstate. intros HR. split; [done|]. revert HR.
  match goal with |- context [(exists_ ?k ≫= ?f) s] =>
    destruct (exists_run k f s) as (present & -> & _) end.
  destruct present.
  - intros HR. apply M_bind_Ok in HR as (ex & s1 & Hhead & HR).
    destruct (head_law _ _ _ _ Hhead Hs) as (-> & Hkey & b & m & Hst & Hlen & _ & Hsha).
    case_match eqn:HG; [|done]. to_prop. run_inv.
    split_and!; [done| |by left|done]. exists b, m. by split_and!; [rewrite Hkey|congruence..].
  - match goal with |- context [(exists_ ?k ≫= ?f) s] =>
      destruct (exists_run k f s) as (found & -> & _) end. run.
    destruct found; [|done]. cbn [negb]. intros HR.
    apply M_bind_Ok in HR as (src & s1 & Hhead & HR).
    destruct (head_law _ _ _ _ Hhead Hs) as (-> & _). run_in HR.
    destruct (_ || _); [done|]. destruct (negb _); [done|].
    apply M_bind_Ok in HR as (md' & s1 & Hc & HR).
    destruct (commitImmutable_law _ _ _ _ Hs Hc)
      as (Hs' & Hkey & Hsha & Hlen & (b & m & Hst & Hb & Hbl) & Htmp & Hkeep & _).
    case_match eqn:HG; [|done]. run_inv. simpl in *.
    split_and!; [done| |by right|].
    + exists b, m. by split_and!; [| |congruence].
    + intros k b' m' Hk. apply Hkeep. intros ->. congruence.
Qed.

(** Promotion is sound against any storage provider: it succeeds only for
    an accepted scan, the metadata it returns names a key under which bytes of
    the declared digest and length are stored, no committed object is changed,
    and when the allocated locator is the canonical key a repeated promotion
    succeeds again without touching the store. *)
Theorem promotion_sound input s md s' :
  storage_inv s → promoteQuarantineObject input s = (Ok md, s') →
  (promote_scanState input = accepted ∨ promote_scanState input = promotion_pending) ∧
  holds_declared s' (metadata_key md) input ∧
  (∀ k b m, TEMPORARY_KEY_PATTERN k = false → stored s k b m → stored s' k b m) ∧
  (canonicalObjectKey (promote_workspaceId input) (promote_sha256 input) = Ok (promote_canonical input) →
   metadata_key md = promote_canonical input ∧
   ∃ md', promoteQuarantineObject input s' = (Ok md', s') ∧
          metadata_key md' = promote_canonical input).
Proof.
  intros Hs HR. destruct (promote_Ok _ _ _ _ Hs HR) as (Hst & Hs' & Hold & Hkey & Hkeep).
  split_and!; [done..|]. intros Hcan.
  assert (metadata_key md = promote_canonical input) as Hmd by (destruct Hkey; congruence).
  split; [done|]. rewrite Hmd in Hold. destruct Hold as (b & m & Hb & Hsha & Hlen).
  destruct (head_total _ _ _ _ Hb) as [md' Hhead].
  destruct (head_law _ _ _ _ Hhead Hs') as (_ & Hk' & b' & m' & Hb' & Hlen' & _ & Hsha').
  destruct (stored_functional _ _ _ _ _ _ Hb Hb') as [<- <-].
  exists md'. split; [|done]. unfold promoteQuarantineObject. run.
  match goal with |- context [if ?c then _ else _] =>
    replace c with false by (destruct Hst as [-> | ->]; reflexivity) end.
  match goal with |- context [(exists_ ?k ≫= ?f) s'] =>
    destruct (exists_run k f s') as (present & -> & Hp) end.
  destruct present; [|by assert (false = true) by (apply Hp; eauto)].
  rewrite (bind_Ok_run _ _ _ _ _ Hhead). rewrite Hlen', Hsha', Hsha, Hlen. by guards.
Qed.
End PromotionTheorem.

(** ** The store over any sequence of saves *)

Definition run_saves (rs : list QuarantineScanRecord) (s : InMemoryScans) : InMemoryScans :=
  fold_left (λ s r, snd (scans_save r s)) rs s.

Lemma scans_save_step r s :
  scans_ok s →
  scans_ok (snd (scans_save r s)) ∧
  ∀ j e, map_get j s = Some e →
    ∃ e', map_get j (snd (scans_save r s)) = Some e' ∧ same_identity e e'.
Proof.
  intros Hs. destruct (scans_save r s) as [res s'] eqn:HR.
  destruct (@save_law _ _ in_memory_scan_store_laws s r res s' Hs HR) as [Hs' Hres]. split; [done|].
  intros j e He. simpl in *. destruct res as [[]|x]; [destruct Hres as [Hl Hid]|]; rewrite ?Hres.
  - rewrite Hl. destruct (decide (j = scan_jobId r)) as [->|Hj].
    + rewrite strict_eq_refl. eauto.
    + rewrite bool_decide_eq_false_2 by done. exists e. by unfold same_identity.
  - exists e. by unfold same_identity.
Qed.

(** The scan store keeps identities: whatever records are saved, in any
    order, a stored job keeps its workspace, upload, object and creation time,
    and no upload of a workspace ever has two scan jobs. *)
Theorem scan_identity_immutable rs rs' j r :
  map_get j (run_saves rs []) = Some r →
  (∃ r', map_get j (run_saves rs' (run_saves rs [])) = Some r' ∧ same_identity r r') ∧
  (∀ j2 r2, map_get j2 (run_saves rs []) = Some r2 →
     scan_workspaceId r2 = scan_workspaceId r → scan_uploadId r2 = scan_uploadId r → j2 = j).
Proof.
  intros Hr.
  assert (∀ l s, scans_ok s → scans_ok (run_saves l s) ∧
    ∀ j e, map_get j s = Some e → ∃ e', map_get j (run_saves l s) = Some e' ∧ same_identity e e') as Hrun.
  { intros l. induction l as [|x l IH]; intros s Hs.
    - split; [done|]. intros j0 e He. exists e. by unfold same_identity.
    - destruct (scans_save_step x s Hs) as [Hs1 Hk1]. destruct (IH _ Hs1) as [Hs2 Hk2].
      split; [done|]. intros j0 e He. destruct (Hk1 _ _ He) as (e1 & He1 & ?).
      destruct (Hk2 _ _ He1) as (e2 & ? & ?). exists e2. split; [done|]. by eapply same_identity_trans. }
  assert (scans_ok []) as H0.
  { split; [constructor|]. split; [by intros ?? ?%elem_of_nil|by intros ???? ?%elem_of_nil]. }
  destruct (Hrun rs [] H0) as [Hs _]. split; [by apply (Hrun rs' _ Hs)|].
  intros j2 r2 H2 Hw Hu. destruct Hs as (_ & _ & Huniq).
  eapply Huniq; [by apply map_get_elem|by apply map_get_elem|done|done].
Qed.

(** ** Witnesses and findings *)

Module QuarantineWitness.
Definition fresh : QuarantineScanOrchestrator InMemoryScans := mkOrchestrator [] [].
Definition queue : scan_call := QueueUploaded "1" "2" "3" (Ok tt) "job-1" "ws-1" "up-1" "workspaces/ws-1/temporary/op-1".
Definition callback (w : string) (o : ScanOutcome) : ScanCallback := mkCallback "job-1" w o None true.
Definition verdict (o : ScanOutcome) : scan_call := HandleCallback "4" (callback "ws-1" o).
Definition record (st : QuarantineScanState) (o : option ScanOutcome) (t : string) : QuarantineScanRecord :=
  mkScan "job-1" "ws-1" "up-1" "workspaces/ws-1/temporary/op-1" st o "1" t.

Lemma empty_ok : scans_ok [].
Proof. split; [constructor|]. split; [by intros ?? ?%elem_of_nil|by intros ???? ?%elem_of_nil]. Qed.

(** A schedule of calls and of steps of the call in front. *)
Definition run_alone (c : scan_call) (o : QuarantineScanOrchestrator InMemoryScans) := (run_task 5 (start_of c) o).2.
Lemma interleaved_alone o0 cs c o :
  interleaved o0 cs [] o → interleaved o0 (cs ++ [c]) [] (run_alone c o).
Proof.
  intros Hi. apply (il_call o0 cs [] o c) in Hi. unfold run_alone. cbn [app] in Hi. revert o Hi.
  assert (∀ fuel t o, (run_task fuel t o).1 ≠ Ok None → interleaved o0 (cs ++ [c]) [t] o →
    interleaved o0 (cs ++ [c]) [] (run_task fuel t o).2) as Hrun.
  { induction fuel as [|fuel IH]; intros t o Hok Hi; [done|]. cbn [run_task] in *. unfold mbind, M_bind in *.
    destruct (step_task t o) as [[[r|t']|e] o'] eqn:Es.
    - by apply (il_end o0 _ [] t [] o (Ok (inl r)) o').
    - apply IH; [done|]. by apply (il_step o0 _ [] t [] o t' o').
    - by apply (il_end o0 _ [] t [] o (Err e) o'). }
  intros o Hi. apply Hrun; [|done]. rewrite task_alone. unfold mbind, M_bind.
  by destruct (call_alone c o) as [[r|e] o'].
Qed.

Lemma scan_verdict_sound_final_witness :
  map_get "job-1" (scan_store (run_alone queue (run_alone (verdict clean) (run_alone (verdict malicious) (run_alone queue fresh))))) =
    Some (record rejected (Some malicious) "4").
Proof.
  refine (proj2 (proj2 (scan_verdict_sound_final fresh [queue; verdict malicious] [] (run_alone (verdict malicious) (run_alone queue fresh))
    "job-1" (record rejected (Some malicious) "4") _ _ _ _)) eq_refl _ [verdict clean; queue] []
    (run_alone queue (run_alone (verdict clean) (run_alone (verdict malicious) (run_alone queue fresh)))) _).
  - apply empty_ok.
  - intros j. reflexivity.
  - apply (interleaved_alone fresh [queue] (verdict malicious)), (interleaved_alone fresh [] queue), il_init.
  - vm_compute. reflexivity.
  - by eexists.
  - apply (interleaved_alone _ [verdict clean] queue), (interleaved_alone _ [] (verdict clean)), il_init.
Defined.

(** Two callbacks that both read the job while it is being scanned: the verdict
    saved last stands, and a malicious upload is accepted. *)
Definition read_scanning (o : ScanOutcome) : scan_task := CallbackFound "4" (callback "ws-1" o) (Some (record scanning None "3")).
Definition racing : QuarantineScanOrchestrator InMemoryScans :=
  let queued := run_alone queue fresh in
  let rejected_first := (run_task 2 (read_scanning malicious) queued).2 in
  (run_task 2 (read_scanning clean) rejected_first).2.
Example racing_callbacks_overwrite :
  let queued := run_alone queue fresh in
  (step_task (CallbackRead "4" (callback "ws-1" malicious)) queued).1 = Ok (inr (read_scanning malicious)) ∧
  (step_task (CallbackRead "4" (callback "ws-1" clean)) queued).1 = Ok (inr (read_scanning clean)) ∧
  (run_task 2 (read_scanning malicious) queued).1 = Ok (Some (record rejected (Some malicious) "4")) ∧
  map_get "job-1" (scan_store racing) = Some (record accepted (Some clean) "4").
Proof. vm_compute. done. Qed.

Lemma scan_identity_immutable_witness :
  ∃ r', map_get "job-1" (run_saves [record failed None "9"] (run_saves [record scanning None "3"] [])) = Some r'
    ∧ same_identity (record scanning None "3") r'.
Proof.
  apply (scan_identity_immutable [record scanning None "3"] [record failed None "9"] "job-1").
  vm_compute. reflexivity.
Defined.

(** A provider whose [save] fails once, then works. *)
Record FlakyScans := mkFlaky { flaky_down : bool; flaky_scans : InMemoryScans }.
#[local] Instance flaky_store : QuarantineScanStore FlakyScans := {|
  getByUploadId w u s := let '(r, t) := scans_getByUploadId w u (flaky_scans s) in (r, mkFlaky (flaky_down s) t);
  getByScanJobId w j s := let '(r, t) := scans_getByScanJobId w j (flaky_scans s) in (r, mkFlaky (flaky_down s) t);
  save x s :=
    if flaky_down s then (Err (ProviderFailure "connection reset"), mkFlaky false (flaky_scans s))
    else let '(r, t) := scans_save x (flaky_scans s) in (r, mkFlaky false t);
|}.
Definition waiting : QuarantineScanOrchestrator FlakyScans :=
  mkOrchestrator [] (mkFlaky true [("job-1", record scanning None "3")]).

(** A callback whose save fails is marked processed all the same: redelivered,
    it is acknowledged with the record still scanning and no verdict recorded,
    now and on every later delivery. *)
Theorem failed_save_swallows_verdict :
  let '(first, o1) := handleCallback "4" (callback "ws-1" malicious) waiting in
  let '(second, o2) := handleCallback "5" (callback "ws-1" malicious) o1 in
  first = Err (ProviderFailure "connection reset") ∧
  second = Ok (record scanning None "3") ∧
  handleCallback "6" (callback "ws-1" malicious) o2 = (second, o2).
Proof. vm_compute. done. Qed.

(** A job whose submission to the scanner failed stays queued: queueing it
    again returns the record without submitting, and no callback is accepted. *)
Theorem failed_submit_strands_job :
  let o1 := snd (queueUploaded "1" "2" "3" (Err (ProviderFailure "scanner down")) "job-1" "ws-1" "up-1" "k" fresh) in
  let again := queueUploaded "7" "8" "9" (Err (ProviderFailure "not called")) "job-1" "ws-1" "up-1" "k" o1 in
  again = (Ok (mkScan "job-1" "ws-1" "up-1" "k" scan_queued None "1" "2"), o1) ∧
  fst (handleCallback "9" (callback "ws-1" clean) o1) = Err (InvalidQuarantineTransition scan_queued accepted).
Proof. vm_compute. done. Qed.

Import MemoryWitness.
Definition quarantined_bytes : MemoryObjectStorage :=
  run_calls [WriteTemporary tmp ["trusted bytes"] "text/plain"] (mem_init true).
Definition promotion (canonical : string) : PromoteQuarantineInput :=
  mkPromote "ws-1" tmp canonical digest (JInt 13) "text/plain" accepted.

Lemma promotion_sound_witness :
  let '(r, s') := promoteQuarantineObject (promotion key) quarantined_bytes in
  r = Ok (mkMetadata key 13 "text/plain" (Some digest)) ∧ holds_declared s' key (promotion key).
Proof.
  destruct (promoteQuarantineObject (promotion key) quarantined_bytes) as [r s'] eqn:HR.
  assert (r = Ok (mkMetadata key 13 "text/plain" (Some digest))) as ->
    by (vm_compute in HR; injection HR as <- _; reflexivity).
  split; [reflexivity|].
  apply (promotion_sound (promotion key) quarantined_bytes (mkMetadata key 13 "text/plain" (Some digest)) s').
  - apply (mem_steps_le (mem_init true)); [apply mem_inv_init|apply run_calls_steps].
  - exact HR.
Defined.

(** Promotion to a locator that was allocated elsewhere reports success, and
    leaves that locator empty: the key of the committed object is not compared
    with the allocated one. *)
Theorem promotion_ignores_allocated_locator :
  let other := "workspaces/ws-1/objects/zz/allocated" in
  let '(r, s') := promoteQuarantineObject (promotion other) quarantined_bytes in
  is_Ok r = true ∧ mem_objects s' !! other = None.
Proof. vm_compute. done. Qed.
End QuarantineWitness.
