(* ===== verification/TransferGrants.v ===== *)
(** * packages/operations, transfer-grants.ts: time-bounded transfer grants

    [TransferGrantService.issue]: workspace and object checks, the policy
    decision, the download gate, the lifetime cap, the signer and the audit
    record.  The signer and the audit sink are arguments; the audit log is the
    state.  Messages of [GrantDeniedError] are left out, its codes are kept.
    The theorems: every issued grant was authorised, is for a downloadable
    object, expires within the configured maximum and is audited; a request
    that fails a check never reaches the signer; a download's file name is
    harmless in a header. *)
From S2P Require Import Prelude Js Concrete Policy Quarantine.

(** Source: packages/operations/src/transfer-grants.ts:6-6 TransferGrantOperation *)
Inductive TransferGrantOperation := upload | download.
#[global] Instance TransferGrantOperation_eq_dec : EqDecision TransferGrantOperation.
Proof. solve_decision. Defined.

Definition operation_name (o : TransferGrantOperation) : string :=
  match o with upload => "upload" | download => "download" end.

(** Source: packages/operations/src/transfer-grants.ts:13-24 TransferTarget *)
Record TransferTarget := mkTarget {
  target_workspaceId : string;
  target_objectId : string;
  target_storageKey : string;
  target_mediaType : option string;
  target_expectedSha256 : option string;
  target_expectedByteLength : option Z;
  target_downloadable : bool;
  target_quarantineState : option string;
}.

(** Source: packages/operations/src/transfer-grants.ts:26-37 ClientTransferGrant *)
Record ClientTransferGrant := mkClientGrant {
  client_grantId : string;
  client_operation : TransferGrantOperation;
  client_objectId : string;
  client_workspaceId : string;
  client_expiresAt : string;
  client_method : string;
  client_url : string;
  client_headers : list (string * string);
}.

(** Source: packages/operations/src/transfer-grants.ts:39-51 TransferSigner *)
Record TransferSigner := mkSigner {
  signUpload : string → string → option string → option Z → result string (string * list (string * string));
  signDownload : string → string → option string → result string (string * list (string * string));
}.

(** A value in audit metadata; a lifetime is kept in milliseconds. *)
Inductive audit_value := audit_text (s : string) | audit_seconds (millis : Z).

(** Source: packages/operations/src/transfer-grants.ts:53-63 GrantAuditSink *)
Record GrantAudit := mkGrantAudit {
  audit_action : string;
  audit_actorId : string;
  audit_workspaceId : string;
  audit_subjectId : string;
  audit_requestId : string;
  audit_correlationId : string;
  audit_metadata : list (string * audit_value);
}.

(** Source: packages/operations/src/transfer-grants.ts:65-79 IssueTransferGrantInput *)
Record IssueTransferGrantInput := mkIssue {
  issue_actorId : string;
  issue_workspaceId : string;
  issue_operation : TransferGrantOperation;
  issue_target : TransferTarget;
  issue_requestedTtlSeconds : jsnum;
  issue_requestId : string;
  issue_correlationId : string;
  issue_fileName : option string;
  issue_signer : option TransferSigner;
  issue_policyInput : PolicyEvaluationInput;
}.

Inductive grant_exn :=
  | GrantDeniedError (code : string)
  | ConfigurationError
  | RangeError
  | AuditFailure.
#[global] Instance grant_exn_eq_dec : EqDecision grant_exn.
Proof. solve_decision. Defined.

(** Source: packages/operations/src/transfer-grants.ts:81-90 BLOCKED_DOWNLOAD_STATES *)
Definition BLOCKED_DOWNLOAD_STATES : list string :=
  ["pending_upload"; "uploaded"; "scan_queued"; "scanning"; "rejected"; "manual_review";
   "quarantined"; "failed"].

(** Source: packages/operations/src/transfer-grants.ts:276-282 looksLikeClientKeyInjection *)
Definition looksLikeClientKeyInjection (objectId : string) : bool :=
  includes objectId "/" || includes (toLowerCase objectId) "workspaces/" || includes objectId "..".

(** [[\w.\- ()[\]]]: what a file name keeps. *)
Definition file_name_char (c : ascii) : bool :=
  is_lower c || is_upper c || is_digit c ||
  array_includes ["_"; "."; "-"; " "; "("; ")"; "["; "]"]%char c.

(** A run of other characters becomes one underscore. *)
Fixpoint replace_runs (in_run : bool) (s : string) : string :=
  match s with
  | EmptyString => EmptyString
  | String c s' =>
      if file_name_char c then String c (replace_runs false s')
      else if in_run then replace_runs true s' else String "_" (replace_runs true s')
  end.

(** Source: packages/operations/src/transfer-grants.ts:284-286 sanitizeFileName *)
Definition sanitizeFileName (fileName : string) : string := slice0 180 (replace_runs false fileName).

(** Source: packages/operations/src/transfer-grants.ts:92-104 constructor *)
Definition newTransferGrantService (maxTtlSeconds : jsnum) : result grant_exn Z :=
  if negb (isSafeInteger maxTtlSeconds) || jle maxTtlSeconds 0 then Err ConfigurationError
  else match maxTtlSeconds with JInt z => Ok z | _ => Err ConfigurationError end.

(** [Math.min(requested, max) * 1000], in whole milliseconds; [None] is [NaN].
    [fraction] is the milliseconds of the fractional second of a number that
    is not an integer. *)
Definition ttl_millis (requested : jsnum) (fraction max : Z) : option Z :=
  match requested with
  | JInt z => Some (Z.min z max * 1000)%Z
  | JFrac f => Some (if Z.ltb f max then f * 1000 + fraction else max * 1000)%Z
  | JInf negative => Some (if negative then 0 else max * 1000)%Z
  | JNaN => None
  end.

Section Issue.
Context `{JsDate}.

(** [new Date(now + ttl).toISOString()] *)
Definition expiry (now : Z) (ttl : option Z) : result grant_exn string :=
  match ttl with
  | None => Err RangeError
  | Some ms =>
      if bool_decide (valid_time (now + ms)) then Ok (toISOString (now + ms)) else Err RangeError
  end.

Definition policy_request (input : IssueTransferGrantInput) : PolicyEvaluationInput :=
  let p := issue_policyInput input in
  mkPolicyInput (input_principal p)
    (if issue_operation input === upload then object_ingest else blob_read)
    (mkScope (issue_workspaceId input) (scope_datasetId (input_scope p))
       (scope_applicationId (input_scope p)))
    (input_assignments p) (input_applications p) (input_breakGlassGrants p) (input_at p).

Definition denial_name (d : PolicyDecision) : string :=
  match d with
  | Denied unknown_action => "unknown_action"
  | Denied unregistered_application => "unregistered_application"
  | Denied application_capability_denied => "application_capability_denied"
  | Denied no_matching_assignment => "no_matching_assignment"
  | _ => ""
  end.

Definition audit_entry (input : IssueTransferGrantInput) (action : string)
    (metadata : list (string * audit_value)) : GrantAudit :=
  mkGrantAudit (action +:+ operation_name (issue_operation input)) (issue_actorId input)
    (issue_workspaceId input) (target_objectId (issue_target input)) (issue_requestId input)
    (issue_correlationId input) metadata.

(** [await this.audit.record(entry)] *)
Definition record_audit (sink : GrantAudit → bool) (entry : GrantAudit)
    : M (list GrantAudit) grant_exn unit :=
  throw_when (negb (sink entry)) AuditFailure ≫= λ _, modify (λ log, log ++ [entry])%list.

(** The signed request of the operation. *)
Definition sign (signer : TransferSigner) (input : IssueTransferGrantInput) (expiresAt : string)
    : result grant_exn (string * (string * list (string * string))) :=
  let target := issue_target input in
  let '(method, signed) :=
    if issue_operation input === upload
    then ("PUT", signUpload signer (target_storageKey target) expiresAt
                   (if truthy (target_mediaType target) then target_mediaType target else None)
                   (target_expectedByteLength target))
    else ("GET", signDownload signer (target_storageKey target) expiresAt
                   (if truthy (issue_fileName input) then sanitizeFileName <$> issue_fileName input
                    else None)) in
  match signed with
  | Ok s => Ok (method, s)
  | Err _ => Err (GrantDeniedError "signer_failed")
  end.

(** Source: packages/operations/src/transfer-grants.ts:106-232 issue *)
Definition issue (maxTtlSeconds : Z) (platform : TransferSigner) (sink : GrantAudit → bool)
    (clock : string) (now fraction : Z) (grantId : string) (input : IssueTransferGrantInput)
    : M (list GrantAudit) grant_exn ClientTransferGrant :=
  let target := issue_target input in
  throw_when (blank (issue_workspaceId input)) (GrantDeniedError "missing_workspace") ≫= λ _,
  throw_when (target_workspaceId target !== issue_workspaceId input)
    (GrantDeniedError "workspace_mismatch") ≫= λ _,
  throw_when (looksLikeClientKeyInjection (target_objectId target))
    (GrantDeniedError "invalid_object") ≫= λ _,
  let decision := evaluatePolicy clock (policy_request input) in
  (if negb (allowed decision)
   then record_audit sink (audit_entry input "transfer_grant.denied."
          [("reason", audit_text (denial_name decision))]) ≫= λ _,
        throw (GrantDeniedError "policy_denied")
   else mret tt) ≫= λ _,
  throw_when ((issue_operation input === download) &&
              (negb (target_downloadable target) ||
               match target_quarantineState target with
               | Some st => (st !== EmptyString) && array_includes BLOCKED_DOWNLOAD_STATES st
               | None => false
               end)) (GrantDeniedError "not_downloadable") ≫= λ _,
  let ttl := ttl_millis (issue_requestedTtlSeconds input) fraction maxTtlSeconds in
  throw_when (jle (issue_requestedTtlSeconds input) 0) (GrantDeniedError "invalid_ttl") ≫= λ _,
  lift (expiry now ttl) ≫= λ expiresAt,
  lift (sign (default platform (issue_signer input)) input expiresAt) ≫= λ '(method, (url, headers)),
  record_audit sink (audit_entry input "transfer_grant.issued."
    [("grantId", audit_text grantId); ("ttlSeconds", audit_seconds (default 0%Z ttl));
     ("expiresAt", audit_text expiresAt)]) ≫= λ _,
  mret (mkClientGrant grantId (issue_operation input) (target_objectId target)
          (issue_workspaceId input) expiresAt method url headers).
End Issue.

(** ** Theorems *)

Lemma replace_runs_chars b s : forallb file_name_char (chars (replace_runs b s)) = true.
Proof.
  revert b. induction s as [|c s IH]; intros b; simpl; [done|].
  destruct (file_name_char c) eqn:E; [simpl; by rewrite E, IH|]. destruct b; [apply IH|]. simpl. apply IH.
Qed.

Lemma slice0_forallb p n s : forallb p (chars s) = true → forallb p (chars (slice0 n s)) = true.
Proof.
  unfold slice0. revert n. induction s as [|c s IH]; intros [|n]; simpl; try done.
  intros [-> Hs]%andb_true_iff. by apply IH.
Qed.

Lemma slice0_length_le n s : String.length (slice0 n s) ≤ n.
Proof.
  unfold slice0. revert n. induction s as [|c s IH]; intros [|n]; simpl; try lia.
  apply le_n_S, IH.
Qed.

(** A sanitised file name has at most 180 characters, all of them letters,
    digits, spaces or one of [_.-()[]], so it cannot close the quoted
    [content-disposition] value, start another header or name a path; a name
    that already is such a name is kept. *)
Theorem sanitizeFileName_safe fileName :
  String.length (sanitizeFileName fileName) ≤ 180 ∧
  (∀ c, c ∈ chars (sanitizeFileName fileName) → file_name_char c = true) ∧
  (∀ c, c ∈ ["/"; ascii_of_nat 34; ascii_of_nat 13; ascii_of_nat 10; "\"; ";"]%char →
     c ∉ chars (sanitizeFileName fileName)) ∧
  (String.length fileName ≤ 180 → (∀ c, c ∈ chars fileName → file_name_char c = true) →
     sanitizeFileName fileName = fileName).
Proof.
  assert (∀ c, c ∈ chars (sanitizeFileName fileName) → file_name_char c = true) as Hall.
  { apply forallb_elem. apply slice0_forallb, replace_runs_chars. }
  split_and!; [apply slice0_length_le|done| |].
  - intros c Hc Hin. apply Hall in Hin. revert Hin.
    repeat (apply elem_of_cons in Hc as [->|Hc]; [by vm_compute|]). by apply elem_of_nil in Hc.
  - intros Hlen Hok%forallb_elem. unfold sanitizeFileName.
    assert (∀ b, replace_runs b fileName = fileName) as ->.
    { clear -Hok. induction fileName as [|c s IH]; intros b; simpl in *; [done|].
      apply andb_true_iff in Hok as [-> Hs]. by rewrite IH. }
    clear -Hlen. unfold slice0. revert Hlen. generalize 180. induction fileName as [|c s IH]; intros [|n]; simpl;
      intros; try done; [lia|]. rewrite IH; [done|lia].
Qed.

Section Grants.
Context `{JsDateLaws}.

Lemma expiry_Ok now ttl e :
  expiry now ttl = Ok e ↔ ∃ ms, ttl = Some ms ∧ valid_time (now + ms) ∧ e = toISOString (now + ms).
Proof. unfold expiry. destruct ttl as [ms|]; [case_bool_decide|]; naive_solver. Qed.

Lemma ttl_millis_bounds requested fraction max ms :
  (0 < max)%Z → (0 <= fraction < 1000)%Z → jle requested 0 = false →
  ttl_millis requested fraction max = Some ms → (0 <= ms <= max * 1000)%Z.
Proof.
  intros Hmax Hf Hpos. destruct requested as [z|f|n|]; simpl in *; intros [= <-].
  - lia.
  - destruct (f <? max)%Z eqn:E; lia.
  - destruct n; [done|lia].
Qed.

Definition download_permitted (t : TransferTarget) : Prop :=
  target_downloadable t = true ∧
  ∀ st, target_quarantineState t = Some (scan_state_name st) →
    st = accepted ∨ st = promotion_pending ∨ st = promoted.

(** The blocked states are all those in which an upload is not accepted. *)
Lemma unblocked_states st :
  scan_state_name st ∉ BLOCKED_DOWNLOAD_STATES → st = accepted ∨ st = promotion_pending ∨ st = promoted.
Proof.
  intros Hst. destruct st; auto; exfalso; apply Hst; apply (bool_decide_unpack _); vm_compute; exact I.
Qed.

(** C8. Every issued grant is authorised, scoped and short-lived: the policy
    allowed the operation's action in the request's own workspace, which is the
    target's; the object id is not a storage path; a download is of a
    downloadable object whose scan, if it has one, was accepted; it expires no later
    than the configured maximum from now; and before the caller gets it, one entry
    is added to the audit log, which names the actor, the workspace, the object and
    the request, and of the grant its identifier, its lifetime and its expiry and
    nothing else: neither its URL nor its headers. *)
Theorem issued_grant_sound max platform sink clock now fraction grantId input log g log' :
  (0 < max)%Z → (0 <= fraction < 1000)%Z →
  issue max platform sink clock now fraction grantId input log = (Ok g, log') →
  let target := issue_target input in
  allowed (evaluatePolicy clock (policy_request input)) = true ∧
  client_workspaceId g = issue_workspaceId input ∧ target_workspaceId target = issue_workspaceId input ∧
  client_objectId g = target_objectId target ∧ looksLikeClientKeyInjection (client_objectId g) = false ∧
  (issue_operation input = download → download_permitted target) ∧
  (∃ ms, (0 <= ms <= max * 1000)%Z ∧ Date_parse (client_expiresAt g) = Some (now + ms)%Z ∧
     log' = log ++ [mkGrantAudit ("transfer_grant.issued." +:+ operation_name (issue_operation input)) (issue_actorId input)
       (issue_workspaceId input) (client_objectId g) (issue_requestId input) (issue_correlationId input)
       [("grantId", audit_text (client_grantId g)); ("ttlSeconds", audit_seconds ms); ("expiresAt", audit_text (client_expiresAt g))]]).
Proof.
  intros Hmax Hfrac. unfold issue, record_audit. run.
  destruct (blank _); [done|]. destruct (_ !== _) eqn:Hws; [done|].
  destruct (looksLikeClientKeyInjection _) eqn:Hobj; [done|].
  destruct (allowed _) eqn:Hallow; cbn [negb];
    [|run; destruct (sink _); cbn [negb]; run; intros HR; discriminate HR].
  run. destruct ((issue_operation input === download) && _) eqn:Hdl; [done|].
  destruct (jle _ 0) eqn:Hpos; [done|].
  destruct (expiry now _) as [expiresAt|] eqn:Hexp; [|done]. run.
  destruct (sign _ input expiresAt) as [[method [url headers]]|] eqn:Hsign; [|done]. run.
  destruct (sink _); [|done]. cbn [negb]. run. intros HR. simplify_eq. simpl. to_prop.
  apply expiry_Ok in Hexp as (ms & Httl & Hvalid & ->).
  pose proof (ttl_millis_bounds _ _ _ _ Hmax Hfrac Hpos Httl) as Hms.
  split_and!; try done.
  - intros Hop. rewrite Hop in Hdl. simpl in Hdl. apply orb_false_iff in Hdl as [Hd Hq].
    apply negb_false_iff in Hd. split; [done|]. intros st Hst. rewrite Hst in Hq.
    apply unblocked_states. unfold array_includes in Hq. apply andb_false_iff in Hq as [Hq|Hq].
    + by destruct st.
    + by apply bool_decide_eq_false in Hq.
  - exists ms. split; [lia|]. split; [by apply Date_parse_toISOString|]. by rewrite Httl.
Qed.

(** A refused request never reaches the signer: when the policy denies
    the action, or the object may not be downloaded, the outcome and the audit
    log are the same whatever signer is used, no grant is returned, and a policy
    denial is audited with its reason. *)
Theorem refused_grant_not_signed max p1 p2 sink clock now fraction grantId input log :
  let with_signer p := issue max p sink clock now fraction grantId input log in
  issue_signer input = None →
  allowed (evaluatePolicy clock (policy_request input)) = false ∨
  (issue_operation input = download ∧ target_downloadable (issue_target input) = false) →
  with_signer p1 = with_signer p2 ∧ is_Ok (fst (with_signer p1)) = false ∧
  (fst (with_signer p1) = Err (GrantDeniedError "policy_denied") →
   ∃ entry, snd (with_signer p1) = log ++ [entry] ∧
     audit_metadata entry =
       [("reason", audit_text (denial_name (evaluatePolicy clock (policy_request input))))]).
Proof.
  intros ws Hsigner Href. unfold ws, issue, record_audit. run.
  destruct (blank _); [done|]. destruct (_ !== _) eqn:Hws; [done|].
  destruct (looksLikeClientKeyInjection _) eqn:Hobj; [done|].
  destruct (allowed _) eqn:Hallow; cbn [negb].
  - destruct Href as [|[Hop Hd]]; [done|]. run. rewrite Hop, Hd. done.
  - run. destruct (sink _); cbn [negb]; run; (split; [done|]); split; [done| |done|done].
    intros _. eexists. simpl. done.
Qed.
End Grants.

(** ** Witnesses *)

Module GrantWitness.
Definition editor_policy : PolicyEvaluationInput :=
  mkPolicyInput (mkPrincipal "u-1" principal_user [] []) blob_read (mkScope "elsewhere" None None)
    [mkAssignment "a-1" "ws-1" principal_user "u-1" "editor" scope_workspace "ws-1" None] [] [] None.
Definition signer : TransferSigner :=
  mkSigner (λ k e _ _, Ok ("https://s/" +:+ k, [])) (λ k e _, Ok ("https://s/" +:+ k, [])).
Definition broken : TransferSigner := mkSigner (λ _ _ _ _, Err "down") (λ _ _ _, Err "down").
Definition target (ok : bool) : TransferTarget :=
  mkTarget "ws-1" "asset-1" "workspaces/ws-1/objects/aa/aa" None None None ok (Some "promoted").
Definition download_request (ok : bool) (ttl : jsnum) : IssueTransferGrantInput :=
  mkIssue "u-1" "ws-1" download (target ok) ttl "r-1" "c-1" (Some "report.pdf") None editor_policy.

Definition issued : ClientTransferGrant :=
  mkClientGrant "g-1" download "asset-1" "ws-1" (toISOString 901000)
    "GET" "https://s/workspaces/ws-1/objects/aa/aa" [].

(** An hour is asked for, the server allows 15 minutes. *)
Lemma issued_grant_sound_witness :
  ∃ log', issue 900 signer (λ _, true) "0" 1000 0 "g-1" (download_request true (JInt 3600)) [] = (Ok issued, log') ∧
  ∃ ms, (0 <= ms <= 900 * 1000)%Z ∧ Date_parse (client_expiresAt issued) = Some (1000 + ms)%Z ∧
    map audit_metadata log' = [[("grantId", audit_text "g-1"); ("ttlSeconds", audit_seconds ms);
      ("expiresAt", audit_text (client_expiresAt issued))]].
Proof.
  eexists. split; [vm_compute; reflexivity|].
  edestruct (issued_grant_sound 900 signer (λ _, true) "0" 1000 0 "g-1" (download_request true (JInt 3600)) [])
    as (_ & _ & _ & _ & _ & _ & ms & Hms & Hp & Hlog); [lia|lia|vm_compute; reflexivity|].
  exists ms. split; [exact Hms|]. split; [exact Hp|]. by rewrite Hlog.
Defined.

Lemma refused_grant_not_signed_witness :
  issue 900 signer (λ _, true) "0" 1000 0 "g-1" (download_request false (JInt 60)) [] =
  issue 900 broken (λ _, true) "0" 1000 0 "g-1" (download_request false (JInt 60)) [].
Proof.
  apply (refused_grant_not_signed 900 signer broken (λ _, true) "0" 1000 0 "g-1"
    (download_request false (JInt 60)) []); [reflexivity|]. right. split; reflexivity.
Defined.

(** A lifetime that is not a number passes the positivity check and escapes as
    a [RangeError] of [toISOString] instead of the [invalid_ttl] denial. *)
Theorem nan_ttl_escapes :
  issue 900 signer (λ _, true) "0" 1000 0 "g-1" (download_request true JNaN) [] = (Err RangeError, []).
Proof. vm_compute. done. Qed.
End GrantWitness.
