(* ===== verification/IngestStore.v ===== *)
(** * packages/persistence-postgres: operation-store.ts, blob-catalog.ts, ids.ts

    The tables object ingest writes (operations of type [object.ingest],
    blob_objects, audit_events, outbox_events) and the statements that read and
    write them.  Every public method runs in [inTransaction]: it commits as a
    whole or leaves the tables as they were.  Row-level security is the
    workspace the transaction is scoped to. *)
From S2P Require Import Prelude Js Json AuditChain Core UploadMachine.

(** ** Deterministic identifiers *)

Section Ids.
Context `{Crypto}.

Definition hex_value (c : ascii) : nat :=
  if is_digit c then nat_of_ascii c - 48 else nat_of_ascii c - 87.

(** Source: packages/persistence-postgres/src/ids.ts:3-8 deterministicUuid *)
Definition deterministicUuid (value : string) : string :=
  let hex := chars (slice0 32 (sha256 value)) in
  let hex := <[12 := "4"%char]> hex in
  let hex := <[16 := nth (hex_value (nth 16 hex "0"%char) mod 4) ["8"; "9"; "a"; "b"]%char "8"%char]> hex in
  let part n m := string_of_list_ascii (take m (drop n hex)) in
  part 0 8 +:+ "-" +:+ part 8 4 +:+ "-" +:+ part 12 4 +:+ "-" +:+ part 16 4 +:+ "-" +:+ part 20 12.
End Ids.

(** ** Rows *)

(** Source: packages/operations/src/object-ingest.ts:9-19 ingestCheckpoints *)
Definition ingestCheckpoints : list OperationState :=
  [authorised; temporary_upload_created; bytes_received; hash_verified;
   immutable_object_committed; metadata_committed; audit_committed; completed].

(** The keys the service stores in [context]. *)
Record IngestContext := mkContext {
  ctx_temporaryKey : option string;
  ctx_sha256 : option string;
  ctx_byteLength : option Z;
  ctx_storageKey : option string;
}.
Definition empty_context : IngestContext := mkContext None None None None.

(** The result a completed ingest stores. *)
Record IngestResult := mkIngestResult { result_blob : BlobObject; result_deduplicated : bool }.

(** Source: packages/persistence-postgres/src/operation-store.ts:11-22 OperationRow *)
Record OperationRow := mkOperation {
  op_id : string;
  op_workspaceId : string;
  op_state : OperationState;
  op_requestHash : string;
  op_checkpoints : list OperationState;
  op_context : IngestContext;
  op_result : option IngestResult;
  op_errorCode : option string;
  op_retryCount : Z;
}.

Record AuditRow := mkAuditRow {
  audit_event : ChainedAuditEvent;
  audit_operationId : string;
}.

Record OutboxRow := mkOutbox {
  outbox_id : string;
  outbox_workspaceId : string;
  outbox_operationId : string;
  outbox_eventType : string;
  outbox_payload : json;
}.

Record Database := mkDatabase {
  db_index : gmap (string * string) string; (* (workspace, idempotency key) to operation id *)
  db_operations : gmap string OperationRow;
  db_blobs : gmap (string * string) BlobObject; (* by (workspace, sha256) *)
  db_audit : list AuditRow;
  db_outbox : list OutboxRow;
}.

Inductive db_exn :=
  | OperationUpdateNotApplied
  | OperationNotCreated
  | UniqueViolation.

Abbreviation Db := (M Database db_exn).

Definition set_operations (f : gmap string OperationRow → gmap string OperationRow) (d : Database) : Database :=
  mkDatabase (db_index d) (f (db_operations d)) (db_blobs d) (db_audit d) (db_outbox d).
Definition set_blobs (f : gmap (string * string) BlobObject → gmap (string * string) BlobObject)
    (d : Database) : Database :=
  mkDatabase (db_index d) (db_operations d) (f (db_blobs d)) (db_audit d) (db_outbox d).

(** ** PostgresIngestOperationStore *)

(** Source: packages/persistence-postgres/src/operation-store.ts:27-53 begin *)
Definition begin_ (newId workspaceId idempotencyKey requestHash : string) : Db OperationRow :=
  transaction (
    gets (λ d, db_index d !! (workspaceId, idempotencyKey)) ≫= λ existing,
    match existing with
    | Some id =>
        gets (λ d, db_operations d !! id) ≫= λ row,
        match row with Some row => mret row | None => throw OperationNotCreated end
    | None =>
        gets (λ d, bool_decide (is_Some (db_operations d !! newId))) ≫= λ taken : bool,
        throw_when taken UniqueViolation ≫= λ _,
        let row := mkOperation newId workspaceId requested requestHash [] empty_context None None 0 in
        modify (λ d, mkDatabase (<[(workspaceId, idempotencyKey) := newId]> (db_index d))
          (<[newId := row]> (db_operations d)) (db_blobs d) (db_audit d) (db_outbox d)) ≫= λ _,
        mret row
    end).

(** [UPDATE operations SET ... WHERE id=$1], under the workspace's row-level
    security; [checked] is whether an update of no row is an error. *)
(** Source: packages/persistence-postgres/src/operation-store.ts:104-116 update *)
Definition update_operation (checked : bool) (workspaceId operationId : string)
    (f : OperationRow → option OperationRow) : Db unit :=
  transaction (
    gets (λ d, db_operations d !! operationId) ≫= λ row,
    let changed := match row with
                   | Some row => if op_workspaceId row === workspaceId then f row else None
                   | None => None
                   end in
    match changed with
    | Some row' => modify (set_operations <[operationId := row']>)
    | None => throw_when checked OperationUpdateNotApplied
    end).

(** Source: packages/persistence-postgres/src/operation-store.ts:55-67 saveContext *)
Definition saveContext (workspaceId operationId : string) (context : IngestContext)
    (state : OperationState) : Db unit :=
  update_operation true workspaceId operationId (λ row,
    Some (mkOperation (op_id row) (op_workspaceId row) state (op_requestHash row) (op_checkpoints row)
      context (op_result row) (op_errorCode row) (op_retryCount row))).

(** Source: packages/persistence-postgres/src/operation-store.ts:69-80 markCheckpoint *)
Definition markCheckpoint (workspaceId operationId : string) (checkpoint : OperationState) : Db unit :=
  update_operation false workspaceId operationId (λ row,
    if array_includes (op_checkpoints row) checkpoint then None
    else Some (mkOperation (op_id row) (op_workspaceId row) checkpoint (op_requestHash row)
      (op_checkpoints row ++ [checkpoint]) (op_context row) (op_result row) (op_errorCode row)
      (op_retryCount row))).

(** Source: packages/persistence-postgres/src/operation-store.ts:82-93 complete *)
Definition complete (workspaceId operationId : string) (result : IngestResult) : Db unit :=
  update_operation true workspaceId operationId (λ row,
    Some (mkOperation (op_id row) (op_workspaceId row) completed (op_requestHash row) (op_checkpoints row)
      (op_context row) (Some result) None (op_retryCount row))).

(** Source: packages/persistence-postgres/src/operation-store.ts:95-102 fail *)
Definition fail_operation (workspaceId operationId message : string) : Db unit :=
  update_operation true workspaceId operationId (λ row,
    if op_state row === completed then Some row
    else Some (mkOperation (op_id row) (op_workspaceId row) failed_retryable (op_requestHash row)
      (op_checkpoints row) (op_context row) (op_result row) (Some (slice0 512 message))
      (op_retryCount row + 1))).

(** ** PostgresBlobCatalog *)

(** Source: packages/persistence-postgres/src/blob-catalog.ts:9-21 findByHash *)
Definition findByHash (workspaceId sha : string) : Db (option BlobObject) :=
  gets (λ d, db_blobs d !! (workspaceId, sha)).

(** Source: packages/persistence-postgres/src/blob-catalog.ts:22-34 findById *)
Definition findById (workspaceId blobId : string) : Db (option BlobObject) :=
  gets (λ d, List.find (λ b, (blob_workspaceId b === workspaceId) && (blob_id b === blobId))
               (map_to_list (db_blobs d)).*2).

(** [COALESCE(EXCLUDED.x, blob_objects.x)] *)
Definition coalesce {A} (a b : option A) : option A := match a with Some _ => a | None => b end.

(** Another row holds this id, or this object of the provider. *)
Definition blob_key_taken (d : Database) (blob : BlobObject) : bool :=
  existsb (λ '(k, b), (k !== (blob_workspaceId blob, blob_sha256 blob)) &&
            ((blob_id b === blob_id blob) ||
             ((blob_storageProvider b === blob_storageProvider blob) &&
              (blob_storageKey b === blob_storageKey blob))))
    (map_to_list (db_blobs d)).

(** Source: packages/persistence-postgres/src/blob-catalog.ts:123-141 recordBlob *)
Definition recordBlob (blob : BlobObject) : Db BlobObject :=
  gets (λ d, db_blobs d !! (blob_workspaceId blob, blob_sha256 blob)) ≫= λ existing,
  match existing with
  | Some old =>
      let row := mkBlob (blob_id old) (blob_workspaceId old) (blob_sha256 old) (blob_byteLength old)
        (blob_mediaType old) (blob_storageProvider old) (blob_storageKey old)
        (blob_encryptionState old) (blob_encryptionKeyRef old) verification_verified (blob_createdAt old)
        (coalesce (blob_storageBindingId blob) (blob_storageBindingId old))
        (coalesce (blob_storageBindingGeneration blob) (blob_storageBindingGeneration old)) in
      modify (set_blobs <[(blob_workspaceId blob, blob_sha256 blob) := row]>) ≫= λ _, mret row
  | None =>
      gets (λ d, blob_key_taken d blob) ≫= λ taken : bool,
      throw_when taken UniqueViolation ≫= λ _,
      let row := mkBlob (blob_id blob) (blob_workspaceId blob) (blob_sha256 blob) (blob_byteLength blob)
        (blob_mediaType blob) (blob_storageProvider blob) (blob_storageKey blob)
        (blob_encryptionState blob) (blob_encryptionKeyRef blob) verification_verified (blob_createdAt blob)
        (blob_storageBindingId blob) (blob_storageBindingGeneration blob) in
      modify (set_blobs <[(blob_workspaceId blob, blob_sha256 blob) := row]>) ≫= λ _, mret row
  end.

(** Source: packages/persistence-postgres/src/blob-catalog.ts:35-41 recordVerified *)
Definition recordVerified (blob : BlobObject) : Db BlobObject := transaction (recordBlob blob).

Section Catalog.
Context `{JsDate} `{Crypto}.

(** [ORDER BY occurred_at DESC, id DESC LIMIT 1] over a workspace's events. *)
Definition newer (a b : AuditRow) : bool :=
  let ta := default 0%Z (Date_parse (event_timestamp (chained_body (audit_event a)))) in
  let tb := default 0%Z (Date_parse (event_timestamp (chained_body (audit_event b)))) in
  (tb <? ta)%Z || ((ta =? tb)%Z && String.leb (event_id (chained_body (audit_event b)))
                                              (event_id (chained_body (audit_event a)))).
Definition latest_event (workspaceId : string) (rows : list AuditRow) : option AuditRow :=
  fold_left (λ best row, match best with
                         | None => Some row
                         | Some b => if newer row b then Some row else Some b
                         end)
    (List.filter (λ r, event_workspaceId (chained_body (audit_event r)) === workspaceId) rows) None.

(** Source: packages/persistence-postgres/src/blob-catalog.ts:42-119 commitVerifiedIngest *)
Definition commitVerifiedIngest (blob : BlobObject) (operationId actorId actorType occurredAt : string)
    : Db BlobObject :=
  transaction (
    recordBlob blob ≫= λ canonical,
    gets (λ d, latest_event (blob_workspaceId blob) (db_audit d)) ≫= λ previous,
    let auditId := deterministicUuid ("ingest-audit:" +:+ operationId) in
    let requestId := deterministicUuid ("ingest-request:" +:+ operationId) in
    let metadata := JObject [("sha256", JString (blob_sha256 canonical));
      ("byteLength", JNumber (blob_byteLength canonical)); ("storageKey", JString (blob_storageKey canonical))] in
    let chained := appendAuditEvent
      (mkAuditBody auditId (blob_workspaceId blob) actorType actorId "blob.ingested" "blob"
         (blob_id canonical) occurredAt requestId operationId metadata)
      (from_option (λ r, eventHash (audit_event r)) EmptyString previous) in
    modify (λ d, if existsb (λ r, event_id (chained_body (audit_event r)) === auditId) (db_audit d) then d
      else mkDatabase (db_index d) (db_operations d) (db_blobs d)
             (db_audit d ++ [mkAuditRow chained operationId]) (db_outbox d)) ≫= λ _,
    let outboxId := deterministicUuid ("ingest-outbox:" +:+ operationId) in
    modify (λ d, if existsb (λ r, outbox_id r === outboxId) (db_outbox d) then d
      else mkDatabase (db_index d) (db_operations d) (db_blobs d) (db_audit d)
             (db_outbox d ++ [mkOutbox outboxId (blob_workspaceId blob) operationId
                "blob.reconcile_requested"
                (JObject [("storageKey", JString (blob_storageKey canonical));
                          ("sha256", JString (blob_sha256 canonical));
                          ("byteLength", JNumber (blob_byteLength canonical))])])) ≫= λ _,
    mret canonical).
End Catalog.
