(* ===== verification/Ingest.v ===== *)
(** * packages/operations, object-ingest.ts: durable object ingest

    [ObjectIngestService.ingest] over an object store and the operation and
    blob tables, and [ImmutableObjectIngestor].  Every call the service awaits
    (the store, the database, the [afterEffect] hook) first consults a schedule
    of faults: it proceeds, throws, or the process stops there and then.  The
    theorem is that whatever faults strike whatever number of attempts, with
    other operations running in between, one further undisturbed attempt with
    the same idempotency key completes, and the blob it returns is in the
    catalogue, audited, and stored as the uploaded bytes. *)
From S2P Require Import Prelude Js Concrete Json AuditChain Core UploadMachine StorageKeys Storage MemoryStorage IngestStore.

(** ** The world and its faults *)

Inductive fault := Proceed | Throws | Stops.

Record World (S : Type) := mkWorld {
  w_storage : S;
  w_db : Database;
  w_faults : list fault;
}.
Arguments mkWorld {S}. Arguments w_storage {S}. Arguments w_db {S}. Arguments w_faults {S}.

Inductive ingest_exn :=
  | StorageThrew (e : storage_exn)
  | DatabaseThrew (e : db_exn)
  | Interrupted
  | IngestError (message : string).

Definition ingest_message (e : ingest_exn) : string :=
  match e with
  | StorageThrew _ => "storage" | DatabaseThrew _ => "database"
  | Interrupted => "interrupted" | IngestError m => m
  end.

(** Source: packages/operations/src/object-ingest.ts:70-75 ObjectIngestResult *)
Record ObjectIngestResult := mkObjectIngest {
  ingest_operationId : string;
  ingest_blob : BlobObject;
  ingest_deduplicated : bool;
  ingest_resumed : bool;
}.

(** The variables of one call that its closures assign. *)
Record Locals := mkLocals {
  l_completed : list OperationState;
  l_context : IngestContext;
  l_blob : option BlobObject;
  l_deduplicated : bool;
}.

Record Run (S : Type) := mkRun { run_locals : Locals; run_world : World S }.
Arguments mkRun {S}. Arguments run_locals {S}. Arguments run_world {S}.

Section Service.
Context {S : Type} `{JsDate} `{Crypto} `{ObjectStorage S}.
Abbreviation Prog := (M (Run S) ingest_exn).
Abbreviation Top := (M (World S) ingest_exn).

(** The schedule's word on the next call; a stopped process stays stopped. *)
Definition tick : Top unit := λ w,
  match w_faults w with
  | [] => (Ok tt, w)
  | Proceed :: fs => (Ok tt, mkWorld (w_storage w) (w_db w) fs)
  | Throws :: fs => (Err Interrupted, mkWorld (w_storage w) (w_db w) fs)
  | Stops :: _ => (Err Interrupted, w)
  end.

Definition storage_call {A} (m : M S storage_exn A) : Top A := λ w,
  let '(r, s) := m (w_storage w) in
  (match r with Ok a => Ok a | Err e => Err (StorageThrew e) end, mkWorld s (w_db w) (w_faults w)).
Definition on_storage {A} (m : M S storage_exn A) : Top A := tick ≫= λ _, storage_call m.

Definition db_call {A} (m : M Database db_exn A) : Top A := λ w,
  let '(r, d) := m (w_db w) in
  (match r with Ok a => Ok a | Err e => Err (DatabaseThrew e) end, mkWorld (w_storage w) d (w_faults w)).
Definition on_db {A} (m : M Database db_exn A) : Top A := tick ≫= λ _, db_call m.

Definition await {A} (m : Top A) : Prog A := λ r,
  let '(a, w) := m (run_world r) in (a, mkRun (run_locals r) w).
Definition assign (f : Locals → Locals) : Prog unit :=
  modify (λ r, mkRun (f (run_locals r)) (run_world r)).
Definition local {A} (f : Locals → A) : Prog A := gets (λ r, f (run_locals r)).

Definition set_blob (b : BlobObject) (l : Locals) : Locals :=
  mkLocals (l_completed l) (l_context l) (Some b) (l_deduplicated l).
Definition set_context (f : IngestContext → IngestContext) (l : Locals) : Locals :=
  mkLocals (l_completed l) (f (l_context l)) (l_blob l) (l_deduplicated l).
Definition set_deduplicated (l : Locals) : Locals :=
  mkLocals (l_completed l) (l_context l) (l_blob l) true.
Definition add_completed (n : OperationState) (l : Locals) : Locals :=
  mkLocals (if array_includes (l_completed l) n then l_completed l else l_completed l ++ [n])
    (l_context l) (l_blob l) (l_deduplicated l).

(** Source: packages/operations/src/object-ingest.ts:351-359 requiredContextString *)
Definition requiredContextString (value : option string) (key : string) : Prog string :=
  match value with
  | Some v => if v === EmptyString then throw (IngestError ("Ingest operation is missing " +:+ key +:+ "."))
              else mret v
  | None => throw (IngestError ("Ingest operation is missing " +:+ key +:+ "."))
  end.

(** The request, and the values the injected [now], [nextId] and [randomUUID]
    return during this call. *)
(** Source: packages/operations/src/object-ingest.ts:90-101 ingest *)
Record IngestInput := mkIngest {
  in_workspaceId : string;
  in_actorId : string;
  in_principalType : string;
  in_idempotencyKey : string;
  in_bytes : string;
  in_mediaType : string;
  in_storageBindingId : option string;
  in_storageBindingGeneration : option Z;
}.

Section Call.
Context (provider : string) (input : IngestInput) (nowMillis : Z) (now newId blobId : string).
Abbreviation ws := (in_workspaceId input).
Abbreviation bytes := (in_bytes input).
Abbreviation sha := (sha256 (in_bytes input)).

(** Source: packages/operations/src/object-ingest.ts:104-112 requestHash *)
Definition requestHash : string :=
  sha256 (JSON_stringify (JObject [("workspaceId", JString ws);
    ("mediaType", JString (in_mediaType input)); ("sha256", JString sha)])).

(** Source: packages/operations/src/object-ingest.ts:134-147 checkpoint *)
Definition checkpoint (operationId : string) (name : OperationState) (effect : Prog unit) : Prog unit :=
  local (λ l, array_includes (l_completed l) name) ≫= λ done : bool,
  if done then mret tt
  else
    effect ≫= λ _,
    await tick ≫= λ _,
    await (on_db (markCheckpoint ws operationId name)) ≫= λ _,
    assign (add_completed name).

Definition authorise : Prog unit :=
  throw_when ((ws === EmptyString) || (in_actorId input === EmptyString) ||
              (in_idempotencyKey input === EmptyString) || (in_mediaType input === EmptyString))
    (IngestError "Ingest authorization context is incomplete.").

Definition create_temporary (operationId : string) : Prog unit :=
  await (on_storage (createTemporaryUpload nowMillis ws operationId)) ≫= λ temporary,
  assign (set_context (λ c, mkContext (Some (temporary_key temporary)) (ctx_sha256 c)
    (ctx_byteLength c) (ctx_storageKey c))) ≫= λ _,
  local l_context ≫= λ context,
  await (on_db (saveContext ws operationId context temporary_upload_created)).

Definition receive_bytes : Prog unit :=
  local (λ l, ctx_temporaryKey (l_context l)) ≫= λ key,
  requiredContextString key "temporaryKey" ≫= λ temporaryKey,
  await (on_storage (writeTemporary temporaryKey [bytes] (in_mediaType input))) ≫= λ received,
  throw_when (metadata_byteLength received !== byteLength bytes)
    (IngestError "Stored byte length does not match the supplied object.").

Definition verify_hash (operationId : string) : Prog unit :=
  assign (set_context (λ c, mkContext (ctx_temporaryKey c) (Some sha) (Some (byteLength bytes))
    (ctx_storageKey c))) ≫= λ _,
  local l_context ≫= λ context,
  await (on_db (saveContext ws operationId context hash_verified)).

Definition commit_object (operationId : string) : Prog unit :=
  local (λ l, ctx_temporaryKey (l_context l)) ≫= λ key,
  requiredContextString key "temporaryKey" ≫= λ temporaryKey,
  await (on_storage (commitImmutable (mkCommit temporaryKey ws sha (JInt (byteLength bytes))
    (in_mediaType input)))) ≫= λ stored,
  throw_when ((metadata_sha256 stored !== Some sha) || (metadata_byteLength stored !== byteLength bytes))
    (IngestError "Immutable object verification failed.") ≫= λ _,
  assign (set_context (λ c, mkContext (ctx_temporaryKey c) (ctx_sha256 c) (ctx_byteLength c)
    (Some (metadata_key stored)))) ≫= λ _,
  local l_context ≫= λ context,
  await (on_db (saveContext ws operationId context immutable_object_committed)).

Definition candidate_blob (storageKey : string) : BlobObject :=
  mkBlob blobId ws sha (byteLength bytes) (in_mediaType input) provider storageKey provider_managed None
    verification_verified now
    (if truthy (in_storageBindingId input) then in_storageBindingId input else None)
    (in_storageBindingGeneration input).

Definition record_metadata (operationId : string) (blob : BlobObject) : Prog unit :=
  await (on_db (commitVerifiedIngest blob operationId (in_actorId input) (in_principalType input) now))
    ≫= λ recorded, assign (set_blob recorded).

Definition commit_metadata (operationId : string) : Prog unit :=
  local (λ l, ctx_storageKey (l_context l)) ≫= λ key,
  requiredContextString key "storageKey" ≫= λ storageKey,
  record_metadata operationId (candidate_blob storageKey).

(** The [try] block. *)
(** Source: packages/operations/src/object-ingest.ts:148-272 ingest *)
Definition ingest_body (operationId : string) (resumed : bool) : Prog ObjectIngestResult :=
  checkpoint operationId authorised authorise ≫= λ _,
  await (on_db (findByHash ws sha)) ≫= λ existing,
  match existing with
  | Some existing =>
      assign (set_blob existing) ≫= λ _,
      assign set_deduplicated ≫= λ _,
      for_each (λ name, checkpoint operationId name (mret tt)) (take 4 (drop 1 ingestCheckpoints)) ≫= λ _,
      checkpoint operationId metadata_committed (record_metadata operationId existing) ≫= λ _,
      checkpoint operationId audit_committed (mret tt)
  | None =>
      checkpoint operationId temporary_upload_created (create_temporary operationId) ≫= λ _,
      checkpoint operationId bytes_received receive_bytes ≫= λ _,
      checkpoint operationId hash_verified (verify_hash operationId) ≫= λ _,
      checkpoint operationId immutable_object_committed (commit_object operationId) ≫= λ _,
      checkpoint operationId metadata_committed (commit_metadata operationId) ≫= λ _,
      checkpoint operationId audit_committed (mret tt)
  end ≫= λ _,
  local l_blob ≫= λ blob,
  match blob with
  | None => throw (IngestError "Ingest completed without canonical blob metadata.")
  | Some blob =>
      local l_deduplicated ≫= λ deduplicated,
      checkpoint operationId completed
        (await (on_db (complete ws operationId (mkIngestResult blob deduplicated)))) ≫= λ _,
      mret (mkObjectIngest operationId blob deduplicated resumed)
  end.

(** [try { body } catch (error) { await fail(...).catch(() => undefined); throw error; }] *)
Definition try_or_fail {A} (operationId : string) (locals : Locals) (body : Prog A) : Top A := λ w,
  match body (mkRun locals w) with
  | (Ok a, r) => (Ok a, run_world r)
  | (Err e, r) =>
      (Err e, snd (on_db (fail_operation ws operationId (ingest_message e)) (run_world r)))
  end.

(** Source: packages/operations/src/object-ingest.ts:90-283 ingest *)
Definition ingest : Top ObjectIngestResult :=
  on_db (begin_ newId ws (in_idempotencyKey input) requestHash) ≫= λ operation,
  throw_when (op_requestHash operation !== requestHash)
    (IngestError "Idempotency key was already used for a different ingest request.") ≫= λ _,
  let locals := mkLocals (op_checkpoints operation) (op_context operation)
    (result_blob <$> op_result operation)
    (from_option result_deduplicated false (op_result operation)) in
  let resumed := negb (bool_decide (op_checkpoints operation = [])) in
  try_or_fail (op_id operation) locals (ingest_body (op_id operation) resumed).
End Call.
End Service.

(** ** The durable invariant of one request *)

Section Recovery.
Context {S : Type} `{JsDate} `{Crypto} `{!ObjectStorage S} `{!ObjectStorageLaws S}.
Context (provider : string) (input : IngestInput) (ckey : string).
Abbreviation ws := (in_workspaceId input).
Abbreviation bytes := (in_bytes input).
Abbreviation mt := (in_mediaType input).
Abbreviation sha := (sha256 (in_bytes input)).

(** A request that passes validation. *)
Record request_ok : Prop := mkRequestOk {
  rq_key : canonicalObjectKey ws sha = Ok ckey;
  rq_actor : in_actorId input ≠ EmptyString;
  rq_idempotency : in_idempotencyKey input ≠ EmptyString;
  rq_media : blank mt = false;
  rq_length : (byteLength bytes <= MAX_SAFE_INTEGER)%Z;
}.
Hypothesis Hrq : request_ok.

Definition occupied (s : S) (k : string) : Prop := ∃ b m, stored s k b m.
Definition catalogued (d : Database) : Prop := is_Some (db_blobs d !! (ws, sha)).
Definition audited (d : Database) (id : string) : Prop :=
  ∃ r, r ∈ db_audit d ∧
    event_id (chained_body (audit_event r)) = deterministicUuid ("ingest-audit:" +:+ id).
Definition announced (d : Database) (id : string) : Prop :=
  ∃ r, r ∈ db_outbox d ∧ outbox_id r = deterministicUuid ("ingest-outbox:" +:+ id).

(** Every catalogue row names stored bytes of its digest and length. *)
Definition catalog_ok (s : S) (d : Database) : Prop :=
  ∀ w h blob, db_blobs d !! (w, h) = Some blob →
    blob_workspaceId blob = w ∧ blob_sha256 blob = h ∧
    TEMPORARY_KEY_PATTERN (blob_storageKey blob) = false ∧
    (∃ b m, stored s (blob_storageKey blob) b m ∧ sha256 b = h ∧ byteLength b = blob_byteLength blob) ∧
    (∀ w' h', canonicalObjectKey w' h' = Ok (blob_storageKey blob) → w' = w ∧ h' = h).

(** No object of another length has the digest of the request's bytes. *)
Definition length_ok (s : S) : Prop := ∀ b m, stored s ckey b m → byteLength b = byteLength bytes.

Definition same_object (a b : BlobObject) : Prop :=
  blob_id a = blob_id b ∧ blob_storageKey a = blob_storageKey b.

(** What the marked checkpoints of an uncatalogued request stand for. *)
Definition progress (s : S) (tk : string) (row : OperationRow) : Prop :=
  (temporary_upload_created ∈ op_checkpoints row → ctx_temporaryKey (op_context row) = Some tk) ∧
  (bytes_received ∈ op_checkpoints row →
     stored s tk bytes mt ∨ (¬ occupied s tk ∧ occupied s ckey)) ∧
  (immutable_object_committed ∈ op_checkpoints row →
     ctx_storageKey (op_context row) = Some ckey ∧ occupied s ckey).

Definition row_ok (s : S) (d : Database) (id : string) (row : OperationRow) : Prop :=
  op_id row = id ∧ op_workspaceId row = ws ∧ op_requestHash row = requestHash input ∧
  (metadata_committed ∈ op_checkpoints row → catalogued d ∧ audited d id ∧ announced d id) ∧
  (completed ∈ op_checkpoints row →
     ∃ res blob, op_result row = Some res ∧ db_blobs d !! (ws, sha) = Some blob ∧
                 same_object (result_blob res) blob) ∧
  ∃ tk, temporaryObjectKey ws id = Ok tk ∧ (catalogued d ∨ progress s tk row).

Definition durable (w : World S) : Prop :=
  storage_inv (w_storage w) ∧ catalog_ok (w_storage w) (w_db w) ∧ length_ok (w_storage w) ∧
  ∀ id, db_index (w_db w) !! (ws, in_idempotencyKey input) = Some id →
    ∃ row, db_operations (w_db w) !! id = Some row ∧ row_ok (w_storage w) (w_db w) id row.

(** ** Reasoning about one attempt

    [clean] says that the attempt meets no fault; it then cannot fail. *)

Context (clean : Prop).

Definition inside (id : string) (P : S → Database → OperationRow → Locals → Prop) (r : Run S) : Prop :=
  let s := w_storage (run_world r) in let d := w_db (run_world r) in
  storage_inv s ∧ catalog_ok s d ∧ length_ok s ∧
  db_index d !! (ws, in_idempotencyKey input) = Some id ∧
  ∃ row, db_operations d !! id = Some row ∧ row_ok s d id row ∧
    l_completed (run_locals r) = op_checkpoints row ∧
    (clean → w_faults (run_world r) = []) ∧ P s d row (run_locals r).

Definition outside (e : ingest_exn) (r : Run S) : Prop := durable (run_world r) ∧ ¬ clean.

Abbreviation spec id P m Q := (triple (inside id P) m (λ a, inside id (Q a)) outside).

Lemma inside_durable id P r : inside id P r → durable (run_world r).
Proof.
  intros (Hs & Hc & Hl & Hi & row & Hrow & Hok & _). split_and!; try done.
  intros id' Hid'. assert (id' = id) as -> by congruence. eauto.
Qed.

Lemma inside_mono id (P Q : S → Database → OperationRow → Locals → Prop) r :
  (∀ s d row l, db_operations d !! id = Some row → row_ok s d id row →
     l_completed l = op_checkpoints row → P s d row l → Q s d row l) →
  inside id P r → inside id Q r.
Proof. intros HPQ (? & ? & ? & ? & row & ? & ? & ? & ? & ?). unfold inside. eauto 20. Qed.

Lemma spec_consequence {A} id P P' (m : M (Run S) ingest_exn A) Q Q' :
  (∀ s d row l, row_ok s d id row → P s d row l → P' s d row l) →
  spec id P' m Q' → (∀ a s d row l, row_ok s d id row → Q' a s d row l → Q a s d row l) →
  spec id P m Q.
Proof.
  intros HP Hm HQ r Hr. assert (inside id P' r) as Hr' by (eapply inside_mono; [|exact Hr]; eauto).
  specialize (Hm r Hr'). destruct (m r) as [[a|e] r']; [|done].
  eapply inside_mono; [|exact Hm]. eauto.
Qed.

Lemma spec_ret {A} id (Q : A → S → Database → OperationRow → Locals → Prop) a :
  spec id (Q a) (mret a) Q.
Proof. intros r Hr. exact Hr. Qed.

Lemma spec_local {A} id P (f : Locals → A) :
  spec id P (local f) (λ a s d row l, P s d row l ∧ a = f l).
Proof. intros r Hr. cbn. destruct Hr as (? & ? & ? & ? & row & ? & ? & ? & ? & ?). unfold inside. eauto 20. Qed.

Lemma durable_of s d fs fs' id P l :
  inside id P (mkRun l (mkWorld s d fs)) → durable (mkWorld s d fs').
Proof. intros Hr. apply inside_durable in Hr. exact Hr. Qed.

Lemma spec_tick id P : spec id P (await tick) (λ _, P).
Proof.
  intros [l [s d fs]] Hr. pose proof Hr as (Hs & Hc & Hl & Hi & row & Hrow & Hok & Hcp & Hclean & HP).
  cbn in *. unfold await, tick. destruct fs as [|[] fs]; cbn.
  - exact Hr.
  - unfold inside; cbn. split_and!; try done. exists row. split_and!; try done.
    intros Hcl. by specialize (Hclean Hcl).
  - split; [by eapply durable_of|intros Hcl; by specialize (Hclean Hcl)].
  - split; [by eapply durable_of|intros Hcl; by specialize (Hclean Hcl)].
Qed.

(** A database call: it succeeds and keeps the invariant, or this is not a
    clean attempt and nothing was written. *)
Lemma spec_db {A} id P (m : M Database db_exn A) Q :
  (∀ s d row l, storage_inv s → catalog_ok s d → length_ok s →
     db_index d !! (ws, in_idempotencyKey input) = Some id → db_operations d !! id = Some row →
     row_ok s d id row → l_completed l = op_checkpoints row → P s d row l →
     (∃ a d' row', m d = (Ok a, d') ∧ catalog_ok s d' ∧ db_index d' = db_index d ∧
        db_operations d' !! id = Some row' ∧ row_ok s d' id row' ∧
        op_checkpoints row' = op_checkpoints row ∧ Q a s d' row' l) ∨
     (¬ clean ∧ ∃ e, m d = (Err e, d))) →
  spec id P (await (on_db m)) Q.
Proof.
  intros Hm r Hr. unfold await, on_db.
  pose proof (spec_tick id P r Hr) as Ht. unfold await in Ht. unfold mbind, M_bind.
  destruct (tick (run_world r)) as [[[]|e] w]; [|exact Ht]. destruct w as [s d fs].
  pose proof Ht as (Hs & Hc & Hl & Hi & row & Hrow & Hok & Hcp & Hclean & HP). cbn in *.
  unfold db_call. cbn. destruct (Hm s d row (run_locals r)) as [(a & d' & row' & -> & Hm')|[Hncl [e ->]]]; try done.
  - destruct Hm' as (Hc' & Hi' & Hrow' & Hok' & Hcp' & HQ). unfold inside; cbn.
    rewrite Hi'. split_and!; try done. exists row'. split_and!; try done. congruence.
  - split; [by eapply durable_of|done].
Qed.

(** A call of the object store, which succeeds. *)
Lemma spec_storage {A} id P (m : M S storage_exn A) Q :
  (∀ s d row l, storage_inv s → catalog_ok s d → length_ok s → row_ok s d id row →
     l_completed l = op_checkpoints row → P s d row l →
     ∃ a s', m s = (Ok a, s') ∧ storage_inv s' ∧ catalog_ok s' d ∧ length_ok s' ∧
       row_ok s' d id row ∧ Q a s' d row l) →
  spec id P (await (on_storage m)) Q.
Proof.
  intros Hm r Hr. unfold await, on_storage.
  pose proof (spec_tick id P r Hr) as Ht. unfold await in Ht. unfold mbind, M_bind.
  destruct (tick (run_world r)) as [[[]|e] w]; [|exact Ht]. destruct w as [s d fs].
  pose proof Ht as (Hs & Hc & Hl & Hi & row & Hrow & Hok & Hcp & Hclean & HP). cbn in *.
  unfold storage_call. cbn. destruct (Hm s d row (run_locals r)) as (a & s' & -> & Hm'); try done.
  destruct Hm' as (Hs' & Hc' & Hl' & Hok' & HQ). unfold inside; cbn. eauto 20.
Qed.

Lemma spec_assign id P (f : Locals → Locals) Q :
  (∀ s d row l, row_ok s d id row → l_completed l = op_checkpoints row → P s d row l →
     l_completed (f l) = op_checkpoints row ∧ Q s d row (f l)) →
  spec id P (assign f) (λ _, Q).
Proof.
  intros Hf r (? & ? & ? & ? & row & ? & Hok & Hcp & ? & HP). cbn.
  destruct (Hf _ _ _ _ Hok Hcp HP) as [??]. unfold inside; cbn. eauto 20.
Qed.

Lemma spec_bind {A B} id P (m : M (Run S) ingest_exn A) (f : A → M (Run S) ingest_exn B) R Q :
  spec id P m R → (∀ a, spec id (R a) (f a) Q) → spec id P (m ≫= f) Q.
Proof. intros Hm Hf. exact (triple_bind _ _ _ _ _ _ Hm Hf). Qed.

(** *** Statements on the operation's row *)

Lemma update_operation_run checked id row d f :
  db_operations d !! id = Some row → op_workspaceId row = ws →
  update_operation checked ws id f d =
  match f row with
  | Some row' => (Ok tt, set_operations <[id := row']> d)
  | None => if checked then (Err OperationUpdateNotApplied, d) else (Ok tt, d)
  end.
Proof.
  intros Hrow Hws. unfold update_operation, transaction. run. rewrite Hrow, Hws, strict_eq_refl.
  destruct (f row); [by run|]. run. by destruct checked.
Qed.

(** The facts the database holds about the request do not depend on the
    operations table. *)
Lemma row_ok_set_operations s d id f row :
  row_ok s (set_operations f d) id row ↔ row_ok s d id row.
Proof. done. Qed.

(** *** Checkpoints *)

Definition marked (name : OperationState) (row : OperationRow) : OperationRow :=
  mkOperation (op_id row) (op_workspaceId row) name (op_requestHash row) (op_checkpoints row ++ [name])
    (op_context row) (op_result row) (op_errorCode row) (op_retryCount row).

Lemma spec_mark id name E Q :
  (∀ s d row l, row_ok s d id row → l_completed l = op_checkpoints row → E s d row l →
     (name ∉ op_checkpoints row) ∧ row_ok s d id (marked name row) ∧
     Q s (set_operations <[id := marked name row]> d) (marked name row) (add_completed name l)) →
  spec id E (await tick ≫= λ _, await (on_db (markCheckpoint ws id name)) ≫= λ _,
             assign (add_completed name)) (λ _, Q).
Proof.
  intros HE. apply (spec_bind id E _ _ (λ _, E)); [exact (spec_tick id E)|]. intros _ r Hr.
  pose proof (spec_tick id E r Hr) as Ht. unfold await, on_db, mbind, M_bind in *.
  destruct (tick (run_world r)) as [[[]|e] w]; [|exact Ht]. destruct w as [s d fs].
  destruct Ht as (Hs & Hc & Hl & Hi & row & Hrow & Hok & Hcp & Hclean & HP). cbn in *.
  destruct (HE _ _ _ _ Hok Hcp HP) as (Hnew & Hok' & HQ).
  unfold db_call, markCheckpoint. cbn.
  rewrite (update_operation_run false id row d) by (done || apply Hok).
  unfold array_includes. rewrite bool_decide_eq_false_2 by done. cbn. unfold inside; cbn.
  split_and!; try done. exists (marked name row). split_and!; try done.
  - apply lookup_insert_eq.
  - unfold array_includes. rewrite Hcp, bool_decide_eq_false_2 by done. done.
Qed.

Lemma spec_checkpoint id name effect P E Q :
  (∀ s d row l, row_ok s d id row → P s d row l → name ∈ op_checkpoints row → Q s d row l) →
  spec id (λ s d row l, P s d row l ∧ (name ∉ op_checkpoints row)) effect (λ _, E) →
  (∀ s d row l, row_ok s d id row → l_completed l = op_checkpoints row → E s d row l →
     (name ∉ op_checkpoints row) ∧ row_ok s d id (marked name row) ∧
     Q s (set_operations <[id := marked name row]> d) (marked name row) (add_completed name l)) →
  spec id P (checkpoint input id name effect) (λ _, Q).
Proof.
  intros Hdone Heff Hmark. unfold checkpoint.
  intros r Hr. unfold local. run. unfold array_includes.
  assert (∃ row, l_completed (run_locals r) = op_checkpoints row ∧
    inside id (λ s d row' l, P s d row' l ∧ row' = row) r) as (row & Hcp & Hr').
  { destruct Hr as (? & ? & ? & ? & row & ? & ? & ? & ? & ?). exists row. unfold inside. eauto 20. }
  case_bool_decide as Hin; rewrite Hcp in Hin.
  - rewrite mret_run. eapply inside_mono; [|exact Hr']. cbn. intros s d row' l _ Hok _ [HP ->]. auto.
  - refine (spec_bind id (λ s d row l, P s d row l ∧ (name ∉ op_checkpoints row)) _ _ (λ _, E) _ Heff _ r _).
    + intros _. apply spec_mark. exact Hmark.
    + eapply inside_mono; [|exact Hr']. cbn. intros s d row' l _ Hok _ [HP ->]. auto.
Qed.

(** Marking a checkpoint that promises nothing more. *)
Lemma row_ok_marked s d id name row :
  row_ok s d id row →
  (name = metadata_committed → catalogued d ∧ audited d id ∧ announced d id) →
  (name = completed → ∃ res blob, op_result row = Some res ∧ db_blobs d !! (ws, sha) = Some blob ∧
                                  same_object (result_blob res) blob) →
  (∀ tk, temporaryObjectKey ws id = Ok tk → catalogued d ∨ progress s tk row → 
         catalogued d ∨ progress s tk (marked name row)) →
  row_ok s d id (marked name row).
Proof.
  intros (Hid & Hws & Hrh & Hmeta & Hdone & tk & Htk & Hprog) Hm Hc Hp.
  split_and!; try done; cbn.
  - intros [Hin|Hin%list_elem_of_singleton]%elem_of_app; auto.
  - intros [Hin|Hin%list_elem_of_singleton]%elem_of_app; auto.
  - exists tk. auto.
Qed.

Lemma progress_marked s tk name row :
  name ∉ [temporary_upload_created; bytes_received; immutable_object_committed] →
  progress s tk row → progress s tk (marked name row).
Proof.
  rewrite !not_elem_of_cons. intros (H1 & H2 & H3 & _) (HT & HB & HI).
  split_and!; cbn; intros [Hin|<-%list_elem_of_singleton]%elem_of_app; auto; congruence.
Qed.

(** *** The catalogue *)

Lemma recordBlob_run d blob :
  blob_workspaceId blob = ws → blob_sha256 blob = sha →
  (∃ row, recordBlob blob d = (Ok row, set_blobs <[(ws, sha) := row]> d) ∧
     match db_blobs d !! (ws, sha) with
     | Some old => same_object row old ∧ blob_workspaceId row = blob_workspaceId old ∧
                   blob_sha256 row = blob_sha256 old ∧ blob_byteLength row = blob_byteLength old
     | None => same_object row blob ∧ blob_workspaceId row = ws ∧ blob_sha256 row = sha ∧
               blob_byteLength row = blob_byteLength blob
     end) ∨
  (blob_key_taken d blob = true ∧ db_blobs d !! (ws, sha) = None ∧ recordBlob blob d = (Err UniqueViolation, d)).
Proof.
  intros Hws Hsha. unfold recordBlob. rewrite Hws, Hsha. run.
  destruct (db_blobs d !! (ws, sha)) as [old|] eqn:Hold.
  - left. eexists. split; [by run|]. done.
  - run. destruct (blob_key_taken d blob); [by right|]. left. eexists. split; [done|]. done.
Qed.

Definition audit_id (id : string) : string := deterministicUuid ("ingest-audit:" +:+ id).

Lemma commitVerifiedIngest_run d blob id actor actorType at_ :
  blob_workspaceId blob = ws → blob_sha256 blob = sha →
  (∃ row d', commitVerifiedIngest blob id actor actorType at_ d = (Ok row, d') ∧
     db_index d' = db_index d ∧ db_operations d' = db_operations d ∧
     db_blobs d' = <[(ws, sha) := row]> (db_blobs d) ∧ audited d' id ∧ announced d' id ∧
     match db_blobs d !! (ws, sha) with
     | Some old => same_object row old ∧ blob_workspaceId row = blob_workspaceId old ∧
                   blob_sha256 row = blob_sha256 old ∧ blob_byteLength row = blob_byteLength old
     | None => same_object row blob ∧ blob_workspaceId row = ws ∧ blob_sha256 row = sha ∧
               blob_byteLength row = blob_byteLength blob
     end) ∨
  (blob_key_taken d blob = true ∧ db_blobs d !! (ws, sha) = None ∧
   ∃ e, commitVerifiedIngest blob id actor actorType at_ d = (Err e, d)).
Proof.
  intros Hws Hsha. unfold commitVerifiedIngest.
  destruct (recordBlob_run d blob Hws Hsha) as [(row & HR & Hrow)|(Ht & Hn & HR)].
  2: { right. split_and!; [done|done|]. unfold transaction. rewrite (bind_Err_run _ _ _ _ _ HR). eauto. }
  left. exists row. unfold transaction. rewrite (bind_Ok_run _ _ _ _ _ HR). run.
  eexists. split; [reflexivity|].
  set (d1 := set_blobs _ d).
  match goal with |- context [existsb (λ r, _ === ?x) (db_audit d1)] => set (aid := x) end.
  match goal with |- context [mkAuditRow ?c id] => set (ev := c) end.
  assert (∃ d2, (if existsb (λ r, event_id (chained_body (audit_event r)) === aid) (db_audit d1) then d1
      else mkDatabase (db_index d1) (db_operations d1) (db_blobs d1)
             (db_audit d1 ++ [mkAuditRow ev id]) (db_outbox d1)) = d2 ∧
    db_index d2 = db_index d ∧ db_operations d2 = db_operations d ∧ db_blobs d2 = db_blobs d1 ∧
    audited d2 id) as (d2 & -> & Hi2 & Ho2 & Hb2 & Ha2).
  { eexists. split; [reflexivity|]. destruct (existsb _ _) eqn:E; (split_and!; [done..|]).
    - apply existsb_elem in E as (r & Hr & Hid). to_prop. by exists r.
    - eexists. split; [apply elem_of_app; right; apply list_elem_of_here|done]. }
  match goal with |- context [existsb (λ r, _ === ?x) (db_outbox d2)] => set (oid := x) end.
  match goal with |- context [db_outbox d2 ++ [?c]] => set (ob := c) end.
  destruct (existsb (λ r, outbox_id r === oid) (db_outbox d2)) eqn:E; cbn [db_index db_operations db_blobs];
    (split_and!; [done|done|by rewrite Hb2|done| |done]).
  - apply existsb_elem in E as (r & Hr & Hid). to_prop. by exists r.
  - eexists. split; [apply elem_of_app; right; apply list_elem_of_here|done].
Qed.

(** *** The effects of the eight checkpoints *)

Context (nowMillis : Z) (now blobId : string).

(** The new blob's id is not in use, in a clean attempt. *)
Definition fresh_blob (d : Database) : Prop :=
  clean → ∀ k b, db_blobs d !! k = Some b → k ≠ (ws, sha) → blob_id b ≠ blobId.

(** Not in the catalogue; the checkpoints [names] are marked. *)
Definition uploading (names : list OperationState) (s : S) (d : Database) (row : OperationRow)
    (l : Locals) : Prop :=
  ¬ catalogued d ∧ fresh_blob d ∧ l_context l = op_context row ∧
  ∀ n, n ∈ names → n ∈ op_checkpoints row.

Lemma uploading_nil s d row l :
  ¬ catalogued d → fresh_blob d → l_context l = op_context row → uploading [] s d row l.
Proof. intros. split_and!; try done. by intros n ?%elem_of_nil. Qed.

Lemma uploading_progress names s d id row l tk :
  row_ok s d id row → uploading names s d row l → temporaryObjectKey ws id = Ok tk → progress s tk row.
Proof.
  intros (_ & _ & _ & _ & _ & tk' & Htk' & Hp) (Hn & _) Htk.
  assert (tk' = tk) as -> by congruence. by destruct Hp.
Qed.

Lemma row_ok_temporary s d id row : row_ok s d id row → ∃ tk, temporaryObjectKey ws id = Ok tk.
Proof. intros (_ & _ & _ & _ & _ & tk & Htk & _). eauto. Qed.

Definition with_context (st : OperationState) (c : IngestContext) (row : OperationRow) : OperationRow :=
  mkOperation (op_id row) (op_workspaceId row) st (op_requestHash row) (op_checkpoints row) c
    (op_result row) (op_errorCode row) (op_retryCount row).

Lemma row_ok_with_context s d id st c row :
  row_ok s d id row →
  (∀ tk, temporaryObjectKey ws id = Ok tk → catalogued d ∨ progress s tk row →
         catalogued d ∨ progress s tk (with_context st c row)) →
  row_ok s d id (with_context st c row).
Proof. intros (? & ? & ? & ? & ? & tk & ? & ?) Hp. split_and!; try done. exists tk. auto. Qed.

Lemma spec_saveContext id c st P Q :
  (∀ s d row l, row_ok s d id row → P s d row l →
     row_ok s d id (with_context st c row) ∧
     Q s (set_operations <[id := with_context st c row]> d) (with_context st c row) l) →
  spec id P (await (on_db (saveContext ws id c st))) (λ _, Q).
Proof.
  intros Hm. apply spec_db. intros s d row l Hs Hc Hl Hi Hrow Hok Hcp HP. left.
  destruct (Hm s d row l Hok HP) as [Hok' HQ].
  eexists tt, _, (with_context st c row). split.
  { unfold saveContext. by rewrite (update_operation_run true id row d) by (done || apply Hok). }
  split_and!; try done. apply lookup_insert_eq.
Qed.

Lemma temporary_ne_canonical id tk : temporaryObjectKey ws id = Ok tk → tk ≠ ckey.
Proof.
  intros Htk%temporaryObjectKey_temporary ->.
  destruct Hrq as [Hk _ _ _ _]. apply canonical_not_temporary in Hk. congruence.
Qed.

Lemma temporary_nonempty id tk : temporaryObjectKey ws id = Ok tk → tk ≠ EmptyString.
Proof. intros Htk%temporaryObjectKey_temporary ->. discriminate Htk. Qed.

(** Storage changes below the temporary prefix do not disturb the catalogue. *)
Lemma catalog_ok_preserved s s' d tk :
  TEMPORARY_KEY_PATTERN tk = true → (∀ k b m, k ≠ tk → stored s k b m → stored s' k b m) →
  catalog_ok s d → catalog_ok s' d.
Proof.
  intros Ht Hkeep Hc w h blob Hb. destruct (Hc w h blob Hb) as (? & ? & Hnt & (b & m & Hst & ?) & ?).
  split_and!; try done. exists b, m. split; [|done]. apply Hkeep; [|done]. intros Heq. congruence.
Qed.

Lemma spec_require id P key name v :
  v ≠ EmptyString → (∀ s d row l, row_ok s d id row → P s d row l → key = Some v) →
  spec id P (requiredContextString key name) (λ a s d row l, P s d row l ∧ a = v).
Proof.
  intros Hv HP r Hr. pose proof Hr as (_ & _ & _ & _ & row & _ & Hok & _ & _ & Hp).
  rewrite (HP _ _ _ _ Hok Hp). unfold requiredContextString.
  rewrite bool_decide_eq_false_2 by done. rewrite mret_run.
  eapply inside_mono; [|exact Hr]. cbn. auto.
Qed.

Lemma spec_throw_false id P b e : b = false → spec id P (throw_when b e) (λ _, P).
Proof. intros -> r Hr. exact Hr. Qed.

Lemma spec_create_temporary id :
  spec id (λ s d row l, uploading [] s d row l ∧ (temporary_upload_created ∉ op_checkpoints row))
    (create_temporary input nowMillis id)
    (λ _ s d row l, uploading [] s d row l ∧ (temporary_upload_created ∉ op_checkpoints row) ∧
       ∃ tk, temporaryObjectKey ws id = Ok tk ∧ ctx_temporaryKey (op_context row) = Some tk).
Proof.
  unfold create_temporary.
  eapply (spec_bind id _ _ _ (λ t s d row l, uploading [] s d row l ∧
    (temporary_upload_created ∉ op_checkpoints row) ∧ temporaryObjectKey ws id = Ok (temporary_key t))).
  { apply spec_storage. intros s d row l Hs Hc Hl Hok Hcp [HP Hn].
    destruct (row_ok_temporary _ _ _ _ Hok) as [tk Htk].
    destruct (createTemporaryUpload_total s nowMillis ws id tk Htk) as [t HR].
    destruct (createTemporaryUpload_law _ _ _ _ _ _ HR) as [Ht _]. exists t, s. by split_and!. }
  intros t. set (upd := λ c, mkContext (Some (temporary_key t)) (ctx_sha256 c) (ctx_byteLength c) (ctx_storageKey c)).
  eapply (spec_bind id _ _ _ (λ _ s d row l, (¬ catalogued d) ∧ fresh_blob d ∧
    (temporary_upload_created ∉ op_checkpoints row) ∧ temporaryObjectKey ws id = Ok (temporary_key t) ∧
    l_context l = upd (op_context row))).
  { apply spec_assign. intros s d row l _ Hcp ((Hn & Hf & Hctx & _) & Hnc & Htk).
    split; [done|]. split_and!; try done. cbn. by rewrite Hctx. }
  intros _. eapply spec_bind; [apply spec_local|]. intros c. cbn.
  apply spec_saveContext. intros s d row l Hok ((Hn & Hf & Hnc & Htk & Hctx) & ->). split.
  - apply row_ok_with_context; [done|]. intros tk Htk' [?|(H1 & H2 & H3)]; [by left|right].
    rewrite Hctx. by split_and!.
  - split_and!; [by apply uploading_nil|done|]. exists (temporary_key t). cbn. by rewrite Hctx.
Qed.

Lemma spec_receive_bytes id tk :
  temporaryObjectKey ws id = Ok tk →
  spec id (λ s d row l, uploading [temporary_upload_created] s d row l ∧
             (bytes_received ∉ op_checkpoints row))
    (receive_bytes input)
    (λ _ s d row l, uploading [temporary_upload_created] s d row l ∧
       (bytes_received ∉ op_checkpoints row) ∧ stored s tk bytes mt).
Proof.
  intros Htk. unfold receive_bytes. eapply spec_bind; [apply spec_local|]. intros key. cbn.
  eapply spec_bind.
  { apply (spec_require id _ key "temporaryKey" tk); [by eapply temporary_nonempty|].
    intros s d row l Hok ((HP & _) & ->). pose proof HP as (_ & _ & -> & Hin).
    destruct (uploading_progress _ _ _ _ _ _ _ Hok HP Htk) as (HT & _). apply HT, Hin, list_elem_of_here. }
  intros tk'. cbn.
  eapply (spec_bind id _ _ _ (λ md s d row l, uploading [temporary_upload_created] s d row l ∧
    (bytes_received ∉ op_checkpoints row) ∧ stored s tk bytes mt ∧ metadata_byteLength md = byteLength bytes)).
  { intros r Hr. assert (tk' = tk) as -> by (by destruct Hr as (_ & _ & _ & _ & row & _ & _ & _ & _ & _ & ->)).
    revert r Hr. apply spec_storage. intros s d row l Hs Hc Hl Hok Hcp (((HP & Hn) & _) & _).
    destruct Hrq as [Hk _ _ Hmt _].
    destruct (writeTemporary_total s ws id tk [bytes] mt Htk Hmt) as (md & s' & HR).
    destruct (writeTemporary_law _ _ _ _ _ _ Hs HR) as (Hs' & Hst & -> & Hkeep).
    assert (readAll [bytes] = bytes) as Hread by apply string_app_nil_r. rewrite Hread in *.
    pose proof (temporary_ne_canonical _ _ Htk) as Hne.
    eexists _, s'. split; [exact HR|]. split_and!; try done.
    - eapply (catalog_ok_preserved s s' d tk); [by eapply temporaryObjectKey_temporary| |done].
      intros k b m Hk'. by apply Hkeep.
    - intros b m Hb. apply (Hl b m). by apply Hkeep.
    - pose proof (uploading_progress _ _ _ _ _ _ _ Hok HP Htk) as (HT & HB & HI).
      destruct Hok as (? & ? & ? & ? & ? & tk' & Htk' & _). assert (tk' = tk) as -> by congruence.
      split_and!; try done. exists tk. split; [done|]. right. split_and!; [done|done|].
      intros Hin. destruct (HI Hin) as (? & b & m & ?). split; [done|]. exists b, m. by apply Hkeep. }
  intros md. intros r Hr.
  assert (metadata_byteLength md = byteLength bytes) as ->
    by (by destruct Hr as (_ & _ & _ & _ & row & _ & _ & _ & _ & _ & _ & _ & ->)).
  rewrite strict_ne_refl. rewrite throw_when_run. eapply inside_mono; [|exact Hr]. cbn. tauto.
Qed.

Lemma spec_verify_hash id names :
  spec id (λ s d row l, uploading names s d row l ∧ (hash_verified ∉ op_checkpoints row))
    (verify_hash input id)
    (λ _ s d row l, uploading names s d row l ∧ (hash_verified ∉ op_checkpoints row)).
Proof.
  unfold verify_hash.
  set (upd := λ c, mkContext (ctx_temporaryKey c) (Some sha) (Some (byteLength bytes)) (ctx_storageKey c)).
  eapply (spec_bind id _ _ _ (λ _ s d row l, (¬ catalogued d) ∧ fresh_blob d ∧
    (hash_verified ∉ op_checkpoints row) ∧ (∀ n, n ∈ names → n ∈ op_checkpoints row) ∧
    l_context l = upd (op_context row))).
  { apply spec_assign. intros s d row l _ Hcp ((Hn & Hf & Hctx & Hin) & Hnc).
    split; [done|]. split_and!; try done. cbn. by rewrite Hctx. }
  intros _. eapply spec_bind; [apply spec_local|]. intros c. cbn.
  apply spec_saveContext. intros s d row l Hok ((Hn & Hf & Hnc & Hin & Hctx) & ->). split.
  - apply row_ok_with_context; [done|]. intros tk Htk' [?|(H1 & H2 & H3)]; [by left|right].
    rewrite Hctx. by split_and!.
  - by split_and!.
Qed.

Lemma spec_commit_object id tk :
  temporaryObjectKey ws id = Ok tk →
  spec id (λ s d row l, uploading [temporary_upload_created; bytes_received] s d row l ∧
             (immutable_object_committed ∉ op_checkpoints row))
    (commit_object input id)
    (λ _ s d row l, uploading [] s d row l ∧ (immutable_object_committed ∉ op_checkpoints row) ∧
       ctx_storageKey (op_context row) = Some ckey ∧ occupied s ckey).
Proof.
  intros Htk. unfold commit_object. eapply spec_bind; [apply spec_local|]. intros key. cbn.
  eapply spec_bind.
  { apply (spec_require id _ key "temporaryKey" tk); [by eapply temporary_nonempty|].
    intros s d row l Hok ((HP & _) & ->). pose proof HP as (_ & _ & -> & Hin).
    destruct (uploading_progress _ _ _ _ _ _ _ Hok HP Htk) as (HT & _). apply HT, Hin, list_elem_of_here. }
  intros tk'. cbn.
  eapply (spec_bind id _ _ _ (λ md s d row l, uploading [] s d row l ∧
    (immutable_object_committed ∉ op_checkpoints row) ∧ occupied s ckey ∧ metadata_key md = ckey ∧
    metadata_sha256 md = Some sha ∧ metadata_byteLength md = byteLength bytes)).
  { intros r Hr. assert (tk' = tk) as -> by (by destruct Hr as (_ & _ & _ & _ & row & _ & _ & _ & _ & _ & ->)).
    revert r Hr. apply spec_storage. intros s d row l Hs Hc Hl Hok Hcp (((HP & Hn) & _) & _).
    pose proof (uploading_progress _ _ _ _ _ _ _ Hok HP Htk) as (HT & HB & HI).
    destruct Hrq as [Hk _ _ Hmt Hlen]. pose proof HP as (Hncat & Hfr & Hctx & Hin).
    pose proof (temporaryObjectKey_temporary _ _ _ Htk) as Htemp.
    pose proof (temporary_ne_canonical _ _ Htk) as Hne.
    assert (stored s tk bytes mt ∨ ((∀ b m, ¬ stored s tk b m) ∧ ∃ b m, stored s ckey b m)) as Hsrc.
    { destruct HB as [?|[Ha ?]]; [apply Hin; set_solver|by left|right]. split; [|done].
      intros b m Hb. apply Ha. by exists b, m. }
    destruct (commitImmutable_total s tk ws bytes mt ckey Hs Hsrc Htemp Hk Hmt Hlen Hl) as (md & s' & HR).
    destruct (commitImmutable_law _ _ _ _ Hs HR) as (Hs' & Hkey & Hsha & Hblen & (b & m & Hst & Hb & Hbl) & _ & Hkeep & Hback).
    cbn in *. assert (metadata_key md = ckey) as Hmk by congruence. rewrite Hmk in *.
    assert (metadata_byteLength md = byteLength bytes) as Hml by congruence.
    assert (occupied s' ckey) as Hocc by (by exists b, m).
    exists md, s'. split_and!; try done.
    - by eapply (catalog_ok_preserved s s' d tk).
    - intros b' m' Hb'. destruct (stored_functional _ _ _ _ _ _ Hst Hb') as [<- _]. congruence.
    - destruct Hok as (? & ? & ? & ? & ? & tk' & Htk' & _). assert (tk' = tk) as -> by congruence.
      split_and!; try done. exists tk. split; [done|]. right. split_and!; [done| |done].
      intros _. destruct (exists_law s' tk) as ([] & _ & Hex); [left|right; split; [|done]].
      + destruct (proj1 Hex eq_refl) as (b' & m' & Hb'). pose proof (Hback _ _ _ Hne Hb') as Hold.
        destruct Hsrc as [Hsrc|[Habs _]]; [|by apply Habs in Hold].
        by destruct (stored_functional _ _ _ _ _ _ Hsrc Hold) as [-> ->].
      + intros Ho. by apply Hex in Ho.
    - by apply uploading_nil. }
  intros md. set (upd := λ c, mkContext (ctx_temporaryKey c) (ctx_sha256 c) (ctx_byteLength c) (Some (metadata_key md))).
  eapply (spec_bind id _ _ _ (λ _ s d row l, uploading [] s d row l ∧
    (immutable_object_committed ∉ op_checkpoints row) ∧ occupied s ckey ∧ metadata_key md = ckey)).
  { intros r Hr. assert (metadata_sha256 md = Some sha ∧ metadata_byteLength md = byteLength bytes) as [-> ->]
      by (by destruct Hr as (_ & _ & _ & _ & row & _ & _ & _ & _ & _ & _ & _ & _ & ?)).
    rewrite !strict_ne_refl. cbn [orb]. rewrite throw_when_run. eapply inside_mono; [|exact Hr]. cbn. tauto. }
  intros _. eapply (spec_bind id _ _ _ (λ _ s d row l, (¬ catalogued d) ∧ fresh_blob d ∧
    (immutable_object_committed ∉ op_checkpoints row) ∧ occupied s ckey ∧
    metadata_key md = ckey ∧ l_context l = upd (op_context row))).
  { apply spec_assign. intros s d row l _ Hcp ((Hn & Hf & Hctx & _) & Hnc & Hocc & Hmk).
    split; [done|]. split_and!; try done. cbn. by rewrite Hctx. }
  intros _. eapply spec_bind; [apply spec_local|]. intros c. cbn.
  apply spec_saveContext. intros s d row l Hok ((Hn & Hf & Hnc & Hocc & Hmk & Hctx) & ->). split.
  - apply row_ok_with_context; [done|]. intros tk'' Htk' [?|(H1 & H2 & H3)]; [by left|right].
    rewrite Hctx. by split_and!.
  - split_and!; [by apply uploading_nil|done| |done]. cbn. rewrite Hctx. cbn. by rewrite Hmk.
Qed.

(** The catalogue has the blob, and the call knows it. *)
Definition recorded (s : S) (d : Database) (row : OperationRow) (l : Locals) : Prop :=
  ∃ blob, db_blobs d !! (ws, sha) = Some blob ∧ l_blob l = Some blob.

(** A row of the catalogue over bytes that are in place. *)
Lemma catalog_ok_insert s d d' row :
  storage_inv s → length_ok s → catalog_ok s d → db_blobs d' = <[(ws, sha) := row]> (db_blobs d) →
  match db_blobs d !! (ws, sha) with
  | Some old => same_object row old ∧ blob_workspaceId row = blob_workspaceId old ∧
                blob_sha256 row = blob_sha256 old ∧ blob_byteLength row = blob_byteLength old
  | None => blob_storageKey row = ckey ∧ occupied s ckey ∧ blob_workspaceId row = ws ∧
            blob_sha256 row = sha ∧ blob_byteLength row = byteLength bytes
  end → catalog_ok s d'.
Proof.
  intros Hs Hl Hc Hd' Hrow w h blob Hb. rewrite Hd' in Hb. destruct Hrq as [Hk _ _ _ _].
  destruct (decide ((w, h) = (ws, sha))) as [[= -> ->]|Hne]; [|rewrite lookup_insert_ne in Hb; auto].
  rewrite lookup_insert_eq in Hb. injection Hb as <-.
  destruct (db_blobs d !! (ws, sha)) as [old|] eqn:Hold.
  - destruct (Hc _ _ _ Hold) as (Hw & Hh & Ht & Hst & Hk'). destruct Hrow as ((_ & Hkey) & Hw' & Hh' & Hlen).
    rewrite Hkey, Hw', Hh', Hlen. by split_and!.
  - destruct Hrow as (Hkey & (b & m & Hst) & Hw & Hh & Hlen). rewrite Hkey, Hw, Hh, Hlen.
    split_and!; try done; [by eapply canonical_not_temporary| |].
    + exists b, m. split_and!; [done|by eapply stored_canonical|by apply (Hl b m)].
    + intros w' h' Hk'. destruct (canonicalObjectKey_inj _ _ _ _ _ Hk Hk') as [-> ->]. done.
Qed.

Lemma row_ok_catalogued s d d' id row blob :
  row_ok s d id row → db_blobs d' !! (ws, sha) = Some blob → audited d' id → announced d' id →
  (∀ old, db_blobs d !! (ws, sha) = Some old → same_object blob old) →
  row_ok s d' id row.
Proof.
  intros (? & ? & ? & _ & Hdone & tk & Htk & _) Hb Ha Hn Hold.
  assert (catalogued d') as Hcat by (by eexists). split_and!; try done.
  - intros Hin. destruct (Hdone Hin) as (res & b & Hres & Hb' & Hsame). exists res, blob.
    split_and!; try done. destruct (Hold b Hb') as [? ?], Hsame as [? ?]. split; congruence.
  - exists tk. auto.
Qed.

Lemma spec_record_metadata id P blob :
  blob_workspaceId blob = ws → blob_sha256 blob = sha →
  (∀ s d row l, storage_inv s → catalog_ok s d → row_ok s d id row → P s d row l →
     metadata_committed ∉ op_checkpoints row) →
  (∀ s d row l, catalog_ok s d → row_ok s d id row → P s d row l → db_blobs d !! (ws, sha) = None →
     (clean → blob_key_taken d blob = false) ∧ blob_storageKey blob = ckey ∧ occupied s ckey ∧
     blob_byteLength blob = byteLength bytes) →
  spec id P (record_metadata input now id blob)
    (λ _ s d row l, recorded s d row l ∧ audited d id ∧ announced d id ∧
       (metadata_committed ∉ op_checkpoints row)).
Proof.
  intros Hws Hsha Hnew HP. unfold record_metadata.
  eapply (spec_bind id _ _ _ (λ b s d row l, db_blobs d !! (ws, sha) = Some b ∧ audited d id ∧
    announced d id ∧ (metadata_committed ∉ op_checkpoints row))).
  2: { intros b. apply spec_assign. intros s d row l _ Hcp (Hb & ? & ? & ?). split; [done|].
       split_and!; try done. by exists b. }
  apply spec_db. intros s d row l Hs Hc Hl Hi Hrow Hok Hcp Hp.
  pose proof (Hnew _ _ _ _ Hs Hc Hok Hp) as Hn.
  destruct (commitVerifiedIngest_run d blob id (in_actorId input) (in_principalType input) now Hws Hsha)
    as [(b & d' & HR & Hi' & Ho' & Hb' & Ha & Hann & Hm)|(Ht & Hnone & e & HR)].
  - left. exists b, d', row. rewrite Ho', Hi'.
    assert (db_blobs d' !! (ws, sha) = Some b) as Hlook by (rewrite Hb'; apply lookup_insert_eq).
    split_and!; try done.
    + eapply catalog_ok_insert; [done|done|done|exact Hb'|].
      destruct (db_blobs d !! (ws, sha)) as [old|] eqn:Hold; [done|].
      destruct Hm as ((_ & Hkey) & ? & ? & Hlen).
      destruct (HP _ _ _ _ Hc Hok Hp Hold) as (_ & ? & ? & ?). split_and!; try done; congruence.
    + eapply (row_ok_catalogued s d d'); try done. intros old Hold. rewrite Hold in Hm. apply Hm.
  - right. split; [|eauto]. intros Hcl. destruct (HP _ _ _ _ Hc Hok Hp Hnone) as (Hfree & _).
    rewrite (Hfree Hcl) in Ht. done.
Qed.

Lemma spec_commit_metadata id :
  spec id (λ s d row l, uploading [immutable_object_committed] s d row l ∧
             (metadata_committed ∉ op_checkpoints row))
    (commit_metadata provider input now blobId id)
    (λ _ s d row l, recorded s d row l ∧ audited d id ∧ announced d id ∧
       (metadata_committed ∉ op_checkpoints row)).
Proof.
  unfold commit_metadata. eapply spec_bind; [apply spec_local|]. intros key. cbn.
  destruct Hrq as [Hk _ _ _ _].
  assert (ckey ≠ EmptyString) as Hckey.
  { intros ->. by apply canonicalObjectKey_Ok in Hk as (_ & _ & ?). }
  assert (∀ s d row l, row_ok s d id row → uploading [immutable_object_committed] s d row l →
    ctx_storageKey (l_context l) = Some ckey ∧ occupied s ckey) as Hprog.
  { intros s d row l Hok HP. destruct (row_ok_temporary _ _ _ _ Hok) as [tk Htk].
    destruct (uploading_progress _ _ _ _ _ _ _ Hok HP Htk) as (_ & _ & HI).
    destruct HP as (_ & _ & -> & Hin). apply HI, Hin, list_elem_of_here. }
  eapply spec_bind.
  { apply (spec_require id _ key "storageKey" ckey); [done|].
    intros s d row l Hok ((HP & _) & ->). by destruct (Hprog _ _ _ _ Hok HP). }
  intros key'. cbn. intros r Hr.
  assert (key' = ckey) as -> by (by destruct Hr as (_ & _ & _ & _ & row & _ & _ & _ & _ & _ & ->)).
  revert r Hr. apply spec_record_metadata; [done|done|by intros; tauto|].
  intros s d row l Hc Hok (((HP & _) & _) & _) Hnone. destruct (Hprog _ _ _ _ Hok HP) as [_ Hocc].
  split_and!; try done. destruct HP as (_ & Hfresh & _). intros Hcl.
  apply not_true_iff_false. unfold blob_key_taken. rewrite existsb_elem.
  intros ([k b] & Hin & HG). apply elem_of_map_to_list in Hin. to_prop.
  match goal with Hx : _ || _ = true |- _ => apply orb_true_iff in Hx as [Hx|Hx]; to_prop end.
  - by apply (Hfresh Hcl k b Hin).
  - cbn in *. destruct k as [w h]. destruct (Hc w h b Hin) as (_ & _ & _ & _ & Hkey).
    destruct (Hkey ws sha) as [??]; congruence.
Qed.

Lemma spec_complete id blob dedup P :
  (∀ s d row l, P s d row l → db_blobs d !! (ws, sha) = Some blob) →
  (∀ s d row l f, P s d row l → P s (set_operations f d)
      (mkOperation (op_id row) (op_workspaceId row) completed (op_requestHash row) (op_checkpoints row)
         (op_context row) (Some (mkIngestResult blob dedup)) None (op_retryCount row)) l) →
  spec id P (await (on_db (complete ws id (mkIngestResult blob dedup))))
    (λ _ s d row l, P s d row l ∧ op_result row = Some (mkIngestResult blob dedup)).
Proof.
  intros HP Hstable. apply spec_db. intros s d row l Hs Hc Hl Hi Hrow Hok Hcp Hp. left.
  eexists tt, _, _. split.
  { unfold complete. by rewrite (update_operation_run true id row d) by (done || apply Hok). }
  split; [done|]. split; [done|]. split; [apply lookup_insert_eq|]. split_and!; try done.
  - destruct Hok as (? & ? & ? & ? & _ & tk & ? & Hprog). split_and!; try done.
    + intros _. eexists _, blob. split; [done|]. split; [exact (HP _ _ _ _ Hp)|done].
    + by exists tk.
  - by apply Hstable.
Qed.

(** *** The whole attempt *)

(** Marking keeps what the phases state. *)
Lemma uploading_marked names s d id row l name :
  uploading names s d row l →
  uploading (name :: names) s (set_operations <[id := marked name row]> d) (marked name row)
    (add_completed name l).
Proof.
  intros (Hn & Hf & Hctx & Hin). split_and!; try done. cbn.
  intros n [->|Hn']%elem_of_cons; apply elem_of_app; [right; apply list_elem_of_here|left; auto].
Qed.

Lemma uploading_done names s d row l name :
  uploading names s d row l → name ∈ op_checkpoints row → uploading (name :: names) s d row l.
Proof. intros (? & ? & ? & Hin) Hname. split_and!; try done. intros n [->|?]%elem_of_cons; auto. Qed.

Lemma uploading_weaken names names' s d row l :
  names' ⊆ names → uploading names s d row l → uploading names' s d row l.
Proof. intros Hsub (? & ? & ? & Hin). split_and!; auto. Qed.

(** A checkpoint of the upload whose effect establishes [E]. *)
Lemma spec_upload_checkpoint id name names names' effect E :
  names' ⊆ names → name ≠ metadata_committed → name ≠ completed →
  spec id (λ s d row l, uploading names s d row l ∧ (name ∉ op_checkpoints row)) effect
    (λ _ s d row l, uploading names' s d row l ∧ (name ∉ op_checkpoints row) ∧ E s d row l) →
  (∀ s d row l tk, uploading names' s d row l → E s d row l → temporaryObjectKey ws id = Ok tk →
     progress s tk row → progress s tk (marked name row)) →
  spec id (uploading names) (checkpoint input id name effect) (λ _, uploading (name :: names')).
Proof.
  intros Hsub Hm Hc Heff Hprog. eapply spec_checkpoint; [|exact Heff|].
  - intros s d row l _ HP Hin. apply uploading_done; [|done]. by eapply uploading_weaken.
  - cbn. intros s d row l Hok Hcp (HP & Hn & HE). split_and!; [done| |by apply uploading_marked].
    apply row_ok_marked; [done|done|done|].
    intros tk Htk [?|Hpr]; [by left|right]. by eapply Hprog.
Qed.

(** A checkpoint without an effect, once the blob is catalogued. *)
Lemma spec_noop id name P :
  name ≠ metadata_committed → name ≠ completed →
  (∀ s d row l, P s d row l → catalogued d) →
  (∀ s d row l, P s d row l →
     P s (set_operations <[id := marked name row]> d) (marked name row) (add_completed name l)) →
  spec id P (checkpoint input id name (mret tt)) (λ _, P).
Proof.
  intros Hm Hc Hcat Hkeep.
  refine (spec_checkpoint id name _ P (λ s d row l, P s d row l ∧ (name ∉ op_checkpoints row)) P _ _ _);
    [by intros|apply (spec_ret id (λ _ s d row l, P s d row l ∧ (name ∉ op_checkpoints row)))|].
  intros s d row l Hok Hcp [HP Hn]. split_and!; [done| |by apply Hkeep].
  apply row_ok_marked; [done|done|done|]. intros. left. by eapply Hcat.
Qed.

Lemma spec_metadata_checkpoint id P effect :
  (∀ s d row l, row_ok s d id row → P s d row l → metadata_committed ∈ op_checkpoints row → recorded s d row l) →
  spec id (λ s d row l, P s d row l ∧ (metadata_committed ∉ op_checkpoints row)) effect
    (λ _ s d row l, recorded s d row l ∧ audited d id ∧ announced d id ∧
       (metadata_committed ∉ op_checkpoints row)) →
  spec id P (checkpoint input id metadata_committed effect)
    (λ _ s d row l, recorded s d row l ∧ metadata_committed ∈ op_checkpoints row).
Proof.
  intros Hdone Heff.
  refine (spec_checkpoint id metadata_committed effect P _
    (λ s d row l, recorded s d row l ∧ metadata_committed ∈ op_checkpoints row) _ Heff _).
  - intros s d row l Hok HP Hin. split; [by eapply Hdone|done].
  - cbn. intros s d row l Hok Hcp (Hrec & Ha & Hn & Hnew).
    assert (catalogued d) as Hcat by (destruct Hrec as (b & Hb & _); by exists b).
    split_and!; [done| |done|apply elem_of_app; right; apply list_elem_of_here].
    apply row_ok_marked; [done|done|done|]. intros. by left.
Qed.

Lemma spec_audit_checkpoint id :
  spec id (λ s d row l, recorded s d row l ∧ metadata_committed ∈ op_checkpoints row)
    (checkpoint input id audit_committed (mret tt))
    (λ _ s d row l, recorded s d row l ∧ metadata_committed ∈ op_checkpoints row).
Proof.
  apply (spec_noop id audit_committed (λ s d row l, recorded s d row l ∧ metadata_committed ∈ op_checkpoints row));
    [done|done|..].
  - intros s d row l [(b & Hb & _) _]. by exists b.
  - intros s d row l [Hr Hm]. split; [done|]. apply elem_of_app. by left.
Qed.

Definition entering (s : S) (d : Database) (row : OperationRow) (l : Locals) : Prop :=
  fresh_blob d ∧ l_context l = op_context row.

Lemma authorise_passes :
  ((ws === EmptyString) || (in_actorId input === EmptyString) ||
   (in_idempotencyKey input === EmptyString) || (mt === EmptyString)) = false.
Proof.
  destruct Hrq as [Hk Ha Hi Hm _].
  rewrite !orb_false_iff, !bool_decide_eq_false. split_and!; try done.
  - intros E. apply canonicalObjectKey_Ok in Hk as (Hsafe & _). by rewrite E in Hsafe.
  - intros E. by rewrite E in Hm.
Qed.

Lemma spec_authorised id : spec id entering (checkpoint input id authorised (authorise input)) (λ _, entering).
Proof.
  refine (spec_checkpoint id authorised _ entering
    (λ s d row l, entering s d row l ∧ (authorised ∉ op_checkpoints row)) entering _ _ _).
  - by intros.
  - apply spec_throw_false. apply authorise_passes.
  - intros s d row l Hok Hcp [HP Hn]. split_and!; [done| |done].
    apply row_ok_marked; [done|done|done|]. intros tk Htk [?|Hp]; [by left|right].
    apply progress_marked; [|done]. apply (bool_decide_unpack _). vm_compute. exact I.
Qed.

Lemma spec_deduplicate id existing :
  spec id (λ s d row l, entering s d row l ∧ db_blobs d !! (ws, sha) = Some existing)
    (assign (set_blob existing) ≫= λ _, assign set_deduplicated ≫= λ _,
     for_each (λ name, checkpoint input id name (mret tt)) (take 4 (drop 1 ingestCheckpoints)) ≫= λ _,
     checkpoint input id metadata_committed (record_metadata input now id existing) ≫= λ _,
     checkpoint input id audit_committed (mret tt))
    (λ _ s d row l, recorded s d row l ∧ metadata_committed ∈ op_checkpoints row).
Proof.
  set (known := λ s d row l, recorded s d row l ∧ (db_blobs d !! (ws, sha) = Some existing)).
  refine (spec_bind id _ _ _ (λ _, known) _ _ _).
  { apply spec_assign. intros s d row l _ Hcp [_ Hb]. split; [done|]. split; [|done]. by exists existing. }
  intros _. refine (spec_bind id _ _ _ (λ _, known) _ _ _).
  { apply spec_assign. intros s d row l _ Hcp ((b & ? & ?) & Hb). split; [done|]. split; [|done]. by exists b. }
  intros _. refine (spec_bind id _ _ _ (λ _, known) _ _ _).
  { assert (∀ name, name ≠ metadata_committed → name ≠ completed →
      spec id known (checkpoint input id name (mret tt)) (λ _, known)) as Hnoop.
    { intros name Hm Hc. apply spec_noop; [done|done| |done].
      intros s d row l [_ Hb]. by exists existing. }
    cbn [take drop ingestCheckpoints for_each].
    repeat (refine (spec_bind id _ _ _ (λ _, known) _ _ _); [by apply Hnoop|intros _]).
    apply (spec_ret id (λ _, known)). }
  intros _. refine (spec_bind id _ _ _ (λ _ s d row l, recorded s d row l ∧ metadata_committed ∈ op_checkpoints row) _ _ _).
  { apply spec_metadata_checkpoint; [by intros s d row l _ [Hr _] _|].
    intros r Hr.
    assert (blob_workspaceId existing = ws ∧ blob_sha256 existing = sha) as [Hw Hh].
    { destruct Hr as (_ & Hc & _ & _ & row & _ & _ & _ & _ & (_ & Hb) & _). by destruct (Hc _ _ _ Hb) as (? & ? & _). }
    revert r Hr. apply spec_record_metadata; [done|done|by intros; tauto|].
    intros s d row l _ _ ((_ & Hb) & _) Hnone. congruence. }
  intros _.
  apply spec_audit_checkpoint.
Qed.

Lemma spec_upload id tk :
  temporaryObjectKey ws id = Ok tk →
  spec id (uploading [])
    (checkpoint input id temporary_upload_created (create_temporary input nowMillis id) ≫= λ _,
     checkpoint input id bytes_received (receive_bytes input) ≫= λ _,
     checkpoint input id hash_verified (verify_hash input id) ≫= λ _,
     checkpoint input id immutable_object_committed (commit_object input id) ≫= λ _,
     checkpoint input id metadata_committed (commit_metadata provider input now blobId id) ≫= λ _,
     checkpoint input id audit_committed (mret tt))
    (λ _ s d row l, recorded s d row l ∧ metadata_committed ∈ op_checkpoints row).
Proof.
  intros Htk.
  refine (spec_bind id _ _ _ (λ _, uploading [temporary_upload_created]) _ _ _).
  { refine (spec_upload_checkpoint id _ [] [] _ _ _ _ _ (spec_create_temporary id) _); try done.
    intros s d row l tk' _ (tk'' & Htk'' & Hctx) Htk' (HT & HB & HI).
    split_and!; cbn; [intros; congruence|..]; intros [?|?%list_elem_of_singleton]%elem_of_app; auto; done. }
  intros _. refine (spec_bind id _ _ _ (λ _, uploading [bytes_received; temporary_upload_created]) _ _ _).
  { refine (spec_upload_checkpoint id _ _ [temporary_upload_created] _ _ _ _ _ (spec_receive_bytes id tk Htk) _); try done.
    intros s d row l tk' _ Hst Htk' (HT & HB & HI). assert (tk' = tk) as -> by congruence.
    split_and!; cbn; [|by left|]; intros [?|?%list_elem_of_singleton]%elem_of_app; auto; done. }
  intros _. refine (spec_bind id _ _ _ (λ _, uploading [temporary_upload_created; bytes_received]) _ _ _).
  { eapply (spec_consequence id _ (uploading [bytes_received; temporary_upload_created]) _ _
      (λ _, uploading [hash_verified; bytes_received; temporary_upload_created])); [by intros|..].
    - refine (spec_upload_checkpoint id hash_verified _ [bytes_received; temporary_upload_created] _
        (λ _ _ _ _, True) _ _ _ _ _); try done.
      + eapply spec_consequence; [|apply (spec_verify_hash id [bytes_received; temporary_upload_created])|];
          [by intros|]. cbn. intros _ s d row l _ [??]. done.
      + intros s d row l tk' _ _ Htk'. apply progress_marked.
        apply (bool_decide_unpack _). vm_compute. exact I.
    - intros _ s d row l _. apply uploading_weaken. set_solver. }
  intros _. refine (spec_bind id _ _ _ (λ _, uploading [immutable_object_committed]) _ _ _).
  { refine (spec_upload_checkpoint id _ _ [] _ _ _ _ _ (spec_commit_object id tk Htk) _); try done.
    { set_solver. }
    intros s d row l tk' _ [Hctx Hocc] Htk' (HT & HB & HI).
    split_and!; cbn; [..|done]; intros [?|?%list_elem_of_singleton]%elem_of_app; auto; done. }
  intros _. refine (spec_bind id _ _ _ (λ _ s d row l, recorded s d row l ∧ metadata_committed ∈ op_checkpoints row) _ _ _).
  { apply spec_metadata_checkpoint; [|apply spec_commit_metadata].
    intros s d row l Hok HP Hin. destruct Hok as (_ & _ & _ & Hmeta & _).
    destruct (Hmeta Hin) as [Hcat _]. by destruct HP. }
  intros _. apply spec_audit_checkpoint.
Qed.

(** What a successful attempt leaves for its result. *)
Definition delivered (res : ObjectIngestResult) (d : Database) (row : OperationRow) : Prop :=
  db_blobs d !! (ws, sha) = Some (ingest_blob res) ∧
  metadata_committed ∈ op_checkpoints row ∧ completed ∈ op_checkpoints row.

Lemma spec_completed id blob dedup :
  let P := λ (s : S) d row (l : Locals),
    (db_blobs d !! (ws, sha) = Some blob) ∧ metadata_committed ∈ op_checkpoints row in
  spec id P (checkpoint input id completed (await (on_db (complete ws id (mkIngestResult blob dedup)))))
    (λ _ s d row l, P s d row l ∧ completed ∈ op_checkpoints row).
Proof.
  intros P. refine (spec_checkpoint id completed _ P _ (λ s d row l, P s d row l ∧ completed ∈ op_checkpoints row)
    _ (spec_complete id blob dedup _ _ _) _).
  - intros s d row l _ HP Hin. done.
  - intros s d row l [[Hb _] _]. exact Hb.
  - intros s d row l f [HP Hn]. done.
  - cbn. intros s d row l Hok Hcp (([Hb Hm] & Hn) & Hres). split_and!; [done|..].
    + apply row_ok_marked; [done|done| |].
      * intros _. eexists _, blob. by split_and!.
      * intros. left. by exists blob.
    + split; [done|]. apply elem_of_app. by left.
    + apply elem_of_app. right. apply list_elem_of_here.
Qed.

Lemma spec_body id resumed tk :
  temporaryObjectKey ws id = Ok tk →
  spec id entering (ingest_body provider input nowMillis now blobId id resumed)
    (λ res s d row l, delivered res d row).
Proof.
  intros Htk. unfold ingest_body.
  refine (spec_bind id _ _ _ (λ _, entering) _ (spec_authorised id) _). intros _.
  refine (spec_bind id _ _ _ (λ a s d row l, entering s d row l ∧ a = db_blobs d !! (ws, sha)) _ _ _).
  { apply spec_db. intros s d row l Hs Hc Hl Hi Hrow Hok Hcp HP. left. by eexists _, d, row. }
  intros existing.
  refine (spec_bind id _ _ _ (λ _ s d row l, recorded s d row l ∧ metadata_committed ∈ op_checkpoints row) _ _ _).
  { destruct existing as [existing|].
    - eapply (spec_consequence id); [|apply spec_deduplicate|by intros].
      intros s d row l _ [HP HE]. by split.
    - eapply (spec_consequence id); [|by apply (spec_upload id tk)|by intros].
      intros s d row l _ [[Hf Hctx] HE]. apply uploading_nil; [|done|done]. intros [b Hb]. congruence. }
  intros _. eapply (spec_bind id); [apply spec_local|]. intros [blob|]; cbn.
  2: { intros r (_ & _ & _ & _ & row & _ & _ & _ & _ & (Hrec & _) & Hx). destruct Hrec as (b & _ & Hb). congruence. }
  eapply (spec_bind id); [apply spec_local|]. intros dedup. cbn.
  refine (spec_bind id _ _ _ (λ _ s d row l, ((db_blobs d !! (ws, sha) = Some blob) ∧
    metadata_committed ∈ op_checkpoints row) ∧ completed ∈ op_checkpoints row) _ _ _).
  { eapply (spec_consequence id); [|apply (spec_completed id blob dedup)|by intros].
    cbn. intros s d row l _ ((((b & Hb & Hlb) & Hm) & Hx) & _). split; [congruence|done]. }
  intros _. eapply (spec_consequence id);
    [|apply (spec_ret id (λ res s d row l, delivered res d row))|by intros].
  cbn. intros s d row l _ ((Hb & Hm) & Hc). done.
Qed.

(** *** The call around the body *)

Lemma durable_faults s d fs fs' : durable (mkWorld s d fs) → durable (mkWorld s d fs').
Proof. done. Qed.

Lemma durable_fail w id message :
  durable w → durable (snd (on_db (S:=S) (fail_operation ws id message) w)).
Proof.
  intros Hd. unfold on_db, mbind, M_bind, tick.
  assert (∀ fs, durable (snd (db_call (fail_operation ws id message) (mkWorld (w_storage w) (w_db w) fs)))) as Hcall.
  { intros fs. destruct w as [s d fs0]. assert (durable (mkWorld s d fs)) as Hsame by exact Hd.
    destruct Hd as (Hs & Hc & Hl & Hrows). cbn in *.
    unfold db_call, fail_operation, update_operation, transaction. cbn. rewrite gets_bind.
    destruct (db_operations d !! id) as [row|] eqn:Hrow; cbn; [|exact Hsame].
    destruct (op_workspaceId row === ws) eqn:Hws; cbn; [|exact Hsame].
    assert (∀ row', (∀ s d, row_ok s d id row → row_ok s d id row') →
      durable (mkWorld s (set_operations <[id := row']> d) fs)) as Hset.
    { intros row' Hok. split_and!; try done. cbn. intros id' Hid'.
      destruct (Hrows id' Hid') as (r & Hr & Hrok). destruct (decide (id' = id)) as [->|Hne].
      - exists row'. rewrite lookup_insert_eq. split; [done|]. apply Hok. assert (r = row) as -> by congruence. done.
      - exists r. rewrite lookup_insert_ne by done. done. }
    destruct (op_state row === completed); cbn; apply Hset; auto. }
  destruct w as [s d fs]. cbn in *. destruct fs as [|[] fs]; [apply Hcall|apply Hcall|done|done].
Qed.

(** The id a new operation row would get. *)
Definition new_id (w : World S) (newId : string) : Prop :=
  SAFE_ID_PATTERN newId = true ∧ db_operations (w_db w) !! newId = None.

Lemma begin_run w newId :
  durable w → new_id w newId →
  ∃ id row d', begin_ newId ws (in_idempotencyKey input) (requestHash input) (w_db w) = (Ok row, d') ∧
    db_blobs d' = db_blobs (w_db w) ∧ catalog_ok (w_storage w) d' ∧
    db_index d' !! (ws, in_idempotencyKey input) = Some id ∧
    db_operations d' !! id = Some row ∧ row_ok (w_storage w) d' id row.
Proof.
  intros (Hs & Hc & Hl & Hrows) [Hsafe Hnew]. unfold begin_, transaction. run.
  destruct (db_index (w_db w) !! (ws, in_idempotencyKey input)) as [id|] eqn:Hi; run.
  - destruct (Hrows id eq_refl) as (row & Hrow & Hok). rewrite Hrow. run. exists id, row, (w_db w). done.
  - rewrite Hnew. rewrite bool_decide_eq_false_2 by (intros [? ?]; done). run.
    eexists newId, _, _. split; [reflexivity|]. cbn.
    rewrite !lookup_insert_eq. split_and!; try done.
    destruct Hrq as [Hk _ _ _ _]. apply canonicalObjectKey_Ok in Hk as (Hws & _).
    split_and!; try done; cbn; try (by intros ?%elem_of_nil).
    eexists. split; [by apply temporaryObjectKey_Ok|]. right. split_and!; cbn; by intros ?%elem_of_nil.
Qed.

(** One attempt, whatever the faults: the durable invariant is kept; a clean
    attempt returns, and what it returns was delivered. *)
Lemma attempt w newId :
  durable w → new_id w newId → fresh_blob (w_db w) → (clean → w_faults w = []) →
  let '(r, w') := ingest provider input nowMillis now newId blobId w in
  durable w' ∧
  match r with
  | Ok res => ∃ id row, db_index (w_db w') !! (ws, in_idempotencyKey input) = Some id ∧
      db_operations (w_db w') !! id = Some row ∧ row_ok (w_storage w') (w_db w') id row ∧
      delivered res (w_db w') row
  | Err _ => ¬ clean
  end.
Proof.
  intros Hd Hnew Hfresh Hclean. unfold ingest, on_db. rewrite bind_bind.
  assert (∀ fs, (clean → fs = []) → let '(r, w') :=
    (db_call (begin_ newId ws (in_idempotencyKey input) (requestHash input)) ≫= λ operation,
     throw_when (op_requestHash operation !== requestHash input)
       (IngestError "Idempotency key was already used for a different ingest request.") ≫= λ _,
     try_or_fail input (op_id operation)
       (mkLocals (op_checkpoints operation) (op_context operation) (result_blob <$> op_result operation)
          (from_option result_deduplicated false (op_result operation)))
       (ingest_body provider input nowMillis now blobId (op_id operation)
          (negb (bool_decide (op_checkpoints operation = []))))) (mkWorld (w_storage w) (w_db w) fs) in
    durable w' ∧
    match r with
    | Ok res => ∃ id row, db_index (w_db w') !! (ws, in_idempotencyKey input) = Some id ∧
        db_operations (w_db w') !! id = Some row ∧ row_ok (w_storage w') (w_db w') id row ∧
        delivered res (w_db w') row
    | Err _ => ¬ clean
    end) as Hmain.
  { intros fs Hfs. destruct (begin_run w newId Hd Hnew) as (id & row & d' & HB & Hbl & Hc & Hi & Hrow & Hok).
    unfold mbind at 1, M_bind at 1, db_call. cbn. rewrite HB. cbn.
    destruct Hd as (Hs & _ & Hl & _).
    pose proof Hok as (Hid & Hws & Hrh & _ & _ & tk & Htk & _).
    rewrite Hrh, Hid, throw_when_bind, strict_ne_refl. unfold try_or_fail.
    set (r0 := mkRun _ (mkWorld (w_storage w) d' fs)).
    assert (inside id entering r0) as Hr0.
    { unfold inside, r0; cbn. split_and!; try done. exists row. split_and!; try done.
      split; [|done]. intros Hcl. rewrite Hbl. by apply Hfresh. }
    pose proof (spec_body id (negb (bool_decide (op_checkpoints row = []))) tk Htk r0 Hr0) as Hbody.
    destruct (ingest_body _ _ _ _ _ _ _ r0) as [[res|e] r1].
    - split; [by eapply inside_durable|].
      destruct Hbody as (_ & _ & _ & Hi1 & row1 & Hrow1 & Hok1 & _ & _ & Hdel). eauto 10.
    - destruct Hbody as [Hd1 Hncl]. split; [by apply durable_fail|done]. }
  unfold mbind at 1, M_bind at 1, tick. destruct w as [s d fs]. cbn in *.
  destruct fs as [|[] fs]; [by apply Hmain| | |].
  - apply Hmain. intros Hcl. by specialize (Hclean Hcl).
  - split; [done|]. intros Hcl. by specialize (Hclean Hcl).
  - split; [done|]. intros Hcl. by specialize (Hclean Hcl).
Qed.
End Recovery.

(** ** Histories: attempts with faults, and other operations in between *)

Definition with_faults {S} (fs : list fault) (w : World S) : World S := mkWorld (w_storage w) (w_db w) fs.

Section Histories.
Context {S : Type} `{JsDate} `{Crypto} `{!ObjectStorage S} `{!ObjectStorageLaws S}.
Context (provider : string) (input : IngestInput) (ckey : string).
Abbreviation ws := (in_workspaceId input).
Abbreviation bytes := (in_bytes input).
Abbreviation sha := (sha256 (in_bytes input)).
Abbreviation op_key := (ws, in_idempotencyKey input).

(** What other operations may do to the world: anything that respects the
    store's contract and the catalogue, leaves this operation's row and
    temporary object alone, and removes nothing that was committed. *)
Record interference (w w' : World S) : Prop := mkInterference {
  others_storage : storage_inv (w_storage w');
  others_catalog : catalog_ok (w_storage w') (w_db w');
  others_length : length_ok input ckey (w_storage w');
  others_index : db_index (w_db w') !! op_key = db_index (w_db w) !! op_key;
  others_row id : db_index (w_db w) !! op_key = Some id →
    db_operations (w_db w') !! id = db_operations (w_db w) !! id;
  others_temporary id tk : db_index (w_db w) !! op_key = Some id → temporaryObjectKey ws id = Ok tk →
    ∀ b m, stored (w_storage w) tk b m ↔ stored (w_storage w') tk b m;
  others_committed : occupied (w_storage w) ckey → occupied (w_storage w') ckey;
  others_blob blob : db_blobs (w_db w) !! (ws, sha) = Some blob →
    ∃ blob', db_blobs (w_db w') !! (ws, sha) = Some blob' ∧ same_object blob blob';
  others_audit id : audited (w_db w) id → audited (w_db w') id;
  others_outbox id : announced (w_db w) id → announced (w_db w') id;
}.

Lemma durable_interference w w' : durable input ckey w → interference w w' → durable input ckey w'.
Proof.
  intros (Hs & Hc & Hl & Hrows) [Hs' Hc' Hl' Hi' Hr' Ht' Hk' Hb' Ha' Hn'].
  split_and!; try done. intros id Hid. rewrite Hi' in Hid.
  destruct (Hrows id Hid) as (row & Hrow & ? & ? & ? & Hm & Hd & tk & Htk & Hp).
  exists row. rewrite (Hr' id Hid). split; [done|].
  assert (catalogued input (w_db w) → catalogued input (w_db w')) as Hcat.
  { intros [b Hb]. destruct (Hb' b Hb) as (b' & ? & _). by exists b'. }
  split_and!; try done.
  - intros Hin. destruct (Hm Hin) as (? & ? & ?). auto.
  - intros Hin. destruct (Hd Hin) as (res & b & Hres & Hb & Hsame).
    destruct (Hb' b Hb) as (b' & Hb'' & Hsame'). exists res, b'. split_and!; try done.
    destruct Hsame, Hsame'. split; congruence.
  - exists tk. split; [done|]. destruct Hp as [?|(HT & HB & HI)]; [left; auto|right].
    specialize (Ht' id tk Hid Htk). split_and!; [done|..].
    + intros Hin. destruct (HB Hin) as [Hst|[Hno Hock]]; [left; by apply Ht'|right].
      split; [|auto]. intros (b & m & Hst). apply Hno. exists b, m. by apply Ht'.
    + intros Hin. destruct (HI Hin). auto.
Qed.

(** The worlds a request can find itself in. *)
Inductive served : World S → Prop :=
  | served_start w :
      storage_inv (w_storage w) → catalog_ok (w_storage w) (w_db w) → length_ok input ckey (w_storage w) →
      db_index (w_db w) !! op_key = None → served w
  | served_attempt w fs nowMillis now newId blobId :
      served w → new_id w newId →
      served (snd (ingest provider input nowMillis now newId blobId (with_faults fs w)))
  | served_others w w' : served w → interference w w' → served w'.

Lemma served_durable w : request_ok input ckey → served w → durable input ckey w.
Proof.
  intros Hrq Hw. induction Hw as [w Hs Hc Hl Hi|w fs nm now newId blobId Hw IH Hnew|w w' Hw IH Hint].
  - split_and!; try done. intros id Hid. congruence.
  - pose proof (attempt provider input ckey Hrq False nm now blobId (with_faults fs w) newId) as Ha.
    destruct (ingest _ _ _ _ _ _ _) as [r w']. apply Ha; [exact IH|exact Hnew|by intros ?|by intros ?].
  - by eapply durable_interference.
Qed.

(** C1. Ingest recovers from any fault: after any number of attempts, each
    interrupted by exceptions or a crash at any of its calls, and with other
    operations interleaved, one undisturbed attempt with the same idempotency
    key returns; the blob it returns is the catalogue's row for the digest,
    its storage key holds bytes with that digest (the uploaded bytes, or a
    SHA-256 collision with them) and the row's length, the operation is marked
    completed with the blob as its result, and its audit event and outbox
    message are recorded. *)
Theorem ingest_recovers w nowMillis now newId blobId :
  request_ok input ckey → served w → new_id w newId →
  (∀ k b, db_blobs (w_db w) !! k = Some b → k ≠ (ws, sha) → blob_id b ≠ blobId) →
  ∃ res w' id row,
    ingest provider input nowMillis now newId blobId (with_faults [] w) = (Ok res, w') ∧
    db_blobs (w_db w') !! (ws, sha) = Some (ingest_blob res) ∧
    (∃ b m, stored (w_storage w') (blob_storageKey (ingest_blob res)) b m ∧
       (b = bytes ∨ sha256_collision b bytes) ∧ byteLength b = blob_byteLength (ingest_blob res)) ∧
    db_index (w_db w') !! op_key = Some id ∧ db_operations (w_db w') !! id = Some row ∧
    completed ∈ op_checkpoints row ∧
    (∃ out, op_result row = Some out ∧ same_object (result_blob out) (ingest_blob res)) ∧
    audited (w_db w') id ∧ announced (w_db w') id.
Proof.
  intros Hrq Hw Hnew Hfresh. pose proof (served_durable w Hrq Hw) as Hd.
  pose proof (attempt provider input ckey Hrq True nowMillis now blobId (with_faults [] w) newId) as Ha.
  destruct (ingest _ _ _ _ _ _ _) as [r w'].
  destruct Ha as [Hd' Hr]; [exact Hd|exact Hnew|by intros _|done|].
  destruct r as [res|e]; [|by destruct Hr]. destruct Hr as (id & row & Hi & Hrow & Hok & Hb & Hm & Hc).
  exists res, w', id, row. destruct Hok as (_ & _ & _ & Hmeta & Hdone & _).
  destruct (Hmeta Hm) as (_ & Haud & Hann). destruct (Hdone Hc) as (out & blob & Hout & Hblob & Hsame).
  destruct Hd' as (_ & Hcat & _). destruct (Hcat _ _ _ Hb) as (_ & _ & _ & (b & m & Hst & Hsha & Hlen) & _).
  assert (blob = ingest_blob res) as -> by congruence.
  split_and!; try done; [|by eauto]. exists b, m. split_and!; try done. by apply sha256_eq_or_collision.
Qed.
End Histories.

(** ** ImmutableObjectIngestor: the same without an operation record *)

Section Immutable.
Context {S : Type} `{JsDate} `{Crypto} `{!ObjectStorage S}.

(** [try { body } catch (error) { await deleteTemporary(...).catch(() => undefined); throw error; }] *)
Definition or_discard {A} (key : string) (body : M (World S) ingest_exn A) : M (World S) ingest_exn A := λ w,
  match body w with
  | (Ok a, w') => (Ok a, w')
  | (Err e, w') => (Err e, snd (on_storage (deleteTemporary key) w'))
  end.

(** Source: packages/operations/src/object-ingest.ts:286-349 ImmutableObjectIngestor *)
Definition ingest_immutable (provider : string) (nowMillis : Z) (now blobId operationId : string)
    (workspaceId bytes mediaType : string) : M (World S) ingest_exn (BlobObject * bool) :=
  let sha := sha256 bytes in
  on_db (findByHash workspaceId sha) ≫= λ existing,
  match existing with
  | Some existing => mret (existing, true)
  | None =>
      on_storage (createTemporaryUpload nowMillis workspaceId operationId) ≫= λ temporary,
      or_discard (temporary_key temporary) (
        on_storage (writeTemporary (temporary_key temporary) [bytes] mediaType) ≫= λ received,
        throw_when (metadata_byteLength received !== byteLength bytes)
          (IngestError "Stored byte length does not match the supplied object.") ≫= λ _,
        on_storage (commitImmutable (mkCommit (temporary_key temporary) workspaceId sha
          (JInt (byteLength bytes)) mediaType)) ≫= λ stored,
        throw_when ((metadata_sha256 stored !== Some sha) || (metadata_byteLength stored !== byteLength bytes))
          (IngestError "Immutable object verification failed.") ≫= λ _,
        on_db (recordVerified (mkBlob blobId workspaceId sha (byteLength bytes) mediaType provider
          (metadata_key stored) provider_managed None verification_verified now None None)) ≫= λ blob,
        mret (blob, false))
  end.
End Immutable.

(** ** Witness and findings *)

Module IngestWitness.
Definition request (actor key : string) : IngestInput :=
  mkIngest "ws-1" actor "user" key "trusted bytes" "text/plain" None None.
Definition input : IngestInput := request "u-1" "idem-1".
Definition key : string := MemoryWitness.key.
Definition empty_db : Database := mkDatabase ∅ ∅ ∅ [] [].
Definition start : World MemoryObjectStorage := mkWorld (mem_init true) empty_db [].

Definition call (n : string) (inp : IngestInput) (fs : list fault) (w : World MemoryObjectStorage) :=
  ingest "s3-compatible" inp 0 "100" ("op-" +:+ n) ("blob-" +:+ n) (with_faults fs w).

(** The process stops after the object was committed and before that was
    recorded; the next attempt gets an exception from the catalogue. *)
Definition crashed : World MemoryObjectStorage :=
  snd (call "2" input (replicate 6 Proceed ++ [Throws])
    (snd (call "1" input (replicate 15 Proceed ++ [Stops]) start))).

Example crash_point :
  match db_operations (w_db crashed) !! "op-1" with
  | Some row => op_state row = failed_retryable ∧
      op_checkpoints row = [authorised; temporary_upload_created; bytes_received; hash_verified;
                            immutable_object_committed]
  | None => False
  end.
Proof. vm_compute. done. Qed.

Lemma input_ok : request_ok input key.
Proof. constructor; vm_compute; (reflexivity || discriminate). Qed.

Lemma crashed_served : served "s3-compatible" input key crashed.
Proof.
  apply served_attempt; [apply served_attempt|].
  - apply served_start.
    + apply mem_inv_init.
    + intros w h b Hb. vm_compute in Hb. discriminate Hb.
    + intros b m (o & Ho & _). vm_compute in Ho. discriminate Ho.
    + reflexivity.
  - split; vm_compute; reflexivity.
  - split; vm_compute; reflexivity.
Qed.

Lemma ingest_recovers_witness :
  ∃ res w', call "3" input [] crashed = (Ok res, w') ∧
    db_blobs (w_db w') !! ("ws-1", sha256 "trusted bytes") = Some (ingest_blob res).
Proof.
  destruct (ingest_recovers "s3-compatible" input key crashed 0 "100" "op-3" "blob-3")
    as (res & w' & id & row & HR & Hb & _).
  - apply input_ok.
  - apply crashed_served.
  - split; vm_compute; reflexivity.
  - intros k b Hb. vm_compute in Hb. discriminate Hb.
  - exists res, w'. split; [exact HR|exact Hb].
Defined.

(** Replaying a completed request reports a deduplicated object where the
    first response reported a new one. *)
Theorem replay_changes_deduplicated :
  let '(first, w1) := call "1" input [] start in
  let '(second, _) := call "2" input [] w1 in
  match first, second with
  | Ok a, Ok b => ingest_operationId a = ingest_operationId b ∧ ingest_blob a = ingest_blob b ∧
                  ingest_deduplicated a = false ∧ ingest_deduplicated b = true
  | _, _ => False
  end.
Proof. vm_compute. done. Qed.

(** A request that fails authorisation is moved from [requested] to
    [failed_retryable], a transition the lifecycle does not have. *)
Theorem rejected_ingest_leaves_lifecycle :
  match db_operations (w_db (snd (call "1" (request "" "idem-1") [] start))) !! "op-1" with
  | Some row => op_checkpoints row = [] ∧ op_state row = failed_retryable
  | None => False
  end ∧ canTransition requested failed_retryable = false.
Proof. vm_compute. done. Qed.
End IngestWitness.
