(* ===== verification/History.v ===== *)
(** * packages/operations, history-service.ts: revisions, deletion, restoration

    [ResourceHistoryService] over [PostgresHistoryRepository]
    (packages/persistence-postgres/src/history-repository.ts): each operation is
    one database transaction.  The clock and the identifiers are arguments of a
    call.  The unique indexes and primary keys of the tables are modelled as the
    errors an insert that violates them throws.  [localeCompare], which orders
    the keys of a hashed payload, is a parameter. *)
From S2P Require Import Prelude Js Concrete Json AuditChain Core UploadMachine IngestStore.

(** ** Tables *)

(** Source: packages/operations/src/history-service.ts:52-61 HistoryOutboxEvent *)
Record HistoryOutboxEvent := mkHistoryOutbox {
  hout_id : string;
  hout_workspaceId : string;
  hout_actorId : string;
  hout_eventType : string;
  hout_subjectId : string;
  hout_occurredAt : string;
  hout_payload : list (string * json);
}.

(** Source: packages/operations/src/history-service.ts:43-51 HistoryAuditEvent *)
Record HistoryAuditEvent := mkHistoryAudit {
  haud_workspaceId : string;
  haud_datasetId : string;
  haud_actorId : string;
  haud_action : string;
  haud_subjectId : string;
  haud_occurredAt : string;
  haud_metadata : json;
}.

Record HistoryDb := mkHistoryDb {
  h_resources : gmap string Resource;
  h_revisions : gmap string Revision;
  h_tombstones : list Tombstone;
  h_audit : list AuditRow;
  h_operations : gmap string (string * string * string); (* id to (type, workspace, key) *)
  h_outbox : list OutboxRow;
}.

Inductive history_exn :=
  | HistoryConflictError
  | NotFound (message : string)
  | InvariantError (code : TrustErrorCode)
  | HistoryUniqueViolation.
#[global] Instance history_exn_eq_dec : EqDecision history_exn.
Proof. solve_decision. Defined.

Abbreviation Hist := (M HistoryDb history_exn).

(** ** PostgresHistoryRepository *)

(** Source: packages/persistence-postgres/src/history-repository.ts:26-37 getResource *)
Definition getResource (workspaceId resourceId : string) : Hist (option Resource) :=
  gets (λ h, match h_resources h !! resourceId with
             | Some r => if resource_workspaceId r === workspaceId then Some r else None
             | None => None
             end).

(** Source: packages/persistence-postgres/src/history-repository.ts:38-49 getRevision *)
Definition getRevision (workspaceId revisionId : string) : Hist (option Revision) :=
  gets (λ h, match h_revisions h !! revisionId with
             | Some r => if revision_workspaceId r === workspaceId then Some r else None
             | None => None
             end).

(** [id] and [(resource_id, revision_number)] are unique. *)
Definition revision_taken (h : HistoryDb) (v : Revision) : bool :=
  bool_decide (is_Some (h_revisions h !! revision_id v)) ||
  existsb (λ r, (revision_resourceId r === revision_resourceId v) &&
                (revision_revisionNumber r === revision_revisionNumber v))
    (map_to_list (h_revisions h)).*2.

(** Source: packages/persistence-postgres/src/history-repository.ts:50-75 appendRevision *)
Definition appendRevision (v : Revision) : Hist unit :=
  gets (λ h, revision_taken h v) ≫= λ taken : bool,
  throw_when taken HistoryUniqueViolation ≫= λ _,
  modify (λ h, mkHistoryDb (h_resources h) (<[revision_id v := v]> (h_revisions h)) (h_tombstones h)
    (h_audit h) (h_operations h) (h_outbox h)).

(** [{ ...resource, currentRevisionId, status, updatedAt }] *)
Definition with_head (r : Resource) (next : option string) (status : ResourceStatus) (updatedAt : string)
    : Resource :=
  mkResource (resource_id r) (resource_workspaceId r) (resource_datasetId r) (resource_resourceType r)
    (resource_title r) status next (resource_createdBy r) (resource_createdAt r) updatedAt.

(** Source: packages/persistence-postgres/src/history-repository.ts:76-98 setResourceHead *)
Definition setResourceHead (workspaceId resourceId : string) (expected next : option string)
    (status : ResourceStatus) (updatedAt : string) : Hist bool :=
  gets (λ h, h_resources h !! resourceId) ≫= λ row,
  match row with
  | Some r =>
      if (resource_workspaceId r === workspaceId) && (resource_currentRevisionId r === expected)
      then modify (λ h, mkHistoryDb (<[resourceId := with_head r next status updatedAt]> (h_resources h))
             (h_revisions h) (h_tombstones h) (h_audit h) (h_operations h) (h_outbox h)) ≫= λ _,
           mret true
      else mret false
  | None => mret false
  end.

(** The partial unique index on open tombstones of a resource. *)
Definition open_tombstone (workspaceId resourceId : string) (t : Tombstone) : bool :=
  (tombstone_workspaceId t === workspaceId) && (tombstone_subjectKind t === subject_resource) &&
  (tombstone_subjectId t === resourceId) && (tombstone_restoredAt t === None) &&
  (tombstone_purgeState t !== purged).

Definition set_tombstones (f : list Tombstone → list Tombstone) (h : HistoryDb) : HistoryDb :=
  mkHistoryDb (h_resources h) (h_revisions h) (f (h_tombstones h)) (h_audit h) (h_operations h) (h_outbox h).

(** Source: packages/persistence-postgres/src/history-repository.ts:99-118 addTombstone *)
Definition addTombstone (v : Tombstone) : Hist unit :=
  gets (λ h, existsb (λ t, tombstone_id t === tombstone_id v) (h_tombstones h) ||
             (open_tombstone (tombstone_workspaceId v) (tombstone_subjectId v) v &&
              existsb (open_tombstone (tombstone_workspaceId v) (tombstone_subjectId v)) (h_tombstones h)))
    ≫= λ taken : bool,
  throw_when taken HistoryUniqueViolation ≫= λ _,
  modify (set_tombstones (λ ts, ts ++ [v])).

Section Repository.
Context `{JsDate} `{Crypto}.

(** [ORDER BY deleted_at DESC LIMIT 1] *)
Definition later_deleted (a b : Tombstone) : bool :=
  (default 0%Z (Date_parse (tombstone_deletedAt b)) <? default 0%Z (Date_parse (tombstone_deletedAt a)))%Z.

(** Source: packages/persistence-postgres/src/history-repository.ts:119-130 getOpenTombstone *)
Definition getOpenTombstone (workspaceId resourceId : string) : Hist (option Tombstone) :=
  gets (λ h, fold_left (λ best t, match best with
                                  | None => Some t
                                  | Some b => if later_deleted t b then Some t else Some b
                                  end)
               (List.filter (open_tombstone workspaceId resourceId) (h_tombstones h)) None).

(** [{ ...tombstone, restored_at, restored_by }] *)
Definition closed_tombstone (now restoredBy : string) (t : Tombstone) : Tombstone :=
  mkTombstone (tombstone_id t) (tombstone_workspaceId t) (tombstone_datasetId t) (tombstone_subjectKind t)
    (tombstone_subjectId t) (tombstone_deletedBy t) (tombstone_deletedAt t) (tombstone_reason t)
    (tombstone_recoverUntil t) (tombstone_priorRevisionId t) (Some now) (Some restoredBy)
    (tombstone_purgeState t).

(** Source: packages/persistence-postgres/src/history-repository.ts:131-142 closeTombstone *)
Definition closeTombstone (now workspaceId tombstoneId restoredBy : string) : Hist unit :=
  modify (set_tombstones (map (λ t,
    if (tombstone_workspaceId t === workspaceId) && (tombstone_id t === tombstoneId) &&
       (tombstone_restoredAt t === None)
    then closed_tombstone now restoredBy t else t))).

(** The identifiers [randomUUID] returns to one [appendAudit]. *)
Record AuditIds := mkAuditIds { aud_id : string; aud_requestId : string; aud_correlationId : string }.

(** Source: packages/persistence-postgres/src/history-repository.ts:143-189 appendAudit *)
Definition appendAudit (ids : AuditIds) (event : HistoryAuditEvent) : Hist unit :=
  gets (λ h, latest_event (haud_workspaceId event) (h_audit h)) ≫= λ previous,
  let chained := appendAuditEvent
    (mkAuditBody (aud_id ids) (haud_workspaceId event) "user" (haud_actorId event) (haud_action event)
       "resource" (haud_subjectId event) (haud_occurredAt event) (aud_requestId ids)
       (aud_correlationId ids) (haud_metadata event))
    (from_option (λ r, eventHash (audit_event r)) EmptyString previous) in
  gets (λ h, existsb (λ r, event_id (chained_body (audit_event r)) === aud_id ids) (h_audit h)) ≫= λ taken : bool,
  throw_when taken HistoryUniqueViolation ≫= λ _,
  modify (λ h, mkHistoryDb (h_resources h) (h_revisions h) (h_tombstones h)
    (h_audit h ++ [mkAuditRow chained EmptyString]) (h_operations h) (h_outbox h)).

(** Source: packages/persistence-postgres/src/history-repository.ts:190-218 enqueueOutbox *)
Definition enqueueOutbox (event : HistoryOutboxEvent) : Hist unit :=
  let row := (hout_eventType event, hout_workspaceId event, hout_id event) in
  gets (λ h, bool_decide (row ∈ (map_to_list (h_operations h)).*2)) ≫= λ present : bool,
  (if present then mret tt
   else
     gets (λ h, bool_decide (is_Some (h_operations h !! hout_id event))) ≫= λ taken : bool,
     throw_when taken HistoryUniqueViolation ≫= λ _,
     modify (λ h, mkHistoryDb (h_resources h) (h_revisions h) (h_tombstones h) (h_audit h)
       (<[hout_id event := row]> (h_operations h)) (h_outbox h))) ≫= λ _,
  let outboxId := deterministicUuid ("history-outbox:" +:+ hout_id event) in
  modify (λ h, if existsb (λ r, outbox_id r === outboxId) (h_outbox h) then h
    else mkHistoryDb (h_resources h) (h_revisions h) (h_tombstones h) (h_audit h) (h_operations h)
           (h_outbox h ++ [mkOutbox outboxId (hout_workspaceId event) (hout_id event) (hout_eventType event)
              (JObject (("subjectId", JString (hout_subjectId event)) :: hout_payload event))])).
End Repository.

(** ** ResourceHistoryService *)

(** What the injected [now], [nextId] and [randomUUID] return in one call. *)
Record CallEnv := mkEnv { env_now : string; env_id : string; env_audit : AuditIds }.

(** Source: packages/operations/src/history-service.ts:62-73 CreateRevisionInput *)
Record CreateRevisionInput := mkCreate {
  cr_workspaceId : string;
  cr_resourceId : string;
  cr_expectedRevisionId : option string;
  cr_schemaPackageId : string;
  cr_schemaVersion : string;
  cr_canonicalPayload : list (string * json);
  cr_actorId : string;
  cr_source : option RevisionSource;
  cr_changeNote : option string;
  cr_restoredFromRevisionId : option string;
}.

Definition source_name (s : RevisionSource) : string :=
  match s with
  | source_user => "user" | source_application => "application" | source_import => "import"
  | source_restore => "restore" | source_merge => "merge"
  end.

Definition json_of_option (o : option string) : json :=
  match o with Some s => JString s | None => JNull end.

(** [a < b] on strings. *)
Definition string_lt (a b : string) : bool := negb (String.leb b a).

Section Service.
Context `{JsDate} `{Crypto} (localeLe : string → string → bool).

(** Source: packages/operations/src/history-service.ts:303-315 hashCanonical *)
Definition hashCanonical (payload : list (string * json)) : string :=
  sha256 (canonical_with localeLe (JObject payload)).

(** Source: packages/operations/src/history-service.ts:316-324 requiredResource *)
Definition requiredResource (workspaceId resourceId : string) : Hist Resource :=
  getResource workspaceId resourceId ≫= λ value,
  match value with Some r => mret r | None => throw (NotFound "Resource not found.") end.

(** Source: packages/operations/src/history-service.ts:325-333 requiredRevision *)
Definition requiredRevision (workspaceId revisionId : string) : Hist Revision :=
  getRevision workspaceId revisionId ≫= λ value,
  match value with Some r => mret r | None => throw (NotFound "Revision not found.") end.

(** The revision a call proposes. *)
Definition proposed_revision (env : CallEnv) (input : CreateRevisionInput) (resource : Resource)
    (current : option Revision) : Revision :=
  mkRevision (env_id env) (resource_workspaceId resource) (resource_datasetId resource) (resource_id resource)
    (from_option revision_revisionNumber 0 current + 1)%Z (revision_id <$> current) []
    (cr_schemaPackageId input) (cr_schemaVersion input) (cr_canonicalPayload input)
    (hashCanonical (cr_canonicalPayload input)) (cr_actorId input) None
    (default source_user (cr_source input)) (cr_changeNote input) (cr_restoredFromRevisionId input)
    (env_now env).

(** Source: packages/operations/src/history-service.ts:96-182 createRevisionWithin *)
Definition createRevisionWithin (env : CallEnv) (input : CreateRevisionInput) : Hist Revision :=
  requiredResource (cr_workspaceId input) (cr_resourceId input) ≫= λ resource,
  (if truthy (resource_currentRevisionId resource)
   then requiredRevision (cr_workspaceId input) (default EmptyString (resource_currentRevisionId resource))
          ≫= λ r, mret (Some r)
   else mret None) ≫= λ current,
  throw_when (resource_currentRevisionId resource !== cr_expectedRevisionId input) HistoryConflictError ≫= λ _,
  let revision := proposed_revision env input resource current in
  lift (match assertNextRevision resource current revision with
        | Ok _ => Ok tt | Err code => Err (InvariantError code) end) ≫= λ _,
  appendRevision revision ≫= λ _,
  setResourceHead (resource_workspaceId resource) (resource_id resource) (cr_expectedRevisionId input)
    (Some (revision_id revision)) active (env_now env) ≫= λ moved : bool,
  throw_when (negb moved) HistoryConflictError ≫= λ _,
  appendAudit (env_audit env) (mkHistoryAudit (resource_workspaceId resource) (resource_datasetId resource)
    (cr_actorId input) "revision.created" (resource_id resource) (env_now env)
    (JObject [("revisionId", JString (revision_id revision));
              ("revisionNumber", JNumber (revision_revisionNumber revision));
              ("source", JString (source_name (revision_source revision)))])) ≫= λ _,
  enqueueOutbox (mkHistoryOutbox (revision_id revision) (resource_workspaceId resource) (cr_actorId input)
    (if revision_source revision === source_restore then "resource.restored" else "resource.revision_created")
    (resource_id resource) (env_now env)
    [("datasetId", JString (resource_datasetId resource)); ("revisionId", JString (revision_id revision));
     ("revisionNumber", JNumber (revision_revisionNumber revision));
     ("source", JString (source_name (revision_source revision)))]) ≫= λ _,
  mret revision.

(** Source: packages/operations/src/history-service.ts:90-94 createRevision *)
Definition createRevision (env : CallEnv) (input : CreateRevisionInput) : Hist Revision :=
  transaction (createRevisionWithin env input).

(** Source: packages/operations/src/history-service.ts:184-254 deleteResource *)
Definition deleteResource (env : CallEnv) (workspaceId resourceId : string)
    (expectedRevisionId : option string) (actorId : string) (recoverUntil reason : option string)
    : Hist Tombstone :=
  transaction (
    requiredResource workspaceId resourceId ≫= λ resource,
    throw_when (resource_currentRevisionId resource !== expectedRevisionId) HistoryConflictError ≫= λ _,
    let tombstone := mkTombstone (env_id env) (resource_workspaceId resource) (resource_datasetId resource)
      subject_resource (resource_id resource) actorId (env_now env) reason recoverUntil
      (resource_currentRevisionId resource) None None not_eligible in
    addTombstone tombstone ≫= λ _,
    setResourceHead (resource_workspaceId resource) (resource_id resource) expectedRevisionId
      (resource_currentRevisionId resource) deleted_logically (env_now env) ≫= λ moved : bool,
    throw_when (negb moved) HistoryConflictError ≫= λ _,
    appendAudit (env_audit env) (mkHistoryAudit (resource_workspaceId resource) (resource_datasetId resource)
      actorId "resource.deleted_logically" (resource_id resource) (env_now env)
      (JObject [("tombstoneId", JString (tombstone_id tombstone));
                ("recoverUntil", json_of_option (tombstone_recoverUntil tombstone))])) ≫= λ _,
    enqueueOutbox (mkHistoryOutbox (tombstone_id tombstone) (resource_workspaceId resource) actorId
      "resource.deleted" (resource_id resource) (env_now env)
      [("datasetId", JString (resource_datasetId resource)); ("tombstoneId", JString (tombstone_id tombstone));
       ("recoverUntil", json_of_option (tombstone_recoverUntil tombstone))]) ≫= λ _,
    mret tombstone).

(** Source: packages/operations/src/history-service.ts:256-300 restoreResource *)
Definition restoreResource (env : CallEnv) (workspaceId resourceId actorId : string)
    (changeNote : option string) : Hist Revision :=
  transaction (
    requiredResource workspaceId resourceId ≫= λ resource,
    getOpenTombstone workspaceId resourceId ≫= λ tombstone,
    match tombstone with
    | None => throw (NotFound "No recoverable deletion exists for this resource.")
    | Some tombstone =>
        throw_when (negb (truthy (tombstone_priorRevisionId tombstone)))
          (NotFound "No recoverable deletion exists for this resource.") ≫= λ _,
        throw_when (truthy (tombstone_recoverUntil tombstone) &&
                    string_lt (default EmptyString (tombstone_recoverUntil tombstone)) (env_now env))
          (NotFound "The recovery window has expired.") ≫= λ _,
        requiredRevision workspaceId (default EmptyString (tombstone_priorRevisionId tombstone)) ≫= λ prior,
        createRevisionWithin env (mkCreate workspaceId resourceId (resource_currentRevisionId resource)
          (revision_schemaPackageId prior) (revision_schemaVersion prior) (revision_canonicalPayload prior)
          actorId (Some source_restore) (Some (default "Restored deleted resource" changeNote))
          (Some (revision_id prior))) ≫= λ restored,
        closeTombstone (env_now env) workspaceId (tombstone_id tombstone) actorId ≫= λ _,
        mret restored
    end).
End Service.

(** ** The invariant of a history *)

Section HistoryInvariant.
Context `{JsDate} `{Crypto} (localeLe : string → string → bool).

(** [r] is the first revision of its resource or the successor of one. *)
Definition linked (h : HistoryDb) (r : Revision) : Prop :=
  (revision_parentRevisionId r = None ∧ revision_revisionNumber r = 1%Z) ∨
  ∃ p, revision_parentRevisionId r = Some (revision_id p) ∧ h_revisions h !! revision_id p = Some p ∧
       revision_resourceId p = revision_resourceId r ∧ (1 <= revision_revisionNumber p)%Z ∧
       revision_revisionNumber r = (revision_revisionNumber p + 1)%Z.

Definition revisions_of (h : HistoryDb) (rid : string) (r : Revision) : Prop :=
  h_revisions h !! revision_id r = Some r ∧ revision_resourceId r = rid.

(** The head is the newest revision of its resource. *)
Definition head_ok (h : HistoryDb) (res : Resource) : Prop :=
  match resource_currentRevisionId res with
  | None => ∀ r, ¬ revisions_of h (resource_id res) r
  | Some c => c ≠ EmptyString ∧ ∃ r, revision_id r = c ∧ revisions_of h (resource_id res) r ∧
      revision_workspaceId r = resource_workspaceId res ∧
      revision_datasetId r = resource_datasetId res ∧
      ∀ r', revisions_of h (resource_id res) r' → (revision_revisionNumber r' <= revision_revisionNumber r)%Z
  end.

Record hist_ok (h : HistoryDb) : Prop := mkHistOk {
  ok_ids id r : h_revisions h !! id = Some r → revision_id r = id;
  ok_named id r : h_revisions h !! id = Some r → id ≠ EmptyString;
  ok_links id r : h_revisions h !! id = Some r → linked h r;
  ok_numbers r1 r2 rid : revisions_of h rid r1 → revisions_of h rid r2 →
    revision_revisionNumber r1 = revision_revisionNumber r2 → r1 = r2;
  ok_hashes id r : h_revisions h !! id = Some r →
    revision_canonicalPayloadHash r = hashCanonical localeLe (revision_canonicalPayload r);
  ok_heads id res : h_resources h !! id = Some res → resource_id res = id ∧ head_ok h res;
  ok_scope id res r : h_resources h !! id = Some res → revisions_of h id r →
    revision_workspaceId r = resource_workspaceId res ∧ revision_datasetId r = resource_datasetId res;
}.

(** ** Audit and outbox leave the history alone *)

Definition same_history (h h' : HistoryDb) : Prop :=
  h_resources h' = h_resources h ∧ h_revisions h' = h_revisions h ∧ h_tombstones h' = h_tombstones h.

Lemma appendAudit_Ok ids e h u h' : appendAudit ids e h = (Ok u, h') → same_history h h'.
Proof. unfold appendAudit. run. destruct (existsb _ _); [done|]. intros [= _ <-]. done. Qed.

(** [c] is chained to the newest event of its workspace and says what [e] says. *)
Definition audit_records (h : HistoryDb) (e : HistoryAuditEvent) (c : ChainedAuditEvent) : Prop :=
  event_workspaceId (chained_body c) = haud_workspaceId e ∧ event_actorId (chained_body c) = haud_actorId e ∧
  event_action (chained_body c) = haud_action e ∧ event_subjectId (chained_body c) = haud_subjectId e ∧
  event_metadata (chained_body c) = haud_metadata e ∧
  c = appendAuditEvent (chained_body c)
        (from_option (λ r, eventHash (audit_event r)) EmptyString (latest_event (haud_workspaceId e) (h_audit h))).

Definition audit_fresh (h : HistoryDb) (ids : AuditIds) : Prop :=
  existsb (λ r, event_id (chained_body (audit_event r)) === aud_id ids) (h_audit h) = false.

Lemma appendAudit_fresh ids e h :
  audit_fresh h ids →
  ∃ h' c, appendAudit ids e h = (Ok tt, h') ∧ same_history h h' ∧ h_operations h' = h_operations h ∧
    h_audit h' = h_audit h ++ [mkAuditRow c EmptyString] ∧ audit_records h e c.
Proof.
  unfold audit_fresh, appendAudit. intros Hf. run. rewrite Hf. run. do 2 eexists. split; [done|].
  split; [done|]. split; [done|]. split; [cbn; done|]. done.
Qed.

Lemma enqueueOutbox_fresh e h :
  h_operations h !! hout_id e = None →
  ∃ h', enqueueOutbox e h = (Ok tt, h') ∧ same_history h h' ∧ h_audit h' = h_audit h.
Proof.
  intros Hf. unfold enqueueOutbox. run. case_bool_decide; run.
  - destruct (existsb _ _); by eexists.
  - rewrite Hf. cbn. run. destruct (existsb _ _); by eexists.
Qed.

Lemma enqueueOutbox_Ok e h u h' : enqueueOutbox e h = (Ok u, h') → same_history h h'.
Proof.
  unfold enqueueOutbox. run. case_bool_decide; run.
  - destruct (existsb _ _); intros [= _ <-]; done.
  - case_bool_decide; [done|]. destruct (existsb _ _); intros [= _ <-]; done.
Qed.

Lemma setResourceHead_Ok w rid e n st t h h' :
  setResourceHead w rid e n st t h = (Ok true, h') →
  ∃ r, h_resources h !! rid = Some r ∧ resource_workspaceId r = w ∧ resource_currentRevisionId r = e ∧
    h' = mkHistoryDb (<[rid := with_head r n st t]> (h_resources h)) (h_revisions h) (h_tombstones h)
           (h_audit h) (h_operations h) (h_outbox h).
Proof.
  unfold setResourceHead. run. destruct (h_resources h !! rid) as [r|]; [|done].
  destruct (_ && _) eqn:E; run; [|done]. intros [= <-]. to_prop. by exists r.
Qed.

Lemma requiredResource_bind {B} w rid (f : Resource → Hist B) h b h' :
  (requiredResource w rid ≫= f) h = (Ok b, h') →
  ∃ r, h_resources h !! rid = Some r ∧ resource_workspaceId r = w ∧ f r h = (Ok b, h').
Proof.
  unfold requiredResource, getResource. run. destruct (h_resources h !! rid) as [r|] eqn:Hr; [|by run].
  case_bool_decide; run; [|done]. by exists r.
Qed.

Lemma requiredRevision_bind {B} w id (f : Revision → Hist B) h b h' :
  (requiredRevision w id ≫= f) h = (Ok b, h') →
  ∃ r, h_revisions h !! id = Some r ∧ revision_workspaceId r = w ∧ f r h = (Ok b, h').
Proof.
  unfold requiredRevision, getRevision. run. destruct (h_revisions h !! id) as [r|] eqn:Hr; [|by run].
  case_bool_decide; run; [|done]. by exists r.
Qed.

Lemma revision_taken_false h v :
  revision_taken h v = false ↔
  h_revisions h !! revision_id v = None ∧
  ∀ id r, h_revisions h !! id = Some r → revision_resourceId r = revision_resourceId v →
          revision_revisionNumber r ≠ revision_revisionNumber v.
Proof.
  unfold revision_taken. rewrite orb_false_iff, bool_decide_eq_false, <- eq_None_not_Some.
  apply and_iff_compat_l. rewrite <- not_true_iff_false, existsb_elem. split.
  - intros Hn id r Hr Hres Hnum. apply Hn. exists r. split.
    + apply list_elem_of_fmap. exists (id, r). split; [done|]. by apply elem_of_map_to_list.
    + rewrite andb_true_iff, !bool_decide_eq_true. done.
  - intros Hall (r & Hr & HG). apply list_elem_of_fmap in Hr as ([id r'] & -> & Hr).
    apply elem_of_map_to_list in Hr. to_prop. by eapply Hall.
Qed.

(** A successful [createRevisionWithin]. *)
Lemma createRevisionWithin_Ok env input h rev h' :
  createRevisionWithin localeLe env input h = (Ok rev, h') →
  ∃ res cur,
    h_resources h !! cr_resourceId input = Some res ∧ resource_workspaceId res = cr_workspaceId input ∧
    resource_currentRevisionId res = cr_expectedRevisionId input ∧
    match cur with
    | Some c => h_revisions h !! default EmptyString (resource_currentRevisionId res) = Some c
    | None => truthy (resource_currentRevisionId res) = false
    end ∧
    rev = proposed_revision localeLe env input res cur ∧ next_revision res cur rev ∧
    revision_taken h rev = false ∧
    h_revisions h' = <[env_id env := rev]> (h_revisions h) ∧
    (∃ stored, h_resources h !! resource_id res = Some stored ∧
       h_resources h' = <[resource_id res := with_head stored (Some (env_id env)) active (env_now env)]> (h_resources h)) ∧
    h_tombstones h' = h_tombstones h.
Proof.
  unfold createRevisionWithin. intros (res & Hres & Hws & HR)%requiredResource_bind.
  apply M_bind_Ok in HR as (cur & h1 & Hcur & HR).
  assert (h1 = h ∧ match cur with
    | Some c => h_revisions h !! default EmptyString (resource_currentRevisionId res) = Some c
    | None => truthy (resource_currentRevisionId res) = false end) as [-> Hc].
  { destruct (truthy (resource_currentRevisionId res)) eqn:Ht.
    - apply requiredRevision_bind in Hcur as (c & Hc & _ & Hret). run_in Hret. by simplify_eq.
    - run_in Hcur. by simplify_eq. }
  run_in HR. destruct (_ !== _) eqn:Hexp in HR; [done|]. to_prop.
  destruct (assertNextRevision _ _ _) as [u|code] eqn:Hn in HR; [|done].
  apply assertNextRevision_Ok in Hn. unfold appendRevision in HR. run_in HR.
  set (rv := proposed_revision localeLe env input res cur) in *.
  destruct (revision_taken h rv) eqn:Htk; [done|].
  apply M_bind_Ok in HR as (moved & h2 & Hset & HR). run_in HR. destruct moved; [|done]. cbn [negb] in HR.
  apply setResourceHead_Ok in Hset as (st & Hst & _ & _ & ->).
  apply M_bind_Ok in HR as (? & h3 & Ha%appendAudit_Ok & HR).
  apply M_bind_Ok in HR as (? & h4 & Ho%enqueueOutbox_Ok & HR). run_in HR. simplify_eq.
  destruct Ha as (Ha1 & Ha2 & Ha3), Ho as (Ho1 & Ho2 & Ho3). cbn in *.
  exists res, cur. split_and!; try done; try congruence. exists st. split; [done|congruence].
Qed.

(** ** Every operation keeps the invariant *)

Lemma hist_ok_ext h h' :
  h_resources h' = h_resources h → h_revisions h' = h_revisions h → hist_ok h → hist_ok h'.
Proof.
  intros Hr Hv Hok.
  assert (∀ rid r, revisions_of h' rid r ↔ revisions_of h rid r) as Hrev by (unfold revisions_of; by rewrite Hv).
  destruct Hok as [H1 H0' H2 H3 H4 H5 H6]. constructor.
  - rewrite Hv. apply H1.
  - rewrite Hv. apply H0'.
  - intros id r. unfold linked. rewrite Hv. apply H2.
  - intros r1 r2 rid. rewrite !Hrev. apply H3.
  - rewrite Hv. apply H4.
  - intros id res. rewrite Hr. intros Hres. destruct (H5 id res Hres) as [Hid Hh]. split; [done|].
    unfold head_ok in *. destruct (resource_currentRevisionId res) as [c|].
    + destruct Hh as (? & r & ? & ? & ? & ? & Hmax). split; [done|]. exists r. rewrite Hrev.
      split_and!; try done. intros r'. rewrite Hrev. apply Hmax.
    + intros r. rewrite Hrev. apply Hh.
  - intros id res r. rewrite Hr, Hrev. apply H6.
Qed.

(** Moving a resource's status, not its head. *)
Lemma hist_ok_status h res st t :
  h_resources h !! resource_id res = Some res → hist_ok h →
  hist_ok (mkHistoryDb (<[resource_id res := with_head res (resource_currentRevisionId res) st t]> (h_resources h))
    (h_revisions h) (h_tombstones h) (h_audit h) (h_operations h) (h_outbox h)).
Proof.
  intros Hres [H1 H0' H2 H3 H4 H5 H6]. constructor; try done; cbn.
  - intros id res' [[<- <-]|[Hne Hr]]%lookup_insert_Some; [|by apply H5].
    destruct (H5 _ _ Hres) as [_ Hh]. split; [done|]. exact Hh.
  - intros id res' r [[<- <-]|[Hne Hr]]%lookup_insert_Some; [exact (H6 _ _ r Hres)|exact (H6 _ _ r Hr)].
Qed.

(** Appending the next revision of a resource and moving its head to it. *)
Lemma hist_ok_append h h' res cur rev st t :
  hist_ok h → h_resources h !! resource_id res = Some res →
  match cur with
  | Some c => h_revisions h !! default EmptyString (resource_currentRevisionId res) = Some c
  | None => truthy (resource_currentRevisionId res) = false
  end →
  next_revision res cur rev → revision_id rev ≠ EmptyString → h_revisions h !! revision_id rev = None →
  revision_canonicalPayloadHash rev = hashCanonical localeLe (revision_canonicalPayload rev) →
  h_revisions h' = <[revision_id rev := rev]> (h_revisions h) →
  h_resources h' = <[resource_id res := with_head res (Some (revision_id rev)) st t]> (h_resources h) →
  hist_ok h'.
Proof.
  intros [H1 H0' H2 H3 H4 H5 H6] Hres Hcur (Hrid & Hws & Hds & Hnext) Hne Hfresh Hhash Hv Hr.
  destruct (H5 _ _ Hres) as [_ Hhead]. unfold head_ok in Hhead.
  assert (∀ rid r, revisions_of h' rid r ↔ (r = rev ∧ rid = resource_id res) ∨ revisions_of h rid r) as Hrev.
  { intros rid r. unfold revisions_of. rewrite Hv. split.
    - intros [[[_ <-]|[_ Hx]]%lookup_insert_Some Hy]; [left; by subst|by right].
    - intros [[-> ->]|[Hx Hy]]; [by rewrite lookup_insert_eq|].
      rewrite lookup_insert_ne; [done|]. intros Heq. rewrite Heq in Hfresh. congruence. }
  (** every earlier revision has a smaller number, and the new one is linked *)
  assert ((∀ r, revisions_of h (resource_id res) r → (revision_revisionNumber r < revision_revisionNumber rev)%Z)
    ∧ linked h' rev) as [Hmax Hlink].
  { destruct cur as [c|].
    - destruct Hnext as (Hc & Hpar & Hnum). rewrite Hc in Hhead, Hcur. cbn in Hcur.
      destruct Hhead as (_ & r & Hrc & [Hrin Hrr] & _ & _ & Hle). rewrite Hrc, Hcur in Hrin. injection Hrin as <-.
      split; [intros r' Hr'; specialize (Hle r' Hr'); lia|]. right. exists c. rewrite Hv.
      rewrite lookup_insert_ne by congruence. split_and!; try done; [congruence|].
      destruct (H2 _ _ Hcur) as [[_ ->]|(p & _ & _ & _ & ? & ->)]; lia.
    - destruct Hnext as (Hpar & Hnum). split; [|by left].
      destruct (resource_currentRevisionId res) as [c|]; [|intros r Hr'; by apply Hhead in Hr'].
      destruct Hhead as [Hc _]. unfold truthy in Hcur. by rewrite bool_decide_eq_false_2 in Hcur. }
  constructor.
  - intros id r. rewrite Hv. intros [[<- <-]|[_ Hx]]%lookup_insert_Some; [done|by apply H1].
  - intros id r. rewrite Hv. intros [[<- <-]|[_ Hx]]%lookup_insert_Some; [done|by eapply H0'].
  - intros id r. rewrite Hv. intros [[_ <-]|[_ Hx]]%lookup_insert_Some; [done|].
    destruct (H2 _ _ Hx) as [?|(p & ? & Hp & ?)]; [by left|right]. exists p. split; [done|]. split; [|done].
    rewrite Hv, lookup_insert_ne; [done|]. congruence.
  - intros r1 r2 rid. rewrite !Hrev. intros [[-> ->]|Hr1] [[-> Hx]|Hr2] Hnum; try done; try subst rid;
      [apply Hmax in Hr2; lia|apply Hmax in Hr1; lia|by eapply H3].
  - intros id r. rewrite Hv. intros [[_ <-]|[_ Hx]]%lookup_insert_Some; [done|by eapply H4].
  - intros id res'. rewrite Hr. intros [[<- <-]|[Hid Hx]]%lookup_insert_Some; unfold head_ok; cbn.
    + split; [done|]. split; [done|]. exists rev. split_and!; try done; [apply Hrev; by left|].
      intros r'. rewrite Hrev. intros [[-> _]|Hr']; [lia|apply Hmax in Hr'; lia].
    + destruct (H5 _ _ Hx) as [Hid' Hh]. unfold head_ok in Hh. split; [done|].
      assert (resource_id res' ≠ resource_id res) as Hdiff by congruence.
      destruct (resource_currentRevisionId res') as [c|].
      * destruct Hh as (? & r & ? & ? & ? & ? & Hle). split; [done|]. exists r. rewrite Hrev.
        split_and!; try done; [by right|]. intros r'. rewrite Hrev. intros [[_ ?]|?]; [done|by apply Hle].
      * intros r. rewrite Hrev. intros [[_ ?]|Hr']; [done|by eapply Hh].
  - intros id res' r. rewrite Hr, Hrev. intros [[<- <-]|[Hid Hx]]%lookup_insert_Some [[-> Hy]|Hr']; cbn.
    + done.
    + by eapply H6.
    + congruence.
    + by eapply H6.
Qed.

(** Resources stay in their workspace. *)
Definition keeps_resources (h h' : HistoryDb) : Prop :=
  ∀ rid res, h_resources h !! rid = Some res →
    ∃ res', h_resources h' !! rid = Some res' ∧ resource_workspaceId res' = resource_workspaceId res.

Lemma keeps_resources_insert h h' rid res n st t :
  h_resources h !! rid = Some res →
  h_resources h' = <[rid := with_head res n st t]> (h_resources h) → keeps_resources h h'.
Proof.
  intros Hres Hr rid' res' Hx. rewrite Hr. destruct (decide (rid' = rid)) as [->|Hne].
  - rewrite lookup_insert_eq. eexists. split; [done|]. cbn. congruence.
  - rewrite lookup_insert_ne by done. by exists res'.
Qed.

Definition extends (h h' : HistoryDb) : Prop :=
  hist_ok h' ∧ (∀ id r, h_revisions h !! id = Some r → h_revisions h' !! id = Some r) ∧ keeps_resources h h'.

Lemma extends_refl h : hist_ok h → extends h h.
Proof. intros Hok. split; [done|]. split; [done|]. intros rid res Hres. by exists res. Qed.

Lemma createRevisionWithin_extends env input h rev h' :
  env_id env ≠ EmptyString → hist_ok h → createRevisionWithin localeLe env input h = (Ok rev, h') → extends h h'.
Proof.
  intros Hid Hok HR. destruct (createRevisionWithin_Ok _ _ _ _ _ HR)
    as (res & cur & Hres & Hws & Hexp & Hcur & -> & Hnext & Htk & Hv & (st & Hst & Hr) & Ht).
  apply revision_taken_false in Htk as [Hfresh _].
  destruct (ok_heads h Hok _ _ Hres) as [Hrid _]. rewrite <- Hrid in Hres.
  assert (st = res) as -> by congruence. split_and!.
  - by eapply (hist_ok_append h h' res cur).
  - intros id r Hx. rewrite Hv, lookup_insert_ne; [done|]. intros <-. cbn in Hfresh. congruence.
  - by eapply keeps_resources_insert.
Qed.

(** A successful deletion. *)
Definition deletion (env : CallEnv) (res : Resource) (actor : string) (until reason : option string) : Tombstone :=
  mkTombstone (env_id env) (resource_workspaceId res) (resource_datasetId res) subject_resource (resource_id res)
    actor (env_now env) reason until (resource_currentRevisionId res) None None not_eligible.

Lemma deleteResource_Ok env w rid e actor until reason h t h' :
  hist_ok h → deleteResource env w rid e actor until reason h = (Ok t, h') →
  ∃ res, h_resources h !! rid = Some res ∧ resource_workspaceId res = w ∧ resource_id res = rid ∧
    resource_currentRevisionId res = e ∧ t = deletion env res actor until reason ∧
    existsb (open_tombstone (resource_workspaceId res) rid) (h_tombstones h) = false ∧
    h_revisions h' = h_revisions h ∧ h_tombstones h' = h_tombstones h ++ [t] ∧
    h_resources h' = <[rid := with_head res (resource_currentRevisionId res) deleted_logically (env_now env)]>
                       (h_resources h).
Proof.
  intros Hok HR. unfold deleteResource in HR. apply (proj1 (transaction_Ok _ _ _ _)) in HR.
  apply requiredResource_bind in HR as (res & Hres & Hws & HR). run_in HR.
  destruct (_ !== _) eqn:Hexp in HR; [done|]. apply negb_false_iff, bool_decide_eq_true in Hexp.
  unfold addTombstone in HR. run_in HR. destruct (_ || _) eqn:Htk in HR; [done|].
  apply orb_false_iff in Htk as [_ Htk].
  apply M_bind_Ok in HR as (moved & h1 & Hset & HR). run_in HR. destruct moved; [|done]. cbn [negb] in HR.
  apply setResourceHead_Ok in Hset as (st & Hst & _ & Hcur & ->). cbn in Hst.
  destruct (ok_heads h Hok _ _ Hres) as [Hrid _]. rewrite Hrid in Hst. assert (st = res) as -> by congruence.
  apply M_bind_Ok in HR as (? & h3 & Ha%appendAudit_Ok & HR).
  apply M_bind_Ok in HR as (? & h4 & Ho%enqueueOutbox_Ok & HR). run_in HR. injection HR as <- <-.
  destruct Ha as (Ha1 & Ha2 & Ha3), Ho as (Ho1 & Ho2 & Ho3). cbn in *.
  rewrite Hrid in *. exists res. unfold deletion. rewrite Hrid. split_and!; try done; try congruence.
  revert Htk. unfold open_tombstone at 1. cbn. by rewrite !strict_eq_refl.
Qed.

Lemma deleteResource_extends env w rid e actor until reason h t h' :
  hist_ok h → deleteResource env w rid e actor until reason h = (Ok t, h') → extends h h'.
Proof.
  intros Hok HR. destruct (deleteResource_Ok _ _ _ _ _ _ _ _ _ _ Hok HR)
    as (res & Hres & _ & Hrid & _ & _ & _ & Hv & _ & Hr). split_and!.
  - subst rid. eapply hist_ok_ext; [| |exact (hist_ok_status h res deleted_logically (env_now env) Hres Hok)]; done.
  - intros id r. by rewrite Hv.
  - by eapply keeps_resources_insert.
Qed.

(** A successful restoration. *)
Lemma restoreResource_Ok env w rid actor note h rev h' :
  restoreResource localeLe env w rid actor note h = (Ok rev, h') →
  ∃ res t prior h1, h_resources h !! rid = Some res ∧ resource_workspaceId res = w ∧
    fst (getOpenTombstone w rid h) = Ok (Some t) ∧
    truthy (tombstone_priorRevisionId t) = true ∧
    h_revisions h !! default EmptyString (tombstone_priorRevisionId t) = Some prior ∧
    createRevisionWithin localeLe env (mkCreate w rid (resource_currentRevisionId res)
      (revision_schemaPackageId prior) (revision_schemaVersion prior) (revision_canonicalPayload prior)
      actor (Some source_restore) (Some (default "Restored deleted resource" note))
      (Some (revision_id prior))) h = (Ok rev, h1) ∧
    closeTombstone (env_now env) w (tombstone_id t) actor h1 = (Ok tt, h').
Proof.
  intros HR. unfold restoreResource in HR. apply (proj1 (transaction_Ok _ _ _ _)) in HR.
  apply requiredResource_bind in HR as (res & Hres & Hws & HR).
  unfold getOpenTombstone in *. run_in HR.
  destruct (fold_left _ _ None) as [t|] eqn:Ht; [|done]. run_in HR.
  destruct (truthy (tombstone_priorRevisionId t)) eqn:Hp; [|done]. cbn [negb] in HR.
  destruct (_ && _) in HR; [done|].
  apply requiredRevision_bind in HR as (prior & Hprior & _ & HR).
  apply M_bind_Ok in HR as (rv & h1 & Hcreate & HR).
  apply M_bind_Ok in HR as ([] & h2 & Hclose & HR). run_in HR. injection HR as <- <-.
  exists res, t, prior, h1. split_and!; try done. unfold getOpenTombstone. run. by rewrite Ht.
Qed.

Lemma restoreResource_extends env w rid actor note h rev h' :
  env_id env ≠ EmptyString → hist_ok h → restoreResource localeLe env w rid actor note h = (Ok rev, h') →
  extends h h'.
Proof.
  intros Hid Hok HR. destruct (restoreResource_Ok _ _ _ _ _ _ _ _ HR)
    as (res & t & prior & h1 & _ & _ & _ & _ & _ & Hcreate & Hclose).
  destruct (createRevisionWithin_extends _ _ _ _ _ Hid Hok Hcreate) as [Hok1 Hkeep].
  unfold closeTombstone in Hclose. run_in Hclose. injection Hclose as <-.
  split; [|exact Hkeep]. by eapply hist_ok_ext; [| |exact Hok1].
Qed.

(** ** Any sequence of calls *)

(** One call, returned or thrown; identifiers are not empty. *)
Inductive history_step (h : HistoryDb) : HistoryDb → Prop :=
  | step_create env input : env_id env ≠ EmptyString →
      history_step h (snd (createRevision localeLe env input h))
  | step_delete env w rid e actor until reason :
      history_step h (snd (deleteResource env w rid e actor until reason h))
  | step_restore env w rid actor note : env_id env ≠ EmptyString →
      history_step h (snd (restoreResource localeLe env w rid actor note h)).

Lemma history_step_extends h h' : hist_ok h → history_step h h' → extends h h'.
Proof.
  intros Hok [env input Hid|env w rid e actor until reason|env w rid actor note Hid].
  - destruct (createRevision localeLe env input h) as [[rev|x] h1] eqn:HR; cbn.
    + apply (proj1 (transaction_Ok _ _ _ _)) in HR. by eapply createRevisionWithin_extends.
    + apply transaction_Err in HR as ->. by apply extends_refl.
  - destruct (deleteResource env w rid e actor until reason h) as [[t|x] h1] eqn:HR; cbn.
    + by eapply deleteResource_extends.
    + apply transaction_Err in HR as ->. by apply extends_refl.
  - destruct (restoreResource localeLe env w rid actor note h) as [[rev|x] h1] eqn:HR; cbn.
    + by eapply restoreResource_extends.
    + apply transaction_Err in HR as ->. by apply extends_refl.
Qed.

Lemma history_steps_extend h h' : hist_ok h → rtc history_step h h' → extends h h'.
Proof.
  intros Hok HR. induction HR as [h|h1 h2 h3 H1 _ IH]; [by apply extends_refl|].
  destruct (history_step_extends _ _ Hok H1) as (Hok2 & Hk2 & Hr2).
  destruct (IH Hok2) as (Hok3 & Hk3 & Hr3). split_and!; [done|by auto|].
  intros rid res Hres. destruct (Hr2 _ _ Hres) as (res2 & Hres2 & Hw2).
  destruct (Hr3 _ _ Hres2) as (res3 & Hres3 & Hw3). exists res3. split; [done|congruence].
Qed.

(** ** The history of a resource, read from its head *)

(** At most [fuel] revisions, following the parents from [id]. *)
Fixpoint lineage (fuel : nat) (h : HistoryDb) (id : string) : list Revision :=
  match fuel with
  | O => []
  | S fuel =>
      match h_revisions h !! id with
      | None => []
      | Some r => r :: match revision_parentRevisionId r with
                       | Some p => lineage fuel h p
                       | None => []
                       end
      end
  end.

Lemma lineage_numbers h n r :
  hist_ok h → h_revisions h !! revision_id r = Some r → revision_revisionNumber r = Z.of_nat (S n) →
  map revision_revisionNumber (lineage (S n) h (revision_id r)) = map Z.of_nat (rev (seq 1 (S n))) ∧
  Forall (revisions_of h (revision_resourceId r)) (lineage (S n) h (revision_id r)).
Proof.
  intros Hok. revert r. induction n as [|n IH]; intros r Hr Hn; cbn [lineage]; rewrite Hr.
  - destruct (ok_links h Hok _ _ Hr) as [[-> _]|(p & -> & _ & _ & ? & ?)]; [|lia].
    cbn. rewrite Hn. split; [done|]. by constructor.
  - destruct (ok_links h Hok _ _ Hr) as [[_ ?]|(p & -> & Hp & Hres & ? & Hpn)]; [lia|].
    destruct (IH p Hp) as [Hnum Hall]; [lia|]. rewrite Hres in Hall. split.
    + cbn [map]. change (match h_revisions h !! revision_id p with Some _ => _ | None => _ end)
        with (lineage (S n) h (revision_id p)). rewrite Hnum, Hn.
      rewrite (seq_S (S n) 1), rev_app_distr. done.
    + by constructor.
Qed.

(** Revision numbers start at one. *)
Lemma number_positive h id r : hist_ok h → h_revisions h !! id = Some r → (1 <= revision_revisionNumber r)%Z.
Proof. intros Hok Hr. destruct (ok_links h Hok _ _ Hr) as [[_ ->]|(p & _ & _ & _ & ? & ->)]; lia. Qed.

(** The lineage of a head holds exactly the revisions of its resource. *)
Lemma lineage_complete h rid res c :
  hist_ok h → h_resources h !! rid = Some res → resource_currentRevisionId res = Some c →
  ∃ n, map revision_revisionNumber (lineage n h c) = map Z.of_nat (rev (seq 1 n)) ∧
    (∀ r, r ∈ lineage n h c ↔ revisions_of h rid r).
Proof.
  intros Hok Hres Hc. destruct (ok_heads h Hok _ _ Hres) as [Hid Hh]. unfold head_ok in Hh. rewrite Hc, Hid in Hh.
  destruct Hh as (_ & hd & <- & [Hin Hrr] & _ & _ & Hmax). pose proof (number_positive _ _ _ Hok Hin) as Hpos.
  destruct (Z.to_nat (revision_revisionNumber hd)) as [|n] eqn:Hn; [lia|].
  destruct (lineage_numbers h n hd Hok Hin) as [Hnum Hall]; [lia|]. rewrite Hrr in Hall.
  exists (S n). split; [exact Hnum|]. intros r. split; [by apply Forall_forall|].
  intros Hr. pose proof (Hmax r Hr) as Hle. destruct (Hr) as [Hrin _].
  pose proof (number_positive _ _ _ Hok Hrin).
  assert (revision_revisionNumber r ∈ map Z.of_nat (rev (seq 1 (S n)))) as Hx.
  { apply list_elem_of_fmap. exists (Z.to_nat (revision_revisionNumber r)). split; [lia|].
    apply list_elem_of_In, in_rev. rewrite rev_involutive. apply in_seq. lia. }
  rewrite <- Hnum in Hx. apply list_elem_of_fmap in Hx as (r' & Heq & Hr').
  rewrite (ok_numbers h Hok r r' rid Hr); [done| |done]. by eapply Forall_forall in Hall.
Qed.

(** C7. The history of a resource is append-only and linear.  After any
    sequence of create, delete and restore calls, whether they return or throw,
    every revision recorded before is still there unchanged; and following the
    parents from a resource's head visits revisions numbered n, n-1, ..., 1,
    which are exactly the resource's revisions: no gap, no branch, no orphan.
    Each carries the SHA-256 of its own canonical payload. *)
Theorem history_linear h h' :
  hist_ok h → rtc history_step h h' →
  (∀ id r, h_revisions h !! id = Some r → h_revisions h' !! id = Some r) ∧
  ∀ rid res c, h_resources h' !! rid = Some res → resource_currentRevisionId res = Some c →
    ∃ n, map revision_revisionNumber (lineage n h' c) = map Z.of_nat (rev (seq 1 n)) ∧
      (∀ r, r ∈ lineage n h' c ↔ revisions_of h' rid r) ∧
      (∀ r, r ∈ lineage n h' c →
         revision_canonicalPayloadHash r = hashCanonical localeLe (revision_canonicalPayload r)).
Proof.
  intros Hok HR. destruct (history_steps_extend _ _ Hok HR) as (Hok' & Hkeep & _). split; [done|].
  intros rid res c Hres Hc. destruct (lineage_complete _ _ _ _ Hok' Hres Hc) as (n & Hnum & Hall).
  exists n. split_and!; [done|done|]. intros r [Hr _]%Hall. by eapply ok_hashes.
Qed.

(** ** Optimistic concurrency *)

Definition head_is (h : HistoryDb) (w rid : string) (e : option string) : Prop :=
  ∃ res, h_resources h !! rid = Some res ∧ resource_workspaceId res = w ∧ resource_currentRevisionId res = e.

(** What [createRevisionWithin] reads before it compares heads. *)
Lemma read_head h res :
  hist_ok h → h_resources h !! resource_id res = Some res →
  ∃ cur, (if truthy (resource_currentRevisionId res)
          then requiredRevision (resource_workspaceId res) (default EmptyString (resource_currentRevisionId res))
                 ≫= λ r, mret (Some r)
          else mret None) h = (Ok cur, h) ∧
    revision_id <$> cur = resource_currentRevisionId res ∧
    (∀ r, revisions_of h (resource_id res) r →
       (revision_revisionNumber r < from_option revision_revisionNumber 0 cur + 1)%Z).
Proof.
  intros Hok Hres. destruct (ok_heads h Hok _ _ Hres) as [_ Hh]. unfold head_ok in Hh.
  destruct (resource_currentRevisionId res) as [c|]; cbn.
  - destruct Hh as (Hc & r & <- & [Hin _] & Hw & _ & Hmax). exists (Some r). unfold truthy.
    rewrite bool_decide_eq_false_2 by done. cbn [negb]. unfold requiredRevision, getRevision. run. rewrite Hin, Hw, strict_eq_refl.
    run. split_and!; [done|done|]. intros r' Hr'. cbn. specialize (Hmax r' Hr'). lia.
  - exists None. cbn. split_and!; [done|done|]. intros r Hr. by apply Hh in Hr.
Qed.

Lemma requiredResource_run {B} w rid res (f : Resource → Hist B) h :
  h_resources h !! rid = Some res → resource_workspaceId res = w → (requiredResource w rid ≫= f) h = f res h.
Proof. intros Hres <-. unfold requiredResource, getResource. run. rewrite Hres, strict_eq_refl. by run. Qed.

(** A call whose expected revision is not the head. *)
Lemma stale_create env input h e :
  hist_ok h → head_is h (cr_workspaceId input) (cr_resourceId input) e → cr_expectedRevisionId input ≠ e →
  createRevision localeLe env input h = (Err HistoryConflictError, h).
Proof.
  intros Hok (res & Hres & Hw & <-) Hne. unfold createRevision, transaction, createRevisionWithin.
  rewrite (requiredResource_run _ _ res) by done. destruct (ok_heads h Hok _ _ Hres) as [Hid _].
  destruct (read_head h res Hok) as (cur & Hcur & _); [congruence|]. rewrite <- Hw.
  rewrite (bind_Ok_run _ _ _ _ _ Hcur). run. rewrite bool_decide_eq_false_2 by congruence. done.
Qed.

Lemma stale_delete env w rid e' actor until reason h e :
  head_is h w rid e → e' ≠ e →
  deleteResource env w rid e' actor until reason h = (Err HistoryConflictError, h).
Proof.
  intros (res & Hres & Hw & <-) Hne. unfold deleteResource, transaction.
  rewrite (requiredResource_run _ _ res) by done. run. rewrite bool_decide_eq_false_2 by congruence. done.
Qed.

(** Once a resource has a revision above another, that one is never its head again. *)
Lemma head_moves_on h rid res r e :
  hist_ok h → h_resources h !! rid = Some res → revisions_of h rid r →
  match e with
  | None => True
  | Some c => ∀ p, h_revisions h !! c = Some p → (revision_revisionNumber p < revision_revisionNumber r)%Z
  end → resource_currentRevisionId res ≠ e.
Proof.
  intros Hok Hres Hr He. destruct (ok_heads h Hok _ _ Hres) as [Hid Hh]. unfold head_ok in Hh. rewrite Hid in Hh.
  destruct (resource_currentRevisionId res) as [c|]; [|by apply Hh in Hr]. destruct e as [c'|]; [|done].
  intros [= ->]. destruct Hh as (_ & hd & <- & [Hin _] & _ & _ & Hmax).
  specialize (Hmax r Hr). specialize (He hd Hin). lia.
Qed.

(** No lost update.  Once a revision has been created on base [e], then
    after any further calls, by anyone, every attempt to create a revision of
    that resource on the same base or to delete it expecting that base throws
    [HistoryConflictError] and changes nothing. *)
Theorem stale_base_conflicts env input h rev h1 h2 :
  env_id env ≠ EmptyString → hist_ok h →
  createRevision localeLe env input h = (Ok rev, h1) → rtc history_step h1 h2 →
  (∀ env' input', cr_workspaceId input' = cr_workspaceId input → cr_resourceId input' = cr_resourceId input →
     cr_expectedRevisionId input' = cr_expectedRevisionId input →
     createRevision localeLe env' input' h2 = (Err HistoryConflictError, h2)) ∧
  (∀ env' actor until reason,
     deleteResource env' (cr_workspaceId input) (cr_resourceId input) (cr_expectedRevisionId input)
       actor until reason h2 = (Err HistoryConflictError, h2)).
Proof.
  intros Hid Hok HR Hsteps. apply (proj1 (transaction_Ok _ _ _ _)) in HR.
  destruct (createRevisionWithin_extends _ _ _ _ _ Hid Hok HR) as (Hok1 & Hk1 & Hr1).
  destruct (history_steps_extend _ _ Hok1 Hsteps) as (Hok2 & Hk2 & Hr2).
  destruct (createRevisionWithin_Ok _ _ _ _ _ HR)
    as (res & cur & Hres & Hws & Hexp & Hcur & Hrev & Hnext & _ & Hv & _ & _).
  destruct (ok_heads h Hok _ _ Hres) as [Hrid Hh].
  destruct (Hr1 _ _ Hres) as (res1 & Hres1 & Hw1). destruct (Hr2 _ _ Hres1) as (res2 & Hres2 & Hw2).
  assert (revisions_of h2 (cr_resourceId input) rev) as Hin.
  { split; [|subst rev; cbn; congruence]. apply Hk2. rewrite Hv. subst rev. by rewrite lookup_insert_eq. }
  assert (resource_currentRevisionId res2 ≠ cr_expectedRevisionId input) as Hne.
  { eapply head_moves_on; [exact Hok2|exact Hres2|exact Hin|]. rewrite <- Hexp. unfold head_ok in Hh.
    destruct (resource_currentRevisionId res) as [c|]; [|done]. intros p Hp. destruct Hh as [Hc _].
    destruct cur as [c0|]; [|by unfold truthy in Hcur; rewrite bool_decide_eq_false_2 in Hcur].
    destruct Hnext as (_ & _ & _ & _ & _ & ->). cbn in Hcur. apply Hk1, Hk2 in Hcur.
    assert (p = c0) as -> by congruence. lia. }
  assert (head_is h2 (cr_workspaceId input) (cr_resourceId input) (resource_currentRevisionId res2)) as Hhead
    by (exists res2; split_and!; [done|congruence|done]).
  split.
  - intros env' input' Ew Er Ee. rewrite <- Ew, <- Er in Hhead.
    eapply stale_create; [done|exact Hhead|congruence].
  - intros env' actor until reason. eapply stale_delete; [exact Hhead|congruence].
Qed.

(** ** Calls that succeed *)

(** The identifiers drawn by a call are new. *)
Definition fresh_call (h : HistoryDb) (env : CallEnv) : Prop :=
  env_id env ≠ EmptyString ∧ h_revisions h !! env_id env = None ∧ h_operations h !! env_id env = None ∧
  audit_fresh h (env_audit env).

Lemma createRevisionWithin_fresh env input h res :
  hist_ok h → fresh_call h env →
  h_resources h !! cr_resourceId input = Some res → resource_workspaceId res = cr_workspaceId input →
  resource_currentRevisionId res = cr_expectedRevisionId input →
  ∃ cur h' c, createRevisionWithin localeLe env input h = (Ok (proposed_revision localeLe env input res cur), h') ∧
    revision_id <$> cur = resource_currentRevisionId res ∧
    h_audit h' = h_audit h ++ [mkAuditRow c EmptyString] ∧
    event_action (chained_body c) = "revision.created" ∧ event_subjectId (chained_body c) = cr_resourceId input ∧
    event_actorId (chained_body c) = cr_actorId input.
Proof.
  intros Hok (_ & Hfresh & Hop & Haud) Hres Hw Hexp. destruct (ok_heads h Hok _ _ Hres) as [Hid _].
  destruct (read_head h res Hok) as (cur & Hcur & Hcid & Hmax); [congruence|].
  unfold createRevisionWithin. rewrite (requiredResource_run _ _ res), <- Hw by done.
  rewrite (bind_Ok_run _ _ _ _ _ Hcur). run. rewrite Hexp, strict_ne_refl.
  set (rv := proposed_revision localeLe env input res cur).
  destruct (assertNextRevision res cur rv) as [u|code] eqn:Hn.
  2: { assert (next_revision res cur rv) as Hx.
       { unfold next_revision. split_and!; try done. destruct cur; cbn in *; [|done]. by rewrite <- Hcid. }
       apply (assertNextRevision_Ok _ _ _ tt) in Hx. congruence. }
  unfold appendRevision. run. rewrite (proj2 (revision_taken_false h rv)).
  2: { split; [done|]. intros id r Hr Hrr. cbn in *. specialize (Hmax r).
       assert (revisions_of h (resource_id res) r) as Hx by (split; [by rewrite (ok_ids h Hok _ _ Hr)|done]).
       apply Hmax in Hx. lia. }
  unfold setResourceHead. run. cbn [h_resources]. rewrite Hid, Hres, !strict_eq_refl. cbn [andb]. rewrite Hexp, strict_eq_refl.
  cbn [andb]. run.
  match goal with |- context [(appendAudit ?i ?e ≫= _) ?s] =>
    destruct (appendAudit_fresh i e s Haud) as (h2 & c & Ha & _ & Hops & Hau & Hrec) end.
  rewrite (bind_Ok_run _ _ _ _ _ Ha).
  match goal with |- context [(enqueueOutbox ?e ≫= _) ?s] =>
    destruct (enqueueOutbox_fresh e s) as (h3 & Ho & _ & Hau3); [by rewrite Hops|] end.
  rewrite (bind_Ok_run _ _ _ _ _ Ho). run. exists cur, h3, c. rewrite Hau3, Hau.
  destruct Hrec as (_ & ? & ? & ? & _). split_and!; try done. congruence.
Qed.

(** On a resource of the workspace, with new identifiers, [createRevision]
    is decided by the expected revision alone.  When it is the head, the call
    returns the next revision (the number after the head's, the head as parent,
    the payload given), stores it, moves the head to it, and appends one audit
    event; when it is not, the call throws [HistoryConflictError] and changes
    nothing. *)
Theorem createRevision_decides env input h res :
  hist_ok h → fresh_call h env →
  h_resources h !! cr_resourceId input = Some res → resource_workspaceId res = cr_workspaceId input →
  if decide (resource_currentRevisionId res = cr_expectedRevisionId input) then
    ∃ rev h' c, createRevision localeLe env input h = (Ok rev, h') ∧
      revision_parentRevisionId rev = cr_expectedRevisionId input ∧
      revision_canonicalPayload rev = cr_canonicalPayload input ∧
      (∀ p, cr_expectedRevisionId input = Some (revision_id p) → h_revisions h !! revision_id p = Some p →
         revision_revisionNumber rev = (revision_revisionNumber p + 1)%Z) ∧
      h_revisions h' = <[env_id env := rev]> (h_revisions h) ∧
      head_is h' (cr_workspaceId input) (cr_resourceId input) (Some (env_id env)) ∧
      h_tombstones h' = h_tombstones h ∧
      h_audit h' = h_audit h ++ [mkAuditRow c EmptyString] ∧ event_action (chained_body c) = "revision.created"
  else createRevision localeLe env input h = (Err HistoryConflictError, h).
Proof.
  intros Hok Hfr Hres Hw. destruct (decide _) as [Hexp|Hne].
  - destruct (createRevisionWithin_fresh env input h res Hok Hfr Hres Hw Hexp)
      as (cur & h' & c & HR & Hcid & Hau & Hact & _).
    destruct (createRevisionWithin_Ok _ _ _ _ _ HR)
      as (res' & cur' & Hres' & _ & _ & Hcur' & Heq & _ & _ & Hv & (st & Hst & Hr) & Ht).
    assert (res' = res) as -> by congruence. destruct (ok_heads h Hok _ _ Hres) as [Hid _].
    rewrite Hid in Hst, Hr. assert (st = res) as -> by congruence.
    exists (proposed_revision localeLe env input res cur), h', c. split_and!; try done.
    + by apply transaction_Ok.
    + cbn. congruence.
    + intros p Hp Hpin. cbn. rewrite Hexp, Hp in Hcid. destruct cur as [c0|]; [|done]. cbn in *.
      destruct cur' as [c1|].
      * rewrite Hexp, Hp in Hcur'. cbn in Hcur'. apply (f_equal revision_revisionNumber) in Heq. cbn in Heq.
        assert (c1 = p) as -> by congruence. lia.
      * destruct (ok_heads h Hok _ _ Hres) as [_ Hh]. unfold head_ok in Hh. rewrite Hexp, Hp in *.
        destruct Hh as [Hne _]. unfold truthy in Hcur'. by rewrite bool_decide_eq_false_2 in Hcur'.
    + eexists. rewrite Hr, lookup_insert_eq. split_and!; [done|done|done].
  - eapply stale_create; [done|by exists res|congruence].
Qed.

(** ** Deletion and restoration *)

Lemma deletion_open env res actor until reason :
  open_tombstone (resource_workspaceId res) (resource_id res) (deletion env res actor until reason) = true.
Proof. unfold open_tombstone. cbn. by rewrite !strict_eq_refl. Qed.

Lemma none_open_filter w rid ts :
  existsb (open_tombstone w rid) ts = false → List.filter (open_tombstone w rid) ts = [].
Proof. induction ts as [|t ts IH]; cbn; [done|]. by destruct (open_tombstone w rid t). Qed.

(** Closing the only open tombstone leaves none. *)
Lemma close_leaves_none w rid ts t now actor :
  existsb (open_tombstone w rid) ts = false → tombstone_workspaceId t = w → tombstone_restoredAt t = None →
  existsb (open_tombstone w rid)
    (map (λ x, if (tombstone_workspaceId x === w) && (tombstone_id x === tombstone_id t) &&
                  (tombstone_restoredAt x === None)
               then closed_tombstone now actor x else x) (ts ++ [t])) = false.
Proof.
  intros Hts Hw Hr. rewrite <- not_true_iff_false, existsb_elem. intros (x & Hx & Hopen).
  apply list_elem_of_fmap in Hx as (y & -> & Hy). destruct (_ && _) eqn:Hc in Hopen.
  { unfold open_tombstone in Hopen. by to_prop. }
  apply elem_of_app in Hy as [Hy| ->%list_elem_of_singleton].
  - assert (existsb (open_tombstone w rid) ts = true) by (apply existsb_elem; by exists y). congruence.
  - by rewrite Hw, Hr, !strict_eq_refl in Hc.
Qed.

Lemma getOpenTombstone_only w rid h ts t :
  h_tombstones h = ts ++ [t] → existsb (open_tombstone w rid) ts = false → open_tombstone w rid t = true →
  getOpenTombstone w rid h = (Ok (Some t), h).
Proof.
  intros Ht Hts Hopen. unfold getOpenTombstone. rewrite gets_run, Ht, List.filter_app, (none_open_filter _ _ _ Hts).
  cbn. by rewrite Hopen.
Qed.

(** The input of the revision a restoration creates. *)
Definition restoration (w rid : string) (expected : option string) (prior : Revision) (actor : string)
    (note : option string) : CreateRevisionInput :=
  mkCreate w rid expected (revision_schemaPackageId prior) (revision_schemaVersion prior)
    (revision_canonicalPayload prior) actor (Some source_restore)
    (Some (default "Restored deleted resource" note)) (Some (revision_id prior)).

Lemma restoreResource_run env w rid actor note h res t c prior rev h' :
  h_resources h !! rid = Some res → resource_workspaceId res = w →
  getOpenTombstone w rid h = (Ok (Some t), h) →
  tombstone_priorRevisionId t = Some c → c ≠ EmptyString →
  truthy (tombstone_recoverUntil t) &&
    string_lt (default EmptyString (tombstone_recoverUntil t)) (env_now env) = false →
  h_revisions h !! c = Some prior → revision_workspaceId prior = w →
  createRevisionWithin localeLe env (restoration w rid (resource_currentRevisionId res) prior actor note) h
    = (Ok rev, h') →
  restoreResource localeLe env w rid actor note h
    = (Ok rev, snd (closeTombstone (env_now env) w (tombstone_id t) actor h')).
Proof.
  intros Hres Hw Ht Hp Hc Huntil Hprior Hpw HC. apply transaction_Ok.
  rewrite (requiredResource_run _ _ res) by done. rewrite (bind_Ok_run _ _ _ _ _ Ht).
  rewrite throw_when_bind, Hp. unfold truthy at 1. rewrite bool_decide_eq_false_2 by done. cbn [negb default].
  rewrite throw_when_bind, Huntil. unfold requiredRevision, getRevision. run.
  change (id c) with c. rewrite Hprior, Hpw, strict_eq_refl. run. rewrite (bind_Ok_run _ _ _ _ _ HC). by run.
Qed.

(** Deleting a resource at its head and restoring it inside the recovery
    window, with new identifiers, gives the content back: the restore returns a
    new revision with the payload and schema of the one deleted, numbered right
    after it and naming it as its origin; the resource is active with that head,
    no revision is lost, and no open tombstone remains. *)
Theorem delete_restore_roundtrip env env' w rid c prior actor until reason actor' note h t h1 :
  hist_ok h → h_revisions h !! c = Some prior →
  deleteResource env w rid (Some c) actor until reason h = (Ok t, h1) →
  fresh_call h1 env' → truthy until && string_lt (default EmptyString until) (env_now env') = false →
  ∃ rev h2, restoreResource localeLe env' w rid actor' note h1 = (Ok rev, h2) ∧
    revision_canonicalPayload rev = revision_canonicalPayload prior ∧
    revision_schemaPackageId rev = revision_schemaPackageId prior ∧
    revision_schemaVersion rev = revision_schemaVersion prior ∧
    revision_revisionNumber rev = (revision_revisionNumber prior + 1)%Z ∧
    revision_restoredFromRevisionId rev = Some c ∧
    h_revisions h2 = <[env_id env' := rev]> (h_revisions h) ∧
    (∃ res, h_resources h2 !! rid = Some res ∧ resource_status res = active ∧
            resource_currentRevisionId res = Some (env_id env')) ∧
    existsb (open_tombstone w rid) (h_tombstones h2) = false.
Proof.
  intros Hok Hprior HD Hfr Huntil.
  destruct (deleteResource_extends _ _ _ _ _ _ _ _ _ _ Hok HD) as (Hok1 & _).
  destruct (deleteResource_Ok _ _ _ _ _ _ _ _ _ _ Hok HD)
    as (res & Hres & Hw & Hrid & Hcur & -> & Hnone & Hv & Ht & Hr).
  set (res1 := with_head res (resource_currentRevisionId res) deleted_logically (env_now env)) in *.
  assert (h_resources h1 !! rid = Some res1) as Hres1 by (by rewrite Hr, lookup_insert_eq).
  assert (head_ok h res) as Hh by (by destruct (ok_heads h Hok _ _ Hres)).
  unfold head_ok in Hh. rewrite Hcur in Hh. destruct Hh as (Hc & hd & Hhd & [Hhin _] & Hhw & _).
  rewrite Hhd, Hprior in Hhin. injection Hhin as ->.
  set (input := restoration w rid (resource_currentRevisionId res1) hd actor' note).
  destruct (createRevisionWithin_fresh env' input h1 res1 Hok1 Hfr Hres1 Hw eq_refl)
    as (cur & h2 & _ & HC & Hcid & _).
  destruct (createRevisionWithin_Ok _ _ _ _ _ HC)
    as (res' & cur' & Hres' & _ & _ & Hcur' & Heq & _ & _ & Hv2 & (st & Hst & Hr2) & Ht2).
  change (cr_resourceId input) with rid in Hres'. assert (res' = res1) as -> by congruence.
  change (resource_id res1) with (resource_id res) in Hst, Hr2. rewrite Hrid in Hst, Hr2.
  exists (proposed_revision localeLe env' input res1 cur).
  exists (snd (closeTombstone (env_now env') w (env_id env) actor' h2)). split.
  { eapply (restoreResource_run env' w rid actor' note h1 res1 (deletion env res actor until reason) c hd); try done.
    - eapply getOpenTombstone_only; [exact Ht|by rewrite <- Hw|]. rewrite <- Hw, <- Hrid. apply deletion_open.
    - by rewrite Hv.
    - congruence. }
  split_and!; try done.
  - cbn. destruct cur' as [c1|].
    + cbn in Hcur'. rewrite Hcur in Hcur'. cbn in Hcur'. rewrite Hv, Hprior in Hcur'. injection Hcur' as <-.
      apply (f_equal revision_revisionNumber) in Heq. exact Heq.
    + cbn in Hcur'. rewrite Hcur in Hcur'. cbn in Hcur'. by rewrite bool_decide_eq_false_2 in Hcur'.
  - cbn. by rewrite Hhd.
  - cbn. by rewrite Hv2, Hv.
  - cbn. rewrite Hr2, lookup_insert_eq. by eexists.
  - cbn. rewrite Ht2, Ht.
    apply (close_leaves_none w rid (h_tombstones h) (deletion env res actor until reason)); by rewrite <- ?Hw.
Qed.

(** While a tombstone of the resource is open, deleting it at its head throws. *)
Lemma open_tombstone_blocks_delete env w rid e actor until reason h :
  hist_ok h → head_is h w rid e → existsb (open_tombstone w rid) (h_tombstones h) = true →
  deleteResource env w rid e actor until reason h = (Err HistoryUniqueViolation, h).
Proof.
  intros Hok (res & Hres & Hw & <-) Hopen. destruct (ok_heads h Hok _ _ Hres) as [Hid _].
  unfold deleteResource, transaction. rewrite (requiredResource_run _ _ res) by done. run.
  rewrite strict_ne_refl. unfold addTombstone. run. cbn.
  change (mkTombstone _ _ _ _ _ _ _ _ _ _ _ _ _) with (deletion env res actor until reason).
  by rewrite deletion_open, Hw, Hid, Hopen, orb_true_r.
Qed.

(** Resources without revisions. *)
Lemma hist_ok_initial h :
  h_revisions h = ∅ →
  (∀ id res, h_resources h !! id = Some res → resource_id res = id ∧ resource_currentRevisionId res = None) →
  hist_ok h.
Proof.
  intros Hv Hr. constructor; try (rewrite Hv; intros id r Hx; by rewrite lookup_empty in Hx).
  - intros r1 r2 rid [Hx _]. rewrite Hv in Hx. by rewrite lookup_empty in Hx.
  - intros id res [Hid Hc]%Hr. split; [done|]. unfold head_ok. rewrite Hc. intros r [Hx _].
    rewrite Hv in Hx. by rewrite lookup_empty in Hx.
  - intros id res r _ [Hx _]. rewrite Hv in Hx. by rewrite lookup_empty in Hx.
Qed.
End HistoryInvariant.

(** ** Concrete runs *)
Module HistoryWitness.

Definition doc : Resource := mkResource "res-1" "ws-1" "ds-1" "document" (Some "Plan") active None "alice" "1" "1".
Definition db0 : HistoryDb := mkHistoryDb {["res-1" := doc]} ∅ [] [] ∅ [].
Definition env (now id : string) : CallEnv := mkEnv now id (mkAuditIds ("audit-" +:+ id) ("req-" +:+ id) ("cor-" +:+ id)).
Definition write (expected : option string) (body : string) : CreateRevisionInput :=
  mkCreate "ws-1" "res-1" expected "pkg" "1.0.0" [("body", JString body)] "alice" None None None.
Definition db1 : HistoryDb := snd (createRevision String.leb (env "2" "rev-1") (write None "draft") db0).
Definition db2 : HistoryDb := snd (createRevision String.leb (env "3" "rev-2") (write (Some "rev-1") "final") db1).
Definition db3 : HistoryDb := snd (deleteResource (env "4" "tomb-1") "ws-1" "res-1" (Some "rev-2") "bob" None None db2).
Definition db4 : HistoryDb := snd (restoreResource String.leb (env "5" "rev-3") "ws-1" "res-1" "alice" None db3).

Lemma db0_ok : hist_ok String.leb db0.
Proof.
  apply hist_ok_initial; [reflexivity|]. cbn. intros id res [<- <-]%lookup_singleton_Some. done.
Qed.

Lemma step1 : history_step String.leb db0 db1.
Proof. unfold db1. apply (step_create _ db0 (env "2" "rev-1") (write None "draft")). discriminate. Qed.
Lemma step2 : history_step String.leb db1 db2.
Proof. unfold db2. apply (step_create _ db1 (env "3" "rev-2") (write (Some "rev-1") "final")). discriminate. Qed.
Lemma step3 : history_step String.leb db2 db3.
Proof. exact (step_delete _ db2 (env "4" "tomb-1") "ws-1" "res-1" (Some "rev-2") "bob" None None). Qed.
Lemma step4 : history_step String.leb db3 db4.
Proof. unfold db4. apply (step_restore _ db3 (env "5" "rev-3") "ws-1" "res-1" "alice" None). discriminate. Qed.

Lemma db1_steps : rtc (history_step String.leb) db1 db4.
Proof. exact (rtc_l _ _ _ _ step2 (rtc_l _ _ _ _ step3 (rtc_once _ _ step4))). Qed.
Lemma db_steps : rtc (history_step String.leb) db0 db4.
Proof. exact (rtc_l _ _ _ _ step1 db1_steps). Qed.

Lemma db2_ok : hist_ok String.leb db2.
Proof. exact (proj1 (history_steps_extend _ db0 db2 db0_ok (rtc_l _ _ _ _ step1 (rtc_once _ _ step2)))). Qed.

Lemma history_linear_witness :
  (resource_currentRevisionId <$> h_resources db4 !! "res-1") = Some (Some "rev-3") ∧
  ∃ n, map revision_revisionNumber (lineage n db4 "rev-3") = map Z.of_nat (rev (seq 1 n)) ∧
    (∀ r, r ∈ lineage n db4 "rev-3" ↔ revisions_of db4 "res-1" r).
Proof.
  assert (is_Some (h_resources db4 !! "res-1")) as [res Hres] by (vm_compute; by eexists).
  assert (resource_currentRevisionId res = Some "rev-3") as Hc.
  { assert ((resource_currentRevisionId <$> h_resources db4 !! "res-1") = Some (Some "rev-3")) as Hx
      by (vm_compute; reflexivity). rewrite Hres in Hx. by injection Hx. }
  rewrite Hres. split; [cbn; by rewrite Hc|].
  destruct (proj2 (history_linear String.leb db0 db4 db0_ok db_steps) "res-1" res "rev-3" Hres Hc) as (n & H1 & H2 & _).
  exists n. exact (conj H1 H2).
Defined.

Lemma stale_base_conflicts_witness :
  createRevision String.leb (env "9" "rev-9") (write None "other") db4 = (Err HistoryConflictError, db4).
Proof.
  destruct (createRevision String.leb (env "2" "rev-1") (write None "draft") db0) as [[r|x] d] eqn:HR.
  2: { exfalso. apply (f_equal (λ p, is_Ok (fst p))) in HR. vm_compute in HR. discriminate HR. }
  assert (d = db1) as -> by (unfold db1; by rewrite HR).
  refine (proj1 (stale_base_conflicts String.leb (env "2" "rev-1") (write None "draft") db0 r db1 db4 _ db0_ok HR _)
    (env "9" "rev-9") (write None "other") eq_refl eq_refl eq_refl).
  - discriminate.
  - exact db1_steps.
Defined.

Lemma createRevision_decides_witness :
  ∃ rev h' c, createRevision String.leb (env "2" "rev-1") (write None "draft") db0 = (Ok rev, h') ∧
    h_audit h' = [] ++ [mkAuditRow c EmptyString] ∧ event_action (chained_body c) = "revision.created".
Proof.
  pose proof (createRevision_decides String.leb (env "2" "rev-1") (write None "draft") db0 doc db0_ok) as HT.
  destruct HT as (r & h' & c & HR & _ & _ & _ & _ & _ & _ & Ha & Hc); [|reflexivity|reflexivity|].
  2: { exists r, h', c. exact (conj HR (conj Ha Hc)). }
  split_and!; [discriminate|reflexivity|reflexivity|reflexivity].
Defined.

Lemma delete_restore_roundtrip_witness :
  ∃ rev h, restoreResource String.leb (env "5" "rev-3") "ws-1" "res-1" "alice" None db3 = (Ok rev, h) ∧
    revision_canonicalPayload rev = [("body", JString "final")] ∧ revision_revisionNumber rev = 3%Z.
Proof.
  destruct (deleteResource (env "4" "tomb-1") "ws-1" "res-1" (Some "rev-2") "bob" None None db2)
    as [[t|x] d] eqn:HD.
  2: { exfalso. apply (f_equal (λ p, is_Ok (fst p))) in HD. vm_compute in HD. discriminate HD. }
  assert (d = db3) as -> by (unfold db3; by rewrite HD).
  destruct (h_revisions db2 !! "rev-2") as [prior|] eqn:Hp; [|vm_compute in Hp; discriminate Hp].
  assert (revision_canonicalPayload prior = [("body", JString "final")] ∧ revision_revisionNumber prior = 2%Z) as [E1 E2]
    by (vm_compute in Hp; injection Hp as <-; split; reflexivity).
  assert (fresh_call db3 (env "5" "rev-3")) as Hf
    by (split_and!; [discriminate|vm_compute; reflexivity|vm_compute; reflexivity|vm_compute; reflexivity]).
  pose proof (delete_restore_roundtrip String.leb (env "4" "tomb-1") (env "5" "rev-3") "ws-1" "res-1" "rev-2" prior
    "bob" None None "alice" None db2 t db3 db2_ok Hp HD Hf eq_refl) as HT.
  destruct HT as (r & h & HR & P1 & _ & _ & P2 & _).
  exists r, h. rewrite P1, P2, E1, E2. exact (conj HR (conj eq_refl eq_refl)).
Defined.

(** A revision created after a deletion reactivates the resource and leaves its
    tombstone open: the resource can then not be deleted, whatever revision the
    caller names. *)
Theorem reactivated_resource_cannot_be_deleted :
  let revived := snd (createRevision String.leb (env "5" "rev-3") (write (Some "rev-2") "again") db3) in
  (resource_status <$> h_resources revived !! "res-1") = Some active ∧
  ∀ envn e actor until reason,
    fst (deleteResource envn "ws-1" "res-1" e actor until reason revived) =
      Err (if decide (Some "rev-3" = e) then HistoryUniqueViolation else HistoryConflictError).
Proof.
  intros revived. split; [vm_compute; reflexivity|]. intros envn e actor until reason.
  assert (hist_ok String.leb revived) as Hok.
  { refine (proj1 (history_steps_extend _ db2 revived db2_ok (rtc_l _ _ _ _ step3 (rtc_once _ _ _)))).
    apply (step_create _ db3 (env "5" "rev-3") (write (Some "rev-2") "again")). discriminate. }
  assert (head_is revived "ws-1" "res-1" (Some "rev-3")) as Hh
    by (vm_compute; eexists; split_and!; reflexivity).
  destruct (decide (Some "rev-3" = e)) as [<-|Hne].
  - rewrite (open_tombstone_blocks_delete String.leb); [done|exact Hok|exact Hh|vm_compute; reflexivity].
  - rewrite (stale_delete _ _ _ _ _ _ _ _ (Some "rev-3")); [done|exact Hh|congruence].
Qed.
End HistoryWitness.
