(* ===== verification/Schema.v ===== *)
(** * packages/schema-registry: types.ts, validate.ts, compatibility.ts

    A schema package declares resource types, their fields and the relationships
    between them.  [validateResourcePayload] checks a payload against a type;
    [classifyCompatibility] compares two versions of a package.

    An object used as a dictionary ([fields[name]], [payload[name]]) is read
    through its prototype: a name of [Object.prototype] that the object does not
    own finds the inherited property.  [new URL], which decides the [uri]
    format, is a parameter.

    The theorem says what "backward-compatible" buys: a payload valid under the
    old version stays valid under the new one, as long as none of its fields the
    old version did not know is given a meaning by the new one. *)
From S2P Require Import Prelude Js Concrete Json.

(** ** types.ts *)

(** Source: packages/schema-registry/src/types.ts:1-1 FieldKind *)
Inductive FieldKind := kind_string | kind_number | kind_boolean | kind_timestamp | kind_object | kind_array.
#[global] Instance FieldKind_eq_dec : EqDecision FieldKind.
Proof. solve_decision. Defined.

Inductive FieldFormat := format_uri | format_sha256 | format_media_type.
#[global] Instance FieldFormat_eq_dec : EqDecision FieldFormat.
Proof. solve_decision. Defined.

(** Source: packages/schema-registry/src/types.ts:3-8 FieldDefinition *)
Record FieldDefinition := mkField {
  field_kind : FieldKind;
  field_required : option bool;
  field_format : option FieldFormat;
  field_description : option string;
}.
#[global] Instance FieldDefinition_eq_dec : EqDecision FieldDefinition.
Proof. solve_decision. Defined.

Inductive AdditionalFields := preserve | reject.
#[global] Instance AdditionalFields_eq_dec : EqDecision AdditionalFields.
Proof. solve_decision. Defined.

(** Source: packages/schema-registry/src/types.ts:10-15 ResourceTypeDefinition *)
Record ResourceTypeDefinition := mkResourceType {
  type_name : string;
  type_description : string;
  type_fields : list (string * FieldDefinition);
  type_additionalFields : AdditionalFields;
}.
#[global] Instance ResourceTypeDefinition_eq_dec : EqDecision ResourceTypeDefinition.
Proof. solve_decision. Defined.

Inductive Cardinality := one_to_one | one_to_many | many_to_many.
#[global] Instance Cardinality_eq_dec : EqDecision Cardinality.
Proof. solve_decision. Defined.

(** Source: packages/schema-registry/src/types.ts:17-22 RelationshipDefinition *)
Record RelationshipDefinition := mkRelationship {
  relation_type : string;
  relation_sourceTypes : list string;
  relation_targetTypes : list string;
  relation_cardinality : Cardinality;
}.
#[global] Instance RelationshipDefinition_eq_dec : EqDecision RelationshipDefinition.
Proof. solve_decision. Defined.

Inductive Classification := class_system | class_application.
#[global] Instance Classification_eq_dec : EqDecision Classification.
Proof. solve_decision. Defined.

(** Source: packages/schema-registry/src/types.ts:24-34 SchemaPackageManifest *)
Record SchemaPackageManifest := mkManifest {
  manifest_namespace : string;
  manifest_name : string;
  manifest_version : string;
  manifest_title : string;
  manifest_description : string;
  manifest_classification : Classification;
  manifest_resourceTypes : list ResourceTypeDefinition;
  manifest_relationships : list RelationshipDefinition;
  manifest_compatibleArchiveFormat : string;
}.
#[global] Instance SchemaPackageManifest_eq_dec : EqDecision SchemaPackageManifest.
Proof. solve_decision. Defined.

(** Source: packages/schema-registry/src/types.ts:47-50 CompatibilityClassification *)
Inductive CompatibilityClassification := compat_initial | backward_compatible | breaking.
#[global] Instance CompatibilityClassification_eq_dec : EqDecision CompatibilityClassification.
Proof. solve_decision. Defined.

Inductive ChangeKind := change_added | change_removed | change_changed.
#[global] Instance ChangeKind_eq_dec : EqDecision ChangeKind.
Proof. solve_decision. Defined.

(** Source: packages/schema-registry/src/types.ts:52-57 CompatibilityChange *)
Record CompatibilityChange := mkChange {
  change_path : string;
  change_kind : ChangeKind;
  change_breaking : bool;
  change_message : string;
}.
#[global] Instance CompatibilityChange_eq_dec : EqDecision CompatibilityChange.
Proof. solve_decision. Defined.

(** Source: packages/schema-registry/src/types.ts:59-63 CompatibilityReport *)
Record CompatibilityReport := mkReport {
  report_classification : CompatibilityClassification;
  report_previousKey : option string;
  report_changes : list CompatibilityChange;
}.
#[global] Instance CompatibilityReport_eq_dec : EqDecision CompatibilityReport.
Proof. solve_decision. Defined.

Inductive IssueCode :=
  | unknown_resource_type | missing_required_field | invalid_field_type | invalid_format | unknown_field.
#[global] Instance IssueCode_eq_dec : EqDecision IssueCode.
Proof. solve_decision. Defined.

(** Source: packages/schema-registry/src/types.ts:96-100 ValidationIssue *)
Record ValidationIssue := mkIssue { issue_path : string; issue_code : IssueCode; issue_message : string }.

(** Source: packages/schema-registry/src/types.ts:102-106 ValidationResult *)
Record ValidationResult := mkValidation {
  valid : bool;
  issues : list ValidationIssue;
  preservedUnknownFields : list string;
}.

Definition kind_name (k : FieldKind) : string :=
  match k with
  | kind_string => "string" | kind_number => "number" | kind_boolean => "boolean"
  | kind_timestamp => "timestamp" | kind_object => "object" | kind_array => "array"
  end.
Definition format_name (f : FieldFormat) : string :=
  match f with format_uri => "uri" | format_sha256 => "sha256" | format_media_type => "media-type" end.
Definition cardinality_name (c : Cardinality) : string :=
  match c with one_to_one => "one-to-one" | one_to_many => "one-to-many" | many_to_many => "many-to-many" end.

(** ** Dictionary objects *)

(** The properties of [Object.prototype]. *)
Definition OBJECT_PROTOTYPE : list string :=
  ["constructor"; "__defineGetter__"; "__defineSetter__"; "hasOwnProperty"; "__lookupGetter__";
   "__lookupSetter__"; "isPrototypeOf"; "propertyIsEnumerable"; "toString"; "valueOf"; "__proto__";
   "toLocaleString"].

Inductive property (A : Type) :=
  | Own (a : A)
  | Inherited
  | Undefined.
Arguments Own {A} a.
Arguments Inherited {A}.
Arguments Undefined {A}.

(** [o[name]]. *)
Definition property_of {A} (o : list (string * A)) (name : string) : property A :=
  match map_get name o with
  | Some a => Own a
  | None => if bool_decide (name ∈ OBJECT_PROTOTYPE) then Inherited else Undefined
  end.

(** ** validate.ts *)

Definition word_char (c : ascii) : bool :=
  is_lower c || is_upper c || is_digit c ||
  bool_decide (c ∈ ["_"; "!"; "#"; "$"; "&"; "^"; "."; "+"; "-"]%char).

(** The part of a string before the first [c], and the part after it. *)
Fixpoint cut (c : ascii) (s : list ascii) : option (list ascii * list ascii) :=
  match s with
  | [] => None
  | x :: s => if x === c then Some ([], s)
              else match cut c s with Some (a, b) => Some (x :: a, b) | None => None end
  end.

(** [/^[\w!#$&^_.+-]+\/[\w!#$&^_.+-]+$/] *)
Definition MEDIA_TYPE (s : string) : bool :=
  match cut "/"%char (chars s) with
  | Some (a, b) => (a !== []) && forallb word_char a && (b !== []) && forallb word_char b
  | None => false
  end.

Section Validate.
Context `{JsDate} (isUrl : string → bool).

(** [typeof] of a JSON value. *)
Definition typeof_kind (v : json) : option FieldKind :=
  match v with
  | JString _ => Some kind_string
  | JNumber _ => Some kind_number
  | JBool _ => Some kind_boolean
  | JNull | JArray _ | JObject _ => Some kind_object
  end.

(** Source: packages/schema-registry/src/validate.ts:29-34 matchesKind *)
Definition matchesKind (v : json) (kind : FieldKind) : bool :=
  match kind with
  | kind_array => match v with JArray _ => true | _ => false end
  | kind_object => match v with JObject _ => true | _ => false end
  | kind_timestamp => match v with JString s => bool_decide (is_Some (Date_parse s)) | _ => false end
  | _ => typeof_kind v === Some kind
  end.

(** Source: packages/schema-registry/src/validate.ts:36-41 matchesFormat *)
Definition matchesFormat (v : json) (field : FieldDefinition) : bool :=
  match field_format field, v with
  | None, _ => true
  | Some format_sha256, JString s => SHA256_PATTERN s
  | Some format_media_type, JString s => MEDIA_TYPE s
  | Some format_uri, JString s => isUrl s
  | Some _, _ => true
  end.

Definition required (f : FieldDefinition) : bool := default false (field_required f).

(** The issue, if any, that a declared field raises.  An inherited property is
    a function, or the prototype itself under the name [__proto__]. *)
Definition field_issue (payload : list (string * json)) (name : string) (field : FieldDefinition)
    : option ValidationIssue :=
  let wrong_type := Some (mkIssue ("$." +:+ name) invalid_field_type
                            (name +:+ " must be " +:+ kind_name (field_kind field))) in
  match property_of payload name with
  | Undefined =>
      if required field
      then Some (mkIssue ("$." +:+ name) missing_required_field (name +:+ " is required")) else None
  | Own v =>
      if negb (matchesKind v (field_kind field)) then wrong_type
      else if negb (matchesFormat v field)
      then Some (mkIssue ("$." +:+ name) invalid_format
                   (name +:+ " does not match " +:+ from_option format_name "undefined" (field_format field)))
      else None
  | Inherited => if (name === "__proto__") && (field_kind field === kind_object) then None else wrong_type
  end.

(** Whether [definition.fields[name]] is truthy. *)
Definition declared (fields : list (string * FieldDefinition)) (name : string) : bool :=
  match property_of fields name with Undefined => false | _ => true end.

(** Source: packages/schema-registry/src/validate.ts:25-27 result *)
Definition validation (issues : list ValidationIssue) (preserved : list string) : ValidationResult :=
  mkValidation (Nat.eqb (length issues) 0) issues preserved.

(** Source: packages/schema-registry/src/validate.ts:3-23 validateResourcePayload *)
Definition validateResourcePayload (manifest : SchemaPackageManifest) (resourceType : string)
    (payload : list (string * json)) : ValidationResult :=
  match List.find (λ item, type_name item === resourceType) (manifest_resourceTypes manifest) with
  | None => validation [mkIssue "$" unknown_resource_type ("Unknown resource type: " +:+ resourceType)] []
  | Some definition =>
      let fields := type_fields definition in
      let unknown := List.filter (λ name, negb (declared fields name)) payload.*1 in
      let field_issues := omap (λ nf, field_issue payload nf.1 nf.2) fields in
      match type_additionalFields definition with
      | preserve => validation field_issues (map (λ name, "$." +:+ name) unknown)
      | reject => validation (field_issues ++
          map (λ name, mkIssue ("$." +:+ name) unknown_field (name +:+ " is not allowed")) unknown) []
      end
  end.
End Validate.

(** ** compatibility.ts *)

(** Source: packages/schema-registry/src/compatibility.ts:180-187 added *)
Definition added (path message : string) (breaking : bool) : CompatibilityChange :=
  mkChange path change_added breaking message.
(** Source: packages/schema-registry/src/compatibility.ts:189-195 removed *)
Definition removed (path message : string) : CompatibilityChange := mkChange path change_removed true message.
(** Source: packages/schema-registry/src/compatibility.ts:197-204 changed *)
Definition changed (path : string) (breaking : bool) (message : string) : CompatibilityChange :=
  mkChange path change_changed breaking message.

(** The changes one field of the previous version is found to have. *)
Definition field_changes (path : string) (before : FieldDefinition) (after : property FieldDefinition)
    : list CompatibilityChange :=
  match after with
  | Undefined => [removed path "Field was removed."]
  | Inherited => [changed path true "Field type or format changed."]
  | Own after =>
      (if (field_kind before !== field_kind after) || (field_format before !== field_format after)
       then [changed path true "Field type or format changed."] else []) ++
      (if negb (required before) && required after
       then [changed (path +:+ ".required") true "Field became required."] else [])
  end.

(** Source: packages/schema-registry/src/compatibility.ts:95-120 compareFields *)
Definition compareFields (resourceName : string) (previous next : list (string * FieldDefinition))
    : list CompatibilityChange :=
  let path name := "resourceTypes." +:+ resourceName +:+ ".fields." +:+ name in
  flat_map (λ nf, field_changes (path nf.1) nf.2 (property_of next nf.1)) previous ++
  flat_map (λ nf, if declared previous nf.1 then []
                  else if required nf.2 then [added (path nf.1) "Required field was added." true]
                  else [added (path nf.1) "Optional field was added." false]) next.

(** [new Map(types.map((value) => [value.name, value]))] *)
Definition by_name (types : list ResourceTypeDefinition) : list (string * ResourceTypeDefinition) :=
  index_by type_name types.

(** Source: packages/schema-registry/src/compatibility.ts:65-93 compareResourceTypes *)
Definition compareResourceTypes (previous next : list ResourceTypeDefinition) : list CompatibilityChange :=
  let previousByName := by_name previous in
  let nextByName := by_name next in
  flat_map (λ nb, let '(name, before) := nb in
    match map_get name nextByName with
    | None => [removed ("resourceTypes." +:+ name) "Resource type was removed."]
    | Some after =>
        (if (type_additionalFields before === preserve) && (type_additionalFields after === reject)
         then [changed ("resourceTypes." +:+ name +:+ ".additionalFields") true
                 "Unknown fields are no longer preserved."] else []) ++
        compareFields name (type_fields before) (type_fields after)
    end) previousByName ++
  flat_map (λ name, if bool_decide (is_Some (map_get name previousByName)) then []
                    else [added ("resourceTypes." +:+ name) "Resource type was added." false]) nextByName.*1.

(** The key a relationship is compared by. *)
Definition relationship_key (value : RelationshipDefinition) : string :=
  relation_type value +:+ ":" +:+ join "," (js_sort (relation_sourceTypes value)) +:+ ":" +:+
  join "," (js_sort (relation_targetTypes value)) +:+ ":" +:+ cardinality_name (relation_cardinality value).

(** Source: packages/schema-registry/src/compatibility.ts:122-149 compareRelationships *)
Definition compareRelationships (previous next : list RelationshipDefinition) : list CompatibilityChange :=
  let previousKeys := map relationship_key previous in
  let nextKeys := map relationship_key next in
  flat_map (λ r, if array_includes nextKeys (relationship_key r) then []
                 else [removed ("relationships." +:+ relation_type r)
                         "Relationship constraint was removed or changed."]) previous ++
  flat_map (λ r, if array_includes previousKeys (relationship_key r) then []
                 else [added ("relationships." +:+ relation_type r)
                         "Relationship constraint was added." false]) next.

(** Source: packages/schema-registry/src/compatibility.ts:151-153 schemaKey *)
Definition schemaKey (manifest : SchemaPackageManifest) : string :=
  manifest_namespace manifest +:+ "/" +:+ manifest_name manifest +:+ "/" +:+ manifest_version manifest.

(** Source: packages/schema-registry/src/compatibility.ts:10-39 classifyCompatibility *)
Definition classifyCompatibility (previous : option SchemaPackageManifest) (next : SchemaPackageManifest)
    : result string CompatibilityReport :=
  match previous with
  | None => Ok (mkReport compat_initial None [])
  | Some previous =>
      throw_if ((manifest_namespace previous !== manifest_namespace next) ||
                (manifest_name previous !== manifest_name next))
        "Compatibility requires the same schema package identity." ≫= λ _,
      let changes :=
        compareResourceTypes (manifest_resourceTypes previous) (manifest_resourceTypes next) ++
        compareRelationships (manifest_relationships previous) (manifest_relationships next) ++
        (if manifest_compatibleArchiveFormat previous !== manifest_compatibleArchiveFormat next
         then [changed "compatibleArchiveFormat" true "Compatible archive format changed."] else []) in
      Ok (mkReport (if existsb change_breaking changes then breaking else backward_compatible)
            (Some (schemaKey previous)) changes)
  end.

(** A version's three numbers. *)
Record Version := mkVersion { major : Z; minor : Z; patch : Z }.
#[global] Instance Version_eq_dec : EqDecision Version.
Proof. solve_decision. Defined.

Fixpoint span_digits (s : list ascii) : list ascii * list ascii :=
  match s with
  | c :: s' => if is_digit c then let '(d, r) := span_digits s' in (c :: d, r) else ([], s)
  | [] => ([], [])
  end.

(** [Number(digits)]; exact below 2^53. *)
Definition number_of (ds : list ascii) : Z :=
  fold_left (λ acc c, 10 * acc + Z.of_nat (nat_of_ascii c - 48))%Z ds 0%Z.

(** The match of [/^(\d+)\.(\d+)\.(\d+)/], with what follows it. *)
Definition match_version (s : list ascii) : option (list ascii * list ascii * list ascii * list ascii) :=
  let '(a, r1) := span_digits s in
  match r1 with
  | "."%char :: r1 =>
      let '(b, r2) := span_digits r1 in
      match r2 with
      | "."%char :: r2 =>
          let '(c, r3) := span_digits r2 in
          if (a !== []) && (b !== []) && (c !== []) then Some (a, b, c, r3) else None
      | _ => None
      end
  | _ => None
  end.

(** Source: packages/schema-registry/src/compatibility.ts:155-167 parseVersion *)
Definition parseVersion (value : string) : result string Version :=
  match match_version (chars value) with
  | None => Err ("Invalid semantic version: " +:+ value)
  | Some (a, b, c, _) => Ok (mkVersion (number_of a) (number_of b) (number_of c))
  end.

(** [a || b] on numbers. *)
Definition or_else (a b : Z) : Z := if (a =? 0)%Z then b else a.

(** Source: packages/schema-registry/src/compatibility.ts:169-178 compareVersion *)
Definition compareVersion (left right : Version) : Z :=
  or_else (or_else (major left - major right) (minor left - minor right)) (patch left - patch right).

(** Source: packages/schema-registry/src/compatibility.ts:41-63 assertVersionMatchesCompatibility *)
Definition assertVersionMatchesCompatibility (previous : option SchemaPackageManifest)
    (next : SchemaPackageManifest) (report : CompatibilityReport) : result string unit :=
  match previous with
  | None => Ok tt
  | Some previous =>
      parseVersion (manifest_version previous) ≫= λ previousVersion,
      parseVersion (manifest_version next) ≫= λ nextVersion,
      throw_if (compareVersion nextVersion previousVersion <=? 0)%Z
        "Published schema versions must increase." ≫= λ _,
      throw_if ((report_classification report === breaking) &&
                (major nextVersion <=? major previousVersion)%Z)
        "Breaking schema changes require a new major version." ≫= λ _,
      throw_if ((report_classification report === backward_compatible) &&
                (major nextVersion !== major previousVersion))
        "Backward-compatible schema changes must remain in the current major version."
  end.

(** ** What backward compatibility means *)

Lemma existsb_flat_map {A B} (p : B → bool) (f : A → list B) l :
  existsb p (flat_map f l) = existsb (λ x, existsb p (f x)) l.
Proof. induction l as [|x l IH]; cbn; [done|]. by rewrite existsb_app, IH. Qed.

Lemma existsb_false_elem {A} (p : A → bool) l : existsb p l = false ↔ ∀ x, x ∈ l → p x = false.
Proof.
  rewrite <- not_true_iff_false, existsb_elem. split.
  - intros Hn x Hx. destruct (p x) eqn:E; [|done]. destruct Hn. by exists x.
  - intros Hall (x & Hx & Hp). by rewrite Hall in Hp.
Qed.

Lemma validation_valid issues preserved : valid (validation issues preserved) = true ↔ issues = [].
Proof. unfold validation. cbn. rewrite Nat.eqb_eq. by destruct issues. Qed.

Lemma omap_nil {A B} (f : A → option B) l : omap f l = [] ↔ ∀ x, x ∈ l → f x = None.
Proof.
  split.
  - intros Hn x Hx. destruct (f x) as [y|] eqn:E; [|done].
    assert (y ∈ omap f l) as Hy by (apply list_elem_of_omap; by exists x). rewrite Hn in Hy. by apply elem_of_nil in Hy.
  - induction l as [|x l IH]; intros Hall; [done|]. cbn. rewrite (Hall x) by apply list_elem_of_here.
    apply IH. intros y Hy. apply Hall. by apply list_elem_of_further.
Qed.

(** Types with distinct names, fields with distinct and ordinary names. *)
Definition fields_plain (t : ResourceTypeDefinition) : Prop :=
  NoDup (type_fields t).*1 ∧ Forall (λ n, n ∉ OBJECT_PROTOTYPE) (type_fields t).*1.
Definition plain_manifest (m : SchemaPackageManifest) : Prop :=
  NoDup (map type_name (manifest_resourceTypes m)) ∧ Forall fields_plain (manifest_resourceTypes m).
#[global] Instance fields_plain_dec t : Decision (fields_plain t).
Proof. unfold fields_plain. apply _. Defined.
#[global] Instance plain_manifest_dec m : Decision (plain_manifest m).
Proof. unfold plain_manifest. apply _. Defined.

Lemma map_get_None {A} (m : list (string * A)) n : map_get n m = None ↔ n ∉ m.*1.
Proof.
  induction m as [|[k v] m IH]; cbn; [split; [by intros _ ?%elem_of_nil|done]|].
  rewrite elem_of_cons. case_bool_decide; subst; [split; [done|naive_solver]|]. rewrite IH. naive_solver.
Qed.

(** The two versions of one type, as the comparison of the packages sees them. *)
Definition type_compatible (before after : ResourceTypeDefinition) : Prop :=
  (type_additionalFields before = preserve → type_additionalFields after = preserve) ∧
  existsb change_breaking (compareFields (type_name before) (type_fields before) (type_fields after)) = false.

Lemma backward_compatible_types prev next report before T :
  classifyCompatibility (Some prev) next = Ok report → report_classification report = backward_compatible →
  plain_manifest prev → plain_manifest next →
  List.find (λ t, type_name t === T) (manifest_resourceTypes prev) = Some before →
  ∃ after, List.find (λ t, type_name t === T) (manifest_resourceTypes next) = Some after ∧
    type_compatible before after.
Proof.
  intros HC Hcls [Hnd1 _] [Hnd2 _] Hfind. unfold classifyCompatibility in HC. run_inv. cbn in Hcls.
  destruct (existsb change_breaking _) eqn:Hb in Hcls; [done|]. clear Hcls.
  rewrite existsb_app in Hb. apply orb_false_iff in Hb as [Hb _]. unfold compareResourceTypes in Hb.
  rewrite existsb_app, !existsb_flat_map in Hb. apply orb_false_iff in Hb as [Hb _].
  rewrite existsb_false_elem in Hb. unfold by_name in Hb. rewrite !index_by_map in Hb by done.
  destruct (find_Some_elem _ _ _ Hfind) as [Hin Hname]. to_prop. subst T.
  specialize (Hb (type_name before, before)). cbn in Hb. rewrite index_by_get in Hb.
  destruct (List.find _ (manifest_resourceTypes next)) as [after|].
  - exists after. split; [done|]. rewrite existsb_app, orb_false_iff in Hb.
    destruct Hb as [H1 H2]; [apply list_elem_of_fmap; by exists before|]. split; [|done].
    intros Hp. rewrite Hp in H1. by destruct (type_additionalFields after).
  - exfalso. assert (existsb change_breaking [removed ("resourceTypes." +:+ type_name before)
      "Resource type was removed."] = false) as Hx by (apply Hb, list_elem_of_fmap; by exists before). done.
Qed.

(** What the comparison says of a field both versions have, and of a new one. *)
Lemma compatible_fields before after :
  type_compatible before after → fields_plain before → fields_plain after →
  (∀ n f, map_get n (type_fields before) = Some f →
     ∃ f', map_get n (type_fields after) = Some f' ∧ field_kind f' = field_kind f ∧
           field_format f' = field_format f ∧ (required f' = true → required f = true)) ∧
  (∀ n f', map_get n (type_fields after) = Some f' → map_get n (type_fields before) = None → required f' = false).
Proof.
  intros [_ HC] [Hn1 Hp1] [Hn2 Hp2]. unfold compareFields in HC.
  rewrite existsb_app, !existsb_flat_map, orb_false_iff, !existsb_false_elem in HC. destruct HC as [Hold Hnew]. split.
  - intros n f Hf. specialize (Hold _ (map_get_elem _ _ _ Hf)). cbn in Hold. unfold property_of in Hold.
    destruct (map_get n (type_fields after)) as [f'|]; [|by destruct (bool_decide _) in Hold].
    exists f'. cbn in Hold. rewrite existsb_app, orb_false_iff in Hold. destruct Hold as [H1 H2]. split; [done|].
    destruct (_ || _) eqn:Hk in H1; [done|]. to_prop. split_and!; [done|done|].
    intros Hr. rewrite Hr, andb_true_r in H2. by destruct (required f).
  - intros n f' Hf Hnone. specialize (Hnew _ (map_get_elem _ _ _ Hf)). cbn in Hnew.
    unfold declared, property_of in Hnew. rewrite Hnone in Hnew.
    rewrite bool_decide_eq_false_2 in Hnew; [by destruct (required f')|].
    eapply (proj1 (Forall_forall _ _) Hp2). apply list_elem_of_fmap. exists (n, f'). split; [done|].
    by apply map_get_elem.
Qed.

Section Compatible.
Context `{JsDate} (isUrl : string → bool).
Local Abbreviation validate := (validateResourcePayload isUrl).

(** A payload is valid for a type: no field raises an issue, and a type that
    rejects unknown fields has none. *)
Lemma validate_spec m T payload :
  valid (validate m T payload) = true ↔
  ∃ d, List.find (λ t, type_name t === T) (manifest_resourceTypes m) = Some d ∧
    (∀ n f, (n, f) ∈ type_fields d → field_issue isUrl payload n f = None) ∧
    (type_additionalFields d = reject → ∀ n, n ∈ payload.*1 → declared (type_fields d) n = true).
Proof.
  unfold validateResourcePayload. destruct (List.find _ _) as [d|].
  2: { rewrite validation_valid. split; [done|]. by intros (? & ? & _). }
  assert (∀ i, omap (λ nf, field_issue isUrl payload nf.1 nf.2) (type_fields d) = i →
    i = [] ↔ ∀ n f, (n, f) ∈ type_fields d → field_issue isUrl payload n f = None) as Hom.
  { intros i <-. rewrite omap_nil. split; [intros Hx n f; apply (Hx (n, f))|intros Hx [n f]; apply Hx]. }
  specialize (Hom _ eq_refl). destruct (type_additionalFields d) eqn:Ha; rewrite validation_valid.
  - rewrite Hom. split; [intros Hx; exists d; rewrite Ha; done|]. by intros (? & [= <-] & Hx & _).
  - rewrite app_nil, Hom. split.
    + intros [Hx Hu]. exists d. split_and!; [done|done|]. intros _ n Hn.
      destruct (declared (type_fields d) n) eqn:Hd; [done|]. apply map_eq_nil in Hu.
      assert (n ∈ List.filter (λ name, negb (declared (type_fields d) name)) payload.*1) as Hf
        by (apply List_filter_elem; by rewrite Hd). rewrite Hu in Hf. by apply elem_of_nil in Hf.
    + intros (? & [= <-] & Hx & Hu). split; [done|]. destruct (List.filter _ _) as [|n l] eqn:Hf; [done|].
      exfalso. assert (n ∈ n :: l) as Hn by apply list_elem_of_here. rewrite <- Hf in Hn.
      apply List_filter_elem in Hn as [Hn Hd]. by rewrite Hu in Hd.
Qed.

(** [next] gives no meaning to a field of the payload that [prev] did not know. *)
Definition no_new_meaning (prev next : SchemaPackageManifest) (T : string) (payload : list (string * json)) : Prop :=
  ∀ before after n, List.find (λ t, type_name t === T) (manifest_resourceTypes prev) = Some before →
    List.find (λ t, type_name t === T) (manifest_resourceTypes next) = Some after →
    n ∈ payload.*1 → map_get n (type_fields before) = None → map_get n (type_fields after) = None.

(** C28. What "backward-compatible" guarantees: when [classifyCompatibility]
    says so of two versions of a package (with distinct type and field names,
    none of them a name of [Object.prototype]), every payload valid for a
    resource type of the old version is valid for that type of the new version,
    unless the new version declares a field the payload was already carrying as
    an unknown one. *)
Theorem compatible_payloads_stay_valid prev next report T payload :
  plain_manifest prev → plain_manifest next →
  classifyCompatibility (Some prev) next = Ok report → report_classification report = backward_compatible →
  no_new_meaning prev next T payload →
  valid (validate prev T payload) = true → valid (validate next T payload) = true.
Proof.
  intros Hp Hq HC Hcls Hmean. rewrite !validate_spec. intros (before & Hfind & Hissues & Hrej).
  destruct (backward_compatible_types _ _ _ _ _ HC Hcls Hp Hq Hfind) as (after & Hfind' & Hcomp).
  assert (fields_plain before) as Hpb by (eapply (proj1 (Forall_forall _ _) (proj2 Hp)), find_Some_elem, Hfind).
  assert (fields_plain after) as Hpa by (eapply (proj1 (Forall_forall _ _) (proj2 Hq)), find_Some_elem, Hfind').
  destruct (compatible_fields _ _ Hcomp Hpb Hpa) as [Hold Hnew].
  exists after. split_and!; [done| |].
  - intros n f' Hin. pose proof (map_elem_get _ _ _ (proj1 Hpa) Hin) as Hf'.
    assert (n ∉ OBJECT_PROTOTYPE) as Hnp by (eapply (proj1 (Forall_forall _ _) (proj2 Hpa)), list_elem_of_fmap; by exists (n, f')).
    destruct (map_get n (type_fields before)) as [f|] eqn:Hf.
    + destruct (Hold _ _ Hf) as (f'' & Hf'' & Hk & Hfm & Hr). assert (f'' = f') as -> by congruence.
      pose proof (Hissues _ _ (map_get_elem _ _ _ Hf)) as Hi. unfold field_issue, property_of in *.
      destruct (map_get n payload) as [v|].
      * unfold matchesFormat in *. rewrite Hk, Hfm. done.
      * rewrite bool_decide_eq_false_2 in * by done. destruct (required f'); [|done]. by rewrite Hr in Hi.
    + pose proof (Hnew _ _ Hf' Hf) as Hopt. unfold field_issue, property_of.
      destruct (map_get n payload) as [v|] eqn:Hv; [|by rewrite bool_decide_eq_false_2, Hopt by done].
      apply map_get_elem in Hv. rewrite (Hmean before after n) in Hf'; try done.
      apply list_elem_of_fmap. by exists (n, v).
  - intros Ha n Hn. destruct Hcomp as [Hadd _]. assert (type_additionalFields before = reject) as Hb
      by (destruct (type_additionalFields before); [by rewrite Hadd in Ha|done]).
    specialize (Hrej Hb n Hn). unfold declared, property_of in *.
    destruct (map_get n (type_fields before)) as [f|] eqn:Hf.
    + destruct (Hold _ _ Hf) as (f' & -> & _). done.
    + destruct (map_get n (type_fields after)); [done|]. exact Hrej.
Qed.
End Compatible.

(** ** Concrete packages *)
Module SchemaWitness.

Definition field (k : FieldKind) (req : bool) : FieldDefinition := mkField k (Some req) None None.
Definition notes (version : string) (policy : AdditionalFields) (fields : list (string * FieldDefinition))
    : SchemaPackageManifest :=
  mkManifest "app" "notes" version "Notes" "Test notes" class_application
    [mkResourceType "Note" "A note" fields policy] [] "trust-core-archive/1.0.0".
Definition v1 : SchemaPackageManifest := notes "1.0.0" preserve [("title", field kind_string true)].
Definition v1_1 : SchemaPackageManifest :=
  notes "1.1.0" preserve [("title", field kind_string true); ("subtitle", field kind_string false)].
Definition check := validateResourcePayload (λ _, true).

Lemma compatible_payloads_stay_valid_witness :
  valid (check v1_1 "Note" [("title", JString "Hello"); ("future", JNumber 3)]) = true.
Proof.
  destruct (classifyCompatibility (Some v1) v1_1) as [report|] eqn:HC; [|discriminate HC].
  apply (compatible_payloads_stay_valid (λ _, true) v1 v1_1 report "Note").
  - apply (bool_decide_unpack _). vm_compute. exact I.
  - apply (bool_decide_unpack _). vm_compute. exact I.
  - exact HC.
  - vm_compute in HC. injection HC as <-. reflexivity.
  - intros before after n Hb Ha Hn. vm_compute in Hb, Ha. injection Hb as <-. injection Ha as <-.
    apply elem_of_cons in Hn as [->|Hn]; [intros Hx; discriminate Hx|].
    apply elem_of_cons in Hn as [->|Hn]; [reflexivity|]. apply elem_of_nil in Hn. destruct Hn.
  - vm_compute. reflexivity.
Defined.

(** The exception is real: a field that was preserved as unknown is rejected
    once a backward-compatible version declares it with another type. *)
Example new_meaning_breaks :
  let payload := [("title", JString "Hello"); ("subtitle", JNumber 3)] in
  (report_classification <$> match classifyCompatibility (Some v1) v1_1 with Ok r => Some r | Err _ => None end)
    = Some backward_compatible ∧
  valid (check v1 "Note" payload) = true ∧ valid (check v1_1 "Note" payload) = false.
Proof. vm_compute. done. Qed.

(** A field named as a property of [Object.prototype]: adding it as required
    goes unnoticed by the comparison, though it invalidates every payload; and
    as an unknown field it passes a type that rejects unknown fields. *)
Theorem prototype_names_escape :
  let v2 := notes "1.1.0" preserve [("title", field kind_string true); ("constructor", field kind_string true)] in
  let strict := notes "1.0.0" reject [("title", field kind_string true)] in
  classifyCompatibility (Some v1) v2 = Ok (mkReport backward_compatible (Some "app/notes/1.0.0") []) ∧
  valid (check v1 "Note" [("title", JString "Hello")]) = true ∧
  valid (check v2 "Note" [("title", JString "Hello")]) = false ∧
  valid (check strict "Note" [("title", JString "Hello"); ("constructor", JNumber 1)]) = true.
Proof. vm_compute. done. Qed.
End SchemaWitness.
