(* ===== verification/SchemaRegistry.v ===== *)
(** * packages/schema-registry: registry.ts, canonical.ts, typescript.ts

    [SchemaRegistry]: published packages and the requests that published them,
    as maps; [publishGoverned] as a program over them that returns or throws an
    error's message.  Stored values are frozen clones: the model's values.
    [localeCompare] with [numeric], by which the latest version is found, and
    plain [localeCompare], which orders generated declarations, are parameters.

    The theorems: a published package never changes and is named by its own
    digest; publication is idempotent per key; the versions of a package
    increase and the major number moves exactly on breaking changes; generated
    types do not depend on the order of the manifest. *)
From S2P Require Import Prelude Js Concrete Json Schema.

(** ** types.ts *)

(** Source: packages/schema-registry/src/types.ts:65-72 PublicationGovernance *)
Record PublicationGovernance := mkGovernance {
  governance_protocolVersion : string;
  governance_applicationNamespace : string;
  governance_applicationVersion : string;
  governance_approvedBy : string;
  governance_approvalId : string;
  governance_idempotencyKey : string;
}.
#[global] Instance PublicationGovernance_eq_dec : EqDecision PublicationGovernance.
Proof. solve_decision. Defined.

Inductive PackageStatus := package_active | package_deprecated | package_revoked.
#[global] Instance PackageStatus_eq_dec : EqDecision PackageStatus.
Proof. solve_decision. Defined.

(** Source: packages/schema-registry/src/types.ts:36-45 PublishedSchemaPackage *)
Record PublishedSchemaPackage := mkPublished {
  package_id : string;
  package_key : string;
  package_digest : string;
  package_status : PackageStatus;
  package_publishedAt : string;
  package_manifest : SchemaPackageManifest;
  package_governance : option PublicationGovernance;
  package_compatibility : option CompatibilityReport;
}.
#[global] Instance PublishedSchemaPackage_eq_dec : EqDecision PublishedSchemaPackage.
Proof. solve_decision. Defined.

(** [application.schemaPackage] of a request. *)
Record ApplicationSchemaPackage := mkAppSchema {
  app_key : string;
  app_version : string;
  app_resourceTypes : list string;
  app_relationTypes : list string;
  app_additionalFields : AdditionalFields;
}.

(** Source: packages/schema-registry/src/types.ts:74-94 GovernedPublicationRequest *)
Record GovernedPublicationRequest := mkRequest {
  request_manifest : SchemaPackageManifest;
  request_protocolVersion : string;
  request_namespace : string;
  request_applicationVersion : string;
  request_schemaPackage : ApplicationSchemaPackage;
  request_approvedBy : string;
  request_approvalId : string;
  request_idempotencyKey : string;
  request_expectedCompatibility : CompatibilityClassification;
}.

(** ** The values that are hashed *)

Definition optional {A} (key : string) (f : A → json) (o : option A) : list (string * json) :=
  match o with Some a => [(key, f a)] | None => [] end.
Definition strings_json (l : list string) : json := JArray (map JString l).
Definition additional_name (a : AdditionalFields) : string :=
  match a with preserve => "preserve" | reject => "reject" end.
Definition classification_name (c : Classification) : string :=
  match c with class_system => "system" | class_application => "application" end.
Definition compatibility_name (c : CompatibilityClassification) : string :=
  match c with
  | compat_initial => "initial" | backward_compatible => "backward-compatible" | breaking => "breaking"
  end.

Definition field_json (f : FieldDefinition) : json :=
  JObject ([("kind", JString (kind_name (field_kind f)))] ++ optional "required" JBool (field_required f) ++
    optional "format" (λ x, JString (format_name x)) (field_format f) ++
    optional "description" JString (field_description f)).
Definition resource_type_json (t : ResourceTypeDefinition) : json :=
  JObject [("name", JString (type_name t)); ("description", JString (type_description t));
    ("fields", JObject (map (λ nf, (nf.1, field_json nf.2)) (type_fields t)));
    ("additionalFields", JString (additional_name (type_additionalFields t)))].
Definition relationship_json (r : RelationshipDefinition) : json :=
  JObject [("type", JString (relation_type r)); ("sourceTypes", strings_json (relation_sourceTypes r));
    ("targetTypes", strings_json (relation_targetTypes r));
    ("cardinality", JString (cardinality_name (relation_cardinality r)))].
Definition manifest_json (m : SchemaPackageManifest) : json :=
  JObject [("namespace", JString (manifest_namespace m)); ("name", JString (manifest_name m));
    ("version", JString (manifest_version m)); ("title", JString (manifest_title m));
    ("description", JString (manifest_description m));
    ("classification", JString (classification_name (manifest_classification m)));
    ("resourceTypes", JArray (map resource_type_json (manifest_resourceTypes m)));
    ("relationships", JArray (map relationship_json (manifest_relationships m)));
    ("compatibleArchiveFormat", JString (manifest_compatibleArchiveFormat m))].
Definition request_json (r : GovernedPublicationRequest) : json :=
  let s := request_schemaPackage r in
  JObject [("manifest", manifest_json (request_manifest r));
    ("application", JObject [("protocolVersion", JString (request_protocolVersion r));
       ("namespace", JString (request_namespace r));
       ("applicationVersion", JString (request_applicationVersion r));
       ("schemaPackage", JObject [("key", JString (app_key s)); ("version", JString (app_version s));
          ("resourceTypes", strings_json (app_resourceTypes s));
          ("relationTypes", strings_json (app_relationTypes s));
          ("additionalFields", JString (additional_name (app_additionalFields s)))])]);
    ("approval", JObject [("approvedBy", JString (request_approvedBy r));
       ("approvalId", JString (request_approvalId r))]);
    ("idempotencyKey", JString (request_idempotencyKey r));
    ("expectedCompatibility", JString (compatibility_name (request_expectedCompatibility r)))].

(** ** registry.ts *)

(** [0|[1-9]\d*] *)
Definition plain_number (ds : list ascii) : bool := (ds === ["0"%char]) || (head ds !== Some "0"%char).
Definition suffix_char (c : ascii) : bool :=
  is_digit c || is_upper c || is_lower c || (c === "."%char) || (c === "-"%char).

(** Source: packages/schema-registry/src/registry.ts:13-13 SEMVER *)
Definition SEMVER (version : string) : bool :=
  match match_version (chars version) with
  | Some (a, b, c, rest) =>
      plain_number a && plain_number b && plain_number c &&
      match rest with
      | [] => true
      | x :: suffix => (x === "-"%char) && (suffix !== []) && forallb suffix_char suffix
      end
  | None => false
  end.

(** Source: packages/schema-registry/src/registry.ts:132-140 assertManifestReferences *)
Definition assertManifestReferences (manifest : SchemaPackageManifest) : result string unit :=
  let names := new_Set (map type_name (manifest_resourceTypes manifest)) in
  throw_if (negb (Nat.eqb (length names) (length (manifest_resourceTypes manifest))))
    "Resource type names must be unique" ≫= λ _,
  match List.find (λ rt, negb (array_includes names rt.2))
          (flat_map (λ r, map (λ t, (r, t)) (relation_sourceTypes r ++ relation_targetTypes r))
             (manifest_relationships manifest)) with
  | Some (r, t) => Err ("Relationship " +:+ relation_type r +:+ " references unknown resource type " +:+ t)
  | None => Ok tt
  end.

Definition NUL : string := String (ascii_of_nat 0) EmptyString.

(** Source: packages/schema-registry/src/registry.ts:182-191 assertSameMembers *)
Definition assertSameMembers (declared actual : list string) (label : string) : result string unit :=
  let normalized values := join NUL (js_sort (new_Set values)) in
  throw_if (normalized declared !== normalized actual)
    ("TCAP " +:+ label +:+ " do not match the schema manifest.").

(** Source: packages/schema-registry/src/registry.ts:142-180 assertGovernedRequest *)
Definition assertGovernedRequest (request : GovernedPublicationRequest) : result string unit :=
  throw_if (blank (request_approvedBy request) || blank (request_approvalId request) ||
            blank (request_idempotencyKey request))
    "Governed publication requires an approver, approval ID and idempotency key." ≫= λ _,
  let manifest := request_manifest request in
  let schema := request_schemaPackage request in
  throw_if (request_namespace request !== manifest_namespace manifest +:+ "/" +:+ manifest_name manifest)
    "TCAP namespace does not own the schema package." ≫= λ _,
  throw_if ((app_key schema !== schemaKey manifest) || (app_version schema !== manifest_version manifest))
    "TCAP schema identity does not match the publication." ≫= λ _,
  assertSameMembers (app_resourceTypes schema) (map type_name (manifest_resourceTypes manifest))
    "resource types" ≫= λ _,
  assertSameMembers (app_relationTypes schema) (map relation_type (manifest_relationships manifest))
    "relation types" ≫= λ _,
  throw_if (existsb (λ t, type_additionalFields t !== app_additionalFields schema) (manifest_resourceTypes manifest))
    "TCAP unknown-field policy does not match every resource type.".

(** Source: packages/schema-registry/src/registry.ts:15-20 SchemaRegistry *)
Record SchemaRegistry := mkRegistry {
  packages : list (string * PublishedSchemaPackage);
  publicationRequests : list (string * (string * string)); (* key to (fingerprint, package key) *)
}.
Definition empty_registry : SchemaRegistry := mkRegistry [] [].

Abbreviation Reg := (M SchemaRegistry string).

Section Registry.
Context `{Crypto} (numericCompare : string → string → Z).

(** Source: packages/schema-registry/src/canonical.ts:10-12 schemaDigest *)
Definition schemaDigest (value : json) : string := sha256 (canonicalize value).

Definition same_identity (manifest : SchemaPackageManifest) (p : PublishedSchemaPackage) : bool :=
  (manifest_namespace (package_manifest p) === manifest_namespace manifest) &&
  (manifest_name (package_manifest p) === manifest_name manifest).

(** The versions of a package, in the order of their publication. *)
Definition lineage_of (manifest : SchemaPackageManifest) (r : SchemaRegistry) : list PublishedSchemaPackage :=
  List.filter (same_identity manifest) (packages r).*2.

(** Source: packages/schema-registry/src/registry.ts:113-129 latest *)
Definition latest (manifest : SchemaPackageManifest) (r : SchemaRegistry) : option PublishedSchemaPackage :=
  snd <$> head (sort_keys (λ left right, (numericCompare right left <=? 0)%Z)
    (map (λ p, (manifest_version (package_manifest p), p)) (lineage_of manifest r))).

(** Source: packages/schema-registry/src/registry.ts:102-105 get *)
Definition get (key : string) (r : SchemaRegistry) : option PublishedSchemaPackage := map_get key (packages r).

(** Source: packages/schema-registry/src/registry.ts:107-111 list *)
Definition list_packages (r : SchemaRegistry) : list PublishedSchemaPackage := (packages r).*2.

(** Source: packages/schema-registry/src/registry.ts:72-100 publish *)
Definition publish (manifest : SchemaPackageManifest) (publishedAt : string)
    (governance : option PublicationGovernance) (compatibility : CompatibilityReport) : Reg PublishedSchemaPackage :=
  throw_when (negb (SEMVER (manifest_version manifest)))
    ("Invalid semantic version: " +:+ manifest_version manifest) ≫= λ _,
  let key := schemaKey manifest in
  gets (λ r, bool_decide (is_Some (map_get key (packages r)))) ≫= λ has : bool,
  throw_when has ("Schema version already published: " +:+ key) ≫= λ _,
  lift (assertManifestReferences manifest) ≫= λ _,
  let digest := schemaDigest (manifest_json manifest) in
  let published := mkPublished ("schema:" +:+ digest) key digest package_active publishedAt manifest governance
    (Some compatibility) in
  modify (λ r, mkRegistry (map_set key published (packages r)) (publicationRequests r)) ≫= λ _,
  mret published.

Definition request_key (request : GovernedPublicationRequest) : string :=
  request_namespace request +:+ ":" +:+ request_idempotencyKey request.

Definition governance_of (request : GovernedPublicationRequest) : PublicationGovernance :=
  mkGovernance (request_protocolVersion request) (request_namespace request)
    (request_applicationVersion request) (request_approvedBy request) (request_approvalId request)
    (request_idempotencyKey request).

(** Source: packages/schema-registry/src/registry.ts:22-70 publishGoverned *)
Definition publishGoverned (request : GovernedPublicationRequest) (publishedAt : string)
    : Reg (option PublishedSchemaPackage) :=
  lift (assertGovernedRequest request) ≫= λ _,
  let requestKey := request_key request in
  let fingerprint := schemaDigest (request_json request) in
  gets (λ r, map_get requestKey (publicationRequests r)) ≫= λ replay,
  match replay with
  | Some (recorded, packageKey) =>
      throw_when (recorded !== fingerprint)
        "Idempotency key was already used for a different schema publication." ≫= λ _,
      gets (get packageKey)
  | None =>
      gets (latest (request_manifest request)) ≫= λ previous,
      lift (classifyCompatibility (package_manifest <$> previous) (request_manifest request)) ≫= λ compatibility,
      throw_when (report_classification compatibility !== request_expectedCompatibility request)
        ("Expected " +:+ compatibility_name (request_expectedCompatibility request) +:+
         " compatibility but classified " +:+ compatibility_name (report_classification compatibility) +:+ ".") ≫= λ _,
      lift (assertVersionMatchesCompatibility (package_manifest <$> previous) (request_manifest request)
              compatibility) ≫= λ _,
      publish (request_manifest request) publishedAt (Some (governance_of request)) compatibility ≫= λ published,
      modify (λ r, mkRegistry (packages r)
        (map_set requestKey (fingerprint, package_key published) (publicationRequests r))) ≫= λ _,
      mret (Some published)
  end.
End Registry.

(** ** The registry's invariant *)

Section RegistryInvariant.
Context `{Crypto} (numericCompare : string → string → Z).
Local Abbreviation submit := (publishGoverned numericCompare).

(** What a published package always says of itself. *)
Definition package_ok (key : string) (p : PublishedSchemaPackage) : Prop :=
  package_key p = key ∧ key = schemaKey (package_manifest p) ∧
  package_digest p = schemaDigest (manifest_json (package_manifest p)) ∧
  package_id p = "schema:" +:+ package_digest p ∧
  SEMVER (manifest_version (package_manifest p)) = true ∧
  is_Ok (assertManifestReferences (package_manifest p)) = true ∧
  ∃ req, package_governance p = Some (governance_of req) ∧ request_manifest req = package_manifest p ∧
         is_Ok (assertGovernedRequest req) = true.

Record reg_ok (r : SchemaRegistry) : Prop := mkRegOk {
  ok_packages key p : map_get key (packages r) = Some p → package_ok key p;
  ok_requests rk fp key : map_get rk (publicationRequests r) = Some (fp, key) → is_Some (get key r);
}.

(** The new package of a publication. *)
Definition publication (request : GovernedPublicationRequest) (publishedAt : string)
    (compatibility : CompatibilityReport) : PublishedSchemaPackage :=
  let digest := schemaDigest (manifest_json (request_manifest request)) in
  mkPublished ("schema:" +:+ digest) (schemaKey (request_manifest request)) digest package_active publishedAt
    (request_manifest request) (Some (governance_of request)) (Some compatibility).

(** A call throws, replays an earlier publication, or publishes. *)
Lemma publishGoverned_cases request t r :
  (∃ msg, submit request t r = (Err msg, r)) ∨
  (∃ key, map_get (request_key request) (publicationRequests r) = Some (schemaDigest (request_json request), key) ∧
     is_Ok (assertGovernedRequest request) = true ∧ submit request t r = (Ok (get key r), r)) ∨
  (∃ compat, map_get (request_key request) (publicationRequests r) = None ∧
     is_Ok (assertGovernedRequest request) = true ∧
     SEMVER (manifest_version (request_manifest request)) = true ∧
     is_Ok (assertManifestReferences (request_manifest request)) = true ∧
     map_get (schemaKey (request_manifest request)) (packages r) = None ∧
     let previous := package_manifest <$> latest numericCompare (request_manifest request) r in
     classifyCompatibility previous (request_manifest request) = Ok compat ∧
     assertVersionMatchesCompatibility previous (request_manifest request) compat = Ok tt ∧
     submit request t r = (Ok (Some (publication request t compat)),
       mkRegistry (map_set (schemaKey (request_manifest request)) (publication request t compat) (packages r))
         (map_set (request_key request) (schemaDigest (request_json request), schemaKey (request_manifest request))
            (publicationRequests r)))).
Proof.
  unfold publishGoverned. run.
  destruct (assertGovernedRequest request) as [[]|msg] eqn:Hg; [|left; by eexists].
  destruct (map_get (request_key request) (publicationRequests r)) as [[fp key]|] eqn:Hk; run.
  { destruct (decide (fp = schemaDigest (request_json request))) as [->|Hne].
    - rewrite strict_ne_refl. right. left. exists key. done.
    - rewrite bool_decide_eq_false_2 by done. left. by eexists. }
  destruct (classifyCompatibility _ _) as [compat|msg] eqn:Hc; [|left; by eexists].
  destruct (report_classification compat !== _); [left; by eexists|].
  destruct (assertVersionMatchesCompatibility _ _ _) as [[]|msg] eqn:Hv; [|left; by eexists].
  unfold publish. run. destruct (SEMVER _) eqn:Hs; [|left; by eexists]. cbn [negb].
  destruct (map_get (schemaKey (request_manifest request)) (packages r)) eqn:Hp; [left; by eexists|].
  rewrite bool_decide_eq_false_2 by (by intros [??]).
  destruct (assertManifestReferences _) as [[]|msg] eqn:Hm; [|left; by eexists].
  right. right. exists compat. by split_and!.
Qed.

Definition reg_step (r r' : SchemaRegistry) : Prop := ∃ request t, r' = snd (submit request t r).

Definition reg_le (r r' : SchemaRegistry) : Prop :=
  (∀ key p, get key r = Some p → get key r' = Some p) ∧
  (∀ rk x, map_get rk (publicationRequests r) = Some x → map_get rk (publicationRequests r') = Some x).

#[global] Instance reg_le_preorder : PreOrder reg_le.
Proof. split; [by split|]. intros a b c [H1 H2] [H3 H4]. split; auto. Qed.

Lemma map_set_fresh {V} (k : string) (v : V) m k' x :
  map_get k m = None → map_get k' m = Some x → map_get k' (map_set k v m) = Some x.
Proof. intros Hk Hx. rewrite map_get_set_ne; [done|]. intros ->. congruence. Qed.

Lemma reg_step_ok r r' : reg_ok r → reg_step r r' → reg_ok r' ∧ reg_le r r'.
Proof.
  intros Hok (req & t & ->).
  destruct (publishGoverned_cases req t r) as
    [(msg & ->)|[(key & _ & _ & ->)|(compat & Hrk & Hg & Hsv & Hm & Hp & _ & _ & ->)]]; cbn; try by split.
  destruct Hok as [H1 H2]. split; [constructor|split].
  - cbn. intros key p Hx. destruct (decide (key = schemaKey (request_manifest req))) as [->|Hne].
    + rewrite map_get_set_eq in Hx. injection Hx as <-. split_and!; try done. by exists req.
    + rewrite map_get_set_ne in Hx by done. by apply H1.
  - cbn. intros rk fp key. destruct (decide (rk = request_key req)) as [->|Hne].
    + rewrite map_get_set_eq. intros [= <- <-]. unfold get. cbn. rewrite map_get_set_eq. by eexists.
    + rewrite map_get_set_ne by done. intros [p Hx]%H2. exists p. unfold get in *. cbn.
      by apply map_set_fresh.
  - intros key p. unfold get. cbn. by apply map_set_fresh.
  - intros rk x. cbn. by apply map_set_fresh.
Qed.

Lemma reg_ok_empty : reg_ok empty_registry.
Proof. by constructor. Qed.

Lemma reg_steps_ok r r' : reg_ok r → rtc reg_step r r' → reg_ok r' ∧ reg_le r r'.
Proof.
  intros Hok HR. induction HR as [r|r1 r2 r3 H1 _ IH]; [done|].
  destruct (reg_step_ok _ _ Hok H1) as [Hok2 Hle]. destruct (IH Hok2) as [Hok3 Hle']. split; [done|by etrans].
Qed.

(** Published schema packages are immutable, content-addressed and
    governed.  In a registry reached by any publications, and after any further
    ones (returned or thrown), looking a key up gives the very same package; its
    key is its own namespace, name and version, its digest and identifier are
    the SHA-256 of its manifest's canonical encoding, its relationships name its
    own resource types, and it carries the approval of a request for exactly
    that manifest which passed the governance checks. *)
Theorem published_packages_immutable r r' key p :
  rtc reg_step empty_registry r → rtc reg_step r r' → get key r = Some p →
  get key r' = Some p ∧ package_ok key p.
Proof.
  intros Hr Hr' Hp. destruct (reg_steps_ok _ _ reg_ok_empty Hr) as [Hok _].
  destruct (reg_steps_ok _ _ Hok Hr') as [_ [Hle _]]. split; [by apply Hle|by eapply ok_packages].
Qed.

(** Publication is idempotent.  Once a request has been published, the same
    request, at any later time and after any other publications, returns the
    same package and changes nothing; and a request under the same application
    and idempotency key with any other content is refused and changes nothing,
    or it exhibits a SHA-256 collision. *)
Theorem publication_idempotent request t r p r1 r2 :
  rtc reg_step empty_registry r → submit request t r = (Ok (Some p), r1) → rtc reg_step r1 r2 →
  (∀ t', submit request t' r2 = (Ok (Some p), r2)) ∧
  (∀ request' t', request_key request' = request_key request →
     canonicalize (request_json request') ≠ canonicalize (request_json request) →
     (∃ msg, submit request' t' r2 = (Err msg, r2)) ∨
     sha256_collision (canonicalize (request_json request')) (canonicalize (request_json request))).
Proof.
  intros Hr HP Hr2. destruct (reg_steps_ok _ _ reg_ok_empty Hr) as [Hok _].
  assert (reg_step r r1) as Hstep by (exists request, t; by rewrite HP).
  destruct (reg_step_ok _ _ Hok Hstep) as [Hok1 _]. destruct (reg_steps_ok _ _ Hok1 Hr2) as [_ [Hle Hreq]].
  assert (∃ key, map_get (request_key request) (publicationRequests r1) =
    Some (schemaDigest (request_json request), key) ∧ get key r1 = Some p ∧
    is_Ok (assertGovernedRequest request) = true) as (key & Hk & Hget & Hg).
  { destruct (publishGoverned_cases request t r) as
      [(msg & HE)|[(key & Hk & Hg & HE)|(compat & _ & Hg & _ & _ & _ & _ & _ & HE)]]; rewrite HP in HE; [done| |].
    - injection HE as Hpk <-. by exists key.
    - injection HE as -> ->. eexists. unfold get. cbn. by rewrite !map_get_set_eq. }
  apply Hreq in Hk. apply Hle in Hget. split.
  - intros t'. unfold publishGoverned. run. destruct (assertGovernedRequest request) as [[]|]; [|done].
    rewrite Hk. run. by rewrite strict_ne_refl, Hget.
  - intros request' t' Hsame Hdiff.
    destruct (decide (schemaDigest (request_json request') = schemaDigest (request_json request))) as [Heq|Hne].
    { right. by split. }
    left. unfold publishGoverned. run.
    destruct (assertGovernedRequest request') as [[]|msg]; [|by eexists].
    rewrite Hsame, Hk. run. rewrite bool_decide_eq_false_2 by congruence. by eexists.
Qed.
End RegistryInvariant.

(** ** The order of versions *)

Lemma sort_head_least {A} (leb : string → string → bool) (Q : string → Prop) (l : list (string * A)) x :
  (∀ a b, Q a → Q b → leb a b = true ∨ leb b a = true) →
  (∀ a b c, Q a → Q b → Q c → leb a b = true → leb b c = true → leb a c = true) →
  Forall (λ kv, Q kv.1) l → head (sort_keys leb l) = Some x → x ∈ l ∧ ∀ y, y ∈ l → leb x.1 y.1 = true.
Proof.
  intros Htot Htrans. revert x. induction l as [|kv l IH]; intros x HQ; [done|].
  inversion HQ as [|?? HQ1 HQ2]; subst. cbn. destruct (sort_keys leb l) as [|s0 s] eqn:Hs; cbn.
  - intros [= ->]. destruct l; [|by apply (f_equal length) in Hs; rewrite (Permutation_length (sort_keys_perm leb _)) in Hs].
    split; [apply list_elem_of_here|]. intros y ->%list_elem_of_singleton. by destruct (Htot x.1 x.1).
  - destruct (IH s0 HQ2 eq_refl) as [Hin Hle].
    assert (Q s0.1) as HQ0 by (by eapply (proj1 (Forall_forall _ _) HQ2)).
    destruct (leb kv.1 s0.1) eqn:Hkv; intros [= <-].
    + split; [apply list_elem_of_here|]. intros y [->|Hy]%elem_of_cons; [by destruct (Htot kv.1 kv.1)|].
      eapply (Htrans _ s0.1); auto. by eapply (proj1 (Forall_forall _ _) HQ2).
    + split; [by apply list_elem_of_further|]. intros y [->|Hy]%elem_of_cons; [|by apply Hle].
      destruct (Htot kv.1 s0.1); [done|done|congruence|done].
Qed.

Lemma compareVersion_lex a b :
  (compareVersion a b <= 0 ↔
   major a < major b ∨ (major a = major b ∧ (minor a < minor b ∨ (minor a = minor b ∧ patch a <= patch b))))%Z.
Proof.
  unfold compareVersion, or_else. destruct (Z.eqb_spec (major a - major b) 0);
    [destruct (Z.eqb_spec (minor a - minor b) 0)|destruct (Z.eqb_spec (major a - major b) 0)]; lia.
Qed.

(** A version without a pre-release suffix. *)
Definition release (version : string) : bool :=
  SEMVER version &&
  match match_version (chars version) with Some (_, _, _, []) => true | _ => false end.

Lemma release_parses v : release v = true → ∃ ver, parseVersion v = Ok ver.
Proof.
  unfold release, parseVersion. intros [_ Hm]%andb_true_iff.
  destruct (match_version (chars v)) as [[[[a b] c] rest]|]; [|done]. by eexists.
Qed.

Section Versions.
Context `{Crypto} (numericCompare : string → string → Z).

(** Numeric collation orders release versions by their numbers. *)
Hypothesis numeric_collation : ∀ a b va vb, release a = true → release b = true →
  parseVersion a = Ok va → parseVersion b = Ok vb →
  (numericCompare a b <= 0 ↔ compareVersion va vb <= 0)%Z.

Definition version_of (p : PublishedSchemaPackage) : string := manifest_version (package_manifest p).

Definition version_lt (a b : PublishedSchemaPackage) : Prop :=
  ∃ va vb, parseVersion (version_of a) = Ok va ∧ parseVersion (version_of b) = Ok vb ∧
           (0 < compareVersion vb va)%Z.

Lemma version_lt_trans a b c : version_lt a b → version_lt b c → version_lt a c.
Proof.
  intros (va & vb & Ha & Hb & Hab) (vb' & vc & Hb' & Hc & Hbc). exists va, vc. split_and!; [done|done|].
  rewrite Hb in Hb'. injection Hb' as <-. apply Z.nle_gt in Hab, Hbc. apply Z.nle_gt.
  rewrite compareVersion_lex in *. lia.
Qed.

(** [b] is published as the version after [a]. *)
Definition successor (a b : PublishedSchemaPackage) : Prop :=
  version_lt a b ∧
  ∃ report va vb, package_compatibility b = Some report ∧
    classifyCompatibility (Some (package_manifest a)) (package_manifest b) = Ok report ∧
    parseVersion (version_of a) = Ok va ∧ parseVersion (version_of b) = Ok vb ∧
    match report_classification report with
    | breaking => (major va < major vb)%Z
    | _ => major vb = major va
    end.

Definition chained (l : list PublishedSchemaPackage) : Prop :=
  ∀ i a b, l !! i = Some a → l !! S i = Some b → successor a b.

Lemma chained_snoc l b :
  chained l → (∀ a, last l = Some a → successor a b) → chained (l ++ [b]).
Proof.
  intros Hc Hb i x y Hx Hy. destruct (decide (S i < length l)) as [Hlt|Hge].
  - rewrite lookup_app_l in Hx, Hy by lia. by eapply Hc.
  - apply lookup_lt_Some in Hy as Hlen. rewrite length_app in Hlen. cbn in Hlen.
    rewrite lookup_app_r in Hy by lia. replace (S i - length l) with 0 in Hy by lia. injection Hy as <-.
    rewrite lookup_app_l in Hx by lia. apply Hb. rewrite last_lookup. by replace (pred (length l)) with i by lia.
Qed.

Lemma chained_increasing l i j a b :
  chained l → l !! i = Some a → l !! j = Some b → i < j → version_lt a b.
Proof.
  intros Hc Ha Hb Hij. revert b Hb. induction Hij as [|j Hij IH]; intros b Hb; [by eapply Hc|].
  destruct (lookup_lt_is_Some_2 l j) as [c Hj]; [apply lookup_lt_Some in Hb; lia|].
  eapply version_lt_trans; [by apply IH|by eapply Hc].
Qed.

(** The greatest version of a chain is its last. *)
Lemma latest_is_last m r :
  chained (lineage_of m r) → Forall (λ p, release (version_of p) = true) (lineage_of m r) →
  latest numericCompare m r = last (lineage_of m r).
Proof.
  intros Hc Hrel. unfold latest. set (l := lineage_of m r) in *.
  destruct (head _) as [[v p]|] eqn:Hh; cbn.
  - apply (sort_head_least _ (λ v, release v = true)) in Hh as [Hin Hle].
    + apply list_elem_of_fmap in Hin as (p' & [= -> <-] & Hin). apply list_elem_of_lookup in Hin as [i Hi].
      destruct (last l) as [z|] eqn:Hz; [|by apply last_None in Hz; rewrite Hz in Hi].
      rewrite last_lookup in Hz. destruct (decide (i = pred (length l))) as [->|Hne]; [congruence|].
      assert (version_lt p z) as (vp & vz & Hvp & Hvz & Hlt)
        by (eapply chained_increasing; [done|exact Hi|exact Hz|apply lookup_lt_Some in Hi; lia]).
      assert (z ∈ l) as Hzin by (by eapply list_elem_of_lookup_2).
      assert (p ∈ l) as Hpin by (by eapply list_elem_of_lookup_2).
      specialize (Hle (version_of z, z)). cbn in Hle. rewrite Z.leb_le in Hle.
      rewrite (numeric_collation _ _ vz vp) in Hle; [exfalso|..]; try done;
        try (by apply (proj1 (Forall_forall _ _) Hrel)).
      assert ((version_of z, z) ∈ map (λ p, (manifest_version (package_manifest p), p)) l) as Hzm
        by (apply list_elem_of_fmap; by exists z). apply Hle in Hzm. lia.
    + intros a b Qa Qb. destruct (release_parses a Qa) as [va Ea], (release_parses b Qb) as [vb Eb].
      rewrite !Z.leb_le, (numeric_collation b a vb va), (numeric_collation a b va vb), !compareVersion_lex by done. lia.
    + intros a b c Qa Qb Qc. destruct (release_parses a Qa) as [va Ea], (release_parses b Qb) as [vb Eb],
        (release_parses c Qc) as [vc Ec].
      rewrite !Z.leb_le, (numeric_collation b a vb va), (numeric_collation c b vc vb),
        (numeric_collation c a vc va), !compareVersion_lex by done. lia.
    + apply Forall_forall. intros kv (p' & -> & Hin)%list_elem_of_fmap. by apply (proj1 (Forall_forall _ _) Hrel).
  - apply head_None in Hh. destruct l as [|z l']; [done|]. exfalso.
    apply (f_equal length) in Hh. rewrite (Permutation_length (sort_keys_perm _ _)) in Hh. done.
Qed.

(** Publications of release versions. *)
Definition release_step (r r' : SchemaRegistry) : Prop :=
  ∃ request t, release (manifest_version (request_manifest request)) = true ∧
    r' = snd (publishGoverned numericCompare request t r).

Definition versions_ok (r : SchemaRegistry) : Prop :=
  ∀ m, chained (lineage_of m r) ∧ Forall (λ p, release (version_of p) = true) (lineage_of m r).

Lemma lineage_ext m m' r :
  manifest_namespace m = manifest_namespace m' → manifest_name m = manifest_name m' →
  lineage_of m r = lineage_of m' r.
Proof. intros H1 H2. unfold lineage_of, same_identity. by rewrite H1, H2. Qed.

Lemma map_set_append {V} (k : string) (v : V) m : map_get k m = None → map_set k v m = m ++ [(k, v)].
Proof. induction m as [|[k' v'] m IH]; cbn; [done|]. case_bool_decide; [done|]. intros Hn. by rewrite IH. Qed.

(** A version accepted after [p] is its successor. *)
Lemma assertVersion_successor p q report :
  classifyCompatibility (Some (package_manifest p)) (package_manifest q) = Ok report →
  assertVersionMatchesCompatibility (Some (package_manifest p)) (package_manifest q) report = Ok tt →
  package_compatibility q = Some report → successor p q.
Proof.
  intros HC HV Hq. unfold assertVersionMatchesCompatibility in HV. run_inv.
  match goal with Ha : parseVersion (manifest_version (package_manifest p)) = Ok ?a,
                  Hb : parseVersion (manifest_version (package_manifest q)) = Ok ?b |- _ =>
    split; [exists a, b|exists report, a, b] end.
  - split_and!; [done|done|]. match goal with Hx : (_ <=? 0)%Z = false |- _ => apply Z.leb_gt in Hx; exact Hx end.
  - split_and!; try done. destruct (report_classification report) eqn:Hcls.
    + exfalso. unfold classifyCompatibility in HC. run_inv. cbn in Hcls. by destruct (existsb _ _) in Hcls.
    + match goal with Hx : (backward_compatible === backward_compatible) && _ = false |- _ =>
        rewrite strict_eq_refl in Hx; cbn [andb] in Hx end. to_prop. done.
    + match goal with Hx : (breaking === breaking) && _ = false |- _ =>
        rewrite strict_eq_refl in Hx; apply Z.leb_gt in Hx; exact Hx end.
Qed.

Lemma versions_step r r' : versions_ok r → release_step r r' → versions_ok r'.
Proof.
  intros Hok (req & t & Hrel & ->) m.
  destruct (publishGoverned_cases numericCompare req t r) as
    [(msg & ->)|[(key & _ & _ & ->)|(compat & _ & _ & _ & _ & Hp & HC & HV & ->)]]; cbn; try apply Hok.
  unfold lineage_of. cbn. rewrite map_set_append, fmap_app, List.filter_app by done. cbn [fmap list_fmap List.filter].
  fold (lineage_of m r). destruct (Hok m) as [Hch Hall].
  destruct (same_identity m _) eqn:Hid; [|rewrite app_nil_r; done].
  apply andb_true_iff in Hid as [Hns Hnm]. to_prop. cbn in Hns, Hnm. split.
  - apply chained_snoc; [done|]. intros a Ha.
    rewrite latest_is_last, (lineage_ext _ m) in HC, HV by (done || apply Hok). rewrite Ha in HC, HV.
    by eapply assertVersion_successor.
  - apply Forall_app. split; [done|]. by constructor.
Qed.

(** Schema versions move forward.  In a registry built by publications of
    release versions, the versions of each package, in the order they were
    published, strictly increase, so none is published twice; each carries the
    compatibility report against its immediate predecessor; and its major number
    is above its predecessor's when the report says breaking and equal to it
    otherwise. *)
Theorem versions_move_forward r m :
  rtc release_step empty_registry r →
  (∀ i j a b, lineage_of m r !! i = Some a → lineage_of m r !! j = Some b → i < j → version_lt a b) ∧
  (∀ i a b, lineage_of m r !! i = Some a → lineage_of m r !! S i = Some b → successor a b).
Proof.
  intros HR. assert (versions_ok r) as Hok.
  { remember empty_registry as r0 eqn:E. assert (versions_ok r0) as H0.
    { subst r0. intros m'. split; [by intros i a b ?|constructor]. }
    clear E. induction HR as [|r1 r2 r3 H1 _ IH]; [done|]. apply IH. by eapply versions_step. }
  destruct (Hok m) as [Hch _]. split; [|exact Hch]. intros i j a b. by apply chained_increasing.
Qed.
End Versions.

(** ** typescript.ts *)

Definition NEWLINE : string := String (ascii_of_nat 10) EmptyString.

(** Source: packages/schema-registry/src/typescript.ts:60-76 fieldType *)
Definition fieldType (field : FieldDefinition) : string :=
  match field_kind field with
  | kind_string | kind_timestamp => "string"
  | kind_number => "number"
  | kind_boolean => "boolean"
  | kind_object => "Readonly<Record<string, unknown>>"
  | kind_array => "readonly unknown[]"
  end.

(** Source: packages/schema-registry/src/typescript.ts:55-58 fieldDeclaration *)
Definition fieldDeclaration (name : string) (field : FieldDefinition) : string :=
  let optional := if required field then "" else "?" in
  "  readonly " +:+ stringify_string name +:+ optional +:+ ": " +:+ fieldType field +:+ ";".

Section TypeScript.
Context (localeLe : string → string → bool).

(** Source: packages/schema-registry/src/typescript.ts:41-53 resourceDeclaration *)
Definition resourceDeclaration (resource : ResourceTypeDefinition) : string :=
  let fields := join NEWLINE (map (λ nf, fieldDeclaration nf.1 nf.2) (sort_keys localeLe (type_fields resource))) in
  let additional := if type_additionalFields resource === preserve
                    then NEWLINE +:+ "  readonly [field: string]: unknown;" else "" in
  "export interface " +:+ type_name resource +:+ " {" +:+ NEWLINE +:+ fields +:+ additional +:+ NEWLINE +:+ "}".

(** Source: packages/schema-registry/src/typescript.ts:7-10 GeneratedTypeScript *)
Record GeneratedTypeScript := mkGenerated { generated_packageKey : string; generated_source : string }.

(** Source: packages/schema-registry/src/typescript.ts:12-39 generateTypeScriptTypes *)
Definition generateTypeScriptTypes (manifest : SchemaPackageManifest) : GeneratedTypeScript :=
  let packageKey := schemaKey manifest in
  let resources := (sort_keys localeLe (map (λ t, (type_name t, t)) (manifest_resourceTypes manifest))).*2 in
  let declarations := join (NEWLINE +:+ NEWLINE) (map resourceDeclaration resources) in
  let names := join " | " (map (λ t, stringify_string (type_name t)) resources) in
  let mapMembers := join NEWLINE
    (map (λ t, "  readonly " +:+ stringify_string (type_name t) +:+ ": " +:+ type_name t +:+ ";") resources) in
  mkGenerated packageKey (join NEWLINE
    ["/* Generated by @trust-core/schema-registry from " +:+ packageKey +:+ ". Do not edit. */";
     "";
     "export const schemaPackageKey = " +:+ stringify_string packageKey +:+ " as const;";
     "export type ResourceType = " +:+ (if names === "" then "never" else names) +:+ ";";
     "";
     declarations;
     "";
     "export interface ResourcePayloadByType {";
     mapMembers;
     "}";
     "";
     "export type ResourcePayload<T extends ResourceType> =";
     "  ResourcePayloadByType[T];";
     ""]).

Context `{!KeyOrder localeLe}.

(** The same type up to the order of its fields. *)
Definition same_type (a b : ResourceTypeDefinition) : Prop :=
  type_name a = type_name b ∧ type_additionalFields a = type_additionalFields b ∧
  NoDup (map fst (type_fields a)) ∧ type_fields a ≡ₚ type_fields b.

Lemma resourceDeclaration_same a b : same_type a b → resourceDeclaration a = resourceDeclaration b.
Proof.
  intros (Hn & Ha & Hnd & Hp). unfold resourceDeclaration.
  by rewrite Hn, Ha, (sort_keys_unique localeLe _ _ Hnd Hp).
Qed.

Lemma insert_key_same kv kv' l l' :
  kv.1 = kv'.1 → same_type kv.2 kv'.2 →
  Forall2 (λ x y, x.1 = y.1 ∧ same_type x.2 y.2) l l' →
  Forall2 (λ x y, x.1 = y.1 ∧ same_type x.2 y.2) (insert_key localeLe kv l) (insert_key localeLe kv' l').
Proof.
  intros Hk Hs HF. induction HF as [|x y l l' [Hxy Hst] HF IH]; cbn.
  { constructor; [by split|constructor]. }
  rewrite Hk, Hxy. destruct (localeLe kv'.1 y.1); (constructor; [by split|]); [by constructor|exact IH].
Qed.

Lemma sort_same l l' :
  Forall2 same_type l l' →
  Forall2 same_type (sort_keys localeLe (map (λ t, (type_name t, t)) l)).*2
                    (sort_keys localeLe (map (λ t, (type_name t, t)) l')).*2.
Proof.
  intros HF. apply Forall2_fmap_2.
  eapply (Forall2_impl (λ x y, x.1 = y.1 ∧ same_type x.2 y.2)); [|by intros ? ? [? ?]].
  induction HF as [|a b l l' Hab HF IH]; cbn; [constructor|].
  apply insert_key_same; [by destruct Hab|done|done].
Qed.

(** Generated types are a function of the schema, not of how its manifest
    is written down: two manifests of one version whose resource types, with
    distinct names, are the same up to order, each with the same fields up to
    order, generate the same source text. *)
Theorem generated_types_stable m m' types :
  schemaKey m = schemaKey m' → NoDup (map type_name (manifest_resourceTypes m)) →
  manifest_resourceTypes m ≡ₚ types → Forall2 same_type types (manifest_resourceTypes m') →
  generateTypeScriptTypes m = generateTypeScriptTypes m'.
Proof.
  intros Hkey Hnd Hp HF. unfold generateTypeScriptTypes. rewrite Hkey.
  assert (sort_keys localeLe (map (λ t, (type_name t, t)) (manifest_resourceTypes m)) =
          sort_keys localeLe (map (λ t, (type_name t, t)) types)) as ->.
  { apply (sort_keys_unique localeLe); [|by apply Permutation_map]. by rewrite map_map. }
  apply sort_same in HF.
  set (s := (sort_keys _ (map _ types)).*2) in *. set (s' := (sort_keys _ (map _ (manifest_resourceTypes m'))).*2) in *.
  assert (∀ f : ResourceTypeDefinition → string, (∀ a b, same_type a b → f a = f b) → map f s = map f s') as Hmap.
  { intros f Hf. clearbody s s'. induction HF as [|a b l l' Hab HF IH]; cbn; [done|]. by rewrite IH, (Hf a b). }
  rewrite (Hmap resourceDeclaration resourceDeclaration_same).
  rewrite (Hmap (λ t, stringify_string (type_name t))) by (by intros a b [-> _]).
  by rewrite (Hmap (λ t, "  readonly " +:+ stringify_string (type_name t) +:+ ": " +:+ type_name t +:+ ";"))
    by (by intros a b [-> _]).
Qed.
End TypeScript.

(** ** Concrete publications *)
Module RegistryWitness.
Import SchemaWitness.

(** Collation by the three numbers. *)
Definition by_numbers (a b : string) : Z :=
  match parseVersion a, parseVersion b with Ok va, Ok vb => compareVersion va vb | _, _ => 0%Z end.

Definition request (m : SchemaPackageManifest) (key : string) (expected : CompatibilityClassification)
    : GovernedPublicationRequest :=
  mkRequest m "TCAP/1.0" "app/notes" "1.0.0"
    (mkAppSchema (schemaKey m) (manifest_version m) (map type_name (manifest_resourceTypes m))
       (map relation_type (manifest_relationships m)) preserve)
    "admin:release" ("approval-" +:+ key) key expected.
Definition v1_10 : SchemaPackageManifest :=
  notes "1.10.0" preserve [("title", field kind_string true); ("subtitle", field kind_string false)].
Definition v2 : SchemaPackageManifest := notes "2.0.0" preserve [("subtitle", field kind_string false)].
Definition submit := publishGoverned by_numbers.
Definition reg1 : SchemaRegistry := snd (submit (request v1 "p-1" compat_initial) "1" empty_registry).
Definition reg2 : SchemaRegistry := snd (submit (request v1_10 "p-2" backward_compatible) "2" reg1).
Definition reg3 : SchemaRegistry := snd (submit (request v2 "p-3" breaking) "3" reg2).

Lemma reg_run1 : rtc (reg_step by_numbers) empty_registry reg1.
Proof. apply rtc_once. by exists (request v1 "p-1" compat_initial), "1". Qed.
Lemma reg_run3 : rtc (reg_step by_numbers) reg1 reg3.
Proof.
  eapply rtc_l; [by exists (request v1_10 "p-2" backward_compatible), "2"|].
  apply rtc_once. by exists (request v2 "p-3" breaking), "3".
Qed.

Definition pkg1 : PublishedSchemaPackage :=
  default (publication (request v1 "p-1" compat_initial) "1" (mkReport compat_initial None []))
    (get "app/notes/1.0.0" reg1).

Lemma published_packages_immutable_witness :
  get "app/notes/1.0.0" reg3 = Some pkg1 ∧ package_ok "app/notes/1.0.0" pkg1.
Proof.
  apply (published_packages_immutable by_numbers reg1 reg3); [exact reg_run1|exact reg_run3|].
  vm_compute. reflexivity.
Defined.

Lemma publication_idempotent_witness :
  submit (request v1 "p-1" compat_initial) "9" reg3 = (Ok (Some pkg1), reg3) ∧
  ((∃ msg, submit (request v2 "p-1" breaking) "9" reg3 = (Err msg, reg3)) ∨
   sha256_collision (canonicalize (request_json (request v2 "p-1" breaking)))
     (canonicalize (request_json (request v1 "p-1" compat_initial)))).
Proof.
  assert (submit (request v1 "p-1" compat_initial) "1" empty_registry = (Ok (Some pkg1), reg1)) as HP
    by (vm_compute; reflexivity).
  pose proof (publication_idempotent by_numbers (request v1 "p-1" compat_initial) "1" empty_registry pkg1 reg1 reg3
    (rtc_refl _ _) HP reg_run3) as [H1 H2].
  split; [exact (H1 "9")|]. apply (H2 (request v2 "p-1" breaking) "9"); [reflexivity|].
  apply (bool_decide_unpack _). vm_compute. exact I.
Defined.

Lemma versions_move_forward_witness :
  map version_of (lineage_of v1 reg3) = ["1.0.0"; "1.10.0"; "2.0.0"] ∧
  ∀ a b, lineage_of v1 reg3 !! 0 = Some a → lineage_of v1 reg3 !! 2 = Some b → version_lt a b.
Proof.
  split; [vm_compute; reflexivity|]. intros a b Ha Hb.
  refine (proj1 (versions_move_forward by_numbers _ reg3 v1 _) 0 2 a b Ha Hb _).
  - intros x y vx vy _ _ Hx Hy. unfold by_numbers. rewrite Hx, Hy. reflexivity.
  - eapply rtc_l; [by exists (request v1 "p-1" compat_initial), "1"|].
    eapply rtc_l; [by exists (request v1_10 "p-2" backward_compatible), "2"|].
    apply rtc_once. by exists (request v2 "p-3" breaking), "3".
  - lia.
Defined.

Definition two_types (swap : bool) : SchemaPackageManifest :=
  let a := mkResourceType "Note" "A note" [("title", field kind_string true); ("at", field kind_timestamp false)] preserve in
  let a' := mkResourceType "Note" "A note" [("at", field kind_timestamp false); ("title", field kind_string true)] preserve in
  let b := mkResourceType "Tag" "A tag" [] reject in
  mkManifest "app" "notes" "1.0.0" "Notes" "" class_application (if swap then [b; a'] else [a; b]) [] "f".

Lemma generated_types_stable_witness :
  generateTypeScriptTypes String.leb (two_types false) = generateTypeScriptTypes String.leb (two_types true).
Proof.
  apply (generated_types_stable String.leb _ _ (reverse (manifest_resourceTypes (two_types false)))).
  - reflexivity.
  - apply (bool_decide_unpack _). vm_compute. exact I.
  - apply perm_swap.
  - repeat (constructor; [split_and!; [reflexivity|reflexivity|apply (bool_decide_unpack _); vm_compute; exact I|]|]);
      [reflexivity|apply perm_swap|constructor].
Defined.

(** A pre-release is not ordered before its release: once [1.0.0-rc.1] is
    published, [1.0.0] is refused for not increasing the version. *)
Theorem prerelease_blocks_release :
  let rc := notes "1.0.0-rc.1" preserve [("title", field kind_string true)] in
  let reg := snd (submit (request rc "p-1" compat_initial) "1" empty_registry) in
  SEMVER "1.0.0-rc.1" = true ∧ is_Some (get "app/notes/1.0.0-rc.1" reg) ∧
  submit (request v1 "p-2" backward_compatible) "2" reg = (Err "Published schema versions must increase.", reg).
Proof. vm_compute. split; [reflexivity|]. split; [by eexists|reflexivity]. Qed.
End RegistryWitness.
