(* ===== verification/Verification.v ===== *)
(** * packages/verification: integrity checks over stored data

    verification.ts, resource-graph.ts, and the catalogue they read and write
    (packages/persistence-postgres/src/verification-catalog.ts).  A blob run
    compares every catalogued blob with the object store, by metadata or by
    reading it whole; a structural run checks a resource, a dataset or a
    workspace: schemas, revision graphs, blob references, relations, tombstones
    and the audit chain.  Both mark the blobs they checked and record the run.

    The services are proved against the [ObjectStorage] interface.  The readings
    of the clock and the identifier of a run are arguments, and so is the text
    an error of the store carries.  A stream that breaks is taken to break
    before its first byte.

    The theorems: a run passes exactly when the data it covers is consistent,
    each check being spelled out; and the histories of [History] always pass the
    revision-graph check. *)
From S2P Require Import Prelude Js Concrete Json AuditChain Core StorageKeys Storage MemoryStorage UploadMachine IngestStore History Schema SchemaRegistry.

(** ** Types *)

(** Source: packages/protocol/src/index.ts:44-51 verificationLevels *)
Inductive VerificationLevel :=
  | level_metadata | level_full_blob | level_resource | level_dataset | level_workspace.
#[global] Instance VerificationLevel_eq_dec : EqDecision VerificationLevel.
Proof. solve_decision. Defined.

(** Source: packages/protocol/src/index.ts:52-53 VerificationScopeKind *)
Inductive VerificationScopeKind := scope_blob | scope_resource | scope_dataset | scope_workspace.
#[global] Instance VerificationScopeKind_eq_dec : EqDecision VerificationScopeKind.
Proof. solve_decision. Defined.

(** Source: packages/protocol/src/index.ts:816-819 VerificationScope *)
Record VerificationScope := mkScope { scope_kind : VerificationScopeKind; scope_id : string }.
#[global] Instance VerificationScope_eq_dec : EqDecision VerificationScope.
Proof. solve_decision. Defined.

Inductive Severity := warning | error | critical.
#[global] Instance Severity_eq_dec : EqDecision Severity.
Proof. solve_decision. Defined.

Inductive IssueSubject :=
  | on_blob | on_resource | on_revision | on_relation | on_dataset | on_workspace | on_policy | on_operation
  | on_storage.

(** Source: packages/protocol/src/index.ts:825-842 VerificationIssueSummary *)
Record VerificationIssue := mkVIssue {
  vissue_code : string;
  vissue_severity : Severity;
  vissue_subjectKind : IssueSubject;
  vissue_subjectId : string;
  vissue_message : string;
  vissue_expected : option json;
  vissue_actual : option json;
}.

(** Source: packages/verification/src/verification.ts:33-33 VerificationStatus *)
Inductive VerificationStatus := status_running | status_passed | status_failed | status_degraded.
#[global] Instance VerificationStatus_eq_dec : EqDecision VerificationStatus.
Proof. solve_decision. Defined.

(** Source: packages/verification/src/verification.ts:24-27 BlobVerificationLevel *)
Inductive BlobVerificationLevel := blob_metadata | blob_full.
#[global] Instance BlobVerificationLevel_eq_dec : EqDecision BlobVerificationLevel.
Proof. solve_decision. Defined.
Definition blob_level (l : BlobVerificationLevel) : VerificationLevel :=
  match l with blob_metadata => level_metadata | blob_full => level_full_blob end.

(** Source: packages/verification/src/verification.ts:28-31 StructuralVerificationLevel *)
Inductive StructuralVerificationLevel := structural_resource | structural_dataset | structural_workspace.
#[global] Instance StructuralVerificationLevel_eq_dec : EqDecision StructuralVerificationLevel.
Proof. solve_decision. Defined.
Definition structural_level (l : StructuralVerificationLevel) : VerificationLevel :=
  match l with
  | structural_resource => level_resource | structural_dataset => level_dataset
  | structural_workspace => level_workspace
  end.
Definition expected_kind (l : StructuralVerificationLevel) : VerificationScopeKind :=
  match l with
  | structural_resource => scope_resource | structural_dataset => scope_dataset
  | structural_workspace => scope_workspace
  end.
Definition kind_text (k : VerificationScopeKind) : string :=
  match k with
  | scope_blob => "blob" | scope_resource => "resource" | scope_dataset => "dataset"
  | scope_workspace => "workspace"
  end.

(** Source: packages/verification/src/verification.ts:36-43 BlobVerificationResult *)
Record BlobVerificationResult := mkBlobResult {
  result_blobId : string;
  result_level : BlobVerificationLevel;
  result_passed : bool;
  result_checkedAt : string;
  result_bytesRead : Z;
  result_issues : list VerificationIssue;
}.

(** Source: packages/verification/src/verification.ts:45-56 VerificationRun *)
Record VerificationRun := mkRun {
  run_id : string;
  run_workspaceId : string;
  run_level : VerificationLevel;
  run_scope : VerificationScope;
  run_status : VerificationStatus;
  run_startedAt : string;
  run_completedAt : string;
  run_objectsChecked : Z;
  run_bytesRead : Z;
  run_issues : list VerificationIssue;
}.

(** Source: packages/verification/src/verification.ts:58-64 RevisionBlobReference *)
Record RevisionBlobReference := mkReference {
  ref_id : string;
  ref_workspaceId : string;
  ref_revisionId : string;
  ref_blobObjectId : string;
  ref_role : string;
}.

(** Source: packages/verification/src/verification.ts:66-71 VerificationSchemaPackage *)
Record VerificationSchemaPackage := mkVPackage {
  vpackage_id : string;
  vpackage_version : string;
  vpackage_manifest : SchemaPackageManifest;
  vpackage_status : PackageStatus;
}.

(** Source: packages/verification/src/verification.ts:73-84 VerificationSnapshot *)
Record VerificationSnapshot := mkSnapshot {
  snap_workspaceExists : bool;
  snap_datasets : list Dataset;
  snap_resources : list Resource;
  snap_revisions : list Revision;
  snap_blobs : list BlobObject;
  snap_revisionBlobs : list RevisionBlobReference;
  snap_relations : list Relation;
  snap_tombstones : list Tombstone;
  snap_auditEvents : list ChainedAuditEvent;
  snap_schemaPackages : list VerificationSchemaPackage;
}.

(** ** Issues and runs *)

(** Source: packages/verification/src/verification.ts:846-866 issue *)
Definition issue (code : string) (severity : Severity) (subjectKind : IssueSubject) (subjectId message : string)
    : VerificationIssue :=
  mkVIssue code severity subjectKind subjectId message None None.
Definition issue_expecting (code : string) (severity : Severity) (subjectKind : IssueSubject)
    (subjectId message expected actual : string) : VerificationIssue :=
  mkVIssue code severity subjectKind subjectId message (Some (JString expected)) (Some (JString actual)).

(** Source: packages/verification/src/verification.ts:827-844 blobIssue *)
Definition blobIssue (blob : BlobObject) (code : string) (severity : Severity) (message : string)
    (expected actual : json) : VerificationIssue :=
  mkVIssue code severity on_blob (blob_id blob) message (Some expected) (Some actual).

Definition serious (i : VerificationIssue) : bool :=
  (vissue_severity i === critical) || (vissue_severity i === error).

Definition status_of (issues : list VerificationIssue) : VerificationStatus :=
  if existsb serious issues then status_failed
  else match issues with [] => status_passed | _ => status_degraded end.

(** Source: packages/verification/src/verification.ts:816-825 makeRun *)
Definition makeRun (id workspaceId : string) (level : VerificationLevel) (scope : VerificationScope)
    (startedAt completedAt : string) (objectsChecked bytesRead : Z) (issues : list VerificationIssue)
    : VerificationRun :=
  mkRun id workspaceId level scope (status_of issues) startedAt completedAt objectsChecked bytesRead issues.

(** ** resource-graph.ts *)

(** Source: packages/verification/src/resource-graph.ts:4-4 graphIssue *)
Definition graphIssue (resource : Resource) (code message : string) : VerificationIssue :=
  issue code critical on_resource (resource_id resource) message.

(** [new Map(own.map((r) => [r.id, r]))] *)
Definition by_id (own : list Revision) : list (string * Revision) :=
  index_by revision_id own.

(** The loop over a resource's revisions; [numbers] are the ones seen. *)
Fixpoint graph_loop (resource : Resource) (byId : list (string * Revision)) (numbers : list Z)
    (own : list Revision) : list VerificationIssue :=
  match own with
  | [] => []
  | r :: own =>
      (if (revision_workspaceId r !== resource_workspaceId resource) ||
          (revision_datasetId r !== resource_datasetId resource)
       then [graphIssue resource "REVISION_SCOPE_MISMATCH"
               ("Revision " +:+ revision_id r +:+ " crosses resource scope.")] else []) ++
      (if bool_decide (revision_revisionNumber r ∈ numbers)
       then [graphIssue resource "REVISION_NUMBER_DUPLICATE"
               ("Revision number " +:+ pretty (revision_revisionNumber r) +:+ " is duplicated.")] else []) ++
      (if (revision_revisionNumber r === 1%Z) && (revision_parentRevisionId r !== None)
       then [graphIssue resource "FIRST_REVISION_HAS_PARENT" "Revision 1 must not have a parent."] else []) ++
      (if (1 <? revision_revisionNumber r)%Z then
         match (if truthy (revision_parentRevisionId r)
                then map_get (default EmptyString (revision_parentRevisionId r)) byId else None) with
         | None => [graphIssue resource "REVISION_PARENT_MISSING"
                      ("Revision " +:+ revision_id r +:+ " has no resolvable parent.")]
         | Some parent =>
             if (revision_revisionNumber r <=? revision_revisionNumber parent)%Z
             then [graphIssue resource "REVISION_PARENT_ORDER_INVALID"
                     ("Revision " +:+ revision_id r +:+ " does not follow its parent.")] else []
         end else []) ++
      graph_loop resource byId (revision_revisionNumber r :: numbers) own
  end.

(** Source: packages/verification/src/resource-graph.ts:3-3 verifyResourceGraph *)
Definition verifyResourceGraph (resource : Resource) (revisions : list Revision) : list VerificationIssue :=
  let own := List.filter (λ r, revision_resourceId r === resource_id resource) revisions in
  let byId := by_id own in
  (if truthy (resource_currentRevisionId resource) &&
      negb (bool_decide (is_Some (map_get (default EmptyString (resource_currentRevisionId resource)) byId)))
   then [graphIssue resource "CURRENT_REVISION_MISSING" "Current revision pointer does not resolve."] else []) ++
  graph_loop resource byId [] own.

(** ** Checks on schemas, relations and tombstones *)

Definition upper_code (c : IssueCode) : string :=
  match c with
  | unknown_resource_type => "UNKNOWN_RESOURCE_TYPE" | missing_required_field => "MISSING_REQUIRED_FIELD"
  | invalid_field_type => "INVALID_FIELD_TYPE" | invalid_format => "INVALID_FORMAT"
  | unknown_field => "UNKNOWN_FIELD"
  end.

Section Checks.
Context `{JsDate} (isUrl : string → bool).

(** Source: packages/verification/src/verification.ts:620-693 verifySchema *)
Definition verifySchema (resource : Resource) (revision : Revision) (dataset : option Dataset)
    (packages : list VerificationSchemaPackage) : list VerificationIssue :=
  match List.find (λ p, vpackage_id p === revision_schemaPackageId revision) packages with
  | None => [issue "SCHEMA_PACKAGE_MISSING" critical on_revision (revision_id revision)
               "Revision schema package does not resolve."]
  | Some schemaPackage =>
      match dataset with
      | Some dataset =>
          if revision_schemaPackageId revision !== dataset_schemaPackageId dataset
          then [issue_expecting "REVISION_DATASET_SCHEMA_MISMATCH" critical on_revision (revision_id revision)
                  "Revision schema package differs from its dataset schema package."
                  (dataset_schemaPackageId dataset) (revision_schemaPackageId revision)] else []
      | None => []
      end ++
      (if vpackage_version schemaPackage !== revision_schemaVersion revision
       then [issue_expecting "SCHEMA_VERSION_MISMATCH" critical on_revision (revision_id revision)
               "Revision schema version differs from its package."
               (vpackage_version schemaPackage) (revision_schemaVersion revision)] else []) ++
      (if vpackage_status schemaPackage === package_revoked
       then [issue "SCHEMA_PACKAGE_REVOKED" error on_revision (revision_id revision)
               "Revision uses a revoked schema package."] else []) ++
      map (λ i, issue ("SCHEMA_" +:+ upper_code (issue_code i)) error on_revision (revision_id revision)
                  (issue_path i +:+ ": " +:+ issue_message i))
        (issues (validateResourcePayload isUrl (vpackage_manifest schemaPackage) (resource_resourceType resource)
                   (revision_canonicalPayload revision)))
  end.

Definition endpoint_text (k : EndpointKind) : string :=
  match k with
  | kind_resource => "resource" | kind_revision => "revision" | kind_blob => "blob" | kind_external => "external"
  end.

Definition endpoint_exists (snapshot : VerificationSnapshot) (datasetId : string) (kind : EndpointKind) (id : string)
    : bool :=
  match kind with
  | kind_resource => existsb (λ r, (resource_id r === id) && (resource_datasetId r === datasetId))
                       (snap_resources snapshot)
  | kind_revision => existsb (λ r, (revision_id r === id) && (revision_datasetId r === datasetId))
                       (snap_revisions snapshot)
  | kind_blob => existsb (λ b, blob_id b === id) (snap_blobs snapshot)
  | kind_external => Nat.ltb 0 (String.length id)
  end.

(** Source: packages/verification/src/verification.ts:695-741 verifyRelation *)
Definition verifyRelation (relation : Relation) (snapshot : VerificationSnapshot) : list VerificationIssue :=
  flat_map (λ endpoint, let '(side, kind, id) := endpoint in
      if endpoint_exists snapshot (relation_datasetId relation) kind id then []
      else [issue "RELATION_ENDPOINT_MISSING" critical on_relation (relation_id relation)
              ("Relation " +:+ side +:+ " " +:+ endpoint_text kind +:+ " endpoint does not resolve.")])
    [("source", relation_sourceKind relation, relation_sourceId relation);
     ("target", relation_targetKind relation, relation_targetId relation)].

Definition subject_of (k : SubjectKind) : IssueSubject :=
  match k with subject_dataset => on_dataset | subject_resource => on_resource | subject_relation => on_relation end.

Definition target_exists (tombstone : Tombstone) (snapshot : VerificationSnapshot) : bool :=
  match tombstone_subjectKind tombstone with
  | subject_dataset => existsb (λ d, dataset_id d === tombstone_subjectId tombstone) (snap_datasets snapshot)
  | subject_resource => existsb (λ r, resource_id r === tombstone_subjectId tombstone) (snap_resources snapshot)
  | subject_relation => existsb (λ r, relation_id r === tombstone_subjectId tombstone) (snap_relations snapshot)
  end.

(** Source: packages/verification/src/verification.ts:743-814 verifyTombstone *)
Definition verifyTombstone (tombstone : Tombstone) (snapshot : VerificationSnapshot) : list VerificationIssue :=
  (if negb (target_exists tombstone snapshot) && (tombstone_purgeState tombstone !== purged)
   then [issue "TOMBSTONE_SUBJECT_MISSING" critical (subject_of (tombstone_subjectKind tombstone))
           (tombstone_subjectId tombstone) "Unpurged tombstone subject does not resolve."] else []) ++
  (if truthy (tombstone_recoverUntil tombstone) &&
      string_lt (default EmptyString (tombstone_recoverUntil tombstone)) (tombstone_deletedAt tombstone)
   then [issue "RETENTION_WINDOW_INVALID" error on_resource (tombstone_subjectId tombstone)
           "Recovery deadline precedes deletion time."] else []) ++
  (if truthy (tombstone_priorRevisionId tombstone) &&
      negb (existsb (λ r, (Some (revision_id r) === tombstone_priorRevisionId tombstone) &&
                          (revision_resourceId r === tombstone_subjectId tombstone)) (snap_revisions snapshot))
   then [issue "TOMBSTONE_PRIOR_REVISION_INVALID" critical on_resource (tombstone_subjectId tombstone)
           "Tombstone prior revision does not belong to its resource."] else []) ++
  match tombstone_subjectKind tombstone with
  | subject_resource =>
      match List.find (λ r, resource_id r === tombstone_subjectId tombstone) (snap_resources snapshot) with
      | Some resource =>
          if (tombstone_purgeState tombstone !== purged) && (resource_status resource !== deleted_logically)
          then [issue "TOMBSTONE_STATUS_MISMATCH" error on_resource (resource_id resource)
                  "Open tombstone resource is not logically deleted."] else []
      | None => []
      end
  | _ => []
  end.
End Checks.

(** ** Scopes *)

(** Source: packages/verification/src/verification.ts:479-486 SelectedScope *)
Record SelectedScope := mkSelected {
  sel_datasets : list Dataset;
  sel_resources : list Resource;
  sel_revisions : list Revision;
  sel_relations : list Relation;
  sel_tombstones : list Tombstone;
  sel_scopeIssues : list VerificationIssue;
}.

(** Source: packages/verification/src/verification.ts:488-506 resolveScope *)
Definition resolveScope (workspaceId : string) (level : StructuralVerificationLevel)
    (scope : option VerificationScope) : result string VerificationScope :=
  let expectedKind := expected_kind level in
  let scope := match scope with
               | Some s => Some s
               | None => if level === structural_workspace then Some (mkScope scope_workspace workspaceId) else None
               end in
  let refused := Err (kind_text expectedKind +:+ " verification requires a " +:+ kind_text expectedKind +:+ " scope.") in
  match scope with
  | None => refused
  | Some scope =>
      if scope_kind scope !== expectedKind then refused
      else throw_if ((scope_kind scope === scope_workspace) && (scope_id scope !== workspaceId))
             "Workspace verification scope must match workspaceId." ≫= λ _, Ok scope
  end.

(** Source: packages/verification/src/verification.ts:609-618 emptySelection *)
Definition emptySelection (scopeIssue : VerificationIssue) : SelectedScope := mkSelected [] [] [] [] [] [scopeIssue].

(** Source: packages/verification/src/verification.ts:508-607 selectScope *)
Definition selectScope (snapshot : VerificationSnapshot) (scope : VerificationScope) : SelectedScope :=
  let id := scope_id scope in
  if negb (snap_workspaceExists snapshot)
  then emptySelection (issue "SCOPE_NOT_FOUND" critical on_workspace id "Workspace scope does not exist.")
  else
    match scope_kind scope with
    | scope_workspace =>
        mkSelected (snap_datasets snapshot) (snap_resources snapshot) (snap_revisions snapshot)
          (snap_relations snapshot) (snap_tombstones snapshot) []
    | scope_dataset =>
        match List.find (λ d, dataset_id d === id) (snap_datasets snapshot) with
        | None => emptySelection (issue "SCOPE_NOT_FOUND" critical on_dataset id
                                    "Dataset scope does not exist in the workspace.")
        | Some dataset =>
            mkSelected [dataset] (List.filter (λ r, resource_datasetId r === id) (snap_resources snapshot))
              (List.filter (λ r, revision_datasetId r === id) (snap_revisions snapshot))
              (List.filter (λ r, relation_datasetId r === id) (snap_relations snapshot))
              (List.filter (λ t, tombstone_datasetId t === id) (snap_tombstones snapshot)) []
        end
    | scope_resource =>
        match List.find (λ r, resource_id r === id) (snap_resources snapshot) with
        | None => emptySelection (issue "SCOPE_NOT_FOUND" critical on_resource id
                                    "Resource scope does not exist in the workspace.")
        | Some resource =>
            mkSelected (List.filter (λ d, dataset_id d === resource_datasetId resource) (snap_datasets snapshot))
              [resource]
              (List.filter (λ r, resource_id resource === revision_resourceId r) (snap_revisions snapshot))
              (List.filter (λ r, (relation_sourceId r === resource_id resource) ||
                                 (relation_targetId r === resource_id resource)) (snap_relations snapshot))
              (List.filter (λ t, (tombstone_subjectKind t === subject_resource) &&
                                 (tombstone_subjectId t === resource_id resource)) (snap_tombstones snapshot)) []
        end
    | scope_blob => emptySelection (issue "SCOPE_KIND_INVALID" critical on_blob id
                                      "Structural verification does not accept a blob scope.")
    end.

(** ** The catalogue (verification-catalog.ts) *)

Record VerificationDb := mkVDb {
  vdb_workspaces : list string;
  vdb_datasets : list Dataset;
  vdb_resources : list Resource;
  vdb_revisions : list Revision;
  vdb_blobs : list BlobObject;
  vdb_revisionBlobs : list RevisionBlobReference;
  vdb_relations : list Relation;
  vdb_tombstones : list Tombstone;
  vdb_auditEvents : list ChainedAuditEvent;
  vdb_schemaPackages : list VerificationSchemaPackage;
  vdb_runs : list VerificationRun;
}.

Abbreviation VDb := (M VerificationDb string).

(** [ORDER BY]: insertion sort by a comparison of rows. *)
Fixpoint insert_row {A} (leb : A → A → bool) (x : A) (l : list A) : list A :=
  match l with
  | [] => [x]
  | y :: l' => if leb x y then x :: l else y :: insert_row leb x l'
  end.
Definition order_by {A} (leb : A → A → bool) (l : list A) : list A := foldr (insert_row leb) [] l.

Definition by_string {A} (f : A → string) (x y : A) : bool := String.leb (f x) (f y).

(** Source: packages/persistence-postgres/src/verification-catalog.ts:26-34 workspaceExists *)
Definition workspaceExists (workspaceId : string) : VDb bool :=
  gets (λ d, array_includes (vdb_workspaces d) workspaceId).

Definition blobs_of (workspaceId : string) (d : VerificationDb) : list BlobObject :=
  order_by (by_string blob_id) (List.filter (λ b, blob_workspaceId b === workspaceId) (vdb_blobs d)).

(** Source: packages/persistence-postgres/src/verification-catalog.ts:36-45 listBlobs *)
Definition listBlobs (workspaceId : string) : VDb (list BlobObject) := gets (blobs_of workspaceId).

(** Source: packages/persistence-postgres/src/verification-catalog.ts:47-67 recordRun *)
Definition recordRun (run : VerificationRun) : VDb unit :=
  gets (λ d, existsb (λ r, run_id r === run_id run) (vdb_runs d)) ≫= λ taken : bool,
  throw_when taken "duplicate key value violates unique constraint" ≫= λ _,
  modify (λ d, mkVDb (vdb_workspaces d) (vdb_datasets d) (vdb_resources d) (vdb_revisions d) (vdb_blobs d)
    (vdb_revisionBlobs d) (vdb_relations d) (vdb_tombstones d) (vdb_auditEvents d) (vdb_schemaPackages d)
    (vdb_runs d ++ [run])).

(** [{ ...blob, verificationState }] *)
Definition with_verification (state : VerificationState) (b : BlobObject) : BlobObject :=
  mkBlob (blob_id b) (blob_workspaceId b) (blob_sha256 b) (blob_byteLength b) (blob_mediaType b)
    (blob_storageProvider b) (blob_storageKey b) (blob_encryptionState b) (blob_encryptionKeyRef b) state
    (blob_createdAt b) (blob_storageBindingId b) (blob_storageBindingGeneration b).

Definition blob_row (workspaceId blobId : string) (b : BlobObject) : bool :=
  (blob_workspaceId b === workspaceId) && (blob_id b === blobId).

(** Source: packages/persistence-postgres/src/verification-catalog.ts:69-85 setBlobVerification *)
Definition setBlobVerification (workspaceId blobId : string) (state : VerificationState) : VDb unit :=
  gets (λ d, length (List.filter (blob_row workspaceId blobId) (vdb_blobs d))) ≫= λ rowCount,
  throw_when (negb (Nat.eqb rowCount 1)) "Blob verification state update did not resolve one object." ≫= λ _,
  modify (λ d, mkVDb (vdb_workspaces d) (vdb_datasets d) (vdb_resources d) (vdb_revisions d)
    (map (λ b, if blob_row workspaceId blobId b then with_verification state b else b) (vdb_blobs d))
    (vdb_revisionBlobs d) (vdb_relations d) (vdb_tombstones d) (vdb_auditEvents d) (vdb_schemaPackages d)
    (vdb_runs d)).

Section Services.
Context `{JsDate} `{Crypto} (isUrl : string → bool).
Context {S : Type} `{ObjectStorage S} (error_message : storage_exn → string).

(** [ORDER BY occurred_at, id] *)
Definition event_before (a b : ChainedAuditEvent) : bool :=
  let ta := default 0%Z (Date_parse (event_timestamp (chained_body a))) in
  let tb := default 0%Z (Date_parse (event_timestamp (chained_body b))) in
  (ta <? tb)%Z || ((ta =? tb)%Z && String.leb (event_id (chained_body a)) (event_id (chained_body b))).

(** [ORDER BY resource_id, revision_number] *)
Definition revision_before (a b : Revision) : bool :=
  if revision_resourceId a === revision_resourceId b
  then (revision_revisionNumber a <=? revision_revisionNumber b)%Z
  else String.leb (revision_resourceId a) (revision_resourceId b).

Definition snapshot_of (w : string) (d : VerificationDb) : VerificationSnapshot :=
  let datasets := List.filter (λ x, dataset_workspaceId x === w) (vdb_datasets d) in
  let revisions := List.filter (λ x, revision_workspaceId x === w) (vdb_revisions d) in
  mkSnapshot (array_includes (vdb_workspaces d) w)
    (order_by (by_string dataset_id) datasets)
    (order_by (by_string resource_id) (List.filter (λ x, resource_workspaceId x === w) (vdb_resources d)))
    (order_by revision_before revisions)
    (blobs_of w d)
    (order_by (by_string ref_id) (List.filter (λ x, ref_workspaceId x === w) (vdb_revisionBlobs d)))
    (order_by (by_string relation_id) (List.filter (λ x, relation_workspaceId x === w) (vdb_relations d)))
    (order_by (by_string tombstone_id)
       (List.filter (λ x, (tombstone_workspaceId x === w) && (tombstone_restoredAt x === None)) (vdb_tombstones d)))
    (order_by event_before (List.filter (λ x, event_workspaceId (chained_body x) === w) (vdb_auditEvents d)))
    (order_by (by_string vpackage_id)
       (List.filter (λ p, array_includes (map dataset_schemaPackageId datasets ++ map revision_schemaPackageId revisions)
                            (vpackage_id p)) (vdb_schemaPackages d))).

(** Source: packages/persistence-postgres/src/verification-catalog.ts:121-183 loadSnapshot *)
Definition loadSnapshot (workspaceId : string) : VDb VerificationSnapshot := gets (snapshot_of workspaceId).

(** ** BlobVerificationService *)

Definition metadata_issues (blob : BlobObject) (metadata : ObjectMetadata) : list VerificationIssue :=
  (if metadata_key metadata !== blob_storageKey blob
   then [blobIssue blob "STORAGE_KEY_MISMATCH" error "Storage returned a different object key."
           (JString (blob_storageKey blob)) (JString (metadata_key metadata))] else []) ++
  (if metadata_byteLength metadata !== blob_byteLength blob
   then [blobIssue blob "BLOB_LENGTH_MISMATCH" critical "Stored byte length differs from canonical metadata."
           (JNumber (blob_byteLength blob)) (JNumber (metadata_byteLength metadata))] else []) ++
  (if truthy (metadata_sha256 metadata) && (metadata_sha256 metadata !== Some (blob_sha256 blob))
   then [blobIssue blob "STORED_HASH_METADATA_MISMATCH" critical
           "Storage hash metadata differs from the canonical hash."
           (JString (blob_sha256 blob)) (JString (default EmptyString (metadata_sha256 metadata)))] else []).

Definition content_issues (blob : BlobObject) (bytes : string) : list VerificationIssue :=
  (if byteLength bytes !== blob_byteLength blob
   then [blobIssue blob "FULL_LENGTH_MISMATCH" critical "Streamed byte count differs from canonical metadata."
           (JNumber (blob_byteLength blob)) (JNumber (byteLength bytes))] else []) ++
  (if sha256 bytes !== blob_sha256 blob
   then [blobIssue blob "FULL_HASH_MISMATCH" critical "Streamed SHA-256 differs from the canonical hash."
           (JString (blob_sha256 blob)) (JString (sha256 bytes))] else []).

(** [issues.length ? "failed" : "passed"] *)
Definition blob_result (blob : BlobObject) (level : BlobVerificationLevel) (checkedAt : string) (bytesRead : Z)
    (issues : list VerificationIssue) : BlobVerificationResult :=
  mkBlobResult (blob_id blob) level (match issues with [] => true | _ => false end) checkedAt bytesRead issues.

(** Source: packages/verification/src/verification.ts:160-296 verifyBlob *)
Definition verifyBlob (checkedAt : string) (blob : BlobObject) (level : BlobVerificationLevel) (s : S)
    : BlobVerificationResult * S :=
  match head (blob_storageKey blob) s with
  | (Err e, s) =>
      (blob_result blob level checkedAt 0
         [mkVIssue "BLOB_MISSING_OR_INACCESSIBLE" critical on_blob (blob_id blob) (error_message e)
            (Some (JString (blob_storageKey blob))) (Some JNull)], s)
  | (Ok metadata, s) =>
      let issues := metadata_issues blob metadata in
      match level with
      | blob_metadata => (blob_result blob level checkedAt 0 issues, s)
      | blob_full =>
          match openReadStream (blob_storageKey blob) None s with
          | (Err e, s) =>
              (blob_result blob level checkedAt 0
                 (issues ++ [mkVIssue "BLOB_STREAM_FAILED" critical on_storage (blob_id blob) (error_message e)
                    (Some (JNumber (blob_byteLength blob))) (Some (JNumber 0))]), s)
          | (Ok bytes, s) =>
              (blob_result blob level checkedAt (byteLength bytes) (issues ++ content_issues blob bytes), s)
          end
      end
  end.

(** A service's state: the object store and the catalogue. *)
Abbreviation Verif := (M (S * VerificationDb) string).
Definition on_db {A} (m : VDb A) : Verif A := λ st, let '(r, d) := m (snd st) in (r, (fst st, d)).
Definition on_store {A} (f : S → A * S) : Verif A := λ st, let '(a, s) := f (fst st) in (Ok a, (s, snd st)).

(** The loop both services run over blobs: verify, then mark. *)
Fixpoint verify_blobs (checkedAt : string → string) (workspaceId : string) (level : BlobVerificationLevel)
    (blobs : list BlobObject) : Verif (list BlobVerificationResult) :=
  match blobs with
  | [] => mret []
  | blob :: blobs =>
      on_store (verifyBlob (checkedAt (blob_id blob)) blob level) ≫= λ result,
      on_db (setBlobVerification workspaceId (blob_id blob)
        (if result_passed result then verification_verified else verification_failed)) ≫= λ _,
      verify_blobs checkedAt workspaceId level blobs ≫= λ results,
      mret (result :: results)
  end.

Definition sum_bytes (results : list BlobVerificationResult) : Z := foldr Z.add 0%Z (map result_bytesRead results).

(** Source: packages/verification/src/verification.ts:117-158 BlobVerificationService.run *)
Definition run_blob_verification (startedAt completedAt id : string) (checkedAt : string → string)
    (workspaceId : string) (level : BlobVerificationLevel) : Verif VerificationRun :=
  on_db (workspaceExists workspaceId) ≫= λ found : bool,
  throw_when (negb found) "Verification workspace was not found." ≫= λ _,
  on_db (listBlobs workspaceId) ≫= λ blobs,
  verify_blobs checkedAt workspaceId level blobs ≫= λ results,
  let run := makeRun id workspaceId (blob_level level) (mkScope scope_workspace workspaceId) startedAt completedAt
    (Z.of_nat (length results)) (sum_bytes results)
    (match blobs with
     | [] => [issue "NO_OBJECTS_CHECKED" warning on_workspace workspaceId
                "No catalogued blobs exist in this workspace; verification cannot pass without checking an object."]
     | _ => flat_map result_issues results
     end) in
  on_db (recordRun run) ≫= λ _, mret run.

(** Source: packages/persistence-postgres/src/verification-catalog.ts:87-99 getReport *)
Definition getReport (workspaceId reportId : string) : VDb (option VerificationRun) :=
  gets (λ d, List.find (λ r, (run_workspaceId r === workspaceId) && (run_id r === reportId)) (vdb_runs d)).

(** [ORDER BY started_at DESC, id DESC] *)
Definition run_after (a b : VerificationRun) : bool :=
  let ta := default 0%Z (Date_parse (run_startedAt a)) in
  let tb := default 0%Z (Date_parse (run_startedAt b)) in
  (tb <? ta)%Z || ((ta =? tb)%Z && String.leb (run_id b) (run_id a)).

(** Source: packages/persistence-postgres/src/verification-catalog.ts:101-119 listReports *)
Definition listReports (workspaceId : string) (scopeFilter : option VerificationScope) : VDb (list VerificationRun) :=
  gets (λ d, order_by run_after (List.filter (λ r, (run_workspaceId r === workspaceId) &&
    match scopeFilter with Some scope => run_scope r === scope | None => true end) (vdb_runs d))).

(** ** StructuralVerificationService *)

Definition dataset_issues (packages : list VerificationSchemaPackage) (dataset : Dataset) : list VerificationIssue :=
  match List.find (λ p, vpackage_id p === dataset_schemaPackageId dataset) packages with
  | None => [issue "DATASET_SCHEMA_PACKAGE_MISSING" critical on_dataset (dataset_id dataset)
               "Dataset schema package does not resolve."]
  | Some p => if vpackage_status p === package_revoked
              then [issue "DATASET_SCHEMA_PACKAGE_REVOKED" error on_dataset (dataset_id dataset)
                      "Dataset uses a revoked schema package."] else []
  end.

Definition own_revisions (selected : SelectedScope) (resource : Resource) : list Revision :=
  List.filter (λ r, revision_resourceId r === resource_id resource) (sel_revisions selected).

Definition resource_issues (packages : list VerificationSchemaPackage) (selected : SelectedScope)
    (resource : Resource) : list VerificationIssue :=
  let revisions := own_revisions selected resource in
  let dataset := List.find (λ d, dataset_id d === resource_datasetId resource) (sel_datasets selected) in
  verifyResourceGraph resource (sel_revisions selected) ++
  flat_map (λ revision, verifySchema isUrl resource revision dataset packages) revisions ++
  (if Nat.eqb (length revisions) 0 && (resource_status resource !== deleted_logically)
   then [issue "ORPHAN_RESOURCE_WITHOUT_REVISION" critical on_resource (resource_id resource)
           "Resource has no revision history."] else []).

Definition selected_references (snapshot : VerificationSnapshot) (selected : SelectedScope)
    : list RevisionBlobReference :=
  List.filter (λ ref, array_includes (map revision_id (sel_revisions selected)) (ref_revisionId ref))
    (snap_revisionBlobs snapshot).

Definition reference_issues (snapshot : VerificationSnapshot) (ref : RevisionBlobReference) : list VerificationIssue :=
  if existsb (λ b, blob_id b === ref_blobObjectId ref) (snap_blobs snapshot) then []
  else [issue "REVISION_BLOB_TARGET_MISSING" critical on_revision (ref_revisionId ref)
          ("Blob reference " +:+ ref_id ref +:+ " does not resolve.")].

Definition selected_blobs (level : StructuralVerificationLevel) (snapshot : VerificationSnapshot)
    (selected : SelectedScope) : list BlobObject :=
  if level === structural_workspace then snap_blobs snapshot
  else List.filter (λ b, array_includes (map ref_blobObjectId (selected_references snapshot selected)) (blob_id b))
         (snap_blobs snapshot).

Definition workspace_issues (workspaceId : string) (snapshot : VerificationSnapshot) : list VerificationIssue :=
  (if negb (Nat.eqb (length (snap_auditEvents snapshot)) 0) && negb (verifyAuditChain (snap_auditEvents snapshot))
   then [issue "AUDIT_CHAIN_INVALID" critical on_workspace workspaceId
           "Workspace audit event hash chain is invalid."] else []) ++
  flat_map (λ blob, if array_includes (map ref_blobObjectId (snap_revisionBlobs snapshot)) (blob_id blob) then []
                    else [issue "ORPHAN_BLOB" warning on_blob (blob_id blob)
                            "Blob is not referenced by any revision."]) (snap_blobs snapshot).

(** The objects a structural run counts. *)
Definition objects_checked (level : StructuralVerificationLevel) (snapshot : VerificationSnapshot)
    (selected : SelectedScope) : nat :=
  (if Nat.eqb (length (sel_scopeIssues selected)) 0 then length (sel_datasets selected) else 0) +
  foldr Nat.add 0 (map (λ r, 1 + length (own_revisions selected r)) (sel_resources selected)) +
  length (selected_references snapshot selected) + length (selected_blobs level snapshot selected) +
  length (sel_relations selected) + length (sel_tombstones selected) +
  (if level === structural_workspace then length (snap_auditEvents snapshot) else 0).

(** Source: packages/verification/src/verification.ts:316-476 StructuralVerificationService.run *)
Definition run_structural_verification (startedAt completedAt id : string) (checkedAt : string → string)
    (workspaceId : string) (level : StructuralVerificationLevel) (scope : option VerificationScope)
    : Verif VerificationRun :=
  lift (resolveScope workspaceId level scope) ≫= λ scope,
  on_db (loadSnapshot workspaceId) ≫= λ snapshot,
  let selected := selectScope snapshot scope in
  let packages := snap_schemaPackages snapshot in
  verify_blobs checkedAt workspaceId blob_metadata (selected_blobs level snapshot selected) ≫= λ results,
  let issues :=
    sel_scopeIssues selected ++
    flat_map (dataset_issues packages) (sel_datasets selected) ++
    flat_map (resource_issues packages selected) (sel_resources selected) ++
    flat_map (reference_issues snapshot) (selected_references snapshot selected) ++
    flat_map result_issues results ++
    flat_map (λ r, verifyRelation r snapshot) (sel_relations selected) ++
    flat_map (λ t, verifyTombstone t snapshot) (sel_tombstones selected) ++
    (if level === structural_workspace then workspace_issues workspaceId snapshot else []) in
  let run := makeRun id workspaceId (structural_level level) scope startedAt completedAt
    (Z.of_nat (objects_checked level snapshot selected)) 0 issues in
  on_db (recordRun run) ≫= λ _, mret run.
End Services.

(** ** What the checks mean *)

Lemma and_iff (P P' Q Q' : Prop) : (P ↔ P') → (Q ↔ Q') → (P ∧ Q) ↔ (P' ∧ Q').
Proof. tauto. Qed.

Lemma app_nil_iff {A} (l1 l2 : list A) : l1 ++ l2 = [] ↔ l1 = [] ∧ l2 = [].
Proof. destruct l1, l2; naive_solver. Qed.

(** A check that reports [i] when [b]. *)
Lemma report_nil {A} (b : bool) (i : A) : (if b then [i] else []) = [] ↔ b = false.
Proof. by destruct b. Qed.

Lemma status_passed_iff issues : status_of issues = status_passed ↔ issues = [].
Proof.
  unfold status_of. split; [|by intros ->]. destruct (existsb _ _); [done|]. by destruct issues.
Qed.

Lemma truthy_true o : truthy o = true ↔ ∃ s, o = Some s ∧ s ≠ EmptyString.
Proof.
  destruct o as [s|]; cbn; [|naive_solver]. rewrite negb_true_iff, bool_decide_eq_false. naive_solver.
Qed.

(** *** Revision graphs *)

Definition in_scope (resource : Resource) (r : Revision) : Prop :=
  revision_workspaceId r = resource_workspaceId resource ∧ revision_datasetId r = resource_datasetId resource.

(** [r] starts the history, or follows a revision of it with a smaller number. *)
Definition parented (own : list Revision) (r : Revision) : Prop :=
  (revision_revisionNumber r = 1%Z → revision_parentRevisionId r = None) ∧
  ((1 < revision_revisionNumber r)%Z → ∃ p, revision_parentRevisionId r = Some (revision_id p) ∧
     revision_id p ≠ EmptyString ∧ p ∈ own ∧ (revision_revisionNumber p < revision_revisionNumber r)%Z).

Definition graph_ok (resource : Resource) (own : list Revision) : Prop :=
  (∀ c, resource_currentRevisionId resource = Some c → c ≠ EmptyString → ∃ r, r ∈ own ∧ revision_id r = c) ∧
  Forall (in_scope resource) own ∧ NoDup (map revision_revisionNumber own) ∧ Forall (parented own) own.

Lemma parent_check own r (i j : VerificationIssue) :
  NoDup (map revision_id own) →
  (if (1 <? revision_revisionNumber r)%Z then
     match (if truthy (revision_parentRevisionId r)
            then map_get (default EmptyString (revision_parentRevisionId r)) (by_id own) else None) with
     | None => [i]
     | Some parent => if (revision_revisionNumber r <=? revision_revisionNumber parent)%Z then [j] else []
     end else []) = [] ↔
  ((1 < revision_revisionNumber r)%Z → ∃ p, revision_parentRevisionId r = Some (revision_id p) ∧
     revision_id p ≠ EmptyString ∧ p ∈ own ∧ (revision_revisionNumber p < revision_revisionNumber r)%Z).
Proof.
  intros Hnd. destruct (Z.ltb_spec 1 (revision_revisionNumber r)) as [Hlt|Hge]; [|split; [lia|done]].
  destruct (truthy (revision_parentRevisionId r)) eqn:Ht.
  - apply truthy_true in Ht as (pid & Hpid & Hne). rewrite Hpid. cbn.
    destruct (map_get pid (by_id own)) as [p|] eqn:Hp.
    + apply index_by_Some in Hp as [Hin <-]; [|done]. rewrite report_nil, Z.leb_gt. split.
      * intros Hlt' _. by exists p.
      * intros Hx. destruct (Hx Hlt) as (p' & [= Hid] & _ & Hin' & Hlt').
        by rewrite (index_unique revision_id own p p').
    + split; [done|]. intros Hx. destruct (Hx Hlt) as (p & [= ->] & _ & Hin & _).
      assert (map_get (revision_id p) (by_id own) = Some p) as E by (by apply index_by_Some). congruence.
  - split; [done|]. intros Hx. destruct (Hx Hlt) as (p & Hpar & Hne & _). rewrite Hpar in Ht. cbn in Ht.
    by rewrite bool_decide_eq_false_2 in Ht.
Qed.

Lemma graph_loop_nil resource all numbers own :
  NoDup (map revision_id all) →
  graph_loop resource (by_id all) numbers own = [] ↔
  Forall (in_scope resource) own ∧ NoDup (map revision_revisionNumber own) ∧
  Forall (λ r, revision_revisionNumber r ∉ numbers) own ∧ Forall (parented all) own.
Proof.
  intros Hnd. revert numbers. induction own as [|r own IH]; intros numbers; cbn [graph_loop].
  { split; [|done]. intros _. split_and!; constructor. }
  rewrite !app_nil_iff, !report_nil, parent_check, IH by done.
  rewrite orb_false_iff, !negb_false_iff, !bool_decide_eq_true, andb_false_iff, negb_false_iff,
    !bool_decide_eq_false, bool_decide_eq_true.
  cbn [map]. rewrite !Forall_cons, NoDup_cons. unfold in_scope at 2, parented at 2.
  assert (Forall (λ x, revision_revisionNumber x ∉ revision_revisionNumber r :: numbers) own ↔
    (revision_revisionNumber r ∉ map revision_revisionNumber own) ∧
    Forall (λ x, revision_revisionNumber x ∉ numbers) own) as ->.
  { rewrite !Forall_forall, list_elem_of_fmap. setoid_rewrite not_elem_of_cons. split.
    - intros Hx. split; [intros (x & He & Hin)|intros x Hin]; by destruct (Hx x Hin).
    - intros [Hn Hx] x Hin. split; [|by apply Hx]. intros He. apply Hn. by exists x. }
  assert ((revision_revisionNumber r ≠ 1%Z ∨ revision_parentRevisionId r = None) ↔
    (revision_revisionNumber r = 1%Z → revision_parentRevisionId r = None)) as ->.
  { destruct (decide (revision_revisionNumber r = 1%Z)); tauto. }
  tauto.
Qed.

Lemma verifyResourceGraph_spec resource revisions :
  let own := List.filter (λ r, revision_resourceId r === resource_id resource) revisions in
  NoDup (map revision_id own) → verifyResourceGraph resource revisions = [] ↔ graph_ok resource own.
Proof.
  intros own Hnd. unfold verifyResourceGraph, graph_ok. fold own.
  rewrite app_nil_iff, report_nil, graph_loop_nil by done.
  assert (Forall (λ r, revision_revisionNumber r ∉ []) own) as Hnone by (apply Forall_forall; by intros ? _ ?%elem_of_nil).
  rewrite andb_false_iff, negb_false_iff, bool_decide_eq_true.
  assert ((truthy (resource_currentRevisionId resource) = false ∨
    is_Some (map_get (default EmptyString (resource_currentRevisionId resource)) (by_id own))) ↔
    ∀ c, resource_currentRevisionId resource = Some c → c ≠ EmptyString → ∃ r, r ∈ own ∧ revision_id r = c) as ->; [|tauto].
  destruct (resource_currentRevisionId resource) as [c|]; cbn; [|naive_solver].
  rewrite negb_false_iff, bool_decide_eq_true. unfold is_Some. setoid_rewrite (index_by_Some revision_id own c); [|done].
  destruct (decide (c = EmptyString)); naive_solver.
Qed.

(** *** Schemas, relations, tombstones, datasets *)

Section Meaning.
Context `{JsDate} `{!Crypto} (isUrl : string → bool).

Definition schema_ok (packages : list VerificationSchemaPackage) (dataset : option Dataset) (resource : Resource)
    (revision : Revision) : Prop :=
  ∃ p, List.find (λ p, vpackage_id p === revision_schemaPackageId revision) packages = Some p ∧
    (∀ ds, dataset = Some ds → dataset_schemaPackageId ds = revision_schemaPackageId revision) ∧
    vpackage_version p = revision_schemaVersion revision ∧ vpackage_status p ≠ package_revoked ∧
    valid (validateResourcePayload isUrl (vpackage_manifest p) (resource_resourceType resource)
             (revision_canonicalPayload revision)) = true.

Lemma validate_issues m T payload :
  valid (validateResourcePayload isUrl m T payload) = true ↔ issues (validateResourcePayload isUrl m T payload) = [].
Proof.
  unfold validateResourcePayload. destruct (List.find _ _) as [d|]; [|by rewrite validation_valid].
  by destruct (type_additionalFields d); rewrite validation_valid.
Qed.

Lemma verifySchema_spec resource revision dataset packages :
  verifySchema isUrl resource revision dataset packages = [] ↔ schema_ok packages dataset resource revision.
Proof.
  unfold verifySchema, schema_ok. destruct (List.find _ _) as [p|]; [|naive_solver].
  rewrite !app_nil_iff, !report_nil, negb_false_iff, bool_decide_eq_true, bool_decide_eq_false.
  assert ((match dataset with Some ds => if revision_schemaPackageId revision !== dataset_schemaPackageId ds
      then [issue_expecting "REVISION_DATASET_SCHEMA_MISMATCH" critical on_revision (revision_id revision)
              "Revision schema package differs from its dataset schema package."
              (dataset_schemaPackageId ds) (revision_schemaPackageId revision)] else []
      | None => [] end = []) ↔
    ∀ ds, dataset = Some ds → dataset_schemaPackageId ds = revision_schemaPackageId revision) as ->.
  { destruct dataset as [ds|]; [|naive_solver]. rewrite report_nil, negb_false_iff, bool_decide_eq_true. naive_solver. }
  setoid_rewrite validate_issues.
  assert (∀ (f : ValidationIssue → VerificationIssue) l, map f l = [] ↔ l = []) as -> by (intros f []; naive_solver).
  split; [|by intros (? & [= <-] & ?)]. intros ?. by exists p.
Qed.

Definition dataset_ok (packages : list VerificationSchemaPackage) (dataset : Dataset) : Prop :=
  ∃ p, List.find (λ p, vpackage_id p === dataset_schemaPackageId dataset) packages = Some p ∧
       vpackage_status p ≠ package_revoked.

Lemma dataset_issues_spec packages dataset : dataset_issues packages dataset = [] ↔ dataset_ok packages dataset.
Proof.
  unfold dataset_issues, dataset_ok. destruct (List.find _ _) as [p|]; [|naive_solver].
  rewrite report_nil, bool_decide_eq_false. naive_solver.
Qed.

Definition relation_ok (snapshot : VerificationSnapshot) (r : Relation) : Prop :=
  endpoint_exists snapshot (relation_datasetId r) (relation_sourceKind r) (relation_sourceId r) = true ∧
  endpoint_exists snapshot (relation_datasetId r) (relation_targetKind r) (relation_targetId r) = true.

Lemma verifyRelation_spec snapshot r : verifyRelation r snapshot = [] ↔ relation_ok snapshot r.
Proof.
  unfold verifyRelation, relation_ok. cbn [flat_map].
  destruct (endpoint_exists _ _ (relation_sourceKind r) _), (endpoint_exists _ _ (relation_targetKind r) _); naive_solver.
Qed.

Definition tombstone_ok (snapshot : VerificationSnapshot) (t : Tombstone) : Prop :=
  (tombstone_purgeState t = purged ∨ target_exists t snapshot = true) ∧
  (∀ u, tombstone_recoverUntil t = Some u → u ≠ EmptyString → string_lt u (tombstone_deletedAt t) = false) ∧
  (∀ c, tombstone_priorRevisionId t = Some c → c ≠ EmptyString →
     ∃ r, r ∈ snap_revisions snapshot ∧ revision_id r = c ∧ revision_resourceId r = tombstone_subjectId t) ∧
  (tombstone_subjectKind t = subject_resource → tombstone_purgeState t ≠ purged →
   ∀ r, List.find (λ r, resource_id r === tombstone_subjectId t) (snap_resources snapshot) = Some r →
        resource_status r = deleted_logically).

Lemma verifyTombstone_spec snapshot t : verifyTombstone t snapshot = [] ↔ tombstone_ok snapshot t.
Proof.
  clear isUrl. unfold verifyTombstone, tombstone_ok. rewrite !app_nil_iff, !report_nil, !andb_false_iff.
  apply and_iff; [|apply and_iff; [|apply and_iff]].
  - rewrite !negb_false_iff, bool_decide_eq_true. tauto.
  - destruct (tombstone_recoverUntil t) as [u|]; cbn; [|naive_solver]. rewrite negb_false_iff, bool_decide_eq_true.
    destruct (decide (u = EmptyString)); naive_solver.
  - rewrite negb_false_iff, existsb_elem. setoid_rewrite andb_true_iff. setoid_rewrite bool_decide_eq_true.
    destruct (tombstone_priorRevisionId t) as [c|]; cbn; [|naive_solver].
    rewrite negb_false_iff, bool_decide_eq_true. destruct (decide (c = EmptyString)); naive_solver.
  - destruct (tombstone_subjectKind t); [naive_solver| |naive_solver].
    destruct (List.find _ _) as [r|]; [|naive_solver].
    rewrite report_nil, andb_false_iff, !negb_false_iff, !bool_decide_eq_true.
    destruct (decide (tombstone_purgeState t = purged)); naive_solver.
Qed.

Definition resource_ok (packages : list VerificationSchemaPackage) (selected : SelectedScope) (r : Resource) : Prop :=
  graph_ok r (own_revisions selected r) ∧
  (∀ v, v ∈ own_revisions selected r →
     schema_ok packages (List.find (λ d, dataset_id d === resource_datasetId r) (sel_datasets selected)) r v) ∧
  (own_revisions selected r = [] → resource_status r = deleted_logically).

Lemma resource_issues_spec packages selected r :
  NoDup (map revision_id (own_revisions selected r)) →
  resource_issues isUrl packages selected r = [] ↔ resource_ok packages selected r.
Proof.
  intros Hnd. unfold resource_issues, resource_ok.
  rewrite !app_nil_iff, flat_map_nil, report_nil, verifyResourceGraph_spec by done.
  setoid_rewrite verifySchema_spec. fold (own_revisions selected r).
  rewrite andb_false_iff, negb_false_iff, bool_decide_eq_true. destruct (own_revisions selected r); cbn; naive_solver.
Qed.

Definition workspace_ok (snapshot : VerificationSnapshot) : Prop :=
  verifyAuditChain (snap_auditEvents snapshot) = true ∧
  ∀ b, b ∈ snap_blobs snapshot → ∃ ref, ref ∈ snap_revisionBlobs snapshot ∧ ref_blobObjectId ref = blob_id b.

Lemma workspace_issues_spec w snapshot : workspace_issues w snapshot = [] ↔ workspace_ok snapshot.
Proof.
  unfold workspace_issues, workspace_ok. rewrite app_nil_iff, report_nil, flat_map_nil.
  apply and_iff.
  - destruct (snap_auditEvents snapshot) as [|e l]; [done|]. cbn [length Nat.eqb negb andb]. by destruct (verifyAuditChain _).
  - apply forall_proper. intros b. apply imp_iff_compat_l. unfold array_includes. case_bool_decide as Hin.
    + split; [|done]. intros _. apply list_elem_of_fmap in Hin as (ref & -> & Hr). by exists ref.
    + split; [done|]. intros (ref & Hr & He). destruct Hin. rewrite <- He. apply list_elem_of_fmap. by exists ref.
Qed.
End Meaning.

(** ** The services against the object store *)

Section Runs.
Context `{JsDate} `{Crypto}.
Context {S : Type} `{Hstore : !ObjectStorage S} `{Hreads : !StorageReads S}.
Context (error_message : storage_exn → string) (checkedAt : string → string).
Implicit Types (s : S) (d : VerificationDb).

(** What the storage reports of the blob's object: its key, its length, and its
    digest where it reports one. *)
Definition reported s (b : BlobObject) : Prop :=
  ∃ md, fst (head (blob_storageKey b) s) = Ok md ∧ metadata_key md = blob_storageKey b ∧
    metadata_byteLength md = blob_byteLength b ∧
    (truthy (metadata_sha256 md) = true → metadata_sha256 md = Some (blob_sha256 b)).
(** What the storage streams has the length and the digest of the blob. *)
Definition read_back s (b : BlobObject) : Prop :=
  ∃ bytes, fst (openReadStream (blob_storageKey b) None s) = Ok bytes ∧
    byteLength bytes = blob_byteLength b ∧ sha256 bytes = blob_sha256 b.
Definition blob_matches (level : BlobVerificationLevel) s (b : BlobObject) : Prop :=
  reported s b ∧ (level = blob_full → read_back s b).

Lemma metadata_issues_spec (blob : BlobObject) md :
  metadata_issues blob md = [] ↔
  metadata_key md = blob_storageKey blob ∧ metadata_byteLength md = blob_byteLength blob ∧
  (truthy (metadata_sha256 md) = true → metadata_sha256 md = Some (blob_sha256 blob)).
Proof.
  unfold metadata_issues. rewrite !app_nil_iff, !report_nil, andb_false_iff, !negb_false_iff, !bool_decide_eq_true.
  destruct (truthy (metadata_sha256 md)); naive_solver.
Qed.

Lemma content_issues_spec (blob : BlobObject) bytes :
  content_issues blob bytes = [] ↔ byteLength bytes = blob_byteLength blob ∧ sha256 bytes = blob_sha256 blob.
Proof.
  unfold content_issues. by rewrite app_nil_iff, !report_nil, !negb_false_iff, !bool_decide_eq_true.
Qed.

Definition all_serious (l : list VerificationIssue) : Prop := Forall (λ i, serious i = true) l.

Lemma report_serious (b : bool) i : serious i = true → all_serious (if b then [i] else []).
Proof. destruct b; by repeat constructor. Qed.

Lemma blob_issues_serious blob md bytes :
  all_serious (metadata_issues blob md) ∧ all_serious (content_issues blob bytes).
Proof.
  unfold metadata_issues, content_issues, all_serious.
  split; repeat (apply Forall_app; split); by apply report_serious.
Qed.

(** Verifying a blob changes nothing and passes exactly when what the storage
    reports, and at the full level what it streams, is as catalogued. *)
Lemma verifyBlob_spec t blob level s :
  snd (verifyBlob error_message t blob level s) = s ∧
  let r := fst (verifyBlob error_message t blob level s) in
  (result_issues r = [] ↔ blob_matches level s blob) ∧ (result_passed r = true ↔ result_issues r = []) ∧
  all_serious (result_issues r).
Proof.
  destruct (reads_only s (blob_storageKey blob)) as [Hhead Hopen]. specialize (Hopen None).
  unfold verifyBlob, blob_matches, reported, read_back.
  destruct (head (blob_storageKey blob) s) as [[md|e] s1] eqn:HH; cbn in Hhead; subst s1; cbn [fst].
  - assert ((∃ md', Ok md = Ok md' ∧ metadata_key md' = blob_storageKey blob ∧ metadata_byteLength md' = blob_byteLength blob ∧
      (truthy (metadata_sha256 md') = true → metadata_sha256 md' = Some (blob_sha256 blob))) ↔ metadata_issues blob md = []) as ->.
    { rewrite metadata_issues_spec. split; [by intros (? & [= <-] & ?)|]. intros ?. by exists md. }
    destruct level; [|destruct (openReadStream (blob_storageKey blob) None s) as [[bytes|e] s2]; cbn in Hopen; subst s2];
      cbn [fst snd result_issues result_passed blob_result]; (split; [done|]);
      (split; [|split; [by destruct (_ : list VerificationIssue)|]]).
    + naive_solver.
    + by apply (blob_issues_serious _ _ "").
    + rewrite app_nil_iff, content_issues_spec. naive_solver.
    + apply Forall_app. apply blob_issues_serious.
    + rewrite app_nil_iff. split; [by intros [_ ?]|]. intros [_ Hr]. by destruct (Hr eq_refl) as (bytes & ? & _).
    + apply Forall_app. split; [apply (blob_issues_serious _ _ "")|by repeat constructor].
  - cbn. split_and!; [done| |done|by repeat constructor]. split; [done|]. by intros [(md & ? & _) _].
Qed.

Lemma metadata_level s b : blob_matches blob_metadata s b ↔ reported s b.
Proof. unfold blob_matches. naive_solver. Qed.

(** A checked blob is marked verified when it matches and failed when not. *)
Definition marked level s (b : BlobObject) : Prop :=
  (blob_verificationState b = verification_verified ∧ blob_matches level s b) ∨
  (blob_verificationState b = verification_failed ∧ ¬ blob_matches level s b).

(** The catalogue with its blob rows rewritten. *)
Definition map_blobs (f : BlobObject → BlobObject) d : VerificationDb :=
  mkVDb (vdb_workspaces d) (vdb_datasets d) (vdb_resources d) (vdb_revisions d) (map f (vdb_blobs d))
    (vdb_revisionBlobs d) (vdb_relations d) (vdb_tombstones d) (vdb_auditEvents d) (vdb_schemaPackages d)
    (vdb_runs d).

(** [f] marks the rows named [ids], and only them. *)
Definition marks level s (ids : list string) (f : BlobObject → BlobObject) d : Prop :=
  ∀ x, x ∈ vdb_blobs d →
    if decide (blob_id x ∈ ids) then (∃ st, f x = with_verification st x) ∧ marked level s (f x) else f x = x.

Definition blob_keys d : Prop := NoDup (map blob_id (vdb_blobs d)).

Lemma filter_key_one d b :
  blob_keys d → b ∈ vdb_blobs d → length (List.filter (blob_row (blob_workspaceId b) (blob_id b)) (vdb_blobs d)) = 1.
Proof.
  unfold blob_keys. induction (vdb_blobs d) as [|x l IH]; [by intros _ ?%elem_of_nil|].
  cbn [map]. intros [Hn Hnd]%NoDup_cons Hin. cbn [List.filter].
  assert (∀ y, y ∈ l → blob_id y ≠ blob_id x) as Hother.
  { intros y Hy E. apply Hn. rewrite <- E. apply list_elem_of_fmap. by exists y. }
  apply elem_of_cons in Hin as [<-|Hin].
  - unfold blob_row at 1. rewrite !strict_eq_refl. cbn.
    assert (List.filter (blob_row (blob_workspaceId b) (blob_id b)) l = []) as ->; [|done].
    clear -Hother. induction l as [|y l IH]; cbn; [done|]. unfold blob_row at 1.
    rewrite (bool_decide_eq_false_2 (blob_id y = blob_id b)), andb_false_r by (apply Hother, list_elem_of_here).
    apply IH. intros z Hz. by apply Hother, list_elem_of_further.
  - unfold blob_row at 1. rewrite (bool_decide_eq_false_2 (blob_id x = blob_id b)), andb_false_r
      by (intros E; by apply (Hother b)). by apply IH.
Qed.

Lemma setBlobVerification_run d b st :
  blob_keys d → b ∈ vdb_blobs d →
  setBlobVerification (blob_workspaceId b) (blob_id b) st d =
    (Ok tt, map_blobs (λ x, if blob_row (blob_workspaceId b) (blob_id b) x then with_verification st x else x) d).
Proof.
  intros Hk Hin. unfold setBlobVerification. run. by rewrite (filter_key_one _ _ Hk Hin).
Qed.

Lemma verify_blobs_spec w level blobs s d :
  blob_keys d → NoDup (map blob_id blobs) →
  (∀ b, b ∈ blobs → b ∈ vdb_blobs d ∧ blob_workspaceId b = w) →
  ∃ results f, verify_blobs error_message checkedAt w level blobs (s, d) = (Ok results, (s, map_blobs f d)) ∧
    length results = length blobs ∧
    (flat_map result_issues results = [] ↔ ∀ b, b ∈ blobs → blob_matches level s b) ∧
    all_serious (flat_map result_issues results) ∧ marks level s (map blob_id blobs) f d.
Proof.
  revert d. induction blobs as [|b blobs IH]; intros d Hk Hnd Hall.
  { exists [], id. split_and!; [|done| |constructor|].
    - cbn. unfold map_blobs. rewrite map_id. by destruct d.
    - split; [by intros _ ? ?%elem_of_nil|done].
    - intros x Hx. rewrite decide_False; [done|]. by intros ?%elem_of_nil. }
  destruct (Hall b) as [Hb <-]; [apply list_elem_of_here|]. cbn [map] in Hnd. apply NoDup_cons in Hnd as [Hnew Hnd].
  destruct (verifyBlob_spec (checkedAt (blob_id b)) b level s) as (Hs & Hiss & Hpass & Hser).
  destruct (verifyBlob error_message (checkedAt (blob_id b)) b level s) as [r s1] eqn:HV. cbn in Hs, Hiss, Hpass, Hser. subst s1.
  set (st := if result_passed r then verification_verified else verification_failed).
  set (f1 := λ x, if blob_row (blob_workspaceId b) (blob_id b) x then with_verification st x else x).
  assert (∀ x, x ∈ vdb_blobs d → blob_id x ≠ blob_id b → f1 x = x) as Hother.
  { intros x _ Hne. unfold f1, blob_row. by rewrite (bool_decide_eq_false_2 (blob_id x = blob_id b)), andb_false_r. }
  assert (f1 b = with_verification st b) as Hself by (unfold f1, blob_row; by rewrite !strict_eq_refl).
  assert (∀ x, blob_id (f1 x) = blob_id x) as Hids by (intros x; unfold f1; by destruct (blob_row _ _ x)).
  destruct (IH (map_blobs f1 d)) as (rs & f2 & HR & Hlen & Hrs & Hsers & Hm2).
  { unfold blob_keys. cbn. rewrite map_map. erewrite map_ext; [exact Hk|exact Hids]. }
  { done. }
  { intros b' Hb'. destruct (Hall b') as [Hin Hw]; [by apply list_elem_of_further|]. split; [|done].
    cbn. apply list_elem_of_fmap. exists b'. split; [|done]. symmetry. apply Hother; [done|].
    intros E. apply Hnew. rewrite <- E. apply list_elem_of_fmap. by exists b'. }
  exists (r :: rs), (λ x, f2 (f1 x)). split_and!.
  - cbn [verify_blobs]. erewrite bind_Ok_run; [|unfold on_store; cbn; by rewrite HV].
    erewrite bind_Ok_run; [|unfold on_db; cbn [fst snd]; fold st; by rewrite (setBlobVerification_run _ _ st Hk Hb)].
    erewrite bind_Ok_run; [|exact HR]. unfold map_blobs. cbn. by rewrite map_map.
  - cbn. by rewrite Hlen.
  - cbn [flat_map]. rewrite app_nil_iff, Hiss, Hrs. setoid_rewrite elem_of_cons. naive_solver.
  - cbn [flat_map]. apply Forall_app. by split.
  - intros x Hx. cbn [map]. destruct (decide (blob_id x = blob_id b)) as [E|Hne].
    + assert (x = b) as -> by (apply (index_unique blob_id (vdb_blobs d)); [exact Hk|done..]).
      rewrite decide_True by apply list_elem_of_here.
      specialize (Hm2 (f1 b)). rewrite Hids, decide_False in Hm2 by done.
      rewrite Hm2 by (cbn; apply list_elem_of_fmap; by exists b). rewrite Hself. split; [by exists st|].
      unfold marked, st. cbn. change (blob_matches level s (with_verification _ b)) with (blob_matches level s b).
      destruct (result_passed r); [left|right]; (split; [done|]); [by apply Hiss, Hpass|].
      intros Hbm. apply Hiss, Hpass in Hbm. done.
    + specialize (Hm2 x). rewrite Hother by done.
      assert (x ∈ vdb_blobs (map_blobs f1 d)) as Hx1
        by (cbn; apply list_elem_of_fmap; exists x; split; [by rewrite Hother|done]).
      specialize (Hm2 Hx1). destruct (decide (blob_id x ∈ map blob_id blobs)).
      * rewrite decide_True by (by apply list_elem_of_further). done.
      * rewrite decide_False by (rewrite elem_of_cons; naive_solver). done.
Qed.

Lemma insert_row_perm {A} (leb : A → A → bool) x l : insert_row leb x l ≡ₚ x :: l.
Proof. induction l as [|y l IH]; cbn; [done|]. destruct (leb x y); [done|]. rewrite IH. apply perm_swap. Qed.

Lemma order_by_perm {A} (leb : A → A → bool) l : order_by leb l ≡ₚ l.
Proof. induction l as [|x l IH]; cbn; [done|]. by rewrite insert_row_perm, IH. Qed.

Lemma elem_of_blobs_of w d b : b ∈ blobs_of w d ↔ b ∈ vdb_blobs d ∧ blob_workspaceId b = w.
Proof. unfold blobs_of. rewrite order_by_perm, List_filter_elem, bool_decide_eq_true. done. Qed.

Lemma NoDup_map_filter {A} (f : A → string) (p : A → bool) l : NoDup (map f l) → NoDup (map f (List.filter p l)).
Proof.
  induction l as [|x l IH]; cbn; [done|]. intros [Hn Hnd]%NoDup_cons. destruct (p x); [|by apply IH].
  cbn. apply NoDup_cons. split; [|by apply IH]. intros Hin. apply Hn. apply list_elem_of_fmap in Hin as (y & -> & Hy).
  apply List_filter_elem in Hy as [Hy _]. apply list_elem_of_fmap. by exists y.
Qed.

Lemma NoDup_order_by {A} (f : A → string) leb (p : A → bool) l :
  NoDup (map f l) → NoDup (map f (order_by leb (List.filter p l))).
Proof.
  intros Hnd. eapply (NoDup_Permutation_proper _ (map f (List.filter p l))); [|by apply NoDup_map_filter].
  apply Permutation_map, order_by_perm.
Qed.

Lemma status_serious l : all_serious l → status_of l = match l with [] => status_passed | _ => status_failed end.
Proof. intros Hs. unfold status_of. destruct Hs as [|i l Hi _]; [done|]. cbn. by rewrite Hi. Qed.

Lemma recordRun_fresh run d :
  existsb (λ r, run_id r === run_id run) (vdb_runs d) = false →
  ∃ d', recordRun run d = (Ok tt, d') ∧ vdb_blobs d' = vdb_blobs d ∧ vdb_runs d' = vdb_runs d ++ [run].
Proof. intros Hf. unfold recordRun. run. rewrite Hf. by eexists. Qed.

Lemma on_db_gets {A B} (g : VerificationDb → A) (f : A → M (S * VerificationDb) string B) s d :
  (on_db (gets g) ≫= f) (s, d) = f (g d) (s, d).
Proof. done. Qed.

Definition fresh_run d (id : string) : Prop := existsb (λ r, run_id r === id) (vdb_runs d) = false.

(** A blob verification run is exact.  On an existing workspace, with
    primary keys distinct and a new run identifier, it always completes, leaves
    the object store alone and records itself.  It passes exactly when there is
    at least one blob and the store reports for every blob of the workspace the
    catalogued length and, if any, SHA-256, and at the full level streams bytes of
    that length and digest; it is degraded exactly when there is no blob at all;
    otherwise it fails.  Afterwards every blob of the workspace is marked by
    whether it matches. *)
Theorem blob_run_exact startedAt completedAt id w level s d :
  blob_keys d → w ∈ vdb_workspaces d → fresh_run d id →
  ∃ run d', run_blob_verification error_message startedAt completedAt id checkedAt w level (s, d) = (Ok run, (s, d')) ∧
    vdb_runs d' = vdb_runs d ++ [run] ∧
    (run_status run = status_passed ↔ blobs_of w d ≠ [] ∧ ∀ b, b ∈ blobs_of w d → blob_matches level s b) ∧
    (run_status run = status_degraded ↔ blobs_of w d = []) ∧
    (∀ b, b ∈ vdb_blobs d' → blob_workspaceId b = w → marked level s b).
Proof.
  intros Hk Hw Hfresh.
  destruct (verify_blobs_spec w level (blobs_of w d) s d) as (results & f & HR & Hlen & Hrs & Hser & Hm).
  { done. } { by apply NoDup_order_by. } { intros b Hb. by apply elem_of_blobs_of in Hb. }
  unfold run_blob_verification.
  assert (array_includes (vdb_workspaces d) w = true) as Hex by (by apply bool_decide_eq_true).
  unfold workspaceExists, listBlobs. rewrite on_db_gets, throw_when_bind, Hex. cbn [negb].
  rewrite on_db_gets, (bind_Ok_run _ _ _ _ _ HR).
  match goal with |- context [on_db (recordRun ?r)] => set (run := r) end.
  destruct (recordRun_fresh run (map_blobs f d) Hfresh) as (d' & Hrec & Hblobs & Hruns).
  exists run, d'. split_and!.
  - erewrite bind_Ok_run; [done|]. unfold on_db. cbn. by rewrite Hrec.
  - exact Hruns.
  - cbn. rewrite <- Hrs. destruct (blobs_of w d) as [|b bs] eqn:Hb; [split; [done|by intros [? _]]|].
    rewrite status_serious by done. destruct (flat_map result_issues results); naive_solver.
  - cbn. destruct (blobs_of w d) as [|b bs] eqn:Hb; [done|].
    rewrite status_serious by done. by destruct (flat_map result_issues results).
  - intros b Hb Hbw. rewrite Hblobs in Hb. cbn in Hb. apply list_elem_of_fmap in Hb as (x & -> & Hx).
    specialize (Hm x Hx). assert (blob_workspaceId x = w) as Hxw.
    { destruct (decide (blob_id x ∈ map blob_id (blobs_of w d))) as [Hin|_]; [|by rewrite Hm in Hbw].
      destruct Hm as [[st Hf] _]. by rewrite Hf in Hbw. }
    rewrite decide_True in Hm; [by apply Hm|]. apply list_elem_of_fmap. exists x. split; [done|].
    by apply elem_of_blobs_of.
Qed.

Context (isUrl : string → bool).

(** What a structural run requires of the data it covers. *)
Definition structural_ok (level : StructuralVerificationLevel) (snapshot : VerificationSnapshot)
    (selected : SelectedScope) s : Prop :=
  sel_scopeIssues selected = [] ∧
  (∀ ds, ds ∈ sel_datasets selected → dataset_ok (snap_schemaPackages snapshot) ds) ∧
  (∀ r, r ∈ sel_resources selected → resource_ok isUrl (snap_schemaPackages snapshot) selected r) ∧
  (∀ ref, ref ∈ selected_references snapshot selected →
     ∃ b, b ∈ snap_blobs snapshot ∧ blob_id b = ref_blobObjectId ref) ∧
  (∀ b, b ∈ selected_blobs level snapshot selected → reported s b) ∧
  (∀ r, r ∈ sel_relations selected → relation_ok snapshot r) ∧
  (∀ t, t ∈ sel_tombstones selected → tombstone_ok snapshot t) ∧
  (level = structural_workspace → workspace_ok snapshot).

Lemma reference_issues_spec snapshot ref :
  reference_issues snapshot ref = [] ↔ ∃ b, b ∈ snap_blobs snapshot ∧ blob_id b = ref_blobObjectId ref.
Proof.
  unfold reference_issues. destruct (existsb _ _) eqn:He.
  - split; [|done]. intros _. apply existsb_elem in He as (b & Hb & He). to_prop. by exists b.
  - split; [done|]. intros (b & Hb & E). rewrite existsb_false_elem in He. specialize (He b Hb).
    by rewrite bool_decide_eq_false in He.
Qed.

Lemma sel_revisions_NoDup snapshot scope :
  NoDup (map revision_id (snap_revisions snapshot)) →
  NoDup (map revision_id (sel_revisions (selectScope snapshot scope))).
Proof.
  intros Hnd. unfold selectScope. destruct (negb _); [constructor|].
  destruct (scope_kind scope); cbn; try case_match; cbn; (constructor || by apply NoDup_map_filter || done).
Qed.

Lemma selected_blobs_known level w d selected b :
  b ∈ selected_blobs level (snapshot_of w d) selected → b ∈ vdb_blobs d ∧ blob_workspaceId b = w.
Proof.
  unfold selected_blobs. case_match; [apply elem_of_blobs_of|].
  intros [Hb _]%List_filter_elem. by apply elem_of_blobs_of.
Qed.

Lemma selected_blobs_NoDup level w d selected :
  blob_keys d → NoDup (map blob_id (selected_blobs level (snapshot_of w d) selected)).
Proof.
  intros Hk. assert (NoDup (map blob_id (snap_blobs (snapshot_of w d)))) as Hs by (by apply NoDup_order_by).
  unfold selected_blobs. case_match; [done|by apply NoDup_map_filter].
Qed.

(** C15. A structural verification run is exact.  With a scope that fits its
    level, primary keys distinct and a new run identifier, it always completes,
    leaves the object store alone and records itself.  It passes exactly when
    the data in scope is consistent: the scope exists; every dataset's schema
    package resolves and is not revoked; every resource's head resolves and its
    revisions stay in scope, have distinct numbers and follow smaller-numbered
    parents, every payload being valid for its resource type under the schema
    version it names; every blob reference resolves and of every blob checked the
    storage reports the key, the length and, where it reports one, the SHA-256 of
    the catalogue (the bytes are not read); every relation's endpoints resolve;
    every open tombstone is coherent; and, for a workspace, the audit chain
    verifies and no blob is unreferenced.  The blobs checked are marked by
    whether what is reported of them matches. *)
Theorem structural_run_exact startedAt completedAt id w level scope sc s d :
  blob_keys d → NoDup (map revision_id (vdb_revisions d)) → fresh_run d id →
  resolveScope w level scope = Ok sc →
  let snapshot := snapshot_of w d in
  let selected := selectScope snapshot sc in
  ∃ run d', run_structural_verification isUrl error_message startedAt completedAt id checkedAt w level scope (s, d)
      = (Ok run, (s, d')) ∧
    vdb_runs d' = vdb_runs d ++ [run] ∧
    (run_status run = status_passed ↔ structural_ok level snapshot selected s) ∧
    (∀ b, b ∈ vdb_blobs d' → blob_id b ∈ map blob_id (selected_blobs level snapshot selected) →
       (blob_verificationState b = verification_verified ∧ reported s b) ∨ (blob_verificationState b = verification_failed ∧ ¬ reported s b)).
Proof.
  intros Hk Hrev Hfresh Hsc snapshot selected.
  destruct (verify_blobs_spec w blob_metadata (selected_blobs level snapshot selected) s d)
    as (results & f & HR & Hlen & Hrs & _ & Hm).
  { done. } { by apply selected_blobs_NoDup. } { intros b. apply selected_blobs_known. }
  assert (∀ r, NoDup (map revision_id (own_revisions selected r))) as Hown.
  { intros r. apply NoDup_map_filter, sel_revisions_NoDup. by apply NoDup_order_by. }
  unfold run_structural_verification. rewrite lift_bind, Hsc. unfold loadSnapshot. rewrite on_db_gets.
  fold snapshot. fold selected. rewrite (bind_Ok_run _ _ _ _ _ HR).
  match goal with |- context [on_db (recordRun ?r)] => set (run := r) end.
  destruct (recordRun_fresh run (map_blobs f d) Hfresh) as (d' & Hrec & Hblobs & Hruns).
  exists run, d'. split_and!.
  - erewrite bind_Ok_run; [done|]. unfold on_db. cbn [fst snd]. by rewrite Hrec.
  - exact Hruns.
  - unfold run, makeRun. cbn [run_status]. rewrite status_passed_iff, !app_nil_iff, !flat_map_nil.
    rewrite flat_map_nil in Hrs. rewrite Hrs. unfold structural_ok. setoid_rewrite metadata_level.
    setoid_rewrite dataset_issues_spec. setoid_rewrite reference_issues_spec.
    setoid_rewrite verifyRelation_spec. setoid_rewrite verifyTombstone_spec.
    assert ((∀ r, r ∈ sel_resources selected → resource_issues isUrl (snap_schemaPackages snapshot) selected r = []) ↔
      ∀ r, r ∈ sel_resources selected → resource_ok isUrl (snap_schemaPackages snapshot) selected r) as ->.
    { split; intros Hx r Hr; apply resource_issues_spec; auto. }
    assert (((if level === structural_workspace then workspace_issues w snapshot else []) = []) ↔
      (level = structural_workspace → workspace_ok snapshot)) as ->; [|tauto].
    case_bool_decide as Hl; [|naive_solver]. rewrite workspace_issues_spec. tauto.
  - intros b Hb Hin. rewrite Hblobs in Hb. cbn in Hb. apply list_elem_of_fmap in Hb as (x & -> & Hx).
    specialize (Hm x Hx). case_decide as Hd; [|by rewrite Hm in Hin]. destruct Hm as [_ Hm]. unfold marked in Hm.
    by rewrite !metadata_level in Hm.
Qed.
End Runs.

(** ** Histories pass the revision-graph check *)

Section HistoryGraphs.
Context `{JsDate} `{Crypto} (localeLe : string → string → bool).

(** Every history the service can produce passes verification.  After any
    sequence of create, delete and restore calls, [verifyResourceGraph] reports
    nothing for any resource, in whatever order the revisions are listed. *)
Theorem histories_verify h h' rid res revisions :
  hist_ok localeLe h → rtc (history_step localeLe) h h' → h_resources h' !! rid = Some res →
  revisions ≡ₚ (map_to_list (h_revisions h')).*2 → verifyResourceGraph res revisions = [].
Proof.
  intros Hok0 HR Hres Hperm. destruct (history_steps_extend _ _ _ Hok0 HR) as [Hok _].
  destruct (ok_heads _ _ Hok _ _ Hres) as [Hrid Hhead].
  assert (∀ r, r ∈ revisions ↔ h_revisions h' !! revision_id r = Some r) as Hall.
  { intros r. rewrite Hperm, list_elem_of_fmap. split.
    - intros ([id r'] & -> & Hx%elem_of_map_to_list). cbn. by rewrite (ok_ids _ _ Hok _ _ Hx).
    - intros Hx. exists (revision_id r, r). split; [done|]. by apply elem_of_map_to_list. }
  assert (NoDup (map revision_id revisions)) as Hnd.
  { eapply NoDup_Permutation_proper; [by apply Permutation_map, Hperm|].
    assert (map revision_id (map_to_list (h_revisions h')).*2 = (map_to_list (h_revisions h')).*1) as ->.
    { change (map revision_id (map_to_list (h_revisions h')).*2) with (revision_id <$> (map_to_list (h_revisions h')).*2).
      rewrite <- list_fmap_compose. apply list_fmap_ext. intros i [id r] Hx%list_elem_of_lookup_2. cbn.
      apply elem_of_map_to_list in Hx. by apply (ok_ids _ _ Hok _ _ Hx). }
    apply NoDup_fst_map_to_list. }
  apply verifyResourceGraph_spec; [by apply NoDup_map_filter|].
  set (own := List.filter _ revisions).
  assert (∀ r, r ∈ own ↔ revisions_of h' rid r) as Hown.
  { intros r. unfold own. rewrite List_filter_elem, Hall, bool_decide_eq_true. unfold revisions_of. by rewrite Hrid. }
  split_and!.
  - intros c Hc _. unfold head_ok in Hhead. rewrite Hc, Hrid in Hhead. destruct Hhead as (_ & r & Hr & Hin & _).
    exists r. by rewrite Hown.
  - apply Forall_forall. intros r Hr%Hown. split; by eapply (ok_scope _ _ Hok).
  - apply NoDup_fmap_2_strong; [|apply (NoDup_fmap_1 revision_id); by apply NoDup_map_filter].
    intros x y Hx%Hown Hy%Hown. by eapply (ok_numbers _ _ Hok).
  - apply Forall_forall. intros r Hr%Hown. destruct Hr as [Hin Hrr].
    destruct (ok_links _ _ Hok _ _ Hin) as [[Hp Hn]|(p & Hp & Hpin & Hpr & Hge & Hn)]; split; try lia; try done.
    intros _. exists p. split_and!; [done|by eapply (ok_named _ _ Hok)| |lia]. apply Hown. split; [done|congruence].
Qed.
End HistoryGraphs.

(** ** Concrete runs *)
Module VerificationWitness.
Import MemoryWitness.

Definition blob (id key : string) : BlobObject :=
  mkBlob id "ws-1" digest 13 "text/plain" "memory" key provider_managed None verification_pending "1" None None.
Definition message (_ : storage_exn) : string := "storage error".
Definition db (blobs : list BlobObject) : VerificationDb := mkVDb ["ws-1"] [] [] [] blobs [] [] [] [] [] [].
Definition store : MemoryObjectStorage := committed.

Definition status_after (r : result string VerificationRun * (MemoryObjectStorage * VerificationDb)) : VerificationStatus :=
  match fst r with Ok run => run_status run | Err _ => status_running end.

(** One blob matches the store, the other's object is missing. *)
Lemma blob_run_exact_witness :
  (∀ b, b ∈ blobs_of "ws-1" (db [blob "b-1" key]) → blob_matches blob_full store b) ∧
  status_after (run_blob_verification message "1" "2" "run-1" (λ _, "1") "ws-1" blob_full
    (store, db [blob "b-1" key; blob "b-2" "elsewhere"])) = status_failed.
Proof.
  split; [|vm_compute; reflexivity].
  destruct (blob_run_exact message (λ _, "1") "1" "2" "run-1" "ws-1" blob_full store (db [blob "b-1" key]))
    as (run & d' & HR & _ & Hpass & _).
  - apply (bool_decide_unpack _). vm_compute. exact I.
  - apply list_elem_of_here.
  - reflexivity.
  - apply Hpass. assert (status_after (run_blob_verification message "1" "2" "run-1" (λ _, "1") "ws-1" blob_full
      (store, db [blob "b-1" key])) = status_passed) as Hs by (vm_compute; reflexivity). rewrite HR in Hs. exact Hs.
Defined.

Definition note : Resource :=
  mkResource "res-1" "ws-1" "ds-1" "Note" None active (Some "rev-1") "alice" "1" "1".
Definition note_revision (title : json) : Revision :=
  mkRevision "rev-1" "ws-1" "ds-1" "res-1" 1 None [] "pkg-1" "1.0.0" [("title", title)] "" "alice" None source_user
    None None "1".
Definition workspace (title : json) : VerificationDb :=
  mkVDb ["ws-1"] [mkDataset "ds-1" "ws-1" "pkg-1" "notes" "Notes" active None "alice" "1" "1"] [note]
    [note_revision title] [blob "b-1" key] [mkReference "ref-1" "ws-1" "rev-1" "b-1" "attachment"]
    [mkRelation "rel-1" "ws-1" "ds-1" kind_resource "res-1" kind_blob "b-1" "has" [] "alice" "1" None] []
    [appendAuditEvent (mkAuditBody "e-1" "ws-1" "user" "alice" "note.created" "resource" "res-1" "1" "q" "c" JNull) ""]
    [mkVPackage "pkg-1" "1.0.0" SchemaWitness.v1 package_active] [].
Definition verify_workspace (title : json) :=
  run_structural_verification (λ _, true) message "1" "2" "run-1" (λ _, "1") "ws-1" structural_workspace None
    (store, workspace title).

(** A consistent workspace passes; with a payload its schema rejects it fails. *)
Lemma structural_run_exact_witness :
  structural_ok (λ _, true) structural_workspace (snapshot_of "ws-1" (workspace (JString "Hello")))
    (selectScope (snapshot_of "ws-1" (workspace (JString "Hello"))) (mkScope scope_workspace "ws-1")) store ∧
  status_after (verify_workspace (JNumber 3)) = status_failed.
Proof.
  split; [|vm_compute; reflexivity].
  destruct (structural_run_exact message (λ _, "1") (λ _, true) "1" "2" "run-1" "ws-1" structural_workspace None
    (mkScope scope_workspace "ws-1") store (workspace (JString "Hello"))) as (run & d' & HR & _ & Hpass & _).
  - apply (bool_decide_unpack _). vm_compute. exact I.
  - apply (bool_decide_unpack _). vm_compute. exact I.
  - reflexivity.
  - reflexivity.
  - apply Hpass. assert (status_after (verify_workspace (JString "Hello")) = status_passed) as Hs
      by (vm_compute; reflexivity). unfold verify_workspace in Hs. rewrite HR in Hs. exact Hs.
Defined.

Import HistoryWitness.
Lemma histories_verify_witness :
  ∃ res, h_resources db4 !! "res-1" = Some res ∧ verifyResourceGraph res (map_to_list (h_revisions db4)).*2 = [].
Proof.
  destruct (h_resources db4 !! "res-1") as [res|] eqn:Hres.
  - exists res. split; [reflexivity|].
    exact (histories_verify String.leb db0 db4 "res-1" res _ db0_ok db_steps Hres (reflexivity _)).
  - exfalso. apply (f_equal (λ o : option Resource, bool_decide (is_Some o))) in Hres. vm_compute in Hres. discriminate Hres.
Defined.

(** Two events appended at the same instant, the second with the smaller
    identifier: each is chained to the newest event by time and identifier, yet
    read back in that order the log does not verify. *)
Theorem same_instant_breaks_chain :
  let record id d := snd (appendAudit (mkAuditIds id "q" "c")
    (mkHistoryAudit "ws-1" "ds-1" "alice" "note.edited" "res-1" "7" JNull) d) in
  let log := map audit_event (h_audit (record "a-1" (record "b-1" db0))) in
  length log = 2 ∧ verifyAuditChain log = true ∧ verifyAuditChain (order_by event_before log) = false.
Proof. vm_compute. done. Qed.
End VerificationWitness.
