(* ===== verification/Archive.v ===== *)
(** * Portable archives: paths, assembly and verification

    [packages/archive]: the record kinds ([types.ts]), safe paths ([paths.ts]),
    the assembly of an export into a set of entries ([assemble.ts]) and the
    verification of a set of entries ([verify.ts]).

    An archive is a [Map] from path to bytes, an association list in insertion
    order.  A record of an export is an object, the list of its own entries; what
    verification parses is any JSON value, so reading a property of it can throw
    a [TypeError], which the model keeps.  Verification is a program over the
    list of issues it pushes to.  [TextEncoder]/[TextDecoder] are the class
    [TextCodec], [localeCompare] is the order [localeLe].

    The theorem of this file is tamper evidence: two archives that both verify
    and carry the same checksum file agree on every entry outside [signatures/],
    a collision of the digest apart. *)
From S2P Require Import Prelude Js Json JsonParse.
#[local] Arguments String.append !s1 s2 /.

(** ** Platform: text encoding, splitting, trimming *)

(** [new TextEncoder().encode] and [new TextDecoder("utf-8", { fatal: true }).decode],
    [None] when it throws. *)
Class TextCodec := {
  encode : string → string;
  decode : string → option string;
}.
Class TextCodecLaws `{TextCodec} := {
  decode_encode s : decode (encode s) = Some s;
}.

(** [s.split(c)] *)
Fixpoint split (c : ascii) (s : string) : list string :=
  match s with
  | EmptyString => [EmptyString]
  | String x s' =>
      if x === c then EmptyString :: split c s'
      else match split c s' with
           | p :: ps => String x p :: ps
           | [] => [String x EmptyString]
           end
  end.

(** [s.trimEnd()] *)
Definition trimEnd (s : string) : string :=
  string_of_list_ascii (rev (drop_while is_space (rev (chars s)))).

Definition NL : ascii := ascii_of_nat 10.
Definition nl : string := String NL EmptyString.

(** [[...xs].sort((a, b) => key(a).localeCompare(key(b)))] *)
Definition sort_by {A} (leb : string → string → bool) (key : A → string) (xs : list A) : list A :=
  (sort_keys leb (map (λ x, (key x, x)) xs)).*2.

(** ** Reading JSON values

    [v.name] of an object finds an own property; of a number, string, boolean or
    array it is [undefined] for every name the sources use; of [null] it throws. *)
Inductive js_error : Type := TypeError | Thrown.

Definition js_prop (v : json) (name : string) : option json :=
  match v with JObject l => obj_get l name | _ => None end.

(** [a === b] on JSON values or [undefined]; two objects are two references. *)
Definition js_same (a b : option json) : bool :=
  match a, b with
  | None, None => true
  | Some JNull, Some JNull => true
  | Some (JBool x), Some (JBool y) => x === y
  | Some (JNumber x), Some (JNumber y) => x === y
  | Some (JString x), Some (JString y) => x === y
  | _, _ => false
  end.

Definition as_string (v : option json) : option string :=
  match v with Some (JString s) => Some s | _ => None end.

(** [v ?? d] *)
Definition or_else (v : option json) (d : json) : json :=
  match v with None | Some JNull => d | Some x => x end.

(** ** types.ts *)

(** Source: packages/archive/src/types.ts:15-15 ArchiveRecordKind *)
Inductive ArchiveRecordKind : Type :=
  | workspaces | schema_packages | datasets | resources | revisions | revision_blobs
  | blobs | relations | tombstones | audit_events | retention.
#[global] Instance ArchiveRecordKind_eq_dec : EqDecision ArchiveRecordKind.
Proof. solve_decision. Defined.

(** Source: packages/archive/src/types.ts:1-13 archiveRecordKinds *)
Definition archiveRecordKinds : list ArchiveRecordKind :=
  [workspaces; schema_packages; datasets; resources; revisions; revision_blobs; blobs; relations;
   tombstones; audit_events; retention].

Definition kind_name (k : ArchiveRecordKind) : string :=
  match k with
  | workspaces => "workspaces" | schema_packages => "schema-packages" | datasets => "datasets"
  | resources => "resources" | revisions => "revisions" | revision_blobs => "revision-blobs"
  | blobs => "blobs" | relations => "relations" | tombstones => "tombstones"
  | audit_events => "audit-events" | retention => "retention"
  end.

(** Source: packages/archive/src/types.ts:16-16 ArchiveRecord *)
Definition ArchiveRecord : Type := list (string * json).

(** Source: packages/archive/src/types.ts:18-22 ArchiveBlobInput *)
Record ArchiveBlobInput := mkBlobInput {
  input_sha256 : string;
  input_byteLength : Z;
  input_bytes : string;
}.

(** Source: packages/archive/src/types.ts:24-35 ArchiveSource *)
Record ArchiveSource := mkSource {
  source_exportId : string;
  source_workspaceId : string;
  source_datasetIds : list string;
  source_createdAt : string;
  source_createdBy : string;
  source_sourceVersion : string;
  source_records : list (ArchiveRecordKind * list ArchiveRecord);
  source_blobs : option (list ArchiveBlobInput);
}.

Definition Entries : Type := list (string * string).

(** Source: packages/archive/src/types.ts:107-111 ArchiveIssue *)
Record ArchiveIssue := mkIssue {
  issue_code : string;
  issue_path : option string;
  issue_message : string;
}.
#[global] Instance ArchiveIssue_eq_dec : EqDecision ArchiveIssue.
Proof. solve_decision. Defined.

(** Source: packages/archive/src/types.ts:113-121 ArchiveVerificationReport *)
Record ArchiveVerificationReport := mkReport {
  report_valid : bool;
  report_checkedEntries : Z;
  report_issues : list ArchiveIssue;
  report_manifest : option json;
  report_records : list (ArchiveRecordKind * list json);
}.

(** Source: packages/archive/src/types.ts:131-133 ParsedTrustArchive *)
Record ParsedTrustArchive := mkParsed {
  parsed_entries : Entries;
  parsed_manifest : json;
  parsed_verification : ArchiveVerificationReport;
}.

(** ** paths.ts *)

Definition is_letter (c : ascii) : bool := is_lower c || is_upper c.
(** [/[\u0000-\u001f\u007f]/] *)
Definition is_control (c : ascii) : bool := in_range 0 31 c || in_range 127 127 c.

(** Source: packages/archive/src/paths.ts:3-21 assertSafeArchivePath *)
Definition assertSafeArchivePath (path : string) : result js_error unit :=
  throw_if ((path === EmptyString) || Nat.ltb 512 (String.length path) || startsWith path "/" ||
            startsWith path (String BACKSLASH EmptyString) ||
            match path with String c (String d _) => is_letter c && (d === ":"%char) | _ => false end ||
            includes path (String BACKSLASH EmptyString) || existsb is_control (chars path)) Thrown ≫= λ _,
  let segments := split "/" path in
  throw_if (existsb (λ s, (s === EmptyString) || (s === ".") || (s === "..")) segments) Thrown.

(** Source: packages/archive/src/paths.ts:23-26 blobArchivePath *)
Definition blobArchivePath (digest : string) : result js_error string :=
  throw_if (negb (SHA256_PATTERN digest)) Thrown ≫= λ _,
  mret ("blobs/" +:+ slice0 2 digest +:+ "/" +:+ digest).

Definition MANIFEST : string := "manifest.json".
Definition CHECKSUMS : string := "checksums/sha256sums.txt".
Definition SIGNATURES : string := "signatures/".
Definition record_path (kind : ArchiveRecordKind) : string := "records/" +:+ kind_name kind +:+ ".jsonl".
Definition README : string :=
  "Trust Core portable archive" +:+ nl +:+ "Verify checksums before reading or importing records." +:+ nl.

(** A step of verification: pushes issues, may throw. *)
Abbreviation V := (M (list ArchiveIssue) js_error).

Section Archive.
Context `{Crypto} `{TextCodec}.

(** [${sha256(bytes)}  ${path}] *)
Definition checksum_line (entry : string * string) : string := sha256 entry.2 +:+ "  " +:+ entry.1.

(** ** assemble.ts *)

Section Assemble.
Context (localeLe : string → string → bool).

(** Source: packages/archive/src/assemble.ts:97-105 add *)
Definition add (entries : Entries) (path bytes : string) : result js_error Entries :=
  assertSafeArchivePath path ≫= λ _,
  throw_if (bool_decide (is_Some (map_get path entries))) Thrown ≫= λ _,
  mret (map_set path bytes entries).

(** Source: packages/archive/src/assemble.ts:107-112 compareRecords *)
Definition record_key (r : ArchiveRecord) : string :=
  from_option id (canonicalJson (JObject r)) (as_string (obj_get r "id")).

(** Source: packages/archive/src/assemble.ts:71-95 auditLineage *)
Definition auditLineage (source : ArchiveSource) : json :=
  let events := default [] (map_get audit_events (source_records source)) in
  let hashes := omap (λ e, as_string (obj_get e "eventHash")) events in
  let referenced := omap (λ e, as_string (obj_get e "previousEventHash")) events in
  let first := List.find (λ e, match obj_get e "previousEventHash" with
                               | None | Some JNull => true | _ => false end) events in
  JObject [("mode", JString "source_chain");
           ("sourceWorkspaceId", JString (source_workspaceId source));
           ("eventCount", JNumber (Z.of_nat (length events)));
           ("firstEventHash", or_else (first ≫= λ e, obj_get e "eventHash") JNull);
           ("lastEventHash", from_option JString JNull
              (List.find (λ h, negb (array_includes referenced h)) hashes))].

Fixpoint add_blobs (bs : list ArchiveBlobInput) (entries : Entries) : result js_error Entries :=
  match bs with
  | [] => mret entries
  | b :: bs =>
      throw_if (Z.of_nat (String.length (input_bytes b)) !== input_byteLength b) Thrown ≫= λ _,
      throw_if (sha256 (input_bytes b) !== input_sha256 b) Thrown ≫= λ _,
      blobArchivePath (input_sha256 b) ≫= λ path,
      add entries path (input_bytes b) ≫= add_blobs bs
  end.

(** One record file: the records sorted, a line each. *)
Definition record_lines (records : list ArchiveRecord) : string :=
  join nl (map (λ r, canonicalJson (JObject r)) (sort_by localeLe record_key records)).

Fixpoint add_records (source : ArchiveSource) (kinds : list ArchiveRecordKind) (entries : Entries) :
    result js_error Entries :=
  match kinds with
  | [] => mret entries
  | kind :: kinds =>
      match default [] (map_get kind (source_records source)) with
      | [] => add_records source kinds entries
      | records => add entries (record_path kind) (encode (record_lines records +:+ nl)) ≫=
                   add_records source kinds
      end
  end.

Definition source_manifest (source : ArchiveSource) (bs : list ArchiveBlobInput) : json :=
  JObject [("format", JString "trustarchive"); ("formatVersion", JString "0.2");
           ("exportId", JString (source_exportId source));
           ("workspaceId", JString (source_workspaceId source));
           ("datasetIds", JArray (map JString (js_sort (source_datasetIds source))));
           ("createdAt", JString (source_createdAt source));
           ("createdBy", JString (source_createdBy source));
           ("sourceVersion", JString (source_sourceVersion source));
           ("checksumAlgorithm", JString "sha256");
           ("canonicalJsonProfile", JString "trust-core-canonical-json-v1");
           ("signatureProfile", JString "unsigned");
           ("auditLineage", auditLineage source);
           ("recordCounts", JObject (map (λ kind, (kind_name kind,
              JNumber (Z.of_nat (length (default [] (map_get kind (source_records source))))))) archiveRecordKinds));
           ("blobCount", JNumber (Z.of_nat (length bs)));
           ("totalBlobBytes", JNumber (fold_left (λ t b, t + input_byteLength b)%Z bs 0%Z))].

(** The checksum file over a set of entries. *)
Definition checksum_text (entries : Entries) : string :=
  join nl (map checksum_line (sort_by localeLe fst entries)) +:+ nl.

(** Source: packages/archive/src/assemble.ts:14-69 assembleArchiveEntries *)
Definition assembleArchiveEntries (source : ArchiveSource) : result js_error (Entries * json) :=
  let bs := sort_by localeLe input_sha256 (default [] (source_blobs source)) in
  add_blobs bs [] ≫= λ entries,
  add_records source archiveRecordKinds entries ≫= λ entries,
  let manifest := source_manifest source bs in
  add entries MANIFEST (encode (canonicalJson manifest +:+ nl)) ≫= λ entries,
  add entries "README.txt" (encode README) ≫= λ entries,
  add entries CHECKSUMS (encode (checksum_text entries)) ≫= λ entries,
  mret (entries, manifest).
End Assemble.

(** ** verify.ts *)

(** Source: packages/archive/src/verify.ts:17-21 ArchiveVerificationLimits *)
Record ArchiveVerificationLimits := mkLimits {
  maxEntries : Z;
  maxEntryBytes : Z;
  maxTotalBytes : Z;
}.
(** Source: packages/archive/src/verify.ts:23-27 defaults *)
Definition defaults : ArchiveVerificationLimits := mkLimits 100000 (2 * 1024 * 1024 * 1024) (20 * 1024 * 1024 * 1024).



(** Source: packages/archive/src/verify.ts:492-499 issue *)
Definition issue (code message : string) (path : option string) : V unit :=
  modify (λ issues, issues ++ [mkIssue code (if truthy path then path else None) message])%list.

Definition when (b : bool) (m : V unit) : V unit := if b then m else mret tt.

(** [v.name] and ["name" in v] *)
Definition prop (v : json) (name : string) : V (option json) :=
  match v with JNull => throw TypeError | _ => mret (js_prop v name) end.
Definition has_prop (v : json) (name : string) : V bool :=
  match v with
  | JObject l => mret (bool_decide (is_Some (obj_get l name)))
  | JArray _ => mret false
  | _ => throw TypeError
  end.
(** [v.name] where [v] may be [undefined] too *)
Definition prop_opt (v : option json) (name : string) : V (option json) :=
  match v with None => throw TypeError | Some v => prop v name end.

(** [xs.map(f)] with a callback that may throw *)
Fixpoint map_each {A B} (f : A → V B) (xs : list A) : V (list B) :=
  match xs with
  | [] => mret []
  | x :: xs => f x ≫= λ y, map_each f xs ≫= λ ys, mret (y :: ys)
  end.

Definition sum_lengths (entries : Entries) : Z :=
  fold_left (λ t e, t + Z.of_nat (String.length e.2))%Z entries 0%Z.

(** The size and path checks of every entry. *)
(** Source: packages/archive/src/verify.ts:61-84 verifyArchiveEntriesBase *)
Definition check_limits (entries : Entries) (limits : ArchiveVerificationLimits) : V unit :=
  when (Z.ltb (maxEntries limits) (Z.of_nat (length entries)))
    (issue "ARCHIVE_ENTRY_LIMIT" "Archive contains too many entries." None) ≫= λ _,
  for_each (λ e,
    when (negb (is_Ok (assertSafeArchivePath e.1)))
      (issue "ARCHIVE_PATH_UNSAFE" "Archive path is unsafe." (Some e.1)) ≫= λ _,
    when (Z.ltb (maxEntryBytes limits) (Z.of_nat (String.length e.2)))
      (issue "ARCHIVE_ENTRY_TOO_LARGE" "Archive entry exceeds its size limit." (Some e.1))) entries ≫= λ _,
  when (Z.ltb (maxTotalBytes limits) (sum_lengths entries))
    (issue "ARCHIVE_TOTAL_TOO_LARGE" "Archive exceeds its total size limit." None).

(** [line.match(/^([a-f0-9]{64})  (.+)$/)]: the path and the digest. *)
Definition match_checksum (line : string) : option (string * string) :=
  let digest := slice0 64 line in
  if SHA256_PATTERN digest then
    match after (digest +:+ "  ") line with
    | Some path =>
        if (path !== EmptyString) && forallb (λ c, (c !== NL) && (c !== ascii_of_nat 13)) (chars path)
        then Some (path, digest) else None
    | None => None
    end
  else None.

Fixpoint checksum_lines (lines : list string) (result : list (string * string)) :
    V (list (string * string)) :=
  match lines with
  | [] => mret result
  | line :: lines =>
      match match_checksum line with
      | None => issue "ARCHIVE_CHECKSUM_FILE_INVALID" "Checksum line is invalid." None ≫= λ _,
                checksum_lines lines result
      | Some (path, digest) =>
          if negb (is_Ok (assertSafeArchivePath path))
          then issue "ARCHIVE_PATH_UNSAFE" "Checksummed path is unsafe." (Some path) ≫= λ _,
               checksum_lines lines result
          else when (bool_decide (is_Some (map_get path result)))
                 (issue "ARCHIVE_CHECKSUM_DUPLICATE" "Checksum path is duplicated." (Some path)) ≫= λ _,
               checksum_lines lines (map_set path digest result)
      end
  end.

(** Source: packages/archive/src/verify.ts:278-327 readChecksums *)
Definition readChecksums (entries : Entries) : V (list (string * string)) :=
  match map_get CHECKSUMS entries with
  | None => issue "ARCHIVE_CHECKSUM_FILE_MISSING" "Checksum file is missing." None ≫= λ _, mret []
  | Some bytes =>
      match decode bytes with
      | None => issue "ARCHIVE_CHECKSUM_FILE_INVALID" "Checksum file is invalid UTF-8." None ≫= λ _, mret []
      | Some text => checksum_lines (split NL (trimEnd text)) []
      end
  end.

(** The checksummed entries exist with their digests, and every entry but the
    checksum file and the signatures is checksummed. *)
(** Source: packages/archive/src/verify.ts:88-113 verifyArchiveEntriesBase *)
Definition check_checksums (entries : Entries) (checksums : list (string * string)) : V unit :=
  for_each (λ pe,
    match map_get pe.1 entries with
    | None => issue "ARCHIVE_ENTRY_MISSING" "Checksummed entry is missing." (Some pe.1)
    | Some bytes => when (sha256 bytes !== pe.2)
        (issue "ARCHIVE_CHECKSUM_INVALID" "Entry checksum does not match." (Some pe.1))
    end) checksums ≫= λ _,
  for_each (λ e,
    if (e.1 === CHECKSUMS) || startsWith e.1 SIGNATURES then mret tt
    else when (negb (bool_decide (is_Some (map_get e.1 checksums))))
      (issue "ARCHIVE_ENTRY_UNCHECKED" "Archive entry is not checksummed." (Some e.1))) entries.

(** Source: packages/archive/src/verify.ts:329-391 readManifest *)
Definition readManifest (entries : Entries) : V (option json) :=
  match map_get MANIFEST entries with
  | None => issue "ARCHIVE_MANIFEST_MISSING" "Manifest is missing." None ≫= λ _, mret None
  | Some bytes =>
      try_catch (
        match decode bytes ≫= JSON_parse with
        | None => throw Thrown
        | Some value =>
            prop value "format" ≫= λ format,
            let formatVersion := js_prop value "formatVersion" in
            throw_when (negb (js_same format (Some (JString "trustarchive"))) ||
              (negb (js_same formatVersion (Some (JString "0.2"))) &&
               negb (js_same formatVersion (Some (JString "0.3")))) ||
              negb (js_same (js_prop value "checksumAlgorithm") (Some (JString "sha256"))) ||
              negb (js_same (js_prop value "canonicalJsonProfile")
                      (Some (JString "trust-core-canonical-json-v1")))) Thrown ≫= λ _,
            let profile := js_prop value "signatureProfile" in
            let validUnsigned :=
              js_same formatVersion (Some (JString "0.2")) && js_same profile (Some (JString "unsigned")) in
            let validSigned :=
              js_same formatVersion (Some (JString "0.3")) &&
              match profile with
              | Some ((JObject _ | JArray _) as p) =>
                  js_same (js_prop p "name") (Some (JString "trust-core-manifest-signature-v1")) &&
                  js_same (js_prop p "algorithm") (Some (JString "Ed25519")) &&
                  match as_string (js_prop p "keyId") with
                  | Some keyId => Nat.ltb 0 (String.length keyId) | None => false end
              | _ => false
              end in
            if negb validUnsigned && negb validSigned
            then issue "ARCHIVE_SIGNATURE_PROFILE_UNKNOWN"
                   "Archive signature profile or algorithm is not supported." (Some MANIFEST) ≫= λ _, mret None
            else
              let lineage := js_prop value "auditLineage" in
              let mode := match lineage with None | Some JNull => None | Some l => js_prop l "mode" end in
              throw_when (negb (js_same mode (Some (JString "source_chain")))) Thrown ≫= λ _,
              prop_opt lineage "sourceWorkspaceId" ≫= λ sourceWorkspaceId,
              prop_opt lineage "eventCount" ≫= λ eventCount,
              throw_when (negb (js_same sourceWorkspaceId (js_prop value "workspaceId")) ||
                match eventCount with
                | Some (JNumber n) => negb (isSafe n) || Z.ltb n 0
                | _ => true
                end) Thrown ≫= λ _,
              when (decode bytes !== Some (canonicalJson value +:+ nl))
                (issue "ARCHIVE_MANIFEST_NON_CANONICAL"
                  "Manifest does not use the declared canonical JSON encoding." (Some MANIFEST)) ≫= λ _,
              mret (Some value)
        end)
      (λ _, issue "ARCHIVE_MANIFEST_INVALID" "Manifest is invalid or incompatible." None ≫= λ _, mret None)
  end.
End Archive.

(** ** Properties of a normalised object *)

Lemma obj_get_elem (l : list (string * json)) k v : NoDup (map fst l) → obj_get l k = Some v ↔ (k, v) ∈ l.
Proof.
  intros Hnd. unfold obj_get. split.
  - intros ([k' v'] & Hf & ->)%fmap_Some. apply find_Some_elem in Hf as [Hin Hk]. cbn in Hk. by apply bool_decide_eq_true in Hk as <-.
  - induction l as [|[k' v'] l IH]; [by intros ?%elem_of_nil|]. inversion Hnd as [|? ? Hn Hnd']; subst. cbn [List.find fst].
    intros [[= -> ->]|Hin]%elem_of_cons; [by rewrite strict_eq_refl|]. rewrite bool_decide_eq_false_2; [by apply IH|].
    intros <-. apply Hn. apply list_elem_of_fmap. by exists (k', v).
Qed.

Lemma obj_get_perm (l1 l2 : list (string * json)) k : NoDup (map fst l1) → l1 ≡ₚ l2 → obj_get l1 k = obj_get l2 k.
Proof.
  intros Hnd Hp. apply option_eq. intros v. rewrite !obj_get_elem by (try rewrite <- Hp; done). by rewrite Hp.
Qed.

Lemma js_prop_normalise l k :
  NoDup (map fst l) → js_prop (normalise String.leb (JObject l)) k = normalise String.leb <$> obj_get l k.
Proof.
  intros Hnd. cbn [normalise js_prop].
  rewrite (obj_get_perm _ (map (λ kv, (kv.1, normalise String.leb kv.2)) l)).
  - unfold obj_get. clear Hnd. induction l as [|[k' v] l IH]; cbn; [done|]. by case_bool_decide.
  - rewrite (sort_keys_perm String.leb), map_map. done.
  - apply sort_keys_perm.
Qed.

(** ** A text codec on which the theorems' hypotheses are exercised: UTF-8 of
    code units below U+0100. *)
Module Utf8.
Fixpoint utf8_encode (s : string) : string :=
  match s with
  | EmptyString => EmptyString
  | String c s' =>
      let n := nat_of_ascii c in
      if Nat.ltb n 128 then String c (utf8_encode s')
      else String (ascii_of_nat (192 + n / 64)) (String (ascii_of_nat (128 + n mod 64)) (utf8_encode s'))
  end.
Fixpoint utf8_decode (s : string) : option string :=
  match s with
  | EmptyString => Some EmptyString
  | String c s' =>
      let n := nat_of_ascii c in
      if Nat.ltb n 128 then String c <$> utf8_decode s'
      else match s' with
           | String d s'' =>
               let m := nat_of_ascii d in
               if (Nat.eqb n 194 || Nat.eqb n 195) && Nat.leb 128 m && Nat.ltb m 192
               then String (ascii_of_nat ((n - 192) * 64 + (m - 128))) <$> utf8_decode s'' else None
           | EmptyString => None
           end
  end.

#[export] Instance utf8 : TextCodec := {| encode := utf8_encode; decode := utf8_decode |}.
#[export] Instance utf8_laws : TextCodecLaws.
Proof.
  constructor. intros s. cbn. induction s as [|c s IH]; [done|].
  assert (utf8_decode (utf8_encode (String c s)) = String c <$> utf8_decode (utf8_encode s)) as ->; [|by rewrite IH].
  clear IH. destruct c as [[] [] [] [] [] [] [] []]; reflexivity.
Qed.
End Utf8.
