(* ===== verification/ArchiveLineage.v ===== *)
(** * The audit lineage of an archive

    [validateAuditLineage] of [packages/archive/src/verify.ts]: the exported
    audit events must form the one chain whose ends the manifest declares.  The
    theorem is that the check is exact: it pushes no issue precisely when the
    events can be put in an order in which the first has no predecessor, each
    other one names the hash of the event before it, all hashes are distinct
    SHA-256 digests, and the manifest names the first and the last.

    The [while] loop that follows predecessors from the last event takes fuel
    [length events + 2]: it stops at a hash it has visited, and every hash it
    visits but the last is the hash of an event. *)
From S2P Require Import Prelude Js Json JsonParse Archive.

(** [String(v)] *)
Fixpoint js_String (v : json) : string :=
  match v with
  | JNull => "null"
  | JBool b => if b then "true" else "false"
  | JNumber z => pretty z
  | JString s => s
  | JArray l => commas (map (λ x, match x with JNull => EmptyString | _ => js_String x end) l)
  | JObject _ => "[object Object]"
  end.
Definition js_String_opt (v : option json) : string := from_option js_String "undefined" v.

(** [event.previousEventHash] is [null], [undefined] or [""]. *)
Definition is_root (event : json) : bool :=
  match js_prop event "previousEventHash" with
  | None | Some JNull => true
  | Some (JString s) => s === EmptyString
  | _ => false
  end.
(** A non-empty [previousEventHash]. *)
Definition reference (event : json) : option string :=
  match js_prop event "previousEventHash" with
  | Some (JString s) => if s === EmptyString then None else Some s
  | _ => None
  end.
Definition event_hash (event : json) : string :=
  from_option id EmptyString (as_string (js_prop event "eventHash")).

Fixpoint lineage_walk (fuel : nat) (byHash : list (string * json)) (visited : list string)
    (current : option string) : list string :=
  match fuel with
  | O => visited
  | S fuel =>
      match current with
      | None => visited
      | Some h =>
          if (h === EmptyString) || array_includes visited h then visited
          else lineage_walk fuel byHash (visited ++ [h]) (map_get h byHash ≫= reference)
      end
  end.

Definition lineage_issue (message : string) : V unit := issue "ARCHIVE_AUDIT_LINEAGE_INVALID" message None.

(** [children.set(previous, (children.get(previous) ?? 0) + 1)] for each *)
Definition count_children (references : list string) : list (string * nat) :=
  fold_left (λ m p, map_set p (S (default 0 (map_get p m))) m) references [].

(** Source: packages/archive/src/verify.ts:187-276 validateAuditLineage *)
Definition validateAuditLineage (manifest : option json) (events : list json) : V unit :=
  match manifest with
  | None => mret tt
  | Some manifest =>
      let lineage := js_prop manifest "auditLineage" in
      prop_opt lineage "eventCount" ≫= λ eventCount,
      let lineage_prop name := lineage ≫= λ l, js_prop l name in
      when (negb (js_same eventCount (Some (JNumber (Z.of_nat (length events))))))
        (lineage_issue "Audit lineage count does not match exported audit records.") ≫= λ _,
      if length events === 0
      then when (negb (js_same (lineage_prop "firstEventHash") (Some JNull)) ||
                 negb (js_same (lineage_prop "lastEventHash") (Some JNull)))
             (lineage_issue "Empty audit lineage must have null boundary hashes.")
      else
        map_each (λ e, prop e "eventHash" ≫= λ _, mret (event_hash e)) events ≫= λ hashes,
        when (existsb (λ h, negb (SHA256_PATTERN h)) hashes ||
              negb (Nat.eqb (length (new_Set hashes)) (length hashes)))
          (lineage_issue "Audit lineage contains an invalid or duplicate event hash.") ≫= λ _,
        let roots := List.filter is_root events in
        let references := omap reference events in
        let tails := List.filter (λ h, negb (array_includes references h)) hashes in
        when (negb (Nat.eqb (length roots) 1) || negb (Nat.eqb (length tails) 1) ||
              negb (js_same (lineage_prop "firstEventHash") (head roots ≫= λ e, js_prop e "eventHash")) ||
              negb (js_same (lineage_prop "lastEventHash") (JString <$> head tails)))
          (lineage_issue "Audit lineage boundary hashes do not identify one complete chain.") ≫= λ _,
        when (existsb (λ p, negb (array_includes hashes p)) references ||
              existsb (λ c, negb (Nat.eqb c.2 1)) (count_children references))
          (lineage_issue "Audit lineage event links are discontinuous or branching.") ≫= λ _,
        when (Nat.eqb (length tails) 1)
          (let byHash := index_by (λ e, js_String_opt (js_prop e "eventHash")) events in
           let visited := lineage_walk (length events + 2) byHash [] (head tails) in
           when (negb (Nat.eqb (length visited) (length events)))
             (lineage_issue "Audit lineage does not cover every exported audit event."))
  end.

(** ** When the check is silent *)

Definition pushed (b : bool) (code message : string) (path : option string) : list ArchiveIssue :=
  if b then [mkIssue code (if truthy path then path else None) message] else [].

Lemma when_issue_run b code message path s :
  when b (issue code message path) s = (Ok tt, (s ++ pushed b code message path)%list).
Proof. destruct b; cbn; [done|]. by rewrite app_nil_r. Qed.

Lemma pushed_nil b code message path : pushed b code message path = [] ↔ b = false.
Proof. by destruct b. Qed.

Lemma when_when b c (v : V unit) : when b (when c v) = when (b && c) v.
Proof. by destruct b. Qed.

Lemma negb_eqb_false a b : negb (Nat.eqb a b) = false ↔ a = b.
Proof. rewrite negb_false_iff. apply Nat.eqb_eq. Qed.

Lemma existsb_negb {A} (f : A → bool) (xs : list A) :
  existsb (λ x, negb (f x)) xs = false ↔ Forall (λ x, f x = true) xs.
Proof.
  induction xs as [|x xs IH]; cbn; [split; [constructor|done]|].
  rewrite orb_false_iff, IH, Forall_cons, negb_false_iff. done.
Qed.

Lemma length_one {A} (xs : list A) : length xs = 1 ↔ ∃ x, xs = [x].
Proof. destruct xs as [|x [|y xs]]; cbn; split; naive_solver. Qed.

Lemma map_each_run {A B} (f : A → V B) (g : A → B) (P : A → Prop) `{∀ x, Decision (P x)} xs s :
  (∀ x s, f x s = if decide (P x) then (Ok (g x), s) else (Err TypeError, s)) →
  map_each f xs s = if decide (Forall P xs) then (Ok (map g xs), s) else (Err TypeError, s).
Proof.
  intros Hf. induction xs as [|x xs IH]; cbn [map_each]; [done|].
  unfold mbind at 1, M_bind at 1. rewrite Hf. destruct (decide (P x)) as [Hx|Hx].
  - unfold mbind at 1, M_bind at 1. rewrite IH. destruct (decide (Forall P xs)) as [HF|HF].
    + rewrite decide_True by (by constructor). done.
    + rewrite decide_False by (by intros [??]%Forall_cons). done.
  - rewrite decide_False by (by intros [??]%Forall_cons). done.
Qed.

Lemma prop_hash_run e s :
  (prop e "eventHash" ≫= λ _, mret (event_hash e)) s =
  if decide (e ≠ JNull) then (Ok (event_hash e), s) else (Err TypeError, s).
Proof. by destruct e. Qed.

(** ** Chains *)

(** [events] in chain order after an event with hash [previous]. *)
Fixpoint chain_from (previous : option string) (events : list json) : Prop :=
  match events with
  | [] => True
  | e :: events =>
      match previous with
      | None => is_root e = true
      | Some h => js_prop e "previousEventHash" = Some (JString h)
      end ∧ chain_from (Some (event_hash e)) events
  end.

(** The same from its end: each event names the one after it in the list. *)
Fixpoint back_chain (es : list json) : Prop :=
  match es with
  | e :: ((e' :: _) as es') => reference e = Some (event_hash e') ∧ back_chain es'
  | _ => True
  end.

Lemma reference_Some e h : reference e = Some h ↔ js_prop e "previousEventHash" = Some (JString h) ∧ h ≠ EmptyString.
Proof. unfold reference. destruct (js_prop e _) as [[]|]; try case_bool_decide; naive_solver. Qed.

Lemma root_no_reference e : is_root e = true → reference e = None.
Proof. unfold is_root, reference. destruct (js_prop e _) as [[]|]; try done. by intros ->. Qed.

Lemma reference_no_root e h : reference e = Some h → is_root e = false.
Proof. intros Hr. destruct (is_root e) eqn:E; [|done]. apply root_no_reference in E. congruence. Qed.

Lemma back_chain_snoc es e e' :
  back_chain (es ++ [e; e']) ↔ back_chain (es ++ [e]) ∧ reference e = Some (event_hash e').
Proof.
  induction es as [|x es IH]; cbn; [naive_solver|]. destruct es as [|y es]; cbn in *; naive_solver.
Qed.

Lemma chain_from_back previous es :
  Forall (λ e, event_hash e ≠ EmptyString) es →
  chain_from previous es ↔
    back_chain (rev es) ∧
    match es with
    | [] => True
    | e :: _ => match previous with None => is_root e = true | Some h => js_prop e "previousEventHash" = Some (JString h) end
    end.
Proof.
  intros Hne. revert previous. induction es as [|e es IH]; intros previous; [done|].
  inversion Hne as [|? ? He Hes]; subst. cbn [chain_from]. rewrite (IH Hes). destruct es as [|e' es]; [cbn; naive_solver|].
  cbn [rev]. rewrite <- app_assoc. cbn [app]. rewrite back_chain_snoc, reference_Some.
  split; [intros (? & ? & ?); split_and!; auto|intros ((? & ? & ?) & ?); split_and!; auto].
Qed.

(** ** Counting references *)

Lemma count_children_from (p : string) refs m :
  default 0 (map_get p (fold_left (λ m p, map_set p (S (default 0 (map_get p m))) m) refs m)) =
  default 0 (map_get p m) + count_occ string_dec refs p.
Proof.
  revert m. induction refs as [|q refs IH]; intros m; cbn [fold_left count_occ]; [lia|]. rewrite IH.
  destruct (string_dec q p) as [->|Hn].
  - rewrite map_get_set_eq. cbn. lia.
  - rewrite map_get_set_ne by congruence. lia.
Qed.

Lemma count_children_keys (p : string) refs m :
  p ∈ (fold_left (λ m p, map_set p (S (default 0 (map_get p m))) m) refs m).*1 ↔ p ∈ m.*1 ∨ p ∈ refs.
Proof.
  revert m. induction refs as [|q refs IH]; intros m; cbn [fold_left]; [set_solver|].
  rewrite IH, map_keys_set. case_bool_decide; set_solver.
Qed.

Lemma count_children_nodup (refs : list string) m :
  NoDup m.*1 → NoDup (fold_left (λ m p, map_set p (S (default 0 (map_get p m))) m) refs m).*1.
Proof. revert m. induction refs as [|q refs IH]; intros m Hm; cbn [fold_left]; [done|]. by apply IH, NoDup_map_set. Qed.

Lemma count_children_once refs : Forall (λ c, c.2 = 1) (count_children refs) ↔ NoDup refs.
Proof.
  assert (NoDup (count_children refs).*1) as Hk by (apply count_children_nodup; constructor).
  assert (∀ p n, (p, n) ∈ count_children refs → n = count_occ string_dec refs p) as Hc.
  { intros p n Hin. apply map_elem_get in Hin; [|done]. pose proof (count_children_from p refs []) as E.
    unfold count_children in Hin. rewrite Hin in E. by cbn in E. }
  rewrite NoDup_ListNoDup, (NoDup_count_occ string_dec), Forall_forall. split.
  - intros HF p. destruct (decide (p ∈ refs)) as [Hin|Hn].
    + assert (p ∈ (count_children refs).*1) as Hp by (apply count_children_keys; by right).
      apply list_elem_of_fmap in Hp as ([p' n] & -> & Hp). pose proof (HF _ Hp) as E. cbn in *.
      rewrite <- (Hc _ _ Hp). lia.
    + assert (¬ In p refs) as Hn' by (by rewrite <- list_elem_of_In).
      apply (count_occ_not_In string_dec) in Hn'. lia.
  - intros Hle [p n] Hin. cbn. pose proof (Hc _ _ Hin) as ->.
    assert (p ∈ refs) as Hp.
    { assert (p ∈ (count_children refs).*1) as Hp by (apply list_elem_of_fmap; by exists (p, count_occ string_dec refs p)).
      apply count_children_keys in Hp as [Hp|Hp]; [by apply elem_of_nil in Hp|done]. }
    apply list_elem_of_In, (count_occ_In string_dec) in Hp. specialize (Hle p). lia.
Qed.

(** ** Following predecessors *)

Section Walk.
Context (events : list json).
Let byHash := index_by (λ e, js_String_opt (js_prop e "eventHash")) events.

Definition hashed (e : json) : Prop := SHA256_PATTERN (event_hash e) = true.

Lemma hashed_prop e : hashed e → js_prop e "eventHash" = Some (JString (event_hash e)) ∧ event_hash e ≠ EmptyString.
Proof.
  unfold hashed, event_hash. destruct (js_prop e "eventHash") as [[]|]; cbn; try done.
  intros Hs. split; [done|]. by intros ->.
Qed.

Context (Hh : Forall hashed events) (Hnd : NoDup (map event_hash events)).

Lemma byHash_key : map (λ e, js_String_opt (js_prop e "eventHash")) events = map event_hash events.
Proof.
  apply map_ext_in. intros e Hin%list_elem_of_In. rewrite Forall_forall in Hh.
  by destruct (hashed_prop e (Hh e Hin)) as [-> _].
Qed.

Lemma byHash_get e : e ∈ events → map_get (event_hash e) byHash = Some e.
Proof.
  intros Hin. apply index_by_Some; [by rewrite byHash_key|]. split; [done|].
  rewrite Forall_forall in Hh. by destruct (hashed_prop e (Hh e Hin)) as [-> _].
Qed.

Context (Hcl : omap reference events ⊆ map event_hash events).

(** What the loop visits: a back chain of events. *)
Lemma walk_path fuel visited current :
  (∀ h, current = Some h → h ∈ map event_hash events) → NoDup visited →
  ∃ es, lineage_walk fuel byHash visited current = (visited ++ map event_hash es)%list ∧
    NoDup (visited ++ map event_hash es) ∧ es ⊆ events ∧ back_chain es ∧
    (∀ e, head es = Some e → current = Some (event_hash e)).
Proof using Hh Hnd Hcl.
  revert visited current. induction fuel as [|fuel IH]; intros visited current Hc Hv; cbn [lineage_walk].
  { exists []. rewrite app_nil_r. split_and!; [done|done|set_solver|done|done]. }
  destruct current as [h|]; [|exists []; rewrite app_nil_r; split_and!; [done|done|set_solver|done|done]].
  destruct ((h === EmptyString) || array_includes visited h) eqn:Hstop;
    [exists []; rewrite app_nil_r; split_and!; [done|done|set_solver|done|done]|].
  apply orb_false_iff in Hstop as [_ Hnew]. apply bool_decide_eq_false in Hnew.
  specialize (Hc h eq_refl). apply list_elem_of_fmap in Hc as (e & -> & He). rewrite (byHash_get e He). cbn [mbind option_bind].
  destruct (IH (visited ++ [event_hash e]) (reference e)) as (es & -> & Hnd' & Hsub & Hb & Hhd).
  - intros h Hr. apply Hcl, list_elem_of_omap. eauto.
  - apply NoDup_app. split_and!; [done|set_solver|apply NoDup_singleton].
  - exists (e :: es). cbn [map]. rewrite <- app_assoc in *. split_and!; [done|done|set_solver| |by intros ? [= ->]].
    destruct es as [|e' es]; [done|]. split; [by apply Hhd|done].
Qed.

(** It visits all of a chain that ends at a root. *)
Lemma walk_all fuel visited es :
  length es < fuel → es ⊆ events → back_chain es → (∀ e, last es = Some e → is_root e = true) →
  NoDup (visited ++ map event_hash es) →
  lineage_walk fuel byHash visited (event_hash <$> head es) = (visited ++ map event_hash es)%list.
Proof using Hh Hnd.
  clear Hcl. revert visited fuel. induction es as [|e es IH]; intros visited [|fuel] Hf Hsub Hb Hl Hd; cbn in Hf; try lia.
  { by rewrite app_nil_r. }
  assert (e ∈ events) as He by (apply Hsub; left). pose proof Hh as Hall. rewrite Forall_forall in Hall.
  cbn [head fmap option_fmap option_map lineage_walk]. destruct (hashed_prop e (Hall e He)) as [_ Hne].
  rewrite bool_decide_eq_false_2 by done. cbn [orb]. unfold array_includes.
  rewrite bool_decide_eq_false_2.
  2: { apply NoDup_app in Hd as (_ & Hd & _). intros Hin. apply (Hd _ Hin). left. }
  rewrite (byHash_get e He). cbn [mbind option_bind].
  assert (reference e = event_hash <$> head es) as ->.
  { destruct es as [|e' es]; [by apply root_no_reference, Hl|by destruct Hb as [-> _]]. }
  rewrite IH; [by rewrite <- app_assoc|lia|set_solver| | |by rewrite <- app_assoc].
  - by destruct es; [|destruct Hb].
  - intros x Hx. apply Hl. destruct es; [done|]. by rewrite last_cons, Hx.
Qed.
End Walk.

Section Exact.
Context (l : list (string * json)).

Definition lineage_checks (events : list json) : Prop :=
  let hashes := map event_hash events in
  let references := omap reference events in
  let tails := List.filter (λ h, negb (array_includes references h)) hashes in
  let roots := List.filter is_root events in
  Forall (λ e, e ≠ JNull) events ∧
  Forall (λ h, SHA256_PATTERN h = true) hashes ∧ NoDup hashes ∧
  (∃ r, roots = [r] ∧ js_same (obj_get l "firstEventHash") (js_prop r "eventHash") = true) ∧
  (∃ t, tails = [t] ∧ js_same (obj_get l "lastEventHash") (Some (JString t)) = true ∧
    length (lineage_walk (length events + 2) (index_by (λ e, js_String_opt (js_prop e "eventHash")) events)
      [] (Some t)) = length events) ∧
  references ⊆ hashes ∧ Forall (λ c, c.2 = 1) (count_children references).


Lemma lineage_silent m events :
  js_prop m "auditLineage" = Some (JObject l) → events ≠ [] →
  validateAuditLineage (Some m) events [] = (Ok tt, []) ↔
  js_same (obj_get l "eventCount") (Some (JNumber (Z.of_nat (length events)))) = true ∧ lineage_checks events.
Proof.
  intros Hm Hne. unfold validateAuditLineage. rewrite Hm. cbn [prop_opt prop js_prop mbind option_bind].
  run. unfold lineage_issue. erewrite bind_Ok_run by apply when_issue_run. cbn [app].
  rewrite bool_decide_eq_false_2 by (by destruct events).
  unfold mbind at 1, M_bind at 1. rewrite (map_each_run _ event_hash (λ e, e ≠ JNull)) by apply prop_hash_run.
  destruct (decide (Forall _ events)) as [Hnn|Hnn]; [|split; [done|intros (_ & Hc & _); done]].
  erewrite bind_Ok_run by apply when_issue_run. erewrite bind_Ok_run by apply when_issue_run.
  erewrite bind_Ok_run by apply when_issue_run. unfold lineage_checks.
  set (hashes := map event_hash events). set (references := omap reference events).
  set (tails := List.filter _ hashes). set (roots := List.filter is_root events).
  rewrite when_when, when_issue_run. set (walk := lineage_walk _ _ _).
  trans (js_same (obj_get l "eventCount") (Some (JNumber (Z.of_nat (length events)))) = true ∧
    (Forall (λ h, SHA256_PATTERN h = true) hashes ∧ NoDup hashes) ∧
    (length roots = 1 ∧ length tails = 1 ∧
     js_same (obj_get l "firstEventHash") (head roots ≫= λ e, js_prop e "eventHash") = true ∧
     js_same (obj_get l "lastEventHash") (JString <$> head tails) = true) ∧
    (Forall (λ p, p ∈ hashes) references ∧ Forall (λ c, c.2 = 1) (count_children references)) ∧
    (length tails = 1 → length (walk (head tails)) = length events)).
  - rewrite (inj_iff (pair (Ok tt))), !app_nil, !pushed_nil, !orb_false_iff, !existsb_negb, !negb_eqb_false, !negb_false_iff, andb_false_iff, negb_eqb_false, Nat.eqb_neq.
    rewrite new_Set_length. unfold array_includes.
    assert (Forall (λ p, bool_decide (p ∈ hashes) = true) references ↔ Forall (λ p, p ∈ hashes) references) as ->.
    { apply Forall_iff. intros p. apply bool_decide_eq_true. }
    assert (Forall (λ c, (c.2 =? 1) = true) (count_children references) ↔ Forall (λ c, c.2 = 1) (count_children references)) as ->.
    { apply Forall_iff. intros c. apply Nat.eqb_eq. }
    destruct (decide (length tails = 1)); clear; tauto.
  - rewrite !length_one. assert (Forall (λ p, p ∈ hashes) references ↔ references ⊆ hashes) as -> by apply Forall_forall. split.
    + intros (Hc & [Hs Hd] & ([r Er] & [t Et] & H1 & H2) & [Hr Hk] & Hw). rewrite Er, Et in *.
      split; [done|]. do 3 (split; [done|]). split; [by exists r|]. split; [|by split].
      exists t. do 2 (split; [done|]). apply Hw. by exists t.
    + intros (Hc & _ & Hs & Hd & (r & Er & H1) & (t & Et & H2 & Hw) & Hr & Hk). rewrite Er, Et in *.
      split_and!; try done; eauto.
Qed.

(** The events in chain order, with distinct digests, and the manifest naming
    their ends. *)
Definition declared_chain (chain : list json) : Prop :=
  chain_from None chain ∧ NoDup (map event_hash chain) ∧ Forall hashed chain ∧
  obj_get l "firstEventHash" = Some (from_option (λ e, JString (event_hash e)) JNull (head chain)) ∧
  obj_get l "lastEventHash" = Some (from_option (λ e, JString (event_hash e)) JNull (last chain)).

Lemma js_same_string v t : js_same v (Some (JString t)) = true ↔ v = Some (JString t).
Proof. destruct v as [[]|]; cbn; try naive_solver. rewrite bool_decide_eq_true. naive_solver. Qed.
Lemma js_same_null v : js_same v (Some JNull) = true ↔ v = Some JNull.
Proof. destruct v as [[]|]; cbn; naive_solver. Qed.

Lemma filter_none {A} (f : A → bool) (xs : list A) : (∀ x, x ∈ xs → f x = false) → List.filter f xs = [].
Proof. induction xs as [|x xs IH]; intros Hf; cbn; [done|]. rewrite (Hf x) by left. apply IH. intros y Hy. apply Hf. by right. Qed.


Lemma back_chain_mid l1 r e l2 : back_chain (l1 ++ r :: e :: l2) → reference r = Some (event_hash e).
Proof. induction l1 as [|x l1 IH]; cbn; [naive_solver|]. destruct l1; cbn in *; naive_solver. Qed.

Lemma checks_chain events : lineage_checks events → ∃ chain, chain ≡ₚ events ∧ declared_chain chain.
Proof.
  intros (_ & Hs & Hd & (r & Hr & H1) & (t & Ht & H2 & Hw) & Hcl & _). apply Forall_map in Hs.
  assert (t ∈ map event_hash events) as Htin.
  { eapply List_filter_elem. rewrite Ht. left. }
  assert (r ∈ events ∧ is_root r = true) as [Hrin Hroot] by (apply List_filter_elem; rewrite Hr; left).
  destruct (walk_path events Hs Hd Hcl (length events + 2) [] (Some t)) as (es & E & Hnd & Hsub & Hb & Hhd);
    [by intros ? [= <-]|constructor|]. cbn [app] in *. rewrite E, length_map in Hw.
  assert (es ≡ₚ events) as Hp.
  { apply submseteq_length_Permutation; [|lia]. apply NoDup_submseteq; [by apply (NoDup_fmap_1 event_hash)|done]. }
  assert (r ∈ es) as (l1 & l2 & ->)%list_elem_of_split by (by rewrite Hp).
  destruct l2 as [|e l2]; [|apply back_chain_mid in Hb; apply root_no_reference in Hroot; congruence].
  assert (Forall hashed (l1 ++ [r])) as Hh by (by rewrite Hp).
  assert (∀ e, e ∈ l1 ++ [r] → event_hash e ≠ EmptyString) as Hne.
  { intros e He. rewrite Forall_forall in Hh. by apply hashed_prop, Hh. }
  exists (rev (l1 ++ [r])). split; [by rewrite <- Permutation_rev|]. unfold declared_chain. split_and!.
  - apply chain_from_back; [by rewrite <- Permutation_rev; apply Forall_forall|].
    rewrite rev_involutive, rev_app_distr. by split.
  - by rewrite <- Permutation_rev.
  - by rewrite <- Permutation_rev.
  - rewrite rev_app_distr. cbn. apply js_same_string. rewrite Forall_forall in Hh.
    destruct (hashed_prop r) as [<- _]; [|done]. apply Hh. set_solver.
  - destruct (l1 ++ [r]) as [|e es'] eqn:Ees; [by destruct l1|]. cbn [rev]. rewrite last_snoc. cbn.
    apply js_same_string. specialize (Hhd e eq_refl). by injection Hhd as ->.
Qed.

Lemma filter_permutation {A} (f : A → bool) (xs ys : list A) : xs ≡ₚ ys → List.filter f xs ≡ₚ List.filter f ys.
Proof.
  induction 1 as [|x xs ys Hp IH|x y xs|xs ys zs Hxy IH1 Hyz IH2]; cbn; [done| | |by rewrite IH1].
  - case_match; by rewrite IH.
  - repeat case_match; try done. constructor.
Qed.

Lemma chain_references h es :
  h ≠ EmptyString → Forall hashed es → chain_from (Some h) es →
  omap reference es = removelast (h :: map event_hash es) ∧ Forall (λ e, is_root e = false) es.
Proof.
  revert h. induction es as [|e es IH]; intros h Hh Hs Hc; [done|]. inversion Hs as [|? ? He Hes]; subst.
  destruct Hc as [Hp Hc]. assert (reference e = Some h) as Hr by (by apply reference_Some).
  destruct (IH (event_hash e)) as [IH1 IH2]; [by apply hashed_prop|done|done|].
  split; [|constructor; [by eapply reference_no_root|done]]. cbn [omap list_omap]. rewrite Hr. by rewrite IH1.
Qed.

(** A chain read back from its end covers the events. *)
Lemma walk_covers events chain e :
  Forall hashed events → NoDup (map event_hash events) → chain ≡ₚ events → chain_from None chain →
  last chain = Some e →
  length (lineage_walk (length events + 2) (index_by (λ e, js_String_opt (js_prop e "eventHash")) events)
    [] (Some (event_hash e))) = length events.
Proof.
  intros Hh Hnd Hp Hc Hl. assert (Forall hashed chain) as Hhc by (by rewrite Hp).
  assert (head (rev chain) = Some e) as Hhd.
  { destruct (exists_last (l := chain)) as (init & x & ->); [by intros ->|]. rewrite last_snoc in Hl. by rewrite rev_app_distr. }
  pose proof (walk_all events Hh Hnd (length events + 2) [] (rev chain)) as Hw. rewrite Hhd in Hw.
  cbn [fmap option_fmap option_map] in Hw. apply (chain_from_back None) in Hc as [Hb Hroot].
  2: { eapply Forall_impl; [exact Hhc|]. intros x Hx. by apply hashed_prop. }
  rewrite Hw; clear Hw; cbn [app].
  - rewrite length_map, length_rev. by apply Permutation_length.
  - rewrite length_rev, Hp. lia.
  - intros x. by rewrite <- Permutation_rev, Hp.
  - done.
  - destruct chain as [|c0 rest]; [done|]. cbn [rev]. rewrite last_snoc. by intros ? [= <-].
  - by rewrite <- Permutation_rev, Hp.
Qed.

(** The references of a chain: every hash but the last one's. *)
Lemma chain_links chain e :
  chain_from None chain → Forall hashed chain → last chain = Some e →
  ∃ init c0, chain = (init ++ [e])%list ∧ head chain = Some c0 ∧ omap reference chain = map event_hash init ∧
    List.filter is_root chain = [c0].
Proof.
  intros Hc Hh Hl. destruct chain as [|c0 rest]; [done|]. inversion Hh as [|? ? Hc0 Hrest]; subst. destruct Hc as [Hroot Hc].
  destruct (chain_references (event_hash c0) rest) as [Hrefs Hnr]; [by apply hashed_prop|done|done|].
  destruct (exists_last (l := c0 :: rest)) as (init & x & Ech); [done|]. rewrite Ech, last_snoc in Hl. injection Hl as ->.
  exists init, c0. split_and!; [done|done| |].
  - cbn [omap list_omap]. rewrite (root_no_reference _ Hroot). rewrite Hrefs.
    change (event_hash c0 :: map event_hash rest) with (map event_hash (c0 :: rest)).
    rewrite Ech, map_app. apply removelast_last.
  - cbn [List.filter]. rewrite Hroot, filter_none; [done|]. by apply Forall_forall.
Qed.

Lemma chain_checks events chain :
  events ≠ [] → chain ≡ₚ events → declared_chain chain → lineage_checks events.
Proof.
  intros Hne Hp (Hc & Hnd & Hh & Hf & Hl).
  assert (Forall hashed events) as Hh' by (by rewrite <- Hp).
  assert (NoDup (map event_hash events)) as Hnd' by (by rewrite <- Hp).
  destruct (last chain) as [e|] eqn:Hlast; [|by apply last_None in Hlast as ->; apply Permutation_nil in Hp].
  destruct (chain_links chain e Hc Hh Hlast) as (init & c0 & Ech & Hhd & Hrefs & Hroots).
  assert (omap reference events ≡ₚ map event_hash init) as Href by (by rewrite <- Hrefs, Hp).
  rewrite Ech, map_app in Hnd. apply NoDup_app in Hnd as (Hndi & Hdis & _).
  unfold lineage_checks. split_and!.
  - eapply Forall_impl; [exact Hh'|]. by intros ? Hx ->.
  - by apply Forall_map.
  - done.
  - exists c0. split.
    + apply Permutation_singleton_r. by rewrite <- (filter_permutation _ _ _ Hp), Hroots.
    + rewrite Hhd in Hf. rewrite Forall_forall in Hh. destruct (hashed_prop c0) as [-> _]; [|by apply js_same_string].
      apply Hh. by apply head_Some_elem_of.
  - exists (event_hash e). split_and!; [|by apply js_same_string|by eapply walk_covers].
    apply Permutation_singleton_r. rewrite <- (filter_permutation _ _ _ (Permutation_map event_hash Hp)).
    rewrite Ech, map_app, List.filter_app. cbn [map List.filter].
    rewrite filter_none; [|intros x Hx; apply negb_false_iff, bool_decide_eq_true_2; by rewrite Href].
    unfold array_includes. rewrite bool_decide_eq_false_2; [done|]. rewrite Href. intros Hin. apply (Hdis _ Hin). left.
  - intros x. rewrite Href, <- Hp, Ech, map_app. set_solver.
  - apply count_children_once. by rewrite Href.
Qed.
End Exact.

Lemma js_same_number v n : js_same v (Some (JNumber n)) = true ↔ v = Some (JNumber n).
Proof. destruct v as [[]|]; cbn; try naive_solver. rewrite bool_decide_eq_true. naive_solver. Qed.

Lemma lineage_empty m l :
  js_prop m "auditLineage" = Some (JObject l) →
  validateAuditLineage (Some m) [] [] = (Ok tt, []) ↔
  obj_get l "eventCount" = Some (JNumber 0) ∧
  obj_get l "firstEventHash" = Some JNull ∧ obj_get l "lastEventHash" = Some JNull.
Proof.
  intros Hm. unfold validateAuditLineage. rewrite Hm. cbn [prop_opt prop js_prop length].
  run. unfold lineage_issue. erewrite bind_Ok_run by apply when_issue_run.
  rewrite strict_eq_refl, when_issue_run. cbn [app mbind option_bind].
  rewrite (inj_iff (pair (Ok tt))), app_nil, !pushed_nil, orb_false_iff, !negb_false_iff, js_same_number, !js_same_null.
  done.
Qed.

(** The lineage check is exact: for a manifest with an audit lineage it
    pushes no issue precisely when the declared number of events is right and
    the exported events can be ordered into one chain of distinct SHA-256 event
    hashes, from an event without predecessor, each next event naming the hash
    before it, with the manifest naming the first and the last hash ([null] for
    an archive without events). *)
Theorem lineage_check_exact m l events :
  js_prop m "auditLineage" = Some (JObject l) →
  validateAuditLineage (Some m) events [] = (Ok tt, []) ↔
  obj_get l "eventCount" = Some (JNumber (Z.of_nat (length events))) ∧
  ∃ chain, chain ≡ₚ events ∧ declared_chain l chain.
Proof.
  intros Hm. destruct (decide (events = [])) as [->|Hne].
  - rewrite (lineage_empty m l Hm). apply and_iff_compat_l. split.
    + intros [Hf Hl]. exists []. split; [done|]. by repeat split; try constructor.
    + intros (chain & ->%Permutation_nil_r & _ & _ & _ & Hf & Hl). by split.
  - rewrite (lineage_silent l m events Hm Hne), js_same_number. apply and_iff_compat_l. split.
    + apply checks_chain.
    + intros (chain & Hp & Hc). by eapply chain_checks.
Qed.

Module LineageWitness.
Definition h1 : string := "1111111111111111111111111111111111111111111111111111111111111111".
Definition h2 : string := "2222222222222222222222222222222222222222222222222222222222222222".
Definition first_event : json := JObject [("eventHash", JString h1); ("previousEventHash", JNull)].
Definition second_event : json := JObject [("eventHash", JString h2); ("previousEventHash", JString h1)].
Definition lineage : list (string * json) :=
  [("eventCount", JNumber 2); ("firstEventHash", JString h1); ("lastEventHash", JString h2)].
Definition manifest : json := JObject [("auditLineage", JObject lineage)].

Lemma lineage_check_exact_witness :
  ∃ chain, chain ≡ₚ [second_event; first_event] ∧ declared_chain lineage chain.
Proof. apply (lineage_check_exact manifest lineage [second_event; first_event] eq_refl). vm_compute. reflexivity. Defined.

(** A root with an empty hash for its predecessor counts as a root as well. *)
Example empty_root_accepted :
  validateAuditLineage (Some manifest)
    [second_event; JObject [("eventHash", JString h1); ("previousEventHash", JString "")]] [] = (Ok tt, []).
Proof. vm_compute. reflexivity. Qed.
(** Two events naming the same predecessor are a branch. *)
Example branch_refused :
  (validateAuditLineage (Some manifest) [second_event; second_event; first_event] []).2 ≠ [].
Proof. vm_compute. discriminate. Qed.
End LineageWitness.
