(* ===== verification/ArchiveVerify.v ===== *)
(** * Verification of an archive

    The rest of [packages/archive/src/verify.ts]: the record files, the scope of
    the records and their references, the blobs, and
    [verifyArchiveEntriesBase], which runs every check over one list of issues.

    The theorem is tamper evidence: two archives that both verify and carry the
    same checksum file agree on every entry outside [signatures/], a collision
    of the digest apart. *)
From S2P Require Import Prelude Js Concrete Json JsonParse Archive ArchiveLineage.

Section Verify.
Context `{Crypto} `{TextCodec}.

(** ** Record files *)

(** [text.trimEnd().split("\n").filter(Boolean).map(JSON.parse)]; [None] when a
    line does not parse. *)
Definition parse_jsonl (text : string) : option (list json) :=
  mapM JSON_parse (List.filter (λ line, line !== EmptyString) (split NL (trimEnd text))).

(** [manifest.recordCounts[kind]]; an error when there is no [recordCounts]. *)
Definition record_count (manifest : json) (kind : ArchiveRecordKind) : result js_error (option json) :=
  match js_prop manifest "recordCounts" with
  | None | Some JNull => Err TypeError
  | Some counts => Ok (js_prop counts (kind_name kind))
  end.

(** Source: packages/archive/src/verify.ts:138-174 verifyArchiveEntriesBase *)
Definition read_records_of (entries : Entries) (manifest : option json) (kind : ArchiveRecordKind)
    (records : list (ArchiveRecordKind * list json)) : V (list (ArchiveRecordKind * list json)) :=
  let path := record_path kind in
  let invalid := issue "ARCHIVE_RECORD_INVALID" "Record JSONL is invalid UTF-8 or JSON." (Some path) in
  match map_get path entries with
  | None =>
      match manifest with
      | None => mret records
      | Some m =>
          lift (record_count m kind) ≫= λ count,
          when (negb (js_same (Some (or_else count (JNumber 0))) (Some (JNumber 0))))
            (issue "ARCHIVE_RECORD_FILE_MISSING" "Record file is missing." (Some path)) ≫= λ _,
          mret records
      end
  | Some bytes =>
      match decode bytes ≫= parse_jsonl with
      | None => invalid ≫= λ _, mret records
      | Some parsed =>
          match manifest with
          | None => mret tt
          | Some m =>
              match record_count m kind with
              | Err _ => invalid
              | Ok count =>
                  when (negb (js_same (Some (JNumber (Z.of_nat (length parsed)))) count))
                    (issue "ARCHIVE_RECORD_COUNT_INVALID" "Record count does not match manifest." (Some path))
              end
          end ≫= λ _,
          mret (records ++ [(kind, parsed)])%list
      end
  end.

Fixpoint read_records (entries : Entries) (manifest : option json) (kinds : list ArchiveRecordKind)
    (records : list (ArchiveRecordKind * list json)) : V (list (ArchiveRecordKind * list json)) :=
  match kinds with
  | [] => mret records
  | kind :: kinds => read_records_of entries manifest kind records ≫= read_records entries manifest kinds
  end.

Definition records_of (records : list (ArchiveRecordKind * list json)) (kind : ArchiveRecordKind) : list json :=
  default [] (map_get kind records).

(** ** Scope and references *)

(** [new Set(records.map((r) => r.id).filter(isString))] *)
Definition id_set (records : list json) : V (list string) :=
  map_each (λ r, prop r "id") records ≫= λ ids, mret (omap as_string ids).

Definition reference_issue (message : string) : V unit := issue "ARCHIVE_REFERENCE_INVALID" message None.

(** Source: packages/archive/src/verify.ts:393-441 validateScopeAndReferences *)
Definition validateScopeAndReferences (manifest : option json)
    (records : list (ArchiveRecordKind * list json)) : V unit :=
  match manifest with
  | None => mret tt
  | Some manifest =>
      id_set (records_of records resources) ≫= λ resource_ids,
      id_set (records_of records revisions) ≫= λ revision_ids,
      for_each (λ kv, for_each (λ record,
        has_prop record "workspaceId" ≫= λ has,
        when (has && negb (js_same (js_prop record "workspaceId") (js_prop manifest "workspaceId")))
          (issue "ARCHIVE_WORKSPACE_MISMATCH" (kind_name kv.1 +:+ " record crosses workspace boundary.") None))
        kv.2) records ≫= λ _,
      for_each (λ revision,
        when (match as_string (js_prop revision "resourceId") with
              | Some id => negb (array_includes resource_ids id) | None => true end)
          (reference_issue "Revision resource does not exist.") ≫= λ _,
        when (match as_string (js_prop revision "parentRevisionId") with
              | Some id => negb (array_includes revision_ids id) | None => false end)
          (reference_issue "Revision parent does not exist.")) (records_of records revisions)
  end.

(** ** Blobs *)

(** The bytes a blob record stands for: an issue, or the number of bytes read. *)
Definition validate_blob (record : json) (entries : Entries) (total : Z) : V Z :=
  prop record "sha256" ≫= λ sha,
  match sha, js_prop record "byteLength" with
  | Some (JString digest), Some (JNumber byteLength) =>
      match blobArchivePath digest with
      | Err _ => issue "ARCHIVE_BLOB_RECORD_INVALID" "Blob digest is invalid." None ≫= λ _, mret total
      | Ok path =>
          match map_get path entries with
          | None => issue "ARCHIVE_BLOB_MISSING" "Blob bytes are missing." (Some path) ≫= λ _, mret total
          | Some bytes =>
              when ((Z.of_nat (String.length bytes) !== byteLength) || (sha256 bytes !== digest))
                (issue "ARCHIVE_BLOB_INVALID" "Blob bytes do not match metadata." (Some path)) ≫= λ _,
              mret (total + Z.of_nat (String.length bytes))%Z
          end
      end
  | _, _ => issue "ARCHIVE_BLOB_RECORD_INVALID" "Blob record is invalid." None ≫= λ _, mret total
  end.

Fixpoint validate_blobs (blobRecords : list json) (entries : Entries) (total : Z) : V Z :=
  match blobRecords with
  | [] => mret total
  | record :: blobRecords => validate_blob record entries total ≫= validate_blobs blobRecords entries
  end.

(** Source: packages/archive/src/verify.ts:443-490 validateBlobs *)
Definition validateBlobs (manifest : option json) (blobRecords : list json) (entries : Entries) : V unit :=
  validate_blobs blobRecords entries 0 ≫= λ total,
  match manifest with
  | None => mret tt
  | Some m =>
      when (negb (js_same (js_prop m "blobCount") (Some (JNumber (Z.of_nat (length blobRecords))))) ||
            negb (js_same (js_prop m "totalBlobBytes") (Some (JNumber total))))
        (issue "ARCHIVE_BLOB_COUNT_INVALID" "Blob totals do not match manifest." None)
  end.

(** ** The whole verification *)

Definition manifestSignaturePath : string := "signatures/manifest-signature.json".

Definition is_unsigned (manifest : json) : bool :=
  js_same (js_prop manifest "signatureProfile") (Some (JString "unsigned")).

(** Source: packages/archive/src/verify.ts:115-137 verifyArchiveEntriesBase *)
Definition check_signature_presence (entries : Entries) (manifest : option json) (deferSigned : bool) : V unit :=
  match manifest with
  | None => mret tt
  | Some m =>
      when (negb (is_unsigned m) && negb deferSigned)
        (issue "ARCHIVE_SIGNATURE_VERIFIER_REQUIRED" "Signed archive requires a manifest signature verifier."
          (Some manifestSignaturePath)) ≫= λ _,
      when (is_unsigned m && bool_decide (is_Some (map_get manifestSignaturePath entries)))
        (issue "ARCHIVE_SIGNATURE_UNEXPECTED" "Unsigned archive contains a manifest signature artifact."
          (Some manifestSignaturePath))
  end.

(** What the manifest and the records say, once read. *)
Definition check_content (entries : Entries) (manifest : option json)
    (records : list (ArchiveRecordKind * list json)) : V unit :=
  validateScopeAndReferences manifest records ≫= λ _,
  validateAuditLineage manifest (records_of records audit_events) ≫= λ _,
  validateBlobs manifest (records_of records blobs) entries.

(** Source: packages/archive/src/verify.ts:61-178 verifyArchiveEntriesBase *)
Definition verify_program (entries : Entries) (limits : ArchiveVerificationLimits) (deferSigned : bool) :
    V (list (string * string) * option json * list (ArchiveRecordKind * list json)) :=
  check_limits entries limits ≫= λ _,
  readChecksums entries ≫= λ checksums,
  check_checksums entries checksums ≫= λ _,
  readManifest entries ≫= λ manifest,
  check_signature_presence entries manifest deferSigned ≫= λ _,
  read_records entries manifest archiveRecordKinds [] ≫= λ records,
  check_content entries manifest records ≫= λ _,
  mret (checksums, manifest, records).

(** Source: packages/archive/src/verify.ts:52-185 verifyArchiveEntriesBase *)
Definition verifyArchiveEntriesBase (entries : Entries) (limits : ArchiveVerificationLimits) (deferSigned : bool) :
    result js_error ArchiveVerificationReport :=
  match verify_program entries limits deferSigned [] with
  | (Err e, _) => Err e
  | (Ok (checksums, manifest, records), issues) =>
      Ok (mkReport (issues === []) (Z.of_nat (length checksums)) issues manifest records)
  end.

(** Source: packages/archive/src/verify.ts:29-34 verifyArchiveEntries *)
Definition verifyArchiveEntries (entries : Entries) (limits : ArchiveVerificationLimits) :
    result js_error ArchiveVerificationReport := verifyArchiveEntriesBase entries limits false.

End Verify.

(** ** Issues are only ever added *)

Definition grows {A} (m : V A) : Prop := ∀ s, ∃ d, (m s).2 = (s ++ d)%list.

Section Grows.
Context {A B : Type}.

Lemma grows_ret (a : A) : grows (mret a).
Proof. intros s. exists []. by rewrite app_nil_r. Qed.
Lemma grows_throw (e : js_error) : grows (throw (A := A) e).
Proof. intros s. exists []. by rewrite app_nil_r. Qed.
Lemma grows_lift (r : result js_error A) : grows (lift r).
Proof. intros s. exists []. by rewrite app_nil_r. Qed.
Lemma grows_throw_when b (e : js_error) : grows (throw_when b e).
Proof. intros s. exists []. by rewrite app_nil_r. Qed.
Lemma grows_issue code message path : grows (issue code message path).
Proof. intros s. by eexists. Qed.
Lemma grows_bind (m : V A) (f : A → V B) : grows m → (∀ a, grows (f a)) → grows (m ≫= f).
Proof.
  intros Hm Hf s. unfold mbind, M_bind. destruct (Hm s) as [d Hd]. destruct (m s) as [[a|e] s'] eqn:E; cbn in *; [|eauto].
  destruct (Hf a s') as [d' Hd']. rewrite Hd', Hd. exists (d ++ d')%list. by rewrite app_assoc.
Qed.
Lemma grows_when b (m : V unit) : grows m → grows (when b m).
Proof. intros Hm. destruct b; [done|]. intros s. exists []. by rewrite app_nil_r. Qed.
Lemma grows_for_each (f : A → V unit) xs : (∀ x, grows (f x)) → grows (for_each f xs).
Proof. intros Hf. induction xs as [|x xs IH]; [intros s; exists []; by rewrite app_nil_r|]. intros s. cbn [for_each].
  unfold mbind, M_bind. destruct (Hf x s) as [d Hd]. destruct (f x s) as [[a|e] s'] eqn:E; cbn in *; [|eauto].
  destruct (IH s') as [d' Hd']. rewrite Hd', Hd. exists (d ++ d')%list. by rewrite app_assoc. Qed.
Lemma grows_try_catch (m : V A) h : grows m → (∀ e, grows (h e)) → grows (try_catch m h).
Proof.
  intros Hm Hh s. unfold try_catch. destruct (Hm s) as [d Hd]. destruct (m s) as [[a|e] s'] eqn:E; cbn in *; [eauto|].
  destruct (Hh e s') as [d' Hd']. rewrite Hd', Hd. exists (d ++ d')%list. by rewrite app_assoc.
Qed.
Lemma grows_map_each (f : A → V B) xs : (∀ x, grows (f x)) → grows (map_each f xs).
Proof.
  intros Hf. induction xs as [|x xs IH]; [intros s; exists []; by rewrite app_nil_r|]. intros s. cbn [map_each].
  unfold mbind, M_bind. destruct (Hf x s) as [d Hd]. destruct (f x s) as [[a|e] s'] eqn:E; cbn in *; [|eauto].
  destruct (IH s') as [d' Hd']. destruct (map_each f xs s') as [[ys|e] s2]; cbn in *; subst; exists (d ++ d')%list; by rewrite app_assoc.
Qed.
Lemma grows_if (b : bool) (m1 m2 : V A) : grows m1 → grows m2 → grows (if b then m1 else m2).
Proof. by destruct b. Qed.
Lemma grows_prop v name : grows (prop v name).
Proof. intros s. exists []. rewrite app_nil_r. by destruct v. Qed.
End Grows.

Create HintDb grows.
#[export] Hint Resolve grows_ret grows_throw grows_lift grows_throw_when grows_issue grows_bind grows_when
  grows_for_each grows_try_catch grows_map_each grows_if grows_prop : grows.
(** Prove that a program only adds issues. *)
Ltac solve_grows := repeat (intros; first [solve [auto with grows] | progress (repeat case_match)
  | eapply grows_bind | apply grows_for_each | apply grows_map_each | apply grows_try_catch | apply grows_when]).

(** A program that ends without issues: so did each part. *)
Lemma silent_bind {A B} (m : V A) (f : A → V B) b :
  (∀ a, grows (f a)) → (m ≫= f) [] = (Ok b, []) → ∃ a, m [] = (Ok a, []) ∧ f a [] = (Ok b, []).
Proof.
  intros Hf. unfold mbind, M_bind. destruct (m []) as [[a|e] s] eqn:E; [|done]. intros Hr.
  destruct (Hf a s) as [d Hd]. rewrite Hr in Hd. cbn in Hd. symmetry in Hd. apply app_nil in Hd as [-> _]. eauto.
Qed.

Lemma silent_for_each {A} (f : A → V unit) xs :
  (∀ x, grows (f x)) → for_each f xs [] = (Ok tt, []) ↔ ∀ x, x ∈ xs → f x [] = (Ok tt, []).
Proof.
  intros Hf. induction xs as [|x xs IH]; cbn [for_each]; [split; [by intros _ ? ?%elem_of_nil|done]|]. split.
  - intros Hr. apply silent_bind in Hr as ([] & Hx & Hxs); [|intros; by apply grows_for_each].
    intros y [->|Hy]%elem_of_cons; [done|]. by apply IH.
  - intros Hall. erewrite bind_Ok_run by (apply Hall; left). apply IH. intros y Hy. apply Hall. by right.
Qed.

Lemma silent_when b code message path : when b (issue code message path) [] = (Ok tt, []) ↔ b = false.
Proof. rewrite when_issue_run. cbn [app]. rewrite (inj_iff (pair (Ok tt))). apply pushed_nil. Qed.

Section Tamper.
Context `{Crypto} `{TextCodec}.

Lemma grows_checksum_lines lines result : grows (checksum_lines lines result).
Proof. revert result. induction lines as [|line lines IH]; intros result; cbn [checksum_lines]; solve_grows. Qed.
Lemma grows_readChecksums entries : grows (readChecksums entries).
Proof. pose proof grows_checksum_lines. unfold readChecksums. solve_grows. Qed.
Lemma grows_check_checksums entries cs : grows (check_checksums entries cs).
Proof. unfold check_checksums. solve_grows. Qed.
Lemma grows_readManifest entries : grows (readManifest entries).
Proof. unfold readManifest, prop_opt. solve_grows. Qed.
Lemma grows_check_signature_presence entries m d : grows (check_signature_presence entries m d).
Proof. unfold check_signature_presence. solve_grows. Qed.
Lemma grows_read_records entries m kinds records : grows (read_records entries m kinds records).
Proof.
  revert records. induction kinds as [|k kinds IH]; intros records; cbn [read_records]; [apply grows_ret|].
  apply grows_bind; [|done]. unfold read_records_of. solve_grows.
Qed.
Lemma grows_validate_blobs rs entries total : grows (validate_blobs rs entries total).
Proof.
  revert total. induction rs as [|r rs IH]; intros total; cbn [validate_blobs]; [apply grows_ret|].
  apply grows_bind; [|done]. unfold validate_blob. solve_grows.
Qed.
Lemma grows_has_prop v name : grows (has_prop v name).
Proof. unfold has_prop. destruct v; auto with grows. Qed.
Lemma grows_check_content entries m records : grows (check_content entries m records).
Proof.
  pose proof grows_has_prop. pose proof grows_validate_blobs.
  unfold check_content, validateScopeAndReferences, validateAuditLineage, validateBlobs, id_set, prop_opt,
    reference_issue, lineage_issue. solve_grows.
Qed.
#[local] Hint Resolve grows_readChecksums grows_check_checksums grows_readManifest grows_check_signature_presence
  grows_read_records grows_check_content : grows.

(** ** What a valid report says *)

(** Every check of a valid archive passed in silence. *)
Lemma valid_runs entries limits d report :
  verifyArchiveEntriesBase entries limits d = Ok report → report_valid report = true →
  report_issues report = [] ∧ ∃ cs,
    readChecksums entries [] = (Ok cs, []) ∧ check_checksums entries cs [] = (Ok tt, []) ∧
    readManifest entries [] = (Ok (report_manifest report), []) ∧
    check_signature_presence entries (report_manifest report) d [] = (Ok tt, []) ∧
    read_records entries (report_manifest report) archiveRecordKinds [] [] = (Ok (report_records report), []) ∧
    check_content entries (report_manifest report) (report_records report) [] = (Ok tt, []) ∧
    check_limits entries limits [] = (Ok tt, []).
Proof.
  unfold verifyArchiveEntriesBase. destruct (verify_program entries limits d []) as [[[[cs m] rs]|e] issues] eqn:E; [|done].
  intros [= <-] Hv. cbn in *. apply bool_decide_eq_true in Hv as ->. split; [done|]. exists cs. unfold verify_program in E.
  apply silent_bind in E as ([] & El & E); [|solve_grows].
  apply silent_bind in E as (cs' & Ec & E); [|solve_grows].
  apply silent_bind in E as ([] & Ek & E); [|solve_grows].
  apply silent_bind in E as (m' & Em & E); [|solve_grows].
  apply silent_bind in E as ([] & Es & E); [|solve_grows].
  apply silent_bind in E as (rs' & Er & E); [|solve_grows].
  apply silent_bind in E as ([] & Et & E); [|solve_grows]. by injection E as -> -> ->.
Qed.

(** The checksums that were read are those of the entries. *)
Lemma checksums_cover entries cs :
  check_checksums entries cs [] = (Ok tt, []) →
  (∀ p d, (p, d) ∈ cs → ∃ bytes, map_get p entries = Some bytes ∧ sha256 bytes = d) ∧
  (∀ p bytes, map_get p entries = Some bytes → p ≠ CHECKSUMS → startsWith p SIGNATURES = false →
     map_get p cs = Some (sha256 bytes)).
Proof.
  intros E. apply silent_bind in E as ([] & E1 & E2); [|solve_grows].
  rewrite silent_for_each in E1 by solve_grows. rewrite silent_for_each in E2 by solve_grows.
  assert (∀ p d, (p, d) ∈ cs → ∃ bytes, map_get p entries = Some bytes ∧ sha256 bytes = d) as Hcs.
  { intros p d Hin. specialize (E1 _ Hin). cbn [fst snd] in E1. destruct (map_get p entries) as [bytes|]; [|done].
    exists bytes. split; [done|]. apply silent_when in E1. by to_prop. }
  split; [done|]. intros p bytes Hp Hne Hs. pose proof (E2 _ (map_get_elem _ _ _ Hp)) as Ep. cbn [fst] in Ep.
  rewrite Hs, bool_decide_eq_false_2 in Ep by done. apply silent_when, negb_false_iff, bool_decide_eq_true in Ep as [d Hd].
  destruct (Hcs p d) as (b & Hb & <-); [by apply map_get_elem|]. congruence.
Qed.

Lemma read_records_ext a b m kinds rs :
  (∀ k, map_get (record_path k) a = map_get (record_path k) b) →
  ∀ s, read_records a m kinds rs s = read_records b m kinds rs s.
Proof.
  intros Hab. revert rs. induction kinds as [|k kinds IH]; intros rs s; cbn [read_records]; [done|].
  assert (read_records_of a m k rs s = read_records_of b m k rs s) as E by (unfold read_records_of; by rewrite Hab).
  unfold mbind, M_bind. rewrite E. by destruct (read_records_of b m k rs s) as [[rs'|e] s'].
Qed.
End Tamper.

Lemma bytes_of_archive (p x : string) (a : Entries) : map_get p a = Some x → x ∈ a.*2.
Proof. intros Hp%map_get_elem. apply list_elem_of_fmap. by exists (p, x). Qed.

(** Entries under the same checksums agree, a collision apart. *)
Lemma same_checksums_agree `{Crypto} a b cs p :
  check_checksums a cs [] = (Ok tt, []) → check_checksums b cs [] = (Ok tt, []) →
  p ≠ CHECKSUMS → startsWith p SIGNATURES = false →
  map_get p a = map_get p b ∨
  ∃ x y, map_get p a = Some x ∧ map_get p b = Some y ∧ sha256_collision x y.
Proof.
  intros [Ha1 Ha2]%checksums_cover [Hb1 Hb2]%checksums_cover Hne Hs.
  destruct (map_get p a) as [x|] eqn:Ex.
  - destruct (Hb1 p (sha256 x)) as (y & Hy & Hxy); [by apply map_get_elem, Ha2|]. rewrite Hy.
    destruct (sha256_eq_or_collision x y) as [->|Hcol]; [done|by left|right; eauto].
  - destruct (map_get p b) as [y|] eqn:Ey; [|by left].
    destruct (Ha1 p (sha256 y)) as (x & Hx & _); [by apply map_get_elem, Hb2|]. congruence.
Qed.

(** Two archives that verify and carry the same checksum file agree outside
    [signatures/], a collision apart. *)
Lemma same_checksum_file_agree `{Crypto} `{TextCodec} a b la lb da db ra rb :
  verifyArchiveEntriesBase a la da = Ok ra → report_valid ra = true →
  verifyArchiveEntriesBase b lb db = Ok rb → report_valid rb = true →
  map_get CHECKSUMS a = map_get CHECKSUMS b →
  (∀ p, startsWith p SIGNATURES = false → map_get p a = map_get p b) ∨
  ∃ x y, sha256_collision x y ∧ x ∈ a.*2 ∧ y ∈ b.*2.
Proof.
  intros Ha Hva Hb Hvb Heq.
  destruct (valid_runs _ _ _ _ Ha Hva) as (_ & cs & Hca & Hka & _).
  destruct (valid_runs _ _ _ _ Hb Hvb) as (_ & cs' & Hcb & Hkb & _).
  assert (cs' = cs) as -> by (unfold readChecksums in *; rewrite Heq in Hca; congruence).
  pose proof (same_checksums_agree a b cs) as Hag.
  destruct (decide (Exists (λ e, startsWith e.1 SIGNATURES = false ∧ map_get e.1 a ≠ map_get e.1 b) (a ++ b))) as [Hex|Hno].
  - right. apply Exists_exists in Hex as ([p x0] & _ & Hs & Hd). cbn in *. destruct (decide (p = CHECKSUMS)) as [->|Hne]; [done|].
    destruct (Hag p Hka Hkb Hne Hs) as [?|(x & y & Hx & Hy & Hc)]; [done|]. exists x, y. eauto using bytes_of_archive.
  - left. intros p Hs. destruct (decide (map_get p a = map_get p b)) as [|Hd]; [done|]. exfalso. apply Hno.
    apply Exists_exists. destruct (map_get p a) as [x|] eqn:Ex; [|destruct (map_get p b) as [x|] eqn:Ey; [|done]];
      exists (p, x); cbn [fst]; (split; [apply elem_of_app; eauto using map_get_elem|]); (split; [exact Hs|congruence]).
Qed.

(** C31. Archives are tamper evident: if two sets of entries both verify and
    carry the same checksum file, then they agree on every path outside
    [signatures/], and so on the manifest and on the records that are read from
    them, or two entries of theirs are a collision of SHA-256. *)
Theorem archive_tamper_evident `{Crypto} `{TextCodec} a b la lb da db ra rb :
  verifyArchiveEntriesBase a la da = Ok ra → report_valid ra = true →
  verifyArchiveEntriesBase b lb db = Ok rb → report_valid rb = true →
  map_get CHECKSUMS a = map_get CHECKSUMS b →
  ((∀ p, startsWith p SIGNATURES = false → map_get p a = map_get p b) ∧
   report_manifest ra = report_manifest rb ∧ report_records ra = report_records rb) ∨
  ∃ x y, sha256_collision x y ∧ x ∈ a.*2 ∧ y ∈ b.*2.
Proof.
  intros Ha Hva Hb Hvb Heq. destruct (same_checksum_file_agree _ _ _ _ _ _ _ _ Ha Hva Hb Hvb Heq) as [Hall|?]; [left|by right].
  destruct (valid_runs _ _ _ _ Ha Hva) as (_ & _ & _ & _ & Hma & _ & Hra & _).
  destruct (valid_runs _ _ _ _ Hb Hvb) as (_ & _ & _ & _ & Hmb & _ & Hrb & _).
  assert (report_manifest ra = report_manifest rb) as Em.
  { unfold readManifest in *. rewrite (Hall MANIFEST eq_refl) in Hma. congruence. }
  split_and!; [done|done|]. rewrite Em, (read_records_ext a b) in Hra; [congruence|]. intros k. apply Hall. by destruct k.
Qed.
