(* ===== verification/ArchiveRoundTrip.v ===== *)
(** * Assembled archives verify

    What [assembleArchiveEntries] writes, [verifyArchiveEntries] reads: the
    integrity checks (paths, checksums, manifest, record files and counts) all
    pass, the records read are those exported, sorted and with sorted keys, and
    the only issues there can be are those about the content itself (scope,
    references, audit lineage, blob records). *)
From S2P Require Import Prelude Js Concrete Json JsonParse Archive ArchiveLineage ArchiveVerify.
#[local] Arguments String.append !s1 s2 /.

(** ** Lines *)

Definition no_nl (s : string) : bool := forallb (λ c, c !== NL) (chars s).
(** The last character exists and is not white space. *)
Definition solid_end (s : string) : bool :=
  match last (chars s) with Some c => negb (is_space c) | None => false end.

Lemma no_nl_app a b : no_nl (a +:+ b) = no_nl a && no_nl b.
Proof. unfold no_nl. by rewrite chars_app, forallb_app. Qed.

Lemma string_chars s : string_of_list_ascii (chars s) = s.
Proof. apply string_of_list_ascii_of_string. Qed.

Lemma trimEnd_nl s : solid_end s = true → trimEnd (s +:+ nl) = s.
Proof.
  intros Hs. unfold trimEnd, solid_end in *. rewrite chars_app, rev_app_distr.
  change (drop_while is_space (rev (chars nl) ++ rev (chars s))) with (drop_while is_space (rev (chars s))).
  rewrite <- (string_chars s) at 2. f_equal.
  destruct (chars s) as [|x l _] using rev_ind; [done|]. rewrite last_snoc in Hs. rewrite rev_app_distr.
  cbn [rev app drop_while]. apply negb_true_iff in Hs. rewrite Hs. cbn [rev]. by rewrite rev_involutive.
Qed.

Lemma split_none c s : forallb (λ x, x !== c) (chars s) = true → split c s = [s].
Proof.
  induction s as [|x s IH]; cbn; [done|]. intros [Hx Hs]%andb_true_iff. apply negb_true_iff in Hx. rewrite Hx.
  by rewrite IH.
Qed.

Lemma split_app c s t : forallb (λ x, x !== c) (chars s) = true → split c (s +:+ String c t) = s :: split c t.
Proof.
  induction s as [|x s IH]; cbn [String.append split chars list_ascii_of_string forallb].
  - intros _. by rewrite strict_eq_refl.
  - intros [Hx Hs]%andb_true_iff. apply negb_true_iff in Hx. rewrite Hx. by rewrite (IH Hs).
Qed.

Lemma join_cons sep x y xs : join sep (x :: y :: xs) = x +:+ sep +:+ join sep (y :: xs).
Proof. done. Qed.

Lemma split_join xs : xs ≠ [] → forallb no_nl xs = true → split NL (join nl xs) = xs.
Proof.
  induction xs as [|x [|y xs] IH]; intros Hne Hall; [done| |].
  - cbn in *. rewrite andb_true_r in Hall. by apply split_none.
  - apply andb_true_iff in Hall as [Hx Hall]. rewrite join_cons. unfold nl at 1. cbn [String.append].
    rewrite split_app by done. by rewrite IH.
Qed.

Lemma join_last xs x : last xs = Some x → solid_end x = true → solid_end (join nl xs) = true.
Proof.
  induction xs as [|y [|z xs] IH]; intros Hl Hx; [done|by injection Hl as ->|].
  rewrite join_cons. unfold solid_end in *. rewrite chars_app, last_app, chars_app, last_app.
  specialize (IH Hl Hx). by destruct (last (chars (join nl (z :: xs)))).
Qed.

(** A file of lines is read back. *)
Lemma read_lines xs :
  xs ≠ [] → forallb no_nl xs = true → forallb solid_end xs = true → split NL (trimEnd (join nl xs +:+ nl)) = xs.
Proof.
  intros Hne Hnl Hs. destruct (last xs) as [x|] eqn:Hl; [|by apply last_None in Hl].
  rewrite trimEnd_nl; [by apply split_join|]. eapply join_last; [exact Hl|].
  rewrite forallb_elem in Hs. apply Hs. by apply last_Some_elem_of.
Qed.

(** ** Canonical JSON has no line break *)

Lemma no_nl_escape s : no_nl (escape s) = true.
Proof.
  induction s as [|c s IH]; cbn [escape]; [done|]. rewrite no_nl_app, IH, andb_true_r.
  by destruct c as [[] [] [] [] [] [] [] []].
Qed.

Lemma no_nl_stringify s : no_nl (stringify_string s) = true.
Proof. unfold stringify_string. change (no_nl (String QUOTE ?x)) with (no_nl x). by rewrite no_nl_app, no_nl_escape. Qed.

Lemma no_nl_commas xs : forallb no_nl xs = true → no_nl (commas xs) = true.
Proof.
  induction xs as [|x xs IH]; [done|]. intros [Hx Hxs]%andb_true_iff.
  pose proof (commas_cons x xs EmptyString) as E. rewrite !string_app_nil_r in E. rewrite E, no_nl_app, Hx. cbn [andb].
  destruct xs as [|y xs]; [done|]. change (no_nl (String "," ?x)) with (no_nl x). by apply IH.
Qed.

Lemma numeral_no_nl s : forallb numeral_char (chars s) = true → no_nl s = true.
Proof.
  unfold no_nl. intros Hs. apply forallb_elem. rewrite forallb_elem in Hs. intros c Hc. specialize (Hs c Hc).
  apply negb_true_iff, bool_decide_eq_false_2. by intros ->.
Qed.

Lemma no_nl_canonical leb v : no_nl (canonical_with leb v) = true.
Proof.
  induction v as [|b|z|s|l IH|l IH] using json_nested_ind.
  - done.
  - by destruct b.
  - cbn [canonical_with]. destruct (pretty_Z_numeral z) as (c & t & -> & Hc). by apply numeral_no_nl.
  - apply no_nl_stringify.
  - change (no_nl (canonical_with leb (JArray l))) with (no_nl (commas (map (canonical_with leb) l) +:+ "]")).
    rewrite no_nl_app, no_nl_commas; [done|]. apply forallb_elem. intros x (v & -> & Hv)%list_elem_of_fmap.
    rewrite Forall_forall in IH. by apply IH.
  - rewrite canon_object. change (no_nl (String "{" ?x)) with (no_nl x).
    rewrite no_nl_app, no_nl_commas; [done|]. apply forallb_elem. intros x (kv & -> & Hkv)%list_elem_of_fmap.
    rewrite (sort_keys_perm leb l) in Hkv. rewrite Forall_forall in IH.
    unfold stringify_entry. rewrite no_nl_app, no_nl_stringify. change (no_nl (String ":" ?x)) with (no_nl x). by apply IH.
Qed.

Lemma solid_object r : solid_end (canonicalJson (JObject r)) = true.
Proof.
  unfold canonicalJson. rewrite canon_object. unfold solid_end.
  change (chars (String "{" ?x)) with (("{"%char) :: chars x). rewrite chars_app, app_comm_cons, last_app. done.
Qed.

(** ** Adding entries *)

Definition plain (p : string) : bool := (p !== EmptyString) && forallb (λ c, negb (is_space c)) (chars p).

Lemma plain_no_nl p : plain p = true → no_nl p = true ∧ solid_end p = true ∧ p ≠ EmptyString.
Proof.
  intros [Hne Hall]%andb_true_iff. apply negb_true_iff, bool_decide_eq_false in Hne. rewrite forallb_elem in Hall.
  split_and!; [|unfold solid_end|done].
  - apply forallb_elem. intros c Hc. apply negb_true_iff, bool_decide_eq_false_2. intros ->. by specialize (Hall _ Hc).
  - destruct (last (chars p)) as [c|] eqn:Hl; [by apply Hall, last_Some_elem_of|].
    apply last_None in Hl. exfalso. apply Hne. by apply chars_inj.
Qed.

Lemma map_get_app {V : Type} k (m1 m2 : list (string * V)) :
  map_get k (m1 ++ m2) = match map_get k m1 with Some v => Some v | None => map_get k m2 end.
Proof. induction m1 as [|[k' v] m1 IH]; cbn; [done|]. by case_bool_decide. Qed.

Lemma map_get_none {V : Type} k (m : list (string * V)) : map_get k m = None ↔ k ∉ m.*1.
Proof.
  induction m as [|[k' v] m IH]; cbn; [split; [by intros _ ?%elem_of_nil|done]|].
  rewrite elem_of_cons. case_bool_decide; [naive_solver|]. rewrite IH. naive_solver.
Qed.

(** Entries under distinct, safe paths without white space. *)
Definition tidy (entries : Entries) : Prop :=
  NoDup entries.*1 ∧ Forall (λ p, assertSafeArchivePath p = Ok tt ∧ plain p = true) entries.*1.

Lemma add_spec entries path bytes entries' :
  add entries path bytes = Ok entries' →
  entries' = (entries ++ [(path, bytes)])%list ∧ map_get path entries = None ∧ assertSafeArchivePath path = Ok tt.
Proof.
  unfold add. intros Hr. run_inv. destruct x. to_prop.
  match goal with Hm : mret _ = Ok _ |- _ => injection Hm as <- end.
  assert (map_get path entries = None) as Hn by (by apply eq_None_not_Some). split_and!; [|done|done].
  apply map_set_new. by apply map_get_none.
Qed.

Lemma add_tidy entries path bytes entries' :
  plain path = true → tidy entries → add entries path bytes = Ok entries' → tidy entries'.
Proof.
  intros Hp [Hnd Hall] (-> & Hn & Hs)%add_spec. unfold tidy. rewrite fmap_app. cbn. split.
  - apply NoDup_app. split_and!; [done| |apply NoDup_singleton]. intros q Hq ->%list_elem_of_singleton.
    by apply map_get_none in Hn.
  - apply Forall_app. split; [done|]. by repeat constructor.
Qed.

Lemma add_get entries path bytes entries' p :
  add entries path bytes = Ok entries' →
  map_get p entries' = if decide (p = path) then Some bytes else map_get p entries.
Proof.
  intros (-> & Hn & _)%add_spec. rewrite map_get_app. cbn. destruct (decide (p = path)) as [->|Hne].
  - by rewrite Hn, strict_eq_refl.
  - rewrite bool_decide_eq_false_2 by done. by destruct (map_get p entries).
Qed.

Lemma hex_not_space c : is_hex_lower c = true → is_space c = false.
Proof. destruct c as [[] [] [] [] [] [] [] []]; vm_compute; done. Qed.

Lemma blob_path_plain digest path :
  blobArchivePath digest = Ok path → plain path = true ∧ ∃ rest, path = "blobs/" +:+ rest.
Proof.
  unfold blobArchivePath. intros Hr. run_inv.
  assert (path = "blobs/" +:+ slice0 2 digest +:+ "/" +:+ digest) as -> by (by injection H). apply negb_false_iff in Hr. apply SHA256_PATTERN_spec in Hr as [Hlen Hhex].
  split; [|eauto]. destruct (substring_split 0 2 digest) as (_ & pre & post & E & _); [lia|].
  unfold slice0. unfold plain. rewrite bool_decide_eq_false_2 by done. cbn [negb andb].
  assert (∀ s, (∀ c, c ∈ chars s → c ∈ chars digest) → forallb (λ c, negb (is_space c)) (chars s) = true) as Hsp.
  { intros s Hs. apply forallb_elem. intros c Hc. apply negb_true_iff, hex_not_space, Hhex. by apply Hs. }
  rewrite !chars_app, !forallb_app, (Hsp digest), (Hsp (String.substring 0 2 digest)).
  1: reflexivity.
  2: done.
  intros c Hc. rewrite E, !chars_app. set_solver.
Qed.

Section RoundTrip.
Context `{Crypto} `{TextCodec} (localeLe : string → string → bool).

Definition source_of (source : ArchiveSource) (kind : ArchiveRecordKind) : list ArchiveRecord :=
  default [] (map_get kind (source_records source)).
Definition file_of (source : ArchiveSource) (kind : ArchiveRecordKind) : option string :=
  match source_of source kind with
  | [] => None
  | records => Some (encode (record_lines localeLe records +:+ nl))
  end.

Lemma record_path_inj k k' : record_path k = record_path k' → k = k'.
Proof. by destruct k, k'. Qed.
Lemma record_path_plain k : plain (record_path k) = true.
Proof. by destruct k. Qed.

Lemma add_blobs_spec bs entries entries' :
  add_blobs bs entries = Ok entries' → tidy entries →
  tidy entries' ∧ ∀ p, startsWith p "blobs/" = false → map_get p entries' = map_get p entries.
Proof.
  revert entries. induction bs as [|b bs IH]; cbn [add_blobs]; intros entries Hr Ht; [by injection Hr as ->|].
  run_inv. match goal with Hp : blobArchivePath _ = Ok _ |- _ => apply blob_path_plain in Hp as [Hpl [rest ->]] end.
  match goal with Ha : add _ _ _ = Ok ?e, Hb : add_blobs _ _ = _ |- _ =>
    destruct (IH _ Hb) as [Ht' Hg]; [by eapply add_tidy|]; split; [done|]; intros p Hp; rewrite (Hg p Hp), (add_get _ _ _ _ p Ha) end.
  rewrite decide_False; [done|]. intros ->. unfold startsWith in Hp. by rewrite prefix_app in Hp.
Qed.

Lemma add_records_spec source kinds entries entries' :
  add_records localeLe source kinds entries = Ok entries' → NoDup kinds → tidy entries →
  tidy entries' ∧
  (∀ p, (∀ k, k ∈ kinds → p ≠ record_path k) → map_get p entries' = map_get p entries) ∧
  (∀ k, k ∈ kinds → map_get (record_path k) entries = None → map_get (record_path k) entries' = file_of source k).
Proof.
  revert entries. induction kinds as [|k kinds IH]; cbn [add_records]; intros entries Hr Hnd Ht.
  { injection Hr as ->. split_and!; [done|done|by intros ? ?%elem_of_nil]. }
  inversion Hnd as [|? ? Hk Hnd']; subst. fold (source_of source k) in Hr.
  assert (∃ mid, add_records localeLe source kinds mid = Ok entries' ∧ tidy mid ∧
    ∀ p, map_get p mid = if decide (p = record_path k) then match file_of source k with None => map_get p entries | f => f end
                         else map_get p entries) as (mid & Hmid & Htm & Hgm).
  { unfold file_of. destruct (source_of source k) as [|r rs] eqn:E.
    - exists entries. split_and!; [done|done|]. intros p. by destruct (decide _).
    - run_inv. eexists. split_and!; [done|by eapply add_tidy; [apply record_path_plain| |]|]. intros p. by eapply add_get. }
  destruct (IH mid Hmid Hnd' Htm) as (Ht' & Hother & Hfile). split_and!; [done| |].
  - intros p Hp. rewrite Hother by (intros k' Hk'; apply Hp; by right). rewrite Hgm, decide_False; [done|].
    apply Hp. by left.
  - intros k' [->|Hin]%elem_of_cons Hn.
    + rewrite Hother by (intros k' Hk' <-%record_path_inj; done). rewrite Hgm, decide_True by done.
      by destruct (file_of source k).
    + apply Hfile; [done|]. rewrite Hgm, decide_False; [done|]. intros <-%record_path_inj. done.
Qed.

Lemma startsWith_disjoint (c d : ascii) p q s :
  c ≠ d → startsWith s (String c p) = true → startsWith s (String d q) = false.
Proof.
  intros Hcd. unfold startsWith. destruct s as [|x s]; [done|]. cbn [String.prefix].
  destruct (ascii_dec c x) as [<-|]; [|done]. by destruct (ascii_dec d c) as [->|].
Qed.

(** What an assembled archive holds. *)
Record assembled (source : ArchiveSource) (base : Entries) (manifest : json) : Prop := {
  assembled_tidy : tidy base;
  assembled_none : map_get CHECKSUMS base = None;
  assembled_manifest : map_get MANIFEST base = Some (encode (canonicalJson manifest +:+ nl));
  assembled_records k : map_get (record_path k) base = file_of source k;
  assembled_unsigned p : startsWith p SIGNATURES = true → map_get p base = None;
}.

Lemma assemble_spec source entries manifest :
  assembleArchiveEntries localeLe source = Ok (entries, manifest) →
  ∃ base, assembled source base manifest ∧
    entries = (base ++ [(CHECKSUMS, encode (checksum_text localeLe base))])%list ∧
    assertSafeArchivePath CHECKSUMS = Ok tt ∧
    manifest = source_manifest source (sort_by localeLe input_sha256 (default [] (source_blobs source))).
Proof.
  unfold assembleArchiveEntries. intros Hr. run_inv.
  match goal with Hm : mret _ = Ok _ |- _ => injection Hm as -> <- end.
  match goal with
    Hb : add_blobs _ _ = Ok ?e1, Hrs : add_records _ _ _ ?e1 = Ok ?e2, Hm : add ?e2 MANIFEST _ = Ok ?e3,
    Hd : add ?e3 _ _ = Ok ?e4, Hc : add ?e4 CHECKSUMS _ = Ok _ |- _ =>
    rename Hb into Eb, Hrs into Er, Hm into Em, Hd into Ed, Hc into Ec; rename e1 into E1, e2 into E2, e3 into E3, e4 into E4 end.
  destruct (add_blobs_spec _ _ _ Eb) as [Ht1 Hg1]; [by split; constructor|].
  destruct (add_records_spec _ _ _ _ Er) as (Ht2 & Hg2 & Hf2); [by apply (bool_decide_unpack _)|done|].
  apply add_spec in Ec as (-> & Hn & Hs). exists E4. split_and!; [|done|done|done]. split.
  - by eapply (add_tidy _ "README.txt"); [| |exact Ed]; [|eapply (add_tidy _ MANIFEST); [| |exact Em]].
  - done.
  - rewrite (add_get _ _ _ _ _ Ed), decide_False, (add_get _ _ _ _ _ Em), decide_True by done. done.
  - intros k. rewrite (add_get _ _ _ _ _ Ed), decide_False, (add_get _ _ _ _ _ Em), decide_False by (by destruct k).
    apply Hf2; [by destruct k; repeat constructor|]. rewrite Hg1 by (by destruct k). done.
  - intros p Hp. rewrite (add_get _ _ _ _ _ Ed), decide_False, (add_get _ _ _ _ _ Em), decide_False by (by intros ->).
    rewrite Hg2 by (by intros [] _ ->). rewrite Hg1; [done|]. by apply (startsWith_disjoint "s" "b" "ignatures/" "lobs/").
Qed.

(** ** Reading the checksums back *)

Lemma sort_by_perm {A} leb (key : A → string) (xs : list A) : sort_by leb key xs ≡ₚ xs.
Proof.
  unfold sort_by. rewrite (sort_keys_perm leb). rewrite <- list_fmap_compose. cbn. by rewrite list_fmap_id.
Qed.

Lemma slice0_app (a b : string) n : String.length a = n → slice0 n (a +:+ b) = a.
Proof.
  intros <-. unfold slice0. induction a as [|c a IH]; cbn; [by destruct b|]. by rewrite IH.
Qed.

Context `{!CryptoLaws} `{!TextCodecLaws}.

Lemma match_checksum_line e : plain e.1 = true → match_checksum (checksum_line e) = Some (e.1, sha256 e.2).
Proof.
  intros Hp. apply plain_no_nl in Hp as Hq. destruct Hq as (Hnl & _ & Hne).
  pose proof (sha256_hex e.2) as Hx. apply SHA256_PATTERN_spec in Hx as Hl. destruct Hl as [Hl _].
  unfold match_checksum, checksum_line. rewrite slice0_app by done. rewrite Hx, string_app_assoc, after_app.
  rewrite bool_decide_eq_false_2 by done. cbn [negb andb].
  assert (forallb (λ c, (c !== NL) && (c !== ascii_of_nat 13)) (chars e.1) = true) as ->; [|done].
  apply andb_true_iff in Hp as [_ Hp]. rewrite forallb_elem in Hp. apply forallb_elem. intros c Hc. specialize (Hp c Hc).
  apply andb_true_iff. split; apply negb_true_iff, bool_decide_eq_false_2; by intros ->.
Qed.

Lemma checksum_lines_read es result s :
  NoDup (result.*1 ++ es.*1) → Forall (λ p, assertSafeArchivePath p = Ok tt ∧ plain p = true) es.*1 →
  checksum_lines (map checksum_line es) result s = (Ok (result ++ map (λ e, (e.1, sha256 e.2)) es)%list, s).
Proof.
  revert result. induction es as [|[p b] es IH]; intros result Hnd Hall; cbn [map checksum_lines]; [by rewrite app_nil_r|].
  rewrite fmap_cons in *. inversion Hall as [|? ? [Hs Hp] Hall']; subst. cbn [fst] in *.
  rewrite match_checksum_line by done. cbn [fst snd]. rewrite Hs. cbn [is_Ok negb].
  assert (p ∉ result.*1) as Hnp by (apply NoDup_app in Hnd as (_ & Hd & _); intros Hin; apply (Hd _ Hin); left).
  rewrite bool_decide_eq_false_2 by (apply map_get_none in Hnp as ->; by intros [? ?]).
  cbn [when]. run. rewrite map_set_new by done. rewrite IH; [by rewrite <- app_assoc| |done].
  rewrite fmap_app, <- app_assoc. done.
Qed.

(** Entries, their checksum file, and what is under [signatures/]. *)
Definition sealed (base sigs : Entries) : Entries :=
  (base ++ (CHECKSUMS, encode (checksum_text localeLe base)) :: sigs)%list.

Lemma readChecksums_assembled base sigs :
  tidy base → base ≠ [] → map_get CHECKSUMS base = None →
  readChecksums (sealed base sigs) [] =
    (Ok (map (λ e, (e.1, sha256 e.2)) (sort_by localeLe fst base)), []).
Proof.
  intros [Hnd Hall] Hne Hn. unfold readChecksums, sealed. rewrite map_get_app, Hn. cbn [map_get]. rewrite strict_eq_refl, decode_encode.
  assert (Forall (λ p, assertSafeArchivePath p = Ok tt ∧ plain p = true) (sort_by localeLe fst base).*1) as Hall'.
  { by rewrite sort_by_perm. }
  unfold checksum_text. rewrite read_lines.
  - rewrite checksum_lines_read; [done| |done]. cbn. by rewrite sort_by_perm.
  - intros E%fmap_nil_inv. pose proof (sort_by_perm localeLe fst base) as Hp. rewrite E in Hp. by apply Permutation_nil in Hp.
  - apply forallb_elem. intros line (e & -> & He)%list_elem_of_fmap. unfold checksum_line. rewrite !no_nl_app.
    rewrite Forall_forall in Hall'. destruct (plain_no_nl e.1) as (-> & _ & _); [by apply Hall', list_elem_of_fmap_2|].
    pose proof (sha256_hex e.2) as [_ Hx]%SHA256_PATTERN_spec. rewrite andb_true_r.
    apply forallb_elem. intros c Hc. apply negb_true_iff, bool_decide_eq_false_2. intros ->. by specialize (Hx _ Hc).
  - apply forallb_elem. intros line (e & -> & He)%list_elem_of_fmap. unfold checksum_line, solid_end.
    rewrite Forall_forall in Hall'. destruct (plain_no_nl e.1) as (_ & Hs & _); [by apply Hall', list_elem_of_fmap_2|].
    rewrite !chars_app, !last_app. unfold solid_end in Hs. by destruct (last (chars e.1)).
Qed.

Lemma check_checksums_assembled base sigs :
  tidy base → Forall (λ p, startsWith p SIGNATURES = true) sigs.*1 →
  check_checksums (sealed base sigs) (map (λ e, (e.1, sha256 e.2)) (sort_by localeLe fst base)) [] = (Ok tt, []).
Proof.
  intros [Hnd Hall] Hsigs. unfold check_checksums, sealed. erewrite bind_Ok_run.
  - apply silent_for_each; [solve_grows|]. intros e [He|[->|He]%elem_of_cons]%elem_of_app; [|done|].
    2: { rewrite Forall_forall in Hsigs. rewrite (Hsigs e.1) by (by apply list_elem_of_fmap_2). by rewrite orb_true_r. }
    destruct (_ || _); [done|]. apply silent_when, negb_false_iff, bool_decide_eq_true_2.
    destruct (map_get e.1 _) eqn:E; [eauto|]. apply map_get_none in E. exfalso. apply E.
    rewrite <- list_fmap_compose. cbn. apply list_elem_of_fmap. exists e. by rewrite sort_by_perm.
  - apply silent_for_each; [solve_grows|]. intros pe (e & -> & He)%list_elem_of_fmap. cbn [fst snd].
    rewrite sort_by_perm in He. rewrite map_get_app.
    rewrite (map_elem_get e.1 e.2 base Hnd) by (by destruct e). by apply silent_when, negb_false_iff, bool_decide_eq_true_2.
Qed.

(** ** Reading the manifest back *)

Definition records_wf (source : ArchiveSource) : Prop := ∀ k r, r ∈ source_of source k → json_wf (JObject r).

Lemma obj_get_wf l k v : json_wf (JObject l) → obj_get l k = Some v → json_wf v.
Proof.
  intros [Hnd Hwf] Hg. apply obj_get_elem in Hg; [|done]. apply (proj1 (Forall_map _ _ _)) in Hwf.
  rewrite Forall_forall in Hwf. exact (Hwf _ Hg).
Qed.

Lemma lineage_wf source : records_wf source → json_wf (auditLineage source).
Proof.
  intros Hwf. split; [by apply (bool_decide_unpack _)|]. repeat constructor; [|by destruct (List.find _ _)].
  unfold id. cbn [snd]. destruct (List.find _ _) as [e|] eqn:Ef; [|done]. cbn [mbind option_bind].
  destruct (obj_get e "eventHash") as [v|] eqn:Ev; [|done]. apply find_Some_elem in Ef as [Hin _].
  assert (json_wf v) as Hv by (eapply obj_get_wf; [|exact Ev]; by apply (Hwf audit_events)). by destruct v.
Qed.

(** A manifest with its version and signature profile: [{ ...manifest, formatVersion, signatureProfile }]. *)
Definition with_profile (version : string) (profile : json) (manifest : json) : json :=
  match manifest with
  | JObject l => JObject (map_set "signatureProfile" profile (map_set "formatVersion" (JString version) l))
  | v => v
  end.
Abbreviation manifest_as version profile source bs := (with_profile version profile (source_manifest source bs)).

Lemma source_manifest_profile source bs : source_manifest source bs = manifest_as "0.2" (JString "unsigned") source bs.
Proof. done. Qed.

(** A profile that its version admits. *)
Inductive profile_ok : string → json → Prop :=
  | profile_unsigned : profile_ok "0.2" (JString "unsigned")
  | profile_signed keyId : Nat.ltb 0 (String.length keyId) = true →
      profile_ok "0.3" (JObject [("name", JString "trust-core-manifest-signature-v1"); ("algorithm", JString "Ed25519");
                                 ("keyId", JString keyId)]).

Definition profile_read (profile : json) : json :=
  match profile with
  | JObject [name; algorithm; keyId] => JObject [algorithm; keyId; name]
  | v => v
  end.
Lemma normal_profile version profile : profile_ok version profile → normalise String.leb profile = profile_read profile.
Proof. by intros []. Qed.

Lemma manifest_wf version profile source bs :
  profile_ok version profile → records_wf source → json_wf (manifest_as version profile source bs).
Proof.
  intros Hp Hwf. assert (json_wf profile) as Hpw by (destruct Hp; [done|split; [by apply (bool_decide_unpack _)|by repeat constructor]]).
  split; [by apply (bool_decide_unpack _)|]. pose proof (lineage_wf source Hwf) as Hl.
  repeat apply List.Forall_cons; try exact I; try apply List.Forall_nil; unfold id; cbn [snd].
  - cbn [json_wf]. apply Forall_map, Forall_map. by apply Forall_true.
  - exact Hpw.
  - exact Hl.
  - split; [by apply (bool_decide_unpack _)|]. apply Forall_map, Forall_map. by apply Forall_true.
Qed.

Lemma manifest_prop version profile source bs k :
  js_prop (normalise String.leb (manifest_as version profile source bs)) k =
    normalise String.leb <$> js_prop (manifest_as version profile source bs) k.
Proof. apply js_prop_normalise. by apply (bool_decide_unpack _). Qed.

Lemma lineage_prop source k :
  js_prop (normalise String.leb (auditLineage source)) k = normalise String.leb <$> js_prop (auditLineage source) k.
Proof. apply js_prop_normalise. by apply (bool_decide_unpack _). Qed.

Lemma prop_object l name s : prop (JObject l) name s = (Ok (js_prop (JObject l) name), s).
Proof. done. Qed.

Lemma readManifest_assembled version profile source bs entries :
  profile_ok version profile → records_wf source → isSafe (Z.of_nat (length (source_of source audit_events))) = true →
  map_get MANIFEST entries = Some (encode (canonicalJson (manifest_as version profile source bs) +:+ nl)) →
  readManifest entries [] = (Ok (Some (normalise String.leb (manifest_as version profile source bs))), []).
Proof.
  intros Hprof Hwf Hsafe Hg. unfold readManifest. rewrite Hg, decode_encode. cbn [mbind option_bind].
  pose proof (manifest_wf version profile source bs Hprof Hwf) as Hm. rewrite canonicalJson_read by auto.
  pose proof (manifest_prop version profile source bs) as Hp. pose proof (canonicalJson_normalise _ Hm) as Hc.
  destruct (normalise String.leb (manifest_as version profile source bs)) as [| | | | |nm] eqn:En; try discriminate En.
  pose proof (lineage_prop source) as Hl.
  unfold try_catch. erewrite bind_Ok_run by apply prop_object. rewrite !Hp, Hc.
  destruct (normalise String.leb (auditLineage source)) as [| | | | |nl'] eqn:Enl; try discriminate Enl.
  assert (js_prop (manifest_as version profile source bs) "auditLineage" = Some (auditLineage source)) as -> by done.
  cbn [fmap option_fmap option_map]. rewrite Enl. cbn [prop_opt]. rewrite !Hl.
  change (js_prop (manifest_as version profile source bs) "format") with (Some (JString "trustarchive")).
  change (js_prop (manifest_as version profile source bs) "formatVersion") with (Some (JString version)).
  change (js_prop (manifest_as version profile source bs) "checksumAlgorithm") with (Some (JString "sha256")).
  change (js_prop (manifest_as version profile source bs) "canonicalJsonProfile") with (Some (JString "trust-core-canonical-json-v1")).
  change (js_prop (manifest_as version profile source bs) "signatureProfile") with (Some profile).
  change (js_prop (manifest_as version profile source bs) "workspaceId") with (Some (JString (source_workspaceId source))).
  change (js_prop (auditLineage source) "mode") with (Some (JString "source_chain")).
  unfold prop. run. rewrite !Hl.
  change (js_prop (auditLineage source) "sourceWorkspaceId") with (Some (JString (source_workspaceId source))).
  change (js_prop (auditLineage source) "eventCount") with (Some (JNumber (Z.of_nat (length (source_of source audit_events))))).
  cbn [fmap option_fmap option_map]. rewrite (normal_profile _ _ Hprof). clear -Hprof Hsafe.
  match goal with |- context [if negb ?u && negb ?v then issue _ _ _ ≫= _ else _] =>
    assert (negb u && negb v = false) as -> by (destruct Hprof as [|keyId Hk]; [reflexivity|];
      transitivity (negb (Nat.ltb 0 (String.length keyId))); [reflexivity|by rewrite Hk]) end.
  assert ((version !== "0.2") && (version !== "0.3") = false) as Hv by (by destruct Hprof).
  cbn [js_same normalise]. rewrite Hv, !strict_eq_refl. cbn [negb orb andb]. run. cbn [js_same].
  rewrite strict_eq_refl, Hsafe, (proj2 (Z.ltb_ge _ _)) by lia. done.
Qed.

(** ** Reading the records back *)

(** The records as they are read: sorted, their keys sorted. *)
Definition exported (source : ArchiveSource) (kind : ArchiveRecordKind) : list json :=
  map (λ r, normalise String.leb (JObject r)) (sort_by localeLe record_key (source_of source kind)).
Definition exported_records (source : ArchiveSource) (kinds : list ArchiveRecordKind) :
    list (ArchiveRecordKind * list json) :=
  omap (λ k, match source_of source k with [] => None | _ => Some (k, exported source k) end) kinds.

Lemma parse_jsonl_lines rs :
  rs ≠ [] → Forall (λ r, json_wf (JObject r)) rs →
  parse_jsonl (record_lines localeLe rs +:+ nl) =
    Some (map (λ r, normalise String.leb (JObject r)) (sort_by localeLe record_key rs)).
Proof.
  intros Hne Hwf. unfold parse_jsonl, record_lines. rewrite <- (sort_by_perm localeLe record_key rs) in Hwf.
  assert (sort_by localeLe record_key rs ≠ []) as Hne'.
  { intros E. pose proof (sort_by_perm localeLe record_key rs) as Hp. rewrite E in Hp. by apply Permutation_nil in Hp. }
  revert Hne' Hwf. generalize (sort_by localeLe record_key rs). intros xs Hne' Hwf.
  assert (∀ f : string → bool, (∀ r, f (canonicalJson (JObject r)) = true) →
    forallb f (map (λ r, canonicalJson (JObject r)) xs) = true) as Hall.
  { intros f Hf. apply forallb_elem. intros line (r & -> & _)%list_elem_of_fmap. apply Hf. }
  rewrite read_lines; [|by intros ?%fmap_nil_inv|apply Hall; intros; apply no_nl_canonical|apply Hall, solid_object].
  clear Hne Hne' Hall. induction Hwf as [|r xs Hr _ IH]; [done|]. cbn [map List.filter].
  assert ((canonicalJson (JObject r) !== EmptyString) = true) as -> by done. cbn [mapM].
  pose proof (canonicalJson_read (JObject r) EmptyString Hr) as Hp. rewrite string_app_nil_r in Hp. rewrite Hp by auto.
  cbn [mbind option_bind]. by rewrite IH.
Qed.

Lemma record_count_assembled version profile source bs k :
  record_count (normalise String.leb (manifest_as version profile source bs)) k =
    Ok (Some (JNumber (Z.of_nat (length (source_of source k))))).
Proof.
  unfold record_count. rewrite manifest_prop.
  set (counts := map (λ kind, (kind_name kind, JNumber (Z.of_nat (length (source_of source kind))))) archiveRecordKinds).
  change (js_prop (manifest_as version profile source bs) "recordCounts") with (Some (JObject counts)).
  cbn [fmap option_fmap option_map].
  assert (NoDup (map fst counts)) as Hnd by (by apply (bool_decide_unpack _)).
  pose proof (js_prop_normalise counts (kind_name k) Hnd) as E.
  destruct (normalise String.leb (JObject counts)) as [| | | | |c] eqn:Ec; try discriminate Ec. rewrite E. by destruct k.
Qed.

Lemma exported_length source k : length (exported source k) = length (source_of source k).
Proof. unfold exported. rewrite length_map. apply Permutation_length, sort_by_perm. Qed.

Lemma read_records_assembled version profile source bs entries kinds rs :
  records_wf source → (∀ k, map_get (record_path k) entries = file_of source k) →
  read_records entries (Some (normalise String.leb (manifest_as version profile source bs))) kinds rs [] =
    (Ok (rs ++ exported_records source kinds)%list, []).
Proof.
  intros Hwf Hf. revert rs. induction kinds as [|k kinds IH]; intros rs; cbn [read_records]; [by rewrite app_nil_r|].
  assert (read_records_of entries (Some (normalise String.leb (manifest_as version profile source bs))) k rs [] =
    (Ok (rs ++ match source_of source k with [] => [] | _ => [(k, exported source k)] end)%list, [])) as E.
  - unfold read_records_of. rewrite Hf. unfold file_of. pose proof (exported_length source k) as Hlen.
    destruct (source_of source k) as [|r0 rest] eqn:Es.
    + rewrite record_count_assembled, Es, app_nil_r. run. done.
    + rewrite decode_encode. cbn [mbind option_bind]. rewrite parse_jsonl_lines; [|done|apply Forall_forall; intros r Hr; apply (Hwf k); by rewrite Es].
      rewrite record_count_assembled, Es, <- Es. fold (exported source k). rewrite Es, Hlen. cbn [js_same]. rewrite strict_eq_refl. done.
  - erewrite bind_Ok_run by exact E. rewrite IH. do 2 f_equal. unfold exported_records. cbn [omap list_omap].
    destruct (source_of source k); cbn [app]; [by rewrite app_nil_r|by rewrite <- app_assoc].
Qed.
End RoundTrip.

(** ** The content checks return on records that are objects *)

Definition returns {A} (m : V A) : Prop := ∀ s, ∃ a s', m s = (Ok a, s').

Lemma returns_ret {A} (a : A) : returns (mret a).
Proof. intros s. by eexists _, _. Qed.
Lemma returns_issue code message path : returns (issue code message path).
Proof. intros s. by eexists _, _. Qed.
Lemma returns_when b m : returns m → returns (when b m).
Proof. intros Hm. destruct b; [done|]. apply returns_ret. Qed.
Lemma returns_bind {A B} (m : V A) (f : A → V B) : returns m → (∀ a, returns (f a)) → returns (m ≫= f).
Proof. intros Hm Hf s. destruct (Hm s) as (a & s' & E). erewrite bind_Ok_run by exact E. apply Hf. Qed.
Lemma returns_for_each {A} (f : A → V unit) xs : (∀ x, x ∈ xs → returns (f x)) → returns (for_each f xs).
Proof.
  induction xs as [|x xs IH]; intros Hf; cbn [for_each]; [apply returns_ret|].
  apply returns_bind; [apply Hf; left|]. intros _. apply IH. intros y Hy. apply Hf. by right.
Qed.
Lemma returns_map_each {A B} (f : A → V B) xs : (∀ x, x ∈ xs → returns (f x)) → returns (map_each f xs).
Proof.
  induction xs as [|x xs IH]; intros Hf; cbn [map_each]; [apply returns_ret|].
  apply returns_bind; [apply Hf; left|]. intros y. apply returns_bind; [|intros; apply returns_ret].
  apply IH. intros z Hz. apply Hf. by right.
Qed.
Lemma returns_if {A} (b : bool) (m1 m2 : V A) : returns m1 → returns m2 → returns (if b then m1 else m2).
Proof. by destruct b. Qed.

Create HintDb returns.
#[export] Hint Resolve returns_ret returns_issue returns_when returns_bind returns_for_each returns_map_each returns_if : returns.

Definition is_object (v : json) : Prop := ∃ l, v = JObject l.

Section Returns.
Context `{Crypto} `{TextCodec}.

Lemma returns_prop v name : is_object v → returns (prop v name).
Proof. intros [l ->]. apply returns_ret. Qed.
Lemma returns_has_prop v name : is_object v → returns (has_prop v name).
Proof. intros [l ->]. apply returns_ret. Qed.
#[local] Hint Resolve returns_prop returns_has_prop : returns.

Lemma returns_validate_blobs rs entries total : Forall is_object rs → returns (validate_blobs rs entries total).
Proof.
  intros Hrs. revert total. induction Hrs as [|r rs Hr _ IH]; intros total; cbn [validate_blobs]; [apply returns_ret|].
  apply returns_bind; [|done]. unfold validate_blob. apply returns_bind; [by apply returns_prop|]. intros sha.
  repeat case_match; auto 7 with returns.
Qed.

Lemma returns_check_content entries m l records :
  js_prop m "auditLineage" = Some (JObject l) → Forall (λ kv, Forall is_object kv.2) records →
  returns (check_content entries (Some m) records).
Proof.
  intros Hm Hall. assert (∀ k, Forall is_object (records_of records k)) as Hk.
  { intros k. unfold records_of. destruct (map_get k records) as [rs|] eqn:E; [|constructor].
    apply map_get_elem in E. rewrite Forall_forall in Hall. exact (Hall _ E). }
  assert (∀ k r, r ∈ records_of records k → is_object r) as Hobj by (intros k; apply Forall_forall, Hk).
  unfold check_content. apply returns_bind; [|intros _; apply returns_bind; [|intros _]].
  - unfold validateScopeAndReferences, id_set, reference_issue. rewrite Forall_forall in Hall.
    apply returns_bind; [apply returns_bind; [apply returns_map_each; eauto with returns|auto with returns]|]. intros ids1.
    apply returns_bind; [apply returns_bind; [apply returns_map_each; eauto with returns|auto with returns]|]. intros ids2.
    apply returns_bind; [|intros _; apply returns_for_each; auto with returns].
    apply returns_for_each. intros kv Hkv. apply returns_for_each. intros r Hr. specialize (Hall kv Hkv).
    rewrite Forall_forall in Hall. apply returns_bind; [by apply returns_has_prop, Hall|auto with returns].
  - unfold validateAuditLineage, lineage_issue. rewrite Hm. cbn [prop_opt]. apply returns_bind; [by apply returns_prop; eexists|].
    intros count. apply returns_bind; [auto with returns|]. intros _. apply returns_if; [auto with returns|].
    apply returns_bind; [|intros hashes; auto 9 with returns].
    apply returns_map_each. intros e He. apply returns_bind; [by eapply returns_prop, Hobj|auto with returns].
  - unfold validateBlobs. apply returns_bind; [by apply returns_validate_blobs|auto with returns].
Qed.
End Returns.

Lemma check_limits_pass entries limits :
  Forall (λ p, assertSafeArchivePath p = Ok tt) entries.*1 →
  (Z.of_nat (length entries) ≤ maxEntries limits)%Z →
  Forall (λ e, (Z.of_nat (String.length e.2) ≤ maxEntryBytes limits)%Z) entries →
  (sum_lengths entries ≤ maxTotalBytes limits)%Z → check_limits entries limits [] = (Ok tt, []).
Proof.
  intros Hs Hn Hb Ht. unfold check_limits. apply Z.ltb_ge in Hn, Ht. rewrite Hn, Ht. cbn [when]. run.
  rewrite (bind_Ok_run _ _ [] tt []); [done|].
  apply silent_for_each; [solve_grows|]. intros e He. rewrite Forall_forall in Hs. rewrite Forall_forall in Hb.
  rewrite (Hs e.1) by (by apply list_elem_of_fmap_2). cbn [is_Ok negb when]. run.
  specialize (Hb e He). apply Z.ltb_ge in Hb. by rewrite Hb.
Qed.

Lemma exported_objects localeLe source kinds :
  Forall (λ kv, Forall is_object kv.2) (exported_records localeLe source kinds).
Proof.
  apply Forall_forall. intros [k rs] (k' & _ & E)%list_elem_of_omap. destruct (source_of source k'); [done|].
  injection E as -> <-. apply Forall_forall. intros v (r & -> & _)%list_elem_of_fmap. by eexists.
Qed.

(** The limits of verification, as a caller meets them. *)
Definition within_limits (entries : Entries) (limits : ArchiveVerificationLimits) : Prop :=
  (Z.of_nat (length entries) ≤ maxEntries limits)%Z ∧
  Forall (λ e, (Z.of_nat (String.length e.2) ≤ maxEntryBytes limits)%Z) entries ∧
  (sum_lengths entries ≤ maxTotalBytes limits)%Z.

Section Sealed.
Context `{CryptoLaws} `{TextCodecLaws} (localeLe : string → string → bool).
Context (source : ArchiveSource) (base : Entries) (version : string) (profile : json).
Abbreviation manifest :=
  (with_profile version profile (source_manifest source (sort_by localeLe input_sha256 (default [] (source_blobs source))))).
Abbreviation seal := (sealed localeLe base).

(** An assembled archive whose manifest has the given profile, with what is
    under [signatures/]: only the content checks can raise issues. *)
Lemma sealed_verifies sigs limits d :
  profile_ok version profile → records_wf source →
  isSafe (Z.of_nat (length (source_of source audit_events))) = true →
  assembled localeLe source base manifest →
  Forall (λ p, startsWith p SIGNATURES = true ∧ assertSafeArchivePath p = Ok tt) sigs.*1 →
  check_signature_presence (seal sigs) (Some (normalise String.leb manifest)) d [] = (Ok tt, []) →
  within_limits (seal sigs) limits →
  ∃ issues,
    check_content (seal sigs) (Some (normalise String.leb manifest)) (exported_records localeLe source archiveRecordKinds) [] =
      (Ok tt, issues) ∧
    verifyArchiveEntriesBase (seal sigs) limits d =
      Ok (mkReport (issues === []) (Z.of_nat (length base)) issues (Some (normalise String.leb manifest))
        (exported_records localeLe source archiveRecordKinds)).
Proof.
  intros Hprof Hwf Hsafe [Ht Hn Hm Hr _] Hsigs Hpres (Hl1 & Hl2 & Hl3).
  assert (∀ p, p ≠ CHECKSUMS → startsWith p SIGNATURES = false → map_get p (seal sigs) = map_get p base) as Hget.
  { intros p Hp Hs. unfold sealed. rewrite map_get_app. cbn. rewrite bool_decide_eq_false_2 by done.
    destruct (map_get p base); [done|]. apply map_get_none. intros Hin. rewrite Forall_forall in Hsigs.
    destruct (Hsigs p Hin). congruence. }
  assert (∃ l, js_prop (normalise String.leb manifest) "auditLineage" = Some (JObject l)) as [l Hl].
  { rewrite manifest_prop. by eexists. }
  destruct (returns_check_content (seal sigs) _ l (exported_records localeLe source archiveRecordKinds) Hl
    (exported_objects _ _ _) []) as ([] & issues & Hc).
  exists issues. split; [done|]. unfold verifyArchiveEntriesBase, verify_program.
  erewrite bind_Ok_run by (apply check_limits_pass; [|done..]; unfold sealed; rewrite fmap_app; apply Forall_app; split;
    [destruct Ht as [_ Ht]; eapply Forall_impl; [exact Ht|]; naive_solver|];
    apply Forall_cons_2; [done|]; eapply Forall_impl; [exact Hsigs|]; naive_solver).
  erewrite bind_Ok_run by (apply readChecksums_assembled; [apply _|apply _|done| |done]; by intros ->).
  erewrite bind_Ok_run by (apply check_checksums_assembled; [done|]; eapply Forall_impl; [exact Hsigs|]; naive_solver).
  erewrite bind_Ok_run by (apply (readManifest_assembled version profile source); [done..|by rewrite Hget]).
  erewrite bind_Ok_run by exact Hpres.
  erewrite bind_Ok_run by (apply read_records_assembled; [apply _|done|]; intros k; rewrite Hget by (by destruct k); apply Hr).
  cbn [app]. erewrite bind_Ok_run by exact Hc. rewrite mret_run. do 3 f_equal.
  by rewrite length_map, (Permutation_length (sort_by_perm localeLe fst base)).
Qed.
End Sealed.

(** C32. What an export assembles, verification accepts: for an archive
    assembled from records without repeated keys, within the size limits, the
    paths, checksums, manifest, record files and counts all verify; the manifest
    and the records read are those exported (records sorted by identity, object
    keys sorted); and the report's issues are exactly those of the content
    checks (scope, references, audit lineage, blob records), which return. *)
Theorem assembled_archive_verifies `{CryptoLaws} `{TextCodecLaws} localeLe source entries manifest limits :
  assembleArchiveEntries localeLe source = Ok (entries, manifest) →
  records_wf source → isSafe (Z.of_nat (length (source_of source audit_events))) = true →
  within_limits entries limits →
  ∃ issues,
    check_content entries (Some (normalise String.leb manifest))
      (exported_records localeLe source archiveRecordKinds) [] = (Ok tt, issues) ∧
    verifyArchiveEntries entries limits =
      Ok (mkReport (issues === []) (Z.of_nat (length entries) - 1) issues (Some (normalise String.leb manifest))
        (exported_records localeLe source archiveRecordKinds)).
Proof.
  intros Ha Hwf Hsafe Hl. destruct (assemble_spec localeLe source entries manifest Ha) as (base & Hb & -> & _ & ->).
  rewrite source_manifest_profile in *. pose proof (assembled_unsigned _ _ _ _ Hb manifestSignaturePath eq_refl) as Hsig.
  pose proof (assembled_none _ _ _ _ Hb) as Hn.
  destruct (sealed_verifies localeLe source base "0.2" (JString "unsigned") [] limits false) as (issues & Hc & Hv);
    [constructor|done|done|done|constructor| |done|].
  - cbn [check_signature_presence]. unfold is_unsigned, sealed. by rewrite manifest_prop, map_get_app, Hsig.
  - exists issues. split; [exact Hc|]. unfold verifyArchiveEntries. fold (sealed localeLe base []). rewrite Hv. do 2 f_equal.
    unfold sealed. rewrite length_app. cbn. lia.
Qed.

Module ArchiveWitness.
Import Archive.Utf8.
Definition event_hash_1 : string := "1111111111111111111111111111111111111111111111111111111111111111".
Definition blob_bytes : string := "some bytes".
Definition source : ArchiveSource :=
  mkSource "x1" "w1" ["d1"] "2026-01-01T00:00:00.000Z" "u1" "1.0"
    [(workspaces, [[("id", JString "w1"); ("name", JString "one")]]);
     (resources, [[("workspaceId", JString "w1"); ("id", JString "r1")]]);
     (revisions, [[("id", JString "v2"); ("resourceId", JString "r1"); ("parentRevisionId", JString "v1")];
                  [("id", JString "v1"); ("resourceId", JString "r1"); ("parentRevisionId", JNull)]]);
     (blobs, [[("id", JString "b1"); ("sha256", JString (sha256 blob_bytes)); ("byteLength", JNumber 10)]]);
     (audit_events, [[("eventHash", JString event_hash_1); ("previousEventHash", JNull)]])]
    (Some [mkBlobInput (sha256 blob_bytes) 10 blob_bytes]).
Definition archive : Entries * json :=
  match assembleArchiveEntries String.leb source with Ok a => a | Err _ => ([], JNull) end.

Lemma records_wf_of s :
  Forall (λ kr, Forall (λ r, json_wf (JObject r)) kr.2) (source_records s) → records_wf s.
Proof.
  intros Hall k r Hr. unfold source_of in Hr. destruct (map_get k (source_records s)) as [rs|] eqn:E; [|by apply elem_of_nil in Hr].
  apply map_get_elem in E. rewrite Forall_forall in Hall. specialize (Hall _ E). cbn [snd] in Hall.
  rewrite Forall_forall in Hall. by apply Hall.
Qed.

Lemma source_wf : records_wf source.
Proof.
  apply records_wf_of. unfold source. cbn [source_records]. generalize (sha256 blob_bytes). intros d.
  repeat (apply Forall_cons_2 || apply Forall_nil_2);
    (split; [apply (bool_decide_unpack _); vm_compute; exact I|by repeat constructor]).
Qed.

Lemma assembled_archive_verifies_witness :
  ∃ issues,
    check_content archive.1 (Some (normalise String.leb archive.2))
      (exported_records String.leb source archiveRecordKinds) [] = (Ok tt, issues) ∧
    verifyArchiveEntries archive.1 defaults =
      Ok (mkReport (issues === []) (Z.of_nat (length archive.1) - 1) issues (Some (normalise String.leb archive.2))
        (exported_records String.leb source archiveRecordKinds)).
Proof.
  apply (assembled_archive_verifies String.leb source archive.1 archive.2 defaults).
  - vm_compute. reflexivity.
  - exact source_wf.
  - reflexivity.
  - split_and!; [vm_compute; discriminate|apply (bool_decide_unpack _); vm_compute; exact I|vm_compute; discriminate].
Defined.

(** This archive has no issue. *)
Example assembled_valid :
  match verifyArchiveEntries archive.1 defaults with Ok r => report_valid r | Err _ => false end = true.
Proof. vm_compute. reflexivity. Qed.

(** An entry under [signatures/] is not checked, whatever it holds. *)
Definition with_note : Entries := (archive.1 ++ [("signatures/note.txt", "unchecked")])%list.

Lemma archive_tamper_evident_witness :
  ∃ ra rb, verifyArchiveEntriesBase archive.1 defaults false = Ok ra ∧
    verifyArchiveEntriesBase with_note defaults false = Ok rb ∧
    (((∀ p, startsWith p SIGNATURES = false → map_get p archive.1 = map_get p with_note) ∧
      report_manifest ra = report_manifest rb ∧ report_records ra = report_records rb) ∨
     ∃ x y, sha256_collision x y ∧ x ∈ archive.1.*2 ∧ y ∈ with_note.*2).
Proof.
  eexists _, _. split; [vm_compute; reflexivity|]. split; [vm_compute; reflexivity|].
  eapply (archive_tamper_evident archive.1 with_note defaults defaults false false);
    [vm_compute; reflexivity|reflexivity|vm_compute; reflexivity|reflexivity|vm_compute; reflexivity].
Defined.
End ArchiveWitness.
