(* ===== verification/ArchiveSignature.v ===== *)
(** * Archive signatures

    [packages/archive/src/signature.ts] and the verification with signatures of
    [verify.ts]: a signer signs a text that holds the digests of the manifest and
    of the checksum file; the signature is an artifact under [signatures/],
    written as canonical JSON with the signature in base64.

    The signer and the verifier are the interfaces [ArchiveManifestSigner] and
    [ArchiveManifestVerifier], whose implementations are the caller's: arguments
    here.  Two theorems: what a signer signs, a verifier that knows its key
    accepts, with the content of the archive unchanged; and a signed archive that
    verifies holds a manifest and a checksum file that the key's holder signed,
    and no other content outside [signatures/] verifies with that checksum file. *)
From S2P Require Import Prelude Js Concrete Json JsonParse Archive ArchiveVerify ArchiveRoundTrip.
#[local] Arguments String.append !s1 s2 /.

(** ** Base64 *)

Definition base64_alphabet : string := "ABCDEFGHIJKLMNOPQRSTUVWXYZabcdefghijklmnopqrstuvwxyz0123456789+/".
Definition EQUALS : ascii := "="%char.

Definition base64_char (n : nat) : ascii := default EQUALS (String.get n base64_alphabet).
(** The six bits of a character of the alphabet. *)
Definition base64_value (c : ascii) : option nat :=
  let n := nat_of_ascii c in
  if is_upper c then Some (n - 65)
  else if is_lower c then Some (n - 71)
  else if is_digit c then Some (n + 4)
  else if c === "+"%char then Some 62
  else if c === "/"%char then Some 63
  else None.
Definition is_base64 (c : ascii) : bool := bool_decide (is_Some (base64_value c)).

(** [Buffer.from(bytes).toString("base64")] *)
Fixpoint toBase64 (bytes : string) : string :=
  match bytes with
  | EmptyString => EmptyString
  | String a EmptyString =>
      let a := nat_of_ascii a in
      String (base64_char (a / 4)) (String (base64_char (a mod 4 * 16)) (String EQUALS (String EQUALS EmptyString)))
  | String a (String b EmptyString) =>
      let a := nat_of_ascii a in let b := nat_of_ascii b in
      String (base64_char (a / 4)) (String (base64_char (a mod 4 * 16 + b / 16))
        (String (base64_char (b mod 16 * 4)) (String EQUALS EmptyString)))
  | String a (String b (String c rest)) =>
      let a := nat_of_ascii a in let b := nat_of_ascii b in let c := nat_of_ascii c in
      String (base64_char (a / 4)) (String (base64_char (a mod 4 * 16 + b / 16))
        (String (base64_char (b mod 16 * 4 + c / 64)) (String (base64_char (c mod 64)) (toBase64 rest))))
  end.

(** [/^(?:[A-Za-z0-9+/]{4})*(?:[A-Za-z0-9+/]{2}==|[A-Za-z0-9+/]{3}=)?$/] *)
Fixpoint base64_pattern (s : string) : bool :=
  match s with
  | EmptyString => true
  | String a (String b (String c (String d rest))) =>
      is_base64 a && is_base64 b &&
      ((is_base64 c && is_base64 d && base64_pattern rest) ||
       ((rest === EmptyString) && (d === EQUALS) && ((c === EQUALS) || is_base64 c)))
  | _ => false
  end.

(** [Buffer.from(s, "base64")], for what the pattern admits: four characters give
    three bytes, padding gives one byte fewer a sign. *)
Fixpoint fromBase64 (s : string) : string :=
  match s with
  | String a (String b (String c (String d rest))) =>
      let value x := default 0 (base64_value x) in
      let byte1 := ascii_of_nat (value a * 4 + value b / 16) in
      let byte2 := ascii_of_nat (value b mod 16 * 16 + value c / 4) in
      let byte3 := ascii_of_nat (value c mod 4 * 64 + value d) in
      if c === EQUALS then String byte1 EmptyString
      else if d === EQUALS then String byte1 (String byte2 EmptyString)
      else String byte1 (String byte2 (String byte3 (fromBase64 rest)))
  | _ => EmptyString
  end.

(** Source: packages/archive/src/signature.ts:211-224 decodeBase64 *)
Definition decodeBase64 (value : string) : option string :=
  if Nat.eqb (String.length value) 0 || negb (Nat.eqb (String.length value mod 4) 0) || negb (base64_pattern value)
  then None
  else
    let decoded := fromBase64 value in
    if toBase64 decoded === value then Some decoded else None.

(** Induction three bytes at a time. *)
Lemma bytes_ind (P : string → Prop) :
  P EmptyString → (∀ a, P (String a EmptyString)) → (∀ a b, P (String a (String b EmptyString))) →
  (∀ a b c s, P s → P (String a (String b (String c s)))) → ∀ s, P s.
Proof.
  intros H0 H1 H2 H3 s. enough (P s ∧ (∀ a, P (String a s)) ∧ ∀ a b, P (String a (String b s))) by tauto.
  induction s as [|c s (IH0 & IH1 & IH2)]; [by auto|]. split_and!; [done|done|]. intros a b. by apply H3.
Qed.

Lemma base64_value_char n : n < 64 → base64_value (base64_char n) = Some n.
Proof.
  intros Hn. assert (forallb (λ n, base64_value (base64_char n) === Some n) (seq 0 64) = true) as Hall by (vm_compute; reflexivity).
  rewrite forallb_elem in Hall. specialize (Hall n). rewrite bool_decide_eq_true in Hall. apply Hall, elem_of_seq. lia.
Qed.
Lemma is_base64_char n : n < 64 → is_base64 (base64_char n) = true.
Proof. intros Hn. unfold is_base64. rewrite base64_value_char by done. by apply bool_decide_eq_true. Qed.
Lemma base64_char_equals n : n < 64 → (base64_char n === EQUALS) = false.
Proof. intros Hn. apply bool_decide_eq_false. intros E. pose proof (base64_value_char n Hn) as Hv. by rewrite E in Hv. Qed.

(** The bytes of a group, from its digits. *)
Lemma byte_bound a : nat_of_ascii a < 256.
Proof. apply nat_ascii_bounded. Qed.
Lemma first_byte a y : y < 16 → ascii_of_nat (nat_of_ascii a / 4 * 4 + (nat_of_ascii a mod 4 * 16 + y) / 16) = a.
Proof.
  intros Hy. rewrite <- (ascii_nat_embedding a) at 3. f_equal. rewrite Nat.add_comm.
  rewrite Nat.div_add_l, (Nat.div_small y) by lia. pose proof (Nat.div_mod_eq (nat_of_ascii a) 4). lia.
Qed.
Lemma second_byte b x y :
  y < 4 → ascii_of_nat ((x * 16 + nat_of_ascii b / 16) mod 16 * 16 + (nat_of_ascii b mod 16 * 4 + y) / 4) = b.
Proof.
  intros Hy. pose proof (byte_bound b). rewrite <- (ascii_nat_embedding b) at 3. f_equal.
  rewrite Nat.add_comm, Nat.div_add_l, (Nat.div_small y) by lia.
  rewrite (Nat.add_comm (x * 16)), Nat.Div0.mod_add, (Nat.mod_small (_ / 16)) by (apply Nat.Div0.div_lt_upper_bound; lia).
  pose proof (Nat.div_mod_eq (nat_of_ascii b) 16). lia.
Qed.
Lemma third_byte c x : ascii_of_nat ((x * 4 + nat_of_ascii c / 64) mod 4 * 64 + nat_of_ascii c mod 64) = c.
Proof.
  pose proof (byte_bound c). rewrite <- (ascii_nat_embedding c) at 3. f_equal.
  rewrite (Nat.add_comm (x * 4)), Nat.Div0.mod_add, (Nat.mod_small (_ / 64)) by (apply Nat.Div0.div_lt_upper_bound; lia).
  pose proof (Nat.div_mod_eq (nat_of_ascii c) 64). lia.
Qed.

(** The digits of a group are digits. *)
Lemma digit_bounds a b c :
  nat_of_ascii a / 4 < 64 ∧ nat_of_ascii a mod 4 * 16 < 64 ∧ nat_of_ascii a mod 4 * 16 + nat_of_ascii b / 16 < 64 ∧
  nat_of_ascii b mod 16 * 4 < 64 ∧ nat_of_ascii b mod 16 * 4 + nat_of_ascii c / 64 < 64 ∧ nat_of_ascii c mod 64 < 64.
Proof.
  pose proof (byte_bound a). pose proof (byte_bound b). pose proof (byte_bound c).
  pose proof (Nat.mod_upper_bound (nat_of_ascii a) 4). pose proof (Nat.mod_upper_bound (nat_of_ascii b) 16).
  pose proof (Nat.mod_upper_bound (nat_of_ascii c) 64).
  assert (nat_of_ascii a / 4 < 64) by (apply Nat.Div0.div_lt_upper_bound; lia).
  assert (nat_of_ascii b / 16 < 16) by (apply Nat.Div0.div_lt_upper_bound; lia).
  assert (nat_of_ascii c / 64 < 4) by (apply Nat.Div0.div_lt_upper_bound; lia). lia.
Qed.
Lemma group_bounds b c : nat_of_ascii b / 16 < 16 ∧ nat_of_ascii c / 64 < 4.
Proof.
  pose proof (byte_bound b). pose proof (byte_bound c).
  split; apply Nat.Div0.div_lt_upper_bound; lia.
Qed.

Lemma toBase64_pattern s : base64_pattern (toBase64 s) = true ∧ String.length (toBase64 s) mod 4 = 0.
Proof.
  induction s as [|a|a b|a b c s [IH1 IH2]] using bytes_ind; cbn [toBase64 base64_pattern String.length].
  - done.
  - destruct (digit_bounds a a a) as (?&?&?&?&?&?). by rewrite !is_base64_char by done.
  - destruct (digit_bounds a b a) as (?&?&?&?&?&?). rewrite !is_base64_char by done. by rewrite orb_true_r.
  - destruct (digit_bounds a b c) as (?&?&?&?&?&?). rewrite !is_base64_char, IH1 by done. split; [done|].
    change (S (S (S (S ?n)))) with (4 + n). rewrite Nat.add_comm. by rewrite (Nat.Div0.mod_add _ 1 4).
Qed.

Lemma fromBase64_toBase64 s : fromBase64 (toBase64 s) = s.
Proof.
  induction s as [|a|a b|a b c s IH] using bytes_ind; cbn [toBase64 fromBase64].
  - done.
  - destruct (digit_bounds a a a) as (?&?&?&?&?&?). rewrite !base64_value_char by done. cbn [default].
    pose proof (first_byte a 0) as E. rewrite Nat.add_0_r in E. unfold default, id in *. rewrite E by lia. done.
  - destruct (digit_bounds a b a) as (?&?&?&?&?&?). rewrite !base64_value_char, base64_char_equals by done.
    unfold default, id. destruct (group_bounds b b). rewrite first_byte by done.
    pose proof (second_byte b (nat_of_ascii a mod 4) 0) as E. rewrite Nat.add_0_r in E. rewrite E by lia. done.
  - destruct (digit_bounds a b c) as (?&?&?&?&?&?). destruct (group_bounds b c).
    rewrite !base64_value_char, !base64_char_equals by done.
    unfold default, id. by rewrite first_byte, second_byte, third_byte, IH.
Qed.

(** Encoded bytes are read back; nothing else is read. *)
Lemma decodeBase64_spec value bytes :
  decodeBase64 value = Some bytes ↔ value = toBase64 bytes ∧ bytes ≠ EmptyString.
Proof.
  unfold decodeBase64. split.
  - case_match eqn:E; [done|]. case_bool_decide as Hd; [|done]. intros [= <-]. split; [done|]. intros Hb. rewrite Hb in Hd.
    by rewrite <- Hd in E.
  - intros [-> Hne]. destruct (toBase64_pattern bytes) as [-> ->]. rewrite fromBase64_toBase64, bool_decide_eq_true_2 by done.
    destruct bytes as [|a [|b [|c bytes]]]; done.
Qed.

(** ** The signature artifact *)

Definition PROFILE : string := "trust-core-manifest-signature-v1".
Definition ED25519 : string := "Ed25519".

(** Source: packages/archive/src/types.ts:70-80 ArchiveManifestSignature *)
Record ArchiveManifestSignature := mkSignature {
  signature_profile : string;
  signature_algorithm : string;
  signature_keyId : string;
  signature_signedEntries : list string;
  signature_encoding : string;
  signature_signature : string;
}.

(** Source: packages/archive/src/types.ts:82-86 ArchiveManifestSigner *)
Record ArchiveManifestSigner := mkSigner {
  signer_algorithm : string;
  signer_keyId : string;
  signManifest : string → result js_error string;
}.

(** Source: packages/archive/src/types.ts:88-91 ArchiveSignatureVerificationResult *)
Inductive ArchiveSignatureVerificationResult := signature_valid | signature_invalid | signature_unknown_key.
#[global] Instance ArchiveSignatureVerificationResult_eq_dec : EqDecision ArchiveSignatureVerificationResult.
Proof. solve_decision. Defined.

(** Source: packages/archive/src/types.ts:93-100 ArchiveManifestVerifier *)
Record ArchiveManifestVerifier := mkVerifier {
  verifyManifest : string → string → string → string → ArchiveSignatureVerificationResult;
}.

(** Source: packages/archive/src/signature.ts:226-233 validKeyId *)
Definition validKeyId (value : option json) : bool :=
  match value with
  | Some (JString s) =>
      Nat.ltb 0 (String.length s) && Nat.leb (String.length s) 256 &&
      forallb (λ c, is_letter c || is_digit c || array_includes (chars "._:/@-") c) (chars s)
  | _ => false
  end.

Definition artifact_json (a : ArchiveManifestSignature) : json :=
  JObject [("profile", JString (signature_profile a)); ("algorithm", JString (signature_algorithm a));
           ("keyId", JString (signature_keyId a)); ("signedEntries", JArray (map JString (signature_signedEntries a)));
           ("signatureEncoding", JString (signature_encoding a)); ("signature", JString (signature_signature a))].

(** [Object.keys(value)]; it throws on [null]. *)
Definition Object_keys (value : json) : option (list string) :=
  match value with
  | JNull => None
  | JObject l => Some (map fst l)
  | JArray xs => Some (map pretty (seq 0 (length xs)))
  | JString s => Some (map pretty (seq 0 (String.length s)))
  | _ => Some []
  end.

(** Source: packages/archive/src/signature.ts:235-237 addIssue *)
Definition addIssue (code message : string) : V unit :=
  modify (λ issues, issues ++ [mkIssue code (Some manifestSignaturePath) message])%list.

Section Signature.
Context `{Crypto} `{TextCodec}.

(** What the checks of [readSignatureArtifact] admit. *)
Definition signature_of_json (value : json) : option ArchiveManifestSignature :=
  Object_keys value ≫= λ keys,
  let field name := js_prop value name in
  if (join "," (js_sort keys) !== "algorithm,keyId,profile,signature,signatureEncoding,signedEntries") ||
     negb (js_same (field "profile") (Some (JString PROFILE))) ||
     negb (js_same (field "algorithm") (Some (JString ED25519))) ||
     negb (validKeyId (field "keyId"))
  then None
  else match field "signedEntries" with
  | Some (JArray [e0; e1]) =>
      if negb (js_same (Some e0) (Some (JString MANIFEST))) || negb (js_same (Some e1) (Some (JString CHECKSUMS))) ||
         negb (js_same (field "signatureEncoding") (Some (JString "base64")))
      then None
      else
        as_string (field "keyId") ≫= λ keyId,
        as_string (field "signature") ≫= λ signature,
        Some (mkSignature PROFILE ED25519 keyId [MANIFEST; CHECKSUMS] "base64" signature)
  | _ => None
  end.

(** Source: packages/archive/src/signature.ts:148-184 readSignatureArtifact *)
Definition readSignatureArtifact (bytes : string) : V (option ArchiveManifestSignature) :=
  match (decode bytes ≫= λ text, JSON_parse text ≫= signature_of_json) with
  | Some a => mret (Some a)
  | None => addIssue "ARCHIVE_SIGNATURE_ARTIFACT_INVALID" "Manifest signature artifact is invalid." ≫= λ _, mret None
  end.

Definition payload_json (manifestBytes checksumBytes : string) : json :=
  JObject [("checksumsSha256", JString (sha256 checksumBytes)); ("manifestSha256", JString (sha256 manifestBytes));
           ("profile", JString PROFILE)].

(** Source: packages/archive/src/signature.ts:198-209 signaturePayload *)
Definition signaturePayload (manifestBytes checksumBytes : string) : string :=
  encode (canonicalJson (payload_json manifestBytes checksumBytes) +:+ nl).

Definition signatures_entry (e : string * string) : bool := startsWith e.1 SIGNATURES.

(** Source: packages/archive/src/signature.ts:186-196 checksumFile *)
Definition checksumFile (localeLe : string → string → bool) (entries : Entries) : string :=
  encode (checksum_text localeLe (List.filter (λ e, (e.1 !== CHECKSUMS) && negb (signatures_entry e)) entries)).

(** Source: packages/archive/src/signature.ts:16-63 signArchiveEntries *)
Definition signArchiveEntries (localeLe : string → string → bool) (archive : Entries * json)
    (signer : ArchiveManifestSigner) : result js_error (Entries * json) :=
  throw_if (negb (js_same (js_prop archive.2 "formatVersion") (Some (JString "0.2"))) || negb (is_unsigned archive.2))
    Thrown ≫= λ _,
  throw_if (signer_algorithm signer !== ED25519) Thrown ≫= λ _,
  throw_if (negb (validKeyId (Some (JString (signer_keyId signer))))) Thrown ≫= λ _,
  let manifest := with_profile "0.3"
    (JObject [("name", JString PROFILE); ("algorithm", JString (signer_algorithm signer));
              ("keyId", JString (signer_keyId signer))]) archive.2 in
  let manifestBytes := encode (canonicalJson manifest +:+ nl) in
  let entries := map_set MANIFEST manifestBytes archive.1 in
  let checksumBytes := checksumFile localeLe entries in
  let entries := map_set CHECKSUMS checksumBytes entries in
  signManifest signer (signaturePayload manifestBytes checksumBytes) ≫= λ signatureBytes,
  throw_if (Nat.eqb (String.length signatureBytes) 0) Thrown ≫= λ _,
  let artifact := mkSignature PROFILE (signer_algorithm signer) (signer_keyId signer) [MANIFEST; CHECKSUMS] "base64"
    (toBase64 signatureBytes) in
  mret (map_set manifestSignaturePath (encode (canonicalJson (artifact_json artifact) +:+ nl)) entries, manifest).

(** Source: packages/archive/src/signature.ts:65-146 verifyManifestSignature *)
Definition verifyManifestSignature (entries : Entries) (manifest : json) (verifier : ArchiveManifestVerifier) : V unit :=
  let artifactBytes := map_get manifestSignaturePath entries in
  let profile := js_prop manifest "signatureProfile" in
  if is_unsigned manifest then
    when (bool_decide (is_Some artifactBytes))
      (addIssue "ARCHIVE_SIGNATURE_UNEXPECTED" "Unsigned archive contains a manifest signature artifact.")
  else
    prop_opt profile "name" ≫= λ name,
    prop_opt profile "algorithm" ≫= λ algorithm,
    if negb (js_same name (Some (JString PROFILE))) || negb (js_same algorithm (Some (JString ED25519))) then
      addIssue "ARCHIVE_SIGNATURE_PROFILE_UNKNOWN" "Archive signature profile or algorithm is not supported."
    else match artifactBytes with
    | None => addIssue "ARCHIVE_SIGNATURE_MISSING" "Signed archive is missing its manifest signature artifact."
    | Some artifactBytes =>
        readSignatureArtifact artifactBytes ≫= λ artifact,
        match artifact with
        | None => mret tt
        | Some artifact =>
            prop_opt profile "keyId" ≫= λ keyId,
            if negb (js_same (Some (JString (signature_profile artifact))) name) ||
               negb (js_same (Some (JString (signature_algorithm artifact))) algorithm) ||
               negb (js_same (Some (JString (signature_keyId artifact))) keyId)
            then addIssue "ARCHIVE_SIGNATURE_PROFILE_MISMATCH"
                   "Signature artifact does not match the manifest signature profile."
            else match map_get MANIFEST entries, map_get CHECKSUMS entries with
            | Some manifestBytes, Some checksumBytes =>
                match decodeBase64 (signature_signature artifact) with
                | None => addIssue "ARCHIVE_SIGNATURE_ARTIFACT_INVALID" "Manifest signature is not canonical base64."
                | Some signature =>
                    match verifyManifest verifier ED25519 (signature_keyId artifact)
                            (signaturePayload manifestBytes checksumBytes) signature with
                    | signature_unknown_key =>
                        addIssue "ARCHIVE_SIGNATURE_KEY_UNKNOWN" "Manifest signature key is not available."
                    | signature_invalid =>
                        addIssue "ARCHIVE_SIGNATURE_INVALID" "Manifest signature verification failed."
                    | signature_valid => mret tt
                    end
                end
            | _, _ => mret tt
            end
        end
    end.

(** Source: packages/archive/src/verify.ts:36-50 verifyArchiveEntriesWithSignatures *)
Definition verifyArchiveEntriesWithSignatures (entries : Entries) (verifier : ArchiveManifestVerifier)
    (limits : ArchiveVerificationLimits) : result js_error ArchiveVerificationReport :=
  verifyArchiveEntriesBase entries limits true ≫= λ report,
  match report_manifest report with
  | Some manifest =>
      if is_unsigned manifest then Ok (report_issues report)
      else match verifyManifestSignature entries manifest verifier (report_issues report) with
           | (Err e, _) => Err e
           | (Ok _, issues) => Ok issues
           end
  | None => Ok (report_issues report)
  end ≫= λ issues,
  Ok (mkReport (issues === []) (report_checkedEntries report) issues (report_manifest report) (report_records report)).
End Signature.

(** ** What a silent check of the signature says *)

Lemma grows_addIssue code message : grows (addIssue code message).
Proof. intros s. by eexists. Qed.
Lemma addIssue_loud code message b : ¬ addIssue code message [] = (Ok b, []).
Proof. done. Qed.

Section Sound.
Context `{Crypto} `{TextCodec}.

Lemma readSignatureArtifact_silent bytes a :
  readSignatureArtifact bytes [] = (Ok a, []) → ∃ artifact, a = Some artifact.
Proof. unfold readSignatureArtifact. case_match; [|done]. intros [= <-]. eauto. Qed.

(** The verifier accepted a signature of the digests of the two files, under
    the key the manifest names. *)
Lemma signature_silent entries manifest verifier mb cb :
  verifyManifestSignature entries manifest verifier [] = (Ok tt, []) → is_unsigned manifest = false →
  map_get MANIFEST entries = Some mb → map_get CHECKSUMS entries = Some cb →
  ∃ profile keyId signature,
    js_prop manifest "signatureProfile" = Some profile ∧ js_prop profile "keyId" = Some (JString keyId) ∧
    verifyManifest verifier ED25519 keyId (signaturePayload mb cb) signature = signature_valid.
Proof.
  unfold verifyManifestSignature. intros Hr Hu Hm Hc. rewrite Hu, Hm, Hc in Hr.
  destruct (js_prop manifest "signatureProfile") as [profile|]; [|done]. exists profile. cbn [prop_opt] in Hr.
  assert (∀ name, prop profile name [] = (Ok (js_prop profile name), [])) as Hp.
  { intros name. unfold prop in *. by destruct profile. }
  rewrite !(bind_Ok_run _ _ _ _ _ (Hp _)) in Hr. case_match; [done|].
  destruct (map_get manifestSignaturePath entries) as [bytes|]; [|done].
  unfold readSignatureArtifact in Hr.
  destruct (decode bytes ≫= λ text, JSON_parse text ≫= signature_of_json) as [artifact|]; [|done].
  rewrite (bind_Ok_run _ _ _ _ _ (mret_run _ _)), (bind_Ok_run _ _ _ _ _ (Hp _)) in Hr.
  case_match eqn:Eg; [done|]. repeat (apply orb_false_iff in Eg as [Eg ?]; to_prop).
  destruct (decodeBase64 _) as [signature|]; [|done]. exists (signature_keyId artifact), signature. split; [done|].
  destruct (verifyManifest _ _ _ _ _) eqn:Ev; [|done..]. split; [|done].
  destruct (js_prop profile "keyId") as [[]|]; try done. cbn [js_same] in *. to_prop. by subst.
Qed.

Context `{!TextCodecLaws}.

Lemma encode_inj x y : encode x = encode y → x = y.
Proof. intros E. apply (f_equal decode) in E. rewrite !decode_encode in E. congruence. Qed.

(** The text that is signed determines the digests. *)
Lemma signaturePayload_inj m c m' c' :
  signaturePayload m c = signaturePayload m' c' → sha256 m = sha256 m' ∧ sha256 c = sha256 c'.
Proof.
  assert (∀ m c, json_wf (payload_json m c)) as Hwf by (intros; split; [by apply (bool_decide_unpack _)|by repeat constructor]).
  assert (∀ m c, normalise String.leb (payload_json m c) = payload_json m c) as Hn by done.
  intros E%encode_inj. apply (f_equal JSON_parse) in E. rewrite !canonicalJson_read in E by auto. rewrite !Hn in E.
  by injection E.
Qed.
End Sound.

(** ** Authenticity *)

(** The two runs of a verification with signatures that reports a valid, signed archive. *)
Lemma signed_valid_runs `{Crypto} `{TextCodec} a verifier limits report manifest :
  verifyArchiveEntriesWithSignatures a verifier limits = Ok report → report_valid report = true →
  report_manifest report = Some manifest → is_unsigned manifest = false →
  ∃ base, verifyArchiveEntriesBase a limits true = Ok base ∧ report_valid base = true ∧ report_manifest base = Some manifest ∧
    verifyManifestSignature a manifest verifier [] = (Ok tt, []).
Proof.
  unfold verifyArchiveEntriesWithSignatures. intros Hr Hv Hm Hu. apply result_bind_Ok in Hr as (base & Hb & Hr).
  apply result_bind_Ok in Hr as (issues & Hi & [= <-]). cbn in *. apply bool_decide_eq_true in Hv as ->.
  rewrite Hm, Hu in Hi. destruct (verifyManifestSignature a manifest verifier (report_issues base)) as [[[]|e] s] eqn:Es; [|done].
  injection Hi as ->. exists base.
  assert (report_issues base = []) as Hn.
  { assert (grows (verifyManifestSignature a manifest verifier)) as Hg.
    { unfold verifyManifestSignature, readSignatureArtifact, prop_opt. pose proof grows_addIssue. solve_grows. }
    destruct (Hg (report_issues base)) as [d Hd]. rewrite Es in Hd. cbn in Hd. symmetry in Hd. by apply app_nil in Hd as [? _]. }
  rewrite Hn in Es. split_and!; [done| |done|done].
  unfold verifyArchiveEntriesBase in Hb. destruct (verify_program _ _ _ _) as [[[[cs m] rs]|e] iss]; [|done].
  injection Hb as <-. cbn in *. by rewrite Hn.
Qed.

Lemma valid_files `{Crypto} `{TextCodec} a limits d report manifest :
  verifyArchiveEntriesBase a limits d = Ok report → report_valid report = true → report_manifest report = Some manifest →
  ∃ mb cb, map_get MANIFEST a = Some mb ∧ map_get CHECKSUMS a = Some cb.
Proof.
  intros Hr Hv Hm. destruct (valid_runs _ _ _ _ Hr Hv) as (_ & cs & Hc & _ & Hrm & _). rewrite Hm in Hrm.
  unfold readChecksums in Hc. unfold readManifest in Hrm.
  destruct (map_get MANIFEST a) as [mb|]; [|done]. destruct (map_get CHECKSUMS a) as [cb|]; [|done]. eauto.
Qed.

Section Authentic.
Context `{Crypto} `{TextCodecLaws}.
Context (verifier : ArchiveManifestVerifier).
(** The manifests and checksum files that the holder of a key signed together. *)
Context (published : string → list (string * string)).

(** Only the holder of a key makes signatures that are accepted for it. *)
Definition unforgeable : Prop := ∀ keyId payload signature,
  verifyManifest verifier ED25519 keyId payload signature = signature_valid →
  ∃ mb cb, (mb, cb) ∈ published keyId ∧ payload = signaturePayload mb cb.

(** C33. A signed archive that verifies is authentic. The one assumption is
    unforgeability: a signature is accepted for a key only over a manifest and a
    checksum file that the holder of the key signed; what the holder signs need
    not verify. Then an archive whose report is valid and whose manifest is
    signed holds, byte for byte, a manifest and a checksum file that the holder
    of the key its manifest names signed together, and it agrees, on every path
    outside [signatures/], with every archive that verifies under that checksum
    file; the other cases are collisions of SHA-256, between a file of this
    archive and a file signed, or a file of the other archive. *)
Theorem signed_archive_authentic a limits report manifest :
  unforgeable →
  verifyArchiveEntriesWithSignatures a verifier limits = Ok report → report_valid report = true →
  report_manifest report = Some manifest → is_unsigned manifest = false →
  ∃ profile keyId mb cb,
    js_prop manifest "signatureProfile" = Some profile ∧ js_prop profile "keyId" = Some (JString keyId) ∧
    (mb, cb) ∈ published keyId ∧
    ((map_get MANIFEST a = Some mb ∧ map_get CHECKSUMS a = Some cb ∧
      ∀ b lb db rb,
        verifyArchiveEntriesBase b lb db = Ok rb → report_valid rb = true → map_get CHECKSUMS b = Some cb →
        (∀ p, startsWith p SIGNATURES = false → map_get p a = map_get p b) ∨
        ∃ x y, sha256_collision x y ∧ x ∈ a.*2 ∧ y ∈ b.*2) ∨
     ∃ x y, sha256_collision x y ∧ x ∈ a.*2 ∧ y ∈ [mb; cb]).
Proof.
  intros Hunf Hr Hv Hm Hu. destruct (signed_valid_runs _ _ _ _ _ Hr Hv Hm Hu) as (base & Hb & Hbv & Hbm & Hs).
  destruct (valid_files _ _ _ _ _ Hb Hbv Hbm) as (mb & cb & Ham & Hac).
  destruct (signature_silent _ _ _ _ _ Hs Hu Ham Hac) as (profile & keyId & signature & Hp & Hk & Hver).
  destruct (Hunf _ _ _ Hver) as (mb' & cb' & Hin & Heq). exists profile, keyId, mb', cb'. split_and!; [done..|].
  apply signaturePayload_inj in Heq as [Hsm Hsc].
  destruct (sha256_eq_or_collision mb mb' Hsm) as [->|Hcol]; [|right; exists mb, mb'; by split_and!; [|eapply bytes_of_archive|left]].
  destruct (sha256_eq_or_collision cb cb' Hsc) as [->|Hcol]; [|right; exists cb, cb'; by split_and!; [|eapply bytes_of_archive|right; left]].
  left. split_and!; [done..|]. intros b lb db rb Hrb Hvb Hbc.
  apply (same_checksum_file_agree a b limits lb true db base rb); [done..|congruence].
Qed.
End Authentic.

(** ** Signing an assembled archive *)

Lemma map_set_app_in {V} (k : string) (v : V) m1 m2 : k ∈ m1.*1 → map_set k v (m1 ++ m2) = (map_set k v m1 ++ m2)%list.
Proof.
  induction m1 as [|[k' v'] m1 IH]; cbn; [by intros ?%elem_of_nil|]. intros [->|Hin]%elem_of_cons.
  - by rewrite strict_eq_refl.
  - case_bool_decide; [done|]. cbn. by rewrite IH.
Qed.
Lemma map_set_app_notin {V} (k : string) (v : V) m1 m2 : k ∉ m1.*1 → map_set k v (m1 ++ m2) = (m1 ++ map_set k v m2)%list.
Proof.
  induction m1 as [|[k' v'] m1 IH]; cbn; [done|]. rewrite not_elem_of_cons. intros [Hne Hn].
  rewrite bool_decide_eq_false_2 by done. by rewrite IH.
Qed.

Section Sign.
Context `{CryptoLaws} `{TextCodecLaws} (localeLe : string → string → bool).

Lemma validKeyId_nonempty s : validKeyId (Some (JString s)) = true → Nat.ltb 0 (String.length s) = true.
Proof. intros [[? _]%andb_true_iff _]%andb_true_iff. done. Qed.

Lemma artifact_read keyId signature :
  validKeyId (Some (JString keyId)) = true →
  let artifact := mkSignature PROFILE ED25519 keyId [MANIFEST; CHECKSUMS] "base64" signature in
  signature_of_json (normalise String.leb (artifact_json artifact)) = Some artifact.
Proof.
  intros Hk artifact. set (o := normalise String.leb (artifact_json artifact)).
  assert (Object_keys o = Some ["algorithm"; "keyId"; "profile"; "signature"; "signatureEncoding"; "signedEntries"]) as E0
    by (vm_compute; reflexivity).
  assert (join "," (js_sort ["algorithm"; "keyId"; "profile"; "signature"; "signatureEncoding"; "signedEntries"]) =
    "algorithm,keyId,profile,signature,signatureEncoding,signedEntries") as E by (vm_compute; reflexivity).
  assert (js_prop o "profile" = Some (JString PROFILE)) as E1 by (vm_compute; reflexivity).
  assert (js_prop o "algorithm" = Some (JString ED25519)) as E2 by (vm_compute; reflexivity).
  assert (js_prop o "keyId" = Some (JString keyId)) as E3 by (vm_compute; reflexivity).
  assert (js_prop o "signedEntries" = Some (JArray [JString MANIFEST; JString CHECKSUMS])) as E4 by (vm_compute; reflexivity).
  assert (js_prop o "signatureEncoding" = Some (JString "base64")) as E5 by (vm_compute; reflexivity).
  assert (js_prop o "signature" = Some (JString signature)) as E6 by (vm_compute; reflexivity).
  clearbody o. unfold signature_of_json. rewrite E0. cbn [mbind option_bind].
  rewrite E, E1, E2, E3, E4, E5, E6, Hk. cbn [js_same]. rewrite !strict_eq_refl. done.
Qed.

Lemma readSignatureArtifact_run bytes text v a s :
  decode bytes = Some text → JSON_parse text = Some v → signature_of_json v = Some a →
  readSignatureArtifact bytes s = (Ok (Some a), s).
Proof. intros Ed Ep Ea. unfold readSignatureArtifact. rewrite Ed. cbn [mbind option_bind]. rewrite Ep. cbn [mbind option_bind]. by rewrite Ea. Qed.

(** A written artifact is read back. *)
Lemma readSignatureArtifact_written keyId signature s :
  validKeyId (Some (JString keyId)) = true →
  let artifact := mkSignature PROFILE ED25519 keyId [MANIFEST; CHECKSUMS] "base64" signature in
  readSignatureArtifact (encode (canonicalJson (artifact_json artifact) +:+ nl)) s = (Ok (Some artifact), s).
Proof.
  intros Hk artifact. eapply readSignatureArtifact_run; [apply decode_encode| |by apply artifact_read].
  apply canonicalJson_read; [|by right]. split; [by apply (bool_decide_unpack _)|by repeat constructor].
Qed.

Definition signed_profile (keyId : string) : json :=
  JObject [("name", JString PROFILE); ("algorithm", JString ED25519); ("keyId", JString keyId)].

(** The checksum file is over the entries of an assembled archive. *)
Lemma checksummed_base base text :
  map_get CHECKSUMS base = None → (∀ p, startsWith p SIGNATURES = true → map_get p base = None) →
  List.filter (λ e, (e.1 !== CHECKSUMS) && negb (signatures_entry e)) (base ++ [(CHECKSUMS, text)]) = base.
Proof.
  intros Hn Hs. rewrite List.filter_app. cbn. rewrite app_nil_r. apply List.forallb_filter_id, forallb_elem.
  intros e He. apply (list_elem_of_fmap_2 fst) in He. apply andb_true_iff. split; apply negb_true_iff.
  - apply bool_decide_eq_false. intros E. apply map_get_none in Hn. by rewrite E in He.
  - unfold signatures_entry. destruct (startsWith e.1 SIGNATURES) eqn:E; [|done]. by apply Hs, map_get_none in E.
Qed.

(** What signing an assembled archive gives. *)
Lemma sign_spec source base signer entries' manifest' :
  let manifest := source_manifest source (sort_by localeLe input_sha256 (default [] (source_blobs source))) in
  assembled localeLe source base manifest →
  signArchiveEntries localeLe (sealed localeLe base [], manifest) signer = Ok (entries', manifest') →
  ∃ base' signature,
    validKeyId (Some (JString (signer_keyId signer))) = true ∧
    manifest' = with_profile "0.3" (signed_profile (signer_keyId signer)) manifest ∧
    assembled localeLe source base' manifest' ∧
    (∀ p, p ≠ MANIFEST → map_get p base' = map_get p base) ∧
    signManifest signer (signaturePayload (encode (canonicalJson manifest' +:+ nl)) (encode (checksum_text localeLe base'))) =
      Ok signature ∧
    signature ≠ EmptyString ∧
    entries' = sealed localeLe base' [(manifestSignaturePath, encode (canonicalJson (artifact_json
      (mkSignature PROFILE ED25519 (signer_keyId signer) [MANIFEST; CHECKSUMS] "base64" (toBase64 signature))) +:+ nl))].
Proof.
  intros manifest [Ht Hn Hm Hr Hs] Hsign. unfold signArchiveEntries in Hsign. cbn [fst snd] in Hsign.
  apply result_bind_Ok in Hsign as ([] & _ & Hsign). apply result_bind_Ok in Hsign as ([] & Ha & Hsign).
  apply result_bind_Ok in Hsign as ([] & Hk & Hsign). apply throw_if_Ok, negb_false_iff in Ha, Hk.
  apply bool_decide_eq_true in Ha. rewrite Ha in Hsign. fold (signed_profile (signer_keyId signer)) in Hsign.
  set (manifest2 := with_profile "0.3" (signed_profile (signer_keyId signer)) manifest) in *.
  set (mb := encode (canonicalJson manifest2 +:+ nl)) in *. set (base' := map_set MANIFEST mb base).
  assert (MANIFEST ∈ base.*1) as Hin by (apply map_get_elem in Hm; by apply (list_elem_of_fmap_2 fst) in Hm).
  assert (base'.*1 = base.*1) as Hkeys by (unfold base'; by rewrite map_keys_set, bool_decide_eq_true_2).
  assert (assembled localeLe source base' manifest2) as Hasm.
  { split; [unfold tidy; by rewrite Hkeys|..]; unfold base'.
    - by rewrite map_get_set_ne.
    - by rewrite map_get_set_eq.
    - intros k. rewrite map_get_set_ne by (by destruct k). apply Hr.
    - intros p Hp. rewrite map_get_set_ne by (by intros ->). by apply Hs. }
  assert (checksumFile localeLe (map_set MANIFEST mb (sealed localeLe base [])) = encode (checksum_text localeLe base')) as Hcs.
  { unfold sealed, checksumFile. rewrite map_set_app_in by done. fold base'. do 2 f_equal. destruct Hasm. by apply checksummed_base. }
  rewrite Hcs in Hsign. apply result_bind_Ok in Hsign as (signature & Hsig & Hsign).
  apply result_bind_Ok in Hsign as ([] & Hlen & [= <- <-]). apply throw_if_Ok in Hlen.
  exists base', signature. split_and!; [done|done|done| |done|by intros ->|].
  - intros p Hp. unfold base'. by rewrite map_get_set_ne.
  - unfold sealed. rewrite map_set_app_in by done. fold base'.
    rewrite map_set_app_notin by (rewrite Hkeys; by apply map_get_none). cbn [map_set]. rewrite strict_eq_refl.
    rewrite map_set_app_notin; [done|]. rewrite Hkeys. apply map_get_none. by apply Hs.
Qed.
(** An artifact over the files of the archive, under the key of the manifest,
    that the verifier accepts, raises no issue. *)
Lemma signature_passes entries manifest verifier profile keyId signature mb cb s :
  js_prop manifest "signatureProfile" = Some (JObject profile) →
  js_prop (JObject profile) "name" = Some (JString PROFILE) →
  js_prop (JObject profile) "algorithm" = Some (JString ED25519) →
  js_prop (JObject profile) "keyId" = Some (JString keyId) → validKeyId (Some (JString keyId)) = true →
  map_get manifestSignaturePath entries = Some (encode (canonicalJson (artifact_json
    (mkSignature PROFILE ED25519 keyId [MANIFEST; CHECKSUMS] "base64" (toBase64 signature))) +:+ nl)) →
  map_get MANIFEST entries = Some mb → map_get CHECKSUMS entries = Some cb → signature ≠ EmptyString →
  verifyManifest verifier ED25519 keyId (signaturePayload mb cb) signature = signature_valid →
  is_unsigned manifest = false ∧ verifyManifestSignature entries manifest verifier s = (Ok tt, s).
Proof.
  intros Hp Hn Ha Hi Hk Hart Hm Hc Hne Hv. assert (is_unsigned manifest = false) as Hu by (unfold is_unsigned; by rewrite Hp).
  split; [done|]. unfold verifyManifestSignature. rewrite Hu, Hart, Hp. cbn [prop_opt].
  erewrite bind_Ok_run by apply prop_object. erewrite bind_Ok_run by apply prop_object. rewrite Hn, Ha.
  cbn [js_same]. rewrite !strict_eq_refl. cbn [negb orb].
  erewrite bind_Ok_run by (by apply readSignatureArtifact_written). cbv beta iota. erewrite bind_Ok_run by apply prop_object. rewrite Hi.
  cbn [js_same signature_profile signature_algorithm signature_keyId signature_signature]. rewrite !strict_eq_refl, Hm, Hc. cbn [negb orb].
  by rewrite (proj2 (decodeBase64_spec _ _) (conj eq_refl Hne)), Hv.
Qed.
End Sign.

(** C40. What is signed verifies: signing an assembled archive, of well-formed
    records and within the limits, keeps every entry but the manifest and the
    checksum file (and the signature it adds), and verification with a verifier
    that accepts the signer's signatures reports it like the unsigned archive: the signature, paths, checksums, manifest, record files and counts
    pass, the records read are those exported, and the issues are exactly those
    of the content checks. *)
Theorem signed_archive_verifies `{CryptoLaws} `{TextCodecLaws} localeLe source signer verifier limits
    entries manifest entries' manifest' :
  assembleArchiveEntries localeLe source = Ok (entries, manifest) →
  records_wf source → isSafe (Z.of_nat (length (source_of source audit_events))) = true →
  signArchiveEntries localeLe (entries, manifest) signer = Ok (entries', manifest') →
  (∀ payload signature, signManifest signer payload = Ok signature →
     verifyManifest verifier ED25519 (signer_keyId signer) payload signature = signature_valid) →
  within_limits entries' limits →
  (∀ p, p ≠ MANIFEST → p ≠ CHECKSUMS → p ≠ manifestSignaturePath → map_get p entries' = map_get p entries) ∧
  ∃ issues,
    check_content entries' (Some (normalise String.leb manifest'))
      (exported_records localeLe source archiveRecordKinds) [] = (Ok tt, issues) ∧
    verifyArchiveEntriesWithSignatures entries' verifier limits =
      Ok (mkReport (issues === []) (Z.of_nat (length entries') - 2) issues (Some (normalise String.leb manifest'))
        (exported_records localeLe source archiveRecordKinds)).
Proof.
  intros Ha Hwf Hsafe Hsign Hver Hl. destruct (assemble_spec localeLe source entries manifest Ha) as (base & Hb & -> & _ & ->).
  destruct (sign_spec localeLe source base signer entries' manifest' Hb Hsign)
    as (base' & signature & Hk & -> & Hb' & Hsame & Hsig & Hne & ->).
  set (artifact := encode (canonicalJson (artifact_json _) +:+ nl)) in *. set (sigs := [(manifestSignaturePath, artifact)]) in *.
  split.
  { intros p Hm Hc Hs. unfold sealed. rewrite !map_get_app, Hsame by done. destruct (map_get p base); [done|]. cbn.
    by rewrite !bool_decide_eq_false_2. }
  set (profile := signed_profile (signer_keyId signer)) in *.
  set (manifest := with_profile "0.3" profile _) in *.
  assert (js_prop (normalise String.leb manifest) "signatureProfile" = Some (normalise String.leb profile)) as Hp
    by (unfold manifest; by rewrite manifest_prop).
  pose proof (assembled_none _ _ _ _ Hb') as Hn. pose proof (assembled_manifest _ _ _ _ Hb') as Hm.
  pose proof (assembled_unsigned _ _ _ _ Hb' manifestSignaturePath eq_refl) as Hu.
  destruct (sealed_verifies localeLe source base' "0.3" profile sigs limits true) as (issues & Hc & Hv);
    [by apply profile_signed, validKeyId_nonempty|done|done|done|by repeat constructor| |done|].
  { cbn [check_signature_presence]. unfold is_unsigned. fold manifest. by rewrite Hp. }
  exists issues. split; [exact Hc|]. fold manifest in Hv. unfold verifyArchiveEntriesWithSignatures. rewrite Hv.
  cbn [mbind result_bind report_manifest report_issues].
  destruct (signature_passes (sealed localeLe base' sigs) (normalise String.leb manifest) verifier
    [("algorithm", JString ED25519); ("keyId", JString (signer_keyId signer)); ("name", JString PROFILE)] (signer_keyId signer) signature
    (encode (canonicalJson manifest +:+ nl)) (encode (checksum_text localeLe base')) issues) as [-> Hpass];
    [done|done|done|done|done| | | |done|by apply Hver|].
  - unfold sealed. rewrite map_get_app, Hu. cbn. done.
  - unfold sealed. by rewrite map_get_app, Hm.
  - unfold sealed. rewrite map_get_app, Hn. cbn. done.
  - rewrite Hpass. cbn [mbind result_bind report_checkedEntries report_records]. do 2 f_equal.
    unfold sealed. rewrite length_app. cbn. lia.
Qed.

Module SignatureWitness.
Import Archive.Utf8 ArchiveRoundTrip.ArchiveWitness.

(** A signer and a verifier that share a key. *)
Definition sign_with (payload : string) : string := "s" +:+ sha256 payload.
Definition signer : ArchiveManifestSigner := mkSigner ED25519 "key-1" (λ payload, Ok (sign_with payload)).
Definition verifier : ArchiveManifestVerifier := mkVerifier (λ algorithm keyId payload signature,
  if keyId !== "key-1" then signature_unknown_key
  else if signature === sign_with payload then signature_valid else signature_invalid).

Definition signed : Entries * json :=
  match signArchiveEntries String.leb archive signer with Ok a => a | Err _ => ([], JNull) end.

Lemma signed_archive_verifies_witness :
  (∀ p, p ≠ MANIFEST → p ≠ CHECKSUMS → p ≠ manifestSignaturePath → map_get p signed.1 = map_get p archive.1) ∧
  ∃ issues,
    check_content signed.1 (Some (normalise String.leb signed.2))
      (exported_records String.leb source archiveRecordKinds) [] = (Ok tt, issues) ∧
    verifyArchiveEntriesWithSignatures signed.1 verifier defaults =
      Ok (mkReport (issues === []) (Z.of_nat (length signed.1) - 2) issues (Some (normalise String.leb signed.2))
        (exported_records String.leb source archiveRecordKinds)).
Proof.
  apply (signed_archive_verifies String.leb source signer verifier defaults archive.1 archive.2 signed.1 signed.2).
  - vm_compute. reflexivity.
  - exact source_wf.
  - reflexivity.
  - vm_compute. reflexivity.
  - intros payload signature [= <-]. unfold verifier. cbn [verifyManifest signer_keyId signer]. by rewrite !strict_eq_refl.
  - split_and!; [vm_compute; discriminate|apply (bool_decide_unpack _); vm_compute; exact I|vm_compute; discriminate].
Defined.

(** The signed archive has no issue. *)
Example signed_valid :
  match verifyArchiveEntriesWithSignatures signed.1 verifier defaults with Ok r => report_valid r | Err _ => false end = true.
Proof. vm_compute. reflexivity. Qed.

(** A reader that accepts what the holder of [key-1] signed: one pair of files. *)
Definition one_signed (mb cb keyId : string) : list (string * string) := if keyId === "key-1" then [(mb, cb)] else [].
Definition reads (mb cb : string) : ArchiveManifestVerifier := mkVerifier (λ algorithm keyId payload signature,
  if (keyId === "key-1") && (payload === signaturePayload mb cb) then signature_valid else signature_unknown_key).

Lemma one_signed_elem mb cb keyId x : x ∈ one_signed mb cb keyId → keyId = "key-1" ∧ x = (mb, cb).
Proof. unfold one_signed. case_bool_decide; [|by intros ?%elem_of_nil]. by intros ->%list_elem_of_singleton. Qed.

Lemma reads_unforgeable mb cb : unforgeable (reads mb cb) (one_signed mb cb).
Proof.
  intros keyId payload signature. unfold reads, one_signed. cbn [verifyManifest].
  destruct (keyId === "key-1"); cbn [andb]; [|done]. case_bool_decide as Hp; [|done]. intros _.
  exists mb, cb. split; [apply list_elem_of_here|done].
Qed.

Definition is_valid (r : result js_error ArchiveVerificationReport) : bool :=
  match r with Ok r => report_valid r | Err _ => false end.
Definition signed_manifest (r : result js_error ArchiveVerificationReport) : bool :=
  match r with
  | Ok r => match report_manifest r with Some m => negb (is_unsigned m) | None => false end
  | Err _ => false
  end.
Lemma signed_report r :
  is_valid r = true → signed_manifest r = true →
  ∃ report m, r = Ok report ∧ report_valid report = true ∧ report_manifest report = Some m ∧ is_unsigned m = false.
Proof.
  destruct r as [report|]; [|done]. cbn. intros Hv Hm. destruct (report_manifest report) as [m|] eqn:E; [|done].
  exists report, m. by apply negb_true_iff in Hm.
Qed.

Definition file (p : string) : string := default EmptyString (map_get p signed.1).
Definition reader : ArchiveManifestVerifier := reads (file MANIFEST) (file CHECKSUMS).

(** A note under [signatures/] does not matter. *)
Definition noted : Entries := (signed.1 ++ [("signatures/note.txt", "unchecked")])%list.

Lemma signed_archive_authentic_witness :
  ∃ mb cb, (mb, cb) ∈ one_signed (file MANIFEST) (file CHECKSUMS) "key-1" ∧
    ((map_get MANIFEST noted = Some mb ∧ map_get CHECKSUMS noted = Some cb ∧
      ∀ b lb db rb,
        verifyArchiveEntriesBase b lb db = Ok rb → report_valid rb = true → map_get CHECKSUMS b = Some cb →
        (∀ p, startsWith p SIGNATURES = false → map_get p noted = map_get p b) ∨
        ∃ x y, sha256_collision x y ∧ x ∈ noted.*2 ∧ y ∈ b.*2) ∨
     ∃ x y, sha256_collision x y ∧ x ∈ noted.*2 ∧ y ∈ [mb; cb]).
Proof.
  destruct (signed_report (verifyArchiveEntriesWithSignatures noted reader defaults)) as (r & m & Er & Hv & Em & Hm);
    [vm_compute; reflexivity|vm_compute; reflexivity|].
  destruct (signed_archive_authentic reader (one_signed (file MANIFEST) (file CHECKSUMS)) noted defaults r m)
    as (profile & keyId & mb & cb & _ & _ & Hin & Hagree);
    [apply reads_unforgeable|exact Er|exact Hv|exact Em|exact Hm|].
  exists mb, cb. split; [|exact Hagree]. destruct (one_signed_elem _ _ _ _ Hin) as [<- _]. exact Hin.
Defined.
End SignatureWitness.
