(* ===== verification/ArchiveContainer.v ===== *)
(** * The archive container

    [packages/archive/src/container.ts]: a set of entries is written as a ZIP
    file and read back.  The ZIP library is a parameter: [getEntries] reads the
    directory of a container ([None] when it throws), an entry's [getData] its
    bytes, [zip] is a [ZipWriter] to which files were added in order and which
    was closed ([None] when it throws).  Reading is a program over the log of the entries whose data was
    asked for, so that the order of checks and decompression can be stated.

    The theorems: data is only ever decompressed from a directory that passed
    every check, so within the limits; and what was written is read back, when its
    names are ones the library keeps. *)
From S2P Require Import Prelude Js Concrete Json JsonParse Archive ArchiveVerify ArchiveRoundTrip ArchiveSignature.

(** What the code uses of the library's [Entry]. *)
Record Entry := mkEntry {
  filename : string;
  directory : bool;
  encrypted : bool;
  unixMode : option Z;
  unixExternalUpper : option Z;
  compressionMethod : Z;
  compressedSize : Z;
  uncompressedSize : Z;
  getData : option string;
}.

(** Source: packages/archive/src/types.ts:123-129 ArchiveContainerLimits *)
Record ArchiveContainerLimits := mkContainerLimits {
  maxContainerBytes : Z;
  container_maxEntries : Z;
  container_maxEntryBytes : Z;
  container_maxTotalBytes : Z;
  maxCompressionRatio : Z;
}.

(** Source: packages/archive/src/container.ts:20-26 defaultLimits *)
Definition defaultLimits : ArchiveContainerLimits :=
  mkContainerLimits (10 * 1024 * 1024 * 1024) 100000 (2 * 1024 * 1024 * 1024) (20 * 1024 * 1024 * 1024) 200.

(** An error with its code and path, or one of another class. *)
(** Source: packages/archive/src/container.ts:28-37 ArchiveContainerError *)
Inductive container_exn : Type :=
  | ArchiveContainerError (code : string) (path : option string)
  | OtherError.
#[global] Instance container_exn_eq_dec : EqDecision container_exn.
Proof. solve_decision. Defined.

(** Source: packages/archive/src/container.ts:207-210 isSymbolicLink *)
Definition isSymbolicLink (entry : Entry) : bool :=
  match (match unixMode entry with Some m => Some m | None => unixExternalUpper entry end) with
  | Some mode => Z.eqb (Z.land mode 61440) 40960 (* 0o170000, 0o120000 *)
  | None => false
  end.

(** [ratio > maxCompressionRatio], the quotient of two sizes being exact enough
    for the comparison: [u / c > m] as [u > m * c]. *)
Definition ratio_exceeded (limits : ArchiveContainerLimits) (entry : Entry) : bool :=
  if Z.eqb (uncompressedSize entry) 0 then Z.ltb (maxCompressionRatio limits) 1
  else if Z.eqb (compressedSize entry) 0 then true
  else Z.ltb (maxCompressionRatio limits * compressedSize entry) (uncompressedSize entry).

(** The loop over the directory, with the paths seen and the total so far. *)
(** Source: packages/archive/src/container.ts:137-204 validateDirectory *)
Fixpoint validate_entries (limits : ArchiveContainerLimits) (entries : list Entry) (paths : list string) (total : Z) :
    result container_exn unit :=
  match entries with
  | [] => mret tt
  | entry :: entries =>
      let err code := ArchiveContainerError code (Some (filename entry)) in
      throw_if (directory entry) (err "ARCHIVE_DIRECTORY_ENTRY_DENIED") ≫= λ _,
      throw_if (negb (is_Ok (assertSafeArchivePath (filename entry)))) (err "ARCHIVE_PATH_UNSAFE") ≫= λ _,
      throw_if (array_includes paths (filename entry)) (err "ARCHIVE_PATH_DUPLICATE") ≫= λ _,
      throw_if (encrypted entry) (err "ARCHIVE_ENCRYPTION_UNSUPPORTED") ≫= λ _,
      throw_if (isSymbolicLink entry) (err "ARCHIVE_LINK_DENIED") ≫= λ _,
      throw_if ((compressionMethod entry !== 0%Z) && (compressionMethod entry !== 8%Z))
        (err "ARCHIVE_COMPRESSION_UNSUPPORTED") ≫= λ _,
      throw_if (Z.ltb (container_maxEntryBytes limits) (uncompressedSize entry)) (err "ARCHIVE_ENTRY_TOO_LARGE") ≫= λ _,
      let total := (total + uncompressedSize entry)%Z in
      throw_if (Z.ltb (container_maxTotalBytes limits) total) (ArchiveContainerError "ARCHIVE_TOTAL_TOO_LARGE" None) ≫= λ _,
      throw_if (ratio_exceeded limits entry) (err "ARCHIVE_COMPRESSION_RATIO_EXCEEDED") ≫= λ _,
      validate_entries limits entries (paths ++ [filename entry])%list total
  end.

(** Source: packages/archive/src/container.ts:128-205 validateDirectory *)
Definition validateDirectory (entries : list Entry) (limits : ArchiveContainerLimits) : result container_exn unit :=
  throw_if (Z.ltb (container_maxEntries limits) (Z.of_nat (length entries)))
    (ArchiveContainerError "ARCHIVE_ENTRY_LIMIT" None) ≫= λ _,
  validate_entries limits entries [] 0.

(** A program that logs the entries whose data it asked for. *)
Abbreviation Z_ := (M (list string) container_exn).

(** Source: packages/archive/src/container.ts:83-98 readTrustArchive *)
Fixpoint extract (entries : list Entry) (extracted : Entries) : Z_ Entries :=
  match entries with
  | [] => mret extracted
  | entry :: entries =>
      if directory entry then extract entries extracted
      else
        modify (λ log, log ++ [filename entry])%list ≫= λ _,
        match getData entry with
        | None => throw OtherError
        | Some data =>
            throw_when (Z.of_nat (String.length data) !== uncompressedSize entry)
              (ArchiveContainerError "ARCHIVE_ENTRY_SIZE_INVALID" (Some (filename entry))) ≫= λ _,
            extract entries (map_set (filename entry) data extracted)
        end
  end.

(** [{ maxEntries, maxEntryBytes, maxTotalBytes }] of the container's limits. *)
Definition verification_limits (limits : ArchiveContainerLimits) : ArchiveVerificationLimits :=
  mkLimits (container_maxEntries limits) (container_maxEntryBytes limits) (container_maxTotalBytes limits).

Section Container.
Context `{Crypto} `{TextCodec} `{JsDate}.
Context (getEntries : string → option (list Entry)).

Definition verify_extracted (signatureVerifier : option ArchiveManifestVerifier) (limits : ArchiveContainerLimits)
    (extracted : Entries) : result js_error ArchiveVerificationReport :=
  match signatureVerifier with
  | Some verifier => verifyArchiveEntriesWithSignatures extracted verifier (verification_limits limits)
  | None => verifyArchiveEntries extracted (verification_limits limits)
  end.

(** Source: packages/archive/src/container.ts:63-126 readTrustArchive *)
Definition readTrustArchive (bytes : string) (limits : ArchiveContainerLimits)
    (signatureVerifier : option ArchiveManifestVerifier) : Z_ ParsedTrustArchive :=
  throw_when (Z.ltb (maxContainerBytes limits) (Z.of_nat (String.length bytes)))
    (ArchiveContainerError "ARCHIVE_CONTAINER_TOO_LARGE" None) ≫= λ _,
  try_catch (
    match getEntries bytes with
    | None => throw OtherError
    | Some entries =>
        lift (validateDirectory entries limits) ≫= λ _,
        extract entries [] ≫= λ extracted,
        match verify_extracted signatureVerifier limits extracted with
        | Err _ => throw OtherError
        | Ok verification =>
            match report_manifest verification with
            | None => throw (ArchiveContainerError "ARCHIVE_MANIFEST_INVALID" None)
            | Some manifest => mret (mkParsed extracted manifest verification)
            end
        end
    end)
    (λ e, match e with
          | ArchiveContainerError _ _ => throw e
          | OtherError => throw (ArchiveContainerError "ARCHIVE_CONTAINER_INVALID" None)
          end).

(** ** Writing *)

(** [Date.UTC(1980, 0, 1)] *)
Definition ZIP_EPOCH : Z := 315532800000.

(** Source: packages/archive/src/container.ts:212-218 validZipTimestamp *)
Definition validZipTimestamp (value : string) : result js_error Z :=
  match Date_parse value with
  | None => Err Thrown
  | Some parsed => Ok (if Z.ltb parsed ZIP_EPOCH then ZIP_EPOCH else parsed)
  end.

(** [new ZipWriter], [add] of each file with its date in order, [close]; [None]
    when one of them throws. *)
Context (zip : list (string * string * Z) → option string).
Context (localeLe : string → string → bool).

Fixpoint add_files (timestamp : Z) (files : Entries) (added : list (string * string * Z)) :
    result js_error (list (string * string * Z)) :=
  match files with
  | [] => mret added
  | (path, bytes) :: files =>
      assertSafeArchivePath path ≫= λ _, add_files timestamp files (added ++ [(path, bytes, timestamp)])%list
  end.

(** Source: packages/archive/src/container.ts:39-61 writeTrustArchive *)
Definition writeTrustArchive (entries : Entries) (createdAt : string) : result js_error string :=
  validZipTimestamp createdAt ≫= λ timestamp,
  add_files timestamp (sort_by localeLe fst entries) [] ≫= λ files,
  match zip files with Some bytes => mret bytes | None => Err Thrown end.
End Container.

(** ** What the checks of a directory say *)

Section Directory.
Context (limits : ArchiveContainerLimits).

(** An entry that may be decompressed. *)
Definition entry_ok (e : Entry) : Prop :=
  directory e = false ∧ assertSafeArchivePath (filename e) = Ok tt ∧ encrypted e = false ∧ isSymbolicLink e = false ∧
  (compressionMethod e = 0%Z ∨ compressionMethod e = 8%Z) ∧ (uncompressedSize e ≤ container_maxEntryBytes limits)%Z ∧
  ratio_exceeded limits e = false.

(** No prefix of the directory exceeds the total. *)
Fixpoint totals_ok (total : Z) (es : list Entry) : Prop :=
  match es with
  | [] => True
  | e :: es => (total + uncompressedSize e ≤ container_maxTotalBytes limits)%Z ∧ totals_ok (total + uncompressedSize e)%Z es
  end.

Definition directory_ok (es : list Entry) : Prop :=
  (Z.of_nat (length es) ≤ container_maxEntries limits)%Z ∧ NoDup (map filename es) ∧ Forall entry_ok es ∧ totals_ok 0 es.

Lemma is_Ok_unit {E} (r : result E unit) : is_Ok r = true ↔ r = Ok tt.
Proof. rewrite is_Ok_true. split; [by intros [[] ->]|eauto]. Qed.

Lemma throw_if_bind {B} b (e : container_exn) (k : unit → result container_exn B) v :
  (throw_if b e ≫= k) = Ok v ↔ b = false ∧ k tt = Ok v.
Proof. destruct b; cbn; naive_solver. Qed.

Lemma validate_entries_spec es paths total :
  validate_entries limits es paths total = Ok tt ↔
    NoDup (map filename es) ∧ (∀ e, e ∈ es → filename e ∉ paths) ∧ Forall entry_ok es ∧ totals_ok total es.
Proof.
  revert paths total. induction es as [|e es IH]; intros paths total; cbn [validate_entries totals_ok map].
  - split; [|done]. intros _. split_and!; [constructor|by intros ? ?%elem_of_nil|done|done].
  - rewrite !throw_if_bind, IH, NoDup_cons, Forall_cons. unfold entry_ok, array_includes.
    rewrite negb_false_iff, is_Ok_unit, !andb_false_iff, !negb_false_iff, !bool_decide_eq_true, bool_decide_eq_false, !Z.ltb_ge.
    split.
    + intros (?&?&Hn&?&?&?&?&?&?&?&Hp&?&?). split_and!; try done.
      * intros (e' & Heq & Hin)%list_elem_of_fmap. apply (Hp e' Hin). rewrite <- Heq. apply elem_of_app. right. by left.
      * intros x [->|Hx]%elem_of_cons; [done|]. specialize (Hp x Hx). set_solver.
    + intros ([Hn ?]&Hp&[(?&?&?&?&?&?&?) ?]&?&?). split_and!; try done; [apply Hp; by left|].
      intros x Hx [Hin|Heq%list_elem_of_singleton]%elem_of_app; [apply (Hp x); [by right|done]|].
      apply Hn. rewrite <- Heq. by apply list_elem_of_fmap_2.
Qed.

Lemma validateDirectory_spec es : validateDirectory es limits = Ok tt ↔ directory_ok es.
Proof.
  unfold validateDirectory, directory_ok. rewrite throw_if_bind, Z.ltb_ge, validate_entries_spec.
  assert (∀ e, e ∈ es → filename e ∉ []) as Hnil by (intros ? _ ?%elem_of_nil; done). tauto.
Qed.
End Directory.

(** ** Extraction *)

(** An entry of the directory and the file it became. *)
Definition extracted_as (e : Entry) (f : string * string) : Prop :=
  f.1 = filename e ∧ getData e = Some f.2 ∧ Z.of_nat (String.length f.2) = uncompressedSize e.

(** Extraction asks for the entries in order and stops at the first failure. *)
Lemma extract_log es acc log r log' :
  Forall (λ e, directory e = false) es → extract es acc log = (r, log') →
  ∃ k, log' = (log ++ take k (map filename es))%list.
Proof.
  intros Hd. revert acc log. induction Hd as [|e es He _ IH]; intros acc log; cbn [extract map].
  - intros [= _ <-]. exists 0. by rewrite app_nil_r.
  - rewrite He. run. destruct (getData e) as [data|]; [|intros [= _ <-]; by exists 1].
    unfold throw_when, lift, mbind at 1, M_bind. destruct (throw_if _ _); [|intros [= _ <-]; by exists 1].
    intros [k ->]%IH. exists (S k). cbn [take]. by rewrite <- app_assoc.
Qed.

Lemma extract_Ok es acc log extracted log' :
  Forall (λ e, directory e = false) es → NoDup (acc.*1 ++ map filename es) →
  extract es acc log = (Ok extracted, log') → ∃ files, extracted = (acc ++ files)%list ∧ Forall2 extracted_as es files.
Proof.
  intros Hd. revert acc log. induction Hd as [|e es He _ IH]; intros acc log Hnd; cbn [extract map].
  - intros [= <- _]. exists []. by rewrite app_nil_r.
  - rewrite He. run. destruct (getData e) as [data|] eqn:Eg; [|done].
    destruct (Z.of_nat (String.length data) !== uncompressedSize e) eqn:El; run; [done|]. apply negb_false_iff, bool_decide_eq_true in El.
    cbn [map] in Hnd. assert (filename e ∉ acc.*1) as Hn.
    { intros Hin. apply NoDup_app in Hnd as (_ & Hdis & _). apply (Hdis _ Hin). by left. }
    rewrite map_set_new by done. intros Hr. destruct (IH (acc ++ [(filename e, data)])%list _ ltac:(by rewrite fmap_app, <- app_assoc) Hr) as (files & -> & Hf).
    exists ((filename e, data) :: files). rewrite <- app_assoc. by repeat constructor.
Qed.

(** Entries that hold what their directory says are all extracted. *)
Lemma extract_run es files acc log :
  Forall (λ e, directory e = false) es → NoDup (acc.*1 ++ map filename es) → Forall2 extracted_as es files →
  extract es acc log = (Ok (acc ++ files)%list, (log ++ map filename es)%list).
Proof.
  intros Hd Hnd Hf. revert acc log Hd Hnd. induction Hf as [|e [p data] es files (Hn & Hg & Hl) _ IH]; intros acc log Hd Hnd; cbn [extract map].
  - by rewrite !app_nil_r.
  - cbn [fst snd] in *. subst p. inversion Hd as [|? ? He Hd']; subst. rewrite He. run. rewrite Hg, Hl, strict_eq_refl. cbn [negb]. run.
    cbn [map] in Hnd. assert (filename e ∉ acc.*1) as Hn.
    { intros Hin. apply NoDup_app in Hnd as (_ & Hdis & _). apply (Hdis _ Hin). by left. }
    rewrite map_set_new by done. rewrite IH; [by rewrite <- !app_assoc|done|by rewrite fmap_app, <- app_assoc].
Qed.

Lemma extracted_names es files : Forall2 extracted_as es files → map filename es = files.*1.
Proof. induction 1 as [|e f es files (Hn & _) _ IH]; [done|]. cbn [map]. by rewrite fmap_cons, Hn, IH. Qed.

Section Read.
Context `{Crypto} `{TextCodec} (getEntries : string → option (list Entry)).

(** C34. A container is decompressed within its limits only: whatever the
    bytes, the entries whose data is asked for are the first of a directory that
    passed every check (few enough, distinct and safe paths, no directories,
    links or encryption, known methods, each entry and the total within the size
    limits, no expansion beyond the ratio), and nothing is asked for otherwise;
    and when reading returns, the entries are all the directory's, each with
    bytes of the announced length, with the report of their verification. *)
Theorem container_decompressed_within_limits bytes limits verifier log r log' :
  readTrustArchive getEntries bytes limits verifier log = (r, log') →
  (log' = log ∨ ∃ es k, getEntries bytes = Some es ∧ directory_ok limits es ∧ log' = (log ++ take k (map filename es))%list) ∧
  ∀ parsed, r = Ok parsed →
    (Z.of_nat (String.length bytes) ≤ maxContainerBytes limits)%Z ∧
    ∃ es, getEntries bytes = Some es ∧ directory_ok limits es ∧ Forall2 extracted_as es (parsed_entries parsed) ∧
      verify_extracted verifier limits (parsed_entries parsed) = Ok (parsed_verification parsed) ∧
      report_manifest (parsed_verification parsed) = Some (parsed_manifest parsed).
Proof.
  unfold readTrustArchive. unfold throw_when, lift at 1, mbind at 1, M_bind at 1.
  destruct (Z.ltb (maxContainerBytes limits) (Z.of_nat (String.length bytes))) eqn:Eb; cbn [throw_if]; [intros [= <- <-]; split; [by left|done]|].
  apply Z.ltb_ge in Eb. unfold try_catch. destruct (getEntries bytes) as [es|]; [|intros [= <- <-]; split; [by left|done]].
  unfold lift at 1, mbind at 1, M_bind at 1. destruct (validateDirectory es limits) as [[]|e] eqn:Ev.
  2: { intros Hr. assert (log' = log ∧ ∃ e', r = Err e') as [-> [e' ->]] by (destruct e; injection Hr; eauto). split; [by left|done]. }
  apply validateDirectory_spec in Ev. destruct Ev as (Hc & Hnd & Hall & Ht).
  assert (Forall (λ e, directory e = false) es) as Hd by (eapply Forall_impl; [exact Hall|]; by intros e (? & _)).
  assert (directory_ok limits es) as Hok by done.
  unfold mbind at 1, M_bind at 1. destruct (extract es [] log) as [[extracted|e] log1] eqn:Ex; destruct (extract_log _ _ _ _ _ Hd Ex) as [k ->].
  2: { intros Hr. assert (log' = (log ++ take k (map filename es))%list ∧ ∃ e', r = Err e') as [-> [e' ->]] by (destruct e; injection Hr; eauto).
       split; [right; by exists es, k|done]. }
  destruct (extract_Ok es [] log extracted _ Hd Hnd Ex) as (files & -> & Hf). cbn [app].
  destruct (verify_extracted verifier limits files) as [report|e] eqn:Er; [destruct (report_manifest report) as [m|] eqn:Em|];
    intros [= <- <-]; (split; [right; by exists es, k|]); [|done..].
  intros parsed [= <-]. cbn. split; [done|]. exists es. done.
Qed.
End Read.

(** ** Writing and reading back *)

Lemma add_files_Ok timestamp files added out :
  add_files timestamp files added = Ok out →
  out = (added ++ map (λ f, (f, timestamp)) files)%list ∧ Forall (λ p, assertSafeArchivePath p = Ok tt) files.*1.
Proof.
  revert added. induction files as [|[p b] files IH]; intros added; cbn [add_files].
  - intros [= <-]. by rewrite app_nil_r.
  - intros ([] & Hs & Hr)%result_bind_Ok. apply IH in Hr as [-> Hall]. rewrite <- app_assoc. split; [done|by constructor].
Qed.

Lemma dated_files (timestamp : Z) (files : Entries) : (map (λ f, (f, timestamp)) files).*1 = files.
Proof. induction files; cbn; by f_equal. Qed.

(** A regular file, stored or deflated, with the bytes [f]. *)
Definition written_as (e : Entry) (f : string * string) : Prop :=
  extracted_as e f ∧ directory e = false ∧ encrypted e = false ∧ isSymbolicLink e = false ∧
  (compressionMethod e = 0%Z ∨ compressionMethod e = 8%Z).

(** The names the library keeps: printable ASCII without outer spaces, which
    [add] trims, and not ending in a slash, which makes a directory. *)
Definition plain_name (name : string) : bool :=
  forallb (in_range 32 126) (chars name) && (trim name === name) && (last (chars name) !== Some "/"%char).

(** What the code relies on of the ZIP library: a file that was written, of
    files under distinct plain names, lists the files added, in order, with their
    sizes and bytes, as regular files stored or deflated. *)
Definition zip_faithful (getEntries : string → option (list Entry))
    (zip : list (string * string * Z) → option string) : Prop :=
  ∀ files bytes, zip files = Some bytes →
  NoDup (map (λ f, f.1.1) files) → Forall (λ f, plain_name f.1.1 = true) files →
  ∃ es, getEntries bytes = Some es ∧ Forall2 (λ e f, written_as e f.1) es files.

Lemma sum_lengths_from t entries :
  fold_left (λ t e, t + Z.of_nat (String.length e.2))%Z entries t = (t + sum_lengths entries)%Z.
Proof.
  unfold sum_lengths. revert t. induction entries as [|[p b] entries IH]; intros t; cbn [fold_left]; [lia|].
  rewrite IH, (IH (0 + _)%Z). lia.
Qed.
Lemma sum_lengths_cons e entries : sum_lengths (e :: entries) = (Z.of_nat (String.length e.2) + sum_lengths entries)%Z.
Proof. unfold sum_lengths at 1. cbn [fold_left]. rewrite sum_lengths_from. lia. Qed.
Lemma sum_lengths_nonneg entries : (0 ≤ sum_lengths entries)%Z.
Proof. induction entries as [|e entries IH]; [done|]. rewrite sum_lengths_cons. lia. Qed.
#[global] Instance sum_lengths_proper : Proper ((≡ₚ) ==> eq) sum_lengths.
Proof. induction 1; rewrite ?sum_lengths_cons; [done|by f_equal|lia|congruence]. Qed.

Lemma totals_within limits es files total :
  Forall2 extracted_as es files → (total + sum_lengths files ≤ container_maxTotalBytes limits)%Z → totals_ok limits total es.
Proof.
  intros Hf. revert total. induction Hf as [|e f es files (_ & _ & Hl) _ IH]; intros total; [done|].
  rewrite sum_lengths_cons. cbn [totals_ok]. intros Ht. pose proof (sum_lengths_nonneg files). split; [lia|]. apply IH. lia.
Qed.

Lemma written_entries_ok limits es files :
  Forall2 written_as es files → Forall (λ e, ratio_exceeded limits e = false) es →
  Forall (λ f, (Z.of_nat (String.length f.2) ≤ container_maxEntryBytes limits)%Z) files →
  Forall (λ p, assertSafeArchivePath p = Ok tt) files.*1 → Forall (entry_ok limits) es.
Proof.
  induction 1 as [|e f es files ((Hn & _ & Hlen) & ? & ? & ? & ?) _ IH]; [constructor|].
  rewrite fmap_cons, !Forall_cons. intros [? ?] [? ?] [? ?]. split; [|by apply IH].
  unfold entry_ok. rewrite <- Hn, <- Hlen. done.
Qed.

Section RoundTrip.
Context `{Crypto} `{TextCodec} `{JsDate}.
Context (getEntries : string → option (list Entry)) (zip : list (string * string * Z) → option string) (localeLe : string → string → bool).
Context (library : zip_faithful getEntries zip).

(** C35. What is written is read back: a container that was written from entries
    under distinct names of printable ASCII without outer spaces, within the
    limits, and which the compression did not shrink beyond the ratio the reader
    permits, is read as those entries, sorted, with the manifest and report of
    their verification; every entry is decompressed once. Of the ZIP library it
    is assumed that the files of a container under such names are listed as they
    were added; other names, which it may trim or list as directories, are not
    covered. *)
Theorem container_roundtrip entries createdAt bytes limits verifier report manifest log :
  writeTrustArchive zip localeLe entries createdAt = Ok bytes → NoDup entries.*1 →
  Forall (λ p, plain_name p = true) entries.*1 →
  (Z.of_nat (String.length bytes) ≤ maxContainerBytes limits)%Z → within_limits entries (verification_limits limits) →
  (∀ es, getEntries bytes = Some es → Forall (λ e, ratio_exceeded limits e = false) es) →
  verify_extracted verifier limits (sort_by localeLe fst entries) = Ok report → report_manifest report = Some manifest →
  readTrustArchive getEntries bytes limits verifier log =
    (Ok (mkParsed (sort_by localeLe fst entries) manifest report), (log ++ (sort_by localeLe fst entries).*1)%list).
Proof.
  intros (timestamp & _ & (files & Hadd & Hzip)%result_bind_Ok)%result_bind_Ok Hnd Hplain Hb (Hl1 & Hl2 & Hl3) Hratio Hv Hm.
  pose proof (sort_by_perm localeLe fst entries) as Hperm. set (sorted := sort_by localeLe fst entries) in *.
  apply add_files_Ok in Hadd as [-> Hsafe]. cbn [app] in *.
  destruct (zip _) as [bytes'|] eqn:Ez; [|done]. injection Hzip as ->.
  destruct (library (map (λ f, (f, timestamp)) sorted) bytes Ez) as (es & Hes & Hf).
  { rewrite map_map. cbn. change (NoDup (sorted.*1)). by rewrite Hperm. }
  { apply Forall_map. cbn. rewrite <- Hperm in Hplain. by apply Forall_map in Hplain. }
  apply (Forall2_fmap_r fst) in Hf. rewrite dated_files in Hf. pose proof (Hratio es Hes) as Hr.
  assert (Forall2 extracted_as es sorted) as Hex by (eapply Forall2_impl; [exact Hf|]; by intros e f (? & _)).
  assert (map filename es = sorted.*1) as Hnames by (by apply extracted_names).
  assert (NoDup (map filename es)) as Hnd' by (rewrite Hnames; by rewrite Hperm).
  assert (validateDirectory es limits = Ok tt) as Hval.
  { apply validateDirectory_spec. split_and!; [|done| |].
    - rewrite (Forall2_length _ _ _ Hex), Hperm. exact Hl1.
    - rewrite <- Hperm in Hl2. by apply (written_entries_ok limits es sorted).
    - eapply totals_within; [exact Hex|]. by rewrite Hperm. }
  assert (Forall (λ e, directory e = false) es) as Hd.
  { apply validateDirectory_spec in Hval as (_ & _ & Hall & _). eapply Forall_impl; [exact Hall|]. by intros e (? & _). }
  unfold readTrustArchive. apply Z.ltb_ge in Hb. rewrite Hb. run. rewrite Hes. unfold try_catch.
  erewrite bind_Ok_run by (unfold lift; by rewrite Hval). erewrite bind_Ok_run by (by apply (extract_run es sorted [])).
  cbn [app]. by rewrite Hv, Hm, Hnames.
Qed.
End RoundTrip.

Module ContainerWitness.
Import Archive.Utf8 ArchiveRoundTrip.ArchiveWitness.

(** A library whose containers are a list of files, with a given compressor: it
    trims names, refuses a name given twice, and lists a name that ends in a
    slash as a directory. *)
Section Library.
Context (size : string → Z).
Definition file_entry (name data : string) : Entry :=
  mkEntry name (last (chars name) === Some "/"%char) false None None 8 (size data) (Z.of_nat (String.length data)) (Some data).
Definition read_file (v : json) : option Entry :=
  match v with JArray [JString name; JString data; JNumber _] => Some (file_entry name data) | _ => None end.
Definition file_json (f : string * string * Z) : json := JArray [JString (trim f.1.1); JString f.1.2; JNumber f.2].
Definition list_zip (files : list (string * string * Z)) : option string :=
  if bool_decide (NoDup (map (λ f, trim f.1.1) files)) then Some (canonicalJson (JArray (map file_json files))) else None.
Definition list_entries (bytes : string) : option (list Entry) :=
  JSON_parse bytes ≫= λ v, match v with JArray files => mapM read_file files | _ => None end.

Lemma list_zip_faithful : zip_faithful list_entries list_zip.
Proof.
  intros files bytes Hz _ Hplain. unfold list_zip in Hz. case_bool_decide; [|done]. injection Hz as <-. unfold list_entries.
  assert (json_wf (JArray (map file_json files))) as Hwf.
  { cbn. apply Forall_map, Forall_map, Forall_true. intros f. by repeat constructor. }
  pose proof (canonicalJson_read _ EmptyString Hwf (or_introl eq_refl)) as Hp. rewrite string_app_nil_r in Hp. rewrite Hp.
  cbn [mbind option_bind normalise]. rewrite map_map. clear - Hplain.
  induction Hplain as [|f files Hf _ (es & Hes & IH)]; [by exists []|]. exists (file_entry f.1.1 f.1.2 :: es). cbn [map mapM].
  apply andb_true_iff in Hf as [[_ Ht]%andb_true_iff Hd%negb_true_iff]. apply bool_decide_eq_true in Ht.
  change (read_file (normalise String.leb (file_json f))) with (Some (file_entry (trim f.1.1) f.1.2)). rewrite Ht. cbn [mbind option_bind].
  rewrite Hes. split; [done|]. constructor; [|done]. split; [done|]. split; [exact Hd|]. by repeat (split || right).
Qed.
End Library.

Definition stored (data : string) : Z := Z.of_nat (String.length data).
Definition created : string := toISOString 400000000000.
Definition bytes : string :=
  match writeTrustArchive (list_zip) String.leb archive.1 created with Ok b => b | Err _ => EmptyString end.
Definition sorted : Entries := sort_by String.leb fst archive.1.
Definition report : ArchiveVerificationReport :=
  match verify_extracted None defaultLimits sorted with Ok r => r | Err _ => mkReport false 0 [] None [] end.
Definition manifest : json := default JNull (report_manifest report).

Lemma stored_ratio es : list_entries stored bytes = Some es → Forall (λ e, ratio_exceeded defaultLimits e = false) es.
Proof.
  unfold list_entries. destruct (JSON_parse bytes) as [[| | | |files|]|]; try done. cbn [mbind option_bind]. revert es.
  induction files as [|v files IH]; intros es; cbn [mapM]; [by intros [= <-]|].
  destruct (read_file stored v) as [e|] eqn:Ee; [|done]. destruct (mapM (read_file stored) files) as [es'|]; [|done]. intros [= <-].
  constructor; [|by apply IH]. unfold read_file in Ee. repeat (case_match; try done). injection Ee as <-.
  unfold ratio_exceeded, file_entry, stored, defaultLimits. cbn [uncompressedSize compressedSize maxCompressionRatio].
  case_match; [done|]. apply Z.ltb_ge. lia.
Qed.

Lemma container_roundtrip_witness :
  readTrustArchive (list_entries stored) bytes defaultLimits None [] = (Ok (mkParsed sorted manifest report), sorted.*1).
Proof.
  apply (container_roundtrip (list_entries stored) list_zip String.leb (list_zip_faithful stored) archive.1 created).
  - vm_compute. reflexivity.
  - apply (bool_decide_unpack _). vm_compute. exact I.
  - apply (bool_decide_unpack _). vm_compute. exact I.
  - vm_compute. discriminate.
  - split_and!; [vm_compute; discriminate|apply (bool_decide_unpack _); vm_compute; exact I|vm_compute; discriminate].
  - exact stored_ratio.
  - vm_compute. reflexivity.
  - vm_compute. reflexivity.
Defined.

Lemma container_decompressed_within_limits_witness :
  ∃ es, list_entries stored bytes = Some es ∧ directory_ok defaultLimits es ∧ Forall2 extracted_as es sorted.
Proof.
  destruct (container_decompressed_within_limits (list_entries stored) bytes defaultLimits None []
    (Ok (mkParsed sorted manifest report)) sorted.*1) as [_ Hok]; [vm_compute; reflexivity|].
  destruct (Hok _ eq_refl) as (_ & es & Hes & Hdir & Hf & _). exists es. split; [exact Hes|]. split; [exact Hdir|exact Hf].
Defined.

(** A name with an outer space is safe, is trimmed by the library, and is read
    back under another name. *)
Example outer_space_not_kept :
  plain_name " a" = false ∧ assertSafeArchivePath " a" = Ok tt ∧
  (list_zip [((" a", "x"), 0%Z)] ≫= list_entries stored) = Some [file_entry stored "a" "x"].
Proof. vm_compute. done. Qed.

(** A compressor that stores a run of one byte in three: data that shrinks more
    than two hundredfold is written, and then refused by the reader. *)
Fixpoint runs (s : string) : Z :=
  match s with
  | String a ((String b _) as s') => (if a === b then 0 else 3) + runs s'
  | String _ EmptyString => 3
  | EmptyString => 0
  end.
Definition zeros : string := string_of_list_ascii (repeat "0"%char 900).
Definition zero_source : ArchiveSource :=
  mkSource "x1" "w1" ["d1"] "2026-01-01T00:00:00.000Z" "u1" "1.0"
    [(blobs, [[("id", JString "b1"); ("sha256", JString (sha256 zeros)); ("byteLength", JNumber 900)]])]
    (Some [mkBlobInput (sha256 zeros) 900 zeros]).
Definition write_and_read : result container_exn ParsedTrustArchive :=
  match assembleArchiveEntries String.leb zero_source with
  | Ok archive =>
      match writeTrustArchive list_zip String.leb archive.1 created with
      | Ok b => (readTrustArchive (list_entries runs) b defaultLimits None []).1
      | Err _ => Err OtherError
      end
  | Err _ => Err OtherError
  end.
Definition refused_code (r : result container_exn ParsedTrustArchive) : option string :=
  match r with Err (ArchiveContainerError code _) => Some code | _ => None end.

Example compressible_archive_refused : refused_code write_and_read = Some "ARCHIVE_COMPRESSION_RATIO_EXCEEDED".
Proof. vm_compute. reflexivity. Qed.
End ContainerWitness.
