(* ===== verification/ImportPlan.v ===== *)
(** * Planning an archive import

    [packages/archive/src/import-plan.ts]: the records of a verified archive are
    moved into the target workspace (identifiers mapped when the workspace
    changes), checked as a graph, compared with what the target already holds,
    and laid out as an ordered list of actions named by a digest.

    A mapped record is a copy whose properties may have been assigned
    [undefined], which [canonicalJson] refuses; its entries carry an optional
    value.  Records of a report are never [null] (its verification would have
    thrown).  [exportId] and [workspaceId] of a manifest are strings, as its type
    says.  Lookups in the target's inventory are of own entries.  [Number] of a
    string is that of a decimal integer, [NaN] otherwise.

    The theorems: a ready plan is closed under references and ordered by its
    dependencies; a plan's identity determines its content. *)
From S2P Require Import Prelude Js Concrete Json JsonParse Archive ArchiveLineage ArchiveVerify.
#[local] Arguments String.append !s1 s2 /.

(** ** Data *)

(** Source: packages/archive/src/types.ts:135-135 ArchiveImportMode *)
Inductive ArchiveImportMode : Type := preserve_ids | mapped_workspace.
(** Source: packages/archive/src/types.ts:136-136 ArchiveConflictMode *)
Inductive ArchiveConflictMode : Type := reject_on_error | report_only.
Inductive Disposition : Type := Insert | AlreadyPresent | Blocked.
Inductive ActionKind : Type := RecordKind (k : ArchiveRecordKind) | BlobBytes.
Inductive PlanStatus : Type := Ready | Rejected | ReportOnly.
#[global] Instance ArchiveImportMode_eq_dec : EqDecision ArchiveImportMode.
Proof. solve_decision. Defined.
#[global] Instance ArchiveConflictMode_eq_dec : EqDecision ArchiveConflictMode.
Proof. solve_decision. Defined.
#[global] Instance Disposition_eq_dec : EqDecision Disposition.
Proof. solve_decision. Defined.
#[global] Instance ActionKind_eq_dec : EqDecision ActionKind.
Proof. solve_decision. Defined.
#[global] Instance PlanStatus_eq_dec : EqDecision PlanStatus.
Proof. solve_decision. Defined.

Definition mode_name (m : ArchiveImportMode) : string :=
  match m with preserve_ids => "preserve_ids" | mapped_workspace => "mapped_workspace" end.
Definition conflict_name (m : ArchiveConflictMode) : string :=
  match m with reject_on_error => "reject_on_error" | report_only => "report_only" end.
Definition action_kind_name (k : ActionKind) : string :=
  match k with RecordKind k => kind_name k | BlobBytes => "blob-bytes" end.

(** A record whose properties may be [undefined]. *)
Definition MappedRecord : Type := list (string * option json).
Definition mget (r : MappedRecord) (name : string) : option json := mjoin (map_get name r).

(** [v === "text"] *)
Definition is_string (v : option json) (text : string) : bool := js_same v (Some (JString text)).

(** [{ ...v }] *)
Definition spread (v : json) : MappedRecord :=
  match v with
  | JObject l => map (λ kv, (kv.1, Some kv.2)) l
  | JArray l => imap (λ i x, (pretty (Z.of_nat i), Some x)) l
  | JString s => imap (λ i c, (pretty (Z.of_nat i), Some (JString (String c EmptyString)))) (chars s)
  | _ => []
  end.

(** Source: packages/archive/src/types.ts:138-144 ArchiveImportInventory *)
Record ArchiveImportInventory := mkInventory {
  inventory_workspaceId : option string;
  inventory_records : list (ArchiveRecordKind * list (string * ArchiveRecord));
  inventory_blobDigests : list string;
}.

(** Source: packages/archive/src/types.ts:146-151 ArchiveImportRequest *)
Record ArchiveImportRequest := mkImportRequest {
  request_manifest : json;
  request_verification : ArchiveVerificationReport;
  request_mode : ArchiveImportMode;
  request_conflictMode : ArchiveConflictMode;
  request_target : ArchiveImportInventory;
}.

(** Source: packages/archive/src/types.ts:153-162 ArchiveImportAction *)
Record ArchiveImportAction := mkAction {
  action_index : Z;
  action_phase : Z;
  action_kind : ActionKind;
  action_sourceId : string;
  action_targetId : string;
  action_disposition : Disposition;
  action_record : option MappedRecord;
  action_dependsOn : list string;
}.

(** Source: packages/archive/src/types.ts:164-177 ArchiveImportPlan *)
Record ArchiveImportPlan := mkPlan {
  plan_planId : string;
  plan_archiveExportId : string;
  plan_sourceWorkspaceId : string;
  plan_targetWorkspaceId : string;
  plan_mode : ArchiveImportMode;
  plan_conflictMode : ArchiveConflictMode;
  plan_status : PlanStatus;
  plan_issues : list ArchiveIssue;
  plan_actions : list ArchiveImportAction;
  plan_inserts : Z;
  plan_alreadyPresent : Z;
  plan_blocked : Z;
}.

(** Source: packages/archive/src/import-plan.ts:13-26 phases *)
Definition phases (k : ActionKind) : Z :=
  match k with
  | RecordKind workspaces => 10
  | RecordKind schema_packages => 20
  | RecordKind datasets => 30
  | RecordKind blobs => 40
  | BlobBytes => 45
  | RecordKind resources => 50
  | RecordKind revisions => 60
  | RecordKind revision_blobs => 70
  | RecordKind relations => 80
  | RecordKind tombstones => 90
  | RecordKind audit_events => 100
  | RecordKind retention => 25
  end.

(** ** Comparing and converting values *)

(** [Number(v)], [None] for [NaN]. *)
Definition Number_string (s : string) : option Z :=
  match chars (trim s) with
  | [] => Some 0%Z
  | c :: cs =>
      let signed := if (c === "-"%char) || (c === "+"%char) then cs else c :: cs in
      if negb (bool_decide (signed = [])) && forallb is_digit signed
      then Some (if c === "-"%char then - digits_value signed else digits_value signed)%Z else None
  end.
Definition js_Number (v : option json) : option Z :=
  match v with
  | None => None
  | Some JNull => Some 0%Z
  | Some (JBool b) => Some (if b then 1 else 0)%Z
  | Some (JNumber z) => Some z
  | Some v => Number_string (js_String v)
  end.
(** [a >= b]; false when one is [NaN]. *)
Definition js_ge (a b : option Z) : bool :=
  match a, b with Some a, Some b => Z.leb b a | _, _ => false end.

Section Plan.
Context `{Crypto} (localeLe : string → string → bool).

(** [canonicalJson] of a mapped record; throws on an [undefined] property. *)
Definition canonical_mapped (r : MappedRecord) : result js_error string :=
  match mapM (λ kv : string * option json, v ← kv.2; Some (kv.1, v)) r with
  | Some l => Ok (canonicalJson (JObject l))
  | None => Err Thrown
  end.

(** ** Identifiers *)

(** Source: packages/archive/src/import-plan.ts:362-376 mappedEntityId *)
Definition mappedEntityId (workspaceId : string) (kind : ArchiveRecordKind) (sourceId : string) : string :=
  let digest := chars (sha256 (canonicalJson (JObject
    [("format", JString "trust-import-mapped-id-v1"); ("workspaceId", JString workspaceId);
     ("kind", JString (kind_name kind)); ("sourceId", JString sourceId)]))) in
  let part n m := string_of_list_ascii (take (m - n) (drop n digest)) in
  let digit i := from_option id 0 (hex_value (nth i digest "0"%char)) in
  (* (parseInt(digest.slice(16, 18), 16) & 0x3f) | 0x80, two hexadecimal digits *)
  let variant := Z.lor (Z.land (Z.of_nat (16 * digit 16 + digit 17)) 63) 128 in
  part 0 8 +:+ "-" +:+ part 8 12 +:+ "-5" +:+ part 13 16 +:+ "-" +:+
  String (hex_digit (Z.to_nat (variant / 16))) (String (hex_digit (Z.to_nat (variant mod 16))) EmptyString) +:+
  part 18 20 +:+ "-" +:+ part 20 32.

Definition scopedKinds : list ArchiveRecordKind :=
  [datasets; resources; revisions; revision_blobs; blobs; relations; tombstones; retention].

Definition IdMappings : Type := ArchiveRecordKind → option (list (string * string)).

(** Source: packages/archive/src/import-plan.ts:213-248 buildIdMappings *)
Definition buildIdMappings (source : list (ArchiveRecordKind * list json))
    (sourceWorkspaceId targetWorkspaceId : string) : IdMappings := λ kind,
  if kind === workspaces then Some [(sourceWorkspaceId, targetWorkspaceId)]
  else if array_includes scopedKinds kind then
    Some (fold_left (λ m record,
      match as_string (js_prop record "id") with
      | Some id => map_set id (if sourceWorkspaceId === targetWorkspaceId then id
                               else mappedEntityId targetWorkspaceId kind id) m
      | None => m
      end) (records_of source kind) [])
  else None.

(** Source: packages/archive/src/import-plan.ts:335-340 mapReference *)
Definition mapReference (mapping : option (list (string * string))) (value : option json) : option json :=
  match value with
  | Some (JString s) => Some (JString (default s (mapping ≫= map_get s)))
  | v => v
  end.

(** Source: packages/archive/src/import-plan.ts:342-360 mapRelationReference *)
Definition mapRelationReference (mappings : IdMappings) (kind value : option json) : option json :=
  let recordKind :=
    if is_string kind "resource" then Some resources
    else if is_string kind "revision" then Some revisions
    else if is_string kind "blob" then Some blobs
    else if is_string kind "relation" then Some relations
    else if is_string kind "dataset" then Some datasets else None in
  match recordKind with Some k => mapReference (mappings k) value | None => value end.

(** [mapped.name = mapReference(mappings.kind, mapped.name)] *)
Definition remap (mappings : IdMappings) (kind : ArchiveRecordKind) (name : string) (mapped : MappedRecord) :
    MappedRecord := map_set name (mapReference (mappings kind) (mget mapped name)) mapped.
Definition remap_relation (mappings : IdMappings) (kindName name : string) (mapped : MappedRecord) : MappedRecord :=
  map_set name (mapRelationReference mappings (mget mapped kindName) (mget mapped name)) mapped.

(** Source: packages/archive/src/import-plan.ts:250-333 mapRecord *)
Definition mapRecord (kind : ArchiveRecordKind) (record : json) (sourceWorkspaceId targetWorkspaceId : string)
    (mappings : IdMappings) : MappedRecord :=
  let mapped := spread record in
  let mapped := if (kind !== audit_events) && js_same (mget mapped "workspaceId") (Some (JString sourceWorkspaceId))
                then map_set "workspaceId" (Some (JString targetWorkspaceId)) mapped else mapped in
  let mapped := remap mappings kind "id" mapped in
  match kind with
  | workspaces | schema_packages | audit_events | retention | blobs => mapped
  | datasets => remap mappings retention "retentionPolicyId" mapped
  | resources => remap mappings revisions "currentRevisionId" (remap mappings datasets "datasetId" mapped)
  | revisions =>
      let mapped := remap mappings revisions "restoredFromRevisionId"
        (remap mappings revisions "parentRevisionId"
          (remap mappings resources "resourceId" (remap mappings datasets "datasetId" mapped))) in
      match mget mapped "mergeParentRevisionIds" with
      | Some (JArray values) =>
          map_set "mergeParentRevisionIds"
            (Some (JArray (map (λ v, from_option id v (mapReference (mappings revisions) (Some v))) values))) mapped
      | _ => mapped
      end
  | revision_blobs => remap mappings blobs "blobObjectId" (remap mappings revisions "revisionId" mapped)
  | relations =>
      remap_relation mappings "targetKind" "targetId"
        (remap_relation mappings "sourceKind" "sourceId" (remap mappings datasets "datasetId" mapped))
  | tombstones =>
      remap mappings revisions "priorRevisionId"
        (remap_relation mappings "subjectKind" "subjectId" (remap mappings datasets "datasetId" mapped))
  end.

(** Source: packages/archive/src/import-plan.ts:193-211 transformRecords *)
Definition transformRecords (source : list (ArchiveRecordKind * list json))
    (sourceWorkspaceId targetWorkspaceId : string) (kind : ArchiveRecordKind) : list MappedRecord :=
  let mappings := buildIdMappings source sourceWorkspaceId targetWorkspaceId in
  map (λ record, mapRecord kind record sourceWorkspaceId targetWorkspaceId mappings) (records_of source kind).

(** ** The graph of the records *)

Definition addIssue (code message : string) : V unit := issue code message None.

(** [new Set(records.map((r) => r.id).filter(isString))] *)
Definition string_ids (records : list MappedRecord) : list string := omap (λ r, as_string (mget r "id")) records.

(** Source: packages/archive/src/import-plan.ts:610-626 requireId *)
Definition requireId (ids : list string) (value : option json) (label : string) (allowAbsentKind : bool) : V unit :=
  when (match as_string value with
        | None => true
        | Some v => negb (array_includes ids v) && negb (allowAbsentKind && bool_decide (ids = []))
        end)
    (addIssue "IMPORT_REFERENCE_INVALID" (label +:+ " does not exist in the archive.")).

(** Source: packages/archive/src/import-plan.ts:584-608 validateRelationEnd *)
Definition validateRelationEnd (kind id : option json) (ids : ArchiveRecordKind → list string) (side : string) : V unit :=
  if is_string kind "resource" then requireId (ids resources) id ("relation " +:+ side) false
  else if is_string kind "revision" then requireId (ids revisions) id ("relation " +:+ side) false
  else if is_string kind "blob" then requireId (ids blobs) id ("relation " +:+ side) false
  else if is_string kind "external" then mret tt
  else addIssue "IMPORT_RELATION_INVALID" ("Relation " +:+ side +:+ " kind is invalid.").


(** One revision: its references, its number and its parent. *)
Definition validate_revision (ids : ArchiveRecordKind → list string) (byId : list (string * MappedRecord))
    (revision : MappedRecord) (seen : list (string * Z)) : V (list (string * Z)) :=
  requireId (ids resources) (mget revision "resourceId") "revision resource" false ≫= λ _,
  requireId (ids datasets) (mget revision "datasetId") "revision dataset" false ≫= λ _,
  requireId (ids schema_packages) (mget revision "schemaPackageId") "revision schema package" true ≫= λ _,
  match mget revision "resourceId", mget revision "revisionNumber" with
  | Some (JString resourceId), Some (JNumber number) =>
      when (array_includes seen (resourceId, number))
        (addIssue "IMPORT_REVISION_NUMBER_CONFLICT" "Revision number is duplicated for a resource.") ≫= λ _,
      mret ((resourceId, number) :: seen)
  | _, _ => mret seen
  end ≫= λ seen,
  match as_string (mget revision "parentRevisionId") with
  | None => mret tt
  | Some parentId =>
      match map_get parentId byId with
      | None => addIssue "IMPORT_REFERENCE_INVALID" "Revision parent does not exist."
      | Some parent =>
          when (negb (js_same (mget parent "resourceId") (mget revision "resourceId")) ||
                js_ge (js_Number (mget parent "revisionNumber")) (js_Number (mget revision "revisionNumber")))
            (addIssue "IMPORT_REVISION_PARENT_INVALID" "Revision parent ordering or ownership is invalid.")
      end
  end ≫= λ _,
  mret seen.

Fixpoint validate_revisions (ids : ArchiveRecordKind → list string) (byId : list (string * MappedRecord))
    (revs : list MappedRecord) (seen : list (string * Z)) : V unit :=
  match revs with
  | [] => mret tt
  | revision :: revs => validate_revision ids byId revision seen ≫= validate_revisions ids byId revs
  end.

Definition validate_tombstone (ids : ArchiveRecordKind → list string) (tombstone : MappedRecord) : V unit :=
  let kind := mget tombstone "subjectKind" in
  let targetKind := if is_string kind "resource" then Some resources
                    else if is_string kind "dataset" then Some datasets
                    else if is_string kind "relation" then Some relations else None in
  match targetKind with
  | None => addIssue "IMPORT_TOMBSTONE_INVALID" "Tombstone subject kind is invalid."
  | Some k => requireId (ids k) (mget tombstone "subjectId") "tombstone subject" false
  end ≫= λ _,
  match as_string (mget tombstone "priorRevisionId") with
  | Some _ => requireId (ids revisions) (mget tombstone "priorRevisionId") "tombstone prior revision" false
  | None => mret tt
  end.

(** Source: packages/archive/src/import-plan.ts:378-538 validateGraph *)
Definition validateGraph (records : ArchiveRecordKind → list MappedRecord) (workspaceId : string) : V unit :=
  let ids k := string_ids (records k) in
  let byId := fold_left (λ m r, match as_string (mget r "id") with Some id => map_set id r m | None => m end)
                (records revisions) [] in
  for_each (λ kind, for_each (λ record,
    when ((kind !== audit_events) && bool_decide (is_Some (map_get "workspaceId" record)) &&
          negb (js_same (mget record "workspaceId") (Some (JString workspaceId))))
      (addIssue "IMPORT_WORKSPACE_MISMATCH" (kind_name kind +:+ " crosses workspace boundary.")))
    (records kind)) archiveRecordKinds ≫= λ _,
  for_each (λ dataset,
    requireId (ids schema_packages) (mget dataset "schemaPackageId") "dataset schema package" true)
    (records datasets) ≫= λ _,
  for_each (λ resource,
    requireId (ids datasets) (mget resource "datasetId") "resource dataset" false ≫= λ _,
    match mget resource "currentRevisionId" with
    | None | Some JNull => mret tt
    | v => requireId (ids revisions) v "resource current revision" false
    end) (records resources) ≫= λ _,
  validate_revisions ids byId (records revisions) [] ≫= λ _,
  for_each (λ attachment,
    requireId (ids revisions) (mget attachment "revisionId") "revision attachment revision" false ≫= λ _,
    requireId (ids blobs) (mget attachment "blobObjectId") "revision attachment blob" false)
    (records revision_blobs) ≫= λ _,
  for_each (λ relation,
    validateRelationEnd (mget relation "sourceKind") (mget relation "sourceId") ids "source" ≫= λ _,
    validateRelationEnd (mget relation "targetKind") (mget relation "targetId") ids "target")
    (records relations) ≫= λ _,
  for_each (validate_tombstone ids) (records tombstones).

(** Source: packages/archive/src/import-plan.ts:540-560 validateRetentionAssignments *)
Definition validateRetentionAssignments (records : ArchiveRecordKind → list MappedRecord) : V unit :=
  let retentionIds := string_ids (records retention) in
  for_each (λ dataset,
    match as_string (mget dataset "retentionPolicyId") with
    | Some policy => when (negb (array_includes retentionIds policy))
        (addIssue "IMPORT_RETENTION_POLICY_UNAVAILABLE"
          ("Dataset retention policy is not durably represented in the archive: " +:+ policy))
    | None => mret tt
    end) (records datasets).

(** Source: packages/archive/src/import-plan.ts:562-582 validateSchemaConflicts *)
Definition validateSchemaConflicts (records : ArchiveRecordKind → list MappedRecord)
    (target : list (ArchiveRecordKind * list (string * ArchiveRecord))) : V unit :=
  let existing := (default [] (map_get schema_packages target)).*2 in
  for_each (λ schema,
    match List.find (λ candidate,
      js_same (obj_get candidate "namespace") (mget schema "namespace") &&
      js_same (obj_get candidate "name") (mget schema "name") &&
      js_same (obj_get candidate "semanticVersion") (mget schema "semanticVersion")) existing with
    | Some found => when (negb (js_same (obj_get found "schemaDigest") (mget schema "schemaDigest")))
        (addIssue "IMPORT_SCHEMA_CONFLICT" "Schema identity exists with a different digest.")
    | None => mret tt
    end) (records schema_packages).

(** ** Actions *)

(** Source: packages/archive/src/import-plan.ts:628-632 recordId *)
Definition recordId (record : MappedRecord) (kind : ArchiveRecordKind) : result js_error string :=
  match as_string (mget record "id") with
  | Some (String c s) => Ok (String c s)
  | _ => if kind === retention then canonical_mapped record ≫= λ text, Ok (sha256 text) else Err Thrown
  end.

(** [recordId(sourceRecords[i] ?? record, kind)] *)
Definition source_recordId (source : json) (record : MappedRecord) (kind : ArchiveRecordKind) : result js_error string :=
  match source with
  | JNull => recordId record kind
  | JObject _ => recordId (spread source) kind
  | _ => if kind === retention then Ok (sha256 (canonicalJson source)) else Err Thrown
  end.

(** Source: packages/archive/src/import-plan.ts:662-668 relationKind *)
Definition relationKind (value : option json) : ArchiveRecordKind :=
  if is_string value "revision" then revisions else if is_string value "blob" then blobs else resources.


(** Source: packages/archive/src/import-plan.ts:634-660 dependencies *)
Definition dependencies (kind : ArchiveRecordKind) (record : MappedRecord) : list string :=
  let dep k name := match as_string (mget record name) with
                    | Some v => [kind_name k +:+ ":" +:+ v] | None => [] end in
  let values :=
    match kind with
    | datasets => dep schema_packages "schemaPackageId"
    | resources => dep datasets "datasetId"
    | revisions => dep resources "resourceId" ++ dep datasets "datasetId" ++ dep schema_packages "schemaPackageId" ++
                   dep revisions "parentRevisionId"
    | revision_blobs => dep revisions "revisionId" ++ dep blobs "blobObjectId"
    | relations => dep (relationKind (mget record "sourceKind")) "sourceId" ++
                   dep (relationKind (mget record "targetKind")) "targetId"
    | tombstones => dep revisions "priorRevisionId"
    | _ => []
    end%list in
  js_sort (new_Set values).

(** Source: packages/archive/src/import-plan.ts:670-679 compareActions *)
Definition action_le (a b : ArchiveImportAction) : bool :=
  let ka := action_kind_name (action_kind a) in let kb := action_kind_name (action_kind b) in
  if action_phase a !== action_phase b then Z.ltb (action_phase a) (action_phase b)
  else if localeLe ka kb && localeLe kb ka then localeLe (action_targetId a) (action_targetId b)
  else localeLe ka kb.

Fixpoint insert_action (a : ArchiveImportAction) (l : list ArchiveImportAction) : list ArchiveImportAction :=
  match l with
  | [] => [a]
  | b :: l' => if action_le a b then a :: l else b :: insert_action a l'
  end.
Fixpoint sort_actions (l : list ArchiveImportAction) : list ArchiveImportAction :=
  match l with [] => [] | a :: l => insert_action a (sort_actions l) end.

(** What the target makes of one record. *)
Definition disposition_of (mode : ArchiveImportMode) (kind : ArchiveRecordKind) (targetId : string)
    (record : MappedRecord) (existing : option ArchiveRecord) : V Disposition :=
  match existing with
  | None => mret Insert
  | Some existing =>
      if (kind === workspaces) && (mode === mapped_workspace) then mret AlreadyPresent
      else lift (canonical_mapped record) ≫= λ text,
           if canonicalJson (JObject existing) === text then mret AlreadyPresent
           else addIssue "IMPORT_ID_CONFLICT" (kind_name kind +:+ " ID already exists with different content: " +:+ targetId)
                  ≫= λ _, mret Blocked
  end.

Fixpoint record_actions (request : ArchiveImportRequest) (sourceWorkspaceId : string) (kind : ArchiveRecordKind)
    (records : list (json * MappedRecord)) : V (list ArchiveImportAction) :=
  match records with
  | [] => mret []
  | (source, record) :: records =>
      lift (source_recordId source record kind) ≫= λ sourceId,
      lift (recordId record kind) ≫= λ transformedId,
      disposition_of (request_mode request) kind transformedId record
        (map_get kind (inventory_records (request_target request)) ≫= map_get transformedId) ≫= λ disposition,
      record_actions request sourceWorkspaceId kind records ≫= λ rest,
      mret (mkAction 0 (phases (RecordKind kind)) (RecordKind kind)
        (if (kind === workspaces) && (request_mode request === mapped_workspace) then sourceWorkspaceId else sourceId)
        transformedId disposition (Some record) (dependencies kind record) :: rest)
  end.

Fixpoint kind_actions (request : ArchiveImportRequest) (sourceWorkspaceId : string)
    (transformed : ArchiveRecordKind → list MappedRecord) (kinds : list ArchiveRecordKind) : V (list ArchiveImportAction) :=
  match kinds with
  | [] => mret []
  | kind :: kinds =>
      record_actions request sourceWorkspaceId kind
        (zip (records_of (report_records (request_verification request)) kind) (transformed kind)) ≫= λ actions,
      kind_actions request sourceWorkspaceId transformed kinds ≫= λ rest,
      mret (actions ++ rest)%list
  end.

Fixpoint blob_byte_actions (present : list string) (records : list MappedRecord) : V (list ArchiveImportAction) :=
  match records with
  | [] => mret []
  | record :: records =>
      match as_string (mget record "sha256") with
      | None => blob_byte_actions present records
      | Some digest =>
          lift (recordId record blobs) ≫= λ id,
          blob_byte_actions present records ≫= λ rest,
          mret (mkAction 0 (phases BlobBytes) BlobBytes digest digest
            (if array_includes present digest then AlreadyPresent else Insert) None ["blobs:" +:+ id] :: rest)
      end
  end.

(** ** The identity of a plan *)

Definition record_hash (a : ArchiveImportAction) : result js_error (list (string * json)) :=
  match action_record a with
  | None => Ok []
  | Some r => canonical_mapped r ≫= λ text, Ok [("recordHash", JString (sha256 text))]
  end.
Definition action_fields (a : ArchiveImportAction) (hash : list (string * json)) : list (string * json) :=
  [("phase", JNumber (action_phase a)); ("kind", JString (action_kind_name (action_kind a)));
   ("sourceId", JString (action_sourceId a)); ("targetId", JString (action_targetId a));
   ("dependsOn", JArray (map JString (action_dependsOn a)))] ++ hash.
Definition action_json (a : ArchiveImportAction) : result js_error json :=
  record_hash a ≫= λ hash, Ok (JObject (action_fields a hash)).

Fixpoint action_jsons (l : list ArchiveImportAction) : result js_error (list json) :=
  match l with
  | [] => Ok []
  | a :: l => action_json a ≫= λ j, action_jsons l ≫= λ js, Ok (j :: js)
  end.

Definition manifest_string (manifest : json) (name : string) : string :=
  from_option id EmptyString (as_string (js_prop manifest name)).

Definition plan_document (manifest : json) (sourceWorkspaceId targetWorkspaceId : string) (mode : ArchiveImportMode)
    (conflictMode : ArchiveConflictMode) (actions : list json) : json :=
  JObject [("format", JString "trust-import-plan-v1");
           ("archiveExportId", JString (manifest_string manifest "exportId"));
           ("archiveManifestHash", JString (sha256 (canonicalJson manifest)));
           ("sourceWorkspaceId", JString sourceWorkspaceId); ("targetWorkspaceId", JString targetWorkspaceId);
           ("mode", JString (mode_name mode)); ("conflictMode", JString (conflict_name conflictMode));
           ("actions", JArray actions)].

(** Source: packages/archive/src/import-plan.ts:166-191 calculateArchiveImportPlanId *)
Definition calculateArchiveImportPlanId (manifest : json) (sourceWorkspaceId targetWorkspaceId : string)
    (mode : ArchiveImportMode) (conflictMode : ArchiveConflictMode) (actions : list ArchiveImportAction) :
    result js_error string :=
  action_jsons actions ≫= λ js,
  Ok (sha256 (canonicalJson (plan_document manifest sourceWorkspaceId targetWorkspaceId mode conflictMode js))).

(** ** The plan *)

Definition finish_action (blockedByGlobalError : bool) (index : nat) (a : ArchiveImportAction) : ArchiveImportAction :=
  mkAction (Z.of_nat index) (action_phase a) (action_kind a) (action_sourceId a) (action_targetId a)
    (if blockedByGlobalError && (action_disposition a === Insert) then Blocked else action_disposition a)
    (action_record a) (action_dependsOn a).

Definition count_disposition (d : Disposition) (actions : list ArchiveImportAction) : Z :=
  Z.of_nat (length (List.filter (λ a, action_disposition a === d) actions)).

(** The checks before the actions: the archive, the workspace and the graph. *)
Definition check_request (request : ArchiveImportRequest) (sourceWorkspaceId : string)
    (targetWorkspaceId : option string) (transformed : ArchiveRecordKind → list MappedRecord) (mappedWorkspaceId : string) : V unit :=
  when (negb (report_valid (request_verification request)))
    (addIssue "IMPORT_ARCHIVE_INVALID" "Archive verification must pass before import planning.") ≫= λ _,
  when (negb (truthy targetWorkspaceId))
    (addIssue "IMPORT_TARGET_WORKSPACE_REQUIRED" "Mapped-workspace import requires a target workspace ID.") ≫= λ _,
  when ((request_mode request === preserve_ids) && truthy (inventory_workspaceId (request_target request)) &&
        (inventory_workspaceId (request_target request) !== Some sourceWorkspaceId))
    (addIssue "IMPORT_WORKSPACE_MODE_CONFLICT" "Preserve-ID import cannot substitute a workspace ID.") ≫= λ _,
  validateGraph transformed mappedWorkspaceId ≫= λ _,
  validateRetentionAssignments transformed ≫= λ _,
  validateSchemaConflicts transformed (inventory_records (request_target request)).

(** Source: packages/archive/src/import-plan.ts:28-164 planArchiveImport *)
Definition planArchiveImport (request : ArchiveImportRequest) : result js_error ArchiveImportPlan :=
  let manifest := request_manifest request in
  let sourceWorkspaceId := manifest_string manifest "workspaceId" in
  let targetWorkspaceId :=
    match request_mode request with
    | mapped_workspace => trim <$> inventory_workspaceId (request_target request)
    | preserve_ids => Some sourceWorkspaceId
    end in
  let mappedWorkspaceId := if truthy targetWorkspaceId then default sourceWorkspaceId targetWorkspaceId
                           else sourceWorkspaceId in
  let transformed := transformRecords (report_records (request_verification request)) sourceWorkspaceId mappedWorkspaceId in
  match (check_request request sourceWorkspaceId targetWorkspaceId transformed mappedWorkspaceId ≫= λ _,
         kind_actions request sourceWorkspaceId transformed archiveRecordKinds ≫= λ actions,
         blob_byte_actions (inventory_blobDigests (request_target request)) (transformed blobs) ≫= λ byteActions,
         mret (actions ++ byteActions)%list) [] with
  | (Err e, _) => Err e
  | (Ok actions, issues) =>
      let blockedByGlobalError := (request_conflictMode request === reject_on_error) && negb (bool_decide (issues = [])) in
      let indexed := imap (finish_action blockedByGlobalError) (sort_actions actions) in
      let status := match request_conflictMode request with
                    | report_only => ReportOnly
                    | reject_on_error => if bool_decide (issues = []) then Ready else Rejected
                    end in
      calculateArchiveImportPlanId manifest sourceWorkspaceId mappedWorkspaceId (request_mode request)
        (request_conflictMode request) indexed ≫= λ planId,
      Ok (mkPlan planId (manifest_string manifest "exportId") sourceWorkspaceId mappedWorkspaceId
        (request_mode request) (request_conflictMode request) status issues indexed
        (count_disposition Insert indexed) (count_disposition AlreadyPresent indexed) (count_disposition Blocked indexed))
  end.
End Plan.

(** ** Actions and records *)

Section Actions.
Context `{Crypto} (localeLe : string → string → bool).

(** The action planned for a record of a kind. *)
Definition action_for (kind : ArchiveRecordKind) (record : MappedRecord) (a : ArchiveImportAction) : Prop :=
  action_kind a = RecordKind kind ∧ action_phase a = phases (RecordKind kind) ∧ action_record a = Some record ∧
  recordId record kind = Ok (action_targetId a) ∧ action_dependsOn a = dependencies kind record.

Lemma record_actions_spec request w kind pairs s acts s' :
  record_actions request w kind pairs s = (Ok acts, s') → Forall2 (action_for kind) (pairs.*2) acts.
Proof.
  revert s acts. induction pairs as [|[source record] pairs IH]; intros s acts Hr; cbn [record_actions] in Hr.
  - run_inv. constructor.
  - run_inv. rewrite fmap_cons. constructor; [|by eapply IH]. by repeat split.
Qed.

Lemma kind_actions_spec request w transformed kinds s acts s' :
  (∀ k, length (transformed k) = length (records_of (report_records (request_verification request)) k)) →
  kind_actions request w transformed kinds s = (Ok acts, s') →
  (∀ k r, k ∈ kinds → r ∈ transformed k → ∃ a, a ∈ acts ∧ action_for k r a) ∧
  (∀ a, a ∈ acts → ∃ k r, k ∈ kinds ∧ r ∈ transformed k ∧ action_for k r a).
Proof.
  intros Hlen. revert s acts. induction kinds as [|k kinds IH]; intros s acts Hr; cbn [kind_actions] in Hr.
  { run_inv. split; [by intros ? ? ?%elem_of_nil|by intros ? ?%elem_of_nil]. }
  run_inv. match goal with H1 : record_actions _ _ _ _ _ = _, H2 : kind_actions _ _ _ _ _ = _ |- _ =>
    apply record_actions_spec in H1 as HF; apply IH in H2 as [IH1 IH2] end.
  rewrite snd_zip in HF by (by rewrite Hlen). split.
  - intros k' r [->|Hk]%elem_of_cons Hin.
    + apply list_elem_of_lookup in Hin as [i Hi]. destruct (Forall2_lookup_l _ _ _ _ _ HF Hi) as (a & Ha & Haf).
      exists a. split; [|done]. apply elem_of_app. left. by eapply list_elem_of_lookup_2.
    + destruct (IH1 k' r Hk Hin) as (a & Ha & Haf). exists a. split; [|done]. apply elem_of_app. by right.
  - intros a [Ha|Ha]%elem_of_app.
    + apply list_elem_of_lookup in Ha as [i Hi]. destruct (Forall2_lookup_r _ _ _ _ _ HF Hi) as (r & Hri & Haf).
      exists k, r. split_and!; [left|by eapply list_elem_of_lookup_2|done].
    + destruct (IH2 a Ha) as (k' & r & Hk & Hin & Haf). exists k', r. split_and!; [by right|done|done].
Qed.

Lemma blob_byte_actions_spec present records s acts s' :
  blob_byte_actions present records s = (Ok acts, s') →
  ∀ a, a ∈ acts → action_kind a = BlobBytes ∧ action_phase a = phases BlobBytes ∧
    ∃ r, r ∈ records ∧ mget r "sha256" = Some (JString (action_sourceId a)) ∧
      ∃ id, recordId r blobs = Ok id ∧ action_dependsOn a = ["blobs:" +:+ id].
Proof.
  revert s acts. induction records as [|r records IH]; intros s acts Hr; cbn [blob_byte_actions] in Hr.
  { run_inv. by intros ? ?%elem_of_nil. }
  destruct (as_string (mget r "sha256")) as [digest|] eqn:Ed.
  - run_inv. intros a [->|Ha]%elem_of_cons.
    + split_and!; [done|done|]. exists r. split; [left|]. split; [|eauto]. cbn. by destruct (mget r "sha256") as [[]|]; simplify_eq/=.
    + match goal with H2 : blob_byte_actions _ _ _ = _ |- _ => destruct (IH _ _ H2 a Ha) as (? & ? & r' & ? & ?) end.
      split_and!; [done|done|]. exists r'. split; [by right|done].
  - intros a Ha. destruct (IH _ _ Hr a Ha) as (? & ? & r' & ? & ?). split_and!; [done|done|]. exists r'. split; [by right|done].
Qed.

(** ** Sorting by phase *)

Lemma insert_action_perm a l : insert_action localeLe a l ≡ₚ a :: l.
Proof. induction l as [|b l IH]; cbn; [done|]. case_match; [done|]. rewrite IH. constructor. Qed.
Lemma sort_actions_perm l : sort_actions localeLe l ≡ₚ l.
Proof. induction l as [|a l IH]; cbn; [done|]. by rewrite insert_action_perm, IH. Qed.

Definition phase_le (a b : ArchiveImportAction) : Prop := (action_phase a ≤ action_phase b)%Z.

Lemma action_le_phase a b : (if action_le localeLe a b then phase_le a b else phase_le b a).
Proof.
  unfold action_le, phase_le. case_bool_decide as Hp; cbn [negb]; [rewrite Hp; by case_match|].
  destruct (Z.ltb_spec (action_phase a) (action_phase b)); lia.
Qed.

Lemma sort_actions_sorted l : StronglySorted phase_le (sort_actions localeLe l).
Proof.
  induction l as [|a l IH]; cbn; [constructor|].
  induction IH as [|b l' Hs IHl Hall]; cbn; [by repeat constructor|]. pose proof (action_le_phase a b) as Hab.
  destruct (action_le localeLe a b).
  - constructor; [by constructor|]. constructor; [done|]. eapply Forall_impl; [exact Hall|]. unfold phase_le in *. intros x Hx. lia.
  - constructor; [done|]. rewrite insert_action_perm. by constructor.
Qed.
End Actions.

(** ** What a silent graph check says *)

Section Graph.
Context (records : ArchiveRecordKind → list MappedRecord) (workspaceId : string).
Let ids (k : ArchiveRecordKind) : list string := string_ids (records k).

Lemma grows_requireId xs v label allow : grows (requireId xs v label allow).
Proof. unfold requireId, addIssue. auto with grows. Qed.
#[local] Hint Resolve grows_requireId : grows.
Lemma grows_relation_end k v xs side : grows (validateRelationEnd k v xs side).
Proof. unfold validateRelationEnd, addIssue. solve_grows. Qed.
#[local] Hint Resolve grows_relation_end : grows.
Lemma grows_validate_revision xs m r seen : grows (validate_revision xs m r seen).
Proof. unfold validate_revision, addIssue. solve_grows. Qed.
Lemma grows_validate_revisions xs m rs seen : grows (validate_revisions xs m rs seen).
Proof.
  revert seen. induction rs as [|r rs IH]; intros seen; cbn [validate_revisions]; [apply grows_ret|].
  apply grows_bind; [apply grows_validate_revision|done].
Qed.
#[local] Hint Resolve grows_validate_revisions : grows.
Lemma grows_validate_tombstone xs t : grows (validate_tombstone xs t).
Proof. unfold validate_tombstone, addIssue. solve_grows. Qed.
#[local] Hint Resolve grows_validate_tombstone : grows.

Lemma requireId_silent xs v label allow :
  requireId xs v label allow [] = (Ok tt, []) →
  ∃ x, as_string v = Some x ∧ (x ∈ xs ∨ (allow = true ∧ xs = [])).
Proof.
  unfold requireId, addIssue. rewrite silent_when. destruct (as_string v) as [x|]; [|done]. intros Hs. exists x. split; [done|].
  unfold array_includes in Hs. destruct (decide (x ∈ xs)) as [|Hn]; [by left|]. rewrite bool_decide_eq_false_2 in Hs by done.
  cbn in Hs. destruct allow; [|done]. right. split; [done|]. cbn in Hs. apply negb_false_iff, bool_decide_eq_true in Hs. done.
Qed.

Lemma relation_end_silent k v side :
  validateRelationEnd k v ids side [] = (Ok tt, []) →
  is_string k "external" = true ∨ ∃ x, as_string v = Some x ∧ x ∈ ids (relationKind k).
Proof.
  unfold validateRelationEnd, relationKind. intros Hs.
  destruct (is_string k "resource") eqn:E1.
  { assert (is_string k "revision" = false ∧ is_string k "blob" = false) as [-> ->].
    { unfold is_string in *. apply js_same_string in E1 as ->. done. }
    right. apply requireId_silent in Hs as (x & Hx & [Hin|[? ?]]); [by exists x|done]. }
  destruct (is_string k "revision") eqn:E2; [right; apply requireId_silent in Hs as (x & Hx & [Hin|[? ?]]); [by exists x|done]|].
  destruct (is_string k "blob") eqn:E3; [right; apply requireId_silent in Hs as (x & Hx & [Hin|[? ?]]); [by exists x|done]|].
  destruct (is_string k "external") eqn:E4; [by left|done].
Qed.

Lemma revision_silent byId r seen out :
  validate_revision ids byId r seen [] = (Ok out, []) →
  (∃ x, as_string (mget r "resourceId") = Some x ∧ x ∈ ids resources) ∧
  (∃ x, as_string (mget r "datasetId") = Some x ∧ x ∈ ids datasets) ∧
  (∃ x, as_string (mget r "schemaPackageId") = Some x ∧ (x ∈ ids schema_packages ∨ ids schema_packages = [])) ∧
  (∀ x, as_string (mget r "parentRevisionId") = Some x → is_Some (map_get x byId)).
Proof.
  intros Hs. unfold validate_revision in Hs.
  apply silent_bind in Hs as ([] & H1 & Hs); [|unfold addIssue; solve_grows].
  apply silent_bind in Hs as ([] & H2 & Hs); [|unfold addIssue; solve_grows].
  apply silent_bind in Hs as ([] & H3 & Hs); [|unfold addIssue; solve_grows].
  apply silent_bind in Hs as (seen' & _ & Hs); [|unfold addIssue; solve_grows].
  apply silent_bind in Hs as ([] & H4 & _); [|solve_grows].
  apply requireId_silent in H1 as (x1 & ? & [?|[? ?]]); [|done]. apply requireId_silent in H2 as (x2 & ? & [?|[? ?]]); [|done].
  apply requireId_silent in H3 as (x3 & ? & Hx3). split_and!; [by exists x1|by exists x2|exists x3; split; [done|naive_solver]|].
  intros x Hx. rewrite Hx in H4. destruct (map_get x byId); [by eexists|done].
Qed.

Lemma revisions_silent byId rs seen :
  validate_revisions ids byId rs seen [] = (Ok tt, []) → ∀ r, r ∈ rs → ∃ seen' out, validate_revision ids byId r seen' [] = (Ok out, []).
Proof.
  revert seen. induction rs as [|r rs IH]; intros seen Hs x Hx; [by apply elem_of_nil in Hx|]. cbn [validate_revisions] in Hs.
  apply silent_bind in Hs as (out & Hr & Hs); [|auto with grows]. apply elem_of_cons in Hx as [->|Hx]; eauto.
Qed.

(** The silent check, one conjunct for each kind. *)
Record closed : Prop := {
  closed_datasets d : d ∈ records datasets →
    ∃ x, as_string (mget d "schemaPackageId") = Some x ∧ (x ∈ ids schema_packages ∨ ids schema_packages = []);
  closed_resources r : r ∈ records resources → ∃ x, as_string (mget r "datasetId") = Some x ∧ x ∈ ids datasets;
  closed_revisions r : r ∈ records revisions →
    (∃ x, as_string (mget r "resourceId") = Some x ∧ x ∈ ids resources) ∧
    (∃ x, as_string (mget r "datasetId") = Some x ∧ x ∈ ids datasets) ∧
    (∃ x, as_string (mget r "schemaPackageId") = Some x ∧ (x ∈ ids schema_packages ∨ ids schema_packages = [])) ∧
    (∀ x, as_string (mget r "parentRevisionId") = Some x → x ∈ ids revisions);
  closed_attachments r : r ∈ records revision_blobs →
    (∃ x, as_string (mget r "revisionId") = Some x ∧ x ∈ ids revisions) ∧
    (∃ x, as_string (mget r "blobObjectId") = Some x ∧ x ∈ ids blobs);
  closed_relations r : r ∈ records relations →
    (is_string (mget r "sourceKind") "external" = true ∨
     ∃ x, as_string (mget r "sourceId") = Some x ∧ x ∈ ids (relationKind (mget r "sourceKind"))) ∧
    (is_string (mget r "targetKind") "external" = true ∨
     ∃ x, as_string (mget r "targetId") = Some x ∧ x ∈ ids (relationKind (mget r "targetKind")));
  closed_tombstones r x : r ∈ records tombstones → as_string (mget r "priorRevisionId") = Some x → x ∈ ids revisions;
}.

Lemma fold_ids_key (rs : list MappedRecord) m x :
  is_Some (map_get x (fold_left (λ m r, match as_string (mget r "id") with Some id => map_set id r m | None => m end) rs m)) →
  is_Some (map_get x m) ∨ x ∈ string_ids rs.
Proof.
  revert m. induction rs as [|r rs IH]; intros m; cbn [fold_left]; [by left|]. intros [Hm|Hin]%IH.
  - unfold string_ids. cbn [omap list_omap]. destruct (as_string (mget r "id")) as [id|]; [|by left].
    destruct (decide (x = id)) as [->|Hne]; [right; left|]. left. by rewrite map_get_set_ne in Hm.
  - right. unfold string_ids. cbn [omap list_omap]. destruct (as_string (mget r "id")); [by right|done].
Qed.

Lemma graph_closed : validateGraph records workspaceId [] = (Ok tt, []) → closed.
Proof.
  intros Hs. unfold validateGraph in Hs. fold ids in Hs.
  apply silent_bind in Hs as ([] & _ & Hs); [|unfold addIssue; solve_grows].
  apply silent_bind in Hs as ([] & Hd & Hs); [|solve_grows].
  apply silent_bind in Hs as ([] & Hre & Hs); [|solve_grows].
  apply silent_bind in Hs as ([] & Hrv & Hs); [|solve_grows].
  apply silent_bind in Hs as ([] & Hat & Hs); [|solve_grows].
  apply silent_bind in Hs as ([] & Hrl & Ht); [|solve_grows].
  rewrite silent_for_each in Hd by solve_grows. rewrite silent_for_each in Hre by solve_grows.
  rewrite silent_for_each in Hat by solve_grows. rewrite silent_for_each in Hrl by solve_grows.
  rewrite silent_for_each in Ht by solve_grows. split.
  - intros d Hin. apply Hd, requireId_silent in Hin as (x & Hx & Hor). exists x. naive_solver.
  - intros r Hin. apply Hre in Hin. apply silent_bind in Hin as ([] & H1 & _); [|solve_grows].
    apply requireId_silent in H1 as (x & Hx & [Hin|[? ?]]); [by exists x|done].
  - intros r Hin. destruct (revisions_silent _ _ _ Hrv r Hin) as (seen & out & Hr).
    apply revision_silent in Hr as (H1 & H2 & H3 & H4). split_and!; [done|done|done|]. intros x Hx.
    apply H4, fold_ids_key in Hx as [[? Hx]|Hx]; [done|done].
  - intros r Hin. apply Hat in Hin. apply silent_bind in Hin as ([] & H1 & H2); [|solve_grows].
    apply requireId_silent in H1 as (x & Hx & [Hin|[? ?]]); [|done]. apply requireId_silent in H2 as (y & Hy & [Hin'|[? ?]]); [|done].
    split; [by exists x|by exists y].
  - intros r Hin. apply Hrl in Hin. apply silent_bind in Hin as ([] & H1 & H2); [|solve_grows].
    by apply relation_end_silent in H1; apply relation_end_silent in H2.
  - intros r x Hin Hx. apply Ht in Hin. unfold validate_tombstone in Hin. apply silent_bind in Hin as ([] & _ & H2); [|solve_grows].
    rewrite Hx in H2. apply requireId_silent in H2 as (y & Hy & [Hin|[? ?]]); [|done]. congruence.
Qed.
End Graph.

(** ** Ready plans *)

Section ReadyPlan.
Context `{Crypto} (localeLe : string → string → bool).

Lemma recordId_string r k id : k ≠ retention → recordId r k = Ok id → as_string (mget r "id") = Some id.
Proof.
  intros Hk. unfold recordId. rewrite bool_decide_eq_false_2 by done.
  destruct (as_string (mget r "id")) as [[|c t]|]; [done|congruence|done].
Qed.

Lemma grows_disposition mode k id r e : grows (disposition_of mode k id r e).
Proof. unfold disposition_of, addIssue. solve_grows. Qed.
Lemma grows_record_actions request w k pairs : grows (record_actions request w k pairs).
Proof.
  pose proof grows_disposition. induction pairs as [|[x r] pairs IH]; cbn [record_actions]; solve_grows.
Qed.
Lemma grows_kind_actions request w t kinds : grows (kind_actions request w t kinds).
Proof. pose proof grows_record_actions. induction kinds as [|k kinds IH]; cbn [kind_actions]; solve_grows. Qed.
Lemma grows_blob_byte_actions present rs : grows (blob_byte_actions present rs).
Proof. induction rs as [|r rs IH]; cbn [blob_byte_actions]; solve_grows. Qed.

(** Without an issue nothing is blocked. *)
Lemma record_actions_unblocked request w k pairs acts :
  record_actions request w k pairs [] = (Ok acts, []) → Forall (λ a, action_disposition a ≠ Blocked) acts.
Proof.
  revert acts. induction pairs as [|[x r] pairs IH]; intros acts Hr; cbn [record_actions] in Hr; [injection Hr as <-; constructor|].
  pose proof grows_disposition as Hgd. pose proof grows_record_actions as Hgr.
  apply silent_bind in Hr as (sid & _ & Hr); [|solve_grows]. apply silent_bind in Hr as (tid & _ & Hr); [|solve_grows].
  apply silent_bind in Hr as (d & Hd & Hr); [|solve_grows]. apply silent_bind in Hr as (rest & Hrest & Hr); [|solve_grows].
  injection Hr as <-. constructor; [|by apply IH]. cbn. intros ->. unfold disposition_of in Hd.
  repeat case_match; try done; run_inv; simplify_eq/=; try done; by repeat case_match.
Qed.

Lemma kind_actions_unblocked request w t kinds acts :
  kind_actions request w t kinds [] = (Ok acts, []) → Forall (λ a, action_disposition a ≠ Blocked) acts.
Proof.
  revert acts. induction kinds as [|k kinds IH]; intros acts Hr; cbn [kind_actions] in Hr; [injection Hr as <-; constructor|].
  pose proof grows_kind_actions as Hgk.
  apply silent_bind in Hr as (a1 & H1 & Hr); [|solve_grows]. apply silent_bind in Hr as (a2 & H2 & Hr); [|solve_grows].
  injection Hr as <-. apply Forall_app. split; [by eapply record_actions_unblocked|by apply IH].
Qed.

Lemma blob_byte_actions_unblocked present rs s acts s' :
  blob_byte_actions present rs s = (Ok acts, s') → Forall (λ a, action_disposition a ≠ Blocked) acts.
Proof.
  revert s acts. induction rs as [|r rs IH]; intros s acts Hr; cbn [blob_byte_actions] in Hr; [run_inv; constructor|].
  case_match; [|by eapply IH]. run_inv. constructor; [cbn; by case_match|by eapply IH].
Qed.

(** A dependency of a record of a checked graph is a record of an earlier kind,
    or one of the exceptions. *)
Definition external_end (r : MappedRecord) : Prop :=
  is_string (mget r "sourceKind") "external" = true ∨ is_string (mget r "targetKind") "external" = true.

Lemma closed_dependencies records k r dep :
  closed records → r ∈ records k → dep ∈ dependencies k r →
  (∃ k' x, dep = kind_name k' +:+ ":" +:+ x ∧ x ∈ string_ids (records k') ∧ k' ≠ retention ∧
     ((phases (RecordKind k') < phases (RecordKind k))%Z ∨ (k = revisions ∧ k' = revisions))) ∨
  (∃ x, dep = "schema-packages:" +:+ x ∧ string_ids (records schema_packages) = []) ∨
  (k = relations ∧ external_end r).
Proof.
  intros Hc Hr Hdep. unfold dependencies, js_sort in Hdep. rewrite merge_sort_Permutation, elem_of_new_Set in Hdep.
  destruct k; try by apply elem_of_nil in Hdep.
  - destruct (closed_datasets _ Hc r Hr) as (x & Hx & Hor). rewrite Hx in Hdep. apply list_elem_of_singleton in Hdep as ->.
    destruct Hor as [Hin|Hnil]; [left; exists schema_packages, x; split_and!; auto; by left|right; left; eauto].
  - destruct (closed_resources _ Hc r Hr) as (x & Hx & Hin). rewrite Hx in Hdep. apply list_elem_of_singleton in Hdep as ->.
    left; exists datasets, x; split_and!; auto; by left.
  - destruct (closed_revisions _ Hc r Hr) as ((x1 & H1 & Hi1) & (x2 & H2 & Hi2) & (x3 & H3 & Hor) & Hpar).
    rewrite H1, H2, H3 in Hdep. cbn [app] in Hdep.
    apply elem_of_cons in Hdep as [->|Hdep]; [left; exists resources, x1; split_and!; auto; by left|].
    apply elem_of_cons in Hdep as [->|Hdep]; [left; exists datasets, x2; split_and!; auto; by left|].
    apply elem_of_cons in Hdep as [->|Hdep].
    { destruct Hor as [Hin|Hnil]; [left; exists schema_packages, x3; split_and!; auto; by left|right; left; eauto]. }
    destruct (as_string (mget r "parentRevisionId")) as [x4|] eqn:H4; [|by apply elem_of_nil in Hdep].
    apply list_elem_of_singleton in Hdep as ->. left. exists revisions, x4. split_and!; auto.
  - destruct (closed_attachments _ Hc r Hr) as ((x1 & H1 & Hi1) & (x2 & H2 & Hi2)). rewrite H1, H2 in Hdep. cbn [app] in Hdep.
    apply elem_of_cons in Hdep as [->|Hdep]; [left; exists revisions, x1; split_and!; auto; by left|].
    apply list_elem_of_singleton in Hdep as ->. left; exists blobs, x2; split_and!; auto; by left.
  - destruct (closed_relations _ Hc r Hr) as [[He|(x1 & H1 & Hi1)] [He'|(x2 & H2 & Hi2)]];
      try (right; right; split; [done|]; by (left + right)).
    rewrite H1, H2 in Hdep. cbn [app] in Hdep. left.
    assert (∀ v, relationKind v ≠ retention ∧ (phases (RecordKind (relationKind v)) < phases (RecordKind relations))%Z) as Hrk.
    { intros v. unfold relationKind. by repeat case_match. }
    apply elem_of_cons in Hdep as [->|Hdep]; [|apply list_elem_of_singleton in Hdep as ->].
    + exists (relationKind (mget r "sourceKind")), x1. destruct (Hrk (mget r "sourceKind")). split_and!; auto.
    + exists (relationKind (mget r "targetKind")), x2. destruct (Hrk (mget r "targetKind")). split_and!; auto.
  - destruct (as_string (mget r "priorRevisionId")) as [x|] eqn:Hx; [|by apply elem_of_nil in Hdep].
    apply list_elem_of_singleton in Hdep as ->. left; exists revisions, x. split_and!; auto; [by eapply closed_tombstones|by left].
Qed.

(** The records of a request in the target workspace. *)
Definition plan_records (request : ArchiveImportRequest) (plan : ArchiveImportPlan) : ArchiveRecordKind → list MappedRecord :=
  transformRecords (report_records (request_verification request)) (plan_sourceWorkspaceId plan) (plan_targetWorkspaceId plan).

Lemma ready_plan_runs request plan :
  planArchiveImport localeLe request = Ok plan → plan_status plan = Ready →
  report_valid (request_verification request) = true ∧ plan_issues plan = [] ∧ closed (plan_records request plan) ∧
  ∃ acts byteActs,
    kind_actions request (plan_sourceWorkspaceId plan) (plan_records request plan) archiveRecordKinds [] = (Ok acts, []) ∧
    blob_byte_actions (inventory_blobDigests (request_target request)) (plan_records request plan blobs) [] = (Ok byteActs, []) ∧
    plan_actions plan = imap (finish_action false) (sort_actions localeLe (acts ++ byteActs)).
Proof.
  unfold planArchiveImport, plan_records. set (w := manifest_string (request_manifest request) "workspaceId").
  set (tw := match request_mode request with mapped_workspace => _ | preserve_ids => _ end).
  set (mw := if truthy tw then _ else w). set (t := transformRecords _ w mw).
  destruct ((check_request request w tw t mw ≫= _) []) as [[acts|e] issues] eqn:E; [|done].
  intros Hp Hst. apply result_bind_Ok in Hp as (pid & _ & [= <-]).
  cbn [plan_status plan_issues plan_sourceWorkspaceId plan_targetWorkspaceId plan_actions] in *. fold t.
  destruct (request_conflictMode request); [|done]. destruct (decide (issues = [])) as [->|Hne];
    [|by rewrite bool_decide_eq_false_2 in Hst].
  pose proof grows_kind_actions as Hgk. pose proof grows_blob_byte_actions as Hgb.
  apply silent_bind in E as ([] & Hcheck & E); [|solve_grows].
  apply silent_bind in E as (acts1 & Hk & E); [|solve_grows]. apply silent_bind in E as (acts2 & Hb & E); [|solve_grows].
  injection E as <-. unfold check_request in Hcheck.
  assert (∀ inv, grows (validateSchemaConflicts t inv)) as Hgs by (intros; unfold validateSchemaConflicts, addIssue; solve_grows).
  assert (grows (validateRetentionAssignments t)) as Hgr by (unfold validateRetentionAssignments, addIssue; solve_grows).
  assert (grows (validateGraph t mw)) as Hgg.
  { unfold validateGraph, addIssue. pose proof grows_requireId. pose proof grows_relation_end. pose proof grows_validate_revisions.
    pose proof grows_validate_tombstone. solve_grows. }
  apply silent_bind in Hcheck as ([] & Hv & Hcheck); [|unfold addIssue; solve_grows].
  apply silent_when, negb_false_iff in Hv.
  apply silent_bind in Hcheck as ([] & _ & Hcheck); [|unfold addIssue; solve_grows].
  apply silent_bind in Hcheck as ([] & _ & Hcheck); [|solve_grows].
  apply silent_bind in Hcheck as ([] & Hg & _); [|solve_grows].
  split_and!; [done|done|by eapply graph_closed|]. exists acts1, acts2. by split_and!.
Qed.

Lemma finish_false i a : finish_action false i a = mkAction (Z.of_nat i) (action_phase a) (action_kind a)
  (action_sourceId a) (action_targetId a) (action_disposition a) (action_record a) (action_dependsOn a).
Proof. done. Qed.

Lemma elem_of_finished (l : list ArchiveImportAction) a :
  a ∈ imap (finish_action false) l → ∃ i b, l !! i = Some b ∧ a = finish_action false i b.
Proof.
  intros Ha. apply list_elem_of_lookup in Ha as [i Hi]. rewrite list_lookup_imap in Hi.
  apply fmap_Some in Hi as (b & Hb & ->). eauto.
Qed.
Lemma finished_elem (l : list ArchiveImportAction) b : b ∈ l → ∃ i, finish_action false i b ∈ imap (finish_action false) l.
Proof.
  intros Hb. apply list_elem_of_lookup in Hb as [i Hi]. exists i. apply list_elem_of_lookup. exists i.
  by rewrite list_lookup_imap, Hi.
Qed.

Lemma finished_sorted (l : list ArchiveImportAction) :
  StronglySorted phase_le l → StronglySorted phase_le (imap (finish_action false) l).
Proof.
  assert (∀ f : nat → nat, StronglySorted phase_le l → StronglySorted phase_le (imap (λ i, finish_action false (f i)) l)) as Hgen;
    [|apply (Hgen id)].
  intros f Hs. revert f. induction Hs as [|a l Hs IH Hall]; intros f; cbn; constructor; [apply (IH (f ∘ S))|].
  apply Forall_forall. intros b Hb. apply list_elem_of_lookup in Hb as [i Hi]. rewrite list_lookup_imap in Hi.
  apply fmap_Some in Hi as (c & Hc & ->). rewrite Forall_forall in Hall. apply list_elem_of_lookup_2 in Hc. exact (Hall c Hc).
Qed.
End ReadyPlan.

(** The dependencies of the actions before they are numbered. *)
Lemma dependencies_planned `{Crypto} records acts bytes a dep :
  closed records →
  (∀ k r, k ∈ archiveRecordKinds → r ∈ records k → ∃ a, a ∈ acts ∧ action_for k r a) →
  (∀ a, a ∈ acts → ∃ k r, k ∈ archiveRecordKinds ∧ r ∈ records k ∧ action_for k r a) →
  (∀ a, a ∈ bytes → action_kind a = BlobBytes ∧ action_phase a = phases BlobBytes ∧
    ∃ r, r ∈ records blobs ∧ mget r "sha256" = Some (JString (action_sourceId a)) ∧
      ∃ id, recordId r blobs = Ok id ∧ action_dependsOn a = ["blobs:" +:+ id]) →
  a ∈ acts ++ bytes → dep ∈ action_dependsOn a →
  (∃ b, b ∈ acts ++ bytes ∧ dep = action_kind_name (action_kind b) +:+ ":" +:+ action_targetId b ∧
     ((action_phase b < action_phase a)%Z ∨ (action_kind a = RecordKind revisions ∧ action_kind b = RecordKind revisions))) ∨
  (∃ x, dep = "schema-packages:" +:+ x ∧ ∀ b, b ∈ acts ++ bytes → action_kind b ≠ RecordKind schema_packages) ∨
  (action_kind a = RecordKind relations ∧ ∃ r, action_record a = Some r ∧ external_end r).
Proof.
  intros Hc Hfrom Hto Hbytes [Ha|Ha]%elem_of_app Hdep.
  - destruct (Hto a Ha) as (k & r & Hk & Hr & Hkind & Hphase & Hrec & Hid & Hdeps). rewrite Hdeps in Hdep.
    destruct (closed_dependencies records k r dep Hc Hr Hdep)
      as [(k' & x & -> & Hx & Hret & Hord)|[(x & -> & Hnil)|[-> Hext]]].
    + left. apply list_elem_of_omap in Hx as (r' & Hr' & Hx).
      destruct (Hfrom k' r') as (b & Hb & Hkb & Hpb & _ & Hidb & _); [by destruct k'; repeat constructor|done|].
      apply recordId_string in Hidb; [|done]. assert (action_targetId b = x) as <- by congruence.
      exists b. rewrite Hkb, Hpb, Hphase, Hkind. split_and!; [apply elem_of_app; by left|done|].
      destruct Hord as [?|[-> ->]]; [by left|by right].
    + right. left. exists x. split; [done|]. intros b [Hb|Hb]%elem_of_app Hkb; [|by destruct (Hbytes b Hb); congruence].
      destruct (Hto b Hb) as (k' & r' & _ & Hr' & Hkb' & _ & _ & Hidb & _). assert (k' = schema_packages) as -> by congruence.
      apply recordId_string in Hidb; [|done].
      assert (action_targetId b ∈ string_ids (records schema_packages)) as Hin by (apply list_elem_of_omap; eauto).
      rewrite Hnil in Hin. by apply elem_of_nil in Hin.
    + right. right. eauto.
  - destruct (Hbytes a Ha) as (Hkind & Hphase & r & Hr & _ & id & Hid & Hdeps). rewrite Hdeps in Hdep.
    apply list_elem_of_singleton in Hdep as ->. left.
    destruct (Hfrom blobs r) as (b & Hb & Hkb & Hpb & _ & Hidb & _); [by repeat constructor|done|].
    assert (action_targetId b = id) as <- by congruence.
    exists b. rewrite Hkb, Hpb, Hphase. split_and!; [apply elem_of_app; by left|done|by left].
Qed.

(** A ready plan can be executed in order: the archive verified, nothing is
    blocked, actions are numbered and sorted by phase, and every dependency an
    action names is another action of the plan in an earlier phase (a revision's
    parent, which is in the same phase, aside), except for the schema packages
    of an archive that carries none and for a relation that has an external
    end. *)
Theorem ready_plan_ordered `{Crypto} localeLe request plan :
  planArchiveImport localeLe request = Ok plan → plan_status plan = Ready →
  report_valid (request_verification request) = true ∧ plan_issues plan = [] ∧
  StronglySorted phase_le (plan_actions plan) ∧
  (∀ i a, plan_actions plan !! i = Some a → action_index a = Z.of_nat i ∧ action_disposition a ≠ Blocked) ∧
  ∀ a dep, a ∈ plan_actions plan → dep ∈ action_dependsOn a →
    (∃ b, b ∈ plan_actions plan ∧ dep = action_kind_name (action_kind b) +:+ ":" +:+ action_targetId b ∧
       ((action_phase b < action_phase a)%Z ∨
        (action_kind a = RecordKind revisions ∧ action_kind b = RecordKind revisions))) ∨
    (∃ x, dep = "schema-packages:" +:+ x ∧ ∀ b, b ∈ plan_actions plan → action_kind b ≠ RecordKind schema_packages) ∨
    (action_kind a = RecordKind relations ∧ ∃ r, action_record a = Some r ∧ external_end r).
Proof.
  intros Hp Hst. destruct (ready_plan_runs localeLe request plan Hp Hst) as (Hv & Hi & Hc & acts & bytes & Hk & Hb & Ha).
  set (records := plan_records request plan) in *.
  assert (∀ k, length (records k) = length (records_of (report_records (request_verification request)) k)) as Hlen.
  { intros k. unfold records, plan_records, transformRecords. by rewrite length_map. }
  destruct (kind_actions_spec _ _ _ _ _ _ _ Hlen Hk) as [Hfrom Hto].
  pose proof (blob_byte_actions_spec _ _ _ _ _ Hb) as Hbytes.
  split_and!; [done|done|rewrite Ha; apply finished_sorted, sort_actions_sorted| |].
  - intros i a Hai. rewrite Ha, list_lookup_imap in Hai. apply fmap_Some in Hai as (b & Hbi & ->). split; [done|].
    apply list_elem_of_lookup_2 in Hbi. rewrite sort_actions_perm in Hbi.
    assert (Forall (λ a, action_disposition a ≠ Blocked) (acts ++ bytes)) as HF.
    { apply Forall_app. split; [by eapply kind_actions_unblocked|by eapply blob_byte_actions_unblocked]. }
    rewrite Forall_forall in HF. exact (HF b Hbi).
  - intros a dep Hin Hdep. rewrite Ha in Hin. apply elem_of_finished in Hin as (i & a0 & Hi0 & ->).
    apply list_elem_of_lookup_2 in Hi0. rewrite sort_actions_perm in Hi0.
    destruct (dependencies_planned records acts bytes a0 dep Hc Hfrom Hto Hbytes Hi0 Hdep)
      as [(b & Hb' & -> & Hord)|[(x & -> & Hno)|Hext]].
    + left. rewrite <- (sort_actions_perm localeLe) in Hb'. apply finished_elem in Hb' as [j Hj].
      exists (finish_action false j b). rewrite Ha. by split_and!.
    + right. left. exists x. split; [done|]. rewrite Ha. intros b (j & b0 & Hj & ->)%elem_of_finished.
      apply list_elem_of_lookup_2 in Hj. rewrite sort_actions_perm in Hj. exact (Hno b0 Hj).
    + by right; right.
Qed.

(** ** A plan's identity *)

Section Identity.
Context `{Crypto}.

(** The texts a plan's identity is computed from. *)
Definition record_texts (actions : list ArchiveImportAction) : list string :=
  omap (λ a, match canonical_mapped <$> action_record a with Some (Ok text) => Some text | _ => None end) actions.
Definition plan_texts (manifest : json) (sw tw : string) (mode : ArchiveImportMode) (cm : ArchiveConflictMode)
    (actions : list ArchiveImportAction) : list string :=
  match action_jsons actions with
  | Ok js => [canonicalJson (plan_document manifest sw tw mode cm js)]
  | Err _ => []
  end ++ canonicalJson manifest :: record_texts actions.

(** Actions that do the same: numbering and disposition aside. *)
Definition same_action (a b : ArchiveImportAction) : Prop :=
  action_phase a = action_phase b ∧ action_kind a = action_kind b ∧ action_sourceId a = action_sourceId b ∧
  action_targetId a = action_targetId b ∧ action_dependsOn a = action_dependsOn b ∧
  (canonical_mapped <$> action_record a) = (canonical_mapped <$> action_record b).

Lemma action_kind_name_inj k k' : action_kind_name k = action_kind_name k' → k = k'.
Proof. destruct k as [[]|], k' as [[]|]; done. Qed.

(** Equal canonical texts of two objects: equal properties up to key order. *)
Lemma canonical_props l1 l2 name :
  NoDup (map fst l1) → NoDup (map fst l2) →
  normalise String.leb (JObject l1) = normalise String.leb (JObject l2) →
  normalise String.leb <$> obj_get l1 name = normalise String.leb <$> obj_get l2 name.
Proof. intros H1 H2 E. rewrite <- !js_prop_normalise by done. by rewrite E. Qed.

Lemma record_hash_cases a h :
  record_hash a = Ok h →
  (action_record a = None ∧ h = []) ∨
  ∃ t, canonical_mapped <$> action_record a = Some (Ok t) ∧ h = [("recordHash", JString (sha256 t))].
Proof.
  unfold record_hash. destruct (action_record a) as [r|]; [|intros [= <-]; by left]. cbn.
  destruct (canonical_mapped r) as [t|]; [|done]. intros [= <-]. right. by exists t.
Qed.

Lemma action_fields_nodup a h : record_hash a = Ok h → NoDup (map fst (action_fields a h)).
Proof. intros [[_ ->]|(t & _ & ->)]%record_hash_cases; by apply (bool_decide_unpack _). Qed.

Lemma map_JString_inj l1 l2 : map (normalise String.leb) (map JString l1) = map (normalise String.leb) (map JString l2) → l1 = l2.
Proof. revert l2. induction l1 as [|x l1 IH]; intros [|y l2]; cbn; try done. intros [= -> E]. by rewrite (IH l2 E). Qed.

Lemma action_json_inj a b ja jb :
  action_json a = Ok ja → action_json b = Ok jb → normalise String.leb ja = normalise String.leb jb →
  same_action a b ∨ ∃ x y, sha256_collision x y ∧ x ∈ record_texts [a] ∧ y ∈ record_texts [b].
Proof.
  unfold action_json. intros Ha Hb E. apply result_bind_Ok in Ha as (ha & Hra & [= <-]). apply result_bind_Ok in Hb as (hb & Hrb & [= <-]).
  pose proof (λ n, canonical_props _ _ n (action_fields_nodup a ha Hra) (action_fields_nodup b hb Hrb) E) as Hp. clear E.
  pose proof (Hp "phase") as [= H1]. pose proof (Hp "kind") as [= H2]. pose proof (Hp "sourceId") as [= H3].
  pose proof (Hp "targetId") as [= H4]. pose proof (Hp "dependsOn") as [= H5]. pose proof (Hp "recordHash") as H6. clear Hp.
  apply action_kind_name_inj in H2. apply map_JString_inj in H5.
  apply record_hash_cases in Hra as [[Ea ->]|(ta & Ea & ->)]; apply record_hash_cases in Hrb as [[Eb ->]|(tb & Eb & ->)]; cbn in H6; try done.
  - left. unfold same_action. by rewrite Ea, Eb.
  - injection H6 as H6. apply sha256_eq_or_collision in H6 as [->|Hcol].
    + left. unfold same_action. by rewrite Ea, Eb.
    + right. exists ta, tb. split; [done|]. unfold record_texts. cbn. rewrite Ea, Eb. split; apply list_elem_of_singleton; done.
Qed.

Lemma record_texts_cons c l x : x ∈ record_texts (c :: l) ↔ x ∈ record_texts [c] ∨ x ∈ record_texts l.
Proof. change (c :: l) with ([c] ++ l)%list. unfold record_texts. by rewrite omap_app, elem_of_app. Qed.

Lemma action_jsons_inj l1 l2 j1 j2 :
  action_jsons l1 = Ok j1 → action_jsons l2 = Ok j2 → map (normalise String.leb) j1 = map (normalise String.leb) j2 →
  Forall2 same_action l1 l2 ∨ ∃ x y, sha256_collision x y ∧ x ∈ record_texts l1 ∧ y ∈ record_texts l2.
Proof.
  revert l2 j1 j2. induction l1 as [|a l1 IH]; intros [|b l2] j1 j2 H1 H2 E.
  - left. constructor.
  - injection H1 as <-. destruct j2; [|done]. apply result_bind_Ok in H2 as (jb & _ & H2). by apply result_bind_Ok in H2 as (js & _ & H2).
  - injection H2 as <-. destruct j1; [|done]. apply result_bind_Ok in H1 as (ja & _ & H1). by apply result_bind_Ok in H1 as (js & _ & H1).
  - apply result_bind_Ok in H1 as (ja & Ha & H1). apply result_bind_Ok in H1 as (js1 & Hl1 & [= <-]).
    apply result_bind_Ok in H2 as (jb & Hb & H2). apply result_bind_Ok in H2 as (js2 & Hl2 & [= <-]).
    cbn [map] in E. injection E as Ea El.
    destruct (action_json_inj a b ja jb Ha Hb Ea) as [Hs|(t1 & t2 & Hc & Hx & Hy)];
      [|right; exists t1, t2; rewrite (record_texts_cons a), (record_texts_cons b); auto].
    destruct (IH l2 js1 js2 Hl1 Hl2 El) as [HF|(t1 & t2 & Hc & Hx & Hy)]; [left; by constructor|].
    right. exists t1, t2. rewrite (record_texts_cons a), (record_texts_cons b); auto.
Qed.
End Identity.

(** A plan's identity names its content: two plans with the same identity
    are about archives with the same export and the same manifest, move the same
    workspace in the same mode, and have the same actions on the same records in
    the same order (numbering and disposition aside), or two of the texts they
    hash are a collision of SHA-256. *)
Theorem plan_identity_binds `{Crypto} m1 m2 sw1 sw2 tw1 tw2 mode1 mode2 cm1 cm2 a1 a2 id :
  calculateArchiveImportPlanId m1 sw1 tw1 mode1 cm1 a1 = Ok id →
  calculateArchiveImportPlanId m2 sw2 tw2 mode2 cm2 a2 = Ok id →
  (manifest_string m1 "exportId" = manifest_string m2 "exportId" ∧ canonicalJson m1 = canonicalJson m2 ∧
   sw1 = sw2 ∧ tw1 = tw2 ∧ mode1 = mode2 ∧ cm1 = cm2 ∧ Forall2 same_action a1 a2) ∨
  ∃ x y, sha256_collision x y ∧ x ∈ plan_texts m1 sw1 tw1 mode1 cm1 a1 ∧ y ∈ plan_texts m2 sw2 tw2 mode2 cm2 a2.
Proof.
  unfold calculateArchiveImportPlanId, plan_texts. intros H1 H2.
  apply result_bind_Ok in H1 as (j1 & E1 & [= H1]). apply result_bind_Ok in H2 as (j2 & E2 & [= H2]). rewrite E1, E2. subst id.
  apply eq_sym, sha256_eq_or_collision in H2 as [Hdoc|Hcol]; [|right; eexists _, _; split; [exact Hcol|]; split; left].
  apply canonical_norm in Hdoc. 
  assert (∀ n, normalise String.leb <$> js_prop (plan_document m1 sw1 tw1 mode1 cm1 j1) n =
    normalise String.leb <$> js_prop (plan_document m2 sw2 tw2 mode2 cm2 j2) n) as Hp.
  { intros n. apply canonical_props; [by apply (bool_decide_unpack _)..|exact Hdoc]. }
  pose proof (Hp "archiveExportId") as [= P1]. pose proof (Hp "archiveManifestHash") as [= P2].
  pose proof (Hp "sourceWorkspaceId") as [= P3]. pose proof (Hp "targetWorkspaceId") as [= P4].
  pose proof (Hp "mode") as [= P5]. pose proof (Hp "conflictMode") as [= P6]. pose proof (Hp "actions") as [= P7].
  apply sha256_eq_or_collision in P2 as [P2|Hcol];
    [|right; eexists _, _; split; [exact Hcol|]; split; apply elem_of_app; right; left].
  destruct (action_jsons_inj a1 a2 j1 j2 E1 E2 P7) as [HF|(x & y & Hc & Hx & Hy)].
  - left. split_and!; try done; [by destruct mode1, mode2|by destruct cm1, cm2].
  - right. exists x, y. split; [done|]. split; apply elem_of_app; right; by right.
Qed.

Module PlanWitness.
Definition dataset : json := JObject [("id", JString "d1"); ("workspaceId", JString "w1");
  ("schemaPackageId", JString "s1"); ("retentionPolicyId", JNull)].
Definition resource : json := JObject [("id", JString "r1"); ("datasetId", JString "d1"); ("currentRevisionId", JNull)].
Definition relation : json := JObject [("id", JString "l1"); ("datasetId", JString "d1"); ("sourceKind", JString "resource");
  ("sourceId", JString "r1"); ("targetKind", JString "external"); ("targetId", JString "urn:x")].
Definition records : list (ArchiveRecordKind * list json) := [(datasets, [dataset]); (resources, [resource])].
Definition manifest : json := JObject [("exportId", JString "x1"); ("workspaceId", JString "w1")].
Definition request (rs : list (ArchiveRecordKind * list json)) (mode : ArchiveImportMode)
    (present : list (ArchiveRecordKind * list (string * ArchiveRecord))) : ArchiveImportRequest :=
  mkImportRequest manifest (mkReport true 0 [] (Some manifest) rs) mode reject_on_error
    (mkInventory (match mode with mapped_workspace => Some "w2" | preserve_ids => None end) present []).
Definition no_plan : ArchiveImportPlan := mkPlan "" "" "" "" preserve_ids reject_on_error Rejected [] [] 0 0 0.
Definition plan_of (r : ArchiveImportRequest) : ArchiveImportPlan :=
  match planArchiveImport String.leb r with Ok p => p | Err _ => no_plan end.
Definition mapped : ArchiveImportRequest := request records mapped_workspace [].
Definition fresh : ArchiveImportRequest := request records preserve_ids [].
Definition dataset_present : list (ArchiveRecordKind * list (string * ArchiveRecord)) :=
  [(datasets, [("d1", [("retentionPolicyId", JNull); ("schemaPackageId", JString "s1"); ("id", JString "d1");
    ("workspaceId", JString "w1")])])].
Definition resumed : ArchiveImportRequest := request records preserve_ids dataset_present.

Lemma ready_plan_ordered_witness :
  report_valid (request_verification mapped) = true ∧ plan_issues (plan_of mapped) = [] ∧
  StronglySorted phase_le (plan_actions (plan_of mapped)).
Proof.
  destruct (ready_plan_ordered String.leb mapped (plan_of mapped)) as (Hv & Hi & Hs & _);
    [vm_compute; reflexivity|vm_compute; reflexivity|]. by split_and!.
Defined.

(** Planned again when a dataset is already there, the plan keeps its identity. *)
Lemma plan_identity_binds_witness :
  plan_planId (plan_of fresh) = plan_planId (plan_of resumed) ∧
  plan_alreadyPresent (plan_of resumed) = 1%Z ∧
  (Forall2 same_action (plan_actions (plan_of fresh)) (plan_actions (plan_of resumed)) ∨
   ∃ x y, sha256_collision x y).
Proof.
  split; [vm_compute; reflexivity|]. split; [vm_compute; reflexivity|].
  destruct (plan_identity_binds manifest manifest "w1" "w1" "w1" "w1" preserve_ids preserve_ids reject_on_error reject_on_error
    (plan_actions (plan_of fresh)) (plan_actions (plan_of resumed)) (plan_planId (plan_of fresh)))
    as [(_ & _ & _ & _ & _ & _ & HF)|(x & y & Hc & _)]; [vm_compute; reflexivity|vm_compute; reflexivity|by left|].
  right. by exists x, y.
Defined.

(** A dataset record without a [retentionPolicyId] property makes planning
    throw: the property is assigned [undefined], which cannot be hashed. *)
Example absent_reference_throws :
  planArchiveImport String.leb (request [(datasets, [JObject [("id", JString "d1"); ("schemaPackageId", JString "s1")]])]
    preserve_ids []) = Err Thrown.
Proof. vm_compute. reflexivity. Qed.

(** A retention record without an identifier makes planning throw, although
    [recordId] means to name it by its digest. *)
Example unnamed_retention_throws :
  planArchiveImport String.leb (request [(retention, [JObject [("name", JString "keep")]])] preserve_ids []) = Err Thrown.
Proof. vm_compute. reflexivity. Qed.

(** The external end of a relation is listed as a dependency on a resource no
    action of the ready plan provides. *)
Example external_dependency_dangles :
  let linked := request (records ++ [(relations, [relation])]) preserve_ids [] in
  plan_status (plan_of linked) = Ready ∧
  existsb (λ a, array_includes (action_dependsOn a) "resources:urn:x") (plan_actions (plan_of linked)) = true ∧
  existsb (λ a, action_targetId a === "urn:x") (plan_actions (plan_of linked)) = false.
Proof. vm_compute. done. Qed.
End PlanWitness.
