(* ===== verification/ImportExecutor.v ===== *)
(** * Executing an archive import

    [packages/archive/src/import-executor.ts].  The executor drives an operation
    through its checkpoints: revalidate the target, stage the blobs, verify
    them, commit them, write the metadata, append the audit event.  After every
    effect the checkpoint is advanced in the operation store, so that an
    interrupted execution resumes at the last checkpoint.

    The store and the target are the classes [ArchiveImportOperationStore] and
    [ArchiveImportExecutionTarget]; any of their calls may throw, and between
    two calls another execution of the same operation may have moved the
    checkpoint.  [ImportLaws] says what is relied on: checkpoints and effects
    only grow, a call that returns has done its effect, [advance] moves forward.

    The theorems: a checkpoint is never reached before the effects it stands
    for, whatever call fails; when [execute] returns, every effect is done; and
    it does return or throw, the loop passing at most seven times. *)
From S2P Require Import Prelude Js Concrete Json StorageKeys Archive ArchiveVerify ImportPlan.

(** ** Checkpoints and operations *)

(** Source: packages/archive/src/types.ts:190-190 ArchiveImportCheckpoint *)
Inductive ArchiveImportCheckpoint : Type :=
  | authorised | target_revalidated | temporary_blobs_staged | staged_blobs_verified
  | immutable_blobs_committed | metadata_committed | audit_committed | completed.
#[global] Instance ArchiveImportCheckpoint_eq_dec : EqDecision ArchiveImportCheckpoint.
Proof. solve_decision. Defined.

(** Source: packages/archive/src/types.ts:179-188 archiveImportCheckpoints *)
Definition archiveImportCheckpoints : list ArchiveImportCheckpoint :=
  [authorised; target_revalidated; temporary_blobs_staged; staged_blobs_verified;
   immutable_blobs_committed; metadata_committed; audit_committed; completed].

(** [archiveImportCheckpoints.indexOf(c)] *)
Definition cp_index (c : ArchiveImportCheckpoint) : nat :=
  match c with
  | authorised => 0 | target_revalidated => 1 | temporary_blobs_staged => 2 | staged_blobs_verified => 3
  | immutable_blobs_committed => 4 | metadata_committed => 5 | audit_committed => 6 | completed => 7
  end.

(** Source: packages/archive/src/import-executor.ts:244-249 nextImportCheckpoint *)
Definition nextImportCheckpoint (c : ArchiveImportCheckpoint) : option ArchiveImportCheckpoint :=
  archiveImportCheckpoints !! S (cp_index c).

(** Source: packages/archive/src/types.ts:192-202 ArchiveImportOperation *)
Record ArchiveImportOperation := mkOperation {
  operation_id : string;
  operation_planId : string;
  operation_archiveExportId : string;
  operation_requestedBy : string;
  operation_checkpoint : ArchiveImportCheckpoint;
  operation_resumed : option bool;
  operation_createdAt : string;
  operation_updatedAt : string;
  operation_completedAt : option string;
}.

(** Source: packages/archive/src/types.ts:247-252 ArchiveImportExecutionResult *)
Record ArchiveImportExecutionResult := mkExecution {
  execution_operation : ArchiveImportOperation;
  execution_resumed : bool;
  execution_insertedRecords : Z;
  execution_insertedBlobs : Z;
}.

(** What the executor throws, or what the store and the target throw through
    it: a plain [Error], an [Error] with a [code], an error of the storage. *)
(** Source: packages/archive/src/import-executor.ts:20-28 ArchiveImportExecutionError *)
Inductive import_exn : Type :=
  | ArchiveImportExecutionError (code : string)
  | Failure (message : string)
  | Coded (code : string)
  | Storage (e : storage_exn).
#[global] Instance import_exn_eq_dec : EqDecision import_exn.
Proof. solve_decision. Defined.

(** ** What the executor calls *)

(** Source: packages/archive/src/types.ts:204-218 ArchiveImportOperationStore *)
Class ArchiveImportOperationStore (S : Type) := {
  begin_import (planId archiveExportId requestedBy at_ : string) : M S import_exn ArchiveImportOperation;
  advance_import (operationId planId : string) (expected next : ArchiveImportCheckpoint) (at_ : string) :
    M S import_exn ArchiveImportOperation;
}.

(** Source: packages/archive/src/types.ts:220-245 ArchiveImportExecutionTarget *)
Class ArchiveImportExecutionTarget (S : Type) := {
  revalidate (plan : ArchiveImportPlan) : M S import_exn (list ArchiveIssue);
  stageBlob (operationId sha bytes : string) : M S import_exn unit;
  verifyStagedBlob (operationId sha : string) (byteLength : Z) : M S import_exn bool;
  commitBlob (operationId sha : string) : M S import_exn unit;
  commitMetadata (operationId : string) (plan : ArchiveImportPlan) (actions : list ArchiveImportAction) : M S import_exn unit;
  appendAudit (operationId : string) (plan : ArchiveImportPlan) (requestedBy at_ : string) (lineage : option json) :
    M S import_exn unit;
}.

(** The clock and the hook of the constructor. *)
Class ImportRuntime (S : Type) := {
  import_now : M S import_exn string;
  afterCheckpoint (checkpoint : ArchiveImportCheckpoint) (operation : ArchiveImportOperation) : M S import_exn unit;
}.

(** ** The executor *)

Section Executor.
Context {S : Type} `{Crypto} `{!ArchiveImportOperationStore S} `{!ArchiveImportExecutionTarget S} `{!ImportRuntime S}.

Definition is_insert (a : ArchiveImportAction) : bool := action_disposition a === Insert.
(** Source: packages/archive/src/import-executor.ts:238-242 blobActions *)
Definition blobActions (plan : ArchiveImportPlan) : list ArchiveImportAction :=
  List.filter (λ a, (action_kind a === BlobBytes) && is_insert a) (plan_actions plan).
(** Source: packages/archive/src/import-executor.ts:84-87 execute *)
Definition recordActions (plan : ArchiveImportPlan) : list ArchiveImportAction :=
  List.filter (λ a, (action_kind a !== BlobBytes) && is_insert a) (plan_actions plan).

(** Source: packages/archive/src/import-executor.ts:201-236 validateInput *)
Definition validateInput (archive : ParsedTrustArchive) (plan : ArchiveImportPlan) : result import_exn unit :=
  let manifest := parsed_manifest archive in
  throw_if (negb (report_valid (parsed_verification archive))) (ArchiveImportExecutionError "IMPORT_ARCHIVE_INVALID") ≫= λ _,
  throw_if ((plan_status plan !== Ready) || Z.ltb 0 (plan_blocked plan))
    (ArchiveImportExecutionError "IMPORT_PLAN_NOT_EXECUTABLE") ≫= λ _,
  throw_if ((plan_archiveExportId plan !== manifest_string manifest "exportId") ||
            (plan_sourceWorkspaceId plan !== manifest_string manifest "workspaceId"))
    (ArchiveImportExecutionError "IMPORT_PLAN_ARCHIVE_MISMATCH") ≫= λ _,
  match calculateArchiveImportPlanId manifest (plan_sourceWorkspaceId plan) (plan_targetWorkspaceId plan)
          (plan_mode plan) (plan_conflictMode plan) (plan_actions plan) with
  | Err _ => Err (Failure "Value is not JSON encodable.")
  | Ok expectedPlanId =>
      throw_if (plan_planId plan !== expectedPlanId) (ArchiveImportExecutionError "IMPORT_PLAN_ID_INVALID")
  end.

Definition blob_path (sha : string) : M S import_exn string :=
  lift (match blobArchivePath sha with Ok p => Ok p | Err _ => Err (Failure "Blob SHA-256 is invalid.") end).

(** Source: packages/archive/src/import-executor.ts:125-148 stageBlobs *)
Definition stageBlobs (operationId : string) (archive : ParsedTrustArchive) (plan : ArchiveImportPlan) : M S import_exn unit :=
  for_each (λ action,
    blob_path (action_sourceId action) ≫= λ path,
    match map_get path (parsed_entries archive) with
    | None => throw (ArchiveImportExecutionError "IMPORT_BLOB_MISSING")
    | Some bytes =>
        throw_when (sha256 bytes !== action_sourceId action) (ArchiveImportExecutionError "IMPORT_BLOB_HASH_MISMATCH") ≫= λ _,
        stageBlob operationId (action_sourceId action) bytes
    end) (blobActions plan).

(** Source: packages/archive/src/import-executor.ts:150-172 verifyStaged *)
Definition verifyStaged (operationId : string) (archive : ParsedTrustArchive) (plan : ArchiveImportPlan) : M S import_exn unit :=
  for_each (λ action,
    blob_path (action_sourceId action) ≫= λ path,
    match map_get path (parsed_entries archive) with
    | None => throw (ArchiveImportExecutionError "IMPORT_STAGED_BLOB_INVALID")
    | Some bytes =>
        verifyStagedBlob operationId (action_sourceId action) (Z.of_nat (String.length bytes)) ≫= λ ok,
        throw_when (negb ok) (ArchiveImportExecutionError "IMPORT_STAGED_BLOB_INVALID")
    end) (blobActions plan).

(** Source: packages/archive/src/import-executor.ts:174-183 commitBlobs *)
Definition commitBlobs (operationId : string) (plan : ArchiveImportPlan) : M S import_exn unit :=
  for_each (λ action, commitBlob operationId (action_sourceId action)) (blobActions plan).

(** Source: packages/archive/src/import-executor.ts:185-198 advance *)
Definition advance (operation : ArchiveImportOperation) (next : ArchiveImportCheckpoint) :
    M S import_exn ArchiveImportOperation :=
  import_now ≫= λ at_,
  advance_import (operation_id operation) (operation_planId operation) (operation_checkpoint operation) next at_ ≫= λ advanced,
  afterCheckpoint next advanced ≫= λ _,
  mret advanced.

Section Call.
Context (archive : ParsedTrustArchive) (plan : ArchiveImportPlan) (requestedBy : string).

(** One pass of the loop, from a checkpoint that is not the last. *)
(** Source: packages/archive/src/import-executor.ts:54-109 execute *)
Definition import_step (operation : ArchiveImportOperation) : M S import_exn ArchiveImportOperation :=
  match operation_checkpoint operation with
  | authorised =>
      revalidate plan ≫= λ issues,
      throw_when (negb (bool_decide (issues = []))) (ArchiveImportExecutionError "IMPORT_TARGET_STALE") ≫= λ _,
      advance operation target_revalidated
  | target_revalidated =>
      stageBlobs (operation_id operation) archive plan ≫= λ _, advance operation temporary_blobs_staged
  | temporary_blobs_staged =>
      verifyStaged (operation_id operation) archive plan ≫= λ _, advance operation staged_blobs_verified
  | staged_blobs_verified =>
      commitBlobs (operation_id operation) plan ≫= λ _, advance operation immutable_blobs_committed
  | immutable_blobs_committed =>
      commitMetadata (operation_id operation) plan (recordActions plan) ≫= λ _, advance operation metadata_committed
  | metadata_committed =>
      import_now ≫= λ at_,
      appendAudit (operation_id operation) plan requestedBy at_ (js_prop (parsed_manifest archive) "auditLineage") ≫= λ _,
      advance operation audit_committed
  | audit_committed => advance operation completed
  | completed => mret operation
  end.

(** [while (operation.checkpoint !== "completed")]; [None] when the fuel runs out. *)
Fixpoint import_loop (fuel : nat) (operation : ArchiveImportOperation) : M S import_exn (option ArchiveImportOperation) :=
  if operation_checkpoint operation === completed then mret (Some operation)
  else match fuel with
       | O => mret None
       | Datatypes.S fuel => import_step operation ≫= import_loop fuel
       end.

(** Source: packages/archive/src/import-executor.ts:38-123 execute *)
Definition execute (fuel : nat) : M S import_exn (option ArchiveImportExecutionResult) :=
  lift (validateInput archive plan) ≫= λ _,
  import_now ≫= λ at_,
  begin_import (plan_planId plan) (manifest_string (parsed_manifest archive) "exportId") requestedBy at_ ≫= λ operation,
  let resumed := default (operation_checkpoint operation !== authorised) (operation_resumed operation) in
  (if operation_checkpoint operation === authorised then afterCheckpoint authorised operation else mret tt) ≫= λ _,
  import_loop fuel operation ≫= λ final,
  mret ((λ operation, mkExecution operation resumed (Z.of_nat (length (recordActions plan)))
                        (Z.of_nat (length (blobActions plan)))) <$> final).
End Call.
End Executor.

(** ** What the executor relies on *)

(** What can be observed of the store and the target: an operation's plan and
    checkpoint, the blobs committed, the records written and the audit event
    appended for an operation, and an invariant of their own. *)
Record ImportGhost (S : Type) := mkGhost {
  checkpoint_of : S → string → option (string * ArchiveImportCheckpoint);
  blob_committed : S → string → Prop;
  recorded : S → string → ArchiveImportAction → Prop;
  audited : S → string → Prop;
  world_inv : S → Prop;
}.
Arguments checkpoint_of {S} _ _ _.
Arguments blob_committed {S} _ _ _.
Arguments recorded {S} _ _ _ _.
Arguments audited {S} _ _ _.
Arguments world_inv {S} _ _.

Section Laws.
Context {S : Type} (g : ImportGhost S) (plan : ArchiveImportPlan).

(** Checkpoints move forward and effects stay. *)
Record later (s s' : S) : Prop := mkLater {
  later_checkpoint op p c : checkpoint_of g s op = Some (p, c) →
    ∃ c', checkpoint_of g s' op = Some (p, c') ∧ cp_index c ≤ cp_index c';
  later_blob sha : blob_committed g s sha → blob_committed g s' sha;
  later_recorded op a : recorded g s op a → recorded g s' op a;
  later_audited op : audited g s op → audited g s' op;
}.

Definition blobs_done (s : S) : Prop := ∀ a, a ∈ blobActions plan → blob_committed g s (action_sourceId a).
Definition records_done (op : string) (s : S) : Prop := ∀ a, a ∈ recordActions plan → recorded g s op a.

(** The effects a checkpoint of the plan stands for. *)
Definition earned (op : string) (c : ArchiveImportCheckpoint) (s : S) : Prop :=
  (4 ≤ cp_index c → blobs_done s) ∧ (5 ≤ cp_index c → records_done op s) ∧ (6 ≤ cp_index c → audited g s op).
Definition justified (s : S) : Prop := ∀ op c, checkpoint_of g s op = Some (plan_planId plan, c) → earned op c s.
Definition good (s : S) : Prop := world_inv g s ∧ justified s.

(** The operation has reached a checkpoint. *)
Definition reached (op : string) (c : ArchiveImportCheckpoint) (s : S) : Prop :=
  ∃ c', checkpoint_of g s op = Some (plan_planId plan, c') ∧ cp_index c ≤ cp_index c'.

(** A call from a good state ends in a good state, later; a return satisfies [Q]. *)
Definition hoare {A} (P : S → Prop) (m : M S import_exn A) (Q : A → S → Prop) : Prop :=
  ∀ s r s', good s → P s → m s = (r, s') → good s' ∧ later s s' ∧ ∀ a, r = Ok a → Q a s'.

Class ImportLaws `{!ArchiveImportOperationStore S} `{!ArchiveImportExecutionTarget S} `{!ImportRuntime S} : Prop := {
  now_law : hoare (λ _, True) import_now (λ _ _, True);
  hook_law c o : hoare (λ _, True) (afterCheckpoint c o) (λ _ _, True);
  begin_law exportId requestedBy at_ :
    hoare (λ _, True) (begin_import (plan_planId plan) exportId requestedBy at_)
      (λ o s, operation_planId o = plan_planId plan ∧ reached (operation_id o) (operation_checkpoint o) s);
  advance_law op expected next at_ : nextImportCheckpoint expected = Some next →
    hoare (λ s, reached op expected s ∧ earned op next s) (advance_import op (plan_planId plan) expected next at_)
      (λ o s, operation_id o = op ∧ operation_planId o = plan_planId plan ∧
              cp_index expected < cp_index (operation_checkpoint o) ∧ reached op (operation_checkpoint o) s);
  revalidate_law : hoare (λ _, True) (revalidate plan) (λ _ _, True);
  stageBlob_law op sha bytes : hoare (λ _, True) (stageBlob op sha bytes) (λ _ _, True);
  verifyStagedBlob_law op sha n : hoare (λ _, True) (verifyStagedBlob op sha n) (λ _ _, True);
  commitBlob_law op sha : hoare (λ _, True) (commitBlob op sha) (λ _ s, blob_committed g s sha);
  commitMetadata_law op : hoare (reached op immutable_blobs_committed) (commitMetadata op plan (recordActions plan))
    (λ _ s, records_done op s);
  appendAudit_law op requestedBy at_ lineage :
    hoare (reached op metadata_committed) (appendAudit op plan requestedBy at_ lineage) (λ _ s, audited g s op);
}.

#[global] Instance later_preorder : PreOrder later.
Proof.
  split.
  - intros s. split; eauto.
  - intros s1 s2 s3 [c1 b1 r1 a1] [c2 b2 r2 a2]. split; eauto.
    intros op p c (c' & Hc' & Hle)%c1. apply c2 in Hc' as (c'' & Hc'' & Hle'). exists c''. split; [done|lia].
Qed.

Definition stable (F : S → Prop) : Prop := ∀ s s', later s s' → F s → F s'.

Lemma reached_stable op c : stable (reached op c).
Proof. intros s s' Hl (c' & Hc & Hle). apply (later_checkpoint _ _ Hl) in Hc as (c'' & Hc'' & Hle'). exists c''. split; [done|lia]. Qed.
Lemma blobs_stable : stable blobs_done.
Proof. intros s s' Hl Hb a Ha. by apply (later_blob _ _ Hl), Hb. Qed.
Lemma true_stable : stable (λ _, True).
Proof. done. Qed.

Lemma hoare_ret {A} (P : S → Prop) (a : A) : hoare P (mret a) (λ b s, b = a ∧ P s).
Proof. intros s r s' Hg HP [= <- <-]. split_and!; [done|reflexivity|]. by intros b [= <-]. Qed.
Lemma hoare_return {A} (P : S → Prop) (a : A) Q : (∀ s, good s → P s → Q a s) → hoare P (mret a) Q.
Proof. intros HQ s r s' Hg HP [= <- <-]. split_and!; [done|reflexivity|]. intros b [= <-]. auto. Qed.
Lemma hoare_throw {A} P e (Q : A → S → Prop) : hoare P (throw e) Q.
Proof. intros s r s' Hg HP [= <- <-]. split_and!; [done|reflexivity|done]. Qed.
Lemma hoare_lift {A} P (x : result import_exn A) : hoare P (lift x) (λ _, P).
Proof. intros s r s' Hg HP [= <- <-]. split_and!; [done|reflexivity|done]. Qed.
Lemma hoare_lift_Ok {A} (P : S → Prop) (x : result import_exn A) (Q : A → S → Prop) :
  (∀ a, x = Ok a → ∀ s, good s → P s → Q a s) → hoare P (lift x) Q.
Proof. intros HQ s r s' Hg HP [= <- <-]. split_and!; [done|reflexivity|eauto]. Qed.
Lemma hoare_gets {A} P (f : S → A) : hoare P (gets f) (λ a s, a = f s ∧ P s).
Proof. intros s r s' Hg HP [= <- <-]. split_and!; [done|reflexivity|]. by intros b [= <-]. Qed.
Lemma hoare_throw_when P b e : hoare P (throw_when b e) (λ _, P).
Proof. apply hoare_lift. Qed.
Lemma hoare_bind {A B} P (m : M S import_exn A) R (f : A → M S import_exn B) Q :
  hoare P m R → (∀ a, hoare (R a) (f a) Q) → hoare P (m ≫= f) Q.
Proof.
  intros Hm Hf s r s' Hg HP E. unfold mbind, M_bind in E. destruct (m s) as [[a|e] s1] eqn:Em.
  - destruct (Hm _ _ _ Hg HP Em) as (Hg1 & Hl1 & HR). destruct (Hf a _ _ _ Hg1 (HR a eq_refl) E) as (Hg2 & Hl2 & HQ).
    split_and!; [done|by etrans|done].
  - injection E as <- <-. destruct (Hm _ _ _ Hg HP Em) as (Hg1 & Hl1 & _). split_and!; [done|done|done].
Qed.
Lemma hoare_conseq {A} (P P' : S → Prop) (m : M S import_exn A) (Q Q' : A → S → Prop) :
  hoare P' m Q' → (∀ s, good s → P s → P' s) → (∀ a s, good s → Q' a s → Q a s) → hoare P m Q.
Proof. intros Hm HP HQ s r s' Hg Hp E. destruct (Hm _ _ _ Hg (HP s Hg Hp) E) as (? & ? & ?). split_and!; auto. Qed.
Lemma hoare_frame {A} F P (m : M S import_exn A) Q :
  stable F → hoare P m Q → hoare (λ s, F s ∧ P s) m (λ a s, F s ∧ Q a s).
Proof. intros HF Hm s r s' Hg [Hf Hp] E. destruct (Hm _ _ _ Hg Hp E) as (? & Hl & ?). split_and!; eauto. Qed.
Lemma hoare_transaction {A} P (m : M S import_exn A) Q : hoare P m Q → hoare P (transaction m) Q.
Proof.
  intros Hm s r s' Hg Hp E. unfold transaction in E. destruct (m s) as [[a|e] s1] eqn:Em.
  - injection E as <- <-. by apply (Hm s _ _ Hg Hp).
  - injection E as <- <-. split_and!; [done|reflexivity|done].
Qed.
(** A fact about the arguments that the precondition carries. *)
Lemma hoare_pure {A} (φ : Prop) (P : S → Prop) (m : M S import_exn A) Q :
  (∀ s, P s → φ) → (φ → hoare P m Q) → hoare P m Q.
Proof. intros Hφ Hm s r s' Hg Hp. exact (Hm (Hφ s Hp) s r s' Hg Hp). Qed.
(** Keep a fact that lasts over a call that needs nothing. *)
Lemma hoare_keep {A} F (m : M S import_exn A) Q :
  stable F → hoare (λ _, True) m Q → hoare F m (λ a s, F s ∧ Q a s).
Proof. intros HF Hm s r s' Hg Hf E. destruct (Hm _ _ _ Hg I E) as (? & ? & ?). split_and!; eauto. Qed.
Lemma hoare_for_each {A} F (f : A → M S import_exn unit) (Q : A → S → Prop) xs :
  stable F → (∀ x, stable (Q x)) → (∀ x, hoare F (f x) (λ _, Q x)) →
  hoare F (for_each f xs) (λ _ s, F s ∧ ∀ x, x ∈ xs → Q x s).
Proof.
  intros HF HQ Hf. induction xs as [|x xs IH]; cbn [for_each].
  - eapply hoare_conseq; [apply (hoare_ret F)|done|]. intros a s _ [_ Hs]. split; [done|]. by intros ? ?%elem_of_nil.
  - eapply hoare_bind with (R := λ _ s, Q x s ∧ F s).
    + intros s r s' Hg Hp E. destruct (Hf x _ _ _ Hg Hp E) as (? & ? & ?). split_and!; eauto.
    + intros _. eapply hoare_conseq; [by apply (hoare_frame (Q x)), IH|auto|].
      intros a s _ (Hx & Hs & Hxs). split; [done|]. intros y [->|Hy]%elem_of_cons; auto.
Qed.
End Laws.

Section Safety.
Context {S : Type} `{Crypto} `{!ArchiveImportOperationStore S} `{!ArchiveImportExecutionTarget S} `{!ImportRuntime S}.
Context (g : ImportGhost S) (plan : ArchiveImportPlan) `{!ImportLaws g plan}.
Context (archive : ParsedTrustArchive) (requestedBy : string).

(** What an operation of the plan carries from one call to the next. *)
Definition running (o : ArchiveImportOperation) (s : S) : Prop :=
  operation_planId o = plan_planId plan ∧ reached g plan (operation_id o) (operation_checkpoint o) s.

Lemma running_stable o : stable g (running o).
Proof. intros s s' Hl [Hp Hr]. split; [done|]. by eapply reached_stable. Qed.

(** Run a call that needs nothing, keeping what lasts. *)
Lemma hoare_then {A B} F (m : M S import_exn A) R (f : A → M S import_exn B) Q :
  stable g F → hoare g plan (λ _, True) m R → (∀ a, hoare g plan (λ s, F s ∧ R a s) (f a) Q) → hoare g plan F (m ≫= f) Q.
Proof. intros HF Hm Hf. eapply hoare_bind; [by apply hoare_keep|done]. Qed.

Lemma earned_stable op c : stable g (earned g plan op c).
Proof.
  intros s s' Hl (Hb & Hr & Ha). split_and!; intros Hc.
  - by eapply blobs_stable, Hb.
  - intros a Hin. by apply (later_recorded _ _ _ Hl), Hr.
  - by apply (later_audited _ _ _ Hl), Ha.
Qed.
Lemma and_stable (F G : S → Prop) : stable g F → stable g G → stable g (λ s, F s ∧ G s).
Proof. intros HF HG s s' Hl [Hf Hg]. split; eauto. Qed.

Lemma advance_hoare o next :
  nextImportCheckpoint (operation_checkpoint o) = Some next →
  hoare g plan (λ s, running o s ∧ earned g plan (operation_id o) next s) (advance o next)
    (λ o' s, running o' s ∧ cp_index (operation_checkpoint o) < cp_index (operation_checkpoint o')).
Proof.
  intros Hn. unfold advance. apply (hoare_pure g plan (operation_planId o = plan_planId plan)).
  { by intros s [[Hp _] _]. }
  intros Hp. rewrite Hp.
  eapply hoare_conseq with (P' := λ s, reached g plan (operation_id o) (operation_checkpoint o) s ∧ earned g plan (operation_id o) next s);
    [|by intros s _ [[_ ?] ?]|intros a s _ HQ; exact HQ].
  eapply hoare_then; [apply and_stable; [apply reached_stable|apply earned_stable]|apply (now_law g plan)|intros at_].
  eapply hoare_bind.
  - eapply hoare_conseq; [apply (advance_law g plan (operation_id o) _ next at_ Hn)|naive_solver|intros a s _ HQ; exact HQ].
  - intros o'. eapply hoare_bind with (R := λ _ s, running o' s ∧ cp_index (operation_checkpoint o) < cp_index (operation_checkpoint o')).
    + eapply hoare_conseq; [apply (hoare_keep g plan (λ s, running o' s ∧ cp_index (operation_checkpoint o) < cp_index (operation_checkpoint o')) _ (λ _ _, True))
        | |intros a s _ [HQ _]; exact HQ].
      * apply and_stable; [apply running_stable|by intros s s' _].
      * apply (hook_law g plan).
      * intros s _ (Hid & Hpl & Hlt & Hre). unfold running. by rewrite Hid.
    + intros _. apply hoare_return. done.
Qed.
(** In a good state a checkpoint that is reached is earned. *)
Lemma reached_earned op c s : good g plan s → reached g plan op c s → earned g plan op c s.
Proof.
  intros [_ Hj] (c' & Hc & Hle). destruct (Hj _ _ Hc) as (Hb & Hr & Ha).
  split_and!; intros Hi; [apply Hb|apply Hr|apply Ha]; lia.
Qed.

(** An effect that earns the next checkpoint, and the move to it. *)
Lemma effect_then_advance {A} o next (m : M S import_exn A) (R : A → S → Prop) :
  nextImportCheckpoint (operation_checkpoint o) = Some next →
  hoare g plan (running o) m R →
  (∀ a s, good g plan s → running o s → R a s → earned g plan (operation_id o) next s) →
  hoare g plan (running o) (m ≫= λ _, advance o next)
    (λ o' s, running o' s ∧ cp_index (operation_checkpoint o) < cp_index (operation_checkpoint o')).
Proof.
  intros Hn Hm He. eapply hoare_bind with (R := λ a s, running o s ∧ R a s).
  - intros s r s' Hg Hp E. destruct (Hm _ _ _ Hg Hp E) as (? & Hl & ?). split_and!; eauto using running_stable.
    intros a Ha. split; [by eapply running_stable|auto].
  - intros a. eapply hoare_conseq; [by apply advance_hoare| |intros ? s _ HQ; exact HQ].
    intros s Hg [Hr HR]. eauto.
Qed.

Lemma running_true {A} o (m : M S import_exn A) Q : hoare g plan (λ _, True) m Q → hoare g plan (running o) m Q.
Proof. intros Hm. by eapply hoare_conseq; [exact Hm|..]. Qed.

Lemma stageBlobs_hoare op : hoare g plan (λ _, True) (stageBlobs op archive plan) (λ _ _, True).
Proof.
  eapply hoare_conseq; [apply (hoare_for_each g plan (λ _, True) _ (λ _ _, True)); [done|done|]|done|done].
  intros a. eapply hoare_bind; [apply hoare_lift|intros path]. destruct (map_get _ _); [|apply hoare_throw].
  eapply hoare_bind; [apply hoare_throw_when|intros u]. apply (stageBlob_law g plan).
Qed.
Lemma verifyStaged_hoare op : hoare g plan (λ _, True) (verifyStaged op archive plan) (λ _ _, True).
Proof.
  eapply hoare_conseq; [apply (hoare_for_each g plan (λ _, True) _ (λ _ _, True)); [done|done|]|done|done].
  intros a. eapply hoare_bind; [apply hoare_lift|intros path]. destruct (map_get _ _); [|apply hoare_throw].
  eapply hoare_bind; [apply (verifyStagedBlob_law g plan)|intros ok]. apply (hoare_throw_when g plan (λ _, True)).
Qed.
Lemma commitBlobs_hoare op : hoare g plan (λ _, True) (commitBlobs op plan) (λ _ s, blobs_done g plan s).
Proof.
  eapply hoare_conseq;
    [apply (hoare_for_each g plan (λ _, True) _ (λ a s, blob_committed g s (action_sourceId a)))|done|by intros _ s _ [_ Hb]].
  - done.
  - intros a s s' Hl. apply (later_blob _ _ _ Hl).
  - intros a. apply (commitBlob_law g plan).
Qed.

Lemma step_hoare o : operation_checkpoint o ≠ completed →
  hoare g plan (running o) (import_step archive plan requestedBy o)
    (λ o' s, running o' s ∧ cp_index (operation_checkpoint o) < cp_index (operation_checkpoint o')).
Proof.
  intros Hc. unfold import_step. destruct (operation_checkpoint o) eqn:Ho; try done; rewrite <-Ho.
  - eapply hoare_then; [apply running_stable|apply (revalidate_law g plan)|intros issues].
    eapply hoare_conseq; [|by intros s _ [HR _]; exact HR|intros ? s _ HQ; exact HQ].
    apply effect_then_advance with (R := λ _, running o); [by rewrite Ho|apply hoare_throw_when|].
    intros u s _ _ _. split_and!; cbn; lia.
  - apply effect_then_advance with (R := λ _ _, True); [by rewrite Ho|apply running_true, stageBlobs_hoare|].
    intros u s _ _ _. split_and!; cbn; lia.
  - apply effect_then_advance with (R := λ _ _, True); [by rewrite Ho|apply running_true, verifyStaged_hoare|].
    intros u s _ _ _. split_and!; cbn; lia.
  - eapply effect_then_advance; [by rewrite Ho|apply running_true, commitBlobs_hoare|].
    intros u s _ _ Hb. split_and!; cbn; [done|lia|lia].
  - eapply effect_then_advance; [by rewrite Ho|
      eapply hoare_conseq; [apply (commitMetadata_law g plan (operation_id o))|by intros s _ [_ HR]; rewrite Ho in HR|intros ? s _ HQ; exact HQ]|].
    intros u s Hg [_ HR] HQ. apply reached_earned in HR as (Hb & _); [|done]. rewrite Ho in Hb.
    split_and!; cbn in *; [auto|auto|lia].
  - eapply hoare_then; [apply running_stable|apply (now_law g plan)|intros at_].
    eapply hoare_conseq; [|by intros s _ [HR _]; exact HR|intros ? s _ HQ; exact HQ].
    eapply effect_then_advance; [by rewrite Ho|
      eapply hoare_conseq; [apply (appendAudit_law g plan (operation_id o))|by intros s _ [_ HR]; rewrite Ho in HR|intros ? s _ HQ; exact HQ]|].
    intros u s Hg [_ HR] HQ. apply reached_earned in HR as (Hb & Hm & _); [|done]. rewrite Ho in Hb, Hm.
    split_and!; cbn in *; auto.
  - eapply hoare_conseq; [by apply advance_hoare; rewrite Ho| |intros ? s _ HQ; exact HQ].
    intros s Hg HR. split; [done|]. destruct HR as [_ HR]. apply reached_earned in HR as (Hb & Hm & Ha); [|done].
    rewrite Ho in Hb, Hm, Ha. split_and!; cbn in *; auto.
Qed.

(** The loop keeps the state good; when it comes out, the operation is completed. *)
Lemma loop_hoare fuel : ∀ o, hoare g plan (running o) (import_loop archive plan requestedBy fuel o)
  (λ r s, match r with
          | Some o' => running o' s ∧ operation_checkpoint o' = completed
          | None => fuel + cp_index (operation_checkpoint o) < 7
          end).
Proof.
  induction fuel as [|fuel IH]; intros o; cbn [import_loop];
    (destruct (decide (operation_checkpoint o = completed)) as [Hc|Hc]; [rewrite Hc, strict_eq_refl; by apply hoare_return|]);
    rewrite (bool_decide_eq_false_2 _ Hc).
  - apply hoare_return. intros s _ _. by destruct (operation_checkpoint o); cbn; try lia.
  - eapply hoare_bind; [by apply step_hoare|]. intros o'.
    apply (hoare_pure g plan (cp_index (operation_checkpoint o) < cp_index (operation_checkpoint o'))); [by intros s [_ ?]|].
    intros Hlt. eapply hoare_conseq; [apply IH|by intros s _ [? _]|]. intros [r|] s _; [done|lia].
Qed.

(** What [execute] gives: a completed operation with everything done, or, when
    the fuel is less than seven, possibly nothing. *)
Lemma execute_hoare fuel : hoare g plan (λ _, True) (execute archive plan requestedBy fuel)
  (λ r s, match r with
          | Some res => let op := operation_id (execution_operation res) in
              operation_checkpoint (execution_operation res) = completed ∧
              checkpoint_of g s op = Some (plan_planId plan, completed) ∧
              blobs_done g plan s ∧ records_done g plan op s ∧ audited g s op
          | None => fuel < 7
          end).
Proof.
  unfold execute. eapply hoare_bind; [apply hoare_lift|intros u].
  eapply hoare_bind; [apply (now_law g plan)|intros at_].
  eapply hoare_bind; [apply (begin_law g plan)|intros o].
  eapply hoare_bind with (R := λ _, running o).
  { destruct (_ === _); [|by apply hoare_return].
    eapply hoare_conseq; [apply (hoare_keep g plan (running o)); [apply running_stable|apply (hook_law g plan)]|done|by intros ? s _ [? _]]. }
  intros v. eapply hoare_bind; [apply loop_hoare|]. intros [o'|]; apply hoare_return; cbn; [|lia].
  intros s Hg [[_ HR] Hc]. rewrite Hc in HR.
  destruct (reached_earned _ _ _ Hg HR) as (Hb & Hr & Ha). destruct HR as (c' & Hc' & Hle).
  split_and!; [done|rewrite Hc'; by destruct c'; cbn in Hle; try lia|apply Hb|apply Hr|apply Ha]; cbn; lia.
Qed.

(** C36. An import never runs ahead of itself.  Whatever call of the operation
    store, of the target or of the hook throws, and wherever the operation was
    resumed from, [execute] leaves every operation of the plan with its
    checkpoint justified: past [immutable_blobs_committed] only with every blob
    the plan inserts committed, past [metadata_committed] only with every record
    written, past [audit_committed] only with the audit event appended; nothing
    that was done is undone.  When it returns, the operation is completed and
    all three hold. *)
Theorem import_effects_before_checkpoints fuel s r s' :
  good g plan s → execute archive plan requestedBy fuel s = (r, s') →
  justified g plan s' ∧ later g s s' ∧
  ∀ res, r = Ok (Some res) →
    let op := operation_id (execution_operation res) in
    operation_checkpoint (execution_operation res) = completed ∧
    checkpoint_of g s' op = Some (plan_planId plan, completed) ∧
    (∀ a, a ∈ blobActions plan → blob_committed g s' (action_sourceId a)) ∧
    (∀ a, a ∈ recordActions plan → recorded g s' op a) ∧ audited g s' op.
Proof.
  intros Hg E. destruct (execute_hoare fuel _ _ _ Hg I E) as ([_ Hj] & Hl & HQ).
  split_and!; [done|done|]. intros res Hr. exact (HQ _ Hr).
Qed.

(** [execute] ends: every pass of its loop moves the operation to a later
    checkpoint, so seven passes suffice from any state; with that fuel it
    returns a result or throws, and never runs out, also when another execution
    of the same operation moves the checkpoint in between. *)
Theorem import_terminates fuel s :
  good g plan s → 7 ≤ fuel → (execute archive plan requestedBy fuel s).1 ≠ Ok None.
Proof.
  intros Hg Hf HN. destruct (execute archive plan requestedBy fuel s) as [r s'] eqn:E. cbn in HN. subst r.
  destruct (execute_hoare fuel _ _ _ Hg I E) as (_ & _ & HQ). specialize (HQ _ eq_refl). cbn in HQ. lia.
Qed.
End Safety.
