(* ===== verification/PostgresImport.v ===== *)
(** * Archive import into PostgreSQL and the object storage

    [packages/persistence-postgres/src/archive-import.ts]: the operation store
    and the execution target the import executor runs against.  The tables are
    lists of rows, a row its columns; an [INSERT ... ON CONFLICT (c) DO NOTHING]
    looks for a row with the same columns [c].  The other constraints of the
    database are the class [SqlSchema], which may refuse any insert or commit.
    Blobs go through the [ObjectStorage] interface, outside the transactions.

    The theorems: the store and the target keep what the executor relies on, so
    that an import that returns has its blobs under their canonical keys, its
    rows in their tables and its audit event in the log; and [commitBlob] cannot
    be repeated, so that an import interrupted after committing a blob is
    refused by every later execution. *)
From S2P Require Import Prelude Js Concrete Json AuditChain StorageKeys Storage MemoryStorage IngestStore Archive ArchiveVerify ImportPlan ImportExecutor.
#[local] Arguments String.append !s1 s2 /.

(** ** Rows and tables *)

Inductive sql : Type :=
  | SNull
  | SText (s : string)
  | SInt (n : Z)
  | SBool (b : bool)
  | STexts (l : list string).
#[global] Instance sql_eq_dec : EqDecision sql.
Proof. solve_decision. Defined.

(** Column names and values. *)
Definition SqlRow : Type := list (string * sql).

(** [INSERT INTO table (columns) VALUES (values) ON CONFLICT (conflict) DO NOTHING] *)
Record SqlInsert := mkInsert {
  insert_table : string;
  insert_conflict : list string;
  insert_row : SqlRow;
}.

(** Source: packages/persistence-postgres/src/archive-import.ts:625-637 ImportOperationRow *)
Record ImportOperationRow := mkOperationRow {
  row_id : string;
  row_workspace_id : string;
  row_plan_id : string;
  row_archive_export_id : string;
  row_requested_by : string;
  row_requested_by_principal_type : string;
  row_idempotency_key : string;
  row_request_fingerprint : string;
  row_checkpoint : ArchiveImportCheckpoint;
  row_created_at : string;
  row_updated_at : string;
  row_completed_at : option string;
}.

(** The database and the storage an import works on, and the clock. *)
Record ImportWorld (F : Type) := mkImportWorld {
  iw_operations : list ImportOperationRow;
  iw_tables : gmap string (list SqlRow);
  iw_audit : list AuditRow;
  iw_storage : F;
  iw_clock : Z;
}.
Arguments mkImportWorld {F}.
Arguments iw_operations {F}.
Arguments iw_tables {F}.
Arguments iw_audit {F}.
Arguments iw_storage {F}.
Arguments iw_clock {F}.

(** The constraints of the migrations that the statements do not name, and how
    the driver renders a column of a row. *)
Class SqlSchema := {
  operation_refused : list ImportOperationRow → ImportOperationRow → bool;
  insert_refused : gmap string (list SqlRow) → SqlInsert → bool;
  audit_refused : list AuditRow → ChainedAuditEvent → bool;
  commit_refused : gmap string (list SqlRow) → bool;
  driver_value : string → string → sql → json;
}.

(** The arguments of the two constructors. *)
Record ImportRequestIdentity := mkIdentity {
  identity_principalType : string;
  identity_idempotencyKey : string;
  identity_fingerprint : string;
}.
Record ImportConfig := mkConfig {
  config_workspaceId : string;
  config_request : option ImportRequestIdentity;
  config_storageProvider : string;
}.

(** ** Reading an archive record *)

Definition undefined_null (v : option json) : bool :=
  match v with None | Some JNull => true | _ => false end.

Section Fields.
Context `{Crypto}.

Definition is_hex_any (c : ascii) : bool := is_hex_lower c || in_range 65 70 c.
(** The test of [id]. *)
Definition UUID_PATTERN (s : string) : bool :=
  let c := chars s in
  (length c === 36) &&
  forallb (λ ix : nat * ascii,
    let i := ix.1 in let x := ix.2 in
    if (i === 8) || (i === 13) || (i === 18) || (i === 23) then x === "-"%char
    else if i === 14 then in_range 49 53 x
    else if i === 19 then (x === "8"%char) || (x === "9"%char) || (x === "a"%char) || (x === "b"%char)
                          || (x === "A"%char) || (x === "B"%char)
    else is_hex_any x) (imap pair c).

(** Source: packages/persistence-postgres/src/archive-import.ts:670-676 id *)
Definition id_ (value : string) : string := if UUID_PATTERN value then value else deterministicUuid value.

(** Source: packages/persistence-postgres/src/archive-import.ts:666-668 temporaryOperationId *)
Definition temporaryOperationId (operationId digest : string) : string :=
  deterministicUuid ("archive-import-blob:" +:+ operationId +:+ ":" +:+ digest).

(** Source: packages/persistence-postgres/src/archive-import.ts:678-686 text *)
Definition text (record : option MappedRecord) (key : string) : result import_exn string :=
  match record ≫= λ r, mget r key with
  | Some (JString value) =>
      if String.length value === 0 then Err (Failure ("Imported " +:+ key +:+ " must be a non-empty string.")) else Ok value
  | _ => Err (Failure ("Imported " +:+ key +:+ " must be a non-empty string."))
  end.

(** Source: packages/persistence-postgres/src/archive-import.ts:688-694 optionalText *)
Definition optionalText (record : MappedRecord) (key : string) : option string :=
  match mget record key with
  | Some (JString value) => if String.length value === 0 then None else Some value
  | _ => None
  end.

(** Source: packages/persistence-postgres/src/archive-import.ts:696-704 number *)
Definition number (record : MappedRecord) (key : string) : result import_exn Z :=
  match mget record key with
  | Some (JNumber value) =>
      if isSafe value then Ok value else Err (Failure ("Imported " +:+ key +:+ " must be a safe integer."))
  | _ => Err (Failure ("Imported " +:+ key +:+ " must be a safe integer."))
  end.

(** Source: packages/persistence-postgres/src/archive-import.ts:706-714 boolean *)
Definition boolean (record : MappedRecord) (key : string) : result import_exn bool :=
  match mget record key with
  | Some (JBool value) => Ok value
  | _ => Err (Failure ("Imported " +:+ key +:+ " must be a boolean."))
  end.

(** Source: packages/persistence-postgres/src/archive-import.ts:716-724 json *)
Definition json_ (record : MappedRecord) (key : string) (fallback : option json) : result import_exn string :=
  let value := if undefined_null (mget record key) then fallback else mget record key in
  match value with
  | None => Err (Failure ("Imported " +:+ key +:+ " is required."))
  | Some value => Ok (JSON_stringify value)
  end.

(** Source: packages/persistence-postgres/src/archive-import.ts:726-735 stringArray *)
Definition stringArray (record : MappedRecord) (key : string) : result import_exn (list string) :=
  match mget record key with
  | None => Ok []
  | Some (JArray l) =>
      match mapM (λ v, as_string (Some v)) l with
      | Some texts => Ok texts
      | None => Err (Failure ("Imported " +:+ key +:+ " must be a string array."))
      end
  | Some _ => Err (Failure ("Imported " +:+ key +:+ " must be a string array."))
  end.

(** Source: packages/persistence-postgres/src/archive-import.ts:737-745 referenceId *)
Definition referenceId (record : MappedRecord) (kindKey idKey : string) : result import_exn string :=
  if is_string (mget record kindKey) "external" then text (Some record) idKey
  else id_ <$> text (Some record) idKey.
End Fields.

(** ** The statement of a record action *)

Section Statements.
Context `{Crypto} (config : ImportConfig) (clock : string).
Abbreviation Column := (string * result import_exn sql)%type.

Definition workspaceId : string := config_workspaceId config.

(** A value that is evaluated, or thrown on, where the array of parameters is built. *)
Definition col_text (name : string) (v : result import_exn string) : Column := (name, SText <$> v).
Definition col_null (name : string) (v : option string) : Column := (name, Ok (from_option SText SNull v)).
(** [optionalText(record, key) ? id(text(record, key)) : null] *)
Definition col_ref (name : string) (record : MappedRecord) (key : string) : Column :=
  (name, match optionalText record key with
         | Some _ => SText ∘ id_ <$> text (Some record) key
         | None => Ok SNull
         end).
Definition row_of (columns : list Column) : result import_exn SqlRow :=
  foldr (λ c rest, c.2 ≫= λ v, rest ≫= λ row, Ok ((c.1, v) :: row)) (Ok []) columns.
Definition statement (table : string) (conflict : list string) (columns : list Column) : result import_exn (option SqlInsert) :=
  row_of columns ≫= λ row, Ok (Some (mkInsert table conflict row)).

(** [canonicalObjectKey], whose errors are those of the storage package. *)
Definition object_key (digest : string) : result import_exn string :=
  match canonicalObjectKey workspaceId digest with Ok key => Ok key | Err e => Err (Storage e) end.

(** [JSON.stringify(record)]: a property that is [undefined] is left out. *)
Definition stringify_record (record : MappedRecord) : string :=
  JSON_stringify (JObject (omap (λ kv : string * option json, v ← kv.2; Some (kv.1, v)) record)).

(** Source: packages/persistence-postgres/src/archive-import.ts:356-492 commitAction *)
Definition insert_main (targetId : string) (record : MappedRecord) (kind : ArchiveRecordKind) : result import_exn (option SqlInsert) :=
  let t := text (Some record) in
  let o := optionalText record in
  let id := id_ targetId in
  match kind with
  | schema_packages => statement "schema_packages" ["id"]
      [col_text "id" (Ok id); col_text "namespace" (t "namespace"); col_text "name" (t "name");
       col_text "semantic_version" (t "semanticVersion"); col_text "schema_digest" (t "schemaDigest");
       col_text "manifest_json" (json_ record "manifest" None);
       col_text "status" (Ok (default "active" (o "status"))); col_text "created_at" (Ok (default clock (o "createdAt")))]
  | datasets => statement "datasets" ["id"]
      [col_text "id" (Ok id); col_text "workspace_id" (Ok workspaceId);
       col_text "schema_package_id" (id_ <$> t "schemaPackageId"); col_text "dataset_type" (t "datasetType");
       col_text "name" (t "name"); col_text "status" (Ok (default "active" (o "status")));
       col_ref "retention_policy_id" record "retentionPolicyId"; col_text "created_by" (t "createdBy");
       col_text "created_at" (t "createdAt"); col_text "updated_at" (t "updatedAt")]
  | resources => statement "resources" ["id"]
      [col_text "id" (Ok id); col_text "workspace_id" (Ok workspaceId); col_text "dataset_id" (id_ <$> t "datasetId");
       col_text "resource_type" (t "resourceType"); col_null "title" (o "title");
       col_text "status" (Ok (default "active" (o "status"))); col_ref "current_revision_id" record "currentRevisionId";
       col_text "created_by" (t "createdBy"); col_text "created_at" (t "createdAt"); col_text "updated_at" (t "updatedAt")]
  | blobs => statement "blob_objects" ["workspace_id"; "sha256"]
      [col_text "id" (Ok id); col_text "workspace_id" (Ok workspaceId); col_text "sha256" (t "sha256");
       ("byte_length", SInt <$> number record "byteLength"); col_text "media_type" (t "mediaType");
       col_text "storage_provider" (Ok (config_storageProvider config));
       col_text "storage_key" (t "sha256" ≫= object_key); col_null "encryption_key_ref" (o "encryptionKeyRef");
       col_text "encryption_state" (Ok (default "provider_managed" (o "encryptionState")));
       col_text "verification_state" (Ok "verified"); col_text "created_at" (t "createdAt")]
  | revisions => statement "revisions" ["id"]
      [col_text "id" (Ok id); col_text "workspace_id" (Ok workspaceId); col_text "dataset_id" (id_ <$> t "datasetId");
       col_text "resource_id" (id_ <$> t "resourceId"); ("revision_number", SInt <$> number record "revisionNumber");
       col_ref "parent_revision_id" record "parentRevisionId";
       ("merge_parent_revision_ids", (λ l, STexts (map id_ l)) <$> stringArray record "mergeParentRevisionIds");
       col_text "schema_package_id" (id_ <$> t "schemaPackageId"); col_text "schema_version" (t "schemaVersion");
       col_text "canonical_payload_json" (json_ record "canonicalPayload" None);
       col_text "canonical_payload_hash" (t "canonicalPayloadHash"); col_text "created_by" (t "createdBy");
       col_ref "created_on_device_id" record "createdOnDeviceId"; col_text "source" (Ok (default "import" (o "source")));
       col_null "change_note" (o "changeNote"); col_ref "restored_from_revision_id" record "restoredFromRevisionId";
       col_text "created_at" (t "createdAt")]
  | revision_blobs => statement "revision_blobs" ["id"]
      [col_text "id" (Ok id); col_text "workspace_id" (Ok workspaceId); col_text "revision_id" (id_ <$> t "revisionId");
       col_text "blob_object_id" (id_ <$> t "blobObjectId"); col_text "role" (t "role");
       col_null "logical_name" (o "logicalName"); col_text "metadata_json" (json_ record "metadata" (Some (JObject [])));
       col_text "created_at" (t "createdAt")]
  | relations => statement "relations" ["id"]
      [col_text "id" (Ok id); col_text "workspace_id" (Ok workspaceId); col_text "dataset_id" (id_ <$> t "datasetId");
       col_text "source_kind" (t "sourceKind"); col_text "source_id" (referenceId record "sourceKind" "sourceId");
       col_text "target_kind" (t "targetKind"); col_text "target_id" (referenceId record "targetKind" "targetId");
       col_text "relation_type" (t "relationType"); col_text "metadata_json" (json_ record "metadata" (Some (JObject [])));
       col_text "created_by" (t "createdBy"); col_text "created_at" (t "createdAt"); col_null "ended_at" (o "endedAt")]
  | _ => Ok None
  end.

(** Source: packages/persistence-postgres/src/archive-import.ts:493-552 commitAction *)
Definition insert_of (operationId : string) (plan : ArchiveImportPlan) (action : ArchiveImportAction) :
    result import_exn (option SqlInsert) :=
  match action_record action, action_disposition action with
  | Some record, Insert =>
      let t := text (Some record) in
      let o := optionalText record in
      let id := id_ (action_targetId action) in
      match action_kind action with
      | RecordKind tombstones => statement "tombstones" ["id"]
          [col_text "id" (Ok id); col_text "workspace_id" (Ok workspaceId); col_text "dataset_id" (id_ <$> t "datasetId");
           col_text "subject_kind" (t "subjectKind"); col_text "subject_id" (id_ <$> t "subjectId");
           col_text "deleted_by" (t "deletedBy"); col_text "deleted_at" (t "deletedAt"); col_null "reason" (o "reason");
           col_null "recover_until" (o "recoverUntil"); col_ref "prior_revision_id" record "priorRevisionId";
           col_null "restored_at" (o "restoredAt"); col_null "restored_by" (o "restoredBy");
           col_text "purge_state" (Ok (default "not_eligible" (o "purgeState")))]
      | RecordKind audit_events => statement "imported_archive_audit_events"
          ["workspace_id"; "import_operation_id"; "source_event_id"]
          [col_text "id" (t "id" ≫= λ i, Ok (deterministicUuid ("imported-audit:" +:+ operationId +:+ ":" +:+ i)));
           col_text "workspace_id" (Ok workspaceId); col_text "import_operation_id" (Ok operationId);
           col_text "source_workspace_id" (Ok (plan_sourceWorkspaceId plan)); col_text "source_event_id" (t "id");
           col_null "source_previous_event_hash" (o "previousEventHash"); col_text "source_event_hash" (t "eventHash");
           col_text "source_event_json" (Ok (stringify_record record)); col_text "imported_at" (Ok clock)]
      | RecordKind retention => statement "retention_policies" ["workspace_id"; "id"]
          [col_text "id" (Ok id); col_text "workspace_id" (Ok workspaceId); col_text "name" (t "name");
           ("recovery_window_days", SInt <$> number record "recoveryWindowDays");
           ("minimum_history_days", SInt <$> number record "minimumHistoryDays");
           ("backup_retention_days", SInt <$> number record "backupRetentionDays");
           ("purge_enabled", SBool <$> boolean record "purgeEnabled");
           col_text "extensions_json" (json_ record "extensions" (Some (JObject [])));
           col_text "created_by" (t "createdBy"); col_text "updated_by" (t "updatedBy");
           col_text "created_at" (t "createdAt"); col_text "updated_at" (t "updatedAt")]
      | RecordKind kind => insert_main (action_targetId action) record kind
      | BlobBytes => Ok None
      end
  | _, _ => Ok None
  end.
End Statements.

(** ** The operation store *)

Section PostgresStore.
Context {F : Type} `{JsDate} `{Crypto} `{ObjectStorage F} `{SqlSchema} (config : ImportConfig).
Abbreviation IM := (M (ImportWorld F) import_exn).

Definition set_ops (ops : list ImportOperationRow) (w : ImportWorld F) : ImportWorld F :=
  mkImportWorld ops (iw_tables w) (iw_audit w) (iw_storage w) (iw_clock w).
Definition set_tables (t : gmap string (list SqlRow)) (w : ImportWorld F) : ImportWorld F :=
  mkImportWorld (iw_operations w) t (iw_audit w) (iw_storage w) (iw_clock w).
Definition add_audit (e : ChainedAuditEvent) (w : ImportWorld F) : ImportWorld F :=
  mkImportWorld (iw_operations w) (iw_tables w) (iw_audit w ++ [mkAuditRow e EmptyString]) (iw_storage w) (iw_clock w).

(** Source: packages/persistence-postgres/src/archive-import.ts:768-770 iso *)
Definition iso (value : string) : result import_exn string :=
  match Date_parse value with Some t => Ok (toISOString t) | None => Err (Failure "Invalid time value") end.

(** Source: packages/persistence-postgres/src/archive-import.ts:639-650 mapOperation *)
Definition mapOperation (row : ImportOperationRow) : result import_exn ArchiveImportOperation :=
  iso (row_created_at row) ≫= λ createdAt,
  iso (row_updated_at row) ≫= λ updatedAt,
  match row_completed_at row with
  | Some t => iso t ≫= λ t, Ok (Some t)
  | None => Ok None
  end ≫= λ completedAt,
  Ok (ImportExecutor.mkOperation (row_id row) (row_plan_id row) (row_archive_export_id row) (row_requested_by row)
        (row_checkpoint row) None createdAt updatedAt completedAt).

(** Source: packages/persistence-postgres/src/archive-import.ts:652-657 requiredOperation *)
Definition requiredOperation (row : option ImportOperationRow) : result import_exn ImportOperationRow :=
  match row with Some row => Ok row | None => Err (Failure "Import operation was not found.") end.

(** [WHERE workspace_id=$1 AND id=$2], [id] being the primary key. *)
Definition operation_row (ops : list ImportOperationRow) (operationId : string) : option ImportOperationRow :=
  List.find (λ r, (row_id r === operationId) && (row_workspace_id r === config_workspaceId config)) ops.

Definition same_plan (planId : string) (row : ImportOperationRow) : bool := row_plan_id row === planId.
Definition same_request (principalType requestedBy idempotencyKey : string) (row : ImportOperationRow) : bool :=
  (row_requested_by_principal_type row === principalType) && (row_requested_by row === requestedBy) &&
  (row_idempotency_key row === idempotencyKey).

(** Source: packages/persistence-postgres/src/archive-import.ts:31-85 begin *)
Definition pg_begin (planId archiveExportId requestedBy at_ : string) : IM ArchiveImportOperation :=
  match config_request config with
  | None => throw (Failure "Import request identity is required to begin execution.")
  | Some request =>
      let principalType := identity_principalType request in
      let key := identity_idempotencyKey request in
      let here row := row_workspace_id row === config_workspaceId config in
      let row := mkOperationRow (deterministicUuid ("archive-import:" +:+ config_workspaceId config +:+ ":" +:+ planId))
        (config_workspaceId config) planId archiveExportId requestedBy principalType key (identity_fingerprint request)
        ImportExecutor.authorised at_ at_ None in
      transaction (
        gets (λ w, existsb (λ r, (row_id r === row_id row) ||
                                 (here r && (same_plan planId r || same_request principalType requestedBy key r)))
                     (iw_operations w)) ≫= λ conflict : bool,
        (if conflict then mret tt
         else gets (λ w, operation_refused (iw_operations w) row) ≫= λ refused : bool,
              throw_when refused (Failure "constraint violation") ≫= λ _,
              modify (λ w, set_ops (iw_operations w ++ [row]) w)) ≫= λ _,
        gets (λ w, let rows := List.filter (λ r, here r && (same_plan planId r || same_request principalType requestedBy key r))
                                 (iw_operations w) in
                   match List.find (λ r, same_plan planId r && same_request principalType requestedBy key r) rows with
                   | Some r => Some r
                   | None => List.find (λ _, true) rows
                   end) ≫= λ found,
        lift (requiredOperation found) ≫= λ row,
        throw_when ((row_plan_id row !== planId) || (row_archive_export_id row !== archiveExportId) ||
                    (row_requested_by row !== requestedBy) || (row_requested_by_principal_type row !== principalType) ||
                    (row_idempotency_key row !== key) || (row_request_fingerprint row !== identity_fingerprint request))
          (Coded "IDEMPOTENCY_CONFLICT") ≫= λ _,
        lift (mapOperation row) ≫= λ o,
        mret (ImportExecutor.mkOperation (operation_id o) (operation_planId o) (operation_archiveExportId o)
                (operation_requestedBy o) (operation_checkpoint o) (Some conflict) (operation_createdAt o)
                (operation_updatedAt o) (operation_completedAt o)))
  end.

(** [WHERE workspace_id=$1 AND id=$2 AND plan_id=$3], and [AND checkpoint=$4]. *)
Definition of_plan (operationId planId : string) (row : ImportOperationRow) : bool :=
  (row_id row === operationId) && (row_workspace_id row === config_workspaceId config) && (row_plan_id row === planId).
Definition at_checkpoint (operationId planId : string) (expected : ArchiveImportCheckpoint) (row : ImportOperationRow) : bool :=
  of_plan operationId planId row && (row_checkpoint row === expected).
(** The [SET] of the update. *)
Definition moved (next : ArchiveImportCheckpoint) (at_ : string) (row : ImportOperationRow) : ImportOperationRow :=
  mkOperationRow (row_id row) (row_workspace_id row) (row_plan_id row) (row_archive_export_id row)
    (row_requested_by row) (row_requested_by_principal_type row) (row_idempotency_key row) (row_request_fingerprint row)
    next (row_created_at row) at_ (if next === ImportExecutor.completed then Some at_ else row_completed_at row).

(** Source: packages/persistence-postgres/src/archive-import.ts:87-117 advance *)
Definition pg_advance (operationId planId : string) (expected next : ArchiveImportCheckpoint) (at_ : string) :
    IM ArchiveImportOperation :=
  throw_when (negb (bool_decide (nextImportCheckpoint expected = Some next)))
    (Failure "Import checkpoint transition is not sequential.") ≫= λ _,
  transaction (
    gets (λ w, List.find (at_checkpoint operationId planId expected) (iw_operations w)) ≫= λ found,
    match found with
    | Some row =>
        modify (λ w, set_ops (map (λ r, if at_checkpoint operationId planId expected r then moved next at_ r else r)
                                (iw_operations w)) w) ≫= λ _,
        lift (mapOperation (moved next at_ row))
    | None =>
        gets (λ w, List.find (of_plan operationId planId) (iw_operations w)) ≫= λ current,
        lift (requiredOperation current) ≫= λ row,
        lift (mapOperation row)
    end).

(** Source: packages/persistence-postgres/src/archive-import.ts:119-128 get *)
Definition pg_get (operationId : string) : IM (option ArchiveImportOperation) :=
  transaction (
    gets (λ w, operation_row (iw_operations w) operationId) ≫= λ row,
    match row with
    | Some row => lift (mapOperation row) ≫= λ o, mret (Some o)
    | None => mret None
    end).

(** ** The execution target *)

(** A call of the storage, outside any transaction. *)
Definition on_storage {A} (m : M F storage_exn A) : IM A := λ w,
  let '(r, f) := m (iw_storage w) in
  (match r with Ok a => Ok a | Err e => Err (Storage e) end,
   mkImportWorld (iw_operations w) (iw_tables w) (iw_audit w) f (iw_clock w)).

(** [text::text AS "name"] of a query, and the rows as the driver returns them. *)
Definition select (table : string) (keep : SqlRow → bool) (columns : list (string * string)) (w : ImportWorld F) : list ArchiveRecord :=
  map (λ row, map (λ c : string * string, (c.2, driver_value table c.1 (default SNull (map_get c.1 row)))) columns)
    (List.filter keep (default [] (iw_tables w !! table))).
Definition in_workspace (row : SqlRow) : bool :=
  map_get "workspace_id" row === Some (SText (config_workspaceId config)).

(** [Object.fromEntries] of the rows whose [id] is a string; [normalizeDates] is
    part of what [driver_value] stands for. *)
(** Source: packages/persistence-postgres/src/archive-import.ts:747-755 index *)
Definition index_rows (rows : list ArchiveRecord) : list (string * ArchiveRecord) :=
  fold_left (λ acc (kv : string * ArchiveRecord), map_set kv.1 kv.2 acc)
    (omap (λ row, i ← as_string (obj_get row "id"); Some (i, row)) rows) [].

(** Source: packages/persistence-postgres/src/archive-import.ts:561-623 loadArchiveImportInventory *)
Definition loadArchiveImportInventory : IM ArchiveImportInventory :=
  transaction (gets (λ w,
    let own table columns := select table in_workspace columns w in
    let blobs_ := own "blob_objects" [("id", "id"); ("workspace_id", "workspaceId"); ("sha256", "sha256");
      ("byte_length", "byteLength"); ("media_type", "mediaType"); ("storage_provider", "storageProvider");
      ("storage_key", "storageKey"); ("encryption_key_ref", "encryptionKeyRef"); ("encryption_state", "encryptionState");
      ("verification_state", "verificationState"); ("created_at", "createdAt")] in
    mkInventory (Some (config_workspaceId config))
      [(workspaces, index_rows (select "workspaces" (λ row, map_get "id" row === Some (SText (config_workspaceId config)))
          [("id", "id"); ("name", "name"); ("slug", "slug"); ("status", "status"); ("created_at", "createdAt");
           ("updated_at", "updatedAt")] w));
       (schema_packages, index_rows (select "schema_packages" (λ _, true)
          [("id", "id"); ("namespace", "namespace"); ("name", "name"); ("semantic_version", "semanticVersion");
           ("schema_digest", "schemaDigest"); ("manifest_json", "manifest"); ("status", "status"); ("created_at", "createdAt")] w));
       (retention, index_rows (own "retention_policies" [("id", "id"); ("workspace_id", "workspaceId"); ("name", "name");
           ("recovery_window_days", "recoveryWindowDays"); ("minimum_history_days", "minimumHistoryDays");
           ("backup_retention_days", "backupRetentionDays"); ("purge_enabled", "purgeEnabled"); ("extensions_json", "extensions");
           ("created_by", "createdBy"); ("updated_by", "updatedBy"); ("created_at", "createdAt"); ("updated_at", "updatedAt")]));
       (datasets, index_rows (own "datasets" [("id", "id"); ("workspace_id", "workspaceId");
           ("schema_package_id", "schemaPackageId"); ("dataset_type", "datasetType"); ("name", "name"); ("status", "status");
           ("retention_policy_id", "retentionPolicyId"); ("created_by", "createdBy"); ("created_at", "createdAt");
           ("updated_at", "updatedAt")]));
       (resources, index_rows (own "resources" [("id", "id"); ("workspace_id", "workspaceId"); ("dataset_id", "datasetId");
           ("resource_type", "resourceType"); ("title", "title"); ("status", "status");
           ("current_revision_id", "currentRevisionId"); ("created_by", "createdBy"); ("created_at", "createdAt");
           ("updated_at", "updatedAt")]));
       (revisions, index_rows (own "revisions" [("id", "id"); ("workspace_id", "workspaceId"); ("dataset_id", "datasetId");
           ("resource_id", "resourceId"); ("revision_number", "revisionNumber"); ("parent_revision_id", "parentRevisionId");
           ("merge_parent_revision_ids", "mergeParentRevisionIds"); ("schema_package_id", "schemaPackageId");
           ("schema_version", "schemaVersion"); ("canonical_payload_json", "canonicalPayload");
           ("canonical_payload_hash", "canonicalPayloadHash"); ("created_by", "createdBy");
           ("created_on_device_id", "createdOnDeviceId"); ("source", "source"); ("change_note", "changeNote");
           ("restored_from_revision_id", "restoredFromRevisionId"); ("created_at", "createdAt")]));
       (revision_blobs, index_rows (own "revision_blobs" [("id", "id"); ("workspace_id", "workspaceId");
           ("revision_id", "revisionId"); ("blob_object_id", "blobObjectId"); ("role", "role"); ("logical_name", "logicalName");
           ("metadata_json", "metadata"); ("created_at", "createdAt")]));
       (blobs, index_rows blobs_);
       (relations, index_rows (own "relations" [("id", "id"); ("workspace_id", "workspaceId"); ("dataset_id", "datasetId");
           ("source_kind", "sourceKind"); ("source_id", "sourceId"); ("target_kind", "targetKind"); ("target_id", "targetId");
           ("relation_type", "relationType"); ("metadata_json", "metadata"); ("created_by", "createdBy");
           ("created_at", "createdAt"); ("ended_at", "endedAt")]));
       (tombstones, index_rows (own "tombstones" [("id", "id"); ("workspace_id", "workspaceId"); ("dataset_id", "datasetId");
           ("subject_kind", "subjectKind"); ("subject_id", "subjectId"); ("deleted_by", "deletedBy");
           ("deleted_at", "deletedAt"); ("reason", "reason"); ("recover_until", "recoverUntil");
           ("prior_revision_id", "priorRevisionId"); ("restored_at", "restoredAt"); ("restored_by", "restoredBy");
           ("purge_state", "purgeState")]))]
      (omap (λ row, as_string (obj_get row "sha256")) blobs_))).

(** Source: packages/persistence-postgres/src/archive-import.ts:659-664 staleIssue *)
Definition staleIssue (action : ArchiveImportAction) : ArchiveIssue :=
  mkIssue "IMPORT_TARGET_STALE" None
    ("Target changed for " +:+ action_kind_name (action_kind action) +:+ ":" +:+ action_targetId action +:+ ".").

Definition inventory_record (inventory : ArchiveImportInventory) (kind : ArchiveRecordKind) (id : string) : option ArchiveRecord :=
  map_get kind (inventory_records inventory) ≫= map_get id.

(** Whether an action no longer fits the inventory; [canonicalJson] may throw. *)
(** Source: packages/persistence-postgres/src/archive-import.ts:146-176 revalidate *)
Definition stale (plan : ArchiveImportPlan) (inventory : ArchiveImportInventory) (action : ArchiveImportAction) : result import_exn bool :=
  match action_kind action with
  | BlobBytes =>
      let exists_ := array_includes (inventory_blobDigests inventory) (action_targetId action) in
      Ok (((action_disposition action === Insert) && exists_) || ((action_disposition action === AlreadyPresent) && negb exists_))
  | RecordKind kind =>
      let current := inventory_record inventory kind (action_targetId action) in
      if (kind === workspaces) && (plan_mode plan === mapped_workspace) && (action_disposition action === AlreadyPresent)
      then Ok (negb (bool_decide (is_Some (inventory_record inventory workspaces (action_targetId action)))))
      else
        match current, action_record action with
        | Some current, Some record =>
            match canonical_mapped record with
            | Ok wanted => Ok (canonicalJson (JObject current) === wanted)
            | Err _ => Err (Failure "Value is not JSON encodable.")
            end
        | _, _ => Ok false
        end ≫= λ same : bool,
        Ok (((action_disposition action === Insert) && bool_decide (is_Some current)) ||
            ((action_disposition action === AlreadyPresent) && negb same))
  end.

(** Source: packages/persistence-postgres/src/archive-import.ts:143-178 revalidate *)
Definition pg_revalidate (plan : ArchiveImportPlan) : IM (list ArchiveIssue) :=
  loadArchiveImportInventory ≫= λ inventory,
  lift (foldr (λ action rest, stale plan inventory action ≫= λ b, rest ≫= λ issues,
                 Ok (if (b : bool) then staleIssue action :: issues else issues)) (Ok []) (plan_actions plan)).

(** Source: packages/persistence-postgres/src/archive-import.ts:324-329 temporary *)
Definition temporary (operationId sha : string) : IM string :=
  gets iw_clock ≫= λ now,
  on_storage (createTemporaryUpload now (config_workspaceId config) (temporaryOperationId operationId sha)) ≫= λ t,
  mret (temporary_key t).

(** Source: packages/persistence-postgres/src/archive-import.ts:180-194 stageBlob *)
Definition pg_stageBlob (operationId sha bytes : string) : IM unit :=
  temporary operationId sha ≫= λ t,
  on_storage (writeTemporary t [bytes] "application/octet-stream") ≫= λ _, mret tt.

(** [hashStream(await storage.openReadStream(locator))] *)
(** Source: packages/persistence-postgres/src/archive-import.ts:778-782 hashStream *)
Definition hashStored (locator : string) : IM string :=
  on_storage (openReadStream locator None) ≫= λ bytes, mret (sha256 bytes).

(** Source: packages/persistence-postgres/src/archive-import.ts:196-207 verifyStagedBlob *)
Definition pg_verifyStagedBlob (operationId sha : string) (byteLength : Z) : IM bool :=
  temporary operationId sha ≫= λ t,
  on_storage (head t) ≫= λ metadata,
  hashStored t ≫= λ digest,
  mret ((metadata_byteLength metadata === byteLength) && (digest === sha)).

(** Source: packages/persistence-postgres/src/archive-import.ts:209-227 commitBlob *)
Definition pg_commitBlob (operationId sha : string) : IM unit :=
  temporary operationId sha ≫= λ t,
  on_storage (head t) ≫= λ metadata,
  hashStored t ≫= λ digest,
  throw_when (digest !== sha) (Failure "Staged blob digest changed before immutable commit.") ≫= λ _,
  on_storage (commitImmutable (mkCommit t (config_workspaceId config) sha (JInt (metadata_byteLength metadata))
                                 (metadata_mediaType metadata))) ≫= λ _, mret tt.

(** Source: packages/persistence-postgres/src/archive-import.ts:331-346 assertCommittedBlobs *)
Definition assertCommittedBlobs (actions : list ArchiveImportAction) : IM unit :=
  for_each (λ action,
    if (action_kind action !== RecordKind blobs) || (action_disposition action !== Insert) then mret tt
    else
      lift (text (action_record action) "sha256") ≫= λ digest,
      lift (object_key config digest) ≫= λ key,
      on_storage (exists_ key) ≫= λ there,
      throw_when (negb there) (Failure "Blob metadata cannot commit before immutable bytes exist.")) actions.

(** Two rows with the same values in some columns. *)
Definition agree (columns : list string) (row row' : SqlRow) : bool :=
  forallb (λ c, bool_decide (map_get c row = map_get c row')) columns.

Definition run_insert (ins : SqlInsert) : IM unit :=
  gets iw_tables ≫= λ tables,
  let rows := default [] (tables !! insert_table ins) in
  if existsb (agree (insert_conflict ins) (insert_row ins)) rows then mret tt
  else throw_when (insert_refused tables ins) (Failure "constraint violation") ≫= λ _,
       modify (set_tables (<[insert_table ins := rows ++ [insert_row ins]]> tables)).

(** Source: packages/persistence-postgres/src/archive-import.ts:348-355 commitAction *)
Definition commitAction (operationId : string) (plan : ArchiveImportPlan) (action : ArchiveImportAction) : IM unit :=
  gets iw_clock ≫= λ now,
  lift (insert_of config (toISOString now) operationId plan action) ≫= λ ins,
  match ins with Some ins => run_insert ins | None => mret tt end.

(** Source: packages/persistence-postgres/src/archive-import.ts:229-241 commitMetadata *)
Definition pg_commitMetadata (operationId : string) (plan : ArchiveImportPlan) (actions : list ArchiveImportAction) : IM unit :=
  assertCommittedBlobs actions ≫= λ _,
  transaction (
    for_each (commitAction operationId plan) actions ≫= λ _,
    gets (λ w, commit_refused (iw_tables w)) ≫= λ refused : bool,
    throw_when refused (Failure "constraint violation")).

Definition audit_id (operationId : string) : string := deterministicUuid ("archive-import-audit:" +:+ operationId).
Definition is_event (auditId : string) (r : AuditRow) : bool :=
  (event_workspaceId (chained_body (audit_event r)) === config_workspaceId config) &&
  (event_id (chained_body (audit_event r)) === auditId).

(** Source: packages/persistence-postgres/src/archive-import.ts:243-322 appendAudit *)
Definition pg_appendAudit (operationId : string) (plan : ArchiveImportPlan) (requestedBy at_ : string) (lineage : option json) : IM unit :=
  transaction (
    let auditId := audit_id operationId in
    gets (λ w, existsb (is_event auditId) (iw_audit w)) ≫= λ existing : bool,
    if existing then mret tt
    else
      gets (λ w, operation_row (iw_operations w) operationId) ≫= λ row,
      lift (requiredOperation row) ≫= λ operation,
      gets (λ w, latest_event (config_workspaceId config) (iw_audit w)) ≫= λ previous,
      let metadata := JObject ([("planId", JString (plan_planId plan)); ("archiveExportId", JString (plan_archiveExportId plan));
         ("sourceWorkspaceId", JString (plan_sourceWorkspaceId plan))] ++
         match lineage with Some l => [("sourceAuditLineage", l)] | None => [] end) in
      let event := appendAuditEvent
        (mkAuditBody auditId (config_workspaceId config) (row_requested_by_principal_type operation) requestedBy
           "archive.imported" "archive" (plan_archiveExportId plan) at_
           (deterministicUuid ("archive-import-request:" +:+ operationId)) operationId metadata)
        (from_option (λ r, eventHash (audit_event r)) EmptyString previous) in
      gets (λ w, audit_refused (iw_audit w) event) ≫= λ refused : bool,
      throw_when refused (Failure "constraint violation") ≫= λ _,
      modify (add_audit event)).

Definition pg_OperationStore : ArchiveImportOperationStore (ImportWorld F) := {|
  begin_import := pg_begin;
  advance_import := pg_advance;
|}.
Definition pg_Target : ArchiveImportExecutionTarget (ImportWorld F) := {|
  revalidate := pg_revalidate;
  stageBlob := pg_stageBlob;
  verifyStagedBlob := pg_verifyStagedBlob;
  commitBlob := pg_commitBlob;
  commitMetadata := pg_commitMetadata;
  appendAudit := pg_appendAudit;
|}.
#[global] Instance pg_Runtime : ImportRuntime (ImportWorld F) := {|
  import_now := gets (λ w, toISOString (iw_clock w));
  afterCheckpoint := λ _ _, mret tt;
|}.
End PostgresStore.

(** ** What the store and the target keep *)

(** Committed objects outlive every call of the storage, also one that throws. *)
Definition kept {F} `{Crypto} `{!ObjectStorage F} `{!ObjectStorageLaws F} (f f' : F) : Prop :=
  storage_inv f' ∧ ∀ w d key b m, canonicalObjectKey w d = Ok key → stored f key b m → stored f' key b m.

Class StorageDurable (F : Type) `{Crypto} `{!ObjectStorage F} `{!ObjectStorageLaws F} : Prop := {
  create_kept f now w o : storage_inv f → kept f (createTemporaryUpload now w o f).2;
  write_kept f key body mt : storage_inv f → kept f (writeTemporary key body mt f).2;
  commit_kept f input : storage_inv f → kept f (commitImmutable input f).2;
}.

Lemma mem_le_kept `{JsDate} `{Crypto} (f f' : MemoryObjectStorage) : mem_le f f' → kept f f'.
Proof.
  intros [Hi Hk]. split; [done|]. intros w d key b m Hkey (o & Ho & Hb & Hm). exists o. split; [|done].
  apply Hk; [by eapply canonical_not_temporary|done].
Qed.
#[global] Instance memory_durable `{JsDate} `{Crypto} : StorageDurable MemoryObjectStorage.
Proof.
  split; intros; apply mem_le_kept.
  - by apply keeps_createTemporaryUpload.
  - by apply keeps_writeTemporary.
  - by apply keeps_commitImmutable.
Qed.

Lemma find_unique {A} (p : A → bool) l x :
  x ∈ l → p x = true → (∀ y, y ∈ l → p y = true → y = x) → List.find p l = Some x.
Proof.
  intros Hx Hp Hu. destruct (List.find p l) as [y|] eqn:E.
  - apply List.find_some in E as [Hy Hpy]. f_equal. apply Hu; [by apply list_elem_of_In|done].
  - apply list_elem_of_In in Hx. by rewrite (List.find_none _ _ E _ Hx) in Hp.
Qed.
Lemma find_map_inv {A} (p : A → bool) (f : A → A) l :
  (∀ x, p (f x) = p x) → List.find p (map f l) = f <$> List.find p l.
Proof. intros Hf. induction l as [|x l IH]; cbn; [done|]. rewrite Hf. by destruct (p x). Qed.
Lemma find_app {A} (p : A → bool) l l' :
  List.find p (l ++ l') = match List.find p l with Some x => Some x | None => List.find p l' end.
Proof. induction l as [|y l IH]; cbn; [done|]. by destruct (p y). Qed.
Lemma find_app_Some {A} (p : A → bool) l l' x : List.find p l = Some x → List.find p (l ++ l') = Some x.
Proof. intros Hl. by rewrite find_app, Hl. Qed.

Section Keep.
Context {F : Type} `{JsDate} `{Crypto} `{!ObjectStorage F} `{!ObjectStorageLaws F} `{!StorageDurable F} `{SqlSchema}.
Context (config : ImportConfig) (plan : ArchiveImportPlan).
Abbreviation World := (ImportWorld F).
Abbreviation IM := (M World import_exn).

Definition checkpoint_in (w : World) (op : string) : option (string * ArchiveImportCheckpoint) :=
  (λ r, (row_plan_id r, row_checkpoint r)) <$> operation_row config (iw_operations w) op.
(** The bytes of a digest are under the workspace's canonical key. *)
Definition blob_in (w : World) (sha : string) : Prop :=
  ∃ key b m, canonicalObjectKey (config_workspaceId config) sha = Ok key ∧ stored (iw_storage w) key b m ∧ sha256 b = sha.
(** The table of the records of a kind, and the columns that identify one: its
    identifier, the digest of a blob, the source event of an imported audit
    event. A workspace has none: its records are not written. *)
Definition record_table (kind : ArchiveRecordKind) : string :=
  match kind with
  | workspaces => "workspaces" | schema_packages => "schema_packages" | datasets => "datasets"
  | resources => "resources" | revisions => "revisions" | revision_blobs => "revision_blobs"
  | blobs => "blob_objects" | relations => "relations" | tombstones => "tombstones"
  | audit_events => "imported_archive_audit_events" | retention => "retention_policies"
  end.
Definition record_key (op : string) (a : ArchiveImportAction) (record : MappedRecord) (kind : ArchiveRecordKind) :
    list (string * result import_exn sql) :=
  let workspace := col_text "workspace_id" (Ok (config_workspaceId config)) in
  match kind with
  | blobs => [workspace; col_text "sha256" (text (Some record) "sha256")]
  | audit_events => [workspace; col_text "import_operation_id" (Ok op); col_text "source_event_id" (text (Some record) "id")]
  | retention => [workspace; col_text "id" (Ok (id_ (action_targetId a)))]
  | _ => [col_text "id" (Ok (id_ (action_targetId a)))]
  end.
(** A record that an action inserts, of any kind but a workspace, has a row with
    its key in the table of its kind. *)
Definition recorded_in (w : World) (op : string) (a : ArchiveImportAction) : Prop :=
  ∀ record kind, action_record a = Some record → action_disposition a = Insert → action_kind a = RecordKind kind →
  kind ≠ workspaces →
  ∃ row, row ∈ default [] (iw_tables w !! record_table kind) ∧
    ∀ c v, (c, v) ∈ record_key op a record kind → ∃ x, v = Ok x ∧ map_get c row = Some x.
Definition audited_in (w : World) (op : string) : Prop :=
  ∃ r, r ∈ iw_audit w ∧ is_event config (audit_id op) r = true.
Definition world_ok (w : World) : Prop := storage_inv (iw_storage w) ∧ NoDup (map row_id (iw_operations w)).

Definition pg_ghost : ImportGhost World := mkGhost _ checkpoint_in blob_in recorded_in audited_in world_ok.

(** Everything but the operations grows. *)
Record grown (w w' : World) : Prop := mkGrown {
  grown_storage : kept (iw_storage w) (iw_storage w');
  grown_tables t row : row ∈ default [] (iw_tables w !! t) → row ∈ default [] (iw_tables w' !! t);
  grown_audit r : r ∈ iw_audit w → r ∈ iw_audit w';
}.

Lemma kept_refl f : storage_inv f → kept f f.
Proof. by split. Qed.
Lemma kept_trans f1 f2 f3 : kept f1 f2 → kept f2 f3 → kept f1 f3.
Proof. intros [_ Hk1] [Hi Hk2]. split; eauto. Qed.
Lemma grown_refl w : world_ok w → grown w w.
Proof. intros [Hi _]. split; auto using kept_refl. Qed.
Lemma grown_trans w1 w2 w3 : grown w1 w2 → grown w2 w3 → grown w1 w3.
Proof. intros [k1 t1 a1] [k2 t2 a2]. split; eauto using kept_trans. Qed.

Lemma grown_later w w' : grown w w' →
  (∀ op p c, checkpoint_in w op = Some (p, c) → ∃ c', checkpoint_in w' op = Some (p, c') ∧ cp_index c ≤ cp_index c') →
  later pg_ghost w w'.
Proof.
  intros [[_ Hk] Ht Ha] Hc. split; cbn.
  - exact Hc.
  - intros sha (key & b & m & Hkey & Hs & Hb). exists key, b, m. split_and!; eauto.
  - intros op a Hr record kind Hrec Hd Hkd Hne. destruct (Hr _ _ Hrec Hd Hkd Hne) as (row & Hrow & Hkey). eauto.
  - intros op (r & Hr & He). exists r. eauto.
Qed.

(** A call that leaves the operations alone. *)
Definition quiet {A} (m : IM A) : Prop := ∀ w, world_ok w →
  let w' := (m w).2 in iw_operations w' = iw_operations w ∧ grown w w'.

Lemma quiet_ok {A} (m : IM A) w : quiet m → world_ok w → world_ok (m w).2.
Proof. intros Hq Hw. destruct (Hq w Hw) as [Ho [[Hs _] _ _]]. split; [done|]. rewrite Ho. by destruct Hw. Qed.

Lemma quiet_hoare {A} (m : IM A) P Q : quiet m →
  (∀ w a w', good pg_ghost plan w → P w → m w = (Ok a, w') → Q a w') → hoare pg_ghost plan P m Q.
Proof.
  intros Hq HQ w r w' [Hw Hj] HP E. destruct (Hq w Hw) as [Ho Hg]. pose proof (quiet_ok m w Hq Hw) as Hw'.
  rewrite E in Ho, Hg, Hw'. cbn in *.
  assert (Hc : ∀ op, checkpoint_in w' op = checkpoint_in w op) by (intros op; unfold checkpoint_in; by rewrite Ho).
  assert (Hl : later pg_ghost w w').
  { apply grown_later; [done|]. intros op p c Hop. exists c. by rewrite Hc. }
  split_and!; [split; [done|]|done|].
  - intros op c Hop. cbn in Hop. rewrite Hc in Hop. eapply earned_stable; [exact Hl|]. by apply Hj.
  - intros a ->. exact (HQ w a w' (conj Hw Hj) HP E).
Qed.

Lemma quiet_ret {A} (a : A) : quiet (mret a).
Proof. intros w Hw. split; [done|by apply grown_refl]. Qed.
Lemma quiet_lift {A} (r : result import_exn A) : quiet (lift r).
Proof. intros w Hw. split; [done|by apply grown_refl]. Qed.
Lemma quiet_throw_when b e : quiet (throw_when b e).
Proof. apply quiet_lift. Qed.
Lemma quiet_gets {A} (f : World → A) : quiet (gets f).
Proof. intros w Hw. split; [done|by apply grown_refl]. Qed.
Lemma quiet_bind {A B} (m : IM A) (f : A → IM B) : quiet m → (∀ a, quiet (f a)) → quiet (m ≫= f).
Proof.
  intros Hm Hf w Hw. unfold mbind, M_bind. pose proof (quiet_ok m w Hm Hw) as Hw'. destruct (Hm w Hw) as [Ho Hg].
  destruct (m w) as [[a|e] w1]; cbn in *; [|done]. destruct (Hf a w1 Hw') as [Ho2 Hg2].
  split; [by rewrite Ho2, Ho|by eapply grown_trans].
Qed.
Lemma quiet_transaction {A} (m : IM A) : quiet m → quiet (transaction m).
Proof.
  intros Hm w Hw. unfold transaction. destruct (Hm w Hw) as [Ho Hg].
  destruct (m w) as [[a|e] w']; cbn in *; [done|split; [done|by apply grown_refl]].
Qed.
Lemma quiet_for_each {A} (f : A → IM unit) xs : (∀ x, quiet (f x)) → quiet (for_each f xs).
Proof. intros Hf. induction xs as [|x xs IH]; cbn; [apply quiet_ret|]. apply quiet_bind; auto. Qed.
Lemma quiet_storage {A} (m : M F storage_exn A) :
  (∀ f, storage_inv f → kept f (m f).2) → quiet (on_storage m).
Proof.
  intros Hm w [Hs Hn]. unfold on_storage. specialize (Hm _ Hs). destruct (m (iw_storage w)) as [r f]; cbn in *.
  split; [done|]. by split.
Qed.

Lemma quiet_pure {A} (m : M F storage_exn A) : (∀ f, (m f).2 = f) → quiet (on_storage m).
Proof. intros Hm. apply quiet_storage. intros f Hf. rewrite Hm. by apply kept_refl. Qed.
Lemma quiet_head key : quiet (on_storage (head key)).
Proof. apply quiet_pure. intros f. apply reads_pure. Qed.
Lemma quiet_read key : quiet (on_storage (openReadStream key None)).
Proof. apply quiet_pure. intros f. apply reads_pure. Qed.
Lemma quiet_exists key : quiet (on_storage (exists_ key)).
Proof. apply quiet_pure. intros f. by destruct (exists_law f key) as (r & -> & _). Qed.
Lemma quiet_create now w o : quiet (on_storage (createTemporaryUpload now w o)).
Proof. apply quiet_storage. intros f. apply create_kept. Qed.
Lemma quiet_write key body mt : quiet (on_storage (writeTemporary key body mt)).
Proof. apply quiet_storage. intros f. apply write_kept. Qed.
Lemma quiet_commit input : quiet (on_storage (commitImmutable input)).
Proof. apply quiet_storage. intros f. apply commit_kept. Qed.

Lemma quiet_insert ins : quiet (run_insert ins).
Proof.
  intros w Hw. unfold run_insert. run. destruct (existsb _ _); [split; [done|by apply grown_refl]|].
  destruct (insert_refused _ _); cbn [throw_if]; run; [split; [done|by apply grown_refl]|].
  split; [done|]. split; simpl; [by apply kept_refl, Hw| |done].
  intros t row Hr. destruct (decide (t = insert_table ins)) as [->|Hne].
  - rewrite lookup_insert_eq. cbn. apply elem_of_app. by left.
  - by rewrite lookup_insert_ne.
Qed.
Lemma quiet_audit e : quiet (modify (add_audit e)).
Proof.
  intros w Hw. split; [done|]. split; cbn; [by apply kept_refl, Hw|done|]. intros r Hr. apply elem_of_app. by left.
Qed.
End Keep.

Create HintDb import.
#[export] Hint Resolve quiet_ret quiet_lift quiet_throw_when quiet_gets quiet_transaction quiet_for_each quiet_head quiet_read quiet_exists quiet_create quiet_write quiet_commit quiet_insert quiet_audit : import.
Ltac solve_quiet :=
  repeat first [solve [simple apply quiet_insert | simple apply quiet_audit] | apply quiet_bind; [|intros ?]
    | apply quiet_transaction | apply quiet_for_each; intros ? | case_match | progress cbv zeta];
  eauto with import.

Section Discharge.
Context {F : Type} `{JsDate} `{Crypto} `{!ObjectStorage F} `{!ObjectStorageLaws F} `{!StorageDurable F} `{SqlSchema}.
Context (config : ImportConfig) (plan : ArchiveImportPlan).
Abbreviation World := (ImportWorld F).
Abbreviation IM := (M World import_exn).
Abbreviation ghost := (pg_ghost config).

Lemma quiet_true {A} (m : IM A) : quiet m → hoare ghost plan (λ _, True) m (λ _ _, True).
Proof. intros Hq. by apply quiet_hoare. Qed.

Lemma quiet_temporary op sha : quiet (temporary (F := F) config op sha).
Proof. unfold temporary. solve_quiet. Qed.
Lemma quiet_commitAction op a : quiet (commitAction (F := F) config op plan a).
Proof. unfold commitAction. solve_quiet. Qed.

Lemma pg_revalidate_quiet : quiet (pg_revalidate (F := F) config plan).
Proof. unfold pg_revalidate, loadArchiveImportInventory. solve_quiet. Qed.
Lemma pg_stageBlob_quiet op sha bytes : quiet (pg_stageBlob (F := F) config op sha bytes).
Proof. unfold pg_stageBlob. apply quiet_bind; [apply quiet_temporary|intros t]. solve_quiet. Qed.
Lemma pg_verifyStagedBlob_quiet op sha n : quiet (pg_verifyStagedBlob (F := F) config op sha n).
Proof. unfold pg_verifyStagedBlob, hashStored. apply quiet_bind; [apply quiet_temporary|intros t]. solve_quiet. Qed.
Lemma pg_commitBlob_quiet op sha : quiet (pg_commitBlob (F := F) config op sha).
Proof. unfold pg_commitBlob, hashStored. apply quiet_bind; [apply quiet_temporary|intros t]. solve_quiet. Qed.
Lemma pg_commitMetadata_quiet op actions : quiet (pg_commitMetadata (F := F) config op plan actions).
Proof.
  unfold pg_commitMetadata, assertCommittedBlobs. apply quiet_bind; [solve_quiet|intros _].
  apply quiet_transaction, quiet_bind; [apply quiet_for_each; intros a; apply quiet_commitAction|intros _]. solve_quiet.
Qed.
Lemma pg_appendAudit_quiet op by_ at_ lineage : quiet (pg_appendAudit (F := F) config op plan by_ at_ lineage).
Proof. unfold pg_appendAudit. solve_quiet. Qed.

(** A storage call that returns, in the world. *)
Lemma on_storage_Ok {A} (m : M F storage_exn A) w a w' :
  on_storage m w = (Ok a, w') →
  m (iw_storage w) = (Ok a, iw_storage w') ∧ iw_operations w' = iw_operations w ∧ iw_clock w' = iw_clock w.
Proof. unfold on_storage. destruct (m (iw_storage w)) as [[b|e] f]; [|done]. by intros [= -> <-]. Qed.

(** A commit that returns has committed the temporary object. *)
Lemma pg_commitBlob_Ok op sha w w' : storage_inv (iw_storage w) →
  pg_commitBlob config op sha w = (Ok tt, w') →
  ∃ t md md', temporaryObjectKey (config_workspaceId config) (temporaryOperationId op sha) = Ok t ∧
    head t (iw_storage w) = (Ok md, iw_storage w) ∧
    commitImmutable (mkCommit t (config_workspaceId config) sha (JInt (metadata_byteLength md)) (metadata_mediaType md))
      (iw_storage w) = (Ok md', iw_storage w').
Proof.
  intros Hi. unfold pg_commitBlob, temporary, hashStored. intros HR. run_inv.
  repeat match goal with HS : on_storage _ _ = (Ok _, _) |- _ => apply on_storage_Ok in HS as (HS & ? & ?) end.
  match goal with HS : createTemporaryUpload _ _ _ _ = _ |- _ => apply createTemporaryUpload_law in HS as [Ht Hs0] end.
  match goal with HS : head _ _ = _ |- _ => pose proof HS as Hh; apply head_law in Hh as [Hs1 _]; [|congruence] end.
  match goal with HS : openReadStream ?k _ ?f = _ |- _ => pose proof (proj2 (reads_pure f k) None) as Hs2; rewrite HS in Hs2; cbn in Hs2 end.
  match goal with HS : (Ok tt, _) = (Ok tt, _) |- _ => injection HS as <- end.
  rewrite Hs2, Hs1, Hs0 in *. eexists _, _, _. split_and!; [exact Ht|eassumption|eassumption].
Qed.

Lemma pg_commitBlob_done op sha w w' : storage_inv (iw_storage w) →
  pg_commitBlob config op sha w = (Ok tt, w') → blob_in config w' sha.
Proof.
  intros Hi (t & md & md' & _ & _ & Hc)%pg_commitBlob_Ok; [|done].
  destruct (commitImmutable_law _ _ _ _ Hi Hc) as (_ & Hk & _ & _ & (b & m & Hs & Hb & _) & _).
  exists (metadata_key md'), b, m. done.
Qed.

(** The columns of a statement are the values its row holds. *)
Lemma row_of_get columns row c v :
  row_of columns = Ok row → NoDup columns.*1 → (c, v) ∈ columns → ∃ x, v = Ok x ∧ map_get c row = Some x.
Proof.
  revert row. induction columns as [|[c' v'] columns IH]; intros row; cbn; [by intros _ _ ?%elem_of_nil|].
  intros (x & Hx & (row' & Hr & [= <-])%result_bind_Ok)%result_bind_Ok [Hn Hnd]%NoDup_cons [[= -> ->]|Hin]%elem_of_cons.
  - exists x. cbn. by rewrite strict_eq_refl.
  - destruct (IH row' Hr Hnd Hin) as (y & -> & Hy). exists y. split; [done|]. cbn.
    rewrite bool_decide_eq_false_2; [done|]. intros ->. apply Hn. by apply (list_elem_of_fmap_2 fst) in Hin.
Qed.

(** The statement of a record writes to the table of its kind a row with its
    key, and its [ON CONFLICT] is over columns of the key. *)
Definition keyed (ins : SqlInsert) (table : string) (key : list (string * result import_exn sql)) : Prop :=
  insert_table ins = table ∧
  ∀ c v, (c, v) ∈ key → c ∈ insert_conflict ins ∧ ∃ x, v = Ok x ∧ map_get c (insert_row ins) = Some x.
Lemma statement_keyed table conflict columns ins key :
  statement table conflict columns = Ok ins → NoDup columns.*1 →
  (∀ c v, (c, v) ∈ key → c ∈ conflict ∧ (c, v) ∈ columns) → ∃ i, ins = Some i ∧ keyed i table key.
Proof.
  intros (row & Hr & [= <-])%result_bind_Ok Hnd Hk. eexists. split; [done|]. split; [done|].
  intros c v [Hc Hin]%Hk. split; [done|]. by eapply row_of_get.
Qed.
Ltac solve_keyed Hi := refine (statement_keyed _ _ _ _ _ Hi _ _);
  [apply (bool_decide_unpack _); vm_compute; exact I|];
  cbn; intros c v Hin; rewrite ?elem_of_cons, elem_of_nil in Hin; destruct_or?; try done;
  rewrite ?elem_of_cons; (split; [injection Hin as -> _; auto|auto 20]).
Lemma insert_of_keyed clock op a record kind ins :
  insert_of config clock op plan a = Ok ins → action_record a = Some record → action_disposition a = Insert →
  action_kind a = RecordKind kind → kind ≠ workspaces →
  ∃ i, ins = Some i ∧ keyed i (record_table kind) (record_key config op a record kind).
Proof.
  unfold insert_of. intros Hi Hr Hd Hk Hne. rewrite Hr, Hd, Hk in Hi.
  destruct kind; [done|cbn [insert_main] in Hi; solve_keyed Hi..].
Qed.

(** A row that is inserted, or that stands in the way, is in its table. *)
Lemma commitAction_done op a (w w' : World) : commitAction config op plan a w = (Ok tt, w') → recorded_in config w' op a.
Proof.
  unfold commitAction. intros HR record kind Hrec Hd Hk Hne. run_inv.
  match goal with HS : insert_of _ _ _ _ _ = Ok _ |- _ => destruct (insert_of_keyed _ _ _ _ _ _ HS Hrec Hd Hk Hne) as (i & -> & <- & Hkey) end.
  unfold run_insert in *. run_inv. case_match eqn:Hx; run_inv; match goal with HS : (Ok tt, _) = _ |- _ => injection HS as <- end.
  - apply existsb_exists in Hx as (row & Hin & Hag). exists row. split; [by rewrite list_elem_of_In|].
    intros c v [Hc (x & -> & Hx)]%Hkey. exists x. split; [done|].
    unfold agree in Hag. rewrite forallb_forall in Hag. rewrite list_elem_of_In in Hc. apply Hag, bool_decide_eq_true in Hc. congruence.
  - eexists. simpl. rewrite lookup_insert_eq. split; [apply elem_of_app; right; by apply list_elem_of_singleton|].
    intros c v [_ ?]%Hkey. done.
Qed.

Lemma pg_commitMetadata_hoare op : hoare ghost plan (reached ghost plan op immutable_blobs_committed)
  (pg_commitMetadata config op plan (recordActions plan)) (λ _ w, records_done ghost plan op w).
Proof.
  eapply hoare_conseq with (P' := λ _, True); [|done|intros ? ? _ HQ; exact HQ].
  eapply hoare_bind with (R := λ _ _, True); [apply quiet_true; unfold assertCommittedBlobs; solve_quiet|intros _].
  apply hoare_transaction. eapply hoare_bind.
  - apply (hoare_for_each ghost plan (λ _, True) _ (λ a w, recorded_in config w op a)); [done| |].
    + intros a w w' Hl. apply (later_recorded _ _ _ Hl).
    + intros a. apply quiet_hoare; [apply quiet_commitAction|]. intros w [] w' _ _. apply commitAction_done.
  - intros u. eapply hoare_bind with (R := λ _ w, records_done ghost plan op w).
    + apply quiet_hoare; [apply quiet_gets|]. intros w b w' _ [_ Hd] [= _ <-]. exact Hd.
    + intros b. apply hoare_throw_when.
Qed.

Lemma pg_appendAudit_hoare op by_ at_ lineage : hoare ghost plan (reached ghost plan op ImportExecutor.metadata_committed)
  (pg_appendAudit config op plan by_ at_ lineage) (λ _ w, audited_in config w op).
Proof.
  apply quiet_hoare; [apply pg_appendAudit_quiet|]. intros w [] w' _ _. unfold pg_appendAudit, transaction.
  intros HR. case_match eqn:HE. case_match; [|done]. injection HR as -> <-. run_inv. case_match eqn:Hx; run_inv.
  - apply existsb_exists in Hx as (r & Hr & He). match goal with HS : (Ok tt, _) = _ |- _ => injection HS as <- end.
    exists r. by rewrite list_elem_of_In.
  - match goal with HS : (Ok tt, _) = _ |- _ => injection HS as <- end. eexists. split.
    + simpl. apply elem_of_app. right. by apply list_elem_of_singleton.
    + unfold is_event. cbn. by rewrite !strict_eq_refl.
Qed.

(** *** Operations *)

Lemma operation_row_spec w op r : world_ok w →
  operation_row config (iw_operations w) op = Some r ↔
  r ∈ iw_operations w ∧ row_id r = op ∧ row_workspace_id r = config_workspaceId config.
Proof.
  intros [_ Hn]. split.
  - intros [Hr Hp]%List.find_some. to_prop. by rewrite list_elem_of_In.
  - intros (Hr & Hid & Hws). apply find_unique; [done|by rewrite Hid, Hws, !strict_eq_refl|].
    intros y Hy Hp. to_prop. eapply (index_unique row_id); try done. congruence.
Qed.

Lemma mapOperation_Ok row o : mapOperation row = Ok o →
  operation_id o = row_id row ∧ operation_planId o = row_plan_id row ∧ operation_checkpoint o = row_checkpoint row.
Proof. unfold mapOperation. intros HR. run_inv. by cbn. Qed.

Lemma checkpoint_in_Some (w : World) op p c : checkpoint_in config w op = Some (p, c) ↔
  ∃ r, operation_row config (iw_operations w) op = Some r ∧ row_plan_id r = p ∧ row_checkpoint r = c.
Proof. unfold checkpoint_in. rewrite fmap_Some. naive_solver. Qed.

(** Replacing the operations: what stays justified. *)
Lemma set_ops_good w ops : good ghost plan w → NoDup (map row_id ops) →
  (∀ op p c, checkpoint_in config w op = Some (p, c) →
     ∃ c', checkpoint_in config (set_ops ops w) op = Some (p, c') ∧ cp_index c ≤ cp_index c') →
  (∀ op c, checkpoint_in config (set_ops ops w) op = Some (plan_planId plan, c) →
     checkpoint_in config w op = Some (plan_planId plan, c) ∨ earned ghost plan op c w) →
  good ghost plan (set_ops ops w) ∧ later ghost w (set_ops ops w).
Proof.
  intros [[Hs Hn] Hj] Hnd Hf Hb.
  assert (Hl : later ghost w (set_ops ops w)).
  { apply grown_later; [|done]. by apply (mkGrown w (set_ops ops w)); [apply kept_refl|..]. }
  split; [|done]. split; [by split|]. intros op c Hc. eapply earned_stable; [exact Hl|].
  destruct (Hb op c Hc) as [Ho|He]; [by apply Hj|done].
Qed.

Lemma hoare_of {A} (m : IM A) P Q :
  (∀ w, good ghost plan w → P w → let '(r, w') := m w in
     match r with
     | Ok a => good ghost plan w' ∧ later ghost w w' ∧ Q a w'
     | Err _ => w' = w
     end) → hoare ghost plan P m Q.
Proof.
  intros Hm w r w' Hg HP E. specialize (Hm w Hg HP). rewrite E in Hm. destruct r as [a|e].
  - destruct Hm as (Hg' & Hl & HQ). split_and!; [done|done|]. by intros b [= <-].
  - subst w'. split_and!; [done|reflexivity|done].
Qed.

(** An operation of the plan, found by its row. *)
Lemma row_reached w r : world_ok w → r ∈ iw_operations w → row_workspace_id r = config_workspaceId config →
  row_plan_id r = plan_planId plan → reached ghost plan (row_id r) (row_checkpoint r) w.
Proof.
  intros Hw Hr Hws Hp. exists (row_checkpoint r). split; [|done]. cbn. unfold checkpoint_in.
  rewrite (proj2 (operation_row_spec w (row_id r) r Hw)); [cbn; by rewrite Hp|done].
Qed.

(** A new operation is authorised and nothing more. *)
Lemma add_operation_hoare row : row_checkpoint row = ImportExecutor.authorised →
  hoare ghost plan (λ w, row_id row ∉ map row_id (iw_operations w))
    (modify (λ w, set_ops (iw_operations w ++ [row]) w)) (λ _ _, True).
Proof.
  intros Hc. apply hoare_of. intros w Hg Hnew.
  destruct (set_ops_good w (iw_operations w ++ [row]) Hg) as [Hg' Hl]; [..|by split_and!].
  - rewrite map_app. apply NoDup_app. split_and!; [apply Hg| |apply NoDup_singleton].
    by intros x Hx ->%list_elem_of_singleton.
  - intros op p c (r & Hr & <- & <-)%checkpoint_in_Some. exists (row_checkpoint r). split; [|done].
    apply checkpoint_in_Some. exists r. split; [by apply find_app_Some|done].
  - intros op c (r & Hr & Hp & <-)%checkpoint_in_Some. cbn in Hr. unfold operation_row in Hr. rewrite find_app in Hr.
    destruct (List.find _ (iw_operations w)) as [r'|] eqn:Ef.
    + left. apply checkpoint_in_Some. exists r. by simplify_eq.
    + right. cbn in Hr. case_match; simplify_eq. rewrite Hc. split_and!; cbn; lia.
Qed.

Lemma pg_begin_hoare exportId by_ at_ : hoare ghost plan (λ _, True) (pg_begin config (plan_planId plan) exportId by_ at_)
  (λ o w, operation_planId o = plan_planId plan ∧ reached ghost plan (operation_id o) (operation_checkpoint o) w).
Proof.
  unfold pg_begin. destruct (config_request config) as [request|]; [|apply hoare_throw].
  apply hoare_transaction. eapply hoare_bind; [apply hoare_gets|intros conflict].
  eapply hoare_bind with (R := λ _ _, True).
  { destruct conflict; [by apply hoare_return|].
    eapply hoare_bind; [apply hoare_gets|intros refused]. eapply hoare_bind; [apply hoare_throw_when|intros u].
    eapply hoare_conseq; [by apply add_operation_hoare| |done].
    intros w _ (_ & Hno & _) Hin. cbn in Hin. symmetry in Hno.
    apply list_elem_of_fmap in Hin as (r & Hid & Hr). apply list_elem_of_In in Hr.
    revert Hno. apply not_false_iff_true. apply existsb_exists. exists r. split; [done|]. rewrite <-Hid. by rewrite strict_eq_refl. }
  intros u. eapply hoare_bind; [apply hoare_gets|intros found].
  eapply hoare_bind with (R := λ r w, r ∈ iw_operations w ∧ row_workspace_id r = config_workspaceId config).
  { apply hoare_lift_Ok. intros r Hr w _ [Hf _]. destruct found as [r'|]; [|done]. injection Hr as ->. symmetry in Hf.
    assert (Hin : r ∈ List.filter (λ r, (row_workspace_id r === config_workspaceId config) &&
      (same_plan (plan_planId plan) r || same_request (identity_principalType request) by_ (identity_idempotencyKey request) r))
      (iw_operations w)).
    { apply list_elem_of_In. case_match eqn:E1; [simplify_eq; by apply List.find_some in E1 as [? _]|by apply List.find_some in Hf as [? _]]. }
    apply list_elem_of_In, List.filter_In in Hin as [Hin Hp]. to_prop. by rewrite list_elem_of_In. }
  intros r. eapply hoare_bind with
    (R := λ _ w, row_plan_id r = plan_planId plan ∧ r ∈ iw_operations w ∧ row_workspace_id r = config_workspaceId config).
  { apply hoare_lift_Ok. intros [] Hb%throw_if_Ok w _ Hw. to_prop. done. }
  intros v. eapply hoare_bind with
    (R := λ o w, operation_planId o = plan_planId plan ∧ reached ghost plan (operation_id o) (operation_checkpoint o) w).
  { apply hoare_lift_Ok. intros o Ho w Hg (Hp & Hin & Hws). apply mapOperation_Ok in Ho as (-> & -> & ->).
    split; [done|]. apply row_reached; [apply Hg|done..]. }
  intros o. apply hoare_return. by cbn.
Qed.

Lemma next_index c next : nextImportCheckpoint c = Some next → cp_index next = S (cp_index c).
Proof. by destruct c; intros [= <-]. Qed.
Lemma index_lt c c' : cp_index c ≤ cp_index c' → c' ≠ c → cp_index c < cp_index c'.
Proof. destruct c, c'; cbn; intros; try lia; done. Qed.

(** The update of [advance], on the operations. *)
Abbreviation shift op expected next at_ :=
  (λ r, if at_checkpoint config op (plan_planId plan) expected r then moved next at_ r else r).
Lemma shift_row (w : World) op expected next at_ op' :
  operation_row config (map (shift op expected next at_) (iw_operations w)) op' =
  shift op expected next at_ <$> operation_row config (iw_operations w) op'.
Proof. apply (find_map_inv (λ r, (row_id r === op') && _)). intros r. by destruct (at_checkpoint _ _ _ _ r). Qed.

Lemma shift_good w op expected next at_ : nextImportCheckpoint expected = Some next →
  good ghost plan w → earned ghost plan op next w →
  let w' := set_ops (map (shift op expected next at_) (iw_operations w)) w in good ghost plan w' ∧ later ghost w w'.
Proof.
  intros Hn Hg He. apply set_ops_good; [done|..].
  - rewrite map_map. erewrite map_ext; [apply Hg|]. intros r. by destruct (at_checkpoint _ _ _ _ r).
  - intros op' p c (r & Hr & <- & <-)%checkpoint_in_Some. exists (row_checkpoint (shift op expected next at_ r)). split.
    + apply checkpoint_in_Some. cbn [iw_operations set_ops]. rewrite shift_row, Hr. eexists. split; [done|]. by destruct (at_checkpoint _ _ _ _ r).
    + unfold at_checkpoint. destruct (of_plan _ _ _ r), (decide (row_checkpoint r = expected)) as [<-|Hne]; cbn; try lia.
      * rewrite strict_eq_refl. cbn. apply next_index in Hn. lia.
      * by rewrite (bool_decide_eq_false_2 _ Hne).
  - intros op' c (r & Hr & Hp & Hc)%checkpoint_in_Some. cbn [iw_operations set_ops] in Hr. rewrite shift_row in Hr.
    apply fmap_Some in Hr as (r0 & Hr0 & ->). destruct (at_checkpoint _ _ _ _ r0) eqn:Hm.
    + right. unfold at_checkpoint, of_plan in Hm. to_prop. apply operation_row_spec in Hr0 as (_ & Hid & _); [|apply Hg].
      cbn in Hc. by subst.
    + left. apply checkpoint_in_Some. eauto.
Qed.

Lemma pg_advance_hoare op expected next at_ : nextImportCheckpoint expected = Some next →
  hoare ghost plan (λ w, reached ghost plan op expected w ∧ earned ghost plan op next w)
    (pg_advance config op (plan_planId plan) expected next at_)
    (λ o w, operation_id o = op ∧ operation_planId o = plan_planId plan ∧
            cp_index expected < cp_index (operation_checkpoint o) ∧ reached ghost plan op (operation_checkpoint o) w).
Proof.
  intros Hn. unfold pg_advance. eapply hoare_bind; [apply hoare_throw_when|intros u].
  apply hoare_of. intros w Hg [(c & Hc & Hle) He]. apply checkpoint_in_Some in Hc as (r & Hr & Hp & <-).
  pose proof (proj1 Hg : world_ok w) as Hw. apply operation_row_spec in Hr as (Hin & Hid & Hws); [|done].
  assert (Hof : ∀ y, y ∈ iw_operations w → of_plan config op (plan_planId plan) y = true → y = r).
  { intros y Hy Hm. unfold of_plan in Hm. to_prop. eapply (index_unique row_id); [apply Hw|..]; try done. congruence. }
  assert (Hmr : of_plan config op (plan_planId plan) r = true) by (unfold of_plan; by rewrite Hid, Hws, Hp, !strict_eq_refl).
  unfold transaction. run. destruct (decide (row_checkpoint r = expected)) as [Hx|Hx].
  - rewrite (find_unique _ _ r); [|done|by unfold at_checkpoint; rewrite Hmr, Hx, strict_eq_refl|
      intros y Hy; unfold at_checkpoint; intros ?; to_prop; by apply Hof].
    run. unfold lift. destruct (mapOperation (moved next at_ r)) as [o|e] eqn:Ho; [|done].
    destruct (shift_good w op expected next at_ Hn Hg He) as [Hg' Hl]. apply mapOperation_Ok in Ho as (Hoi & Hop & Hoc).
    cbn in Hoi, Hop, Hoc. rewrite Hoi, Hop, Hoc. split_and!; [done|done|done|done|apply next_index in Hn; lia|].
    pose proof (row_reached _ (moved next at_ r) (proj1 Hg')) as Hre. cbn [moved row_id row_checkpoint] in Hre.
    rewrite Hid in Hre. apply Hre; [|done..]. cbn [iw_operations set_ops]. apply list_elem_of_fmap. exists r.
    split; [|done]. unfold at_checkpoint. by rewrite Hmr, Hx, strict_eq_refl.
  - destruct (List.find _ (iw_operations w)) as [y|] eqn:Ef.
    { apply List.find_some in Ef as [Hy Hm]. unfold at_checkpoint in Hm. to_prop. apply list_elem_of_In in Hy.
      by rewrite (Hof y) in *. }
    run. rewrite (find_unique _ _ r); [|done..]. cbn [requiredOperation]. run.
    unfold lift. destruct (mapOperation r) as [o|e] eqn:Ho; [|done]. apply mapOperation_Ok in Ho as (-> & -> & ->).
    split_and!; [done|reflexivity|done|done|by apply index_lt|]. rewrite <-Hid. by apply row_reached.
Qed.

#[local] Existing Instance pg_Runtime.
#[local] Instance store : ArchiveImportOperationStore World := pg_OperationStore config.
#[local] Instance target : ArchiveImportExecutionTarget World := pg_Target config.

#[global] Instance pg_ImportLaws : ImportLaws ghost plan.
Proof.
  split.
  - apply quiet_true, quiet_gets.
  - intros. apply quiet_true, quiet_ret.
  - apply pg_begin_hoare.
  - apply pg_advance_hoare.
  - apply quiet_true, pg_revalidate_quiet.
  - intros. apply quiet_true, pg_stageBlob_quiet.
  - intros. apply quiet_true, pg_verifyStagedBlob_quiet.
  - intros op sha. apply quiet_hoare; [apply pg_commitBlob_quiet|]. intros w [] w' Hg _. apply pg_commitBlob_done, Hg.
  - apply pg_commitMetadata_hoare.
  - apply pg_appendAudit_hoare.
Qed.
End Discharge.

(** ** An import into PostgreSQL *)

Section Theorems.
Context {F : Type} `{JsDate} `{Crypto} `{!ObjectStorage F} `{!ObjectStorageLaws F} `{!StorageDurable F} `{SqlSchema}.
Context (config : ImportConfig) (plan : ArchiveImportPlan) (archive : ParsedTrustArchive) (requestedBy : string).

(** [execute] over the store and the target of this file. *)
Definition pg_execute (fuel : nat) : M (ImportWorld F) import_exn (option ArchiveImportExecutionResult) :=
  @execute _ _ (pg_OperationStore config) (pg_Target config) _ archive plan requestedBy fuel.

Lemma pg_execute_good fuel w : good (pg_ghost config) plan w → good (pg_ghost config) plan (pg_execute fuel w).2.
Proof.
  intros Hg. destruct (pg_execute fuel w) as [r w'] eqn:E.
  by destruct (execute_hoare _ plan archive requestedBy fuel _ _ _ Hg I E) as (Hg' & _).
Qed.

(** C37. An import into PostgreSQL and the object storage, started or continued in
    a state whose checkpoints are justified, throws or completes.  When it
    completes, the bytes of every blob the plan inserts are stored under the
    workspace's canonical key of their digest; every record it inserts, of every
    kind but workspaces (whose records the code does not write), has a row in the
    table of its kind with its key: its identifier, for a blob the workspace and
    its digest, for an audit event the operation and the source event; the
    workspace's audit log holds the import's event, and the operation's row is at
    [completed].  Either way the checkpoints of the state left are justified. *)
Theorem postgres_import_completes w r w' :
  good (pg_ghost config) plan w → pg_execute 7 w = (r, w') →
  good (pg_ghost config) plan w' ∧
  ((∃ e, r = Err e) ∨
   ∃ res, r = Ok (Some res) ∧
     let op := operation_id (execution_operation res) in
     checkpoint_in config w' op = Some (plan_planId plan, ImportExecutor.completed) ∧
     (∀ a, a ∈ blobActions plan → ∃ key b m, canonicalObjectKey (config_workspaceId config) (action_sourceId a) = Ok key ∧
        stored (iw_storage w') key b m ∧ sha256 b = action_sourceId a) ∧
     (∀ a, a ∈ recordActions plan → recorded_in config w' op a) ∧
     audited_in config w' op).
Proof.
  intros Hg E. destruct (execute_hoare _ plan archive requestedBy 7 _ _ _ Hg I E) as (Hg' & _ & HQ).
  split; [done|]. destruct r as [[res|]|e]; [right|specialize (HQ _ eq_refl); cbn in HQ; lia|left; eauto].
  exists res. destruct (HQ _ eq_refl) as (_ & Hc & Hb & Hr & Ha). by split_and!.
Qed.
End Theorems.

(** ** Committing a blob twice *)

Section Retry.
Context `{JsDate} `{Crypto} `{SqlSchema} (config : ImportConfig) (plan : ArchiveImportPlan).
Abbreviation World := (ImportWorld MemoryObjectStorage).

(** The temporary object of a blob is gone. *)
Definition unstaged (op sha : string) (w : World) : Prop :=
  ∃ t, temporaryObjectKey (config_workspaceId config) (temporaryOperationId op sha) = Ok t ∧ mem_objects (iw_storage w) !! t = None.

Lemma temporary_run op sha w t : temporaryObjectKey (config_workspaceId config) (temporaryOperationId op sha) = Ok t →
  temporary config op sha w = (Ok t, w).
Proof.
  intros Ht. unfold temporary. run. unfold mbind, M_bind, on_storage.
  cbn [createTemporaryUpload memory_ObjectStorage]. unfold mem_createTemporaryUpload. run. rewrite Ht. by destruct w.
Qed.

Lemma unstaged_refused op sha w : unstaged op sha w →
  pg_commitBlob config op sha w = (Err (Storage (StorageError not_found)), w).
Proof.
  intros (t & Ht & Hno). unfold pg_commitBlob. unfold mbind at 1, M_bind at 1. rewrite (temporary_run _ _ _ _ Ht).
  unfold mbind, M_bind, on_storage. cbn [head memory_ObjectStorage]. unfold mem_head, mem_require. run.
  rewrite Hno. by destruct w.
Qed.

(** A commit removes its temporary object, and brings none back. *)
Lemma commit_unstages op sha w w' : mem_inv (iw_storage w) →
  pg_commitBlob config op sha w = (Ok tt, w') → unstaged op sha w' ∧ mem_inv (iw_storage w').
Proof.
  intros Hi (t & md & md' & Ht & _ & Hc)%pg_commitBlob_Ok; [|done].
  pose proof (commit_kept _ (mkCommit t (config_workspaceId config) sha (JInt (metadata_byteLength md)) (metadata_mediaType md)) Hi) as [Hi' _].
  rewrite Hc in Hi'. split; [|exact Hi']. exists t. split; [done|].
  apply mem_commitImmutable_Ok in Hc as (Htp & key & o & Hk & _ & _ & _ & _ & ->). cbn in *.
  rewrite lookup_insert_ne, lookup_delete_eq; [done|]. intros ->. apply canonical_not_temporary in Hk. congruence.
Qed.
Lemma commit_keeps_unstaged op sha op' sha' w w' : mem_inv (iw_storage w) → unstaged op sha w →
  pg_commitBlob config op' sha' w = (Ok tt, w') → unstaged op sha w'.
Proof.
  intros Hi (t & Ht & Hno) (t' & md & md' & Ht' & _ & Hc)%pg_commitBlob_Ok; [|done]. exists t. split; [done|].
  apply mem_commitImmutable_Ok in Hc as (Htp & key & o & Hk & _ & _ & _ & _ & ->). cbn in *.
  rewrite lookup_insert_ne; [by apply lookup_delete_None; right|]. intros ->.
  apply canonical_not_temporary in Hk. apply temporaryObjectKey_temporary in Ht. congruence.
Qed.

#[local] Instance retry_store : ArchiveImportOperationStore World := pg_OperationStore config.
#[local] Instance retry_target : ArchiveImportExecutionTarget World := pg_Target config.

Lemma commits_unstage op actions w w' : mem_inv (iw_storage w) →
  for_each (λ a, commitBlob op (action_sourceId a)) actions w = (Ok tt, w') →
  mem_inv (iw_storage w') ∧ (∀ sha, unstaged op sha w → unstaged op sha w') ∧
  ∀ a, a ∈ actions → unstaged op (action_sourceId a) w'.
Proof.
  revert w. induction actions as [|a actions IH]; intros w Hi HR; cbn [for_each] in HR.
  { injection HR as <-. split_and!; [done|done|]. by intros a ?%elem_of_nil. }
  apply M_bind_Ok in HR as ([] & w1 & Hc & HR). destruct (commit_unstages _ _ _ _ Hi Hc) as [Hu Hi1].
  destruct (IH w1 Hi1 HR) as (Hi' & Hk & Hall). split_and!; [done| |].
  - intros sha Hs. by apply Hk, (commit_keeps_unstaged _ _ op (action_sourceId a) w).
  - intros b [->|Hb]%elem_of_cons; auto.
Qed.

(** C38. An import that is interrupted after its blobs were committed and before
    its checkpoint moved can never be completed.  [commitBlob] reads the
    temporary object before it commits, and the commit removes that object; so
    with the checkpoint still at [staged_blobs_verified] and at least one blob,
    every later execution throws, and leaves the database and the storage as
    they are for the next one to throw on. *)
Theorem interrupted_commit_is_final archive requestedBy fuel o w0 w :
  mem_inv (iw_storage w0) → blobActions plan ≠ [] →
  commitBlobs (operation_id o) plan w0 = (Ok tt, w) →
  operation_checkpoint o = staged_blobs_verified →
  pg_begin config (plan_planId plan) (manifest_string (parsed_manifest archive) "exportId") requestedBy
    (toISOString (iw_clock w)) w = (Ok o, w) →
  ∃ e, pg_execute config plan archive requestedBy (S fuel) w = (Err e, w).
Proof.
  intros Hi Hne Hc Ho Hb. unfold pg_execute, execute. run.
  destruct (validateInput archive plan) as [[]|e]; [|by eexists]. run.
  exists (Storage (StorageError not_found)).
  erewrite bind_Ok_run by reflexivity. erewrite bind_Ok_run by exact Hb. rewrite Ho.
  erewrite bind_Ok_run by reflexivity. apply bind_Err_run. cbn [import_loop].
  rewrite Ho, (bool_decide_eq_false_2 (staged_blobs_verified = ImportExecutor.completed)) by done. apply bind_Err_run.
  unfold import_step. rewrite Ho. apply bind_Err_run. unfold commitBlobs in *.
  destruct (commits_unstage _ _ _ _ Hi Hc) as (_ & _ & Hall). destruct (blobActions plan) as [|a actions]; [done|].
  apply bind_Err_run, unstaged_refused, Hall. by left.
Qed.
End Retry.

(** ** Witnesses *)

Module ImportWitness.
#[export] Instance open_schema : SqlSchema := {|
  operation_refused := λ _ _, false;
  insert_refused := λ _ _, false;
  audit_refused := λ _ _, false;
  commit_refused := λ _, false;
  driver_value := λ _ _ v, match v with
                           | SNull => JNull | SText s => JString s | SInt n => JNumber n | SBool b => JBool b
                           | STexts l => JArray (map JString l)
                           end;
|}.

Definition body : string := "bytes".
Definition digest : string := sha256 body.
Definition blob_record : MappedRecord :=
  [("id", Some (JString "b1")); ("sha256", Some (JString digest)); ("byteLength", Some (JNumber 5));
   ("mediaType", Some (JString "text/plain")); ("createdAt", Some (JString "2024-01-01T00:00:00.000Z"))].
Definition actions : list ArchiveImportAction :=
  [mkAction 0 50 BlobBytes digest digest Insert None [];
   mkAction 1 60 (RecordKind blobs) "b1" "b1" Insert (Some blob_record) []].
Definition manifest : json := PlanWitness.manifest.
Definition plan : ArchiveImportPlan :=
  let planId := match calculateArchiveImportPlanId manifest "w1" "w1" preserve_ids reject_on_error actions with
                | Ok i => i | Err _ => "" end in
  mkPlan planId "x1" "w1" "w1" preserve_ids reject_on_error Ready [] actions 2 0 0.
Definition archive : ParsedTrustArchive :=
  mkParsed [(match blobArchivePath digest with Ok p => p | Err _ => "" end, body)] manifest (mkReport true 2 [] (Some manifest) []).
Definition config : ImportConfig := mkConfig "w1" (Some (mkIdentity "user" "key-1" "print-1")) "memory".
Definition start : ImportWorld MemoryObjectStorage := mkImportWorld [] ∅ [] (mem_init false) 1000.

Definition completes (r : result import_exn (option ArchiveImportExecutionResult)) : bool :=
  match r with Ok (Some _) => true | _ => false end.

Lemma start_good : good (pg_ghost config) plan start.
Proof. split; [split; [apply mem_inv_init|apply NoDup_nil_2]|]. intros op c [=]. Qed.

#[local] Instance store : ArchiveImportOperationStore (ImportWorld MemoryObjectStorage) := pg_OperationStore config.
#[local] Instance target : ArchiveImportExecutionTarget (ImportWorld MemoryObjectStorage) := pg_Target config.

Lemma import_effects_before_checkpoints_witness :
  completes (execute archive plan "alice" 7 start).1 = true ∧
  blob_in config (execute archive plan "alice" 7 start).2 digest.
Proof.
  assert (Hr : completes (execute archive plan "alice" 7 start).1 = true) by (vm_compute; reflexivity).
  split; [exact Hr|]. destruct (execute archive plan "alice" 7 start) as [r w'] eqn:E.
  destruct (import_effects_before_checkpoints (pg_ghost config) plan archive "alice" 7 start r w' start_good E) as (_ & _ & HQ).
  destruct r as [[res|]|e]; try discriminate Hr.
  destruct (HQ res eq_refl) as (_ & _ & Hb & _). apply (Hb (mkAction 0 50 BlobBytes digest digest Insert None [])).
  apply list_elem_of_In. vm_compute. by left.
Defined.

Lemma import_terminates_witness : (execute archive plan "alice" 7 start).1 ≠ Ok None.
Proof. apply (import_terminates (pg_ghost config) plan archive "alice" 7 start); [apply start_good|lia]. Defined.

Lemma postgres_import_completes_witness :
  completes (pg_execute config plan archive "alice" 7 start).1 = true ∧
  good (pg_ghost config) plan (pg_execute config plan archive "alice" 7 start).2.
Proof.
  split; [vm_compute; reflexivity|].
  destruct (pg_execute config plan archive "alice" 7 start) as [r w'] eqn:E.
  exact (proj1 (postgres_import_completes config plan archive "alice" start r w' start_good E)).
Defined.

(** The state an execution leaves when it is stopped after its third
    checkpoint, the operation a retry finds, and the state when it is stopped
    again with the blobs committed. *)
Definition staged : ImportWorld MemoryObjectStorage := (pg_execute config plan archive "alice" 3 start).2.
Lemma staged_good : good (pg_ghost config) plan staged.
Proof. exact (pg_execute_good config plan archive "alice" 3 start start_good). Qed.
Definition committed : ImportWorld MemoryObjectStorage := (commitBlobs (deterministicUuid ("archive-import:w1:" +:+ plan_planId plan)) plan staged).2.
Definition found : result import_exn ArchiveImportOperation :=
  (pg_begin config (plan_planId plan) "x1" "alice" (toISOString (iw_clock committed)) committed).1.
Definition operation_of (r : result import_exn ArchiveImportOperation) : ArchiveImportOperation :=
  match r with Ok o => o | Err _ => ImportExecutor.mkOperation "" "" "" "" ImportExecutor.completed None "" "" None end.
Definition operation : ArchiveImportOperation := operation_of found.

Lemma interrupted_commit_is_final_witness :
  operation_checkpoint operation = staged_blobs_verified ∧
  ∃ e, pg_execute config plan archive "alice" 7 committed = (Err e, committed).
Proof.
  split; [vm_compute; reflexivity|].
  apply (interrupted_commit_is_final config plan archive "alice" 6 operation staged committed).
  - apply staged_good.
  - vm_compute. discriminate.
  - vm_compute. reflexivity.
  - vm_compute. reflexivity.
  - vm_compute. reflexivity.
Defined.
End ImportWitness.
