(* ===== verification/Access.v ===== *)
(** * Access to the API

    [apps/trust-api/src/access.ts]: the gateways that authenticate a caller
    (bearer token, administrator session) and ask the policy engine whether an
    action is allowed; and [secured] of [app.ts], through which every command of
    the API runs.

    A gateway's state is its sessions, the log of break-glass uses it recorded
    and the two clocks it reads; the policy data source, the OIDC service and the
    commands are arguments.  [AccessGateway] is the interface [secured] relies on,
    with the two gateways as instances.

    The theorems: a command runs only for a caller that was authenticated,
    allowed, confirmed where that is required and whose body is valid, and a
    refused request never touches the command; an application acts within its
    own registration; every use of a break-glass grant is on record before it
    has effect; and a session is honoured only between its creation and its
    expiry or revocation. *)
From S2P Require Import Prelude Js Concrete Json Archive Policy.

(** ** Data *)

(** Source: packages/protocol/src/index.ts:121-129 AuthenticatedActor *)
Record AuthenticatedActor := mkActor {
  actor_id : string;
  actor_displayName : string;
  actor_principalType : option PrincipalType;
  actor_roles : list string;
  actor_workspaceIds : list string;
}.
#[global] Instance AuthenticatedActor_eq_dec : EqDecision AuthenticatedActor.
Proof. solve_decision. Defined.

(** Source: apps/trust-api/src/app.ts:275-278 AuthorizationScope *)
Record AuthorizationScope := mkAuthScope {
  auth_workspaceId : string;
  auth_datasetId : option string;
  auth_applicationId : option string;
  auth_requestId : option string;
  auth_applicationScopeAllowed : option bool;
}.

(** What is thrown: an [ApiRouteError], or any other error with its [code], and
    its message when it is an [Error]. *)
Inductive api_exn : Type :=
  | ApiRouteError (status : Z) (code message : string)
  | OtherThrown (code message : option string).

(** The argument of [recordBreakGlassUse]. *)
Record BreakGlassUse := mkUse {
  use_workspaceId : string;
  use_principalId : string;
  use_grantId : string;
  use_action : PolicyAction;
  use_reason : string;
  use_requestId : option string;
  use_occurredAt : string;
}.
#[global] Instance BreakGlassUse_eq_dec : EqDecision BreakGlassUse.
Proof. solve_decision. Defined.

(** A source's answers; a call may throw.  A use that is recorded is added to
    the log of the gateway's state. *)
(** Source: apps/trust-api/src/access.ts:14-36 PolicyDataSource *)
Record PolicyDataSource := mkPolicies {
  listApplications : string → result api_exn (list RegisteredApplication);
  listPolicyAssignments : string → string → result api_exn (list ScopedPolicyAssignment);
  listActiveBreakGlassGrants : string → string → string → result api_exn (list ActiveBreakGlassGrant);
  recordBreakGlassUse : option (BreakGlassUse → result api_exn unit);
}.

(** Source: apps/trust-api/src/access.ts:154-158 StoredSession *)
Record StoredSession := mkSession {
  session_actor : AuthenticatedActor;
  session_csrfToken : string;
  session_expiresAt : Z;
}.

(** The state of a gateway: its sessions, the uses recorded through it, the
    injected clock and [Date.now]. *)
Record Gateway := mkGateway {
  gateway_sessions : list (string * StoredSession);
  gateway_uses : list BreakGlassUse;
  gateway_clock : Z;
  gateway_now : Z;
}.
Definition set_sessions (f : list (string * StoredSession) → list (string * StoredSession)) (g : Gateway) : Gateway :=
  mkGateway (f (gateway_sessions g)) (gateway_uses g) (gateway_clock g) (gateway_now g).
Definition add_use (u : BreakGlassUse) (g : Gateway) : Gateway :=
  mkGateway (gateway_sessions g) (gateway_uses g ++ [u]) (gateway_clock g) (gateway_now g).

Abbreviation G := (M Gateway api_exn).

(** Source: apps/trust-api/src/access.ts:241-246 actorPrincipalType *)
Definition actorPrincipalType (actor : AuthenticatedActor) : PrincipalType :=
  default principal_user (actor_principalType actor).

(** The scope is a workspace or has one, which is the argument here. *)
(** Source: apps/trust-api/src/app.ts:297-313 roleAllows *)
Definition roleAllows `{JsDate} (now : string) (actor : AuthenticatedActor) (action : PolicyAction) (workspaceId : string) : bool :=
  allowed (evaluatePolicy now
    (mkPolicyInput (mkPrincipal (actor_id actor) principal_user (actor_roles actor) (actor_workspaceIds actor))
       action (mkScope workspaceId None None) [] [] [] None)).

(** [Buffer.from(a)] and [Buffer.from(b)] have the same bytes. *)
Definition same_bytes `{TextCodec} (a b : string) : bool := encode a === encode b.

(** Source: apps/trust-api/src/access.ts:232-240 csrfTokenMatches *)
Definition csrfTokenMatches `{TextCodec} (actual : string) (supplied : option string) : bool :=
  match supplied with
  | Some s => truthy supplied && same_bytes actual s
  | None => false
  end.

(** ** The gateway with a static token *)

(** Source: apps/trust-api/src/access.ts:38-44 StaticTokenAccessGateway *)
Record StaticTokenAccessGateway := mkStatic {
  static_token : option string;
  static_actor : AuthenticatedActor;
  static_policies : option PolicyDataSource;
}.

Section Static.
Context `{JsDate} `{TextCodec}.
Context (this : StaticTokenAccessGateway).

(** Source: apps/trust-api/src/access.ts:45-55 authenticate *)
Definition static_authenticate (candidate : string) : option AuthenticatedActor :=
  match static_token this with
  | Some token => if truthy (Some token) && same_bytes token candidate then Some (static_actor this) else None
  | None => None
  end.

(** [a ? { key: a } : {}] for an optional string *)
Definition given (s : option string) : option string := if truthy s then s else None.

(** What the policy data source answers, three empty lists without one. *)
Definition policy_data (workspaceId principalId at_ : string) :
    result api_exn (list ScopedPolicyAssignment * list RegisteredApplication * list ActiveBreakGlassGrant) :=
  match static_policies this with
  | None => mret ([], [], [])
  | Some policies =>
      listPolicyAssignments policies workspaceId principalId ≫= λ assignments,
      listApplications policies workspaceId ≫= λ applications,
      listActiveBreakGlassGrants policies workspaceId at_ principalId ≫= λ grants,
      mret (assignments, applications, grants)
  end.

(** The registration of an application principal. *)
Definition own_application (actor : AuthenticatedActor) (scope : AuthorizationScope)
    (applications : list RegisteredApplication) : option RegisteredApplication :=
  if actorPrincipalType actor === principal_application then
    List.find (λ candidate,
      (application_workspaceId candidate === auth_workspaceId scope) &&
      (application_status candidate === app_active) &&
      ((application_id candidate === actor_id actor) || (application_namespace candidate === actor_id actor))) applications
  else None.

(** The three refusals of an application principal. *)
Definition application_refused (actor : AuthenticatedActor) (scope : AuthorizationScope)
    (application : option RegisteredApplication) : bool :=
  (actorPrincipalType actor === principal_application) &&
  (bool_decide (application = None) || (auth_applicationScopeAllowed scope !== Some true) ||
   (bool_decide (is_Some (auth_applicationId scope)) && (auth_applicationId scope !== application_id <$> application))).

(** Source: apps/trust-api/src/access.ts:94-103 allows *)
Definition effectiveScope (actor : AuthenticatedActor) (scope : AuthorizationScope)
    (application : option RegisteredApplication) : PolicyScope :=
  mkScope (auth_workspaceId scope) (given (auth_datasetId scope))
    (if (actorPrincipalType actor === principal_application) && (auth_applicationScopeAllowed scope === Some true)
     then application_id <$> application else None).

Definition policy_input (actor : AuthenticatedActor) (action : PolicyAction) (scope : AuthorizationScope)
    (data : list ScopedPolicyAssignment * list RegisteredApplication * list ActiveBreakGlassGrant) (at_ : string) :
    PolicyEvaluationInput :=
  let '(assignments, applications, grants) := data in
  mkPolicyInput (mkPrincipal (actor_id actor) (actorPrincipalType actor) (actor_roles actor) (actor_workspaceIds actor))
    action (effectiveScope actor scope (own_application actor scope applications)) assignments applications grants (Some at_).

(** Source: apps/trust-api/src/access.ts:119-134 allows *)
Definition record_use (actor : AuthenticatedActor) (action : PolicyAction) (scope : AuthorizationScope) (at_ : string)
    (decision : PolicyDecision) : G unit :=
  match decision, static_policies this ≫= recordBreakGlassUse with
  | Allowed_break_glass grantId reason, Some record =>
      let use := mkUse (auth_workspaceId scope) (actor_id actor) grantId action reason (given (auth_requestId scope)) at_ in
      lift (record use) ≫= λ _, modify (add_use use)
  | _, _ => mret tt
  end.

(** Source: apps/trust-api/src/access.ts:56-135 allows *)
Definition static_allows (actor : AuthenticatedActor) (action : PolicyAction) (scope : AuthorizationScope) : G bool :=
  gets (λ g, toISOString (gateway_clock g)) ≫= λ at_,
  lift (policy_data (auth_workspaceId scope) (actor_id actor) at_) ≫= λ data,
  let application := own_application actor scope data.1.2 in
  if application_refused actor scope application then mret false
  else
    let decision := evaluatePolicy at_ (policy_input actor action scope data at_) in
    record_use actor action scope at_ decision ≫= λ _,
    mret (allowed decision).

(** Source: apps/trust-api/src/access.ts:136-146 confirmsPrivilegedAction *)
Definition confirms (actor : AuthenticatedActor) (proof : option string)
    (authenticateForReauthentication : string → option AuthenticatedActor) : bool :=
  match proof with
  | Some p =>
      truthy proof &&
      match authenticateForReauthentication p with
      | Some confirmed => (actor_id confirmed === actor_id actor) && (actorPrincipalType confirmed === actorPrincipalType actor)
      | None => false
      end
  | None => false
  end.
End Static.

(** ** The gateway with administrator sessions *)

(** What is used of the OIDC service: its sessions. *)
Record OidcSessions := mkOidc {
  oidc_authenticateSession : string → option string → bool → result api_exn (option AuthenticatedActor);
  oidc_revokeSession : string → result api_exn unit;
}.

(** Source: apps/trust-api/src/access.ts:159-173 AdminSessionGateway *)
Record AdminSessionGateway := mkAdmin {
  admin_static : StaticTokenAccessGateway;
  admin_lifetimeMs : Z;
  admin_oidc : option OidcSessions;
  admin_allowBootstrapBearer : bool;
}.
Definition bootstrapActor (this : AdminSessionGateway) : AuthenticatedActor := static_actor (admin_static this).

Section Admin.
Context `{JsDate} `{TextCodec}.
Context (this : AdminSessionGateway).

(** Source: apps/trust-api/src/access.ts:174-180 authenticate *)
Definition admin_authenticate (candidate : string) : option AuthenticatedActor :=
  if admin_allowBootstrapBearer this then static_authenticate (admin_static this) candidate else None.

(** Source: apps/trust-api/src/access.ts:181-185 authenticateForReauthentication *)
Definition authenticateForReauthentication (proof : string) : option AuthenticatedActor :=
  static_authenticate (admin_static this) proof.

(** Source: apps/trust-api/src/access.ts:226-230 prune *)
Definition prune (now : Z) (sessions : list (string * StoredSession)) : list (string * StoredSession) :=
  List.filter (λ e, negb (Z.leb (session_expiresAt e.2) now)) sessions.

(** The random identifiers are arguments; the session is returned with its
    token and its expiry. *)
(** Source: apps/trust-api/src/access.ts:186-207 createSession *)
Definition createSession (sessionId csrfToken candidate : string) : G (option (string * StoredSession)) :=
  match static_authenticate (admin_static this) candidate with
  | None => mret None
  | Some _ =>
      gets gateway_now ≫= λ now,
      modify (set_sessions (prune now)) ≫= λ _,
      let session := mkSession (bootstrapActor this) csrfToken (now + admin_lifetimeMs this)%Z in
      modify (set_sessions (map_set sessionId session)) ≫= λ _,
      mret (Some (sessionId, session))
  end.

(** Source: apps/trust-api/src/access.ts:208-221 authenticateSession *)
Definition authenticateSession (sessionId : string) (csrfToken : option string) (mutation : bool) :
    G (option AuthenticatedActor) :=
  gets gateway_now ≫= λ now,
  modify (set_sessions (prune now)) ≫= λ _,
  gets gateway_sessions ≫= λ sessions,
  let local := match map_get sessionId sessions with
               | Some session =>
                   if negb mutation || csrfTokenMatches (session_csrfToken session) csrfToken
                   then Some (session_actor session) else None
               | None => None
               end in
  match local with
  | Some actor => mret (Some actor)
  | None => match admin_oidc this with
            | Some oidc => lift (oidc_authenticateSession oidc sessionId csrfToken mutation)
            | None => mret None
            end
  end.

(** Source: apps/trust-api/src/access.ts:222-225 revoke *)
Definition revoke (sessionId : string) : G unit :=
  modify (set_sessions (List.filter (λ e, e.1 !== sessionId))) ≫= λ _,
  match admin_oidc this with
  | Some oidc => lift (oidc_revokeSession oidc sessionId)
  | None => mret tt
  end.
End Admin.

(** ** The interface of a gateway *)

(** Source: apps/trust-api/src/app.ts:279-295 AccessGateway *)
Class AccessGateway (S : Type) := {
  access_authenticate : string → M S api_exn (option AuthenticatedActor);
  access_authenticateSession : option (string → option string → bool → M S api_exn (option AuthenticatedActor));
  access_allows : AuthenticatedActor → PolicyAction → AuthorizationScope → M S api_exn bool;
  access_confirms : option (AuthenticatedActor → option string → M S api_exn bool);
}.

(** A call of the gateway within the state of the whole API. *)
Definition on_gateway {C A} (m : G A) : M (Gateway * C) api_exn A :=
  λ s, let '(r, g) := m s.1 in (r, (g, s.2)).

Definition static_gateway `{JsDate} `{TextCodec} {C} (this : StaticTokenAccessGateway) : AccessGateway (Gateway * C) := {|
  access_authenticate candidate := mret (static_authenticate this candidate);
  access_authenticateSession := None;
  access_allows actor action scope := on_gateway (static_allows this actor action scope);
  access_confirms := Some (λ actor proof, mret (confirms actor proof (static_authenticate this)));
|}.
Definition admin_gateway `{JsDate} `{TextCodec} {C} (this : AdminSessionGateway) : AccessGateway (Gateway * C) := {|
  access_authenticate candidate := mret (admin_authenticate this candidate);
  access_authenticateSession := Some (λ sessionId csrf mutation, on_gateway (authenticateSession this sessionId csrf mutation));
  access_allows actor action scope := on_gateway (static_allows (admin_static this) actor action scope);
  access_confirms := Some (λ actor proof, mret (confirms actor proof (authenticateForReauthentication this)));
|}.

(** ** Requests *)

(** Source: apps/trust-api/src/app.ts:77-81 ApiRequest *)
Record ApiRequest := mkRequest {
  request_headers : list (string * string);
  request_body : option json;
  request_query : list (string * string);
}.
(** Source: apps/trust-api/src/app.ts:72-76 ApiResult *)
Record ApiResult := mkApiResult {
  result_status : json;
  result_body : option json;
  result_headers : option json;
}.

Definition header (request : ApiRequest) (name : string) : option string := map_get name (request_headers request).

(** Source: apps/trust-api/src/app.ts:1710-1712 nonEmpty *)
Definition nonEmpty (value : option json) : option string :=
  match value with Some (JString s) => if blank s then None else Some s | _ => None end.
(** Source: apps/trust-api/src/app.ts:1672-1675 bodyWorkspace *)
Definition bodyWorkspace (body : option json) : option string :=
  match body with Some (JObject l) => nonEmpty (obj_get l "workspaceId") | _ => None end.

(** Source: apps/trust-api/src/app.ts:1698-1706 cookieValue *)
Definition cookieValue (header : option string) (name : string) : option string :=
  header ≫= λ h,
  List.find (λ parts, head parts === Some name) (map (λ item, split "=" (trim item)) (split ";" h)) ≫= λ parts,
  parts !! 1.

(** Source: apps/trust-api/src/app.ts:2012-2025 failure *)
Definition failure (status : Z) (code message : string) (request : ApiRequest) : ApiResult :=
  mkApiResult (JNumber status) (Some (JObject (
    [("code", JString code); ("message", JString message)] ++
    match given (header request "x-request-id") with Some id => [("requestId", JString id)] | None => [] end)%list)) None.

(** [Partial<AuthorizationScope>], and its spread over a scope. *)
Record PartialScope := mkPartial {
  partial_workspaceId : option string;
  partial_datasetId : option string;
  partial_applicationId : option string;
  partial_requestId : option string;
  partial_applicationScopeAllowed : option bool;
}.
Definition no_scope : PartialScope := mkPartial None None None None None.
Definition over {A} (a b : option A) : option A := match a with Some _ => a | None => b end.

(** Source: apps/trust-api/src/app.ts:1676-1685 requestScope *)
Definition requestScope (workspaceId : string) (request : ApiRequest) : AuthorizationScope :=
  mkAuthScope workspaceId None None (given (header request "x-request-id")) None.
Definition extend_scope (scope : AuthorizationScope) (p : PartialScope) : AuthorizationScope :=
  mkAuthScope (default (auth_workspaceId scope) (partial_workspaceId p))
    (over (partial_datasetId p) (auth_datasetId scope)) (over (partial_applicationId p) (auth_applicationId scope))
    (over (partial_requestId p) (auth_requestId scope))
    (over (partial_applicationScopeAllowed p) (auth_applicationScopeAllowed scope)).

(** Source: apps/trust-api/src/app.ts:1643-1649 isApiResult *)
Definition isApiResult (value : option json) : option ApiResult :=
  match value with
  | Some (JObject l) =>
      match obj_get l "status", obj_get l "body" with
      | Some (JNumber n), Some body => Some (mkApiResult (JNumber n) (Some body) (obj_get l "headers"))
      | _, _ => None
      end
  | _ => None
  end.

(** The status, the code of the answer and its message for an error of a
    command; the message of a rejected command is the error's own. *)
(** Source: apps/trust-api/src/app.ts:1538-1641 secured *)
Definition error_answer (e : api_exn) (request : ApiRequest) : ApiResult :=
  match e with
  | ApiRouteError status code message => failure status code message request
  | OtherThrown code message =>
      let coded c := code === Some c in
      if coded "BASE_REVISION_CONFLICT" then
        failure 409 "REVISION_CONFLICT" "The resource head changed before this command could be applied." request
      else if coded "IDEMPOTENCY_CONFLICT" then
        failure 409 "IDEMPOTENCY_CONFLICT" "The idempotency key was already used for a different request." request
      else if coded "RETENTION_POLICY_NOT_FOUND" then
        failure 404 "RETENTION_POLICY_NOT_FOUND" "The requested retention policy was not found." request
      else if coded "POLICY_ASSIGNMENT_NOT_FOUND" then
        failure 404 "POLICY_ASSIGNMENT_NOT_FOUND" "The requested policy assignment was not found." request
      else if coded "RETENTION_POLICY_CONFLICT" then
        failure 409 "RETENTION_POLICY_CONFLICT" "The retention policy changed before this update." request
      else if coded "CONFLICT" then
        failure 409 "CONFLICT" "The resource changed before this command could be applied." request
      else if coded "RESOURCE_NOT_FOUND" then
        failure 404 "RESOURCE_NOT_FOUND" "The requested resource was not found." request
      else if coded "COMMAND_REJECTED" then
        failure 422 "COMMAND_REJECTED" (default "The command was rejected." message) request
      else if coded "INVALID_COMMAND" then
        failure 400 "INVALID_COMMAND" "The request body is not valid for this command." request
      else if coded "REQUEST_TOO_LARGE" then
        failure 413 "REQUEST_TOO_LARGE" "The request body exceeds the allowed size." request
      else if coded "OPERATION_NOT_FOUND" then
        failure 404 "OPERATION_NOT_FOUND" "The requested operation was not found." request
      else if coded "ARCHIVE_NOT_FOUND" then
        failure 404 "ARCHIVE_NOT_FOUND" "Archive candidate was not found." request
      else if coded "IMPORT_PLAN_NOT_FOUND" then
        failure 404 "IMPORT_PLAN_NOT_FOUND" "Import plan was not found." request
      else failure 422 "COMMAND_REJECTED" "The command was rejected." request
  end.

Section Secured.
Context {S : Type}.

(** A route: what it needs of the caller, and the command it runs. *)
Record Route := mkRoute {
  route_action : PolicyAction;
  route_execute : string → AuthenticatedActor → M S api_exn (option json);
  route_validate : option (option json → bool);
  route_extraScope : string → M S api_exn PartialScope;
  route_requiresReauthentication : bool;
}.

(** Source: apps/trust-api/src/app.ts:1478-1486 secured *)
Definition find_actor (access : AccessGateway S) (authorization sessionId : option string) (request : ApiRequest) (mutation : bool) :
    M S api_exn (option AuthenticatedActor) :=
  if startsWith (default EmptyString authorization) "Bearer " then
    access_authenticate (String.substring 7 (String.length (default EmptyString authorization) - 7) (default EmptyString authorization))
  else match sessionId, access_authenticateSession with
  | Some id, Some authenticate =>
      if truthy sessionId then authenticate id (header request "x-trust-csrf") mutation else mret None
  | _, _ => mret None
  end.

(** What [secured] checks before the command runs: the answer when it refuses,
    else the workspace and the actor. *)
(** Source: apps/trust-api/src/app.ts:1461-1534 secured *)
Definition authorise (configured : option (AccessGateway S)) (method : string) (request : ApiRequest) (route : Route) :
    M S api_exn (ApiResult + string * AuthenticatedActor) :=
  match configured with
  | None => mret (inl (failure 501 "COMMAND_BOUNDARY_UNAVAILABLE" "The command boundary is not configured." request))
  | Some access =>
      let authorization := header request "authorization" in
      let sessionId := cookieValue (header request "cookie") "trust_session" in
      if negb (truthy authorization) && negb (truthy sessionId)
      then mret (inl (failure 401 "AUTHENTICATION_REQUIRED" "Authentication is required." request))
      else
        find_actor access authorization sessionId request (method !== "GET") ≫= λ actor,
        match actor with
        | None => mret (inl (failure 401 "INVALID_CREDENTIALS" "The supplied credentials are invalid or expired." request))
        | Some actor =>
            match given (over (bodyWorkspace (request_body request)) (header request "x-trust-workspace-id")) with
            | None => mret (inl (failure 400 "WORKSPACE_REQUIRED" "A workspace context is required." request))
            | Some workspaceId =>
                route_extraScope route workspaceId ≫= λ resolvedScope,
                access_allows actor (route_action route) (extend_scope (requestScope workspaceId request) resolvedScope) ≫= λ permitted,
                if negb permitted
                then mret (inl (failure 403 "PERMISSION_DENIED" "The actor is not permitted to perform this action." request))
                else
                  (if route_requiresReauthentication route
                   then match access_confirms with
                        | Some confirms => confirms actor (header request "x-trust-reauth")
                        | None => mret false
                        end
                   else mret true) ≫= λ confirmed,
                  if negb confirmed
                  then mret (inl (failure 401 "REAUTHENTICATION_REQUIRED"
                                    "Fresh administrator authentication is required for this action." request))
                  else if match route_validate route with Some validate => negb (validate (request_body request)) | None => false end
                  then mret (inl (failure 400 "INVALID_COMMAND" "The request body is not valid for this command." request))
                  else mret (inr (workspaceId, actor))
            end
        end
  end.

(** Source: apps/trust-api/src/app.ts:1535-1641 secured *)
Definition respond (m : M S api_exn (option json)) (request : ApiRequest) : M S api_exn ApiResult :=
  try_catch (m ≫= λ body, mret (default (mkApiResult (JNumber 200) body None) (isApiResult body)))
    (λ e, mret (error_answer e request)).

(** Source: apps/trust-api/src/app.ts:1447-1642 secured *)
Definition secured (configured : option (AccessGateway S)) (method : string) (request : ApiRequest) (route : Route) :
    M S api_exn ApiResult :=
  authorise configured method request route ≫= λ outcome,
  match outcome with
  | inl refusal => mret refusal
  | inr (workspaceId, actor) => respond (route_execute route workspaceId actor) request
  end.
End Secured.

(** ** Commands run with authority only *)

(** The route with another command. *)
Definition with_execute {S} (route : Route (S := S)) (execute : string → AuthenticatedActor → M S api_exn (option json)) : Route :=
  mkRoute (route_action route) execute (route_validate route) (route_extraScope route) (route_requiresReauthentication route).

(** The workspace a request names. *)
Definition request_workspace (request : ApiRequest) : option string :=
  given (over (bodyWorkspace (request_body request)) (header request "x-trust-workspace-id")).

Section Authority.
Context {S : Type} (access : AccessGateway S) (method : string) (request : ApiRequest) (route : Route (S := S)).

(** The calls of the gateway that a command's run comes after, in order. *)
Definition authorised (workspaceId : string) (actor : AuthenticatedActor) (s s' : S) : Prop :=
  ∃ s1 s2 s3 scope,
    find_actor access (header request "authorization") (cookieValue (header request "cookie") "trust_session") request
      (method !== "GET") s = (Ok (Some actor), s1) ∧
    request_workspace request = Some workspaceId ∧
    route_extraScope route workspaceId s1 = (Ok scope, s2) ∧
    access_allows actor (route_action route) (extend_scope (requestScope workspaceId request) scope) s2 = (Ok true, s3) ∧
    (if route_requiresReauthentication route
     then ∃ confirms, access_confirms = Some confirms ∧ confirms actor (header request "x-trust-reauth") s3 = (Ok true, s')
     else s' = s3) ∧
    ∀ validate, route_validate route = Some validate → validate (request_body request) = true.

Lemma authorise_sound s workspaceId actor s' :
  authorise (Some access) method request route s = (Ok (inr (workspaceId, actor)), s') → authorised workspaceId actor s s'.
Proof.
  unfold authorise. case_match; [done|]. intros (a & s1 & Ha & Hr)%M_bind_Ok. destruct a as [a|]; [|done].
  fold (request_workspace request) in Hr. destruct (request_workspace request) as [ws|] eqn:Ew; [|done].
  apply M_bind_Ok in Hr as (scope & s2 & Hs & Hr). apply M_bind_Ok in Hr as ([] & s3 & Hal & Hr); [|done]. cbn [negb] in Hr.
  apply M_bind_Ok in Hr as ([] & s4 & Hc & Hr); [|done]. cbn [negb] in Hr.
  destruct (match route_validate route with Some validate => negb (validate (request_body request)) | None => false end) eqn:Ev; [done|].
  injection Hr as <- <- <-. exists s1, s2, s3, scope. split_and!; [done..| |].
  - destruct (route_requiresReauthentication route); [|by injection Hc as <-].
    destruct access_confirms as [confirms|]; [|done]. eauto.
  - intros validate Hv. rewrite Hv in Ev. by apply negb_false_iff in Ev.
Qed.

Lemma authorise_execute configured execute :
  authorise configured method request (with_execute route execute) = authorise configured method request route.
Proof. done. Qed.

(** Refused, whatever the command; or authorised, and the command answers. *)
Lemma secured_cases s :
  (∀ execute, secured (Some access) method request (with_execute route execute) s = secured (Some access) method request route s) ∨
  ∃ workspaceId actor s', authorised workspaceId actor s s' ∧
    secured (Some access) method request route s = respond (route_execute route workspaceId actor) request s'.
Proof.
  unfold secured. setoid_rewrite authorise_execute. unfold mbind, M_bind.
  destruct (authorise (Some access) method request route s) as [[[refusal|[ws actor]]|e] s'] eqn:Ea; [by left| |by left].
  right. exists ws, actor, s'. split; [by apply authorise_sound|done].
Qed.
End Authority.

Lemma substring_all s : String.substring 0 (String.length s) s = s.
Proof. induction s as [|c s IH]; cbn; [done|]. by rewrite IH. Qed.
Lemma startsWith_split p s :
  startsWith s p = true → s = p +:+ String.substring (String.length p) (String.length s - String.length p) s.
Proof.
  unfold startsWith. revert s. induction p as [|c p IH]; intros s.
  - intros _. cbn. by rewrite Nat.sub_0_r, substring_all.
  - destruct s as [|d s]; [done|]. cbn [String.prefix]. destruct (ascii_dec c d) as [->|]; [|done]. intros Hp.
    cbn [String.length Nat.sub String.substring]. change (String d p +:+ ?t) with (String d (p +:+ t)). f_equal. by apply IH.
Qed.

(** The credentials of a request are those of an actor. *)
Inductive presents `{TextCodec} (this : AdminSessionGateway) (method : string) (request : ApiRequest) (g : Gateway)
    (actor : AuthenticatedActor) : Prop :=
  | presents_bearer token :
      header request "authorization" = Some ("Bearer " +:+ token) → admin_allowBootstrapBearer this = true →
      static_authenticate (admin_static this) token = Some actor → presents this method request g actor
  | presents_session sessionId g' :
      cookieValue (header request "cookie") "trust_session" = Some sessionId → sessionId ≠ EmptyString →
      authenticateSession this sessionId (header request "x-trust-csrf") (method !== "GET") g = (Ok (Some actor), g') →
      presents this method request g actor.

Section Allows.
Context `{JsDate}.

(** The run of [allows]. *)
Lemma static_allows_run static actor action scope g :
  static_allows static actor action scope g =
    let at_ := toISOString (gateway_clock g) in
    match policy_data static (auth_workspaceId scope) (actor_id actor) at_ with
    | Err e => (Err e, g)
    | Ok data =>
        if application_refused actor scope (own_application actor scope data.1.2) then (Ok false, g)
        else
          let decision := evaluatePolicy at_ (policy_input actor action scope data at_) in
          match record_use static actor action scope at_ decision g with
          | (Ok _, g') => (Ok (allowed decision), g')
          | (Err e, g') => (Err e, g')
          end
    end.
Proof.
  unfold static_allows, mbind, M_bind, gets, lift. destruct (policy_data _ _ _ _) as [data|e]; [|done].
  destruct (application_refused _ _ _); [done|]. by destruct (record_use _ _ _ _ _ _ g) as [[]].
Qed.

(** An allowed request was allowed by the policy engine. *)
Lemma static_allows_true static actor action scope g g' :
  static_allows static actor action scope g = (Ok true, g') →
  ∃ data, policy_data static (auth_workspaceId scope) (actor_id actor) (toISOString (gateway_clock g)) = Ok data ∧
    application_refused actor scope (own_application actor scope data.1.2) = false ∧
    allowed (evaluatePolicy (toISOString (gateway_clock g))
      (policy_input actor action scope data (toISOString (gateway_clock g)))) = true.
Proof.
  rewrite static_allows_run. cbn zeta. destruct (policy_data _ _ _ _) as [data|]; [|done]. intros Hr. exists data.
  destruct (application_refused _ _ _); [done|]. destruct (record_use _ _ _ _ _ _ g) as [[u|e] g2]; [by injection Hr as ->|done].
Qed.

End Allows.

Section AdminCommands.
Context `{JsDate} `{TextCodec} {C : Type} (this : AdminSessionGateway).
Abbreviation gateway := (admin_gateway (C := C) this).

Lemma on_gateway_Ok {A} (m : G A) (s s' : Gateway * C) a :
  on_gateway m s = (Ok a, s') → m s.1 = (Ok a, s'.1) ∧ s'.2 = s.2.
Proof. unfold on_gateway. destruct (m s.1) as [r g]. by intros [= -> <-]. Qed.

Lemma find_actor_presents method request s actor s' :
  find_actor gateway (header request "authorization") (cookieValue (header request "cookie") "trust_session") request
    (method !== "GET") s = (Ok (Some actor), s') → presents this method request s.1 actor.
Proof.
  unfold find_actor. destruct (startsWith _ _) eqn:Eb.
  - apply startsWith_split in Eb. destruct (header request "authorization") as [a|] eqn:Eh; [|done]. cbn [default] in *. unfold id in *.
    set (token := String.substring 7 _ _) in *. cbn. unfold admin_authenticate. intros [= Ht _].
    destruct (admin_allowBootstrapBearer this) eqn:Ea; [|done]. eapply presents_bearer; [|exact Ea|exact Ht].
    rewrite Eh. f_equal. exact Eb.
  - cbn [admin_gateway access_authenticateSession]. destruct (cookieValue _ _) as [id|] eqn:Ec; [|done].
    cbn [truthy]. case_bool_decide as Hid; [done|]. cbn [negb]. intros [Hr _]%on_gateway_Ok.
    eapply presents_session; [exact Ec|exact Hid|exact Hr].
Qed.

(** What [authorised] says of a gateway with sessions. *)
Lemma admin_authorised method request (route : Route (S := Gateway * C)) workspaceId actor s s' :
  authorised gateway method request route workspaceId actor s s' →
  ∃ s1 s2 partial data,
    let scope := extend_scope (requestScope workspaceId request) partial in
    let at_ := toISOString (gateway_clock s2.1) in
    presents this method request s.1 actor ∧
    request_workspace request = Some workspaceId ∧
    route_extraScope route workspaceId s1 = (Ok partial, s2) ∧
    policy_data (admin_static this) (auth_workspaceId scope) (actor_id actor) at_ = Ok data ∧
    application_refused actor scope (own_application actor scope data.1.2) = false ∧
    allowed (evaluatePolicy at_ (policy_input actor (route_action route) scope data at_)) = true ∧
    (route_requiresReauthentication route = true →
     ∃ proof confirmed, header request "x-trust-reauth" = Some proof ∧
       static_authenticate (admin_static this) proof = Some confirmed ∧ actor_id confirmed = actor_id actor) ∧
    (∀ validate, route_validate route = Some validate → validate (request_body request) = true).
Proof.
  intros (s1 & s2 & s3 & p & Hf & Hw & Hx & Ha & Hc & Hv).
  apply on_gateway_Ok in Ha as [Ha _]. destruct (static_allows_true _ _ _ _ _ _ Ha) as (data & Hd & Href & Hal).
  exists s1, s2, p, data. split_and!; [by eapply find_actor_presents|done..| |done].
  intros Hre. rewrite Hre in Hc. destruct Hc as (confirms' & [= <-] & [= Hc _]). unfold confirms in Hc.
  destruct (header request "x-trust-reauth") as [proof|]; [|done]. apply andb_true_iff in Hc as [_ Hc].
  destruct (authenticateForReauthentication this proof) as [confirmed|] eqn:Ep; [|done]. apply andb_true_iff in Hc as [Hc _].
  apply bool_decide_eq_true in Hc. by exists proof, confirmed.
Qed.

(** A command of the API runs with authority only.  Either the request is
    refused (or fails) and its answer and effects are the same whatever the
    command is; or its credentials are those of an actor (the bootstrap token as
    a bearer, where that is allowed, or a session), it names a workspace, the
    policy data of that workspace was read and the policy engine allows the
    route's action for this actor and scope, an application principal not being
    refused; where the route requires it, the token of the same principal was
    presented again; the body is valid; and the answer is the command's. *)
Theorem command_requires_authority method request (route : Route (S := Gateway * C)) s :
  (∀ execute, secured (Some gateway) method request (with_execute route execute) s = secured (Some gateway) method request route s) ∨
  ∃ workspaceId actor g partial data s',
    let scope := extend_scope (requestScope workspaceId request) partial in
    let at_ := toISOString (gateway_clock g) in
    presents this method request s.1 actor ∧
    request_workspace request = Some workspaceId ∧
    policy_data (admin_static this) (auth_workspaceId scope) (actor_id actor) at_ = Ok data ∧
    application_refused actor scope (own_application actor scope data.1.2) = false ∧
    allowed (evaluatePolicy at_ (policy_input actor (route_action route) scope data at_)) = true ∧
    (route_requiresReauthentication route = true →
     ∃ proof confirmed, header request "x-trust-reauth" = Some proof ∧
       static_authenticate (admin_static this) proof = Some confirmed ∧ actor_id confirmed = actor_id actor) ∧
    (∀ validate, route_validate route = Some validate → validate (request_body request) = true) ∧
    secured (Some gateway) method request route s = respond (route_execute route workspaceId actor) request s'.
Proof.
  destruct (secured_cases gateway method request route s) as [Hl|(ws & actor & s' & Ha & Hr)]; [by left|right].
  apply admin_authorised in Ha as (s1 & s2 & p & data & Hp & Hw & _ & Hrest). exists ws, actor, s2.1, p, data, s'. cbn zeta in *. destruct Hrest as (Hd & Href & Hal & Hre & Hv). by split_and!.
Qed.
End AdminCommands.

(** ** Applications and break-glass grants *)

Section Confined.
Context `{JsDate} (this : StaticTokenAccessGateway).

(** C29. An application acts within its registration: a request by an
    application principal is allowed only when the workspace has an active
    registration under the principal's identity or namespace, the route admits
    applications, the application named by the scope, if any, is that one, the
    registration has the action among its capabilities, and the policy engine
    allows the action to the principal in the scope of that application, which
    is the registered one whatever application the request named. *)
Theorem application_confined actor action scope g g' :
  actorPrincipalType actor = principal_application →
  static_allows this actor action scope g = (Ok true, g') →
  ∃ data app, policy_data this (auth_workspaceId scope) (actor_id actor) (toISOString (gateway_clock g)) = Ok data ∧
    app ∈ data.1.2 ∧ application_workspaceId app = auth_workspaceId scope ∧ application_status app = app_active ∧
    (application_id app = actor_id actor ∨ application_namespace app = actor_id actor) ∧
    auth_applicationScopeAllowed scope = Some true ∧
    (auth_applicationId scope = None ∨ auth_applicationId scope = Some (application_id app)) ∧
    action_name action ∈ application_capabilities app ∧
    allowed (evaluatePolicy (toISOString (gateway_clock g))
      (mkPolicyInput (mkPrincipal (actor_id actor) principal_application (actor_roles actor) (actor_workspaceIds actor)) action
         (mkScope (auth_workspaceId scope) (given (auth_datasetId scope)) (Some (application_id app)))
         data.1.1 data.1.2 data.2 (Some (toISOString (gateway_clock g))))) = true.
Proof.
  intros Ht Hr. destruct (static_allows_true _ _ _ _ _ _ Hr) as (data & Hd & Href & Hal). destruct data as [[assignments apps] grants].
  cbn [fst snd] in *. exists (assignments, apps, grants). unfold application_refused in Href. rewrite Ht, strict_eq_refl in Href. cbn [andb] in Href.
  set (app := own_application actor scope apps) in *. set (i := policy_input _ _ _ _ _) in Hal.
  assert (registeredApplication i = app) as Eapp.
  { unfold i, app, own_application, registeredApplication. by rewrite Ht, strict_eq_refl. }
  assert (principal_type (input_principal i) = principal_application) as Eprincipal by done.
  assert (input_action i = action) as Eaction by done. pose proof Hal as Hfull. unfold i, policy_input, effectiveScope in Hfull.
  rewrite Ht in Hfull. change (own_application actor scope apps) with app in Hfull. clearbody i.
  unfold evaluatePolicy in Hal. rewrite Eapp, Eprincipal, Eaction, strict_eq_refl in Hal. destruct app as [app'|] eqn:Ea; [|done]. exists app'.
  apply orb_false_iff in Href as [[_ Hallow]%orb_false_iff Hid]. apply negb_false_iff, bool_decide_eq_true in Hallow.
  unfold app, own_application in Ea. rewrite Ht, strict_eq_refl in Ea. apply find_Some_elem in Ea as [Hin Hm].
  apply andb_true_iff in Hm as [[Hw%bool_decide_eq_true Hs%bool_decide_eq_true]%andb_true_iff Hn].
  split_and!; [done|done|done|done| |done| | |].
  - apply orb_true_iff in Hn as [Hn|Hn]; apply bool_decide_eq_true in Hn; auto.
  - destruct (auth_applicationId scope) as [named|]; [right|by left]. rewrite bool_decide_eq_true_2 in Hid by eauto.
    cbn [andb] in Hid. apply negb_false_iff, bool_decide_eq_true in Hid. by injection Hid as ->.
  - destruct (existsb _ _) eqn:Ec; [|done]. by apply some_action_spec in Ec.
  - by rewrite Hallow, !strict_eq_refl in Hfull.
Qed.

(** The use that is recorded for a decision. *)
Definition use_of (actor : AuthenticatedActor) (action : PolicyAction) (scope : AuthorizationScope) (at_ : string)
    (decision : PolicyDecision) : list BreakGlassUse :=
  match decision with
  | Allowed_break_glass grantId reason =>
      [mkUse (auth_workspaceId scope) (actor_id actor) grantId action reason (given (auth_requestId scope)) at_]
  | _ => []
  end.

(** No break-glass access goes unrecorded: with a recorder, a request
    that is allowed by a break-glass grant has its use (grant, reason, action,
    principal, workspace, instant) added to the log before the answer; any other
    request leaves the log as it was; and when recording fails the call throws,
    so the access is not granted. *)
Theorem break_glass_use_recorded policies record actor action scope g r g' :
  static_policies this = Some policies → recordBreakGlassUse policies = Some record →
  static_allows this actor action scope g = (r, g') →
  match r with
  | Ok permitted =>
      permitted = false ∧ g' = g ∨
      permitted = true ∧ ∃ data uses,
        policy_data this (auth_workspaceId scope) (actor_id actor) (toISOString (gateway_clock g)) = Ok data ∧
        uses = use_of actor action scope (toISOString (gateway_clock g))
          (evaluatePolicy (toISOString (gateway_clock g)) (policy_input actor action scope data (toISOString (gateway_clock g)))) ∧
        gateway_uses g' = (gateway_uses g ++ uses)%list ∧ (∀ use, use ∈ uses → record use = Ok tt)
  | Err _ => g' = g
  end.
Proof.
  intros Hp Hrec. rewrite static_allows_run. cbn zeta. destruct (policy_data _ _ _ _) as [data|e] eqn:Ed; [|by intros [= <- <-]].
  destruct (application_refused _ _ _); [intros [= <- <-]; by left|].
  unfold record_use. rewrite Hp. cbn [mbind option_bind]. rewrite Hrec.
  destruct (evaluatePolicy _ _) as [i|i reason|d] eqn:Ep; cbn [allowed].
  - intros [= <- <-]. right. split; [done|]. exists data, []. rewrite Ep, app_nil_r. split_and!; [done..|]. by intros ? ?%elem_of_nil.
  - unfold mbind, M_bind, lift. destruct (record _) as [[]|e] eqn:Er; [|by intros [= <- <-]]. intros [= <- <-]. right. split; [done|].
    eexists data, _. rewrite Ep. split_and!; [done|done|done|]. by intros use ->%list_elem_of_singleton.
  - intros [= <- <-]. by left.
Qed.
End Confined.

(** ** Sessions *)

Section MapFilter.
Context {V : Type} (l : list (string * V)).

Lemma NoDup_filter_keys (p : string * V → bool) : NoDup l.*1 → NoDup (List.filter p l).*1.
Proof.
  induction l as [|[k v] m IH]; cbn; [done|]. intros [Hk Hm]%NoDup_cons. destruct (p (k, v)); cbn; [|by apply IH].
  apply NoDup_cons. split; [|by apply IH]. intros ([k' v'] & -> & Hin)%list_elem_of_fmap. apply Hk.
  apply List_filter_elem in Hin as [Hin _]. by apply (list_elem_of_fmap_2 fst) in Hin.
Qed.
Lemma map_get_filter_value (p : V → bool) k :
  NoDup l.*1 → map_get k (List.filter (λ e, p e.2) l) = (map_get k l ≫= λ v, if p v then Some v else None).
Proof.
  induction l as [|[k' v] m IH]; cbn; [done|]. intros [Hk Hm]%NoDup_cons. destruct (p v) eqn:Ep; cbn; case_bool_decide as E; cbn; rewrite ?Ep.
  - done.
  - by apply IH.
  - subst k'. rewrite IH by done. destruct (map_get k m) as [w|] eqn:Eg; [|done].
    apply map_get_elem, (list_elem_of_fmap_2 fst) in Eg. done.
  - by apply IH.
Qed.
Lemma map_get_filter_key k k' : map_get k (List.filter (λ e, e.1 !== k') l) = if k === k' then None else map_get k l.
Proof.
  induction l as [|[q v] m IH]; cbn; [by destruct (k === k')|]. destruct (decide (q = k')) as [->|Hq].
  - rewrite strict_eq_refl. cbn. rewrite IH. by destruct (k === k').
  - rewrite bool_decide_eq_false_2 by done. cbn. rewrite IH. destruct (decide (k = q)) as [->|Hk].
    + by rewrite (bool_decide_eq_false_2 (q = k')).
    + rewrite (bool_decide_eq_false_2 (k = q)) by done. by destruct (k === k').
Qed.
End MapFilter.

(** The calls of a gateway, and time that passes between them. *)
Inductive session_call : Type :=
  | Create (sessionId csrfToken candidate : string)
  | Authenticate (sessionId : string) (csrfToken : option string) (mutation : bool)
  | Revoke (sessionId : string)
  | Wait (ms : nat).

Section Sessions.
Context `{TextCodec} (this : AdminSessionGateway).

Definition run_call (c : session_call) (g : Gateway) : Gateway :=
  match c with
  | Create sessionId csrf candidate => (createSession this sessionId csrf candidate g).2
  | Authenticate sessionId csrf mutation => (authenticateSession this sessionId csrf mutation g).2
  | Revoke sessionId => (revoke this sessionId g).2
  | Wait ms => mkGateway (gateway_sessions g) (gateway_uses g) (gateway_clock g + Z.of_nat ms) (gateway_now g + Z.of_nat ms)
  end.
Definition run_calls (calls : list session_call) (g : Gateway) : Gateway := fold_left (λ g c, run_call c g) calls g.

(** The reference: a table of the sessions that were created and not revoked
    since, with no expiry. *)
Definition table_call (c : session_call) (st : Z * (string → option StoredSession)) : Z * (string → option StoredSession) :=
  match c with
  | Create sessionId csrf candidate =>
      match static_authenticate (admin_static this) candidate with
      | Some _ => (st.1, λ k, if k === sessionId then Some (mkSession (bootstrapActor this) csrf (st.1 + admin_lifetimeMs this)) else st.2 k)
      | None => st
      end
  | Authenticate _ _ _ => st
  | Revoke sessionId => (st.1, λ k, if k === sessionId then None else st.2 k)
  | Wait ms => ((st.1 + Z.of_nat ms)%Z, st.2)
  end.
Definition session_table (calls : list session_call) (now : Z) : Z * (string → option StoredSession) :=
  fold_left (λ st c, table_call c st) calls (now, λ _, None).

(** A session that has not expired. *)
Definition live (now : Z) (s : option StoredSession) : option StoredSession :=
  s ≫= λ s, if Z.leb (session_expiresAt s) now then None else Some s.

Definition tracks (g : Gateway) (st : Z * (string → option StoredSession)) : Prop :=
  NoDup (gateway_sessions g).*1 ∧ gateway_now g = st.1 ∧
  ∀ k, live st.1 (map_get k (gateway_sessions g)) = live st.1 (st.2 k).

Lemma live_mono now ms a b : live now a = live now b → live (now + Z.of_nat ms) a = live (now + Z.of_nat ms) b.
Proof.
  destruct a as [a|], b as [b|]; cbn; try done; repeat case_match; try done; intros; simplify_eq; rewrite ?Z.leb_le, ?Z.leb_gt in *; try lia; try congruence.
Qed.
Lemma prune_get now sessions k : NoDup sessions.*1 → map_get k (prune now sessions) = live now (map_get k sessions).
Proof.
  intros Hnd. unfold prune. rewrite (map_get_filter_value _ (λ s, negb (Z.leb (session_expiresAt s) now))) by done.
  unfold live. destruct (map_get k sessions) as [s|]; [|done]. cbn. by destruct (Z.leb _ _).
Qed.
Lemma live_live now s : live now (live now s) = live now s.
Proof. destruct s as [s|]; cbn; [|done]. destruct (Z.leb _ _) eqn:E; cbn; [done|]. by rewrite E. Qed.

Lemma prune_tracks g st : tracks g st → tracks (set_sessions (prune (gateway_now g)) g) st.
Proof.
  intros (Hnd & Hn & Hg). split_and!; [by apply NoDup_filter_keys|done|]. intros k. cbn [gateway_sessions set_sessions].
  rewrite prune_get by done. by rewrite Hn, live_live.
Qed.

Lemma run_call_tracks c g st : tracks g st → tracks (run_call c g) (table_call c st).
Proof.
  intros Ht. destruct c as [sessionId csrf candidate|sessionId csrf mutation|sessionId|ms]; cbn [run_call table_call].
  - unfold createSession. destruct (static_authenticate _ _) as [a|]; [|done].
    assert (∀ g1 st1 session, tracks g1 st1 → tracks (set_sessions (map_set sessionId session) g1)
      (st1.1, λ k, if k === sessionId then Some session else st1.2 k)) as Hset.
    { intros g1 st1 session (Hnd & Hn & Hg). split_and!; [by apply NoDup_map_set|done|].
      intros k. cbn [gateway_sessions set_sessions fst snd]. destruct (decide (k = sessionId)) as [->|Hk].
      - by rewrite map_get_set_eq, strict_eq_refl.
      - rewrite map_get_set_ne, bool_decide_eq_false_2 by done. apply Hg. }
    pose proof (proj1 (proj2 Ht)) as Hn. apply prune_tracks in Ht. destruct st as [now table]. cbn [fst] in Hn. subst now.
    exact (Hset _ (gateway_now g, table) _ Ht).
  - assert ((authenticateSession this sessionId csrf mutation g).2 = set_sessions (prune (gateway_now g)) g) as ->.
    { unfold authenticateSession. unfold mbind, M_bind, gets, modify. cbn. repeat case_match; try done; by simplify_eq. }
    by apply prune_tracks.
  - destruct Ht as (Hnd & Hn & Hg).
    assert ((revoke this sessionId g).2 = set_sessions (List.filter (λ e, e.1 !== sessionId)) g) as ->.
    { unfold revoke, mbind, M_bind, modify. by destruct (admin_oidc this). }
    split_and!; [by apply NoDup_filter_keys|done|]. intros k. cbn [gateway_sessions set_sessions fst snd].
    rewrite map_get_filter_key. destruct (k === sessionId); [done|apply Hg].
  - destruct Ht as (Hnd & Hn & Hg). split_and!; [done|cbn; by rewrite Hn|]. intros k. apply live_mono, Hg.
Qed.

Lemma run_calls_tracks calls g st : tracks g st → tracks (run_calls calls g) (fold_left (λ st c, table_call c st) calls st).
Proof. revert g st. induction calls as [|c calls IH]; intros g st Ht; [done|]. by apply IH, run_call_tracks. Qed.

(** What the OIDC service says of a session the gateway does not honour. *)
Definition oidc_answer (sessionId : string) (csrf : option string) (mutation : bool) : result api_exn (option AuthenticatedActor) :=
  match admin_oidc this with Some oidc => oidc_authenticateSession oidc sessionId csrf mutation | None => Ok None end.

(** C30. A session is honoured exactly while it lives: after any calls of a
    gateway that started without sessions, whatever time passed between them,
    [authenticateSession] answers with the bootstrap actor if and only if the
    last call that created or revoked the session created it, with the right
    token, less than its lifetime ago, and, for a mutation, the CSRF token given
    is the session's; otherwise the answer is the OIDC service's. *)
Theorem session_honoured_exactly calls uses clock now sessionId csrf mutation :
  let g := run_calls calls (mkGateway [] uses clock now) in
  let table := session_table calls now in
  (authenticateSession this sessionId csrf mutation g).1 =
    match table.2 sessionId with
    | Some session =>
        if Z.ltb table.1 (session_expiresAt session) && (negb mutation || csrfTokenMatches (session_csrfToken session) csrf)
        then Ok (Some (bootstrapActor this)) else oidc_answer sessionId csrf mutation
    | None => oidc_answer sessionId csrf mutation
    end.
Proof.
  intros g table. assert (tracks g table) as (Hnd & Hn & Hg).
  { apply run_calls_tracks. split_and!; [constructor|done|done]. }
  assert (∀ s, table.2 sessionId = Some s → session_actor s = bootstrapActor this) as Hactor.
  { unfold table, session_table. clear. induction calls as [|c calls IH] using rev_ind; [done|]. rewrite fold_left_app. cbn [fold_left].
    set (st := fold_left _ calls _) in *. destruct c; cbn [table_call]; try done.
    - destruct (static_authenticate _ _); [|done]. cbn. case_bool_decide; [by intros s [= <-]|done].
    - cbn. by case_bool_decide. }
  specialize (Hg sessionId). rewrite <- (prune_get _ _ _ Hnd), <- Hn in Hg.
  unfold authenticateSession, oidc_answer. unfold mbind, M_bind, gets, modify, lift. cbn [gateway_sessions set_sessions gateway_now].
  rewrite Hg. clear Hg. rewrite <- Hn. destruct (table.2 sessionId) as [s|] eqn:Et; cbn [live mbind option_bind].
  2: { by destruct (admin_oidc this). }
  rewrite Z.ltb_antisym. destruct (Z.leb _ _); cbn [negb andb]; [by destruct (admin_oidc this)|].
  destruct (negb mutation || _); [cbn; by rewrite (Hactor s)|by destruct (admin_oidc this)].
Qed.
End Sessions.

Module AccessWitness.
Import Archive.Utf8.

Definition app_actor : AuthenticatedActor := mkActor "app-1" "Sketches" (Some principal_application) [] ["ws-1"].
Definition registration : RegisteredApplication := mkApplication "a1" "ws-1" "app-1" ["blob:read"] app_active.
Definition editor_of_app : ScopedPolicyAssignment :=
  mkAssignment "s1" "ws-1" principal_application "app-1" "editor" scope_application "a1" None.
Definition operator : AuthenticatedActor := mkActor "op-1" "Operator" None ["infrastructure_operator"] ["ws-1"].
Definition emergency : ActiveBreakGlassGrant :=
  mkGrant "g-1" "ws-1" "op-1" "incident 42" ["blob:read"] (toISOString 100) (toISOString 200) None.
Definition record_all (_ : BreakGlassUse) : result api_exn unit := Ok tt.
Definition policies : PolicyDataSource :=
  mkPolicies (λ _, Ok [registration]) (λ _ _, Ok [editor_of_app]) (λ _ _ _, Ok [emergency]) (Some record_all).
Definition gate : StaticTokenAccessGateway := mkStatic (Some "token") operator (Some policies).
Definition at_150 : Gateway := mkGateway [] [] 150 150.
Definition app_scope : AuthorizationScope := mkAuthScope "ws-1" None None None (Some true).
Definition plain_scope : AuthorizationScope := mkAuthScope "ws-1" None None (Some "r-1") None.

Lemma application_confined_witness :
  ∃ data app, policy_data gate "ws-1" "app-1" (toISOString 150) = Ok data ∧
    app ∈ data.1.2 ∧ application_workspaceId app = "ws-1" ∧ application_status app = app_active ∧
    (application_id app = "app-1" ∨ application_namespace app = "app-1") ∧
    auth_applicationScopeAllowed app_scope = Some true ∧
    (auth_applicationId app_scope = None ∨ auth_applicationId app_scope = Some (application_id app)) ∧
    action_name blob_read ∈ application_capabilities app ∧
    allowed (evaluatePolicy (toISOString 150)
      (mkPolicyInput (mkPrincipal "app-1" principal_application (actor_roles app_actor) (actor_workspaceIds app_actor)) blob_read
         (mkScope "ws-1" (given (auth_datasetId app_scope)) (Some (application_id app)))
         data.1.1 data.1.2 data.2 (Some (toISOString 150)))) = true.
Proof.
  apply (application_confined gate app_actor blob_read app_scope at_150 at_150); [reflexivity|vm_compute; reflexivity].
Defined.

(** An action that is not among the capabilities is refused, and so is a route
    that does not admit applications. *)
Example application_refusals :
  (static_allows gate app_actor object_ingest app_scope at_150).1 = Ok false ∧
  (static_allows gate app_actor blob_read plain_scope at_150).1 = Ok false.
Proof. split; vm_compute; reflexivity. Qed.

Definition operator_use : BreakGlassUse :=
  mkUse "ws-1" "op-1" "g-1" blob_read "incident 42" (Some "r-1") (toISOString 150).
Lemma break_glass_use_recorded_witness :
  static_allows gate operator blob_read plain_scope at_150 = (Ok true, add_use operator_use at_150) ∧
  (true = false ∧ add_use operator_use at_150 = at_150 ∨
   true = true ∧ ∃ data uses,
     policy_data gate "ws-1" "op-1" (toISOString 150) = Ok data ∧
     uses = use_of operator blob_read plain_scope (toISOString 150)
       (evaluatePolicy (toISOString 150) (policy_input operator blob_read plain_scope data (toISOString 150))) ∧
     gateway_uses (add_use operator_use at_150) = (gateway_uses at_150 ++ uses)%list ∧
     (∀ use, use ∈ uses → record_all use = Ok tt)).
Proof.
  assert (static_allows gate operator blob_read plain_scope at_150 = (Ok true, add_use operator_use at_150)) as E
    by (vm_compute; reflexivity).
  split; [exact E|]. exact (break_glass_use_recorded gate policies record_all operator blob_read plain_scope at_150 _ _ eq_refl eq_refl E).
Defined.

(** A session: created, used, expired. *)
Definition admin : AdminSessionGateway := mkAdmin gate 1000 None true.
Example session_lives :
  let after calls := (authenticateSession admin "s" (Some "c") true (run_calls admin calls (mkGateway [] [] 0 0))).1 in
  after [Create "s" "c" "token"; Wait 999] = Ok (Some operator) ∧
  after [Create "s" "c" "token"; Wait 1000] = Ok None ∧
  after [Create "s" "c" "token"; Revoke "s"] = Ok None ∧
  after [Create "s" "c" "guess"] = Ok None ∧
  after [Create "s" "d" "token"] = Ok None.
Proof. split_and!; vm_compute; reflexivity. Qed.

(** A command runs for the administrator's token, and not without it. *)
Definition restore : Route (S := Gateway * nat) :=
  mkRoute health_read (λ _ _ s, (Ok (Some (JString "done")), (s.1, S s.2))) None (λ _, mret no_scope) false.
Definition bearer (token : string) : ApiRequest :=
  mkRequest [("authorization", "Bearer " +:+ token); ("x-trust-workspace-id", "ws-1")] None [].
Example command_runs_once :
  (secured (Some (admin_gateway admin)) "POST" (bearer "token") restore (at_150, 0)) =
    (Ok (mkApiResult (JNumber 200) (Some (JString "done")) None), (at_150, 1)) ∧
  (secured (Some (admin_gateway admin)) "POST" (bearer "guess") restore (at_150, 0)).2 = (at_150, 0).
Proof. split; vm_compute; reflexivity. Qed.
End AccessWitness.
