(* ===== verification/ApiRoutes.v ===== *)
(** * The routes of the API

    [createApi] of [apps/trust-api/src/app.ts]: the routing table with the
    validators of the request bodies.  Every route but [/health] runs its command
    through [secured] ([Access]).

    The providers that execute the commands are an argument: a command is a value
    of [Call], with the arguments the route passes, and [run] executes it.  The
    sequence of [if]s is a list of routes, the first that matches being taken;
    [decodeURIComponent] is an argument, [None] where it throws.

    The theorems: no request reaches a command but through [secured] with the
    action of its route; a command acts in the workspace the caller was
    authorised for; and what changes state is never reached by a method that is
    exempt from the check of the CSRF token. *)
From S2P Require Import Prelude Js Concrete Json JsonParse Archive ArchiveSignature Policy Access.

(** ** Bodies *)

Definition body_get (body : option json) (name : string) : option json :=
  match body with Some (JObject l) => obj_get l name | _ => None end.
Definition is_nonEmpty (v : option json) : bool := bool_decide (is_Some (nonEmpty v)).
Definition has_text (body : option json) (name : string) : bool := is_nonEmpty (body_get body name).
Definition is_text (v : option json) : bool := bool_decide (is_Some (as_string v)).
Definition equals (v : option json) (s : string) : bool := js_same v (Some (JString s)).
Definition is_undefined (v : option json) : bool := match v with None => true | _ => false end.
Definition is_null (v : option json) : bool := match v with Some JNull => true | _ => false end.
(** [v == null] *)
Definition nullish (v : option json) : bool := is_undefined v || is_null v.
(** [Array.isArray(v) && v.every(p)] *)
Definition array_every (p : option json → bool) (v : option json) : bool :=
  match v with Some (JArray xs) => forallb (λ x, p (Some x)) xs | _ => false end.
(** [Number.isSafeInteger(v) && Number(v) >= lo && Number(v) <= hi] *)
Definition integer_in (lo hi : Z) (v : option json) : bool :=
  match v with Some (JNumber n) => isSafe n && Z.leb lo n && Z.leb n hi | _ => false end.

(** Source: apps/trust-api/src/app.ts:1707-1709 record *)
Definition record (v : option json) : bool := match v with Some (JObject _) => true | _ => false end.

(** [String(v)]; an array is its elements joined, [null] and [undefined] empty. *)
Fixpoint json_String (v : json) : string :=
  match v with
  | JNull => "null"
  | JBool b => if b then "true" else "false"
  | JNumber n => pretty n
  | JString s => s
  | JArray xs => join "," (map (λ x, match x with JNull => EmptyString | _ => json_String x end) xs)
  | JObject _ => "[object Object]"
  end.
Definition js_String (v : option json) : string := match v with Some v => json_String v | None => "undefined" end.

(** Source: apps/trust-api/src/app.ts:1713-1715 validWorkspaceBody *)
Definition validWorkspaceBody (body : option json) : bool := record body && has_text body "workspaceId".

Section Validators.
Context `{JsDate}.

(** [Number.isFinite(Date.parse(v))] of a non-empty string *)
Definition has_date (body : option json) (name : string) : bool :=
  match nonEmpty (body_get body name) with Some s => bool_decide (is_Some (Date_parse s)) | None => false end.

(** Source: apps/trust-api/src/app.ts:1716-1728 validApplication *)
Definition validApplication (body : option json) : bool :=
  validWorkspaceBody body && has_text body "namespace" && has_text body "name" && has_text body "applicationVersion" &&
  has_text body "idempotencyKey" && array_every is_nonEmpty (body_get body "schemaPackageIds") &&
  array_every is_nonEmpty (body_get body "capabilities").

(** Source: apps/trust-api/src/app.ts:1729-1738 validRevision *)
Definition validRevision (body : option json) : bool :=
  validWorkspaceBody body &&
  (is_null (body_get body "expectedRevisionId") || has_text body "expectedRevisionId") &&
  has_text body "schemaPackageId" && has_text body "schemaVersion" && record (body_get body "canonicalPayload") &&
  (is_undefined (body_get body "changeNote") || is_text (body_get body "changeNote")).

(** Source: apps/trust-api/src/app.ts:1739-1753 validPolicyAssignment *)
Definition validPolicyAssignment (body : option json) : bool :=
  if negb (validWorkspaceBody body) || negb (has_text body "principalId") || negb (has_text body "scopeId") ||
     negb (has_text body "idempotencyKey") ||
     negb (array_includes ["user"; "service"; "application"] (js_String (body_get body "principalType"))) ||
     negb (array_includes ["owner"; "admin"; "editor"; "recovery_operator"; "auditor"] (js_String (body_get body "role"))) ||
     negb (array_includes ["workspace"; "dataset"; "application"] (js_String (body_get body "scopeKind")))
  then false
  else negb (equals (body_get body "scopeKind") "workspace") || js_same (body_get body "scopeId") (body_get body "workspaceId").

(** Source: apps/trust-api/src/app.ts:1754-1756 validPolicyRevocation *)
Definition validPolicyRevocation (body : option json) : bool := validWorkspaceBody body && has_text body "idempotencyKey".

(** Source: apps/trust-api/src/app.ts:1757-1766 validDelete *)
Definition validDelete (body : option json) : bool :=
  validWorkspaceBody body &&
  (is_null (body_get body "expectedRevisionId") || has_text body "expectedRevisionId") &&
  (is_null (body_get body "recoverUntil") || has_date body "recoverUntil") &&
  (is_undefined (body_get body "reason") || is_text (body_get body "reason")).

(** Source: apps/trust-api/src/app.ts:1787-1791 validRetentionDays *)
Definition validRetentionDays (v : option json) : bool := integer_in 0 36500 v.

(** Source: apps/trust-api/src/app.ts:1767-1778 validRetentionPolicy *)
Definition validRetentionPolicy (body : option json) : bool :=
  validWorkspaceBody body && has_text body "name" && has_text body "idempotencyKey" &&
  validRetentionDays (body_get body "recoveryWindowDays") && validRetentionDays (body_get body "minimumHistoryDays") &&
  validRetentionDays (body_get body "backupRetentionDays") && js_same (body_get body "purgeEnabled") (Some (JBool false)) &&
  (is_undefined (body_get body "extensions") || record (body_get body "extensions")).

(** Source: apps/trust-api/src/app.ts:1779-1786 validRetentionPolicyUpdate *)
Definition validRetentionPolicyUpdate (body : option json) : bool :=
  record body && validRetentionPolicy body && has_date body "expectedUpdatedAt".

(** Source: apps/trust-api/src/app.ts:1792-1797 validRestore *)
Definition validRestore (body : option json) : bool :=
  validWorkspaceBody body && (is_undefined (body_get body "changeNote") || is_text (body_get body "changeNote")).

(** Source: apps/trust-api/src/app.ts:1798-1825 validVerification *)
Definition validVerification (body : option json) : bool :=
  match validWorkspaceBody body, nonEmpty (body_get body "level") with
  | true, Some level =>
      let scope := body_get body "scope" in
      if array_includes ["metadata"; "full_blob"; "workspace"] level then
        is_undefined scope ||
        (record scope && equals (body_get scope "kind") "workspace" && js_same (body_get scope "id") (body_get body "workspaceId"))
      else if array_includes ["resource"; "dataset"] level then
        record scope && equals (body_get scope "kind") level && has_text scope "id"
      else false
  | _, _ => false
  end.

(** Source: apps/trust-api/src/app.ts:1826-1830 validProbeStorage *)
Definition validProbeStorage (body : option json) : bool :=
  validWorkspaceBody body &&
  (is_undefined (body_get body "tier") || equals (body_get body "tier") "connectivity" || equals (body_get body "tier") "ingest").

(** Source: apps/trust-api/src/app.ts:1831-1838 validCreateApplicationTenant *)
Definition validCreateApplicationTenant (body : option json) : bool :=
  validWorkspaceBody body && has_text body "externalTenantKey" && has_text body "displayName" && has_text body "idempotencyKey".

(** Source: apps/trust-api/src/app.ts:1839-1846 validUpdateApplicationTenant *)
Definition validUpdateApplicationTenant (body : option json) : bool :=
  validWorkspaceBody body && has_text body "displayName" && has_text body "expectedUpdatedAt" && has_text body "idempotencyKey".

(** Source: apps/trust-api/src/app.ts:1847-1853 validTenantStatusCommand *)
Definition validTenantStatusCommand (body : option json) : bool :=
  validWorkspaceBody body && has_text body "expectedUpdatedAt" && has_text body "idempotencyKey".

(** Source: apps/trust-api/src/app.ts:1854-1865 validUpsertStorageBinding *)
Definition validUpsertStorageBinding (body : option json) : bool :=
  validWorkspaceBody body && has_text body "applicationId" && has_text body "provider" && has_text body "region" &&
  has_text body "bucket" && has_text body "tier" && has_text body "credentialMode" && has_text body "idempotencyKey".

(** Source: apps/trust-api/src/app.ts:1866-1871 validProbeStorageBinding *)
Definition validProbeStorageBinding (body : option json) : bool :=
  nullish body ||
  (record body &&
   (is_undefined (body_get body "tier") || equals (body_get body "tier") "connectivity" || equals (body_get body "tier") "ingest")).

(** Source: apps/trust-api/src/app.ts:1872-1886 validRefreshStoragePlan *)
Definition validRefreshStoragePlan (body : option json) : bool :=
  let number_or_null v := nullish v || match v with Some (JNumber _) => true | _ => false end in
  nullish body ||
  (record body && number_or_null (body_get body "observedQuotaBytes") && number_or_null (body_get body "observedUsageBytes")).

(** Source: apps/trust-api/src/app.ts:1887-1893 validAcceptStoragePlan *)
Definition validAcceptStoragePlan (body : option json) : bool :=
  validWorkspaceBody body && match body_get body "declaredCapacityBytes" with Some (JNumber _) => true | _ => false end.

(** Source: apps/trust-api/src/app.ts:1894-1902 validCutoverStorageMigrate *)
Definition validCutoverStorageMigrate (body : option json) : bool :=
  validWorkspaceBody body && has_text body "sourceBindingId" && has_text body "targetBindingId" &&
  has_text body "idempotencyKey" && array_every (λ _, true) (body_get body "objectDigests").

(** Source: apps/trust-api/src/app.ts:1979-1988 validBase64 *)
Definition validBase64 (maxLength : nat) (v : option json) : bool :=
  match v with
  | Some (JString s) => Nat.ltb 0 (String.length s) && Nat.leb (String.length s) maxLength && base64_pattern s
  | _ => false
  end.
Definition MAX_BASE64 : nat := Z.to_nat 1400000.
Definition MAX_ARCHIVE_BASE64 : nat := Z.to_nat 12000000.

(** Source: apps/trust-api/src/app.ts:1903-1910 validObjectIngest *)
Definition validObjectIngest (body : option json) : bool :=
  validWorkspaceBody body && has_text body "idempotencyKey" && has_text body "mediaType" &&
  validBase64 MAX_BASE64 (body_get body "bytesBase64").

(** Source: apps/trust-api/src/app.ts:1911-1926 validCreateUpload *)
Definition validCreateUpload (body : option json) : bool :=
  validWorkspaceBody body && has_text body "idempotencyKey" && has_text body "mediaType" &&
  integer_in 0 750000 (body_get body "expectedByteLength") &&
  match body_get body "expectedSha256" with Some (JString s) => SHA256_PATTERN s | _ => false end &&
  (is_undefined (body_get body "expiresInSeconds") || integer_in 60 86400 (body_get body "expiresInSeconds")).

(** Source: apps/trust-api/src/app.ts:1927-1929 validCompleteUpload *)
Definition validCompleteUpload (body : option json) : bool :=
  validWorkspaceBody body && validBase64 MAX_BASE64 (body_get body "bytesBase64").

(** Source: apps/trust-api/src/app.ts:1930-1943 validCreateDownloadGrant *)
Definition validCreateDownloadGrant (body : option json) : bool :=
  validWorkspaceBody body && has_text body "objectId" && has_text body "idempotencyKey" &&
  integer_in 1 86400 (body_get body "requestedTtlSeconds") &&
  (is_undefined (body_get body "fileName") ||
   match body_get body "fileName" with
   | Some (JString s) => Nat.ltb 0 (String.length s) && Nat.leb (String.length s) 180
   | _ => false
   end).

(** Source: apps/trust-api/src/app.ts:1944-1950 validArchiveUpload *)
Definition validArchiveUpload (body : option json) : bool :=
  validWorkspaceBody body && has_text body "idempotencyKey" && validBase64 MAX_ARCHIVE_BASE64 (body_get body "archiveBase64").

(** Source: apps/trust-api/src/app.ts:1951-1960 validArchiveExport *)
Definition validArchiveExport (body : option json) : bool :=
  validWorkspaceBody body && has_text body "idempotencyKey" &&
  match body_get body "datasetIds" with Some (JArray xs) => Nat.ltb 0 (length xs) && Nat.leb (length xs) 100 | _ => false end &&
  array_every is_nonEmpty (body_get body "datasetIds").

(** Source: apps/trust-api/src/app.ts:1961-1970 validImportPlan *)
Definition validImportPlan (body : option json) : bool :=
  validWorkspaceBody body && has_text body "archiveId" && has_text body "idempotencyKey" &&
  (equals (body_get body "mode") "preserve_ids" || equals (body_get body "mode") "mapped_workspace") &&
  (equals (body_get body "conflictMode") "reject_on_error" || equals (body_get body "conflictMode") "report_only").

(** Source: apps/trust-api/src/app.ts:1971-1978 validExecuteImport *)
Definition validExecuteImport (body : option json) : bool :=
  validWorkspaceBody body && has_text body "idempotencyKey" && equals (body_get body "confirmation") "IMPORT".
End Validators.

(** ** Paths *)

(** A pattern of a path: segments, ["*"] standing for [([^/]+)]; or a prefix
    followed by [(.+)]. *)
Inductive Pattern :=
  | Segments (template : string)
  | Rest (prefix : string).

Fixpoint match_segments (template path : list string) : option (list string) :=
  match template, path with
  | [], [] => Some []
  | t :: template, p :: path =>
      if t === "*" then if p === EmptyString then None else cons p <$> match_segments template path
      else if t === p then match_segments template path else None
  | _, _ => None
  end.
Definition is_line_end (c : ascii) : bool := Nat.eqb (nat_of_ascii c) 10 || Nat.eqb (nat_of_ascii c) 13.
(** What the pattern captures of a path that it matches. *)
Definition captures (p : Pattern) (pathname : string) : option (list string) :=
  match p with
  | Segments template => match_segments (split "/" template) (split "/" pathname)
  | Rest prefix =>
      let rest := String.substring (String.length prefix) (String.length pathname - String.length prefix) pathname in
      if startsWith pathname prefix && (rest !== EmptyString) && negb (existsb is_line_end (list_ascii_of_string rest))
      then Some [rest] else None
  end.

Section Decode.
Context `{TextCodec}.

Definition decode_run (run : string) : option string := if run === EmptyString then Some EmptyString else decode run.
(** [decodeURIComponent]: the octets of adjacent escapes are UTF-8; [None] where
    it throws a [URIError]. *)
Fixpoint decode_escapes (run s : string) : option string :=
  match s with
  | EmptyString => decode_run run
  | String c r =>
      if c === "%"%char then
        match r with
        | String a (String b r') =>
            match JsonParse.hex_value a, JsonParse.hex_value b with
            | Some x, Some y => decode_escapes (run +:+ String (ascii_of_nat (16 * x + y)) EmptyString) r'
            | _, _ => None
            end
        | _ => None
        end
      else decode_run run ≫= λ t, (λ u, t +:+ String c u) <$> decode_escapes EmptyString r
  end.
Definition decodeURIComponent (s : string) : option string := decode_escapes EmptyString s.
Definition URIError : api_exn := OtherThrown None (Some "URI malformed").
Definition decoded (s : string) : result api_exn string :=
  match decodeURIComponent s with Some t => Ok t | None => Err URIError end.

(** Source: apps/trust-api/src/app.ts:1668-1671 match *)
Definition match_ (pathname : string) (pattern : Pattern) : result api_exn (option string) :=
  match captures pattern pathname with
  | Some (value :: _) => if value === EmptyString then Ok None else Some <$> decoded value
  | _ => Ok None
  end.
End Decode.

(** ** Commands *)

(** The calls of a command provider; a body is passed as it was received. *)
(** Source: apps/trust-api/src/app.ts:83-273 CommandProvider *)
Inductive Command :=
  | listWorkspaces (workspaceId : string)
  | listApplications_ (workspaceId : string)
  | registerApplication (actor : AuthenticatedActor) (command : option json)
  | listPolicyAssignments_ (workspaceId : string)
  | createPolicyAssignment (actor : AuthenticatedActor) (command : option json)
  | revokePolicyAssignment (assignmentId : string) (actor : AuthenticatedActor) (command : option json)
  | listDatasets (workspaceId : string)
  | getDataset (workspaceId datasetId : string)
  | listRetentionPolicies (workspaceId : string)
  | getRetentionPolicy (workspaceId policyId : string)
  | createRetentionPolicy (actor : AuthenticatedActor) (command : option json)
  | updateRetentionPolicy (policyId : string) (actor : AuthenticatedActor) (command : option json)
  | listResources (workspaceId : string) (datasetId : option string)
  | getResource (workspaceId resourceId : string)
  | getRevisionGraph (workspaceId resourceId : string)
  | listRelations (workspaceId : string) (datasetId : option string)
  | listDeletedResources (workspaceId : string) (datasetId : option string)
  | getHistory (workspaceId : string) (datasetId : option string)
  | listAuditEvents (workspaceId : string) (datasetId : option string)
  | createRevision (resourceId : string) (actor : AuthenticatedActor) (command : option json)
  | deleteResource (resourceId : string) (actor : AuthenticatedActor) (command : option json)
  | restoreResource (resourceId : string) (actor : AuthenticatedActor) (command : option json)
  | runVerification (actor : AuthenticatedActor) (command : option json)
  | listVerificationReports (workspaceId : string)
  | getVerificationReport (workspaceId reportId : string)
  | getOperation (workspaceId operationId : string)
  | getStorageHealth (workspaceId : string)
  | probeStorageHealth (actor : AuthenticatedActor) (command : option json)
  | getBackupHealth (workspaceId : string)
  | createUpload (actor : AuthenticatedActor) (command : option json)
  | getUpload (workspaceId uploadId : string) (actor : AuthenticatedActor)
  | getUploadScanStatus (workspaceId uploadId : string) (actor : AuthenticatedActor)
  | completeUpload (uploadId : string) (actor : AuthenticatedActor) (command : option json)
  | createDownloadGrant (actor : AuthenticatedActor) (command : option json)
  | ingestObject (actor : AuthenticatedActor) (command : option json)
  | listApplicationTenants (workspaceId applicationId : string)
  | getApplicationTenant (workspaceId applicationId tenantId : string)
  | createApplicationTenant (actor : AuthenticatedActor) (command : option json)
  | updateApplicationTenant (actor : AuthenticatedActor) (tenantId : string) (command : option json)
  | suspendApplicationTenant (actor : AuthenticatedActor) (tenantId : string) (command : option json)
  | closeApplicationTenant (actor : AuthenticatedActor) (tenantId : string) (command : option json)
  | getEffectiveStorage (workspaceId applicationId : string) (applicationTenantId : option string)
  | getStorageBindingRollup (workspaceId : string)
  | listStorageBindings (workspaceId : string) (query : option json)
  | getStorageBinding (workspaceId bindingId : string)
  | upsertStorageBinding (actor : AuthenticatedActor) (command : option json)
  | deleteStorageBinding (actor : AuthenticatedActor) (bindingId workspaceId : string)
  | probeStorageBinding (actor : AuthenticatedActor) (command : option json)
  | refreshStoragePlan (actor : AuthenticatedActor) (command : option json)
  | acceptStoragePlan (actor : AuthenticatedActor) (command : option json)
  | disableStorageBinding (actor : AuthenticatedActor) (bindingId workspaceId : string)
  | rollbackStorageBinding (actor : AuthenticatedActor) (bindingId workspaceId : string)
  | cutoverStorageMigrate (actor : AuthenticatedActor) (command : option json).

(** The calls of the portability provider. *)
(** Source: apps/trust-api/src/portability.ts:32-66 PortabilityProvider *)
Inductive PortabilityCommand :=
  | createExport (actor : AuthenticatedActor) (command : option json)
  | downloadExport (workspaceId exportId : string)
  | uploadArchive (actor : AuthenticatedActor) (command : option json)
  | getArchive (workspaceId archiveId : string)
  | createPlan_ (actor : AuthenticatedActor) (command : option json)
  | getPlan (workspaceId planId : string)
  | executePlan (planId : string) (actor : AuthenticatedActor) (command : option json)
  | getImportOperation (workspaceId operationId : string).

(** A call of one of the providers of [createApi]. *)
Inductive Call :=
  | OnCommands (c : Command)
  | OnPortability (c : PortabilityCommand)
  | listSchemas
  | getSchema (key : string)
  | getSnapshot.

(** The optional methods of a command provider. *)
Inductive Optional :=
  | has_probeStorageHealth | has_createDownloadGrant | has_ingestObject | has_listApplicationTenants | has_getApplicationTenant
  | has_createApplicationTenant | has_updateApplicationTenant | has_suspendApplicationTenant | has_closeApplicationTenant
  | has_getEffectiveStorage | has_getStorageBindingRollup | has_listStorageBindings | has_getStorageBinding
  | has_upsertStorageBinding | has_deleteStorageBinding | has_probeStorageBinding | has_refreshStoragePlan
  | has_acceptStoragePlan | has_disableStorageBinding | has_rollbackStorageBinding | has_cutoverStorageMigrate.

(** ** The routing table *)

(** How a route tests the path: equality, a pattern whose capture was decoded
    before, or one whose captures are decoded when the command runs. *)
Inductive Path :=
  | Exact (p : string)
  | Matched (p : Pattern)
  | Parts (template : string).
(** The condition of [c ? secured(...) : unavailable(request)]. *)
Inductive Availability := Always | WithOptional (o : Optional) | WithPortability.

(** [{ ...a, ...b }] of two objects, null or undefined being empty. *)
Definition entries_of (v : option json) : list (string * json) := match v with Some (JObject l) => l | _ => [] end.
Definition spread (a b : list (string * json)) : list (string * json) :=
  (map (λ e, (e.1, default e.2 (obj_get b e.1))) a ++ List.filter (λ e, bool_decide (obj_get a e.1 = None)) b)%list.

(** Source: apps/trust-api/src/app.ts:1660-1667 found *)
Definition found (code message : string) (value : option json) : result api_exn (option json) :=
  match value with None => Err (ApiRouteError 404 code message) | Some _ => Ok value end.

(** The bytes of a [Uint8Array], which a value holds as an array of numbers. *)
Definition bytes_of (v : option json) : string :=
  match v with
  | Some (JArray xs) => string_of_list_ascii (map (λ x, match x with JNumber n => ascii_of_nat (Z.to_nat n) | _ => zero end) xs)
  | _ => EmptyString
  end.
Definition field (v : option json) (name : string) : json := default JNull (body_get v name).
(** Source: apps/trust-api/src/app.ts:1989-2011 archiveDownloadResult *)
Definition archiveDownloadResult (accept : option string) (transfer : option json) : option json :=
  let bytes := body_get transfer "bytes" in
  if includes (default EmptyString accept) "application/vnd.trust-core.archive+zip" then
    Some (JObject [("status", JNumber 200); ("body", default JNull bytes);
      ("headers", JObject [("content-type", field transfer "mediaType");
        ("content-disposition",
           JString ("attachment; filename=" +:+ String QUOTE (js_String (body_get transfer "filename") +:+ String QUOTE EmptyString)));
        ("content-length", JString (pretty (String.length (bytes_of bytes))));
        ("x-trust-archive-sha256", field (body_get transfer "summary") "sha256")])])
  else
    Some (JObject [("status", JNumber 200);
      ("body", JObject (spread (entries_of (body_get transfer "summary"))
        [("mediaType", field transfer "mediaType"); ("filename", field transfer "filename");
         ("archiveBase64", JString (toBase64 (bytes_of bytes)))]))]).

(** Source: apps/trust-api/src/app.ts:2026-2033 unavailable *)
Definition unavailable (request : ApiRequest) : ApiResult :=
  failure 501 "COMMAND_BOUNDARY_UNAVAILABLE" "The portability command boundary is not configured." request.

Section Routes.
Context `{JsDate} `{TextCodec} {S : Type}.

(** The providers: which optional methods the commands have, and [api_run],
    which executes a call. *)
(** Source: apps/trust-api/src/app.ts:315-323 createApi *)
Record Api := mkApi {
  api_clock : S → Z;
  api_mode : string;
  api_commands : option (Optional → bool);
  api_access : option (AccessGateway S);
  api_portability : bool;
  api_run : Call → M S api_exn (option json);
}.
Context (api : Api).

(** A call of [secured], but for the arguments that are always the same. *)
Record Handler := mkHandler {
  handler_action : PolicyAction;
  handler_call : string → AuthenticatedActor → result api_exn Call;
  handler_finish : option json → result api_exn (option json);
  handler_validate : option (option json → bool);
  handler_scope : string → M S api_exn PartialScope;
  handler_needsIngest : bool;
  handler_requiresReauthentication : bool;
}.
(** A route: an [if] of [createApi], with the captures of its path as arguments. *)
Record Entry := mkEntry {
  entry_method : string;
  entry_path : Path;
  entry_when : Availability;
  entry_handler : string → string → Handler;
}.

Definition secured_ (action : PolicyAction) (call : string → AuthenticatedActor → Call) : Handler :=
  mkHandler action (λ workspaceId actor, Ok (call workspaceId actor)) Ok None (λ _, mret no_scope) false false.
Definition secured_try (action : PolicyAction) (call : string → AuthenticatedActor → result api_exn Call) : Handler :=
  mkHandler action call Ok None (λ _, mret no_scope) false false.
Definition validated (validate : option json → bool) (h : Handler) : Handler :=
  mkHandler (handler_action h) (handler_call h) (handler_finish h) (Some validate) (handler_scope h) (handler_needsIngest h)
    (handler_requiresReauthentication h).
Definition finished (finish : option json → result api_exn (option json)) (h : Handler) : Handler :=
  mkHandler (handler_action h) (handler_call h) finish (handler_validate h) (handler_scope h) (handler_needsIngest h)
    (handler_requiresReauthentication h).
Definition scoped (scope : string → M S api_exn PartialScope) (h : Handler) : Handler :=
  mkHandler (handler_action h) (handler_call h) (handler_finish h) (handler_validate h) scope (handler_needsIngest h)
    (handler_requiresReauthentication h).
Definition ingesting (h : Handler) : Handler :=
  mkHandler (handler_action h) (handler_call h) (handler_finish h) (handler_validate h) (handler_scope h) true
    (handler_requiresReauthentication h).
Definition reauthenticated (h : Handler) : Handler :=
  mkHandler (handler_action h) (handler_call h) (handler_finish h) (handler_validate h) (handler_scope h)
    (handler_needsIngest h) true.

Definition in_dataset (datasetId : string) : PartialScope := mkPartial None (Some datasetId) None None None.
Definition applications_admitted : PartialScope := mkPartial None None None None (Some true).
Definition fixed (scope : PartialScope) (_ : string) : M S api_exn PartialScope := mret scope.

(** Source: apps/trust-api/src/app.ts:1686-1697 resourceScope *)
Definition resourceScope (resourceId workspaceId : string) : M S api_exn PartialScope :=
  api_run api (OnCommands (getResource workspaceId resourceId)) ≫= λ resource,
  mret match nonEmpty (body_get resource "datasetId") with Some id => in_dataset id | None => no_scope end.

(** Source: apps/trust-api/src/app.ts:2034-2051 verificationAuthorizationScope *)
Definition verificationAuthorizationScope (body : option json) (workspaceId : string) : M S api_exn PartialScope :=
  let scope := body_get body "scope" in
  match nonEmpty (body_get scope "id") with
  | None => mret no_scope
  | Some id =>
      if equals (body_get scope "kind") "dataset" then mret (in_dataset id)
      else if negb (equals (body_get scope "kind") "resource") then mret no_scope
      else resourceScope id workspaceId
  end.

(** Source: apps/trust-api/src/app.ts:2053-2069 verificationReportScope *)
Definition verificationReportScope (reportId workspaceId : string) : M S api_exn PartialScope :=
  api_run api (OnCommands (getVerificationReport workspaceId reportId)) ≫= λ report,
  let scope := body_get report "scope" in
  match nonEmpty (body_get scope "id") with
  | None => mret no_scope
  | Some id =>
      if equals (body_get scope "kind") "dataset" then mret (in_dataset id)
      else if negb (equals (body_get scope "kind") "resource") then mret no_scope
      else resourceScope id workspaceId
  end.

Context (request : ApiRequest).
Abbreviation body := (request_body request).
Abbreviation dataset_header := (header request "x-trust-dataset-id").
Abbreviation on := OnCommands.
Abbreviation matched t := (Matched (Segments t)).

(** Source: apps/trust-api/src/app.ts:396-427 createApi *)
Definition workspace_routes : list Entry := [
  mkEntry "GET" (Exact "/v1/workspaces") Always (λ _ _,
    secured_ workspace_read (λ workspaceId _, on (listWorkspaces workspaceId)));
  mkEntry "GET" (Exact "/v1/applications") Always (λ _ _,
    secured_ workspace_read (λ workspaceId _, on (listApplications_ workspaceId)));
  mkEntry "POST" (Exact "/v1/applications") Always (λ _ _,
    validated validApplication (secured_ workspace_manage (λ _ actor, on (registerApplication actor body))))
].

(** [{ ...request.body, applicationId }] *)
Definition with_application (applicationId : string) : option json :=
  Some (JObject (spread (entries_of body) [("applicationId", JString applicationId)])).

(** Source: apps/trust-api/src/app.ts:472-613 createApi *)
Definition tenant_routes : list Entry := [
  mkEntry "GET" (matched "/v1/applications/*/tenants") (WithOptional has_listApplicationTenants) (λ applicationId _,
    secured_ workspace_read (λ workspaceId _, on (listApplicationTenants workspaceId applicationId)));
  mkEntry "POST" (matched "/v1/applications/*/tenants") (WithOptional has_createApplicationTenant) (λ applicationId _,
    validated validCreateApplicationTenant
      (secured_ storage_manage (λ _ actor, on (createApplicationTenant actor (with_application applicationId)))));
  mkEntry "GET" (Parts "/v1/applications/*/tenants/*") (WithOptional has_getApplicationTenant) (λ part1 part2,
    secured_try workspace_read (λ workspaceId _,
      decoded part1 ≫= λ applicationId, decoded part2 ≫= λ tenantId,
      Ok (on (getApplicationTenant workspaceId applicationId tenantId))));
  mkEntry "PUT" (Parts "/v1/applications/*/tenants/*") (WithOptional has_updateApplicationTenant) (λ part1 part2,
    validated validUpdateApplicationTenant (secured_try storage_manage (λ _ actor,
      decoded part2 ≫= λ tenantId, decoded part1 ≫= λ applicationId,
      Ok (on (updateApplicationTenant actor tenantId (with_application applicationId))))));
  mkEntry "POST" (Parts "/v1/applications/*/tenants/*/suspend") (WithOptional has_suspendApplicationTenant) (λ part1 part2,
    validated validTenantStatusCommand (secured_try storage_manage (λ _ actor,
      decoded part2 ≫= λ tenantId, decoded part1 ≫= λ applicationId,
      Ok (on (suspendApplicationTenant actor tenantId (with_application applicationId))))));
  mkEntry "POST" (Parts "/v1/applications/*/tenants/*/close") (WithOptional has_closeApplicationTenant) (λ part1 part2,
    validated validTenantStatusCommand (secured_try storage_manage (λ _ actor,
      decoded part2 ≫= λ tenantId, decoded part1 ≫= λ applicationId,
      Ok (on (closeApplicationTenant actor tenantId (with_application applicationId))))));
  mkEntry "GET" (matched "/v1/applications/*/storage") (WithOptional has_getEffectiveStorage) (λ applicationId _,
    secured_ workspace_read (λ workspaceId _, on (getEffectiveStorage workspaceId applicationId None)));
  mkEntry "GET" (Parts "/v1/applications/*/tenants/*/storage") (WithOptional has_getEffectiveStorage) (λ part1 part2,
    secured_try workspace_read (λ workspaceId _,
      decoded part1 ≫= λ applicationId, decoded part2 ≫= λ tenantId,
      Ok (on (getEffectiveStorage workspaceId applicationId (Some tenantId)))))
].

(** The filter of [listStorageBindings]; the tenant ["null"] is null. *)
(** Source: apps/trust-api/src/app.ts:634-645 createApi *)
Definition binding_query : option json :=
  let text name := match map_get name (request_query request) with Some v => [(name, JString v)] | None => [] end in
  Some (JObject (text "applicationId" ++
    if map_get "applicationTenantId" (request_query request) === Some "null"
    then [("applicationTenantId", JNull)] else text "applicationTenantId")%list).

(** [{ workspaceId, bindingId, ...request.body }], and with the body first. *)
Definition under_body (workspaceId bindingId : string) : option json :=
  Some (JObject (spread [("workspaceId", JString workspaceId); ("bindingId", JString bindingId)] (entries_of body))).
Definition over_body (workspaceId bindingId : string) : option json :=
  Some (JObject (spread (entries_of body) [("workspaceId", JString workspaceId); ("bindingId", JString bindingId)])).

(** Source: apps/trust-api/src/app.ts:614-692 createApi *)
Definition binding_routes : list Entry := [
  mkEntry "GET" (Exact "/v1/storage/bindings/rollup") (WithOptional has_getStorageBindingRollup) (λ _ _,
    secured_ workspace_read (λ workspaceId _, on (getStorageBindingRollup workspaceId)));
  mkEntry "GET" (Exact "/v1/storage/bindings") (WithOptional has_listStorageBindings) (λ _ _,
    secured_ workspace_read (λ workspaceId _, on (listStorageBindings workspaceId binding_query)));
  mkEntry "POST" (Exact "/v1/storage/bindings") (WithOptional has_upsertStorageBinding) (λ _ _,
    validated validUpsertStorageBinding (secured_ storage_manage (λ _ actor, on (upsertStorageBinding actor body))));
  mkEntry "GET" (matched "/v1/storage/bindings/*") (WithOptional has_getStorageBinding) (λ bindingId _,
    secured_ workspace_read (λ workspaceId _, on (getStorageBinding workspaceId bindingId)));
  mkEntry "DELETE" (matched "/v1/storage/bindings/*") (WithOptional has_deleteStorageBinding) (λ bindingId _,
    secured_ storage_manage (λ workspaceId actor, on (deleteStorageBinding actor bindingId workspaceId)))
].

(** Source: apps/trust-api/src/app.ts:693-791 createApi *)
Definition binding_command_routes : list Entry := [
  mkEntry "POST" (matched "/v1/storage/bindings/*/probe") (WithOptional has_probeStorageBinding) (λ bindingId _,
    validated validProbeStorageBinding
      (secured_ storage_manage (λ workspaceId actor, on (probeStorageBinding actor (under_body workspaceId bindingId)))));
  mkEntry "POST" (matched "/v1/storage/bindings/*/plan/refresh") (WithOptional has_refreshStoragePlan) (λ bindingId _,
    validated validRefreshStoragePlan
      (secured_ storage_manage (λ workspaceId actor, on (refreshStoragePlan actor (under_body workspaceId bindingId)))));
  mkEntry "POST" (matched "/v1/storage/bindings/*/plan/accept") (WithOptional has_acceptStoragePlan) (λ bindingId _,
    validated validAcceptStoragePlan
      (secured_ storage_manage (λ workspaceId actor, on (acceptStoragePlan actor (over_body workspaceId bindingId)))));
  mkEntry "POST" (matched "/v1/storage/bindings/*/disable") (WithOptional has_disableStorageBinding) (λ bindingId _,
    secured_ storage_manage (λ workspaceId actor, on (disableStorageBinding actor bindingId workspaceId)));
  mkEntry "POST" (matched "/v1/storage/bindings/*/rollback") (WithOptional has_rollbackStorageBinding) (λ bindingId _,
    secured_ storage_manage (λ workspaceId actor, on (rollbackStorageBinding actor bindingId workspaceId)));
  mkEntry "POST" (Exact "/v1/storage/bindings/migrate/cutover") (WithOptional has_cutoverStorageMigrate) (λ _ _,
    validated validCutoverStorageMigrate (secured_ storage_manage (λ _ actor, on (cutoverStorageMigrate actor body))))
].

(** Source: apps/trust-api/src/app.ts:792-932 createApi *)
Definition governance_routes : list Entry := [
  mkEntry "GET" (Exact "/v1/policy-assignments") Always (λ _ _,
    secured_ access_manage (λ workspaceId _, on (listPolicyAssignments_ workspaceId)));
  mkEntry "POST" (Exact "/v1/policy-assignments") Always (λ _ _,
    validated validPolicyAssignment (secured_ access_manage (λ _ actor, on (createPolicyAssignment actor body))));
  mkEntry "DELETE" (matched "/v1/policy-assignments/*") Always (λ assignmentId _,
    validated validPolicyRevocation
      (secured_ access_manage (λ _ actor, on (revokePolicyAssignment assignmentId actor body))));
  mkEntry "GET" (Exact "/v1/schemas") Always (λ _ _, secured_ workspace_read (λ _ _, listSchemas));
  mkEntry "GET" (Matched (Rest "/v1/schemas/")) Always (λ key _,
    finished (found "SCHEMA_NOT_FOUND" "The requested schema package was not found.")
      (secured_ workspace_read (λ _ _, getSchema key)));
  mkEntry "GET" (Exact "/v1/datasets") Always (λ _ _,
    secured_ dataset_read (λ workspaceId _, on (listDatasets workspaceId)));
  mkEntry "GET" (matched "/v1/datasets/*") Always (λ datasetId _,
    scoped (fixed (in_dataset datasetId)) (finished (found "DATASET_NOT_FOUND" "The requested dataset was not found.")
      (secured_ dataset_read (λ workspaceId _, on (getDataset workspaceId datasetId)))));
  mkEntry "GET" (Exact "/v1/retention-policies") Always (λ _ _,
    secured_ dataset_read (λ workspaceId _, on (listRetentionPolicies workspaceId)));
  mkEntry "POST" (Exact "/v1/retention-policies") Always (λ _ _,
    validated validRetentionPolicy (secured_ retention_manage (λ _ actor, on (createRetentionPolicy actor body))));
  mkEntry "GET" (matched "/v1/retention-policies/*") Always (λ policyId _,
    finished (found "RETENTION_POLICY_NOT_FOUND" "The requested retention policy was not found.")
      (secured_ dataset_read (λ workspaceId _, on (getRetentionPolicy workspaceId policyId))));
  mkEntry "PUT" (matched "/v1/retention-policies/*") Always (λ policyId _,
    validated validRetentionPolicyUpdate
      (secured_ retention_manage (λ _ actor, on (updateRetentionPolicy policyId actor body))))
].

(** Source: apps/trust-api/src/app.ts:933-1070 createApi *)
Definition resource_routes : list Entry :=
  let resource_found := finished (found "RESOURCE_NOT_FOUND" "The requested resource was not found.") in [
  mkEntry "GET" (Exact "/v1/resources") Always (λ _ _,
    scoped (fixed applications_admitted)
      (secured_ resource_read (λ workspaceId _, on (listResources workspaceId dataset_header))));
  mkEntry "GET" (matched "/v1/resources/*") Always (λ resourceId _,
    scoped (resourceScope resourceId) (resource_found
      (secured_ resource_read (λ workspaceId _, on (getResource workspaceId resourceId)))));
  mkEntry "GET" (matched "/v1/resources/*/revision-graph") Always (λ resourceId _,
    scoped (resourceScope resourceId) (resource_found
      (secured_ resource_read (λ workspaceId _, on (getRevisionGraph workspaceId resourceId)))));
  mkEntry "POST" (matched "/v1/resources/*/revisions") Always (λ resourceId _,
    scoped (resourceScope resourceId) (validated validRevision
      (secured_ revision_create (λ _ actor, on (createRevision resourceId actor body)))));
  mkEntry "POST" (matched "/v1/resources/*/delete") Always (λ resourceId _,
    scoped (resourceScope resourceId) (validated validDelete
      (secured_ resource_delete (λ _ actor, on (deleteResource resourceId actor body)))));
  mkEntry "POST" (matched "/v1/resources/*/restore") Always (λ resourceId _,
    scoped (resourceScope resourceId) (validated validRestore
      (secured_ resource_restore (λ _ actor, on (restoreResource resourceId actor body)))));
  mkEntry "GET" (Exact "/v1/deleted-resources") Always (λ _ _,
    scoped (fixed applications_admitted)
      (secured_ history_read (λ workspaceId _, on (listDeletedResources workspaceId dataset_header))));
  mkEntry "GET" (Exact "/v1/relations") Always (λ _ _,
    scoped (fixed applications_admitted)
      (secured_ relation_read (λ workspaceId _, on (listRelations workspaceId dataset_header))));
  mkEntry "GET" (Exact "/v1/history") Always (λ _ _,
    secured_ history_read (λ workspaceId _, on (getHistory workspaceId dataset_header)))
].

(** The command of [/v1/health/storage/probe], and its action. *)
Definition storage_probe (actor : AuthenticatedActor) : result api_exn Call :=
  if match api_commands api with Some has => has has_probeStorageHealth | None => false end
  then Ok (on (probeStorageHealth actor body))
  else Err (OtherThrown (Some "COMMAND_BOUNDARY_UNAVAILABLE") (Some "Storage probe is not available in this mode.")).
Definition probe_action (body : option json) : PolicyAction :=
  if equals (body_get body "tier") "ingest" then storage_probe_ingest else health_read.

(** Source: apps/trust-api/src/app.ts:1071-1183 createApi *)
Definition health_routes : list Entry := [
  mkEntry "GET" (Exact "/v1/audit/events") Always (λ _ _,
    secured_ audit_read (λ workspaceId _, on (listAuditEvents workspaceId dataset_header)));
  mkEntry "POST" (Exact "/v1/verification/runs") Always (λ _ _,
    scoped (verificationAuthorizationScope body) (validated validVerification
      (secured_ verification_run (λ _ actor, on (runVerification actor body)))));
  mkEntry "GET" (Exact "/v1/verification/reports") Always (λ _ _,
    secured_ verification_run (λ workspaceId _, on (listVerificationReports workspaceId)));
  mkEntry "GET" (matched "/v1/verification/reports/*") Always (λ reportId _,
    scoped (verificationReportScope reportId)
      (finished (found "VERIFICATION_REPORT_NOT_FOUND" "The requested verification report was not found.")
        (secured_ verification_run (λ workspaceId _, on (getVerificationReport workspaceId reportId)))));
  mkEntry "GET" (matched "/v1/operations/*") Always (λ operationId _,
    finished (found "OPERATION_NOT_FOUND" "The requested operation was not found.")
      (secured_ health_read (λ workspaceId _, on (getOperation workspaceId operationId))));
  mkEntry "GET" (Exact "/v1/health/storage") Always (λ _ _,
    secured_ health_read (λ workspaceId _, on (getStorageHealth workspaceId)));
  mkEntry "POST" (Exact "/v1/health/storage/probe") Always (λ _ _,
    validated validProbeStorage (secured_try (probe_action body) (λ _ actor, storage_probe actor)));
  mkEntry "GET" (Exact "/v1/health/backup") Always (λ _ _,
    secured_ health_read (λ workspaceId _, on (getBackupHealth workspaceId)))
].

(** Source: apps/trust-api/src/app.ts:1184-1277 createApi *)
Definition upload_routes : list Entry :=
  let upload_found := finished (found "OPERATION_NOT_FOUND" "The requested upload session was not found.") in [
  mkEntry "POST" (Exact "/v1/uploads") Always (λ _ _,
    scoped (fixed applications_admitted) (validated validCreateUpload
      (secured_ object_ingest (λ _ actor, on (createUpload actor body)))));
  mkEntry "GET" (matched "/v1/uploads/*") Always (λ uploadId _,
    scoped (fixed applications_admitted) (upload_found
      (secured_ object_ingest (λ workspaceId actor, on (getUpload workspaceId uploadId actor)))));
  mkEntry "GET" (matched "/v1/uploads/*/scan-status") Always (λ uploadId _,
    scoped (fixed applications_admitted) (upload_found
      (secured_ object_ingest (λ workspaceId actor, on (getUploadScanStatus workspaceId uploadId actor)))));
  mkEntry "POST" (matched "/v1/uploads/*/complete") Always (λ uploadId _,
    scoped (fixed applications_admitted) (validated validCompleteUpload
      (secured_ object_ingest (λ _ actor, on (completeUpload uploadId actor body)))));
  mkEntry "POST" (Exact "/v1/blobs/download-grants") (WithOptional has_createDownloadGrant) (λ _ _,
    scoped (fixed applications_admitted) (validated validCreateDownloadGrant
      (secured_ blob_read (λ _ actor, on (createDownloadGrant actor body)))));
  mkEntry "POST" (Exact "/v1/objects/ingest") Always (λ _ _,
    ingesting (scoped (fixed applications_admitted) (validated validObjectIngest
      (secured_ object_ingest (λ _ actor, on (ingestObject actor body))))))
].

(** Source: apps/trust-api/src/app.ts:1278-1425 createApi *)
Definition portability_routes : list Entry := [
  mkEntry "POST" (Exact "/v1/portability/exports") WithPortability (λ _ _,
    reauthenticated (validated validArchiveExport
      (secured_ portability_export (λ _ actor, OnPortability (createExport actor body)))));
  mkEntry "GET" (matched "/v1/portability/exports/*/download") WithPortability (λ exportId _,
    reauthenticated (finished (λ value,
        archiveDownloadResult (header request "accept") <$>
        found "ARCHIVE_NOT_FOUND" "The requested archive export was not found." value)
      (secured_ portability_export (λ workspaceId _, OnPortability (downloadExport workspaceId exportId)))));
  mkEntry "POST" (Exact "/v1/portability/archives") WithPortability (λ _ _,
    validated validArchiveUpload (secured_ portability_plan (λ _ actor, OnPortability (uploadArchive actor body))));
  mkEntry "GET" (matched "/v1/portability/archives/*") WithPortability (λ archiveId _,
    finished (found "ARCHIVE_NOT_FOUND" "The requested archive candidate was not found.")
      (secured_ portability_read (λ workspaceId _, OnPortability (getArchive workspaceId archiveId))));
  mkEntry "POST" (Exact "/v1/portability/plans") WithPortability (λ _ _,
    validated validImportPlan (secured_ portability_plan (λ _ actor, OnPortability (createPlan_ actor body))));
  mkEntry "GET" (matched "/v1/portability/plans/*") WithPortability (λ planId _,
    finished (found "IMPORT_PLAN_NOT_FOUND" "The requested import plan was not found.")
      (secured_ portability_read (λ workspaceId _, OnPortability (getPlan workspaceId planId))));
  mkEntry "POST" (matched "/v1/portability/plans/*/execute") WithPortability (λ planId _,
    reauthenticated (validated validExecuteImport
      (secured_ portability_execute (λ _ actor, OnPortability (executePlan planId actor body)))));
  mkEntry "GET" (matched "/v1/portability/operations/*") WithPortability (λ operationId _,
    finished (found "OPERATION_NOT_FOUND" "The requested import operation was not found.")
      (secured_ portability_read (λ workspaceId _, OnPortability (getImportOperation workspaceId operationId))))
].

(** Source: apps/trust-api/src/app.ts:1426-1429 createApi *)
Definition control_routes : list Entry := [
  mkEntry "GET" (Exact "/v1/control-centre/snapshot") Always (λ _ _, secured_ control_read (λ _ _, getSnapshot))
].

Definition later_routes : list Entry :=
  (tenant_routes ++ binding_routes ++ binding_command_routes ++ governance_routes ++ resource_routes ++ health_routes ++
   upload_routes ++ portability_routes ++ control_routes)%list.
Definition table : list Entry := (workspace_routes ++ later_routes)%list.

(** The patterns whose captures are decoded before any route is tried, and those
    decoded after the first three. *)
(** Source: apps/trust-api/src/app.ts:340-394 createApi *)
Definition first_patterns : list Pattern :=
  (map Segments ["/v1/datasets/*"; "/v1/resources/*"; "/v1/retention-policies/*"; "/v1/policy-assignments/*";
    "/v1/resources/*/revision-graph"; "/v1/resources/*/revisions"; "/v1/resources/*/delete"; "/v1/resources/*/restore"] ++
  [Rest "/v1/schemas/"] ++
  map Segments ["/v1/verification/reports/*"; "/v1/operations/*"; "/v1/uploads/*"; "/v1/uploads/*/scan-status";
    "/v1/uploads/*/complete"; "/v1/portability/archives/*"; "/v1/portability/exports/*/download";
    "/v1/portability/plans/*"; "/v1/portability/plans/*/execute"; "/v1/portability/operations/*"])%list.
(** Source: apps/trust-api/src/app.ts:428-471 createApi *)
Definition later_patterns : list Pattern :=
  map Segments ["/v1/applications/*/tenants"; "/v1/applications/*/storage"; "/v1/storage/bindings/*";
    "/v1/storage/bindings/*/probe"; "/v1/storage/bindings/*/plan/refresh"; "/v1/storage/bindings/*/plan/accept";
    "/v1/storage/bindings/*/disable"; "/v1/storage/bindings/*/rollback"].

Fixpoint match_all (pathname : string) (patterns : list Pattern) : result api_exn unit :=
  match patterns with
  | [] => Ok tt
  | p :: patterns => match_ pathname p ≫= λ _, match_all pathname patterns
  end.

(** The test of a path, with its captures. *)
Definition path_args (pathname : string) (path : Path) : option (string * string) :=
  match path with
  | Exact p => if pathname === p then Some (EmptyString, EmptyString) else None
  | Matched p => match match_ pathname p with
                 | Ok value => if truthy value then (λ v, (v, EmptyString)) <$> value else None
                 | Err _ => None
                 end
  | Parts template => match captures (Segments template) pathname with
                      | Some [part1; part2] => Some (part1, part2)
                      | _ => None
                      end
  end.
Fixpoint select (entries : list Entry) (method pathname : string) : option (Entry * (string * string)) :=
  match entries with
  | [] => None
  | e :: entries =>
      match path_args pathname (entry_path e) with
      | Some args => if method === entry_method e then Some (e, args) else select entries method pathname
      | None => select entries method pathname
      end
  end.

Definition available (a : Availability) : bool :=
  match a with
  | Always => true
  | WithOptional o => match api_commands api with Some has => has o | None => false end
  | WithPortability => api_portability api
  end.
(** The first test of [secured]. *)
Definition configured (needsIngest : bool) : option (AccessGateway S) :=
  match api_commands api, api_access api with
  | Some has, Some access => if needsIngest && negb (has has_ingestObject) then None else Some access
  | _, _ => None
  end.
(** The arguments of [secured] for a handler. *)
Definition handler_execute (h : Handler) (workspaceId : string) (actor : AuthenticatedActor) : M S api_exn (option json) :=
  lift (handler_call h workspaceId actor) ≫= λ call, api_run api call ≫= λ value, lift (handler_finish h value).
Definition handler_route (h : Handler) : Route :=
  mkRoute (handler_action h) (handler_execute h) (handler_validate h) (handler_scope h) (handler_requiresReauthentication h).
Definition serve (method : string) (e : Entry) (args : string * string) : M S api_exn ApiResult :=
  let h := entry_handler e args.1 args.2 in
  if available (entry_when e) then secured (configured (handler_needsIngest h)) method request (handler_route h)
  else mret (unavailable request).

(** Source: apps/trust-api/src/app.ts:329-338 createApi *)
Definition health_answer (s : S) : ApiResult :=
  mkApiResult (JNumber 200) (Some (JObject [("service", JString "trust-api"); ("status", JString "ok");
    ("mode", JString (api_mode api)); ("checkedAt", JString (toISOString (api_clock api s)))])) None.
(** Source: apps/trust-api/src/app.ts:1431-1443 createApi *)
Definition no_route (method : string) : ApiResult :=
  if method !== "GET" then failure 405 "METHOD_NOT_ALLOWED" "The HTTP method is not supported for this route." request
  else failure 404 "NOT_FOUND" "The requested route was not found." request.

(** Source: apps/trust-api/src/app.ts:324-328 route *)
Definition route (method pathname : string) : M S api_exn ApiResult :=
  if (pathname === "/health") && (method === "GET") then gets health_answer
  else
    lift (match_all pathname first_patterns) ≫= λ _,
    match select workspace_routes method pathname with
    | Some (e, args) => serve method e args
    | None =>
        lift (match_all pathname later_patterns) ≫= λ _,
        match select later_routes method pathname with
        | Some (e, args) => serve method e args
        | None => mret (no_route method)
        end
    end.
End Routes.

(** ** What a call needs *)

(** The permission of a call: the reference that the routes are held against. *)
Definition required_action (c : Call) : PolicyAction :=
  match c with
  | listSchemas | getSchema _ => workspace_read
  | getSnapshot => control_read
  | OnPortability c =>
      match c with
      | createExport _ _ | downloadExport _ _ => portability_export
      | uploadArchive _ _ | createPlan_ _ _ => portability_plan
      | getArchive _ _ | getPlan _ _ | getImportOperation _ _ => portability_read
      | executePlan _ _ _ => portability_execute
      end
  | OnCommands c =>
      match c with
      | listWorkspaces _ | listApplications_ _ | listApplicationTenants _ _ | getApplicationTenant _ _ _
      | getEffectiveStorage _ _ _ | getStorageBindingRollup _ | listStorageBindings _ _ | getStorageBinding _ _ => workspace_read
      | registerApplication _ _ => workspace_manage
      | listPolicyAssignments_ _ | createPolicyAssignment _ _ | revokePolicyAssignment _ _ _ => access_manage
      | listDatasets _ | getDataset _ _ | listRetentionPolicies _ | getRetentionPolicy _ _ => dataset_read
      | createRetentionPolicy _ _ | updateRetentionPolicy _ _ _ => retention_manage
      | listResources _ _ | getResource _ _ | getRevisionGraph _ _ => resource_read
      | listRelations _ _ => relation_read
      | listDeletedResources _ _ | getHistory _ _ => history_read
      | listAuditEvents _ _ => audit_read
      | createRevision _ _ _ => revision_create
      | deleteResource _ _ _ => resource_delete
      | restoreResource _ _ _ => resource_restore
      | runVerification _ _ | listVerificationReports _ | getVerificationReport _ _ => verification_run
      | getOperation _ _ | getStorageHealth _ | getBackupHealth _ => health_read
      | probeStorageHealth _ command => probe_action command
      | createUpload _ _ | getUpload _ _ _ | getUploadScanStatus _ _ _ | completeUpload _ _ _ | ingestObject _ _ => object_ingest
      | createDownloadGrant _ _ => blob_read
      | createApplicationTenant _ _ | updateApplicationTenant _ _ _ | suspendApplicationTenant _ _ _
      | closeApplicationTenant _ _ _ | upsertStorageBinding _ _ | deleteStorageBinding _ _ _ | probeStorageBinding _ _
      | refreshStoragePlan _ _ | acceptStoragePlan _ _ | disableStorageBinding _ _ _ | rollbackStorageBinding _ _ _
      | cutoverStorageMigrate _ _ => storage_manage
      end
  end.

(** The calls that take fresh authentication, those that an application may
    make, and those that pass the actor on: they change what is stored. *)
Definition privileged (c : Call) : bool :=
  match c with OnPortability (createExport _ _ | downloadExport _ _ | executePlan _ _ _) => true | _ => false end.
Definition open_to_applications (c : Call) : bool :=
  match c with
  | OnCommands (listResources _ _ | listDeletedResources _ _ | listRelations _ _ | createUpload _ _ | getUpload _ _ _
      | getUploadScanStatus _ _ _ | completeUpload _ _ _ | createDownloadGrant _ _ | ingestObject _ _) => true
  | _ => false
  end.
Definition reads_only (c : Call) : bool :=
  match c with
  | listSchemas | getSchema _ | getSnapshot => true
  | OnPortability c =>
      match c with downloadExport _ _ | getArchive _ _ | getPlan _ _ | getImportOperation _ _ => true | _ => false end
  | OnCommands c =>
      match c with
      | listWorkspaces _ | listApplications_ _ | listPolicyAssignments_ _ | listDatasets _ | getDataset _ _
      | listRetentionPolicies _ | getRetentionPolicy _ _ | listResources _ _ | getResource _ _ | getRevisionGraph _ _
      | listRelations _ _ | listDeletedResources _ _ | getHistory _ _ | listAuditEvents _ _ | listVerificationReports _
      | getVerificationReport _ _ | getOperation _ _ | getStorageHealth _ | getBackupHealth _ | getUpload _ _ _
      | getUploadScanStatus _ _ _ | listApplicationTenants _ _ | getApplicationTenant _ _ _ | getEffectiveStorage _ _ _
      | getStorageBindingRollup _ | listStorageBindings _ _ | getStorageBinding _ _ => true
      | _ => false
      end
  end.

(** The workspace a call names, and the actor it is made for; [None] for none. *)
Definition call_workspace (c : Call) : option (option json) :=
  match c with
  | listSchemas | getSchema _ | getSnapshot => None
  | OnPortability c =>
      match c with
      | downloadExport w _ | getArchive w _ | getPlan w _ | getImportOperation w _ => Some (Some (JString w))
      | createExport _ b | uploadArchive _ b | createPlan_ _ b | executePlan _ _ b => Some (body_get b "workspaceId")
      end
  | OnCommands c =>
      match c with
      | listWorkspaces w | listApplications_ w | listPolicyAssignments_ w | listDatasets w | getDataset w _
      | listRetentionPolicies w | getRetentionPolicy w _ | listResources w _ | getResource w _ | getRevisionGraph w _
      | listRelations w _ | listDeletedResources w _ | getHistory w _ | listAuditEvents w _ | listVerificationReports w
      | getVerificationReport w _ | getOperation w _ | getStorageHealth w | getBackupHealth w | getUpload w _ _
      | getUploadScanStatus w _ _ | listApplicationTenants w _ | getApplicationTenant w _ _ | getEffectiveStorage w _ _
      | getStorageBindingRollup w | listStorageBindings w _ | getStorageBinding w _ | deleteStorageBinding _ _ w
      | disableStorageBinding _ _ w | rollbackStorageBinding _ _ w => Some (Some (JString w))
      | registerApplication _ b | createPolicyAssignment _ b | revokePolicyAssignment _ _ b | createRetentionPolicy _ b
      | updateRetentionPolicy _ _ b | createRevision _ _ b | deleteResource _ _ b | restoreResource _ _ b
      | runVerification _ b | probeStorageHealth _ b | createUpload _ b | completeUpload _ _ b | createDownloadGrant _ b
      | ingestObject _ b | createApplicationTenant _ b | updateApplicationTenant _ _ b | suspendApplicationTenant _ _ b
      | closeApplicationTenant _ _ b | upsertStorageBinding _ b | probeStorageBinding _ b | refreshStoragePlan _ b
      | acceptStoragePlan _ b | cutoverStorageMigrate _ b => Some (body_get b "workspaceId")
      end
  end.
Definition call_actor (c : Call) : option AuthenticatedActor :=
  match c with
  | listSchemas | getSchema _ | getSnapshot => None
  | OnPortability c =>
      match c with
      | createExport a _ | uploadArchive a _ | createPlan_ a _ | executePlan _ a _ => Some a
      | _ => None
      end
  | OnCommands c =>
      match c with
      | registerApplication a _ | createPolicyAssignment a _ | revokePolicyAssignment _ a _ | createRetentionPolicy a _
      | updateRetentionPolicy _ a _ | createRevision _ a _ | deleteResource _ a _ | restoreResource _ a _
      | runVerification a _ | probeStorageHealth a _ | createUpload a _ | completeUpload _ a _ | createDownloadGrant a _
      | ingestObject a _ | createApplicationTenant a _ | updateApplicationTenant a _ _ | suspendApplicationTenant a _ _
      | closeApplicationTenant a _ _ | upsertStorageBinding a _ | probeStorageBinding a _ | refreshStoragePlan a _
      | acceptStoragePlan a _ | cutoverStorageMigrate a _ | deleteStorageBinding a _ _ | disableStorageBinding a _ _
      | rollbackStorageBinding a _ _ | getUpload _ _ a | getUploadScanStatus _ _ a => Some a
      | _ => None
      end
  end.
Definition body_wins (c : Call) : bool :=
  match c with OnCommands (probeStorageBinding _ _ | refreshStoragePlan _ _) => true | _ => false end.

(** A call stays in a workspace: it names that workspace, if any; where the body
    is spread last it may instead name something that is no workspace, a blank
    string or no string. *)
Definition stays_in (workspaceId : string) (c : Call) : Prop :=
  match call_workspace c with
  | None => True
  | Some w => w = Some (JString workspaceId) ∨ body_wins c = true ∧ nonEmpty w = None
  end.

Lemma obj_get_cons k v (l : list (string * json)) name : obj_get ((k, v) :: l) name = if k === name then Some v else obj_get l name.
Proof. unfold obj_get. cbn. by destruct (k === name). Qed.
Lemma obj_get_app (a b : list (string * json)) name :
  obj_get (a ++ b)%list name = match obj_get a name with Some v => Some v | None => obj_get b name end.
Proof.
  induction a as [|[k v] a IH]; [done|]. change (((k, v) :: a) ++ b)%list with ((k, v) :: (a ++ b))%list.
  rewrite !obj_get_cons. by destruct (k === name).
Qed.
Lemma obj_get_spread a b name :
  obj_get (spread a b) name = match obj_get b name with Some v => Some v | None => obj_get a name end.
Proof.
  unfold spread. rewrite obj_get_app.
  assert (obj_get (map (λ e, (e.1, default e.2 (obj_get b e.1))) a) name =
    (λ v, default v (obj_get b name)) <$> obj_get a name) as ->.
  { induction a as [|[k v] a IH]; [done|]. cbn [map fst snd]. rewrite !obj_get_cons. case_bool_decide as E; [by subst|done]. }
  destruct (obj_get a name) as [v|] eqn:Ea; cbn; [by destruct (obj_get b name)|].
  transitivity (obj_get b name); [|by destruct (obj_get b name)]. induction b as [|[k v] b IH]; [done|]. cbn [List.filter fst].
  rewrite obj_get_cons. case_bool_decide as Ek; rewrite ?obj_get_cons.
  - by rewrite IH.
  - rewrite IH. case_bool_decide as E; [by subst|done].
Qed.

(** A validator that requires a workspace. *)
Class RequiresWorkspace (validate : option json → bool) :=
  requires_workspace body : validate body = true → validWorkspaceBody body = true.

Ltac head_of t := lazymatch t with ?f _ => head_of f | _ => t end.
Ltac by_conjuncts :=
  let b := fresh "b" in let Hb := fresh "Hb" in
  intros b Hb; lazymatch type of Hb with ?t = true => let h := head_of t in unfold h in Hb end;
  repeat match goal with H : _ && _ = true |- _ => apply andb_true_iff in H as [? ?] end; done.
Section Requirements.
Context `{JsDate}.
#[export] Instance validApplication_ws : RequiresWorkspace validApplication. Proof. by_conjuncts. Qed.
#[export] Instance validRevision_ws : RequiresWorkspace validRevision. Proof. by_conjuncts. Qed.
#[export] Instance validPolicyRevocation_ws : RequiresWorkspace validPolicyRevocation. Proof. by_conjuncts. Qed.
#[export] Instance validDelete_ws : RequiresWorkspace validDelete. Proof. by_conjuncts. Qed.
#[export] Instance validRetentionPolicy_ws : RequiresWorkspace validRetentionPolicy. Proof. by_conjuncts. Qed.
#[export] Instance validRestore_ws : RequiresWorkspace validRestore. Proof. by_conjuncts. Qed.
#[export] Instance validProbeStorage_ws : RequiresWorkspace validProbeStorage. Proof. by_conjuncts. Qed.
#[export] Instance validCreateApplicationTenant_ws : RequiresWorkspace validCreateApplicationTenant. Proof. by_conjuncts. Qed.
#[export] Instance validUpdateApplicationTenant_ws : RequiresWorkspace validUpdateApplicationTenant. Proof. by_conjuncts. Qed.
#[export] Instance validTenantStatusCommand_ws : RequiresWorkspace validTenantStatusCommand. Proof. by_conjuncts. Qed.
#[export] Instance validUpsertStorageBinding_ws : RequiresWorkspace validUpsertStorageBinding. Proof. by_conjuncts. Qed.
#[export] Instance validCutoverStorageMigrate_ws : RequiresWorkspace validCutoverStorageMigrate. Proof. by_conjuncts. Qed.
#[export] Instance validObjectIngest_ws : RequiresWorkspace validObjectIngest. Proof. by_conjuncts. Qed.
#[export] Instance validCreateUpload_ws : RequiresWorkspace validCreateUpload. Proof. by_conjuncts. Qed.
#[export] Instance validCompleteUpload_ws : RequiresWorkspace validCompleteUpload. Proof. by_conjuncts. Qed.
#[export] Instance validCreateDownloadGrant_ws : RequiresWorkspace validCreateDownloadGrant. Proof. by_conjuncts. Qed.
#[export] Instance validArchiveUpload_ws : RequiresWorkspace validArchiveUpload. Proof. by_conjuncts. Qed.
#[export] Instance validArchiveExport_ws : RequiresWorkspace validArchiveExport. Proof. by_conjuncts. Qed.
#[export] Instance validImportPlan_ws : RequiresWorkspace validImportPlan. Proof. by_conjuncts. Qed.
#[export] Instance validExecuteImport_ws : RequiresWorkspace validExecuteImport. Proof. by_conjuncts. Qed.
#[export] Instance validRetentionPolicyUpdate_ws : RequiresWorkspace validRetentionPolicyUpdate.
Proof.
  intros b Hb. apply validRetentionPolicy_ws. unfold validRetentionPolicyUpdate in Hb.
  by apply andb_true_iff in Hb as [[_ Hb]%andb_true_iff _].
Qed.
#[export] Instance validPolicyAssignment_ws : RequiresWorkspace validPolicyAssignment.
Proof. intros b. unfold validPolicyAssignment. by destruct (validWorkspaceBody b). Qed.
#[export] Instance validVerification_ws : RequiresWorkspace validVerification.
Proof. intros b. unfold validVerification. by destruct (validWorkspaceBody b). Qed.
End Requirements.

(** The workspace of a valid body is the one the request is authorised for. *)
Lemma body_workspace_named request workspaceId :
  validWorkspaceBody (request_body request) = true → request_workspace request = Some workspaceId →
  body_get (request_body request) "workspaceId" = Some (JString workspaceId).
Proof.
  unfold validWorkspaceBody, has_text, is_nonEmpty, request_workspace, bodyWorkspace, body_get.
  destruct (request_body request) as [[]|]; try done. intros [w Hw]%andb_true_iff. apply bool_decide_eq_true in Hw as [t Ht].
  rewrite Ht. unfold nonEmpty in Ht. destruct (obj_get _ _) as [[]|]; try done. destruct (blank _); [done|]. injection Ht as ->.
  cbn [over given]. unfold given. destruct (truthy _); [|done]. by intros [= ->].
Qed.

(** ** Every route asks for what its call needs *)

(** A program that takes steps of [R] only, whatever it answers. *)
Definition only {S E A} (R : S → S → Prop) (m : M S E A) : Prop := ∀ s, rtc R s (m s).2.
Section Only.
Context {S E : Type} (R : S → S → Prop).
Lemma only_ret {A} (a : A) : only R (mret a : M S E A).
Proof. intros s. apply rtc_refl. Qed.
Lemma only_bind {A B} (m : M S E A) (f : A → M S E B) : only R m → (∀ a, only R (f a)) → only R (m ≫= f).
Proof.
  intros Hm Hf s. unfold mbind, M_bind. specialize (Hm s). destruct (m s) as [[a|e] s']; [|done].
  by etrans; [exact Hm|apply Hf].
Qed.
Lemma only_weaken {A} (R' : S → S → Prop) (m : M S E A) : (∀ s s', R s s' → R' s s') → only R m → only R' m.
Proof. intros HR Hm s. specialize (Hm s). by induction Hm; [apply rtc_refl|eapply rtc_l; [apply HR|]]. Qed.
End Only.

(** What [secured] does before the command runs is what the gateway does and
    what the scope of the route is found with. *)
Lemma authorise_only {S} (R : S → S → Prop) (access : AccessGateway S) method request (route : Route (S := S)) :
  (∀ token, only R (access_authenticate token)) →
  (∀ authenticate id csrf mutation, access_authenticateSession = Some authenticate → only R (authenticate id csrf mutation)) →
  (∀ actor action scope, only R (access_allows actor action scope)) →
  (∀ confirms actor proof, access_confirms = Some confirms → only R (confirms actor proof)) →
  (∀ workspaceId, only R (route_extraScope route workspaceId)) →
  only R (authorise (Some access) method request route).
Proof.
  intros Ha Hs Hal Hc Hx. unfold authorise, find_actor.
  repeat first [progress intros | apply only_ret | apply only_bind | solve [eauto] | case_match].
Qed.

Section Mediation.
Context `{JsDate} `{TextCodec} {S : Type} (api : Api (S := S)) (request : ApiRequest).

(** A call that only reads was made. *)
Definition reading (s s' : S) : Prop := ∃ c, reads_only c = true ∧ s' = (api_run api c s).2.

(** What a handler guarantees of the call it makes, once the request names a
    workspace and its body is valid; and of the scope it is authorised for, which
    is found by calls that only read. *)
Record handler_ok (method : string) (h : Handler (S := S)) : Prop := mkHandlerOk {
  ok_call workspaceId actor c :
    request_workspace request = Some workspaceId →
    (∀ validate, handler_validate h = Some validate → validate (request_body request) = true) →
    handler_call h workspaceId actor = Ok c →
    required_action c = handler_action h ∧ stays_in workspaceId c ∧
    (call_actor c = None ∨ call_actor c = Some actor) ∧
    (method = "GET" → reads_only c = true) ∧
    (privileged c = true → handler_requiresReauthentication h = true);
  ok_scope workspaceId actor c s p s' :
    handler_call h workspaceId actor = Ok c → handler_scope h workspaceId s = (Ok p, s') →
    partial_workspaceId p = None ∧ (partial_applicationScopeAllowed p = Some true → open_to_applications c = true);
  ok_reads workspaceId : only reading (handler_scope h workspaceId);
}.

Lemma run_reading c : reads_only c = true → only reading (api_run api c).
Proof. intros Hc s. apply rtc_once. by exists c. Qed.
Lemma resourceScope_reads id w : only reading (resourceScope api id w).
Proof. apply only_bind; [by apply run_reading|]. intros. apply only_ret. Qed.
Lemma verificationScope_reads b w : only reading (verificationAuthorizationScope api b w).
Proof. unfold verificationAuthorizationScope. repeat case_match; auto using only_ret, resourceScope_reads. Qed.
Lemma reportScope_reads id w : only reading (verificationReportScope api id w).
Proof.
  apply only_bind; [by apply run_reading|]. intros r. cbn zeta.
  repeat first [apply only_ret | apply resourceScope_reads | case_match].
Qed.

Lemma resourceScope_plain id w s p s' :
  resourceScope api id w s = (Ok p, s') → partial_workspaceId p = None ∧ partial_applicationScopeAllowed p = None.
Proof. unfold resourceScope. intros (r & s1 & _ & Hr)%M_bind_Ok. destruct (nonEmpty _); by injection Hr as <- <-. Qed.
Lemma verificationScope_plain b w s p s' :
  verificationAuthorizationScope api b w s = (Ok p, s') → partial_workspaceId p = None ∧ partial_applicationScopeAllowed p = None.
Proof.
  unfold verificationAuthorizationScope. destruct (nonEmpty _); [|by intros [= <- <-]].
  destruct (equals _ "dataset"); [by intros [= <- <-]|]. destruct (negb _); [by intros [= <- <-]|]. apply resourceScope_plain.
Qed.
Lemma reportScope_plain id w s p s' :
  verificationReportScope api id w s = (Ok p, s') → partial_workspaceId p = None ∧ partial_applicationScopeAllowed p = None.
Proof.
  unfold verificationReportScope. intros (r & s1 & _ & Hr)%M_bind_Ok. revert Hr. destruct (nonEmpty _); [|by intros [= <- <-]].
  destruct (equals _ "dataset"); [by intros [= <- <-]|]. destruct (negb _); [by intros [= <- <-]|]. apply resourceScope_plain.
Qed.

(** The workspace in a body that was spread. *)
Lemma with_application_ws id : body_get (with_application request id) "workspaceId" = body_get (request_body request) "workspaceId".
Proof.
  unfold with_application. cbn [body_get]. rewrite obj_get_spread. cbn. unfold entries_of, body_get.
  by destruct (request_body request) as [[]|].
Qed.
Lemma over_body_ws w b : body_get (over_body request w b) "workspaceId" = Some (JString w).
Proof. unfold over_body. cbn [body_get]. by rewrite obj_get_spread. Qed.
Lemma under_body_ws w b :
  request_workspace request = Some w →
  let v := body_get (under_body request w b) "workspaceId" in v = Some (JString w) ∨ nonEmpty v = None.
Proof.
  intros Hw v. unfold v, under_body. cbn [body_get]. rewrite obj_get_spread.
  destruct (obj_get (entries_of (request_body request)) "workspaceId") as [x|] eqn:Ex; [|by left].
  unfold entries_of in Ex. destruct (request_body request) as [[]|] eqn:Eb; try done.
  unfold request_workspace, bodyWorkspace in Hw. rewrite Eb, Ex in Hw.
  unfold nonEmpty in *. destruct x; auto. destruct (blank _); [by auto|]. left. cbn [over] in Hw. unfold given in Hw.
  destruct (truthy _); [|done]. by injection Hw as ->.
Qed.

Lemma valid_body validate workspaceId :
  RequiresWorkspace validate → request_workspace request = Some workspaceId →
  (∀ v, Some validate = Some v → v (request_body request) = true) →
  body_get (request_body request) "workspaceId" = Some (JString workspaceId).
Proof. intros Hr Hw Hv. apply body_workspace_named; [|done]. by apply Hr, Hv. Qed.

Lemma storage_probe_Ok actor c : storage_probe api request actor = Ok c → c = OnCommands (probeStorageHealth actor (request_body request)).
Proof. unfold storage_probe. case_match; [by intros [= <-]|done]. Qed.

Ltac handler_scope_ok :=
  let Hc := fresh in let Hs := fresh in
  intros ? ? ? ? ? ? Hc Hs; cbn in Hc;
  first [ apply resourceScope_plain in Hs as [? ?]; split; [assumption|congruence]
        | apply verificationScope_plain in Hs as [? ?]; split; [assumption|congruence]
        | apply reportScope_plain in Hs as [? ?]; split; [assumption|congruence]
        | injection Hs as <- <-; split; [reflexivity|]; first [discriminate | injection Hc as <-; reflexivity] ].
Ltac handler_reads_ok :=
  intros ?; cbn; first [apply only_ret | apply resourceScope_reads | apply verificationScope_reads | apply reportScope_reads].
Ltac stays_ok :=
  unfold stays_in; cbn [call_workspace body_wins];
  first [ exact I
        | left; reflexivity
        | left; rewrite ?with_application_ws, ?over_body_ws; first [reflexivity | eapply valid_body; [|eassumption|eassumption]; apply _]
        | edestruct under_body_ws as [?|?]; [eassumption|left; eassumption|right; split; [reflexivity|eassumption]] ].
Ltac handler_call_ok :=
  let Hw := fresh in let Hv := fresh in let Hc := fresh in
  intros ? ? ? Hw Hv Hc; cbn in Hc, Hv;
  repeat match goal with H : mbind _ _ = Ok _ |- _ => apply result_bind_Ok in H as (? & ? & H) end;
  first [injection Hc as <- | apply storage_probe_Ok in Hc as ->]; split_and!; [reflexivity|stays_ok|by auto|intros ?; first [reflexivity|discriminate]|intros ?; first [reflexivity|discriminate]].

Definition entry_ok (e : Entry (S := S)) : Prop := ∀ a b, handler_ok (entry_method e) (entry_handler e a b).
Ltac routes_ok :=
  repeat (apply Forall_cons; split; [intros a b; split; [handler_call_ok|handler_scope_ok|handler_reads_ok]|]); apply Forall_nil; done.

Lemma workspace_routes_ok : Forall entry_ok (workspace_routes request).
Proof. unfold workspace_routes. routes_ok. Qed.
Lemma tenant_routes_ok : Forall entry_ok (tenant_routes request).
Proof. unfold tenant_routes. routes_ok. Qed.
Lemma binding_routes_ok : Forall entry_ok (binding_routes request).
Proof. unfold binding_routes. routes_ok. Qed.
Lemma binding_command_routes_ok : Forall entry_ok (binding_command_routes request).
Proof. unfold binding_command_routes. routes_ok. Qed.
Lemma governance_routes_ok : Forall entry_ok (governance_routes request).
Proof. unfold governance_routes. routes_ok. Qed.
Lemma resource_routes_ok : Forall entry_ok (resource_routes api request).
Proof. unfold resource_routes. routes_ok. Qed.
Lemma health_routes_ok : Forall entry_ok (health_routes api request).
Proof. unfold health_routes. routes_ok. Qed.
Lemma upload_routes_ok : Forall entry_ok (upload_routes request).
Proof. unfold upload_routes. routes_ok. Qed.
Lemma portability_routes_ok : Forall entry_ok (portability_routes request).
Proof. unfold portability_routes. routes_ok. Qed.
Lemma control_routes_ok : Forall entry_ok control_routes.
Proof. unfold control_routes. routes_ok. Qed.

Lemma later_routes_ok : Forall entry_ok (later_routes api request).
Proof.
  unfold later_routes.
  auto 20 using Forall_app_2, tenant_routes_ok, binding_routes_ok, binding_command_routes_ok, governance_routes_ok,
    resource_routes_ok, health_routes_ok, upload_routes_ok, portability_routes_ok, control_routes_ok.
Qed.

Lemma select_Some (entries : list (Entry (S := S))) method pathname e args :
  select entries method pathname = Some (e, args) →
  e ∈ entries ∧ entry_method e = method ∧ path_args pathname (entry_path e) = Some args.
Proof.
  induction entries as [|e' entries IH]; cbn; [done|]. intros Hs.
  assert (select entries method pathname = Some (e, args) → e ∈ e' :: entries ∧ entry_method e = method ∧
    path_args pathname (entry_path e) = Some args) as Hrest by (intros (? & ? & ?)%IH; split_and!; [by right|done|done]).
  destruct (path_args _ (entry_path e')) as [args'|] eqn:Ep; [|auto]. case_bool_decide as Em; [|auto].
  injection Hs as <- <-. split_and!; [by left|done|done].
Qed.

(** The answers that no provider has a part in: the health of the service, a
    malformed path, a route without its provider, no route. *)
Definition own_answer (method : string) (s : S) (r : result api_exn ApiResult) : Prop :=
  r ∈ [Ok (health_answer api s); Err URIError; Ok (unavailable request); Ok (no_route request method);
       Ok (failure 501 "COMMAND_BOUNDARY_UNAVAILABLE" "The command boundary is not configured." request)].

(** A request is answered without a call of any kind, or it is served by an
    entry of the table. *)
Definition quiet_or_served (method pathname : string) (s : S) (m : M S api_exn ApiResult) : Prop :=
  (∃ r, own_answer method s r ∧ m s = (r, s)) ∨
  ∃ e args access, e ∈ table api request ∧ entry_ok e ∧ entry_method e = method ∧
    path_args pathname (entry_path e) = Some args ∧ api_access api = Some access ∧
    m s = secured (Some access) method request (handler_route api (entry_handler e args.1 args.2)) s.

Lemma match_all_error pathname patterns e : match_all pathname patterns = Err e → e = URIError.
Proof.
  induction patterns as [|p patterns IH]; cbn; [done|]. destruct (match_ pathname p) as [o|e'] eqn:Em; [done|]. intros [= <-].
  revert Em. unfold match_, decoded. repeat case_match; by intros [= <-].
Qed.
Ltac quiet := eexists; split; [|reflexivity]; unfold own_answer; rewrite ?elem_of_cons; tauto.
Lemma serve_cases entries e args method pathname s :
  Forall entry_ok entries → entries ⊆ table api request → select entries method pathname = Some (e, args) →
  quiet_or_served method pathname s (serve api request method e args).
Proof.
  intros Hall Htab (Hin & Hm & Hp)%select_Some. rewrite Forall_forall in Hall. specialize (Hall e Hin). unfold serve.
  destruct (available _ _); [|left; quiet]. unfold configured.
  destruct (api_commands api) as [has|]; [|left; quiet]. destruct (api_access api) as [access|] eqn:Ea; [|left; quiet].
  destruct (_ && _); [left; quiet|]. right. exists e, args, access. split_and!; auto.
Qed.
Lemma route_cases method pathname s : quiet_or_served method pathname s (route api request method pathname).
Proof.
  unfold route. destruct (_ && _); [left; quiet|].
  destruct (match_all pathname first_patterns) as [[]|e] eqn:E1; [|apply match_all_error in E1 as ->; left; quiet].
  change (quiet_or_served method pathname s (match select (workspace_routes request) method pathname with
    | Some (e, args) => serve api request method e args
    | None => lift (match_all pathname later_patterns) ≫= λ _,
        match select (later_routes api request) method pathname with
        | Some (e, args) => serve api request method e args
        | None => mret (no_route request method)
        end
    end)).
  destruct (select (workspace_routes _) _ _) as [[e args]|] eqn:Es; [eapply serve_cases; [apply workspace_routes_ok|apply list_subseteq_app_l; done|done]|].
  destruct (match_all pathname later_patterns) as [[]|e] eqn:E2; [|apply match_all_error in E2 as ->; left; quiet].
  change (quiet_or_served method pathname s (match select (later_routes api request) method pathname with
    | Some (e, args) => serve api request method e args
    | None => mret (no_route request method)
    end)).
  destruct (select (later_routes _ _) _ _) as [[e args]|] eqn:Es2; [eapply serve_cases; [apply later_routes_ok|apply list_subseteq_app_r; done|done]|].
  left; quiet.
Qed.
End Mediation.

(** ** Mediation by a gateway with sessions *)

Section AdminMediation.
Context `{JsDate} `{TextCodec} {C : Type} (this : AdminSessionGateway).
Abbreviation gateway := (admin_gateway (C := C) this).
Context (clock : Gateway * C → Z) (mode : string) (commands : option (Optional → bool)) (portability : bool).
Context (run : Call → M (Gateway * C) api_exn (option json)).
(** The API whose access gateway is [this]. *)
Definition admin_api : Api := mkApi clock mode commands (Some gateway) portability run.

(** The authority under which a call is made: the actor's credentials, the
    decision of the policy engine for the action the call needs, in the workspace
    the call stays in, and what is asked on top of some calls. *)
Record made_with_authority (method : string) (request : ApiRequest) (g : Gateway) (actor : AuthenticatedActor) (c : Call) : Prop :=
    mkAuthority {
  authority_credentials : presents this method request g actor;
  authority_decision : ∃ workspaceId scope now data,
    request_workspace request = Some workspaceId ∧ stays_in workspaceId c ∧ auth_workspaceId scope = workspaceId ∧
    policy_data (admin_static this) workspaceId (actor_id actor) (toISOString now) = Ok data ∧
    allowed (evaluatePolicy (toISOString now) (policy_input actor (required_action c) scope data (toISOString now))) = true;
  authority_actor : call_actor c = None ∨ call_actor c = Some actor;
  authority_application : actorPrincipalType actor = principal_application → open_to_applications c = true;
  authority_method : method = "GET" → reads_only c = true;
  authority_fresh : privileged c = true →
    ∃ proof confirmed, header request "x-trust-reauth" = Some proof ∧
      static_authenticate (admin_static this) proof = Some confirmed ∧ actor_id confirmed = actor_id actor;
}.

(** A step that leaves the commands alone: one of the gateway's, which keeps all
    but its own state, or a call that only reads. *)
Definition harmless (s s' : Gateway * C) : Prop := s'.2 = s.2 ∨ reading admin_api s s'.

Lemma on_gateway_harmless {A} (m : G A) : only harmless (on_gateway (C := C) m).
Proof. intros s. apply rtc_once. left. unfold on_gateway. by destruct (m s.1). Qed.
Lemma admin_authorise_harmless method request h :
  (∀ workspaceId, only (reading admin_api) (handler_scope h workspaceId)) →
  only harmless (authorise (Some gateway) method request (handler_route admin_api h)).
Proof.
  intros Hs. apply authorise_only.
  - intros token. apply only_ret.
  - intros authenticate id csrf mutation [= <-]. apply on_gateway_harmless.
  - intros. apply on_gateway_harmless.
  - intros confirms actor proof [= <-]. apply only_ret.
  - intros ws. eapply only_weaken; [|apply Hs]. intros s s' Hr. by right.
Qed.

(** C3. Complete mediation.  Whatever the method, the path, the headers and the
    body of a request: the answer is one no provider has a part in and the state
    stays as it is; or the request is served by an entry of the routing table with
    its method and a path that matches.  Then it is refused, with the same answer
    and effects whatever the command of the entry is; or the authorisation of the
    entry succeeded, and either the entry throws in place of its call (a malformed
    capture, a probe that is not offered) and the error is answered in the state
    the authorisation left, or the one call of the entry is made, with authority:
    for credentials that were presented, the policy engine allows the action that this call needs (by a
    table of its own, not by the route), in the workspace the call acts in, in the
    actor's name; an application makes no call but those open to applications; a
    GET makes no call that changes anything; an export, its download and the
    execution of an import need the token again.  A refusal, and what comes before
    the call, take steps of the gateway and calls that only read, and no others. *)
Theorem every_call_mediated request method pathname s :
  let answer := route admin_api request method pathname s in
  (own_answer admin_api request method s answer.1 ∧ answer.2 = s) ∨
  ∃ e args, e ∈ table admin_api request ∧ entry_method e = method ∧ path_args pathname (entry_path e) = Some args ∧
    let h := entry_handler e args.1 args.2 in
    ((∀ execute, answer = secured (Some gateway) method request (with_execute (handler_route admin_api h) execute) s) ∧
     rtc harmless s answer.2) ∨
    ∃ workspaceId actor s',
      authorised gateway method request (handler_route admin_api h) workspaceId actor s s' ∧ rtc harmless s s' ∧
      ((∃ err, handler_call h workspaceId actor = Err err ∧ answer = (Ok (error_answer err request), s')) ∨
       ∃ c, handler_call h workspaceId actor = Ok c ∧ made_with_authority method request s.1 actor c ∧
         answer = respond (run c ≫= λ value, lift (handler_finish h value)) request s').
Proof.
  destruct (route_cases admin_api request method pathname s) as [(r & Ho & Hr)|(e & args & access & Hin & Hok & Hm & Hp & [= <-] & Hr)].
  { left. cbn zeta. by rewrite Hr. }
  cbn zeta. rewrite Hr. right. exists e, args. split_and!; [done..|]. set (h := entry_handler e args.1 args.2) in *.
  destruct (Hok args.1 args.2) as [Hcall Hscope Hreads]. fold h in Hcall, Hscope, Hreads.
  pose proof (admin_authorise_harmless method request h Hreads s) as Hh. unfold secured in *. setoid_rewrite authorise_execute.
  unfold mbind, M_bind. destruct (authorise (Some gateway) method request (handler_route admin_api h) s) as [[[refusal|[ws actor]]|x] s'] eqn:Ea;
    cbn [snd] in Hh; [by left| |by left].
  right. exists ws, actor, s'. apply authorise_sound in Ea. split_and!; [done..|].
  cbn [route_execute handler_route]. unfold handler_execute.
  destruct (handler_call h ws actor) as [c|err] eqn:Ec; [right|left; by exists err].
  exists c. split_and!; [done| |done].
  apply admin_authorised in Ea as (s1 & s2 & p & data & Hpres & Hw & Hx & Hd & Href & Hal & Hre & Hv).
  destruct (Hcall ws actor c Hw Hv Ec) as (Hact & Hws & Hactor & Hget & Hpriv).
  destruct (Hscope ws actor c s1 p s2 Ec Hx) as [Hpw Hpa]. subst method. split; [done| |done| |done|by auto].
  - exists ws, (extend_scope (requestScope ws request) p), (gateway_clock s2.1), data.
    cbn [extend_scope auth_workspaceId requestScope] in *. rewrite Hpw in *. by rewrite Hact.
  - intros Happ. apply Hpa. unfold application_refused in Href. rewrite Happ, strict_eq_refl in Href. cbn [andb] in Href.
    apply orb_false_iff in Href as [[_ Hallow]%orb_false_iff _]. apply negb_false_iff, bool_decide_eq_true in Hallow.
    cbn in Hallow. by destruct (partial_applicationScopeAllowed p).
Qed.
End AdminMediation.

Module ApiWitness.
Import Archive.Utf8 AccessWitness.

(** The commands log themselves. *)
Definition owner : AuthenticatedActor := mkActor "root" "Administrator" None ["owner"] ["ws-1"].
Definition owner_gate : AdminSessionGateway :=
  mkAdmin (mkStatic (Some "token") owner (Some (mkPolicies (λ _, Ok []) (λ _ _, Ok []) (λ _ _ _, Ok []) (Some record_all)))) 1000 None true.
Definition log (c : Call) : M (Gateway * list Call) api_exn (option json) := λ s, (Ok (Some (JString "done")), (s.1, (s.2 ++ [c])%list)).
Definition every (_ : Optional) : bool := true.
Definition no_probe (o : Optional) : bool := match o with has_probeStorageHealth => false | _ => true end.
Definition server (has : Optional → bool) : Api :=
  admin_api owner_gate (λ s : Gateway * list Call, gateway_clock s.1) "live" (Some has) true log.
Definition start : Gateway * list Call := (mkGateway [] [] 100 100, []).
Definition with_token (body : option json) (extra : list (string * string)) : ApiRequest :=
  mkRequest ([("authorization", "Bearer token"); ("x-trust-workspace-id", "ws-1")] ++ extra)%list body [].
Definition send (has : Optional → bool) (method pathname : string) (request : ApiRequest) :=
  let '(r, s) := route (server has) request method pathname start in
  (result_status <$> r, s.2).

Example reads_are_served :
  send every "GET" "/v1/datasets/d%201" (with_token None []) =
    (Ok (JNumber 200), [OnCommands (getDataset "ws-1" "d 1")]).
Proof. vm_compute; reflexivity. Qed.
Definition deletion : option json :=
  Some (JObject [("workspaceId", JString "ws-1"); ("expectedRevisionId", JNull); ("recoverUntil", JNull)]).
Example commands_are_served :
  send every "POST" "/v1/resources/r1/delete" (with_token deletion []) =
    (Ok (JNumber 200), [OnCommands (getResource "ws-1" "r1"); OnCommands (deleteResource "r1" owner deletion)]) ∧
  send every "POST" "/v1/resources/r1/delete" (mkRequest [] deletion []) = (Ok (JNumber 401), []) ∧
  send every "POST" "/v1/resources/r1/delete" (with_token None []) = (Ok (JNumber 400), [OnCommands (getResource "ws-1" "r1")]).
Proof. split_and!; vm_compute; reflexivity. Qed.
Definition export : option json :=
  Some (JObject [("workspaceId", JString "ws-1"); ("idempotencyKey", JString "k"); ("datasetIds", JArray [JString "d"])]).
Example export_needs_the_token_again :
  send every "POST" "/v1/portability/exports" (with_token export []) = (Ok (JNumber 401), []) ∧
  send every "POST" "/v1/portability/exports" (with_token export [("x-trust-reauth", "token")]) =
    (Ok (JNumber 200), [OnPortability (createExport owner export)]).
Proof. split; vm_compute; reflexivity. Qed.

(** A storage probe that the mode does not offer is answered 422, the code of the
    error (that of a boundary that is not available, 501) not being looked at. *)
Example missing_probe_is_rejected :
  send no_probe "POST" "/v1/health/storage/probe" (with_token (Some (JObject [("workspaceId", JString "ws-1")])) []) =
    (Ok (JNumber 422), []).
Proof. vm_compute; reflexivity. Qed.

(** A malformed escape throws out of the route before anyone is authenticated. *)
Example malformed_path_throws : send every "GET" "/v1/datasets/%zz" (mkRequest [] None []) = (Err URIError, []).
Proof. vm_compute; reflexivity. Qed.

(** An array of one role is a valid role. *)
Definition assignment (role : json) : option json :=
  Some (JObject [("workspaceId", JString "ws-1"); ("principalId", JString "p"); ("principalType", JString "user");
    ("role", role); ("scopeKind", JString "workspace"); ("scopeId", JString "ws-1"); ("idempotencyKey", JString "k")]).
Example array_of_a_role_is_valid :
  validPolicyAssignment (assignment (JString "owner")) = true ∧ validPolicyAssignment (assignment (JArray [JString "owner"])) = true ∧
  validPolicyAssignment (assignment (JString "visitor")) = false.
Proof. split_and!; vm_compute; reflexivity. Qed.

(** The body of a probe replaces the binding of the path. *)
Example probe_of_another_binding :
  send every "POST" "/v1/storage/bindings/b1/probe" (with_token (Some (JObject [("bindingId", JString "b2")])) []) =
    (Ok (JNumber 200), [OnCommands (probeStorageBinding owner
      (Some (JObject [("workspaceId", JString "ws-1"); ("bindingId", JString "b2")])))]).
Proof. vm_compute; reflexivity. Qed.
End ApiWitness.
