(* ===== verification/Outbox.v ===== *)
(** * The outbox and its workers

    [packages/reconciliation/src/worker.ts] and
    [packages/persistence-postgres/src/outbox-store.ts]: workers claim events of
    the outbox under a lease, run the handler of each, and mark it processed, put
    it back for a later attempt, or quarantine it with an incident.

    A transaction of the store is a step on the rows of [outbox_events]; a run of
    a worker is a pool of consumers that share a cursor over the claimed events,
    the choice of the consumer that continues, after an [await], being free.
    Instants are milliseconds: a timestamp is written as an ISO string and read
    back as the same instant.  A handler acts on what is [Outside] the outbox:
    incidents, clock and the rest of the system.

    The theorems: however the transactions of any number of workers interleave, a
    row that is processed or quarantined stays as it is, no row disappears, and a
    quarantine has its incident; however its consumers interleave with each other
    and with other workers, a run accounts for every event it claimed and ends; and
    the runs of a worker that find work are bounded in number: every event ends
    processed or quarantined. *)
From S2P Require Import Prelude Js Json.

(** ** Data *)

(** The columns of [outbox_events]. *)
Record EventRow := mkEventRow {
  row_id : string;
  row_workspace_id : string;
  row_operation_id : string;
  row_event_type : string;
  row_payload_json : list (string * json);
  row_available_at : Z;
  row_attempt_count : Z;
  row_processed_at : option Z;
  row_last_error : option string;
  row_locked_by : option string;
  row_locked_until : option Z;
  row_quarantined_at : option Z;
  row_quarantine_reason : option string;
}.
(** Source: packages/reconciliation/src/worker.ts:1-1 OutboxEvent *)
Record OutboxEvent := mkEvent {
  event_id : string;
  event_workspaceId : string;
  event_operationId : string;
  event_eventType : string;
  event_payload : list (string * json);
  event_availableAt : Z;
  event_attemptCount : Z;
}.
(** A row of [reconciliation_incidents]. *)
Record Incident := mkIncident {
  incident_workspaceId : string;
  incident_operationId : string;
  incident_severity : string;
  incident_code : string;
  incident_message : string;
  incident_metadata : list (string * json);
}.
(** Source: packages/reconciliation/src/worker.ts:4-4 WorkerRun *)
Record WorkerRun := mkWorkerRun { run_claimed : nat; run_completed : nat; run_retried : nat; run_quarantined : nat }.

(** What a handler acts on, and the whole. *)
Record Outside (C : Type) := mkOutside { out_incidents : list Incident; out_now : Z; out_rest : C }.
Record World (C : Type) := mkWorld { world_rows : list EventRow; world_out : Outside C }.
Arguments mkOutside {_}. Arguments out_incidents {_}. Arguments out_now {_}. Arguments out_rest {_}.
Arguments mkWorld {_}. Arguments world_rows {_}. Arguments world_out {_}.
Definition world_now {C} (w : World C) : Z := out_now (world_out w).
Definition world_incidents {C} (w : World C) : list Incident := out_incidents (world_out w).

(** Source: packages/persistence-postgres/src/outbox-store.ts:13-13 mapEvent *)
Definition mapEvent (r : EventRow) : OutboxEvent :=
  mkEvent (row_id r) (row_workspace_id r) (row_operation_id r) (row_event_type r) (row_payload_json r) (row_available_at r)
    (row_attempt_count r).

Definition with_lock (by_ : string) (until : Z) (r : EventRow) : EventRow :=
  mkEventRow (row_id r) (row_workspace_id r) (row_operation_id r) (row_event_type r) (row_payload_json r) (row_available_at r)
    (row_attempt_count r) (row_processed_at r) (row_last_error r) (Some by_) (Some until) (row_quarantined_at r)
    (row_quarantine_reason r).
Definition with_processed (at_ : Z) (r : EventRow) : EventRow :=
  mkEventRow (row_id r) (row_workspace_id r) (row_operation_id r) (row_event_type r) (row_payload_json r) (row_available_at r)
    (row_attempt_count r) (Some at_) None None None (row_quarantined_at r) (row_quarantine_reason r).
Definition with_retry (attempt available : Z) (error : string) (r : EventRow) : EventRow :=
  mkEventRow (row_id r) (row_workspace_id r) (row_operation_id r) (row_event_type r) (row_payload_json r) available
    attempt (row_processed_at r) (Some error) None None (row_quarantined_at r) (row_quarantine_reason r).
Definition with_quarantine (attempt at_ : Z) (reason : string) (r : EventRow) : EventRow :=
  mkEventRow (row_id r) (row_workspace_id r) (row_operation_id r) (row_event_type r) (row_payload_json r) (row_available_at r)
    attempt (row_processed_at r) (Some reason) None None (Some at_) (Some reason).

(** ** The store *)

Section Store.
Context {C : Type}.
Abbreviation T := (M (World C) string).

Definition set_rows (f : list EventRow → list EventRow) (w : World C) : World C := mkWorld (f (world_rows w)) (world_out w).
Definition add_incident (i : Incident) (w : World C) : World C :=
  mkWorld (world_rows w) (mkOutside (world_incidents w ++ [i]) (world_now w) (out_rest (world_out w))).

Record ClaimInput := mkClaim {
  claim_workerId : string;
  claim_workspaceId : option string;
  claim_limit : nat;
  claim_leaseUntil : Z;
  claim_now : Z;
}.

(** [ORDER BY available_at, id] *)
Definition row_before (a b : EventRow) : Prop :=
  (row_available_at a < row_available_at b)%Z ∨ row_available_at a = row_available_at b ∧ String.le (row_id a) (row_id b).
#[global] Instance row_before_dec a b : Decision (row_before a b).
Proof. unfold row_before. apply _. Defined.

(** The [WHERE] of the candidates. *)
Definition claimable (input : ClaimInput) (r : EventRow) : bool :=
  (if truthy (claim_workspaceId input) then Some (row_workspace_id r) === claim_workspaceId input else true) &&
  (row_processed_at r === None) && (row_quarantined_at r === None) && Z.leb (row_available_at r) (claim_now input) &&
  match row_locked_until r with None => true | Some until => Z.ltb until (claim_now input) end.
(** Rows that another transaction has locked are skipped. *)
Definition candidates (input : ClaimInput) (busy : string → bool) (rows : list EventRow) : list EventRow :=
  take (claim_limit input) (merge_sort row_before (List.filter (λ r, claimable input r && negb (busy (row_id r))) rows)).
(** Source: packages/persistence-postgres/src/outbox-store.ts:5-5 claim *)
Definition claim (input : ClaimInput) (busy : string → bool) : T (list OutboxEvent) :=
  gets (λ w, candidates input busy (world_rows w)) ≫= λ rows,
  modify (set_rows (map (λ r, if array_includes (map row_id rows) (row_id r)
                              then with_lock (claim_workerId input) (claim_leaseUntil input) r else r))) ≫= λ _,
  mret (map mapEvent rows).

Definition LEASE_LOST : string := "Outbox lease was lost or event was already handled.".
(** The [WHERE] of the three updates under a lease. *)
Definition leased (eventId workerId : string) (at_ : Z) (r : EventRow) : bool :=
  (row_id r === eventId) && (row_locked_by r === Some workerId) && (row_processed_at r === None) &&
  match row_locked_until r with Some until => Z.leb at_ until | None => false end.
(** An update, with the rows it changed, as they were. *)
Definition update_where (p : EventRow → bool) (f : EventRow → EventRow) : T (list EventRow) :=
  gets (λ w, List.filter p (world_rows w)) ≫= λ rows,
  modify (set_rows (map (λ r, if p r then f r else r))) ≫= λ _, mret rows.
(** Source: packages/persistence-postgres/src/outbox-store.ts:10-10 changed *)
Definition changed (p : EventRow → bool) (f : EventRow → EventRow) : T unit :=
  update_where p f ≫= λ rows, throw_when (negb (Nat.eqb (length rows) 1)) LEASE_LOST.

(** Source: packages/persistence-postgres/src/outbox-store.ts:6-6 complete *)
Definition complete (workspaceId eventId workerId : string) (processedAt : Z) : T unit :=
  transaction (changed (leased eventId workerId processedAt) (with_processed processedAt)).
(** Source: packages/persistence-postgres/src/outbox-store.ts:7-7 retry *)
Definition retry (workspaceId eventId workerId : string) (attemptCount availableAt failedAt : Z) (error : string) : T unit :=
  transaction (changed (leased eventId workerId failedAt) (with_retry attemptCount availableAt error)).
(** Source: packages/persistence-postgres/src/outbox-store.ts:8-8 quarantine *)
Definition quarantine (workspaceId eventId workerId : string) (attemptCount quarantinedAt : Z) (reason : string) : T unit :=
  transaction (
    update_where (leased eventId workerId quarantinedAt) (with_quarantine attemptCount quarantinedAt reason) ≫= λ rows,
    match rows with
    | [] => throw LEASE_LOST
    | row :: _ =>
        modify (add_incident (mkIncident workspaceId (row_operation_id row) "critical" "OUTBOX_EVENT_QUARANTINED" reason
          [("eventId", JString eventId); ("eventType", JString (row_event_type row)); ("attemptCount", JNumber attemptCount)]))
    end).
End Store.

(** ** The worker *)

Section Worker.
Context {C : Type}.
Abbreviation T := (M (World C) string).

(** A handler acts outside the outbox. *)
Definition EventHandler : Type := OutboxEvent → M (Outside C) string unit.
Record WorkerConfig := mkConfig {
  config_workerId : string;
  config_workspaceId : option string;
  config_maxAttempts : option Z;
  config_baseDelayMs : option Z;
  config_leaseMs : option Z;
  config_batchSize : option nat;
  config_concurrency : option Z;
}.
Context (handlers : list (string * EventHandler)) (config : WorkerConfig).
(** What the engine says of a method of [Object.prototype] that throws when it
    is called as a function. *)
Context (type_error : string → string).

(** [this.handlers[eventType]]: a member of [Object.prototype] is found as well.
    As functions, [constructor] and [toString] return and the others throw. *)
Definition handler_of (eventType : string) : option EventHandler :=
  match map_get eventType handlers with
  | Some h => Some h
  | None =>
      if array_includes ["constructor"; "toString"] eventType then Some (λ _, mret tt)
      else if array_includes ["toLocaleString"; "valueOf"; "hasOwnProperty"; "isPrototypeOf"; "propertyIsEnumerable"; "__proto__";
                 "__defineGetter__"; "__defineSetter__"; "__lookupGetter__"; "__lookupSetter__"] eventType
      then Some (λ _, throw (type_error eventType))
      else None
  end.

Definition maxAttempts : Z := default 5%Z (config_maxAttempts config).
Definition baseDelayMs : Z := default 1000%Z (config_baseDelayMs config).
Definition leaseMs : Z := default 30000%Z (config_leaseMs config).
Definition batchSize : nat := default 25 (config_batchSize config).
Definition concurrency : nat := Z.to_nat (Z.max 1 (default 1%Z (config_concurrency config))).

(** [new Date(ms).toISOString()], which throws beyond the range of dates. *)
Definition MAX_DATE : Z := 8640000000000000%Z.
Definition iso (ms : Z) : T Z :=
  if Z.leb (Z.abs ms) MAX_DATE then mret ms else throw "Invalid time value".
Definition now : T Z := gets world_now.

(** The parts of [consume] between two [await]s. *)
Definition handle (event : OutboxEvent) : T unit :=
  match handler_of (event_eventType event) with
  | None => throw ("No reconciliation handler for " +:+ event_eventType event)
  | Some handler => λ w, let '(r, o) := handler event (world_out w) in (r, mkWorld (world_rows w) o)
  end.
Definition mark_complete (event : OutboxEvent) : T unit :=
  now ≫= λ t, iso t ≫= λ at_, complete (event_workspaceId event) (event_id event) (config_workerId config) at_.
(** Whether the event was quarantined, not retried. *)
Definition mark_failed (event : OutboxEvent) (message : string) : T bool :=
  let attempt := (event_attemptCount event + 1)%Z in
  now ≫= λ t, iso t ≫= λ failedAt,
  if Z.leb maxAttempts attempt then
    quarantine (event_workspaceId event) (event_id event) (config_workerId config) attempt failedAt message ≫= λ _, mret true
  else
    now ≫= λ t, iso (t + baseDelayMs * 2 ^ (attempt - 1))%Z ≫= λ availableAt,
    retry (event_workspaceId event) (event_id event) (config_workerId config) attempt availableAt failedAt message ≫= λ _,
    mret false.

(** A consumer, between two of its turns. *)
Inductive Consumer :=
  | Ready
  | Handling (event : OutboxEvent)
  | Completing (event : OutboxEvent)
  | Failing (event : OutboxEvent) (message : string)
  | Finished
  | Rejected (message : string).

Record Pool := mkPool {
  pool_cursor : nat;
  pool_consumers : list Consumer;
  pool_result : WorkerRun;
  pool_world : World C;
}.

Definition count_completed (r : WorkerRun) : WorkerRun :=
  mkWorkerRun (run_claimed r) (S (run_completed r)) (run_retried r) (run_quarantined r).
Definition count_failed (quarantined : bool) (r : WorkerRun) : WorkerRun :=
  if quarantined then mkWorkerRun (run_claimed r) (run_completed r) (run_retried r) (S (run_quarantined r))
  else mkWorkerRun (run_claimed r) (run_completed r) (S (run_retried r)) (run_quarantined r).

(** One turn of a consumer: up to its next [await]. *)
(** Source: packages/reconciliation/src/worker.ts:7-7 runOnce *)
Definition turn_of (events : list OutboxEvent) (c : Consumer) (cursor : nat) (result : WorkerRun) (w : World C) :
    Consumer * nat * WorkerRun * World C :=
  match c with
  | Ready => match events !! cursor with
             | Some event => (Handling event, S cursor, result, w)
             | None => (Finished, cursor, result, w)
             end
  | Handling event => match handle event w with
                      | (Ok _, w') => (Completing event, cursor, result, w')
                      | (Err message, w') => (Failing event message, cursor, result, w')
                      end
  | Completing event => match mark_complete event w with
                        | (Ok _, w') => (Ready, cursor, count_completed result, w')
                        | (Err message, w') => (Failing event message, cursor, result, w')
                        end
  | Failing event message => match mark_failed event message w with
                             | (Ok quarantined, w') => (Ready, cursor, count_failed quarantined result, w')
                             | (Err message, w') => (Rejected message, cursor, result, w')
                             end
  | Finished | Rejected _ => (c, cursor, result, w)
  end.
Definition turn (events : list OutboxEvent) (i : nat) (p : Pool) : Pool :=
  match pool_consumers p !! i with
  | Some c =>
      let '(c', cursor, result, w) := turn_of events c (pool_cursor p) (pool_result p) (pool_world p) in
      mkPool cursor (<[i := c']> (pool_consumers p)) result w
  | None => p
  end.
Definition turns (events : list OutboxEvent) (schedule : list nat) (p : Pool) : Pool :=
  fold_left (λ p i, turn events i p) schedule p.

Definition claim_input (at_ : Z) : ClaimInput :=
  mkClaim (config_workerId config) (config_workspaceId config) batchSize (at_ + leaseMs) at_.
(** The claim of a run, and its consumers before their first turn. *)
(** Source: packages/reconciliation/src/worker.ts:7-7 runOnce *)
Definition start_run (busy : string → bool) : T (list OutboxEvent * Pool) :=
  now ≫= λ timestamp,
  iso (timestamp + leaseMs)%Z ≫= λ _, iso timestamp ≫= λ _,
  claim (claim_input timestamp) busy ≫= λ events,
  gets (λ w, (events, mkPool 0 (replicate (Nat.min concurrency (length events)) Ready) (mkWorkerRun (length events) 0 0 0) w)).

Definition settled (c : Consumer) : bool := match c with Finished | Rejected _ => true | _ => false end.
(** [Promise.all] of consumers that have all settled. *)
Definition outcome (p : Pool) : result string WorkerRun :=
  match List.find (λ c, match c with Rejected _ => true | _ => false end) (pool_consumers p) with
  | Some (Rejected message) => Err message
  | _ => Ok (pool_result p)
  end.
Definition all_settled (p : Pool) : bool := forallb settled (pool_consumers p).
End Worker.

(** ** Interleaved transactions *)

Section Interleaving.
Context {C : Type}.

Definition finished (r : EventRow) : Prop := is_Some (row_processed_at r) ∨ is_Some (row_quarantined_at r).

(** A row as the services insert it. *)
Definition fresh (r : EventRow) : Prop :=
  row_attempt_count r = 0%Z ∧ row_processed_at r = None ∧ row_locked_by r = None ∧ row_locked_until r = None ∧
  row_quarantined_at r = None.

(** What any number of workers, the services and time do. *)
Inductive outbox_step : World C → World C → Prop :=
  | step_claim input busy w : outbox_step w (claim input busy w).2
  | step_complete ws event worker at_ w : outbox_step w (complete ws event worker at_ w).2
  | step_retry ws event worker attempt available at_ message w :
      outbox_step w (retry ws event worker attempt available at_ message w).2
  | step_quarantine ws event worker attempt at_ reason w :
      outbox_step w (quarantine ws event worker attempt at_ reason w).2
  | step_enqueue r w :
      fresh r → row_id r ∉ row_id <$> world_rows w → outbox_step w (mkWorld (world_rows w ++ [r]) (world_out w))
  | step_outside o w :
      (∀ i, i ∈ world_incidents w → i ∈ out_incidents o) → outbox_step w (mkWorld (world_rows w) o).

(** The incident of a quarantine. *)
Definition incident_of (r : EventRow) (i : Incident) : Prop :=
  incident_code i = "OUTBOX_EVENT_QUARANTINED" ∧ incident_operationId i = row_operation_id r ∧
  obj_get (incident_metadata i) "eventId" = Some (JString (row_id r)).

Record row_ok (incidents : list Incident) (r : EventRow) : Prop := mkRowOk {
  ok_unlocked : finished r → row_locked_by r = None ∧ row_locked_until r = None;
  ok_one_end : is_Some (row_processed_at r) → row_quarantined_at r = None;
  ok_incident : is_Some (row_quarantined_at r) → ∃ i, i ∈ incidents ∧ incident_of r i;
}.
Record world_ok (w : World C) : Prop := mkWorldOk {
  ok_ids : NoDup (row_id <$> world_rows w);
  ok_rows r : r ∈ world_rows w → row_ok (world_incidents w) r;
}.

(** A step takes each row to a row with its identity, keeps finished rows, and
    loses none. *)
Definition keeps (w w' : World C) : Prop :=
  (∀ r, r ∈ world_rows w → ∃ r', r' ∈ world_rows w' ∧ row_id r' = row_id r ∧ (finished r → r' = r)).

Lemma row_ok_more incidents incidents' r : (∀ i, i ∈ incidents → i ∈ incidents') → row_ok incidents r → row_ok incidents' r.
Proof. intros Hi [H1 H2 H3]. split; [done|done|]. intros (i & ? & ?)%H3. eauto. Qed.

(** Rows changed by a function that leaves finished rows alone. *)
Lemma map_rows_ok (f : EventRow → EventRow) (w : World C) o :
  (∀ i, i ∈ world_incidents w → i ∈ out_incidents o) →
  (∀ r, r ∈ world_rows w → row_id (f r) = row_id r ∧ (finished r → f r = r) ∧ (f r = r ∨ row_ok (out_incidents o) (f r))) →
  world_ok w → let w' := mkWorld (map f (world_rows w)) o in world_ok w' ∧ keeps w w'.
Proof.
  intros Hi Hf [Hids Hrows] w'. split; [split|].
  - cbn. enough (row_id <$> map f (world_rows w) = row_id <$> world_rows w) as -> by done.
    clear Hids Hrows. induction (world_rows w) as [|r l IH]; [done|]. cbn. f_equal; [apply Hf; by left|].
    apply IH. intros r' Hr'. apply Hf. by right.
  - intros r' (r & -> & Hr)%list_elem_of_fmap. destruct (Hf r Hr) as (_ & _ & [->|Hok]); [|done].
    eapply row_ok_more; [|by apply Hrows]. done.
  - intros r Hr. destruct (Hf r Hr) as (Hid & Hfin & _). exists (f r). split_and!; [by apply list_elem_of_fmap_2|done|done].
Qed.
Lemma world_ok_keeps w : world_ok w → world_ok w ∧ keeps w w.
Proof. intros Hok. split; [done|]. intros r Hr. by exists r. Qed.

(** The three updates under a lease change no finished row. *)
Lemma leased_open incidents event worker at_ r : row_ok incidents r → leased event worker at_ r = true → ¬ finished r ∧ row_id r = event.
Proof.
  intros Hok Hl. unfold leased in Hl. apply andb_true_iff in Hl as [[[Hid%bool_decide_eq_true Hby%bool_decide_eq_true]%andb_true_iff _]%andb_true_iff _].
  split; [|done]. intros Hf. destruct (ok_unlocked _ _ Hok Hf) as [Hn _]. congruence.
Qed.
Lemma changed_run p f (w : World C) :
  transaction (changed p f) w =
    if Nat.eqb (length (List.filter p (world_rows w))) 1
    then (Ok tt, set_rows (map (λ r, if p r then f r else r)) w) else (Err LEASE_LOST, w).
Proof.
  unfold transaction, changed, update_where, mbind, M_bind, gets, modify, mret, M_ret, throw_when, lift, throw_if.
  by destruct (Nat.eqb _ _).
Qed.
Lemma changed_ok event worker at_ f (w : World C) :
  world_ok w → (∀ r, row_id (f r) = row_id r) → (∀ r, ¬ finished r → row_ok (world_incidents w) (f r)) →
  let w' := (transaction (changed (leased event worker at_) f) w).2 in world_ok w' ∧ keeps w w'.
Proof.
  intros Hok Hid Hf w'. unfold w'. rewrite changed_run. destruct (Nat.eqb _ _); [|by apply world_ok_keeps].
  apply (map_rows_ok _ w (world_out w)); [done| |done]. intros r Hr. pose proof (ok_rows _ Hok r Hr) as Hrow.
  destruct (leased event worker at_ r) eqn:El; [|by auto]. destruct (leased_open _ _ _ _ _ Hrow El) as [Hopen _].
  split_and!; [apply Hid|done|right; by apply Hf].
Qed.

Lemma quarantine_run ws event worker attempt at_ reason (w : World C) :
  quarantine ws event worker attempt at_ reason w =
    match List.filter (leased event worker at_) (world_rows w) with
    | [] => (Err LEASE_LOST, w)
    | row :: _ =>
        (Ok tt, add_incident (mkIncident ws (row_operation_id row) "critical" "OUTBOX_EVENT_QUARANTINED" reason
          [("eventId", JString event); ("eventType", JString (row_event_type row)); ("attemptCount", JNumber attempt)])
          (set_rows (map (λ r, if leased event worker at_ r then with_quarantine attempt at_ reason r else r)) w))
    end.
Proof.
  unfold quarantine, transaction, update_where, mbind, M_bind, gets, modify, mret, M_ret, throw. by destruct (List.filter _ _).
Qed.
Lemma claim_run input busy (w : World C) :
  claim input busy w =
    let rows := candidates input busy (world_rows w) in
    (Ok (map mapEvent rows), set_rows (map (λ r, if array_includes (map row_id rows) (row_id r)
       then with_lock (claim_workerId input) (claim_leaseUntil input) r else r)) w).
Proof. done. Qed.
Lemma candidates_elem input busy rows r :
  r ∈ candidates input busy rows → r ∈ rows ∧ claimable input r = true ∧ busy (row_id r) = false.
Proof.
  unfold candidates. intros Hr%elem_of_take. destruct Hr as (i & Hr & _). apply list_elem_of_lookup_2 in Hr.
  rewrite merge_sort_Permutation in Hr. apply List_filter_elem in Hr as [Hr Hp]. by apply andb_true_iff in Hp as [? ?%negb_true_iff].
Qed.
Lemma claimable_open input r : claimable input r = true → ¬ finished r.
Proof.
  unfold claimable. intros Hc. apply andb_true_iff in Hc as [[[[_ Hp]%andb_true_iff Hq]%andb_true_iff _]%andb_true_iff _].
  apply bool_decide_eq_true in Hp, Hq. intros [[? ?]|[? ?]]; congruence.
Qed.
Lemma ids_inj (rows : list EventRow) r r' : NoDup (row_id <$> rows) → r ∈ rows → r' ∈ rows → row_id r = row_id r' → r = r'.
Proof.
  intros Hnd Hr Hr' He. apply list_elem_of_lookup_1 in Hr as [i Hi], Hr' as [j Hj].
  assert (i = j) as ->; [|congruence]. eapply NoDup_lookup; [exact Hnd| |]; rewrite list_lookup_fmap; [by rewrite Hi|rewrite Hj; cbn; by f_equal].
Qed.

Lemma outbox_step_ok w w' : outbox_step w w' → world_ok w → world_ok w' ∧ keeps w w'.
Proof.
  intros Hstep Hok. destruct Hstep as [input busy w|ws event worker at_ w|ws event worker attempt available at_ message w
    |ws event worker attempt at_ reason w|r w Hfresh Hnew|o w Hinc].
  - rewrite claim_run. apply (map_rows_ok _ w (world_out w)); [done| |done]. intros r Hr.
    destruct (array_includes _ _) eqn:Ei; [|by auto]. apply bool_decide_eq_true, list_elem_of_fmap in Ei as (r' & Hid & Hr').
    apply candidates_elem in Hr' as (Hr' & Hc & _). assert (r = r') as <- by (eapply ids_inj; [apply Hok|done..]).
    apply claimable_open in Hc. split_and!; [done|done|right]. split; cbn; [by intros ?| |]; intros ?; exfalso; apply Hc; [by left|by right].
  - apply changed_ok; [done|done|]. intros r Ho. split; cbn; [done| |].
    + intros _. destruct (row_quarantined_at r) eqn:E; [|done]. exfalso. apply Ho. right. by rewrite E.
    + intros Hq. exfalso. apply Ho. by right.
  - apply changed_ok; [done|done|]. intros r Ho. split; cbn; [done| |].
    + intros Hq. exfalso. apply Ho. by left.
    + intros Hq. exfalso. apply Ho. by right.
  - rewrite quarantine_run. destruct (List.filter _ _) as [|row rest] eqn:Ef; [by apply world_ok_keeps|].
    assert (row ∈ world_rows w ∧ leased event worker at_ row = true) as [Hrow Hl].
    { apply List_filter_elem. rewrite Ef. by left. }
    destruct (leased_open _ _ _ _ _ (ok_rows _ Hok row Hrow) Hl) as [_ Hid].
    apply (map_rows_ok _ w); [intros i Hi; cbn; apply elem_of_app; by left| |done]. intros r Hr.
    destruct (leased event worker at_ r) eqn:El; [|by auto]. destruct (leased_open _ _ _ _ _ (ok_rows _ Hok r Hr) El) as [Ho Hid'].
    assert (r = row) as -> by (eapply ids_inj; [apply Hok|done|done|congruence]).
    split_and!; [done|done|right]. split; cbn; [done| |].
    + intros Hq. exfalso. apply Ho. by left.
    + intros _. eexists. split; [apply elem_of_app; right; by left|]. split_and!; [done|done|]. cbn. by rewrite Hid.
  - destruct Hfresh as (_ & Hp & Hb & Hu & Hq). split; [split|].
    + cbn. rewrite fmap_app. apply NoDup_app. split_and!; [apply Hok| |apply NoDup_singleton]. intros x Hx ->%list_elem_of_singleton. done.
    + intros r' [Hr'|Hr']%elem_of_app; [by apply Hok|]. apply list_elem_of_singleton in Hr' as ->.
      split; [done|by rewrite Hp; intros [? ?]|by rewrite Hq; intros [? ?]].
    + intros r' Hr'. exists r'. split_and!; [apply elem_of_app; by left|done|done].
  - split; [split|]; [apply Hok| |].
    + intros r Hr. eapply row_ok_more; [exact Hinc|]. by apply Hok.
    + intros r Hr. by exists r.
Qed.
Lemma outbox_steps_ok w w' : rtc outbox_step w w' → world_ok w → world_ok w' ∧ keeps w w'.
Proof.
  induction 1 as [w|w1 w2 w3 Hstep _ IH]; intros Hok; [by apply world_ok_keeps|].
  destruct (outbox_step_ok _ _ Hstep Hok) as [Hok2 Hk]. destruct (IH Hok2) as [Hok3 Hk']. split; [done|].
  intros r Hr. destruct (Hk r Hr) as (r2 & Hr2 & Hid & Hf). destruct (Hk' r2 Hr2) as (r3 & Hr3 & Hid3 & Hf3).
  exists r3. split_and!; [done|congruence|]. intros Hfin. specialize (Hf Hfin). subst r2. by apply Hf3.
Qed.

(** C17. The end of an event is final, whoever works on it.  From an empty outbox,
    after any interleaving of insertions and of claims, completions, retries and
    quarantines by any workers, with any arguments: identifiers stay unique; a row
    is not both processed and quarantined; a finished row has no lease; a
    quarantined row has its incident; and whatever happens from then on, every row
    is still there under its identifier, and a finished row is still what it was. *)
Theorem event_end_final (out : Outside C) w w' :
  rtc outbox_step (mkWorld [] out) w → rtc outbox_step w w' →
  world_ok w ∧
  ∀ r, r ∈ world_rows w → ∃ r', r' ∈ world_rows w' ∧ row_id r' = row_id r ∧ (finished r → r' = r).
Proof.
  intros H1 H2. destruct (outbox_steps_ok _ _ H1) as [Hok _].
  { split; [constructor|]. intros r Hr. by apply elem_of_nil in Hr. }
  split; [done|]. by apply outbox_steps_ok.
Qed.
End Interleaving.

(** ** A run accounts for its events *)

Section Accounts.
Context {C : Type} (handlers : list (string * EventHandler (C := C))) (config : WorkerConfig) (type_error : string → string).
Context (events : list OutboxEvent).
Abbreviation turn := (turn handlers config type_error events).

(** A run so far, by the number of turns its consumers had; between two of them,
    anything may happen elsewhere. *)
Inductive pool_run : nat → Pool (C := C) → Pool (C := C) → Prop :=
  | run_start p : pool_run 0 p p
  | run_turn n p p' i c :
      pool_run n p p' → pool_consumers p' !! i = Some c → settled c = false → pool_run (S n) p (turn i p')
  | run_elsewhere n p p' w :
      pool_run n p p' → pool_run n p (mkPool (pool_cursor p') (pool_consumers p') (pool_result p') w).

Definition total (f : Consumer → nat) (cs : list Consumer) : nat := sum_list (map f cs).
Lemma total_insert f cs i c c' : cs !! i = Some c → total f (<[i := c']> cs) + f c = total f cs + f c'.
Proof.
  intros Hi. unfold total. revert i Hi. induction cs as [|d cs IH]; intros [|i] Hi; try done.
  - injection Hi as ->. cbn. lia.
  - specialize (IH i Hi). change (f d + sum_list (map f (<[i:=c']> cs)) + f c = f d + sum_list (map f cs) + f c'). lia.
Qed.
Lemma total_replicate f n c : total f (replicate n c) = n * f c.
Proof. unfold total. induction n as [|n IH]; cbn; [done|]. by rewrite IH. Qed.

(** The events a consumer holds, and the turns it may still take. *)
Definition held (c : Consumer) : nat := match c with Ready | Finished => 0 | _ => 1 end.
Definition turns_left (c : Consumer) : nat :=
  match c with Ready => 1 | Handling _ => 4 | Completing _ => 3 | Failing _ _ => 2 | _ => 0 end.
Definition handled (r : WorkerRun) : nat := run_completed r + run_retried r + run_quarantined r.
Definition work_left (p : Pool (C := C)) : nat := total turns_left (pool_consumers p) + 4 * (length events - pool_cursor p).

(** The part of [turn_of] that does not depend on the world. *)
Record turn_shape (c c' : Consumer) (cursor cursor' : nat) (r r' : WorkerRun) : Prop := mkShape {
  shape_cursor : cursor' = cursor ∨ c = Ready ∧ cursor < length events ∧ cursor' = S cursor;
  shape_claimed : run_claimed r' = run_claimed r;
  shape_held : handled r' + held c' + cursor = handled r + held c + cursor';
  shape_left : settled c = false → turns_left c' + 4 * (length events - cursor') < turns_left c + 4 * (length events - cursor);
  shape_finished : c' = Finished → c = Finished ∨ length events <= cursor';
}.
Ltac shape := split; unfold handled; cbn [held turns_left run_completed run_retried run_quarantined count_completed count_failed run_claimed]; auto; first [lia | done | discriminate].
Lemma turn_of_shape c cursor r (w : World C) :
  let '(c', cursor', r', w') := turn_of handlers config type_error events c cursor r w in turn_shape c c' cursor cursor' r r'.
Proof.
  destruct c as [|e|e|e m| |m]; cbn [turn_of].
  - destruct (events !! cursor) as [e|] eqn:Ee.
    + apply lookup_lt_Some in Ee. shape.
    + apply lookup_ge_None in Ee. shape.
  - destruct (handle _ _ e w) as [[] w']; shape.
  - destruct (mark_complete _ e w) as [[] w']; shape.
  - destruct (mark_failed _ e m w) as [[[]|] w']; shape.
  - shape.
  - shape.
Qed.

Record accounts (p : Pool (C := C)) : Prop := mkAccounts {
  acc_cursor : pool_cursor p <= length events;
  acc_claimed : run_claimed (pool_result p) = length events;
  acc_held : handled (pool_result p) + total held (pool_consumers p) = pool_cursor p;
  acc_finished : Finished ∈ pool_consumers p → pool_cursor p = length events;
  acc_none : pool_consumers p = [] → length events = 0;
}.

Lemma turn_accounts i p c :
  pool_consumers p !! i = Some c → settled c = false → accounts p → accounts (turn i p) ∧ work_left (turn i p) < work_left p.
Proof.
  intros Hi Hc [H1 H2 H3 H4 H5]. unfold Outbox.turn, work_left. rewrite Hi.
  pose proof (turn_of_shape c (pool_cursor p) (pool_result p) (pool_world p)) as Hs.
  destruct (turn_of _ _ _ _ _ _ _ _) as [[[c' cursor'] r'] w']. destruct Hs as [S1 S2 S3 S4 S5]. cbn [pool_cursor pool_consumers pool_result].
  pose proof (total_insert held (pool_consumers p) i c c' Hi) as T1.
  pose proof (total_insert turns_left (pool_consumers p) i c c' Hi) as T2. specialize (S4 Hc).
  split; [|lia]. split; cbn [pool_cursor pool_consumers pool_result]; [destruct S1 as [->|(_ & ? & ->)]; lia|congruence|lia| |].
  2: { intros Hn. apply H5. destruct (pool_consumers p); [done|]. by destruct i. }
  intros [j Hj]%list_elem_of_lookup_1. destruct (decide (j = i)) as [->|Hne].
  - rewrite list_lookup_insert_eq in Hj by (by eapply lookup_lt_Some). injection Hj as ->.
    destruct (S5 eq_refl) as [->|?]; [done|]. destruct S1 as [->|(_ & ? & ->)]; lia.
  - rewrite list_lookup_insert_ne in Hj by done. apply list_elem_of_lookup_2, H4 in Hj. destruct S1 as [->|(_ & ? & ->)]; lia.
Qed.

Lemma pool_run_accounts n p p' : pool_run n p p' → accounts p → accounts p' ∧ n + work_left p' <= work_left p.
Proof.
  induction 1 as [p|n p p' i c _ IH Hi Hc|n p p' w _ IH]; intros Hp; [split; [done|lia]| |].
  - destruct (IH Hp) as [Ha Hw]. destruct (turn_accounts i p' c Hi Hc Ha) as [Ha' Hlt]. split; [done|lia].
  - destruct (IH Hp) as [[H1 H2 H3 H4 H5] Hw]. split; [by split|done].
Qed.

Lemma start_accounts config' w :
  accounts (mkPool 0 (replicate (Nat.min (concurrency config') (length events)) Ready) (mkWorkerRun (length events) 0 0 0) w).
Proof.
  split; cbn [pool_cursor pool_consumers pool_result run_claimed]; [lia|done|rewrite total_replicate; cbn; lia|by intros [? ?]%elem_of_replicate|].
  intros Hn%(f_equal length). rewrite length_replicate in Hn. unfold concurrency in Hn. cbn in Hn. lia.
Qed.

Lemma settled_held cs : forallb settled cs = true →
  List.find (λ c, match c with Rejected _ => true | _ => false end) cs = None → total held cs = 0 ∧ (cs = [] ∨ Finished ∈ cs).
Proof.
  induction cs as [|c cs IH]; [by split; [|left]|]. cbn. intros [Hc Hcs]%andb_true_iff Hf.
  destruct c; try done. destruct (IH Hcs Hf) as [Ht _]. split; [exact Ht|right; by left].
Qed.
End Accounts.

(** A run accounts for every event it claimed, and ends.  Take the events
    that [runOnce] claimed and let its consumers take turns in any order, anything
    happening elsewhere in between (other workers, time, the handlers' effects): the
    events handled, the events held by a consumer and those not yet taken add up to
    the events claimed; when every consumer has settled and none was rejected, each
    claimed event was completed, retried or quarantined; and the consumers settle
    within four turns an event and one a consumer. *)
Theorem run_accounts_for_events {C} (handlers : list (string * EventHandler (C := C))) config type_error busy w events p w' n p' :
  start_run config busy w = (Ok (events, p), w') → pool_run handlers config type_error events n p p' →
  n <= 4 * length events + concurrency config ∧
  handled (pool_result p') + total held (pool_consumers p') + (length events - pool_cursor p') = run_claimed (pool_result p') ∧
  run_claimed (pool_result p') = length events ∧
  (all_settled p' = true → ∀ r, outcome p' = Ok r → handled r = length events).
Proof.
  unfold start_run. intros (t & w1 & Ht & H1)%M_bind_Ok Hrun. apply M_bind_Ok in H1 as (? & w2 & _ & H1).
  apply M_bind_Ok in H1 as (? & w3 & _ & H1). apply M_bind_Ok in H1 as (es & w4 & _ & H1). injection H1 as <- <- <-.
  apply pool_run_accounts in Hrun as [[A1 A2 A3 A4 A5] Hw].
  2: apply start_accounts.
  unfold work_left in Hw. cbn [pool_consumers pool_cursor] in Hw. rewrite total_replicate in Hw. cbn [turns_left] in Hw.
  split_and!; [lia|lia|done|]. intros Hs r Ho. unfold outcome in Ho.
  destruct (List.find _ _) as [c|] eqn:Ef.
  { exfalso. apply find_Some_elem in Ef as [_ Ef]. destruct c; done. }
  injection Ho as <-. destruct (settled_held _ Hs Ef) as [Ht0 [Hnil|Hfin]]; [|specialize (A4 Hfin); lia].
  specialize (A5 Hnil). lia.
Qed.

(** ** Runs that find work end *)

Section Drain.
Context {C : Type} (handlers : list (string * EventHandler (C := C))) (config : WorkerConfig) (type_error : string → string).
Abbreviation W := (World C).

(** The clock does not run backwards in a handler. *)
Definition forward_handlers : Prop :=
  ∀ name h event o, (name, h) ∈ handlers → (out_now o <= out_now (h event o).2)%Z.

Definition is_finished (r : EventRow) : bool := bool_decide (is_Some (row_processed_at r)) || bool_decide (is_Some (row_quarantined_at r)).
(** Finished, or put back with one attempt more, below the maximum. *)
Definition dealt_with (r r' : EventRow) : Prop :=
  row_id r' = row_id r ∧
  (is_finished r' = true ∨
   is_finished r' = false ∧ row_attempt_count r' = (row_attempt_count r + 1)%Z ∧ (row_attempt_count r + 1 < maxAttempts config)%Z).

(** *** The consumers between their turns *)

Definition held_ids (c : Consumer) : list string :=
  match c with Handling e | Completing e | Failing e _ => [event_id e] | _ => [] end.
Definition pending (events : list OutboxEvent) (p : Pool (C := C)) : list string :=
  (map event_id (drop (pool_cursor p) events) ++ flat_map held_ids (pool_consumers p))%list.

Context (events : list OutboxEvent) (rows1 : list EventRow) (until : Z).
Abbreviation worker := (config_workerId config).

(** The row of a claimed event, after the claim. *)
Definition claimed_row (e : OutboxEvent) (r : EventRow) : Prop :=
  r ∈ rows1 ∧ row_id r = event_id e ∧ row_attempt_count r = event_attemptCount e ∧ row_locked_by r = Some worker ∧
  row_locked_until r = Some until ∧ is_finished r = false.
Definition row_now (p : Pool (C := C)) (r1 r : EventRow) : Prop :=
  row_id r = row_id r1 ∧
  (row_id r1 ∈ pending events p → r = r1) ∧
  (row_id r1 ∉ pending events p → row_id r1 ∈ map event_id events → dealt_with r1 r) ∧
  (row_id r1 ∉ map event_id events → r = r1).
Definition consumer_ok (c : Consumer) : Prop :=
  match c with Handling e | Completing e | Failing e _ => e ∈ events | Rejected _ => False | _ => True end.
Record in_order (p : Pool (C := C)) : Prop := mkInOrder {
  order_distinct : NoDup (pending events p);
  order_consumers : Forall consumer_ok (pool_consumers p);
  order_rows : Forall2 (row_now p) rows1 (world_rows (pool_world p));
}.

Context (Hids : NoDup (row_id <$> rows1)) (Hclaimed : ∀ e, e ∈ events → ∃ r, claimed_row e r).

Lemma filter_ids_distinct (rows : list EventRow) (q : EventRow → bool) :
  NoDup (row_id <$> rows) → NoDup (row_id <$> List.filter q rows).
Proof.
  induction rows as [|x l IH]; cbn; [constructor|]. intros [Hx Hl]%NoDup_cons. destruct (q x); [|auto].
  apply NoDup_cons. split; [|auto]. intros (y & Hy & Hin)%list_elem_of_fmap. apply Hx. rewrite Hy.
  apply List_filter_elem in Hin as [Hin _]. by apply list_elem_of_fmap_2.
Qed.
Lemma filter_unique (rows : list EventRow) (q : EventRow → bool) r :
  NoDup (row_id <$> rows) → r ∈ rows → q r = true → (∀ r', r' ∈ rows → q r' = true → row_id r' = row_id r) → List.filter q rows = [r].
Proof.
  intros Hnd Hr Hq Hu. apply Permutation_singleton_r, NoDup_Permutation.
  - by apply (NoDup_fmap_1 row_id), filter_ids_distinct.
  - apply NoDup_singleton.
  - intros x. rewrite List_filter_elem, list_elem_of_singleton. split; [|by intros ->]. intros [Hx Hqx].
    eapply ids_inj; [exact Hnd|done|done|by apply Hu].
Qed.

Lemma row_now_ids p l rows : Forall2 (row_now p) l rows → row_id <$> rows = row_id <$> l.
Proof. induction 1 as [|r1 r l1 l' [Hid _] _ IH]; [done|]. cbn. by rewrite Hid, IH. Qed.

(** The row of a pending event is as the claim left it. *)
Lemma pending_row p e rows :
  Forall2 (row_now p) rows1 rows → e ∈ events → event_id e ∈ pending events p → ∃ r, claimed_row e r ∧ r ∈ rows.
Proof.
  intros Hrows He Hp. destruct (Hclaimed e He) as [r Hr]. exists r. split; [done|]. destruct Hr as (Hin & Hid & _).
  apply list_elem_of_lookup_1 in Hin as [i Hi]. destruct (Forall2_lookup_l _ _ _ _ _ Hrows Hi) as (r' & Hr' & _ & Heq & _).
  rewrite Hid in Heq. rewrite (Heq Hp) in Hr'. by apply list_elem_of_lookup_2 in Hr'.
Qed.
Lemma pending_leased p e rows at_ :
  Forall2 (row_now p) rows1 rows → e ∈ events → event_id e ∈ pending events p → (at_ <= until)%Z →
  ∃ r, claimed_row e r ∧ List.filter (leased (event_id e) worker at_) rows = [r].
Proof.
  intros Hrows He Hp Hat. destruct (pending_row p e rows Hrows He Hp) as (r & Hc & Hr). exists r. split; [done|].
  destruct Hc as (_ & Hid & _ & Hby & Hun & Hf). apply filter_unique; [by rewrite (row_now_ids p rows1)|done| |].
  - unfold leased. rewrite Hid, Hby, Hun, !strict_eq_refl. unfold is_finished in Hf. apply orb_false_iff in Hf as [Hf _].
    apply bool_decide_eq_false in Hf. destruct (row_processed_at r); [exfalso; by apply Hf|]. cbn. by apply Z.leb_le.
  - intros r' _ Hl. unfold leased in Hl. rewrite Hid. by apply andb_true_iff in Hl as [[[Hl%bool_decide_eq_true _]%andb_true_iff _]%andb_true_iff _].
Qed.
Lemma settle_rows p p' e rows at_ f :
  Forall2 (row_now p) rows1 rows → e ∈ events → event_id e ∈ pending events p → (at_ <= until)%Z →
  (∀ x, x ∈ pending events p' ↔ x ∈ pending events p ∧ x ≠ event_id e) →
  (∀ r, claimed_row e r → dealt_with r (f r)) →
  Forall2 (row_now p') rows1 (map (λ r, if leased (event_id e) worker at_ r then f r else r) rows).
Proof.
  intros Hrows He Hp Hat Hp' Hf. destruct (pending_leased p e rows at_ Hrows He Hp Hat) as (r0 & Hc & Hfil).
  assert (∀ r, r ∈ rows → leased (event_id e) worker at_ r = true → r = r0) as Honly.
  { intros r Hr Hl. apply list_elem_of_singleton. rewrite <- Hfil. by apply List_filter_elem. }
  assert (r0 ∈ rows ∧ leased (event_id e) worker at_ r0 = true) as [Hr0 Hl0] by (apply List_filter_elem; rewrite Hfil; by left).
  apply Forall2_fmap_r. apply Forall2_same_length_lookup in Hrows as [Hlen Hrows]. apply Forall2_same_length_lookup. split; [done|].
  intros i r1 r Hi Hi'. unfold compose. destruct (Hrows i r1 r Hi Hi') as (Hid & Hpend & Hdone & Hother).
  destruct (decide (row_id r1 = event_id e)) as [E|E].
  - assert (r1 = r0) as ->. { destruct Hc as (Hin & Hid0 & _). eapply ids_inj; [exact Hids|by eapply list_elem_of_lookup_2|done|congruence]. }
    assert (r = r0) as -> by (apply Hpend; by rewrite E). rewrite Hl0. specialize (Hf r0 Hc). split_and!.
    + apply Hf.
    + intros Hin. apply Hp' in Hin as [_ Hin]. congruence.
    + done.
    + intros Hn. exfalso. apply Hn. rewrite E. by apply list_elem_of_fmap_2.
  - destruct (leased (event_id e) worker at_ r) eqn:El.
    { exfalso. apply Honly in El; [|by eapply list_elem_of_lookup_2]. subst r. destruct Hc as (_ & Hid0 & _). congruence. }
    split_and!; [done| | |done].
    + intros [Hin _]%Hp'. by apply Hpend.
    + intros Hn. apply Hdone. intros Hin. apply Hn, Hp'. done.
Qed.

Context (Hforward : forward_handlers) (Hbase : (0 <= baseDelayMs config)%Z)
  (Hrange : (until + baseDelayMs config * 2 ^ Z.max 0 (maxAttempts config) <= MAX_DATE)%Z).

Lemma flat_map_insert cs i c c' :
  cs !! i = Some c → (held_ids c ++ flat_map held_ids (<[i := c']> cs) ≡ₚ held_ids c' ++ flat_map held_ids cs)%list.
Proof.
  revert i. induction cs as [|d cs IH]; intros [|i] Hi; try done.
  - injection Hi as ->. cbn. solve_Permutation.
  - specialize (IH i Hi). change (held_ids c ++ held_ids d ++ flat_map held_ids (<[i:=c']> cs) ≡ₚ held_ids c' ++ held_ids d ++ flat_map held_ids cs)%list.
    rewrite !(Permutation_app_swap_app _ (held_ids d)). by rewrite IH.
Qed.
Lemma in_range t : (0 <= t)%Z → (t <= until)%Z → iso (C := C) t = mret t.
Proof.
  intros H0 H1. unfold iso. assert (0 <= baseDelayMs config * 2 ^ Z.max 0 (maxAttempts config))%Z by (apply Z.mul_nonneg_nonneg; lia).
  destruct (Z.leb_spec (Z.abs t) MAX_DATE); [done|]. exfalso. rewrite Z.abs_eq in * by lia. lia.
Qed.

Lemma mark_complete_run e (w : W) :
  (0 <= world_now w)%Z → (world_now w <= until)%Z →
  mark_complete config e w = transaction (changed (leased (event_id e) worker (world_now w)) (with_processed (world_now w))) w.
Proof. intros H0 H1. unfold mark_complete, mbind at 1, M_bind, now, gets. by rewrite in_range. Qed.
Lemma mark_failed_run e m (w : W) r :
  (0 <= world_now w)%Z → (world_now w <= until)%Z → List.filter (leased (event_id e) worker (world_now w)) (world_rows w) = [r] →
  claimed_row e r →
  ∃ q f w', mark_failed config e m w = (Ok q, w') ∧ (∀ r, claimed_row e r → dealt_with r (f r)) ∧ world_now w' = world_now w ∧
    world_rows w' = map (λ r, if leased (event_id e) worker (world_now w) r then f r else r) (world_rows w).
Proof.
  intros H0 H1 Hf Hc. unfold mark_failed. unfold mbind at 1, M_bind at 1, now at 1, gets at 1. rewrite in_range by done.
  unfold mbind at 1, M_bind at 1, mret at 1, M_ret at 1. destruct (Z.leb_spec (maxAttempts config) (event_attemptCount e + 1)).
  - unfold mbind, M_bind. rewrite quarantine_run, Hf. eexists _, _, _. split_and!; [done| |done|done].
    intros r' _. split; [done|left]. unfold is_finished. cbn. by rewrite orb_true_r.
  - unfold mbind at 1, M_bind at 1, now, gets.
    assert (0 <= baseDelayMs config * 2 ^ (event_attemptCount e + 1 - 1) <= baseDelayMs config * 2 ^ Z.max 0 (maxAttempts config))%Z as Hd.
    { split; [apply Z.mul_nonneg_nonneg; lia|]. apply Z.mul_le_mono_nonneg_l; [done|]. apply Z.pow_le_mono_r; lia. }
    unfold iso at 1. destruct (Z.leb_spec (Z.abs (world_now w + baseDelayMs config * 2 ^ (event_attemptCount e + 1 - 1))) MAX_DATE).
    2: { exfalso. rewrite Z.abs_eq in * by lia. lia. }
    unfold mbind, M_bind, mret, M_ret, retry. rewrite changed_run, Hf. eexists _, _, _. split_and!; [done| |done|done].
    intros r' (_ & _ & Ha & _ & _ & Hfin). split; [done|right]. cbn. rewrite Ha. split_and!; [done|done|lia].
Qed.

Lemma handle_run e (w : W) :
  let '(r, w') := handle handlers type_error e w in world_rows w' = world_rows w ∧ (world_now w <= world_now w')%Z.
Proof.
  unfold handle, handler_of. destruct (map_get _ handlers) as [h|] eqn:Eh.
  - apply map_get_elem in Eh. pose proof (Hforward _ h e (world_out w) Eh) as Hf. unfold world_now. destruct (h e (world_out w)) as [r o].
    split; [done|exact Hf].
  - destruct (array_includes _ _); [|destruct (array_includes _ _)]; cbn; (split; [done|unfold world_now; cbn; lia]).
Qed.
Lemma row_now_same p p' : (∀ x, x ∈ pending events p' ↔ x ∈ pending events p) →
  ∀ r1 r, row_now p r1 r → row_now p' r1 r.
Proof. intros Hp r1 r (H1 & H2 & H3 & H4). split_and!; [done| | |done]; rewrite Hp; done. Qed.
Lemma in_order_same p p' :
  pending events p' ≡ₚ pending events p → Forall consumer_ok (pool_consumers p') →
  world_rows (pool_world p') = world_rows (pool_world p) → in_order p → in_order p'.
Proof.
  intros Hp Hc Hr [H1 H2 H3]. split; [by rewrite Hp|done|]. rewrite Hr. eapply Forall2_impl; [exact H3|].
  apply row_now_same. intros x. by rewrite Hp.
Qed.
Lemma consumers_insert cs i c' : Forall consumer_ok cs → consumer_ok c' → Forall consumer_ok (<[i := c']> cs).
Proof. apply Forall_insert. Qed.

(** A consumer that gives up the event it holds, whose row was dealt with. *)
Lemma in_order_settle p i c e w' result f at_ :
  pool_consumers p !! i = Some c → held_ids c = [event_id e] → e ∈ events → (at_ <= until)%Z → in_order p →
  (∀ r, claimed_row e r → dealt_with r (f r)) →
  world_rows w' = map (λ r, if leased (event_id e) worker at_ r then f r else r) (world_rows (pool_world p)) →
  in_order (mkPool (pool_cursor p) (<[i := Ready]> (pool_consumers p)) result w').
Proof.
  intros Hi Hh He Hat [H1 H2 H3] Hf Hw. set (p' := mkPool _ _ _ _).
  assert (pending events p ≡ₚ event_id e :: pending events p') as Hp.
  { unfold pending. cbn [pool_cursor pool_consumers p']. rewrite Permutation_middle.
    pose proof (flat_map_insert _ i c Ready Hi) as Hfl. rewrite Hh in Hfl. cbn [held_ids app] in Hfl. by rewrite <- Hfl. }
  assert (NoDup (event_id e :: pending events p')) as [Hn Hnd]%NoDup_cons by (by rewrite <- Hp).
  split; [done|by apply consumers_insert|]. cbn [pool_world p']. rewrite Hw.
  eapply (settle_rows p p'); [done|done| |done| |done].
  - rewrite Hp. by left.
  - intros x. rewrite Hp, elem_of_cons. split; [|naive_solver]. intros Hx. split; [by right|]. by intros ->.
Qed.
Lemma held_pending p i c e : pool_consumers p !! i = Some c → held_ids c = [event_id e] → event_id e ∈ pending events p.
Proof.
  intros Hi Hh. unfold pending. apply elem_of_app. right. apply list_elem_of_In, in_flat_map. exists c.
  split; [apply list_elem_of_In; by eapply list_elem_of_lookup_2|]. rewrite Hh. by left.
Qed.

(** The transactions do not move the clock. *)
Lemma mark_complete_now e (w : W) : world_now (mark_complete config e w).2 = world_now w.
Proof.
  unfold mark_complete, mbind, M_bind, now, gets, iso, complete. destruct (Z.leb _ _); [|done]. cbn. rewrite changed_run.
  by destruct (Nat.eqb _ _).
Qed.
Lemma mark_failed_now e m (w : W) : world_now (mark_failed config e m w).2 = world_now w.
Proof.
  unfold mark_failed, mbind, M_bind, now, gets, iso, retry. destruct (Z.leb (Z.abs (world_now w)) _); [|done]. cbn [mret M_ret].
  destruct (Z.leb (maxAttempts config) _).
  - unfold mret, M_ret. rewrite quarantine_run. by destruct (List.filter _ _).
  - unfold mret, M_ret. destruct (Z.leb _ _); [|done]. rewrite changed_run. by destruct (Nat.eqb _ _).
Qed.

Lemma turn_in_order i p :
  let p' := turn handlers config type_error events i p in
  (0 <= world_now (pool_world p))%Z → (world_now (pool_world p') <= until)%Z → in_order p →
  in_order p' ∧ (world_now (pool_world p) <= world_now (pool_world p'))%Z.
Proof.
  intros p' H0 H1 Hok. unfold p' in *. clear p'. unfold turn in *. destruct (pool_consumers p !! i) as [c|] eqn:Ei; [|split; [done|lia]].
  pose proof (order_consumers _ Hok) as Hcs. assert (consumer_ok c) as Hc by (eapply Forall_lookup_1; [exact Hcs|exact Ei]).
  destruct c as [|e|e|e m| |m]; cbn [turn_of] in *.
  - destruct (events !! pool_cursor p) as [e|] eqn:Ee; (split; [|cbn; lia]).
    + apply (in_order_same p); [|by apply consumers_insert; [|by eapply list_elem_of_lookup_2]|done|done].
      unfold pending. cbn [pool_cursor pool_consumers]. rewrite (drop_S _ _ _ Ee). cbn [map].
      pose proof (flat_map_insert _ i _ (Handling e) Ei) as Hfl. cbn [held_ids app] in Hfl. rewrite Hfl.
      by rewrite <- Permutation_middle.
    + apply (in_order_same p); [|by apply consumers_insert|done|done].
      unfold pending. cbn [pool_cursor pool_consumers]. pose proof (flat_map_insert _ i _ Finished Ei) as Hfl. cbn [held_ids app] in Hfl. by rewrite Hfl.
  - pose proof (handle_run e (pool_world p)) as Hh. destruct (handle _ _ e _) as [[u|m] w']; destruct Hh as [Hr Hn]; (split; [|exact Hn]).
    + apply (in_order_same p); [|by apply consumers_insert|done|done].
      unfold pending. cbn [pool_cursor pool_consumers]. pose proof (flat_map_insert _ i _ (Completing e) Ei) as Hfl.
      cbn [held_ids] in Hfl. apply Permutation_app_inv_l in Hfl. by rewrite Hfl.
    + apply (in_order_same p); [|by apply consumers_insert|done|done].
      unfold pending. cbn [pool_cursor pool_consumers]. pose proof (flat_map_insert _ i _ (Failing e m) Ei) as Hfl.
      cbn [held_ids] in Hfl. apply Permutation_app_inv_l in Hfl. by rewrite Hfl.
  - assert (world_now (pool_world p) <= until)%Z as Hu.
    { rewrite <- (mark_complete_now e). by destruct (mark_complete config e (pool_world p)) as [[] ?]. }
    destruct (pending_leased p e (world_rows (pool_world p)) (world_now (pool_world p))) as (r & Hr & Hfil);
      [apply Hok|done|by eapply held_pending|done|].
    rewrite mark_complete_run, changed_run, Hfil by done. cbn [length Nat.eqb]. split; [|cbn; unfold world_now; cbn; lia].
    eapply in_order_settle; [exact Ei|done|done|exact Hu|done| |reflexivity].
    intros r' _. split; [done|left]. done.
  - assert (world_now (pool_world p) <= until)%Z as Hu.
    { rewrite <- (mark_failed_now e m). by destruct (mark_failed config e m (pool_world p)) as [[] ?]. }
    destruct (pending_leased p e (world_rows (pool_world p)) (world_now (pool_world p))) as (r & Hr & Hfil);
      [apply Hok|done|by eapply held_pending|done|].
    destruct (mark_failed_run e m (pool_world p) r H0 Hu Hfil Hr) as (q & f & w' & -> & Hf & Hn & Hw).
    split; [|cbn; lia]. eapply in_order_settle; [exact Ei|done|done|exact Hu|done|exact Hf|exact Hw].
  - split; [|cbn; lia]. by rewrite list_insert_id; [destruct p|].
  - done.
Qed.

Lemma turn_now i p : (world_now (pool_world p) <= world_now (pool_world (turn handlers config type_error events i p)))%Z.
Proof.
  unfold turn. destruct (pool_consumers p !! i) as [c|]; [|lia]. destruct c as [|e|e|e m| |m]; cbn [turn_of]; try (cbn; lia).
  - destruct (events !! _); cbn; lia.
  - pose proof (handle_run e (pool_world p)) as Hh. destruct (handle _ _ e _) as [[u|m] w']; cbn; lia.
  - pose proof (mark_complete_now e (pool_world p)) as Hh. destruct (mark_complete _ e _) as [[u|m] w']; cbn in *; lia.
  - pose proof (mark_failed_now e m (pool_world p)) as Hh. destruct (mark_failed _ e m _) as [[u|m'] w']; cbn in *; lia.
Qed.
Lemma turns_now schedule p :
  (world_now (pool_world p) <= world_now (pool_world (turns handlers config type_error events schedule p)))%Z.
Proof.
  revert p. induction schedule as [|i schedule IH]; intros p; [cbn; lia|]. change (turns _ _ _ _ (i :: schedule) p) with
    (turns handlers config type_error events schedule (turn handlers config type_error events i p)).
  specialize (IH (turn handlers config type_error events i p)). pose proof (turn_now i p). lia.
Qed.
Lemma turns_in_order schedule p :
  let p' := turns handlers config type_error events schedule p in
  (0 <= world_now (pool_world p))%Z → (world_now (pool_world p') <= until)%Z → in_order p → accounts events p →
  in_order p' ∧ accounts events p'.
Proof.
  revert p. induction schedule as [|i schedule IH]; intros p p' H0 H1 Hok Hacc; [done|]. unfold p' in *.
  change (turns _ _ _ _ (i :: schedule) p) with (turns handlers config type_error events schedule (turn handlers config type_error events i p)) in *.
  set (q := turn handlers config type_error events i p) in *. pose proof (turns_now schedule q) as Hm. pose proof (turn_now i p) as Hm'. fold q in Hm'.
  destruct (turn_in_order i p) as [Hq _]; [done|fold q; lia|done|]. apply IH; [lia|done|exact Hq|].
  unfold q. destruct (pool_consumers p !! i) as [c|] eqn:Ei; [|unfold turn; by rewrite Ei].
  destruct (settled c) eqn:Es; [|by eapply turn_accounts]. unfold turn. rewrite Ei.
  destruct c; try done; cbn [turn_of]; rewrite list_insert_id by done; by destruct p.
Qed.

(** All consumers settled: every claimed event was dealt with. *)
Lemma in_order_end p :
  in_order p → accounts events p → all_settled p = true →
  Forall2 (λ r1 r, (row_id r1 ∈ map event_id events → dealt_with r1 r) ∧ (row_id r1 ∉ map event_id events → r = r1))
    rows1 (world_rows (pool_world p)).
Proof.
  intros Hok Hacc Hs. assert (∀ c, c ∈ pool_consumers p → c = Finished) as Hall.
  { intros c Hc. unfold all_settled in Hs. rewrite forallb_forall in Hs. specialize (Hs c (proj1 (list_elem_of_In _ _) Hc)).
    pose proof (order_consumers _ Hok) as Hcs. rewrite Forall_forall in Hcs. specialize (Hcs c Hc). by destruct c. }
  assert (pending events p = []) as Hp.
  { unfold pending. assert (flat_map held_ids (pool_consumers p) = []) as ->.
    { clear -Hall. induction (pool_consumers p) as [|c cs IH]; [done|]. cbn. rewrite (Hall c) by (by left). apply IH.
      intros c' Hc'. apply Hall. by right. }
    rewrite drop_ge; [done|]. destruct (pool_consumers p) as [|c cs] eqn:E.
    - pose proof (acc_none _ _ Hacc E). lia.
    - rewrite (acc_finished _ _ Hacc); [done|]. rewrite E, (Hall c) by (by left). by left. }
  eapply Forall2_impl; [apply (order_rows _ Hok)|]. intros r1 r (_ & _ & Hd & Ho). rewrite Hp in Hd. split; [|done].
  apply Hd. apply not_elem_of_nil.
Qed.
End Drain.

Section Runs.
Context {C : Type} (handlers : list (string * EventHandler (C := C))) (config : WorkerConfig) (type_error : string → string).
Abbreviation W := (World C).

(** The dates of a run that starts now are dates. *)
Definition dated (w : W) : Prop :=
  (0 <= world_now w)%Z ∧
  (world_now w + leaseMs config + baseDelayMs config * 2 ^ Z.max 0 (maxAttempts config) <= MAX_DATE)%Z.

(** A run by itself, within its lease, its consumers in any order. *)
Definition clean_run (w w' : W) : Prop :=
  ∃ events p w1 schedule,
    start_run config (λ _, false) w = (Ok (events, p), w1) ∧
    let p' := turns handlers config type_error events schedule p in
    all_settled p' = true ∧ w' = pool_world p' ∧ (world_now w' <= world_now w + leaseMs config)%Z ∧ dated w.
Definition claims (w : W) : list string := map row_id (candidates (claim_input config (world_now w)) (λ _, false) (world_rows w)).

Lemma start_run_inv busy (w : W) events p w1 :
  start_run config busy w = (Ok (events, p), w1) →
  let input := claim_input config (world_now w) in let rows := candidates input busy (world_rows w) in
  events = map mapEvent rows ∧ pool_world p = w1 ∧
  w1 = set_rows (map (λ r, if array_includes (map row_id rows) (row_id r)
         then with_lock (config_workerId config) (world_now w + leaseMs config)%Z r else r)) w ∧
  p = mkPool 0 (replicate (Nat.min (concurrency config) (length events)) Ready) (mkWorkerRun (length events) 0 0 0) w1.
Proof.
  unfold start_run, mbind, M_bind, now, gets, iso, mret, M_ret. destruct (Z.leb _ _); [|done].
  destruct (Z.leb _ _); [|done]. rewrite claim_run. cbn zeta. by intros [= <- <- <-].
Qed.

Lemma candidates_distinct input busy rows : NoDup (row_id <$> rows) → NoDup (map row_id (candidates input busy rows)).
Proof.
  intros Hnd. unfold candidates. eapply sublist_NoDup; [|apply (fmap_sublist row_id), sublist_take].
  rewrite merge_sort_Permutation.
  by apply filter_ids_distinct.
Qed.

Lemma clean_run_rows (w w' : W) :
  forward_handlers handlers → (0 <= baseDelayMs config)%Z → NoDup (row_id <$> world_rows w) → clean_run w w' →
  Forall2 (λ r r', (row_id r ∈ claims w → dealt_with config r r') ∧ (row_id r ∉ claims w → r' = r)) (world_rows w) (world_rows w') ∧
  (world_now w <= world_now w')%Z.
Proof.
  intros Hfw Hbase Hnd (events & p & w1 & schedule & Hstart & Hset & -> & Htime & H0 & Hrange).
  apply start_run_inv in Hstart as (Hev & _ & Hw1 & Hp). cbn zeta in *.
  set (rows := candidates _ _ _) in *.
  assert (∀ r, r ∈ rows → r ∈ world_rows w ∧ is_finished r = false) as Hcand.
  { intros r (Hr & Hc%claimable_open & _)%candidates_elem. split; [done|]. apply orb_false_iff. split; apply bool_decide_eq_false; intros ?; apply Hc; [by left|by right]. }
  assert (NoDup (map row_id rows)) as Hrd by (by apply candidates_distinct). set (until := (world_now w + leaseMs config)%Z) in *.
  assert (claims w = map row_id rows) as Hcl by done. clearbody rows.
  set (lock := λ r, if array_includes (map row_id rows) (row_id r) then with_lock (config_workerId config) until r else r) in Hw1.
  assert (map event_id events = map row_id rows) as Hids by (subst events; by rewrite map_map).
  assert (∀ r, row_id (lock r) = row_id r ∧ row_attempt_count (lock r) = row_attempt_count r ∧ is_finished (lock r) = is_finished r) as Hlock.
  { intros r. unfold lock. by destruct (array_includes _ _). }
  assert (row_id <$> world_rows w1 = row_id <$> world_rows w) as Hids1.
  { subst w1. cbn [world_rows set_rows]. clear -Hlock. induction (world_rows w) as [|r l IH]; [done|]. cbn. rewrite IH. f_equal. apply Hlock. }
  assert (∀ e, e ∈ events → ∃ r, claimed_row config (world_rows w1) until e r) as Hclaimed.
  { intros e He. rewrite Hev in He. apply list_elem_of_fmap in He as (r & -> & Hr). destruct (Hcand r Hr) as [Hin Hfin]. exists (lock r).
    split_and!; [subst w1; by apply list_elem_of_fmap_2|apply Hlock|apply Hlock| | |by rewrite (proj2 (proj2 (Hlock r)))];
      unfold lock; (destruct (array_includes _ _) eqn:Ea; [done|]); apply bool_decide_eq_false in Ea; exfalso; apply Ea;
      by apply list_elem_of_fmap_2. }
  assert (pool_world p = w1) as Hpw by (by subst p).
  assert (world_now w1 = world_now w) as Hn1 by (by subst w1).
  pose proof (turns_now handlers config type_error events Hfw schedule p) as Hmono. rewrite Hpw, Hn1 in Hmono. split; [|done].
  assert (pending events p = map event_id events) as Hpend.
  { subst p. unfold pending. cbn [pool_cursor pool_consumers]. rewrite drop_0. assert (∀ n, flat_map held_ids (replicate n Ready) = []) as ->.
    { intros n. induction n; done. } by rewrite app_nil_r. }
  assert (in_order config events (world_rows w1) p) as Horder.
  { split; [by rewrite Hpend, Hids| |].
    - subst p. apply Forall_replicate. done.
    - rewrite Hpw. apply Forall2_same_length_lookup. split; [done|]. intros i r1 r E1 E2. assert (r = r1) as -> by congruence.
      split_and!; [done|done| |done]. rewrite Hpend. done. }
  destruct (turns_in_order handlers config type_error events (world_rows w1) until) with (schedule := schedule) (p := p) as [Hord Hacc];
    [by rewrite Hids1|done|done|done|done|by rewrite Hpw, Hn1|done|done|subst p; apply start_accounts|].
  pose proof (in_order_end config events (world_rows w1) _ Hord Hacc Hset) as Hend. subst w1. cbn [world_rows set_rows] in Hend.
  apply Forall2_fmap_l in Hend. eapply Forall2_impl; [exact Hend|]. intros r r' [Hd Ho]. rewrite Hids in Hd, Ho. rewrite (proj1 (Hlock r)) in Hd, Ho.
  rewrite Hcl. split.
  - intros Hr. destruct (Hd Hr) as [Hid Hcase]. destruct (Hlock r) as (L1 & L2 & _). rewrite L1 in Hid. rewrite L2 in Hcase. by split.
  - intros Hr. rewrite (Ho Hr). unfold lock, array_includes. by rewrite bool_decide_eq_false_2.
Qed.

(** The attempts an unfinished row has left: at least one. *)
Definition row_attempts (r : EventRow) : nat :=
  if is_finished r then 0 else Z.to_nat (Z.max 1 (maxAttempts config - row_attempt_count r)).
Definition attempts_left (w : W) : nat := sum_list (map row_attempts (world_rows w)).

Lemma dealt_with_attempts r r' : is_finished r = false → dealt_with config r r' → S (row_attempts r') <= row_attempts r.
Proof.
  intros Hf (_ & [Hd|(Hd & Ha & Hlt)]); unfold row_attempts; rewrite Hf, Hd; [lia|]. rewrite Ha. lia.
Qed.
Lemma finished_claims (w : W) r : NoDup (row_id <$> world_rows w) → r ∈ world_rows w → row_id r ∈ claims w → is_finished r = false.
Proof.
  intros Hnd Hr (r' & Hid & (Hr' & Hc%claimable_open & _)%candidates_elem)%list_elem_of_fmap.
  assert (r = r') as <- by (by eapply ids_inj). apply orb_false_iff. split; apply bool_decide_eq_false; intros ?; apply Hc; [by left|by right].
Qed.

(** A run that claims something leaves fewer attempts. *)
Lemma clean_run_attempts (w w' : W) :
  forward_handlers handlers → (0 <= baseDelayMs config)%Z → 0 < batchSize config → NoDup (row_id <$> world_rows w) →
  existsb (claimable (claim_input config (world_now w))) (world_rows w) = true → clean_run w w' →
  attempts_left w' < attempts_left w ∧ row_id <$> world_rows w' = row_id <$> world_rows w ∧ (world_now w <= world_now w')%Z.
Proof.
  intros Hfw Hbase Hbatch Hnd Hex Hrun. destruct (clean_run_rows w w' Hfw Hbase Hnd Hrun) as [Hrows Hnow].
  assert (∀ r, r ∈ world_rows w → row_id r ∈ claims w → is_finished r = false) as Hfin by (intros; by eapply finished_claims).
  assert (∃ r, r ∈ world_rows w ∧ row_id r ∈ claims w) as Hsome.
  { apply existsb_exists in Hex as (r & Hr & Hc). apply list_elem_of_In in Hr.
    set (all := merge_sort row_before (List.filter (λ r, claimable (claim_input config (world_now w)) r && negb false) (world_rows w))).
    assert (r ∈ all) as Hall. { unfold all. rewrite merge_sort_Permutation. apply List_filter_elem. by rewrite Hc. }
    destruct all as [|r0 rest] eqn:Ea; [by apply elem_of_nil in Hall|].
    assert (r0 ∈ candidates (claim_input config (world_now w)) (λ _, false) (world_rows w)) as Hr0.
    { unfold candidates. fold all. rewrite Ea. cbn [claim_limit claim_input]. destruct (batchSize config); [lia|]. by left. }
    exists r0. split; [by apply (candidates_elem _ _ _ _ Hr0)|by apply list_elem_of_fmap_2]. }
  split; [|split; [|done]].
  - destruct Hsome as (r0 & Hr0 & Hc0). unfold attempts_left. clear Hnd Hex Hrun Hnow. set (cl := claims w) in *. clearbody cl.
    set (l := world_rows w) in *. clearbody l.
    assert (∀ l l', Forall2 (λ r r', (row_id r ∈ cl → dealt_with config r r') ∧ (row_id r ∉ cl → r' = r)) l l' →
      (∀ r, r ∈ l → row_id r ∈ cl → is_finished r = false) → sum_list (map row_attempts l') <= sum_list (map row_attempts l)) as Hle.
    { clear. induction 1 as [|r r' l l' [Hd Ho] _ IH]; intros Hf; [done|]. cbn. specialize (IH (λ x Hx, Hf x (list_elem_of_further _ _ _ Hx))).
      destruct (decide (row_id r ∈ cl)) as [Hin|Hn]; [|rewrite (Ho Hn); lia].
      pose proof (dealt_with_attempts r r' (Hf r (list_elem_of_here _ _) Hin) (Hd Hin)). lia. }
    revert Hr0 Hfin. induction Hrows as [|r r' l l' [Hd Ho] Hrest IH]; intros Hr0 Hfin; [by apply elem_of_nil in Hr0|].
    assert (∀ x, x ∈ l → row_id x ∈ cl → is_finished x = false) as Hfin' by (intros; apply Hfin; [by right|done]).
    cbn. specialize (Hle l l' Hrest Hfin'). destruct (decide (row_id r ∈ cl)) as [Hin|Hn].
    + pose proof (dealt_with_attempts r r' (Hfin r (list_elem_of_here _ _) Hin) (Hd Hin)). lia.
    + rewrite (Ho Hn). apply elem_of_cons in Hr0 as [->|Hr0]; [done|]. specialize (IH Hr0 Hfin'). lia.
  - clear -Hrows. set (cl := claims w) in *. clearbody cl. induction Hrows as [|r r' l l' [Hd Ho] _ IH]; [done|]. cbn. rewrite IH. f_equal.
    destruct (decide (row_id r ∈ cl)) as [Hin|Hn]; [apply (Hd Hin)|by rewrite (Ho Hn)].
Qed.

(** Runs that find a row to claim, with pauses. *)
Inductive worker_runs : nat → W → W → Prop :=
  | runs_start w : worker_runs 0 w w
  | runs_pause n w w' out : worker_runs n w w' → (world_now w' <= out_now out)%Z → worker_runs n w (mkWorld (world_rows w') out)
  | runs_run n w w' w'' :
      worker_runs n w w' → existsb (claimable (claim_input config (world_now w'))) (world_rows w') = true → clean_run w' w'' →
      worker_runs (S n) w w''.

(** C18. The outbox drains.  For a worker that is not disturbed and stays within
    its lease, whatever its handlers do and however its consumers interleave: each
    run that starts when a row can be claimed uses up attempts that rows have left,
    an unfinished row having the configured number less those made, and at least
    one.  So there are at most as many such runs as there were attempts left; and
    once none are left every event has been processed or quarantined. *)
Theorem outbox_drains n (w w' : W) :
  forward_handlers handlers → (0 <= baseDelayMs config)%Z → 0 < batchSize config → NoDup (row_id <$> world_rows w) →
  worker_runs n w w' →
  n + attempts_left w' <= attempts_left w ∧ (attempts_left w' = 0 ↔ Forall (λ r, is_finished r = true) (world_rows w')).
Proof.
  intros Hfw Hbase Hbatch Hnd Hruns. split.
  - assert (n + attempts_left w' <= attempts_left w ∧ row_id <$> world_rows w' = row_id <$> world_rows w) as [? _]; [|done].
    induction Hruns as [w|n w w' out _ IH Ht|n w w' w'' _ IH Hex Hrun]; [done|by destruct (IH Hnd)|].
    destruct (IH Hnd) as [Hle Hids]. rewrite <- Hids in Hnd.
    destruct (clean_run_attempts w' w'' Hfw Hbase Hbatch Hnd Hex Hrun) as (Hlt & Hids' & _). split; [lia|congruence].
  - unfold attempts_left. clear. induction (world_rows w') as [|r l IH]; [done|]. cbn. rewrite Forall_cons, <- IH. unfold row_attempts at 1.
    destruct (is_finished r); [|split; [lia|by intros [? _]]]. cbn. split; [by auto|]. by intros [_ ?].
Qed.
End Runs.

Module OutboxWitness.
Definition plain (id type : string) : EventRow :=
  mkEventRow id "ws-1" "op-1" type [] 100 0 None None None None None None.
Definition outside : Outside unit := mkOutside [] 100%Z tt.
Definition empty : World unit := mkWorld [] outside.
Definition queued : World unit := mkWorld [plain "e1" "blob.moved"; plain "e2" "broken"] outside.
Definition count_up (_ : OutboxEvent) : M (Outside unit) string unit :=
  modify (λ o, mkOutside (out_incidents o) (out_now o + 5)%Z (out_rest o)).
Definition fail (_ : OutboxEvent) : M (Outside unit) string unit := throw "no bytes".
Definition some_handlers : list (string * EventHandler (C := unit)) := [("blob.moved", count_up); ("broken", fail)].
Definition worker_config : WorkerConfig := mkConfig "worker-1" None (Some 1%Z) None None None (Some 2%Z).
Definition no_message (name : string) : string := name.

(** A run with two consumers that take turns. *)
Definition started := start_run worker_config (λ _, false) queued.
Definition claimed_events : list OutboxEvent := match started.1 with Ok (es, _) => es | Err _ => [] end.
Definition first_pool : Pool (C := unit) :=
  match started.1 with Ok (_, p) => p | Err _ => mkPool 0 [] (mkWorkerRun 0 0 0 0) queued end.
Definition alternate : list nat := [0; 1; 0; 1; 0; 1; 0; 1].
Definition last_pool : Pool (C := unit) := turns some_handlers worker_config no_message claimed_events alternate first_pool.
Definition drained : World unit := pool_world last_pool.

Example both_events_end :
  outcome last_pool = Ok (mkWorkerRun 2 1 0 1) ∧ all_settled last_pool = true ∧
  map is_finished (world_rows drained) = [true; true] ∧
  map incident_message (world_incidents drained) = ["no bytes"].
Proof. split_and!; vm_compute; reflexivity. Qed.

(** The worlds the transactions lead through. *)
Definition enqueued : World unit := mkWorld [plain "e1" "blob.moved"] outside.
Definition claimed_ : World unit := (claim (claim_input worker_config 100) (λ _, false) enqueued).2.
Definition completed_ : World unit := (complete "ws-1" "e1" "worker-1" 100 claimed_).2.
Definition ended : EventRow :=
  mkEventRow "e1" "ws-1" "op-1" "blob.moved" [] 100 0 (Some 100%Z) None None None None None.
Lemma event_end_final_witness :
  world_ok completed_ ∧
  ∀ r, r ∈ world_rows completed_ → ∃ r', r' ∈ world_rows (claim (claim_input worker_config 500) (λ _, false) completed_).2 ∧
    row_id r' = row_id r ∧ (finished r → r' = r).
Proof.
  apply (event_end_final outside).
  - eapply rtc_l. { apply (step_enqueue (plain "e1" "blob.moved")); [done|]. apply not_elem_of_nil. }
    eapply rtc_l; [exact (step_claim (claim_input worker_config 100) (λ _, false) enqueued)|].
    apply rtc_once. exact (step_complete "ws-1" "e1" "worker-1" 100 claimed_).
  - apply rtc_once. apply step_claim.
Defined.

Lemma run_accounts_for_events_witness :
  1 <= 4 * length claimed_events + concurrency worker_config ∧
  let p := turn some_handlers worker_config no_message claimed_events 0 first_pool in
  handled (pool_result p) + total held (pool_consumers p) + (length claimed_events - pool_cursor p) = run_claimed (pool_result p) ∧
  run_claimed (pool_result p) = length claimed_events ∧
  (all_settled p = true → ∀ r, outcome p = Ok r → handled r = length claimed_events).
Proof.
  eapply (run_accounts_for_events some_handlers worker_config no_message (λ _, false) queued claimed_events first_pool started.2).
  - vm_compute; reflexivity.
  - eapply (run_turn _ _ _ _ 0 _ _ 0 Ready); [apply run_start|vm_compute; reflexivity|reflexivity].
Defined.

Lemma forward : forward_handlers some_handlers.
Proof.
  intros name h event o Hin. unfold some_handlers in Hin. rewrite !elem_of_cons, elem_of_nil in Hin.
  destruct Hin as [[= -> ->]|[[= -> ->]|[]]]; cbn; lia.
Qed.
Lemma drained_run : clean_run some_handlers worker_config no_message queued drained.
Proof.
  exists claimed_events, first_pool, started.2, alternate.
  assert (world_now drained <= world_now queued + leaseMs worker_config)%Z by (vm_compute; discriminate).
  assert (dated worker_config queued) by (split; vm_compute; discriminate).
  split; [vm_compute; reflexivity|]. split_and!; [vm_compute; reflexivity|reflexivity|assumption|assumption].
Qed.
Lemma outbox_drains_witness :
  1 + attempts_left worker_config drained <= attempts_left worker_config queued ∧
  (attempts_left worker_config drained = 0 ↔ Forall (λ r, is_finished r = true) (world_rows drained)).
Proof.
  apply (outbox_drains some_handlers worker_config no_message 1 queued drained);
    [exact forward|vm_compute; discriminate|vm_compute; lia| |].
  - apply (bool_decide_eq_true_1 (NoDup (row_id <$> world_rows queued))). vm_compute; reflexivity.
  - eapply runs_run; [apply runs_start|vm_compute; reflexivity|exact drained_run].
Defined.

(** An event named after a method of [Object.prototype] is completed though no
    handler is registered for it. *)
Definition odd_world : World unit := mkWorld [plain "e1" "toString"; plain "e2" "unknown"] outside.
Example prototype_event_completed :
  (handle some_handlers no_message (mapEvent (plain "e1" "toString")) odd_world).1 = Ok tt ∧
  (handle some_handlers no_message (mapEvent (plain "e2" "unknown")) odd_world).1 = Err "No reconciliation handler for unknown".
Proof. split; vm_compute; reflexivity. Qed.

(** A lease is known by the worker's name only: a consumer of an earlier run, its
    lease expired, reports under the lease of a later run of the same worker, and
    the attempt another worker made in between is not counted. *)
Definition at_time (worker : string) (t : Z) : ClaimInput := mkClaim worker None 25 (t + 10) t.
Definition claim_by (worker : string) (t : Z) (w : World unit) : World unit := (claim (at_time worker t) (λ _, false) w).2.
Example stale_consumer_loses_attempt :
  let w1 := claim_by "worker-1" 100 enqueued in
  let w2 := (retry "ws-1" "e1" "worker-2" 1 120 120 "first failure" (claim_by "worker-2" 120 w1)).2 in
  let '(r, w3) := retry "ws-1" "e1" "worker-1" 1 130 130 "late failure" (claim_by "worker-1" 130 w2) in
  map row_attempt_count (world_rows w2) = [1%Z] ∧ r = Ok tt ∧ map row_attempt_count (world_rows w3) = [1%Z].
Proof. vm_compute. done. Qed.
End OutboxWitness.
