(* ===== verification/Reconciliation.v ===== *)
(** * Reconciliation

    [packages/reconciliation/src/handlers.ts], with the catalogue of
    [packages/persistence-postgres/src/reconciliation-catalog.ts], and the
    checkpoint runner of [failure-injection.ts].

    The handlers are those of the worker of [Outbox]; they read the object storage
    through its interface ([Storage]) and record incidents.  The theorems: a blob
    is reported exactly when storage, catalogue and event disagree, the report
    saying how, and nothing is changed but the incidents; with these handlers the
    worker's clock goes forward, as its theorems ask; and interrupted uploads that
    are run again perform each effect once, in order. *)
From S2P Require Import Prelude Js Json Concrete StorageKeys Storage MemoryStorage Outbox.

(** ** The handlers *)

(** The columns of [blob_objects] that are read. *)
Record BlobEntry := mkBlobEntry {
  entry_id : string;
  entry_workspace_id : string;
  entry_storage_key : string;
  entry_sha256 : string;
  entry_byte_length : Z;
}.
(** The object storage and the catalogue. *)
Record Stores (S : Type) := mkStores { stores_storage : S; stores_blobs : list BlobEntry }.
Arguments mkStores {_}. Arguments stores_storage {_}. Arguments stores_blobs {_}.

Section Handlers.
Context {S : Type} `{!ObjectStorage S}.
Abbreviation H := (M (Outside (Stores S)) string).
(** The message of an error of the storage. *)
Context (message_of : storage_exn → string).

(** A call of the object storage, an error being its message. *)
Definition on_storage {A} (m : M S storage_exn A) : H A := λ o,
  let '(r, s) := m (stores_storage (out_rest o)) in
  (match r with Ok a => Ok a | Err e => Err (message_of e) end,
   mkOutside (out_incidents o) (out_now o) (mkStores s (stores_blobs (out_rest o)))).

(** Source: packages/reconciliation/src/handlers.ts:13-13 requiredString *)
Definition requiredString (event : OutboxEvent) (key : string) : result string string :=
  match obj_get (event_payload event) key with
  | Some (JString value) => if value === EmptyString then Err ("Invalid " +:+ key +:+ " in " +:+ event_eventType event) else Ok value
  | _ => Err ("Invalid " +:+ key +:+ " in " +:+ event_eventType event)
  end.
(** Source: packages/reconciliation/src/handlers.ts:14-14 requiredNumber *)
Definition requiredNumber (event : OutboxEvent) (key : string) : result string Z :=
  match obj_get (event_payload event) key with
  | Some (JNumber value) =>
      if negb (isSafe value) || Z.ltb value 0 then Err ("Invalid " +:+ key +:+ " in " +:+ event_eventType event) else Ok value
  | _ => Err ("Invalid " +:+ key +:+ " in " +:+ event_eventType event)
  end.

(** Source: packages/persistence-postgres/src/reconciliation-catalog.ts:5-5 findBlob *)
Definition findBlob (workspaceId storageKey sha256 : string) : H (option BlobEntry) :=
  gets (λ o, List.find (λ b, (entry_workspace_id b === workspaceId) && (entry_storage_key b === storageKey) && (entry_sha256 b === sha256))
               (stores_blobs (out_rest o))).
(** Source: packages/persistence-postgres/src/reconciliation-catalog.ts:6-6 recordIncident *)
Definition recordIncident (i : Incident) : H unit :=
  modify (λ o, mkOutside (out_incidents o ++ [i]) (out_now o) (out_rest o)).

(** The three reports. *)
Definition missing_object (event : OutboxEvent) (storageKey : string) (b : BlobEntry) : Incident :=
  mkIncident (event_workspaceId event) (event_operationId event) "critical" "METADATA_WITHOUT_OBJECT"
    "Canonical metadata points to missing or inaccessible bytes."
    [("storageKey", JString storageKey); ("blobId", JString (entry_id b))].
Definition unattached_object (event : OutboxEvent) (storageKey sha256 : string) (length : Z) : Incident :=
  mkIncident (event_workspaceId event) (event_operationId event) "warning" "UNATTACHED_IMMUTABLE_OBJECT"
    "Immutable bytes exist without committed metadata; object retained for review."
    [("storageKey", JString storageKey); ("sha256", JString sha256); ("byteLength", JNumber length)].
Definition length_mismatch (event : OutboxEvent) (storageKey : string) (expected storage metadata : Z) : Incident :=
  mkIncident (event_workspaceId event) (event_operationId event) "critical" "RECONCILIATION_LENGTH_MISMATCH"
    "Object and metadata byte lengths disagree."
    [("storageKey", JString storageKey); ("expectedLength", JNumber expected); ("storageLength", JNumber storage);
     ("metadataLength", JNumber metadata)].

(** Source: packages/reconciliation/src/handlers.ts:10-10 createReconciliationHandlers *)
Definition reconcile_blob (event : OutboxEvent) : H unit :=
  lift (requiredString event "storageKey") ≫= λ storageKey,
  lift (requiredString event "sha256") ≫= λ sha256,
  lift (requiredNumber event "byteLength") ≫= λ expectedLength,
  findBlob (event_workspaceId event) storageKey sha256 ≫= λ metadata,
  try_catch (on_storage (head storageKey) ≫= λ h, mret (inl h)) (λ error, mret (inr error)) ≫= λ object,
  match object, metadata with
  | inr _, Some b => recordIncident (missing_object event storageKey b)
  | inr error, None => throw error
  | inl h, None => recordIncident (unattached_object event storageKey sha256 (metadata_byteLength h))
  | inl h, Some b =>
      if (metadata_byteLength h !== expectedLength) || (entry_byte_length b !== expectedLength)
      then recordIncident (length_mismatch event storageKey expectedLength (metadata_byteLength h) (entry_byte_length b))
      else mret tt
  end.
(** Source: packages/reconciliation/src/handlers.ts:9-9 createReconciliationHandlers *)
Definition cleanup_temporary (event : OutboxEvent) : H unit :=
  lift (requiredString event "storageKey") ≫= λ key, on_storage (deleteTemporary key).

(** Source: packages/reconciliation/src/handlers.ts:4-12 createReconciliationHandlers *)
Definition createReconciliationHandlers : list (string * EventHandler (C := Stores S)) :=
  [("resource.revision_created", λ _, mret tt); ("resource.deleted", λ _, mret tt); ("resource.restored", λ _, mret tt);
   ("temporary.cleanup_requested", cleanup_temporary); ("blob.reconcile_requested", reconcile_blob)].

(** The clock is not moved by the handlers: the worker's theorems apply. *)
Lemma handlers_forward : forward_handlers createReconciliationHandlers.
Proof.
  assert (∀ A (m : M S storage_exn A) o, out_now (on_storage m o).2 = out_now o) as Hs.
  { intros A m o. unfold on_storage. by destruct (m _) as [[]]. }
  intros name h event o Hin. unfold createReconciliationHandlers in Hin. rewrite !elem_of_cons, elem_of_nil in Hin.
  destruct Hin as [[= -> ->]|[[= -> ->]|[[= -> ->]|[[= -> ->]|[[= -> ->]|[]]]]]]; [cbn; lia..| |].
  - unfold cleanup_temporary, mbind, M_bind, lift. destruct (requiredString _ _); [|cbn; lia]. rewrite Hs. lia.
  - unfold reconcile_blob, mbind, M_bind, lift. destruct (requiredString event "storageKey") as [key|]; [|cbn; lia].
    destruct (requiredString event "sha256"); [|cbn; lia]. destruct (requiredNumber _ _); [|cbn; lia].
    unfold findBlob, gets, try_catch. specialize (Hs _ (head key) o). destruct (on_storage (head key) o) as [[h|e] o1]; cbn in *;
      repeat case_match; cbn; lia.
Qed.
End Handlers.

(** ** A blob is reported exactly when there is something to report *)

Section Exact.
Context {S : Type} `{!ObjectStorage S} `{!StorageReads S} (message_of : storage_exn → string).

(** The row of the catalogue for an event. *)
Definition catalogued (event : OutboxEvent) (key digest : string) (stores : Stores S) : option BlobEntry :=
  List.find (λ b, (entry_workspace_id b === event_workspaceId event) && (entry_storage_key b === key) && (entry_sha256 b === digest))
    (stores_blobs stores).

(** What there is to report of bytes of some length, or of none. *)
Definition report (event : OutboxEvent) (key digest : string) (expected : Z) (row : option BlobEntry) (object : option Z) : list Incident :=
  match object, row with
  | Some n, Some b => if (n =? expected)%Z && (entry_byte_length b =? expected)%Z then [] else [length_mismatch event key expected n (entry_byte_length b)]
  | Some n, None => [unattached_object event key digest n]
  | None, Some b => [missing_object event key b]
  | None, None => []
  end.

(** The length the storage reports, or none: the object is missing, or the
    provider failed, throttled the call or denied it. *)
Definition accessible (key : string) (stores : Stores S) : option Z :=
  match (head key (stores_storage stores)).1 with Ok md => Some (metadata_byteLength md) | Err _ => None end.

(** C27. Reconciliation of a blob, over any object storage whose reading changes
    nothing, with whatever errors it throws: for a valid event the handler adds to
    the incidents exactly the report of what the storage answers, the catalogue and
    the event say of the blob (none when the object is accessible, catalogued and
    both lengths are the expected one; missing or inaccessible bytes of a catalogued
    blob, also where the error was a passing one; an object without a row; lengths
    that differ), and changes nothing else.  It fails, for the worker to try again,
    only when the object is not accessible and there is no row; for an event
    without a key, a digest or a length it fails and reports nothing. *)
Theorem reconcile_blob_exact event o :
  match requiredString event "storageKey", requiredString event "sha256", requiredNumber event "byteLength" with
  | Ok key, Ok digest, Ok expected =>
      let row := catalogued event key digest (out_rest o) in
      let object := accessible key (out_rest o) in
      ∃ r, reconcile_blob message_of event o =
          (r, mkOutside (out_incidents o ++ report event key digest expected row object) (out_now o) (out_rest o)) ∧
        (is_Ok r = false ↔ object = None ∧ row = None)
  | _, _, _ => ∃ e, reconcile_blob message_of event o = (Err e, o)
  end.
Proof.
  unfold reconcile_blob, mbind, M_bind, lift. destruct (requiredString event "storageKey") as [key|e]; [|by exists e].
  destruct (requiredString event "sha256") as [digest|e]; [|by exists e].
  destruct (requiredNumber event "byteLength") as [expected|e]; [|by exists e]. cbn zeta.
  unfold findBlob, gets, try_catch, on_storage, mret, M_ret, recordIncident, modify, throw, catalogued, accessible.
  set (row := List.find _ (stores_blobs (out_rest o))). change (List.find _ (stores_blobs (out_rest o))) with row. clearbody row.
  destruct o as [incidents t [s blobs]]. cbn [out_rest out_incidents out_now stores_storage stores_blobs] in *.
  destruct (reads_only s key) as [Hpure _]. destruct (head key s) as [[md|e] s'] eqn:Eh; cbn in Hpure; subst s'; cbn [fst].
  - unfold report. cbn [out_incidents out_now out_rest]. destruct row as [e|].
    + destruct (Z.eqb_spec (metadata_byteLength md) expected) as [E1|E1]; destruct (Z.eqb_spec (entry_byte_length e) expected) as [E2|E2];
        rewrite ?(bool_decide_eq_true_2 _ E1), ?(bool_decide_eq_true_2 _ E2), ?(bool_decide_eq_false_2 _ E1), ?(bool_decide_eq_false_2 _ E2); cbn;
        (eexists; split; [rewrite ?app_nil_r; reflexivity|naive_solver]).
    + eexists. split; [reflexivity|naive_solver].
  - unfold report. cbn [out_incidents out_now out_rest]. destruct row as [b|].
    + eexists. split; [reflexivity|naive_solver].
    + eexists. split; [by rewrite app_nil_r|naive_solver].
Qed.
End Exact.

(** ** Checkpoints *)

(** Source: packages/reconciliation/src/failure-injection.ts:1-2 UploadCheckpoint *)
Inductive UploadCheckpoint :=
  | authorised | temporary_upload_created | bytes_received | hash_verified | immutable_object_committed | metadata_committed
  | audit_committed | completed.
#[global] Instance UploadCheckpoint_eq_dec : EqDecision UploadCheckpoint.
Proof. solve_decision. Defined.
Definition uploadCheckpoints : list UploadCheckpoint :=
  [authorised; temporary_upload_created; bytes_received; hash_verified; immutable_object_committed; metadata_committed;
   audit_committed; completed].

(** The completed checkpoints, the effects performed (a log) and the state of
    the failure injector. *)
Record Progress (I : Type) := mkProgress { marks : list UploadCheckpoint; effects_done : list UploadCheckpoint; injector : I }.
Arguments mkProgress {_}. Arguments marks {_}. Arguments effects_done {_}. Arguments injector {_}.

Section Checkpoints.
Context {I : Type} (before : UploadCheckpoint → M I string unit).

Definition inject (c : UploadCheckpoint) : M (Progress I) string unit := λ p,
  let '(r, i) := before c (injector p) in (r, mkProgress (marks p) (effects_done p) i).
Definition perform (c : UploadCheckpoint) : M (Progress I) string unit :=
  modify (λ p, mkProgress (marks p) (effects_done p ++ [c]) (injector p)).
Definition markCompleted (c : UploadCheckpoint) : M (Progress I) string unit :=
  modify (λ p, mkProgress (marks p ++ [c]) (effects_done p) (injector p)).
(** Source: packages/reconciliation/src/failure-injection.ts:5-5 DurableCheckpointRunner *)
Definition run_checkpoints : M (Progress I) string unit :=
  gets marks ≫= λ done,
  for_each (λ c, if array_includes done c then mret tt
                 else inject c ≫= λ _, perform c ≫= λ _, markCompleted c) uploadCheckpoints.

(** Runs one after the other, whatever their results. *)
Fixpoint reruns (n : nat) (p : Progress I) : result string unit * Progress I :=
  match n with
  | 0 => (Err "not run", p)
  | Datatypes.S n => run_checkpoints (reruns n p).2
  end.
End Checkpoints.

(** Source: packages/reconciliation/src/failure-injection.ts:6-6 FailOnceAt *)
Definition FailOnceAt (target c : UploadCheckpoint) : M bool string unit := λ failed,
  if negb failed && (c === target) then (Err "Injected failure", true) else (Ok tt, failed).

Section Resume.
Context {I : Type} (before : UploadCheckpoint → M I string unit).

(** What was done is what was marked: a prefix of the checkpoints. *)
Definition resumable (p : Progress I) : Prop := effects_done p = marks p ∧ ∃ rest, uploadCheckpoints = (marks p ++ rest)%list.

Lemma for_each_skip (f : UploadCheckpoint → M (Progress I) string unit) xs ys p :
  (∀ x, x ∈ xs → f x p = (Ok tt, p)) → for_each f (xs ++ ys) p = for_each f ys p.
Proof.
  induction xs as [|x xs IH]; intros Hx; [done|]. cbn [for_each app]. unfold mbind, M_bind. rewrite Hx by (by left).
  apply IH. intros y Hy. apply Hx. by right.
Qed.
Lemma perform_rest done rest p :
  (∀ c, c ∈ rest → array_includes done c = false) → effects_done p = marks p →
  let '(r, p') := for_each (λ c, if array_includes done c then mret tt
      else inject before c ≫= λ _, perform c ≫= λ _, markCompleted c) rest p in
  effects_done p' = marks p' ∧ ∃ did left, rest = (did ++ left)%list ∧ marks p' = (marks p ++ did)%list ∧ (r = Ok tt → left = []).
Proof.
  revert p. induction rest as [|c rest IH]; intros p Hnew Heq.
  { cbn. split; [done|]. exists [], []. split_and!; [done|by rewrite app_nil_r|done]. }
  cbn [for_each]. rewrite Hnew by (by left). unfold mbind, M_bind, inject. destruct (before c (injector p)) as [[u|e] i].
  2: { split; [done|]. exists [], (c :: rest). cbn. split_and!; [done|by rewrite app_nil_r|done]. }
  cbn [perform markCompleted modify marks effects_done injector]. unfold perform, markCompleted, modify. cbn [marks effects_done injector].
  specialize (IH (mkProgress (marks p ++ [c]) (effects_done p ++ [c]) i)%list). unfold mbind, M_bind in IH.
  destruct (for_each _ rest _) as [r p'].
  destruct IH as (He & did & rest' & Hr & Hm & Hok); [intros d Hd; apply Hnew; by right|cbn; by rewrite Heq|].
  split; [done|]. exists (c :: did), rest'. cbn in *. rewrite Hr, Hm, <- app_assoc. by split_and!.
Qed.
Lemma run_resumable p :
  resumable p → let '(r, p') := run_checkpoints before p in
    resumable p' ∧ (∃ did, marks p' = (marks p ++ did)%list) ∧ (r = Ok tt → marks p' = uploadCheckpoints).
Proof.
  intros [Heq [rest Hrest]]. unfold run_checkpoints. unfold mbind at 1, M_bind at 1, gets. rewrite Hrest.
  assert (NoDup (marks p ++ rest)) as Hnd.
  { rewrite <- Hrest. apply (bool_decide_eq_true_1 (NoDup uploadCheckpoints)). vm_compute; reflexivity. }
  apply NoDup_app in Hnd as (_ & Hdisj & _). rewrite for_each_skip.
  2: { intros x Hx. unfold array_includes. by rewrite bool_decide_eq_true_2. }
  pose proof (perform_rest (marks p) rest p) as Hp. destruct (for_each _ rest p) as [r p'].
  destruct Hp as (He & did & rest' & Hr & Hm & Hok); [|done|].
  { intros c Hc. apply bool_decide_eq_false. intros Hin. by apply (Hdisj c). }
  split_and!; [split; [done|exists rest'; by rewrite Hrest, Hr, Hm, app_assoc]|by exists did|].
  intros E. specialize (Hok E). subst rest'. rewrite app_nil_r in Hr. by rewrite Hm, <- Hr.
Qed.

(** An interrupted upload resumes: however often the runner is run, and
    wherever the injected failures stop it, the effects performed are a prefix of
    the checkpoints, each performed once and in order, the ones marked as
    completed; and a run that returns has performed them all. *)
Theorem checkpoints_resume n i :
  let '(r, p) := reruns before n (mkProgress [] [] i) in
  effects_done p = marks p ∧ (∃ rest, uploadCheckpoints = (effects_done p ++ rest)%list) ∧ NoDup (effects_done p) ∧
  (r = Ok tt → effects_done p = uploadCheckpoints).
Proof.
  assert (let '(r, p) := reruns before n (mkProgress [] [] i) in resumable p ∧ (r = Ok tt → marks p = uploadCheckpoints)) as Hall.
  { induction n as [|n IH]; cbn [reruns]; [split; [|done]; split; [done|by exists uploadCheckpoints]|].
    destruct (reruns before n _) as [r p]. destruct IH as [Hp _]. cbn [snd]. apply run_resumable in Hp.
    destruct (run_checkpoints before p) as [r' p']. destruct Hp as (Hp & _ & Hok). done. }
  destruct (reruns before n _) as [r p]. destruct Hall as [[He [rest Hrest]] Hok]. rewrite He. split_and!; [done|by exists rest| |done].
  assert (NoDup uploadCheckpoints) as Hnd by (apply (bool_decide_eq_true_1 (NoDup uploadCheckpoints)); vm_compute; reflexivity).
  rewrite Hrest in Hnd. by apply NoDup_app in Hnd as [? _].
Qed.
End Resume.

Module ReconciliationWitness.
Definition key : string := "workspaces/ws-1/objects/ab/abcd".
Definition reconcile_event (n : Z) : OutboxEvent :=
  mkEvent "e1" "ws-1" "op-1" "blob.reconcile_requested"
    [("storageKey", JString key); ("sha256", JString "abcd"); ("byteLength", JNumber n)] 100 0.
Definition absent : Outside (Stores MemoryObjectStorage) :=
  mkOutside [] 100%Z (mkStores (mem_init false) [mkBlobEntry "b1" "ws-1" key "abcd" 3]).
Definition message (_ : storage_exn) : string := "missing".

(** The catalogue has a blob whose bytes are gone. *)
Lemma reconcile_blob_exact_witness :
  ∃ r, reconcile_blob message (reconcile_event 3) absent =
      (r, mkOutside (out_incidents absent ++ report (reconcile_event 3) key "abcd" 3
            (catalogued (reconcile_event 3) key "abcd" (out_rest absent)) (accessible key (out_rest absent))) (out_now absent) (out_rest absent)) ∧
    (is_Ok r = false ↔ accessible key (out_rest absent) = None ∧ catalogued (reconcile_event 3) key "abcd" (out_rest absent) = None).
Proof. exact (reconcile_blob_exact message (reconcile_event 3) absent). Defined.
Example missing_bytes_reported :
  map incident_code (out_incidents (reconcile_blob message (reconcile_event 3) absent).2) = ["METADATA_WITHOUT_OBJECT"].
Proof. vm_compute; reflexivity. Qed.

(** A provider that throttles every [head]: the blob is reported, whatever it
    holds. *)
Definition throttling : ObjectStorage MemoryObjectStorage := {|
  createTemporaryUpload := createTemporaryUpload; writeTemporary := writeTemporary; commitImmutable := commitImmutable;
  openReadStream := openReadStream; head _ := throw (StorageError throttled); exists_ := exists_; deleteTemporary := deleteTemporary |}.
Example throttled_blob_reported :
  map incident_code (out_incidents (reconcile_blob (ObjectStorage0 := throttling) message (reconcile_event 3) absent).2) = ["METADATA_WITHOUT_OBJECT"].
Proof. vm_compute; reflexivity. Qed.

(** A failure before the fourth checkpoint, and the run after it. *)
Example resumed :
  let p := (reruns (FailOnceAt hash_verified) 2 (mkProgress [] [] false)).2 in
  effects_done (reruns (FailOnceAt hash_verified) 1 (mkProgress [] [] false)).2 = [authorised; temporary_upload_created; bytes_received] ∧
  effects_done p = uploadCheckpoints.
Proof. split; vm_compute; reflexivity. Qed.
End ReconciliationWitness.
