(* ===== verification/Identity.v ===== *)
(** * Identity

    [packages/identity/src/oidc.ts] with the store of
    [packages/persistence-postgres/src/identity-store.ts]: a login begins with
    random tokens of which the store keeps hashes, ends with a code that the
    provider exchanges for claims, and becomes a session.

    The random tokens are arguments of the calls, the provider is a parameter.
    There are two clocks, the service's and the database's.  The reference keeps
    the tokens themselves; the theorems: whatever the calls, the service that keeps
    hashes gives the answers of the reference, unless two of the tokens presented
    are a collision of SHA-256; a login completes once, in the browser that began
    it, before it expires, with the verifier and the nonce of its beginning; and a
    return address stays on the site. *)
From S2P Require Import Prelude Js Concrete Json ArchiveSignature Policy Access.

(** ** Data *)

(** Source: packages/identity/src/oidc.ts:4-4 IdentityClaims *)
Record IdentityClaims := mkClaims {
  claims_subject : string;
  claims_issuer : string;
  claims_displayName : string;
  claims_email : option string;
  claims_roles : list string;
  claims_workspaceIds : list string;
  claims_nonce : string;
}.
(** The argument of [exchangeCode]. *)
Record Exchange := mkExchange {
  exchange_code : string;
  exchange_codeVerifier : string;
  exchange_redirectUri : string;
  exchange_expectedNonce : string;
}.
(** Source: packages/identity/src/oidc.ts:6-6 LoginTransaction *)
Record LoginTransaction := mkLogin {
  login_stateHash : string;
  login_browserBindingHash : string;
  login_nonce : string;
  login_codeVerifier : string;
  login_redirectUri : string;
  login_returnTo : string;
  login_expiresAt : Z;
}.
(** Source: packages/identity/src/oidc.ts:7-7 IdentitySessionRecord *)
Record IdentitySessionRecord := mkSessionRecord {
  record_sessionHash : string;
  record_csrfHash : string;
  record_actor : AuthenticatedActor;
  record_createdAt : Z;
  record_expiresAt : Z;
  record_lastSeenAt : Z;
}.
(** Source: packages/identity/src/oidc.ts:9-9 OidcServiceConfig *)
Record OidcServiceConfig := mkOidcConfig {
  oidc_clientId : string;
  oidc_redirectUri : string;
  oidc_sessionLifetimeMs : option Z;
  oidc_loginLifetimeMs : option Z;
  oidc_allowedReturnPaths : option (list string);
  oidc_roleMap : option (list (string * string));
}.
(** Source: packages/identity/src/oidc.ts:10-10 OidcLoginResult *)
Record OidcLoginResult := mkLoginResult {
  login_endpoint : string;
  login_query : list (string * string);
  login_browserBinding : string;
}.
(** Source: packages/identity/src/oidc.ts:11-11 OidcSessionResult *)
Record OidcSessionResult := mkSessionResult {
  session_sessionId : string;
  session_csrf : string;
  session_of : AuthenticatedActor;
  session_expires : Z;
  session_returnTo : string;
}.
(** Source: packages/identity/src/oidc.ts:22-22 IdentityError *)
Inductive identity_exn :=
  | IdentityError (code message : string)
  | ProviderError (message : string)
  | UniqueViolation.

(** The tables, and the two clocks. *)
Record IdentityDb := mkIdentityDb {
  db_logins : list LoginTransaction;
  db_sessions : list (IdentitySessionRecord * option Z);
  db_service_now : Z;
  db_now : Z;
}.
Abbreviation D := (M IdentityDb identity_exn).
Definition set_logins (f : list LoginTransaction → list LoginTransaction) (d : IdentityDb) : IdentityDb :=
  mkIdentityDb (f (db_logins d)) (db_sessions d) (db_service_now d) (db_now d).
Definition set_session_rows (f : list (IdentitySessionRecord * option Z) → list (IdentitySessionRecord * option Z))
    (d : IdentityDb) : IdentityDb :=
  mkIdentityDb (db_logins d) (f (db_sessions d)) (db_service_now d) (db_now d).

(** ** The store *)

(** Source: packages/persistence-postgres/src/identity-store.ts:6-6 saveLogin *)
Definition saveLogin (v : LoginTransaction) : D unit :=
  gets (λ d, existsb (λ l, login_stateHash l === login_stateHash v) (db_logins d)) ≫= λ taken,
  throw_when taken UniqueViolation ≫= λ _, modify (set_logins (λ l, l ++ [v])%list).
(** Source: packages/persistence-postgres/src/identity-store.ts:7-7 consumeLogin *)
Definition consumeLogin (stateHash : string) : D (option LoginTransaction) :=
  gets (λ d, List.find (λ l, login_stateHash l === stateHash) (db_logins d)) ≫= λ row,
  modify (set_logins (List.filter (λ l, login_stateHash l !== stateHash))) ≫= λ _, mret row.
(** Source: packages/persistence-postgres/src/identity-store.ts:8-8 createSession *)
Definition store_createSession (v : IdentitySessionRecord) : D unit :=
  gets (λ d, existsb (λ s, record_sessionHash s.1 === record_sessionHash v) (db_sessions d)) ≫= λ taken,
  throw_when taken UniqueViolation ≫= λ _, modify (set_session_rows (λ l, l ++ [(v, None)])%list).

Definition seen (at_ : Z) (r : IdentitySessionRecord) : IdentitySessionRecord :=
  mkSessionRecord (record_sessionHash r) (record_csrfHash r) (record_actor r) (record_createdAt r) (record_expiresAt r) at_.
Definition open_session (sessionHash : string) (at_ : Z) (s : IdentitySessionRecord * option Z) : bool :=
  (record_sessionHash s.1 === sessionHash) && (s.2 === None) && Z.ltb at_ (record_expiresAt s.1).
(** Source: packages/persistence-postgres/src/identity-store.ts:9-9 getSession *)
Definition getSession (sessionHash : string) : D (option IdentitySessionRecord) :=
  gets (λ d, db_now d) ≫= λ at_,
  gets (λ d, List.find (open_session sessionHash at_) (db_sessions d)) ≫= λ row,
  modify (set_session_rows (map (λ s, if open_session sessionHash at_ s then (seen at_ s.1, s.2) else s))) ≫= λ _,
  mret ((λ s : IdentitySessionRecord * option Z, seen at_ s.1) <$> row).
(** Source: packages/persistence-postgres/src/identity-store.ts:10-10 revokeSession *)
Definition store_revokeSession (sessionHash : string) : D unit :=
  gets (λ d, db_now d) ≫= λ at_,
  modify (set_session_rows (map (λ s, if (record_sessionHash s.1 === sessionHash) && (s.2 === None) then (s.1, Some at_) else s))).

(** ** The service *)

(** [createHash("sha256").update(value).digest("base64url")] *)
Fixpoint hex_bytes (s : string) : string :=
  match s with
  | String a (String b r) =>
      let value c := let n := nat_of_ascii c in if Nat.ltb n 58 then n - 48 else n - 87 in
      String (ascii_of_nat (16 * value a + value b)) (hex_bytes r)
  | _ => EmptyString
  end.
Definition to_base64url (s : string) : string :=
  string_of_list_ascii (flat_map (λ c, if c === "+"%char then ["-"%char] else if c === "/"%char then ["_"%char]
    else if c === "="%char then [] else [c]) (list_ascii_of_string s)).

(** Source: packages/identity/src/oidc.ts:24-24 hash *)
Definition hash `{Crypto} (value : string) : string := sha256 value.

(** The service, over the function that makes a token into what is stored. *)
Section Service.
Context `{Crypto} (digest : string → string).
Context (config : OidcServiceConfig) (authorizationEndpoint : result identity_exn string)
  (exchangeCode : Exchange → result identity_exn IdentityClaims).

(** Source: packages/identity/src/oidc.ts:25-25 base64Hash *)
Definition base64Hash (value : string) : string := to_base64url (toBase64 (hex_bytes (sha256 value))).

(** Source: packages/identity/src/oidc.ts:20-20 safeReturn *)
Definition safeReturn (value : string) : string :=
  let allowed := default ["/"] (oidc_allowedReturnPaths config) in
  if negb (startsWith value "/") || startsWith value "//" ||
     negb (existsb (λ prefix, (value === prefix) || startsWith value (prefix +:+ "/")) allowed)
  then "/" else value.

(** [roleMap[role]]: a member of [Object.prototype] is found as well; it is
    truthy, and no role ([inr]). *)
Definition prototype_members : list string :=
  ["constructor"; "toString"; "toLocaleString"; "valueOf"; "hasOwnProperty"; "isPrototypeOf"; "propertyIsEnumerable"; "__proto__";
   "__defineGetter__"; "__defineSetter__"; "__lookupGetter__"; "__lookupSetter__"].
Definition mapped_role (role : string) : option (string + string) :=
  match map_get role (default [("owner", "owner"); ("admin", "admin"); ("editor", "editor");
                               ("recovery_operator", "recovery_operator"); ("auditor", "auditor")] (oidc_roleMap config)) with
  | Some mapped => if mapped === EmptyString then None else Some (inl mapped)
  | None => if array_includes prototype_members role then Some (inr role) else None
  end.
(** The roles of the actor are those that are strings. *)
(** Source: packages/identity/src/oidc.ts:19-19 mapActor *)
Definition mapActor (claims : IdentityClaims) : result identity_exn AuthenticatedActor :=
  let roles := new_Set (omap mapped_role (claims_roles claims)) in
  throw_if (Nat.eqb (length roles) 0 || Nat.eqb (length (claims_workspaceIds claims)) 0)
    (IdentityError "OIDC_CLAIMS_DENIED" "Identity has no permitted Trust Core role or workspace.") ≫= λ _,
  Ok (mkActor (claims_issuer claims +:+ "#" +:+ claims_subject claims) (claims_displayName claims) None
    (omap (λ r : string + string, match r with inl r => Some r | inr _ => None end) roles) (new_Set (claims_workspaceIds claims))).

Definition loginLifetimeMs : Z := default (5 * 60000)%Z (oidc_loginLifetimeMs config).
Definition sessionLifetimeMs : Z := default (30 * 60000)%Z (oidc_sessionLifetimeMs config).

(** Source: packages/identity/src/oidc.ts:15-15 beginLogin *)
Definition beginLogin (state browserBinding nonce codeVerifier returnTo : string) : D OidcLoginResult :=
  gets db_service_now ≫= λ now,
  saveLogin (mkLogin (digest state) (digest browserBinding) nonce codeVerifier (oidc_redirectUri config) (safeReturn returnTo)
    (now + loginLifetimeMs)%Z) ≫= λ _,
  lift authorizationEndpoint ≫= λ endpoint,
  mret (mkLoginResult endpoint
    [("response_type", "code"); ("client_id", oidc_clientId config); ("redirect_uri", oidc_redirectUri config);
     ("scope", "openid profile email"); ("state", state); ("nonce", nonce); ("code_challenge", base64Hash codeVerifier);
     ("code_challenge_method", "S256")] browserBinding).

(** Source: packages/identity/src/oidc.ts:16-16 completeLogin *)
Definition completeLogin (sessionId csrfToken state code browserBinding : string) : D OidcSessionResult :=
  consumeLogin (digest state) ≫= λ transaction,
  match transaction with
  | None => throw (IdentityError "OIDC_STATE_INVALID" "Login state is invalid or already used.")
  | Some transaction =>
      throw_when (login_browserBindingHash transaction !== digest browserBinding)
        (IdentityError "OIDC_BROWSER_BINDING_INVALID" "Login callback did not originate from the initiating browser.") ≫= λ _,
      gets db_service_now ≫= λ now,
      throw_when (Z.leb (login_expiresAt transaction) now) (IdentityError "OIDC_STATE_EXPIRED" "Login state has expired.") ≫= λ _,
      lift (exchangeCode (mkExchange code (login_codeVerifier transaction) (login_redirectUri transaction) (login_nonce transaction))) ≫= λ claims,
      throw_when (claims_nonce claims !== login_nonce transaction)
        (IdentityError "OIDC_NONCE_INVALID" "Identity nonce validation failed.") ≫= λ _,
      lift (mapActor claims) ≫= λ actor,
      let expiresAt := (now + sessionLifetimeMs)%Z in
      store_createSession (mkSessionRecord (digest sessionId) (digest csrfToken) actor now expiresAt now) ≫= λ _,
      mret (mkSessionResult sessionId csrfToken actor expiresAt (login_returnTo transaction))
  end.

(** Source: packages/identity/src/oidc.ts:17-17 authenticateSession *)
Definition oidc_authenticate (sessionId : string) (csrfToken : option string) (mutation : bool) : D (option AuthenticatedActor) :=
  getSession (digest sessionId) ≫= λ record,
  gets db_service_now ≫= λ now,
  mret match record with
       | None => None
       | Some record =>
           if Z.leb (record_expiresAt record) now || (mutation && negb (truthy csrfToken)) ||
              (mutation && (record_csrfHash record !== digest (default EmptyString csrfToken)))
           then None else Some (record_actor record)
       end.
(** Source: packages/identity/src/oidc.ts:18-18 revokeSession *)
Definition oidc_revoke (sessionId : string) : D unit := store_revokeSession (digest sessionId).
End Service.

(** ** The calls, one after the other *)

Inductive identity_call :=
  | BeginLogin (state browserBinding nonce codeVerifier returnTo : string)
  | CompleteLogin (sessionId csrfToken state code browserBinding : string)
  | AuthenticateSession (sessionId : string) (csrfToken : option string) (mutation : bool)
  | RevokeSession (sessionId : string)
  | SetClocks (service database : Z).
Inductive identity_answer :=
  | Begun (r : result identity_exn OidcLoginResult)
  | CompletedLogin (r : result identity_exn OidcSessionResult)
  | Authenticated (r : result identity_exn (option AuthenticatedActor))
  | RevokedSession (r : result identity_exn unit)
  | ClocksSet.

Section Calls.
Context `{Crypto} (digest : string → string).
Context (config : OidcServiceConfig) (authorizationEndpoint : result identity_exn string)
  (exchangeCode : Exchange → result identity_exn IdentityClaims).

Definition answer_call (c : identity_call) (d : IdentityDb) : identity_answer * IdentityDb :=
  match c with
  | BeginLogin state binding nonce verifier returnTo =>
      let '(r, d) := beginLogin digest config authorizationEndpoint state binding nonce verifier returnTo d in (Begun r, d)
  | CompleteLogin sessionId csrf state code binding =>
      let '(r, d) := completeLogin digest config exchangeCode sessionId csrf state code binding d in (CompletedLogin r, d)
  | AuthenticateSession sessionId csrf mutation =>
      let '(r, d) := oidc_authenticate digest sessionId csrf mutation d in (Authenticated r, d)
  | RevokeSession sessionId => let '(r, d) := oidc_revoke digest sessionId d in (RevokedSession r, d)
  | SetClocks service database => (ClocksSet, mkIdentityDb (db_logins d) (db_sessions d) service database)
  end.
Fixpoint answer_calls (calls : list identity_call) (d : IdentityDb) : list identity_answer * IdentityDb :=
  match calls with
  | [] => ([], d)
  | c :: calls => let '(a, d) := answer_call c d in let '(answers, d) := answer_calls calls d in (a :: answers, d)
  end.
End Calls.

Definition tokens (c : identity_call) : list string :=
  match c with
  | BeginLogin state binding _ _ _ => [state; binding]
  | CompleteLogin sessionId csrf state _ binding => [sessionId; csrf; state; binding]
  | AuthenticateSession sessionId csrf _ => sessionId :: option_list csrf
  | RevokeSession sessionId => [sessionId]
  | SetClocks _ _ => []
  end.

(** ** Hashes are as good as tokens *)

Section Refinement.
Context `{Crypto} (digest : string → string) (T : list string).
Context (Hinj : ∀ x y, x ∈ T → y ∈ T → digest x = digest y → x = y).
Context (config : OidcServiceConfig) (authorizationEndpoint : result identity_exn string)
  (exchangeCode : Exchange → result identity_exn IdentityClaims).

(** The rows that store the hashes of the tokens of a row. *)
Definition hashed_login (l : LoginTransaction) : LoginTransaction :=
  mkLogin (digest (login_stateHash l)) (digest (login_browserBindingHash l)) (login_nonce l) (login_codeVerifier l)
    (login_redirectUri l) (login_returnTo l) (login_expiresAt l).
Definition hashed_session (s : IdentitySessionRecord * option Z) : IdentitySessionRecord * option Z :=
  (mkSessionRecord (digest (record_sessionHash s.1)) (digest (record_csrfHash s.1)) (record_actor s.1) (record_createdAt s.1)
     (record_expiresAt s.1) (record_lastSeenAt s.1), s.2).
Definition hashed_db (d : IdentityDb) : IdentityDb :=
  mkIdentityDb (map hashed_login (db_logins d)) (map hashed_session (db_sessions d)) (db_service_now d) (db_now d).
Record known (d : IdentityDb) : Prop := mkKnown {
  known_logins l : l ∈ db_logins d → login_stateHash l ∈ T ∧ login_browserBindingHash l ∈ T;
  known_sessions s : s ∈ db_sessions d → record_sessionHash s.1 ∈ T ∧ record_csrfHash s.1 ∈ T;
}.

Lemma digest_same x y : x ∈ T → y ∈ T → (digest x === digest y) = (x === y).
Proof. intros Hx Hy. destruct (decide (x = y)) as [->|Hne]; [by rewrite !strict_eq_refl|]. rewrite !bool_decide_eq_false_2; auto. Qed.
Lemma find_map_same {A B} (f : A → B) (p : B → bool) (q : A → bool) l :
  (∀ x, x ∈ l → p (f x) = q x) → List.find p (map f l) = f <$> List.find q l.
Proof.
  induction l as [|x l IH]; intros Hl; [done|]. cbn. rewrite Hl by (by left). destruct (q x); [done|]. apply IH. intros y Hy. apply Hl. by right.
Qed.
Lemma filter_map_same {A B} (f : A → B) (p : B → bool) (q : A → bool) l :
  (∀ x, x ∈ l → p (f x) = q x) → List.filter p (map f l) = map f (List.filter q l).
Proof.
  induction l as [|x l IH]; intros Hl; [done|]. cbn. rewrite Hl by (by left).
  rewrite IH by (intros y Hy; apply Hl; by right). by destruct (q x).
Qed.
Lemma existsb_map_same {A B} (f : A → B) (p : B → bool) (q : A → bool) l :
  (∀ x, x ∈ l → p (f x) = q x) → existsb p (map f l) = existsb q l.
Proof.
  induction l as [|x l IH]; intros Hl; [done|]. cbn. rewrite Hl by (by left).
  by rewrite IH by (intros y Hy; apply Hl; by right).
Qed.

(** [m1] on hashes does what [m2] does on tokens, with results related by [R]. *)
Definition simulates {A B} (R : A → B → Prop) (m1 : D A) (m2 : D B) : Prop :=
  ∀ d, known d →
  match m2 d with
  | (Ok b, d') => ∃ a, m1 (hashed_db d) = (Ok a, hashed_db d') ∧ R a b ∧ known d'
  | (Err e, d') => m1 (hashed_db d) = (Err e, hashed_db d') ∧ known d'
  end.
Lemma simulates_bind {A B A' B'} (R : A → B → Prop) (R' : A' → B' → Prop) m1 m2 (f1 : A → D A') (f2 : B → D B') :
  simulates R m1 m2 → (∀ a b, R a b → simulates R' (f1 a) (f2 b)) → simulates R' (m1 ≫= f1) (m2 ≫= f2).
Proof.
  intros Hm Hf d Hd. specialize (Hm d Hd). unfold mbind, M_bind. destruct (m2 d) as [[b|e] d'].
  - destruct Hm as (a & -> & HR & Hd'). by apply Hf.
  - by destruct Hm as [-> Hd'].
Qed.
Lemma simulates_ret {A} (a : A) : simulates eq (mret a) (mret a).
Proof. intros d Hd. by exists a. Qed.
Lemma simulates_lift {A} (r : result identity_exn A) : simulates eq (lift r) (lift r).
Proof. intros d Hd. unfold lift. destruct r as [a|e]; [by exists a|done]. Qed.
Lemma simulates_throw_when b1 b2 e : b1 = b2 → simulates eq (throw_when b1 e) (throw_when b2 e).
Proof. intros ->. apply simulates_lift. Qed.
Lemma simulates_throw {A} e : simulates (A := A) eq (throw e) (throw e).
Proof. intros d Hd. done. Qed.
Lemma simulates_service_now : simulates eq (gets db_service_now) (gets db_service_now).
Proof. intros d Hd. by exists (db_service_now d). Qed.
Lemma simulates_read {A B} (R : A → B → Prop) f g : (∀ d, known d → R (f (hashed_db d)) (g d)) → simulates R (gets f) (gets g).
Proof. intros Hfg d Hd. exists (f (hashed_db d)). by split_and!; [|apply Hfg|]. Qed.
Lemma simulates_modify f g :
  (∀ d, known d → f (hashed_db d) = hashed_db (g d) ∧ known (g d)) → simulates eq (modify f) (modify g).
Proof. intros Hfg d Hd. exists tt. destruct (Hfg d Hd) as [E K]. unfold modify. rewrite E. by split_and!. Qed.

(** A pending login, and its row with hashes. *)
Definition same_login (a b : option LoginTransaction) : Prop :=
  a = hashed_login <$> b ∧ ∀ l, b = Some l → login_browserBindingHash l ∈ T.
Lemma saveLogin_simulates v :
  login_stateHash v ∈ T → login_browserBindingHash v ∈ T → simulates eq (saveLogin (hashed_login v)) (saveLogin v).
Proof.
  intros Hs Hb. unfold saveLogin. eapply simulates_bind; [apply (simulates_read eq)| ].
  { intros d Hd. cbn [hashed_db db_logins]. apply existsb_map_same. intros l Hl. apply digest_same; [by apply Hd|done]. }
  intros a b ->. eapply simulates_bind; [by apply simulates_throw_when|]. intros _ _ _. apply simulates_modify. intros d Hd.
  split.
  - unfold hashed_db, set_logins. cbn. by rewrite map_app.
  - destruct Hd as [H1 H2]. split; [|done]. intros l Hl. cbn in Hl. apply elem_of_app in Hl as [Hl| ->%list_elem_of_singleton]; [by apply H1|done].
Qed.
Lemma consumeLogin_simulates state : state ∈ T → simulates same_login (consumeLogin (digest state)) (consumeLogin state).
Proof.
  intros Hs. unfold consumeLogin. eapply (simulates_bind same_login).
  - apply simulates_read. intros d Hd. split.
    + cbn [hashed_db db_logins]. apply find_map_same. intros l Hl. apply digest_same; [by apply Hd|done].
    + intros l [Hl _]%find_Some_elem. by apply Hd.
  - intros a b Hab. eapply (simulates_bind eq).
    + apply simulates_modify. intros d Hd. split.
      * unfold hashed_db, set_logins. cbn. f_equal. apply filter_map_same. intros l Hl. cbn. by rewrite digest_same; [|apply Hd|].
      * destruct Hd as [H1 H2]. split; [|done]. intros l Hl. cbn in Hl. apply List_filter_elem in Hl as [Hl _]. by apply H1.
    + intros _ _ _ d Hd. exists a. done.
Qed.
Lemma createSession_simulates v :
  record_sessionHash v ∈ T → record_csrfHash v ∈ T →
  simulates eq (store_createSession (hashed_session (v, None)).1) (store_createSession v).
Proof.
  intros Hs Hc. unfold store_createSession. eapply simulates_bind; [apply (simulates_read eq)|].
  { intros d Hd. cbn [hashed_db db_sessions]. apply existsb_map_same. intros s Hin. apply digest_same; [by apply Hd|done]. }
  intros a b ->. eapply simulates_bind; [by apply simulates_throw_when|]. intros _ _ _. apply simulates_modify. intros d Hd. split.
  - unfold hashed_db, set_session_rows. cbn. by rewrite map_app.
  - destruct Hd as [H1 H2]. split; [done|]. intros s Hin. cbn in Hin. apply elem_of_app in Hin as [Hin| ->%list_elem_of_singleton]; [by apply H2|done].
Qed.

Definition same_session (a b : option IdentitySessionRecord) : Prop :=
  a = (λ r, (hashed_session (r, None)).1) <$> b ∧ ∀ r, b = Some r → record_csrfHash r ∈ T.
Lemma map_sessions_simulates (f1 f2 : IdentityDb → IdentitySessionRecord * option Z → IdentitySessionRecord * option Z) :
  (∀ d s, known d → s ∈ db_sessions d → f1 (hashed_db d) (hashed_session s) = hashed_session (f2 d s)) →
  (∀ d s, record_sessionHash (f2 d s).1 = record_sessionHash s.1 ∧ record_csrfHash (f2 d s).1 = record_csrfHash s.1) →
  simulates eq (modify (λ d, set_session_rows (map (f1 d)) d)) (modify (λ d, set_session_rows (map (f2 d)) d)).
Proof.
  intros Hf Hk. apply simulates_modify. intros d Hd. split.
  - unfold hashed_db, set_session_rows. cbn [db_sessions db_logins db_service_now db_now]. f_equal. rewrite !map_map. apply map_ext_in.
    intros s Hs%list_elem_of_In. exact (Hf d s Hd Hs).
  - destruct Hd as [H1 H2]. split; [done|]. intros s Hin. cbn in Hin. apply list_elem_of_fmap in Hin as (s0 & -> & Hs0).
    destruct (Hk d s0) as [-> ->]. by apply H2.
Qed.

Lemma getSession_simulates id : id ∈ T → simulates same_session (getSession (digest id)) (getSession id).
Proof.
  intros Hid d Hd. assert (∀ s, s ∈ db_sessions d → open_session (digest id) (db_now d) (hashed_session s) = open_session id (db_now d) s) as Ho.
  { intros s Hs. unfold open_session. cbn. by rewrite digest_same; [|apply Hd|]. }
  cbn [getSession mbind M_bind gets modify mret M_ret]. unfold getSession, mbind, M_bind, gets, modify, mret, M_ret. cbn [hashed_db db_now db_sessions].
  eexists. split_and!.
  - f_equal. unfold hashed_db, set_session_rows. cbn. f_equal. rewrite !map_map. apply map_ext_in. intros s Hs%list_elem_of_In. cbn.
    rewrite Ho by done. by destruct (open_session _ _ _).
  - rewrite (find_map_same hashed_session _ (open_session id (db_now d))) by exact Ho. split; [by destruct (List.find _ _)|].
    intros r. destruct (List.find _ _) as [s|] eqn:Es; [|done]. intros [= <-]. apply find_Some_elem in Es as [Hs _]. by apply Hd.
  - destruct Hd as [H1 H2]. split; [done|]. intros s Hin. cbn in Hin. apply list_elem_of_fmap in Hin as (s0 & -> & Hs0).
    destruct (H2 s0 Hs0). by destruct (open_session _ _ _).
Qed.
Lemma revokeSession_simulates id : id ∈ T → simulates eq (store_revokeSession (digest id)) (store_revokeSession id).
Proof.
  intros Hid. apply (map_sessions_simulates
    (λ d s, if (record_sessionHash s.1 === digest id) && (s.2 === None) then (s.1, Some (db_now d)) else s)
    (λ d s, if (record_sessionHash s.1 === id) && (s.2 === None) then (s.1, Some (db_now d)) else s)).
  - intros d s Hd Hs. cbn. rewrite digest_same; [|by apply Hd|done]. by destruct (_ && _).
  - intros d s. by destruct (_ && _).
Qed.

Abbreviation same := (λ x : string, x).
Lemma answer_call_simulates c d :
  (∀ t, t ∈ tokens c → t ∈ T) → known d →
  let '(a, d') := answer_call same config authorizationEndpoint exchangeCode c d in
  answer_call digest config authorizationEndpoint exchangeCode c (hashed_db d) = (a, hashed_db d') ∧ known d'.
Proof.
  intros Ht Hd. assert (∀ A B (g : result identity_exn A → B) (m1 m2 : D A), simulates eq m1 m2 →
    let '(a, d') := (let '(r, d') := m2 d in (g r, d')) in (let '(r, d') := m1 (hashed_db d) in (g r, d')) = (a, hashed_db d') ∧ known d') as Hsim.
  { intros A B g m1 m2 Hm. specialize (Hm d Hd). destruct (m2 d) as [[x|e] d'].
    - by destruct Hm as (a & -> & -> & ?).
    - by destruct Hm as [-> ?]. }
  destruct c as [state binding nonce verifier returnTo|sid csrf state code binding|sid csrf mutation|sid|t1 t2]; cbn [answer_call tokens] in *.
  - apply Hsim. unfold beginLogin. eapply simulates_bind; [apply simulates_service_now|]. intros ? t ->.
    eapply simulates_bind; [|intros _ _ _; eapply simulates_bind; [apply simulates_lift|intros ? ? ->; apply simulates_ret]].
    apply (saveLogin_simulates (mkLogin state binding nonce verifier _ _ _)); apply Ht; set_solver.
  - apply Hsim. unfold completeLogin. eapply simulates_bind; [apply consumeLogin_simulates, Ht; set_solver|].
    intros a [l|] [-> Hl]; cbn [fmap option_fmap option_map]; [|apply simulates_throw].
    eapply simulates_bind; [apply simulates_throw_when; cbn; rewrite digest_same; [done|by apply Hl|apply Ht; set_solver]|]. intros _ _ _.
    eapply simulates_bind; [apply simulates_service_now|]. intros ? t ->.
    eapply simulates_bind; [by apply simulates_throw_when|]. intros _ _ _.
    eapply simulates_bind; [apply simulates_lift|]. intros ? claims ->.
    eapply simulates_bind; [by apply simulates_throw_when|]. intros _ _ _.
    eapply simulates_bind; [apply simulates_lift|]. intros ? actor ->.
    eapply simulates_bind; [|intros _ _ _; apply simulates_ret].
    apply (createSession_simulates (mkSessionRecord sid csrf actor t _ t)); apply Ht; set_solver.
  - apply Hsim. unfold oidc_authenticate. eapply simulates_bind; [apply getSession_simulates, Ht; set_solver|].
    intros a b [-> Hb]. eapply simulates_bind; [apply simulates_service_now|]. intros ? t ->.
    enough (∀ x y : option AuthenticatedActor, x = y → simulates eq (mret x) (mret y)) as He; [apply He|intros x y ->; apply simulates_ret].
    destruct b as [r|]; [|done]. cbn. destruct mutation; [|done]. cbn. destruct csrf as [csrf|]; [|by rewrite orb_true_r].
    cbn. rewrite digest_same; [done|by apply Hb|apply Ht; set_solver].
  - apply Hsim, revokeSession_simulates, Ht. set_solver.
  - split; [done|]. by destruct Hd.
Qed.
Lemma answer_calls_simulate calls d :
  (∀ t, t ∈ flat_map tokens calls → t ∈ T) → known d →
  let '(answers, d') := answer_calls same config authorizationEndpoint exchangeCode calls d in
  answer_calls digest config authorizationEndpoint exchangeCode calls (hashed_db d) = (answers, hashed_db d').
Proof.
  revert d. induction calls as [|c calls IH]; intros d Ht Hd; [done|]. cbn [answer_calls flat_map] in *.
  pose proof (answer_call_simulates c d) as Hc. destruct (answer_call same _ _ _ c d) as [a d'].
  destruct Hc as [-> Hd']; [intros t Hin; apply Ht; set_solver|done|].
  specialize (IH d' (λ t Hin, Ht t (proj2 (elem_of_app _ _ _) (or_intror Hin))) Hd'). destruct (answer_calls same _ _ _ calls d') as [answers d''].
  by rewrite IH.
Qed.
End Refinement.

Section Logins.
Context `{Crypto} (config : OidcServiceConfig) (authorizationEndpoint : result identity_exn string)
  (exchangeCode : Exchange → result identity_exn IdentityClaims).
Context (service_start database_start : Z).
Abbreviation same := (λ x : string, x).
Definition no_rows : IdentityDb := mkIdentityDb [] [] service_start database_start.
Abbreviation answers digest calls := (answer_calls digest config authorizationEndpoint exchangeCode calls no_rows).
Abbreviation after digest calls := (answers digest calls).2.

(** No two of the tokens presented are a collision. *)
Definition collision_free (calls : list identity_call) : Prop :=
  ∀ x y, x ∈ flat_map tokens calls → y ∈ flat_map tokens calls → ¬ sha256_collision x y.
Lemma collision_free_inj calls x y :
  collision_free calls → x ∈ flat_map tokens calls → y ∈ flat_map tokens calls → hash x = hash y → x = y.
Proof. intros Hc Hx Hy [->|Hcol]%sha256_eq_or_collision; [done|]. exfalso. by apply (Hc x y). Qed.
Lemma known_no_rows T : known T no_rows.
Proof. split; cbn; intros ? []%elem_of_nil. Qed.

(** Hashes are as good as tokens: after any calls, with any changes of the
    two clocks in between, the service whose store keeps hashes of states, browser
    bindings, session identifiers and CSRF tokens gives the answers of the service
    whose store keeps the tokens themselves, provided no two tokens that were
    presented are a collision of SHA-256. *)
Theorem identity_store_refines calls : collision_free calls → (answers hash calls).1 = (answers same calls).1.
Proof.
  intros Hc. pose proof (answer_calls_simulate hash (flat_map tokens calls) (λ x y, collision_free_inj calls x y Hc)
    config authorizationEndpoint exchangeCode calls no_rows (λ t Ht, Ht) (known_no_rows _)) as Hs.
  destruct (answers same calls) as [a d]. change (hashed_db hash no_rows) with no_rows in Hs. by rewrite Hs.
Qed.

(** *** Where a pending login comes from *)

Lemma answer_calls_app digest l1 l2 d :
  (answer_calls digest config authorizationEndpoint exchangeCode (l1 ++ l2) d).2 =
  (answer_calls digest config authorizationEndpoint exchangeCode l2
     (answer_calls digest config authorizationEndpoint exchangeCode l1 d).2).2.
Proof.
  revert d. induction l1 as [|c l1 IH]; intros d; [done|]. cbn [answer_calls app]. destruct (answer_call _ _ _ _ c d) as [a d'].
  specialize (IH d'). destruct (answer_calls _ _ _ _ (l1 ++ l2) d') as [a1 d1]. destruct (answer_calls _ _ _ _ l1 d') as [a2 d2]. exact IH.
Qed.
Definition begun (calls : list identity_call) (l : LoginTransaction) : Prop :=
  ∃ pre post returnTo,
    calls = (pre ++ BeginLogin (login_stateHash l) (login_browserBindingHash l) (login_nonce l) (login_codeVerifier l) returnTo :: post)%list ∧
    (∀ sid csrf code binding, CompleteLogin sid csrf (login_stateHash l) code binding ∉ post) ∧
    login_redirectUri l = oidc_redirectUri config ∧ login_returnTo l = safeReturn config returnTo ∧
    login_expiresAt l = (db_service_now (after same pre) + loginLifetimeMs config)%Z.
Lemma begun_more calls c l :
  (∀ sid csrf code binding, c ≠ CompleteLogin sid csrf (login_stateHash l) code binding) → begun calls l → begun (calls ++ [c]) l.
Proof.
  intros Hc (pre & post & r & -> & Hp & Hrest). exists pre, (post ++ [c])%list, r. split_and!; [by rewrite <- app_assoc| |apply Hrest..].
  intros sid csrf code binding [Hin|Hin%list_elem_of_singleton]%elem_of_app; [by eapply Hp|]. by eapply Hc.
Qed.
(** Completing a login takes its state from the pending ones, whatever the
    answer. *)
Lemma completeLogin_logins digest sid csrf state code binding d :
  db_logins (completeLogin digest config exchangeCode sid csrf state code binding d).2 =
    List.filter (λ l, login_stateHash l !== digest state) (db_logins d).
Proof.
  set (L := List.filter _ _).
  assert (∀ v, preserves (λ d, db_logins d = L) (store_createSession v)) as Hcreate.
  { intros v. unfold store_createSession. apply preserves_bind; [apply preserves_gets|intros taken].
    apply preserves_bind; [apply preserves_throw_when|intros _]. by apply preserves_modify. }
  unfold completeLogin. unfold mbind at 1, M_bind at 1. unfold consumeLogin, mbind at 1 2, M_bind at 1 2, gets, modify, mret, M_ret.
  destruct (List.find _ _) as [t|]; [|done].
  match goal with |- db_logins (?m ?d1).2 = _ => assert (preserves (λ d, db_logins d = L) m) as Hp; [|specialize (Hp d1 eq_refl); by destruct (m d1) as [[]]] end.
  repeat (apply preserves_bind; [first [apply preserves_throw_when|apply preserves_gets|apply preserves_lift|apply Hcreate]|intros ?]).
  apply preserves_ret.
Qed.
(** What a call does to the pending logins. *)
Lemma answer_call_logins c d l :
  l ∈ db_logins (answer_call same config authorizationEndpoint exchangeCode c d).2 →
  (l ∈ db_logins d ∧ ∀ sid csrf code binding, c ≠ CompleteLogin sid csrf (login_stateHash l) code binding) ∨
  ∃ returnTo, c = BeginLogin (login_stateHash l) (login_browserBindingHash l) (login_nonce l) (login_codeVerifier l) returnTo ∧
    login_redirectUri l = oidc_redirectUri config ∧ login_returnTo l = safeReturn config returnTo ∧
    login_expiresAt l = (db_service_now d + loginLifetimeMs config)%Z.
Proof.
  destruct c as [state binding nonce verifier returnTo|sid csrf state code binding|sid csrf mutation|sid|t1 t2]; cbn [answer_call].
  - unfold beginLogin, saveLogin, mbind, M_bind, gets, throw_when, lift, throw_if, modify. destruct (existsb _ _); [by left|].
    destruct authorizationEndpoint; cbn; (intros [Hl| ->%list_elem_of_singleton]%elem_of_app; [by left|right; by exists returnTo]).
  - intros Hl. left.
    assert (l ∈ List.filter (λ l, login_stateHash l !== state) (db_logins d)) as [Hin Hne]%List_filter_elem.
    { rewrite <- (completeLogin_logins same sid csrf state code binding d). by destruct (completeLogin _ _ _ _ _ _ _ _ d). }
    split; [done|]. intros sid' csrf' code' binding' [= _ _ E _ _]. apply negb_true_iff, bool_decide_eq_false in Hne. congruence.
  - by left.
  - by left.
  - by left.
Qed.

Lemma pending_begun calls l : l ∈ db_logins (after same calls) → begun calls l.
Proof.
  induction calls as [|c calls IH] using rev_ind; [by intros ?%elem_of_nil|]. rewrite answer_calls_app. cbn [answer_calls].
  intros Hl. assert (l ∈ db_logins (answer_call same config authorizationEndpoint exchangeCode c (after same calls)).2) as Hc
    by (by destruct (answer_call _ _ _ _ c _)).
  apply answer_call_logins in Hc as [[Hin Hne]|(returnTo & -> & Hrest)].
  - apply begun_more; [done|by apply IH].
  - exists calls, [], returnTo. split_and!; [done| |apply Hrest..]. intros ? ? ? ?. apply not_elem_of_nil.
Qed.

(** What a login that completes has checked, and the row it leaves. *)
Lemma completeLogin_Ok digest sid csrf state code binding d res d' :
  completeLogin digest config exchangeCode sid csrf state code binding d = (Ok res, d') →
  ∃ l claims actor, l ∈ db_logins d ∧ login_stateHash l = digest state ∧ login_browserBindingHash l = digest binding ∧
    (db_service_now d < login_expiresAt l)%Z ∧
    exchangeCode (mkExchange code (login_codeVerifier l) (login_redirectUri l) (login_nonce l)) = Ok claims ∧
    claims_nonce claims = login_nonce l ∧ mapActor config claims = Ok actor ∧
    res = mkSessionResult sid csrf actor (db_service_now d + sessionLifetimeMs config)%Z (login_returnTo l) ∧
    db_sessions d' = (db_sessions d ++ [(mkSessionRecord (digest sid) (digest csrf) actor (db_service_now d)
      (db_service_now d + sessionLifetimeMs config) (db_service_now d), None)])%list.
Proof.
  unfold completeLogin. intros (row & d1 & Hrow & Hr)%M_bind_Ok. unfold consumeLogin, mbind, M_bind, gets, modify, mret, M_ret in Hrow.
  injection Hrow as <- <-. destruct (List.find _ _) as [l|] eqn:El; [|done]. apply find_Some_elem in El as [Hin Hst%bool_decide_eq_true].
  apply M_bind_Ok in Hr as (u1 & d2 & [Hb <-]%throw_when_Ok & Hr). apply negb_false_iff, bool_decide_eq_true in Hb.
  apply M_bind_Ok in Hr as (t & d3 & [= <- <-] & Hr). apply M_bind_Ok in Hr as (u2 & d4 & [He <-]%throw_when_Ok & Hr).
  apply M_bind_Ok in Hr as (claims & d5 & Hx & Hr). unfold lift in Hx. injection Hx as Hx <-.
  apply M_bind_Ok in Hr as (u3 & d6 & [Hn <-]%throw_when_Ok & Hr). apply negb_false_iff, bool_decide_eq_true in Hn.
  apply M_bind_Ok in Hr as (actor & d7 & Ha & Hr). unfold lift in Ha. injection Ha as Ha <-.
  apply M_bind_Ok in Hr as (u4 & d8 & Hs & [= <- <-]).
  unfold store_createSession in Hs. apply M_bind_Ok in Hs as (taken & d9 & [= <- <-] & Hs).
  apply M_bind_Ok in Hs as (u5 & d10 & [_ <-]%throw_when_Ok & Hs). unfold modify in Hs. injection Hs as _ <-.
  exists l, claims, actor. split_and!; [done|done|done|by apply Z.leb_gt in He|done..].
Qed.

(** C26. A login completes once, where it began.  When a login completes, then
    among the calls before there is one that began it with the same state and the
    same browser binding, with no attempt to complete that state since, less than
    the lifetime of a login ago; the code was exchanged with the verifier and the
    nonce of that beginning, the claims have that nonce and map to the actor of the
    session; the return address is the one that was made safe at the beginning; and
    the one row that is added holds SHA-256 digests of the session identifier and
    of the CSRF token, not the tokens.  That no two of the tokens presented are a
    collision of SHA-256 is assumed. *)
Theorem login_completes_once calls sid csrf state code binding res d' :
  collision_free (calls ++ [CompleteLogin sid csrf state code binding]) →
  completeLogin hash config exchangeCode sid csrf state code binding (after hash calls) = (Ok res, d') →
  ∃ pre post nonce verifier returnTo claims actor,
    calls = (pre ++ BeginLogin state binding nonce verifier returnTo :: post)%list ∧
    (∀ sid' csrf' code' binding', CompleteLogin sid' csrf' state code' binding' ∉ post) ∧
    (db_service_now (after hash calls) < db_service_now (after hash pre) + loginLifetimeMs config)%Z ∧
    exchangeCode (mkExchange code verifier (oidc_redirectUri config) nonce) = Ok claims ∧ claims_nonce claims = nonce ∧
    mapActor config claims = Ok actor ∧
    res = mkSessionResult sid csrf actor (db_service_now (after hash calls) + sessionLifetimeMs config)%Z (safeReturn config returnTo) ∧
    db_sessions d' = (db_sessions (after hash calls) ++ [(mkSessionRecord (sha256 sid) (sha256 csrf) actor
      (db_service_now (after hash calls)) (db_service_now (after hash calls) + sessionLifetimeMs config)
      (db_service_now (after hash calls)), None)])%list.
Proof.
  intros Hc Hr. destruct (completeLogin_Ok _ _ _ _ _ _ _ _ _ Hr) as (l0 & claims' & actor' & _ & _ & _ & _ & _ & _ & _ & Hres & Hrow).
  apply (f_equal session_of) in Hres. cbn in Hres. subst actor'. set (c := CompleteLogin sid csrf state code binding) in *. set (T := flat_map tokens (calls ++ [c])) in *.
  assert (∀ calls', (∀ t, t ∈ flat_map tokens calls' → t ∈ T) → after hash calls' = hashed_db hash (after same calls') ∧ known T (after same calls')) as Hsim.
  { intros calls'. induction calls' as [|c' calls' IH] using rev_ind; intros Ht; [split; [done|apply known_no_rows]|].
    destruct IH as [E K]. { intros t Hin. apply Ht. rewrite flat_map_app. set_solver. }
    rewrite !answer_calls_app, E. cbn [answer_calls].
    pose proof (answer_call_simulates hash T (λ x y, collision_free_inj _ x y Hc) config authorizationEndpoint exchangeCode c' (after same calls')) as Hs.
    destruct (answer_call same _ _ _ c' (after same calls')) as [a d]. destruct Hs as [-> Hk]; [|done|done].
    intros t Hin. apply Ht. rewrite flat_map_app. cbn. set_solver. }
  assert (∀ t, t ∈ flat_map tokens calls → t ∈ T) as Hcalls by (intros t Hin; unfold T; rewrite flat_map_app; set_solver).
  destruct (Hsim calls Hcalls) as [E K]. rewrite E in Hr, Hrow |- *. cbn [hashed_db db_service_now].
  pose proof (answer_call_simulates hash T (λ x y, collision_free_inj _ x y Hc) config authorizationEndpoint exchangeCode c (after same calls)) as Hs.
  unfold c in Hs. cbn [answer_call tokens] in Hs. rewrite Hr in Hs.
  destruct (completeLogin same _ _ _ _ _ _ _ _) as [r d2] eqn:Es. destruct Hs as [[= <- _] _]; [|done|].
  { intros t Hin. unfold T. rewrite flat_map_app. cbn. set_solver. }
  apply completeLogin_Ok in Es as (l & claims & actor & Hl & Hst & Hb & He & Hx & Hn & Ha & -> & _).
  cbn [session_of] in Hrow.
  destruct (pending_begun calls l Hl) as (pre & post & returnTo & Hcs & Hpost & Hred & Hret & Hexp). rewrite Hst in Hcs, Hpost. rewrite Hb in Hcs.
  exists pre, post, (login_nonce l), (login_codeVerifier l), returnTo, claims, actor. rewrite Hred in Hx. rewrite Hret. split_and!; try done.
  destruct (Hsim pre) as [E' _]. { intros t Hin. apply Hcalls. rewrite Hcs, flat_map_app. set_solver. }
  rewrite E'. cbn [hashed_db db_service_now]. lia.
Qed.

(** A return address stays on the site: it is a path of it, no other host, and an
    allowed one or the root. *)
Lemma safeReturn_local value :
  let r := safeReturn config value in
  startsWith r "/" = true ∧ startsWith r "//" = false ∧
  (r = "/" ∨ r = value ∧ ∃ prefix, prefix ∈ default ["/"] (oidc_allowedReturnPaths config) ∧
     (value = prefix ∨ startsWith value (prefix +:+ "/") = true)).
Proof.
  cbn zeta. unfold safeReturn. destruct (negb (startsWith value "/")) eqn:E1; [by split_and!; [| |left]|].
  destruct (startsWith value "//") eqn:E2; [by split_and!; [| |left]|]. cbn [orb].
  destruct (existsb _ _) eqn:E3; cbn [negb]; [|by split_and!; [| |left]]. apply negb_false_iff in E1. split_and!; [done|done|right; split; [done|]].
  apply existsb_exists in E3 as (prefix & Hin%list_elem_of_In & Hp). exists prefix. split; [done|].
  apply orb_true_iff in Hp as [Hp%bool_decide_eq_true|Hp]; auto.
Qed.
End Logins.

Definition collision_free_check `{Crypto} (calls : list identity_call) : bool :=
  let ts := flat_map tokens calls in forallb (λ x, forallb (λ y, (x === y) || (sha256 x !== sha256 y)) ts) ts.
Lemma collision_free_checked `{Crypto} calls : collision_free_check calls = true → collision_free calls.
Proof.
  intros Hc x y Hx Hy [Hne Heq]. unfold collision_free_check in Hc. rewrite forallb_forall in Hc.
  specialize (Hc x (proj1 (list_elem_of_In _ _) Hx)). rewrite forallb_forall in Hc. specialize (Hc y (proj1 (list_elem_of_In _ _) Hy)).
  rewrite Heq, (bool_decide_eq_false_2 (x = y)), strict_eq_refl in Hc by done. done.
Qed.

Module IdentityWitness.
Definition service : OidcServiceConfig := mkOidcConfig "client" "https://trust.example/cb" None None (Some ["/app"]) None.
Definition endpoint : result identity_exn string := Ok "https://id.example/authorize".
Definition provider (x : Exchange) : result identity_exn IdentityClaims :=
  if exchange_code x === "code" then Ok (mkClaims "u1" "https://id.example" "Ada" None ["editor"; "visitor"] ["ws-1"] (exchange_expectedNonce x))
  else Err (ProviderError "OIDC token exchange failed (400).").
Definition before : list identity_call := [BeginLogin "state" "binding" "nonce" "verifier" "/app/home"; SetClocks 1000 1000].
Definition ada : AuthenticatedActor := mkActor "https://id.example#u1" "Ada" None ["editor"] ["ws-1"].
Definition ada_session : OidcSessionResult := mkSessionResult "sid" "csrf" ada 1801000 "/app/home".
Definition completed_db : result identity_exn OidcSessionResult * IdentityDb :=
  completeLogin hash service provider "sid" "csrf" "state" "code" "binding"
    (answer_calls hash service endpoint provider before (no_rows 0 0)).2.

Lemma login_completes_once_witness :
  ∃ pre post nonce verifier returnTo claims actor,
    before = (pre ++ BeginLogin "state" "binding" nonce verifier returnTo :: post)%list ∧
    (∀ sid' csrf' code' binding', CompleteLogin sid' csrf' "state" code' binding' ∉ post) ∧
    (db_service_now (answer_calls hash service endpoint provider before (no_rows 0 0)).2 <
     db_service_now (answer_calls hash service endpoint provider pre (no_rows 0 0)).2 + loginLifetimeMs service)%Z ∧
    provider (mkExchange "code" verifier (oidc_redirectUri service) nonce) = Ok claims ∧ claims_nonce claims = nonce ∧
    mapActor service claims = Ok actor ∧
    ada_session = mkSessionResult "sid" "csrf" actor
      (db_service_now (answer_calls hash service endpoint provider before (no_rows 0 0)).2 + sessionLifetimeMs service)%Z
      (safeReturn service returnTo) ∧
    db_sessions completed_db.2 = (db_sessions (answer_calls hash service endpoint provider before (no_rows 0 0)).2 ++
      [(mkSessionRecord (sha256 "sid") (sha256 "csrf") actor
         (db_service_now (answer_calls hash service endpoint provider before (no_rows 0 0)).2)
         (db_service_now (answer_calls hash service endpoint provider before (no_rows 0 0)).2 + sessionLifetimeMs service)
         (db_service_now (answer_calls hash service endpoint provider before (no_rows 0 0)).2), None)])%list.
Proof.
  apply (login_completes_once service endpoint provider 0 0 before "sid" "csrf" "state" "code" "binding" ada_session completed_db.2).
  - apply collision_free_checked. vm_compute; reflexivity.
  - vm_compute; reflexivity.
Defined.

Definition whole_story : list identity_call :=
  (before ++ [CompleteLogin "sid" "csrf" "state" "code" "binding"; CompleteLogin "sid2" "csrf2" "state" "code" "binding";
    AuthenticateSession "sid" (Some "csrf") true; AuthenticateSession "sid" (Some "guess") true; RevokeSession "sid";
    AuthenticateSession "sid" (Some "csrf") true])%list.
Lemma identity_store_refines_witness :
  (answer_calls hash service endpoint provider whole_story (no_rows 0 0)).1 =
  (answer_calls (λ x, x) service endpoint provider whole_story (no_rows 0 0)).1.
Proof.
  apply (identity_store_refines service endpoint provider 0 0 whole_story). apply collision_free_checked. vm_compute; reflexivity.
Defined.
Example whole_story_answers :
  drop 2 (answer_calls hash service endpoint provider whole_story (no_rows 0 0)).1 =
    [CompletedLogin (Ok ada_session); CompletedLogin (Err (IdentityError "OIDC_STATE_INVALID" "Login state is invalid or already used."));
     Authenticated (Ok (Some ada)); Authenticated (Ok None); RevokedSession (Ok tt); Authenticated (Ok None)].
Proof. vm_compute; reflexivity. Qed.

(** A role claim named after a member of [Object.prototype] passes for a role,
    and the login of someone without any role is not denied. *)
Example prototype_role_is_admitted :
  mapActor service (mkClaims "u2" "https://id.example" "Eve" None ["visitor"] ["ws-1"] "n") =
    Err (IdentityError "OIDC_CLAIMS_DENIED" "Identity has no permitted Trust Core role or workspace.") ∧
  mapActor service (mkClaims "u2" "https://id.example" "Eve" None ["constructor"] ["ws-1"] "n") =
    Ok (mkActor "https://id.example#u2" "Eve" None [] ["ws-1"]).
Proof. split; vm_compute; reflexivity. Qed.
End IdentityWitness.
