(* ===== verification/Gates.v ===== *)
(** * Release gates

    The checks of evidence that a release is held against:
    [packages/recovery/src/index.ts] (recovery exercises),
    [packages/identity/src/acceptance.ts] (acceptance of the identity provider)
    and [packages/observability/src/index.ts] (operational alerts and the proof of
    their delivery).

    The theorems: the two gates pass exactly the evidence that has each required
    item once, every one passed and well formed, and for the outage exercise the
    two facts it is to prove; an alert that validates names no forbidden key and
    has the severity of its kind; delivery is proven when nothing is missing. *)
From S2P Require Import Prelude Js Json Concrete Regex.

(** ** Evidence *)

Definition COMMIT : re := Times 40 (Chr is_hex_lower).
(** [/^(https:\/\/|artifact:)[^\s]+$/] *)
Definition EVIDENCE_URI : re := Cat (Alt (Text "https://") (Text "artifact:")) (Plus (Chr (λ c, negb (is_space c)))).
Definition isEvidenceUri (value : string) : bool := matches EVIDENCE_URI value.

Lemma empty_list {A} (l : list A) : match l with [] => true | _ => false end = true ↔ l = [].
Proof. by destruct l. Qed.
(** A list of kinds without duplicates that has them all is the list of all. *)
Lemma complete_kinds {A} `{EqDecision A} (all l : list A) :
  NoDup all → (∀ x, x ∈ all) → l ≡ₚ all ↔ NoDup l ∧ ∀ x, x ∈ all → x ∈ l.
Proof.
  intros Hnd Hall. split.
  - intros Hp. split; [by rewrite Hp|]. intros x Hx. by rewrite Hp.
  - intros [Hl Hx]. apply NoDup_Permutation; [done|done|]. intros x. split; [by intros _; apply Hall|apply Hx].
Qed.
Lemma find_is_Some {A K} `{EqDecision K} (f : A → K) (l : list A) k : is_Some (List.find (λ x, f x === k) l) ↔ k ∈ map f l.
Proof.
  rewrite list_elem_of_fmap. split.
  - intros [x [Hin Hx%bool_decide_eq_true]%find_Some_elem]. eauto.
  - intros (x & -> & Hin). destruct (List.find _ l) eqn:E; [eauto|]. pose proof (find_None_elem _ _ _ E Hin) as En. cbn in En. by rewrite strict_eq_refl in En.
Qed.

Section Evidence.
Context `{JsDate}.
Definition is_date (value : string) : bool := bool_decide (is_Some (Date_parse value)).
End Evidence.

(** ** Recovery exercises *)
Module Recovery.
(** Source: packages/recovery/src/index.ts:1-10 RecoveryExerciseKind *)
Inductive RecoveryExerciseKind :=
  | postgres_pitr | missing_blob_restore | combined_store_restore | key_recovery | primary_account_unavailable | full_trust_verification.
#[export] Instance RecoveryExerciseKind_eq_dec : EqDecision RecoveryExerciseKind.
Proof. solve_decision. Defined.
Definition recoveryExerciseKinds : list RecoveryExerciseKind :=
  [postgres_pitr; missing_blob_restore; combined_store_restore; key_recovery; primary_account_unavailable; full_trust_verification].
(** Source: packages/recovery/src/index.ts:11-11 RecoveryExerciseStatus *)
Inductive RecoveryExerciseStatus := passed | failed | not_run.
#[export] Instance RecoveryExerciseStatus_eq_dec : EqDecision RecoveryExerciseStatus.
Proof. solve_decision. Defined.

(** Source: packages/recovery/src/index.ts:13-23 RecoveryExerciseEvidence *)
Record RecoveryExerciseEvidence := mkExercise {
  exercise_kind : RecoveryExerciseKind;
  exercise_status : RecoveryExerciseStatus;
  exercise_startedAt : string;
  exercise_finishedAt : string;
  exercise_environmentId : string;
  exercise_evidenceUri : string;
  exercise_notes : option string;
  exercise_primaryAccountUnavailable : option bool;
  exercise_independentlyAdministeredTarget : option bool;
}.
(** Source: packages/recovery/src/index.ts:25-30 RecoveryGateEvidence *)
Record RecoveryGateEvidence := mkRecoveryEvidence {
  evidence_sourceCommit : string;
  evidence_generatedAt : string;
  evidence_deploymentProfile : string;
  evidence_exercises : list RecoveryExerciseEvidence;
}.
(** Source: packages/recovery/src/index.ts:32-36 RecoveryGateIssue *)
Record RecoveryGateIssue := mkRecoveryIssue {
  issue_code : string;
  issue_exercise : option RecoveryExerciseKind;
  issue_message : string;
}.
(** Source: packages/recovery/src/index.ts:38-43 RecoveryGateReport *)
Record RecoveryGateReport := mkRecoveryReport {
  report_pass : bool;
  report_sourceCommit : string;
  report_checkedExercises : nat;
  report_issues : list RecoveryGateIssue;
}.

Section Gate.
Context `{JsDate}.

(** Source: packages/recovery/src/index.ts:166-168 isIsoTimestamp *)
Definition isIsoTimestamp (value : string) : bool := is_date value && includes value "T".

Definition issue_if (b : bool) (code : string) (kind : option RecoveryExerciseKind) (message : string) : list RecoveryGateIssue :=
  if b then [mkRecoveryIssue code kind message] else [].
(** Source: packages/recovery/src/index.ts:117-164 validateExercise *)
Definition validateExercise (exercise : RecoveryExerciseEvidence) : list RecoveryGateIssue :=
  let kind := Some (exercise_kind exercise) in
  (match exercise_status exercise with
   | passed => []
   | failed => [mkRecoveryIssue "RECOVERY_EXERCISE_FAILED" kind "A required recovery exercise failed."]
   | not_run => [mkRecoveryIssue "RECOVERY_EXERCISE_NOT_RUN" kind "A required recovery exercise was not run."]
   end ++
   issue_if (negb (isIsoTimestamp (exercise_startedAt exercise)) || negb (isIsoTimestamp (exercise_finishedAt exercise)) ||
             date_lt (Date_parse (exercise_finishedAt exercise)) (Date_parse (exercise_startedAt exercise)))
     "RECOVERY_EXERCISE_TIME_INVALID" kind "Recovery exercise timestamps are invalid or out of order." ++
   issue_if (blank (exercise_environmentId exercise)) "RECOVERY_ENVIRONMENT_REQUIRED" kind
     "Recovery exercise evidence must identify its environment." ++
   issue_if (negb (isEvidenceUri (exercise_evidenceUri exercise))) "RECOVERY_EVIDENCE_URI_INVALID" kind
     "Recovery exercise evidence must use an HTTPS or artifact URI.")%list.

(** The loop over the exercises: the first of each kind, and the issues. *)
Fixpoint by_kind (exercises : list RecoveryExerciseEvidence) (seen : list (RecoveryExerciseKind * RecoveryExerciseEvidence))
    (issues : list RecoveryGateIssue) : list (RecoveryExerciseKind * RecoveryExerciseEvidence) * list RecoveryGateIssue :=
  match exercises with
  | [] => (seen, issues)
  | e :: exercises =>
      match map_get (exercise_kind e) seen with
      | Some _ => by_kind exercises seen (issues ++ [mkRecoveryIssue "RECOVERY_EXERCISE_DUPLICATE" (Some (exercise_kind e))
                    "Recovery evidence contains a duplicate exercise."])%list
      | None => by_kind exercises (map_set (exercise_kind e) e seen) (issues ++ validateExercise e)%list
      end
  end.

(** Source: packages/recovery/src/index.ts:45-115 evaluateRecoveryGate *)
Definition evaluateRecoveryGate (evidence : RecoveryGateEvidence) : RecoveryGateReport :=
  let header :=
    (issue_if (negb (matches COMMIT (evidence_sourceCommit evidence))) "RECOVERY_SOURCE_COMMIT_INVALID" None
       "Recovery evidence must identify an exact Git commit." ++
     issue_if (negb (isIsoTimestamp (evidence_generatedAt evidence))) "RECOVERY_GENERATED_AT_INVALID" None
       "Recovery evidence requires a valid generated timestamp." ++
     issue_if (blank (evidence_deploymentProfile evidence)) "RECOVERY_DEPLOYMENT_PROFILE_REQUIRED" None
       "Recovery evidence must identify its deployment profile.")%list in
  let '(byKind, issues) := by_kind (evidence_exercises evidence) [] header in
  let missing := flat_map (λ kind, match map_get kind byKind with
    | Some _ => []
    | None => [mkRecoveryIssue "RECOVERY_EXERCISE_MISSING" (Some kind) "A required recovery exercise has no evidence."]
    end) recoveryExerciseKinds in
  let boundary := match map_get primary_account_unavailable byKind with
    | Some outage =>
        issue_if ((exercise_status outage === passed) &&
                  ((exercise_primaryAccountUnavailable outage !== Some true) ||
                   (exercise_independentlyAdministeredTarget outage !== Some true)))
          "RECOVERY_OUTAGE_BOUNDARY_UNPROVEN" (Some primary_account_unavailable)
          "The outage drill must prove the primary account was unavailable and the target was independently administered."
    | None => []
    end in
  let all := (issues ++ missing ++ boundary)%list in
  mkRecoveryReport (match all with [] => true | _ => false end) (evidence_sourceCommit evidence) (length byKind) all.

(** *** What passes *)

(** An exercise that proves what it is for. *)
Record exercise_sound (e : RecoveryExerciseEvidence) : Prop := mkSound {
  sound_passed : exercise_status e = passed;
  sound_times : ∃ start finish, Date_parse (exercise_startedAt e) = Some start ∧ Date_parse (exercise_finishedAt e) = Some finish ∧
    (start <= finish)%Z ∧ includes (exercise_startedAt e) "T" = true ∧ includes (exercise_finishedAt e) "T" = true;
  sound_environment : blank (exercise_environmentId e) = false;
  sound_evidence : isEvidenceUri (exercise_evidenceUri e) = true;
  sound_outage : exercise_kind e = primary_account_unavailable →
    exercise_primaryAccountUnavailable e = Some true ∧ exercise_independentlyAdministeredTarget e = Some true;
}.

Lemma issue_if_nil b code kind message : issue_if b code kind message = [] ↔ b = false.
Proof. by destruct b. Qed.
Lemma validateExercise_nil e :
  validateExercise e = [] ↔ exercise_status e = passed ∧
    (∃ start finish, Date_parse (exercise_startedAt e) = Some start ∧ Date_parse (exercise_finishedAt e) = Some finish ∧
       (start <= finish)%Z ∧ includes (exercise_startedAt e) "T" = true ∧ includes (exercise_finishedAt e) "T" = true) ∧
    blank (exercise_environmentId e) = false ∧ isEvidenceUri (exercise_evidenceUri e) = true.
Proof.
  unfold validateExercise. rewrite !app_nil, !issue_if_nil, negb_false_iff, !orb_false_iff, !negb_false_iff.
  unfold isIsoTimestamp, is_date. rewrite !andb_true_iff, !bool_decide_eq_true.
  assert (match exercise_status e with
    | passed => [] | failed => [mkRecoveryIssue "RECOVERY_EXERCISE_FAILED" (Some (exercise_kind e)) "A required recovery exercise failed."]
    | not_run => [mkRecoveryIssue "RECOVERY_EXERCISE_NOT_RUN" (Some (exercise_kind e)) "A required recovery exercise was not run."]
    end = [] ↔ exercise_status e = passed) as -> by (by destruct (exercise_status e)).
  split.
  - intros (Hs & [[[[t Ht] H1] [[u Hu] H2]] Hlt] & Hb & He). split_and!; [done| |done|done]. exists t, u.
    rewrite Ht, Hu in Hlt. cbn in Hlt. apply Z.ltb_ge in Hlt. done.
  - intros (Hs & (t & u & Ht & Hu & Hle & H1 & H2) & Hb & He). rewrite Ht, Hu. cbn. split_and!; try done; try (by eexists). by apply Z.ltb_ge.
Qed.

Lemma by_kind_spec exercises seen issues :
  let '(seen', issues') := by_kind exercises seen issues in
  (issues' = [] ↔ issues = [] ∧ NoDup (map exercise_kind exercises) ∧
     Forall (λ e, map_get (exercise_kind e) seen = None ∧ validateExercise e = []) exercises) ∧
  ∀ k, map_get k seen' = match map_get k seen with
                         | Some e => Some e
                         | None => List.find (λ e, exercise_kind e === k) exercises
                         end.
Proof.
  revert seen issues. induction exercises as [|e exercises IH]; intros seen issues; cbn [by_kind].
  { split; [|intros k; by destruct (map_get k seen)]. split; [intros ->; split_and!; [done|constructor|constructor]|by intros (? & _)]. }
  destruct (map_get (exercise_kind e) seen) as [e0|] eqn:Eg.
  - specialize (IH seen (issues ++ [mkRecoveryIssue "RECOVERY_EXERCISE_DUPLICATE" (Some (exercise_kind e))
      "Recovery evidence contains a duplicate exercise."])%list). destruct (by_kind _ _ _) as [seen' issues']. destruct IH as [IH1 IH2]. split.
    + rewrite IH1, app_nil, Forall_cons. rewrite Eg. split; [by intros [[_ ?] _]|]. by intros (_ & _ & [? _] & _).
    + intros k. rewrite IH2. cbn. destruct (map_get k seen) eqn:Ek; [done|]. case_bool_decide as E; [|done]. subst. congruence.
  - specialize (IH (map_set (exercise_kind e) e seen) (issues ++ validateExercise e)%list). destruct (by_kind _ _ _) as [seen' issues'].
    destruct IH as [IH1 IH2]. split.
    + rewrite IH1, app_nil. cbn [map]. rewrite Forall_cons, NoDup_cons, Eg, !Forall_forall, list_elem_of_fmap.
      split.
      * intros ([-> Hv] & Hnd & Hall). split_and!; [done| |done|done|done|].
        -- intros (e' & He & Hin). destruct (Hall e' Hin) as [Hn _]. by rewrite <- He, map_get_set_eq in Hn.
        -- intros e' Hin. destruct (Hall e' Hin) as [Hn ?]. split; [|done].
           destruct (decide (exercise_kind e' = exercise_kind e)) as [E|E]; [by rewrite E, map_get_set_eq in Hn|by rewrite map_get_set_ne in Hn].
      * intros (-> & [Hn Hnd] & [_ Hv] & Hall). split_and!; [done|done|done|]. intros e' Hin. destruct (Hall e' Hin) as [Hs ?]. split; [|done].
        rewrite map_get_set_ne; [done|]. intros E. apply Hn. by exists e'.
    + intros k. rewrite IH2. cbn. destruct (decide (k = exercise_kind e)) as [->|Hk].
      * by rewrite map_get_set_eq, Eg, strict_eq_refl.
      * rewrite map_get_set_ne, (bool_decide_eq_false_2 (exercise_kind e = k)) by congruence. done.
Qed.

(** The recovery gate passes exactly the evidence that identifies its
    commit, time and deployment profile and has each of the six exercises once,
    every one of them passed, with timestamps in order, an environment and an
    evidence address, the outage exercise also proving that the primary account
    was unavailable and its target independently administered. *)
Theorem recovery_gate_exact evidence :
  report_pass (evaluateRecoveryGate evidence) = true ↔
    matches COMMIT (evidence_sourceCommit evidence) = true ∧ isIsoTimestamp (evidence_generatedAt evidence) = true ∧
    blank (evidence_deploymentProfile evidence) = false ∧
    map exercise_kind (evidence_exercises evidence) ≡ₚ recoveryExerciseKinds ∧
    Forall exercise_sound (evidence_exercises evidence).
Proof.
  unfold evaluateRecoveryGate. set (header := (_ ++ _ ++ _)%list).
  assert (header = [] ↔ matches COMMIT (evidence_sourceCommit evidence) = true ∧ isIsoTimestamp (evidence_generatedAt evidence) = true ∧
    blank (evidence_deploymentProfile evidence) = false) as Hh.
  { unfold header. rewrite !app_nil, !issue_if_nil, !negb_false_iff. done. }
  pose proof (by_kind_spec (evidence_exercises evidence) [] header) as Hs. destruct (by_kind _ _ _) as [seen issues]. destruct Hs as [Hi Hget].
  cbn [report_pass]. set (es := evidence_exercises evidence) in *. clearbody header.
  rewrite empty_list, !app_nil, Hi, Hh, flat_map_nil, Hget. clear Hi Hh. cbn [map_get].
  assert ((∀ x, x ∈ recoveryExerciseKinds → match map_get x seen with
      | Some _ => [] | None => [mkRecoveryIssue "RECOVERY_EXERCISE_MISSING" (Some x) "A required recovery exercise has no evidence."] end = []) ↔
    ∀ x, x ∈ recoveryExerciseKinds → x ∈ map exercise_kind es) as ->.
  { apply forall_proper. intros k. rewrite Hget. cbn [map_get]. rewrite <- (find_is_Some exercise_kind). destruct (List.find _ es); naive_solver. }
  rewrite (complete_kinds recoveryExerciseKinds); [|apply (bool_decide_eq_true_1 (NoDup recoveryExerciseKinds)); vm_compute; reflexivity|
    intros k; apply (bool_decide_eq_true_1 (k ∈ recoveryExerciseKinds)); destruct k; vm_compute; reflexivity].
  assert (∀ e, exercise_sound e ↔ validateExercise e = [] ∧ (exercise_kind e = primary_account_unavailable →
    exercise_primaryAccountUnavailable e = Some true ∧ exercise_independentlyAdministeredTarget e = Some true)) as Hsound.
  { intros e. rewrite validateExercise_nil. split; [intros []; naive_solver|]. intros ((?&?&?&?) & ?). by split. }
  rewrite !Forall_forall. setoid_rewrite Hsound. clear Hsound Hget. cbn [map_get].
  destruct (List.find (λ e, exercise_kind e === primary_account_unavailable) es) as [outage|] eqn:Eo.
  - rewrite issue_if_nil. apply find_Some_elem in Eo as [Hin Hk%bool_decide_eq_true].
    split.
    + intros (((? & ? & ?) & Hnd & Hall) & Hm & Hb). split_and!; [done..|]. intros e He. split; [by apply Hall|]. intros Hk'.
      assert (e = outage) as ->. { apply list_elem_of_lookup_1 in Hin as [i Hin], He as [j He]. enough (i = j) by congruence.
        eapply NoDup_lookup; [exact Hnd| |]; change (map exercise_kind es) with (exercise_kind <$> es); rewrite list_lookup_fmap; [by rewrite Hin|rewrite He; cbn; congruence]. }
      destruct (Hall outage Hin) as [_ [Hp _]%validateExercise_nil]. rewrite Hp, strict_eq_refl in Hb. cbn in Hb.
      apply orb_false_iff in Hb as [Hb1%negb_false_iff%bool_decide_eq_true Hb2%negb_false_iff%bool_decide_eq_true]. done.
    + intros (? & ? & ? & [Hnd Hm] & Hall). split_and!; [done..| |done|].
      * intros e He. split; [done|]. by apply Hall.
      * destruct (Hall outage Hin) as [_ Ho]. destruct (Ho Hk) as [-> ->]. rewrite !strict_eq_refl. by rewrite andb_false_r.
  - split.
    + intros (((? & ? & ?) & Hnd & Hall) & Hm & Hb). split_and!; [done..|]. intros e He. split; [by apply Hall|]. intros Hk'.
      pose proof (find_None_elem _ _ _ Eo He) as En. cbn in En. by rewrite Hk', strict_eq_refl in En.
    + intros (? & ? & ? & [Hnd Hm] & Hall). split_and!; [done..| |done|done]. intros e He. split; [done|]. by apply Hall.
Qed.
End Gate.
End Recovery.

(** ** Acceptance of the identity provider *)
Module Acceptance.
(** Source: packages/identity/src/acceptance.ts:1-10 OidcAcceptanceCheck *)
Inductive OidcAcceptanceCheck :=
  | authorization_code_pkce | deny_by_default_claim_mapping | mfa_or_passkey_assurance | user_disablement | session_revocation
  | fresh_same_principal_reauthentication.
#[export] Instance OidcAcceptanceCheck_eq_dec : EqDecision OidcAcceptanceCheck.
Proof. solve_decision. Defined.
Definition oidcAcceptanceChecks : list OidcAcceptanceCheck :=
  [authorization_code_pkce; deny_by_default_claim_mapping; mfa_or_passkey_assurance; user_disablement; session_revocation;
   fresh_same_principal_reauthentication].
Definition check_name (c : OidcAcceptanceCheck) : string :=
  match c with
  | authorization_code_pkce => "authorization_code_pkce"
  | deny_by_default_claim_mapping => "deny_by_default_claim_mapping"
  | mfa_or_passkey_assurance => "mfa_or_passkey_assurance"
  | user_disablement => "user_disablement"
  | session_revocation => "session_revocation"
  | fresh_same_principal_reauthentication => "fresh_same_principal_reauthentication"
  end.

(** Source: packages/identity/src/acceptance.ts:12-17 OidcAcceptanceResult *)
Record OidcAcceptanceResult := mkAcceptanceResult {
  acceptance_check : OidcAcceptanceCheck;
  acceptance_passed : bool;
  acceptance_occurredAt : string;
  acceptance_evidenceUri : string;
}.
(** Source: packages/identity/src/acceptance.ts:19-24 OidcAcceptanceEvidence *)
Record OidcAcceptanceEvidence := mkAcceptanceEvidence {
  acceptance_sourceCommit : string;
  acceptance_issuer : string;
  acceptance_tenantReference : string;
  acceptance_results : list OidcAcceptanceResult;
}.
(** Source: packages/identity/src/acceptance.ts:26-29 OidcAcceptanceReport *)
Record OidcAcceptanceReport := mkAcceptanceReport { accepted : bool; acceptance_issues : list string }.

Section Gate.
Context `{JsDate}.
(** [new URL(value).protocol], [None] where it throws. *)
Context (url_protocol : string → option string).

(** Source: packages/identity/src/acceptance.ts:69-75 isHttpsUrl *)
Definition isHttpsUrl (value : string) : bool := url_protocol value === Some "https:".

Definition when (b : bool) (message : string) : list string := if b then [message] else [].
(** What the loop says of one result that is the first of its check. *)
Definition result_issues (r : OidcAcceptanceResult) : list string :=
  (when (negb (acceptance_passed r)) ("OIDC acceptance check failed: " +:+ check_name (acceptance_check r) +:+ ".") ++
   when (negb (is_date (acceptance_occurredAt r))) ("OIDC acceptance timestamp is invalid: " +:+ check_name (acceptance_check r) +:+ ".") ++
   when (negb (isEvidenceUri (acceptance_evidenceUri r)))
     ("OIDC acceptance evidence URI is invalid: " +:+ check_name (acceptance_check r) +:+ "."))%list.
Fixpoint by_check (results : list OidcAcceptanceResult) (seen : list OidcAcceptanceCheck) (issues : list string) :
    list OidcAcceptanceCheck * list string :=
  match results with
  | [] => (seen, issues)
  | r :: results =>
      if array_includes seen (acceptance_check r)
      then by_check results seen (issues ++ ["OIDC acceptance check is duplicated: " +:+ check_name (acceptance_check r) +:+ "."])%list
      else by_check results (acceptance_check r :: seen) (issues ++ result_issues r)%list
  end.

(** Source: packages/identity/src/acceptance.ts:31-67 evaluateOidcAcceptance *)
Definition evaluateOidcAcceptance (evidence : OidcAcceptanceEvidence) : OidcAcceptanceReport :=
  let header :=
    (when (negb (matches COMMIT (acceptance_sourceCommit evidence))) "OIDC evidence must identify an exact Git commit." ++
     when (negb (isHttpsUrl (acceptance_issuer evidence))) "OIDC issuer must use HTTPS." ++
     when (blank (acceptance_tenantReference evidence)) "OIDC evidence must identify the tested tenant.")%list in
  let '(byCheck, issues) := by_check (acceptance_results evidence) [] header in
  let all := (issues ++ flat_map (λ check, if array_includes byCheck check then []
                else ["OIDC acceptance check is missing: " +:+ check_name check +:+ "."]) oidcAcceptanceChecks)%list in
  mkAcceptanceReport (match all with [] => true | _ => false end) all.

Lemma when_nil b m : when b m = [] ↔ b = false.
Proof. by destruct b. Qed.
Lemma by_check_spec results seen issues :
  let '(seen', issues') := by_check results seen issues in
  (issues' = [] ↔ issues = [] ∧ NoDup (map acceptance_check results) ∧
     Forall (λ r, (acceptance_check r ∉ seen) ∧ result_issues r = []) results) ∧
  ∀ c, c ∈ seen' ↔ c ∈ seen ∨ c ∈ map acceptance_check results.
Proof.
  revert seen issues. induction results as [|r results IH]; intros seen issues; cbn [by_check map].
  { split; [|set_solver]. split; [intros ->; split_and!; [done|constructor|constructor]|by intros (? & _)]. }
  destruct (array_includes seen (acceptance_check r)) eqn:Es; [apply bool_decide_eq_true in Es|apply bool_decide_eq_false in Es].
  - specialize (IH seen (issues ++ ["OIDC acceptance check is duplicated: " +:+ check_name (acceptance_check r) +:+ "."])%list).
    destruct (by_check _ _ _) as [seen' issues']. destruct IH as [IH1 IH2]. split; [|set_solver].
    rewrite IH1, app_nil, Forall_cons. split; [by intros [[_ ?] _]|]. by intros (_ & _ & [? _] & _).
  - specialize (IH (acceptance_check r :: seen) (issues ++ result_issues r)%list). destruct (by_check _ _ _) as [seen' issues'].
    destruct IH as [IH1 IH2]. split; [|set_solver]. rewrite IH1, app_nil, Forall_cons, NoDup_cons, !Forall_forall, list_elem_of_fmap. split.
    + intros ([-> Hv] & Hnd & Hall). split_and!; [done| |done|done|done|].
      * intros (r' & Hr & Hin). destruct (Hall r' Hin) as [Hn _]. apply Hn. rewrite Hr. by left.
      * intros r' Hin. destruct (Hall r' Hin) as [Hn ?]. split; [|done]. intros ?. apply Hn. by right.
    + intros (-> & [Hn Hnd] & [_ Hv] & Hall). split_and!; [done|done|done|]. intros r' Hin. destruct (Hall r' Hin) as [Hs ?]. split; [|done].
      intros [E|?]%elem_of_cons; [|done]. apply Hn. by exists r'.
Qed.

(** The identity provider is accepted exactly on evidence that names a
    commit, an HTTPS issuer and a tenant, and has each of the six checks once, every
    one passed, dated and with an evidence address. *)
Theorem oidc_acceptance_exact evidence :
  accepted (evaluateOidcAcceptance evidence) = true ↔
    matches COMMIT (acceptance_sourceCommit evidence) = true ∧ isHttpsUrl (acceptance_issuer evidence) = true ∧
    blank (acceptance_tenantReference evidence) = false ∧
    map acceptance_check (acceptance_results evidence) ≡ₚ oidcAcceptanceChecks ∧
    Forall (λ r, acceptance_passed r = true ∧ is_date (acceptance_occurredAt r) = true ∧ isEvidenceUri (acceptance_evidenceUri r) = true)
      (acceptance_results evidence).
Proof.
  unfold evaluateOidcAcceptance. set (header := (_ ++ _ ++ _)%list).
  assert (header = [] ↔ matches COMMIT (acceptance_sourceCommit evidence) = true ∧ isHttpsUrl (acceptance_issuer evidence) = true ∧
    blank (acceptance_tenantReference evidence) = false) as Hh.
  { unfold header. rewrite !app_nil, !when_nil, !negb_false_iff. done. }
  pose proof (by_check_spec (acceptance_results evidence) [] header) as Hs. destruct (by_check _ _ _) as [seen issues]. destruct Hs as [Hi Hseen].
  cbn [accepted]. set (rs := acceptance_results evidence) in *. clearbody header.
  rewrite empty_list, app_nil, Hi, Hh, flat_map_nil. clear Hi Hh.
  assert ((∀ x, x ∈ oidcAcceptanceChecks → (if array_includes seen x then []
      else ["OIDC acceptance check is missing: " +:+ check_name x +:+ "."]) = []) ↔
    ∀ x, x ∈ oidcAcceptanceChecks → x ∈ map acceptance_check rs) as ->.
  { apply forall_proper. intros c. specialize (Hseen c). unfold array_includes. case_bool_decide; set_solver. }
  rewrite (complete_kinds oidcAcceptanceChecks); [|apply (bool_decide_eq_true_1 (NoDup oidcAcceptanceChecks)); vm_compute; reflexivity|
    intros k; apply (bool_decide_eq_true_1 (k ∈ oidcAcceptanceChecks)); destruct k; vm_compute; reflexivity].
  assert (Forall (λ r, (acceptance_check r ∉ []) ∧ result_issues r = []) rs ↔
    Forall (λ r, acceptance_passed r = true ∧ is_date (acceptance_occurredAt r) = true ∧ isEvidenceUri (acceptance_evidenceUri r) = true) rs) as ->.
  { rewrite !Forall_forall. apply forall_proper. intros r. unfold result_issues. rewrite !app_nil, !when_nil, !negb_false_iff.
    pose proof (not_elem_of_nil (acceptance_check r)). naive_solver. }
  naive_solver.
Qed.
End Gate.
End Acceptance.

(** ** Operational alerts *)
Module Observability.
(** Source: packages/observability/src/index.ts:1-13 OperationalAlertKind *)
Inductive OperationalAlertKind :=
  | integrity_failure | missing_blob | audit_chain_failure | backup_stale | privileged_access_denied | cross_workspace_access
  | anomalous_export | purge_activity | key_failure.
#[export] Instance OperationalAlertKind_eq_dec : EqDecision OperationalAlertKind.
Proof. solve_decision. Defined.
Definition operationalAlertKinds : list OperationalAlertKind :=
  [integrity_failure; missing_blob; audit_chain_failure; backup_stale; privileged_access_denied; cross_workspace_access;
   anomalous_export; purge_activity; key_failure].
Definition alert_name (k : OperationalAlertKind) : string :=
  match k with
  | integrity_failure => "integrity_failure" | missing_blob => "missing_blob" | audit_chain_failure => "audit_chain_failure"
  | backup_stale => "backup_stale" | privileged_access_denied => "privileged_access_denied"
  | cross_workspace_access => "cross_workspace_access" | anomalous_export => "anomalous_export"
  | purge_activity => "purge_activity" | key_failure => "key_failure"
  end.
(** Source: packages/observability/src/index.ts:14-14 OperationalSeverity *)
Inductive OperationalSeverity := warning | critical.
#[export] Instance OperationalSeverity_eq_dec : EqDecision OperationalSeverity.
Proof. solve_decision. Defined.
Definition severity_name (s : OperationalSeverity) : string := match s with warning => "warning" | critical => "critical" end.

(** Source: packages/observability/src/index.ts:16-30 OperationalAlert *)
Record OperationalAlert := mkAlert {
  alert_kind : OperationalAlertKind;
  alert_severity : OperationalSeverity;
  alert_occurredAt : string;
  alert_service : string;
  alert_environment : string;
  alert_workspaceId : option string;
  alert_actorId : option string;
  alert_requestId : option string;
  alert_correlationId : option string;
  alert_operationId : option string;
  alert_subjectId : option string;
  alert_errorCode : option string;
  alert_metadata : option (list (string * json));
}.
(** [Object.keys(alert.metadata ?? {})] *)
Definition alert_metadata_keys (alert : OperationalAlert) : list string := (default [] (alert_metadata alert)).*1.
(** Source: packages/observability/src/index.ts:32-37 AlertDeliveryReceipt *)
Record AlertDeliveryReceipt := mkReceipt {
  receipt_alertKind : OperationalAlertKind;
  receipt_destination : string;
  receipt_deliveredAt : string;
  receipt_externalReference : string;
}.

(** [/(^|_)(content|...|bytes)($|_)/i]: a forbidden word, bounded by the ends of
    the key or by underscores. *)
Definition forbidden_words : list string :=
  ["content"; "payload"; "prompt"; "transcript"; "drawing"; "secret"; "token"; "cookie"; "password"; "bytes"].
(** Source: packages/observability/src/index.ts:43-44 forbiddenMetadataKeys *)
Definition forbiddenMetadataKeys (key : string) : bool :=
  matches (Sequence [Opt (Cat (Star any) (Char "_")); OneOf (map Text forbidden_words); Opt (Cat (Char "_") (Star any))])
    (toLowerCase key).

(** Source: packages/observability/src/index.ts:69-89 requiredSeverity *)
Definition requiredSeverity (kind : OperationalAlertKind) : OperationalSeverity :=
  match kind with
  | integrity_failure | missing_blob | audit_chain_failure | key_failure => critical
  | backup_stale | privileged_access_denied | cross_workspace_access | anomalous_export | purge_activity => warning
  end.

Section Alerts.
Context `{JsDate}.
(** Source: packages/observability/src/index.ts:46-67 validateOperationalAlert *)
Definition validateOperationalAlert (alert : OperationalAlert) : list string :=
  ((if is_date (alert_occurredAt alert) then [] else ["Alert timestamp is invalid."]) ++
   (if blank (alert_service alert) || blank (alert_environment alert) then ["Alert service and environment are required."] else []) ++
   flat_map (λ key, if forbiddenMetadataKeys key then ["Alert metadata key is forbidden: " +:+ key +:+ "."] else []) (alert_metadata_keys alert) ++
   (if requiredSeverity (alert_kind alert) !== alert_severity alert
    then [alert_name (alert_kind alert) +:+ " alerts must use " +:+ severity_name (requiredSeverity (alert_kind alert)) +:+ " severity."]
    else []))%list.
(** Source: packages/observability/src/index.ts:91-96 missingAlertDeliveryProofs *)
Definition missingAlertDeliveryProofs (receipts : list AlertDeliveryReceipt) : list OperationalAlertKind :=
  List.filter (λ kind, negb (array_includes (map receipt_alertKind receipts) kind)) operationalAlertKinds.

(** A key with a forbidden word between underscores or ends, in any case. *)
Definition names_forbidden (key : string) : Prop :=
  ∃ before word after, word ∈ forbidden_words ∧ toLowerCase key = before +:+ word +:+ after ∧
    (before = EmptyString ∨ ∃ b, before = b +:+ "_") ∧ (after = EmptyString ∨ ∃ a, after = "_" +:+ a).

Lemma list_ascii_app s t : list_ascii_of_string (s +:+ t) = (list_ascii_of_string s ++ list_ascii_of_string t)%list.
Proof. induction s as [|c s IH]; [done|]. cbn. by rewrite <- IH. Qed.
Lemma list_ascii_inj s t : list_ascii_of_string s = list_ascii_of_string t → s = t.
Proof. intros H'%(f_equal string_of_list_ascii). by rewrite !string_of_list_ascii_of_string in H'. Qed.
Lemma lang_text s w : lang (Text s) w ↔ w = list_ascii_of_string s.
Proof.
  revert w. induction s as [|c s IH]; intros w; cbn [Text].
  - split; [by inversion 1|intros ->; constructor].
  - rewrite lang_cat_inv. split.
    + intros (t & u & -> & Ht & ->%IH). inversion Ht as [|p d Hd| | | | |]; subst. apply bool_decide_eq_true in Hd. by subst.
    + intros ->. exists [c], (list_ascii_of_string s). split_and!; [done| |by apply IH]. constructor. apply strict_eq_refl.
Qed.
Lemma lang_one_of rs w : lang (OneOf rs) w ↔ ∃ r, r ∈ rs ∧ lang r w.
Proof.
  induction rs as [|r rs IH]; cbn [OneOf]; [split; [inversion 1|by intros (? & ?%elem_of_nil & _)]|].
  rewrite lang_alt_inv, IH. setoid_rewrite elem_of_cons. naive_solver.
Qed.
Lemma lang_any w : lang (Star any) w.
Proof. induction w as [|c w IH]; [constructor|]. apply (lang_star_app any [c] w); [by constructor|done]. Qed.
Lemma lang_eps_inv w : lang Eps w ↔ w = [].
Proof. split; [by inversion 1|intros ->; constructor]. Qed.
Lemma lang_char c w : lang (Char c) w ↔ w = [c].
Proof.
  split; [inversion 1 as [|p d Hd| | | | |]; subst; apply bool_decide_eq_true in Hd; by subst|]. intros ->. constructor. apply strict_eq_refl.
Qed.
Lemma lang_before w : lang (Opt (Cat (Star any) (Char "_"))) w ↔ w = [] ∨ ∃ x, w = (x ++ ["_"%char])%list.
Proof.
  unfold Opt. rewrite lang_alt_inv, lang_eps_inv, lang_cat_inv. split.
  - intros [(x & u & -> & _ & ->%lang_char)|?]; eauto.
  - intros [?|[x ->]]; [by right|left]. exists x, ["_"%char]. split_and!; [done|apply lang_any|by apply lang_char].
Qed.
Lemma lang_after w : lang (Opt (Cat (Char "_") (Star any))) w ↔ w = [] ∨ ∃ x, w = "_"%char :: x.
Proof.
  unfold Opt. rewrite lang_alt_inv, lang_eps_inv, lang_cat_inv. split.
  - intros [(u & x & -> & ->%lang_char & _)|?]; [right; by exists x|by left].
  - intros [?|[x ->]]; [by right|left]. exists ["_"%char], x. split_and!; [done|by apply lang_char|apply lang_any].
Qed.
Lemma lang_words ws w : lang (OneOf (map Text ws)) w ↔ ∃ word, word ∈ ws ∧ w = list_ascii_of_string word.
Proof.
  rewrite lang_one_of. split.
  - intros (r & (word & -> & Hw)%list_elem_of_fmap & ->%lang_text). eauto.
  - intros (word & Hw & ->). exists (Text word). split; [by apply list_elem_of_fmap_2|by apply lang_text].
Qed.
Lemma forbidden_spec key : forbiddenMetadataKeys key = true ↔ names_forbidden key.
Proof.
  unfold forbiddenMetadataKeys, names_forbidden. rewrite matches_spec. generalize (toLowerCase key). clear key. intros key.
  generalize forbidden_words. intros words. cbn [Sequence]. rewrite lang_cat_inv. split.
  - intros (b & u & Hk & Hb%lang_before & (w & v & -> & (word & Hw & ->)%lang_words & (a & e & -> & Ha%lang_after & ->%lang_eps_inv)%lang_cat_inv)%lang_cat_inv).
    exists (string_of_list_ascii b), word, (string_of_list_ascii a). split_and!; [done| | |].
    + apply list_ascii_inj. by rewrite !list_ascii_app, !list_ascii_of_string_of_list_ascii, Hk, app_nil_r.
    + destruct Hb as [->|[x ->]]; [by left|right]. exists (string_of_list_ascii x). apply list_ascii_inj.
      by rewrite list_ascii_app, !list_ascii_of_string_of_list_ascii.
    + destruct Ha as [->|[x ->]]; [by left|right]. exists (string_of_list_ascii x). done.
  - intros (b & word & a & Hw & -> & Hb & Ha). rewrite !list_ascii_app.
    exists (list_ascii_of_string b), (list_ascii_of_string word ++ list_ascii_of_string a)%list. split_and!; [done| |].
    + apply lang_before. destruct Hb as [->|[x ->]]; [by left|right]. exists (list_ascii_of_string x). by rewrite list_ascii_app.
    + constructor; [apply lang_words; eauto|]. rewrite <- (app_nil_r (list_ascii_of_string a)). constructor; [|constructor].
      apply lang_after. destruct Ha as [->|[x ->]]; [by left|right]. by exists (list_ascii_of_string x).
Qed.

(** An alert is valid exactly when it is dated, names service and
    environment, has the severity of its kind, and none of its metadata keys has,
    in any case, a forbidden word bounded by underscores or the ends of the key. *)
Theorem alert_valid_exact alert :
  validateOperationalAlert alert = [] ↔
    is_date (alert_occurredAt alert) = true ∧ blank (alert_service alert) = false ∧ blank (alert_environment alert) = false ∧
    (∀ key, key ∈ alert_metadata_keys alert → ¬ names_forbidden key) ∧ alert_severity alert = requiredSeverity (alert_kind alert).
Proof.
  unfold validateOperationalAlert. rewrite !app_nil, flat_map_nil. setoid_rewrite <- forbidden_spec.
  destruct (is_date _); [|naive_solver]. destruct (blank (alert_service alert)), (blank (alert_environment alert)); cbn [orb]; try naive_solver.
  assert ((∀ x, x ∈ alert_metadata_keys alert → (if forbiddenMetadataKeys x then ["Alert metadata key is forbidden: " +:+ x +:+ "."] else []) = []) ↔
    ∀ x, x ∈ alert_metadata_keys alert → forbiddenMetadataKeys x ≠ true) as ->.
  { apply forall_proper. intros x. destruct (forbiddenMetadataKeys x); naive_solver. }
  case_bool_decide as E; cbn; naive_solver.
Qed.
Lemma delivery_proven receipts :
  missingAlertDeliveryProofs receipts = [] ↔ ∀ kind, ∃ r, r ∈ receipts ∧ receipt_alertKind r = kind.
Proof.
  assert (∀ kind, kind ∈ operationalAlertKinds) as Hall
    by (intros k; apply (bool_decide_eq_true_1 (k ∈ operationalAlertKinds)); destruct k; vm_compute; reflexivity).
  split.
  - intros Hm kind. destruct (decide (kind ∈ map receipt_alertKind receipts)) as [(r & -> & Hr)%list_elem_of_fmap|Hn]; [eauto|]. exfalso.
    assert (kind ∈ missingAlertDeliveryProofs receipts) as Hin; [|by rewrite Hm in Hin; apply elem_of_nil in Hin].
    apply List_filter_elem. split; [apply Hall|]. unfold array_includes. by rewrite bool_decide_eq_false_2.
  - intros Hr. destruct (missingAlertDeliveryProofs receipts) as [|k ks] eqn:E; [done|]. exfalso.
    assert (k ∈ missingAlertDeliveryProofs receipts) as [_ Hk]%List_filter_elem by (rewrite E; by left).
    apply negb_true_iff, bool_decide_eq_false in Hk. destruct (Hr k) as (r & Hin & <-). apply Hk. by apply list_elem_of_fmap_2.
Qed.

(** Keys in camel case, as the records of this program have them, are not seen. *)
Example camel_case_key_escapes :
  forbiddenMetadataKeys "session_token" = true ∧ forbiddenMetadataKeys "Password" = true ∧
  forbiddenMetadataKeys "sessionToken" = false ∧ forbiddenMetadataKeys "csrfToken" = false.
Proof. split_and!; vm_compute; reflexivity. Qed.
End Alerts.
End Observability.
