(* ===== verification/AppProtocol.v ===== *)
(** * The application protocol

    [packages/app-protocol/src/index.ts]: the manifest of an application, its
    validation, and the bundle a developer is handed: manifest, interface methods
    and a written brief.

    The theorems: a bundle is made exactly from a valid manifest, its methods being
    those its capabilities cover; and the manifest is normal: made again from
    itself it is the same.  The last module sets the methods the protocol offers
    to applications beside the routes of the API ([ApiRoutes]). *)
From S2P Require Import Prelude Js Concrete Json Regex Policy Archive Access ApiRoutes.

Definition appProtocolVersion : string := "TCAP/1.0".
(** Source: packages/app-protocol/src/index.ts:3-13 AppCapability *)
Definition appCapabilities : list string :=
  ["dataset:read"; "resource:read"; "revision:create"; "object:ingest"; "blob:read"; "relation:read"; "history:read"; "portability:read"].

Record SchemaPackageManifest := mkSchemaPackage {
  package_key : string;
  package_version : string;
  package_resourceTypes : list string;
  package_relationTypes : list string;
  package_blobRoles : list string;
  package_additionalFields : string;
}.
Record Lifecycle := mkLifecycle { lifecycle_deletion : string; lifecycle_revisionHistory : string; lifecycle_portability : string }.
(** Source: packages/app-protocol/src/index.ts:15-34 AppProtocolManifest *)
Record AppProtocolManifest := mkManifest {
  manifest_protocolVersion : string;
  manifest_namespace : string;
  manifest_name : string;
  manifest_applicationVersion : string;
  manifest_schemaPackage : SchemaPackageManifest;
  manifest_capabilities : list string;
  manifest_lifecycle : Lifecycle;
}.
(** Source: packages/app-protocol/src/index.ts:36-46 AppProtocolInput *)
Record AppProtocolInput := mkAppInput {
  input_namespace : string;
  input_name : string;
  input_applicationVersion : string;
  input_schemaVersion : string;
  input_resourceTypes : list string;
  input_relationTypes : list string;
  input_blobRoles : list string;
  input_capabilities : list string;
  input_additionalFields : option string;
}.
(** Source: packages/app-protocol/src/index.ts:48-53 InterfaceMethod *)
Record InterfaceMethod := mkMethod {
  method_purpose : string;
  method_sdk : string;
  method_http : string;
  method_required : bool;
}.
(** Source: packages/app-protocol/src/index.ts:55-59 AppProtocolBundle *)
Record AppProtocolBundle := mkBundle {
  bundle_manifest : AppProtocolManifest;
  bundle_methods : list InterfaceMethod;
  bundle_agentBrief : string;
}.
(** Source: packages/app-protocol/src/index.ts:61-64 ManifestIssue *)
Record ManifestIssue := mkManifestIssue { issue_path : string; issue_text : string }.

(** A lower-case word, then one or more words set off by a slash or a hyphen. *)
(** Source: packages/app-protocol/src/index.ts:66-66 namespacePattern *)
Definition namespacePattern : re :=
  let alnum c := is_lower c || is_digit c in
  Sequence [Chr is_lower; Star (Chr alnum);
    Plus (Sequence [Chr (one_of "/-"); Chr alnum; Star (Chr (λ c, alnum c || one_of "-" c))])].
(** Source: packages/app-protocol/src/index.ts:67-67 semverPattern *)
Definition semverPattern : re :=
  Sequence [Plus (Chr is_digit); Char "."; Plus (Chr is_digit); Char "."; Plus (Chr is_digit);
    Opt (Cat (Char "-") (Plus (Chr (λ c, is_digit c || is_upper c || is_lower c || one_of ".-" c))))].
(** Source: packages/app-protocol/src/index.ts:68-68 typePattern *)
Definition typePattern : re := Cat (Chr is_upper) (Star (Chr (λ c, is_upper c || is_lower c || is_digit c))).
(** Source: packages/app-protocol/src/index.ts:69-69 tokenPattern *)
Definition tokenPattern : re :=
  let alnum c := is_lower c || is_digit c in
  Sequence [Chr is_lower; Star (Chr alnum); Star (Cat (Chr (one_of "._-")) (Plus (Chr alnum)))].

(** Source: packages/app-protocol/src/index.ts:296-300 unique *)
Definition unique (values : list string) : list string :=
  js_sort (new_Set (List.filter (λ v, v !== EmptyString) (map trim values))).

Definition issue_when (b : bool) (path message : string) : list ManifestIssue := if b then [mkManifestIssue path message] else [].
(** Source: packages/app-protocol/src/index.ts:103-156 validateAppProtocolManifest *)
Definition validateAppProtocolManifest (manifest : AppProtocolManifest) : list ManifestIssue :=
  let package := manifest_schemaPackage manifest in
  (issue_when (manifest_protocolVersion manifest !== appProtocolVersion) "protocolVersion" "must be TCAP/1.0" ++
   issue_when (negb (matches namespacePattern (manifest_namespace manifest))) "namespace" "must be a lowercase globally unique path" ++
   issue_when (blank (manifest_name manifest)) "name" "must not be empty" ++
   issue_when (negb (matches semverPattern (manifest_applicationVersion manifest))) "applicationVersion" "must be semver" ++
   issue_when (negb (matches semverPattern (package_version package))) "schemaPackage.version" "must be semver" ++
   issue_when (package_key package !== manifest_namespace manifest +:+ "/" +:+ package_version package) "schemaPackage.key"
     "must bind namespace and schema version" ++
   issue_when (match package_resourceTypes package with [] => true | _ => false end) "schemaPackage.resourceTypes"
     "must declare at least one resource type" ++
   flat_map (λ value, issue_when (negb (matches typePattern value)) "schemaPackage.resourceTypes" (value +:+ " must be UpperCamelCase"))
     (package_resourceTypes package) ++
   flat_map (λ value, issue_when (negb (matches tokenPattern value)) "schemaPackage.relationTypes" (value +:+ " is not a valid protocol token"))
     (package_relationTypes package) ++
   flat_map (λ value, issue_when (negb (matches tokenPattern value)) "schemaPackage.blobRoles" (value +:+ " is not a valid protocol token"))
     (package_blobRoles package) ++
   flat_map (λ capability, issue_when (negb (array_includes appCapabilities capability)) "capabilities"
     (capability +:+ " is not an app capability")) (manifest_capabilities manifest))%list.

Definition required_methods : list InterfaceMethod := [
  mkMethod "Register application manifest" "client.applications.register(manifest)" "POST /v1/applications" true;
  mkMethod "List registered schema packages" "client.schemas.list()" "GET /v1/schemas" true
].
Definition candidates : list (string * InterfaceMethod) := [
  ("dataset:read", mkMethod "Read authorised datasets" "client.datasets.list()" "GET /v1/datasets" false);
  ("resource:read", mkMethod "Read canonical resources" "client.resources.list()" "GET /v1/resources" false);
  ("revision:create", mkMethod "Append a schema-versioned revision" "client.revisions.create(resourceId, command)"
     "POST /v1/resources/{resourceId}/revisions" false);
  ("object:ingest", mkMethod "Ingest immutable blob bytes" "client.uploads.create(input)" "POST /v1/uploads" false);
  ("object:ingest", mkMethod "Read upload quarantine scan status" "client.uploads.getScanStatus(uploadId)"
     "GET /v1/uploads/{uploadId}/scan-status" false);
  ("blob:read", mkMethod "Issue a short-lived download transfer grant" "client.blobs.createDownloadGrant(input)"
     "POST /v1/blobs/download-grants" false);
  ("relation:read", mkMethod "Read typed relationships" "client.relations.list()" "GET /v1/relations" false);
  ("history:read", mkMethod "Read continuity history" "client.history.list()" "GET /v1/history" false);
  ("portability:read", mkMethod "Inspect archive operations" "client.portability.operations.get(operationId)"
     "GET /v1/portability/operations/{operationId}" false)
].
(** Source: packages/app-protocol/src/index.ts:158-261 interfaceMethods *)
Definition interfaceMethods (capabilities : list string) : list InterfaceMethod :=
  (required_methods ++ flat_map (λ e, if array_includes capabilities e.1 then [e.2] else []) candidates)%list.

Definition NEWLINE : string := String (ascii_of_nat 10) EmptyString.
Definition BACKQUOTE : string := String (ascii_of_nat 96) EmptyString.
Definition or_none (s : string) : string := if s === EmptyString then "none" else s.
(** Source: packages/app-protocol/src/index.ts:263-294 agentBrief *)
Definition agentBrief (manifest : AppProtocolManifest) (methods : list InterfaceMethod) : string :=
  let package := manifest_schemaPackage manifest in
  join NEWLINE [
    "# Trust Core app integration brief"; "";
    "Implement " +:+ manifest_name manifest +:+ " against " +:+ appProtocolVersion +:+
      ". Do not access Trust Core PostgreSQL or object storage directly."; "";
    "## Identity";
    "- Namespace: " +:+ manifest_namespace manifest;
    "- Application version: " +:+ manifest_applicationVersion manifest;
    "- Schema package: " +:+ package_key package;
    "- Capabilities: " +:+ join ", " (manifest_capabilities manifest); "";
    "## Domain contract";
    "- Resource types: " +:+ join ", " (package_resourceTypes package);
    "- Relation types: " +:+ or_none (join ", " (package_relationTypes package));
    "- Blob roles: " +:+ or_none (join ", " (package_blobRoles package));
    "- Unknown fields: " +:+ package_additionalFields package; "";
    "## Interface methods";
    join NEWLINE (map (λ m, "- " +:+ method_purpose m +:+ ": " +:+ BACKQUOTE +:+ method_sdk m +:+ BACKQUOTE +:+
      " (" +:+ method_http m +:+ ")") methods); "";
    "## Mandatory behaviour";
    "- Use the public SDK/API only.";
    "- Send a stable idempotency key for every write and retry.";
    "- Send the expected head revision for optimistic concurrency.";
    "- Preserve schema version, correlation IDs, relationships and blob roles.";
    "- Treat history as append-only and deletion as logical-first.";
    "- Pass manifest, permission, retry, conflict and archive round-trip conformance tests."; ""].

Definition manifest_of (input : AppProtocolInput) : AppProtocolManifest :=
  mkManifest appProtocolVersion (trim (input_namespace input)) (trim (input_name input)) (trim (input_applicationVersion input))
    (mkSchemaPackage (trim (input_namespace input) +:+ "/" +:+ trim (input_schemaVersion input)) (trim (input_schemaVersion input))
       (unique (input_resourceTypes input)) (unique (input_relationTypes input)) (unique (input_blobRoles input))
       (default "preserve" (input_additionalFields input)))
    (unique (input_capabilities input)) (mkLifecycle "logical-first" "append-only" "required").
(** Source: packages/app-protocol/src/index.ts:71-101 createAppProtocolBundle *)
Definition createAppProtocolBundle (input : AppProtocolInput) : result string AppProtocolBundle :=
  let manifest := manifest_of input in
  let issues := validateAppProtocolManifest manifest in
  throw_if (match issues with [] => false | _ => true end)
    (join NEWLINE (map (λ issue, issue_path issue +:+ ": " +:+ issue_text issue) issues)) ≫= λ _,
  let methods := interfaceMethods (manifest_capabilities manifest) in
  Ok (mkBundle manifest methods (agentBrief manifest methods)).

(** ** Normal manifests *)

Lemma drop_while_idem {A} (p : A → bool) l : drop_while p (drop_while p l) = drop_while p l.
Proof. induction l as [|x l IH]; cbn; [done|]. destruct (p x) eqn:E; [done|]. cbn. by rewrite E. Qed.
Lemma drop_while_suffix {A} (p : A → bool) l : ∃ k, l = (k ++ drop_while p l)%list.
Proof. induction l as [|x l [k IH]]; cbn; [by exists []|]. destruct (p x); [exists (x :: k); cbn; by f_equal|by exists []]. Qed.
Lemma trim_idem s : trim (trim s) = trim s.
Proof.
  unfold trim, chars. rewrite list_ascii_of_string_of_list_ascii. f_equal. f_equal.
  set (m := drop_while is_space (list_ascii_of_string s)). set (r := rev (drop_while is_space (rev m))).
  assert (drop_while is_space r = r) as ->; [|unfold r; by rewrite rev_involutive, drop_while_idem].
  destruct (drop_while_suffix is_space (rev m)) as [k Hk]. apply (f_equal (@rev ascii)) in Hk. rewrite rev_involutive, rev_app_distr in Hk. fold r in Hk.
  assert (drop_while is_space m = m) as Hm by apply drop_while_idem. destruct r as [|c r']; [done|]. rewrite Hk in Hm. cbn in *.
  destruct (is_space c) eqn:E; [|done]. exfalso. destruct (drop_while_suffix is_space (r' ++ rev k)) as [j Hj].
  rewrite Hm in Hj. apply (f_equal length) in Hj. rewrite !length_app in Hj. cbn in Hj. rewrite length_app in Hj. lia.
Qed.

Lemma new_Set_from_id {A} `{EqDecision A} (seen xs : list A) : NoDup xs → (∀ x, x ∈ xs → x ∉ seen) → new_Set_from seen xs = xs.
Proof.
  revert seen. induction xs as [|x xs IH]; intros seen Hnd Hs; cbn; [done|]. apply NoDup_cons in Hnd as [Hx Hnd].
  rewrite bool_decide_eq_false_2 by (apply Hs; by left). f_equal. apply IH; [done|]. intros y Hy [->|Hin]%elem_of_cons; [done|].
  apply (Hs y); [by right|done].
Qed.
Lemma js_sort_perm xs : js_sort xs ≡ₚ xs.
Proof. apply merge_sort_Permutation. Qed.
Lemma js_sort_idem xs : js_sort (js_sort xs) = js_sort xs.
Proof. eapply (Sorted_unique String.le); [apply Sorted_merge_sort, _|apply Sorted_merge_sort, _|]. apply js_sort_perm. Qed.
Lemma unique_idem values : unique (unique values) = unique values.
Proof.
  unfold unique at 1. set (u := unique values).
  assert (∀ v, v ∈ u → trim v = v ∧ v ≠ EmptyString) as Hu.
  { intros v Hv. unfold u, unique in Hv. rewrite js_sort_perm, elem_of_new_Set in Hv. apply List_filter_elem in Hv as [(w & -> & _)%list_elem_of_fmap Hne].
    split; [apply trim_idem|]. by apply negb_true_iff, bool_decide_eq_false in Hne. }
  assert (map trim u = u) as ->. { clearbody u. induction u as [|v u IH]; [done|]. cbn. rewrite IH by (intros; apply Hu; by right). f_equal. apply Hu. by left. }
  assert (List.filter (λ v, v !== EmptyString) u = u) as ->.
  { clearbody u. induction u as [|v u IH]; [done|]. cbn. rewrite bool_decide_eq_false_2 by (apply Hu; by left). cbn. f_equal. apply IH. intros; apply Hu; by right. }
  unfold new_Set. rewrite new_Set_from_id.
  - unfold u, unique. apply js_sort_idem.
  - unfold u, unique. rewrite js_sort_perm. apply NoDup_new_Set.
  - intros x _. apply not_elem_of_nil.
Qed.

(** The input that a manifest is. *)
Definition input_of (m : AppProtocolManifest) : AppProtocolInput :=
  let package := manifest_schemaPackage m in
  mkAppInput (manifest_namespace m) (manifest_name m) (manifest_applicationVersion m) (package_version package)
    (package_resourceTypes package) (package_relationTypes package) (package_blobRoles package) (manifest_capabilities m)
    (Some (package_additionalFields package)).

(** A declared list in normal form: its values trimmed, each once, in order. *)
Record normal_form (declared l : list string) : Prop := mkNormalForm {
  normal_once : NoDup l;
  normal_sorted : Sorted String.le l;
  normal_values v : v ∈ l ↔ v ≠ EmptyString ∧ ∃ d, d ∈ declared ∧ v = trim d;
}.
Lemma unique_normal values : normal_form values (unique values).
Proof.
  unfold unique. split.
  - rewrite js_sort_perm. apply NoDup_new_Set.
  - apply Sorted_merge_sort, _.
  - intros v. rewrite js_sort_perm, elem_of_new_Set, List_filter_elem, list_elem_of_fmap, negb_true_iff, bool_decide_eq_false.
    naive_solver.
Qed.

(** What an input has to satisfy, read off the input itself. *)
Definition all_declared (declared : list string) (P : string → Prop) : Prop :=
  ∀ d, d ∈ declared → trim d ≠ EmptyString → P (trim d).
Record acceptable (input : AppProtocolInput) : Prop := mkAcceptable {
  ac_namespace : matches namespacePattern (trim (input_namespace input)) = true;
  ac_name : trim (input_name input) ≠ EmptyString;
  ac_applicationVersion : matches semverPattern (trim (input_applicationVersion input)) = true;
  ac_schemaVersion : matches semverPattern (trim (input_schemaVersion input)) = true;
  ac_some_type : ∃ d, d ∈ input_resourceTypes input ∧ trim d ≠ EmptyString;
  ac_types : all_declared (input_resourceTypes input) (λ v, matches typePattern v = true);
  ac_relations : all_declared (input_relationTypes input) (λ v, matches tokenPattern v = true);
  ac_roles : all_declared (input_blobRoles input) (λ v, matches tokenPattern v = true);
  ac_capabilities : all_declared (input_capabilities input) (λ v, v ∈ appCapabilities);
}.

Lemma issue_when_nil b path message : issue_when b path message = [] ↔ b = false.
Proof. by destruct b. Qed.
Lemma no_issues declared (p : string → bool) path (message : string → string) :
  flat_map (λ v, issue_when (negb (p v)) path (message v)) (unique declared) = [] ↔ all_declared declared (λ v, p v = true).
Proof.
  assert (∀ l, flat_map (λ v, issue_when (negb (p v)) path (message v)) l = [] ↔ ∀ v, v ∈ l → p v = true) as Hflat.
  { induction l as [|v l IH]; cbn; [split; [intros _ ? []%elem_of_nil|done]|].
    rewrite app_nil, issue_when_nil, negb_false_iff, IH. split.
    - intros [Hv Hl] x [->|Hx]%elem_of_cons; [done|by apply Hl].
    - intros Hl. split; [apply Hl; by left|intros x Hx; apply Hl; by right]. }
  rewrite Hflat. destruct (unique_normal declared) as [_ _ Hu]. split.
  - intros Hv d Hd Hne. apply Hv, Hu. eauto.
  - intros Hd v [Hne (d & Hin & ->)]%Hu. by apply Hd.
Qed.
Lemma valid_manifest input : validateAppProtocolManifest (manifest_of input) = [] ↔ acceptable input.
Proof.
  unfold validateAppProtocolManifest. cbn [manifest_of manifest_protocolVersion manifest_namespace manifest_name manifest_applicationVersion
    manifest_schemaPackage manifest_capabilities package_version package_key package_resourceTypes package_relationTypes package_blobRoles].
  rewrite !app_nil, !issue_when_nil, !negb_false_iff, !no_issues. unfold blank. rewrite trim_idem, bool_decide_eq_false, !strict_eq_refl.
  assert (all_declared (input_capabilities input) (λ v, array_includes appCapabilities v = true) ↔
    all_declared (input_capabilities input) (λ v, v ∈ appCapabilities)) as ->.
  { unfold all_declared, array_includes. by setoid_rewrite bool_decide_eq_true. }
  assert (match unique (input_resourceTypes input) with [] => true | _ => false end = false ↔
    ∃ d, d ∈ input_resourceTypes input ∧ trim d ≠ EmptyString) as Hsome.
  { destruct (unique_normal (input_resourceTypes input)) as [_ _ Hu]. destruct (unique (input_resourceTypes input)) as [|v l].
    - split; [done|]. intros (d & Hd & Hne). exfalso. apply (not_elem_of_nil (trim d)), Hu. eauto.
    - split; [|done]. intros _. destruct (proj1 (Hu v) (list_elem_of_here v l)) as [Hne (d & Hd & ->)]. eauto. }
  rewrite Hsome. split.
  - intros (_ & ? & ? & ? & ? & _ & ? & ? & ? & ? & ?). by split.
  - intros []. split_and!; done.
Qed.

Lemma methods_declared declared x :
  x ∈ interfaceMethods (unique declared) ↔ x ∈ required_methods ∨ ∃ d, d ∈ declared ∧ (trim d, x) ∈ candidates.
Proof.
  assert (Forall (λ e : string * InterfaceMethod, e.1 ≠ EmptyString) candidates) as Hne by (repeat constructor; done).
  unfold interfaceMethods. rewrite elem_of_app. apply or_iff_compat_l. rewrite list_elem_of_In, in_flat_map.
  destruct (unique_normal declared) as [_ _ Hu]. split.
  - intros ([c m'] & Hin & Hm). unfold array_includes in Hm. case_bool_decide as E; [|done]. destruct Hm as [<-|[]].
    apply Hu in E as [_ (d & Hd & Hc)]. cbn in Hc. exists d. split; [done|]. rewrite <- Hc. by apply list_elem_of_In.
  - intros (d & Hd & Hin). exists (trim d, x). split; [by apply list_elem_of_In|]. unfold array_includes. rewrite bool_decide_eq_true_2.
    + by left.
    + apply Hu. split; [|by exists d]. rewrite Forall_forall in Hne. exact (Hne (trim d, x) Hin).
Qed.

(** C25. The bundle of an application is made exactly from an input whose trimmed
    namespace, name, versions, type names, tokens and capabilities are well formed
    and which declares a resource type.  Its manifest is that input in normal
    form: every text trimmed, every list trimmed, without repetitions and in
    order, unknown fields preserved unless the input says otherwise, and the schema
    package bound to the namespace and its version; its methods are the two
    required ones and those of the declared capabilities; and making a bundle from
    the manifest gives the same bundle again. *)
Theorem bundle_exact input :
  (is_Ok (createAppProtocolBundle input) = true ↔ acceptable input) ∧
  ∀ b, createAppProtocolBundle input = Ok b →
    let m := bundle_manifest b in
    let package := manifest_schemaPackage m in
    manifest_protocolVersion m = appProtocolVersion ∧ manifest_namespace m = trim (input_namespace input) ∧
    manifest_name m = trim (input_name input) ∧ manifest_applicationVersion m = trim (input_applicationVersion input) ∧
    package_version package = trim (input_schemaVersion input) ∧
    package_key package = trim (input_namespace input) +:+ "/" +:+ trim (input_schemaVersion input) ∧
    package_additionalFields package = default "preserve" (input_additionalFields input) ∧
    normal_form (input_resourceTypes input) (package_resourceTypes package) ∧
    normal_form (input_relationTypes input) (package_relationTypes package) ∧
    normal_form (input_blobRoles input) (package_blobRoles package) ∧
    normal_form (input_capabilities input) (manifest_capabilities m) ∧
    manifest_lifecycle m = mkLifecycle "logical-first" "append-only" "required" ∧
    (∀ x, x ∈ bundle_methods b ↔
       x ∈ required_methods ∨ ∃ d, d ∈ input_capabilities input ∧ (trim d, x) ∈ candidates) ∧
    createAppProtocolBundle (input_of m) = Ok b.
Proof.
  assert (manifest_of (input_of (manifest_of input)) = manifest_of input) as Hidem.
  { unfold manifest_of, input_of. cbn -[trim unique]. by rewrite !trim_idem, !unique_idem. }
  pose proof (valid_manifest input) as Hvalid. unfold createAppProtocolBundle.
  destruct (validateAppProtocolManifest (manifest_of input)) as [|i is_] eqn:Ev.
  2: { split; [|done]. split; [done|]. intros Ha. by apply Hvalid in Ha. }
  split; [split; [intros _; by apply Hvalid|done]|]. intros b [= <-]. cbn [bundle_manifest bundle_methods]. rewrite Hidem, Ev.
  split_and!; try done; try apply unique_normal. intros x. apply methods_declared.
Qed.

Module AppProtocolWitness.
Import Archive.Utf8 ApiWitness.

Definition notes : AppProtocolInput :=
  mkAppInput " acme/notes " "Notes" "1.0.0" "1.2.0" ["Note"; " Note"; "Folder"] ["note.parent"] [] ["resource:read"; "history:read"] None.
Lemma bundle_exact_witness : acceptable notes.
Proof. apply (bundle_exact notes). vm_compute. reflexivity. Defined.
Example notes_bundle :
  ((λ b, (package_key (manifest_schemaPackage (bundle_manifest b)), package_resourceTypes (manifest_schemaPackage (bundle_manifest b)),
          map method_http (bundle_methods b))) <$> createAppProtocolBundle notes) =
  Ok ("acme/notes/1.2.0", ["Folder"; "Note"], ["POST /v1/applications"; "GET /v1/schemas"; "GET /v1/resources"; "GET /v1/history"]).
Proof. vm_compute; reflexivity. Qed.
Example unnamed_bundle_refused :
  createAppProtocolBundle (mkAppInput "Acme" "" "1.0" "1.2.0" ["note"] [] [] [] None) =
  Err (join NEWLINE ["namespace: must be a lowercase globally unique path"; "name: must not be empty"; "applicationVersion: must be semver";
    "schemaPackage.resourceTypes: note must be UpperCamelCase"]).
Proof. vm_compute; reflexivity. Qed.

(** The protocol hands an application the method that reads its datasets, its
    history and its archive operations; the routes refuse these to an
    application of any role, and serve it its resources. *)
Definition registered : RegisteredApplication := mkApplication "a1" "ws-1" "app-1" appCapabilities app_active.
Definition owner_of_app : ScopedPolicyAssignment :=
  mkAssignment "s1" "ws-1" principal_application "app-1" "owner" scope_application "a1" None.
Definition app_gate : AdminSessionGateway :=
  mkAdmin (mkStatic (Some "token") AccessWitness.app_actor
    (Some (mkPolicies (λ _, Ok [registered]) (λ _ _, Ok [owner_of_app]) (λ _ _ _, Ok []) (Some AccessWitness.record_all)))) 1000 None true.
Definition app_server : Api := admin_api app_gate (λ s : Gateway * list Call, gateway_clock s.1) "live" (Some every) true log.
Definition app_get (pathname : string) : result api_exn json :=
  result_status <$> (route app_server (with_token None []) "GET" pathname start).1.
Example advertised_methods_refused :
  map app_get ["/v1/resources"; "/v1/relations"; "/v1/datasets"; "/v1/history"; "/v1/portability/operations/op-1"; "/v1/schemas"] =
  [Ok (JNumber 200); Ok (JNumber 200); Ok (JNumber 403); Ok (JNumber 403); Ok (JNumber 403); Ok (JNumber 403)].
Proof. vm_compute. reflexivity. Qed.
End AppProtocolWitness.
