(* ===== verification/Server.v ===== *)
(** * The HTTP server

    [apps/trust-api/src/server.ts]: what happens to a request before and after
    the routes of [ApiRoutes]: the endpoints of logins and sessions, the reading
    of a body within its limit, the headers that are passed on, the answer
    that is sent, and the answer to what is thrown.

    A request arrives with its body in chunks; the answer has its body as bytes.
    [new URL] is a class, and so is the UTF-8 decoder that replaces what is
    malformed.  The logins of [Identity] are an argument.  The start of the process
    (environment variables, the choice of providers) is not modelled. *)
From S2P Require Import Prelude Js Concrete Json JsonParse Policy Archive Access ApiRoutes.

(** ** Text and URLs *)

(** UTF-8 text, decoded with [toString("utf8")], which never throws. *)
Class Utf8Text := { decode_lossy : string → string }.
Class Utf8TextLaws `{TextCodec} `{Utf8Text} := {
  decode_lossy_encode s : decode_lossy (encode s) = s;
  encode_app a b : encode (a +:+ b) = encode a +:+ encode b;
  encode_ascii s : (∀ c, c ∈ list_ascii_of_string s → nat_of_ascii c < 128) → encode s = s;
}.
(** [new URL(target, "http://trust-api.local")]: its [pathname] and the entries of
    its [searchParams]; [None] where it throws. *)
Class UrlParser := { url_parts : string → option (string * list (string * string)) }.

(** ** Requests and answers *)

(** A request of [node:http]; a header has a value or several. *)
Record HttpRequest := mkHttpRequest {
  http_method : string;
  http_url : string;
  http_headers : list (string * (string + list string));
  http_chunks : list string;
}.
Record HttpResponse := mkHttpResponse {
  response_status : Z;
  response_headers : list (string * list string);
  response_body : option string;
}.

(** Source: apps/trust-api/src/server.ts:383-385 header *)
Definition one_header (value : option (string + list string)) : option string :=
  match value with Some (inr values) => head values | Some (inl v) => Some v | None => None end.
Definition http_header (request : HttpRequest) (name : string) : option string :=
  one_header (map_get name (http_headers request)).

Definition MAX_BODY_BYTES : Z := 1024 * 1024.
Definition request_too_large : api_exn := OtherThrown None (Some "request_too_large").
Definition invalid_json : api_exn := OtherThrown None (Some "invalid_json").
(** The size of the chunks, unless the limit is passed. *)
Fixpoint read_chunks (size : Z) (chunks : list string) : result api_exn Z :=
  match chunks with
  | [] => Ok size
  | chunk :: chunks =>
      let size := (size + Z.of_nat (String.length chunk))%Z in
      throw_if (Z.ltb MAX_BODY_BYTES size) request_too_large ≫= λ _, read_chunks size chunks
  end.
(** Source: apps/trust-api/src/server.ts:386-402 readJsonBody *)
Definition readJsonBody `{Utf8Text} (request : HttpRequest) : result api_exn (option json) :=
  if (http_method request === "GET") || (http_method request === "HEAD") then Ok None
  else
    read_chunks 0 (http_chunks request) ≫= λ size,
    if (size =? 0)%Z then Ok None
    else match JSON_parse (decode_lossy (String.concat EmptyString (http_chunks request))) with
         | Some v => Ok (Some v)
         | None => Err invalid_json
         end.

(** Source: apps/trust-api/src/server.ts:443-449 apiError *)
Definition apiError (code message requestId : string) : json :=
  JObject [("code", JString code); ("message", JString message); ("requestId", JString requestId)].

Section Server.
Context `{JsDate} `{TextCodec} `{Utf8Text} `{UrlParser}.
Context {C : Type} (production : bool).

(** ** Headers and cookies *)

(** Source: apps/trust-api/src/server.ts:431-442 securityResponseHeaders *)
Definition securityResponseHeaders : list (string * list string) :=
  ([("content-security-policy", ["default-src 'none'; frame-ancestors 'none'; sandbox"]);
    ("referrer-policy", ["no-referrer"]); ("x-content-type-options", ["nosniff"]); ("x-frame-options", ["DENY"])] ++
   if production then [("strict-transport-security", ["max-age=31536000; includeSubDomains"])] else [])%list.

Definition SECURE : string := if production then "; Secure" else EmptyString.
(** Source: apps/trust-api/src/server.ts:459-461 sessionCookie *)
Definition sessionCookie (id : string) : string :=
  "trust_session=" +:+ id +:+ "; HttpOnly; SameSite=Strict; Path=/; Max-Age=1800" +:+ SECURE.
(** Source: apps/trust-api/src/server.ts:462-464 clearSessionCookie *)
Definition clearSessionCookie : string := "trust_session=; HttpOnly; SameSite=Strict; Path=/; Max-Age=0" +:+ SECURE.
(** Source: apps/trust-api/src/server.ts:465-467 csrfCookie *)
Definition csrfCookie (token : string) : string := "trust_csrf=" +:+ token +:+ "; SameSite=Strict; Path=/; Max-Age=1800" +:+ SECURE.
(** Source: apps/trust-api/src/server.ts:468-470 clearCsrfCookie *)
Definition clearCsrfCookie : string := "trust_csrf=; SameSite=Strict; Path=/; Max-Age=0" +:+ SECURE.
(** Source: apps/trust-api/src/server.ts:471-473 oidcBindingCookie *)
Definition oidcBindingCookie (token : string) : string :=
  "trust_oidc_binding=" +:+ token +:+ "; HttpOnly; SameSite=Lax; Path=/; Max-Age=300" +:+ SECURE.
(** Source: apps/trust-api/src/server.ts:474-476 clearOidcBindingCookie *)
Definition clearOidcBindingCookie : string := "trust_oidc_binding=; HttpOnly; SameSite=Lax; Path=/; Max-Age=0" +:+ SECURE.

(** [{ ...a, ...b }] of headers. *)
Definition with_headers (a b : list (string * list string)) : list (string * list string) :=
  foldl (λ acc e, map_set e.1 e.2 acc) a b.
(** [writeHead] throws on a status that is not one of three digits, and on a
    control character in a value. *)
Definition control_char (c : ascii) : bool :=
  let n := nat_of_ascii c in (Nat.ltb n 32 && negb (Nat.eqb n 9)) || Nat.eqb n 127.
Definition writeHead (status : Z) (headers : list (string * list string)) (body : option string) : result api_exn HttpResponse :=
  throw_if (Z.ltb status 100 || Z.ltb 999 status) (OtherThrown (Some "ERR_HTTP_INVALID_STATUS_CODE") None) ≫= λ _,
  throw_if (existsb (λ h, existsb (λ v, existsb control_char (list_ascii_of_string v)) h.2) headers)
    (OtherThrown (Some "ERR_INVALID_CHAR") None) ≫= λ _,
  Ok (mkHttpResponse status headers body).

Definition json_headers : list (string * list string) :=
  with_headers [("content-type", ["application/json; charset=utf-8"]); ("cache-control", ["no-store"])] securityResponseHeaders.
(** Source: apps/trust-api/src/server.ts:403-416 send *)
Definition send (status : Z) (body : option json) (headers : list (string * list string)) : result api_exn HttpResponse :=
  writeHead status (with_headers json_headers headers) ((λ v, encode (JSON_stringify v)) <$> body).
(** Source: apps/trust-api/src/server.ts:417-430 sendBinary *)
Definition sendBinary (status : Z) (body : string) (headers : list (string * list string)) : result api_exn HttpResponse :=
  writeHead status (with_headers (with_headers
    [("content-type", ["application/octet-stream"]); ("cache-control", ["no-store"])] securityResponseHeaders) headers) (Some body).

(** The headers of an answer of the routes, as [writeHead] takes them. *)
Definition result_header_list (r : ApiResult) : list (string * list string) :=
  map (λ e, (e.1, [json_String e.2])) (entries_of (result_headers r)).
(** A body is a [Uint8Array] in the one answer that has headers: the download of
    an archive. *)
Definition answer_bytes (r : ApiResult) : option string :=
  match result_headers r, result_body r with
  | Some _, Some (JArray _) => Some (bytes_of (result_body r))
  | _, _ => None
  end.
Definition status_of (r : ApiResult) : Z := match result_status r with JNumber n => n | _ => 0 end.
(** Source: apps/trust-api/src/server.ts:325-327 createServer *)
Definition send_result (r : ApiResult) : result api_exn HttpResponse :=
  match answer_bytes r with
  | Some bytes => sendBinary (status_of r) bytes (result_header_list r)
  | None => send (status_of r) (result_body r) (result_header_list r)
  end.

(** ** The handler of a request *)

(** The logins of the OIDC service: the URL to go to with the binding of the
    browser; the session, its token and where to return to. *)
Record Logins := mkLogins {
  login_begin : string → M (Gateway * C) api_exn (string * string);
  login_complete : string → string → string → M (Gateway * C) api_exn (string * string * string);
}.
(** The random identifiers a request may use. *)
Record Fresh := mkFresh { fresh_requestId : string; fresh_sessionId : string; fresh_csrfToken : string }.

Context (oidc : option Logins) (access : option AdminSessionGateway).
Context (clock : Gateway * C → Z) (mode : string) (commands : option (Optional → bool)) (portability : bool).
Context (run : Call → M (Gateway * C) api_exn (option json)).
(** Source: apps/trust-api/src/server.ts:161-169 route *)
Definition server_api : Api (S := Gateway * C) :=
  mkApi clock mode commands (admin_gateway <$> access) portability run.

Context (fresh : Fresh) (request : HttpRequest).
(** Source: apps/trust-api/src/server.ts:173-173 requestId *)
Definition requestId : string := default (fresh_requestId fresh) (http_header request "x-request-id").
Definition refuse (status : Z) (code message : string) : M (Gateway * C) api_exn HttpResponse :=
  lift (send status (Some (apiError code message requestId)) []).
Definition redirect (location : string) (cookies : list string) : M (Gateway * C) api_exn HttpResponse :=
  lift (writeHead 302 (securityResponseHeaders ++
    [("location", [location]); ("cache-control", ["no-store"]); ("set-cookie", cookies)]) None).

(** Source: apps/trust-api/src/server.ts:177-201 createServer *)
Definition oidc_start (search : list (string * string)) : M (Gateway * C) api_exn HttpResponse :=
  match oidc with
  | None => refuse 501 "OIDC_UNAVAILABLE" "OIDC authentication is not configured."
  | Some logins =>
      login_begin logins (default "/" (map_get "returnTo" search)) ≫= λ login,
      redirect login.1 [oidcBindingCookie login.2]
  end.
(** Source: apps/trust-api/src/server.ts:202-250 createServer *)
Definition oidc_callback (search : list (string * string)) : M (Gateway * C) api_exn HttpResponse :=
  match oidc with
  | None => refuse 501 "OIDC_UNAVAILABLE" "OIDC authentication is not configured."
  | Some logins =>
      let state := map_get "state" search in
      let code := map_get "code" search in
      let browserBinding := cookieValue (http_header request "cookie") "trust_oidc_binding" in
      match given state, given code, given browserBinding with
      | Some state, Some code, Some browserBinding =>
          login_complete logins state code browserBinding ≫= λ '(sessionId, csrfToken, returnTo),
          redirect returnTo [sessionCookie sessionId; csrfCookie csrfToken; clearOidcBindingCookie]
      | _, _, _ => refuse 400 "OIDC_CALLBACK_INVALID" "The OIDC callback is missing required state."
      end
  end.

Definition principal_text (p : PrincipalType) : string :=
  match p with principal_user => "user" | principal_service => "service" | principal_application => "application" end.
Definition actor_json (a : AuthenticatedActor) : json :=
  JObject ([("id", JString (actor_id a)); ("displayName", JString (actor_displayName a))] ++
    match actor_principalType a with Some p => [("principalType", JString (principal_text p))] | None => [] end ++
    [("roles", JArray (map JString (actor_roles a))); ("workspaceIds", JArray (map JString (actor_workspaceIds a)))])%list.
(** Source: packages/protocol/src/index.ts:811-815 AdminSession *)
Definition admin_session (s : StoredSession) : json :=
  JObject [("actor", actor_json (session_actor s)); ("csrfToken", JString (session_csrfToken s));
    ("expiresAt", JString (toISOString (session_expiresAt s)))].

(** Source: apps/trust-api/src/server.ts:251-272 createServer *)
Definition start_session : M (Gateway * C) api_exn HttpResponse :=
  let authorization := default EmptyString (http_header request "authorization") in
  match access with
  | Some this =>
      if startsWith authorization "Bearer " then
        on_gateway (createSession this (fresh_sessionId fresh) (fresh_csrfToken fresh)
          (String.substring 7 (String.length authorization - 7) authorization))
      else mret None
  | None => mret None
  end ≫= λ created,
  match created with
  | Some (sessionId, session) => lift (send 200 (Some (admin_session session)) [("set-cookie", [sessionCookie sessionId])])
  | None => refuse 401 "INVALID_CREDENTIALS" "The supplied credentials are invalid or expired."
  end.
(** Source: apps/trust-api/src/server.ts:273-302 createServer *)
Definition end_session : M (Gateway * C) api_exn HttpResponse :=
  let refused := refuse 401 "INVALID_SESSION" "The administrator session is invalid or expired." in
  match given (cookieValue (http_header request "cookie") "trust_session"), access with
  | Some sessionId, Some this =>
      on_gateway (authenticateSession this sessionId (http_header request "x-trust-csrf") true) ≫= λ valid,
      match valid with
      | Some _ =>
          on_gateway (revoke this sessionId) ≫= λ _,
          lift (send 204 None [("set-cookie", [clearSessionCookie; clearCsrfCookie])])
      | None => refused
      end
  | _, _ => refused
  end.

Definition passed_headers : list string :=
  ["authorization"; "accept"; "cookie"; "x-trust-csrf"; "x-trust-reauth"; "x-trust-workspace-id"; "x-trust-dataset-id";
   "x-trust-application-id"].
(** [query[key] = value] for every parameter; assigning a string to [__proto__]
    does nothing. *)
Definition query_of (search : list (string * string)) : list (string * string) :=
  foldl (λ acc e, if e.1 === "__proto__" then acc else map_set e.1 e.2 acc) [] search.
(** Source: apps/trust-api/src/server.ts:303-324 createServer *)
Definition api_request (body : option json) (search : list (string * string)) : ApiRequest :=
  mkRequest (("x-request-id", requestId) ::
      flat_map (λ name, match http_header request name with Some v => [(name, v)] | None => [] end) passed_headers)
    body (query_of search).

(** Source: apps/trust-api/src/server.ts:174-327 createServer *)
Definition attempt : M (Gateway * C) api_exn HttpResponse :=
  match url_parts (http_url request) with
  | None => throw (OtherThrown (Some "ERR_INVALID_URL") (Some "Invalid URL"))
  | Some (pathname, search) =>
      let method := http_method request in
      if (pathname === "/v1/auth/oidc/start") && (method === "GET") then oidc_start search
      else if (pathname === "/v1/auth/oidc/callback") && (method === "GET") then oidc_callback search
      else if (pathname === "/v1/auth/session") && (method === "POST") then start_session
      else if (pathname === "/v1/auth/session") && (method === "DELETE") then end_session
      else
        lift (readJsonBody request) ≫= λ body,
        route server_api (api_request body search) method pathname ≫= λ result,
        lift (send_result result)
  end.

Definition thrown_message (e : api_exn) : option string :=
  match e with ApiRouteError _ _ message => Some message | OtherThrown _ message => message end.
(** Source: apps/trust-api/src/server.ts:328-350 createServer *)
Definition caught (e : api_exn) : HttpResponse :=
  let tooLarge := thrown_message e === Some "request_too_large" in
  let invalidJson := thrown_message e === Some "invalid_json" in
  mkHttpResponse (if tooLarge then 413 else if invalidJson then 400 else 503) json_headers
    (Some (encode (JSON_stringify (apiError
      (if tooLarge then "REQUEST_TOO_LARGE" else if invalidJson then "INVALID_COMMAND" else "TRUST_STORE_UNAVAILABLE")
      (if tooLarge then "The request body exceeds the allowed size."
       else if invalidJson then "The request body is not valid JSON."
       else "Trust Core storage is temporarily unavailable.") requestId)))).
(** Source: apps/trust-api/src/server.ts:172-351 createServer *)
Definition serve_http (s : Gateway * C) : HttpResponse * (Gateway * C) :=
  match attempt s with
  | (Ok response, s') => (response, s')
  | (Err e, s') => (caught e, s')
  end.
End Server.
