(* ===== verification/Sdk.v ===== *)
(** * The TypeScript client

    [packages/sdk-typescript/src/client.ts] over its transport
    ([generated/transport.ts]): each method of the client is a request, with the
    workspace and the context it is bound to, and an answer read back.

    The value providers of the configuration are their values when a request is
    made, [randomUUID] and [fetch] are arguments.  Put on the server of [Server],
    with a network that may cut a body into any chunks, the client is what the
    theorems are about: every call of the client runs the command it is named for,
    with the identifiers and the body it was given, and returns what the command
    returned. *)
From S2P Require Import Prelude Js Concrete Json JsonParse Regex ArchiveSignature Policy Archive Access ApiRoutes Server.

(** ** Encoding of paths and queries *)

Definition unreserved (c : ascii) : bool := is_lower c || is_upper c || is_digit c || one_of "-_.!~*'()" c.
Definition upper_hex (n : nat) : ascii := ascii_of_nat (if Nat.ltb n 10 then 48 + n else 55 + n).
Definition percent (c : ascii) : string :=
  let n := nat_of_ascii c in String "%" (String (upper_hex (n / 16)) (String (upper_hex (n mod 16)) EmptyString)).
Fixpoint percent_all (s : string) : string :=
  match s with EmptyString => EmptyString | String c s => percent c +:+ percent_all s end.
Fixpoint encodeURIComponent `{TextCodec} (s : string) : string :=
  match s with
  | EmptyString => EmptyString
  | String c s =>
      (if unreserved c then String c EmptyString else percent_all (encode (String c EmptyString))) +:+ encodeURIComponent s
  end.

(** [URLSearchParams]: bytes of names and values, a space being a plus sign. *)
Definition form_plain (c : ascii) : bool := is_lower c || is_upper c || is_digit c || one_of "*-._" c.
Fixpoint form_bytes (s : string) : string :=
  match s with
  | EmptyString => EmptyString
  | String c s =>
      (if form_plain c then String c EmptyString else if c === " "%char then "+" else percent c) +:+ form_bytes s
  end.
Definition params_toString `{TextCodec} (params : list (string * string)) : string :=
  join "&" (map (λ p, form_bytes (encode p.1) +:+ "=" +:+ form_bytes (encode p.2)) params).

(** What a server sees of a path of components, and of a query after it. *)
Class UrlLaws `{TextCodec} `{UrlParser} := {
  url_path segments :
    Forall (λ s, s ∉ [EmptyString; "."; ".."]) segments → segments ≠ [] →
    let path := "/" +:+ join "/" (map encodeURIComponent segments) in url_parts path = Some (path, []);
  url_query segments params :
    Forall (λ s, s ∉ [EmptyString; "."; ".."]) segments → segments ≠ [] → params ≠ [] →
    let path := "/" +:+ join "/" (map encodeURIComponent segments) in
    url_parts (path +:+ "?" +:+ params_toString params) = Some (path, params);
}.

(** ** The transport *)

(** Source: packages/sdk-typescript/src/generated/transport.ts:6-14 TransportConfiguration *)
Record TransportConfiguration := mkTransport {
  baseUrl : string;
  accessToken : option string;
  config_applicationId : option string;
  config_workspaceId : option string;
  csrfToken : option string;
  credentials : option string;
}.
(** Source: packages/sdk-typescript/src/generated/transport.ts:15-20 RequestOptions *)
Record RequestOptions := mkOptions {
  option_method : option string;
  option_body : option json;
  option_headers : list (string * string);
  option_public : bool;
}.
(** An error of the API with its status, message, code, request and details; an
    [Error], [RangeError], [SyntaxError] or [TypeError]. *)
(** Source: packages/sdk-typescript/src/generated/transport.ts:22-36 TrustApiError *)
Inductive sdk_exn :=
  | TrustApiError (status : Z) (message code requestId details : option json)
  | PlainError (message : string)
  | RangeError_ (message : string)
  | SyntaxError
  | TypeError_.

Section Transport.
Context `{TextCodec} `{Utf8Text}.
Context {W : Type}.
(** [fetch(url, { method, credentials, headers, body })] *)
Context (fetch : string → string → string → list (string * string) → option string → M W sdk_exn HttpResponse).
Context (configuration : TransportConfiguration).

Definition strip_slash (s : string) : string :=
  match rev (list_ascii_of_string s) with
  | c :: r => if c === "/"%char then string_of_list_ascii (rev r) else s
  | [] => s
  end.
(** Source: packages/sdk-typescript/src/generated/transport.ts:53-58 url *)
Definition transport_url (path : string) : string :=
  strip_slash (baseUrl configuration) +:+ (if startsWith path "/" then path else "/" +:+ path).

(** Source: packages/sdk-typescript/src/generated/transport.ts:62-86 request *)
Definition transport_headers (accept : string) (options : RequestOptions) : list (string * string) :=
  let method := default "GET" (option_method options) in
  let named name value := match given value with Some v => [(name, v)] | None => [] end in
  let unless_public l := if option_public options then [] else l in
  foldl (λ acc e, map_set e.1 e.2 acc) []
    ([("accept", accept)] ++
     (match option_body options with Some _ => [("content-type", "application/json")] | None => [] end) ++
     unless_public (named "authorization" ((λ t, "Bearer " +:+ t) <$> given (accessToken configuration))) ++
     unless_public (named "x-trust-workspace-id" (config_workspaceId configuration)) ++
     unless_public (named "x-trust-application-id" (config_applicationId configuration)) ++
     (if method !== "GET" then named "x-trust-csrf" (csrfToken configuration) else []) ++
     option_headers options)%list.

Definition response_ok (response : HttpResponse) : bool := Z.leb 200 (response_status response) && Z.leb (response_status response) 299.
(** [response.json()]; [None] where it rejects. *)
Definition response_json (response : HttpResponse) : option json :=
  JSON_parse (decode_lossy (default EmptyString (response_body response))).
(** [throw new TrustApiError(status, error)]; [error.message] of null throws. *)
Definition api_error (status : Z) (error : json) : sdk_exn :=
  match error with
  | JNull => TypeError_
  | _ => let get := body_get (Some error) in TrustApiError status (get "message") (get "code") (get "requestId") (get "details")
  end.
(** Source: packages/sdk-typescript/src/generated/transport.ts:95-104 request *)
Definition error_of (response : HttpResponse) : sdk_exn :=
  api_error (response_status response)
    (default (JObject [("code", JString "TRUST_STORE_UNAVAILABLE");
       ("message", JString ("Request failed (" +:+ pretty (response_status response) +:+ ")."))]) (response_json response)).
(** What is made of an answer. *)
Definition read_response (response : HttpResponse) : result sdk_exn (option json) :=
  if negb (response_ok response) then Err (error_of response)
  else if (response_status response =? 204)%Z then Ok None
  else match response_json response with Some v => Ok (Some v) | None => Err SyntaxError end.
(** Source: packages/sdk-typescript/src/generated/transport.ts:61-107 request *)
Definition transport_request (path : string) (options : RequestOptions) : M W sdk_exn (option json) :=
  fetch (transport_url path) (default "GET" (option_method options)) (default "include" (credentials configuration))
    (transport_headers "application/json" options) (JSON_stringify <$> option_body options) ≫= λ response,
  lift (read_response response).
(** Only GET requests without a body are made. *)
(** Source: packages/sdk-typescript/src/generated/transport.ts:108-150 requestBinary *)
Definition transport_requestBinary (path : string) (options : RequestOptions) : M W sdk_exn (string * list (string * list string)) :=
  fetch (transport_url path) (default "GET" (option_method options)) (default "include" (credentials configuration))
    (transport_headers "application/vnd.trust-core.archive+zip"
       (mkOptions (option_method options) None (option_headers options) (option_public options))) None ≫= λ response,
  if negb (response_ok response) then throw (error_of response)
  else mret (default EmptyString (response_body response), response_headers response).
End Transport.

(** ** The client *)

(** Source: packages/sdk-typescript/src/client.ts:78-82 RequestContext *)
Record RequestContext := mkContext {
  context_workspaceId : option string;
  context_datasetId : option string;
  context_applicationId : option string;
}.
Definition no_context : RequestContext := mkContext None None None.

(** The methods that make one request.  A command is the list of its entries; a
    key that is not given is made from a random one. *)
(** Source: packages/sdk-typescript/src/client.ts:88-315 TrustClient *)
Inductive ClientCall :=
  | workspaces_list
  | applications_list
  | applications_register (value : list (string * json))
  | tenants_list (applicationId : string)
  | tenants_get (applicationId tenantId : string)
  | tenants_create (applicationId : string) (value : list (string * json))
  | tenants_update (applicationId tenantId : string) (value : list (string * json))
  | tenants_suspend (applicationId tenantId : string) (value : list (string * json))
  | tenants_close (applicationId tenantId : string) (value : list (string * json))
  | bindings_effective (applicationId : string) (applicationTenantId : option string)
  | bindings_rollup
  | bindings_list (applicationId : option string) (applicationTenantId : option (option string))
  | bindings_get (bindingId : string)
  | bindings_upsert (value : list (string * json))
  | bindings_delete (bindingId : string)
  | bindings_probe (bindingId : string) (value : list (string * json))
  | bindings_refreshPlan (bindingId : string) (value : list (string * json))
  | bindings_acceptPlan (bindingId : string) (value : list (string * json))
  | bindings_disable (bindingId : string)
  | bindings_rollback (bindingId : string)
  | bindings_cutoverMigrate (value : list (string * json))
  | assignments_list
  | assignments_create (value : list (string * json))
  | assignments_revoke (id : string) (idempotencyKey : option string)
  | schemas_list
  | schemas_get (key : string)
  | datasets_list (context : RequestContext)
  | datasets_get (id : string)
  | retention_list
  | retention_get (id : string)
  | retention_create (value : list (string * json))
  | retention_update (id : string) (value : list (string * json))
  | resources_list (context : RequestContext)
  | resources_get (id : string)
  | resources_delete (id : string) (value : list (string * json))
  | resources_restore (id : string) (value : list (string * json))
  | revisions_graph (id : string)
  | revisions_create (id : string) (value : list (string * json))
  | relations_list (context : RequestContext)
  | history_list (context : RequestContext)
  | audit_list (context : RequestContext)
  | verification_run_ (value : list (string * json))
  | verification_list
  | verification_get (id : string)
  | operations_get (id : string)
  | health_storage
  | health_probeStorage (tier : option string)
  | health_backup
  | uploads_get (id : string)
  | uploads_getScanStatus (id : string)
  | blobs_createDownloadGrant (objectId : string) (requestedTtlSeconds : option Z) (fileName idempotencyKey : option string)
  | objects_ingest (value : list (string * json))
  | exports_create (datasetIds : list string) (idempotencyKey : option string) (reauthenticationProof : string)
  | exports_download (id reauthenticationProof : string)
  | archives_upload (bytes : string) (idempotencyKey : option string)
  | archives_get (id : string)
  | plans_create (value : list (string * json))
  | plans_get (id : string)
  | plans_execute (id : string) (idempotencyKey : option string) (reauthenticationProof : string)
  | import_operations_get (id : string)
  | control_snapshot.

Definition MAX_UPLOAD_BYTES : nat := Z.to_nat 750000.
Definition MAX_ARCHIVE_UPLOAD_BYTES : nat := Z.to_nat 8000000.

Section Client.
Context `{TextCodec} `{Utf8Text}.
Context (configuration : TransportConfiguration) (boundContext : RequestContext) (randomUUID : string).

(** Source: packages/sdk-typescript/src/client.ts:328-341 contextHeaders *)
Definition contextHeaders (context : RequestContext) : list (string * string) :=
  let named name value := match given value with Some v => [(name, v)] | None => [] end in
  (named "x-trust-workspace-id" (over (context_workspaceId context) (context_workspaceId boundContext)) ++
   named "x-trust-dataset-id" (over (context_datasetId context) (context_datasetId boundContext)) ++
   named "x-trust-application-id" (over (context_applicationId context) (context_applicationId boundContext)))%list.
(** Source: packages/sdk-typescript/src/client.ts:342-349 workspace *)
Definition workspace : result sdk_exn string :=
  match given (over (context_workspaceId boundContext) (config_workspaceId configuration)) with
  | Some w => Ok w
  | None => Err (PlainError "A workspaceId is required for this command.")
  end.
(** Source: packages/sdk-typescript/src/client.ts:350-355 command *)
Definition command (value : list (string * json)) (workspaceId : string) : list (string * json) :=
  spread value [("workspaceId", JString workspaceId)].
(** Source: packages/sdk-typescript/src/client.ts:874-879 createIdempotencyKey *)
Definition createIdempotencyKey (prefix : string) : string := prefix +:+ "-" +:+ randomUUID.
Definition key_or (idempotencyKey : option string) (prefix : string) : string :=
  default (createIdempotencyKey prefix) idempotencyKey.

Definition get_ (path : string) : result sdk_exn (string * RequestOptions) :=
  Ok (path, mkOptions None None (contextHeaders no_context) false).
Definition get_in (context : RequestContext) (path : string) : result sdk_exn (string * RequestOptions) :=
  Ok (path, mkOptions None None (contextHeaders context) false).
(** A request with a body that names the workspace. *)
Definition with_body (method path : string) (extra : list (string * string)) (body : string → list (string * json)) :
    result sdk_exn (string * RequestOptions) :=
  workspace ≫= λ w, Ok (path, mkOptions (Some method) (Some (JObject (body w))) (contextHeaders no_context ++ extra)%list false).
Definition post (path : string) (value : list (string * json)) : result sdk_exn (string * RequestOptions) :=
  with_body "POST" path [] (command value).

Abbreviation enc := encodeURIComponent.
(** Source: packages/sdk-typescript/src/client.ts:357-418 createClient *)
Definition application_requests (c : ClientCall) : option (result sdk_exn (string * RequestOptions)) :=
  let tenant a t := "/v1/applications/" +:+ enc a +:+ "/tenants/" +:+ enc t in
  match c with
  | workspaces_list => Some (get_ "/v1/workspaces")
  | applications_list => Some (get_ "/v1/applications")
  | applications_register value => Some (post "/v1/applications" value)
  | tenants_list a => Some (get_ ("/v1/applications/" +:+ enc a +:+ "/tenants"))
  | tenants_get a t => Some (get_ (tenant a t))
  | tenants_create a value => Some (post ("/v1/applications/" +:+ enc a +:+ "/tenants") value)
  | tenants_update a t value => Some (with_body "PUT" (tenant a t) [] (command value))
  | tenants_suspend a t value => Some (post (tenant a t +:+ "/suspend") value)
  | tenants_close a t value => Some (post (tenant a t +:+ "/close") value)
  | _ => None
  end.

Definition binding_params (applicationId : option string) (applicationTenantId : option (option string)) : list (string * string) :=
  (match given applicationId with Some a => [("applicationId", a)] | None => [] end ++
   match applicationTenantId with
   | Some None => [("applicationTenantId", "null")]
   | Some (Some t) => match given (Some t) with Some t => [("applicationTenantId", t)] | None => [] end
   | None => []
   end)%list.
(** Source: packages/sdk-typescript/src/client.ts:419-514 createClient *)
Definition binding_requests (c : ClientCall) : option (result sdk_exn (string * RequestOptions)) :=
  let binding b := "/v1/storage/bindings/" +:+ enc b in
  match c with
  | bindings_effective a t => Some (get_
      match given t with
      | Some t => "/v1/applications/" +:+ enc a +:+ "/tenants/" +:+ enc t +:+ "/storage"
      | None => "/v1/applications/" +:+ enc a +:+ "/storage"
      end)
  | bindings_rollup => Some (get_ "/v1/storage/bindings/rollup")
  | bindings_list a t => Some (get_ ("/v1/storage/bindings" +:+
      match binding_params a t with [] => EmptyString | params => "?" +:+ params_toString params end))
  | bindings_get b => Some (get_ (binding b))
  | bindings_upsert value => Some (post "/v1/storage/bindings" value)
  | bindings_delete b => Some (Ok (binding b, mkOptions (Some "DELETE") None (contextHeaders no_context) false))
  | bindings_probe b value => Some (post (binding b +:+ "/probe") value)
  | bindings_refreshPlan b value => Some (post (binding b +:+ "/plan/refresh") value)
  | bindings_acceptPlan b value => Some (post (binding b +:+ "/plan/accept") value)
  | bindings_disable b => Some (post (binding b +:+ "/disable") [])
  | bindings_rollback b => Some (post (binding b +:+ "/rollback") [])
  | bindings_cutoverMigrate value => Some (post "/v1/storage/bindings/migrate/cutover" value)
  | _ => None
  end.

(** Source: packages/sdk-typescript/src/client.ts:515-573 createClient *)
Definition governance_requests (c : ClientCall) : option (result sdk_exn (string * RequestOptions)) :=
  match c with
  | assignments_list => Some (get_ "/v1/policy-assignments")
  | assignments_create value => Some (post "/v1/policy-assignments" value)
  | assignments_revoke id key => Some (with_body "DELETE" ("/v1/policy-assignments/" +:+ enc id) []
      (command [("idempotencyKey", JString (key_or key "revoke-policy"))]))
  | schemas_list => Some (get_ "/v1/schemas")
  | schemas_get key => Some (get_ ("/v1/schemas/" +:+ enc key))
  | datasets_list context => Some (get_in context "/v1/datasets")
  | datasets_get id => Some (get_ ("/v1/datasets/" +:+ enc id))
  | retention_list => Some (get_ "/v1/retention-policies")
  | retention_get id => Some (get_ ("/v1/retention-policies/" +:+ enc id))
  | retention_create value => Some (post "/v1/retention-policies" value)
  | retention_update id value => Some (with_body "PUT" ("/v1/retention-policies/" +:+ enc id) [] (command value))
  | _ => None
  end.

(** Source: packages/sdk-typescript/src/client.ts:574-649 createClient *)
Definition resource_requests (c : ClientCall) : option (result sdk_exn (string * RequestOptions)) :=
  let resource id := "/v1/resources/" +:+ enc id in
  match c with
  | resources_list context => Some (get_in context "/v1/resources")
  | resources_get id => Some (get_ (resource id))
  | resources_delete id value => Some (post (resource id +:+ "/delete") value)
  | resources_restore id value => Some (post (resource id +:+ "/restore") value)
  | revisions_graph id => Some (get_ (resource id +:+ "/revision-graph"))
  | revisions_create id value => Some (post (resource id +:+ "/revisions") value)
  | relations_list context => Some (get_in context "/v1/relations")
  | history_list context => Some (get_in context "/v1/history")
  | audit_list context => Some (get_in context "/v1/audit/events")
  | verification_run_ value => Some (post "/v1/verification/runs" value)
  | verification_list => Some (get_ "/v1/verification/reports")
  | verification_get id => Some (get_ ("/v1/verification/reports/" +:+ enc id))
  | operations_get id => Some (get_ ("/v1/operations/" +:+ enc id))
  | _ => None
  end.

(** Source: packages/sdk-typescript/src/client.ts:650-700 createClient *)
Definition object_requests (c : ClientCall) : option (result sdk_exn (string * RequestOptions)) :=
  match c with
  | health_storage => Some (get_ "/v1/health/storage")
  | health_probeStorage tier => Some (with_body "POST" "/v1/health/storage/probe" [] (λ w,
      [("workspaceId", JString w)] ++ match given tier with Some t => [("tier", JString t)] | None => [] end)%list)
  | health_backup => Some (get_ "/v1/health/backup")
  | uploads_get id => Some (get_ ("/v1/uploads/" +:+ enc id))
  | uploads_getScanStatus id => Some (get_ ("/v1/uploads/" +:+ enc id +:+ "/scan-status"))
  | blobs_createDownloadGrant objectId ttl fileName key => Some (with_body "POST" "/v1/blobs/download-grants" [] (λ w,
      [("workspaceId", JString w); ("objectId", JString objectId); ("requestedTtlSeconds", JNumber (default 60%Z ttl))] ++
      match given fileName with Some f => [("fileName", JString f)] | None => [] end ++
      [("idempotencyKey", JString (key_or key "download-grant"))])%list)
  | objects_ingest value => Some (post "/v1/objects/ingest" value)
  | _ => None
  end.

(** Source: packages/sdk-typescript/src/client.ts:701-819 createClient *)
Definition portability_requests (c : ClientCall) : option (result sdk_exn (string * RequestOptions)) :=
  match c with
  | exports_create datasetIds key proof => Some (with_body "POST" "/v1/portability/exports" [("x-trust-reauth", proof)] (λ w,
      [("workspaceId", JString w); ("datasetIds", JArray (map JString datasetIds)); ("idempotencyKey", JString (key_or key "export"))]))
  | exports_download id proof => Some (Ok ("/v1/portability/exports/" +:+ enc id +:+ "/download",
      mkOptions None None (contextHeaders no_context ++ [("x-trust-reauth", proof)])%list false))
  | archives_upload bytes key => Some (
      throw_if (Nat.ltb MAX_ARCHIVE_UPLOAD_BYTES (String.length bytes))
        (RangeError_ "Archive exceeds the 8000000 byte SDK candidate limit.") ≫= λ _,
      with_body "POST" "/v1/portability/archives" [] (λ w,
        [("workspaceId", JString w); ("idempotencyKey", JString (key_or key "archive")); ("archiveBase64", JString (toBase64 bytes))]))
  | archives_get id => Some (get_ ("/v1/portability/archives/" +:+ enc id))
  | plans_create value => Some (post "/v1/portability/plans" value)
  | plans_get id => Some (get_ ("/v1/portability/plans/" +:+ enc id))
  | plans_execute id key proof => Some (with_body "POST" ("/v1/portability/plans/" +:+ enc id +:+ "/execute") [("x-trust-reauth", proof)] (λ w,
      [("workspaceId", JString w); ("idempotencyKey", JString (key_or key "import")); ("confirmation", JString "IMPORT")]))
  | import_operations_get id => Some (get_ ("/v1/portability/operations/" +:+ enc id))
  | control_snapshot => Some (get_ "/v1/control-centre/snapshot")
  | _ => None
  end.

(** The request of a call. *)
Definition request_of (c : ClientCall) : result sdk_exn (string * RequestOptions) :=
  match application_requests c, binding_requests c, governance_requests c, resource_requests c, object_requests c, portability_requests c with
  | Some r, _, _, _, _, _ | _, Some r, _, _, _, _ | _, _, Some r, _, _, _ | _, _, _, Some r, _, _ | _, _, _, _, Some r, _
  | _, _, _, _, _, Some r => r
  | _, _, _, _, _, _ => Err TypeError_
  end.
End Client.

(** ** The methods *)

(** Source: packages/sdk-typescript/src/client.ts:65-70 UploadInput *)
Record UploadInput := mkUploadInput {
  upload_bytes : string;
  upload_mediaType : string;
  upload_idempotencyKey : option string;
  upload_expiresInSeconds : option Z;
}.
(** Source: packages/sdk-typescript/src/client.ts:71-77 ArchiveBinaryDownload *)
Record ArchiveBinaryDownload := mkBinaryDownload {
  binary_id : string;
  binary_filename : string;
  binary_bytes : string;
  binary_sha256 : option string;
}.

(** The text up to a quotation mark that is there. *)
Fixpoint until_quote (s : string) : option string :=
  match s with
  | EmptyString => None
  | String c s => if c === QUOTE then Some EmptyString else String c <$> until_quote s
  end.
(** The first name in quotation marks after [filename=], whatever the case of the word. *)
Fixpoint first_filename (s : string) : option string :=
  let word := "filename=" +:+ String QUOTE EmptyString in
  match (if String.prefix word (toLowerCase s)
         then until_quote (String.substring (String.length word) (String.length s - String.length word) s) ≫= λ t, given (Some t)
         else None), s with
  | Some name, _ => Some name
  | None, String _ s => first_filename s
  | None, EmptyString => None
  end.
(** Source: packages/sdk-typescript/src/client.ts:907-910 dispositionFilename *)
Definition dispositionFilename (value : option string) : option string := value ≫= first_filename.

Section Methods.
Context `{TextCodec} `{Utf8Text} `{Crypto}.
Context {W : Type}.
Context (fetch : string → string → string → list (string * string) → option string → M W sdk_exn HttpResponse).
Context (configuration : TransportConfiguration) (boundContext : RequestContext) (randomUUID : string).
Abbreviation send_ := (transport_request fetch configuration).

(** Source: packages/sdk-typescript/src/client.ts:323-356 createClient *)
Definition client_call (c : ClientCall) : M W sdk_exn (option json) :=
  lift (request_of configuration boundContext randomUUID c) ≫= λ '(path, options), send_ path options.

(** Source: packages/sdk-typescript/src/client.ts:651-651 health *)
Definition health_get : M W sdk_exn (option json) := send_ "/health" (mkOptions None None [] true).

(** Source: packages/sdk-typescript/src/client.ts:869-869 upload *)
Definition completion_body (workspaceId bytes : string) : json :=
  JObject [("workspaceId", JString workspaceId); ("bytesBase64", JString (toBase64 bytes))].
(** Source: packages/sdk-typescript/src/client.ts:838-872 upload *)
Definition upload (headers : list (string * string)) (workspaceId : string) (input : UploadInput) : M W sdk_exn (option json) :=
  throw_when (Nat.ltb MAX_UPLOAD_BYTES (String.length (upload_bytes input)))
    (RangeError_ "Upload exceeds the 750000 byte SDK limit.") ≫= λ _,
  send_ "/v1/uploads" (mkOptions (Some "POST") (Some (JObject (
    [("workspaceId", JString workspaceId); ("idempotencyKey", JString (key_or randomUUID (upload_idempotencyKey input) "upload"));
     ("mediaType", JString (upload_mediaType input)); ("expectedByteLength", JNumber (Z.of_nat (String.length (upload_bytes input))));
     ("expectedSha256", JString (sha256 (upload_bytes input)))] ++
    match upload_expiresInSeconds input with Some n => [("expiresInSeconds", JNumber n)] | None => [] end)%list)) headers false) ≫= λ created,
  match created with
  | None | Some JNull => throw TypeError_
  | Some _ =>
      send_ ("/v1/uploads/" +:+ encodeURIComponent (js_String (body_get created "id")) +:+ "/complete")
        (mkOptions (Some "POST") (Some (completion_body workspaceId (upload_bytes input))) headers false)
  end.
(** Source: packages/sdk-typescript/src/client.ts:667-668 uploads *)
Definition uploads_create (input : UploadInput) : M W sdk_exn (option json) :=
  lift (workspace configuration boundContext) ≫= λ w, upload (contextHeaders boundContext no_context) w input.

(** Source: packages/sdk-typescript/src/client.ts:727-751 downloadBytes *)
Definition downloadBytes (id reauthenticationProof : string) : M W sdk_exn ArchiveBinaryDownload :=
  transport_requestBinary fetch configuration ("/v1/portability/exports/" +:+ encodeURIComponent id +:+ "/download")
    (mkOptions None None (contextHeaders boundContext no_context ++ [("x-trust-reauth", reauthenticationProof)])%list false) ≫= λ response,
  let get name := join ", " <$> map_get name response.2 in
  mret (mkBinaryDownload id (default (id +:+ ".trustarchive") (dispositionFilename (get "content-disposition"))) response.1
    (given (get "x-trust-archive-sha256"))).

(** Source: packages/sdk-typescript/src/client.ts:821-824 oidcUrl *)
Definition oidcUrl (returnTo : option string) : string :=
  transport_url configuration ("/v1/auth/oidc/start?returnTo=" +:+ encodeURIComponent (default "/" returnTo)).
(** Source: packages/sdk-typescript/src/client.ts:825-830 startSession *)
Definition startSession (token : string) : M W sdk_exn (option json) :=
  send_ "/v1/auth/session" (mkOptions (Some "POST") None [("authorization", "Bearer " +:+ token)] true).
(** Source: packages/sdk-typescript/src/client.ts:831-832 endSession *)
Definition endSession : M W sdk_exn (option json) := send_ "/v1/auth/session" (mkOptions (Some "DELETE") None [] false).
End Methods.

(** ** The client on the server *)

(** The network: [fetch] trims header values and refuses line ends in them, adds
    the cookies of the browser and sends the request to the server of its origin,
    the body in chunks. *)
Section Network.
Context `{JsDate} `{TextCodec} `{Utf8Text} `{UrlParser}.
Context {C : Type}.
Context (origin : string) (cookie : option string) (chunk : string → list string).
Context (server : HttpRequest → Gateway * C → HttpResponse * (Gateway * C)).

Definition is_http_space (c : ascii) : bool := bool_decide (nat_of_ascii c ∈ [9; 10; 13; 32]).
Definition trim_header (v : string) : string :=
  string_of_list_ascii (rev (drop_while is_http_space (rev (drop_while is_http_space (list_ascii_of_string v))))).
Definition bad_header_char (c : ascii) : bool := bool_decide (nat_of_ascii c ∈ [0; 10; 13]).
Definition network_fetch (url method _credentials : string) (headers : list (string * string)) (body : option string) :
    M (Gateway * C) sdk_exn HttpResponse :=
  let headers := map (λ e, (e.1, trim_header e.2)) headers in
  if negb (startsWith url origin) || existsb (λ e, existsb bad_header_char (list_ascii_of_string e.2)) headers then throw TypeError_
  else λ s,
    let target := String.substring (String.length origin) (String.length url - String.length origin) url in
    let '(response, s') := server (mkHttpRequest method target
      (map (λ e, (e.1, inl e.2)) headers ++ match cookie with Some c => [("cookie", inl c)] | None => [] end)%list
      (match body with Some text => chunk (encode text) | None => [] end)) s in
    (Ok response, s').
End Network.
