(* ===== verification/SdkServer.v ===== *)
(** * The client on the server

    The client of [Sdk] with the server of [Server] behind its [fetch]: what is
    encoded is decoded, every call is routed to the command it is named for, and
    answers come back as they were given.  The methods of the client, the routing
    table of the API and the handling of the wire were written apart; the theorem
    is that they agree. *)
From S2P Require Import Prelude Js Concrete Json JsonParse Regex ArchiveSignature Policy Archive ArchiveRoundTrip Access ApiRoutes Server Sdk.

(** ** Components of a path *)

Lemma upper_hex_value n : n < 16 → hex_value (upper_hex n) = Some n.
Proof. intros Hn. do 16 (destruct n as [|n]; [reflexivity|]). lia. Qed.
Lemma percent_spec c r : ∃ a b, percent c +:+ r = String "%" (String a (String b r)) ∧
  ∃ x y, hex_value a = Some x ∧ hex_value b = Some y ∧ ascii_of_nat (16 * x + y) = c.
Proof.
  unfold percent. eexists _, _. split; [reflexivity|]. exists (nat_of_ascii c / 16), (nat_of_ascii c mod 16).
  assert (nat_of_ascii c < 256) by apply nat_ascii_bounded.
  split_and!; [apply upper_hex_value, Nat.Div0.div_lt_upper_bound; lia|apply upper_hex_value, Nat.mod_upper_bound; lia|].
  rewrite <- Nat.div_mod_eq. apply ascii_nat_embedding.
Qed.

Section Components.
Context `{TextCodecLaws} `{!Utf8Text, !Utf8TextLaws}.

Lemma encode_nil : encode EmptyString = EmptyString.
Proof. apply encode_ascii. by intros c ?%elem_of_nil. Qed.
Lemma decode_run_encode t : decode_run (encode t) = Some t.
Proof.
  unfold decode_run. case_bool_decide as E; [|apply decode_encode]. pose proof (decode_encode t) as Ht.
  rewrite E, <- encode_nil, decode_encode in Ht. done.
Qed.
Lemma decode_percent_all run bs r : decode_escapes run (percent_all bs +:+ r) = decode_escapes (run +:+ bs) r.
Proof.
  revert run. induction bs as [|c bs IH]; intros run; [by rewrite string_app_nil_r|]. cbn [percent_all].
  rewrite <- string_app_assoc. destruct (percent_spec c (percent_all bs +:+ r)) as (a & b & -> & x & y & Ha & Hb & Hc).
  cbn [decode_escapes]. rewrite strict_eq_refl, Ha, Hb, Hc, IH. f_equal. by rewrite <- string_app_assoc.
Qed.
Definition ends_component (r : string) : Prop := r = EmptyString ∨ ∃ r', r = String "/" r'.
Lemma decode_escapes_enc t s r : ends_component r →
  decode_escapes (encode t) (encodeURIComponent s +:+ r) = (λ u, t +:+ (s +:+ u)) <$> decodeURIComponent r.
Proof.
  intros Hr. revert t. induction s as [|c s IH]; intros t; cbn [encodeURIComponent].
  - unfold decodeURIComponent. destruct Hr as [->|[r' ->]].
    + change (EmptyString +:+ EmptyString) with EmptyString. cbn [decode_escapes]. rewrite decode_run_encode. unfold decode_run. rewrite strict_eq_refl. cbn. by rewrite string_app_nil_r.
    + change (EmptyString +:+ String "/" r') with (String "/" r'). cbn [decode_escapes]. rewrite decode_run_encode. unfold decode_run.
      rewrite (bool_decide_eq_false_2 ("/"%char = "%"%char)), strict_eq_refl by done. cbn [mbind option_bind].
      by destruct (decode_escapes EmptyString r').
  - destruct (unreserved c) eqn:E; rewrite <- string_app_assoc.
    + change (String c EmptyString +:+ (encodeURIComponent s +:+ r)) with (String c (encodeURIComponent s +:+ r)). cbn [decode_escapes].
      rewrite bool_decide_eq_false_2 by (by intros ->). rewrite decode_run_encode. cbn [mbind option_bind].
      rewrite <- encode_nil at 1. rewrite IH. by destruct (decodeURIComponent r).
    + rewrite decode_percent_all, <- encode_app, IH. destruct (decodeURIComponent r); [|done]. cbn. by rewrite <- !string_app_assoc.
Qed.
(** What is encoded is decoded. *)
Lemma decodeURIComponent_encode s : decodeURIComponent (encodeURIComponent s) = Some s.
Proof.
  pose proof (decode_escapes_enc EmptyString s EmptyString (or_introl eq_refl)) as Hd. rewrite encode_nil, string_app_nil_r in Hd.
  unfold decodeURIComponent at 1. rewrite Hd. unfold decodeURIComponent, decode_escapes, decode_run. rewrite strict_eq_refl.
  cbn. by rewrite string_app_nil_r.
Qed.
Lemma encodeURIComponent_inj s t : encodeURIComponent s = encodeURIComponent t → s = t.
Proof. intros E. apply (f_equal decodeURIComponent) in E. rewrite !decodeURIComponent_encode in E. by injection E. Qed.
Lemma decode_components segments :
  segments ≠ [] → decodeURIComponent (join "/" (map encodeURIComponent segments)) = Some (join "/" segments).
Proof.
  induction segments as [|s [|t segments] IH]; intros Hne; [done|apply decodeURIComponent_encode|].
  change (join "/" (map encodeURIComponent (s :: t :: segments)))
    with (encodeURIComponent s +:+ String "/" (join "/" (map encodeURIComponent (t :: segments)))).
  pose proof (decode_escapes_enc EmptyString s _ (or_intror (ex_intro _ (join "/" (map encodeURIComponent (t :: segments))) eq_refl))) as Hd.
  rewrite encode_nil in Hd. unfold decodeURIComponent at 1. rewrite Hd. unfold decodeURIComponent at 1. cbn [decode_escapes].
  rewrite (bool_decide_eq_false_2 ("/"%char = "%"%char)) by done. fold decodeURIComponent. unfold decode_run. rewrite strict_eq_refl.
  cbn [mbind option_bind]. unfold decodeURIComponent in IH. by rewrite IH.
Qed.

(** No slash, question mark or line end is left in a component. *)
Lemma upper_hex_not n c : n < 16 → upper_hex n = c → is_upper c || is_digit c = true.
Proof. intros Hn <-. do 16 (destruct n as [|n]; [reflexivity|]). lia. Qed.
Lemma percent_all_chars bs c : c ∈ list_ascii_of_string (percent_all bs) → c = "%"%char ∨ is_upper c || is_digit c = true.
Proof.
  induction bs as [|b bs IH]; [by intros ?%elem_of_nil|]. cbn [percent_all]. unfold percent.
  assert (nat_of_ascii b < 256) by apply nat_ascii_bounded.
  intros [->|[->|[->|Hc]%elem_of_cons]%elem_of_cons]%elem_of_cons; [by left|right..|by apply IH].
  - eapply upper_hex_not; [|reflexivity]. apply Nat.Div0.div_lt_upper_bound. lia.
  - eapply upper_hex_not; [|reflexivity]. apply Nat.mod_upper_bound. lia.
Qed.
Lemma list_ascii_of_app a b : list_ascii_of_string (a +:+ b) = (list_ascii_of_string a ++ list_ascii_of_string b)%list.
Proof. induction a as [|c a IH]; [done|]. exact (f_equal (cons c) IH). Qed.
Lemma component_chars s c : c ∈ list_ascii_of_string (encodeURIComponent s) → c = "%"%char ∨ unreserved c = true.
Proof.
  induction s as [|a s IH]; cbn [encodeURIComponent]; [by intros ?%elem_of_nil|]. rewrite list_ascii_of_app.
  intros [Hc|Hc]%elem_of_app; [|by apply IH]. destruct (unreserved a) eqn:E.
  - apply elem_of_cons in Hc as [->|Hc]; [by right|by apply elem_of_nil in Hc].
  - apply percent_all_chars in Hc as [->|Hc]; [by left|]. right. unfold unreserved.
    apply orb_true_iff in Hc as [->| ->]; by rewrite ?orb_true_r.
Qed.
End Components.

(** ** Paths *)

Lemma substring_after p s : String.substring (String.length p) (String.length (p +:+ s) - String.length p) (p +:+ s) = s.
Proof.
  pose proof (startsWith_split p (p +:+ s) (prefix_app p s)) as E. revert E. generalize (String.substring (String.length p) (String.length (p +:+ s) - String.length p) (p +:+ s)).
  intros t. induction p as [|c p IH]; [done|]. by intros [= ?%IH].
Qed.

Section Paths.
Context `{TextCodecLaws} `{!Utf8Text, !Utf8TextLaws}.
Abbreviation enc := encodeURIComponent.

Lemma no_slash s : forallb (λ x, x !== "/"%char) (chars (enc s)) = true.
Proof. apply forallb_forall. intros c [->|Hc]%list_elem_of_In%component_chars; [done|]. case_bool_decide as E; [by subst|done]. Qed.
(** The path of some components. *)
Definition path_of (segments : list string) : string := "/" +:+ join "/" (map enc segments).
Lemma split_components segments : segments ≠ [] → split "/" (join "/" (map enc segments)) = map enc segments.
Proof.
  induction segments as [|s [|t segments] IH]; intros Hne; [done|by apply split_none, no_slash|].
  change (join "/" (map enc (s :: t :: segments))) with (enc s +:+ String "/" (join "/" (map enc (t :: segments)))).
  rewrite split_app by apply no_slash. by rewrite IH.
Qed.
Lemma split_path segments : segments ≠ [] → split "/" (path_of segments) = EmptyString :: map enc segments.
Proof. intros Hne. unfold path_of. change ("/" +:+ ?r) with (EmptyString +:+ String "/" r). by rewrite split_app, split_components. Qed.

Lemma enc_nonempty s : s ≠ EmptyString → (enc s === EmptyString) = false.
Proof. intros Hs. apply bool_decide_eq_false_2. intros E. apply Hs, encodeURIComponent_inj. by rewrite E. Qed.

(** A pattern of plain segments is matched against the components themselves. *)
Lemma match_components template segments :
  Forall (λ t, enc t = t) template → Forall (λ s, s ≠ EmptyString) segments →
  match_segments template (map enc segments) = map enc <$> match_segments template segments.
Proof.
  intros Ht. revert segments. induction Ht as [|t template Ht _ IH]; intros [|s segments] Hs; try done.
  apply Forall_cons in Hs as [Hs Hss]. cbn [match_segments map].
  destruct (decide (t = "*")) as [->|Hne].
  - rewrite !strict_eq_refl, enc_nonempty by done. rewrite (bool_decide_eq_false_2 (s = EmptyString)) by done.
    rewrite IH by done. by destruct (match_segments template segments).
  - rewrite !(bool_decide_eq_false_2 (t = "*")) by done. rewrite IH by done.
    destruct (decide (t = s)) as [->|Hts]; [by rewrite Ht, !strict_eq_refl|].
    rewrite !bool_decide_eq_false_2; [done|done|]. intros E. apply Hts, encodeURIComponent_inj. by rewrite Ht.
Qed.
End Paths.

(** ** Routes, found symbolically *)

(** A component that a request writes out, or one that it is given. *)
Inductive component := Lit (s : string) | Given (s : string).
Definition text (c : component) : string := match c with Lit s | Given s => s end.

(** Whether a template matches whatever the given components are; [None] where
    that depends on them. *)
Fixpoint verdict (template : list string) (cs : list component) : option bool :=
  match template, cs with
  | [], [] => Some true
  | t :: template, c :: cs =>
      match verdict template cs with
      | Some false => Some false
      | v => if t === "*" then v else match c with Lit s => if t === s then v else Some false | Given _ => None end
      end
  | _, _ => Some false
  end.
Fixpoint captured (template : list string) (cs : list component) : list string :=
  match template, cs with
  | t :: template, c :: cs => if t === "*" then text c :: captured template cs else captured template cs
  | _, _ => []
  end.
Lemma verdict_sound template cs b :
  Forall (λ c, text c ≠ EmptyString) cs → verdict template cs = Some b →
  match_segments template (map text cs) = if b then Some (captured template cs) else None.
Proof.
  intros Hcs. revert template b. induction Hcs as [|c cs Hc _ IH]; intros [|t template] b; cbn [verdict match_segments captured map]; try (by intros [= <-]).
  destruct (verdict template cs) as [[]|] eqn:E; try (apply IH in E; rewrite E).
  - destruct (t === "*"); [intros [= <-]; by rewrite bool_decide_eq_false_2|].
    destruct c as [s|s]; [|done]. cbn [text]. destruct (t === s); by intros [= <-].
  - intros [= <-]. by destruct (t === "*"), (text c === EmptyString), (t === text c).
  - destruct (t === "*"); [done|]. destruct c as [s|s]; [|done]. destruct (t === s) eqn:Ets; [done|]. intros [= <-]. cbn [text]. by rewrite Ets.
Qed.

Lemma match_exact template path : "*" ∉ template → is_Some (match_segments template path) ↔ template = path.
Proof.
  revert path. induction template as [|t template IH]; intros [|p path] Hs; cbn; try (split; [by intros []|done]).
  apply not_elem_of_cons in Hs as [Ht Hs]. rewrite bool_decide_eq_false_2 by done. case_bool_decide as E.
  - subst. rewrite IH by done. naive_solver.
  - split; [by intros []|]. by intros [= -> ->].
Qed.
Lemma join_split c s : join (String c EmptyString) (split c s) = s.
Proof.
  induction s as [|a s IH]; [done|]. cbn [split]. case_bool_decide as E.
  - subst. destruct (split c s) as [|p ps] eqn:Es; [by destruct s; cbn in Es; repeat case_match|]. rewrite <- IH. done.
  - destruct (split c s) as [|p ps] eqn:Es; [by destruct s; cbn in Es; repeat case_match|]. rewrite <- IH. by destruct ps.
Qed.

Section Select.
Context `{TextCodecLaws} `{!Utf8Text, !Utf8TextLaws}.
Abbreviation enc := encodeURIComponent.

Definition SCHEMAS : string := "/v1/schemas/".
Definition path_text (p : Path) : string := match p with Exact q | Matched (Segments q | Rest q) | Parts q => q end.
Definition path_template (p : Path) : list string := tl (split "/" (path_text p)).
Definition path_verdict (p : Path) (cs : list component) : option bool :=
  match p with
  | Matched (Rest _) =>
      match cs with
      | Lit a :: Lit b :: rest =>
          if (a === "v1") && (b === "schemas") then match rest with [] => Some false | [_] => Some true | _ => None end else Some false
      | _ => None
      end
  | _ => verdict (path_template p) cs
  end.
Definition path_captures (p : Path) (cs : list component) : list string :=
  match p with Matched (Rest _) => map text (drop 2 cs) | _ => captured (path_template p) cs end.
Definition path_arguments (p : Path) (captures : list string) : string * string :=
  match p, captures with
  | Matched _, a :: _ => (a, EmptyString)
  | Parts _, [a; b] => (enc a, enc b)
  | _, _ => (EmptyString, EmptyString)
  end.

(** The paths of a table: absolute, of segments that are not encoded, with as
    many captures as their kind has. *)
Definition stars (template : list string) : nat := length (List.filter (λ t, t === "*") template).
Definition plain_path (p : Path) : Prop :=
  match p with
  | Matched (Rest q) => q = SCHEMAS
  | _ => head (split "/" (path_text p)) = Some EmptyString ∧ Forall (λ t, enc t = t) (path_template p) ∧
      stars (path_template p) = match p with Exact _ => 0 | Matched _ => 1 | Parts _ => 2 end
  end.

Lemma plain_component s : forallb unreserved (list_ascii_of_string s) = true → enc s = s.
Proof.
  induction s as [|c s IH]; [done|]. cbn [list_ascii_of_string forallb encodeURIComponent]. intros [-> Hs]%andb_true_iff. by rewrite IH.
Qed.
Definition plain_pathb (p : Path) : bool :=
  match p with
  | Matched (Rest q) => q === SCHEMAS
  | _ => (head (split "/" (path_text p)) === Some EmptyString) &&
      forallb (λ t, forallb unreserved (list_ascii_of_string t)) (path_template p) &&
      Nat.eqb (stars (path_template p)) match p with Exact _ => 0 | Matched _ => 1 | Parts _ => 2 end
  end.
Lemma plain_pathb_sound p : plain_pathb p = true → plain_path p.
Proof.
  destruct p as [q|[q|q]|q]; cbn [plain_pathb plain_path]; try (by intros ?%bool_decide_eq_true);
    intros [[Hh%bool_decide_eq_true Hf]%andb_true_iff Hs%Nat.eqb_eq]%andb_true_iff; split_and!; try done;
    apply Forall_forall; intros t Ht; apply plain_component; by apply (proj1 (forallb_forall _ _) Hf), list_elem_of_In.
Qed.

Lemma captured_length template cs : verdict template cs = Some true → length (captured template cs) = stars template.
Proof.
  unfold stars. revert cs. induction template as [|t template IH]; intros [|c cs]; cbn; try done.
  destruct (verdict template cs) as [[]|] eqn:E; try done; [|by destruct (t === "*"), c; cbn; try destruct (t === s)].
  destruct (t === "*") eqn:Et; cbn; [intros _; by rewrite IH|]. intros _. by apply IH.
Qed.
Lemma captured_nonempty template cs : Forall (λ c, text c ≠ EmptyString) cs → Forall (λ s, s ≠ EmptyString) (captured template cs).
Proof. intros Hcs. revert template. induction Hcs as [|c cs Hc _ IH]; intros [|t template]; cbn; try constructor. destruct (t === "*"); [constructor|]; auto. Qed.
Lemma no_star template : stars template = 0 → "*" ∉ template.
Proof.
  unfold stars. induction template as [|t template IH]; cbn; [intros _; apply not_elem_of_nil|]. case_bool_decide; [done|].
  intros Hs. apply not_elem_of_cons. split; [congruence|by apply IH].
Qed.

Lemma nonempty_captures template segments captures :
  Forall (λ s, s ≠ EmptyString) segments → match_segments template segments = Some captures → Forall (λ s, s ≠ EmptyString) captures.
Proof.
  intros Hs. revert template captures. induction Hs as [|s segments Hs _ IH]; intros [|t template] captures; cbn; try done; [by intros [= <-]|].
  rewrite (bool_decide_eq_false_2 (s = EmptyString)) by done. destruct (t === "*"); [|destruct (t === s); [apply IH|done]].
  destruct (match_segments template segments) as [l|] eqn:E; [|done]. intros [= <-]. constructor; [done|by eapply IH].
Qed.

Context (cs : list component).
Context (Hne : cs ≠ []) (Hcs : Forall (λ c, text c ≠ EmptyString) cs).
Abbreviation path := (path_of (map text cs)).

Lemma path_split : split "/" path = EmptyString :: map enc (map text cs).
Proof. apply split_path. by destruct cs. Qed.
Lemma nonempty_segments : Forall (λ s, s ≠ EmptyString) (map text cs).
Proof. by apply Forall_map. Qed.

(** What a plain template captures of the path. *)
Lemma captures_template q :
  head (split "/" q) = Some EmptyString → Forall (λ t, enc t = t) (tl (split "/" q)) →
  captures (Segments q) path = map enc <$> match_segments (tl (split "/" q)) (map text cs).
Proof.
  intros Hh Hp. unfold captures. rewrite path_split. destruct (split "/" q) as [|h T]; [done|]. injection Hh as ->.
  cbn [match_segments tl]. rewrite (bool_decide_eq_false_2 (EmptyString = "*")), strict_eq_refl by done.
  apply match_components; [done|apply nonempty_segments].
Qed.
Lemma exact_path q : head (split "/" q) = Some EmptyString → Forall (λ t, enc t = t) (tl (split "/" q)) →
  path = q ↔ tl (split "/" q) = map text cs.
Proof.
  intros Hh Hp. split.
  - intros E. pose proof path_split as Hs. rewrite E in Hs. rewrite Hs in *. cbn in *.
    assert (∀ xs, Forall (λ t, enc t = t) (map enc xs) → map enc xs = xs) as Hfix; [|by apply Hfix].
    induction xs as [|x xs IH]; [done|]. cbn. intros [Hx Hxs]%Forall_cons. apply encodeURIComponent_inj in Hx. by rewrite IH, Hx.
  - intros E. rewrite E in Hp. rewrite <- (join_split "/" q). destruct (split "/" q) as [|h T]; [done|]. injection Hh as ->. cbn in E. subst T.
    unfold path_of. assert (map enc (map text cs) = map text cs) as ->; [|by destruct cs as [|? []]].
    generalize (map text cs), Hp. induction l as [|x l IH]; [done|]. intros [Hx Hl]%Forall_cons. cbn. by rewrite Hx, IH.
Qed.

(** The rest of a path after the schemas. *)
Lemma schemas_split r : path = SCHEMAS +:+ r → map enc (map text cs) = ("v1" :: "schemas" :: split "/" r)%list.
Proof.
  intros E. pose proof path_split as Hs. rewrite E in Hs.
  change (SCHEMAS +:+ r) with (EmptyString +:+ String "/" ("v1" +:+ String "/" ("schemas" +:+ String "/" r))) in Hs.
  rewrite !split_app in Hs by reflexivity. by injection Hs.
Qed.
Lemma captures_rest captured : captures (Rest SCHEMAS) path = Some captured →
  ∃ r rest, captured = [r] ∧ path = SCHEMAS +:+ r ∧ map text cs = "v1" :: "schemas" :: rest ∧ rest ≠ [] ∧ r = join "/" (map enc rest).
Proof.
  unfold captures. set (r := String.substring _ _ _). destruct (startsWith path SCHEMAS) eqn:E; [|done]. cbn [andb].
  intros Hc. assert (captured = [r]) as -> by (by destruct (_ && _); [injection Hc as <-|]). clear Hc.
  apply startsWith_split in E as E'. fold r in E'. exists r. pose proof (schemas_split r E') as Hs.
  destruct (map text cs) as [|a [|b rest]]; [done..|]. cbn in Hs. injection Hs as Ha Hb Hr. exists rest.
  apply (encodeURIComponent_inj a "v1") in Ha. apply (encodeURIComponent_inj b "schemas") in Hb. subst.
  split_and!; [done|by rewrite <- E' at 1|done| |].
  - intros ->. cbn in Hr. pose proof (join_split "/" r) as Hj. rewrite <- Hr in Hj. cbn in Hj. rewrite <- Hj in Hr. done.
  - by rewrite Hr, join_split.
Qed.
Lemma match_path p : match p with Segments q => plain_path (Matched p) | Rest q => q = SCHEMAS end →
  match captures p path with
  | Some (value :: _) => ∃ v, v ≠ EmptyString ∧ decodeURIComponent value = Some v ∧ match_ path p = Ok (Some v)
  | _ => match_ path p = Ok None
  end.
Proof.
  intros Hp. unfold match_. destruct (captures p path) as [[|value values]|] eqn:E; [done| |done].
  assert (∃ v, v ≠ EmptyString ∧ decodeURIComponent value = Some v) as (v & Hv & Hd).
  { destruct p as [q|q].
    - destruct Hp as (Hh & Hpl & _). rewrite captures_template in E by done.
      destruct (match_segments _ _) as [[|v vs]|] eqn:Em; try done. injection E as <- _. exists v. split; [|apply decodeURIComponent_encode].
      pose proof (nonempty_captures _ _ _ nonempty_segments Em) as Hall. by apply Forall_cons in Hall as [? _].
    - subst q. apply captures_rest in E as (r & rest & [= -> ->] & _ & Ht & Hrest & ->). exists (join "/" rest).
      split; [|by apply decode_components]. pose proof nonempty_segments as Hs. rewrite Ht in Hs.
      apply Forall_cons in Hs as [_ [_ Hs]%Forall_cons]. destruct Hs as [|x l Hx _]; [done|]. by destruct x, l. }
  exists v. split_and!; [done|done|]. rewrite bool_decide_eq_false_2; [unfold decoded; by rewrite Hd|]. intros ->.
  unfold decodeURIComponent, decode_escapes, decode_run in Hd. rewrite strict_eq_refl in Hd. by injection Hd as <-.
Qed.

(** The decoding of the captures of all patterns succeeds. *)
Lemma match_all_path patterns :
  Forall (λ p, match p with Segments q => plain_path (Matched p) | Rest q => q = SCHEMAS end) patterns →
  match_all path patterns = Ok tt.
Proof.
  induction 1 as [|p patterns Hp _ IH]; [done|]. cbn [match_all]. pose proof (match_path p Hp) as Hm.
  destruct (captures p path) as [[|value values]|]; [rewrite Hm; exact IH| |rewrite Hm; exact IH].
  destruct Hm as (v & _ & _ & ->). exact IH.
Qed.

Lemma schemas_path a b rest :
  cs = Lit a :: Lit b :: rest → (a === "v1") && (b === "schemas") = false ∨ length rest ≤ 1 →
  captures (Rest SCHEMAS) path = if (a === "v1") && (b === "schemas") then match rest with [c] => Some [enc (text c)] | _ => None end else None.
Proof.
  intros Hcs' Hl. destruct (captures (Rest SCHEMAS) path) as [captured|] eqn:E.
  - apply captures_rest in E as (r & rest' & -> & _ & Hm & Hr & ->). rewrite Hcs' in Hm. cbn in Hm. injection Hm as -> -> <-.
    rewrite !strict_eq_refl in *. cbn [andb] in *. destruct Hl as [|Hl]; [done|]. destruct rest as [|c [|]]; [done|done|]. cbn in Hl. lia.
  - destruct ((a === "v1") && (b === "schemas")) eqn:Eab; [|done]. apply andb_true_iff in Eab as [->%bool_decide_eq_true ->%bool_decide_eq_true].
    destruct rest as [|c [|]]; [done| |done]. exfalso. assert (path = SCHEMAS +:+ enc (text c)) as Hp by (rewrite Hcs'; reflexivity).
    unfold captures in E. rewrite Hp in E. unfold startsWith in E. rewrite prefix_app, substring_after in E. cbn [andb] in E.
    assert ((enc (text c) !== EmptyString) = true) as He.
    { rewrite Hcs' in Hcs. apply Forall_cons in Hcs as [_ [_ [Hc _]%Forall_cons]%Forall_cons]. by rewrite enc_nonempty. }
    rewrite He in E. cbn [andb] in E. destruct (existsb is_line_end _) eqn:El; [|done].
    apply existsb_exists in El as (x & Hx%list_elem_of_In%component_chars & Hl'). destruct Hx as [->|Hx]; [done|].
    revert Hx Hl'. clear. destruct x as [[] [] [] [] [] [] [] []]; vm_compute; congruence.
Qed.

Lemma path_args_sound p b : plain_path p → path_verdict p cs = Some b →
  path_args path p = if b then Some (path_arguments p (path_captures p cs)) else None.
Proof.
  intros Hp Hv. destruct p as [q|[q|q]|q]; cbn [path_args path_arguments path_captures path_verdict] in *.
  - destruct Hp as (Hh & Hpl & Hstars). pose proof (exact_path q Hh Hpl) as He. apply (verdict_sound _ _ _ Hcs) in Hv.
    pose proof (match_exact (path_template (Exact q)) (map text cs) (no_star _ Hstars)) as Hm. unfold path_template in *. cbn [path_text] in *.
    rewrite <- He in Hm. rewrite Hv in Hm. destruct b.
    + rewrite bool_decide_eq_true_2; [done|]. apply Hm. eauto.
    + rewrite bool_decide_eq_false_2; [done|]. intros E. apply Hm in E as [? E]. done.
  - pose proof (match_path (Segments q) Hp) as Hm. destruct Hp as (Hh & Hpl & Hstars). unfold path_template in *. cbn [path_text] in *.
    pose proof (verdict_sound _ _ _ Hcs Hv) as Hv'. rewrite captures_template, Hv' in Hm by done. destruct b; cbn [fmap option_fmap option_map] in Hm.
    + apply captured_length in Hv. pose proof (captured_nonempty (tl (split "/" q)) _ Hcs) as Hnon. rewrite Hstars in Hv.
      destruct (captured _ _) as [|v [|]]; [done| |done]. cbn in Hm. destruct Hm as (v' & Hv1 & Hd & Hm). rewrite decodeURIComponent_encode in Hd.
      injection Hd as ->. rewrite Hm. unfold truthy. by rewrite bool_decide_eq_false_2.
    + by rewrite Hm.
  - cbn in Hp. subst q. assert (∃ a b' rest, cs = Lit a :: Lit b' :: rest) as (a & b' & rest & Ecs)
      by (destruct cs as [|[a|] [|[b'|] rest]]; try done; eauto).
    rewrite Ecs in Hv. pose proof (match_path (Rest SCHEMAS) eq_refl) as Hm.
    assert ((a === "v1") && (b' === "schemas") = false ∨ length rest ≤ 1) as Hl.
    { destruct ((a === "v1") && (b' === "schemas")); [right|by left]. destruct rest as [|c [|]]; [cbn; lia..|done]. }
    rewrite (schemas_path a b' rest Ecs Hl) in Hm. rewrite Ecs at 2. destruct ((a === "v1") && (b' === "schemas")).
    + destruct rest as [|c [|]]; [| |done]; injection Hv as <-; [by rewrite Hm|]. destruct Hm as (v' & Hv1 & Hd & Hm).
      rewrite decodeURIComponent_encode in Hd. injection Hd as <-. rewrite Hm. unfold truthy. by rewrite bool_decide_eq_false_2.
    + injection Hv as <-. by rewrite Hm.
  - destruct Hp as (Hh & Hpl & Hstars). unfold path_template in *. cbn [path_text] in *. rewrite captures_template by done.
    pose proof (verdict_sound _ _ _ Hcs Hv) as ->. destruct b; [|done]. apply captured_length in Hv. rewrite Hstars in Hv.
    by destruct (captured _ _) as [|v [|w [|]]].
Qed.

(** The first route of a method that takes the path, with its captures and the
    literal paths that the given components must not spell. *)
Fixpoint find_route (shapes : list (string * Path)) (method : string) (cs : list component) :
    option (nat * list string * list (list string)) :=
  match shapes with
  | [] => None
  | (m, p) :: shapes =>
      let later := '(k, captures, avoided) ← find_route shapes method cs; Some (S k, captures, avoided) in
      if method !== m then later
      else match path_verdict p cs, p with
           | Some true, _ => Some (0, path_captures p cs, [])
           | Some false, _ => later
           | None, Exact _ => '(k, captures, avoided) ← later; Some (k, captures, path_template p :: avoided)
           | None, _ => None
           end
  end.
Definition shape {S} (e : Entry (S := S)) : string * Path := (entry_method e, entry_path e).

Lemma find_route_sound {S} (entries : list (Entry (S := S))) method k captures avoided :
  Forall (λ e, plain_path (entry_path e)) entries →
  find_route (map shape entries) method cs = Some (k, captures, avoided) →
  map text cs ∉ avoided →
  ∃ e, entries !! k = Some e ∧ entry_method e = method ∧
    select entries method path = Some (e, path_arguments (entry_path e) captures).
Proof.
  intros Hpl. revert k avoided. induction Hpl as [|e entries Hp _ IH]; intros k avoided; [done|].
  cbn [map find_route shape select]. set (later := mbind _ _).
  assert (∀ k avoided, later = Some (k, captures, avoided) → map text cs ∉ avoided →
    ∃ e', (e :: entries) !! k = Some e' ∧ entry_method e' = method ∧
      select entries method path = Some (e', path_arguments (entry_path e') captures)) as Hlater.
  { intros k' avoided' Hl Ha. unfold later in Hl. destruct (find_route (map shape entries) method cs) as [[[k0 c0] a0]|]; [|done].
    injection Hl as <- <- <-. by apply (IH _ _ eq_refl). }
  case_bool_decide as Em; cbn [negb].
  - destruct (path_verdict (entry_path e) cs) as [[]|] eqn:Ev.
    + intros [= <- <- <-] _. exists e. by rewrite (path_args_sound _ true Hp Ev).
    + rewrite (path_args_sound _ false Hp Ev). apply Hlater.
    + destruct (entry_path e) as [q|q|q] eqn:Ep; try done. destruct later as [[[k' c'] a']|]; [|done]. intros [= <- <- <-].
      intros [Hq Ha]%not_elem_of_cons. destruct Hp as (Hh & Hpl' & _).
      assert (path_args path (Exact q) = None) as ->; [|by eapply Hlater]. cbn [path_args]. rewrite bool_decide_eq_false_2; [done|].
      rewrite exact_path by done. intros E. by apply Hq.
  - destruct (path_args path (entry_path e)); intros Hl Ha; by eapply Hlater.
Qed.
End Select.

(** ** What the calls stand for *)

Definition components_of (c : ClientCall) : list component :=
  let v1 l := Lit "v1" :: l in
  let application a l := v1 (Lit "applications" :: Given a :: l) in
  let tenant a t l := application a (Lit "tenants" :: Given t :: l) in
  let binding b l := v1 (Lit "storage" :: Lit "bindings" :: Given b :: l) in
  let resource r l := v1 (Lit "resources" :: Given r :: l) in
  let portability l := v1 (Lit "portability" :: l) in
  match c with
  | workspaces_list => v1 [Lit "workspaces"]
  | applications_list | applications_register _ => v1 [Lit "applications"]
  | tenants_list a | tenants_create a _ => application a [Lit "tenants"]
  | tenants_get a t | tenants_update a t _ => tenant a t []
  | tenants_suspend a t _ => tenant a t [Lit "suspend"]
  | tenants_close a t _ => tenant a t [Lit "close"]
  | bindings_effective a t => match given t with Some t => tenant a t [Lit "storage"] | None => application a [Lit "storage"] end
  | bindings_rollup => v1 [Lit "storage"; Lit "bindings"; Lit "rollup"]
  | bindings_list _ _ | bindings_upsert _ => v1 [Lit "storage"; Lit "bindings"]
  | bindings_get b | bindings_delete b => binding b []
  | bindings_probe b _ => binding b [Lit "probe"]
  | bindings_refreshPlan b _ => binding b [Lit "plan"; Lit "refresh"]
  | bindings_acceptPlan b _ => binding b [Lit "plan"; Lit "accept"]
  | bindings_disable b => binding b [Lit "disable"]
  | bindings_rollback b => binding b [Lit "rollback"]
  | bindings_cutoverMigrate _ => v1 [Lit "storage"; Lit "bindings"; Lit "migrate"; Lit "cutover"]
  | assignments_list | assignments_create _ => v1 [Lit "policy-assignments"]
  | assignments_revoke id _ => v1 [Lit "policy-assignments"; Given id]
  | schemas_list => v1 [Lit "schemas"]
  | schemas_get key => v1 [Lit "schemas"; Given key]
  | datasets_list _ => v1 [Lit "datasets"]
  | datasets_get id => v1 [Lit "datasets"; Given id]
  | retention_list | retention_create _ => v1 [Lit "retention-policies"]
  | retention_get id | retention_update id _ => v1 [Lit "retention-policies"; Given id]
  | resources_list _ => v1 [Lit "resources"]
  | resources_get id => resource id []
  | resources_delete id _ => resource id [Lit "delete"]
  | resources_restore id _ => resource id [Lit "restore"]
  | revisions_graph id => resource id [Lit "revision-graph"]
  | revisions_create id _ => resource id [Lit "revisions"]
  | relations_list _ => v1 [Lit "relations"]
  | history_list _ => v1 [Lit "history"]
  | audit_list _ => v1 [Lit "audit"; Lit "events"]
  | verification_run_ _ => v1 [Lit "verification"; Lit "runs"]
  | verification_list => v1 [Lit "verification"; Lit "reports"]
  | verification_get id => v1 [Lit "verification"; Lit "reports"; Given id]
  | operations_get id => v1 [Lit "operations"; Given id]
  | health_storage => v1 [Lit "health"; Lit "storage"]
  | health_probeStorage _ => v1 [Lit "health"; Lit "storage"; Lit "probe"]
  | health_backup => v1 [Lit "health"; Lit "backup"]
  | uploads_get id => v1 [Lit "uploads"; Given id]
  | uploads_getScanStatus id => v1 [Lit "uploads"; Given id; Lit "scan-status"]
  | blobs_createDownloadGrant _ _ _ _ => v1 [Lit "blobs"; Lit "download-grants"]
  | objects_ingest _ => v1 [Lit "objects"; Lit "ingest"]
  | exports_create _ _ _ => portability [Lit "exports"]
  | exports_download id _ => portability [Lit "exports"; Given id; Lit "download"]
  | archives_upload _ _ => portability [Lit "archives"]
  | archives_get id => portability [Lit "archives"; Given id]
  | plans_create _ => portability [Lit "plans"]
  | plans_get id => portability [Lit "plans"; Given id]
  | plans_execute id _ _ => portability [Lit "plans"; Given id; Lit "execute"]
  | import_operations_get id => portability [Lit "operations"; Given id]
  | control_snapshot => v1 [Lit "control-centre"; Lit "snapshot"]
  end.
Definition query_params (c : ClientCall) : list (string * string) :=
  match c with bindings_list a t => binding_params a t | _ => [] end.

Section Meaning.
Context (boundContext : RequestContext).
(** The command a call stands for: for the workspace the request is authorised in
    and the body that was sent. *)
Definition meaning (c : ClientCall) (body : option json) (workspaceId : string) (actor : AuthenticatedActor) : Call :=
  let dataset context := given (over (context_datasetId context) (context_datasetId boundContext)) in
  let entries := entries_of body in
  let in_application a := Some (JObject (spread entries [("applicationId", JString a)])) in
  let for_binding b := [("workspaceId", JString workspaceId); ("bindingId", JString b)] in
  match c with
  | workspaces_list => OnCommands (listWorkspaces workspaceId)
  | applications_list => OnCommands (listApplications_ workspaceId)
  | applications_register _ => OnCommands (registerApplication actor body)
  | tenants_list a => OnCommands (listApplicationTenants workspaceId a)
  | tenants_get a t => OnCommands (getApplicationTenant workspaceId a t)
  | tenants_create a _ => OnCommands (createApplicationTenant actor (in_application a))
  | tenants_update a t _ => OnCommands (updateApplicationTenant actor t (in_application a))
  | tenants_suspend a t _ => OnCommands (suspendApplicationTenant actor t (in_application a))
  | tenants_close a t _ => OnCommands (closeApplicationTenant actor t (in_application a))
  | bindings_effective a t => OnCommands (getEffectiveStorage workspaceId a (given t))
  | bindings_rollup => OnCommands (getStorageBindingRollup workspaceId)
  | bindings_list a t => OnCommands (listStorageBindings workspaceId (Some (JObject (
      match given a with Some a => [("applicationId", JString a)] | None => [] end ++
      match t with
      | Some None => [("applicationTenantId", JNull)]
      | Some (Some t) => match given (Some t) with Some t => [("applicationTenantId", JString t)] | None => [] end
      | None => []
      end)%list)))
  | bindings_get b => OnCommands (getStorageBinding workspaceId b)
  | bindings_upsert _ => OnCommands (upsertStorageBinding actor body)
  | bindings_delete b => OnCommands (deleteStorageBinding actor b workspaceId)
  | bindings_probe b _ => OnCommands (probeStorageBinding actor (Some (JObject (spread (for_binding b) entries))))
  | bindings_refreshPlan b _ => OnCommands (refreshStoragePlan actor (Some (JObject (spread (for_binding b) entries))))
  | bindings_acceptPlan b _ => OnCommands (acceptStoragePlan actor (Some (JObject (spread entries (for_binding b)))))
  | bindings_disable b => OnCommands (disableStorageBinding actor b workspaceId)
  | bindings_rollback b => OnCommands (rollbackStorageBinding actor b workspaceId)
  | bindings_cutoverMigrate _ => OnCommands (cutoverStorageMigrate actor body)
  | assignments_list => OnCommands (listPolicyAssignments_ workspaceId)
  | assignments_create _ => OnCommands (createPolicyAssignment actor body)
  | assignments_revoke id _ => OnCommands (revokePolicyAssignment id actor body)
  | schemas_list => listSchemas
  | schemas_get key => getSchema key
  | datasets_list _ => OnCommands (listDatasets workspaceId)
  | datasets_get id => OnCommands (getDataset workspaceId id)
  | retention_list => OnCommands (listRetentionPolicies workspaceId)
  | retention_get id => OnCommands (getRetentionPolicy workspaceId id)
  | retention_create _ => OnCommands (createRetentionPolicy actor body)
  | retention_update id _ => OnCommands (updateRetentionPolicy id actor body)
  | resources_list context => OnCommands (listResources workspaceId (dataset context))
  | resources_get id => OnCommands (getResource workspaceId id)
  | resources_delete id _ => OnCommands (deleteResource id actor body)
  | resources_restore id _ => OnCommands (restoreResource id actor body)
  | revisions_graph id => OnCommands (getRevisionGraph workspaceId id)
  | revisions_create id _ => OnCommands (createRevision id actor body)
  | relations_list context => OnCommands (listRelations workspaceId (dataset context))
  | history_list context => OnCommands (getHistory workspaceId (dataset context))
  | audit_list context => OnCommands (listAuditEvents workspaceId (dataset context))
  | verification_run_ _ => OnCommands (runVerification actor body)
  | verification_list => OnCommands (listVerificationReports workspaceId)
  | verification_get id => OnCommands (getVerificationReport workspaceId id)
  | operations_get id => OnCommands (getOperation workspaceId id)
  | health_storage => OnCommands (getStorageHealth workspaceId)
  | health_probeStorage _ => OnCommands (probeStorageHealth actor body)
  | health_backup => OnCommands (getBackupHealth workspaceId)
  | uploads_get id => OnCommands (getUpload workspaceId id actor)
  | uploads_getScanStatus id => OnCommands (getUploadScanStatus workspaceId id actor)
  | blobs_createDownloadGrant _ _ _ _ => OnCommands (createDownloadGrant actor body)
  | objects_ingest _ => OnCommands (ingestObject actor body)
  | exports_create _ _ _ => OnPortability (createExport actor body)
  | exports_download id _ => OnPortability (downloadExport workspaceId id)
  | archives_upload _ _ => OnPortability (uploadArchive actor body)
  | archives_get id => OnPortability (getArchive workspaceId id)
  | plans_create _ => OnPortability (createPlan_ actor body)
  | plans_get id => OnPortability (getPlan workspaceId id)
  | plans_execute id _ _ => OnPortability (executePlan id actor body)
  | import_operations_get id => OnPortability (getImportOperation workspaceId id)
  | control_snapshot => getSnapshot
  end.
End Meaning.

(** What the caller gave a call, as the body of the request in a workspace: the
    entries of the value with the workspace in them, or the arguments by their
    names, with the defaults the client has; [None] for a call without a body. *)
Definition given_body (randomUUID : string) (c : ClientCall) (workspaceId : string) : option json :=
  let w := ("workspaceId", JString workspaceId) in
  let key o prefix := ("idempotencyKey", JString (default (prefix +:+ "-" +:+ randomUUID) o)) in
  match c with
  | applications_register value | tenants_create _ value | tenants_update _ _ value | tenants_suspend _ _ value
  | tenants_close _ _ value | bindings_upsert value | bindings_probe _ value | bindings_refreshPlan _ value
  | bindings_acceptPlan _ value | bindings_cutoverMigrate value | assignments_create value | retention_create value
  | retention_update _ value | resources_delete _ value | resources_restore _ value | revisions_create _ value
  | verification_run_ value | objects_ingest value | plans_create value => Some (JObject (spread value [w]))
  | bindings_disable _ | bindings_rollback _ => Some (JObject [w])
  | assignments_revoke _ k => Some (JObject [key k "revoke-policy"; w])
  | health_probeStorage tier => Some (JObject (w :: match given tier with Some t => [("tier", JString t)] | None => [] end))
  | blobs_createDownloadGrant objectId ttl fileName k => Some (JObject
      ([w; ("objectId", JString objectId); ("requestedTtlSeconds", JNumber (default 60%Z ttl))] ++
       match given fileName with Some f => [("fileName", JString f)] | None => [] end ++ [key k "download-grant"])%list)
  | exports_create datasetIds k _ => Some (JObject [w; ("datasetIds", JArray (map JString datasetIds)); key k "export"])
  | archives_upload bytes k => Some (JObject [w; key k "archive"; ("archiveBase64", JString (toBase64 bytes))])
  | plans_execute _ k _ => Some (JObject [w; key k "import"; ("confirmation", JString "IMPORT")])
  | _ => None
  end.
(** The token that the caller presents again. *)
Definition given_proof (c : ClientCall) : option string :=
  match c with
  | exports_create _ _ proof | exports_download _ proof | plans_execute _ _ proof => Some proof
  | _ => None
  end.

(** The identifiers that a path can carry: not empty, and not the segments that a
    URL parser removes; a binding is not called [rollup] when it is read, nor a
    tenant ["null"] when bindings are listed. *)
Definition addressable (c : ClientCall) : Prop :=
  Forall (λ x, match x with Given s => s ∉ [EmptyString; "."; ".."] | Lit _ => True end) (components_of c) ∧
  match c with
  | bindings_get b => b ≠ "rollup"
  | bindings_list _ t => t ≠ Some (Some "null")
  | _ => True
  end.

(** ** Every call is routed to its command *)

Section Routing.
Context `{JsDate} `{TextCodecLaws} `{!Utf8Text, !Utf8TextLaws}.
Context {S : Type} (api : Api (S := S)) (has : Optional → bool).

Lemma decoded_encode s : decoded (encodeURIComponent s) = Ok s.
Proof. unfold decoded. by rewrite decodeURIComponent_encode. Qed.

Context (Hcommands : api_commands api = Some has) (Hhas : ∀ o, has o = true) (Hportability : api_portability api = true).
Context (request : ApiRequest).

Lemma table_plain : Forall (λ e, plain_path (entry_path e)) (table api request).
Proof.
  apply Forall_forall. intros e He. apply plain_pathb_sound.
  assert (forallb (λ p, plain_pathb p.2) (map shape (table api request)) = true) as Hall by (vm_compute; reflexivity).
  rewrite forallb_forall in Hall. apply (Hall (shape e)), list_elem_of_In. by apply list_elem_of_fmap_2.
Qed.
Lemma patterns_plain patterns :
  forallb (λ p, plain_pathb (Matched p)) patterns = true →
  Forall (λ p, match p with Segments q => plain_path (Matched p) | Rest q => q = SCHEMAS end) patterns.
Proof.
  intros Hall. apply Forall_forall. intros p Hp. rewrite forallb_forall in Hall. pose proof (Hall p ltac:(by apply list_elem_of_In)) as H'.
  apply plain_pathb_sound in H'. by destruct p.
Qed.

Lemma select_app (a b : list (Entry (S := S))) method pathname :
  select (a ++ b) method pathname = match select a method pathname with Some r => Some r | None => select b method pathname end.
Proof. induction a as [|e a IH]; [done|]. cbn. rewrite IH. by destruct (path_args pathname (entry_path e)), (method === entry_method e). Qed.

Lemma route_found cs method k captures avoided :
  Forall (λ c, text c ≠ EmptyString) (Lit "v1" :: cs) →
  find_route (map shape (table api request)) method (Lit "v1" :: cs) = Some (k, captures, avoided) →
  "v1" :: map text cs ∉ avoided →
  ∃ e, table api request !! k = Some e ∧
    route api request method (path_of ("v1" :: map text cs)) = serve api request method e (path_arguments (entry_path e) captures).
Proof.
  intros Hcs Hf Ha. destruct (find_route_sound (Lit "v1" :: cs) ltac:(done) Hcs _ _ _ _ _ table_plain Hf Ha) as (e & He & _ & Hs).
  exists e. split; [done|]. cbn [map text] in Hs. unfold route.
  assert ((path_of ("v1" :: map text cs) === "/health") = false) as ->.
  { apply bool_decide_eq_false_2. unfold path_of. destruct (map text cs); done. }
  cbn [andb]. pose proof (match_all_path (Lit "v1" :: cs) ltac:(done) Hcs) as Hm. cbn [map text] in Hm.
  rewrite (Hm first_patterns), (Hm later_patterns) by (apply patterns_plain; vm_compute; reflexivity). unfold table in Hs. rewrite select_app in Hs.
  destruct (select (workspace_routes request) method _) as [[e' args]|]; [by injection Hs as -> ->|].
  by rewrite Hs.
Qed.

Lemma addressable_texts c : addressable c → Forall (λ x, text x ≠ EmptyString) (components_of c).
Proof.
  intros [Ha _]. assert (Forall (λ x, match x with Lit s => s ≠ EmptyString | Given _ => True end) (components_of c)) as Hl.
  { destruct c; cbn; try destruct (given _); repeat first [apply Forall_nil_2|apply Forall_cons_2; [done|]]. }
  apply Forall_forall. intros x Hx. pose proof (proj1 (Forall_forall _ _) Ha x Hx) as Hx1. pose proof (proj1 (Forall_forall _ _) Hl x Hx) as Hx2.
  destruct x as [s|s]; [done|]. cbn. intros ->. apply Hx1. by left.
Qed.

Context (configuration : TransportConfiguration) (boundContext : RequestContext) (randomUUID : string).

(** The request that a call makes, by its parts. *)
Definition full_path (c : ClientCall) : string :=
  let path := path_of (map text (components_of c)) in
  match query_params c with [] => path | params => path +:+ "?" +:+ params_toString params end.
Definition method_of (c : ClientCall) : string :=
  match c with
  | applications_register _ | tenants_create _ _ | tenants_suspend _ _ _ | tenants_close _ _ _ | bindings_upsert _ | bindings_probe _ _
  | bindings_refreshPlan _ _ | bindings_acceptPlan _ _ | bindings_disable _ | bindings_rollback _ | bindings_cutoverMigrate _
  | assignments_create _ | retention_create _ | resources_delete _ _ | resources_restore _ _ | revisions_create _ _ | verification_run_ _
  | health_probeStorage _ | blobs_createDownloadGrant _ _ _ _ | objects_ingest _ | exports_create _ _ _ | archives_upload _ _
  | plans_create _ | plans_execute _ _ _ => "POST"
  | tenants_update _ _ _ | retention_update _ _ => "PUT"
  | bindings_delete _ | assignments_revoke _ _ => "DELETE"
  | _ => "GET"
  end.
Definition context_of (c : ClientCall) : RequestContext :=
  match c with
  | datasets_list context | resources_list context | relations_list context | history_list context | audit_list context => context
  | _ => no_context
  end.
Definition reauth_header (c : ClientCall) : list (string * string) :=
  match given_proof c with Some proof => [("x-trust-reauth", proof)] | None => [] end.
Record request_parts (c : ClientCall) (path : string) (options : RequestOptions) : Prop := mkParts {
  parts_path : path = full_path c;
  parts_method : default "GET" (option_method options) = method_of c;
  parts_public : option_public options = false;
  parts_headers : option_headers options = (contextHeaders boundContext (context_of c) ++ reauth_header c)%list;
  parts_body : method_of c = "GET" → option_body options = None;
  parts_given : ∃ w, (workspace configuration boundContext = Ok w ∨ given_body randomUUID c w = None) ∧
    option_body options = given_body randomUUID c w;
}.
Lemma request_parts_of c path options :
  request_of configuration boundContext randomUUID c = Ok (path, options) → request_parts c path options.
Proof.
  intros Hr.
  assert (∀ p h, request_of configuration boundContext randomUUID c = Ok (p, mkOptions None None h false) → method_of c = "GET" →
    p = full_path c → h = (contextHeaders boundContext (context_of c) ++ reauth_header c)%list →
    (∀ w, given_body randomUUID c w = None) → request_parts c path options) as Hget.
  { intros p h Hp Hm Hpath Hh Hg. rewrite Hp in Hr. injection Hr as <- <-. split; [done..|]. exists EmptyString. rewrite Hg. by split; [right|]. }
  assert (∀ m p extra body, with_body configuration boundContext m p extra body = Ok (path, options) →
    method_of c = m → m ≠ "GET" → context_of c = no_context → p = full_path c → extra = reauth_header c →
    (∀ w, given_body randomUUID c w = Some (JObject (body w))) → request_parts c path options) as Hbody.
  { intros m p extra body Hp Hm Hne Hc Hpath -> Hg. unfold with_body in Hp.
    destruct (workspace configuration boundContext) as [w|] eqn:Ew; [|done]. injection Hp as <- <-.
    split; [done|done|done|by rewrite Hc|by rewrite Hm|]. exists w. rewrite Hg. by split; [left|]. }
  destruct c;
    try (by eapply Hget; [reflexivity|reflexivity| |cbn; rewrite ?app_nil_r; reflexivity|reflexivity];
         first [reflexivity|cbv beta zeta; rewrite <- !string_app_assoc; reflexivity]);
    try (by eapply Hbody; [exact Hr|reflexivity|done|reflexivity| |reflexivity|reflexivity];
         first [reflexivity|cbv beta zeta; rewrite <- !string_app_assoc; reflexivity]).
  - eapply Hget; [reflexivity|reflexivity| |cbn; by rewrite app_nil_r|reflexivity]. unfold full_path. cbn [components_of query_params]. destruct (given applicationTenantId); reflexivity.
  - eapply Hget; [reflexivity|reflexivity| |cbn; by rewrite app_nil_r|reflexivity]. unfold full_path. cbn [query_params]. destruct (binding_params _ _); reflexivity.
  - injection Hr as <- <-. split; [done|done|done|cbn; by rewrite app_nil_r|done|]. exists EmptyString. by split; [right|].
  - cbn [request_of application_requests binding_requests governance_requests resource_requests object_requests portability_requests] in Hr.
    destruct (MAX_ARCHIVE_UPLOAD_BYTES <? String.length bytes); [done|].
    by eapply Hbody; [exact Hr|reflexivity|done|reflexivity|reflexivity|reflexivity|reflexivity].
Qed.

(** The download of an archive is the one answer that the route wraps. *)
Definition wrapped (c : ClientCall) : bool := match c with exports_download _ _ => true | _ => false end.

(** The routes of the calls. *)
Lemma call_routed c :
  addressable c →
  header request "x-trust-dataset-id" = given (over (context_datasetId (context_of c)) (context_datasetId boundContext)) →
  request_query request = query_params c →
  ∃ e args,
    route api request (method_of c) (path_of (map text (components_of c))) = serve api request (method_of c) e args ∧
    available api (entry_when e) = true ∧
    (∀ workspaceId actor, handler_call (entry_handler e args.1 args.2) workspaceId actor =
      Ok (meaning boundContext c (request_body request) workspaceId actor)) ∧
    (wrapped c = false → ∀ v, handler_finish (entry_handler e args.1 args.2) (Some v) = Ok (Some v)).
Proof.
  intros Ha Hd Hq. pose proof (addressable_texts c Ha) as Ht. destruct Ha as [_ Ha].
  assert (∀ o, available api (WithOptional o) = true) as Hopt by (intros o; unfold available; by rewrite Hcommands).
  destruct c; cbn [components_of] in *; try (destruct (given applicationTenantId) eqn:Et);
    lazymatch goal with |- ∃ _ _, route _ _ ?m (path_of (map text (Lit "v1" :: ?cs))) = _ ∧ _ =>
      let r := eval vm_compute in (find_route (map shape (table api request)) m (Lit "v1" :: cs)) in
      lazymatch r with Some (?k, ?captures, ?avoided) =>
        destruct (route_found cs m k captures avoided Ht) as (e & He & Hroute); [vm_compute; reflexivity|try apply not_elem_of_nil|
          injection He as <-; eexists _, _; split; [exact Hroute|split; [solve [reflexivity|apply Hopt|exact Hportability]|];
            split; [|by intros]; intros workspaceId actor; cbn -[decoded encodeURIComponent spread given binding_query storage_probe];
            rewrite ?decoded_encode, ?Hd, ?Et; try reflexivity]]
      end end.
  - unfold binding_query. rewrite Hq. cbn [query_params]. unfold binding_params.
    destruct (given applicationId), applicationTenantId as [[t|]|]; try reflexivity; cbn in Ha; unfold given, truthy;
      (destruct (decide (t = EmptyString)) as [->|Hne]; [reflexivity|]); rewrite (bool_decide_eq_false_2 (t = EmptyString)) by done;
      cbn; rewrite ?(bool_decide_eq_false_2 ("applicationTenantId" = "applicationId")), ?(bool_decide_eq_false_2 ("applicationId" = "applicationTenantId")),
        ?strict_eq_refl, (bool_decide_eq_false_2 (Some t = Some "null")) by congruence; reflexivity.
  - intros [E|?%elem_of_nil]%elem_of_cons; [|done]. by injection E.
  - unfold storage_probe. by rewrite Hcommands, Hhas.
Qed.
End Routing.

(** ** The wire *)

Lemma sort_keys_same {A} (l : list (string * A)) : sort_keys (λ _ _, true) l = l.
Proof. induction l as [|x l IH]; [done|]. cbn. rewrite IH. by destruct l. Qed.
Lemma normalise_same v : normalise (λ _ _, true) v = v.
Proof.
  induction v as [|b|z|t|l IH|l IH] using json_nested_ind; try done; cbn.
  - f_equal. induction IH as [|x l Hx _ IH]; [done|]. cbn. by rewrite Hx, IH.
  - f_equal. rewrite sort_keys_same. induction IH as [|[k x] l Hx _ IH]; [done|]. cbn in *. by rewrite Hx, IH.
Qed.
Lemma JSON_parse_stringify v : json_wf v → JSON_parse (JSON_stringify v) = Some v.
Proof.
  intros Hwf. pose proof (JSON_parse_canonical (λ _ _, true) v EmptyString Hwf (or_introl eq_refl)) as Hp.
  rewrite string_app_nil_r, normalise_same in Hp. exact Hp.
Qed.

Section Wire.
Context `{TextCodecLaws} `{!Utf8Text, !Utf8TextLaws}.

Lemma encode_empty t : encode t = EmptyString → t = EmptyString.
Proof. intros E. pose proof (decode_encode t) as Ht. rewrite E, <- encode_nil, decode_encode in Ht. by injection Ht. Qed.
Lemma stringify_nonempty v : JSON_stringify v ≠ EmptyString.
Proof. destruct (canon_head (λ _ _, true) v) as (c & t & E & _). unfold JSON_stringify. by rewrite E. Qed.
Lemma read_chunks_ok chunks size :
  (0 ≤ size → size + Z.of_nat (String.length (String.concat EmptyString chunks)) ≤ MAX_BODY_BYTES →
   read_chunks size chunks = Ok (size + Z.of_nat (String.length (String.concat EmptyString chunks))))%Z.
Proof.
  revert size. induction chunks as [|c chunks IH]; intros size Hs Hm; [cbn; f_equal; lia|].
  assert (String.concat EmptyString (c :: chunks) = c +:+ String.concat EmptyString chunks) as Hc.
  { destruct chunks; [by rewrite string_app_nil_r|]. reflexivity. }
  rewrite Hc, string_length_app in *. cbn [read_chunks]. rewrite (proj2 (Z.ltb_ge _ _)) by lia. cbn. rewrite IH by lia. f_equal. lia.
Qed.
Lemma read_chunks_large chunks size :
  (size ≤ MAX_BODY_BYTES → MAX_BODY_BYTES < size + Z.of_nat (String.length (String.concat EmptyString chunks)) →
   read_chunks size chunks = Err request_too_large)%Z.
Proof.
  revert size. induction chunks as [|c chunks IH]; intros size Hs Hm; [cbn in Hm; lia|].
  assert (String.concat EmptyString (c :: chunks) = c +:+ String.concat EmptyString chunks) as Hc.
  { destruct chunks; [by rewrite string_app_nil_r|]. reflexivity. }
  rewrite Hc, string_length_app in *. cbn [read_chunks]. destruct (Z.ltb_spec MAX_BODY_BYTES (size + Z.of_nat (String.length c))); [done|].
  cbn. rewrite IH by lia. done.
Qed.
(** A body within the limit is read as it was sent, however it is cut. *)
Lemma body_received request body :
  http_method request ≠ "GET" → http_method request ≠ "HEAD" → json_wf body →
  String.concat EmptyString (http_chunks request) = encode (JSON_stringify body) →
  (Z.of_nat (String.length (encode (JSON_stringify body))) ≤ MAX_BODY_BYTES)%Z →
  readJsonBody request = Ok (Some body).
Proof.
  intros Hg Hh Hwf Hc Hm. unfold readJsonBody. rewrite !bool_decide_eq_false_2 by done. cbn [orb].
  rewrite read_chunks_ok by (rewrite ?Hc; lia). rewrite Hc. cbn [mbind result_bind]. rewrite Z.add_0_l.
  destruct (Z.eqb_spec (Z.of_nat (String.length (encode (JSON_stringify body)))) 0) as [E|_].
  - exfalso. apply (stringify_nonempty body), encode_empty. destruct (encode (JSON_stringify body)); [done|]. cbn in E. lia.
  - by rewrite decode_lossy_encode, JSON_parse_stringify.
Qed.
End Wire.

(** ** Headers *)

Lemma map_get_over {V} k (m1 m2 : list (string * V)) : map_get k (m1 ++ m2) = over (map_get k m1) (map_get k m2).
Proof. rewrite map_get_app. by destruct (map_get k m1). Qed.
Lemma map_get_sets {V} k (l acc : list (string * V)) :
  map_get k (foldl (λ acc e, map_set e.1 e.2 acc) acc l) = over (map_get k (rev l)) (map_get k acc).
Proof.
  revert acc. induction l as [|[n v] l IH]; intros acc; [done|]. cbn [foldl fst snd rev]. rewrite IH, map_get_over. cbn [map_get].
  destruct (map_get k (rev l)); [done|]. cbn [over]. case_bool_decide as E; [subst; by rewrite map_get_set_eq|]. by rewrite map_get_set_ne.
Qed.
Lemma map_get_inl {A B} k (l : list (string * A)) : map_get k (map (λ e, (e.1, inl e.2)) l) = (inl <$> map_get k l : option (A + B)).
Proof. induction l as [|[n v] l IH]; [done|]. cbn. by destruct (k === n). Qed.

(** The header of the dataset is that of the context. *)
Lemma dataset_header configuration boundContext accept options context extra :
  option_headers options = (contextHeaders boundContext context ++ extra)%list → map_get "x-trust-dataset-id" (rev extra) = None →
  map_get "x-trust-dataset-id" (transport_headers configuration accept options) =
    given (over (context_datasetId context) (context_datasetId boundContext)).
Proof.
  intros Ho He. unfold transport_headers. rewrite map_get_sets, Ho. unfold contextHeaders. cbn [map_get].
  assert (∀ (n : string) (o : option string), rev match o with Some v => [(n, v)] | None => [] end = match o with Some v => [(n, v)] | None => [] end) as Hr
    by (by intros ? []).
  assert (∀ (n : string) (o : option string), n ≠ "x-trust-dataset-id" →
    map_get "x-trust-dataset-id" match o with Some v => [(n, v)] | None => [] end = None) as Hn
    by (intros n [] Hn; [cbn; by rewrite bool_decide_eq_false_2|done]).
  rewrite !rev_app_distr, !map_get_over, He, !Hr. cbn [over]. rewrite !(Hn "x-trust-application-id"), !(Hn "x-trust-workspace-id") by done.
  cbn [over]. destruct (given (over (context_datasetId context) (context_datasetId boundContext))) as [d|]; [by cbn|]. cbn [map_get over].
  assert (∀ (b : bool) (l : list (string * string)), map_get "x-trust-dataset-id" (rev l) = None → map_get "x-trust-dataset-id" (rev (if b then [] else l)) = None) as Hb
    by (by intros []).
  rewrite !Hb by (rewrite Hr; by apply Hn).
  destruct (option_method options), (option_body options), (given (csrfToken configuration)); cbn; try destruct (negb _); reflexivity.
Qed.

(** Headers that are there or not, under a name. *)
Abbreviation maybe n o := (match o with Some v => [(n, v)] | None => [] end).
Lemma maybe_rev (n : string) (o : option string) : rev (maybe n o) = maybe n o.
Proof. by destruct o. Qed.
Lemma maybe_other (k n : string) (o : option string) : n ≠ k → map_get k (maybe n o) = None.
Proof. intros Hn. destruct o; [|done]. cbn. by rewrite bool_decide_eq_false_2. Qed.
Lemma map_get_chosen (f : string → option string) n names :
  n ∈ names → map_get n (flat_map (λ name, maybe name (f name)) names) = f n.
Proof.
  induction names as [|m names IH]; [by intros ?%elem_of_nil|]. intros Hin. cbn [flat_map]. rewrite map_get_over.
  destruct (decide (n = m)) as [->|Hne].
  - destruct (f m) as [v|] eqn:E; [cbn; by rewrite strict_eq_refl|]. cbn [map_get over].
    clear - E. induction names as [|n names IH]; [done|]. cbn [flat_map]. rewrite map_get_over, IH.
    destruct (decide (n = m)) as [->|Hne]; [by rewrite E|by rewrite maybe_other].
  - rewrite maybe_other by done. apply elem_of_cons in Hin as [->|Hin]; [done|]. by apply IH.
Qed.
(** The token that is presented again, and the one of the configuration. *)
Lemma proof_header configuration boundContext accept options context c :
  option_headers options = (contextHeaders boundContext context ++ reauth_header c)%list →
  map_get "x-trust-reauth" (transport_headers configuration accept options) = given_proof c.
Proof.
  intros Ho. unfold transport_headers. rewrite map_get_sets, Ho. unfold contextHeaders, reauth_header.
  rewrite !rev_app_distr, !map_get_over. destruct (given_proof c) as [proof|]; [done|]. cbn [rev map_get over].
  rewrite !maybe_rev, !maybe_other by done. cbn [over].
  destruct (option_public options); rewrite ?maybe_rev, ?maybe_other by done;
    destruct (option_method options), (option_body options), (given (csrfToken configuration)); cbn; try destruct (negb _); reflexivity.
Qed.
Lemma token_header configuration boundContext accept options context c :
  option_headers options = (contextHeaders boundContext context ++ reauth_header c)%list → option_public options = false →
  map_get "authorization" (transport_headers configuration accept options) = (λ t, "Bearer " +:+ t) <$> given (accessToken configuration).
Proof.
  intros Ho Hpub. unfold transport_headers. rewrite map_get_sets, Ho, Hpub. unfold contextHeaders, reauth_header.
  rewrite !rev_app_distr, !map_get_over, !maybe_rev, !maybe_other by done. cbn [over].
  assert (map_get "authorization" (rev (if default "GET" (option_method options) !== "GET" then maybe "x-trust-csrf" (given (csrfToken configuration)) else [])) = None)
    as -> by (destruct (negb _); rewrite ?maybe_rev, ?maybe_other by done; done). cbn [over].
  destruct (given (accessToken configuration)) as [t|]; [done|]. cbn. by destruct (option_body options).
Qed.

(** ** Sizes *)

Lemma base64_length s :
  4 * String.length s ≤ 3 * String.length (toBase64 s) ∧ 3 * String.length (toBase64 s) ≤ 4 * (String.length s + 2).
Proof. induction s as [|a|a b|a b c s IH] using bytes_ind; cbn [toBase64 String.length]; lia. Qed.
(** Characters that JSON and UTF-8 write as they are. *)
Definition wire_plain (c : ascii) : Prop := escape_char c = String c EmptyString ∧ nat_of_ascii c < 128.
Lemma base64_char_plain n : n < 64 → wire_plain (base64_char n).
Proof. intros Hn. do 64 (destruct n as [|n]; [split; [reflexivity|vm_compute; lia]|]). lia. Qed.
Lemma base64_plain s c : c ∈ list_ascii_of_string (toBase64 s) → wire_plain c.
Proof.
  assert (wire_plain EQUALS) by (split; [reflexivity|vm_compute; lia]).
  revert c. induction s as [|a|a b|a b c s IH] using bytes_ind; intros d; cbn [toBase64 list_ascii_of_string]; rewrite ?elem_of_cons.
  - by intros ?%elem_of_nil.
  - destruct (digit_bounds a a a) as (?&?&?&?&?&?). intros [->|[->|[->|[->|?%elem_of_nil]]]]; auto using base64_char_plain; done.
  - destruct (digit_bounds a b a) as (?&?&?&?&?&?). intros [->|[->|[->|[->|?%elem_of_nil]]]]; auto using base64_char_plain; done.
  - destruct (digit_bounds a b c) as (?&?&?&?&?&?). intros [->|[->|[->|[->|?]]]]; auto using base64_char_plain.
Qed.
Lemma escape_plain s : (∀ c, c ∈ list_ascii_of_string s → wire_plain c) → escape s = s.
Proof.
  induction s as [|c s IH]; intros Hs; [done|]. cbn [escape]. destruct (Hs c) as [-> _]; [by left|].
  rewrite IH; [done|]. intros d Hd. apply Hs. by right.
Qed.
Lemma unreserved_plain c : unreserved c = true → wire_plain c.
Proof.
  assert (forallb (λ c, negb (unreserved c) || ((escape_char c === String c EmptyString) && Nat.ltb (nat_of_ascii c) 128)) all_ascii = true) as Hall
    by (vm_compute; reflexivity).
  intros Hc. pose proof (all_ascii_forall _ Hall c) as Hp. cbn beta in Hp. rewrite Hc in Hp.
  apply andb_true_iff in Hp as [He%bool_decide_eq_true Hn%Nat.ltb_lt]. by split.
Qed.

Section Sizes.
Context `{TextCodecLaws} `{!Utf8Text, !Utf8TextLaws}.

Lemma encode_plain s : (∀ c, c ∈ list_ascii_of_string s → wire_plain c) → encode s = s.
Proof. intros Hs. apply encode_ascii. intros c Hc. by apply Hs. Qed.

(** The text of an object of strings, its last member last. *)
Lemma last_member before key value : ∃ a b, JSON_stringify (JObject (before ++ [(key, JString value)])) = a +:+ (escape value +:+ b).
Proof.
  unfold JSON_stringify. cbn [canonical_with]. rewrite sort_keys_same, !map_app. cbn [map fst snd canonical_with].
  set (members := map stringify_entry _). clearbody members.
  assert (∃ a, commas (members ++ [stringify_entry (key, stringify_string value)]) = a +:+ (escape value +:+ String QUOTE EmptyString)) as [a Hm].
  { induction members as [|m members [a IH]].
    - exists (stringify_string key +:+ String ":" (String QUOTE EmptyString)). cbn [app commas]. unfold stringify_entry, stringify_string. cbn [fst snd].
      by rewrite <- !string_app_assoc.
    - exists (m +:+ (String "," EmptyString +:+ a)).
      assert (∀ x xs, xs ≠ [] → commas (x :: xs) = x +:+ String "," (commas xs)) as Hcons by (by intros x [|]).
      change ((m :: members) ++ ?l)%list with (m :: (members ++ l)%list). rewrite Hcons by (by destruct members). rewrite IH.
      by rewrite <- !string_app_assoc. }
  exists (String "{" a), (String QUOTE EmptyString +:+ "}"). rewrite Hm. change (String "{" ?x) with ("{" +:+ x). by rewrite <- !string_app_assoc.
Qed.
Lemma base64_body_length before key bytes :
  String.length (toBase64 bytes) ≤ String.length (encode (JSON_stringify (JObject (before ++ [(key, JString (toBase64 bytes))])))).
Proof.
  destruct (last_member before key (toBase64 bytes)) as (a & b & ->). rewrite escape_plain by apply base64_plain.
  rewrite !encode_app, !string_length_app, (encode_plain (toBase64 bytes)) by apply base64_plain. lia.
Qed.

(** The body that completes an upload. *)
Lemma upload_body_length w bytes :
  (∀ c, c ∈ list_ascii_of_string w → unreserved c = true) →
  String.length (encode (JSON_stringify (JObject [("workspaceId", JString w); ("bytesBase64", JString (toBase64 bytes))]))) =
    35 + String.length w + String.length (toBase64 bytes).
Proof.
  intros Hw. assert (∀ c, c ∈ list_ascii_of_string w → wire_plain c) as Hp by (intros; by apply unreserved_plain, Hw).
  pose proof (base64_plain bytes) as Hb. unfold JSON_stringify. cbn [canonical_with map fst snd sort_keys insert_key commas].
  unfold stringify_entry, stringify_string. cbn [fst snd]. rewrite (escape_plain w), (escape_plain (toBase64 bytes)) by done.
  set (a := String "{" (stringify_string "workspaceId" +:+ String ":" (String QUOTE EmptyString))).
  set (b := String QUOTE (String "," (stringify_string "bytesBase64" +:+ String ":" (String QUOTE EmptyString)))).
  set (d := String QUOTE "}").
  transitivity (String.length (encode (a +:+ (w +:+ (b +:+ (toBase64 bytes +:+ d)))))).
  { do 2 f_equal. change (String "{" ?x) with ("{" +:+ x). change (String QUOTE ?x) with (String QUOTE EmptyString +:+ x).
    change (String ":" ?x) with (":" +:+ x). change (String "," ?x) with ("," +:+ x). rewrite <- !string_app_assoc. reflexivity. }
  assert (∀ l, forallb (λ c, Nat.ltb (nat_of_ascii c) 128) (list_ascii_of_string l) = true → encode l = l) as Hlit.
  { intros l Hl. apply encode_ascii. intros c Hc. rewrite forallb_forall in Hl. by apply Nat.ltb_lt, Hl, list_elem_of_In. }
  rewrite !encode_app, (encode_plain w), (encode_plain (toBase64 bytes)), (Hlit a), (Hlit b), (Hlit d) by (done || vm_compute; reflexivity).
  rewrite !string_length_app. change (String.length a) with 16. change (String.length b) with 17. change (String.length d) with 2. lia.
Qed.
End Sizes.

(** ** Calls of the client, served *)

(** Every refusal has a status of its own between 400 and 599. *)
Lemma refusal_failure {S} (access : AccessGateway S) method request route s refusal s' :
  authorise (Some access) method request route s = (Ok (inl refusal), s') →
  ∃ status code message, refusal = failure status code message request ∧ (400 ≤ status ≤ 599)%Z.
Proof.
  unfold authorise. case_match; [intros [= <- <-]; eexists _, _, _; split; [reflexivity|lia]|].
  intros (a & s1 & _ & Hr)%M_bind_Ok. destruct a as [a|]; [|injection Hr as <- <-; eexists _, _, _; split; [reflexivity|lia]].
  destruct (given _) as [ws|]; [|injection Hr as <- <-; eexists _, _, _; split; [reflexivity|lia]].
  apply M_bind_Ok in Hr as (scope & s2 & _ & Hr). apply M_bind_Ok in Hr as ([] & s3 & _ & Hr); cbn [negb] in Hr;
    [|injection Hr as <- <-; eexists _, _, _; split; [reflexivity|lia]].
  apply M_bind_Ok in Hr as ([] & s4 & _ & Hr); cbn [negb] in Hr; [|injection Hr as <- <-; eexists _, _, _; split; [reflexivity|lia]].
  destruct (match route_validate route with Some validate => negb (validate (request_body request)) | None => false end); [|done].
  injection Hr as <- <-; eexists _, _, _; split; [reflexivity|lia].
Qed.

Section Served.
Context `{JsDate} `{TextCodecLaws} `{!Utf8Text, !Utf8TextLaws} `{!UrlParser, !UrlLaws}.
Context {C : Type} (production : bool) (oidc : option (Logins (C := C))) (this : AdminSessionGateway).
Context (clock : Gateway * C → Z) (mode : string) (has : Optional → bool) (run : Call → M (Gateway * C) api_exn (option json)).
Context (fresh : Fresh) (cookie : option string) (chunk : string → list string).
Context (configuration : TransportConfiguration) (boundContext : RequestContext) (randomUUID : string).

Definition the_api : Api (S := Gateway * C) := server_api (Some this) clock mode (Some has) true run.
Definition the_server (request : HttpRequest) : Gateway * C → HttpResponse * (Gateway * C) :=
  serve_http production oidc (Some this) clock mode (Some has) true run fresh request.
Definition the_client (c : ClientCall) : M (Gateway * C) sdk_exn (option json) :=
  client_call (network_fetch (strip_slash (baseUrl configuration)) cookie chunk the_server) configuration boundContext randomUUID c.

(** The request that arrives, over HTTP and at the routes. *)
Definition arrived (path : string) (options : RequestOptions) : HttpRequest :=
  mkHttpRequest (default "GET" (option_method options)) path
    (map (λ e, (e.1, inl e.2)) (transport_headers configuration "application/json" options) ++
     match cookie with Some c => [("cookie", inl c)] | None => [] end)%list
    match option_body options with Some body => chunk (encode (JSON_stringify body)) | None => [] end.
Definition received (c : ClientCall) (path : string) (options : RequestOptions) : ApiRequest :=
  api_request fresh (arrived path options) (option_body options) (query_params c).

(** A request that the wire carries unchanged: header values that need no
    trimming, a body of distinct keys within the limit. *)
Definition headers_carried (options : RequestOptions) : Prop :=
  Forall (λ e, trim_header e.2 = e.2 ∧ existsb bad_header_char (list_ascii_of_string e.2) = false)
    (transport_headers configuration "application/json" options).
Definition carried (options : RequestOptions) : Prop :=
  headers_carried options ∧
  match option_body options with
  | Some body => json_wf body ∧ (Z.of_nat (String.length (encode (JSON_stringify body))) ≤ MAX_BODY_BYTES)%Z
  | None => True
  end.

Lemma full_path_slash c : startsWith (full_path c) "/" = true.
Proof. unfold full_path, path_of, startsWith. destruct (query_params c); [|rewrite <- string_app_assoc]; apply prefix_app. Qed.
Lemma addressed_segments c : addressable c → Forall (λ s, s ∉ [EmptyString; "."; ".."]) (map text (components_of c)).
Proof.
  intros [Ha _]. assert (Forall (λ x, match x with Lit s => s ∉ [EmptyString; "."; ".."] | Given _ => True end) (components_of c)) as Hl.
  { destruct c; cbn; try destruct (given _);
      repeat first [apply Forall_nil_2|apply Forall_cons_2; [first [exact I|apply (bool_decide_unpack _); vm_compute; exact I]|]]. }
  apply Forall_map, Forall_forall. intros x Hx. pose proof (proj1 (Forall_forall _ _) Ha x Hx) as Hx1.
  pose proof (proj1 (Forall_forall _ _) Hl x Hx) as Hx2. by destruct x.
Qed.
Lemma full_path_parts c : addressable c → url_parts (full_path c) = Some (path_of (map text (components_of c)), query_params c).
Proof.
  intros Ha%addressed_segments. assert (map text (components_of c) ≠ []) as Hne by (destruct c; cbn; try destruct (given _); done).
  unfold full_path. destruct (query_params c) as [|p ps]; [by apply url_path|by apply url_query].
Qed.
(** No call has a path of the endpoints of sessions. *)
Lemma not_auth c q rest : addressable c → split "/" q = EmptyString :: "v1" :: "auth" :: rest →
  forallb (λ t, forallb unreserved (list_ascii_of_string t)) rest = true →
  (path_of (map text (components_of c)) === q) = false.
Proof.
  intros Ha Hq Hr. apply bool_decide_eq_false_2. intros E. pose proof (addressable_texts c Ha) as Ht.
  apply exact_path in E; [|by destruct c; cbn; try destruct (given _)|done|by rewrite Hq|].
  - rewrite Hq in E. destruct c; cbn in E; try destruct (given _); done.
  - rewrite Hq. cbn. repeat constructor. apply Forall_forall. intros t Ht'. apply plain_component.
    by apply (proj1 (forallb_forall _ _) Hr), list_elem_of_In.
Qed.

Context (Hchunk : ∀ bytes, String.concat EmptyString (chunk bytes) = bytes).
Context (Hhas : ∀ o, has o = true).

Section OneCall.
Context (c : ClientCall) (path : string) (options : RequestOptions).
Context (Ha : addressable c) (Hr : request_of configuration boundContext randomUUID c = Ok (path, options)).

Lemma call_sent s : headers_carried options → the_client c s = let '(response, s') := the_server (arrived path options) s in (read_response response, s').
Proof.
  intros Hh. pose proof (request_parts_of _ _ _ _ _ _ Hr) as Hp. unfold the_client, client_call. rewrite Hr. cbn [lift].
  rewrite lift_bind. unfold transport_request, transport_url. 
  assert (startsWith path "/" = true) as -> by (rewrite (parts_path _ _ _ _ _ _ Hp); apply full_path_slash).
  unfold network_fetch. unfold startsWith at 1. rewrite prefix_app, substring_after. cbn [negb orb].
  assert (map (λ e : string * string, (e.1, trim_header e.2)) (transport_headers configuration "application/json" options) =
    transport_headers configuration "application/json" options) as ->.
  { induction Hh as [|[n v] l [Hv _] _ IH]; [done|]. cbn in *. by rewrite IH, Hv. }
  assert (existsb (λ e : string * string, existsb bad_header_char (list_ascii_of_string e.2))
    (transport_headers configuration "application/json" options) = false) as ->.
  { induction Hh as [|[n v] l [_ Hv] _ IH]; [done|]. cbn in *. by rewrite IH, Hv. }
  unfold mbind, M_bind, arrived. unfold fmap, option_fmap, option_map. destruct (option_body options); by destruct (the_server _ s).
Qed.

(** Until the body is read, every call takes the same way through the server. *)
Lemma call_attempted s : the_server (arrived path options) s =
  match (lift (readJsonBody (arrived path options)) ≫= λ body,
         route the_api (api_request fresh (arrived path options) body (query_params c)) (method_of c) (path_of (map text (components_of c))) ≫= λ r,
         lift (send_result production r)) s with
  | (Ok response, s') => (response, s')
  | (Err e, s') => (caught production fresh (arrived path options) e, s')
  end.
Proof.
  pose proof (request_parts_of _ _ _ _ _ _ Hr) as Hp. unfold the_server, serve_http, attempt. cbn [http_url arrived].
  assert (url_parts path = Some (path_of (map text (components_of c)), query_params c)) as ->
    by (rewrite (parts_path _ _ _ _ _ _ Hp); by apply full_path_parts). cbn [http_method arrived]. rewrite (parts_method _ _ _ _ _ _ Hp).
  rewrite (not_auth c "/v1/auth/oidc/start" ["oidc"; "start"]), (not_auth c "/v1/auth/oidc/callback" ["oidc"; "callback"]),
    (not_auth c "/v1/auth/session" ["session"]) by (done || reflexivity).
  reflexivity.
Qed.

Context (Hc : carried options).
Lemma body_arrived : readJsonBody (arrived path options) = Ok (option_body options).
Proof.
  pose proof (request_parts_of _ _ _ _ _ _ Hr) as Hp. pose proof (parts_method _ _ _ _ _ _ Hp) as Hm. destruct Hc as [_ Hb].
  destruct (option_body options) as [body|] eqn:Eb.
  - assert (method_of c ≠ "GET") as Hg by (intros Hg%(parts_body _ _ _ _ _ _ Hp); congruence). destruct Hb as [Hwf Hl].
    apply body_received; cbn; rewrite ?Hm, ?Eb; [done|by destruct c|done|apply Hchunk|done].
  - unfold readJsonBody, arrived. cbn. rewrite Eb. cbn. by destruct (_ || _).
Qed.

Lemma call_received s : the_server (arrived path options) s =
  match (route the_api (received c path options) (method_of c) (path_of (map text (components_of c))) ≫= λ r, lift (send_result production r)) s with
  | (Ok response, s') => (response, s')
  | (Err e, s') => (caught production fresh (arrived path options) e, s')
  end.
Proof. rewrite call_attempted, body_arrived, lift_bind. reflexivity. Qed.

(** The headers of the client that the server passes on. *)
Lemma header_received n : n ∈ passed_headers → n ≠ "cookie" →
  header (received c path options) n = map_get n (transport_headers configuration "application/json" options).
Proof.
  intros Hin Hck. unfold header, received, api_request. cbn [request_headers map_get].
  rewrite (bool_decide_eq_false_2 (n = "x-request-id")) by (intros ->; revert Hin; apply (bool_decide_unpack _); vm_compute; exact I).
  rewrite map_get_chosen by done. unfold http_header, arrived. cbn [http_headers]. rewrite map_get_over, map_get_inl.
  destruct (map_get n (transport_headers _ _ _)); [done|]. destruct cookie; [|done]. cbn. by rewrite bool_decide_eq_false_2.
Qed.
Lemma dataset_received : header (received c path options) "x-trust-dataset-id" =
  given (over (context_datasetId (context_of c)) (context_datasetId boundContext)).
Proof.
  pose proof (request_parts_of _ _ _ _ _ _ Hr) as Hp. rewrite header_received by (apply (bool_decide_unpack _); vm_compute; exact I).
  apply (dataset_header configuration boundContext "application/json" options _ (reauth_header c) (parts_headers _ _ _ _ _ _ Hp)).
  unfold reauth_header. by destruct (given_proof c).
Qed.
Lemma proof_received : header (received c path options) "x-trust-reauth" = given_proof c.
Proof.
  pose proof (request_parts_of _ _ _ _ _ _ Hr) as Hp. rewrite header_received by (apply (bool_decide_unpack _); vm_compute; exact I).
  eapply proof_header, (parts_headers _ _ _ _ _ _ Hp).
Qed.
Lemma token_received : header (received c path options) "authorization" = (λ t, "Bearer " +:+ t) <$> given (accessToken configuration).
Proof.
  pose proof (request_parts_of _ _ _ _ _ _ Hr) as Hp. rewrite header_received by (apply (bool_decide_unpack _); vm_compute; exact I).
  eapply token_header; [apply (parts_headers _ _ _ _ _ _ Hp)|apply (parts_public _ _ _ _ _ _ Hp)].
Qed.

(** What the client makes of a refusal. *)
Definition refused (r : ApiResult) : sdk_exn := api_error (status_of r) (default JNull (result_body r)).
Lemma json_headers_sent : existsb (λ h, existsb (λ v, existsb control_char (list_ascii_of_string v)) h.2)
  (with_headers (json_headers production) []) = false.
Proof. destruct production; vm_compute; reflexivity. Qed.
Lemma json_answer status body : (100 ≤ status ≤ 999)%Z → json_wf body →
  ∃ response, send_result production (mkApiResult (JNumber status) (Some body) None) = Ok response ∧
    response_status response = status ∧ response_json response = Some body.
Proof.
  intros Hs Hwf. unfold send_result, send, writeHead. cbn [answer_bytes result_headers result_body status_of result_status result_header_list entries_of map].
  rewrite (proj2 (Z.ltb_ge status 100)), (proj2 (Z.ltb_ge 999 status)) by lia. cbn [orb throw_if mbind result_bind].
  change (result_header_list (mkApiResult (JNumber status) (Some body) None)) with (@nil (string * list string)). rewrite json_headers_sent.
  eexists. split; [reflexivity|]. split; [done|].
  change (JSON_parse (decode_lossy (encode (JSON_stringify body))) = Some body). by rewrite decode_lossy_encode, JSON_parse_stringify.
Qed.
Lemma failure_answer status code message request :
  (400 ≤ status ≤ 599)%Z → ∃ response, send_result production (failure status code message request) = Ok response ∧
    read_response response = Err (refused (failure status code message request)).
Proof.
  intros Hs. unfold failure. set (body := JObject _). destruct (json_answer status body) as (response & Hr' & Hst & Hj); [lia| |].
  { unfold body. destruct (given _); cbn; (split; [apply (bool_decide_unpack _); vm_compute; exact I|by repeat constructor]). }
  exists response. split; [done|]. unfold read_response, response_ok, error_of. rewrite Hst, Hj, (proj2 (Z.leb_gt status 299)) by lia.
  rewrite andb_false_r. done.
Qed.
Lemma value_answer v : json_wf v →
  ∃ response, send_result production (mkApiResult (JNumber 200) (Some v) None) = Ok response ∧ read_response response = Ok (Some v).
Proof.
  intros Hwf. destruct (json_answer 200 v) as (response & Hr' & Hst & Hj); [lia|done|]. exists response. split; [done|].
  unfold read_response, response_ok. by rewrite Hst, Hj.
Qed.

Definition proper_status (e : api_exn) : Prop := match e with ApiRouteError status _ _ => (400 ≤ status ≤ 599)%Z | OtherThrown _ _ => True end.
Lemma error_answer_failure e request : proper_status e →
  ∃ status code message, error_answer e request = failure status code message request ∧ (400 ≤ status ≤ 599)%Z.
Proof.
  destruct e as [status code message|code message]; cbn [error_answer proper_status]; [by intros; eexists _, _, _|]. intros _.
  repeat (case_bool_decide; [eexists _, _, _; (split; [reflexivity|lia])|]). eexists _, _, _; (split; [reflexivity|lia]).
Qed.
(** What the server answers a call with. *)
Lemma call_answered s r s' :
  route the_api (received c path options) (method_of c) (path_of (map text (components_of c))) s = (Ok r, s') →
  ∀ outcome, (∃ response, send_result production r = Ok response ∧ read_response response = outcome) → the_client c s = (outcome, s').
Proof.
  intros Hroute outcome (response & Hs & Ho). rewrite call_sent, call_received by apply Hc. unfold mbind, M_bind. rewrite Hroute, Hs. cbn. by rewrite Ho.
Qed.

(** The route of the call, authorised as the gateway decides. *)
Lemma call_secured : ∃ h,
  (∀ workspaceId actor, handler_call h workspaceId actor = Ok (meaning boundContext c (option_body options) workspaceId actor)) ∧
  (wrapped c = false → ∀ v, handler_finish h (Some v) = Ok (Some v)) ∧
  route the_api (received c path options) (method_of c) (path_of (map text (components_of c))) =
    secured (Some (admin_gateway this)) (method_of c) (received c path options) (handler_route the_api h).
Proof.
  destruct (call_routed the_api has eq_refl Hhas eq_refl (received c path options) boundContext c Ha dataset_received) as (e & args & Hroute & Hav & Hcall & Hfin).
  { unfold received, api_request, query_of. cbn [request_query]. destruct c; try done. cbn [query_params]. unfold binding_params.
    destruct (given _), applicationTenantId as [[t|]|]; try destruct (given (Some t)); reflexivity. }
  exists (entry_handler e args.1 args.2). split; [done|]. split; [done|]. rewrite Hroute. unfold serve. rewrite Hav. f_equal.
  unfold configured. cbn. rewrite Hhas. by rewrite andb_false_r.
Qed.
End OneCall.

(** C16. The client, the wire, the server and the routes agree.  Whatever call of
    the client, identifiers and body the wire can carry, in whatever chunks: the
    request that arrives has the token of the configuration and the token the caller
    presents again; the command that runs is the one the call stands for
    ([meaning]), with the identifiers and the value or arguments the caller gave
    ([given_body], with the workspace of the client), and in the workspace and for
    the actor that were authorised; a value that the command answers is what the
    client returns; and a refusal of the gateway or an error of the command is the
    [TrustApiError] that the client throws, with the status and the code of the
    answer.  Of values, the download of an export, whose route wraps it, one that
    has the form of an answer of the API itself, and an undefined one, are not
    covered. *)
Theorem client_call_runs_its_command c path options :
  addressable c → request_of configuration boundContext randomUUID c = Ok (path, options) → carried options →
  let request := received c path options in
  header request "authorization" = (λ t, "Bearer " +:+ t) <$> given (accessToken configuration) ∧
  header request "x-trust-reauth" = given_proof c ∧
  ∃ w, (workspace configuration boundContext = Ok w ∨ given_body randomUUID c w = None) ∧
  let command_of workspaceId actor := meaning boundContext c (given_body randomUUID c w) workspaceId actor in
  ∃ h, (∀ workspaceId actor, handler_call h workspaceId actor = Ok (command_of workspaceId actor)) ∧
  ∀ s,
    match authorise (Some (admin_gateway this)) (method_of c) request (handler_route the_api h) s with
    | (Ok (inr (workspaceId, actor)), s1) =>
        match run (command_of workspaceId actor) s1 with
        | (Ok (Some v), s2) => wrapped c = false → isApiResult (Some v) = None → json_wf v → the_client c s = (Ok (Some v), s2)
        | (Ok None, _) => True
        | (Err e, s2) => proper_status e → the_client c s = (Err (refused (error_answer e request)), s2)
        end
    | (Ok (inl refusal), s1) => the_client c s = (Err (refused refusal), s1)
    | (Err _, s1) => ∃ e, the_client c s = (Err e, s1)
    end.
Proof.
  intros Ha Hr Hc request. split_and!; [by apply token_received|by apply proof_received|].
  destruct (parts_given _ _ _ _ _ _ (request_parts_of _ _ _ _ _ _ Hr)) as (w & Hw & Hbody). exists w. split; [done|]. cbv zeta.
  destruct (call_secured c path options Ha Hr) as (h & Hcall & Hfin & Hroute). rewrite Hbody in Hcall. exists h. split; [done|]. intros s.
  pose proof (call_answered c path options Ha Hr Hc s) as Hans. rewrite Hroute in Hans. unfold secured, mbind, M_bind in Hans. fold request in Hans.
  destruct (authorise _ _ _ _ s) as [[[refusal|[ws actor]]|e] s1] eqn:Eauth.
  - apply (Hans _ _ eq_refl). apply refusal_failure in Eauth as (status & code & message & -> & Hs). by apply failure_answer.
  - unfold respond, try_catch, handler_route, handler_execute in Hans. cbn [route_execute] in Hans. rewrite Hcall in Hans.
    unfold mbind, M_bind in Hans. cbn [lift] in Hans. change (api_run the_api) with run in Hans.
    destruct (run _ s1) as [[[v|]|e] s2]; [| done|].
    + intros Hwr Hi Hwf. rewrite Hfin in Hans by done. apply (Hans _ _ eq_refl). rewrite Hi. by apply value_answer.
    + intros He. apply (Hans _ _ eq_refl). destruct (error_answer_failure e request He) as (status & code & message & -> & Hs). by apply failure_answer.
  - rewrite (call_sent c path options Hr) by apply Hc. rewrite (call_received c path options Ha Hr Hc). unfold mbind, M_bind. rewrite Hroute. unfold secured, mbind, M_bind.
    fold request. rewrite Eauth. unfold read_response, response_ok, caught. cbn [response_status].
    destruct (thrown_message e === Some "request_too_large"), (thrown_message e === Some "invalid_json"); eexists; reflexivity.
Qed.

(** The limits of the two ends.  Every upload the client accepts (at most
    750,000 bytes) makes a body within the limit of the server, for workspaces
    with plain names of up to 40,000 characters.  An archive of more than 786,432
    bytes, of the 8,000,000 the client accepts, is refused by the server as too
    large, whoever sends it and whatever the chunks. *)
Theorem transfer_limits :
  (∀ w bytes, (∀ c, c ∈ list_ascii_of_string w → unreserved c = true) → String.length w ≤ Z.to_nat 40000 →
     String.length bytes ≤ MAX_UPLOAD_BYTES →
     (Z.of_nat (String.length (encode (JSON_stringify (completion_body w bytes)))) ≤ MAX_BODY_BYTES)%Z) ∧
  (∀ bytes key path options s,
     request_of configuration boundContext randomUUID (archives_upload bytes key) = Ok (path, options) → headers_carried options →
     Z.to_nat 786432 < String.length bytes →
     the_client (archives_upload bytes key) s =
       (Err (TrustApiError 413 (Some (JString "The request body exceeds the allowed size.")) (Some (JString "REQUEST_TOO_LARGE"))
          (Some (JString (requestId fresh (arrived path options)))) None), s)).
Proof.
  split.
  - intros w bytes Hw Hl Hb. unfold completion_body. rewrite upload_body_length by done. destruct (base64_length bytes) as [_ Hu].
    unfold MAX_UPLOAD_BYTES in Hb. unfold MAX_BODY_BYTES. lia.
  - intros bytes key path options s Hr Hh Hb. assert (addressable (archives_upload bytes key)) as Ha by (split; [by repeat constructor|done]).
    rewrite (call_sent _ _ _ Hr s Hh), (call_attempted _ _ _ Ha Hr).
    assert (readJsonBody (arrived path options) = Err request_too_large) as ->.
    { pose proof (request_parts_of _ _ _ _ _ _ Hr) as Hp. unfold readJsonBody. cbn [http_method arrived]. rewrite (parts_method _ _ _ _ _ _ Hp). cbn [method_of].
      rewrite !bool_decide_eq_false_2 by done. cbn [orb http_chunks arrived].
      cbn [request_of application_requests binding_requests governance_requests resource_requests object_requests portability_requests] in Hr.
      destruct (MAX_ARCHIVE_UPLOAD_BYTES <? String.length bytes); [done|]. unfold with_body in Hr.
      destruct (workspace configuration boundContext) as [w|]; [|done]. injection Hr as <- <-. cbn [option_body].
      rewrite read_chunks_large; [done|done|]. rewrite Hchunk.
      pose proof (base64_body_length [("workspaceId", JString w); ("idempotencyKey", JString (key_or randomUUID key "archive"))] "archiveBase64" bytes) as Hl.
      cbn [app] in Hl. destruct (base64_length bytes) as [Hb' _]. unfold MAX_BODY_BYTES. lia. }
    rewrite lift_bind. unfold caught. cbn [thrown_message request_too_large]. rewrite strict_eq_refl. unfold read_response, response_ok, error_of, response_json.
    cbn [response_status response_body default from_option id]. rewrite decode_lossy_encode, JSON_parse_stringify; [reflexivity|].
    split; [apply (bool_decide_unpack _); vm_compute; exact I|by repeat constructor].
Qed.
End Served.

(** ** A concrete wire *)

Module SdkWitness.
Import Archive.Utf8 AccessWitness ApiWitness.

#[export] Instance utf8_text : Utf8Text := {| decode_lossy s := default EmptyString (utf8_decode s) |}.
Lemma utf8_app a b : utf8_encode (a +:+ b) = utf8_encode a +:+ utf8_encode b.
Proof.
  induction a as [|c a IH]; [done|]. change (String c a +:+ b) with (String c (a +:+ b)). cbn [utf8_encode].
  destruct (Nat.ltb _ _); rewrite IH; reflexivity.
Qed.
#[export] Instance utf8_text_laws : Utf8TextLaws.
Proof.
  split.
  - intros s. change (default EmptyString (decode (encode s)) = s). by rewrite decode_encode.
  - exact utf8_app.
  - intros s Hs. cbn. induction s as [|c s IH]; [done|]. cbn [utf8_encode]. rewrite (proj2 (Nat.ltb_lt _ _)) by (apply Hs; by left).
    rewrite IH; [done|]. intros d Hd. apply Hs. by right.
Qed.

(** A URL parser: the query is cut off, dot segments are removed. *)
Fixpoint cut (c : ascii) (s : string) : string * option string :=
  match s with
  | EmptyString => (EmptyString, None)
  | String d s => if d === c then (EmptyString, Some s) else let '(a, b) := cut c s in (String d a, b)
  end.
Fixpoint form_unescape (s : string) : string :=
  match s with
  | EmptyString => EmptyString
  | String c r =>
      if c === "+"%char then String " " (form_unescape r)
      else match c, r with
           | "%"%char, String a (String b r') =>
               match hex_value a, hex_value b with
               | Some x, Some y => String (ascii_of_nat (16 * x + y)) (form_unescape r')
               | _, _ => String c (form_unescape r)
               end
           | _, _ => String c (form_unescape r)
           end
  end.
Definition form_parse (query : string) : list (string * string) :=
  map (λ kv, let '(k, v) := cut "=" kv in (decode_lossy (form_unescape k), decode_lossy (form_unescape (default EmptyString v))))
    (split "&" query).
Fixpoint remove_dots (acc segments : list string) : list string :=
  match segments with
  | [] => rev acc
  | s :: rest =>
      if s === "." then remove_dots (match rest with [] => EmptyString :: acc | _ => acc end) rest
      else if s === ".." then remove_dots (match rest with [] => EmptyString :: tl acc | _ => tl acc end) rest
      else remove_dots (s :: acc) rest
  end.
#[export] Instance url_parser : UrlParser := {| url_parts target :=
  let '(path, query) := cut "?" target in
  match split "/" path with
  | EmptyString :: segments => Some ("/" +:+ join "/" (remove_dots [] segments), match query with Some q => form_parse q | None => [] end)
  | _ => None
  end |}.

Lemma cut_none c s : c ∉ list_ascii_of_string s → cut c s = (s, None).
Proof. induction s as [|d s IH]; [done|]. intros [Hd Hs]%not_elem_of_cons. cbn. rewrite bool_decide_eq_false_2 by done. by rewrite IH. Qed.
Lemma cut_app c s r : c ∉ list_ascii_of_string s → cut c (s +:+ String c r) = (s, Some r).
Proof.
  induction s as [|d s IH]; [intros _; change (EmptyString +:+ String c r) with (String c r); cbn [cut]; by rewrite strict_eq_refl|]. intros [Hd Hs]%not_elem_of_cons.
  change (String d s +:+ String c r) with (String d (s +:+ String c r)). cbn [cut]. rewrite bool_decide_eq_false_2 by done. by rewrite IH.
Qed.
Lemma remove_dots_none acc segments : Forall (λ s, s ≠ "." ∧ s ≠ "..") segments → remove_dots acc segments = (rev acc ++ segments)%list.
Proof.
  intros Hs. revert acc. induction Hs as [|s segments [H1 H2] _ IH]; intros acc; [by rewrite app_nil_r|].
  cbn. rewrite !bool_decide_eq_false_2 by done. rewrite IH. cbn. by rewrite <- app_assoc.
Qed.

(** What a form escapes. *)
Definition form_safe (c : ascii) : bool := form_plain c || one_of "+%" c.
Lemma form_bytes_safe s c : c ∈ list_ascii_of_string (form_bytes s) → form_safe c = true.
Proof.
  induction s as [|a s IH]; [by intros ?%elem_of_nil|]. cbn [form_bytes]. rewrite list_ascii_of_app. intros [Hc|Hc]%elem_of_app; [|by apply IH].
  destruct (form_plain a) eqn:Ep; [apply elem_of_cons in Hc as [->|Hc%elem_of_nil]; [unfold form_safe; by rewrite Ep|done]|].
  destruct (a === " "%char); [by apply elem_of_cons in Hc as [->|Hc%elem_of_nil]|].
  assert (c ∈ list_ascii_of_string (percent_all (String a EmptyString))) as Hc' by (cbn [percent_all]; by rewrite string_app_nil_r).
  apply percent_all_chars in Hc' as [->|Hu]; [done|]. unfold form_safe, form_plain. apply orb_true_iff in Hu as [->| ->]; by rewrite ?orb_true_r.
Qed.
Lemma form_roundtrip s : form_unescape (form_bytes s) = s.
Proof.
  induction s as [|a s IH]; [done|]. cbn [form_bytes]. destruct (form_plain a) eqn:Ep; [|destruct (a === " "%char) eqn:Es].
  - change (String a EmptyString +:+ form_bytes s) with (String a (form_bytes s)). cbn [form_unescape].
    rewrite bool_decide_eq_false_2 by (by intros ->). rewrite IH.
    destruct a as [[] [] [] [] [] [] [] []]; try reflexivity; by vm_compute in Ep.
  - apply bool_decide_eq_true in Es as ->. change ("+" +:+ form_bytes s) with (String "+" (form_bytes s)). cbn [form_unescape].
    by rewrite strict_eq_refl, IH.
  - destruct (percent_spec a (form_bytes s)) as (x & y & -> & hx & hy & Hx & Hy & Ha). cbn [form_unescape].
    rewrite bool_decide_eq_false_2 by done. by rewrite Hx, Hy, Ha, IH.
Qed.

Lemma form_no s c : form_safe c = false → c ∉ list_ascii_of_string (form_bytes s).
Proof. intros Hc Hin%form_bytes_safe. congruence. Qed.
Lemma form_pair (p : string * string) :
  (let '(k, v) := cut "=" (form_bytes (encode p.1) +:+ "=" +:+ form_bytes (encode p.2)) in
   (decode_lossy (form_unescape k), decode_lossy (form_unescape (default EmptyString v)))) = p.
Proof.
  change ("=" +:+ form_bytes (encode p.2)) with (String "=" (form_bytes (encode p.2))). rewrite cut_app by (by apply form_no). cbn [default from_option id].
  rewrite !form_roundtrip, !decode_lossy_encode. by destruct p.
Qed.
Lemma params_roundtrip params : params ≠ [] → form_parse (params_toString params) = params.
Proof.
  unfold form_parse, params_toString. induction params as [|p [|q params] IH]; intros Hne; [done| |].
  - cbn [map join String.concat]. rewrite split_none; [cbn [map]; by rewrite form_pair|]. apply forallb_forall. intros c Hc%list_elem_of_In.
    unfold chars in Hc. rewrite !list_ascii_of_app in Hc. case_bool_decide as E; [|done]. subst.
    apply elem_of_app in Hc as [Hc|[Hc|Hc]%elem_of_app]; [by apply form_no in Hc|by apply list_elem_of_In in Hc as [|[]]|by apply form_no in Hc].
  - cbn [map]. change (join "&" (?a :: ?b :: ?l)) with (a +:+ String "&" (join "&" (b :: l))). rewrite split_app.
    + cbn [map]. rewrite form_pair. f_equal. by apply IH.
    + apply forallb_forall. intros c Hc%list_elem_of_In.
      unfold chars in Hc. rewrite !list_ascii_of_app in Hc. case_bool_decide as E; [|done]. subst.
      apply elem_of_app in Hc as [Hc|[Hc|Hc]%elem_of_app]; [by apply form_no in Hc|by apply list_elem_of_In in Hc as [|[]]|by apply form_no in Hc].
Qed.

Lemma path_no_query segments : "?"%char ∉ list_ascii_of_string (path_of segments).
Proof.
  unfold path_of. intros [E|Hc]%elem_of_cons; [done|]. revert Hc. induction segments as [|s [|t segments] IH]; [by intros ?%elem_of_nil| |].
  - by intros [|]%component_chars.
  - change (join "/" (map encodeURIComponent (s :: t :: segments))) with (encodeURIComponent s +:+ String "/" (join "/" (map encodeURIComponent (t :: segments)))).
    rewrite list_ascii_of_app. intros [[|]%component_chars|[|Hc]%elem_of_cons]%elem_of_app; done.
Qed.
Lemma path_parsed segments : Forall (λ s, s ∉ [EmptyString; "."; ".."]) segments → segments ≠ [] →
  split "/" (path_of segments) = EmptyString :: map encodeURIComponent segments ∧
  "/" +:+ join "/" (remove_dots [] (map encodeURIComponent segments)) = path_of segments.
Proof.
  intros Hs Hne. split; [by apply split_path|]. rewrite remove_dots_none; [done|]. apply Forall_map. eapply Forall_impl; [exact Hs|].
  intros s Hd. split; intros E; apply Hd.
  - change "." with (encodeURIComponent ".") in E. apply encodeURIComponent_inj in E. set_solver.
  - change ".." with (encodeURIComponent "..") in E. apply encodeURIComponent_inj in E. set_solver.
Qed.
#[export] Instance url_laws : UrlLaws.
Proof.
  split.
  - intros segments Hs Hne path. destruct (path_parsed segments Hs Hne) as [Hsp Hj]. unfold url_parts, url_parser.
    rewrite cut_none by apply path_no_query. fold (path_of segments) in path. subst path. by rewrite Hsp, Hj.
  - intros segments params Hs Hne Hp path. destruct (path_parsed segments Hs Hne) as [Hsp Hj]. unfold url_parts, url_parser.
    fold (path_of segments) in path. subst path. change ("?" +:+ params_toString params) with (String "?" (params_toString params)).
    rewrite cut_app by apply path_no_query. by rewrite Hsp, Hj, params_roundtrip.
Qed.

(** A client of the server of [ApiWitness]; bodies arrive in two chunks. *)
Definition config : TransportConfiguration := mkTransport "https://api.example/" (Some "token") None (Some "ws-1") None None.
Definition fresh_ids : Fresh := mkFresh "request-1" "session-1" "csrf-1".
Definition halves (bytes : string) : list string :=
  match bytes with String c rest => [String c EmptyString; rest] | EmptyString => [] end.
Lemma halves_concat bytes : String.concat EmptyString (halves bytes) = bytes.
Proof. by destruct bytes. Qed.
Definition now_of (s : Gateway * list Call) : Z := gateway_clock s.1.
Definition client (c : ClientCall) : M (Gateway * list Call) sdk_exn (option json) :=
  the_client false None owner_gate now_of "live" every log fresh_ids None halves config no_context "u1" c.
Definition outcome (c : ClientCall) : result sdk_exn (option json) * list Call := let '(r, s) := client c start in (r, s.2).

Definition execute_ : ClientCall := plans_execute "p 1/x" (Some "k") "token".
Lemma client_call_runs_its_command_witness : ∃ path options,
  request_of config no_context "u1" execute_ = Ok (path, options) ∧
  let request := received fresh_ids None halves config execute_ path options in
  header request "authorization" = Some "Bearer token" ∧ header request "x-trust-reauth" = Some "token" ∧
  ∃ w, (workspace config no_context = Ok w ∨ given_body "u1" execute_ w = None) ∧
  ∃ h, (∀ workspaceId actor, handler_call h workspaceId actor = Ok (OnPortability (executePlan "p 1/x" actor (Some (JObject
      [("workspaceId", JString w); ("idempotencyKey", JString "k"); ("confirmation", JString "IMPORT")]))))) ∧
  ∀ s,
    match authorise (Some (admin_gateway owner_gate)) "POST" request
      (handler_route (the_api owner_gate now_of "live" every log) h) s with
    | (Ok (inr (workspaceId, actor)), s1) =>
        match log (meaning no_context execute_ (given_body "u1" execute_ w) workspaceId actor) s1 with
        | (Ok (Some v), s2) => false = false → isApiResult (Some v) = None → json_wf v → client execute_ s = (Ok (Some v), s2)
        | (Ok None, _) => True
        | (Err e, s2) => proper_status e → client execute_ s = (Err (refused (error_answer e request)), s2)
        end
    | (Ok (inl refusal), s1) => client execute_ s = (Err (refused refusal), s1)
    | (Err _, s1) => ∃ e, client execute_ s = (Err e, s1)
    end.
Proof.
  eexists _, _. split; [reflexivity|].
  apply (client_call_runs_its_command false None owner_gate now_of "live" every log fresh_ids None halves config no_context "u1" halves_concat
    (λ _, eq_refl) execute_); [|reflexivity|].
  - split; [|exact I]. repeat first [apply Forall_nil_2|apply Forall_cons_2; [first [exact I|apply (bool_decide_unpack _); vm_compute; exact I]|]].
  - split; [apply (bool_decide_unpack _); vm_compute; exact I|]. split; [|vm_compute; discriminate].
    split; [apply (bool_decide_unpack _); vm_compute; exact I|by repeat constructor].
Defined.

(** The identifiers and the body of a call arrive as they were given. *)
Example calls_arrive :
  outcome (datasets_get "d 1/x") = (Ok (Some (JString "done")), [OnCommands (getDataset "ws-1" "d 1/x")]) ∧
  outcome (tenants_suspend "app%2F" "t?1" [("reason", JString "audit"); ("expectedUpdatedAt", JString "v1"); ("idempotencyKey", JString "k")]) =
    (Ok (Some (JString "done")), [OnCommands (suspendApplicationTenant owner "t?1" (Some (JObject [("reason", JString "audit");
      ("expectedUpdatedAt", JString "v1"); ("idempotencyKey", JString "k"); ("workspaceId", JString "ws-1"); ("applicationId", JString "app%2F")])))]) ∧
  outcome (bindings_list (Some "a&b=c") (Some None)) =
    (Ok (Some (JString "done")), [OnCommands (listStorageBindings "ws-1"
      (Some (JObject [("applicationId", JString "a&b=c"); ("applicationTenantId", JNull)])))]).
Proof. split_and!; vm_compute; reflexivity. Qed.

(** Identifiers that a path does not carry: a tenant [..] asks for the storage of
    the application itself, a binding [rollup] for the overview of all bindings. *)
Example unaddressable_identifiers :
  outcome (bindings_effective "app-1" (Some "..")) = (Ok (Some (JString "done")), [OnCommands (getEffectiveStorage "ws-1" "app-1" None)]) ∧
  outcome (bindings_get "rollup") = (Ok (Some (JString "done")), [OnCommands (getStorageBindingRollup "ws-1")]) ∧
  (∃ message, (outcome (datasets_get "..")).1 = Err (TrustApiError 404 message (Some (JString "NOT_FOUND")) (Some (JString "request-1")) None)).
Proof. split_and!; [vm_compute; reflexivity..|]. eexists. vm_compute; reflexivity. Qed.

(** An archive of 800,000 bytes, a tenth of what the client accepts. *)
Definition archive : string := string_of_list_ascii (replicate (Z.to_nat 800000) "a"%char).
Lemma archive_length : String.length archive = Z.to_nat 800000.
Proof. unfold archive. induction (Z.to_nat 800000) as [|n IH]; [done|]. cbn. by f_equal. Qed.
Definition archive_options : RequestOptions :=
  mkOptions (Some "POST") (Some (JObject [("workspaceId", JString "ws-1"); ("idempotencyKey", JString "k"); ("archiveBase64", JString (toBase64 archive))]))
    [] false.
Lemma transfer_limits_witness :
  (Z.of_nat (String.length (encode (JSON_stringify (completion_body "ws-1" "bytes")))) ≤ MAX_BODY_BYTES)%Z ∧
  ∀ s, client (archives_upload archive (Some "k")) s =
    (Err (TrustApiError 413 (Some (JString "The request body exceeds the allowed size.")) (Some (JString "REQUEST_TOO_LARGE"))
       (Some (JString "request-1")) None), s).
Proof.
  destruct (transfer_limits false None owner_gate now_of "live" every log fresh_ids None halves config no_context "u1" halves_concat) as [Hfits Hlarge].
  split.
  - apply Hfits; [|apply Nat.leb_le; vm_compute; reflexivity|unfold MAX_UPLOAD_BYTES; cbn [String.length]; lia].
    intros c. apply (proj1 (Forall_forall (λ c, unreserved c = true) _)). repeat constructor.
  - intros s. unfold client.
    rewrite (Hlarge archive (Some "k") "/v1/portability/archives" archive_options s).
    + reflexivity.
    + cbn [request_of application_requests binding_requests governance_requests resource_requests object_requests portability_requests].
      rewrite (proj2 (Nat.ltb_ge _ _)); [reflexivity|]. rewrite archive_length. unfold MAX_ARCHIVE_UPLOAD_BYTES. lia.
    + assert (transport_headers config "application/json" archive_options =
        [("accept", "application/json"); ("content-type", "application/json"); ("authorization", "Bearer token"); ("x-trust-workspace-id", "ws-1")]) as Hh
        by reflexivity.
      unfold headers_carried. rewrite Hh. apply (bool_decide_unpack _). vm_compute. exact I.
    + rewrite archive_length. lia.
Defined.

(** Sessions over HTTP: the cookie of a session stands for the token, with the
    CSRF token where the request changes something. *)
Definition http (oidc : option (Logins (C := list Call))) (request : HttpRequest) (s : Gateway * list Call) :=
  let '(response, s') := serve_http false oidc (Some owner_gate) now_of "live" (Some every) true log fresh_ids request s in
  (response_status response, s').
Definition bearing (method url : string) (headers : list (string * string)) : HttpRequest :=
  mkHttpRequest method url (map (λ e, (e.1, inl e.2)) (("x-trust-workspace-id", "ws-1") :: headers)) [].
Definition logged_in : Gateway * list Call := (http None (bearing "POST" "/v1/auth/session" [("authorization", "Bearer token")]) start).2.
Example session_over_http :
  (http None (bearing "POST" "/v1/auth/session" [("authorization", "Bearer guess")]) start).1 = 401%Z ∧
  (http None (bearing "GET" "/v1/datasets" []) logged_in).1 = 401%Z ∧
  (http None (bearing "GET" "/v1/datasets" [("cookie", "theme=dark; trust_session=session-1")]) logged_in).1 = 200%Z ∧
  (http None (bearing "DELETE" "/v1/storage/bindings/b1" [("cookie", "trust_session=session-1")]) logged_in).1 = 401%Z ∧
  (http None (bearing "DELETE" "/v1/storage/bindings/b1" [("cookie", "trust_session=session-1"); ("x-trust-csrf", "csrf-1")]) logged_in).1 = 200%Z.
Proof. split_and!; vm_compute; reflexivity. Qed.

(** A callback whose state is unknown is answered as an outage of the storage. *)
Definition used_state : Logins (C := list Call) :=
  mkLogins (λ _, mret ("https://idp.example/authorize", "binding"))
    (λ _ _ _, throw (OtherThrown (Some "OIDC_STATE_INVALID") (Some "Login state is invalid or already used."))).
Example invalid_login_is_unavailable :
  (http (Some used_state) (bearing "GET" "/v1/auth/oidc/callback?state=s&code=c" [("cookie", "trust_oidc_binding=b")]) start).1 = 503%Z ∧
  (http (Some used_state) (bearing "GET" "/v1/auth/oidc/callback?state=s" [("cookie", "trust_oidc_binding=b")]) start).1 = 400%Z.
Proof. split; vm_compute; reflexivity. Qed.
End SdkWitness.
