(* ===== verification/Contracts.v ===== *)
(** * packages/persistence-postgres: contract-repository.ts

    The tables behind the API's contract (applications, policy assignments,
    break-glass grants, upload sessions with their operations, audit events, and
    the records it lists) and the transactions of [PostgresContractRepository].
    A row keeps its timestamps as instants; the record the repository returns has
    them as ISO strings, which is what the parameter of the record types is for.
    The constraints are those of migrations 0001 and 0007 to 0010; identifiers are
    UUIDs in canonical form, which PostgreSQL compares as strings.

    The theorems: an idempotency key belongs to one application registration for
    good; a revoked assignment is never listed again and authorises nothing; what
    is listed as an active break-glass grant is a bounded grant of eligible
    actions; an application sees its own uploads only, and a completed upload
    keeps its blob; the first event of a workspace's audit log, when this
    repository writes it, makes the log fail verification. *)
From S2P Require Import Prelude Js Concrete Json AuditChain Core Policy UploadMachine IngestStore Quarantine Verification Access.

(** ** Records *)

(** Source: packages/protocol/src/index.ts:138-149 ApplicationRegistration *)
Record ApplicationOf (T : Type) := mkApplicationOf {
  app_id : string;
  app_workspaceId : string;
  app_namespace : string;
  app_name : string;
  app_applicationVersion : string;
  app_schemaPackageIds : list string;
  app_capabilities : list string;
  app_status : ApplicationStatus;
  app_createdAt : T;
  app_updatedAt : T;
}.
Arguments mkApplicationOf {T}. Arguments app_id {T}. Arguments app_workspaceId {T}.
Arguments app_namespace {T}. Arguments app_name {T}. Arguments app_applicationVersion {T}.
Arguments app_schemaPackageIds {T}. Arguments app_capabilities {T}. Arguments app_status {T}.
Arguments app_createdAt {T}. Arguments app_updatedAt {T}.
Abbreviation ApplicationRegistration := (ApplicationOf string).

(** Source: packages/persistence-postgres/src/contract-repository.ts:687-700 ApplicationRow *)
Record ApplicationRow := mkApplicationRow {
  app_row : ApplicationOf Z;
  app_idempotency_key : option string;
  app_request_fingerprint : option string;
}.

(** Source: packages/persistence-postgres/src/contract-repository.ts:701-708 WorkspaceRow *)
Record WorkspaceOf (T : Type) := mkWorkspaceOf {
  wks_id : string;
  wks_name : string;
  wks_slug : string;
  wks_status : string;
  wks_createdAt : T;
  wks_updatedAt : T;
}.
Arguments mkWorkspaceOf {T}. Arguments wks_id {T}. Arguments wks_name {T}. Arguments wks_slug {T}.
Arguments wks_status {T}. Arguments wks_createdAt {T}. Arguments wks_updatedAt {T}.

(** Source: packages/persistence-postgres/src/contract-repository.ts:709-719 DatasetRow *)
Record DatasetOf (T : Type) := mkDatasetOf {
  dsr_id : string;
  dsr_workspaceId : string;
  dsr_schemaPackageId : string;
  dsr_datasetType : string;
  dsr_name : string;
  dsr_status : ResourceStatus;
  dsr_retentionPolicyId : option string;
  dsr_createdAt : T;
  dsr_updatedAt : T;
}.
Arguments mkDatasetOf {T}. Arguments dsr_id {T}. Arguments dsr_workspaceId {T}.
Arguments dsr_schemaPackageId {T}. Arguments dsr_datasetType {T}. Arguments dsr_name {T}.
Arguments dsr_status {T}. Arguments dsr_retentionPolicyId {T}. Arguments dsr_createdAt {T}.
Arguments dsr_updatedAt {T}.

(** Source: packages/persistence-postgres/src/contract-repository.ts:720-730 ResourceRow *)
Record ResourceOf (T : Type) := mkResourceOf {
  rsr_id : string;
  rsr_workspaceId : string;
  rsr_datasetId : string;
  rsr_resourceType : string;
  rsr_title : option string;
  rsr_status : ResourceStatus;
  rsr_currentRevisionId : option string;
  rsr_createdAt : T;
  rsr_updatedAt : T;
}.
Arguments mkResourceOf {T}. Arguments rsr_id {T}. Arguments rsr_workspaceId {T}.
Arguments rsr_datasetId {T}. Arguments rsr_resourceType {T}. Arguments rsr_title {T}.
Arguments rsr_status {T}. Arguments rsr_currentRevisionId {T}. Arguments rsr_createdAt {T}.
Arguments rsr_updatedAt {T}.

(** Source: packages/persistence-postgres/src/contract-repository.ts:731-748 RevisionRow *)
Record RevisionOf (T : Type) := mkRevisionOf {
  rvr_id : string;
  rvr_workspaceId : string;
  rvr_datasetId : string;
  rvr_resourceId : string;
  rvr_revisionNumber : Z;
  rvr_parentRevisionId : option string;
  rvr_mergeParentRevisionIds : list string;
  rvr_schemaPackageId : string;
  rvr_schemaVersion : string;
  rvr_canonicalPayload : list (string * json);
  rvr_canonicalPayloadHash : string;
  rvr_createdBy : string;
  rvr_source : RevisionSource;
  rvr_changeNote : option string;
  rvr_restoredFromRevisionId : option string;
  rvr_createdAt : T;
}.
Arguments mkRevisionOf {T}. Arguments rvr_id {T}. Arguments rvr_workspaceId {T}.
Arguments rvr_datasetId {T}. Arguments rvr_resourceId {T}. Arguments rvr_revisionNumber {T}.
Arguments rvr_parentRevisionId {T}. Arguments rvr_mergeParentRevisionIds {T}.
Arguments rvr_schemaPackageId {T}. Arguments rvr_schemaVersion {T}. Arguments rvr_canonicalPayload {T}.
Arguments rvr_canonicalPayloadHash {T}. Arguments rvr_createdBy {T}. Arguments rvr_source {T}.
Arguments rvr_changeNote {T}. Arguments rvr_restoredFromRevisionId {T}. Arguments rvr_createdAt {T}.

(** Source: packages/protocol/src/index.ts:469-473 RevisionGraph *)
Record RevisionGraph := mkRevisionGraph {
  graph_resourceId : string;
  graph_headRevisionId : option string;
  graph_revisions : list (RevisionOf string);
}.

(** Source: packages/persistence-postgres/src/contract-repository.ts:765-776 PolicyRow *)
Record PolicyOf (T : Type) := mkPolicyOf {
  pol_id : string;
  pol_workspaceId : string;
  pol_principalType : PrincipalType;
  pol_principalId : string;
  pol_role : string;
  pol_scopeKind : ScopeKind;
  pol_scopeId : string;
  pol_createdBy : string;
  pol_createdAt : T;
  pol_revokedAt : option T;
}.
Arguments mkPolicyOf {T}. Arguments pol_id {T}. Arguments pol_workspaceId {T}.
Arguments pol_principalType {T}. Arguments pol_principalId {T}. Arguments pol_role {T}.
Arguments pol_scopeKind {T}. Arguments pol_scopeId {T}. Arguments pol_createdBy {T}.
Arguments pol_createdAt {T}. Arguments pol_revokedAt {T}.
Abbreviation PolicyAssignment := (PolicyOf string).

(** Source: packages/persistence-postgres/src/contract-repository.ts:777-787 BreakGlassRow *)
Record BreakGlassOf (T : Type) := mkBreakGlassOf {
  bg_id : string;
  bg_workspaceId : string;
  bg_principalId : string;
  bg_reason : string;
  bg_actions : list string;
  bg_grantedBy : string;
  bg_grantedAt : T;
  bg_expiresAt : T;
  bg_revokedAt : option T;
}.
Arguments mkBreakGlassOf {T}. Arguments bg_id {T}. Arguments bg_workspaceId {T}.
Arguments bg_principalId {T}. Arguments bg_reason {T}. Arguments bg_actions {T}.
Arguments bg_grantedBy {T}. Arguments bg_grantedAt {T}. Arguments bg_expiresAt {T}.
Arguments bg_revokedAt {T}.
Abbreviation BreakGlassGrant := (BreakGlassOf string).

(** Source: packages/persistence-postgres/src/contract-repository.ts:788-801 RelationRow *)
Record RelationOf (T : Type) := mkRelationOf {
  rlr_id : string;
  rlr_workspaceId : string;
  rlr_datasetId : string;
  rlr_sourceKind : EndpointKind;
  rlr_sourceId : string;
  rlr_targetKind : EndpointKind;
  rlr_targetId : string;
  rlr_relationType : string;
  rlr_metadata : list (string * json);
  rlr_createdBy : string;
  rlr_createdAt : T;
  rlr_endedAt : option T;
}.
Arguments mkRelationOf {T}. Arguments rlr_id {T}. Arguments rlr_workspaceId {T}.
Arguments rlr_datasetId {T}. Arguments rlr_sourceKind {T}. Arguments rlr_sourceId {T}.
Arguments rlr_targetKind {T}. Arguments rlr_targetId {T}. Arguments rlr_relationType {T}.
Arguments rlr_metadata {T}. Arguments rlr_createdBy {T}. Arguments rlr_createdAt {T}.
Arguments rlr_endedAt {T}.

(** Source: packages/persistence-postgres/src/contract-repository.ts:24-29 RelationQuery *)
Record RelationQuery := mkRelationQuery {
  query_datasetId : option string;
  query_subjectKind : option EndpointKind;
  query_subjectId : option string;
  query_includeEnded : bool;
}.

(** The row of [operations]: the columns the repository reads and writes, and
    the result as the blob and the ingest operation it names. *)
(** Source: packages/persistence-postgres/src/contract-repository.ts:802-813 OperationRow *)
Record ContractOperation := mkContractOperation {
  opr_id : string;
  opr_workspaceId : string;
  opr_type : string;
  opr_idempotencyKey : string;
  opr_idempotencyScope : string;
  opr_state : OperationState;
  opr_requestedBy : string;
  opr_principalType : PrincipalType;
  opr_request : list (string * json);
  opr_result : option (list (string * json));
  opr_retryCount : Z;
  opr_errorCode : option string;
  opr_createdAt : Z;
  opr_updatedAt : Z;
  opr_completedAt : option Z;
}.

(** The row of [upload_sessions]. *)
(** Source: packages/persistence-postgres/src/contract-repository.ts:814-827 UploadRow *)
Record UploadRow := mkUploadRow {
  upr_id : string;
  upr_workspaceId : string;
  upr_operationId : string;
  upr_state : OperationState;
  upr_mediaType : string;
  upr_expectedByteLength : Z;
  upr_expectedSha256 : string;
  upr_expiresAt : Z;
  upr_createdAt : Z;
  upr_updatedAt : Z;
}.

(** Source: packages/protocol/src/index.ts:71-72 OperationStatus *)
Inductive OperationStatus := status_pending | status_running | status_succeeded | status_failed | status_quarantined.
#[global] Instance OperationStatus_eq_dec : EqDecision OperationStatus.
Proof. solve_decision. Defined.

(** Source: packages/protocol/src/index.ts:488-502 UploadSession *)
Record UploadSession := mkUploadSession {
  upload_id : string;
  upload_workspaceId : string;
  upload_operationId : string;
  upload_state : OperationState;
  upload_status : OperationStatus;
  upload_mediaType : string;
  upload_expectedByteLength : Z;
  upload_expectedSha256 : string;
  upload_expiresAt : string;
  upload_createdAt : string;
  upload_updatedAt : string;
  upload_completedAt : option string;
  upload_blobId : option json;
}.

(** Source: packages/protocol/src/index.ts:535-547 OperationSummary *)
Record OperationSummary := mkOperationSummary {
  summary_id : string;
  summary_workspaceId : string;
  summary_type : string;
  summary_state : OperationState;
  summary_status : OperationStatus;
  summary_requestedBy : string;
  summary_retryCount : Z;
  summary_errorCode : option string;
  summary_createdAt : string;
  summary_updatedAt : string;
  summary_completedAt : option string;
}.

(** The row of [audit_events]; its hash columns are [char(64)], the previous one
    nullable. *)
(** Source: packages/persistence-postgres/src/contract-repository.ts:749-764 AuditRow *)
Record LogRow := mkLogRow {
  log_body : AuditEventBody;
  log_datasetId : option string;
  log_operationId : option string;
  log_previousHash : option string;
  log_hash : string;
}.

(** Source: packages/protocol/src/index.ts:548-563 AuditEventRecord *)
Record AuditEventRecord := mkAuditRecord {
  record_body : AuditEventBody;
  record_datasetId : option string;
  record_operationId : option string;
  record_eventHash : string;
}.

(** ** The database *)

Record ContractDb := mkContractDb {
  c_workspaces : list (WorkspaceOf Z);
  c_applications : list ApplicationRow;
  c_datasets : list (DatasetOf Z);
  c_resources : list (ResourceOf Z);
  c_revisions : list (RevisionOf Z);
  c_relations : list (RelationOf Z);
  c_policies : list (PolicyOf Z);
  c_grants : list (BreakGlassOf Z);
  c_operations : list ContractOperation;
  c_uploads : list UploadRow;
  c_audit : list LogRow;
}.
Definition set_applications (f : list ApplicationRow → list ApplicationRow) (d : ContractDb) : ContractDb :=
  mkContractDb (c_workspaces d) (f (c_applications d)) (c_datasets d) (c_resources d) (c_revisions d) (c_relations d)
    (c_policies d) (c_grants d) (c_operations d) (c_uploads d) (c_audit d).
Definition set_policies (f : list (PolicyOf Z) → list (PolicyOf Z)) (d : ContractDb) : ContractDb :=
  mkContractDb (c_workspaces d) (c_applications d) (c_datasets d) (c_resources d) (c_revisions d) (c_relations d)
    (f (c_policies d)) (c_grants d) (c_operations d) (c_uploads d) (c_audit d).
Definition set_grants (f : list (BreakGlassOf Z) → list (BreakGlassOf Z)) (d : ContractDb) : ContractDb :=
  mkContractDb (c_workspaces d) (c_applications d) (c_datasets d) (c_resources d) (c_revisions d) (c_relations d)
    (c_policies d) (f (c_grants d)) (c_operations d) (c_uploads d) (c_audit d).
Definition set_contract_operations (f : list ContractOperation → list ContractOperation) (d : ContractDb) : ContractDb :=
  mkContractDb (c_workspaces d) (c_applications d) (c_datasets d) (c_resources d) (c_revisions d) (c_relations d)
    (c_policies d) (c_grants d) (f (c_operations d)) (c_uploads d) (c_audit d).
Definition set_uploads (f : list UploadRow → list UploadRow) (d : ContractDb) : ContractDb :=
  mkContractDb (c_workspaces d) (c_applications d) (c_datasets d) (c_resources d) (c_revisions d) (c_relations d)
    (c_policies d) (c_grants d) (c_operations d) (f (c_uploads d)) (c_audit d).
Definition set_log (f : list LogRow → list LogRow) (d : ContractDb) : ContractDb :=
  mkContractDb (c_workspaces d) (c_applications d) (c_datasets d) (c_resources d) (c_revisions d) (c_relations d)
    (c_policies d) (c_grants d) (c_operations d) (c_uploads d) (f (c_audit d)).

Abbreviation C := (M ContractDb api_exn).

(** Source: packages/persistence-postgres/src/contract-repository.ts:1030-1032 codedError *)
Definition codedError (code message : string) : api_exn := OtherThrown (Some code) (Some message).
(** [new Error(message)] *)
Definition plainError (message : string) : api_exn := OtherThrown None (Some message).
(** An error of the server, by its SQLSTATE; its text is the server's. *)
Definition sqlError (sqlstate : string) : api_exn := OtherThrown (Some sqlstate) None.
Definition unique_violation : api_exn := sqlError "23505".
Definition foreign_key_violation : api_exn := sqlError "23503".
Definition check_violation : api_exn := sqlError "23514".
Definition row_security_violation : api_exn := sqlError "42501".
Definition invalid_datetime : api_exn := sqlError "22007".

Definition error_code (e : api_exn) : option string :=
  match e with ApiRouteError _ code _ => Some code | OtherThrown code _ => code end.

(** [length(trim(s)) > 0] fails: SQL's [trim] removes spaces only. *)
Definition sql_blank (s : string) : bool := forallb (λ c, c === " "%char) (chars s).

(** A value stored in a [char(64)] column is padded with spaces. *)
Fixpoint spaces (n : nat) : string :=
  match n with O => EmptyString | S n => String " " (spaces n) end.
Definition char64 (s : string) : string := s +:+ spaces (64 - String.length s).

Definition principal_type_name (t : PrincipalType) : string :=
  match t with principal_user => "user" | principal_service => "service" | principal_application => "application" end.

(** Source: packages/persistence-postgres/src/contract-repository.ts:839-842 required *)
Definition required_row {A} (value : option A) (message : string) : C A :=
  match value with Some v => mret v | None => throw (plainError message) end.

(** The workspace a row refers to exists. *)
Definition known_workspace (workspaceId : string) (d : ContractDb) : bool :=
  existsb (λ w, wks_id w === workspaceId) (c_workspaces d).

(** Source: packages/persistence-postgres/src/contract-repository.ts:974-997 operationStatus *)
Definition operationStatus (state : OperationState) : OperationStatus :=
  match state with
  | requested => status_pending
  | UploadMachine.authorised | temporary_upload_created | bytes_received | hash_verified
  | immutable_object_committed | metadata_committed | audit_committed => status_running
  | completed => status_succeeded
  | UploadMachine.rejected | failed_retryable | failed_terminal => status_failed
  | quarantined => status_quarantined
  end.

(** ** Rows as records *)

Section Rows.
Context `{JsDate}.

(** [iso] is [toISOString] of the instant. *)
Abbreviation iso := toISOString.

(** Source: packages/persistence-postgres/src/contract-repository.ts:843-856 mapApplication *)
Definition mapApplication (row : ApplicationRow) : ApplicationRegistration :=
  let r := app_row row in
  mkApplicationOf (app_id r) (app_workspaceId r) (app_namespace r) (app_name r) (app_applicationVersion r)
    (app_schemaPackageIds r) (app_capabilities r) (app_status r) (iso (app_createdAt r)) (iso (app_updatedAt r)).

(** Source: packages/persistence-postgres/src/contract-repository.ts:857-866 mapWorkspace *)
Definition mapWorkspace (r : WorkspaceOf Z) : WorkspaceOf string :=
  mkWorkspaceOf (wks_id r) (wks_name r) (wks_slug r) (wks_status r) (iso (wks_createdAt r)) (iso (wks_updatedAt r)).

(** Source: packages/persistence-postgres/src/contract-repository.ts:867-879 mapDataset *)
Definition mapDataset (r : DatasetOf Z) : DatasetOf string :=
  mkDatasetOf (dsr_id r) (dsr_workspaceId r) (dsr_schemaPackageId r) (dsr_datasetType r) (dsr_name r) (dsr_status r)
    (dsr_retentionPolicyId r) (iso (dsr_createdAt r)) (iso (dsr_updatedAt r)).

(** Source: packages/persistence-postgres/src/contract-repository.ts:880-892 mapResource *)
Definition mapResource (r : ResourceOf Z) : ResourceOf string :=
  mkResourceOf (rsr_id r) (rsr_workspaceId r) (rsr_datasetId r) (rsr_resourceType r) (rsr_title r) (rsr_status r)
    (rsr_currentRevisionId r) (iso (rsr_createdAt r)) (iso (rsr_updatedAt r)).

(** Source: packages/persistence-postgres/src/contract-repository.ts:893-912 mapRevision *)
Definition mapRevision (r : RevisionOf Z) : RevisionOf string :=
  mkRevisionOf (rvr_id r) (rvr_workspaceId r) (rvr_datasetId r) (rvr_resourceId r) (rvr_revisionNumber r)
    (rvr_parentRevisionId r) (rvr_mergeParentRevisionIds r) (rvr_schemaPackageId r) (rvr_schemaVersion r)
    (rvr_canonicalPayload r) (rvr_canonicalPayloadHash r) (rvr_createdBy r) (rvr_source r) (rvr_changeNote r)
    (rvr_restoredFromRevisionId r) (iso (rvr_createdAt r)).

(** The instant of an event; a row's timestamp was accepted when it was
    inserted. *)
Definition occurred_at (r : LogRow) : Z := default 0%Z (Date_parse (event_timestamp (log_body r))).
(** The body a row holds, with the timestamp as it is read. *)
Definition stored_body (r : LogRow) : AuditEventBody :=
  let b := log_body r in
  mkAuditBody (event_id b) (event_workspaceId b) (event_actorType b) (event_actorId b) (event_action b)
    (event_subjectKind b) (event_subjectId b) (iso (occurred_at r)) (event_requestId b) (event_correlationId b)
    (event_metadata b).

(** Source: packages/persistence-postgres/src/contract-repository.ts:913-930 mapAudit *)
Definition mapAudit (r : LogRow) : AuditEventRecord :=
  mkAuditRecord (stored_body r) (log_datasetId r) (log_operationId r) (log_hash r).

(** The event as a verification reads it. *)
(** Source: packages/persistence-postgres/src/verification-catalog.ts:422-438 mapAuditEvent *)
Definition mapAuditEvent (r : LogRow) : ChainedAuditEvent :=
  mkChained (stored_body r) (default EmptyString (log_previousHash r)) (log_hash r).

(** Source: packages/persistence-postgres/src/contract-repository.ts:931-944 mapPolicy *)
Definition mapPolicy (r : PolicyOf Z) : PolicyAssignment :=
  mkPolicyOf (pol_id r) (pol_workspaceId r) (pol_principalType r) (pol_principalId r) (pol_role r) (pol_scopeKind r)
    (pol_scopeId r) (pol_createdBy r) (iso (pol_createdAt r)) (iso <$> pol_revokedAt r).

(** Source: packages/persistence-postgres/src/contract-repository.ts:945-957 mapBreakGlass *)
Definition mapBreakGlass (r : BreakGlassOf Z) : BreakGlassGrant :=
  mkBreakGlassOf (bg_id r) (bg_workspaceId r) (bg_principalId r) (bg_reason r) (bg_actions r) (bg_grantedBy r)
    (iso (bg_grantedAt r)) (iso (bg_expiresAt r)) (iso <$> bg_revokedAt r).

(** Source: packages/persistence-postgres/src/contract-repository.ts:958-973 mapRelation *)
Definition mapRelation (r : RelationOf Z) : RelationOf string :=
  mkRelationOf (rlr_id r) (rlr_workspaceId r) (rlr_datasetId r) (rlr_sourceKind r) (rlr_sourceId r) (rlr_targetKind r)
    (rlr_targetId r) (rlr_relationType r) (rlr_metadata r) (rlr_createdBy r) (iso (rlr_createdAt r))
    (iso <$> rlr_endedAt r).

(** Source: packages/persistence-postgres/src/contract-repository.ts:998-1012 mapOperation *)
Definition mapOperation (r : ContractOperation) : OperationSummary :=
  mkOperationSummary (opr_id r) (opr_workspaceId r) (opr_type r) (opr_state r) (operationStatus (opr_state r))
    (opr_requestedBy r) (opr_retryCount r) (opr_errorCode r) (iso (opr_createdAt r)) (iso (opr_updatedAt r))
    (iso <$> opr_completedAt r).

(** [row.result_json?.blobId ?? null] *)
Definition result_blobId (o : ContractOperation) : option json :=
  match opr_result o ≫= λ r, obj_get r "blobId" with
  | Some JNull | None => None
  | Some v => Some v
  end.

(** A row of [uploadSelect]: a session with its operation. *)
(** Source: packages/persistence-postgres/src/contract-repository.ts:1013-1029 mapUpload *)
Definition mapUpload (row : UploadRow * ContractOperation) : UploadSession :=
  let '(u, o) := row in
  mkUploadSession (upr_id u) (upr_workspaceId u) (upr_operationId u) (upr_state u) (operationStatus (upr_state u))
    (upr_mediaType u) (upr_expectedByteLength u) (upr_expectedSha256 u) (iso (upr_expiresAt u)) (iso (upr_createdAt u))
    (iso (upr_updatedAt u)) (iso <$> opr_completedAt o) (result_blobId o).
End Rows.

(** [ORDER BY a, b] on an instant and an identifier. *)
Definition time_then_id {A} (time : A → Z) (id : A → string) (a b : A) : bool :=
  (time a <? time b)%Z || ((time a =? time b)%Z && String.leb (id a) (id b)).

(** ** PostgresContractRepository *)

Section Repository.
Context `{JsDate} `{Crypto}.
(** [left.localeCompare(right) <= 0], and the order of the database's text
    collation. *)
Context (localeLe collation : string → string → bool).

(** A parameter of type [timestamptz]. *)
Definition timestamptz (value : string) : C Z :=
  match Date_parse value with Some t => mret t | None => throw invalid_datetime end.
Definition timestamptz_opt (value : option string) : C (option Z) :=
  match value with Some v => timestamptz v ≫= λ t, mret (Some t) | None => mret None end.

(** Source: packages/persistence-postgres/src/contract-repository.ts:1033-1041 stableJson *)
Definition stableJson (value : list (string * json)) : string :=
  JSON_stringify (JObject (sort_keys localeLe value)).

Definition strings (xs : list string) : json := JArray (map JString xs).

(** What is fingerprinted of a registration. *)
(** Source: packages/persistence-postgres/src/contract-repository.ts:38-48 registerApplication *)
Definition registration_content {T} (r : ApplicationOf T) : list (string * json) :=
  [("namespace", JString (app_namespace r)); ("name", JString (app_name r));
   ("applicationVersion", JString (app_applicationVersion r));
   ("schemaPackageIds", strings (app_schemaPackageIds r)); ("capabilities", strings (app_capabilities r))].
Definition requestFingerprint {T} (r : ApplicationOf T) : string := sha256 (stableJson (registration_content r)).

Definition registered_with (workspaceId key : string) (row : ApplicationRow) : bool :=
  (app_workspaceId (app_row row) === workspaceId) && (app_idempotency_key row === Some key).

(** The [INSERT ... ON CONFLICT ... DO UPDATE] of a registration: a row with the
    key is returned as it is. *)
(** Source: packages/persistence-postgres/src/contract-repository.ts:50-66 registerApplication *)
Definition insert_application (registration : ApplicationRegistration) (key fingerprint : string) : C ApplicationRow :=
  timestamptz (app_createdAt registration) ≫= λ createdAt,
  timestamptz (app_updatedAt registration) ≫= λ updatedAt,
  throw_when (sql_blank key || negb (SHA256_PATTERN fingerprint)) check_violation ≫= λ _,
  gets (λ d, List.find (registered_with (app_workspaceId registration) key) (c_applications d)) ≫= λ existing,
  match existing with
  | Some row => mret row
  | None =>
      gets (λ d, existsb (λ row, (app_id (app_row row) === app_id registration) ||
        ((app_workspaceId (app_row row) === app_workspaceId registration) &&
         (app_namespace (app_row row) === app_namespace registration))) (c_applications d)) ≫= λ taken : bool,
      throw_when taken unique_violation ≫= λ _,
      gets (known_workspace (app_workspaceId registration)) ≫= λ known : bool,
      throw_when (negb known) foreign_key_violation ≫= λ _,
      let row := mkApplicationRow (mkApplicationOf (app_id registration) (app_workspaceId registration)
        (app_namespace registration) (app_name registration) (app_applicationVersion registration)
        (app_schemaPackageIds registration) (app_capabilities registration) (app_status registration)
        createdAt updatedAt) (Some key) (Some fingerprint) in
      modify (set_applications (λ rows, rows ++ [row])) ≫= λ _,
      mret row
  end.

(** Source: packages/persistence-postgres/src/contract-repository.ts:34-86 registerApplication *)
Definition contract_registerApplication (registration : ApplicationRegistration) (idempotencyKey : string) :
    C ApplicationRegistration :=
  transaction (
    let fingerprint := requestFingerprint registration in
    try_catch
      (insert_application registration idempotencyKey fingerprint ≫= λ row,
       throw_when (app_request_fingerprint row !== Some fingerprint)
         (codedError "IDEMPOTENCY_CONFLICT"
            "Idempotency key was already used for a different application registration.") ≫= λ _,
       mret (mapApplication row))
      (λ error, throw (
         if error_code error === Some "23505" then
           codedError "IDEMPOTENCY_CONFLICT"
             "Application namespace or idempotency key is already registered with different input."
         else error))).

(** Source: packages/persistence-postgres/src/contract-repository.ts:88-98 listApplications *)
Definition contract_listApplications (workspaceId : string) : C (list ApplicationRegistration) :=
  gets (λ d, map mapApplication (order_by (λ a b, collation (app_namespace (app_row a)) (app_namespace (app_row b)))
    (List.filter (λ r, app_workspaceId (app_row r) === workspaceId) (c_applications d)))).

(** Source: packages/persistence-postgres/src/contract-repository.ts:100-108 listWorkspaces *)
Definition contract_listWorkspaces (workspaceId : string) : C (list (WorkspaceOf string)) :=
  gets (λ d, map mapWorkspace (List.filter (λ w, wks_id w === workspaceId) (c_workspaces d))).

(** Source: packages/persistence-postgres/src/contract-repository.ts:110-118 listDatasets *)
Definition contract_listDatasets (workspaceId : string) : C (list (DatasetOf string)) :=
  gets (λ d, map mapDataset (order_by (time_then_id dsr_createdAt dsr_id)
    (List.filter (λ r, dsr_workspaceId r === workspaceId) (c_datasets d)))).

(** Source: packages/persistence-postgres/src/contract-repository.ts:120-131 getDataset *)
Definition contract_getDataset (workspaceId datasetId : string) : C (option (DatasetOf string)) :=
  gets (λ d, mapDataset <$>
    List.find (λ r, (dsr_workspaceId r === workspaceId) && (dsr_id r === datasetId)) (c_datasets d)).

(** [datasetId ? " AND dataset_id=$2" : ""]: an empty identifier filters nothing. *)
Definition in_dataset (datasetId : option string) (value : option string) : bool :=
  negb (truthy datasetId) || (value === datasetId).

(** Source: packages/persistence-postgres/src/contract-repository.ts:133-144 listResources *)
Definition contract_listResources (workspaceId : string) (datasetId : option string) : C (list (ResourceOf string)) :=
  gets (λ d, map mapResource (order_by (time_then_id rsr_createdAt rsr_id)
    (List.filter (λ r, (rsr_workspaceId r === workspaceId) && in_dataset datasetId (Some (rsr_datasetId r)))
       (c_resources d)))).

(** Source: packages/persistence-postgres/src/contract-repository.ts:146-157 getResource *)
Definition contract_getResource (workspaceId resourceId : string) : C (option (ResourceOf string)) :=
  gets (λ d, mapResource <$>
    List.find (λ r, (rsr_workspaceId r === workspaceId) && (rsr_id r === resourceId)) (c_resources d)).

(** Source: packages/persistence-postgres/src/contract-repository.ts:159-179 getRevisionGraph *)
Definition contract_getRevisionGraph (workspaceId resourceId : string) : C (option RevisionGraph) :=
  gets (λ d, List.find (λ r, (rsr_workspaceId r === workspaceId) && (rsr_id r === resourceId)) (c_resources d))
    ≫= λ resource,
  match resource with
  | None => mret None
  | Some resource =>
      gets (λ d, order_by (λ a b, Z.leb (rvr_revisionNumber a) (rvr_revisionNumber b))
        (List.filter (λ r, (rvr_workspaceId r === workspaceId) && (rvr_resourceId r === resourceId)) (c_revisions d)))
        ≫= λ revisions,
      mret (Some (mkRevisionGraph resourceId (rsr_currentRevisionId resource) (map mapRevision revisions)))
  end.

(** Source: packages/persistence-postgres/src/contract-repository.ts:181-192 listAuditEvents *)
Definition contract_listAuditEvents (workspaceId : string) (datasetId : option string) : C (list AuditEventRecord) :=
  gets (λ d, map mapAudit (take 100 (order_by (λ a b, time_then_id occurred_at (λ r, event_id (log_body r)) b a)
    (List.filter (λ r, (event_workspaceId (log_body r) === workspaceId) && in_dataset datasetId (log_datasetId r))
       (c_audit d))))).

(** Source: packages/persistence-postgres/src/contract-repository.ts:194-205 listPolicyAssignments *)
Definition contract_listPolicyAssignments (workspaceId : string) (principalId : option string) : C (list PolicyAssignment) :=
  gets (λ d, map mapPolicy (order_by (time_then_id pol_createdAt pol_id)
    (List.filter (λ r, (pol_workspaceId r === workspaceId) && (pol_revokedAt r === None) &&
       (negb (truthy principalId) || (Some (pol_principalId r) === principalId))) (c_policies d)))).

Definition policy_at (workspaceId assignmentId : string) (r : PolicyOf Z) : bool :=
  (pol_workspaceId r === workspaceId) && (pol_id r === assignmentId).

(** Source: packages/persistence-postgres/src/contract-repository.ts:207-219 getPolicyAssignment *)
Definition contract_getPolicyAssignment (workspaceId assignmentId : string) : C (option PolicyAssignment) :=
  gets (λ d, mapPolicy <$> List.find (policy_at workspaceId assignmentId) (c_policies d)).

(** Another row has the identifier, or is an active assignment of the same role
    in the same scope to the same principal. *)
Definition policy_taken {T} (a : PolicyOf T) (d : ContractDb) : bool :=
  existsb (λ r, (pol_id r === pol_id a) ||
    (bool_decide (pol_revokedAt r = None) && negb (bool_decide (is_Some (pol_revokedAt a))) &&
     (pol_workspaceId r === pol_workspaceId a) && (pol_principalType r === pol_principalType a) &&
     (pol_principalId r === pol_principalId a) && (pol_role r === pol_role a) &&
     (pol_scopeKind r === pol_scopeKind a) && (pol_scopeId r === pol_scopeId a))) (c_policies d).

(** Source: packages/persistence-postgres/src/contract-repository.ts:221-244 createPolicyAssignment *)
Definition contract_createPolicyAssignment (assignment : PolicyAssignment) : C PolicyAssignment :=
  transaction (
    timestamptz (pol_createdAt assignment) ≫= λ createdAt,
    timestamptz_opt (pol_revokedAt assignment) ≫= λ revokedAt,
    gets (policy_taken assignment) ≫= λ taken : bool,
    throw_when taken unique_violation ≫= λ _,
    gets (known_workspace (pol_workspaceId assignment)) ≫= λ known : bool,
    throw_when (negb known) foreign_key_violation ≫= λ _,
    let row := mkPolicyOf (pol_id assignment) (pol_workspaceId assignment) (pol_principalType assignment)
      (pol_principalId assignment) (pol_role assignment) (pol_scopeKind assignment) (pol_scopeId assignment)
      (pol_createdBy assignment) createdAt revokedAt in
    modify (set_policies (λ rows, rows ++ [row])) ≫= λ _,
    mret (mapPolicy row)).

(** [{ ...row, revoked_at }] *)
Definition revoked_policy (at_ : Z) (r : PolicyOf Z) : PolicyOf Z :=
  mkPolicyOf (pol_id r) (pol_workspaceId r) (pol_principalType r) (pol_principalId r) (pol_role r) (pol_scopeKind r)
    (pol_scopeId r) (pol_createdBy r) (pol_createdAt r) (Some at_).

(** Source: packages/persistence-postgres/src/contract-repository.ts:246-257 revokePolicyAssignment *)
Definition contract_revokePolicyAssignment (workspaceId assignmentId revokedAt : string) : C unit :=
  transaction (
    timestamptz revokedAt ≫= λ at_,
    modify (set_policies (map (λ r,
      if policy_at workspaceId assignmentId r && (pol_revokedAt r === None) then revoked_policy at_ r else r)))).

(** Source: packages/persistence-postgres/src/contract-repository.ts:259-289 createBreakGlassGrant *)
Definition contract_createBreakGlassGrant (grant : BreakGlassGrant) : C BreakGlassGrant :=
  throw_when (blank (bg_reason grant) || Nat.eqb (length (bg_actions grant)) 0 ||
              existsb (λ action, negb (isBreakGlassEligibleAction action)) (bg_actions grant))
    (plainError "Break-glass grants require a reason and eligible actions.") ≫= λ _,
  throw_when (date_le (Date_parse (bg_expiresAt grant)) (Date_parse (bg_grantedAt grant)))
    (plainError "Break-glass expiry must follow grant time.") ≫= λ _,
  transaction (
    timestamptz (bg_grantedAt grant) ≫= λ grantedAt,
    timestamptz (bg_expiresAt grant) ≫= λ expiresAt,
    timestamptz_opt (bg_revokedAt grant) ≫= λ revokedAt,
    throw_when (sql_blank (bg_reason grant) || Z.leb expiresAt grantedAt) check_violation ≫= λ _,
    gets (λ d, existsb (λ r, bg_id r === bg_id grant) (c_grants d)) ≫= λ taken : bool,
    throw_when taken unique_violation ≫= λ _,
    gets (known_workspace (bg_workspaceId grant)) ≫= λ known : bool,
    throw_when (negb known) foreign_key_violation ≫= λ _,
    let row := mkBreakGlassOf (bg_id grant) (bg_workspaceId grant) (bg_principalId grant) (bg_reason grant)
      (bg_actions grant) (bg_grantedBy grant) grantedAt expiresAt revokedAt in
    modify (set_grants (λ rows, rows ++ [row])) ≫= λ _,
    mret (mapBreakGlass row)).

(** [{ ...row, revoked_at }] *)
Definition revoked_grant (at_ : Z) (r : BreakGlassOf Z) : BreakGlassOf Z :=
  mkBreakGlassOf (bg_id r) (bg_workspaceId r) (bg_principalId r) (bg_reason r) (bg_actions r) (bg_grantedBy r)
    (bg_grantedAt r) (bg_expiresAt r) (Some at_).

(** Source: packages/persistence-postgres/src/contract-repository.ts:291-302 revokeBreakGlassGrant *)
Definition contract_revokeBreakGlassGrant (workspaceId grantId revokedAt : string) : C unit :=
  transaction (
    timestamptz revokedAt ≫= λ at_,
    modify (set_grants (map (λ r,
      if (bg_workspaceId r === workspaceId) && (bg_id r === grantId) && (bg_revokedAt r === None)
      then revoked_grant at_ r else r)))).

(** Source: packages/persistence-postgres/src/contract-repository.ts:304-316 listActiveBreakGlassGrants *)
Definition contract_listActiveBreakGlassGrants (workspaceId at_ : string) (principalId : option string) :
    C (list BreakGlassGrant) :=
  transaction (
    timestamptz at_ ≫= λ now,
    gets (λ d, map mapBreakGlass (order_by (λ a b, Z.leb (bg_expiresAt a) (bg_expiresAt b))
      (List.filter (λ r, (bg_workspaceId r === workspaceId) && (bg_revokedAt r === None) &&
         Z.leb (bg_grantedAt r) now && Z.ltb now (bg_expiresAt r) &&
         (negb (truthy principalId) || (Some (bg_principalId r) === principalId))) (c_grants d))))).

(** [ORDER BY occurred_at DESC, id DESC LIMIT 1] *)
Definition newest_event (workspaceId : string) (d : ContractDb) : option LogRow :=
  head (order_by (λ a b, time_then_id occurred_at (λ r, event_id (log_body r)) b a)
    (List.filter (λ r, event_workspaceId (log_body r) === workspaceId) (c_audit d))).

(** The statements the three [record...] methods share: the event is chained to
    the newest one, and its hashes are passed as they are. *)
(** Source: packages/persistence-postgres/src/contract-repository.ts:327-370 recordBreakGlassUse *)
Definition insert_event (body : AuditEventBody) : C unit :=
  gets (newest_event (event_workspaceId body)) ≫= λ previous,
  let event := appendAuditEvent body (from_option log_hash EmptyString previous) in
  timestamptz (event_timestamp body) ≫= λ _,
  throw_when (negb (SHA256_PATTERN (eventHash event))) check_violation ≫= λ _,
  gets (λ d, existsb (λ r, event_id (log_body r) === event_id body) (c_audit d)) ≫= λ taken : bool,
  throw_when taken unique_violation ≫= λ _,
  gets (known_workspace (event_workspaceId body)) ≫= λ known : bool,
  throw_when (negb known) foreign_key_violation ≫= λ _,
  modify (set_log (λ rows, rows ++ [mkLogRow body None None
    (Some (char64 (previousEventHash event))) (eventHash event)])).

(** The identifiers [randomUUID] returns are arguments. *)
(** Source: packages/persistence-postgres/src/contract-repository.ts:318-371 recordBreakGlassUse *)
Definition contract_recordBreakGlassUse (eventId freshRequestId : string) (input : BreakGlassUse) : C unit :=
  transaction (
    let requestId := default freshRequestId (use_requestId input) in
    insert_event (mkAuditBody eventId (use_workspaceId input) "user" (use_principalId input) "break_glass.used"
      "break_glass_grant" (use_grantId input) (use_occurredAt input) requestId requestId
      (JObject [("authorizedAction", JString (action_name (use_action input))); ("reason", JString (use_reason input))]))).

(** Source: packages/persistence-postgres/src/contract-repository.ts:373-425 recordPolicyAssignmentChange *)
Definition contract_recordPolicyAssignmentChange (eventId workspaceId : string) (actor : AuthenticatedActor)
    (assignmentId action requestId occurredAt : string) (metadata : json) : C unit :=
  transaction (insert_event (mkAuditBody eventId workspaceId (principal_type_name (actorPrincipalType actor))
    (actor_id actor) action "policy_assignment" assignmentId occurredAt requestId requestId metadata)).

(** Source: packages/persistence-postgres/src/contract-repository.ts:427-477 recordStorageProbe *)
Definition contract_recordStorageProbe (eventId workspaceId : string) (actor : AuthenticatedActor)
    (requestId occurredAt : string) (metadata : json) : C unit :=
  transaction (insert_event (mkAuditBody eventId workspaceId (principal_type_name (actorPrincipalType actor))
    (actor_id actor) "storage.health.probed" "workspace" workspaceId occurredAt requestId requestId metadata)).

(** Source: packages/persistence-postgres/src/contract-repository.ts:479-503 listRelations *)
Definition contract_listRelations (workspaceId : string) (query : RelationQuery) : C (list (RelationOf string)) :=
  let about r := match query_subjectKind query, query_subjectId query with
    | Some kind, Some id =>
        (id === EmptyString) ||
        ((rlr_sourceKind r === kind) && (rlr_sourceId r === id)) || ((rlr_targetKind r === kind) && (rlr_targetId r === id))
    | _, _ => true
    end in
  gets (λ d, map mapRelation (order_by (time_then_id rlr_createdAt rlr_id)
    (List.filter (λ r, (rlr_workspaceId r === workspaceId) && in_dataset (query_datasetId query) (Some (rlr_datasetId r)) &&
       (query_includeEnded query || bool_decide (rlr_endedAt r = None)) && about r) (c_relations d)))).

(** *** Uploads *)

(** The settings of a transaction that row-level security reads. *)
(** Source: packages/persistence-postgres/src/contract-repository.ts:669-684 scoped *)
Record DbScope := mkDbScope {
  db_workspaceId : string;
  db_principalType : PrincipalType;
  db_principalId : string;
}.
Definition scoped (workspaceId : string) (actor : option AuthenticatedActor) : DbScope :=
  mkDbScope workspaceId (from_option actorPrincipalType principal_user actor) (from_option actor_id EmptyString actor).

(** The row was requested by the application the transaction runs for. *)
Definition requested_by_scope (s : DbScope) (o : ContractOperation) : bool :=
  (opr_principalType o === principal_application) && (opr_requestedBy o === db_principalId s).

(** Source: migrations/0009_upload_principal_ownership.sql:42-53 workspace_isolation_operations *)
Definition operation_visible (s : DbScope) (o : ContractOperation) : bool :=
  (opr_workspaceId o === db_workspaceId s) &&
  ((db_principalType s !== principal_application) || (opr_type o !== "upload.session") || requested_by_scope s o).

(** Source: migrations/0009_upload_principal_ownership.sql:67-81 workspace_isolation_upload_sessions *)
Definition upload_visible (s : DbScope) (d : ContractDb) (u : UploadRow) : bool :=
  (upr_workspaceId u === db_workspaceId s) &&
  ((db_principalType s !== principal_application) ||
   existsb (λ o, operation_visible s o && (opr_id o === upr_operationId u) && (opr_workspaceId o === upr_workspaceId u) &&
                 requested_by_scope s o) (c_operations d)).

(** Source: packages/persistence-postgres/src/contract-repository.ts:505-516 getOperation *)
Definition contract_getOperation (workspaceId operationId : string) : C (option OperationSummary) :=
  gets (λ d, mapOperation <$> List.find (λ o, operation_visible (scoped workspaceId None) o &&
    (opr_workspaceId o === workspaceId) && (opr_id o === operationId)) (c_operations d)).

(** Source: packages/persistence-postgres/src/contract-repository.ts:828-829 uploadSelect *)
Definition uploadSelect (s : DbScope) (d : ContractDb) : list (UploadRow * ContractOperation) :=
  flat_map (λ u, map (pair u) (List.filter (λ o, operation_visible s o && (opr_id o === upr_operationId u) &&
                                                (opr_workspaceId o === upr_workspaceId u)) (c_operations d)))
    (List.filter (upload_visible s d) (c_uploads d)).

(** Source: packages/persistence-postgres/src/contract-repository.ts:830-837 applicationOwnerClause *)
Definition applicationOwnerClause (actor : AuthenticatedActor) (o : ContractOperation) : bool :=
  (actor_principalType actor !== Some principal_application) ||
  ((opr_principalType o === principal_application) && (opr_requestedBy o === actor_id actor)).

Definition upload_row (workspaceId uploadId : string) (actor : AuthenticatedActor) (d : ContractDb) :
    option (UploadRow * ContractOperation) :=
  List.find (λ '(u, o), (upr_workspaceId u === workspaceId) && (upr_id u === uploadId) && applicationOwnerClause actor o)
    (uploadSelect (scoped workspaceId (Some actor)) d).

(** Source: packages/persistence-postgres/src/contract-repository.ts:518-536 getUploadSession *)
Definition contract_getUploadSession (workspaceId uploadId : string) (actor : AuthenticatedActor) :
    C (option UploadSession) :=
  gets (λ d, mapUpload <$> upload_row workspaceId uploadId actor d).

(** Source: packages/persistence-postgres/src/contract-repository.ts:538-549 createUploadSession *)
Record CreateUploadInput := mkCreateUpload {
  cu_workspaceId : string;
  cu_actorId : string;
  cu_principalType : PrincipalType;
  cu_idempotencyKey : string;
  cu_mediaType : string;
  cu_expectedByteLength : Z;
  cu_expectedSha256 : string;
  cu_expiresInSeconds : Z;
  cu_expiresAt : string;
  cu_now : string;
}.

(** Source: packages/persistence-postgres/src/contract-repository.ts:561-566 request *)
Definition upload_request (input : CreateUploadInput) : list (string * json) :=
  [("mediaType", JString (cu_mediaType input)); ("expectedByteLength", JNumber (cu_expectedByteLength input));
   ("expectedSha256", JString (cu_expectedSha256 input)); ("expiresInSeconds", JNumber (cu_expiresInSeconds input))].

Definition idempotencyScope (input : CreateUploadInput) : string :=
  principal_type_name (cu_principalType input) +:+ ":" +:+ cu_actorId input.
Definition upload_key (input : CreateUploadInput) (o : ContractOperation) : bool :=
  (opr_type o === "upload.session") && (opr_workspaceId o === cu_workspaceId input) &&
  (opr_idempotencyKey o === cu_idempotencyKey input) && (opr_idempotencyScope o === idempotencyScope input).

(** The insertion of the operation, with the identifier the server generates. *)
(** Source: packages/persistence-postgres/src/contract-repository.ts:567-581 createUploadSession *)
Definition insert_upload_operation (s : DbScope) (operationId : string) (input : CreateUploadInput) : C ContractOperation :=
  timestamptz (cu_now input) ≫= λ now,
  gets (λ d, List.find (upload_key input) (c_operations d)) ≫= λ existing,
  match existing with
  | Some o => throw_when (negb (operation_visible s o)) row_security_violation ≫= λ _, mret o
  | None =>
      gets (λ d, existsb (λ o, opr_id o === operationId) (c_operations d)) ≫= λ taken : bool,
      throw_when taken unique_violation ≫= λ _,
      gets (known_workspace (cu_workspaceId input)) ≫= λ known : bool,
      throw_when (negb known) foreign_key_violation ≫= λ _,
      let o := mkContractOperation operationId (cu_workspaceId input) "upload.session" (cu_idempotencyKey input)
        (idempotencyScope input) requested (cu_actorId input) (cu_principalType input) (upload_request input) None 0 None
        now now None in
      modify (set_contract_operations (λ rows, rows ++ [o])) ≫= λ _,
      mret o
  end.

(** Source: packages/persistence-postgres/src/contract-repository.ts:591-602 createUploadSession *)
Definition insert_upload (uploadId : string) (input : CreateUploadInput) (o : ContractOperation) : C unit :=
  timestamptz (cu_expiresAt input) ≫= λ expiresAt,
  timestamptz (cu_now input) ≫= λ now,
  throw_when (Z.ltb (cu_expectedByteLength input) 0 || negb (SHA256_PATTERN (cu_expectedSha256 input))) check_violation ≫= λ _,
  gets (λ d, existsb (λ u, upr_operationId u === opr_id o) (c_uploads d)) ≫= λ present : bool,
  if present then mret tt
  else
    gets (λ d, existsb (λ u, upr_id u === uploadId) (c_uploads d)) ≫= λ taken : bool,
    throw_when taken unique_violation ≫= λ _,
    modify (set_uploads (λ rows, rows ++ [mkUploadRow uploadId (cu_workspaceId input) (opr_id o) requested
      (cu_mediaType input) (cu_expectedByteLength input) (cu_expectedSha256 input) expiresAt now now])).

(** Source: packages/persistence-postgres/src/contract-repository.ts:538-613 createUploadSession *)
Definition contract_createUploadSession (operationId uploadId : string) (input : CreateUploadInput) : C UploadSession :=
  let s := mkDbScope (cu_workspaceId input) (cu_principalType input) (cu_actorId input) in
  transaction (
    insert_upload_operation s operationId input ≫= λ row,
    throw_when (stableJson (opr_request row) !== stableJson (upload_request input))
      (codedError "IDEMPOTENCY_CONFLICT" "Idempotency key was already used for a different upload.") ≫= λ _,
    insert_upload uploadId input row ≫= λ _,
    gets (λ d, List.find (λ '(u, _), (upr_workspaceId u === cu_workspaceId input) && (upr_operationId u === opr_id row))
      (uploadSelect s d)) ≫= λ result,
    required_row result "Upload session was not persisted." ≫= λ session,
    mret (mapUpload session)).

(** Source: packages/persistence-postgres/src/contract-repository.ts:615-622 completeUploadSession *)
Record CompleteUploadInput := mkCompleteUpload {
  cmp_workspaceId : string;
  cmp_uploadId : string;
  cmp_actor : AuthenticatedActor;
  cmp_blobId : string;
  cmp_ingestOperationId : string;
  cmp_completedAt : string;
}.

(** Source: packages/persistence-postgres/src/contract-repository.ts:625-633 completeUploadSession
    The sessions the [UPDATE] changes. *)
Definition completes (s : DbScope) (input : CompleteUploadInput) (d : ContractDb) (u : UploadRow) : bool :=
  upload_visible s d u && (upr_workspaceId u === cmp_workspaceId input) && (upr_id u === cmp_uploadId input) &&
  (upr_state u !== completed) &&
  existsb (λ o, operation_visible s o && (opr_id o === upr_operationId u) && (opr_workspaceId o === upr_workspaceId u) &&
                applicationOwnerClause (cmp_actor input) o) (c_operations d).

Definition completed_upload (at_ : Z) (u : UploadRow) : UploadRow :=
  mkUploadRow (upr_id u) (upr_workspaceId u) (upr_operationId u) completed (upr_mediaType u) (upr_expectedByteLength u)
    (upr_expectedSha256 u) (upr_expiresAt u) (upr_createdAt u) at_.
(** Source: packages/persistence-postgres/src/contract-repository.ts:638-651 completeUploadSession *)
Definition completed_operation (at_ : Z) (input : CompleteUploadInput) (o : ContractOperation) : ContractOperation :=
  mkContractOperation (opr_id o) (opr_workspaceId o) (opr_type o) (opr_idempotencyKey o) (opr_idempotencyScope o)
    completed (opr_requestedBy o) (opr_principalType o) (opr_request o)
    (Some [("blobId", JString (cmp_blobId input)); ("ingestOperationId", JString (cmp_ingestOperationId input))])
    (opr_retryCount o) (opr_errorCode o) (opr_createdAt o) at_ (Some at_).

(** Source: packages/persistence-postgres/src/contract-repository.ts:615-667 completeUploadSession *)
Definition contract_completeUploadSession (input : CompleteUploadInput) : C UploadSession :=
  let s := scoped (cmp_workspaceId input) (Some (cmp_actor input)) in
  transaction (
    timestamptz (cmp_completedAt input) ≫= λ at_,
    gets (λ d, length (List.filter (completes s input d) (c_uploads d))) ≫= λ updated,
    modify (λ d, set_uploads (map (λ u, if completes s input d u then completed_upload at_ u else u)) d) ≫= λ _,
    (if Nat.eqb updated 1 then
       gets (λ d, List.find (λ u, upload_visible s d u && (upr_id u === cmp_uploadId input)) (c_uploads d)) ≫= λ session,
       modify (set_contract_operations (map (λ o,
         if operation_visible s o && (opr_workspaceId o === cmp_workspaceId input) &&
            (Some (opr_id o) === upr_operationId <$> session)
         then completed_operation at_ input o else o)))
     else mret tt) ≫= λ _,
    gets (upload_row (cmp_workspaceId input) (cmp_uploadId input) (cmp_actor input)) ≫= λ result,
    match result with
    | None => throw (codedError "OPERATION_NOT_FOUND" "Upload session was not found.")
    | Some row => mret (mapUpload row)
    end).
End Repository.

(** ** A fingerprint determines what was fingerprinted *)

Lemma sort_keys_id {A} (l : list (string * A)) : sort_keys (λ _ _, true) l = l.
Proof. induction l as [|kv l IH]; [done|]. cbn [sort_keys foldr]. fold (@sort_keys A (λ _ _, true) l). rewrite IH. by destruct l. Qed.

Lemma normalise_id v : normalise (λ _ _, true) v = v.
Proof.
  induction v as [|b|z|s|l IH|l IH] using json_nested_ind; try done.
  - simpl. f_equal. induction IH as [|x l Hx _ IHl]; simpl; congruence.
  - rewrite norm_object. f_equal. rewrite sort_keys_id.
    induction IH as [|[k x] l Hx _ IHl]; simpl in *; congruence.
Qed.

Lemma JSON_stringify_inj v1 v2 : JSON_stringify v1 = JSON_stringify v2 → v1 = v2.
Proof.
  intros He. destruct (canon_inj_at (λ _ _, true) v1 v2 EmptyString EmptyString) as [Hn _]; try done.
  - unfold JSON_stringify in He. by rewrite He.
  - by rewrite !normalise_id in Hn.
Qed.

(** Two lists of entries with the same distinct keys in the same order. *)
Lemma entries_eq {A} (l1 l2 : list (string * A)) :
  l1.*1 = l2.*1 → NoDup l1.*1 → l1 ≡ₚ l2 → l1 = l2.
Proof.
  intros Hk Hnd Hp. assert (∀ kv, kv ∈ l1 → kv ∈ l2) as Hin by (intros kv; by rewrite Hp).
  assert (NoDup l2.*1) as Hnd2 by (by rewrite <- Hk). clear Hp.
  revert l2 Hk Hin Hnd2. induction l1 as [|[k a] l1 IH]; intros [|[k2 b] l2] Hk Hin Hnd2; try done.
  cbn in Hk. injection Hk as -> Hk. cbn in Hnd, Hnd2. apply NoDup_cons in Hnd as [Hn Hnd]. apply NoDup_cons in Hnd2 as [Hn2 Hnd2].
  assert (a = b) as ->.
  { destruct (proj1 (elem_of_cons _ _ _) (Hin (k2, a) (list_elem_of_here _ _))) as [[= ->]|Hl]; [done|].
    exfalso. apply Hn2, list_elem_of_fmap. by exists (k2, a). }
  f_equal. apply IH; [done|done| |done]. intros [k c] Hc.
  destruct (proj1 (elem_of_cons _ _ _) (Hin (k, c) (list_elem_of_further _ _ _ Hc))) as [[= -> ->]|Hl]; [|done].
  exfalso. apply Hn, list_elem_of_fmap. by exists (k2, b).
Qed.

Lemma stableJson_inj localeLe l1 l2 :
  l1.*1 = l2.*1 → NoDup l1.*1 → stableJson localeLe l1 = stableJson localeLe l2 → l1 = l2.
Proof.
  intros Hk Hnd [= He]%JSON_stringify_inj. apply entries_eq; [done|done|].
  by rewrite <- (sort_keys_perm localeLe l1), He, sort_keys_perm.
Qed.

Lemma strings_inj l1 l2 : strings l1 = strings l2 → l1 = l2.
Proof. intros [= He]. revert l2 He. induction l1 as [|x l1 IH]; intros [|y l2] He; simplify_eq/=; f_equal; auto. Qed.

(** ** Steps

    The transactions of the repository that write, and what the rest of the
    program may do to the tables meanwhile: it adds audit events and operations
    of its own, and changes the records that are only listed here. *)

Inductive contract_call :=
  | CallRegister (registration : ApplicationRegistration) (idempotencyKey : string)
  | CallCreatePolicy (assignment : PolicyAssignment)
  | CallRevokePolicy (workspaceId assignmentId revokedAt : string)
  | CallCreateGrant (grant : BreakGlassGrant)
  | CallRevokeGrant (workspaceId grantId revokedAt : string)
  | CallRecordUse (eventId requestId : string) (use : BreakGlassUse)
  | CallRecordChange (eventId workspaceId : string) (actor : AuthenticatedActor)
      (assignmentId action requestId occurredAt : string) (metadata : json)
  | CallRecordProbe (eventId workspaceId : string) (actor : AuthenticatedActor) (requestId occurredAt : string) (metadata : json)
  | CallCreateUpload (operationId uploadId : string) (input : CreateUploadInput)
  | CallCompleteUpload (input : CompleteUploadInput).

Definition is_upload (o : ContractOperation) : bool := opr_type o === "upload.session".

Record others (d d' : ContractDb) : Prop := mkOthers {
  others_applications : c_applications d' = c_applications d;
  others_policies : c_policies d' = c_policies d;
  others_grants : c_grants d' = c_grants d;
  others_uploads : c_uploads d' = c_uploads d;
  others_operations : List.filter is_upload (c_operations d') = List.filter is_upload (c_operations d);
  others_operation_ids : NoDup (map opr_id (c_operations d')); (* the primary key *)
  others_audit : c_audit d `prefix_of` c_audit d';
}.

Section Steps.
Context `{JsDate} `{Crypto} (localeLe : string → string → bool).

Definition run_call (c : contract_call) : C unit :=
  match c with
  | CallRegister registration key => contract_registerApplication localeLe registration key ≫= λ _, mret tt
  | CallCreatePolicy assignment => contract_createPolicyAssignment assignment ≫= λ _, mret tt
  | CallRevokePolicy ws id at_ => contract_revokePolicyAssignment ws id at_
  | CallCreateGrant grant => contract_createBreakGlassGrant grant ≫= λ _, mret tt
  | CallRevokeGrant ws id at_ => contract_revokeBreakGlassGrant ws id at_
  | CallRecordUse eventId requestId use => contract_recordBreakGlassUse eventId requestId use
  | CallRecordChange eventId ws actor assignmentId action requestId at_ metadata =>
      contract_recordPolicyAssignmentChange eventId ws actor assignmentId action requestId at_ metadata
  | CallRecordProbe eventId ws actor requestId at_ metadata =>
      contract_recordStorageProbe eventId ws actor requestId at_ metadata
  | CallCreateUpload operationId uploadId input => contract_createUploadSession localeLe operationId uploadId input ≫= λ _, mret tt
  | CallCompleteUpload input => contract_completeUploadSession input ≫= λ _, mret tt
  end.

Inductive contract_step (d : ContractDb) : ContractDb → Prop :=
  | step_call c : contract_step d (snd (run_call c d))
  | step_others d' : others d d' → contract_step d d'.

(** The database before the repository was first used. *)
Record contract_initial (d : ContractDb) : Prop := mkInitial {
  initial_applications : c_applications d = [];
  initial_policies : c_policies d = [];
  initial_grants : c_grants d = [];
  initial_uploads : c_uploads d = [];
  initial_operations : List.filter is_upload (c_operations d) = [];
  initial_operation_ids : NoDup (map opr_id (c_operations d));
}.
Definition contract_reachable (d : ContractDb) : Prop := ∃ d0, contract_initial d0 ∧ rtc contract_step d0 d.

(** What every call and the others keep is kept for good. *)
Lemma kept_step (I : ContractDb → Prop) :
  (∀ c, preserves I (run_call c)) → (∀ d d', others d d' → I d → I d') →
  ∀ d d', rtc contract_step d d' → I d → I d'.
Proof.
  intros Hc Ho d d' Hs. induction Hs as [|d d1 d2 Hd _ IH]; [done|]. intros HI. apply IH.
  destruct Hd as [c|d1 Hd]; [|by eapply Ho]. specialize (Hc c d HI).
  by destruct (run_call c d) as [[?|?] ?].
Qed.

Lemma kept_reachable (I : ContractDb → Prop) :
  (∀ c, preserves I (run_call c)) → (∀ d d', others d d' → I d → I d') →
  (∀ d, contract_initial d → I d) → ∀ d, contract_reachable d → I d.
Proof. intros Hc Ho Hi d (d0 & Hd & Hs). eapply kept_step; eauto. Qed.

Lemma preserves_timestamptz I value : preserves I (timestamptz value).
Proof. unfold timestamptz. case_match; auto with effects. Qed.
Lemma preserves_timestamptz_opt I value : preserves I (timestamptz_opt value).
Proof. unfold timestamptz_opt. case_match; auto using preserves_timestamptz with effects. Qed.
Lemma timestamptz_Ok value d t d' : timestamptz value d = (Ok t, d') ↔ Date_parse value = Some t ∧ d' = d.
Proof.
  unfold timestamptz. destruct (Date_parse value) as [x|]; split.
  1: by intros [= -> ->]. 1: by intros [[= ->] ->]. 1: by intros [=]. by intros [[=] _].
Qed.
Lemma timestamptz_opt_Ok value d t d' :
  timestamptz_opt value d = (Ok t, d') → d' = d ∧ (is_Some t ↔ is_Some value).
Proof.
  unfold timestamptz_opt. destruct value as [v|]; intros Hr; run_inv.
  - apply timestamptz_Ok in Hr as [_ ->]. split; [done|]. by split; eauto.
  - split; [done|]. by split; intros [? ?].
Qed.
End Steps.

#[export] Hint Resolve preserves_timestamptz preserves_timestamptz_opt : effects.

(** The parameters of a transaction that was committed. *)
Ltac times :=
  repeat match goal with
  | Ht : timestamptz _ _ = (Ok _, _) |- _ => apply timestamptz_Ok in Ht as [Ht ?]; simplify_eq
  | Ht : timestamptz_opt _ _ = (Ok _, _) |- _ => apply timestamptz_opt_Ok in Ht as [? Ht]; simplify_eq
  end.
(** Reduce the preservation of a call to its writes. *)
Ltac keeps :=
  repeat first
    [ apply preserves_transaction | apply preserves_bind; [|intros ?] | apply preserves_try_catch; [|intros ?]
    | apply preserves_throw_when | apply preserves_gets | apply preserves_ret | apply preserves_throw
    | apply preserves_timestamptz | apply preserves_timestamptz_opt | apply preserves_if
    | apply preserves_modify; intros ? ?
    | match goal with |- preserves _ (match ?x with _ => _ end) => destruct x end ].
(** The writes of the calls that leave a table alone. *)
Ltac writes :=
  cbn [run_call];
  unfold contract_registerApplication, insert_application, contract_createPolicyAssignment, contract_revokePolicyAssignment,
    contract_createBreakGlassGrant, contract_revokeBreakGlassGrant, contract_recordBreakGlassUse,
    contract_recordPolicyAssignmentChange, contract_recordStorageProbe, insert_event, contract_createUploadSession,
    insert_upload_operation, insert_upload, required_row, contract_completeUploadSession; keeps; try done.
Ltac call_keeps := match goal with |- preserves _ (run_call _ ?c) => destruct c end; writes.

Section Registration.
Context `{JsDate} `{Crypto} (localeLe : string → string → bool).
Abbreviation step := (contract_step localeLe).

Lemma applications_grow d d' : rtc step d d' → c_applications d `prefix_of` c_applications d'.
Proof.
  intros Hs. apply (kept_step localeLe (λ e, c_applications d `prefix_of` c_applications e)) with d; [| |done|done].
  - intros c. call_keeps. by apply prefix_app_r.
  - intros e e' [-> _ _ _ _ _ _]. done.
Qed.

Lemma find_append {A} (f : A → bool) (l1 l2 : list A) :
  List.find f (l1 ++ l2) = match List.find f l1 with Some x => Some x | None => List.find f l2 end.
Proof. induction l1 as [|y l1 IH]; [done|]. cbn. by destruct (f y). Qed.
Lemma find_prefix {A} (f : A → bool) (l1 l2 : list A) x :
  l1 `prefix_of` l2 → List.find f l1 = Some x → List.find f l2 = Some x.
Proof. intros [k ->] Hf. by rewrite find_append, Hf. Qed.

(** The content of two registrations is the same. *)
Definition same_registration {T U} (r : ApplicationOf T) (r' : ApplicationOf U) : Prop :=
  app_namespace r = app_namespace r' ∧ app_name r = app_name r' ∧ app_applicationVersion r = app_applicationVersion r' ∧
  app_schemaPackageIds r = app_schemaPackageIds r' ∧ app_capabilities r = app_capabilities r'.

Lemma same_registration_content {T U} (r : ApplicationOf T) (r' : ApplicationOf U) :
  same_registration r r' ↔ registration_content r = registration_content r'.
Proof.
  unfold same_registration, registration_content. split.
  - by intros (-> & -> & -> & -> & ->).
  - intros [= -> -> -> Hs Hc]. split_and!; try done; apply strings_inj; unfold strings; congruence.
Qed.

Lemma fingerprint_content {T U} (r : ApplicationOf T) (r' : ApplicationOf U) :
  requestFingerprint localeLe r = requestFingerprint localeLe r' →
  same_registration r r' ∨ sha256_collision (stableJson localeLe (registration_content r)) (stableJson localeLe (registration_content r')).
Proof.
  intros [He|Hc]%sha256_eq_or_collision; [left|by right]. apply same_registration_content.
  eapply stableJson_inj; [done| |done]. apply (bool_decide_unpack _). vm_compute. exact I.
Qed.

(** After a registration the table has its row, under its key. *)
Lemma registered registration key a d d1 :
  contract_registerApplication localeLe registration key d = (Ok a, d1) →
  sql_blank key = false ∧ ∃ row,
    List.find (registered_with (app_workspaceId registration) key) (c_applications d1) = Some row ∧
    app_request_fingerprint row = Some (requestFingerprint localeLe registration) ∧ a = mapApplication row.
Proof.
  unfold contract_registerApplication. rewrite transaction_Ok. unfold try_catch.
  destruct ((insert_application _ _ _ ≫= _) d) as [[a'|e] d'] eqn:Hi; [|by intros [=]]. intros [= -> ->].
  run_inv. unfold insert_application in *. run_inv. to_prop. rename select (_ = Some _) into Hfp.
  split; [done|]. destruct (List.find _ _) as [row|] eqn:Hf; run_inv; eexists; (split; [|split; [exact Hfp|done]]); [exact Hf|].
  cbn [c_applications set_applications]. rewrite find_append, Hf. cbn. unfold registered_with. cbn. by rewrite !strict_eq_refl.
Qed.

(** A call with a key that is registered answers by the fingerprint alone. *)
Lemma register_again `{!CryptoLaws} registration key row d :
  sql_blank key = false →
  List.find (registered_with (app_workspaceId registration) key) (c_applications d) = Some row →
  is_Some (Date_parse (app_createdAt registration)) → is_Some (Date_parse (app_updatedAt registration)) →
  contract_registerApplication localeLe registration key d =
    (if app_request_fingerprint row === Some (requestFingerprint localeLe registration) then Ok (mapApplication row)
     else Err (codedError "IDEMPOTENCY_CONFLICT" "Idempotency key was already used for a different application registration."), d).
Proof.
  intros Hk Hf [t1 Ht1] [t2 Ht2]. unfold contract_registerApplication, transaction, try_catch, insert_application, timestamptz.
  rewrite Ht1, Ht2. run. rewrite Hk. unfold requestFingerprint at 1. rewrite sha256_hex. cbn [orb negb]. run. rewrite Hf. run.
  by destruct (bool_decide _).
Qed.

(** An idempotency key belongs to one registration of its workspace for
    good: once it was used, and whatever happens to the database since, a call
    with the key and the same content returns the registration first made,
    whatever identifier and time it carries, and a call with other content is
    refused as a conflict; neither writes anything.  (The contents are compared
    by SHA-256 of their JSON: the alternative is a collision.) *)
Theorem registration_key_final `{!CryptoLaws} registration registration' key a d d1 d2 :
  contract_registerApplication localeLe registration key d = (Ok a, d1) → rtc step d1 d2 →
  app_workspaceId registration' = app_workspaceId registration →
  is_Some (Date_parse (app_createdAt registration')) → is_Some (Date_parse (app_updatedAt registration')) →
  (same_registration registration registration' →
     contract_registerApplication localeLe registration' key d2 = (Ok a, d2)) ∧
  (¬ same_registration registration registration' →
     contract_registerApplication localeLe registration' key d2 =
       (Err (codedError "IDEMPOTENCY_CONFLICT" "Idempotency key was already used for a different application registration."), d2) ∨
     sha256_collision (stableJson localeLe (registration_content registration))
       (stableJson localeLe (registration_content registration'))).
Proof.
  intros (Hk & row & Hf & Hp & ->)%registered Hs Hw Hc Hu.
  pose proof (find_prefix _ _ _ _ (applications_grow _ _ Hs) Hf) as Hf2. rewrite <- Hw in Hf2.
  rewrite (register_again registration' key row d2) by done. rewrite Hp. split.
  - intros Heq%same_registration_content. unfold requestFingerprint. rewrite Heq. by rewrite strict_eq_refl.
  - intros Hne. case_bool_decide as He; [|by left]. right. injection He as He.
    by destruct (fingerprint_content _ _ He).
Qed.
End Registration.

(** A transaction keeps what its successful runs keep. *)
Lemma preserves_committed {S E A} (I : S → Prop) (m : M S E A) :
  (∀ s a s', m s = (Ok a, s') → I s → I s') → preserves I (transaction m).
Proof.
  intros Hm s HI. unfold transaction. destruct (m s) as [[a|e] s'] eqn:E1; [by eapply Hm|done].
Qed.

Section Policies.
Context `{JsDate} `{Crypto} (localeLe collation : string → string → bool).
Abbreviation step := (contract_step localeLe).
Abbreviation reachable := (contract_reachable localeLe).

(** The row an insertion adds, and that its identifier was free. *)
Lemma createPolicy_run assignment d b d' :
  contract_createPolicyAssignment assignment d = (Ok b, d') →
  ∃ row, b = mapPolicy row ∧ policy_taken assignment d = false ∧ pol_id row = pol_id assignment ∧
    c_policies d' = c_policies d ++ [row].
Proof.
  unfold contract_createPolicyAssignment. rewrite transaction_Ok. intros Hr. run_inv. times.
  by eexists (mkPolicyOf _ _ _ _ _ _ _ _ _ _).
Qed.

Lemma policy_free {T} (a : PolicyOf T) d r : policy_taken a d = false → r ∈ c_policies d → pol_id r ≠ pol_id a.
Proof.
  intros Ht Hr He. apply not_true_iff_false in Ht. apply Ht, existsb_elem. exists r. split; [done|].
  by rewrite He, strict_eq_refl.
Qed.

(** What a change of the assignments may do: add a row with a new identifier, or
    revoke rows that are not. *)
Lemma policies_kept (I : list (PolicyOf Z) → Prop) :
  (∀ l row, I l → (∀ r, r ∈ l → pol_id r ≠ pol_id row) → I (l ++ [row])) →
  (∀ l ws id at_, I l → I (map (λ r, if policy_at ws id r && (pol_revokedAt r === None) then revoked_policy at_ r else r) l)) →
  ∀ d d', rtc step d d' → I (c_policies d) → I (c_policies d').
Proof.
  intros Hadd Hrev. apply (kept_step localeLe (λ d, I (c_policies d))).
  - intros c. destruct c as [| |ws id at_| | | | | | | ]; try (writes; fail).
    + cbn [run_call]. apply preserves_bind; [|auto with effects]. intros d Hd.
      destruct (contract_createPolicyAssignment _ d) as [[b|e] d'] eqn:Hr.
      * apply createPolicy_run in Hr as (row & _ & Ht & Hid & ->). apply Hadd; [done|]. intros r Hin. rewrite Hid. by eapply policy_free.
      * unfold contract_createPolicyAssignment in Hr. by apply transaction_Err in Hr as ->.
    + cbn [run_call]. unfold contract_revokePolicyAssignment. keeps. by apply Hrev.
  - intros d d' [_ -> _ _ _ _ _]. done.
Qed.

Lemma policy_ids_unique d : reachable d → NoDup (map pol_id (c_policies d)).
Proof.
  intros (d0 & Hi & Hs). apply (policies_kept (λ l, NoDup (map pol_id l))) with d0; [| |done|].
  - intros l row Hl Hnew. rewrite map_app. apply NoDup_app. split_and!; [done| |apply NoDup_singleton].
    intros i (r & -> & Hr)%list_elem_of_fmap Hx%list_elem_of_singleton. by apply (Hnew r).
  - intros l ws id at_ Hl. rewrite map_map. erewrite map_ext; [exact Hl|]. intros r. by destruct (_ && _).
  - rewrite (initial_policies _ Hi). constructor.
Qed.

(** *** The repository as the policy data of the gateway *)

Definition registered_application (r : ApplicationRegistration) : RegisteredApplication :=
  mkApplication (app_id r) (app_workspaceId r) (app_namespace r) (app_capabilities r) (app_status r).
Definition scoped_assignment (a : PolicyAssignment) : ScopedPolicyAssignment :=
  mkAssignment (pol_id a) (pol_workspaceId a) (pol_principalType a) (pol_principalId a) (pol_role a) (pol_scopeKind a)
    (pol_scopeId a) (pol_revokedAt a).
Definition active_grant (g : BreakGlassGrant) : ActiveBreakGlassGrant :=
  mkGrant (bg_id g) (bg_workspaceId g) (bg_principalId g) (bg_reason g) (bg_actions g) (bg_grantedAt g) (bg_expiresAt g)
    (bg_revokedAt g).

(** What the gateway reads when the database is [d]; the identifiers of the event
    of a use are arguments. *)
(** Source: apps/trust-api/src/server.ts:149-160 access *)
Definition contract_policies (eventId requestId : string) (d : ContractDb) : PolicyDataSource :=
  mkPolicies (λ ws, map registered_application <$> (contract_listApplications collation ws d).1)
    (λ ws principalId, map scoped_assignment <$> (contract_listPolicyAssignments ws (Some principalId) d).1)
    (λ ws at_ principalId, map active_grant <$> (contract_listActiveBreakGlassGrants ws at_ (Some principalId) d).1)
    (Some (λ use, (contract_recordBreakGlassUse eventId requestId use d).1)).

Lemma listed_policies ws p d b :
  b ∈ map mapPolicy (order_by (time_then_id pol_createdAt pol_id)
    (List.filter (λ r, (pol_workspaceId r === ws) && (pol_revokedAt r === None) &&
       (negb (truthy p) || (Some (pol_principalId r) === p))) (c_policies d))) →
  ∃ r, b = mapPolicy r ∧ r ∈ c_policies d ∧ pol_revokedAt r = None.
Proof.
  intros (r & -> & Hr)%list_elem_of_fmap. rewrite order_by_perm in Hr. apply List_filter_elem in Hr as [Hr Hf].
  to_prop. by exists r.
Qed.

(** The identifiers of roles that come with the identity. *)
Lemma claimed_id (i : PolicyEvaluationInput) a :
  a ∈ claimedRoleAssignments i → startsWith (assignment_id a) "identity-claim:" = true.
Proof.
  unfold claimedRoleAssignments. case_match; [by intros ?%elem_of_nil|].
  intros (k & role & -> & _)%elem_of_lookup_imap. apply prefix_app.
Qed.

Lemma allowed_role_assignment clock i id :
  evaluatePolicy clock i = Allowed_role id →
  ∃ a, (a ∈ input_assignments i ∨ a ∈ claimedRoleAssignments i) ∧ assignment_id a = id.
Proof.
  unfold evaluatePolicy. intros He. repeat case_match; simplify_eq;
    rename select (first_authorising _ _ = Some _) into Hf; apply first_authorising_Some in Hf as (Hin & _);
    apply elem_of_app in Hin; eauto.
Qed.

(** A revoked row is the only one with its identifier, for good. *)
Lemma revoked_row_stays r t d d' :
  pol_revokedAt r = Some t → NoDup (map pol_id (c_policies d)) → r ∈ c_policies d → rtc step d d' →
  r ∈ c_policies d' ∧ ∀ r', r' ∈ c_policies d' → pol_id r' = pol_id r → r' = r.
Proof.
  intros Hr Hnd Hin Hs.
  apply (policies_kept (λ l, r ∈ l ∧ ∀ r', r' ∈ l → pol_id r' = pol_id r → r' = r)) with d; [| |done|].
  - intros l row [Hl Hu] Hnew. split; [apply elem_of_app; by left|]. intros r' [Hr'|Hr'%list_elem_of_singleton]%elem_of_app He; [auto|].
    subst r'. by destruct (Hnew r Hl).
  - intros l ws id at_ [Hl Hu]. split.
    + apply list_elem_of_fmap. exists r. split; [|done]. rewrite Hr, andb_false_r. done.
    + intros r' (q & -> & Hq)%list_elem_of_fmap He. assert (q = r) as ->; [|by rewrite Hr, andb_false_r].
      apply Hu; [done|]. rewrite <- He. by destruct (_ && _).
  - split; [done|]. intros r' Hr' He. apply list_elem_of_lookup in Hin as [i Hi]. apply list_elem_of_lookup in Hr' as [j Hj].
    assert (i = j) as ->; [|congruence]. apply (NoDup_lookup _ i j (pol_id r) Hnd); rewrite list_lookup_fmap; [by rewrite Hi|rewrite Hj; cbn; by f_equal].
Qed.

(** C12. Revocation is final: once an assignment reads as revoked, then whatever
    calls and other work follow, it reads the same, time of revocation included;
    no listing of assignments has it again; and the gateway, which takes its
    policy data from the repository, never allows anything on the strength of
    it.  (Roles that come with an identity have identifiers of their own.) *)
Theorem revocation_final ws id a t d d' :
  reachable d → contract_getPolicyAssignment ws id d = (Ok (Some a), d) → pol_revokedAt a = Some t → rtc step d d' →
  contract_getPolicyAssignment ws id d' = (Ok (Some a), d') ∧
  (∀ ws' p l, contract_listPolicyAssignments ws' p d' = (Ok l, d') → id ∉ map pol_id l) ∧
  (∀ eventId requestId gateway actor action scope at_ data,
     static_policies gateway = Some (contract_policies eventId requestId d') →
     policy_data gateway (auth_workspaceId scope) (actor_id actor) at_ = Ok data →
     startsWith id "identity-claim:" = false →
     evaluatePolicy at_ (policy_input actor action scope data at_) ≠ Allowed_role id).
Proof.
  intros Hd [= Hg] Ht Hs. destruct (List.find _ (c_policies d)) as [r|] eqn:Hf; [|done]. injection Hg as <-.
  cbn in Ht. destruct (pol_revokedAt r) as [z|] eqn:Hz; [|done].
  apply find_Some_elem in Hf as [Hr [Hw Hi]%andb_true_iff]. to_prop.
  destruct (revoked_row_stays r z d d' Hz (policy_ids_unique _ Hd) Hr Hs) as [Hr' Hu].
  assert (∀ ws' p b, b ∈ map mapPolicy (order_by (time_then_id pol_createdAt pol_id)
    (List.filter (λ r, (pol_workspaceId r === ws') && (pol_revokedAt r === None) &&
       (negb (truthy p) || (Some (pol_principalId r) === p))) (c_policies d'))) → pol_id b ≠ id) as Hl.
  { intros ws' p b (q & -> & Hq & Hn)%listed_policies He. assert (q = r) as -> by (apply Hu; [done|]; cbn in He; congruence).
    congruence. }
  split_and!.
  - unfold contract_getPolicyAssignment. cbn. destruct (List.find _ (c_policies d')) as [q|] eqn:Hq.
    + apply find_Some_elem in Hq as [Hq [_ Hi']%andb_true_iff]. to_prop. by rewrite (Hu q) by congruence.
    + apply (find_None_elem _ _ _ Hq) in Hr'. unfold policy_at in Hr'. by rewrite Hw, Hi, !strict_eq_refl in Hr'.
  - intros ws' p l [= <-] (b & He & Hb)%list_elem_of_fmap. symmetry in He. by apply (Hl ws' p b Hb).
  - intros ev rq gateway actor action scope at_ data Hp Hdata Hc (b & Hb & He)%allowed_role_assignment.
    destruct Hb as [Hb|Hb]; [|apply claimed_id in Hb; congruence].
    unfold policy_data in Hdata. rewrite Hp in Hdata. run_inv. rename select (listPolicyAssignments _ _ _ = _) into Hlist.
    rename select (mret _ = Ok data) into Hret. injection Hret as <-. cbn in Hlist. injection Hlist as <-. cbn in Hb. apply list_elem_of_fmap in Hb as (b' & -> & Hb').
    by apply (Hl _ _ _ Hb').
Qed.
End Policies.

(** What follows a guard may rely on it. *)
Lemma preserves_guard {S E A} (I : S → Prop) b (e : E) (m : M S E A) :
  (b = false → preserves I m) → preserves I (throw_when b e ≫= λ _, m).
Proof. intros Hm s HI. rewrite throw_when_bind. destruct b; [done|]. by apply Hm. Qed.

Section Grants.
Context `{JsDate} `{Crypto} (localeLe : string → string → bool).
Abbreviation step := (contract_step localeLe).
Abbreviation reachable := (contract_reachable localeLe).

(** A reason, actions that are eligible, and an end after the beginning. *)
Record grant_ok (r : BreakGlassOf Z) : Prop := mkGrantOk {
  gok_reason : blank (bg_reason r) = false;
  gok_actions : bg_actions r ≠ [];
  gok_eligible : ∀ action, action ∈ bg_actions r → isBreakGlassEligibleAction action = true;
  gok_window : (bg_grantedAt r < bg_expiresAt r)%Z;
}.

Lemma createGrant_keeps grant :
  preserves (λ d, Forall grant_ok (c_grants d)) (contract_createBreakGlassGrant grant).
Proof.
  unfold contract_createBreakGlassGrant. apply preserves_guard. intros [[Hreason Hlen]%orb_false_iff Hel]%orb_false_iff.
  apply preserves_guard. intros _. apply preserves_committed. intros d g d' Hr Hd. run_inv. times. to_prop.
  cbn [c_grants set_grants]. apply Forall_app. split; [done|]. constructor; [|constructor]. constructor; cbn; [done| | |lia].
  - by destruct (bg_actions grant).
  - intros a Ha. apply negb_false_iff. apply not_true_iff_false. intros Hn. apply not_true_iff_false in Hel. apply Hel.
    apply existsb_elem. by exists a.
Qed.

Lemma grants_ok d : reachable d → Forall grant_ok (c_grants d).
Proof.
  apply (kept_reachable localeLe (λ d, Forall grant_ok (c_grants d))).
  - intros c. destruct c as [| | |grant|ws id at_| | | | | ]; try (writes; fail).
    + cbn [run_call]. apply preserves_bind; [apply createGrant_keeps|auto with effects].
    + cbn [run_call]. unfold contract_revokeBreakGlassGrant. keeps. cbn [c_grants set_grants].
      apply Forall_map. rename select (Forall grant_ok _) into Hall. apply (Forall_impl _ _ _ Hall). intros r [].
      destruct (_ && _); by constructor.
  - by intros d' d'' [_ _ -> _ _ _ _].
  - intros d' Hi. rewrite (initial_grants _ Hi). constructor.
Qed.

(** C13. What the policy engine is given as an active break-glass grant is one:
    in any reachable database, a grant listed at a time is of the workspace and
    of the principal asked for, is not revoked, has a reason and a non-empty set
    of actions each of which break-glass may ever cover, and the time lies
    between its beginning, included, and its end, excluded. *)
Theorem listed_grant_bounded d ws at_ principal l g :
  reachable d → contract_listActiveBreakGlassGrants ws at_ (Some principal) d = (Ok l, d) → principal ≠ EmptyString → g ∈ l →
  bg_workspaceId g = ws ∧ bg_principalId g = principal ∧ bg_revokedAt g = None ∧ blank (bg_reason g) = false ∧
  bg_actions g ≠ [] ∧ (∀ action, action ∈ bg_actions g → isBreakGlassEligibleAction action = true) ∧
  ∃ granted now expires, bg_grantedAt g = toISOString granted ∧ Date_parse at_ = Some now ∧
    bg_expiresAt g = toISOString expires ∧ (granted ≤ now < expires)%Z.
Proof.
  intros Hd Hl Hp Hg. unfold contract_listActiveBreakGlassGrants in Hl. rewrite transaction_Ok in Hl. run_inv. times.
  apply list_elem_of_fmap in Hg as (r & -> & Hr). rewrite order_by_perm in Hr. apply List_filter_elem in Hr as [Hr Hf].
  pose proof (proj1 (Forall_forall _ _) (grants_ok _ Hd) r Hr) as [].
  cbn [truthy] in Hf. rewrite (bool_decide_eq_false_2 (principal = EmptyString)) in Hf by done. cbn [negb orb] in Hf.
  to_prop. simplify_eq. cbn. rename select (bg_revokedAt r = None) into Hn. rewrite Hn.
  split_and!; try done. eexists _, _, _. split_and!; [done|done|done|lia|lia].
Qed.
End Grants.

(** ** The audit log as a verification reads it *)

(** The least row comes first. *)
Lemma order_by_head {A} (leb : A → A → bool) (r : A) l :
  r ∈ l → (∀ y, y ∈ l → leb r y = true) → (∀ y, y ∈ l → y = r ∨ leb y r = false) →
  head (order_by leb l) = Some r.
Proof.
  induction l as [|x l IH]; [by intros ?%elem_of_nil|]. intros Hr Hle Hlt. cbn.
  assert (∀ y, y ∈ order_by leb l → y ∈ l) as Hperm by (intros y; by rewrite order_by_perm).
  fold (order_by leb l). destruct (Hlt x (list_elem_of_here _ _)) as [->|Hx].
  - destruct (order_by leb l) as [|y k]; [done|]. cbn. rewrite Hle; [done|].
    right. apply Hperm. apply list_elem_of_here.
  - apply elem_of_cons in Hr as [->|Hr]; [by rewrite (Hle x (list_elem_of_here _ _)) in Hx|].
    assert (head (order_by leb l) = Some r) as Hh by (apply IH; [done|..]; intros y Hy; [apply Hle|apply Hlt]; by right).
    destruct (order_by leb l) as [|y k]; [done|]. injection Hh as ->. cbn. by rewrite Hx.
Qed.

Section AuditLog.
Context `{JsDate} `{Crypto} (localeLe : string → string → bool).
Abbreviation step := (contract_step localeLe).

(** Source: packages/persistence-postgres/src/verification-catalog.ts:156-159 loadSnapshot *)
Definition catalogue_chain (workspaceId : string) (d : ContractDb) : list ChainedAuditEvent :=
  map mapAuditEvent (order_by (time_then_id occurred_at (λ r, event_id (log_body r)))
    (List.filter (λ r, event_workspaceId (log_body r) === workspaceId) (c_audit d))).

(** The event a call of one of the three [record...] methods appends. *)
Definition recorded_event (c : contract_call) : option AuditEventBody :=
  match c with
  | CallRecordUse eventId fresh use =>
      let requestId := default fresh (use_requestId use) in
      Some (mkAuditBody eventId (use_workspaceId use) "user" (use_principalId use) "break_glass.used" "break_glass_grant"
        (use_grantId use) (use_occurredAt use) requestId requestId
        (JObject [("authorizedAction", JString (action_name (use_action use))); ("reason", JString (use_reason use))]))
  | CallRecordChange eventId ws actor assignmentId action requestId at_ metadata =>
      Some (mkAuditBody eventId ws (principal_type_name (actorPrincipalType actor)) (actor_id actor) action
        "policy_assignment" assignmentId at_ requestId requestId metadata)
  | CallRecordProbe eventId ws actor requestId at_ metadata =>
      Some (mkAuditBody eventId ws (principal_type_name (actorPrincipalType actor)) (actor_id actor)
        "storage.health.probed" "workspace" ws at_ requestId requestId metadata)
  | _ => None
  end.

Lemma run_record c body d : recorded_event c = Some body → run_call localeLe c d = transaction (insert_event body) d.
Proof. by destruct c; intros [= <-]. Qed.

Lemma log_grows d d' : rtc step d d' → c_audit d `prefix_of` c_audit d'.
Proof.
  intros Hs. apply (kept_step localeLe (λ e, c_audit d `prefix_of` c_audit e)) with d; [| |done|done].
  - intros c. call_keeps; by apply prefix_app_r.
  - intros e e' Ho Hp. etrans; [exact Hp|]. apply (others_audit _ _ Ho).
Qed.

(** The row an event becomes in a workspace without events. *)
Lemma first_event body d d' :
  (∀ r, r ∈ c_audit d → event_workspaceId (log_body r) ≠ event_workspaceId body) →
  insert_event body d = (Ok tt, d') →
  ∃ hash, c_audit d' = c_audit d ++ [mkLogRow body None None (Some (spaces 64)) hash].
Proof.
  intros Hn Hr. assert (newest_event (event_workspaceId body) d = None) as Hnew.
  { unfold newest_event. replace (List.filter _ _) with (@nil LogRow); [done|]. symmetry.
    destruct (List.filter _ _) as [|r l] eqn:Hf; [done|]. exfalso.
    assert (r ∈ List.filter (λ r, event_workspaceId (log_body r) === event_workspaceId body) (c_audit d)) as [Hin He]%List_filter_elem
      by (rewrite Hf; apply list_elem_of_here). to_prop. by apply (Hn r). }
  unfold insert_event in Hr. run_inv. times. rewrite Hnew. cbn [c_audit set_log from_option appendAuditEvent previousEventHash].
  by eexists.
Qed.

(** The first audit event of a workspace must not come from this
    repository: the use of a break-glass grant, a change of an assignment or a
    storage probe recorded in a workspace without events writes the empty
    previous hash into a column of 64 characters, where the other writers put
    NULL; read back it is 64 spaces, so that from then on, whatever is appended
    later, the audit chain of the workspace fails its verification. *)
Theorem first_contract_event_breaks_chain c body d d1 d2 :
  recorded_event c = Some body →
  (∀ r, r ∈ c_audit d → event_workspaceId (log_body r) ≠ event_workspaceId body) →
  run_call localeLe c d = (Ok tt, d1) → rtc step d1 d2 →
  ∃ row, c_audit d1 = c_audit d ++ [row] ∧ log_body row = body ∧
    ((∀ r, r ∈ c_audit d2 → event_workspaceId (log_body r) = event_workspaceId body →
        r = row ∨ (occurred_at row < occurred_at r)%Z) →
     verifyAuditChain (catalogue_chain (event_workspaceId body) d2) = false).
Proof.
  intros Hc Hn Hr Hs. rewrite (run_record _ _ _ Hc), transaction_Ok in Hr.
  destruct (first_event _ _ _ Hn Hr) as [hash Hd1]. eexists. split; [exact Hd1|]. split; [done|]. intros Hold.
  set (row := mkLogRow _ _ _ _ _) in *. destruct (log_grows _ _ Hs) as [k Hd2]. rewrite Hd1 in Hd2.
  assert (row ∈ c_audit d2) as Hin by (rewrite Hd2; apply elem_of_app; left; apply elem_of_app; right; apply list_elem_of_here).
  assert (head (order_by (time_then_id occurred_at (λ r, event_id (log_body r)))
    (List.filter (λ r, event_workspaceId (log_body r) === event_workspaceId body) (c_audit d2))) = Some row) as Hh.
  { apply order_by_head.
    - apply List_filter_elem. split; [done|]. apply strict_eq_refl.
    - intros y [Hy He]%List_filter_elem. to_prop. unfold time_then_id. destruct (Hold y Hy He) as [->|Hlt]; [|by rewrite (proj2 (Z.ltb_lt _ _) Hlt)].
      rewrite Z.eqb_refl, orb_true_iff. right. apply andb_true_iff. split; [done|]. by destruct (String.leb_total (event_id (log_body row)) (event_id (log_body row))).
    - intros y [Hy He]%List_filter_elem. to_prop. destruct (Hold y Hy He) as [->|Hlt]; [by left|right].
      unfold time_then_id. apply orb_false_iff. split; [lia|]. apply andb_false_iff. left. lia. }
  unfold catalogue_chain. destruct (order_by _ _) as [|x l]; [done|]. injection Hh as ->. reflexivity.
Qed.
End AuditLog.

Module ContractWitness.

Definition byte_le : string → string → bool := String.leb.
Definition workspace : WorkspaceOf Z := mkWorkspaceOf "ws-1" "Studio" "studio" "active" 1%Z 1%Z.
Definition empty_db : ContractDb := mkContractDb [workspace] [] [] [] [] [] [] [] [] [] [].

Lemma empty_initial : contract_initial empty_db.
Proof. constructor; try reflexivity. constructor. Defined.

(** The databases the calls lead to. *)
Fixpoint after (cs : list contract_call) (d : ContractDb) : ContractDb :=
  match cs with [] => d | c :: cs => after cs (snd (run_call byte_le c d)) end.
Lemma after_steps cs d : rtc (contract_step byte_le) d (after cs d).
Proof. revert d. induction cs as [|c cs IH]; intros d; [constructor|]. econstructor; [exact (step_call byte_le d c)|apply IH]. Defined.

Definition sketches (id : string) (at_ : Z) (capabilities : list string) : ApplicationRegistration :=
  mkApplicationOf id "ws-1" "studio.sketches" "Sketches" "1.0.0" ["pkg-1"] capabilities app_active (toISOString at_) (toISOString at_).
Definition member : PolicyAssignment :=
  mkPolicyOf "s-1" "ws-1" principal_user "ada" "editor" Policy.scope_workspace "ws-1" "root" (toISOString 20) None.
Definition incident : BreakGlassGrant :=
  mkBreakGlassOf "g-1" "ws-1" "op-1" "incident 42" ["blob:read"] "root" (toISOString 30) (toISOString 60) None.

Definition db1 : ContractDb := after [CallRegister (sketches "a-1" 10 ["blob:read"]) "key-1"] empty_db.
Definition db2 : ContractDb := after [CallCreatePolicy member; CallRevokePolicy "ws-1" "s-1" (toISOString 25); CallCreateGrant incident] db1.
Lemma db2_reachable : contract_reachable byte_le db2.
Proof.
  exists empty_db. split; [apply empty_initial|]. unfold db2. etrans; [|apply after_steps]. unfold db1. apply after_steps.
Defined.

Lemma registration_key_final_witness :
  (same_registration (sketches "a-1" 10 ["blob:read"]) (sketches "a-2" 90 ["blob:read"]) →
     contract_registerApplication byte_le (sketches "a-2" 90 ["blob:read"]) "key-1" db2 = (Ok (sketches "a-1" 10 ["blob:read"]), db2)) ∧
  (¬ same_registration (sketches "a-1" 10 ["blob:read"]) (sketches "a-2" 90 ["blob:read"]) →
     contract_registerApplication byte_le (sketches "a-2" 90 ["blob:read"]) "key-1" db2 =
       (Err (codedError "IDEMPOTENCY_CONFLICT" "Idempotency key was already used for a different application registration."), db2) ∨
     sha256_collision (stableJson byte_le (registration_content (sketches "a-1" 10 ["blob:read"])))
       (stableJson byte_le (registration_content (sketches "a-2" 90 ["blob:read"])))).
Proof.
  apply (registration_key_final byte_le (sketches "a-1" 10 ["blob:read"]) (sketches "a-2" 90 ["blob:read"]) "key-1"
    (sketches "a-1" 10 ["blob:read"]) empty_db db1 db2).
  - vm_compute. reflexivity.
  - apply after_steps.
  - reflexivity.
  - exists 90%Z. reflexivity.
  - exists 90%Z. reflexivity.
Defined.

(** The same key with another capability is a conflict, and so is another key
    with the namespace. *)
Example registration_conflicts :
  (contract_registerApplication byte_le (sketches "a-2" 90 ["object:ingest"]) "key-1" db2).1 =
    Err (codedError "IDEMPOTENCY_CONFLICT" "Idempotency key was already used for a different application registration.") ∧
  (contract_registerApplication byte_le (sketches "a-2" 90 ["blob:read"]) "key-2" db2).1 =
    Err (codedError "IDEMPOTENCY_CONFLICT" "Application namespace or idempotency key is already registered with different input.").
Proof. split; vm_compute; reflexivity. Qed.

Definition member_revoked : PolicyAssignment :=
  mkPolicyOf "s-1" "ws-1" principal_user "ada" "editor" Policy.scope_workspace "ws-1" "root" (toISOString 20) (Some (toISOString 25)).
Definition db3 : ContractDb := after [CallRevokePolicy "ws-1" "s-1" (toISOString 99); CallCreatePolicy member] db2.

Lemma revocation_final_witness :
  contract_getPolicyAssignment "ws-1" "s-1" db3 = (Ok (Some member_revoked), db3) ∧
  (∀ ws' p l, contract_listPolicyAssignments ws' p db3 = (Ok l, db3) → "s-1" ∉ map pol_id l) ∧
  (∀ eventId requestId gateway actor action scope at_ data,
     static_policies gateway = Some (contract_policies byte_le eventId requestId db3) →
     policy_data gateway (auth_workspaceId scope) (actor_id actor) at_ = Ok data →
     startsWith "s-1" "identity-claim:" = false →
     evaluatePolicy at_ (policy_input actor action scope data at_) ≠ Allowed_role "s-1").
Proof.
  apply (revocation_final byte_le byte_le "ws-1" "s-1" member_revoked (toISOString 25) db2 db3).
  - apply db2_reachable.
  - vm_compute. reflexivity.
  - reflexivity.
  - apply after_steps.
Defined.

Lemma listed_grant_bounded_witness :
  contract_listActiveBreakGlassGrants "ws-1" (toISOString 45) (Some "op-1") db2 = (Ok [incident], db2) ∧
  (bg_workspaceId incident = "ws-1" ∧ bg_principalId incident = "op-1" ∧ bg_revokedAt incident = None ∧
   blank (bg_reason incident) = false ∧ bg_actions incident ≠ [] ∧
   (∀ action, action ∈ bg_actions incident → isBreakGlassEligibleAction action = true) ∧
   ∃ granted now expires, bg_grantedAt incident = toISOString granted ∧ Date_parse (toISOString 45) = Some now ∧
     bg_expiresAt incident = toISOString expires ∧ (granted ≤ now < expires)%Z).
Proof.
  split; [vm_compute; reflexivity|].
  apply (listed_grant_bounded byte_le db2 "ws-1" (toISOString 45) "op-1" [incident] incident).
  - apply db2_reachable.
  - vm_compute. reflexivity.
  - discriminate.
  - left.
Defined.

(** Before the grant begins, at its end and after its revocation nothing is
    listed. *)
Example grant_not_listed :
  (contract_listActiveBreakGlassGrants "ws-1" (toISOString 29) (Some "op-1") db2).1 = Ok [] ∧
  (contract_listActiveBreakGlassGrants "ws-1" (toISOString 60) (Some "op-1") db2).1 = Ok [] ∧
  (contract_listActiveBreakGlassGrants "ws-1" (toISOString 45) (Some "op-1")
     (after [CallRevokeGrant "ws-1" "g-1" (toISOString 40)] db2)).1 = Ok [].
Proof. split_and!; vm_compute; reflexivity. Qed.

Definition use : BreakGlassUse := mkUse "ws-1" "op-1" "g-1" blob_read "incident 42" (Some "r-1") (toISOString 45).
Definition use_body : AuditEventBody :=
  mkAuditBody "e-1" "ws-1" "user" "op-1" "break_glass.used" "break_glass_grant" "g-1" (toISOString 45) "r-1" "r-1"
    (JObject [("authorizedAction", JString "blob:read"); ("reason", JString "incident 42")]).
Definition db4 : ContractDb := after [CallRecordUse "e-1" "r-0" use] db2.

Lemma first_contract_event_breaks_chain_witness :
  ∃ row, c_audit db4 = c_audit db2 ++ [row] ∧ log_body row = use_body ∧
    ((∀ r, r ∈ c_audit db4 → event_workspaceId (log_body r) = event_workspaceId use_body →
        r = row ∨ (occurred_at row < occurred_at r)%Z) →
     verifyAuditChain (catalogue_chain (event_workspaceId use_body) db4) = false).
Proof.
  apply (first_contract_event_breaks_chain byte_le (CallRecordUse "e-1" "r-0" use) use_body db2 db4 db4).
  - reflexivity.
  - intros r Hr. vm_compute in Hr. by apply elem_of_nil in Hr.
  - vm_compute. reflexivity.
  - constructor.
Defined.

(** The chain of the workspace after the first use of a grant. *)
Example first_use_unverifiable : verifyAuditChain (catalogue_chain "ws-1" db4) = false.
Proof. vm_compute. reflexivity. Qed.
End ContractWitness.
