(* ===== verification/Uploads.v ===== *)
(** * Upload sessions

    The life of an upload session in the tables of [Contracts]: the invariant of
    [upload_sessions] and [operations], that two applications never share a
    session, that a completed session never changes, and that an idempotency key
    names one session of its principal. *)
From S2P Require Import Prelude Js Concrete Json AuditChain Core Policy UploadMachine IngestStore Quarantine Verification Access Contracts.

(** A session with its operation. *)
Record session (d : ContractDb) (u : UploadRow) (o : ContractOperation) : Prop := mkSessionOf {
  session_upload : u ∈ c_uploads d;
  session_operation : o ∈ c_operations d;
  session_type : is_upload o = true;
  session_link : opr_id o = upr_operationId u;
  session_workspace : opr_workspaceId o = upr_workspaceId u;
}.

(** The constraints of the two tables: primary keys, the unique and the foreign
    key of a session, and that its operation is one of an upload. *)
Record uploads_ok (d : ContractDb) : Prop := mkUploadsOk {
  uok_operation_ids : NoDup (map opr_id (c_operations d));
  uok_upload_ids : NoDup (map upr_id (c_uploads d));
  uok_links : NoDup (map upr_operationId (c_uploads d));
  uok_sessions : ∀ u, u ∈ c_uploads d → ∃ o, session d u o;
}.

(** Elements with distinct keys are equal when their keys are. *)
Lemma NoDup_key {A} (f : A → string) l x y : NoDup (map f l) → x ∈ l → y ∈ l → f x = f y → x = y.
Proof.
  intros Hnd [i Hi]%list_elem_of_lookup [j Hj]%list_elem_of_lookup He.
  assert (i = j) as ->; [|congruence].
  apply (NoDup_lookup _ i j (f x) Hnd); rewrite list_lookup_fmap; [by rewrite Hi|rewrite Hj; cbn; by f_equal].
Qed.
Lemma find_keyed {A} (f : A → string) (g : A → bool) l x :
  NoDup (map f l) → x ∈ l → g x = true → (∀ y, y ∈ l → g y = true → f y = f x) → List.find g l = Some x.
Proof.
  intros Hnd Hx Hg Hu. destruct (List.find g l) as [y|] eqn:Hf.
  - apply find_Some_elem in Hf as [Hy Hgy]. f_equal. eapply (NoDup_key f); eauto.
  - apply (find_None_elem _ _ _ Hf) in Hx. congruence.
Qed.
Lemma NoDup_key_app {A} (f : A → string) l x : NoDup (map f l) → existsb (λ y, f y === f x) l = false → NoDup (map f (l ++ [x])).
Proof.
  intros Hnd Hx. rewrite map_app. apply NoDup_app. split_and!; [done| |apply NoDup_singleton].
  intros k (y & -> & Hy)%list_elem_of_fmap Hk%list_elem_of_singleton. apply not_true_iff_false in Hx. apply Hx, existsb_elem.
  exists y. split; [done|]. by rewrite Hk, strict_eq_refl.
Qed.
Lemma NoDup_key_map {A} (f : A → string) (g : A → A) l : (∀ x, f (g x) = f x) → NoDup (map f l) → NoDup (map f (map g l)).
Proof. intros Hg Hnd. rewrite map_map. by erewrite map_ext. Qed.

Section Sessions.
Context `{JsDate} `{Crypto} (localeLe : string → string → bool).
Abbreviation step := (contract_step localeLe).
Abbreviation reachable := (contract_reachable localeLe).

Lemma session_functional d u o o' : uploads_ok d → session d u o → session d u o' → o' = o.
Proof. intros Hd [] []. eapply (NoDup_key opr_id); [apply (uok_operation_ids _ Hd)|done|done|congruence]. Qed.

Lemma session_injective d u u' o o' : uploads_ok d → session d u o → session d u' o' → opr_id o' = opr_id o → u' = u.
Proof. intros Hd [] [] He. eapply (NoDup_key upr_operationId); [apply (uok_links _ Hd)|done|done|congruence]. Qed.

(** An actor that is not an application sees every upload of the workspace, an
    application those it requested. *)
Definition owns (actor : AuthenticatedActor) (o : ContractOperation) : Prop :=
  actor_principalType actor = Some principal_application →
  opr_principalType o = principal_application ∧ opr_requestedBy o = actor_id actor.

Lemma owner_clause actor o : applicationOwnerClause actor o = true ↔ owns actor o.
Proof.
  unfold applicationOwnerClause, owns. rewrite orb_true_iff, andb_true_iff, negb_true_iff, bool_decide_eq_false, !bool_decide_eq_true.
  destruct (decide (actor_principalType actor = Some principal_application)); naive_solver.
Qed.

Lemma scope_application ws actor :
  db_principalType (scoped ws (Some actor)) = principal_application ↔ actor_principalType actor = Some principal_application.
Proof. cbn. unfold actorPrincipalType. destruct (actor_principalType actor) as [[]|]; cbn; naive_solver. Qed.

(** What row-level security shows of an upload's operation. *)
Lemma visible_operation ws actor o :
  is_upload o = true → operation_visible (scoped ws (Some actor)) o = true ↔ opr_workspaceId o = ws ∧ owns actor o.
Proof.
  unfold is_upload. intros Ht. to_prop. unfold operation_visible, requested_by_scope, owns.
  rewrite Ht, strict_ne_refl, orb_false_r, andb_true_iff, orb_true_iff, negb_true_iff, andb_true_iff, bool_decide_eq_false, !bool_decide_eq_true.
  rewrite scope_application. cbn. destruct (decide (actor_principalType actor = Some principal_application)); naive_solver.
Qed.

Lemma visible_upload ws actor d u o :
  uploads_ok d → session d u o →
  upload_visible (scoped ws (Some actor)) d u = true ↔ upr_workspaceId u = ws ∧ owns actor o.
Proof.
  intros Hd Hs. pose proof Hs as [Hu Ho Ht Hl Hw]. unfold upload_visible. cbn [db_workspaceId scoped].
  rewrite andb_true_iff, orb_true_iff, negb_true_iff, bool_decide_eq_false, bool_decide_eq_true, existsb_elem, scope_application.
  split.
  - intros [-> [Hna|(o' & Ho' & Hv)]]; (split; [done|]); [by intros Ha|]. to_prop.
    assert (o' = o) as -> by (eapply (NoDup_key opr_id); [apply (uok_operation_ids _ Hd)|done|done|congruence]).
    rename select (operation_visible _ _ = true) into Hvis. by apply (visible_operation _ _ _ Ht) in Hvis as [_ ?].
  - intros [Hwu Hown]. split; [done|]. destruct (decide (actor_principalType actor = Some principal_application)) as [Ha|]; [right|by left].
    exists o. split; [done|]. rewrite Hl, Hw, !strict_eq_refl, !andb_true_r. apply andb_true_iff. split.
    + apply visible_operation; [done|]. by rewrite Hw.
    + unfold requested_by_scope. destruct (Hown Ha) as [-> ->]. cbn. by rewrite !strict_eq_refl.
Qed.

Lemma selected ws actor d u o :
  uploads_ok d → (u, o) ∈ uploadSelect (scoped ws (Some actor)) d ↔ session d u o ∧ upr_workspaceId u = ws ∧ owns actor o.
Proof.
  intros Hd. unfold uploadSelect. rewrite list_elem_of_In, in_flat_map. setoid_rewrite in_map_iff. setoid_rewrite <- list_elem_of_In.
  setoid_rewrite List_filter_elem. split.
  - intros (u' & [Hu Hv] & o' & [= <- <-] & Ho & Hc). to_prop.
    destruct (uok_sessions _ Hd _ Hu) as [o2 Hs2]. assert (o' = o2) as ->.
    { destruct Hs2. eapply (NoDup_key opr_id); [apply (uok_operation_ids _ Hd)|done|done|congruence]. }
    by apply (visible_upload _ _ _ _ _ Hd Hs2) in Hv.
  - intros (Hs & Hw & Hown). pose proof Hs as [Hu Ho Ht Hl Hlw]. exists u. split.
    + split; [done|]. by apply (visible_upload _ _ _ _ _ Hd Hs).
    + exists o. split; [done|]. split; [done|]. rewrite Hl, Hlw, !strict_eq_refl, !andb_true_r.
      apply visible_operation; [done|]. by rewrite Hlw.
Qed.

(** The session a read finds. *)
Lemma upload_row_spec ws id actor d u o :
  uploads_ok d →
  upload_row ws id actor d = Some (u, o) ↔ session d u o ∧ upr_workspaceId u = ws ∧ upr_id u = id ∧ owns actor o.
Proof.
  intros Hd. unfold upload_row. split.
  - intros [Hin Hf]%find_Some_elem. apply (selected _ _ _ _ _ Hd) in Hin as (? & ? & ?). to_prop. done.
  - intros (Hs & Hw & Hi & Hown). assert ((u, o) ∈ uploadSelect (scoped ws (Some actor)) d) as Hin by (by apply selected).
    destruct (List.find _ _) as [[u' o']|] eqn:Hf.
    + apply find_Some_elem in Hf as [Hin' Hc]. to_prop. apply (selected _ _ _ _ _ Hd) in Hin' as (Hs' & _ & _).
      assert (u' = u) as -> by (destruct Hs, Hs'; eapply (NoDup_key upr_id); [apply (uok_upload_ids _ Hd)|done|done|congruence]).
      by rewrite (session_functional _ _ _ _ Hd Hs Hs').
    + apply (find_None_elem _ _ _ Hf) in Hin. cbn in Hin. apply owner_clause in Hown. by rewrite Hw, Hi, Hown, !strict_eq_refl in Hin.
Qed.

Lemma session_others d d' u o : others d d' → session d u o → session d' u o.
Proof.
  intros Ho [Hu Hop Ht Hl Hw]. constructor; [by rewrite (others_uploads _ _ Ho)| |done..].
  assert (o ∈ List.filter is_upload (c_operations d')) as [Hin _]%List_filter_elem; [|done].
  rewrite (others_operations _ _ Ho). by apply List_filter_elem.
Qed.

Lemma uploads_ok_others d d' : others d d' → uploads_ok d → uploads_ok d'.
Proof.
  intros Ho Hd. constructor.
  - apply (others_operation_ids _ _ Ho).
  - rewrite (others_uploads _ _ Ho). apply (uok_upload_ids _ Hd).
  - rewrite (others_uploads _ _ Ho). apply (uok_links _ Hd).
  - intros u Hu. rewrite (others_uploads _ _ Ho) in Hu. destruct (uok_sessions _ Hd _ Hu) as [o Hs].
    exists o. by eapply session_others.
Qed.

(** *** Creation *)

(** What the two insertions of a creation may have added. *)
Record created (input : CreateUploadInput) (d d' : ContractDb) (o : ContractOperation) : Prop := mkCreated {
  created_operations : c_operations d' = c_operations d ∨
    c_operations d' = c_operations d ++ [o] ∧ existsb (λ x, opr_id x === opr_id o) (c_operations d) = false;
  created_key : List.find (upload_key input) (c_operations d') = Some o;
  created_request : stableJson localeLe (opr_request o) = stableJson localeLe (upload_request input);
  created_uploads : c_uploads d' = c_uploads d ∧ (∃ u, u ∈ c_uploads d ∧ upr_operationId u = opr_id o) ∨
    ∃ u, c_uploads d' = c_uploads d ++ [u] ∧ existsb (λ x, upr_id x === upr_id u) (c_uploads d) = false ∧
      existsb (λ x, upr_operationId x === upr_operationId u) (c_uploads d) = false ∧
      upr_operationId u = opr_id o ∧ upr_workspaceId u = cu_workspaceId input;
}.

Lemma insert_operation_run sc oid input d o d' :
  insert_upload_operation sc oid input d = (Ok o, d') →
  (c_operations d' = c_operations d ∨
   c_operations d' = c_operations d ++ [o] ∧ existsb (λ x, opr_id x === opr_id o) (c_operations d) = false) ∧
  List.find (upload_key input) (c_operations d') = Some o ∧ c_uploads d' = c_uploads d.
Proof.
  unfold insert_upload_operation. intros Hr. run_inv. times.
  destruct (List.find _ _) as [o'|] eqn:Hf; run_inv; [by auto|]. cbn [c_operations c_uploads set_contract_operations].
  split_and!; [right; by split| |done]. rewrite find_append, Hf. cbn. unfold upload_key. cbn. by rewrite !strict_eq_refl.
Qed.

Lemma insert_upload_run uid input o d d' :
  insert_upload uid input o d = (Ok tt, d') →
  c_operations d' = c_operations d ∧
  (c_uploads d' = c_uploads d ∧ (∃ u, u ∈ c_uploads d ∧ upr_operationId u = opr_id o) ∨
   ∃ u, c_uploads d' = c_uploads d ++ [u] ∧ existsb (λ x, upr_id x === upr_id u) (c_uploads d) = false ∧
     existsb (λ x, upr_operationId x === upr_operationId u) (c_uploads d) = false ∧
     upr_operationId u = opr_id o ∧ upr_workspaceId u = cu_workspaceId input).
Proof.
  unfold insert_upload. intros Hr. run_inv. times. destruct (existsb _ _) eqn:He; run_inv; simplify_eq.
  - split; [done|left]. split; [done|]. apply existsb_elem in He as (u & Hu & Hl). to_prop. eauto.
  - split; [done|right]. eexists. by split_and!.
Qed.

Lemma create_run oid uid input d s d' :
  contract_createUploadSession localeLe oid uid input d = (Ok s, d') →
  ∃ o, created input d d' o ∧ ∃ u o', s = mapUpload (u, o') ∧ upr_operationId u = opr_id o ∧
    (u, o') ∈ uploadSelect (mkDbScope (cu_workspaceId input) (cu_principalType input) (cu_actorId input)) d'.
Proof.
  unfold contract_createUploadSession. rewrite transaction_Ok. intros Hr. run_inv.
  rename select (insert_upload_operation _ _ _ _ = _) into Ho. apply insert_operation_run in Ho as (Hops & Hkey & Hups).
  rename select (insert_upload _ _ _ _ = _) into Hu. destruct x3. apply insert_upload_run in Hu as (Hops' & Hcase).
  rewrite Hups in Hcase. rewrite <- Hops' in Hops, Hkey.
  rename select (required_row _ _ _ = _) into Hq. unfold required_row in Hq.
  destruct (List.find _ (uploadSelect _ _)) as [[u o']|] eqn:Hf; run_inv. eexists. split.
  - constructor; [exact Hops|exact Hkey| |exact Hcase]. by to_prop.
  - apply find_Some_elem in Hf as [Hin Hc]. to_prop. eauto.
Qed.

Lemma key_operation input l o :
  List.find (upload_key input) l = Some o → o ∈ l ∧ is_upload o = true ∧ opr_workspaceId o = cu_workspaceId input.
Proof. intros [Ho Hk]%find_Some_elem. unfold upload_key in Hk. to_prop. unfold is_upload. split_and!; [done| |done]. by apply bool_decide_eq_true. Qed.

Lemma session_created input d d' o u o' : created input d d' o → session d u o' → session d' u o'.
Proof.
  intros [Hops _ _ Hups] [Hu Ho Ht Hl Hw]. constructor; [| |done..].
  - destruct Hups as [[-> _]|(v & -> & _)]; [done|]. apply elem_of_app. by left.
  - destruct Hops as [->|[-> _]]; [done|]. apply elem_of_app. by left.
Qed.

Lemma uploads_ok_created input d d' o : uploads_ok d → created input d d' o → uploads_ok d'.
Proof.
  intros Hd Hc. pose proof Hc as [Hops Hkey _ Hups]. constructor.
  - destruct Hops as [->|[-> Hn]]; [apply (uok_operation_ids _ Hd)|]. apply NoDup_key_app; [apply (uok_operation_ids _ Hd)|done].
  - destruct Hups as [[-> _]|(v & -> & Hn & _)]; [apply (uok_upload_ids _ Hd)|]. by apply NoDup_key_app; [apply (uok_upload_ids _ Hd)|].
  - destruct Hups as [[-> _]|(v & -> & _ & Hn & _)]; [apply (uok_links _ Hd)|]. by apply NoDup_key_app; [apply (uok_links _ Hd)|].
  - intros u Hu. assert (u ∈ c_uploads d → ∃ o', session d' u o') as Hold.
    { intros Hin. destruct (uok_sessions _ Hd _ Hin) as [o' Hs]. exists o'. by eapply session_created. }
    destruct Hups as [[He _]|(v & He & _ & _ & Hl & Hw)]; rewrite He in Hu; [by apply Hold|].
    apply elem_of_app in Hu as [Hu| ->%list_elem_of_singleton]; [by apply Hold|].
    apply key_operation in Hkey as (Ho & Ht & Hwo). exists o. constructor; [|done|done|done|congruence].
    rewrite He. apply elem_of_app. right. apply list_elem_of_here.
Qed.

(** *** Completion *)

(** What identifies an operation to a repeated request. *)
Definition upload_key_of (o : ContractOperation) : string * string * string * string * list (string * json) * (string * PrincipalType) :=
  (opr_type o, opr_workspaceId o, opr_idempotencyKey o, opr_idempotencyScope o, opr_request o,
   (opr_requestedBy o, opr_principalType o)).

(** The session a completion changes, and its operation. *)
Definition completing (input : CompleteUploadInput) (d : ContractDb) (u : UploadRow) : Prop :=
  u ∈ c_uploads d ∧ upr_id u = cmp_uploadId input ∧ upr_state u ≠ completed.

Record completion (input : CompleteUploadInput) (d d' : ContractDb) (fu : UploadRow → UploadRow)
    (fo : ContractOperation → ContractOperation) : Prop := mkCompletion {
  completion_uploads : c_uploads d' = map fu (c_uploads d);
  completion_operations : c_operations d' = map fo (c_operations d);
  completion_upload u : u ∈ c_uploads d → fu u = u ∨ completing input d u ∧ ∃ at_, fu u = completed_upload at_ u;
  completion_operation o : o ∈ c_operations d → fo o = o ∨
    ∃ u at_, completing input d u ∧ upr_operationId u = opr_id o ∧ fo o = completed_operation at_ input o;
  completion_upload_ids u : upr_id (fu u) = upr_id u ∧ upr_operationId (fu u) = upr_operationId u ∧
    upr_workspaceId (fu u) = upr_workspaceId u;
  completion_operation_ids o : opr_id (fo o) = opr_id o ∧ opr_workspaceId (fo o) = opr_workspaceId o ∧
    is_upload (fo o) = is_upload o ∧ upload_key_of (fo o) = upload_key_of o;
}.

Lemma one_completes sc input d u :
  length (List.filter (completes sc input d) (c_uploads d)) = 1 → u ∈ c_uploads d → upr_id u = cmp_uploadId input →
  uploads_ok d → completing input d u.
Proof.
  intros Hlen Hu Hi Hd. destruct (List.filter _ _) as [|v l] eqn:Hf; [done|].
  assert (v ∈ List.filter (completes sc input d) (c_uploads d)) as [Hv Hc]%List_filter_elem by (rewrite Hf; apply list_elem_of_here).
  unfold completes in Hc. to_prop. assert (u = v) as -> by (eapply (NoDup_key upr_id); [apply (uok_upload_ids _ Hd)|done|done|congruence]).
  by split_and!.
Qed.

(** The tables after the two updates of a completion at an instant. *)
Definition marked_uploads (at_ : Z) (input : CompleteUploadInput) (d : ContractDb) (u : UploadRow) : UploadRow :=
  if completes (scoped (cmp_workspaceId input) (Some (cmp_actor input))) input d u then completed_upload at_ u else u.
Definition marked_operations (at_ : Z) (input : CompleteUploadInput) (d : ContractDb) (o : ContractOperation) : ContractOperation :=
  let s := scoped (cmp_workspaceId input) (Some (cmp_actor input)) in
  let d1 := set_uploads (map (marked_uploads at_ input d)) d in
  if Nat.eqb (length (List.filter (completes s input d) (c_uploads d))) 1 &&
     (operation_visible s o && (opr_workspaceId o === cmp_workspaceId input) &&
      (Some (opr_id o) === upr_operationId <$> List.find (λ u, upload_visible s d1 u && (upr_id u === cmp_uploadId input)) (c_uploads d1)))
  then completed_operation at_ input o else o.
Definition marked (at_ : Z) (input : CompleteUploadInput) (d : ContractDb) : ContractDb :=
  set_contract_operations (map (marked_operations at_ input d)) (set_uploads (map (marked_uploads at_ input d)) d).

Lemma complete_eq input d at_ :
  Date_parse (cmp_completedAt input) = Some at_ →
  contract_completeUploadSession input d =
    match upload_row (cmp_workspaceId input) (cmp_uploadId input) (cmp_actor input) (marked at_ input d) with
    | None => (Err (codedError "OPERATION_NOT_FOUND" "Upload session was not found."), d)
    | Some row => (Ok (mapUpload row), marked at_ input d)
    end.
Proof.
  intros Ht. unfold contract_completeUploadSession, transaction, timestamptz. rewrite Ht. run. unfold marked, marked_operations.
  destruct (Nat.eqb _ 1) eqn:Hlen; run; [by destruct (upload_row _ _ _ _)|].
  replace (set_contract_operations (map _) _) with (set_uploads (map (marked_uploads at_ input d)) d).
  - unfold marked_uploads. by destruct (upload_row _ _ _ _).
  - unfold set_contract_operations, set_uploads. cbn. f_equal. symmetry. apply list_fmap_id.
Qed.

Lemma marked_completion at_ input d :
  uploads_ok d → completion input d (marked at_ input d) (marked_uploads at_ input d) (marked_operations at_ input d).
Proof.
  intros Hd. set (sc := scoped (cmp_workspaceId input) (Some (cmp_actor input))).
  assert (∀ u, upr_id (marked_uploads at_ input d u) = upr_id u ∧ upr_operationId (marked_uploads at_ input d u) = upr_operationId u ∧
    upr_workspaceId (marked_uploads at_ input d u) = upr_workspaceId u) as Hids
    by (intros u; unfold marked_uploads; by destruct (completes _ _ _ _)).
  constructor; [done|done| | |exact Hids|].
  - intros u Hu. unfold marked_uploads. destruct (completes _ _ _ _) eqn:Hc; [right|by left]. split; [|by eexists].
    unfold completes in Hc. to_prop. by split_and!.
  - intros o Ho. unfold marked_operations. destruct (_ && (_ && _)) eqn:Hc; [right|by left]. to_prop.
    rename select (Nat.eqb _ _ = true) into Hlen. apply Nat.eqb_eq in Hlen.
    rename select (Some (opr_id o) = _) into He. destruct (List.find _ _) as [u|] eqn:Hf; [|done]. injection He as He.
    apply find_Some_elem in Hf as [Hu Hc]. to_prop. cbn [c_uploads set_uploads] in Hu.
    apply list_elem_of_fmap in Hu as (v & -> & Hv). destruct (Hids v) as (Hi1 & Hi2 & _).
    exists v. eexists. split_and!; [|congruence|done]. eapply one_completes; [done|done|congruence|done].
  - intros o. unfold marked_operations. by destruct (_ && (_ && _)).
Qed.

Lemma complete_run input d s d' :
  uploads_ok d → contract_completeUploadSession input d = (Ok s, d') →
  ∃ fu fo, completion input d d' fu fo ∧ ∃ row,
    upload_row (cmp_workspaceId input) (cmp_uploadId input) (cmp_actor input) d' = Some row ∧ s = mapUpload row.
Proof.
  intros Hd Hr. destruct (Date_parse (cmp_completedAt input)) as [at_|] eqn:Ht.
  - rewrite (complete_eq _ _ _ Ht) in Hr. destruct (upload_row _ _ _ _) as [row|] eqn:Hrow; [|done]. injection Hr as <- <-.
    eexists _, _. split; [by apply marked_completion|by eauto].
  - unfold contract_completeUploadSession in Hr. rewrite transaction_Ok in Hr. run_inv. by times.
Qed.

Lemma session_completed input d d' fu fo u o : completion input d d' fu fo → session d u o → session d' (fu u) (fo o).
Proof.
  intros Hc [Hu Ho Ht Hl Hw]. destruct (completion_upload_ids _ _ _ _ _ Hc u) as (_ & H2 & H3).
  destruct (completion_operation_ids _ _ _ _ _ Hc o) as (H4 & H5 & H6 & _). constructor; try congruence.
  - rewrite (completion_uploads _ _ _ _ _ Hc). apply list_elem_of_fmap. eauto.
  - rewrite (completion_operations _ _ _ _ _ Hc). apply list_elem_of_fmap. eauto.
Qed.

Lemma uploads_ok_completed input d d' fu fo : uploads_ok d → completion input d d' fu fo → uploads_ok d'.
Proof.
  intros Hd Hc. pose proof (completion_upload_ids _ _ _ _ _ Hc) as Hu. pose proof (completion_operation_ids _ _ _ _ _ Hc) as Ho.
  constructor.
  - rewrite (completion_operations _ _ _ _ _ Hc). apply NoDup_key_map; [intros o; apply Ho|apply (uok_operation_ids _ Hd)].
  - rewrite (completion_uploads _ _ _ _ _ Hc). apply NoDup_key_map; [intros u; apply Hu|apply (uok_upload_ids _ Hd)].
  - rewrite (completion_uploads _ _ _ _ _ Hc). apply NoDup_key_map; [intros u; apply Hu|apply (uok_links _ Hd)].
  - intros u Hin. rewrite (completion_uploads _ _ _ _ _ Hc) in Hin. apply list_elem_of_fmap in Hin as (v & -> & Hv).
    destruct (uok_sessions _ Hd _ Hv) as [o Hs]. exists (fo o). by eapply session_completed.
Qed.

(** *** Every step, seen from the two tables *)

Inductive upload_change (d d' : ContractDb) : Prop :=
  | change_none : c_operations d' = c_operations d → c_uploads d' = c_uploads d → upload_change d d'
  | change_others : others d d' → upload_change d d'
  | change_created input o : created input d d' o → upload_change d d'
  | change_completed input fu fo : completion input d d' fu fo → upload_change d d'.

Lemma step_change d d' : uploads_ok d → step d d' → upload_change d d'.
Proof.
  intros Hd [c|d1 Ho]; [|by apply change_others].
  assert (∀ m : C (), preserves (λ e, c_operations e = c_operations d ∧ c_uploads e = c_uploads d) m →
    upload_change d (snd (m d))) as Hnone.
  { intros m Hm. specialize (Hm d (conj eq_refl eq_refl)). destruct (m d) as [[?|?] ?], Hm; by apply change_none. }
  destruct c as [| | | | | | | |oid uid input|input]; try (apply Hnone; by writes).
  - cbn [run_call]. unfold mbind, M_bind. destruct (contract_createUploadSession _ _ _ _ d) as [[s|e] d2] eqn:Hr.
    + apply create_run in Hr as (o & Hc & _). by eapply change_created.
    + unfold contract_createUploadSession in Hr. apply transaction_Err in Hr as ->. by apply change_none.
  - cbn [run_call]. unfold mbind, M_bind. destruct (contract_completeUploadSession _ d) as [[s|e] d2] eqn:Hr.
    + apply complete_run in Hr as (fu & fo & Hc & _); [|done]. by eapply change_completed.
    + unfold contract_completeUploadSession in Hr. apply transaction_Err in Hr as ->. by apply change_none.
Qed.

Lemma uploads_ok_change d d' : uploads_ok d → upload_change d d' → uploads_ok d'.
Proof.
  intros Hd [Ho Hu|Ho|input o Hc|input fu fo Hc]; [|by eapply uploads_ok_others|by eapply uploads_ok_created|by eapply uploads_ok_completed].
  destruct Hd as [H1 H2 H3 H4]. constructor; rewrite ?Ho, ?Hu; try done. intros u Hin. destruct (H4 u Hin) as [o []].
  exists o. constructor; by rewrite ?Ho, ?Hu.
Qed.

(** What every change keeps is kept for good. *)
Lemma kept_uploads (I : ContractDb → Prop) :
  (∀ d d', uploads_ok d → upload_change d d' → I d → I d') →
  ∀ d d', rtc step d d' → uploads_ok d → I d → uploads_ok d' ∧ I d'.
Proof.
  intros Hch d d' Hs. induction Hs as [|d d1 d2 Hst _ IH]; [done|]. intros Hd HI.
  pose proof (step_change _ _ Hd Hst) as Hc. apply IH; [by eapply uploads_ok_change|by eapply Hch].
Qed.

Lemma uploads_reachable d : reachable d → uploads_ok d.
Proof.
  intros (d0 & Hi & Hs). apply (kept_uploads (λ _, True)) with d0; [done|done| |done].
  constructor; rewrite ?(initial_uploads _ Hi); try constructor; [apply (initial_operation_ids _ Hi)|]. by intros u ?%elem_of_nil.
Qed.

(** A completed session with its operation, for good. *)
Lemma completed_stays d d' u o :
  uploads_ok d → rtc step d d' → session d u o → upr_state u = completed → uploads_ok d' ∧ session d' u o.
Proof.
  intros Hd Hs Hso Hc. apply (kept_uploads (λ e, session e u o)) with d; [|done..]. clear d d' Hd Hs Hso.
  intros d d' Hd Hch Hs. destruct Hch as [Ho Hu|Ho|input o' Hcr|input fu fo Hcp].
  - destruct Hs. constructor; by rewrite ?Ho, ?Hu.
  - by eapply session_others.
  - by eapply session_created.
  - pose proof (session_completed _ _ _ _ _ _ _ Hcp Hs) as Hs'.
    assert (fu u = u) as Hfu by (destruct (completion_upload _ _ _ _ _ Hcp u (session_upload _ _ _ Hs)) as [|[(_ & _ & Hn) _]]; [done|congruence]).
    assert (fo o = o) as Hfo; [|congruence].
    destruct (completion_operation _ _ _ _ _ Hcp o (session_operation _ _ _ Hs)) as [|(v & at_ & (Hv & _ & Hn) & Hl & _)]; [done|].
    assert (v = u) as ->; [|congruence]. eapply (NoDup_key upr_operationId); [apply (uok_links _ Hd)|done|apply (session_upload _ _ _ Hs)|].
    by rewrite Hl, (session_link _ _ _ Hs).
Qed.

Lemma map_unchanged {A} (f : A → A) l : (∀ x, x ∈ l → f x = x) → map f l = l.
Proof. induction l as [|x l IH]; intros Hf; [done|]. cbn. rewrite Hf by apply list_elem_of_here. f_equal. apply IH. intros y Hy. apply Hf. by right. Qed.
Lemma set_uploads_same f d : f (c_uploads d) = c_uploads d → set_uploads f d = d.
Proof. destruct d. unfold set_uploads. cbn. intros He. by rewrite He. Qed.

Lemma filter_keyed {A} (f : A → string) (g : A → bool) l x :
  NoDup (map f l) → x ∈ l → g x = true → (∀ y, y ∈ l → g y = true → f y = f x) → List.filter g l = [x].
Proof.
  induction l as [|y l IH]; [by intros _ ?%elem_of_nil|]. cbn. intros [Hn Hnd]%NoDup_cons Hx Hg Hu.
  apply elem_of_cons in Hx as [->|Hx].
  - rewrite Hg. f_equal. destruct (List.filter g l) as [|z k] eqn:Hf; [done|]. exfalso.
    assert (z ∈ List.filter g l) as [Hz Hgz]%List_filter_elem by (rewrite Hf; apply list_elem_of_here).
    apply Hn, list_elem_of_fmap. exists z. split; [|done]. symmetry. apply Hu; [by right|done].
  - destruct (g y) eqn:Hy; [|apply IH; auto; intros z Hz; apply Hu; by right]. exfalso. apply Hn, list_elem_of_fmap.
    exists x. split; [|done]. apply Hu; [apply list_elem_of_here|done].
Qed.

(** Completing an open session one may read succeeds, and the session then has
    the blob and the time of the completion. *)
Lemma complete_open input d u o at_ :
  uploads_ok d → upload_row (cmp_workspaceId input) (cmp_uploadId input) (cmp_actor input) d = Some (u, o) →
  upr_state u ≠ completed → Date_parse (cmp_completedAt input) = Some at_ →
  contract_completeUploadSession input d =
    (Ok (mapUpload (completed_upload at_ u, completed_operation at_ input o)), marked at_ input d).
Proof.
  intros Hd Hrow Hopen Ht. apply (upload_row_spec _ _ _ _ _ _ Hd) in Hrow as (Hs & Hw & Hi & Hown).
  pose proof Hs as [Hu Ho Hty Hl Hlw]. set (sc := scoped (cmp_workspaceId input) (Some (cmp_actor input))).
  pose proof (marked_completion at_ input d Hd) as Hcp. pose proof (uploads_ok_completed _ _ _ _ _ Hd Hcp) as Hd'.
  pose proof (proj2 (visible_upload _ _ _ _ _ Hd Hs) (conj Hw Hown)) as Hvu. fold sc in Hvu.
  assert (operation_visible sc o = true) as Hvo by (apply visible_operation; [done|]; by rewrite Hlw).
  assert (completes sc input d u = true) as Hc.
  { unfold completes. rewrite Hvu, Hw, Hi, !strict_eq_refl, bool_decide_eq_false_2 by done. cbn [andb negb]. apply existsb_elem.
    exists o. split; [done|]. rewrite Hvo, Hl, Hlw, Hw, !strict_eq_refl. by apply owner_clause. }
  assert (∀ v, v ∈ c_uploads d → completes sc input d v = true → upr_id v = upr_id u) as Huniq.
  { intros v Hv Hcv. unfold completes in Hcv. to_prop. congruence. }
  assert (marked_uploads at_ input d u = completed_upload at_ u) as Hmu by (unfold marked_uploads; fold sc; by rewrite Hc).
  assert (marked_operations at_ input d o = completed_operation at_ input o) as Hmo.
  { unfold marked_operations. fold sc. rewrite (filter_keyed upr_id _ _ u (uok_upload_ids _ Hd) Hu Hc Huniq). cbn [length Nat.eqb andb].
    set (d1 := set_uploads _ d). assert (List.find (λ v, upload_visible sc d1 v && (upr_id v === cmp_uploadId input)) (c_uploads d1) =
      Some (completed_upload at_ u)) as ->; [|by cbn; rewrite Hvo, Hlw, Hw, Hl, !strict_eq_refl].
    apply (find_keyed upr_id); [by apply NoDup_key_map, Hd; apply Hcp| | |].
    - cbn. apply list_elem_of_fmap. exists u. by rewrite Hmu.
    - change (upload_visible sc d1 (completed_upload at_ u)) with (upload_visible sc d u). rewrite Hvu. cbn. by rewrite Hi, strict_eq_refl.
    - intros v _ [_ Hv]%andb_true_iff. to_prop. cbn. congruence. }
  rewrite (complete_eq _ _ _ Ht), (proj2 (upload_row_spec _ _ _ _ (completed_upload at_ u) (completed_operation at_ input o) Hd')); [done|].
  split_and!; [|done|done|done]. rewrite <- Hmu, <- Hmo. by eapply session_completed.
Qed.

(** A completion that changes nothing. *)
Lemma complete_nothing input d :
  is_Some (Date_parse (cmp_completedAt input)) →
  (∀ u, u ∈ c_uploads d → completes (scoped (cmp_workspaceId input) (Some (cmp_actor input))) input d u = false) →
  contract_completeUploadSession input d =
    (match upload_row (cmp_workspaceId input) (cmp_uploadId input) (cmp_actor input) d with
     | None => Err (codedError "OPERATION_NOT_FOUND" "Upload session was not found.")
     | Some row => Ok (mapUpload row)
     end, d).
Proof.
  intros [t Ht] Hn. unfold contract_completeUploadSession, transaction, timestamptz. rewrite Ht. run.
  set (sc := scoped _ _) in *. replace (List.filter _ _) with (@nil UploadRow).
  2: { symmetry. destruct (List.filter _ _) as [|u l] eqn:Hf; [done|]. exfalso.
       assert (u ∈ List.filter (completes sc input d) (c_uploads d)) as [Hu Hc]%List_filter_elem by (rewrite Hf; apply list_elem_of_here).
       by rewrite Hn in Hc. }
  cbn [length Nat.eqb]. run. rewrite set_uploads_same; [by destruct (upload_row _ _ _ _)|].
  apply map_unchanged. intros u Hu. by rewrite Hn.
Qed.

(** What [actor] reads under the identifier [id] of the workspace, and that
    reading writes nothing. *)
Definition reads_upload (ws id : string) (actor : AuthenticatedActor) (d : ContractDb) (s : option UploadSession) : Prop :=
  contract_getUploadSession ws id actor d = (Ok s, d).

(** C10. A completed upload session is final: once it reads as completed, then
    whatever calls and other work follow, everybody who may read it reads the
    same session, with the same blob and the same time of completion, and
    completing it once more returns it and writes nothing. *)
Theorem completed_upload_final ws id actor s d d' :
  reachable d → reads_upload ws id actor d (Some s) → upload_state s = completed → rtc step d d' →
  reads_upload ws id actor d' (Some s) ∧
  (∀ actor' s', reads_upload ws id actor' d' (Some s') → s' = s) ∧
  (∀ blobId ingestOperationId completedAt, is_Some (Date_parse completedAt) →
     contract_completeUploadSession (mkCompleteUpload ws id actor blobId ingestOperationId completedAt) d' = (Ok s, d')).
Proof.
  unfold reads_upload. intros Hd [= Hg] Hc Hs. apply uploads_reachable in Hd. destruct (upload_row ws id actor d) as [[u o]|] eqn:Hrow; [|done].
  injection Hg as <-. cbn in Hc. apply (upload_row_spec _ _ _ _ _ _ Hd) in Hrow as (Hso & Hw & Hi & Hown).
  destruct (completed_stays _ _ _ _ Hd Hs Hso Hc) as [Hd' Hso'].
  assert (upload_row ws id actor d' = Some (u, o)) as Hrow' by (by apply upload_row_spec).
  split_and!.
  - unfold contract_getUploadSession. cbn. by rewrite Hrow'.
  - intros actor' s' [= Hg]. destruct (upload_row ws id actor' d') as [[u' o']|] eqn:Hr; [|done]. injection Hg as <-.
    apply (upload_row_spec _ _ _ _ _ _ Hd') in Hr as (Hs2 & _ & Hi2 & _).
    assert (u' = u) as -> by (destruct Hso', Hs2; eapply (NoDup_key upr_id); [apply (uok_upload_ids _ Hd')|done|done|congruence]).
    by rewrite (session_functional _ _ _ _ Hd' Hso' Hs2).
  - intros blobId op at_ Hat. rewrite complete_nothing; cbn; [by rewrite Hrow'|done|].
    intros v Hv. destruct (completes _ _ _ v) eqn:Hcv; [|done]. unfold completes in Hcv. cbn in Hcv. to_prop.
    assert (v = u) as ->; [|done]. destruct Hso'. eapply (NoDup_key upr_id); [apply (uok_upload_ids _ Hd')|done|done|congruence].
Qed.

(** C11. Applications are isolated from each other: an upload session one
    application can read does not exist for another application, which can
    neither read it nor complete it. *)
Theorem applications_uploads_disjoint ws id actor1 actor2 s d blobId ingestOperationId completedAt :
  reachable d →
  actor_principalType actor1 = Some principal_application → actor_principalType actor2 = Some principal_application →
  actor_id actor1 ≠ actor_id actor2 →
  reads_upload ws id actor1 d (Some s) → is_Some (Date_parse completedAt) →
  reads_upload ws id actor2 d None ∧
  contract_completeUploadSession (mkCompleteUpload ws id actor2 blobId ingestOperationId completedAt) d =
    (Err (codedError "OPERATION_NOT_FOUND" "Upload session was not found."), d).
Proof.
  unfold reads_upload. intros Hd H1 H2 Hne [= Hg] Hat. apply uploads_reachable in Hd. destruct (upload_row ws id actor1 d) as [[u o]|] eqn:Hrow; [|done].
  apply (upload_row_spec _ _ _ _ _ _ Hd) in Hrow as (Hso & Hw & Hi & Hown). destruct (Hown H1) as [_ Hreq].
  assert (∀ v, v ∈ c_uploads d → upr_id v = id → v = u) as Huniq.
  { intros v Hv He. destruct Hso. eapply (NoDup_key upr_id); [apply (uok_upload_ids _ Hd)|done|done|congruence]. }
  assert (upload_row ws id actor2 d = None) as Hnone.
  { destruct (upload_row ws id actor2 d) as [[v p]|] eqn:Hr; [|done]. exfalso.
    apply (upload_row_spec _ _ _ _ _ _ Hd) in Hr as (Hs2 & _ & Hi2 & Hown2). destruct (Hown2 H2) as [_ Hreq2].
    rewrite (Huniq v (session_upload _ _ _ Hs2) Hi2) in Hs2. rewrite (session_functional _ _ _ _ Hd Hso Hs2) in Hreq2. congruence. }
  split; [unfold contract_getUploadSession; cbn; by rewrite Hnone|]. rewrite complete_nothing; cbn; [by rewrite Hnone|done|].
  intros v Hv. destruct (completes _ _ _ v) eqn:Hcv; [|done]. exfalso. unfold completes in Hcv. cbn in Hcv. to_prop.
  assert (v = u) as -> by (by apply Huniq). rename select (upload_visible _ _ _ = true) into Hvis.
  apply (visible_upload _ _ _ _ _ Hd Hso) in Hvis as [_ Hown2]. destruct (Hown2 H2). congruence.
Qed.

(** *** Repeated requests *)

Lemma find_within {A} (f g : A → bool) l : (∀ x, f x = true → g x = true) → List.find f (List.filter g l) = List.find f l.
Proof.
  intros Hfg. induction l as [|x l IH]; [done|]. cbn. destruct (g x) eqn:Hg; cbn; [by rewrite IH|].
  destruct (f x) eqn:Hf; [|done]. by rewrite Hfg in Hg.
Qed.
Lemma find_map {A} (f : A → bool) (g : A → A) l : (∀ x, f (g x) = f x) → List.find f (map g l) = g <$> List.find f l.
Proof. intros Hg. induction l as [|x l IH]; [done|]. cbn. rewrite Hg. by destruct (f x). Qed.

Lemma upload_key_is_upload input o : upload_key input o = true → is_upload o = true.
Proof. unfold upload_key, is_upload. intros Hk. to_prop. by apply bool_decide_eq_true. Qed.
Lemma upload_key_same input o o' : upload_key_of o' = upload_key_of o → upload_key input o' = upload_key input o.
Proof. unfold upload_key_of, upload_key. by intros [= -> -> -> -> _ _ _]. Qed.

(** What a session was created with. *)
Definition terms (u : UploadRow) : string * string * string * string * Z * string * Z * Z :=
  (upr_id u, upr_workspaceId u, upr_operationId u, upr_mediaType u, upr_expectedByteLength u, upr_expectedSha256 u,
   upr_expiresAt u, upr_createdAt u).

(** The session and the row a key finds keep what they were created with. *)
Lemma session_persists input d d' u o :
  uploads_ok d → rtc step d d' → session d u o → List.find (upload_key input) (c_operations d) = Some o →
  uploads_ok d' ∧ ∃ u' o', session d' u' o' ∧ terms u' = terms u ∧ opr_id o' = opr_id o ∧ upload_key_of o' = upload_key_of o ∧
    List.find (upload_key input) (c_operations d') = Some o'.
Proof.
  intros Hd Hs Hso Hk. apply (kept_uploads (λ e, ∃ u' o', session e u' o' ∧ terms u' = terms u ∧ opr_id o' = opr_id o ∧
    upload_key_of o' = upload_key_of o ∧ List.find (upload_key input) (c_operations e) = Some o')) with d; [|done|done|by exists u, o].
  clear d d' Hd Hs Hso Hk. intros d d' Hd Hch (u' & o' & Hs & Hu & Hi & Ho & Hk).
  destruct Hch as [Hops Hups|Hot|input' o2 Hcr|input' fu fo Hcp].
  - exists u', o'. split_and!; [|done|done|done|by rewrite Hops]. destruct Hs. constructor; by rewrite ?Hops, ?Hups.
  - exists u', o'. split_and!; [by eapply session_others|done|done|done|].
    rewrite <- (find_within (upload_key input) is_upload), (others_operations _ _ Hot), find_within; [done|..]; apply upload_key_is_upload.
  - exists u', o'. split_and!; [by eapply session_created|done|done|done|].
    apply (find_prefix _ (c_operations d)); [|done]. destruct (created_operations _ _ _ _ Hcr) as [->|[-> _]]; [done|]. by apply prefix_app_r.
  - exists (fu u'), (fo o'). destruct (completion_operation_ids _ _ _ _ _ Hcp o') as (Hi' & _ & _ & Ho').
    split_and!; [by eapply session_completed| |congruence|congruence|].
    + rewrite <- Hu. destruct (completion_upload _ _ _ _ _ Hcp u' (session_upload _ _ _ Hs)) as [->|[_ [at_ ->]]]; done.
    + rewrite (completion_operations _ _ _ _ _ Hcp), find_map, Hk; [done|]. intros x. apply upload_key_same.
      apply (completion_operation_ids _ _ _ _ _ Hcp x).
Qed.

(** The request of two inputs is the same. *)
Definition same_upload (i i' : CreateUploadInput) : Prop :=
  cu_mediaType i = cu_mediaType i' ∧ cu_expectedByteLength i = cu_expectedByteLength i' ∧
  cu_expectedSha256 i = cu_expectedSha256 i' ∧ cu_expiresInSeconds i = cu_expiresInSeconds i'.

Lemma upload_request_json i i' :
  stableJson localeLe (upload_request i) = stableJson localeLe (upload_request i') ↔ same_upload i i'.
Proof.
  split.
  - intros He. apply stableJson_inj in He; [|done|apply (bool_decide_unpack _); vm_compute; exact I].
    by injection He.
  - unfold upload_request. by intros (-> & -> & -> & ->).
Qed.

(** The principal of a request, as the session's reader. *)
Definition requester (i : CreateUploadInput) : AuthenticatedActor :=
  mkActor (cu_actorId i) (cu_actorId i) (Some (cu_principalType i)) [] [cu_workspaceId i].

(** A creation whose key and session exist already writes nothing. *)
Lemma create_again oid uid input u o d :
  uploads_ok d → session d u o → List.find (upload_key input) (c_operations d) = Some o → owns (requester input) o →
  is_Some (Date_parse (cu_now input)) → is_Some (Date_parse (cu_expiresAt input)) →
  contract_createUploadSession localeLe oid uid input d =
    (if stableJson localeLe (opr_request o) === stableJson localeLe (upload_request input) then
       if Z.ltb (cu_expectedByteLength input) 0 || negb (SHA256_PATTERN (cu_expectedSha256 input)) then Err check_violation
       else Ok (mapUpload (u, o))
     else Err (codedError "IDEMPOTENCY_CONFLICT" "Idempotency key was already used for a different upload."), d).
Proof.
  intros Hd Hs Hk Hown [t1 Ht1] [t2 Ht2]. destruct (key_operation _ _ _ Hk) as (_ & Ht & Hw).
  unfold contract_createUploadSession, transaction, insert_upload_operation, insert_upload, timestamptz.
  change (mkDbScope (cu_workspaceId input) (cu_principalType input) (cu_actorId input)) with (scoped (cu_workspaceId input) (Some (requester input))).
  rewrite Ht1, Ht2. run. rewrite Hk. run. rewrite (proj2 (visible_operation _ (requester input) _ Ht) (conj Hw Hown)). cbn [negb]. run.
  destruct (bool_decide _) eqn:Hj; cbn [negb]; [|done]. run. destruct (_ || _) eqn:Hck; [done|]. run.
  replace (existsb (λ u0, upr_operationId u0 === opr_id o) (c_uploads d)) with true.
  2: { symmetry. apply existsb_elem. exists u. split; [apply (session_upload _ _ _ Hs)|]. rewrite (session_link _ _ _ Hs). apply strict_eq_refl. }
  run. destruct (List.find _ (uploadSelect _ _)) as [[v p]|] eqn:Hf.
  - apply find_Some_elem in Hf as [Hin Hc]. to_prop. apply (selected _ _ _ _ _ Hd) in Hin as (Hs2 & _ & _). unfold required_row. run.
    assert (v = u) as ->; [|by rewrite (session_functional _ _ _ _ Hd Hs Hs2)].
    eapply (NoDup_key upr_operationId); [apply (uok_links _ Hd)|apply (session_upload _ _ _ Hs2)|apply (session_upload _ _ _ Hs)|].
    rewrite <- (session_link _ _ _ Hs). done.
  - exfalso. apply (find_None_elem _ _ (u, o)) in Hf.
    + cbn beta iota in Hf. rewrite <- (session_workspace _ _ _ Hs), <- (session_link _ _ _ Hs), Hw, !strict_eq_refl in Hf. done.
    + apply selected; [done|]. split_and!; [done| |done]. by rewrite <- (session_workspace _ _ _ Hs).
Qed.

(** An idempotency key names one upload session of its principal: once a
    session was created with it, and whatever happens since, a request of the
    same principal with the key and the same terms returns that session, in the
    state it is in now and with the expiry it was created with, and a request
    with other terms is refused as a conflict; neither writes anything. *)
Theorem upload_key_final oid uid oid' uid' input input' s d d1 d2 :
  reachable d → contract_createUploadSession localeLe oid uid input d = (Ok s, d1) → rtc step d1 d2 →
  cu_workspaceId input' = cu_workspaceId input → cu_actorId input' = cu_actorId input →
  cu_principalType input' = cu_principalType input → cu_idempotencyKey input' = cu_idempotencyKey input →
  is_Some (Date_parse (cu_now input')) → is_Some (Date_parse (cu_expiresAt input')) →
  (same_upload input input' → (0 ≤ cu_expectedByteLength input)%Z → SHA256_PATTERN (cu_expectedSha256 input) = true →
     ∃ s', contract_createUploadSession localeLe oid' uid' input' d2 = (Ok s', d2) ∧
       upload_id s' = upload_id s ∧ upload_operationId s' = upload_operationId s ∧ upload_expiresAt s' = upload_expiresAt s ∧
       contract_getUploadSession (cu_workspaceId input) (upload_id s) (requester input) d2 = (Ok (Some s'), d2)) ∧
  (¬ same_upload input input' →
     contract_createUploadSession localeLe oid' uid' input' d2 =
       (Err (codedError "IDEMPOTENCY_CONFLICT" "Idempotency key was already used for a different upload."), d2)).
Proof.
  intros Hd Hr Hs Hw Ha Ht Hk Hn He. apply uploads_reachable in Hd. apply create_run in Hr as (o & Hc & u & o' & -> & Hl & Hin).
  pose proof (uploads_ok_created _ _ _ _ Hd Hc) as Hd1.
  apply (selected _ (requester input) _ _ _ Hd1) in Hin as (Hso & Hws & Hown).
  assert (o' = o) as ->.
  { destruct (key_operation _ _ _ (created_key _ _ _ _ Hc)) as (Ho & _). eapply (NoDup_key opr_id);
      [apply (uok_operation_ids _ Hd1)|apply (session_operation _ _ _ Hso)|done|]. by rewrite (session_link _ _ _ Hso). }
  destruct (session_persists input _ _ _ _ Hd1 Hs Hso (created_key _ _ _ _ Hc)) as (Hd2 & u2 & o2 & Hso2 & Hterms & Hid & Hkey & Hf2).
  assert (owns (requester input) o2) as Hown2.
  { unfold owns in *. unfold upload_key_of in Hkey. injection Hkey as _ _ _ _ _ -> ->. done. }
  assert (upload_key input' = upload_key input) as Hkeys by (unfold upload_key, idempotencyScope; by rewrite Hw, Ha, Ht, Hk).
  assert (owns (requester input') o2) as Hown3 by (unfold owns, requester in *; cbn in *; by rewrite Ha, Ht).
  rewrite (create_again oid' uid' input' u2 o2 d2) by (done || by rewrite Hkeys).
  assert (opr_request o2 = opr_request o) as Hreq by (unfold upload_key_of in Hkey; by injection Hkey).
  rewrite Hreq, (created_request _ _ _ _ Hc). unfold terms in Hterms. injection Hterms as H1 H2 H3 _ _ _ H4 _. split.
  - intros Hsame Hlen Hsha. rewrite (proj2 (upload_request_json _ _) Hsame), strict_eq_refl.
    destruct Hsame as (_ & Hl' & Hs' & _). rewrite <- Hl', <- Hs', Hsha, (proj2 (Z.ltb_ge _ _)) by lia. cbn [orb negb].
    eexists. split; [done|]. cbn. rewrite H1, H3, H4. split_and!; [done..|]. unfold contract_getUploadSession. cbn.
    rewrite (proj2 (upload_row_spec _ _ _ _ u2 o2 Hd2)); [cbn; by rewrite H1, H3, H4|]. split_and!; [done|congruence|done|done].
  - intros Hne. rewrite (bool_decide_eq_false_2 (stableJson _ _ = _)); [done|]. by rewrite upload_request_json.
Qed.
End Sessions.

Module UploadWitness.
Import Contracts.ContractWitness.

Definition digest64 : string := sha256 "scan".
Definition upload_of (at_ : Z) (length : Z) : CreateUploadInput :=
  mkCreateUpload "ws-1" "app-1" principal_application "upload-key" "image/png" length digest64 600 (toISOString (at_ + 600))
    (toISOString at_).
Definition app_1 : AuthenticatedActor := mkActor "app-1" "Sketches" (Some principal_application) [] ["ws-1"].
Definition app_2 : AuthenticatedActor := mkActor "app-2" "Other" (Some principal_application) [] ["ws-1"].
Definition owner : AuthenticatedActor := mkActor "ada" "Ada" (Some principal_user) ["owner"] ["ws-1"].

Definition created : ContractDb := after [CallCreateUpload "o-1" "u-1" (upload_of 100 7)] db2.
Definition done_upload : ContractDb :=
  after [CallCompleteUpload (mkCompleteUpload "ws-1" "u-1" app_1 "b-1" "i-1" (toISOString 150))] created.
Definition later : ContractDb :=
  after [CallCompleteUpload (mkCompleteUpload "ws-1" "u-1" app_1 "b-2" "i-2" (toISOString 200));
         CallCreateUpload "o-2" "u-2" (upload_of 300 7)] done_upload.

Lemma created_reachable : contract_reachable byte_le created.
Proof. destruct db2_reachable as (d0 & Hi & Hs). exists d0. split; [exact Hi|]. etrans; [exact Hs|apply after_steps]. Defined.
Lemma done_reachable : contract_reachable byte_le done_upload.
Proof. destruct created_reachable as (d0 & Hi & Hs). exists d0. split; [exact Hi|]. etrans; [exact Hs|apply after_steps]. Defined.

Definition open_session : UploadSession :=
  mkUploadSession "u-1" "ws-1" "o-1" requested status_pending "image/png" 7 digest64 (toISOString 700) (toISOString 100)
    (toISOString 100) None None.
Definition closed_session : UploadSession :=
  mkUploadSession "u-1" "ws-1" "o-1" completed status_succeeded "image/png" 7 digest64 (toISOString 700) (toISOString 100)
    (toISOString 150) (Some (toISOString 150)) (Some (JString "b-1")).

Lemma completed_upload_final_witness :
  reads_upload "ws-1" "u-1" app_1 done_upload (Some closed_session) ∧
  (reads_upload "ws-1" "u-1" app_1 later (Some closed_session) ∧
   (∀ actor' s', reads_upload "ws-1" "u-1" actor' later (Some s') → s' = closed_session) ∧
   (∀ blobId ingestOperationId completedAt, is_Some (Date_parse completedAt) →
      contract_completeUploadSession (mkCompleteUpload "ws-1" "u-1" app_1 blobId ingestOperationId completedAt) later =
        (Ok closed_session, later))).
Proof.
  split; [vm_compute; reflexivity|].
  apply (completed_upload_final byte_le "ws-1" "u-1" app_1 closed_session done_upload later).
  - apply done_reachable.
  - vm_compute. reflexivity.
  - reflexivity.
  - apply after_steps.
Defined.

Lemma applications_uploads_disjoint_witness :
  reads_upload "ws-1" "u-1" app_2 created None ∧
  contract_completeUploadSession (mkCompleteUpload "ws-1" "u-1" app_2 "b-9" "i-9" (toISOString 150)) created =
    (Err (codedError "OPERATION_NOT_FOUND" "Upload session was not found."), created).
Proof.
  apply (applications_uploads_disjoint byte_le "ws-1" "u-1" app_1 app_2 open_session created).
  - apply created_reachable.
  - reflexivity.
  - reflexivity.
  - discriminate.
  - vm_compute. reflexivity.
  - exists 150%Z. reflexivity.
Defined.

(** A user of the workspace reads the session of the application. *)
Example owner_reads : contract_getUploadSession "ws-1" "u-1" owner created = (Ok (Some open_session), created).
Proof. vm_compute. reflexivity. Qed.

Lemma upload_key_final_witness :
  (same_upload (upload_of 100 7) (upload_of 400 7) → (0 ≤ 7)%Z → SHA256_PATTERN digest64 = true →
     ∃ s', contract_createUploadSession byte_le "o-3" "u-3" (upload_of 400 7) done_upload = (Ok s', done_upload) ∧
       upload_id s' = "u-1" ∧ upload_operationId s' = "o-1" ∧ upload_expiresAt s' = toISOString 700 ∧
       contract_getUploadSession "ws-1" "u-1" (requester (upload_of 100 7)) done_upload = (Ok (Some s'), done_upload)) ∧
  (¬ same_upload (upload_of 100 7) (upload_of 400 7) →
     contract_createUploadSession byte_le "o-3" "u-3" (upload_of 400 7) done_upload =
       (Err (codedError "IDEMPOTENCY_CONFLICT" "Idempotency key was already used for a different upload."), done_upload)).
Proof.
  apply (upload_key_final byte_le "o-1" "u-1" "o-3" "u-3" (upload_of 100 7) (upload_of 400 7) open_session db2 created done_upload).
  - apply db2_reachable.
  - vm_compute. reflexivity.
  - apply after_steps.
  - reflexivity.
  - reflexivity.
  - reflexivity.
  - reflexivity.
  - exists 400%Z. reflexivity.
  - exists 1000%Z. reflexivity.
Defined.

(** The key with another length is a conflict. *)
Example upload_key_conflict :
  (contract_createUploadSession byte_le "o-3" "u-3" (upload_of 400 8) done_upload).1 =
    Err (codedError "IDEMPOTENCY_CONFLICT" "Idempotency key was already used for a different upload.").
Proof. vm_compute. reflexivity. Qed.
End UploadWitness.
