(* ===== verification/PostgresScans.v ===== *)
(** * packages/persistence-postgres: quarantine-scan-store.ts

    The table [quarantine_scan_jobs], next to the tables of [Contracts] whose
    upload sessions it refers to, and the store of scans over it.  The store
    implements the interface of [Quarantine]: what is proved of the orchestrator
    for any store, that its verdicts are sound and final, holds in PostgreSQL. *)
From S2P Require Import Prelude Js Concrete Json AuditChain Core Policy UploadMachine IngestStore Quarantine Verification Access Contracts Uploads.

(** Source: packages/persistence-postgres/src/quarantine-scan-store.ts:13-22 ScanRow *)
Record ScanRow := mkScanRow {
  job_id : string;
  job_workspaceId : string;
  job_uploadId : string;
  job_storageKey : string;
  job_state : QuarantineScanState;
  job_outcome : option ScanOutcome;
  job_createdAt : Z;
  job_updatedAt : Z;
}.

(** The database: the tables of the contract and the jobs. *)
Record ScanDb := mkScanDb { sdb_contracts : ContractDb; sdb_jobs : list ScanRow }.
Definition set_jobs (f : list ScanRow → list ScanRow) (d : ScanDb) : ScanDb := mkScanDb (sdb_contracts d) (f (sdb_jobs d)).

Section Store.
Context `{JsDate}.
Abbreviation J := (M ScanDb quarantine_exn).

(** Source: packages/persistence-postgres/src/quarantine-scan-store.ts:143-160 mapRow *)
Definition mapRow (r : ScanRow) : QuarantineScanRecord :=
  mkScan (job_id r) (job_workspaceId r) (job_uploadId r) (job_storageKey r) (job_state r) (job_outcome r)
    (toISOString (job_createdAt r)) (toISOString (job_updatedAt r)).

Definition job_of (workspaceId scanJobId : string) (r : ScanRow) : bool :=
  (job_workspaceId r === workspaceId) && (job_id r === scanJobId).
Definition job_for (workspaceId uploadId : string) (r : ScanRow) : bool :=
  (job_workspaceId r === workspaceId) && (job_uploadId r === uploadId).

(** Source: packages/persistence-postgres/src/quarantine-scan-store.ts:27-39 getByUploadId *)
Definition jobs_getByUploadId (workspaceId uploadId : string) : J (option QuarantineScanRecord) :=
  gets (λ d, mapRow <$> List.find (job_for workspaceId uploadId) (sdb_jobs d)).

(** Source: packages/persistence-postgres/src/quarantine-scan-store.ts:41-53 getByScanJobId *)
Definition jobs_getByScanJobId (workspaceId scanJobId : string) : J (option QuarantineScanRecord) :=
  gets (λ d, mapRow <$> List.find (job_of workspaceId scanJobId) (sdb_jobs d)).

(** A parameter of type [timestamptz]; an error of the server that is not a
    conflict is passed on, by its SQLSTATE. *)
Definition job_time (value : string) : J Z :=
  match Date_parse value with Some t => mret t | None => throw (ProviderFailure "22007") end.

(** The [INSERT]: a violation of a key, of the one job per upload or of the
    reference to the upload session is a conflict. *)
(** Source: packages/persistence-postgres/src/quarantine-scan-store.ts:72-94 save *)
Definition insert_job (record : QuarantineScanRecord) (createdAt updatedAt : Z) : J unit :=
  throw_when (sql_blank (scan_jobId record) || sql_blank (scan_storageKey record)) (ProviderFailure "23514") ≫= λ _,
  gets (λ d, existsb (λ r, (job_id r === scan_jobId record) || job_for (scan_workspaceId record) (scan_uploadId record) r)
    (sdb_jobs d)) ≫= λ taken : bool,
  throw_when taken QuarantineScanConflictError ≫= λ _,
  gets (λ d, existsb (λ u, (upr_workspaceId u === scan_workspaceId record) && (upr_id u === scan_uploadId record))
    (c_uploads (sdb_contracts d))) ≫= λ known : bool,
  throw_when (negb known) QuarantineScanConflictError ≫= λ _,
  modify (set_jobs (λ rows, rows ++ [mkScanRow (scan_jobId record) (scan_workspaceId record) (scan_uploadId record)
    (scan_storageKey record) (scan_state record) (scan_outcome record) createdAt updatedAt])).

(** The row the [UPDATE] changes, and what it sets. *)
Definition same_job (record : QuarantineScanRecord) (createdAt : Z) (r : ScanRow) : bool :=
  (job_id r === scan_jobId record) && (job_workspaceId r === scan_workspaceId record) &&
  (job_uploadId r === scan_uploadId record) && (job_storageKey r === scan_storageKey record) &&
  (job_createdAt r === createdAt).
Definition updated_job (record : QuarantineScanRecord) (updatedAt : Z) (r : ScanRow) : ScanRow :=
  mkScanRow (job_id r) (job_workspaceId r) (job_uploadId r) (job_storageKey r) (scan_state record) (scan_outcome record)
    (job_createdAt r) updatedAt.

(** Source: packages/persistence-postgres/src/quarantine-scan-store.ts:96-119 save *)
Definition update_job (record : QuarantineScanRecord) (createdAt updatedAt : Z) : J unit :=
  gets (λ d, length (List.filter (same_job record createdAt) (sdb_jobs d))) ≫= λ updated,
  modify (set_jobs (map (λ r, if same_job record createdAt r then updated_job record updatedAt r else r))) ≫= λ _,
  throw_when (negb (Nat.eqb updated 1)) QuarantineScanConflictError.

(** Source: packages/persistence-postgres/src/quarantine-scan-store.ts:55-131 save *)
Definition jobs_save (record : QuarantineScanRecord) : J unit :=
  transaction (
    jobs_getByScanJobId (scan_workspaceId record) (scan_jobId record) ≫= λ byJob,
    jobs_getByUploadId (scan_workspaceId record) (scan_uploadId record) ≫= λ byUpload,
    lift (resolveQuarantineScanSave byJob byUpload record) ≫= λ action,
    job_time (scan_createdAt record) ≫= λ createdAt,
    job_time (scan_updatedAt record) ≫= λ updatedAt,
    match action with
    | save_insert => insert_job record createdAt updatedAt
    | save_update => update_job record createdAt updatedAt
    end).

#[global] Instance postgres_scan_store : QuarantineScanStore ScanDb := {|
  getByUploadId := jobs_getByUploadId;
  getByScanJobId := jobs_getByScanJobId;
  save := jobs_save;
|}.

(** ** The store implements the interface *)

Definition jobs_ok (d : ScanDb) : Prop := NoDup (map job_id (sdb_jobs d)).

(** The record as it reads back. *)
Definition read_back (r : QuarantineScanRecord) : QuarantineScanRecord :=
  let iso s := toISOString (default 0%Z (Date_parse s)) in
  mkScan (scan_jobId r) (scan_workspaceId r) (scan_uploadId r) (scan_storageKey r) (scan_state r) (scan_outcome r)
    (iso (scan_createdAt r)) (iso (scan_updatedAt r)).

Lemma job_time_Ok value d t d' : job_time value d = (Ok t, d') → Date_parse value = Some t ∧ d' = d.
Proof. unfold job_time. destruct (Date_parse value); intros Hr; run_inv; done. Qed.

Lemma find_job d j r : jobs_ok d → r ∈ sdb_jobs d → job_id r = j → List.find (λ r, job_id r === j) (sdb_jobs d) = Some r.
Proof.
  intros Hd Hr Hj. destruct (List.find _ _) as [q|] eqn:Hf.
  - apply find_Some_elem in Hf as [Hq Hi]. to_prop. f_equal. eapply (NoDup_key job_id); [exact Hd|done|done|congruence].
  - apply (find_None_elem _ _ _ Hf) in Hr. by rewrite Hj, strict_eq_refl in Hr.
Qed.

Lemma find_job_of d w j :
  jobs_ok d → mapRow <$> List.find (job_of w j) (sdb_jobs d) =
    visible_in w (mapRow <$> List.find (λ r, job_id r === j) (sdb_jobs d)).
Proof.
  intros Hd. destruct (List.find (λ r, job_id r === j) _) as [r|] eqn:Hr; cbn.
  - apply find_Some_elem in Hr as [Hin Hi]. to_prop. destruct (decide (job_workspaceId r = w)) as [Hw|Hw].
    + rewrite Hw, strict_ne_refl. destruct (List.find _ _) as [q|] eqn:Hq; cbn.
      * apply find_Some_elem in Hq as [Hq Hc]. unfold job_of in Hc. to_prop.
        do 2 f_equal. eapply (NoDup_key job_id); [exact Hd|done|done|congruence].
      * apply (find_None_elem _ _ _ Hq) in Hin. unfold job_of in Hin. by rewrite Hw, Hi, !strict_eq_refl in Hin.
    + rewrite bool_decide_eq_false_2 by done. cbn [negb]. destruct (List.find _ _) as [q|] eqn:Hq; [|done]. exfalso.
      apply find_Some_elem in Hq as [Hq Hc]. unfold job_of in Hc. to_prop.
      assert (q = r) as -> by (eapply (NoDup_key job_id); [exact Hd|done|done|congruence]). done.
  - destruct (List.find (job_of w j) _) as [q|] eqn:Hq; [|done]. exfalso. apply find_Some_elem in Hq as [Hq Hc].
    unfold job_of in Hc. to_prop. apply (find_None_elem _ _ _ Hr) in Hq. by rewrite H1, strict_eq_refl in Hq.
Qed.

Lemma saved_insert record createdAt updatedAt d d' :
  jobs_ok d → insert_job record createdAt updatedAt d = (Ok tt, d') →
  jobs_ok d' ∧ List.find (λ r, job_id r === scan_jobId record) (sdb_jobs d) = None ∧
  sdb_jobs d' = sdb_jobs d ++ [mkScanRow (scan_jobId record) (scan_workspaceId record) (scan_uploadId record)
    (scan_storageKey record) (scan_state record) (scan_outcome record) createdAt updatedAt].
Proof.
  intros Hd Hr. unfold insert_job in Hr. run_in Hr. destruct (_ || _); [done|].
  destruct (existsb _ (sdb_jobs d)) eqn:Hfree; [done|]. destruct (negb _); [done|]. injection Hr as <-.
  assert (∀ r, r ∈ sdb_jobs d → job_id r ≠ scan_jobId record) as Hne.
  { intros r Hin He. apply not_true_iff_false in Hfree. apply Hfree, existsb_elem. exists r. by rewrite He, strict_eq_refl. }
  split_and!; [| |done].
  - unfold jobs_ok. cbn [sdb_jobs set_jobs]. apply NoDup_key_app; [exact Hd|]. apply not_true_iff_false. intros (r & Hin & He)%existsb_elem.
    to_prop. by apply (Hne r).
  - destruct (List.find _ _) as [r|] eqn:Hf; [|done]. apply find_Some_elem in Hf as [Hin He]. to_prop. by destruct (Hne r).
Qed.

Lemma saved_update record createdAt updatedAt d d' :
  jobs_ok d → update_job record createdAt updatedAt d = (Ok tt, d') →
  jobs_ok d' ∧ (∃ r, r ∈ sdb_jobs d ∧ same_job record createdAt r = true) ∧
  sdb_jobs d' = map (λ r, if same_job record createdAt r then updated_job record updatedAt r else r) (sdb_jobs d).
Proof.
  intros Hd Hr. unfold update_job in Hr. run_in Hr. destruct (Nat.eqb _ 1) eqn:Hlen; [|done]. injection Hr as <-. apply Nat.eqb_eq in Hlen.
  split_and!; [| |done].
  - unfold jobs_ok. cbn [sdb_jobs set_jobs]. apply NoDup_key_map; [|exact Hd]. intros r. by destruct (same_job _ _ _).
  - destruct (List.filter _ _) as [|r l] eqn:Hf; [done|]. exists r. apply List_filter_elem. rewrite Hf. apply list_elem_of_here.
Qed.

Lemma save_cases record d d' :
  jobs_save record d = (Ok tt, d') → ∃ createdAt updatedAt,
    Date_parse (scan_createdAt record) = Some createdAt ∧ Date_parse (scan_updatedAt record) = Some updatedAt ∧
    (insert_job record createdAt updatedAt d = (Ok tt, d') ∨ update_job record createdAt updatedAt d = (Ok tt, d')).
Proof.
  unfold jobs_save. rewrite transaction_Ok. unfold jobs_getByScanJobId, jobs_getByUploadId, job_time. intros Hr. run_in Hr.
  destruct (resolveQuarantineScanSave _ _ _) as [a|]; [|done].
  destruct (Date_parse (scan_createdAt record)) as [c|]; run_in Hr; [|done].
  destruct (Date_parse (scan_updatedAt record)) as [u|]; run_in Hr; [|done].
  exists c, u. split_and!; [done|done|]. by destruct a; [left|right].
Qed.

#[global] Program Instance postgres_scan_store_laws : QuarantineScanStoreLaws ScanDb :=
  {| scan_lookup := λ d j, mapRow <$> List.find (λ r, job_id r === j) (sdb_jobs d); scan_store_inv := jobs_ok;
     scan_kept := read_back |}.
Next Obligation. done. Qed.
Next Obligation.
  intros d j r Hd Hf. cbn in Hf. destruct (List.find _ _) as [q|] eqn:Hq; [|done]. injection Hf as <-.
  apply find_Some_elem in Hq as [_ Hq]. by to_prop.
Qed.
Next Obligation. intros d w j res d' Hd [= <- <-]. split; [done|]. intros o [= <-]. by apply find_job_of. Qed.
Next Obligation.
  intros d record res d' Hd Hr. cbn in Hr. cbn -[read_back]. destruct res as [[]|e].
  2: { unfold jobs_save in Hr. by apply transaction_Err in Hr as ->. }
  apply save_cases in Hr as (c & u & Hc & Hu & [Hr|Hr]).
  - apply saved_insert in Hr as (Hd' & Hn & ->); [|done]. split; [done|]. rewrite Hn. split; [|done]. intros j.
    rewrite find_append. cbn. destruct (decide (j = scan_jobId record)) as [->|Hj].
    + rewrite Hn, !strict_eq_refl. unfold read_back. by rewrite Hc, Hu.
    + rewrite (bool_decide_eq_false_2 (scan_jobId record = j)), (bool_decide_eq_false_2 (j = _)) by congruence.
      by destruct (List.find (λ r, job_id r === j) _).
  - apply saved_update in Hr as (Hd' & (r & Hin & Hsame) & ->); [|done]. split; [done|].
    pose proof Hsame as Hsame'. unfold same_job in Hsame'. to_prop.
    rewrite (find_job d (scan_jobId record) r) by done. split.
    + intros j. rewrite find_map by (intros q; by destruct (same_job _ _ q)). destruct (decide (j = scan_jobId record)) as [->|Hj].
      * rewrite strict_eq_refl, (find_job d (scan_jobId record) r) by done. cbn. rewrite Hsame. unfold read_back, mapRow. cbn.
        rewrite Hc, Hu. cbn. congruence.
      * rewrite (bool_decide_eq_false_2 (j = _)) by done. destruct (List.find _ _) as [q|] eqn:Hq; [|done]. cbn.
        apply find_Some_elem in Hq as [_ Hq]. to_prop. replace (same_job record c q) with false; [done|].
        unfold same_job. by rewrite bool_decide_eq_false_2 by congruence.
    + intros e [= <-]. unfold same_identity, read_back. cbn. rewrite Hc. cbn. split_and!; congruence.
Qed.

(** ** Saving a job *)

(** No other job has the identifier or is of the upload. *)
Definition job_alone (record : QuarantineScanRecord) (l : list ScanRow) : Prop :=
  ∀ r, r ∈ l → job_id r ≠ scan_jobId record ∧ job_for (scan_workspaceId record) (scan_uploadId record) r = false.
Definition session_known (record : QuarantineScanRecord) (d : ScanDb) : bool :=
  existsb (λ u, (upr_workspaceId u === scan_workspaceId record) && (upr_id u === scan_uploadId record)) (c_uploads (sdb_contracts d)).

Lemma alone_job record l : job_alone record l → List.find (job_of (scan_workspaceId record) (scan_jobId record)) l = None.
Proof.
  intros Hl. destruct (List.find _ l) as [r|] eqn:Hf; [|done]. apply find_Some_elem in Hf as [Hr Hc]. unfold job_of in Hc. to_prop.
  by destruct (Hl r Hr).
Qed.
Lemma alone_upload record l : job_alone record l → List.find (job_for (scan_workspaceId record) (scan_uploadId record)) l = None.
Proof.
  intros Hl. destruct (List.find _ l) as [r|] eqn:Hf; [|done]. apply find_Some_elem in Hf as [Hr Hc].
  destruct (Hl r Hr). congruence.
Qed.

(** The first save of a job adds its row. *)
Lemma save_new record d createdAt updatedAt :
  job_alone record (sdb_jobs d) → session_known record d = true →
  sql_blank (scan_jobId record) = false → sql_blank (scan_storageKey record) = false →
  Date_parse (scan_createdAt record) = Some createdAt → Date_parse (scan_updatedAt record) = Some updatedAt →
  jobs_save record d = (Ok tt, set_jobs (λ rows, rows ++ [mkScanRow (scan_jobId record) (scan_workspaceId record)
    (scan_uploadId record) (scan_storageKey record) (scan_state record) (scan_outcome record) createdAt updatedAt]) d).
Proof.
  intros Hl Hk Hj Hkey Hc Hu. unfold jobs_save, transaction, jobs_getByScanJobId, jobs_getByUploadId, job_time. run.
  rewrite (alone_job _ _ Hl), (alone_upload _ _ Hl), Hc, Hu. cbn [fmap option_fmap option_map resolveQuarantineScanSave]. run.
  unfold insert_job. run. rewrite Hj, Hkey. fold (session_known record d). rewrite Hk. cbn [orb negb].
  replace (existsb _ (sdb_jobs d)) with false; [done|]. symmetry. apply not_true_iff_false. intros (r & Hr & He)%existsb_elem.
  destruct (Hl r Hr) as [Hne Hf]. rewrite Hf, orb_false_r in He. by to_prop.
Qed.

(** A later save updates it. *)
Lemma save_again record d l row updatedAt :
  sdb_jobs d = l ++ [row] → job_alone record l → same_job record (job_createdAt row) row = true →
  toISOString (job_createdAt row) = scan_createdAt record → Date_parse (scan_createdAt record) = Some (job_createdAt row) →
  Date_parse (scan_updatedAt record) = Some updatedAt →
  jobs_save record d = (Ok tt, mkScanDb (sdb_contracts d) (l ++ [updated_job record updatedAt row])).
Proof.
  intros Hd Hl Hs Hiso Hc Hu. pose proof Hs as Hsame. unfold same_job in Hsame. to_prop.
  assert (∀ r, r ∈ l → same_job record (job_createdAt row) r = false) as Hother.
  { intros r Hr. destruct (Hl r Hr) as [Hne _]. unfold same_job. by rewrite bool_decide_eq_false_2. }
  unfold jobs_save, transaction, jobs_getByScanJobId, jobs_getByUploadId, job_time. run.
  rewrite Hd, find_append, (alone_job _ _ Hl), Hc, Hu. unfold job_of at 1. cbn [List.find].
  assert ((job_workspaceId row === scan_workspaceId record) && (job_id row === scan_jobId record) = true) as ->
    by (apply andb_true_iff; split; by apply bool_decide_eq_true_2).
  cbn [fmap option_fmap option_map]. unfold resolveQuarantineScanSave, mapRow.
  cbn [scan_workspaceId scan_uploadId scan_storageKey scan_createdAt].
  rewrite !bool_decide_eq_true_2 by congruence. cbn [negb orb]. run. unfold update_job. run. rewrite Hd.
  assert (List.filter (same_job record (job_createdAt row)) (l ++ [row]) = [row]) as ->.
  { rewrite List.filter_app. cbn. rewrite Hs. clear -Hother. induction l as [|r l IH]; [done|]. cbn.
    rewrite (Hother r (list_elem_of_here _ _)). apply IH. intros x Hx. apply Hother. by right. }
  cbn [length Nat.eqb negb]. run. do 2 f_equal. unfold set_jobs. rewrite Hd, map_app. cbn. rewrite Hs. do 2 f_equal.
  apply map_unchanged. intros r Hr. by rewrite (Hother r Hr).
Qed.

(** Another job of the upload makes the first save a conflict. *)
Lemma save_conflict record d r :
  (∀ q, q ∈ sdb_jobs d → job_id q ≠ scan_jobId record) → r ∈ sdb_jobs d →
  job_for (scan_workspaceId record) (scan_uploadId record) r = true →
  jobs_save record d = (Err QuarantineScanConflictError, d).
Proof.
  intros Hnew Hr Hf. unfold jobs_save, transaction, jobs_getByScanJobId, jobs_getByUploadId. run.
  destruct (List.find (job_of _ _) _) as [q|] eqn:Hq.
  { apply find_Some_elem in Hq as [Hq Hc]. unfold job_of in Hc. to_prop. by destruct (Hnew q). }
  destruct (List.find (job_for _ _) _) as [q|] eqn:Hu.
  - apply find_Some_elem in Hu as [Hin _]. cbn [fmap option_fmap option_map resolveQuarantineScanSave mapRow scan_jobId].
    by rewrite (bool_decide_eq_false_2 (job_id q = _)) by auto.
  - apply (find_None_elem _ _ _ Hu) in Hr. congruence.
Qed.

Lemma getByScanJobId_none w j d : (∀ q, q ∈ sdb_jobs d → job_id q ≠ j) → jobs_getByScanJobId w j d = (Ok None, d).
Proof.
  intros Hnew. unfold jobs_getByScanJobId, gets. destruct (List.find _ _) as [q|] eqn:Hq; [|done].
  apply find_Some_elem in Hq as [Hq Hc]. unfold job_of in Hc. to_prop. by destruct (Hnew q).
Qed.

(** A save leaves the contract's tables alone. *)
Lemma jobs_save_contracts c record : preserves (λ d, sdb_contracts d = c) (jobs_save record).
Proof.
  unfold jobs_save, jobs_getByScanJobId, jobs_getByUploadId, job_time, insert_job, update_job.
  repeat first [ apply preserves_transaction | apply preserves_bind; [|intros ?] | apply preserves_throw_when | apply preserves_gets
    | apply preserves_lift | apply preserves_ret | apply preserves_throw | apply preserves_modify; intros ? ?; done
    | match goal with |- preserves _ (match ?x with _ => _ end) => destruct x end ].
Qed.
End Store.
