(* ===== verification/Commands.v ===== *)
(** * apps/trust-api, postgres-commands.ts: the commands of the API

    The commands of [PostgresCommandProvider] that register applications, change
    policy assignments, and take an upload from its session to a stored object
    and a download grant.  They compose the components modelled elsewhere: the
    contract repository ([Contracts]), the scan store and the orchestrator
    ([PostgresScans], [Quarantine]), durable ingest ([Ingest]), the router of the
    application bindings ([AppStorage]) and the grant service ([TransferGrants]).

    A command is a sequence of awaited calls, each of which may fail or be the
    last one before the process stops, by the schedule of faults of [Ingest].
    The rows ingest keeps ([operations] of its own type, [blob_objects], its
    audit events) are its [Database]; the contract's tables are its [ContractDb].

    The theorems: a completed upload has the length and the digest its session
    announced, was not expired, and its blob is stored, catalogued and queued for
    a scan; an upload whose scan was queued by an attempt that did not finish can
    never be completed; a download grant does not depend on the scan of its
    object, and is never issued to an application; the key of a policy assignment
    names one assignment until it is revoked, and then nothing. *)
From S2P Require Import Prelude Js Concrete Json AuditChain Core Policy UploadMachine StorageKeys Storage MemoryStorage IngestStore.
From S2P Require Import Ingest Quarantine Access AppStorage TransferGrants ArchiveSignature Contracts Uploads PostgresScans.

(** ** The state of the API *)

Record Api (S : Type) := mkApi {
  api_world : World S;
  api_registry : InMemoryAppStorageRegistry;
  api_scanner : QuarantineScanOrchestrator ScanDb;
}.
Arguments mkApi {S}. Arguments api_world {S}. Arguments api_registry {S}. Arguments api_scanner {S}.

Definition api_scans {S} (a : Api S) : ScanDb := scan_store (api_scanner a).
Definition api_contracts {S} (a : Api S) : ContractDb := sdb_contracts (api_scans a).
Definition set_scans {S} (d : ScanDb) (a : Api S) : Api S :=
  mkApi (api_world a) (api_registry a) (mkOrchestrator (processedCallbacks (api_scanner a)) d).

(** ** Errors, as the API sees them; the texts of a provider are not kept *)

Definition storage_code (code : StorageErrorCode) : string :=
  match code with
  | not_found => "not_found" | access_denied => "access_denied" | conflict => "conflict"
  | invalid_request => "invalid_request" | throttled => "throttled" | transient => "transient" | permanent => "permanent"
  end.
Definition stopped : api_exn := OtherThrown None None.
Definition ingest_thrown (e : ingest_exn) : api_exn :=
  match e with
  | StorageThrew (StorageError code) => OtherThrown (Some (storage_code code)) None
  | StorageThrew (PlainError message) | IngestError message => plainError message
  | DatabaseThrew OperationUpdateNotApplied => plainError "Ingest operation update was not applied."
  | DatabaseThrew OperationNotCreated => plainError "Ingest operation could not be created."
  | DatabaseThrew UniqueViolation => unique_violation
  | Interrupted => stopped
  end.
Definition scan_conflict : api_exn := OtherThrown (Some "QUARANTINE_SCAN_CONFLICT") None.
Definition scan_thrown (e : quarantine_exn) : api_exn :=
  match e with
  | InvalidQuarantineTransition from to =>
      plainError ("Invalid quarantine transition: " +:+ scan_state_name from +:+ " -> " +:+ scan_state_name to)
  | QuarantineScanConflictError => scan_conflict
  | CallbackNotAuthentic => plainError "Scan callback failed authenticity verification"
  | UnknownScanJob => plainError "Unknown scan job"
  | ProviderFailure code => sqlError code
  end.
Definition app_thrown (e : app_exn) : api_exn :=
  match e with
  | AppError message => plainError message
  | AppCoded code message => codedError code message
  | AppTypeError => OtherThrown None None
  end.

(** ** Calls of the components *)

Section Calls.
Context {S : Type}.
Abbreviation P := (M (Api S) api_exn).

(** The schedule's word on the next awaited call. *)
Definition next_call : P unit := λ a,
  let '(r, w) := tick (api_world a) in
  (match r with Ok tt => Ok tt | Err _ => Err stopped end, mkApi w (api_registry a) (api_scanner a)).

Definition run_contracts {A} (m : C A) : P A := λ a,
  let '(r, d) := m (api_contracts a) in (r, set_scans (mkScanDb d (sdb_jobs (api_scans a))) a).
Definition on_contracts {A} (m : C A) : P A := next_call ≫= λ _, run_contracts m.

Definition run_scanner {A} (m : M (QuarantineScanOrchestrator ScanDb) quarantine_exn A) : P A := λ a,
  let '(r, o) := m (api_scanner a) in
  (match r with Ok v => Ok v | Err e => Err (scan_thrown e) end, mkApi (api_world a) (api_registry a) o).
Definition on_scanner {A} (m : M (QuarantineScanOrchestrator ScanDb) quarantine_exn A) : P A :=
  next_call ≫= λ _, run_scanner m.

Definition run_registry {A} (m : Reg A) : P A := λ a,
  let '(r, g) := m (api_registry a) in
  (match r with Ok v => Ok v | Err e => Err (app_thrown e) end, mkApi (api_world a) g (api_scanner a)).
Definition on_registry {A} (m : Reg A) : P A := next_call ≫= λ _, run_registry m.

(** Ingest consults the schedule at its own calls. *)
Definition on_ingest {A} (m : M (World S) ingest_exn A) : P A := λ a,
  let '(r, w) := m (api_world a) in
  (match r with Ok v => Ok v | Err e => Err (ingest_thrown e) end, mkApi w (api_registry a) (api_scanner a)).

Definition on_catalog {A} (m : M Database db_exn A) : P A := on_ingest (Ingest.on_db m).
End Calls.

(** ** Commands *)

(** Source: packages/protocol/src/index.ts:717-725 RegisterApplicationCommand *)
Record RegisterApplicationCommand := mkRegisterCommand {
  reg_workspaceId : string;
  reg_namespace : string;
  reg_name : string;
  reg_applicationVersion : string;
  reg_schemaPackageIds : list string;
  reg_capabilities : list string;
  reg_idempotencyKey : string;
}.
(** Source: packages/protocol/src/index.ts:378-386 CreatePolicyAssignmentCommand *)
Record CreatePolicyAssignmentCommand := mkAssignCommand {
  cpa_workspaceId : string;
  cpa_principalType : PrincipalType;
  cpa_principalId : string;
  cpa_role : string;
  cpa_scopeKind : ScopeKind;
  cpa_scopeId : string;
  cpa_idempotencyKey : string;
}.
(** Source: packages/protocol/src/index.ts:387-390 RevokePolicyAssignmentCommand *)
Record RevokePolicyAssignmentCommand := mkRevokeCommand { rpa_workspaceId : string; rpa_idempotencyKey : string }.
(** Source: packages/protocol/src/index.ts:726-733 CreateUploadCommand *)
Record CreateUploadCommand := mkCreateCommand {
  cuc_workspaceId : string;
  cuc_idempotencyKey : string;
  cuc_mediaType : string;
  cuc_expectedByteLength : Z;
  cuc_expectedSha256 : string;
  cuc_expiresInSeconds : option Z;
}.
(** Source: packages/protocol/src/index.ts:734-737 CompleteUploadCommand *)
Record CompleteUploadCommand := mkCompleteCommand { cuc_workspace : string; cuc_bytesBase64 : string }.
(** Source: packages/protocol/src/index.ts:738-744 CreateDownloadGrantCommand *)
Record CreateDownloadGrantCommand := mkGrantCommand {
  dgc_workspaceId : string;
  dgc_objectId : string;
  dgc_requestedTtlSeconds : jsnum;
  dgc_fileName : option string;
  dgc_idempotencyKey : string;
}.
(** Source: packages/protocol/src/index.ts:745-755 DownloadGrant *)
Record DownloadGrant := mkDownloadGrant {
  dg_grantId : string;
  dg_objectId : string;
  dg_workspaceId : string;
  dg_expiresAt : string;
  dg_url : string;
  dg_headers : list (string * string);
}.
(** Source: apps/trust-api/src/app.ts:57-64 ObjectIngestCommand *)
Record ObjectIngestCommand := mkIngestCommand {
  oic_workspaceId : string;
  oic_idempotencyKey : string;
  oic_mediaType : string;
  oic_bytesBase64 : string;
  oic_applicationTenantId : option string;
}.

(** What [randomUUID] and the clocks return to one ingest and to the completion
    of one upload. *)
Record IngestTimes := mkTimes { it_nowMillis : Z; it_now : string; it_newId : string; it_blobId : string }.
Record CompletionTimes := mkCompletion {
  ct_checked : Z;
  ct_ingest : IngestTimes;
  ct_scanJobId : string;
  ct_created : Z;
  ct_queued : Z;
  ct_scanning : Z;
  ct_verdict : Z;
  ct_pending : Z;
  ct_promoted : Z;
  ct_completed : Z;
}.

(** Source: apps/trust-api/src/postgres-commands.ts:91-91 maxUploadBytes *)
Definition maxUploadBytes : Z := 750000.

(** Source: apps/trust-api/src/postgres-commands.ts:1154-1166 samePolicyAssignment *)
Definition samePolicyAssignment (assignment : PolicyAssignment) (command : CreatePolicyAssignmentCommand) : bool :=
  (pol_workspaceId assignment === cpa_workspaceId command) && (pol_principalType assignment === cpa_principalType command) &&
  (pol_principalId assignment === cpa_principalId command) && (pol_role assignment === cpa_role command) &&
  (pol_scopeKind assignment === cpa_scopeKind command) && (pol_scopeId assignment === cpa_scopeId command).

(** Source: apps/trust-api/src/postgres-commands.ts:1168-1176 decodeBase64 *)
Definition object_bytes (value : string) : result api_exn string :=
  if base64_pattern value then Ok (fromBase64 value)
  else Err (codedError "INVALID_COMMAND" "Object bytes are not valid base64.").

(** [codedError(error.code, error.message)] for an error with a code. *)
Definition recoded (e : api_exn) : api_exn :=
  match e with OtherThrown (Some code) (Some message) => codedError code message | _ => e end.

(** ** PostgresCommandProvider *)

(** What the constructor was given: the storage and the provider name of the
    ingest service, the router's options when routing is enabled, the lifetime
    limit and the signer of the grant service, and whether the environment
    selects the fake scanner. *)
(** Source: apps/trust-api/src/postgres-commands.ts:107-222 PostgresCommandProvider *)
Record Adapters (St : Type) := mkAdapters {
  ad_ingest : option (St * string);
  ad_router : option (BindingStorageRouterOptions St TransferSigner);
  ad_grants : option (Z * TransferSigner);
  ad_fakeScanner : bool;
}.
Arguments mkAdapters {St}. Arguments ad_ingest {St}. Arguments ad_router {St}. Arguments ad_grants {St}.
Arguments ad_fakeScanner {St}.

Section Provider.
Context {S St : Type} `{JsDate} `{Crypto} (localeLe collation : string → string → bool).
(** The client of a storage handle, and the provider. *)
Context (client : St → ObjectStorage S) (this : Adapters St).
Abbreviation P := (M (Api S) api_exn).

(** Source: apps/trust-api/src/postgres-commands.ts:224-235 resolveApplicationId *)
Definition resolveApplicationId (actor : AuthenticatedActor) (workspaceId : string) : P (option string) :=
  if actor_principalType actor !== Some principal_application then mret None
  else
    on_contracts (contract_listApplications collation workspaceId) ≫= λ apps,
    mret (app_id <$> List.find (λ candidate, (app_id candidate === actor_id actor) ||
      (app_namespace candidate === actor_id actor)) apps).

(** Source: apps/trust-api/src/postgres-commands.ts:243-266 registerApplication *)
Definition registerApplication (id : string) (now : Z) (command : RegisterApplicationCommand) : P ApplicationRegistration :=
  throw_when (existsb (λ capability, negb (isPolicyAction capability)) (reg_capabilities command))
    (codedError "INVALID_COMMAND" "Application capability is not recognized.") ≫= λ _,
  on_contracts (contract_registerApplication localeLe
    (mkApplicationOf id (reg_workspaceId command) (reg_namespace command) (reg_name command)
      (reg_applicationVersion command) (reg_schemaPackageIds command) (reg_capabilities command) app_active
      (toISOString now) (toISOString now)) (reg_idempotencyKey command)).

(** Source: apps/trust-api/src/postgres-commands.ts:274-276 createPolicyAssignment *)
Definition assignment_key (actor : AuthenticatedActor) (command : CreatePolicyAssignmentCommand) : string :=
  deterministicUuid ("policy-assignment:" +:+ cpa_workspaceId command +:+ ":" +:+ actor_id actor +:+ ":" +:+
    cpa_idempotencyKey command).

Definition scope_kind_name (k : ScopeKind) : string :=
  match k with
  | Policy.scope_workspace => "workspace" | Policy.scope_dataset => "dataset" | Policy.scope_application => "application"
  end.
(** Source: apps/trust-api/src/postgres-commands.ts:305-311 createPolicyAssignment *)
Definition assignment_metadata (a : PolicyAssignment) : json :=
  JObject [("principalType", JString (principal_type_name (pol_principalType a))); ("principalId", JString (pol_principalId a));
    ("role", JString (pol_role a)); ("scopeKind", JString (scope_kind_name (pol_scopeKind a)));
    ("scopeId", JString (pol_scopeId a))].

(** Source: apps/trust-api/src/postgres-commands.ts:270-314 createPolicyAssignment *)
Definition createPolicyAssignment (now : Z) (eventId : string) (actor : AuthenticatedActor)
    (command : CreatePolicyAssignmentCommand) : P PolicyAssignment :=
  let id := assignment_key actor command in
  on_contracts (contract_listPolicyAssignments (cpa_workspaceId command) None) ≫= λ assignments,
  match List.find (λ assignment, pol_id assignment === id) assignments with
  | Some existing =>
      if samePolicyAssignment existing command then mret existing
      else throw (codedError "IDEMPOTENCY_CONFLICT" "Policy assignment idempotency key was reused with different input.")
  | None =>
      on_contracts (contract_createPolicyAssignment (mkPolicyOf id (cpa_workspaceId command) (cpa_principalType command)
        (cpa_principalId command) (cpa_role command) (cpa_scopeKind command) (cpa_scopeId command) (actor_id actor)
        (toISOString now) None)) ≫= λ created,
      on_contracts (contract_recordPolicyAssignmentChange eventId (cpa_workspaceId command) actor (pol_id created)
        "policy_assignment.created" (cpa_idempotencyKey command) (pol_createdAt created) (assignment_metadata created)) ≫= λ _,
      mret created
  end.

(** Source: apps/trust-api/src/postgres-commands.ts:315-346 revokePolicyAssignment *)
Definition revokePolicyAssignment (now : Z) (eventId assignmentId : string) (actor : AuthenticatedActor)
    (command : RevokePolicyAssignmentCommand) : P PolicyAssignment :=
  on_contracts (contract_getPolicyAssignment (rpa_workspaceId command) assignmentId) ≫= λ assignment,
  match assignment with
  | None => throw (codedError "POLICY_ASSIGNMENT_NOT_FOUND" "Policy assignment was not found.")
  | Some assignment =>
      if truthy (pol_revokedAt assignment) then mret assignment
      else
        let revokedAt := toISOString now in
        on_contracts (contract_revokePolicyAssignment (rpa_workspaceId command) assignmentId revokedAt) ≫= λ _,
        on_contracts (contract_recordPolicyAssignmentChange eventId (rpa_workspaceId command) actor assignmentId
          "policy_assignment.revoked" (rpa_idempotencyKey command) revokedAt (JObject [])) ≫= λ _,
        mret (mkPolicyOf (pol_id assignment) (pol_workspaceId assignment) (pol_principalType assignment)
          (pol_principalId assignment) (pol_role assignment) (pol_scopeKind assignment) (pol_scopeId assignment)
          (pol_createdBy assignment) (pol_createdAt assignment) (Some revokedAt))
  end.

(** Source: apps/trust-api/src/postgres-commands.ts:747-765 createUpload *)
Definition createUpload (now : Z) (operationId uploadId : string) (actor : AuthenticatedActor)
    (command : CreateUploadCommand) : P UploadSession :=
  throw_when (Z.ltb maxUploadBytes (cuc_expectedByteLength command))
    (codedError "REQUEST_TOO_LARGE" "Upload exceeds the bounded facade limit.") ≫= λ _,
  let expiresInSeconds := default 900%Z (cuc_expiresInSeconds command) in
  let expires := (now + expiresInSeconds * 1000)%Z in
  throw_when (negb (bool_decide (valid_time expires))) (plainError "Invalid time value") ≫= λ _,
  on_contracts (contract_createUploadSession localeLe operationId uploadId
    (mkCreateUpload (cuc_workspaceId command) (actor_id actor) (actorPrincipalType actor) (cuc_idempotencyKey command)
      (cuc_mediaType command) (cuc_expectedByteLength command) (cuc_expectedSha256 command) expiresInSeconds
      (toISOString expires) (toISOString now))).

(** Source: apps/trust-api/src/postgres-commands.ts:766-768 getUpload *)
Definition getUpload (workspaceId uploadId : string) (actor : AuthenticatedActor) : P (option UploadSession) :=
  on_contracts (contract_getUploadSession workspaceId uploadId actor).

(** Source: apps/trust-api/src/postgres-commands.ts:769-782 getUploadScanStatus *)
Definition getUploadScanStatus (workspaceId uploadId : string) (actor : AuthenticatedActor) : P (option UploadScanStatus) :=
  getUpload workspaceId uploadId actor ≫= λ session,
  match session with
  | None => mret None
  | Some _ =>
      on_scanner (on_store (getByUploadId workspaceId uploadId)) ≫= λ record,
      match record with
      | None => mret None
      | Some record =>
          match toUploadScanStatus record with
          | Ok status => mret (Some status)
          | Err message => throw (plainError message)
          end
      end
  end.

(** The fields of the answer: the storage, and the binding of the object. *)
(** Source: apps/trust-api/src/postgres-commands.ts:836-872 ingestRoutingFields *)
Definition ingestRoutingFields (actor : AuthenticatedActor) (workspaceId : string) (applicationTenantId : option string) :
    P (option St * option string * option Z) :=
  match ad_router this with
  | None => mret (None, None, None)
  | Some router =>
      resolveApplicationId actor workspaceId ≫= λ applicationId,
      try_catch
        (on_registry (forIngest router (AppStorage.mkContext workspaceId (given applicationId) (given applicationTenantId)
           None AppStorage.ingest None None)) ≫= λ route,
         mret (Some (ingest_storage route), ingest_bindingId route, ingest_generation route))
        (λ error, throw (recoded error))
  end.

(** [this.ingest.ingest(input)], into the storage of the route. *)
Definition ingest_call (platform : St) (provider : string) (times : IngestTimes) (actor : AuthenticatedActor)
    (workspaceId key mediaType bytes : string) (route : option St * option string * option Z) : P ObjectIngestResult :=
  let '(storage, binding, generation) := route in
  on_ingest (@Ingest.ingest S _ _ (client (default platform storage)) provider
    (mkIngest workspaceId (actor_id actor) (principal_type_name (actorPrincipalType actor)) key bytes mediaType binding generation)
    (it_nowMillis times) (it_now times) (it_newId times) (it_blobId times)).

(** Source: apps/trust-api/src/postgres-commands.ts:897-912 advanceFakePromotion *)
Definition advanceFakePromotion (times : CompletionTimes) (record : QuarantineScanRecord) : P unit :=
  if scan_state record !== accepted then mret tt
  else
    let pending := with_state record promotion_pending (toISOString (ct_pending times)) in
    on_scanner (on_store (save pending)) ≫= λ _,
    on_scanner (on_store (save (with_state pending promoted (toISOString (ct_promoted times))))).

(** Source: apps/trust-api/src/postgres-commands.ts:874-895 queueScanAfterIngest *)
Definition queueScanAfterIngest (times : CompletionTimes) (workspaceId uploadId storageKey : string) : P unit :=
  on_scanner (queueUploaded (toISOString (ct_created times)) (toISOString (ct_queued times)) (toISOString (ct_scanning times))
    (Ok tt) (ct_scanJobId times) workspaceId uploadId storageKey) ≫= λ _,
  if negb (ad_fakeScanner this) then mret tt
  else
    on_scanner (handleCallback (toISOString (ct_verdict times))
      (mkCallback (ct_scanJobId times) workspaceId clean (Some "fake") true)) ≫= λ record,
    advanceFakePromotion times record.

(** Source: apps/trust-api/src/postgres-commands.ts:783-834 completeUpload *)
Definition completeUpload (times : CompletionTimes) (uploadId : string) (actor : AuthenticatedActor)
    (command : CompleteUploadCommand) : P UploadSession :=
  match ad_ingest this with
  | None => throw (plainError "Object ingest adapter is not configured.")
  | Some (platform, provider) =>
      on_contracts (contract_getUploadSession (cuc_workspace command) uploadId actor) ≫= λ session,
      match session with
      | None => throw (codedError "OPERATION_NOT_FOUND" "Upload session was not found.")
      | Some session =>
          lift (object_bytes (cuc_bytesBase64 command)) ≫= λ bytes,
          throw_when (byteLength bytes !== upload_expectedByteLength session)
            (codedError "COMMAND_REJECTED" "Upload byte length does not match the session expectation.") ≫= λ _,
          throw_when (sha256 bytes !== upload_expectedSha256 session)
            (codedError "COMMAND_REJECTED" "Upload hash does not match the session expectation.") ≫= λ _,
          if upload_state session === completed then mret session
          else
            throw_when (date_le (Date_parse (upload_expiresAt session)) (Some (ct_checked times)))
              (codedError "COMMAND_REJECTED" "Upload session has expired.") ≫= λ _,
            ingestRoutingFields actor (cuc_workspace command) None ≫= λ route,
            ingest_call platform provider (ct_ingest times) actor (cuc_workspace command) ("upload:" +:+ uploadId)
              (upload_mediaType session) bytes route ≫= λ result,
            queueScanAfterIngest times (cuc_workspace command) uploadId (blob_storageKey (ingest_blob result)) ≫= λ _,
            on_contracts (contract_completeUploadSession (mkCompleteUpload (cuc_workspace command) uploadId actor
              (blob_id (ingest_blob result)) (ingest_operationId result) (toISOString (ct_completed times))))
      end
  end.

(** Source: apps/trust-api/src/postgres-commands.ts:1003-1028 ingestObject *)
Definition ingestObject (times : IngestTimes) (actor : AuthenticatedActor) (command : ObjectIngestCommand) : P ObjectIngestResult :=
  match ad_ingest this with
  | None => throw (plainError "Object ingest adapter is not configured.")
  | Some (platform, provider) =>
      lift (object_bytes (oic_bytesBase64 command)) ≫= λ bytes,
      throw_when (Z.ltb maxUploadBytes (byteLength bytes))
        (codedError "REQUEST_TOO_LARGE" "Object exceeds the bounded API limit.") ≫= λ _,
      ingestRoutingFields actor (oic_workspaceId command) (oic_applicationTenantId command) ≫= λ route,
      ingest_call platform provider times actor (oic_workspaceId command) (oic_idempotencyKey command)
        (oic_mediaType command) bytes route
  end.

(** The request of a grant: the object as the catalogue has it, and the principal
    as it was authenticated. *)
(** Source: apps/trust-api/src/postgres-commands.ts:950-980 createDownloadGrant *)
Definition download_request (actor : AuthenticatedActor) (command : CreateDownloadGrantCommand) (blob : BlobObject)
    (signer : option TransferSigner) : IssueTransferGrantInput :=
  let downloadable := blob_verificationState blob === verification_verified in
  mkIssue (actor_id actor) (dgc_workspaceId command) TransferGrants.download
    (mkTarget (dgc_workspaceId command) (blob_id blob) (blob_storageKey blob) (Some (blob_mediaType blob))
      (Some (blob_sha256 blob)) (Some (blob_byteLength blob)) downloadable
      (if downloadable then None else Some "quarantined"))
    (dgc_requestedTtlSeconds command) (dgc_idempotencyKey command) (dgc_idempotencyKey command)
    (given (dgc_fileName command)) signer
    (mkPolicyInput (mkPrincipal (actor_id actor) (actorPrincipalType actor) (actor_roles actor) (actor_workspaceIds actor))
      blob_read (mkScope (dgc_workspaceId command) None None) [] [] [] None).

(** A denial is a permission error, whatever its code. *)
Definition grant_thrown (e : grant_exn) : api_exn :=
  match e with
  | GrantDeniedError _ => OtherThrown (Some "PERMISSION_DENIED") None
  | RangeError => plainError "Invalid time value"
  | ConfigurationError | AuditFailure => OtherThrown None None
  end.

(** [clock] is the time the policy engine reads, [now] and [fraction] what the
    lifetime is counted from. *)
(** Source: apps/trust-api/src/postgres-commands.ts:914-1001 createDownloadGrant *)
Definition createDownloadGrant (clock : string) (now fraction : Z) (grantId : string) (actor : AuthenticatedActor)
    (command : CreateDownloadGrantCommand) : P DownloadGrant :=
  match ad_grants this with
  | None => throw (codedError "COMMAND_BOUNDARY_UNAVAILABLE" "Download grants require a configured transfer signer.")
  | Some (maxTtlSeconds, platform) =>
      on_catalog (findById (dgc_workspaceId command) (dgc_objectId command)) ≫= λ blob,
      match blob with
      | None => throw (codedError "OPERATION_NOT_FOUND" "Blob object was not found.")
      | Some blob =>
          match ad_router this with
          | None => mret None
          | Some router =>
              try_catch
                (on_registry (forDownload router (dgc_workspaceId command) (blob_storageBindingId blob)) ≫= λ route,
                 mret (download_signer route))
                (λ error, throw (recoded error))
          end ≫= λ signer,
          match (issue maxTtlSeconds platform (λ _, true) clock now fraction grantId
                   (download_request actor command blob signer) []).1 with
          | Err e => throw (grant_thrown e)
          | Ok grant => mret (mkDownloadGrant (client_grantId grant) (client_objectId grant) (client_workspaceId grant)
              (client_expiresAt grant) (client_url grant) (client_headers grant))
          end
      end
  end.
End Provider.

(** ** What a call leaves alone *)

Section Frames.
Context {S : Type}.
Implicit Types (Q : QuarantineScanOrchestrator ScanDb → Prop).

Lemma keeps_next Q : preserves (λ a : Api S, Q (api_scanner a)) next_call.
Proof. intros a Ha. unfold next_call. by destruct (tick (api_world a)) as [[[]|e] w]. Qed.
Lemma keeps_ingest {A} Q (m : M (World S) ingest_exn A) : preserves (λ a : Api S, Q (api_scanner a)) (on_ingest m).
Proof. intros a Ha. unfold on_ingest. by destruct (m (api_world a)) as [[v|e] w]. Qed.
Lemma keeps_registry {A} Q (m : Reg A) : preserves (λ a : Api S, Q (api_scanner a)) (on_registry m).
Proof.
  apply preserves_bind; [apply keeps_next|]. intros _ a Ha. unfold run_registry. by destruct (m (api_registry a)) as [[v|e] g].
Qed.
Lemma keeps_scanner {A} Q (m : M (QuarantineScanOrchestrator ScanDb) quarantine_exn A) :
  preserves Q m → preserves (λ a : Api S, Q (api_scanner a)) (on_scanner m).
Proof.
  intros Hm. apply preserves_bind; [apply keeps_next|]. intros _ a Ha. unfold run_scanner. specialize (Hm _ Ha).
  by destruct (m (api_scanner a)) as [[v|e] o].
Qed.
Lemma keeps_on_store {A} (Q : ScanDb → Prop) (m : M ScanDb quarantine_exn A) :
  preserves Q m → preserves (λ o : QuarantineScanOrchestrator ScanDb, Q (scan_store o)) (on_store m).
Proof. intros Hm o Ho. unfold on_store. specialize (Hm _ Ho). by destruct (m (scan_store o)) as [[v|e] d]. Qed.

(** A call of the repository that only reads. *)
Lemma set_scans_same (a : Api S) : set_scans (mkScanDb (api_contracts a) (sdb_jobs (api_scans a))) a = a.
Proof. by destruct a as [w g [p [c j]]]. Qed.
Lemma run_contracts_read {A} (m : C A) (a : Api S) r :
  m (api_contracts a) = (r, api_contracts a) → run_contracts m a = (r, a).
Proof. intros Hm. unfold run_contracts. rewrite Hm. by rewrite set_scans_same. Qed.
Lemma keeps_read {A} Q (f : ContractDb → A) : preserves (λ a : Api S, Q (api_scanner a)) (on_contracts (gets f)).
Proof.
  apply preserves_bind; [apply keeps_next|]. intros _ a Ha. by rewrite (run_contracts_read (gets f) a (Ok (f (api_contracts a)))).
Qed.

(** With no faults left a call is its body. *)
Lemma next_call_clean (a : Api S) : w_faults (api_world a) = [] → next_call a = (Ok tt, a).
Proof. destruct a as [[s d f] g o]. cbn. by intros ->. Qed.
Lemma on_contracts_clean {A} (m : C A) (a : Api S) : w_faults (api_world a) = [] → on_contracts m a = run_contracts m a.
Proof. intros Hf. unfold on_contracts, mbind, M_bind. by rewrite next_call_clean. Qed.
Lemma on_scanner_clean {A} (m : M (QuarantineScanOrchestrator ScanDb) quarantine_exn A) (a : Api S) :
  w_faults (api_world a) = [] → on_scanner m a = run_scanner m a.
Proof. intros Hf. unfold on_scanner, mbind, M_bind. by rewrite next_call_clean. Qed.

(** What a call that returned did, whatever the schedule. *)
Lemma next_call_Ok (a a' : Api S) : next_call a = (Ok tt, a') →
  api_scanner a' = api_scanner a ∧ api_registry a' = api_registry a ∧
  w_storage (api_world a') = w_storage (api_world a) ∧ w_db (api_world a') = w_db (api_world a).
Proof. destruct a as [[s d [|[] f]] g o]; cbn; intros [=]; by subst. Qed.
Lemma on_contracts_Ok {A} (m : C A) (a : Api S) v a' : on_contracts m a = (Ok v, a') →
  ∃ d, m (api_contracts a) = (Ok v, d) ∧ api_scans a' = mkScanDb d (sdb_jobs (api_scans a)) ∧
    w_storage (api_world a') = w_storage (api_world a) ∧ w_db (api_world a') = w_db (api_world a).
Proof.
  unfold on_contracts, mbind, M_bind. destruct (next_call a) as [[[]|e] a1] eqn:Hn; [|done].
  apply next_call_Ok in Hn as (Ho & _ & Hs & Hd). unfold run_contracts, api_contracts, api_scans. rewrite Ho.
  destruct (m _) as [[x|e] d] eqn:Hm; [|done]. intros [= -> <-]. exists d. cbn. by rewrite Hs, Hd.
Qed.
End Frames.
#[export] Hint Resolve keeps_next keeps_ingest keeps_registry keeps_scanner keeps_on_store keeps_read : effects.

(** *** The scanner keeps the contract's tables *)

Section ScannerFrames.
Context `{JsDate} (c : ContractDb).
Abbreviation kept := (λ o : QuarantineScanOrchestrator ScanDb, sdb_contracts (scan_store o) = c).

Lemma save_kept record : preserves kept (on_store (save record)).
Proof. apply (keeps_on_store (λ d, sdb_contracts d = c)), jobs_save_contracts. Qed.
Lemma get_kept w j : preserves kept (on_store (getByScanJobId w j)).
Proof. apply (keeps_on_store (λ d, sdb_contracts d = c)), preserves_gets. Qed.
Lemma queue_kept t0 t1 t2 submit j w u k : preserves kept (queueUploaded t0 t1 t2 submit j w u k).
Proof.
  unfold queueUploaded. apply preserves_bind; [apply get_kept|]. intros [r|]; [apply preserves_ret|].
  repeat first [apply preserves_bind; [|intros ?] | apply preserves_lift | apply save_kept | apply preserves_ret].
Qed.
Lemma callback_kept now cb : preserves kept (handleCallback now cb).
Proof.
  unfold handleCallback. apply preserves_bind; [apply preserves_throw_when|]. intros _. apply preserves_bind; [apply get_kept|].
  intros [r|]; [|apply preserves_throw].
  repeat first [ apply preserves_bind; [|intros ?] | apply preserves_throw_when | apply preserves_gets | apply preserves_lift
    | apply save_kept | apply preserves_ret | apply preserves_throw | apply preserves_if
    | unfold add_processed; apply preserves_modify; intros ? ?; done ].
Qed.
End ScannerFrames.

(** ** Download grants *)

Section Downloads.
Context {S St : Type} `{JsDate} (this : Adapters St).

(** What a download is decided on: the configuration, the catalogue and the
    request; neither the scanner nor its jobs. *)
Definition catalogued (command : CreateDownloadGrantCommand) (d : Database) : option BlobObject :=
  List.find (λ b, (blob_workspaceId b === dgc_workspaceId command) && (blob_id b === dgc_objectId command))
    (map_to_list (db_blobs d)).*2.
Definition reader_allowed (clock : string) (actor : AuthenticatedActor) (command : CreateDownloadGrantCommand) : bool :=
  allowed (evaluatePolicy clock (mkPolicyInput
    (mkPrincipal (actor_id actor) (actorPrincipalType actor) (actor_roles actor) (actor_workspaceIds actor))
    blob_read (mkScope (dgc_workspaceId command) None None) [] [] [] None)).
Record download_gate (clock : string) (now fraction : Z) (actor : AuthenticatedActor) (command : CreateDownloadGrantCommand)
    (maxTtlSeconds : Z) (platform : TransferSigner) (blob : BlobObject) : Prop := mkGate {
  gate_verified : blob_verificationState blob = verification_verified;
  gate_policy : reader_allowed clock actor command = true;
  gate_workspace : blank (dgc_workspaceId command) = false;
  gate_object : looksLikeClientKeyInjection (blob_id blob) = false;
  gate_ttl : jle (dgc_requestedTtlSeconds command) 0 = false;
  gate_signed : ∃ expiresAt signed,
    expiry now (ttl_millis (dgc_requestedTtlSeconds command) fraction maxTtlSeconds) = Ok expiresAt ∧
    sign platform (download_request actor command blob None) expiresAt = Ok signed;
}.

(** The grant service on the request of the command. *)
Lemma issue_download max platform clock now fraction grantId actor command blob signer g :
  (issue max platform (λ _, true) clock now fraction grantId (download_request actor command blob signer) []).1 = Ok g →
  blob_verificationState blob = verification_verified ∧ reader_allowed clock actor command = true ∧
  client_objectId g = blob_id blob ∧ client_workspaceId g = dgc_workspaceId command.
Proof.
  unfold issue, record_audit. run. destruct (blank _); [done|]. destruct (_ !== _); [done|].
  destruct (looksLikeClientKeyInjection _); [done|].
  change (evaluatePolicy clock (policy_request _)) with
    (evaluatePolicy clock (mkPolicyInput
      (mkPrincipal (actor_id actor) (actorPrincipalType actor) (actor_roles actor) (actor_workspaceIds actor))
      blob_read (mkScope (dgc_workspaceId command) None None) [] [] [] None)).
  fold (reader_allowed clock actor command). destruct (reader_allowed clock actor command); cbn [negb]; [|run; done].
  run. destruct (_ && _) eqn:Hdl; [done|]. destruct (jle _ 0); [done|]. destruct (expiry now _) as [x|]; [|done]. run.
  destruct (sign _ _ x) as [[method [url headers]]|]; [|done]. run. intros [= <-]. split_and!; try done.
  cbn in Hdl. by destruct (blob_verificationState blob).
Qed.
Lemma issue_gate max platform clock now fraction grantId actor command blob :
  is_Ok (issue max platform (λ _, true) clock now fraction grantId (download_request actor command blob None) []).1 = true ↔
  download_gate clock now fraction actor command max platform blob.
Proof.
  unfold issue, record_audit. run. split.
  - destruct (blank _) eqn:Hw; [done|]. destruct (_ !== _); [done|]. destruct (looksLikeClientKeyInjection _) eqn:Hobj; [done|].
    change (allowed (evaluatePolicy clock (policy_request _))) with (reader_allowed clock actor command).
    destruct (reader_allowed clock actor command) eqn:Hp; cbn [negb]; [|run; done].
    run. destruct (_ && _) eqn:Hdl; [done|]. destruct (jle _ 0) eqn:Ht; [done|]. destruct (expiry now _) as [x|] eqn:Hx; [|done]. run.
    destruct (sign _ _ x) as [signed|] eqn:Hs; [|done]. intros _. split; try done.
    + cbn in Hdl. by destruct (blob_verificationState blob).
    + by exists x, signed.
  - intros [Hv Hp Hw Hobj Ht (x & [method [url headers]] & Hx & Hs)]. cbn [issue_workspaceId download_request]. rewrite Hw.
    cbn [target_workspaceId issue_target download_request target_objectId]. rewrite strict_eq_refl, Hobj. cbn [negb].
    change (allowed (evaluatePolicy clock (policy_request _))) with (reader_allowed clock actor command). rewrite Hp. cbn [negb]. run.
    cbn [issue_operation target_downloadable target_quarantineState issue_requestedTtlSeconds issue_signer default]. rewrite Hv.
    cbn. rewrite Ht, Hx. cbn. change (default platform None) with platform. rewrite Hs. done.
Qed.

(** The look-up of the object. *)
Lemma createDownload_calm command (a : Api S) :
  w_faults (api_world a) = [] →
  on_catalog (findById (dgc_workspaceId command) (dgc_objectId command)) a = (Ok (catalogued command (w_db (api_world a))), a).
Proof. intros Hf. destruct a as [[s d fs] g o]. cbn in Hf. subst fs. done. Qed.
Lemma createDownload_reads command (a : Api S) :
  (∃ a1, on_catalog (findById (dgc_workspaceId command) (dgc_objectId command)) a =
    (Ok (catalogued command (w_db (api_world a))), a1)) ∨
  ∃ e a1, on_catalog (findById (dgc_workspaceId command) (dgc_objectId command)) a = (Err e, a1).
Proof. destruct a as [[s d [|[] fs]] g o]; cbn; eauto. Qed.

(** C22. A download grant is decided without the scan of its object.  A grant is
    given only for an object of the command's workspace that the catalogue has as
    verified, which ingest writes before the scan is queued, to a principal the
    policy allows to read.  Without routing to bindings, and where no awaited call
    fails, it is given exactly when this holds, the lifetime is positive and
    printable, and the platform's signer signs: whatever state the scanner and its
    jobs are in, a queued, a rejected or a missing scan included. *)
Theorem download_grant_gate clock now fraction grantId actor command (a : Api S) :
  (∀ grant, (createDownloadGrant this clock now fraction grantId actor command a).1 = Ok grant →
     ∃ blob, catalogued command (w_db (api_world a)) = Some blob ∧ blob_verificationState blob = verification_verified ∧
       reader_allowed clock actor command = true ∧ dg_objectId grant = blob_id blob ∧
       dg_workspaceId grant = dgc_workspaceId command) ∧
  (ad_router this = None → w_faults (api_world a) = [] →
   is_Ok (createDownloadGrant this clock now fraction grantId actor command a).1 = true ↔
   ∃ maxTtlSeconds platform blob, ad_grants this = Some (maxTtlSeconds, platform) ∧
     catalogued command (w_db (api_world a)) = Some blob ∧
     download_gate clock now fraction actor command maxTtlSeconds platform blob).
Proof.
  split.
  - intros grant. unfold createDownloadGrant. destruct (ad_grants this) as [[ttl platform]|]; [|done]. intros HR.
    destruct (createDownload_reads command a) as [(a1 & Hrun)|(e & a1 & Hrun)]; unfold mbind at 1, M_bind at 1 in HR; rewrite Hrun in HR; [|done].
    destruct (catalogued command (w_db (api_world a))) as [blob|]; [|done]. exists blob. split; [done|].
    unfold mbind, M_bind in HR.
    match type of HR with context [match ?m ?a with _ => _ end] => destruct (m a) as [[signer|e] a2] end; [|done].
    destruct (issue _ _ _ _ _ _ _ _ _) as [[g|e] log] eqn:Hi; [|done]. cbn in HR. injection HR as <-. cbn.
    apply (f_equal fst) in Hi. apply issue_download in Hi as (? & ? & ? & ?). done.
  - intros Hrouter Hf. unfold createDownloadGrant. rewrite Hrouter.
    destruct (ad_grants this) as [[ttl platform]|]; [|split; [done|]; by intros (? & ? & ? & ? & _)].
    unfold mbind at 1, M_bind at 1. rewrite (createDownload_calm command a Hf).
    destruct (catalogued command (w_db (api_world a))) as [blob|]; [|split; [done|]; by intros (? & ? & ? & _ & ? & _)].
    rewrite mret_bind. pose proof (issue_gate ttl platform clock now fraction grantId actor command blob) as Hg.
    destruct (issue _ _ _ _ _ _ _ _ _) as [[g|e] log]; cbn in Hg |- *.
    + split; [|done]. intros _. exists ttl, platform, blob. split_and!; [done..|]. by apply Hg.
    + split; [done|]. intros (? & ? & ? & [= <- <-] & [= <-] & Hgate). by apply Hg in Hgate.
Qed.

Lemma application_denied clock now fraction grantId maxTtl platform actor command blob signer log :
  actor_principalType actor = Some principal_application →
  ∃ e, (issue maxTtl platform (λ _, true) clock now fraction grantId (download_request actor command blob signer) log).1 = Err e.
Proof.
  intros Ha. unfold issue. run. repeat (case_match; [by eexists|]).
  assert (evaluatePolicy clock (policy_request (download_request actor command blob signer)) = Denied unregistered_application) as ->.
  { unfold evaluatePolicy, policy_request, download_request, actorPrincipalType. cbn. by rewrite Ha. }
  cbn [allowed negb]. unfold record_audit. run. by eexists.
Qed.

(** No application is ever given a download grant: the command evaluates the
    policy without the registered applications, for which an application's
    request is always one of an unregistered application, whatever the database
    holds; so the route that admits applications, and the capability an
    application may be registered with, grant nothing. *)
Theorem application_never_granted clock now fraction grantId actor command (a : Api S) :
  actor_principalType actor = Some principal_application →
  ∃ e, (createDownloadGrant this clock now fraction grantId actor command a).1 = Err e.
Proof.
  intros Ha. unfold createDownloadGrant, mbind, M_bind.
  destruct (ad_grants this) as [[ttl platform]|]; [|by eexists]. destruct (on_catalog _ a) as [[[blob|]|e] a1]; [|by eexists..].
  assert (∀ signer a2, ∃ e, (match (issue ttl platform (λ _, true) clock now fraction grantId (download_request actor command blob signer) []).1 with
    | Err e => throw (grant_thrown e)
    | Ok grant => mret (mkDownloadGrant (client_grantId grant) (client_objectId grant) (client_workspaceId grant)
        (client_expiresAt grant) (client_url grant) (client_headers grant)) end a2 : result api_exn DownloadGrant * Api S).1 = Err e) as Hd.
  { intros signer a2. destruct (application_denied clock now fraction grantId ttl platform actor command blob signer [] Ha) as [e ->]. by eexists. }
  destruct (ad_router this) as [router|]; [|apply Hd]. destruct (try_catch _ _ a1) as [[signer|e] a2]; [apply Hd|by eexists].
Qed.
End Downloads.

(** ** Policy assignments *)

Section Assignments.
Context {S : Type} `{JsDate} `{!JsDateLaws} `{Crypto} (localeLe : string → string → bool).
Abbreviation step := (contract_step localeLe).
Abbreviation reachable := (contract_reachable localeLe).

(** A row stays, and only its revocation may be added. *)
Lemma policy_row_stays r d d' : rtc step d d' → r ∈ c_policies d →
  ∃ r', r' ∈ c_policies d' ∧ (r' = r ∨ ∃ t, r' = revoked_policy t r).
Proof.
  intros Hs Hr. apply (policies_kept localeLe (λ l, ∃ r', r' ∈ l ∧ (r' = r ∨ ∃ t, r' = revoked_policy t r))) with d; [| |done|by eauto].
  - intros l row (r' & Hr' & Hc) _. exists r'. split; [apply elem_of_app; by left|done].
  - intros l ws id at_ (r' & Hr' & Hc). exists (if policy_at ws id r' && (pol_revokedAt r' === None) then revoked_policy at_ r' else r').
    split; [apply list_elem_of_fmap; by exists r'|]. destruct (_ && _); [|done]. right. exists at_.
    by destruct Hc as [->|[t ->]].
Qed.

Lemma created_assignment asg d b d' :
  contract_createPolicyAssignment asg d = (Ok b, d') → pol_revokedAt asg = None →
  ∃ row, row ∈ c_policies d' ∧ b = mapPolicy row ∧ pol_revokedAt row = None ∧
    (pol_id row, pol_workspaceId row, pol_principalType row, pol_principalId row, pol_role row, pol_scopeKind row,
     pol_scopeId row, pol_createdBy row) =
    (pol_id asg, pol_workspaceId asg, pol_principalType asg, pol_principalId asg, pol_role asg, pol_scopeKind asg,
     pol_scopeId asg, pol_createdBy asg).
Proof.
  unfold contract_createPolicyAssignment. rewrite transaction_Ok. intros Hr Hn. run_inv. times.
  eexists. split; [cbn; apply elem_of_app; right; apply list_elem_of_here|]. split_and!; [done| |done]. cbn.
  rewrite Hn in *. rename select (_ ↔ _) into Hto. rename select (option Z) into t. destruct t; [|done].
  destruct (proj1 Hto (ex_intro _ _ eq_refl)). done.
Qed.

(** What the repository has after the command returned. *)
Lemma assigned now eventId actor command b (a a1 : Api S) :
  createPolicyAssignment now eventId actor command a = (Ok b, a1) →
  rtc step (api_contracts a) (api_contracts a1) ∧ samePolicyAssignment b command = true ∧
  ∃ row, row ∈ c_policies (api_contracts a1) ∧ b = mapPolicy row ∧ pol_revokedAt row = None ∧
    pol_id row = assignment_key actor command ∧ pol_workspaceId row = cpa_workspaceId command.
Proof.
  unfold createPolicyAssignment. intros Hr. apply M_bind_Ok in Hr as (l & a2 & Hl & Hr).
  apply on_contracts_Ok in Hl as (d & [= <- <-] & Ha2 & _). assert (api_contracts a2 = api_contracts a) as Hc2 by (unfold api_contracts at 1; by rewrite Ha2).
  destruct (List.find _ _) as [e|] eqn:Hf.
  - destruct (samePolicyAssignment e command) eqn:Hsame; [|done]. injection Hr as <- <-. rewrite Hc2. split; [done|]. split; [done|].
    apply find_Some_elem in Hf as [Hin He]. to_prop. apply (listed_policies (cpa_workspaceId command) None) in Hin as (r & -> & Hr & Hn). exists r.
    unfold samePolicyAssignment in Hsame. to_prop. by split_and!.
  - apply M_bind_Ok in Hr as (c & a3 & Hc & Hr). apply M_bind_Ok in Hr as ([] & a4 & Hrec & Hr). injection Hr as <- <-.
    apply on_contracts_Ok in Hc as (d3 & Hc & Ha3 & _). apply on_contracts_Ok in Hrec as (d4 & Hrec & Ha4 & _).
    assert (api_contracts a3 = d3) as Hc3 by (unfold api_contracts; by rewrite Ha3).
    assert (api_contracts a4 = d4) as Hc4 by (unfold api_contracts; by rewrite Ha4). rewrite Hc4, Hc3, Hc2 in *.
    set (asg := mkPolicyOf _ _ _ _ _ _ _ _ _ _) in Hc. split; [|].
    { apply rtc_l with d3; [|apply rtc_l with d4; [|done]].
      - pose proof (step_call localeLe (api_contracts a) (CallCreatePolicy asg)) as Hst. cbn [run_call] in Hst. unfold mbind, M_bind in Hst.
        by rewrite Hc in Hst.
      - pose proof (step_call localeLe d3 (CallRecordChange eventId (cpa_workspaceId command) actor (pol_id c) "policy_assignment.created"
          (cpa_idempotencyKey command) (pol_createdAt c) (assignment_metadata c))) as Hst. cbn [run_call] in Hst. by rewrite Hrec in Hst. }
    assert (c_policies d4 = c_policies d3) as Hp.
    { assert (preserves (λ e, c_policies e = c_policies d3) (contract_recordPolicyAssignmentChange eventId (cpa_workspaceId command) actor (pol_id c)
        "policy_assignment.created" (cpa_idempotencyKey command) (pol_createdAt c) (assignment_metadata c))) as Hk by writes.
      specialize (Hk d3 eq_refl). by rewrite Hrec in Hk. }
    apply created_assignment in Hc as (row & Hrow & -> & Hn & Hsame); [|done]. destruct row. cbn in Hn, Hsame. injection Hsame as -> -> -> -> -> -> -> ->.
    split; [unfold samePolicyAssignment; cbn; by rewrite !strict_eq_refl|]. eexists. rewrite Hp. by split_and!.
Qed.

(** The command when the key's row is there: by the listing, which has no
    revoked row, and the primary key. *)
Lemma assign_again now eventId actor command row (a : Api S) :
  NoDup (map pol_id (c_policies (api_contracts a))) → row ∈ c_policies (api_contracts a) → w_faults (api_world a) = [] → valid_time now →
  pol_id row = assignment_key actor command → pol_workspaceId row = cpa_workspaceId command →
  createPolicyAssignment now eventId actor command a =
    (match pol_revokedAt row with
     | Some _ => Err unique_violation
     | None =>
         if samePolicyAssignment (mapPolicy row) command then Ok (mapPolicy row)
         else Err (codedError "IDEMPOTENCY_CONFLICT" "Policy assignment idempotency key was reused with different input.")
     end, a).
Proof.
  intros Hnd Hrow Hf Ht Hid Hw. unfold createPolicyAssignment, mbind at 1, M_bind at 1. rewrite on_contracts_clean by done.
  unfold contract_listPolicyAssignments. rewrite (run_contracts_read (gets _) a (Ok _) eq_refl).
  set (l := map mapPolicy _). assert (∀ b, b ∈ l ↔ ∃ r, b = mapPolicy r ∧ r ∈ c_policies (api_contracts a) ∧ pol_revokedAt r = None ∧
    pol_workspaceId r = cpa_workspaceId command) as Hl.
  { intros b. unfold l. rewrite list_elem_of_fmap. setoid_rewrite Verification.order_by_perm. setoid_rewrite List_filter_elem. cbn [truthy negb orb].
    setoid_rewrite andb_true_r. setoid_rewrite andb_true_iff. setoid_rewrite bool_decide_eq_true. naive_solver. }
  assert (∀ r, r ∈ c_policies (api_contracts a) → pol_id r = pol_id row → r = row) as Hu
    by (intros r Hr He; by eapply (NoDup_key pol_id)).
  destruct (pol_revokedAt row) as [t|] eqn:Hrev.
  - destruct (List.find _ l) as [b|] eqn:Hfind.
    { apply find_Some_elem in Hfind as [(r & -> & Hr & Hn & _)%Hl He]. to_prop. cbn in He.
      rewrite (Hu r Hr) in Hn by congruence. congruence. }
    unfold mbind at 1, M_bind at 1. rewrite on_contracts_clean by done. rewrite (run_contracts_read _ a (Err unique_violation)); [done|].
    unfold contract_createPolicyAssignment, transaction, timestamptz. cbn [pol_createdAt pol_revokedAt timestamptz_opt]. rewrite (Date_parse_toISOString _ Ht). run.
    set (asg := mkPolicyOf _ _ _ _ _ _ _ _ _ _). assert (policy_taken asg (api_contracts a) = true) as ->; [|done]. apply existsb_elem. exists row. split; [done|]. cbn.
    by rewrite Hid, strict_eq_refl.
  - destruct (List.find _ l) as [b|] eqn:Hfind.
    + apply find_Some_elem in Hfind as [(r & -> & Hr & Hn & _)%Hl He]. to_prop. cbn in He.
      rewrite (Hu r Hr) by congruence. by destruct (samePolicyAssignment _ _).
    + exfalso. apply (find_None_elem _ _ (mapPolicy row)) in Hfind; [|apply Hl; by eauto]. cbn in Hfind.
      by rewrite Hid, strict_eq_refl in Hfind.
Qed.

(** C21. The idempotency key of a policy assignment names that assignment until it
    is revoked, and then blocks its principal for good: whatever happened to the
    database since, a repeated command with the key returns the assignment if its
    input is the same and is a conflict if not, and after a revocation it fails
    with a violation of the primary key, whatever its input, because the command
    looks for the key among the assignments that are not revoked and the
    identifier is derived from the key; it writes nothing in any case. *)
Theorem assignment_key_until_revoked now eventId actor command b (a a1 a2 : Api S) now' eventId' command' :
  reachable (api_contracts a) → createPolicyAssignment now eventId actor command a = (Ok b, a1) →
  rtc step (api_contracts a1) (api_contracts a2) → w_faults (api_world a2) = [] → valid_time now' →
  cpa_workspaceId command' = cpa_workspaceId command → cpa_idempotencyKey command' = cpa_idempotencyKey command →
  ∃ c, contract_getPolicyAssignment (cpa_workspaceId command) (pol_id b) (api_contracts a2) = (Ok (Some c), api_contracts a2) ∧
    match pol_revokedAt c with
    | None => c = b ∧ createPolicyAssignment now' eventId' actor command' a2 =
        (if samePolicyAssignment b command' then Ok b
         else Err (codedError "IDEMPOTENCY_CONFLICT" "Policy assignment idempotency key was reused with different input."), a2)
    | Some _ => createPolicyAssignment now' eventId' actor command' a2 = (Err unique_violation, a2)
    end.
Proof.
  intros (d0 & Hi & Hs0) (Hs1 & _ & row & Hrow & -> & Hn & Hid & Hw)%assigned Hs Hf Ht Hws Hkey.
  assert (reachable (api_contracts a2)) as Hr2 by (exists d0; split; [done|]; etrans; [exact Hs0|]; by etrans).
  destruct (policy_row_stays _ _ _ Hs Hrow) as (r & Hr & Hc). pose proof (policy_ids_unique _ _ Hr2) as Hnd.
  assert (pol_id r = pol_id row ∧ pol_workspaceId r = pol_workspaceId row) as [Hrid Hrw] by (by destruct Hc as [->|[t ->]]).
  assert (assignment_key actor command' = assignment_key actor command) as Hk by (unfold assignment_key; by rewrite Hws, Hkey).
  rewrite (assign_again now' eventId' actor command' r a2) by (done || congruence). exists (mapPolicy r). split.
  - unfold contract_getPolicyAssignment, gets. rewrite (find_keyed pol_id _ _ r); [done|done|done| |].
    + unfold policy_at. cbn. by rewrite Hrid, Hrw, Hw, !strict_eq_refl.
    + intros q Hq He. unfold policy_at in He. to_prop. cbn in *. congruence.
  - destruct Hc as [->|[t ->]]; cbn; [|done]. by rewrite Hn.
Qed.
End Assignments.

(** ** Completing an upload *)

Section Stranded.
Context {S St : Type} `{JsDate} `{Crypto} (collation : string → string → bool).
Context (client : St → ObjectStorage S) (this : Adapters St).
Abbreviation complete := (completeUpload collation client this).

Lemma routing_keeps Q actor ws tenant : preserves (λ a : Api S, Q (api_scanner a)) (ingestRoutingFields collation this actor ws tenant).
Proof.
  unfold ingestRoutingFields, resolveApplicationId. destruct (ad_router this); [|auto with effects].
  apply preserves_bind; [|auto 6 with effects]. apply preserves_if; [auto with effects|].
  apply preserves_bind; [apply keeps_read|auto with effects].
Qed.

Lemma ingest_call_keeps Q platform provider times actor ws key mediaType bytes route :
  preserves (λ a : Api S, Q (api_scanner a)) (ingest_call client platform provider times actor ws key mediaType bytes route).
Proof. destruct route as [[storage binding] generation]. apply keeps_ingest. Qed.

(** A command that fails and leaves the scanner, and so the tables, as they are. *)
Definition refuses {A} (o : QuarantineScanOrchestrator ScanDb) (m : M (Api S) api_exn A) : Prop :=
  ∀ a, api_scanner a = o → ∃ e a', m a = (Err e, a') ∧ api_scanner a' = o.

Lemma refuses_throw {A} o e : refuses (A := A) o (throw e).
Proof. intros a Ha. by exists e, a. Qed.
Lemma refuses_bind {A B} o (m : M (Api S) api_exn A) (f : A → M (Api S) api_exn B) :
  preserves (λ a, api_scanner a = o) m → (∀ x, refuses o (f x)) → refuses o (m ≫= f).
Proof.
  intros Hm Hf a Ha. unfold mbind, M_bind. specialize (Hm a Ha). destruct (m a) as [[x|e] a1]; [by apply Hf|by exists e, a1].
Qed.
Lemma refuses_first {A B} o (m : M (Api S) api_exn A) (f : A → M (Api S) api_exn B) : refuses o m → refuses o (m ≫= f).
Proof. intros Hm a Ha. unfold mbind, M_bind. destruct (Hm a Ha) as (e & a1 & -> & Ha1). by exists e, a1. Qed.

(** The upload has a scan, and is not completed. *)
Record stranded (ws uploadId : string) (a : Api S) : Prop := mkStranded {
  stranded_job : ∃ row, row ∈ sdb_jobs (api_scans a) ∧ job_for ws uploadId row = true;
  stranded_open u : u ∈ c_uploads (api_contracts a) → upr_workspaceId u = ws → upr_id u = uploadId → upr_state u ≠ completed;
}.
(** [randomUUID] returned an identifier no job has. *)
Definition fresh_job (times : CompletionTimes) (a : Api S) : Prop :=
  ∀ q, q ∈ sdb_jobs (api_scans a) → job_id q ≠ ct_scanJobId times.

Lemma queue_conflict t0 t1 t2 j ws uploadId key (o : QuarantineScanOrchestrator ScanDb) row :
  (∀ q, q ∈ sdb_jobs (scan_store o) → job_id q ≠ j) → row ∈ sdb_jobs (scan_store o) → job_for ws uploadId row = true →
  queueUploaded t0 t1 t2 (Ok tt) j ws uploadId key o = (Err QuarantineScanConflictError, o).
Proof.
  intros Hfresh Hrow Hfor. destruct o as [p d]. cbn in Hfresh, Hrow. unfold queueUploaded, mbind at 1, M_bind at 1, on_store at 1.
  cbn [getByScanJobId postgres_scan_store scan_store]. rewrite (getByScanJobId_none _ _ _ Hfresh). cbn [scan_state].
  change (transitionQuarantine uploaded scan_queued) with (@Ok quarantine_exn _ scan_queued). run.
  unfold mbind at 1, M_bind at 1, on_store at 1. cbn [save postgres_scan_store scan_store].
  by rewrite (save_conflict _ d row).
Qed.

Lemma queue_refuses times ws uploadId key (a : Api S) :
  stranded ws uploadId a → fresh_job times a → refuses (api_scanner a) (queueScanAfterIngest this times ws uploadId key).
Proof.
  intros [(row & Hrow & Hfor) _] Hfresh. unfold queueScanAfterIngest. apply refuses_first. intros b Hb.
  unfold on_scanner, mbind, M_bind. destruct (next_call b) as [[[]|e] b1] eqn:Hn.
  - apply next_call_Ok in Hn as (Ho & _). unfold run_scanner. rewrite Ho, Hb, (queue_conflict _ _ _ _ _ _ _ _ row) by done. by eauto.
  - exists e, b1. split; [done|]. pose proof (keeps_next (λ o, o = api_scanner a) b Hb) as Hk. by rewrite Hn in Hk.
Qed.

Lemma stranded_refuses times uploadId actor command (a : Api S) :
  stranded (cuc_workspace command) uploadId a → fresh_job times a →
  ∃ e a', complete times uploadId actor command a = (Err e, a') ∧ api_scanner a' = api_scanner a.
Proof.
  intros Hs Hf. unfold completeUpload. destruct (ad_ingest this) as [[platform provider]|]; [|by eexists _, a].
  pose proof (keeps_read (λ o, o = api_scanner a) (λ d, mapUpload <$> upload_row (cuc_workspace command) uploadId actor d) a eq_refl) as Hk.
  unfold contract_getUploadSession, mbind at 1, M_bind at 1.
  destruct (on_contracts _ a) as [[session|e] a1] eqn:Hread; [|by exists e, a1].
  apply on_contracts_Ok in Hread as (d & [= <- _] & _).
  destruct (upload_row _ _ _ _) as [[u op]|] eqn:Hrow; cbn [fmap option_fmap option_map]; [|by eexists _, a1].
  assert (upr_state u ≠ completed) as Hopen.
  { unfold upload_row in Hrow. apply find_Some_elem in Hrow as [Hin Hc]. to_prop. apply (stranded_open _ _ _ Hs); [|done|done].
    unfold uploadSelect in Hin. apply list_elem_of_In, in_flat_map in Hin as (v & Hv & (w & [= -> ->] & _)%in_map_iff).
    apply list_elem_of_In, List_filter_elem in Hv as [Hv _]. done. }
  match goal with |- ∃ e a', ?m a1 = _ ∧ _ => enough (refuses (api_scanner a) m) as Hr by exact (Hr a1 Hk) end.
  apply refuses_bind; [apply preserves_lift|]. intros bytes. apply refuses_bind; [apply preserves_throw_when|]. intros _.
  apply refuses_bind; [apply preserves_throw_when|]. intros _. rewrite bool_decide_eq_false_2 by done.
  apply refuses_bind; [apply preserves_throw_when|]. intros _.
  apply refuses_bind; [apply (routing_keeps (λ o, o = api_scanner a))|]. intros route.
  apply refuses_bind; [apply (ingest_call_keeps (λ o, o = api_scanner a))|]. intros result. by apply refuses_first, queue_refuses.
Qed.

(** Another attempt at the upload: by anybody, with any bytes, under any faults. *)
Definition under (fs : list fault) (a : Api S) : Api S := mkApi (with_faults fs (api_world a)) (api_registry a) (api_scanner a).
Inductive retry (ws uploadId : string) (a : Api S) : Api S → Prop :=
  | retry_complete fs times actor bytesBase64 : fresh_job times a →
      retry ws uploadId a (complete times uploadId actor (mkCompleteCommand ws bytesBase64) (under fs a)).2.

(** C14. An interrupted completion is final: once the scan of an upload was queued
    by an attempt that did not reach the completion of the session (the process
    stopped, or a later call failed), no attempt, by anybody, with any bytes,
    however often, completes the upload: every attempt queues the scan under a
    new identifier, which the one job per upload refuses; the tables stay as they
    were. *)
Theorem interrupted_completion_is_final ws uploadId a a' :
  stranded ws uploadId a → rtc (retry ws uploadId) a a' →
  api_scans a' = api_scans a ∧
  ∀ times actor bytesBase64, fresh_job times a' →
    ∃ e, (complete times uploadId actor (mkCompleteCommand ws bytesBase64) a').1 = Err e.
Proof.
  intros Hs Hr. assert (api_scanner a' = api_scanner a) as Ho.
  { induction Hr as [|a b c [fs times actor bytes Hf] _ IH]; [done|].
    destruct (stranded_refuses times uploadId actor (mkCompleteCommand ws bytes) (under fs a)) as (e & b' & Hb & Hob);
      [by destruct Hs; constructor|done|]. rewrite Hb in *. cbn [snd] in *. rewrite IH; [done|]. destruct Hs as [H1 H2].
    constructor; unfold api_contracts, api_scans in *; by rewrite Hob. }
  split; [unfold api_scans; by rewrite Ho|]. intros times actor bytes Hf.
  destruct (stranded_refuses times uploadId actor (mkCompleteCommand ws bytes) a') as (e & b & -> & _); [|done|by exists e].
  destruct Hs. constructor; unfold api_contracts, api_scans in *; by rewrite Ho.
Qed.
End Stranded.

Section Completion.
Context {S St : Type} `{JsDate} `{!JsDateLaws} `{Crypto} (localeLe collation : string → string → bool).
Context (storage : ObjectStorage S) `{!ObjectStorageLaws S} (client : St → ObjectStorage S) (this : Adapters St).
Abbreviation complete := (completeUpload collation client this).

(** The times of a completion can be printed and read. *)
Definition printable (times : CompletionTimes) : Prop :=
  Forall valid_time [ct_created times; ct_queued times; ct_scanning times; ct_verdict times; ct_pending times;
                     ct_promoted times; ct_completed times].

(** The job an undisturbed completion leaves. *)
Definition scan_left (times : CompletionTimes) (ws uploadId key : string) : ScanRow :=
  if ad_fakeScanner this
  then mkScanRow (ct_scanJobId times) ws uploadId key promoted (Some clean) (ct_created times) (ct_promoted times)
  else mkScanRow (ct_scanJobId times) ws uploadId key scanning None (ct_created times) (ct_scanning times).

Lemma run_save record (a : Api S) d :
  w_faults (api_world a) = [] → jobs_save record (api_scans a) = (Ok tt, d) →
  on_scanner (on_store (save record)) a = (Ok tt, set_scans d a).
Proof.
  intros Hf Hs. rewrite on_scanner_clean by done. unfold run_scanner, on_store. cbn [save postgres_scan_store].
  unfold api_scans in Hs. by rewrite Hs.
Qed.

Section Queue.
Context (times : CompletionTimes) (ws uploadId key : string) (p : list string) (c : ContractDb) (l : list ScanRow).
Hypothesis Ht : printable times.
Hypothesis Hjob : sql_blank (ct_scanJobId times) = false.
Hypothesis Hkey : sql_blank key = false.
Hypothesis Hseen : array_includes p (ct_scanJobId times +:+ ":clean") = false.
Hypothesis Hl : ∀ r, r ∈ l → job_id r ≠ ct_scanJobId times ∧ job_for ws uploadId r = false.
Hypothesis Hu : existsb (λ u, (upr_workspaceId u === ws) && (upr_id u === uploadId)) (c_uploads c) = true.

Abbreviation iso t := (toISOString (t times)).
Abbreviation row st out t := (mkScanRow (ct_scanJobId times) ws uploadId key st out (ct_created times) (t times)).
Abbreviation rec st out t := (mkScan (ct_scanJobId times) ws uploadId key st out (iso ct_created) (iso t)).

Lemma step_time t : t times ∈ [ct_created times; ct_queued times; ct_scanning times; ct_verdict times; ct_pending times;
                     ct_promoted times; ct_completed times] → Date_parse (iso t) = Some (t times).
Proof. intros Hin. apply Date_parse_toISOString. by eapply Forall_forall in Hin. Qed.

Lemma save_row st out t st' out' t' : Date_parse (iso t') = Some (t' times) →
  jobs_save (rec st' out' t') (mkScanDb c (l ++ [row st out t])) = (Ok tt, mkScanDb c (l ++ [row st' out' t'])).
Proof.
  intros Hp. rewrite (save_again _ _ l (row st out t) (t' times)); [done|done|exact Hl| |done| |done].
  - unfold same_job. cbn. by rewrite !strict_eq_refl.
  - cbn. apply step_time. apply list_elem_of_here.
Qed.

Lemma queue_run : queueUploaded (iso ct_created) (iso ct_queued) (iso ct_scanning) (Ok tt) (ct_scanJobId times) ws uploadId key
    (mkOrchestrator p (mkScanDb c l)) =
  (Ok (rec scanning None ct_scanning), mkOrchestrator p (mkScanDb c (l ++ [row scanning None ct_scanning]))).
Proof.
  unfold queueUploaded, mbind at 1, M_bind at 1, on_store at 1. cbn [getByScanJobId postgres_scan_store scan_store].
  rewrite getByScanJobId_none by (intros q Hq; by apply Hl). cbn [scan_state].
  change (transitionQuarantine uploaded scan_queued) with (@Ok quarantine_exn _ scan_queued). run.
  unfold mbind at 1, M_bind at 1, on_store at 1. cbn [save postgres_scan_store scan_store processedCallbacks].
  change (with_state (mkScan (ct_scanJobId times) ws uploadId key uploaded None (iso ct_created) (iso ct_created)) scan_queued (iso ct_queued))
    with (rec scan_queued None ct_queued).
  rewrite (save_new (rec scan_queued None ct_queued) (mkScanDb c l) (ct_created times) (ct_queued times));
    [|exact Hl|exact Hu|done|done|apply step_time; set_solver|apply step_time; set_solver].
  cbn [scan_state]. change (transitionQuarantine scan_queued scanning) with (@Ok quarantine_exn _ scanning). run.
  unfold mbind at 1, M_bind at 1, on_store at 1. cbn [save postgres_scan_store scan_store processedCallbacks].
  change (with_state (rec scan_queued None ct_queued) scanning (iso ct_scanning)) with (rec scanning None ct_scanning).
  unfold set_jobs. cbn [sdb_contracts sdb_jobs]. rewrite (save_row scan_queued None ct_queued); [done|]. apply step_time. set_solver.
Qed.

Lemma find_row st out t w : w = ws → 
  jobs_getByScanJobId w (ct_scanJobId times) (mkScanDb c (l ++ [row st out t])) = (Ok (Some (rec st out t)), mkScanDb c (l ++ [row st out t])).
Proof.
  intros ->. unfold jobs_getByScanJobId, gets. cbn [sdb_jobs]. rewrite find_append.
  pose proof (alone_job (rec st out t) l Hl) as Hn. cbn [scan_workspaceId scan_jobId] in Hn. rewrite Hn. cbn. unfold job_of. cbn.
  by rewrite !strict_eq_refl.
Qed.

Lemma verdict_run :
  handleCallback (iso ct_verdict) (mkCallback (ct_scanJobId times) ws clean (Some "fake") true)
    (mkOrchestrator p (mkScanDb c (l ++ [row scanning None ct_scanning]))) =
  (Ok (rec accepted (Some clean) ct_verdict),
   mkOrchestrator ((ct_scanJobId times +:+ ":clean") :: p) (mkScanDb c (l ++ [row accepted (Some clean) ct_verdict]))).
Proof.
  unfold handleCallback. cbn [callback_authentic callback_workspaceId callback_scanJobId callback_outcome negb]. run.
  unfold mbind at 1, M_bind at 1, on_store at 1. cbn [getByScanJobId postgres_scan_store scan_store processedCallbacks].
  rewrite find_row by done. unfold decideCallback. run. cbn [scan_workspaceId scan_outcome scan_state callback_workspaceId callback_outcome callback_scanJobId processedCallbacks]. rewrite strict_ne_refl. run.
  cbn [processedCallbacks outcome_name]. change (ct_scanJobId times +:+ ":" +:+ "clean") with (ct_scanJobId times +:+ ":clean").
  rewrite Hseen. change (None === Some clean) with false. change (scanning !== scanning) with false. cbn [andb].
  change (transitionQuarantine scanning (outcomeState clean)) with (@Ok quarantine_exn _ accepted). run.
  unfold add_processed, on_store. run. cbn [save postgres_scan_store scan_store processedCallbacks]. unfold mbind, M_bind.
  cbn [save postgres_scan_store scan_store processedCallbacks scan_jobId scan_uploadId scan_storageKey scan_createdAt].
  cbn [fst snd scan_store processedCallbacks]. rewrite (save_row scanning None ct_scanning accepted (Some clean) ct_verdict); [done|]. apply step_time. set_solver.
Qed.

(** The scan is queued, and with the fake scanner passed and promoted. *)
Lemma queue_after_run (a : Api S) : w_faults (api_world a) = [] → api_scanner a = mkOrchestrator p (mkScanDb c l) →
  ∃ p', queueScanAfterIngest this times ws uploadId key a =
    (Ok tt, mkApi (api_world a) (api_registry a) (mkOrchestrator p' (mkScanDb c (l ++ [scan_left times ws uploadId key])))).
Proof.
  intros Hf Ho. destruct a as [w g o]. cbn in Ho, Hf. subst o. unfold queueScanAfterIngest, scan_left.
  unfold mbind at 1, M_bind at 1. rewrite on_scanner_clean by done. unfold run_scanner. cbn [api_scanner]. rewrite queue_run.
  destruct (ad_fakeScanner this); cbn [negb]; [|by exists p].
  unfold mbind at 1, M_bind at 1. rewrite on_scanner_clean by done. unfold run_scanner. cbn [api_scanner]. rewrite verdict_run.
  exists ((ct_scanJobId times +:+ ":clean") :: p). unfold advanceFakePromotion. cbn [scan_state].
  change (accepted !== accepted) with false. cbn match.
  change (with_state (rec accepted (Some clean) ct_verdict) promotion_pending (iso ct_pending)) with (rec promotion_pending (Some clean) ct_pending).
  change (with_state (rec promotion_pending (Some clean) ct_pending) promoted (iso ct_promoted)) with (rec promoted (Some clean) ct_promoted).
  unfold mbind at 1, M_bind at 1.
  rewrite (run_save _ _ (mkScanDb c (l ++ [row promotion_pending (Some clean) ct_pending]))); [|done|].
  - rewrite (run_save _ _ (mkScanDb c (l ++ [row promoted (Some clean) ct_promoted]))); [done|done|].
    apply save_row. apply step_time. set_solver.
  - apply save_row. apply step_time. set_solver.
Qed.
End Queue.

(** *** An ingest without faults meets none *)

Abbreviation calm := (λ w : World S, w_faults w = []).
Abbreviation calm_run := (λ r : Run S, w_faults (run_world r) = []).

Lemma tick_calm : preserves calm tick.
Proof. intros w Hw. unfold tick. by rewrite Hw. Qed.
Lemma storage_calm {A} (m : M S storage_exn A) : preserves calm (on_storage m).
Proof.
  apply preserves_bind; [apply tick_calm|]. intros _ w Hw. unfold storage_call. by destruct (m (w_storage w)) as [[v|e] s].
Qed.
Lemma db_calm {A} (m : M Database db_exn A) : preserves calm (Ingest.on_db m).
Proof. apply preserves_bind; [apply tick_calm|]. intros _ w Hw. unfold db_call. by destruct (m (w_db w)) as [[v|e] d]. Qed.
Lemma await_calm {A} (m : M (World S) ingest_exn A) : preserves calm m → preserves calm_run (await m).
Proof. intros Hm r Hr. unfold await. specialize (Hm _ Hr). by destruct (m (run_world r)) as [[v|e] w]. Qed.
Lemma assign_calm f : preserves calm_run (assign f).
Proof. apply preserves_modify. by intros r Hr. Qed.
Hint Resolve tick_calm storage_calm db_calm await_calm assign_calm : effects.
Ltac calmly := repeat first
  [ apply storage_calm | apply db_calm | apply preserves_bind; [|intros ?] | apply preserves_for_each; intros ? | apply await_calm
  | apply assign_calm | apply tick_calm | apply preserves_throw_when | apply preserves_gets | apply preserves_ret | apply preserves_throw
  | apply preserves_if | match goal with |- preserves _ (match ?x with _ => _ end) => destruct x end ].

Lemma checkpoint_calm input id name effect : preserves calm_run effect → preserves calm_run (checkpoint (S := S) input id name effect).
Proof. intros He. unfold checkpoint, local. calmly. done. Qed.
Hint Resolve checkpoint_calm : effects.

Lemma ingest_body_calm provider input nowMillis now blobId id resumed :
  preserves calm_run (ingest_body provider input nowMillis now blobId id resumed).
Proof.
  unfold ingest_body, authorise, create_temporary, receive_bytes, verify_hash, commit_object, commit_metadata, record_metadata,
    requiredContextString, local.
  repeat first [ apply checkpoint_calm | progress calmly ].
Qed.

Lemma ingest_calm provider input nowMillis now newId blobId : preserves calm (Ingest.ingest provider input nowMillis now newId blobId).
Proof.
  unfold Ingest.ingest. apply preserves_bind; [apply db_calm|]. intros op. apply preserves_bind; [apply preserves_throw_when|]. intros _ w Hw.
  unfold try_or_fail. pose proof (ingest_body_calm provider input nowMillis now blobId (op_id op)
    (negb (bool_decide (op_checkpoints op = []))) (mkRun (mkLocals (op_checkpoints op) (op_context op) (result_blob <$> op_result op)
    (from_option result_deduplicated false (op_result op))) w) Hw) as Hb. destruct (ingest_body _ _ _ _ _ _ _ _) as [[v|e] r]; [done|].
  cbn. pose proof (db_calm (fail_operation (in_workspaceId input) (op_id op) (ingest_message e)) (run_world r) Hb) as Hf.
  by destruct (Ingest.on_db _ _) as [[v|e'] w'].
Qed.

(** *** An undisturbed completion *)

Lemma ingest_call_eq platform provider t actor w k mediaType b (route : option St * option string * option Z) :
  ingest_call client platform provider t actor w k mediaType b route =
    on_ingest (@Ingest.ingest S _ _ (client (default platform route.1.1)) provider
      (mkIngest w (actor_id actor) (principal_type_name (actorPrincipalType actor)) k b mediaType route.1.2 route.2)
      (it_nowMillis t) (it_now t) (it_newId t) (it_blobId t)).
Proof. by destruct route as [[chosen binding] generation]. Qed.

Section Complete.
Context (times : CompletionTimes) (uploadId : string) (actor : AuthenticatedActor) (command : CompleteUploadCommand).
Context (platform : St) (provider ckey : string) (session : UploadSession) (route : option St * option string * option Z).
Abbreviation ws := (cuc_workspace command).
Abbreviation bytes := (fromBase64 (cuc_bytesBase64 command)).

(** The ingest of the upload's bytes. *)
Definition upload_ingest : IngestInput :=
  mkIngest ws (actor_id actor) (principal_type_name (actorPrincipalType actor)) ("upload:" +:+ uploadId) bytes
    (upload_mediaType session) route.1.2 route.2.

(** The session is open and has not expired, the bytes are those it announced,
    the store has seen nothing but ingests and their like, the identifiers are
    new, and the upload has no scan; the routing of the object gives [route], none
    when no router is configured, and the client of the storage it chooses, or of
    the platform's, is [storage]. *)
Record ready (a : Api S) : Prop := mkReady {
  ready_adapter : ad_ingest this = Some (platform, provider);
  ready_client : client (default platform route.1.1) = storage;
  ready_route : ∃ registry, ingestRoutingFields collation this actor ws None a = (Ok route, mkApi (api_world a) registry (api_scanner a));
  ready_faults : w_faults (api_world a) = [];
  ready_times : printable times;
  ready_contracts : contract_reachable localeLe (api_contracts a);
  ready_session : contract_getUploadSession ws uploadId actor (api_contracts a) = (Ok (Some session), api_contracts a);
  ready_open : upload_state session ≠ completed;
  ready_base64 : base64_pattern (cuc_bytesBase64 command) = true;
  ready_length : byteLength bytes = upload_expectedByteLength session;
  ready_sha256 : sha256 bytes = upload_expectedSha256 session;
  ready_expiry : date_le (Date_parse (upload_expiresAt session)) (Some (ct_checked times)) = false;
  ready_request : request_ok upload_ingest ckey;
  ready_world : served provider upload_ingest ckey (api_world a);
  ready_operation : new_id (api_world a) (it_newId (ct_ingest times));
  ready_blob : ∀ k b, db_blobs (w_db (api_world a)) !! k = Some b → k ≠ (ws, sha256 bytes) →
    blob_id b ≠ it_blobId (ct_ingest times);
  ready_job : sql_blank (ct_scanJobId times) = false;
  ready_callbacks : array_includes (processedCallbacks (api_scanner a)) (ct_scanJobId times +:+ ":clean") = false;
  ready_scan : ∀ r, r ∈ sdb_jobs (api_scans a) → job_id r ≠ ct_scanJobId times ∧ job_for ws uploadId r = false;
}.

Lemma ingest_runs a : ready a →
  ∃ res w', Ingest.ingest provider upload_ingest (it_nowMillis (ct_ingest times)) (it_now (ct_ingest times)) (it_newId (ct_ingest times))
      (it_blobId (ct_ingest times)) (api_world a) = (Ok res, w') ∧ w_faults w' = [] ∧
    db_blobs (w_db w') !! (ws, sha256 bytes) = Some (ingest_blob res) ∧ storage_inv (w_storage w') ∧
    ∃ b m, stored (w_storage w') (blob_storageKey (ingest_blob res)) b m ∧ (b = bytes ∨ sha256_collision b bytes) ∧
      byteLength b = blob_byteLength (ingest_blob res).
Proof.
  intros [_ _ _ Hf _ _ _ _ _ _ _ _ Hrq Hw Hnew Hblob _ _ _].
  pose proof (attempt provider upload_ingest ckey Hrq True (it_nowMillis (ct_ingest times)) (it_now (ct_ingest times))
    (it_blobId (ct_ingest times)) (api_world a) (it_newId (ct_ingest times))) as Ha.
  pose proof (ingest_calm provider upload_ingest (it_nowMillis (ct_ingest times)) (it_now (ct_ingest times)) (it_newId (ct_ingest times))
    (it_blobId (ct_ingest times)) (api_world a) Hf) as Hcalm.
  destruct (Ingest.ingest _ _ _ _ _ _ _) as [r w']. destruct Ha as [Hd' Hr];
    [by eapply served_durable|exact Hnew|intros _; exact Hblob|done|].
  destruct r as [res|e]; [|by destruct Hr]. destruct Hr as (id & row & _ & _ & _ & Hb & _).
  exists res, w'. destruct Hd' as (Hinv & Hcat & _). destruct (Hcat _ _ _ Hb) as (_ & _ & _ & (b & m & Hst & Hsha & Hlen) & _).
  split_and!; try done. exists b, m. split_and!; try done. by apply sha256_eq_or_collision.
Qed.

(** C9. An upload completes: for an open, unexpired session, the bytes it
    announced, a store in whatever state interrupted ingests of them left it, no
    scan of the upload yet, and a routing that gives the object a route (as it does
    when no router is configured; a router that is configured may refuse one), one
    undisturbed call completes the session; it then
    reads as completed with the blob of the ingest, which the catalogue has under
    the announced digest and whose storage key holds the bytes (or a SHA-256
    collision with them); and the upload's one scan job names that key, waiting
    for a verdict, or promoted when the fake scanner is selected. *)
Theorem upload_completes a :
  (∀ s k b m, storage_inv s → stored s k b m → sql_blank k = false) → ready a →
  ∃ done_ blob a', complete times uploadId actor command a = (Ok done_, a') ∧
    upload_state done_ = completed ∧ upload_blobId done_ = Some (JString (blob_id blob)) ∧
    upload_completedAt done_ = Some (toISOString (ct_completed times)) ∧
    contract_getUploadSession ws uploadId actor (api_contracts a') = (Ok (Some done_), api_contracts a') ∧
    db_blobs (w_db (api_world a')) !! (ws, upload_expectedSha256 session) = Some blob ∧
    (∃ b m, stored (w_storage (api_world a')) (blob_storageKey blob) b m ∧ (b = bytes ∨ sha256_collision b bytes) ∧
       byteLength b = blob_byteLength blob) ∧
    sdb_jobs (api_scans a') = sdb_jobs (api_scans a) ++ [scan_left times ws uploadId (blob_storageKey blob)].
Proof.
  intros Hkeys Hready. destruct (ingest_runs a Hready) as (res & w' & Hing & Hf' & Hb & Hinv & b & m & Hst & Hsame & Hlen).
  pose proof (uploads_reachable _ _ (ready_contracts _ Hready)) as Hok.
  destruct Hready as [Had Hcl [registry Hro] Hf Ht _ Hsess Hopen H64 Hln Hsha Hexp _ _ _ _ Hjob Hseen Hscan].
  pose proof Hsess as Hs2. unfold contract_getUploadSession, gets in Hs2. injection Hs2 as Hs2.
  destruct (upload_row ws uploadId actor (api_contracts a)) as [[u o]|] eqn:Hrow; [|done]. injection Hs2 as Hs2.
  assert (upr_state u ≠ completed) as Hou by (rewrite <- Hs2 in Hopen; exact Hopen).
  pose proof (proj1 (upload_row_spec localeLe _ _ _ _ _ _ Hok) Hrow) as (Hso & Hwu & Hiu & _). pose proof (session_upload _ _ _ Hso) as Hin.
  destruct (queue_after_run times ws uploadId (blob_storageKey (ingest_blob res)) (processedCallbacks (api_scanner a))
    (api_contracts a) (sdb_jobs (api_scans a)) Ht Hjob (Hkeys _ _ _ _ Hinv Hst) Hseen Hscan) with (a := mkApi w' registry (api_scanner a)) as [p' Hq].
  { apply existsb_elem. exists u. split; [done|]. by rewrite Hwu, Hiu, !strict_eq_refl. }
  { done. }
  { by destruct a as [w g [p [c l]]]. }
  set (input := mkCompleteUpload ws uploadId actor (blob_id (ingest_blob res)) (ingest_operationId res) (toISOString (ct_completed times))).
  pose proof (complete_open localeLe input (api_contracts a) u o (ct_completed times) Hok Hrow Hou (step_time times Ht ct_completed ltac:(set_solver))) as Hcomp.
  pose proof (marked_completion (ct_completed times) input _ Hok) as Hcp.
  exists (mapUpload (completed_upload (ct_completed times) u, completed_operation (ct_completed times) input o)), (ingest_blob res).
  eexists. split.
  - unfold completeUpload. rewrite Had. unfold mbind at 1, M_bind at 1. rewrite on_contracts_clean, (run_contracts_read _ a _ Hsess) by done.
    unfold object_bytes. rewrite H64. run. rewrite Hln, Hsha, !strict_ne_refl, bool_decide_eq_false_2 by done. run. rewrite Hexp.
    unfold mbind at 1, M_bind at 1. rewrite Hro.
    rewrite ingest_call_eq. fold upload_ingest. rewrite Hcl. unfold mbind at 1, M_bind at 1, on_ingest. cbn [api_world].
    rewrite Hing. unfold mbind at 1, M_bind at 1. cbn [api_registry api_scanner]. rewrite Hq. rewrite on_contracts_clean by done.
    unfold run_contracts. fold input. unfold api_contracts at 1, api_scans at 1. cbn [api_scanner scan_store sdb_contracts].
    rewrite Hcomp. reflexivity.
  - cbn. split_and!; try done.
    + pose proof (complete_eq input (api_contracts a) (ct_completed times) (step_time times Ht ct_completed ltac:(set_solver))) as He.
      rewrite Hcomp in He. destruct (upload_row _ _ _ (marked _ _ _)) as [row|] eqn:Hr2; [|done]. apply (f_equal fst) in He.
      unfold contract_getUploadSession, gets.
      cbn [cmp_workspaceId cmp_uploadId cmp_actor input] in Hr2. rewrite Hr2. cbn [fst] in He. assert (∀ (x y : UploadSession), @Ok api_exn _ x = Ok y → x = y) as Hinj by (by intros ? ? [= ->]). apply Hinj in He. cbn [fmap option_fmap option_map]. by rewrite <- He.
    + by rewrite <- Hsha.
    + by exists b, m.
Qed.
End Complete.
End Completion.

Module CommandsWitness.
Import Contracts.ContractWitness.

Definition memory_client (_ : unit) : ObjectStorage MemoryObjectStorage := memory_ObjectStorage.
Definition signer : TransferSigner :=
  TransferGrants.mkSigner (λ key expiresAt _ _, Ok ("https://store/" +:+ key, [])) (λ key expiresAt _, Ok ("https://store/" +:+ key, [])).
Definition adapters (fake : bool) : Adapters unit := mkAdapters (Some (tt, "s3-compatible")) None (Some (600%Z, signer)) fake.

Definition ada : AuthenticatedActor := mkActor "ada" "Ada" (Some principal_user) ["owner"] ["ws-1"].
Definition body : string := "trusted bytes".
Definition announce : CreateUploadCommand := mkCreateCommand "ws-1" "upload-key" "text/plain" 13 (sha256 body) (Some 600%Z).
Definition announced_input : CreateUploadInput :=
  mkCreateUpload "ws-1" "ada" principal_user "upload-key" "text/plain" 13 (sha256 body) 600 (toISOString 600100) (toISOString 100).
Definition contracts : ContractDb := after [CallCreateUpload "o-1" "u-1" announced_input] db2.
Definition api (fs : list fault) : Api MemoryObjectStorage :=
  mkApi (mkWorld (mem_init true) IngestWitness.empty_db fs) empty_registry (mkOrchestrator [] (mkScanDb contracts [])).

(** The command that opens the session. *)
Example upload_announced :
  (createUpload byte_le 100 "o-1" "u-1" ada announce
     (mkApi (mkWorld (mem_init true) IngestWitness.empty_db []) empty_registry (mkOrchestrator [] (mkScanDb db2 [])))).2 = api [].
Proof. vm_compute. reflexivity. Qed.

Definition times (n : string) : CompletionTimes :=
  mkCompletion 200 (mkTimes 200 (toISOString 200) ("op-" +:+ n) ("blob-" +:+ n)) ("job-" +:+ n) 210 220 230 240 250 260 300.
Definition upload_bytes : CompleteUploadCommand := mkCompleteCommand "ws-1" (toBase64 body).
Definition session_1 : UploadSession :=
  mkUploadSession "u-1" "ws-1" "o-1" requested status_pending "text/plain" 13 (sha256 body) (toISOString 600100) (toISOString 100)
    (toISOString 100) None None.

Lemma memory_keys (s : MemoryObjectStorage) k b m : storage_inv s → stored s k b m → sql_blank k = false.
Proof.
  intros Hs (o & Ho & _). destruct (mem_inv_object _ _ _ Hs Ho) as [_ [(w & t & _ & _ & ->)%TEMPORARY_KEY_PATTERN_spec|[w Hk]]].
  - reflexivity.
  - apply canonicalObjectKey_Ok in Hk as (_ & _ & ->). reflexivity.
Qed.

Lemma contracts_reachable : contract_reachable byte_le contracts.
Proof. destruct db2_reachable as (d0 & Hi & Hs). exists d0. split; [exact Hi|]. etrans; [exact Hs|apply after_steps]. Defined.

Definition location : string := MemoryWitness.key.
Definition arriving : IngestInput := upload_ingest (St := unit) "u-1" ada upload_bytes session_1 (None, None, None).

Lemma arriving_served : served "s3-compatible" arriving location (api_world (api [])).
Proof.
  apply served_start.
  - apply mem_inv_init.
  - intros w h b Hb. vm_compute in Hb. discriminate Hb.
  - intros b m (o & Ho & _). vm_compute in Ho. discriminate Ho.
  - reflexivity.
Qed.

Lemma upload_ready fake :
  ready byte_le byte_le memory_ObjectStorage memory_client (adapters fake) (times "1") "u-1" ada upload_bytes tt "s3-compatible" location
    session_1 (None, None, None) (api []).
Proof.
  constructor.
  - reflexivity.
  - reflexivity.
  - eexists. reflexivity.
  - reflexivity.
  - repeat constructor; vm_compute; discriminate.
  - apply contracts_reachable.
  - vm_compute. reflexivity.
  - discriminate.
  - vm_compute. reflexivity.
  - vm_compute. reflexivity.
  - vm_compute. reflexivity.
  - vm_compute. reflexivity.
  - constructor; vm_compute; (reflexivity || discriminate).
  - apply arriving_served.
  - split; vm_compute; reflexivity.
  - intros k b Hb. vm_compute in Hb. discriminate Hb.
  - reflexivity.
  - reflexivity.
  - intros r Hr. vm_compute in Hr. by apply elem_of_nil in Hr.
Qed.

Lemma upload_completes_witness :
  ∃ done_ blob a', completeUpload byte_le memory_client (adapters false) (times "1") "u-1" ada upload_bytes (api []) = (Ok done_, a') ∧
    upload_state done_ = completed ∧ upload_blobId done_ = Some (JString (blob_id blob)) ∧
    upload_completedAt done_ = Some (toISOString 300) ∧
    contract_getUploadSession "ws-1" "u-1" ada (api_contracts a') = (Ok (Some done_), api_contracts a') ∧
    db_blobs (w_db (api_world a')) !! ("ws-1", sha256 body) = Some blob ∧
    (∃ b m, stored (w_storage (api_world a')) (blob_storageKey blob) b m ∧
       (b = fromBase64 (toBase64 body) ∨ sha256_collision b (fromBase64 (toBase64 body))) ∧ byteLength b = blob_byteLength blob) ∧
    sdb_jobs (api_scans a') = [] ++ [scan_left (adapters false) (times "1") "ws-1" "u-1" (blob_storageKey blob)].
Proof.
  apply (upload_completes byte_le byte_le memory_ObjectStorage memory_client (adapters false) (times "1") "u-1" ada upload_bytes tt
    "s3-compatible" location session_1 (None, None, None) (api [])).
  - apply memory_keys.
  - apply upload_ready.
Defined.

(** With the fake scanner the object is promoted; bytes of another length or
    digest, a late attempt and an unknown upload are refused. *)
Example completion_branches :
  job_state <$> sdb_jobs (api_scans (completeUpload byte_le memory_client (adapters true) (times "1") "u-1" ada upload_bytes (api [])).2) = [promoted] ∧
  (completeUpload byte_le memory_client (adapters true) (times "1") "u-1" ada (mkCompleteCommand "ws-1" (toBase64 "trusted byte")) (api [])).1 =
    Err (codedError "COMMAND_REJECTED" "Upload byte length does not match the session expectation.") ∧
  (completeUpload byte_le memory_client (adapters true) (times "1") "u-1" ada (mkCompleteCommand "ws-1" (toBase64 "trusted bytez")) (api [])).1 =
    Err (codedError "COMMAND_REJECTED" "Upload hash does not match the session expectation.") ∧
  (completeUpload byte_le memory_client (adapters true) (mkCompletion 600100 (ct_ingest (times "1")) "job-1" 0 0 0 0 0 0 0) "u-1" ada upload_bytes (api [])).1 =
    Err (codedError "COMMAND_REJECTED" "Upload session has expired.") ∧
  (completeUpload byte_le memory_client (adapters true) (times "1") "u-9" ada upload_bytes (api [])).1 =
    Err (codedError "OPERATION_NOT_FOUND" "Upload session was not found.").
Proof. split_and!; vm_compute; reflexivity. Qed.

(** The process stops after the scan was queued and before the session was
    completed. *)
Definition interrupted : Api MemoryObjectStorage :=
  (completeUpload byte_le memory_client (adapters false) (times "1") "u-1" ada upload_bytes (api (replicate 28 Proceed ++ [Stops]))).2.
Definition retried : Api MemoryObjectStorage :=
  (completeUpload byte_le memory_client (adapters false) (times "2") "u-1" ada (mkCompleteCommand "ws-1" (toBase64 body)) (under [] interrupted)).2.

Lemma interrupted_completion_is_final_witness :
  api_scans retried = api_scans interrupted ∧
  ∀ times actor bytesBase64, fresh_job times retried →
    ∃ e, (completeUpload byte_le memory_client (adapters false) times "u-1" actor (mkCompleteCommand "ws-1" bytesBase64) retried).1 = Err e.
Proof.
  apply (interrupted_completion_is_final byte_le memory_client (adapters false) "ws-1" "u-1" interrupted retried).
  - split.
    + eexists. split; [vm_compute; left|vm_compute; reflexivity].
    + intros u Hu _ _. vm_compute in Hu. apply list_elem_of_singleton in Hu. subst u. discriminate.
  - apply rtc_once. apply retry_complete. intros q Hq. vm_compute in Hq. apply list_elem_of_singleton in Hq. subst q. discriminate.
Defined.

(** The retry got as far as the scan: the object is stored and catalogued, the
    client is told of a conflict. *)
Example retry_conflicts :
  (completeUpload byte_le memory_client (adapters false) (times "2") "u-1" ada upload_bytes (under [] interrupted)).1 = Err scan_conflict ∧
  (contract_getUploadSession "ws-1" "u-1" ada (api_contracts retried)).1 = Ok (Some session_1).
Proof. split; vm_compute; reflexivity. Qed.

Definition stored_api : Api MemoryObjectStorage :=
  (completeUpload byte_le memory_client (adapters false) (times "1") "u-1" ada upload_bytes (api [])).2.
Definition read_blob : CreateDownloadGrantCommand := mkGrantCommand "ws-1" "blob-1" (JInt 60) None "read-key".

(** While the scan of the upload waits for its verdict, the object is given out. *)
Theorem unscanned_object_downloadable :
  (getUploadScanStatus "ws-1" "u-1" ada stored_api).1 = Ok (Some (mkStatus "u-1" "ws-1" scanning None (toISOString 230))) ∧
  ∃ grant, (createDownloadGrant (adapters false) (toISOString 400) 400 0 "grant-1" ada read_blob stored_api).1 = Ok grant ∧
    dg_objectId grant = "blob-1".
Proof. split; [vm_compute; reflexivity|]. eexists. split; [vm_compute; reflexivity|reflexivity]. Qed.

(** The scan of the upload, and one that was rejected. *)
Lemma download_grant_gate_witness :
  is_Ok (createDownloadGrant (adapters false) (toISOString 400) 400 0 "grant-1" ada read_blob stored_api).1 = true ∧
  ∀ scanner, is_Ok (createDownloadGrant (adapters false) (toISOString 400) 400 0 "grant-1" ada read_blob
    (mkApi (api_world stored_api) (api_registry stored_api) scanner)).1 = true.
Proof.
  destruct (download_grant_gate (adapters false) (toISOString 400) 400 0 "grant-1" ada read_blob stored_api) as [_ Hgate].
  assert (is_Ok (createDownloadGrant (adapters false) (toISOString 400) 400 0 "grant-1" ada read_blob stored_api).1 = true) as Hok
    by (vm_compute; reflexivity).
  split; [exact Hok|]. intros scanner.
  destruct (download_grant_gate (adapters false) (toISOString 400) 400 0 "grant-1" ada read_blob
    (mkApi (api_world stored_api) (api_registry stored_api) scanner)) as [_ Hother].
  apply Hother; [reflexivity|vm_compute; reflexivity|]. apply Hgate; [reflexivity|vm_compute; reflexivity|exact Hok].
Defined.

Definition sketches_app : AuthenticatedActor := mkActor "a-1" "Sketches" (Some principal_application) [] ["ws-1"].
Lemma application_never_granted_witness :
  (∃ a, (contract_listApplications byte_le "ws-1" (api_contracts stored_api)).1 = Ok [a] ∧ app_id a = "a-1" ∧ app_capabilities a = ["blob:read"]) ∧
  ∃ e, (createDownloadGrant (adapters false) (toISOString 400) 400 0 "grant-1" sketches_app read_blob stored_api).1 = Err e.
Proof.
  split; [eexists; split; [vm_compute; reflexivity|split; reflexivity]|].
  apply (application_never_granted (adapters false) (toISOString 400) 400 0 "grant-1" sketches_app read_blob stored_api). reflexivity.
Defined.

Definition assign : CreatePolicyAssignmentCommand :=
  mkAssignCommand "ws-1" principal_user "grace" "editor" Policy.scope_workspace "ws-1" "assign-key".
Definition assigned_api : Api MemoryObjectStorage := (createPolicyAssignment 1000 "e-1" ada assign (api [])).2.
Definition assignment : PolicyAssignment :=
  mkPolicyOf (assignment_key ada assign) "ws-1" principal_user "grace" "editor" Policy.scope_workspace "ws-1" "ada" (toISOString 1000) None.
Definition revoked_api : Api MemoryObjectStorage :=
  set_scans (mkScanDb (after [CallRevokePolicy "ws-1" (pol_id assignment) (toISOString 2000)] (api_contracts assigned_api)) []) assigned_api.

Lemma assignment_key_until_revoked_witness :
  ∃ c, contract_getPolicyAssignment "ws-1" (pol_id assignment) (api_contracts revoked_api) = (Ok (Some c), api_contracts revoked_api) ∧
    match pol_revokedAt c with
    | None => c = assignment ∧ createPolicyAssignment 3000 "e-3" ada assign revoked_api =
        (if samePolicyAssignment assignment assign then Ok assignment
         else Err (codedError "IDEMPOTENCY_CONFLICT" "Policy assignment idempotency key was reused with different input."), revoked_api)
    | Some _ => createPolicyAssignment 3000 "e-3" ada assign revoked_api = (Err unique_violation, revoked_api)
    end.
Proof.
  apply (assignment_key_until_revoked byte_le 1000 "e-1" ada assign assignment (api []) assigned_api revoked_api 3000 "e-3" assign).
  - apply contracts_reachable.
  - vm_compute. reflexivity.
  - change (api_contracts revoked_api) with (after [CallRevokePolicy "ws-1" (pol_id assignment) (toISOString 2000)] (api_contracts assigned_api)).
    apply after_steps.
  - vm_compute. reflexivity.
  - split; vm_compute; discriminate.
  - reflexivity.
  - reflexivity.
Defined.

(** The replay of a command whose assignment was revoked. *)
Example revoked_replay : (createPolicyAssignment 3000 "e-3" ada assign revoked_api).1 = Err unique_violation.
Proof. vm_compute. reflexivity. Qed.

(** The process stops between the assignment and its audit event; the replay
    returns the assignment, and the change is never recorded. *)
Theorem assignment_unaudited :
  let a1 := (createPolicyAssignment 1000 "e-1" ada assign (api [Proceed; Proceed; Stops])).2 in
  let replay := createPolicyAssignment 1500 "e-2" ada assign (under [] a1) in
  replay.1 = Ok assignment ∧ c_audit (api_contracts replay.2) = [].
Proof. split; vm_compute; reflexivity. Qed.
End CommandsWitness.
