(* ===== verification/AppRepository.v ===== *)
(** * The tables of application tenants and storage bindings

    [packages/persistence-postgres/src/app-storage-repository.ts] over the tables
    of migration 0015.  A table is kept by its primary key; a method is one
    transaction in the scope of a workspace, and the constraints of the tables
    (checks, foreign keys, unique indexes, row level security) are errors of it.

    Identifiers are uuids in their canonical form.  A [timestamptz] is kept as the
    text [iso] reads back, so that equal instants are equal texts; a [bigint] as
    an integer.  Where a query leaves the order of rows open the model takes the
    order of their insertion. *)
From S2P Require Import Prelude Js Concrete Json Verification AppStorage.

(** ** Rows *)

(** Source: packages/persistence-postgres/src/app-storage-repository.ts:13-30 AppStorageProfileRow *)
Record AppStorageProfileRow := mkProfileRow {
  prow_profile : StorageProfileSummary;
  prow_workspaceId : string;
  prow_externalIdHash : option string;
  prow_createdAt : string;
  prow_updatedAt : string;
}.

(** [AppStorageBindingRow] has the members of [StoredStorageBinding], a row of
    versions those of [BindingVersion]. *)
(** Source: packages/persistence-postgres/src/app-storage-repository.ts:32-51 AppStorageBindingRow *)
Definition AppStorageBindingRow : Type := StoredStorageBinding.

(** The columns of [blob_objects] the repository uses. *)
Record BlobObjectRow := mkBlobObjectRow {
  bor_id : string;
  bor_workspaceId : string;
  bor_storageBindingId : option string;
  bor_storageBindingGeneration : option Z;
}.

Record AppDb := mkAppDb {
  adb_workspaces : list string;
  adb_applications : list string;
  adb_tenants : list (string * ApplicationTenant);
  adb_profiles : list (string * AppStorageProfileRow);
  adb_bindings : list (string * AppStorageBindingRow);
  adb_versions : list BindingVersion;
  adb_blobs : list BlobObjectRow;
}.
Definition adb_set_tenants f (d : AppDb) := mkAppDb (adb_workspaces d) (adb_applications d) (f (adb_tenants d)) (adb_profiles d)
  (adb_bindings d) (adb_versions d) (adb_blobs d).
Definition adb_set_profiles f (d : AppDb) := mkAppDb (adb_workspaces d) (adb_applications d) (adb_tenants d) (f (adb_profiles d))
  (adb_bindings d) (adb_versions d) (adb_blobs d).
Definition adb_set_bindings f (d : AppDb) := mkAppDb (adb_workspaces d) (adb_applications d) (adb_tenants d) (adb_profiles d)
  (f (adb_bindings d)) (adb_versions d) (adb_blobs d).
Definition adb_set_versions f (d : AppDb) := mkAppDb (adb_workspaces d) (adb_applications d) (adb_tenants d) (adb_profiles d)
  (adb_bindings d) (f (adb_versions d)) (adb_blobs d).
Definition adb_set_blobs f (d : AppDb) := mkAppDb (adb_workspaces d) (adb_applications d) (adb_tenants d) (adb_profiles d)
  (adb_bindings d) (adb_versions d) (f (adb_blobs d)).

(** What a call of the registry over PostgreSQL throws: an error of the domain,
    or one of the database. *)
Inductive store_exn :=
  | Domain (e : app_exn)
  | Database (message : string).
#[global] Instance store_exn_eq_dec : EqDecision store_exn. Proof. solve_decision. Defined.
Abbreviation Tx := (M AppDb store_exn).

(** A row the statement needs is missing, or a constraint refuses it. *)
Definition require_row (ok : bool) (constraint : string) : Tx unit := throw_when (negb ok) (Database constraint).

(** [length(btrim(text)) > 0] *)
Definition not_blank (s : string) : bool := existsb (λ c, c !== " "%char) (chars s).
Definition int8 (z : option Z) : bool := from_option (λ z, (-2^63 <=? z) && (z <? 2^63))%Z true z.

Section Repository.
Context `{JsDate}.
(** The order of the database's text collation. *)
Context (collation : string → string → bool).

(** A parameter of type [timestamptz], and [iso] of the column. *)
(** Source: packages/persistence-postgres/src/app-storage-repository.ts:590-592 iso *)
Definition stored_time (value : string) : option string := toISOString <$> Date_parse value.
Definition stored_time_opt (value : option string) : option (option string) :=
  match value with None => Some None | Some v => Some <$> stored_time v end.
Definition param {A} (v : option A) : Tx A :=
  match v with Some a => mret a | None => throw (Database "invalid input syntax for type timestamp with time zone") end.

(** The parameters of a binding, their instants as the column reads back. *)
(** Source: packages/persistence-postgres/src/app-storage-repository.ts:566-589 mapBinding *)
Definition stored_binding (b : StoredStorageBinding) : option AppStorageBindingRow :=
  stored_time_opt (binding_lastProbeAt b) ≫= λ lastProbeAt,
  stored_time_opt (binding_observedAt b) ≫= λ observedAt,
  stored_time (binding_createdAt b) ≫= λ createdAt,
  stored_time (binding_updatedAt b) ≫= λ updatedAt,
  Some (mkBinding (binding_id b) (binding_workspaceId b) (binding_applicationId b) (binding_applicationTenantId b)
    (binding_profileId b) (binding_status b) (binding_generation b) (binding_lastProbeOk b) lastProbeAt
    (binding_lastProbeSummary b) (binding_lastIssueClass b) (binding_planSyncState b) (binding_observedUsageBytes b)
    (binding_observedQuotaBytes b) observedAt (binding_disabled b) createdAt updatedAt).
(** Source: packages/persistence-postgres/src/app-storage-repository.ts:543-565 mapProfile *)
Definition stored_profile (p : AppStorageProfileRow) : option AppStorageProfileRow :=
  stored_time (prow_createdAt p) ≫= λ createdAt,
  stored_time (prow_updatedAt p) ≫= λ updatedAt,
  Some (mkProfileRow (prow_profile p) (prow_workspaceId p) (prow_externalIdHash p) createdAt updatedAt).
(** Source: packages/persistence-postgres/src/app-storage-repository.ts:531-542 mapTenant *)
Definition stored_tenant (t : ApplicationTenant) : option ApplicationTenant :=
  stored_time (tenant_createdAt t) ≫= λ createdAt,
  stored_time (tenant_updatedAt t) ≫= λ updatedAt,
  Some (mkTenant (tenant_id t) (tenant_workspaceId t) (tenant_applicationId t) (tenant_externalTenantKey t)
    (tenant_displayName t) (tenant_status t) createdAt updatedAt).

(** ** Tenants *)

Definition tenants_of (workspaceId : string) (d : AppDb) : list ApplicationTenant :=
  List.filter (λ t, tenant_workspaceId t === workspaceId) (adb_tenants d).*2.
(** [ORDER BY application_id,external_tenant_key] *)
Definition tenant_before (a b : ApplicationTenant) : bool :=
  if tenant_applicationId a === tenant_applicationId b
  then collation (tenant_externalTenantKey a) (tenant_externalTenantKey b)
  else String.leb (tenant_applicationId a) (tenant_applicationId b).

(** Source: packages/persistence-postgres/src/app-storage-repository.ts:56-67 listTenants *)
Definition repo_listTenants (workspaceId applicationId : string) : Tx (list ApplicationTenant) :=
  gets (λ d, order_by tenant_before (List.filter (λ t, tenant_applicationId t === applicationId) (tenants_of workspaceId d))).
(** Source: packages/persistence-postgres/src/app-storage-repository.ts:69-77 listAllTenants *)
Definition repo_listAllTenants (workspaceId : string) : Tx (list ApplicationTenant) :=
  gets (λ d, order_by tenant_before (tenants_of workspaceId d)).

(** Source: packages/persistence-postgres/src/app-storage-repository.ts:79-111 createTenant *)
Definition repo_createTenant (input : ApplicationTenant) : Tx ApplicationTenant :=
  gets (λ d, List.find (λ t, (tenant_applicationId t === tenant_applicationId input) &&
      (tenant_externalTenantKey t === tenant_externalTenantKey input)) (tenants_of (tenant_workspaceId input) d)) ≫= λ existing,
  match existing with
  | Some t => mret t
  | None =>
      param (stored_tenant input) ≫= λ row,
      gets id ≫= λ d,
      require_row (not_blank (tenant_externalTenantKey row) && not_blank (tenant_displayName row)) "check constraint" ≫= λ _,
      require_row (bool_decide (tenant_workspaceId row ∈ adb_workspaces d)) "foreign key workspace_id" ≫= λ _,
      require_row (bool_decide (tenant_applicationId row ∈ adb_applications d)) "foreign key application_id" ≫= λ _,
      require_row (is_null (map_get (tenant_id row) (adb_tenants d))) "application_tenants_pkey" ≫= λ _,
      modify (adb_set_tenants (map_set (tenant_id row) row)) ≫= λ _, mret row
  end.

Definition tenant_at (workspaceId applicationId : string) (t : ApplicationTenant) : bool :=
  (tenant_workspaceId t === workspaceId) && (tenant_applicationId t === applicationId).
(** Source: packages/persistence-postgres/src/app-storage-repository.ts:113-125 getTenant *)
Definition repo_getTenant (workspaceId applicationId tenantId : string) : Tx (option ApplicationTenant) :=
  gets (λ d, match map_get tenantId (adb_tenants d) with
             | Some t => if tenant_at workspaceId applicationId t then Some t else None
             | None => None
             end).

(** Both members that may be absent are given by the only caller. *)
(** Source: packages/persistence-postgres/src/app-storage-repository.ts:127-161 updateTenant *)
Definition repo_updateTenant (workspaceId applicationId tenantId displayName : string) (status : TenantStatus)
    (expectedUpdatedAt updatedAt : string) : Tx ApplicationTenant :=
  param (stored_time expectedUpdatedAt) ≫= λ expected,
  param (stored_time updatedAt) ≫= λ at_,
  repo_getTenant workspaceId applicationId tenantId ≫= λ found,
  match found with
  | Some t =>
      throw_when (tenant_updatedAt t !== expected) (Domain (AppCoded "CONFLICT" "Application tenant update conflict.")) ≫= λ _,
      require_row (not_blank displayName) "check constraint" ≫= λ _,
      let row := mkTenant (tenant_id t) (tenant_workspaceId t) (tenant_applicationId t) (tenant_externalTenantKey t)
                   displayName status (tenant_createdAt t) at_ in
      modify (adb_set_tenants (map_set tenantId row)) ≫= λ _, mret row
  | None => throw (Domain (AppCoded "CONFLICT" "Application tenant update conflict."))
  end.

(** ** Profiles and bindings *)

(** Source: packages/persistence-postgres/src/app-storage-repository.ts:163-171 listProfiles *)
Definition repo_listProfiles (workspaceId : string) : Tx (list AppStorageProfileRow) :=
  gets (λ d, List.filter (λ p, prow_workspaceId p === workspaceId) (adb_profiles d).*2).

Definition created_before (a b : StoredStorageBinding) : bool :=
  date_le (Date_parse (binding_createdAt a)) (Date_parse (binding_createdAt b)).
(** The application and the tenant to look for; [Some None] is the binding of no
    tenant. *)
(** Source: packages/persistence-postgres/src/app-storage-repository.ts:173-198 listBindings *)
Definition repo_listBindings (workspaceId : string) (applicationId : option string) (applicationTenantId : option (option string)) :
    Tx (list AppStorageBindingRow) :=
  gets (λ d, order_by created_before (List.filter (λ b, (binding_workspaceId b === workspaceId) &&
    from_option (λ a, binding_applicationId b === a) true applicationId &&
    from_option (λ t, binding_applicationTenantId b === t) true applicationTenantId) (adb_bindings d).*2)).

(** Source: packages/persistence-postgres/src/app-storage-repository.ts:200-211 getBinding *)
Definition repo_getBinding (workspaceId bindingId : string) : Tx (option AppStorageBindingRow) :=
  gets (λ d, match map_get bindingId (adb_bindings d) with
             | Some b => if binding_workspaceId b === workspaceId then Some b else None
             | None => None
             end).

(** [INSERT ... ON CONFLICT (id) DO UPDATE] of a profile: its workspace and its
    creation stay, its hash is kept when none is given. *)
(** Source: packages/persistence-postgres/src/app-storage-repository.ts:213-263 upsertProfileAndBinding *)
Definition upsert_profile (scope : string) (input : AppStorageProfileRow) : Tx unit :=
  param (stored_profile input) ≫= λ row,
  gets id ≫= λ d,
  let key := profile_id (prow_profile row) in
  require_row (int8 (profile_declaredCapacityBytes (prow_profile row))) "bigint out of range" ≫= λ _,
  require_row (prow_workspaceId row === scope) "row-level security" ≫= λ _,
  match map_get key (adb_profiles d) with
  | Some old =>
      require_row (prow_workspaceId old === scope) "row-level security" ≫= λ _,
      modify (adb_set_profiles (map_set key (mkProfileRow (prow_profile row) (prow_workspaceId old)
        (or_null (prow_externalIdHash row) (prow_externalIdHash old)) (prow_createdAt old) (prow_updatedAt row))))
  | None =>
      require_row (bool_decide (prow_workspaceId row ∈ adb_workspaces d)) "foreign key workspace_id" ≫= λ _,
      modify (adb_set_profiles (map_set key row))
  end.

(** The columns an update of a binding writes. *)
Definition rewritten (old row : AppStorageBindingRow) (profileId : string) : AppStorageBindingRow :=
  mkBinding (binding_id old) (binding_workspaceId old) (binding_applicationId old) (binding_applicationTenantId old) profileId
    (binding_status row) (binding_generation row) (binding_lastProbeOk row) (binding_lastProbeAt row)
    (binding_lastProbeSummary row) (binding_lastIssueClass row) (binding_planSyncState row) (binding_observedUsageBytes row)
    (binding_observedQuotaBytes row) (binding_observedAt row) (binding_disabled row) (binding_createdAt old)
    (binding_updatedAt row).
Definition binding_values (row : AppStorageBindingRow) : bool :=
  int8 (Some (binding_generation row)) && int8 (binding_observedUsageBytes row) && int8 (binding_observedQuotaBytes row).

(** The two unique indexes: one binding per application and tenant, and one per
    application for no tenant. *)
Definition scope_free (row : AppStorageBindingRow) (d : AppDb) : bool :=
  negb (existsb (in_scope (binding_workspaceId row) (binding_applicationId row) (binding_applicationTenantId row)) (adb_bindings d).*2).

(** [INSERT ... ON CONFLICT (id) DO UPDATE] of a binding. *)
(** Source: packages/persistence-postgres/src/app-storage-repository.ts:264-304 upsertProfileAndBinding *)
Definition upsert_binding (scope : string) (input : StoredStorageBinding) : Tx unit :=
  param (stored_binding input) ≫= λ row,
  gets id ≫= λ d,
  let key := binding_id row in
  require_row (binding_values row) "bigint out of range" ≫= λ _,
  require_row (binding_workspaceId row === scope) "row-level security" ≫= λ _,
  require_row (bool_decide (is_Some (map_get (binding_profileId row) (adb_profiles d)))) "foreign key profile_id" ≫= λ _,
  match map_get key (adb_bindings d) with
  | Some old =>
      require_row (binding_workspaceId old === scope) "row-level security" ≫= λ _,
      modify (adb_set_bindings (map_set key (rewritten old row (binding_profileId row))))
  | None =>
      require_row (bool_decide (binding_workspaceId row ∈ adb_workspaces d)) "foreign key workspace_id" ≫= λ _,
      require_row (bool_decide (binding_applicationId row ∈ adb_applications d)) "foreign key application_id" ≫= λ _,
      require_row (from_option (λ t, bool_decide (is_Some (map_get t (adb_tenants d)))) true (binding_applicationTenantId row))
        "foreign key application_tenant_id" ≫= λ _,
      require_row (scope_free row d) "storage_bindings unique index" ≫= λ _,
      modify (adb_set_bindings (map_set key row))
  end.

(** The version to record: its identifier, snapshot, author and time. *)
(** Source: packages/persistence-postgres/src/app-storage-repository.ts:305-320 upsertProfileAndBinding *)
Definition insert_binding_version (workspaceId : string) (binding : StoredStorageBinding)
    (version : string * StorageBindingSummary * string * string) : Tx unit :=
  let '(id, snapshot, createdBy, createdAt) := version in
  param (stored_time createdAt) ≫= λ at_,
  gets (λ d, existsb (λ v, version_id v === id) (adb_versions d)) ≫= λ taken : bool,
  require_row (negb taken) "storage_binding_versions_pkey" ≫= λ _,
  modify (adb_set_versions (λ l, l ++ [mkVersion id workspaceId (binding_id binding) (binding_generation binding) snapshot createdBy at_])).

(** Source: packages/persistence-postgres/src/app-storage-repository.ts:213-322 upsertProfileAndBinding *)
Definition repo_upsertProfileAndBinding (workspaceId : string) (profile : AppStorageProfileRow) (binding : StoredStorageBinding)
    (version : option (string * StorageBindingSummary * string * string)) : Tx unit :=
  upsert_profile workspaceId profile ≫= λ _,
  upsert_binding workspaceId binding ≫= λ _,
  match version with
  | Some v => insert_binding_version workspaceId binding v
  | None => mret tt
  end.

(** Source: packages/persistence-postgres/src/app-storage-repository.ts:324-350 updateBindingState *)
Definition repo_updateBindingState (binding : StoredStorageBinding) : Tx unit :=
  param (stored_binding binding) ≫= λ row,
  require_row (binding_values row) "bigint out of range" ≫= λ _,
  repo_getBinding (binding_workspaceId row) (binding_id row) ≫= λ found,
  match found with
  | Some old => modify (adb_set_bindings (map_set (binding_id row) (rewritten old row (binding_profileId old))))
  | None => mret tt
  end.

(** Source: packages/persistence-postgres/src/app-storage-repository.ts:352-372 updateProfilePlan *)
Definition repo_updateProfilePlan (workspaceId profileId : string) (declaredCapacityBytes : option Z)
    (declaredPlanCode : option string) (updatedAt : string) : Tx unit :=
  param (stored_time updatedAt) ≫= λ at_,
  require_row (int8 declaredCapacityBytes) "bigint out of range" ≫= λ _,
  gets (λ d, map_get profileId (adb_profiles d)) ≫= λ found,
  match found with
  | Some p =>
      if prow_workspaceId p === workspaceId
      then modify (adb_set_profiles (map_set profileId (mkProfileRow
             (set_declared declaredCapacityBytes declaredPlanCode (prow_profile p)) (prow_workspaceId p) (prow_externalIdHash p)
             (prow_createdAt p) at_)))
      else mret tt
  | None => mret tt
  end.

(** The profile goes with its last binding; row level security lets the query see
    the bindings of the workspace. *)
(** Source: packages/persistence-postgres/src/app-storage-repository.ts:374-393 deleteBinding *)
Definition repo_deleteBinding (workspaceId bindingId : string) : Tx unit :=
  modify (adb_set_versions (List.filter (λ v, negb ((version_workspaceId v === workspaceId) && (version_bindingId v === bindingId))))) ≫= λ _,
  repo_getBinding workspaceId bindingId ≫= λ found,
  match found with
  | None => mret tt
  | Some b =>
      gets (λ d, existsb (λ v, version_bindingId v === bindingId) (adb_versions d)) ≫= λ referenced : bool,
      require_row (negb referenced) "foreign key binding_id" ≫= λ _,
      modify (adb_set_bindings (map_delete bindingId)) ≫= λ _,
      gets id ≫= λ d,
      let profileId := binding_profileId b in
      let used := existsb (λ x, (binding_workspaceId x === workspaceId) && (binding_profileId x === profileId)) (adb_bindings d).*2 in
      match map_get profileId (adb_profiles d) with
      | Some p =>
          if (profileId !== EmptyString) && (prow_workspaceId p === workspaceId) && negb used
          then require_row (negb (existsb (λ x, binding_profileId x === profileId) (adb_bindings d).*2)) "foreign key profile_id" ≫= λ _,
               modify (adb_set_profiles (map_delete profileId))
          else mret tt
      | None => mret tt
      end
  end.

(** ** Sticky routes of blobs, versions *)

(** Source: packages/persistence-postgres/src/app-storage-repository.ts:395-404 countStickyBlobs *)
Definition repo_countStickyBlobs (workspaceId bindingId : string) : Tx Z :=
  gets (λ d, Z.of_nat (length (List.filter (λ b, (bor_workspaceId b === workspaceId) &&
    (bor_storageBindingId b === Some bindingId)) (adb_blobs d)))).

(** Source: packages/persistence-postgres/src/app-storage-repository.ts:406-427 updateStickyBindings *)
Definition repo_updateStickyBindings (workspaceId targetBindingId : string) (targetGeneration : Z) (objectIds : list string) : Tx Z :=
  let hit b := (bor_workspaceId b === workspaceId) && bool_decide (bor_id b ∈ objectIds) in
  gets (λ d, Z.of_nat (length (List.filter hit (adb_blobs d)))) ≫= λ n,
  modify (adb_set_blobs (map (λ b, if hit b
    then mkBlobObjectRow (bor_id b) (bor_workspaceId b) (Some targetBindingId) (Some targetGeneration) else b))) ≫= λ _,
  mret n.

(** Source: packages/persistence-postgres/src/app-storage-repository.ts:429-449 listBindingVersions *)
Definition repo_listBindingVersions (workspaceId bindingId : string) : Tx (list BindingVersion) :=
  gets (λ d, order_by (λ a b, Z.leb (version_generation b) (version_generation a))
    (List.filter (λ v, (version_workspaceId v === workspaceId) && (version_bindingId v === bindingId)) (adb_versions d))).
End Repository.
