(* ===== verification/AppCommands.v ===== *)
(** * Commands on tenants and storage bindings

    [apps/trust-api/src/app-storage-commands.ts] over the interface
    [AppStorageRegistry] of [app-storage-bindings.ts], and its two
    implementations: the registry in memory of [AppStorage], and
    [postgres-app-storage-registry.ts], which keeps a copy in memory of what
    [AppRepository] stores, reads a workspace into it before a command
    ([ensureHydrated]) and writes the objects a command changed after it.

    The world of the second has the registry of one process, the database and
    the faults the next transactions meet; a process that starts anew begins
    with an empty registry.  The commands of a process are taken one after the
    other. *)
From S2P Require Import Prelude Js Concrete Json Verification Access AppStorage AppRepository.

(** ** The interface of the commands *)

(** The methods that act on the domain are those of the registry in memory
    ([on_memory]); the methods that persist are absent of a registry that keeps
    nothing.  [persistBinding] takes the identifier [randomUUID] gives it. *)
(** Source: apps/trust-api/src/app-storage-bindings.ts:100-217 AppStorageRegistry *)
Class AppStorageRegistry (W : Type) := mkAppStorageRegistry {
  on_memory : ∀ {A}, Reg A → M W store_exn A;
  registry_upsertBinding : CallEnv → UpsertStorageBindingCommand → string → M W store_exn (StorageBindingSummary * option string * string);
  ensureHydrated : string → M W store_exn unit;
  persistBinding : string → string → option string → bool → M W store_exn unit;
  persistTenant : ApplicationTenant → option string → M W store_exn unit;
  persistBindingState : string → M W store_exn unit;
  persistPlan : string → M W store_exn unit;
  deletePersistedBinding : string → string → M W store_exn unit;
  countStickyBlobs : option (string → string → M W store_exn Z);
  persistStickyCutover : string → string → Z → list string → M W store_exn unit;
}.

Definition as_domain {E A} (r : result app_exn A * E) : result store_exn A * E :=
  match r with (Ok a, s) => (Ok a, s) | (Err e, s) => (Err (Domain e), s) end.

#[export] Instance memory_registry : AppStorageRegistry InMemoryAppStorageRegistry := {
  on_memory A m := λ r, as_domain (m r);
  registry_upsertBinding env command actorId := λ r, as_domain (upsertBinding env command actorId r);
  ensureHydrated _ := mret tt;
  persistBinding _ _ _ _ := mret tt;
  persistTenant _ _ := mret tt;
  persistBindingState _ := mret tt;
  persistPlan _ := mret tt;
  deletePersistedBinding _ _ := mret tt;
  countStickyBlobs := None;
  persistStickyCutover _ _ _ _ := mret tt;
}.

(** ** PostgresAppStorageRegistry *)

(** Source: apps/trust-api/src/postgres-app-storage-registry.ts:26-36 PostgresAppStorageRegistry *)
Record PostgresAppStorageRegistry := mkPostgresRegistry {
  memory : InMemoryAppStorageRegistry;
  plaintextExternalIds : list (string * string);
  hydratedWorkspaces : list string;
}.
Record World := mkWorld {
  w_registry : PostgresAppStorageRegistry;
  w_db : AppDb;
  w_faults : list bool;
}.
Abbreviation P := (M World store_exn).
Definition w_memory (w : World) : InMemoryAppStorageRegistry := memory (w_registry w).
Definition set_memory (m : InMemoryAppStorageRegistry) (w : World) : World :=
  mkWorld (mkPostgresRegistry m (plaintextExternalIds (w_registry w)) (hydratedWorkspaces (w_registry w))) (w_db w) (w_faults w).
Definition set_hydrated f (w : World) : World :=
  mkWorld (mkPostgresRegistry (w_memory w) (plaintextExternalIds (w_registry w)) (f (hydratedWorkspaces (w_registry w)))) (w_db w) (w_faults w).
Definition set_plaintext f (w : World) : World :=
  mkWorld (mkPostgresRegistry (w_memory w) (f (plaintextExternalIds (w_registry w))) (hydratedWorkspaces (w_registry w))) (w_db w) (w_faults w).

(** The registry of a process that starts. *)
Definition new_registry : PostgresAppStorageRegistry := mkPostgresRegistry empty_registry [] [].

(** A transaction, unless the connection fails. *)
(** Source: packages/persistence-postgres/src/app-storage-repository.ts:451-461 scoped *)
Definition scoped {A} (work : Tx A) : P A := λ w,
  match w_faults w with
  | true :: faults => (Err (Database "Connection terminated unexpectedly"), mkWorld (w_registry w) (w_db w) faults)
  | _ =>
      let faults := tail (w_faults w) in
      match work (w_db w) with
      | (Ok a, d) => (Ok a, mkWorld (w_registry w) d faults)
      | (Err e, _) => (Err e, mkWorld (w_registry w) (w_db w) faults)
      end
  end.

Definition in_memory {A} (m : Reg A) : P A := λ w,
  let '(x, r) := m (w_memory w) in as_domain (x, set_memory r w).
Definition stale (workspaceId : string) : P unit := modify (set_hydrated (List.filter (λ w, w !== workspaceId))).

Section Postgres.
Context `{JsDate} `{Crypto}.
Context (collation : string → string → bool).

(** A profile read back: the external id itself is not stored. *)
Definition hydrated_profile (p : AppStorageProfileRow) : StoredStorageProfile :=
  mkProfile (prow_profile p) (prow_workspaceId p) None true (prow_createdAt p) (prow_updatedAt p).

(** Source: apps/trust-api/src/postgres-app-storage-registry.ts:66-83 ensureHydrated *)
Definition hydrate_binding (workspaceId : string) (b : AppStorageBindingRow) : P unit :=
  in_memory (put_binding (binding_id b) b) ≫= λ _,
  scoped (repo_listBindingVersions workspaceId (binding_id b)) ≫= λ versions,
  for_each (λ v, in_memory (modify (add_version (mkVersion (version_id v) workspaceId (binding_id b) (version_generation v)
    (version_snapshot v) (version_createdBy v) (version_createdAt v))))) versions.
(** Source: apps/trust-api/src/postgres-app-storage-registry.ts:38-85 ensureHydrated *)
Definition pg_ensureHydrated (workspaceId : string) : P unit :=
  gets (λ w, bool_decide (workspaceId ∈ hydratedWorkspaces (w_registry w))) ≫= λ hydrated : bool,
  if hydrated then mret tt
  else
    scoped (repo_listAllTenants collation workspaceId) ≫= λ tenants,
    scoped (repo_listProfiles workspaceId) ≫= λ profiles,
    scoped (repo_listBindings workspaceId None None) ≫= λ bindings,
    for_each (λ t, in_memory (put_tenant (tenant_id t) t)) tenants ≫= λ _,
    for_each (λ p, in_memory (put_profile (profile_id (prow_profile p)) (hydrated_profile p))) profiles ≫= λ _,
    for_each (hydrate_binding workspaceId) bindings ≫= λ _,
    modify (set_hydrated (λ l, l ++ [workspaceId])).

(** Source: apps/trust-api/src/app-storage-bindings.ts:229-231 hashExternalId *)
Definition hashExternalId (externalId : string) : string := sha256 externalId.

(** Source: apps/trust-api/src/postgres-app-storage-registry.ts:87-131 persistBinding *)
Definition pg_persistBinding (versionId bindingId : string) (actorId : option string) (withVersion : bool) : P unit :=
  gets (λ w, map_get bindingId (bindings (w_memory w))) ≫= λ binding,
  match binding with
  | None => mret tt
  | Some b =>
      gets (λ w, map_get (binding_profileId b) (profiles (w_memory w))) ≫= λ profile,
      match profile with
      | None => mret tt
      | Some p =>
          gets (λ w, or_null (map_get (profile_id (profile_summary p)) (plaintextExternalIds (w_registry w)))
                       (profile_externalId p)) ≫= λ plaintext,
          (if withVersion && truthy actorId
           then in_memory (toSummary b) ≫= λ s,
                mret (Some (versionId, s, default "" actorId, binding_updatedAt b))
           else mret None) ≫= λ version,
          scoped (repo_upsertProfileAndBinding (binding_workspaceId b)
            (mkProfileRow (profile_summary p) (profile_workspaceId p)
               (if truthy plaintext then hashExternalId <$> plaintext else None) (profile_createdAt p) (profile_updatedAt p))
            b version) ≫= λ _,
          stale (binding_workspaceId b)
      end
  end.

(** Source: apps/trust-api/src/postgres-app-storage-registry.ts:133-158 persistTenant *)
Definition pg_persistTenant (tenant : ApplicationTenant) (expectedUpdatedAt : option string) : P unit :=
  scoped (repo_getTenant (tenant_workspaceId tenant) (tenant_applicationId tenant) (tenant_id tenant)) ≫= λ existing,
  match existing with
  | None => scoped (repo_createTenant tenant) ≫= λ _, stale (tenant_workspaceId tenant)
  | Some existing =>
      scoped (repo_updateTenant (tenant_workspaceId tenant) (tenant_applicationId tenant) (tenant_id tenant)
        (tenant_displayName tenant) (tenant_status tenant) (default (tenant_updatedAt existing) expectedUpdatedAt)
        (tenant_updatedAt tenant)) ≫= λ _,
      stale (tenant_workspaceId tenant)
  end.

(** Source: apps/trust-api/src/postgres-app-storage-registry.ts:160-166 deletePersistedBinding *)
Definition pg_deletePersistedBinding (workspaceId bindingId : string) : P unit :=
  scoped (repo_deleteBinding workspaceId bindingId) ≫= λ _, stale workspaceId.

(** Source: apps/trust-api/src/postgres-app-storage-registry.ts:168-173 countStickyBlobs *)
Definition pg_countStickyBlobs (workspaceId bindingId : string) : P Z := scoped (repo_countStickyBlobs workspaceId bindingId).

(** Without objects no transaction is begun. *)
(** Source: apps/trust-api/src/postgres-app-storage-registry.ts:175-183 persistStickyCutover *)
Definition pg_persistStickyCutover (workspaceId targetBindingId : string) (targetGeneration : Z) (objectIds : list string) : P unit :=
  match objectIds with
  | [] => mret 0%Z
  | _ => scoped (repo_updateStickyBindings workspaceId targetBindingId targetGeneration objectIds)
  end ≫= λ _, stale workspaceId.

(** Source: apps/trust-api/src/postgres-app-storage-registry.ts:185-191 persistBindingState *)
Definition pg_persistBindingState (bindingId : string) : P unit :=
  gets (λ w, map_get bindingId (bindings (w_memory w))) ≫= λ binding,
  match binding with
  | Some b => scoped (repo_updateBindingState b) ≫= λ _, stale (binding_workspaceId b)
  | None => mret tt
  end.

(** Source: apps/trust-api/src/postgres-app-storage-registry.ts:193-208 persistPlan *)
Definition pg_persistPlan (bindingId : string) : P unit :=
  gets (λ w, map_get bindingId (bindings (w_memory w))) ≫= λ binding,
  match binding with
  | None => mret tt
  | Some b =>
      gets (λ w, map_get (binding_profileId b) (profiles (w_memory w))) ≫= λ profile,
      match profile with
      | None => mret tt
      | Some p =>
          scoped (repo_updateProfilePlan (binding_workspaceId b) (profile_id (profile_summary p))
            (profile_declaredCapacityBytes (profile_summary p)) (profile_declaredPlanCode (profile_summary p)) (profile_updatedAt p)) ≫= λ _,
          scoped (repo_updateBindingState b) ≫= λ _,
          stale (binding_workspaceId b)
      end
  end.

(** Source: apps/trust-api/src/postgres-app-storage-registry.ts:259-270 upsertBinding *)
Definition pg_upsertBinding (env : CallEnv) (command : UpsertStorageBindingCommand) (actorId : string) :
    P (StorageBindingSummary * option string * string) :=
  in_memory (upsertBinding env command actorId) ≫= λ created,
  let '(binding, externalId, template) := created in
  (if truthy externalId
   then
     let key := profile_id (summary_profile binding) in
     modify (set_plaintext (map_set key (default "" externalId))) ≫= λ _,
     gets (λ w, map_get key (profiles (w_memory w))) ≫= λ profile,
     match profile with
     | Some p => in_memory (put_profile key (mkProfile (profile_summary p) (profile_workspaceId p) externalId
                   (profile_externalIdRevealed p) (profile_createdAt p) (profile_updatedAt p)))
     | None => mret tt
     end
   else mret tt) ≫= λ _,
  mret created.

(** The other methods delegate to the registry in memory. *)
(** Source: apps/trust-api/src/postgres-app-storage-registry.ts:210-368 PostgresAppStorageRegistry *)
#[export] Instance postgres_registry : AppStorageRegistry World := {
  on_memory A m := in_memory m;
  registry_upsertBinding := pg_upsertBinding;
  ensureHydrated := pg_ensureHydrated;
  persistBinding := pg_persistBinding;
  persistTenant := pg_persistTenant;
  persistBindingState := pg_persistBindingState;
  persistPlan := pg_persistPlan;
  deletePersistedBinding := pg_deletePersistedBinding;
  countStickyBlobs := Some pg_countStickyBlobs;
  persistStickyCutover := pg_persistStickyCutover;
}.
End Postgres.

(** ** Payloads as JSON *)

Definition jopt {A} (f : A → json) (v : option A) : json := from_option f JNull v.
Definition provider_name (p : StorageProviderName) : string := match p with minio => "minio" | s3 => "s3" end.
Definition tier_name (t : StorageBindingTier) : string := match t with managed => "managed" | byob => "byob" | premium => "premium" end.
Definition mode_name (m : StorageBindingCredentialMode) : string :=
  match m with
  | platform_iam => "platform_iam" | cross_account_role => "cross_account_role" | static_keys_ref => "static_keys_ref"
  | missing => "missing"
  end.
Definition plan_name (p : StoragePlanSyncState) : string :=
  match p with
  | synced => "synced" | drift_detected => "drift_detected" | upgrade_recognised => "upgrade_recognised"
  | unknown => "unknown" | over_capacity => "over_capacity"
  end.
Definition posture_name (c : StorageCostPosture) : string :=
  match c with customer_billed_byob => "customer_billed_byob" | platform_managed => "platform_managed" | cost_unknown => "unknown" end.
Definition scope_name (s : StorageScope) : string :=
  match s with scope_platform => "platform" | scope_app => "app" | scope_tenant => "tenant" end.
Definition inherited_name (i : StorageInheritedFrom) : string :=
  match i with from_platform => "platform" | from_app => "app" | from_none => "none" end.

(** Source: apps/trust-api/src/app-storage-bindings.ts:1217-1230 toSummary *)
Definition profile_json (p : StorageProfileSummary) : json := JObject [
  ("id", JString (profile_id p)); ("provider", JString (provider_name (profile_provider p))); ("region", JString (profile_region p));
  ("bucket", JString (profile_bucket p)); ("prefix", JString (profile_prefix p)); ("tier", JString (tier_name (profile_tier p)));
  ("credentialMode", JString (mode_name (profile_credentialMode p)));
  ("expectedBucketOwner", jopt JString (profile_expectedBucketOwner p)); ("endpointHost", jopt JString (profile_endpointHost p));
  ("roleArn", jopt JString (profile_roleArn p)); ("declaredPlanCode", jopt JString (profile_declaredPlanCode p));
  ("declaredCapacityBytes", jopt JNumber (profile_declaredCapacityBytes p))].
(** Source: apps/trust-api/src/app-storage-bindings.ts:1231-1252 toSummary *)
Definition summary_json (s : StorageBindingSummary) : json := JObject [
  ("id", JString (summary_id s)); ("workspaceId", JString (summary_workspaceId s)); ("applicationId", JString (summary_applicationId s));
  ("applicationTenantId", jopt JString (summary_applicationTenantId s)); ("profile", profile_json (summary_profile s));
  ("status", JString (status_name (summary_status s))); ("generation", JNumber (summary_generation s));
  ("lastProbeOk", jopt JBool (summary_lastProbeOk s)); ("lastProbeAt", jopt JString (summary_lastProbeAt s));
  ("lastProbeSummary", jopt JString (summary_lastProbeSummary s)); ("lastIssueClass", jopt JString (summary_lastIssueClass s));
  ("planSyncState", JString (plan_name (summary_planSyncState s)));
  ("observedUsageBytes", jopt JNumber (summary_observedUsageBytes s));
  ("observedQuotaBytes", jopt JNumber (summary_observedQuotaBytes s)); ("observedAt", jopt JString (summary_observedAt s));
  ("disabled", JBool (summary_disabled s)); ("costPosture", JString (posture_name (summary_costPosture s)));
  ("createdAt", JString (summary_createdAt s)); ("updatedAt", JString (summary_updatedAt s))].
(** Source: apps/trust-api/src/app-storage-bindings.ts:1136-1156 effectiveSummary *)
Definition effective_json (e : EffectiveStorageSummary) : json :=
  let of_profile {A} (f : A → json) (g : StorageProfileSummary → A) := jopt f (g <$> effective_profile e) in
  JObject [
    ("scope", JString (scope_name (effective_scope e)));
    ("status", JString (from_option status_name "not_configured" (effective_status e)));
    ("inheritedFrom", JString (inherited_name (effective_inheritedFrom e))); ("binding", jopt summary_json (effective_binding e));
    ("provider", of_profile (λ p, JString (provider_name p)) profile_provider);
    ("tier", of_profile (λ t, JString (tier_name t)) profile_tier); ("region", of_profile JString profile_region);
    ("bucket", of_profile JString profile_bucket); ("prefix", of_profile JString profile_prefix);
    ("credentialMode", of_profile (λ m, JString (mode_name m)) profile_credentialMode);
    ("usage", JObject [("cataloguedObjects", JNumber (effective_cataloguedObjects e));
                       ("failedVerificationObjects", JNumber (effective_failedVerificationObjects e))]);
    ("costPosture", JString (posture_name (effective_costPosture e)));
    ("planSyncState", JString (plan_name (effective_planSyncState e)));
    ("declaredCapacityBytes", jopt JNumber (effective_profile e ≫= profile_declaredCapacityBytes));
    ("observedUsageBytes", jopt JNumber (effective_observedUsageBytes e));
    ("observedQuotaBytes", jopt JNumber (effective_observedQuotaBytes e))].
(** Source: apps/trust-api/src/app-storage-bindings.ts:1190-1212 rollup *)
Definition rollup_json (r : StorageBindingRollup) : json :=
  let issue i := JObject [("applicationTenantId", jopt JString (issue_applicationTenantId i));
    ("externalTenantKey", jopt JString (issue_externalTenantKey i)); ("issueClass", jopt JString (issue_issueClass i));
    ("summary", JString (issue_summary i))] in
  let app a := JObject [("applicationId", JString (rollup_applicationId a)); ("applicationName", JString (rollup_applicationName a));
    ("connected", JNumber (rollup_connected a)); ("attention", JNumber (rollup_attention a)); ("configured", JNumber (rollup_configured a));
    ("notSetUp", JNumber (rollup_notSetUp a)); ("topIssues", JArray (map issue (rollup_topIssues a)))] in
  JObject [("platformStatus", JString (rollup_platformStatus r)); ("platformSummary", JString (rollup_platformSummary r));
    ("applications", JArray (map app (rollup_applications r))); ("attentionTotal", JNumber (rollup_attentionTotal r))].

(** ** The commands *)

(** Source: packages/protocol/src/index.ts:268-274 CreateApplicationTenantCommand *)
Record CreateApplicationTenantCommand := mkCreateTenant {
  ct_workspaceId : string; ct_applicationId : string; ct_externalTenantKey : string; ct_displayName : string;
}.
(** Source: packages/protocol/src/index.ts:276-282 UpdateApplicationTenantCommand *)
Record UpdateApplicationTenantCommand := mkUpdateTenant {
  ut_workspaceId : string; ut_applicationId : string; ut_displayName : string; ut_expectedUpdatedAt : string;
}.
(** Source: packages/protocol/src/index.ts:284-297 SuspendApplicationTenantCommand *)
Record TenantStatusCommand := mkTenantStatus {
  ts_workspaceId : string; ts_applicationId : string; ts_expectedUpdatedAt : string;
}.
(** Source: packages/protocol/src/index.ts:336-340 ProbeStorageBindingCommand *)
Record ProbeStorageBindingCommand := mkProbeCommand {
  pb_workspaceId : string; pb_bindingId : string; pb_tier : option string;
}.
(** Source: packages/protocol/src/index.ts:342-348 RefreshStoragePlanCommand *)
Record RefreshStoragePlanCommand := mkRefreshPlan {
  rp_workspaceId : string; rp_bindingId : string; rp_observedQuotaBytes : option Z; rp_observedUsageBytes : option Z;
}.
(** Source: packages/protocol/src/index.ts:350-355 AcceptStoragePlanCommand *)
Record AcceptStoragePlanCommand := mkAcceptPlan {
  ap_workspaceId : string; ap_bindingId : string; ap_declaredCapacityBytes : Z; ap_planCode : option string;
}.
(** Source: packages/protocol/src/index.ts:357-364 CutoverStorageMigrateCommand *)
Record CutoverStorageMigrateCommand := mkCutover {
  cm_workspaceId : string; cm_sourceBindingId : string; cm_targetBindingId : string; cm_objectDigests : list (string * string);
}.

(** What a live probe answers; it may also throw, with the message of an [Error]
    or something else. *)
Record LiveProbe := mkLiveProbe {
  live_ok : bool; live_summary : string; live_issueClass : option string; live_expectedOwnerMatch : option bool;
}.
(** Source: apps/trust-api/src/app-storage-commands.ts:114-130 createAppStorageCommandMethods *)
Record CommandOptions := mkCommandOptions {
  allowSyntheticConnectedProbe : bool;
  probeBindingLive : option (string → StorageProfileSummary → result (option string) LiveProbe);
}.

(** [s.includes(t)] *)
Fixpoint includes_chars (s t : list ascii) : bool :=
  bool_decide (take (length t) s = t) || match s with [] => false | _ :: s => includes_chars s t end.
Definition includes (s t : string) : bool := includes_chars (chars s) (chars t).
(** Source: apps/trust-api/src/app-storage-commands.ts:438-440 assertSafeRolePlaceholder *)
Definition assertSafeRolePlaceholder (roleArn : string) : bool := negb (includes roleArn "*") && includes roleArn ":role/".

(** [error.message]; the only type error of a command is the profile of a
    binding that has none. *)
Definition exn_message (e : store_exn) : string :=
  match e with
  | Domain (AppError m) | Domain (AppCoded _ m) | Database m => m
  | Domain AppTypeError => "Cannot read properties of undefined (reading 'id')"
  end.
(** An error without a code is given [COMMAND_REJECTED]; those of the database
    have one. *)
(** Source: apps/trust-api/src/app-storage-commands.ts:417-429 cutoverStorageMigrate *)
Definition with_code (e : store_exn) : store_exn :=
  match e with
  | Domain (AppError m) => Domain (AppCoded "COMMAND_REJECTED" m)
  | Domain AppTypeError => Domain (AppCoded "COMMAND_REJECTED" (exn_message e))
  | e => e
  end.

Section Methods.
Context {W : Type} `{AppStorageRegistry W}.
Context (options : CommandOptions).
Abbreviation Cmd := (M W store_exn).

Definition checked (payload : json) : Cmd unit :=
  lift (match assertNoSecrets payload with Ok u => Ok u | Err e => Err (Domain e) end).
(** Check what is answered, and answer it. *)
Definition answered (s : StorageBindingSummary) : Cmd StorageBindingSummary := checked (summary_json s) ≫= λ _, mret s.

(** Source: apps/trust-api/src/app-storage-commands.ts:133-147 requireWorkspaceBinding *)
Definition requireWorkspaceBinding (bindingId workspaceId : string) : Cmd StoredStorageBinding :=
  ensureHydrated workspaceId ≫= λ _,
  on_memory (gets (getBinding bindingId)) ≫= λ binding,
  match binding with
  | Some b =>
      if binding_workspaceId b !== workspaceId then throw (Domain (AppCoded "RESOURCE_NOT_FOUND" "Storage binding was not found."))
      else mret b
  | None => throw (Domain (AppCoded "RESOURCE_NOT_FOUND" "Storage binding was not found."))
  end.

(** Source: apps/trust-api/src/app-storage-commands.ts:150-153 listApplicationTenants *)
Definition listApplicationTenants (workspaceId applicationId : string) : Cmd (list ApplicationTenant) :=
  ensureHydrated workspaceId ≫= λ _, on_memory (gets (listTenants workspaceId applicationId)).

(** Source: apps/trust-api/src/app-storage-commands.ts:154-163 getApplicationTenant *)
Definition getApplicationTenant (workspaceId applicationId tenantId : string) : Cmd ApplicationTenant :=
  ensureHydrated workspaceId ≫= λ _,
  on_memory (gets (getTenant workspaceId applicationId tenantId)) ≫= λ tenant,
  match tenant with
  | Some t => mret t
  | None => throw (Domain (AppCoded "RESOURCE_NOT_FOUND" "Application tenant was not found."))
  end.

(** Source: apps/trust-api/src/app-storage-commands.ts:164-174 createApplicationTenant *)
Definition createApplicationTenant (env : CallEnv) (command : CreateApplicationTenantCommand) : Cmd ApplicationTenant :=
  ensureHydrated (ct_workspaceId command) ≫= λ _,
  on_memory (createTenant env (ct_workspaceId command) (ct_applicationId command) (ct_externalTenantKey command)
    (ct_displayName command)) ≫= λ tenant,
  persistTenant tenant None ≫= λ _, mret tenant.

(** Source: apps/trust-api/src/app-storage-commands.ts:175-188 updateApplicationTenant *)
Definition updateApplicationTenant (env : CallEnv) (tenantId : string) (command : UpdateApplicationTenantCommand) : Cmd ApplicationTenant :=
  ensureHydrated (ut_workspaceId command) ≫= λ _,
  on_memory (updateTenant env (ut_workspaceId command) (ut_applicationId command) tenantId (ut_displayName command)
    (ut_expectedUpdatedAt command)) ≫= λ tenant,
  persistTenant tenant (Some (ut_expectedUpdatedAt command)) ≫= λ _, mret tenant.

(** [suspendApplicationTenant] and [closeApplicationTenant] differ in the status. *)
Definition changeTenantStatus (env : CallEnv) (status : TenantStatus) (tenantId : string) (command : TenantStatusCommand) :
    Cmd ApplicationTenant :=
  ensureHydrated (ts_workspaceId command) ≫= λ _,
  on_memory (setTenantStatus env (ts_workspaceId command) (ts_applicationId command) tenantId status
    (ts_expectedUpdatedAt command)) ≫= λ tenant,
  persistTenant tenant (Some (ts_expectedUpdatedAt command)) ≫= λ _, mret tenant.
(** Source: apps/trust-api/src/app-storage-commands.ts:189-202 suspendApplicationTenant *)
Definition suspendApplicationTenant (env : CallEnv) : string → TenantStatusCommand → Cmd ApplicationTenant :=
  changeTenantStatus env tenant_suspended.
(** Source: apps/trust-api/src/app-storage-commands.ts:203-216 closeApplicationTenant *)
Definition closeApplicationTenant (env : CallEnv) : string → TenantStatusCommand → Cmd ApplicationTenant :=
  changeTenantStatus env tenant_closed.

(** Source: apps/trust-api/src/app-storage-commands.ts:217-226 getEffectiveStorage *)
Definition getEffectiveStorage (workspaceId applicationId : string) (applicationTenantId : option string) : Cmd EffectiveStorageSummary :=
  ensureHydrated workspaceId ≫= λ _,
  on_memory (effectiveSummary workspaceId applicationId applicationTenantId None None) ≫= λ summary,
  checked (effective_json summary) ≫= λ _, mret summary.

(** Source: apps/trust-api/src/app-storage-commands.ts:227-237 getStorageBindingRollup *)
Definition getStorageBindingRollup (workspaceId : string) (applications : list (string * string)) (platform : option (string * string)) :
    Cmd StorageBindingRollup :=
  ensureHydrated workspaceId ≫= λ _,
  on_memory (gets (rollup workspaceId (from_option fst "not_configured" platform)
    (from_option snd "Platform storage status unknown" platform) applications)) ≫= λ r,
  checked (rollup_json r) ≫= λ _, mret r.

(** Source: apps/trust-api/src/app-storage-commands.ts:238-247 listStorageBindings *)
Definition listStorageBindings (workspaceId : string) (applicationId : option string) (applicationTenantId : option (option string)) :
    Cmd (list StorageBindingSummary) :=
  ensureHydrated workspaceId ≫= λ _,
  on_memory (listBindings workspaceId applicationId applicationTenantId) ≫= λ items,
  checked (JArray (map summary_json items)) ≫= λ _, mret items.

(** Source: apps/trust-api/src/app-storage-commands.ts:248-253 getStorageBinding *)
Definition getStorageBinding (workspaceId bindingId : string) : Cmd StorageBindingSummary :=
  requireWorkspaceBinding bindingId workspaceId ≫= λ b,
  on_memory (toSummary b) ≫= answered.

(** [versionId] is the identifier of the version that is stored. *)
(** Source: apps/trust-api/src/app-storage-commands.ts:254-272 upsertStorageBinding *)
Definition upsertStorageBinding (env : CallEnv) (versionId : string) (actor : AuthenticatedActor) (command : UpsertStorageBindingCommand) :
    Cmd (StorageBindingSummary * option string * string) :=
  ensureHydrated (upsert_workspaceId command) ≫= λ _,
  let hardeningOk := (upsert_credentialMode command !== cross_account_role) ||
    from_option assertSafeRolePlaceholder true (upsert_roleArn command) in
  throw_when (negb hardeningOk) (Domain (AppCoded "COMMAND_REJECTED"
    "This role is unsafe (confused deputy). Update trust policy using the template, then retry.")) ≫= λ _,
  registry_upsertBinding env command (actor_id actor) ≫= λ created,
  let binding := created.1.1 in
  persistBinding versionId (summary_id binding) (Some (actor_id actor)) true ≫= λ _,
  checked (summary_json binding) ≫= λ _, mret created.

(** Source: apps/trust-api/src/app-storage-commands.ts:273-290 deleteStorageBinding *)
Definition deleteStorageBinding (bindingId workspaceId : string) (force : bool) : Cmd StorageBindingSummary :=
  requireWorkspaceBinding bindingId workspaceId ≫= λ _,
  match countStickyBlobs with
  | Some count =>
      if force then mret tt
      else
        count workspaceId bindingId ≫= λ sticky,
        throw_when (Z.ltb 0 sticky) (Domain (AppCoded "COMMAND_REJECTED"
          "Binding still referenced by sticky blob routes; disable or force-delete."))
  | None => mret tt
  end ≫= λ _,
  on_memory (deleteBinding bindingId force) ≫= λ summary,
  deletePersistedBinding workspaceId bindingId ≫= λ _,
  answered summary.

(** [persistBindingState] of the binding, and the answer. *)
Definition saved (bindingId : string) (s : StorageBindingSummary) : Cmd StorageBindingSummary :=
  persistBindingState bindingId ≫= λ _, answered s.
(** A probe that throws, or whose result cannot be kept, is recorded as failed. *)
(** Source: apps/trust-api/src/app-storage-commands.ts:308-338 probeStorageBinding *)
Definition live_probe (env : CallEnv) (bindingId : string) (outcome : result (option string) LiveProbe) : Cmd StorageBindingSummary :=
  let failed message :=
    on_memory (recordProbe env bindingId false message (Some "network") None) ≫= saved bindingId in
  match outcome with
  | Ok live =>
      try_catch (on_memory (recordProbe env bindingId (live_ok live) (live_summary live) (live_issueClass live)
        (live_expectedOwnerMatch live)) ≫= saved bindingId) (λ e, failed (exn_message e))
  | Err message => failed (default "Binding connectivity probe failed." message)
  end.
(** Source: apps/trust-api/src/app-storage-commands.ts:291-357 probeStorageBinding *)
Definition probeStorageBinding (env : CallEnv) (command : ProbeStorageBindingCommand) : Cmd StorageBindingSummary :=
  let id := pb_bindingId command in
  requireWorkspaceBinding id (pb_workspaceId command) ≫= λ _,
  on_memory (runHandshakeHardening env id) ≫= λ hardening,
  let current := on_memory (W:=W) (requireBinding id ≫= toSummary) in
  if negb hardening.1 then persistBindingState id ≫= λ _, current
  else
    current ≫= λ s,
    let profile := summary_profile s in
    match probeBindingLive options with
    | Some liveProbe =>
        if profile_credentialMode profile === cross_account_role
        then on_memory (markProbeDeferred env id
               "Live BYOB probe requires STS AssumeRole (not yet enabled); status remains configured (not Connected).") ≫= saved id
        else live_probe env id (liveProbe id profile)
    | None =>
        if negb (allowSyntheticConnectedProbe options)
        then on_memory (markProbeDeferred env id
               "Live Tier-A connectivity probe is not configured for durable bindings; status remains configured (not Connected).") ≫= saved id
        else on_memory (recordProbe env id true ("Binding connectivity probe (" +:+ default "connectivity" (pb_tier command) +:+ ")")
               None (Some true)) ≫= saved id
    end.

(** Source: apps/trust-api/src/app-storage-commands.ts:358-367 refreshStoragePlan *)
Definition refreshStoragePlan (env : CallEnv) (command : RefreshStoragePlanCommand) : Cmd StorageBindingSummary :=
  requireWorkspaceBinding (rp_bindingId command) (rp_workspaceId command) ≫= λ _,
  on_memory (refreshPlan env (rp_bindingId command) (rp_observedUsageBytes command) (rp_observedQuotaBytes command)) ≫=
  saved (rp_bindingId command).

(** Source: apps/trust-api/src/app-storage-commands.ts:368-378 acceptStoragePlan *)
Definition acceptStoragePlan (env : CallEnv) (command : AcceptStoragePlanCommand) : Cmd StorageBindingSummary :=
  requireWorkspaceBinding (ap_bindingId command) (ap_workspaceId command) ≫= λ _,
  on_memory (acceptPlan env (ap_bindingId command) (ap_declaredCapacityBytes command) (ap_planCode command)) ≫= λ summary,
  persistPlan (ap_bindingId command) ≫= λ _, answered summary.

(** Source: apps/trust-api/src/app-storage-commands.ts:379-385 disableStorageBinding *)
Definition disableStorageBinding (env : CallEnv) (bindingId workspaceId : string) : Cmd StorageBindingSummary :=
  requireWorkspaceBinding bindingId workspaceId ≫= λ _,
  on_memory (disableBinding env bindingId) ≫= saved bindingId.

(** Source: apps/trust-api/src/app-storage-commands.ts:386-392 rollbackStorageBinding *)
Definition rollbackStorageBinding (env : CallEnv) (versionId : string) (actor : AuthenticatedActor) (bindingId workspaceId : string) :
    Cmd StorageBindingSummary :=
  requireWorkspaceBinding bindingId workspaceId ≫= λ _,
  on_memory (rollbackBinding env bindingId (actor_id actor)) ≫= λ summary,
  persistBinding versionId bindingId (Some (actor_id actor)) true ≫= λ _, answered summary.

(** Source: apps/trust-api/src/app-storage-commands.ts:393-430 cutoverStorageMigrate *)
Definition cutoverStorageMigrate (env : CallEnv) (versionId : string) (actor : AuthenticatedActor) (command : CutoverStorageMigrateCommand) :
    Cmd StorageBindingSummary :=
  requireWorkspaceBinding (cm_sourceBindingId command) (cm_workspaceId command) ≫= λ _,
  requireWorkspaceBinding (cm_targetBindingId command) (cm_workspaceId command) ≫= λ _,
  try_catch
    (on_memory (cutoverMigrate env (cm_sourceBindingId command) (cm_targetBindingId command) (cm_objectDigests command)
       (actor_id actor)) ≫= λ summary,
     persistStickyCutover (cm_workspaceId command) (cm_targetBindingId command) (summary_generation summary)
       (map fst (cm_objectDigests command)) ≫= λ _,
     persistBindingState (cm_sourceBindingId command) ≫= λ _,
     persistBinding versionId (cm_targetBindingId command) (Some (actor_id actor)) true ≫= λ _,
     answered summary)
    (λ e, throw (with_code e)).

(** Source: apps/trust-api/src/app-storage-commands.ts:431-434 resolveStorageRoute *)
Definition resolveStorageRoute (context : RoutingContext) : Cmd ResolveResult :=
  ensureHydrated (context_workspaceId context) ≫= λ _, on_memory (gets (resolve context)).
End Methods.
