(* ===== verification/AppDurability.v ===== *)
(** * What the commands on bindings leave in the database

    The invariant that ties the memory of a process to the tables: what the
    memory holds is stored, and a workspace that counts as read is held in full.
    Every command keeps it, unless it fails on the database; so a process that
    starts anew routes as the one it replaces.  The last part shows where the
    registry over PostgreSQL departs from the one in memory. *)
From S2P Require Import Prelude Js Concrete Json Verification Access AppStorage AppRepository AppCommands.

Section Durability.
Context `{JsDate} `{Crypto}.
Context (collation : string → string → bool).
#[local] Instance durable : AppStorageRegistry World := postgres_registry collation.
Implicit Types (w : World) (d : AppDb) (r : InMemoryAppStorageRegistry).

(** ** The invariant *)

(** The integrity of the tables: each row under its identifier, its instants as
    stored; external keys, scopes and profiles not shared; the profile of a
    binding in its workspace. *)
Record db_ok (d : AppDb) : Prop := mkDbOk {
  dk_tenant_keys : NoDup (adb_tenants d).*1;
  dk_profile_keys : NoDup (adb_profiles d).*1;
  dk_binding_keys : NoDup (adb_bindings d).*1;
  dk_tenant id t : map_get id (adb_tenants d) = Some t → tenant_id t = id ∧ stored_tenant t = Some t;
  dk_tenant_unique id id' t t' : map_get id (adb_tenants d) = Some t → map_get id' (adb_tenants d) = Some t' →
    tenant_workspaceId t = tenant_workspaceId t' → tenant_applicationId t = tenant_applicationId t' →
    tenant_externalTenantKey t = tenant_externalTenantKey t' → id = id';
  dk_profile id p : map_get id (adb_profiles d) = Some p → profile_id (prow_profile p) = id ∧ stored_profile p = Some p;
  dk_binding id b : map_get id (adb_bindings d) = Some b →
    binding_id b = id ∧ stored_binding b = Some b ∧ binding_status b ≠ migrating;
  dk_bound id b : map_get id (adb_bindings d) = Some b →
    ∃ p, map_get (binding_profileId b) (adb_profiles d) = Some p ∧ prow_workspaceId p = binding_workspaceId b;
  dk_own id id' b b' : map_get id (adb_bindings d) = Some b → map_get id' (adb_bindings d) = Some b' →
    binding_profileId b = binding_profileId b' → id = id';
  dk_scope id id' b b' : map_get id (adb_bindings d) = Some b → map_get id' (adb_bindings d) = Some b' →
    binding_workspaceId b = binding_workspaceId b' → binding_applicationId b = binding_applicationId b' →
    binding_applicationTenantId b = binding_applicationTenantId b' → id = id';
}.

(** A profile in memory is that of the row, but for the external id. *)
Record same_profile (p : StoredStorageProfile) (row : AppStorageProfileRow) : Prop := mkSameProfile {
  same_summary : profile_summary p = prow_profile row;
  same_workspace : profile_workspaceId p = prow_workspaceId row;
  same_createdAt : profile_createdAt p = prow_createdAt row;
  same_updatedAt : profile_updatedAt p = prow_updatedAt row;
}.

Record coherent (w : World) : Prop := mkCoherent {
  co_db : db_ok (w_db w);
  co_tenant_keys : NoDup (tenants (w_memory w)).*1;
  co_binding_keys : NoDup (bindings (w_memory w)).*1;
  co_tenant id t : map_get id (tenants (w_memory w)) = Some t → map_get id (adb_tenants (w_db w)) = Some t;
  co_profile id p : map_get id (profiles (w_memory w)) = Some p → ∃ row, map_get id (adb_profiles (w_db w)) = Some row ∧ same_profile p row;
  co_binding id b : map_get id (bindings (w_memory w)) = Some b → map_get id (adb_bindings (w_db w)) = Some b;
  co_bound id b : map_get id (bindings (w_memory w)) = Some b → is_Some (map_get (binding_profileId b) (profiles (w_memory w)));
  (** a workspace read is in memory *)
  co_tenants ws id t : ws ∈ hydratedWorkspaces (w_registry w) → map_get id (adb_tenants (w_db w)) = Some t →
    tenant_workspaceId t = ws → map_get id (tenants (w_memory w)) = Some t;
  co_bindings ws id b : ws ∈ hydratedWorkspaces (w_registry w) → map_get id (adb_bindings (w_db w)) = Some b →
    binding_workspaceId b = ws → map_get id (bindings (w_memory w)) = Some b;
}.

(** A command that ends well, or throws something else than an error of the
    database, leaves the memory coherent; and in any case the tables intact. *)
Definition outcome_ok {A} (x : result store_exn A * World) : Prop :=
  match x with
  | (Err (Database _), w) => db_ok (w_db w)
  | (_, w) => coherent w
  end.
Definition settles {A} (Q : World → Prop) (m : P A) : Prop := ∀ w, Q w → outcome_ok (m w).

Lemma coherent_outcome {A} (x : result store_exn A) w : coherent w → outcome_ok (x, w).
Proof. intros Hc. destruct x as [a|[e|m]]; cbn; [done..|apply Hc]. Qed.

(** Programs in sequence: [R] holds between a first part that returns and the
    rest. *)
Definition leads {A} (Q : World → Prop) (m : P A) (R : A → World → Prop) : Prop :=
  ∀ w, Q w → match m w with (Ok a, w') => R a w' | (Err e, w') => outcome_ok (@Err store_exn A e, w') end.
Lemma settles_bind {A B} Q (m : P A) R (f : A → P B) : leads Q m R → (∀ a, settles (R a) (f a)) → settles Q (m ≫= f).
Proof.
  intros Hm Hf w Hw. specialize (Hm w Hw). unfold mbind, M_bind. destruct (m w) as [[a|e] w'] eqn:E; [by apply Hf|].
  by destruct e.
Qed.
Lemma leads_bind {A B} Q (m : P A) R (f : A → P B) R' : leads Q m R → (∀ a, leads (R a) (f a) R') → leads Q (m ≫= f) R'.
Proof.
  intros Hm Hf w Hw. specialize (Hm w Hw). unfold mbind, M_bind. destruct (m w) as [[a|e] w'] eqn:E; [by apply Hf|].
  by destruct e.
Qed.
Lemma settles_leads {A} Q (m : P A) : leads Q m (λ _, coherent) → settles Q m.
Proof. intros Hm w Hw. specialize (Hm w Hw). destruct (m w) as [[a|e] w'] eqn:E; done. Qed.
Lemma leads_settles {A} Q (m : P A) : settles Q m → leads Q m (λ _, coherent).
Proof. intros Hm w Hw. specialize (Hm w Hw). destruct (m w) as [[a|e] w'] eqn:E; done. Qed.
Lemma settles_read {A} (f : result store_exn A) : settles coherent (lift f).
Proof. intros w Hw. by apply coherent_outcome. Qed.
Lemma settles_ret {A} (a : A) : settles coherent (mret a).
Proof. intros w Hw. done. Qed.
Lemma settles_conseq {A} (Q Q' : World → Prop) (m : P A) : settles Q' m → (∀ w, Q w → Q' w) → settles Q m.
Proof. intros Hm HQ w Hw. by apply Hm, HQ. Qed.
Lemma answered_settles s : settles coherent (answered (W:=World) s).
Proof.
  unfold answered, checked. eapply settles_bind; [apply leads_settles, settles_read|]. intros ?. apply settles_ret.
Qed.

(** A transaction that only reads. *)
Lemma scoped_read {A} (f : AppDb → A) w :
  (∃ m fs, scoped (gets f) w = (Err (Database m), mkWorld (w_registry w) (w_db w) fs)) ∨
  (∃ fs, scoped (gets f) w = (Ok (f (w_db w)), mkWorld (w_registry w) (w_db w) fs)).
Proof. unfold scoped. destruct (w_faults w) as [|[] fs]; cbn; eauto. Qed.
(** A transaction fails and changes nothing, or it runs. *)
Lemma scoped_cases {A} (t : Tx A) w :
  (∃ e fs, scoped t w = (Err e, mkWorld (w_registry w) (w_db w) fs) ∧
     ((∃ m, e = Database m) ∨ ∃ d', t (w_db w) = (Err e, d'))) ∨
  (∃ a d' fs, t (w_db w) = (Ok a, d') ∧ scoped t w = (Ok a, mkWorld (w_registry w) d' fs)).
Proof.
  unfold scoped. destruct (w_faults w) as [|[] fs]; cbn.
  - destruct (t (w_db w)) as [[a|e] d'] eqn:E; eauto 10.
  - eauto 10.
  - destruct (t (w_db w)) as [[a|e] d'] eqn:E; eauto 10.
Qed.

Lemma coherent_world w reg d fs : w_registry w = reg → w_db w = d → coherent w → coherent (mkWorld reg d fs).
Proof. intros <- <- []. by split. Qed.
Lemma coherent_faults w fs : coherent w → coherent (mkWorld (w_registry w) (w_db w) fs).
Proof. by apply coherent_world. Qed.

(** ** Changing one entry on both sides *)

(** [m'] is [m] with [v] under [k]. *)
Record put_at {V} (m m' : list (string * V)) (k : string) (v : V) : Prop := mkPutAt {
  put_keys : NoDup m.*1 → NoDup m'.*1;
  put_get i : map_get i m' = if decide (i = k) then Some v else map_get i m;
}.
Lemma put_set {V} (m : list (string * V)) k v : put_at m (map_set k v m) k v.
Proof.
  split; [apply NoDup_map_set|]. intros i. destruct (decide (i = k)) as [->|Hne]; [apply map_get_set_eq|by apply map_get_set_ne].
Qed.
Lemma put_same {V} (m : list (string * V)) k v : map_get k m = Some v → put_at m m k v.
Proof. intros Hk. split; [done|]. intros i. by destruct (decide (i = k)) as [->|]. Qed.
Lemma put_put {V} (m1 m2 m3 : list (string * V)) k v v' : put_at m1 m2 k v → put_at m2 m3 k v' → put_at m1 m3 k v'.
Proof.
  intros [K1 G1] [K2 G2]. split; [auto|]. intros i. rewrite G2. destruct (decide (i = k)); [done|]. rewrite G1. by rewrite decide_False.
Qed.
Lemma put_eq {V} (m m' : list (string * V)) k v : put_at m m' k v → map_get k m' = Some v.
Proof. intros [_ G]. rewrite G. by rewrite decide_True. Qed.
Lemma put_inv {V} (m m' : list (string * V)) k v i x : put_at m m' k v → map_get i m' = Some x →
  (i = k ∧ x = v) ∨ (i ≠ k ∧ map_get i m = Some x).
Proof. intros [_ G]. rewrite G. destruct (decide (i = k)) as [->|]; [intros [= ->]; by left|by right]. Qed.
Lemma put_some {V} (m m' : list (string * V)) k v i : put_at m m' k v → is_Some (map_get i m) → is_Some (map_get i m').
Proof. intros [_ G]. rewrite G. destruct (decide (i = k)); eauto. Qed.

(** A binding and its profile that the tables can hold. *)
Record admissible (d : AppDb) (b : AppStorageBindingRow) (row : AppStorageProfileRow) : Prop := mkAdmissible {
  ad_profile : profile_id (prow_profile row) = binding_profileId b;
  ad_workspace : prow_workspaceId row = binding_workspaceId b;
  ad_row : stored_profile row = Some row;
  ad_stored : stored_binding b = Some b;
  ad_status : binding_status b ≠ migrating;
  ad_own id' b' : map_get id' (adb_bindings d) = Some b' → binding_profileId b' = binding_profileId b → id' = binding_id b;
  ad_scope id' b' : map_get id' (adb_bindings d) = Some b' → binding_workspaceId b' = binding_workspaceId b →
    binding_applicationId b' = binding_applicationId b → binding_applicationTenantId b' = binding_applicationTenantId b →
    id' = binding_id b;
}.

Lemma db_ok_put d d' b row : db_ok d → admissible d b row → adb_tenants d' = adb_tenants d →
  put_at (adb_bindings d) (adb_bindings d') (binding_id b) b →
  put_at (adb_profiles d) (adb_profiles d') (binding_profileId b) row → db_ok d'.
Proof.
  intros [Tk Pk Bk Ht Htu Hp Hb Hbd Ho Hs] [Ap Aw Ar As Ast Ao Asc] Hten Hpb Hpp. split; rewrite ?Hten; try done.
  - by apply Hpp.
  - by apply Hpb.
  - intros i x [[-> ->]|[_ Hx]]%(put_inv _ _ _ _ _ _ Hpp); eauto.
  - intros i x [[-> ->]|[_ Hx]]%(put_inv _ _ _ _ _ _ Hpb); eauto.
  - intros i x Hx. destruct (put_inv _ _ _ _ _ _ Hpb Hx) as [[-> ->]|[Hne Hx']].
    + exists row. split; [by eapply put_eq|done].
    + destruct (Hbd _ _ Hx') as (q & Hq & Hw). rewrite (put_get _ _ _ _ Hpp).
      destruct (decide (binding_profileId x = binding_profileId b)) as [He|]; [|eauto]. by destruct Hne; eauto.
  - intros i j x y [[-> ->]|[_ Hx]]%(put_inv _ _ _ _ _ _ Hpb) [[-> ->]|[_ Hy]]%(put_inv _ _ _ _ _ _ Hpb) He; eauto; symmetry; eauto.
  - intros i j x y [[-> ->]|[_ Hx]]%(put_inv _ _ _ _ _ _ Hpb) [[-> ->]|[_ Hy]]%(put_inv _ _ _ _ _ _ Hpb) H1 H2 H3; eauto; symmetry; eauto.
Qed.

(** The memory and the tables take the same binding and profile. *)
Lemma coherent_put w w' b p row : coherent w → admissible (w_db w) b row → same_profile p row →
  tenants (w_memory w') = tenants (w_memory w) →
  put_at (bindings (w_memory w)) (bindings (w_memory w')) (binding_id b) b →
  put_at (profiles (w_memory w)) (profiles (w_memory w')) (binding_profileId b) p →
  adb_tenants (w_db w') = adb_tenants (w_db w) →
  put_at (adb_bindings (w_db w)) (adb_bindings (w_db w')) (binding_id b) b →
  put_at (adb_profiles (w_db w)) (adb_profiles (w_db w')) (binding_profileId b) row →
  hydratedWorkspaces (w_registry w') ⊆ hydratedWorkspaces (w_registry w) → coherent w'.
Proof.
  intros [Cd Ctk Cbk Ct Cp Cb Cbd Cts Cbs] Had Hsame Hmt Hmb Hmp Hdt Hdb Hdp Hh. split; rewrite ?Hmt, ?Hdt; try done.
  - by eapply db_ok_put.
  - by apply Hmb.
  - intros i x [[-> ->]|[Hne Hx]]%(put_inv _ _ _ _ _ _ Hmp).
    + exists row. split; [by eapply put_eq|done].
    + destruct (Cp _ _ Hx) as (q & Hq & Hs). exists q. by rewrite (put_get _ _ _ _ Hdp), decide_False.
  - intros i x [[-> ->]|[Hne Hx]]%(put_inv _ _ _ _ _ _ Hmb); [by eapply put_eq|].
    rewrite (put_get _ _ _ _ Hdb), decide_False by done. by apply Cb.
  - intros i x [[-> ->]|[_ Hx]]%(put_inv _ _ _ _ _ _ Hmb).
    + rewrite (put_eq _ _ _ _ Hmp). eauto.
    + eapply put_some; [done|]. eauto.
  - intros ws i x Hws%Hh. by apply Cts.
  - intros ws i x Hws%Hh [[-> ->]|[Hne Hx]]%(put_inv _ _ _ _ _ _ Hdb) Hw; [by eapply put_eq|].
    rewrite (put_get _ _ _ _ Hmb), decide_False by done. by eapply Cbs.
Qed.

(** ** What a call changes in memory *)

(** The instants of a call read back as they are written. *)
Definition clock_ok (env : CallEnv) : Prop :=
  stored_time (env_now env) = Some (env_now env) ∧ stored_time (env_later env) = Some (env_later env).

Lemma stored_binding_iff b : stored_binding b = Some b ↔
  stored_time_opt (binding_lastProbeAt b) = Some (binding_lastProbeAt b) ∧
  stored_time_opt (binding_observedAt b) = Some (binding_observedAt b) ∧
  stored_time (binding_createdAt b) = Some (binding_createdAt b) ∧ stored_time (binding_updatedAt b) = Some (binding_updatedAt b).
Proof.
  unfold stored_binding. destruct b as [i w a t p st g ok la ls li ps ou oq oa di c u]. cbn. split.
  - destruct (stored_time_opt la) as [x|]; [|done]. destruct (stored_time_opt oa) as [y|]; [|done].
    destruct (stored_time c) as [z|]; [|done]. destruct (stored_time u) as [v|]; [|done]. cbn. by intros [= -> -> -> ->].
  - by intros (-> & -> & -> & ->).
Qed.
Lemma stored_profile_iff p : stored_profile p = Some p ↔
  stored_time (prow_createdAt p) = Some (prow_createdAt p) ∧ stored_time (prow_updatedAt p) = Some (prow_updatedAt p).
Proof.
  unfold stored_profile. destruct p as [s w h c u]. cbn. split.
  - destruct (stored_time c) as [z|]; [|done]. destruct (stored_time u) as [v|]; [|done]. cbn. by intros [= -> ->].
  - by intros (-> & ->).
Qed.
Lemma stored_tenant_iff t : stored_tenant t = Some t ↔
  stored_time (tenant_createdAt t) = Some (tenant_createdAt t) ∧ stored_time (tenant_updatedAt t) = Some (tenant_updatedAt t).
Proof.
  unfold stored_tenant. destruct t as [i w a k n s c u]. cbn. split.
  - destruct (stored_time c) as [z|]; [|done]. destruct (stored_time u) as [v|]; [|done]. cbn. by intros [= -> ->].
  - by intros (-> & ->).
Qed.

(** The next state of a binding. *)
Record continues (b b' : StoredStorageBinding) : Prop := mkContinues {
  cont_evolve : evolve b b';
  cont_createdAt : binding_createdAt b' = binding_createdAt b;
  cont_stored : stored_binding b = Some b → stored_binding b' = Some b';
  cont_status : binding_status b ≠ migrating → binding_status b' ≠ migrating;
}.
#[local] Instance continues_trans : Transitive continues.
Proof. intros x y z [] []. split; [by etrans|congruence|auto|auto]. Qed.

Definition changes (r r' : InMemoryAppStorageRegistry) (b : StoredStorageBinding) (p : StoredStorageProfile) : Prop :=
  tenants r' = tenants r ∧ put_at (bindings r) (bindings r') (binding_id b) b ∧
  put_at (profiles r) (profiles r') (binding_profileId b) p.

(** A call that finds the binding and its profile: it returns after one change of
    both, or throws without any. *)
Definition changes_one {A} (id : string) (m : Reg A) (Q : StoredStorageProfile → StoredStorageProfile → Prop) : Prop :=
  ∀ r b p, map_get id (bindings r) = Some b → binding_id b = id → map_get (binding_profileId b) (profiles r) = Some p →
    (∃ e, m r = (Err e, r)) ∨ (∃ a r' b' p', m r = (Ok a, r') ∧ continues b b' ∧ Q p p' ∧ changes r r' b' p').

Lemma toSummary_ok b p r : map_get (binding_profileId b) (profiles r) = Some p → ∃ s, toSummary b r = (Ok s, r).
Proof. intros Hp. unfold toSummary. run. rewrite Hp. run. eauto. Qed.
Lemma requireBinding_ok id b r : map_get id (bindings r) = Some b → requireBinding id r = (Ok b, r).
Proof. intros Hb. unfold requireBinding, getBinding. run. by rewrite Hb. Qed.

(** The shape most calls have: assign to the binding, answer its summary. *)
Lemma changes_put id b b' p r g :
  map_get id (bindings r) = Some b → binding_id b = id → map_get (binding_profileId b) (profiles r) = Some p → continues b b' →
  (∀ r, tenants (g r) = tenants r ∧ bindings (g r) = bindings r ∧ profiles (g r) = profiles r) →
  ∃ s r', (put_binding id b' ≫= λ _, modify g ≫= λ _, toSummary b') r = (Ok s, r') ∧ changes r r' b' p.
Proof.
  intros Hb Hi Hp Hc Hg. pose proof (cont_evolve _ _ Hc) as He. set (r1 := g (set_bindings (map_set id b') r)).
  destruct (Hg (set_bindings (map_set id b') r)) as (Gt & Gb & Gp). fold r1 in Gt, Gb, Gp.
  destruct (toSummary_ok b' p r1) as [s Hs]; [rewrite Gp, (evolve_profile _ _ He); exact Hp|].
  exists s, r1. split; [unfold put_binding; run; exact Hs|]. split_and!; try done.
  - rewrite Gb, (evolve_id _ _ He), Hi. apply put_set.
  - rewrite Gp, (evolve_profile _ _ He). by apply put_same.
Qed.
Lemma changes_put_summary id b b' p r :
  map_get id (bindings r) = Some b → binding_id b = id → map_get (binding_profileId b) (profiles r) = Some p → continues b b' →
  ∃ s r', (put_binding id b' ≫= λ _, toSummary b') r = (Ok s, r') ∧ changes r r' b' p.
Proof. intros Hb Hi Hp Hc. by apply (changes_put id b b' p r (λ r, r)). Qed.

Lemma stored_opt_now s : stored_time s = Some s → stored_time_opt (Some s) = Some (Some s).
Proof. cbn. by intros ->. Qed.
Ltac solve_continues :=
  split; [first [solve [solve_evolve] | by split] | done
    | rewrite !stored_binding_iff; cbn -[stored_time stored_time_opt]; intros (? & ? & ? & ?); split_and!; auto using stored_opt_now
    | cbn; auto; try done; repeat case_match; done].

Lemma put_binding_bind {A} k b (f : unit → Reg A) r : (put_binding k b ≫= f) r = f tt (set_bindings (map_set k b) r).
Proof. done. Qed.

Section Calls.
Context (env : CallEnv) (id : string) (clock : clock_ok env).
Let now_ok : stored_time (env_now env) = Some (env_now env) := proj1 clock.

Lemma recordProbe_sure ok s i m r b p : map_get id (bindings r) = Some b → binding_id b = id →
  map_get (binding_profileId b) (profiles r) = Some p →
  ∃ a r' b' p', recordProbe env id ok s i m r = (Ok a, r') ∧ continues b b' ∧ p' = p ∧ changes r r' b' p'.
Proof using now_ok.
  intros Hb Hi Hp. unfold recordProbe. rewrite (bind_Ok_run _ _ _ _ _ (requireBinding_ok _ _ _ Hb)).
  match goal with |- context [put_binding id ?x] => set (b' := x) end.
  assert (continues b b') as Hc by (unfold b'; destruct (m === Some false), ok; solve_continues).
  destruct (changes_put_summary id b b' p r Hb Hi Hp Hc) as (x & r' & Hx & Hch). by exists x, r', b', p.
Qed.
Lemma recordProbe_one ok s i m : changes_one id (recordProbe env id ok s i m) (λ p p', p' = p).
Proof using now_ok. intros r b p Hb Hi Hp. right. by apply recordProbe_sure. Qed.
Lemma markProbeDeferred_one s : changes_one id (markProbeDeferred env id s) (λ p p', p' = p).
Proof using now_ok.
  intros r b p Hb Hi Hp. right. unfold markProbeDeferred. rewrite (bind_Ok_run _ _ _ _ _ (requireBinding_ok _ _ _ Hb)).
  match goal with |- context [put_binding id ?x] => set (b' := x) end.
  assert (continues b b') as Hc by (unfold b'; solve_continues).
  destruct (changes_put_summary id b b' p r Hb Hi Hp Hc) as (x & r' & Hx & Hch). by exists x, r', b', p.
Qed.
Lemma disableBinding_one : changes_one id (disableBinding env id) (λ p p', p' = p).
Proof using now_ok.
  intros r b p Hb Hi Hp. right. unfold disableBinding. rewrite (bind_Ok_run _ _ _ _ _ (requireBinding_ok _ _ _ Hb)).
  match goal with |- context [put_binding id ?x] => set (b' := x) end.
  assert (continues b b') as Hc by (unfold b'; solve_continues).
  destruct (changes_put id b b' p r (set_assume (map_delete id)) Hb Hi Hp Hc) as (x & r' & Hx & Hch); [done|]. by exists x, r', b', p.
Qed.
Lemma refreshPlan_one u q : changes_one id (refreshPlan env id u q) (λ p p', p' = p).
Proof using now_ok.
  intros r b p Hb Hi Hp. right. unfold refreshPlan. rewrite (bind_Ok_run _ _ _ _ _ (requireBinding_ok _ _ _ Hb)).
  rewrite gets_bind, Hp.
  match goal with |- context [put_binding id ?x ≫= _] => set (b1 := x) end. rewrite put_binding_bind.
  match goal with |- context [put_binding id ?x] => set (b' := x) end. set (r1 := set_bindings (map_set id b1) r).
  assert (continues b b') as Hc by (unfold b'; solve_continues).
  assert (continues b1 b') as Hc1 by (unfold b', b1; solve_continues).
  destruct (changes_put_summary id b1 b' p r1) as (x & r' & Hx & (Ht & Hcb & Hcp)); [apply map_get_set_eq|done|done|done|].
  exists x, r', b', p. unfold changes. split_and!; try done. eapply put_put; [|exact Hcb]. rewrite (evolve_id _ _ (cont_evolve _ _ Hc1)).
  unfold b1. cbn. rewrite Hi. apply put_set.
Qed.

(** The next state of a profile. *)
Record reprofiled (p p' : StoredStorageProfile) : Prop := mkReprofiled {
  re_id : profile_id (profile_summary p') = profile_id (profile_summary p);
  re_workspace : profile_workspaceId p' = profile_workspaceId p;
  re_createdAt : profile_createdAt p' = profile_createdAt p;
  re_updatedAt : profile_updatedAt p' = env_now env;
}.
Lemma both_put b b' p' r : map_get id (bindings r) = Some b → binding_id b = id → continues b b' →
  let r1 := set_bindings (map_set id b') (set_profiles (map_set (binding_profileId b) p') r) in
  changes r r1 b' p' ∧ ∃ s, toSummary b' r1 = (Ok s, r1).
Proof.
  intros Hb Hi [He _ _ _] r1. split; [split_and!; [done|..]|].
  - rewrite (evolve_id _ _ He), Hi. apply put_set.
  - rewrite (evolve_profile _ _ He). apply put_set.
  - eapply toSummary_ok. rewrite (evolve_profile _ _ He). apply map_get_set_eq.
Qed.

Lemma acceptPlan_one c code : changes_one id (acceptPlan env id c code)
  (λ p p', reprofiled p p' ∧ ∃ cap code, profile_summary p' = set_declared cap code (profile_summary p)).
Proof using now_ok.
  intros r b p Hb Hi Hp. right. unfold acceptPlan. rewrite (bind_Ok_run _ _ _ _ _ (requireBinding_ok _ _ _ Hb)).
  unfold requireProfile, put_profile. run. rewrite Hp. run.
  match goal with |- context [put_binding id ?x] => set (b' := x) end.
  match goal with |- context [map_set (binding_profileId b) ?x] => set (p' := x) end.
  assert (continues b b') as Hc by (unfold b'; solve_continues).
  destruct (both_put b b' p' r Hb Hi Hc) as (Hch & s & Hs).
  eexists s, _, b', p'. split_and!; [unfold put_binding; run; exact Hs|done|done|by eexists _, _|done].
Qed.
Lemma rollbackBinding_one actor : changes_one id (rollbackBinding env id actor) reprofiled.
Proof using now_ok.
  intros r b p Hb Hi Hp. unfold rollbackBinding. rewrite (bind_Ok_run _ _ _ _ _ (requireBinding_ok _ _ _ Hb)).
  rewrite gets_bind. destruct (List.find _ _) as [v|]; [right|left; by eexists].
  unfold requireProfile, put_profile. run. rewrite Hp. run.
  match goal with |- context [put_binding id ?x] => set (b' := x) end.
  match goal with |- context [map_set (binding_profileId b) ?x] => set (p' := x) end.
  assert (continues b b') as Hc by (unfold b'; solve_continues).
  destruct (both_put b b' p' r Hb Hi Hc) as (Hch & s & Hs).
  eexists s, _, b', p'. split_and!; [unfold put_binding; run; rewrite (bind_Ok_run _ _ _ _ _ Hs); unfold push_version; run; done|done|done|exact Hch].
Qed.
Lemma upsert_existing_one command actor b r p : map_get id (bindings r) = Some b → binding_id b = id →
  map_get (binding_profileId b) (profiles r) = Some p →
  (∃ e, upsert_existing env command actor b r = (Err e, r)) ∨
  (∃ s template r' b' p', upsert_existing env command actor b r = (Ok (s, None, template), r') ∧ summary_id s = id ∧
     continues b b' ∧ reprofiled p p' ∧ changes r r' b' p').
Proof using now_ok.
  intros Hb Hi Hp. unfold upsert_existing. rewrite throw_when_bind.
  match goal with |- context [if ?c then (Err _, r) else _] => destruct c; [left; by eexists|right] end.
  unfold requireProfile, put_profile. run. rewrite Hp. run. cbn [binding_id set_probe set_updatedAt set_status next_generation]. rewrite Hi.
  match goal with |- context [put_binding id ?x] => set (b' := x) end.
  match goal with |- context [map_set (binding_profileId b) ?x] => set (p' := x) end.
  assert (continues b b') as Hc by (unfold b'; solve_continues).
  destruct (both_put b b' p' r Hb Hi Hc) as (Hch & s & Hs).
  eexists s, _, _, b', p'. split_and!; [unfold put_binding; run; rewrite (bind_Ok_run _ _ _ _ _ Hs); unfold push_version; run; done| |done|done|exact Hch].
  unfold toSummary in Hs. run_in Hs. cbn in Hs. rewrite map_get_set_eq in Hs. run_in Hs. injection Hs as <-. done.
Qed.
Lemma hardening_one r b p : map_get id (bindings r) = Some b → binding_id b = id → map_get (binding_profileId b) (profiles r) = Some p →
  runHandshakeHardening env id r = (Ok (true, None), r) ∨
  (∃ message r' b', runHandshakeHardening env id r = (Ok (false, Some message), r') ∧ continues b b' ∧ changes r r' b' p).
Proof using now_ok.
  intros Hb Hi Hp. unfold runHandshakeHardening. rewrite gets_bind. unfold assertExternalIdHardening.
  destruct (map_get id (assumeWithoutExternalId r) === Some true); [right|by left].
  unfold getBinding, put_binding. run. rewrite Hb. run.
  match goal with |- context [map_set id ?x] => set (b' := x) end.
  assert (continues b b') as Hc by (unfold b'; solve_continues).
  eexists _, _, b'. split; [reflexivity|]. split; [exact Hc|]. split_and!; [done| |]; cbn; [rewrite Hi; apply put_set|by apply put_same].
Qed.
End Calls.

(** ** Persisting a change *)

(** Transactions that throw errors of the database only. *)
Definition db_errors {A} (t : Tx A) : Prop := ∀ d e d', t d = (Err e, d') → ∃ m, e = Database m.
Lemma db_errors_bind {A B} (t : Tx A) (f : A → Tx B) : db_errors t → (∀ a, db_errors (f a)) → db_errors (t ≫= f).
Proof. intros Ht Hf d e d' [Hx|(a & d1 & _ & Hx)]%M_bind_Err; [by eapply Ht|by eapply Hf]. Qed.
Lemma db_errors_ret {A} (a : A) : db_errors (mret a).
Proof. by intros d e d'. Qed.
Lemma db_errors_gets {A} (f : AppDb → A) : db_errors (gets f).
Proof. by intros d e d'. Qed.
Lemma db_errors_modify f : db_errors (modify f).
Proof. by intros d e d'. Qed.
Lemma db_errors_row ok c : db_errors (require_row ok c).
Proof. intros d e d'. unfold require_row, throw_when, lift. destruct ok; cbn; [done|]. intros [= <- <-]. eauto. Qed.
Lemma db_errors_param {A} (v : option A) : db_errors (param v).
Proof. destruct v; cbn; [apply db_errors_ret|]. intros d e d' [= <- <-]. eauto. Qed.
Create HintDb db_errors.
#[local] Hint Resolve db_errors_bind db_errors_ret db_errors_gets db_errors_modify db_errors_row db_errors_param : db_errors.
Ltac solve_db_errors := repeat first [progress intros | case_match | solve [auto with db_errors] | apply db_errors_bind].

Lemma scoped_db_cases {A} (t : Tx A) w : db_errors t →
  (∃ m fs, scoped t w = (Err (Database m), mkWorld (w_registry w) (w_db w) fs)) ∨
  (∃ a d' fs, t (w_db w) = (Ok a, d') ∧ scoped t w = (Ok a, mkWorld (w_registry w) d' fs)).
Proof.
  intros He. destruct (scoped_cases t w) as [(e & fs & Hx & Hdb)|Hx]; [left|by right].
  assert (∃ m, e = Database m) as [m ->] by (destruct Hdb as [?|[d' Hd']]; [done|by eapply He]). eauto.
Qed.
Lemma updateBindingState_db_errors b : db_errors (repo_updateBindingState b).
Proof. unfold repo_updateBindingState, repo_getBinding. solve_db_errors. Qed.
Lemma updateProfilePlan_db_errors ws id cap code at_ : db_errors (repo_updateProfilePlan ws id cap code at_).
Proof. unfold repo_updateProfilePlan. solve_db_errors. Qed.
Lemma upsertProfileAndBinding_db_errors ws p b v : db_errors (repo_upsertProfileAndBinding ws p b v).
Proof. unfold repo_upsertProfileAndBinding, upsert_profile, upsert_binding, insert_binding_version. solve_db_errors. Qed.
Lemma deleteBinding_db_errors ws id : db_errors (repo_deleteBinding ws id).
Proof. unfold repo_deleteBinding, repo_getBinding. solve_db_errors. Qed.

(** Take an equation of a transaction that returned apart. *)
Lemma require_row_Ok ok c d u d' : require_row ok c d = (Ok u, d') ↔ ok = true ∧ d = d'.
Proof. unfold require_row. rewrite throw_when_Ok. destruct ok; naive_solver. Qed.
Lemma param_Ok {A} (v : option A) d a d' : param v d = (Ok a, d') ↔ v = Some a ∧ d = d'.
Proof. destruct v; cbn; [|naive_solver]. unfold mret, M_ret. naive_solver. Qed.
Ltac tx_inv :=
  repeat (run_inv; match goal with
  | H : require_row _ _ _ = (Ok _, _) |- _ => apply require_row_Ok in H as [? <-]
  | H : param (Some _) _ = (Ok _, _) |- _ => apply param_Ok in H as [[= <-] <-]
  | H : param _ _ = (Ok _, _) |- _ => apply param_Ok in H as [? <-]
  end); run_inv.

Definition row_of (p : StoredStorageProfile) (hash : option string) : AppStorageProfileRow :=
  mkProfileRow (profile_summary p) (profile_workspaceId p) hash (profile_createdAt p) (profile_updatedAt p).
Lemma row_of_same p h : same_profile p (row_of p h).
Proof. done. Qed.
Lemma admissible_hash d b p h h' : admissible d b (row_of p h) → admissible d b (row_of p h').
Proof. intros [Ap Aw Ar As Ast Ao Asc]. split; try done. apply stored_profile_iff in Ar. by apply stored_profile_iff. Qed.

Lemma upsert_profile_put d b p h scope u d' : admissible d b (row_of p h) →
  (∀ old, map_get (binding_profileId b) (adb_profiles d) = Some old →
     prow_workspaceId old = profile_workspaceId p ∧ prow_createdAt old = profile_createdAt p) →
  upsert_profile scope (row_of p h) d = (Ok u, d') →
  adb_tenants d' = adb_tenants d ∧ adb_bindings d' = adb_bindings d ∧
  ∃ h', put_at (adb_profiles d) (adb_profiles d') (binding_profileId b) (row_of p h').
Proof.
  intros [Ap Aw Ar As Ast Ao Asc] Hold Hu. unfold upsert_profile in Hu. rewrite Ar in Hu. tx_inv. rewrite Ap in *.
  destruct (map_get (binding_profileId b) (adb_profiles _)) as [old|] eqn:E; tx_inv; (split_and!; [done..|]).
  - destruct (Hold _ eq_refl) as [-> ->]. eexists. apply put_set.
  - exists h. apply put_set.
Qed.

Lemma rewritten_same old b : evolve old b → binding_createdAt b = binding_createdAt old → rewritten old b (binding_profileId b) = b.
Proof. intros [Ei Ew Ea Et Ep _] Ec. destruct b, old. cbn in *. by subst. Qed.
Lemma upsert_binding_put d b scope u d' : stored_binding b = Some b →
  (∀ old, map_get (binding_id b) (adb_bindings d) = Some old → continues old b) →
  upsert_binding scope b d = (Ok u, d') →
  adb_tenants d' = adb_tenants d ∧ adb_profiles d' = adb_profiles d ∧ put_at (adb_bindings d) (adb_bindings d') (binding_id b) b.
Proof.
  intros As Hold Hu. unfold upsert_binding in Hu. rewrite As in Hu. tx_inv.
  destruct (map_get (binding_id b) (adb_bindings _)) as [old|] eqn:E; tx_inv; (split_and!; [done..|]); [|apply put_set].
  destruct (Hold _ eq_refl) as [He Hc _ _]. cbn. rewrite rewritten_same by done. apply put_set.
Qed.

(** The memory is one change of a binding and its profile ahead of the tables. *)
Record ahead (w0 : World) (b : StoredStorageBinding) (p : StoredStorageProfile) (w : World) : Prop := mkAhead {
  ah_base : coherent w0;
  ah_db : w_db w = w_db w0;
  ah_hydrated : hydratedWorkspaces (w_registry w) = hydratedWorkspaces (w_registry w0);
  ah_changes : changes (w_memory w0) (w_memory w) b p;
  ah_admissible : admissible (w_db w0) b (row_of p None);
  ah_row old : map_get (binding_profileId b) (adb_profiles (w_db w0)) = Some old →
    prow_workspaceId old = profile_workspaceId p ∧ prow_createdAt old = profile_createdAt p;
  ah_old old : map_get (binding_id b) (adb_bindings (w_db w0)) = Some old → continues old b;
}.

Definition behind (ws : string) (reg : PostgresAppStorageRegistry) : PostgresAppStorageRegistry :=
  mkPostgresRegistry (memory reg) (plaintextExternalIds reg) (List.filter (λ x, x !== ws) (hydratedWorkspaces reg)).
Lemma stale_run ws w : stale ws w = (Ok tt, mkWorld (behind ws (w_registry w)) (w_db w) (w_faults w)).
Proof. done. Qed.
Lemma filter_sub {A} (f : A → bool) l : List.filter f l ⊆ l.
Proof. intros x Hx. by apply List_filter_elem in Hx as [Hx _]. Qed.

(** The tables take the change. *)
Lemma ahead_stored w0 b p w d' h reg fs : ahead w0 b p w →
  adb_tenants d' = adb_tenants (w_db w0) → put_at (adb_bindings (w_db w0)) (adb_bindings d') (binding_id b) b →
  put_at (adb_profiles (w_db w0)) (adb_profiles d') (binding_profileId b) (row_of p h) →
  memory reg = w_memory w → hydratedWorkspaces reg ⊆ hydratedWorkspaces (w_registry w) → coherent (mkWorld reg d' fs).
Proof.
  intros [Hc Hd Hh (Ct & Cb & Cp) Ha Hrow Hold] Ht Hb Hp Hm Hs.
  eapply (coherent_put w0 _ b p (row_of p h)); unfold w_memory in *; cbn [w_registry w_db]; rewrite ?Hm; try done.
  - by eapply admissible_hash.
  - by rewrite <-Hh.
Qed.

(** A transaction by which the tables take the change settles it. *)
Lemma persist_settles w0 b p (t : Tx unit) w ws : ahead w0 b p w → db_errors t →
  (∀ u d', t (w_db w0) = (Ok u, d') → adb_tenants d' = adb_tenants (w_db w0) ∧
     put_at (adb_bindings (w_db w0)) (adb_bindings d') (binding_id b) b ∧
     ∃ h, put_at (adb_profiles (w_db w0)) (adb_profiles d') (binding_profileId b) (row_of p h)) →
  outcome_ok ((scoped t ≫= λ _, stale ws) w).
Proof.
  intros Ha He Ht. destruct (scoped_db_cases t w He) as [(m & fs & Hx)|(u & d' & fs & Hx & Hs)].
  - rewrite (bind_Err_run _ _ _ _ _ Hx). cbn. rewrite (ah_db _ _ _ _ Ha). apply (ah_base _ _ _ _ Ha).
  - rewrite (bind_Ok_run _ _ _ _ _ Hs), stale_run. cbn [w_registry w_db]. rewrite (ah_db _ _ _ _ Ha) in Hx.
    destruct (Ht _ _ Hx) as (H1 & H2 & h & H3). eapply (ahead_stored w0 b p w _ h); try done. apply filter_sub.
Qed.

Lemma ahead_get w0 b p w : ahead w0 b p w → map_get (binding_id b) (bindings (w_memory w)) = Some b ∧
  map_get (binding_profileId b) (profiles (w_memory w)) = Some p.
Proof. intros [_ _ _ (_ & Cb & Cp) _ _ _]. split; by eapply put_eq. Qed.

Lemma persistBinding_settles w0 b p vid id actor version : binding_id b = id →
  settles (ahead w0 b p) (pg_persistBinding vid id actor version).
Proof.
  intros <- w Ha. destruct (ahead_get _ _ _ _ Ha) as [Hb Hp]. unfold pg_persistBinding. run. rewrite Hb. run. rewrite Hp. run.
  set (plain := or_null _ _).
  assert (∃ v, ((if version && truthy actor then in_memory (toSummary b) ≫= λ s, mret (Some (vid, s, default "" actor, binding_updatedAt b))
                 else mret None) : P _) w = (Ok v, w)) as [v Hv].
  { destruct (version && truthy actor); [|by eexists]. destruct (toSummary_ok _ _ _ Hp) as [s Hs].
    eexists. unfold mbind, M_bind, in_memory. rewrite Hs. cbn. by destruct w as [[]]. }
  rewrite (bind_Ok_run _ _ _ _ _ Hv). eapply persist_settles; [done|..].
  - apply upsertProfileAndBinding_db_errors.
  - intros u d' Hx. unfold repo_upsertProfileAndBinding in Hx. apply M_bind_Ok in Hx as (u1 & d1 & H1 & Hx).
    apply M_bind_Ok in Hx as (u2 & d2 & H2 & H3).
    destruct Ha as [_ _ _ _ Had Hrow Hold].
    apply (upsert_profile_put _ b p) in H1 as (T1 & B1 & h & P1); [|by eapply admissible_hash|done].
    apply upsert_binding_put in H2 as (T2 & P2 & B2); [|apply Had|by rewrite B1].
    assert (adb_tenants d' = adb_tenants d2 ∧ adb_bindings d' = adb_bindings d2 ∧ adb_profiles d' = adb_profiles d2) as (T3 & B3 & P3).
    { destruct v as [[[[]]]|]; [|by injection H3 as _ <-]. unfold insert_binding_version in H3. tx_inv. done. }
    rewrite T3, B3, P3, T2, P2, T1. rewrite B1 in B2. eauto.
Qed.

Lemma persistBindingState_settles w0 b p id : binding_id b = id →
  settles (λ w, ahead w0 b p w ∧ is_Some (map_get id (adb_bindings (w_db w0))) ∧
             ∃ row, map_get (binding_profileId b) (adb_profiles (w_db w0)) = Some row ∧ same_profile p row)
    (pg_persistBindingState id).
Proof.
  intros <- w (Ha & [old Hold] & row & Hrow & Hsame). destruct (ahead_get _ _ _ _ Ha) as [Hb Hp].
  unfold pg_persistBindingState. run. rewrite Hb. run. eapply persist_settles; [done|..].
  - apply updateBindingState_db_errors.
  - intros u d' Hx. destruct Ha as [_ _ _ _ [] _ Hcont]. destruct (Hcont _ Hold) as [He Hc _ _].
    unfold repo_updateBindingState, repo_getBinding in Hx. rewrite ad_stored0 in Hx. tx_inv.
    match goal with Hy : context [match map_get _ _ with _ => _ end] |- _ => rewrite Hold, (evolve_workspace _ _ He), strict_eq_refl in Hy end.
    tx_inv. cbn. split_and!; [done|..].
    + rewrite <-(evolve_profile _ _ He), rewritten_same by done. apply put_set.
    + exists (prow_externalIdHash row). apply put_same. rewrite Hrow. f_equal. destruct Hsame, row. unfold row_of. cbn in *. congruence.
Qed.

(** A profile alone, before its binding follows. *)
Lemma db_ok_put_profile d d' id b row : db_ok d → map_get id (adb_bindings d) = Some b →
  profile_id (prow_profile row) = binding_profileId b → prow_workspaceId row = binding_workspaceId b →
  stored_profile row = Some row → adb_tenants d' = adb_tenants d → adb_bindings d' = adb_bindings d →
  put_at (adb_profiles d) (adb_profiles d') (binding_profileId b) row → db_ok d'.
Proof.
  intros Hd Hb Hi Hw Hr Ht Hbs Hp. destruct (dk_binding _ Hd _ _ Hb) as (<- & Hst & Hm).
  apply (db_ok_put d d' b row); [done| |done|rewrite Hbs; by apply put_same|done]. split; try done.
  - intros i x Hx He. by eapply (dk_own _ Hd).
  - intros i x Hx H1 H2 H3. by eapply (dk_scope _ Hd).
Qed.

Lemma persistPlan_settles w0 b p id : binding_id b = id →
  settles (λ w, ahead w0 b p w ∧ is_Some (map_get id (adb_bindings (w_db w0))) ∧
             ∃ row, map_get (binding_profileId b) (adb_profiles (w_db w0)) = Some row ∧
               ∃ cap code, profile_summary p = set_declared cap code (prow_profile row))
    (pg_persistPlan id).
Proof.
  intros <- w (Ha & [old Hold] & row & Hrow & cap & code & Hsum). destruct (ahead_get _ _ _ _ Ha) as [Hb Hp].
  pose proof (ah_row _ _ _ _ Ha _ Hrow) as [Hw Hc]. pose proof (ah_old _ _ _ _ Ha _ Hold) as [He Hcr _ _].
  pose proof (ah_admissible _ _ _ _ Ha) as [Ap Aw Ar As _ _ _]. cbn in Ap, Aw. apply stored_profile_iff in Ar as [Ac Au]. cbn in Ac, Au.
  pose proof (co_db _ (ah_base _ _ _ _ Ha)) as Hok.
  set (row' := row_of p (prow_externalIdHash row)).
  unfold pg_persistPlan. run. rewrite Hb. run. rewrite Hp. run.
  match goal with |- context [scoped ?t ≫= _] =>
    destruct (scoped_db_cases t w (updateProfilePlan_db_errors _ _ _ _ _)) as [(m & fs & Hx)|(u & d' & fs & Hx & Hs)] end.
  - rewrite (bind_Err_run _ _ _ _ _ Hx). cbn. by rewrite (ah_db _ _ _ _ Ha).
  - rewrite (bind_Ok_run _ _ _ _ _ Hs). rewrite (ah_db _ _ _ _ Ha), Ap in Hx. unfold repo_updateProfilePlan in Hx.
    rewrite Au in Hx. tx_inv. match goal with Hy : _ = (Ok _, d') |- _ => rename Hy into Hz end. rewrite Hrow, Hw, Aw, strict_eq_refl in Hz. tx_inv.
    set (d1 := adb_set_profiles _ _) in *.
    assert (adb_profiles d1 = map_set (binding_profileId b) row' (adb_profiles (w_db w0))) as Hd1.
    { unfold d1, row', row_of. cbn. by rewrite Hsum, Aw, Hc. }
    assert (db_ok d1) as Hok1.
    { apply (db_ok_put_profile (w_db w0) d1 _ old row' Hok Hold); try done.
      - cbn. by rewrite Ap, (evolve_profile _ _ He).
      - cbn. by rewrite Aw, (evolve_workspace _ _ He).
      - by apply stored_profile_iff.
      - rewrite Hd1, <-(evolve_profile _ _ He). apply put_set. }
    set (w1 := mkWorld (w_registry w) d1 fs).
    destruct (scoped_db_cases (repo_updateBindingState b) w1 (updateBindingState_db_errors b)) as [(m & fs2 & Hx2)|(u2 & d2 & fs2 & Hx2 & Hs2)].
    + by rewrite (bind_Err_run _ _ _ _ _ Hx2).
    + rewrite (bind_Ok_run _ _ _ _ _ Hs2), stale_run. unfold repo_updateBindingState, repo_getBinding in Hx2.
      rewrite As in Hx2. tx_inv. match goal with Hy : _ = (Ok _, d2) |- _ => rename Hy into Hz end.
      cbn [w_db w1] in Hz. cbn [d1 adb_bindings adb_set_profiles] in Hz.
      rewrite Hold, (evolve_workspace _ _ He), strict_eq_refl in Hz. tx_inv.
      eapply (ahead_stored w0 b p w _ (prow_externalIdHash row)); try done.
      * cbn. rewrite <-(evolve_profile _ _ He), rewritten_same by done. apply put_set.
      * change (adb_profiles _) with (adb_profiles d1) at 2. rewrite Hd1. apply put_set.
      * apply filter_sub.
Qed.

(** ** Reading a workspace *)

(** The memory only gains entries. *)
Record grows (w w' : World) : Prop := mkGrows {
  gr_db : w_db w' = w_db w;
  gr_hydrated : hydratedWorkspaces (w_registry w') = hydratedWorkspaces (w_registry w);
  gr_tenants id : is_Some (map_get id (tenants (w_memory w))) → is_Some (map_get id (tenants (w_memory w')));
  gr_profiles id : is_Some (map_get id (profiles (w_memory w))) → is_Some (map_get id (profiles (w_memory w')));
  gr_bindings id : is_Some (map_get id (bindings (w_memory w))) → is_Some (map_get id (bindings (w_memory w')));
}.
#[local] Instance grows_preorder : PreOrder grows.
Proof. split; [by split|]. intros x y z [] []. split; [congruence|congruence|auto..]. Qed.

(** A part of reading: it fills the memory, or fails on the database. *)
Definition fills (m : P unit) (R : World → Prop) (w : World) : Prop :=
  match m w with
  | (Ok _, w') => coherent w' ∧ grows w w' ∧ R w'
  | (Err e, w') => (∃ msg, e = Database msg) ∧ db_ok (w_db w')
  end.
Definition lasting (R : World → Prop) : Prop := ∀ w w', grows w w' → R w → R w'.

Lemma fills_bind (m : P unit) (f : unit → P unit) R R' w : fills m R w → lasting R →
  (∀ w', coherent w' → grows w w' → R w' → fills (f tt) R' w') → fills (m ≫= f) (λ w, R w ∧ R' w) w.
Proof.
  unfold fills. intros Hm Hl Hf. unfold mbind, M_bind. destruct (m w) as [[[]|e] w1]; [|done].
  destruct Hm as (Hc & Hg & HR). specialize (Hf w1 Hc Hg HR). destruct (f tt w1) as [[u|e] w2]; [|done].
  destruct Hf as (Hc2 & Hg2 & HR2). split_and!; [done|by etrans|by eapply Hl|done].
Qed.
Lemma fills_for_each {A} (f : A → P unit) (l : list A) (I : World → Prop) (R : A → World → Prop) w :
  lasting I → (∀ x, lasting (R x)) → (∀ x w, x ∈ l → coherent w → I w → fills (f x) (R x) w) →
  coherent w → I w → fills (for_each f l) (λ w, ∀ x, x ∈ l → R x w) w.
Proof.
  intros HI HR. revert w. induction l as [|x l IH]; intros w Hf Hc Hi; cbn [for_each].
  - split_and!; [done|reflexivity|by intros x ?%elem_of_nil].
  - assert (fills (f x ≫= λ _, for_each f l) (λ w, R x w ∧ ∀ y, y ∈ l → R y w) w) as Hb.
    { apply fills_bind; [apply Hf; [apply list_elem_of_here|done..]|apply HR|]. intros w' Hc' Hg _.
      apply IH; [|done|by eapply HI]. intros y w2 Hy. apply Hf. by right. }
    unfold fills in Hb |- *. destruct ((f x ≫= _) w) as [[[]|e] w']; [|exact Hb]. destruct Hb as (Hc' & Hg & H1 & H2).
    split_and!; [done..|]. intros y [->|Hy]%elem_of_cons; [exact H1|exact (H2 y Hy)].
Qed.

Lemma memory_put w r : w_memory (set_memory r w) = r.
Proof. done. Qed.
Lemma in_memory_gets {A} (f : InMemoryAppStorageRegistry → A) w : in_memory (gets f) w = (Ok (f (w_memory w)), w).
Proof. unfold in_memory. cbn. by destruct w as [[]]. Qed.
Lemma in_memory_modify f w : in_memory (modify f) w = (Ok tt, set_memory (f (w_memory w)) w).
Proof. done. Qed.
(** Only the versions, or what is not compared, change in memory. *)
Lemma coherent_aside w r : tenants r = tenants (w_memory w) → profiles r = profiles (w_memory w) → bindings r = bindings (w_memory w) →
  coherent w → coherent (set_memory r w) ∧ grows w (set_memory r w).
Proof.
  intros Ht Hp Hb [C1 C2 C3 C4 C5 C6 C7 C8 C9]. split; split; rewrite ?memory_put, ?Ht, ?Hp, ?Hb; done.
Qed.

Lemma get_set_some {V} k v i (m : list (string * V)) : is_Some (map_get i m) → is_Some (map_get i (map_set k v m)).
Proof. destruct (decide (i = k)) as [->|Hne]; [rewrite map_get_set_eq|rewrite map_get_set_ne]; eauto. Qed.
Lemma fill_tenant w t : coherent w → map_get (tenant_id t) (adb_tenants (w_db w)) = Some t →
  fills (in_memory (put_tenant (tenant_id t) t)) (λ w, is_Some (map_get (tenant_id t) (tenants (w_memory w)))) w.
Proof.
  intros [C1 C2 C3 C4 C5 C6 C7 C8 C9] Ht. unfold fills, put_tenant. rewrite in_memory_modify.
  split_and!; [split; rewrite ?memory_put; cbn; try done|split; rewrite ?memory_put; cbn; try done|rewrite memory_put; cbn; rewrite map_get_set_eq; eauto].
  - by apply NoDup_map_set.
  - intros i x [[-> ->]|[_ Hx]]%(put_inv _ _ _ _ _ _ (put_set _ _ _)); [done|by apply C4].
  - intros ws i x Hws Hx Hw. rewrite (put_get _ _ _ _ (put_set _ _ _)). destruct (decide (i = tenant_id t)) as [->|]; [congruence|by eapply C8].
  - intros i. apply get_set_some.
Qed.
Lemma fill_profile w p : coherent w → map_get (profile_id (prow_profile p)) (adb_profiles (w_db w)) = Some p →
  fills (in_memory (put_profile (profile_id (prow_profile p)) (hydrated_profile p)))
    (λ w, is_Some (map_get (profile_id (prow_profile p)) (profiles (w_memory w)))) w.
Proof.
  intros [C1 C2 C3 C4 C5 C6 C7 C8 C9] Hp. unfold fills, put_profile. rewrite in_memory_modify.
  split_and!; [split; rewrite ?memory_put; cbn; try done|split; rewrite ?memory_put; cbn; try done|rewrite memory_put; cbn; rewrite map_get_set_eq; eauto].
  - intros i x [[-> ->]|[_ Hx]]%(put_inv _ _ _ _ _ _ (put_set _ _ _)); [by exists p|by apply C5].
  - intros i x Hx. apply get_set_some. eauto.
  - intros i. apply get_set_some.
Qed.
Lemma fill_binding w b : coherent w → map_get (binding_id b) (adb_bindings (w_db w)) = Some b →
  is_Some (map_get (binding_profileId b) (profiles (w_memory w))) →
  fills (in_memory (put_binding (binding_id b) b)) (λ w, is_Some (map_get (binding_id b) (bindings (w_memory w)))) w.
Proof.
  intros [C1 C2 C3 C4 C5 C6 C7 C8 C9] Hb Hp. unfold fills, put_binding. rewrite in_memory_modify.
  split_and!; [split; rewrite ?memory_put; cbn; try done|split; rewrite ?memory_put; cbn; try done|rewrite memory_put; cbn; rewrite map_get_set_eq; eauto].
  - by apply NoDup_map_set.
  - intros i x [[-> ->]|[_ Hx]]%(put_inv _ _ _ _ _ _ (put_set _ _ _)); [done|by apply C6].
  - intros i x [[-> ->]|[_ Hx]]%(put_inv _ _ _ _ _ _ (put_set _ _ _)); [done|by eapply C7].
  - intros ws i x Hws Hx Hw. rewrite (put_get _ _ _ _ (put_set _ _ _)). destruct (decide (i = binding_id b)) as [->|]; [congruence|by eapply C9].
  - intros i. apply get_set_some.
Qed.

Lemma value_key {V} (m : list (string * V)) x : NoDup m.*1 → x ∈ m.*2 ↔ ∃ k, map_get k m = Some x.
Proof.
  intros Hn. split.
  - intros ([k y] & -> & Hin)%list_elem_of_fmap. exists k. by apply map_elem_get.
  - intros [k Hk%map_get_elem]. apply list_elem_of_fmap. by exists (k, x).
Qed.
Lemma hydrate_binding_fills ws w b : coherent w → map_get (binding_id b) (adb_bindings (w_db w)) = Some b →
  is_Some (map_get (binding_profileId b) (profiles (w_memory w))) →
  fills (hydrate_binding ws b) (λ w, is_Some (map_get (binding_id b) (bindings (w_memory w)))) w.
Proof.
  intros Hc Hb Hp. pose proof (fill_binding w b Hc Hb Hp) as Hf. unfold hydrate_binding, fills in *. unfold mbind at 1, M_bind at 1.
  destruct (in_memory (put_binding (binding_id b) b) w) as [[[]|e] w1]; [|done]. destruct Hf as (Hc1 & Hg1 & HR1).
  destruct (scoped_read (λ d, order_by (λ a b, Z.leb (version_generation b) (version_generation a))
    (List.filter (λ v, (version_workspaceId v === ws) && (version_bindingId v === binding_id b)) (adb_versions d))) w1)
    as [(m & fs & Hx)|(fs & Hx)]; fold (repo_listBindingVersions ws (binding_id b)) in Hx.
  - rewrite (bind_Err_run _ _ _ _ _ Hx). split; [eauto|]. apply Hc1.
  - rewrite (bind_Ok_run _ _ _ _ _ Hx). set (vs := order_by _ _). clearbody vs.
    set (w2 := mkWorld (w_registry w1) (w_db w1) fs).
    assert (coherent w2 ∧ grows w w2 ∧ is_Some (map_get (binding_id b) (bindings (w_memory w2)))) as Hw2.
    { split_and!; [by apply coherent_faults|by destruct Hg1; split|done]. }
    clearbody w2. clear - Hw2. revert w2 Hw2. induction vs as [|v vs IH]; intros w2 (Hc & Hg & HR); cbn [for_each]; [done|].
    match goal with |- context [in_memory (modify ?f) ≫= _] => rewrite (bind_Ok_run _ _ _ _ _ (in_memory_modify f w2)) end.
    apply IH. match goal with |- context [set_memory ?r w2] => destruct (coherent_aside w2 r) as [Hc' Hg']; [done..|] end.
    split_and!; [done|by etrans|by apply (gr_bindings _ _ Hg')].
Qed.

Lemma read_world w fs (w1 := mkWorld (w_registry w) (w_db w) fs) : coherent w → coherent w1 ∧ grows w w1.
Proof. intros Hc. split; [by apply coherent_faults|by split]. Qed.
Lemma bind_three (m1 m2 m3 k : P unit) w :
  (m1 ≫= λ _, m2 ≫= λ _, m3 ≫= λ _, k) w = ((m1 ≫= λ _, m2 ≫= λ _, m3) ≫= λ _, k) w.
Proof.
  unfold mbind, M_bind. destruct (m1 w) as [[[]|e] w1]; [|done]. destruct (m2 w1) as [[[]|e] w2]; [|done]. by destruct (m3 w2) as [[[]|e] w3].
Qed.

(** Reading the rows of a workspace into memory. *)
Definition load (ws : string) (ts : list ApplicationTenant) (ps : list AppStorageProfileRow) (bs : list AppStorageBindingRow) : P unit :=
  for_each (λ t, in_memory (put_tenant (tenant_id t) t)) ts ≫= λ _,
  for_each (λ p, in_memory (put_profile (profile_id (prow_profile p)) (hydrated_profile p))) ps ≫= λ _,
  for_each (hydrate_binding ws) bs.
Lemma load_fills ws ts ps bs w : coherent w →
  (∀ t, t ∈ ts → map_get (tenant_id t) (adb_tenants (w_db w)) = Some t) →
  (∀ p, p ∈ ps → map_get (profile_id (prow_profile p)) (adb_profiles (w_db w)) = Some p) →
  (∀ b, b ∈ bs → map_get (binding_id b) (adb_bindings (w_db w)) = Some b ∧
     ∃ p, p ∈ ps ∧ profile_id (prow_profile p) = binding_profileId b) →
  fills (load ws ts ps bs) (λ w, (∀ t, t ∈ ts → is_Some (map_get (tenant_id t) (tenants (w_memory w)))) ∧
    (∀ p, p ∈ ps → is_Some (map_get (profile_id (prow_profile p)) (profiles (w_memory w)))) ∧
    (∀ b, b ∈ bs → is_Some (map_get (binding_id b) (bindings (w_memory w))))) w.
Proof.
  intros Hc Ht Hp Hb. set (d := w_db w) in *. set (I := λ w, w_db w = d).
  assert (lasting I) as HI by (intros x y [Hg _ _ _ _]; unfold I; congruence).
  assert (I w) as Hw by done. clearbody d. unfold load. apply fills_bind; [|intros x y Hg HR t Hin; by apply (gr_tenants _ _ Hg), HR|].
  - apply (fills_for_each _ _ I); [done|intros t x y Hg; apply Hg| |done|done].
    intros t x Hin Hcx Hx. apply fill_tenant; [done|]. rewrite Hx. auto.
  - intros w1 Hc1 Hg1 _. apply fills_bind; [|intros x y Hg HR p Hin; by apply (gr_profiles _ _ Hg), HR|].
    + apply (fills_for_each _ _ I); [done|intros p x y Hg; apply Hg| |done|by eapply HI].
      intros p x Hin Hcx Hx. apply fill_profile; [done|]. rewrite Hx. auto.
    + intros w2 Hc2 Hg2 HP. set (J := λ w, I w ∧ ∀ p, p ∈ ps → is_Some (map_get (profile_id (prow_profile p)) (profiles (w_memory w)))).
      apply (fills_for_each _ _ J); [|intros b x y Hg; apply Hg| |done|].
      * intros x y Hg [HIx HPx]. split; [by eapply HI|]. intros p Hin. by apply (gr_profiles _ _ Hg), HPx.
      * intros b x Hin Hcx [Hx HPx]. destruct (Hb _ Hin) as (Hd & p & Hpin & Hpe).
        apply hydrate_binding_fills; [done|by rewrite Hx|]. rewrite <-Hpe. auto.
      * split; [|done]. by eapply HI, HI.
Qed.

(** The rows the three queries return. *)
Definition workspace_tenants (ws : string) (d : AppDb) := order_by (tenant_before collation) (tenants_of ws d).
Definition workspace_profiles (ws : string) (d : AppDb) := List.filter (λ p, prow_workspaceId p === ws) (adb_profiles d).*2.
Definition workspace_bindings (ws : string) (d : AppDb) :=
  order_by created_before (List.filter (λ b, (binding_workspaceId b === ws) && true && true) (adb_bindings d).*2).
Lemma workspace_tenants_spec ws d t : db_ok d → t ∈ workspace_tenants ws d ↔
  map_get (tenant_id t) (adb_tenants d) = Some t ∧ tenant_workspaceId t = ws.
Proof.
  intros Hd. unfold workspace_tenants, tenants_of. rewrite order_by_perm, List_filter_elem, (value_key _ _ (dk_tenant_keys _ Hd)), bool_decide_eq_true.
  split; [intros [[k Hk] <-]; by destruct (dk_tenant _ Hd _ _ Hk) as [<- _]|naive_solver].
Qed.
Lemma workspace_profiles_spec ws d p : db_ok d → p ∈ workspace_profiles ws d ↔
  map_get (profile_id (prow_profile p)) (adb_profiles d) = Some p ∧ prow_workspaceId p = ws.
Proof.
  intros Hd. unfold workspace_profiles. rewrite List_filter_elem, (value_key _ _ (dk_profile_keys _ Hd)), bool_decide_eq_true.
  split; [intros [[k Hk] <-]; by destruct (dk_profile _ Hd _ _ Hk) as [<- _]|naive_solver].
Qed.
Lemma workspace_bindings_spec ws d b : db_ok d → b ∈ workspace_bindings ws d ↔
  map_get (binding_id b) (adb_bindings d) = Some b ∧ binding_workspaceId b = ws.
Proof.
  intros Hd. unfold workspace_bindings. rewrite order_by_perm, List_filter_elem, (value_key _ _ (dk_binding_keys _ Hd)).
  rewrite !andb_true_r, bool_decide_eq_true.
  split; [intros [[k Hk] <-]; by destruct (dk_binding _ Hd _ _ Hk) as [<- _]|naive_solver].
Qed.

(** Reading a workspace ends with it in memory, the tables unchanged. *)
Definition hydrated (ws : string) (w : World) : Prop := coherent w ∧ ws ∈ hydratedWorkspaces (w_registry w).
Lemma hydrate_unread ws w : coherent w → ws ∉ hydratedWorkspaces (w_registry w) →
  match pg_ensureHydrated collation ws w with
  | (Ok _, w') => hydrated ws w' ∧ w_db w' = w_db w
  | (Err e, w') => (∃ msg, e = Database msg) ∧ db_ok (w_db w')
  end.
Proof.
  intros Hc Hn. pose proof (co_db _ Hc) as Hd. unfold pg_ensureHydrated. rewrite gets_bind, bool_decide_eq_false_2 by done.
  destruct (scoped_read (workspace_tenants ws) w) as [(m & fs & Hx)|(fs & Hx)];
    [rewrite (bind_Err_run _ _ _ _ _ Hx); split; [eauto|done]|rewrite (bind_Ok_run _ _ _ _ _ Hx); clear Hx].
  destruct (read_world w fs Hc) as [Hc1 Hg1]. set (w1 := mkWorld (w_registry w) (w_db w) fs) in *.
  destruct (scoped_read (workspace_profiles ws) w1) as [(m & fs1 & Hx)|(fs1 & Hx)];
    [rewrite (bind_Err_run _ _ _ _ _ Hx); split; [eauto|done]|rewrite (bind_Ok_run _ _ _ _ _ Hx); clear Hx].
  destruct (read_world w1 fs1 Hc1) as [Hc2 Hg2]. set (w2 := mkWorld (w_registry w1) (w_db w1) fs1) in *.
  destruct (scoped_read (workspace_bindings ws) w2) as [(m & fs2 & Hx)|(fs2 & Hx)];
    [rewrite (bind_Err_run _ _ _ _ _ Hx); split; [eauto|done]|rewrite (bind_Ok_run _ _ _ _ _ Hx); clear Hx].
  destruct (read_world w2 fs2 Hc2) as [Hc3 Hg3]. set (w3 := mkWorld (w_registry w2) (w_db w2) fs2) in *.
  change (w_db w2) with (w_db w). change (w_db w1) with (w_db w).
  pose proof (load_fills ws (workspace_tenants ws (w_db w)) (workspace_profiles ws (w_db w)) (workspace_bindings ws (w_db w)) w3 Hc3) as Hl.
  ospecialize* Hl; [intros t [Ht _]%workspace_tenants_spec; done|intros p [Hp _]%workspace_profiles_spec; done| |].
  { intros b [Hb Hws]%workspace_bindings_spec; [|done]. split; [done|]. destruct (dk_bound _ Hd _ _ Hb) as (p & Hp & Hpw).
    exists p. pose proof (dk_profile _ Hd _ _ Hp) as [He _]. split; [|done]. apply workspace_profiles_spec; [done|]. by rewrite He, Hpw. }
  rewrite bind_three. fold (load ws (workspace_tenants ws (w_db w)) (workspace_profiles ws (w_db w)) (workspace_bindings ws (w_db w))).
  unfold fills in Hl. unfold mbind, M_bind. destruct (load _ _ _ _ w3) as [[[]|e] w4]; [|exact Hl].
  destruct Hl as (Hc4 & [Gd Gh _ _ _] & Ht & Hp & Hb). destruct Hc4 as [C1 C2 C3 C4 C5 C6 C7 C8 C9].
  split; [|exact Gd]. split; [|cbn; apply elem_of_app; right; apply list_elem_of_here].
  split; cbn; try done.
  - intros ws' i x [Hin| ->%list_elem_of_singleton]%elem_of_app Hx Hw; [by eapply C8|].
    rewrite Gd in Hx. destruct (dk_tenant _ Hd _ _ Hx) as [<- _]. destruct (Ht x) as [y Hy]; [by apply workspace_tenants_spec|].
    fold (w_memory w4) in *. rewrite Hy. apply C4 in Hy. rewrite Gd in Hy. congruence.
  - intros ws' i x [Hin| ->%list_elem_of_singleton]%elem_of_app Hx Hw; [by eapply C9|].
    rewrite Gd in Hx. destruct (dk_binding _ Hd _ _ Hx) as [<- _]. destruct (Hb x) as [y Hy]; [by apply workspace_bindings_spec|].
    fold (w_memory w4) in *. rewrite Hy. apply C6 in Hy. rewrite Gd in Hy. congruence.
Qed.
Lemma hydrate_run ws w : coherent w →
  match pg_ensureHydrated collation ws w with
  | (Ok _, w') => hydrated ws w' ∧ w_db w' = w_db w
  | (Err e, w') => (∃ msg, e = Database msg) ∧ db_ok (w_db w')
  end.
Proof.
  intros Hc. destruct (decide (ws ∈ hydratedWorkspaces (w_registry w))) as [Hin|Hn]; [|by apply hydrate_unread].
  unfold pg_ensureHydrated. rewrite gets_bind, bool_decide_eq_true_2 by done. done.
Qed.
Lemma hydrate_leads ws d : leads (λ w, coherent w ∧ w_db w = d) (ensureHydrated ws) (λ _ w, hydrated ws w ∧ w_db w = d).
Proof.
  intros w [Hc <-]. pose proof (hydrate_run ws w Hc) as Hr. cbn. destruct (pg_ensureHydrated collation ws w) as [[[]|e] w']; [done|].
  destruct Hr as [[m ->] Hd]. exact Hd.
Qed.

(** ** Commands that change one binding *)

(** The memory may be one change of the binding [id] ahead; [Q] relates its
    profile to the row stored. *)
Definition pending (Q : StoredStorageProfile → AppStorageProfileRow → Prop) (id : string) (w : World) : Prop :=
  ∃ w0 b p row, ahead w0 b p w ∧ binding_id b = id ∧ is_Some (map_get id (adb_bindings (w_db w0))) ∧
    map_get (binding_profileId b) (adb_profiles (w_db w0)) = Some row ∧ Q p row.

(** Nothing is pending. *)
Lemma coherent_ahead id b p w : coherent w → map_get id (bindings (w_memory w)) = Some b →
  map_get (binding_profileId b) (profiles (w_memory w)) = Some p → ahead w b p w.
Proof.
  intros Hc Hb Hp. pose proof (co_db _ Hc) as Hd. pose proof (co_binding _ Hc _ _ Hb) as Hdb.
  destruct (dk_binding _ Hd _ _ Hdb) as (<- & Hst & Hm).
  destruct (co_profile _ Hc _ _ Hp) as (row & Hrow & [S1 S2 S3 S4]). destruct (dk_bound _ Hd _ _ Hdb) as (row' & Hrow' & Hw). simplify_eq.
  destruct (dk_profile _ Hd _ _ Hrow) as [Hri Hrs]. split; try done.
  - split_and!; [done|by apply put_same|by apply put_same].
  - split; cbn; try done; rewrite ?S1, ?S2; try done.
    + apply stored_profile_iff in Hrs as [? ?]. apply stored_profile_iff. cbn. by rewrite S3, S4.
    + intros i x Hx He. by eapply (dk_own _ Hd).
    + intros i x Hx H1 H2 H3. by eapply (dk_scope _ Hd).
  - intros old Ho. simplify_eq. by rewrite S2, S3.
  - intros old Ho. simplify_eq. split; [reflexivity|done..].
Qed.
Lemma coherent_pending id b w : coherent w → map_get id (bindings (w_memory w)) = Some b → pending same_profile id w.
Proof.
  intros Hc Hb. destruct (co_bound _ Hc _ _ Hb) as [p Hp]. destruct (co_profile _ Hc _ _ Hp) as (row & Hrow & Hsame).
  pose proof (co_binding _ Hc _ _ Hb) as Hdb. destruct (dk_binding _ (co_db _ Hc) _ _ Hdb) as (Hi & _).
  exists w, b, p, row. split_and!; try done. by eapply coherent_ahead.
Qed.

Lemma ahead_base w : (∃ w0 b p, ahead w0 b p w) → db_ok (w_db w).
Proof. intros (w0 & b & p & Ha). rewrite (ah_db _ _ _ _ Ha). apply (ah_base _ _ _ _ Ha). Qed.

(** A further change. *)
Lemma ahead_change w0 b p w r' b' p' : ahead w0 b p w → continues b b' →
  profile_id (profile_summary p') = profile_id (profile_summary p) → profile_workspaceId p' = profile_workspaceId p →
  profile_createdAt p' = profile_createdAt p → stored_time (profile_updatedAt p') = Some (profile_updatedAt p') →
  changes (w_memory w) r' b' p' → ahead w0 b' p' (set_memory r' w).
Proof.
  intros [Hc0 Hdb Hh (Ct & Cb & Cp) Had Hro Hold] Hc Qi Qw Qc Qu (Ct' & Cb' & Cp').
  pose proof Hc as [[Ei Ew Ea Et Ep Eg] Ecr Est Ems]. destruct Had as [Ap Aw Ar As Ast Ao Asc]. cbn in Ap, Aw.
  apply stored_profile_iff in Ar as [Arc Aru]. cbn in Arc, Aru. rewrite Ei in Cb'. rewrite Ep in Cp'.
  split; rewrite ?memory_put; try done.
  - split_and!; [by rewrite Ct'|rewrite Ei; by eapply put_put|rewrite Ep; by eapply put_put].
  - split; cbn; rewrite ?Ei, ?Ep, ?Ew, ?Ea, ?Et; auto.
    + by rewrite Qi.
    + by rewrite Qw.
    + apply stored_profile_iff. cbn. by rewrite Qc, Qu.
  - rewrite Ep. intros old Ho. rewrite Qw, Qc. by apply Hro.
  - rewrite Ei. intros old Ho. etrans; [by apply Hold|done].
Qed.

(** A call that changes the binding and its profile, or throws without a change. *)
Lemma pending_change {A} id (m : Reg A) R Q w : changes_one id m R →
  (∀ p p' row, same_profile p row → stored_profile row = Some row → R p p' → Q p' row ∧
     profile_id (profile_summary p') = profile_id (profile_summary p) ∧ profile_workspaceId p' = profile_workspaceId p ∧
     profile_createdAt p' = profile_createdAt p ∧ stored_time (profile_updatedAt p') = Some (profile_updatedAt p')) →
  pending same_profile id w →
  (∃ e, in_memory m w = (Err (Domain e), w)) ∨ (∃ a w', in_memory m w = (Ok a, w') ∧ pending Q id w').
Proof.
  intros Hm HR (w0 & b & p & row & Ha & <- & Hin & Hrow & Hsame). destruct (ahead_get _ _ _ _ Ha) as [Hb Hp].
  destruct (Hm _ _ _ Hb eq_refl Hp) as [[e He]|(a & r' & b' & p' & Hr & Hc & HRp & Hch)].
  - left. exists e. unfold in_memory. rewrite He. cbn. by destruct w as [[]].
  - right. exists a, (set_memory r' w). split; [unfold in_memory; by rewrite Hr|].
    destruct (dk_profile _ (co_db _ (ah_base _ _ _ _ Ha)) _ _ Hrow) as [_ Hrs].
    destruct (HR _ _ _ Hsame Hrs HRp) as (HQ & Qi & Qw & Qc & Qu). pose proof (cont_evolve _ _ Hc) as [Ei _ _ _ Ep _].
    exists w0, b', p', row. rewrite Ei, Ep. split_and!; try done. by eapply ahead_change.
Qed.

Lemma pending_faults Q id w fs : pending Q id w → pending Q id (mkWorld (w_registry w) (w_db w) fs).
Proof. intros (w0 & b & p & row & [A1 A2 A3 A4 A5 A6 A7] & Hrest). exists w0, b, p, row. by split; [split|]. Qed.
Lemma pending_base Q id w : pending Q id w → db_ok (w_db w).
Proof. intros (w0 & b & p & row & Ha & _). apply ahead_base. eauto. Qed.

(** Writing the state of the binding fails on the database, the change still
    pending, or settles it. *)
Lemma persist_state id w : pending same_profile id w →
  (∃ m w', pg_persistBindingState id w = (Err (Database m), w') ∧ pending same_profile id w') ∨
  (∃ w', pg_persistBindingState id w = (Ok tt, w') ∧ coherent w' ∧ pending same_profile id w').
Proof.
  intros Hp. pose proof Hp as (w0 & b & p & row & Ha & Hid & Hin & Hrow & Hsame).
  pose proof (persistBindingState_settles w0 b p id Hid w) as Hs. ospecialize* Hs; [split_and!; [done..|by exists row]|].
  destruct (ahead_get _ _ _ _ Ha) as [Hb _]. rewrite Hid in Hb. unfold pg_persistBindingState in Hs |- *.
  rewrite gets_bind, Hb in Hs. rewrite gets_bind, Hb.
  destruct (scoped_db_cases (repo_updateBindingState b) w (updateBindingState_db_errors b)) as [(m & fs & Hx)|(u & d' & fs & _ & Hx)].
  - left. rewrite (bind_Err_run _ _ _ _ _ Hx). eexists _, _. split; [done|]. by apply pending_faults.
  - right. rewrite (bind_Ok_run _ _ _ _ _ Hx), stale_run in Hs. rewrite (bind_Ok_run _ _ _ _ _ Hx), stale_run.
    eexists. split; [done|]. split; [exact Hs|]. by eapply coherent_pending.
Qed.
(** So it goes with the answer: the outcome is settled, or the change pending. *)
Lemma saved_run id s w : pending same_profile id w →
  outcome_ok (saved (W:=World) id s w) ∧ match saved (W:=World) id s w with (Err e, w') => pending same_profile id w' | _ => True end.
Proof.
  intros Hp. unfold saved. change (persistBindingState id) with (pg_persistBindingState id).
  destruct (persist_state id w Hp) as [(m & w' & Hx & Hw)|(w' & Hx & Hc & Hw)].
  - rewrite (bind_Err_run _ _ _ _ _ Hx). split; [by eapply pending_base|done].
  - rewrite (bind_Ok_run _ _ _ _ _ Hx). split; [by apply answered_settles|]. unfold answered, checked. rewrite lift_bind.
    by destruct (assertNoSecrets (summary_json s)).
Qed.
Lemma saved_settles id s : settles (pending same_profile id) (saved (W:=World) id s).
Proof. intros w Hp. by apply saved_run. Qed.

Lemma same_row p p' row : same_profile p row → stored_profile row = Some row → p' = p → same_profile p' row ∧
  profile_id (profile_summary p') = profile_id (profile_summary p) ∧ profile_workspaceId p' = profile_workspaceId p ∧
  profile_createdAt p' = profile_createdAt p ∧ stored_time (profile_updatedAt p') = Some (profile_updatedAt p').
Proof. intros Hs Hr ->. split_and!; try done. rewrite (same_updatedAt _ _ Hs). by apply stored_profile_iff in Hr as [_ ?]. Qed.

(** A change of the binding alone that is then saved. *)
Lemma change_saved_run id (m : Reg StorageBindingSummary) w : changes_one id m (λ p p', p' = p) → pending same_profile id w →
  (∃ e, in_memory m w = (Err (Domain e), w)) ∨
  (outcome_ok ((in_memory m ≫= saved (W:=World) id) w) ∧
   match (in_memory m ≫= saved (W:=World) id) w with (Err e, w') => pending same_profile id w' | _ => True end).
Proof.
  intros Hm Hp. destruct (pending_change id m _ same_profile w Hm same_row Hp) as [[e He]|(s & w1 & Hx & Hp1)]; [eauto|].
  right. rewrite (bind_Ok_run _ _ _ _ _ Hx). by apply saved_run.
Qed.
Lemma change_saved id b (m : Reg StorageBindingSummary) w : changes_one id m (λ p p', p' = p) → coherent w →
  map_get id (bindings (w_memory w)) = Some b → outcome_ok ((in_memory m ≫= saved (W:=World) id) w).
Proof.
  intros Hm Hc Hb. destruct (change_saved_run id m w Hm (coherent_pending _ _ _ Hc Hb)) as [[e He]|[Ho _]]; [|done].
  rewrite (bind_Err_run _ _ _ _ _ He). exact Hc.
Qed.

(** The binding a command found in its workspace. *)
Definition found (id ws : string) (b : StoredStorageBinding) (w : World) : Prop :=
  hydrated ws w ∧ map_get id (bindings (w_memory w)) = Some b ∧ binding_workspaceId b = ws.
Lemma require_leads id ws : leads coherent (requireWorkspaceBinding (W:=World) id ws) (found id ws).
Proof.
  intros w Hc. unfold requireWorkspaceBinding. pose proof (hydrate_run ws w Hc) as Hr.
  change (ensureHydrated ws) with (pg_ensureHydrated collation ws). unfold mbind at 1, M_bind at 1.
  destruct (pg_ensureHydrated collation ws w) as [[[]|e] w1]; [|by destruct Hr as [[m ->] Hd]].
  destruct Hr as [[Hc1 Hin] _]. change (on_memory ?m) with (in_memory m).
  rewrite (bind_Ok_run _ _ _ _ _ (in_memory_gets (getBinding id) w1)). unfold getBinding.
  destruct (map_get id (bindings (w_memory w1))) as [b|] eqn:Hb; [|exact Hc1].
  destruct (decide (binding_workspaceId b = ws)) as [He|Hne]; [rewrite He, strict_eq_refl|rewrite bool_decide_eq_false_2 by done]; cbn; [done|exact Hc1].
Qed.
Lemma found_settles {A} id ws (f : StoredStorageBinding → P A) :
  (∀ b w, found id ws b w → outcome_ok (f b w)) → settles coherent (requireWorkspaceBinding (W:=World) id ws ≫= f).
Proof. intros Hf. eapply settles_bind; [apply require_leads|]. intros b w. apply Hf. Qed.

Section Commands.
Context (env : CallEnv) (clock : clock_ok env).
Let now_ok : stored_time (env_now env) = Some (env_now env) := proj1 clock.

Lemma disable_settles id ws : settles coherent (disableStorageBinding (W:=World) env id ws).
Proof using clock.
  apply found_settles. intros b w ((Hc & _) & Hb & _). by eapply change_saved; [apply disableBinding_one|..].
Qed.
Lemma refresh_settles c : settles coherent (refreshStoragePlan (W:=World) env c).
Proof using clock.
  apply found_settles. intros b w ((Hc & _) & Hb & _). by eapply change_saved; [apply refreshPlan_one|..].
Qed.

Lemma live_probe_settles id o : settles (pending same_profile id) (live_probe (W:=World) env id o).
Proof using clock.
  assert (∀ m w, pending same_profile id w →
    outcome_ok ((in_memory (recordProbe env id false m (Some "network") None) ≫= saved (W:=World) id) w)) as Hfail.
  { intros m w Hp. destruct (pending_change id _ _ same_profile w (recordProbe_one env id clock false m (Some "network") None) same_row Hp)
      as [[e He]|(s & w1 & Hx & Hp1)].
    - exfalso. destruct Hp as (w0 & b & p & row & Ha & <- & _). destruct (ahead_get _ _ _ _ Ha) as [Hb Hpr].
      destruct (recordProbe_sure env (binding_id b) clock false m (Some "network") None _ _ _ Hb eq_refl Hpr) as (? & ? & ? & ? & He' & _).
      unfold in_memory in He. by rewrite He' in He.
    - rewrite (bind_Ok_run _ _ _ _ _ Hx). by apply saved_settles. }
  intros w Hp. unfold live_probe. destruct o as [live|m]; [|by apply Hfail].
  unfold try_catch. change (on_memory ?m) with (in_memory m).
  destruct (change_saved_run id (recordProbe env id (live_ok live) (live_summary live) (live_issueClass live) (live_expectedOwnerMatch live))
    w (recordProbe_one env id clock _ _ _ _) Hp) as [[e He]|[Ho Hpe]].
  - rewrite (bind_Err_run _ _ _ _ _ He). by apply Hfail.
  - destruct ((in_memory _ ≫= _) w) as [[s|e] w']; [done|]. by apply Hfail.
Qed.

Lemma current_run id b w : coherent w → map_get id (bindings (w_memory w)) = Some b →
  ∃ s, in_memory (requireBinding id ≫= toSummary) w = (Ok s, w).
Proof.
  intros Hc Hb. destruct (co_bound _ Hc _ _ Hb) as [p Hp]. destruct (toSummary_ok _ _ _ Hp) as [s Hs]. exists s.
  unfold in_memory. rewrite (bind_Ok_run _ _ _ _ _ (requireBinding_ok _ _ _ Hb)), Hs. cbn. by destruct w as [[]].
Qed.
Lemma probe_settles options c : settles coherent (probeStorageBinding (W:=World) options env c).
Proof using clock.
  apply found_settles. intros b w ((Hc & _) & Hb & _). set (id := pb_bindingId c) in *.
  pose proof (co_db _ Hc) as Hd. destruct (co_bound _ Hc _ _ Hb) as [p Hp].
  destruct (dk_binding _ Hd _ _ (co_binding _ Hc _ _ Hb)) as (Hi & _). change (@on_memory World durable) with (@in_memory).
  assert (changes_one id (runHandshakeHardening env id) (λ p p', p' = p)) as Hone.
  { intros r x q Hx Hxi Hq. right. destruct (hardening_one env id clock r x q Hx Hxi Hq) as [Hr|(m & r' & b' & Hr & Hcn & Hch)].
    - exists (true, None), r, x, q. split; [done|]. split; [split; [reflexivity|done..]|]. split; [done|].
      split_and!; [done|rewrite Hxi|]; by apply put_same.
    - by exists (false, Some m), r', b', q. }
  destruct (hardening_one env id clock _ _ _ Hb Hi Hp) as [Hr|(m & r' & b' & Hr & Hcn & Hch)].
  - assert (in_memory (runHandshakeHardening env id) w = (Ok (true, None), w)) as Hx.
    { unfold in_memory. rewrite Hr. cbn. by destruct w as [[]]. }
    rewrite (bind_Ok_run _ _ _ _ _ Hx). cbn [negb fst]. destruct (current_run id b w Hc Hb) as [s Hs]. rewrite (bind_Ok_run _ _ _ _ _ Hs).
    destruct (probeBindingLive options) as [live|].
    + destruct (profile_credentialMode _ === _); [by eapply change_saved; [apply markProbeDeferred_one|..]|].
      apply live_probe_settles. by eapply coherent_pending.
    + destruct (allowSyntheticConnectedProbe options); (eapply change_saved; [|done|done]); [by apply recordProbe_one|by apply markProbeDeferred_one].
  - destruct (pending_change id _ _ same_profile w Hone same_row (coherent_pending _ _ _ Hc Hb)) as [[e He]|(a & w1 & Hx & Hp1)].
    { unfold in_memory in He. by rewrite Hr in He. }
    assert (a = (false, Some m)) as -> by (unfold in_memory in Hx; rewrite Hr in Hx; by injection Hx as <- _).
    rewrite (bind_Ok_run _ _ _ _ _ Hx). cbn [negb fst]. change (persistBindingState id) with (pg_persistBindingState id).
    destruct (persist_state id w1 Hp1) as [(msg & w' & Hy & Hw)|(w' & Hy & Hc' & Hw)].
    + rewrite (bind_Err_run _ _ _ _ _ Hy). by eapply pending_base.
    + rewrite (bind_Ok_run _ _ _ _ _ Hy). destruct Hw as (w0 & b2 & p2 & row & Ha & Hid & _). destruct (ahead_get _ _ _ _ Ha) as [Hb2 _].
      rewrite Hid in Hb2. destruct (current_run id b2 w' Hc' Hb2) as [s Hs]. by rewrite Hs.
Qed.

(** A change of the binding and its profile that [t] then writes. *)
Lemma change_persisted id b (m : Reg StorageBindingSummary) R Q (t : P unit) w : changes_one id m R →
  (∀ p p' row, same_profile p row → stored_profile row = Some row → R p p' → Q p' row ∧
     profile_id (profile_summary p') = profile_id (profile_summary p) ∧ profile_workspaceId p' = profile_workspaceId p ∧
     profile_createdAt p' = profile_createdAt p ∧ stored_time (profile_updatedAt p') = Some (profile_updatedAt p')) →
  settles (pending Q id) t → coherent w → map_get id (bindings (w_memory w)) = Some b →
  outcome_ok ((in_memory m ≫= λ s, t ≫= λ _, answered (W:=World) s) w).
Proof.
  intros Hm HR Ht Hc Hb. destruct (pending_change id m R Q w Hm HR (coherent_pending _ _ _ Hc Hb)) as [[e He]|(s & w1 & Hx & Hp1)].
  - rewrite (bind_Err_run _ _ _ _ _ He). exact Hc.
  - rewrite (bind_Ok_run _ _ _ _ _ Hx). revert w1 Hp1 Hx. intros w1 Hp1 _. revert w1 Hp1.
    eapply settles_bind; [by apply leads_settles|]. intros ?. apply answered_settles.
Qed.
Lemma reprofiled_row p p' row : same_profile p row → reprofiled env p p' →
  profile_id (profile_summary p') = profile_id (profile_summary p) ∧ profile_workspaceId p' = profile_workspaceId p ∧
  profile_createdAt p' = profile_createdAt p ∧ stored_time (profile_updatedAt p') = Some (profile_updatedAt p').
Proof using now_ok. intros Hs [R1 R2 R3 R4]. by rewrite R4. Qed.
Lemma accept_settles c : settles coherent (acceptStoragePlan (W:=World) env c).
Proof using clock.
  apply found_settles. intros b w ((Hc & _) & Hb & _). change (@on_memory World durable) with (@in_memory).
  eapply (change_persisted _ b _ _ (λ p row, ∃ cap code, profile_summary p = set_declared cap code (prow_profile row)));
    [by apply acceptPlan_one| | |done|done].
  - intros p p' row Hs Hst [Hre (cap & code & Hsum)]. split; [|by eapply reprofiled_row]. exists cap, code. by rewrite Hsum, (same_summary _ _ Hs).
  - intros w1 (w0 & b1 & p1 & row & Ha & Hid & Hin & Hrow & HQ). apply (persistPlan_settles w0 b1 p1 _ Hid). eauto 10.
Qed.
Lemma rollback_settles vid actor id ws : settles coherent (rollbackStorageBinding (W:=World) env vid actor id ws).
Proof using clock.
  apply found_settles. intros b w ((Hc & _) & Hb & _). change (@on_memory World durable) with (@in_memory).
  eapply (change_persisted _ b _ _ (λ _ _, True)); [by apply rollbackBinding_one| | |done|done].
  - intros p p' row Hs Hst Hre. split; [done|by eapply reprofiled_row].
  - intros w1 (w0 & b1 & p1 & row & Ha & Hid & _). by eapply persistBinding_settles.
Qed.
Lemma cutover_refused c actor w : coherent w →
  ∃ e, in_memory (cutoverMigrate env (cm_sourceBindingId c) (cm_targetBindingId c) (cm_objectDigests c) actor) w = (Err (Domain e), w).
Proof.
  intros Hc. unfold in_memory, cutoverMigrate, getBinding. run. pose proof (co_db _ Hc) as Hd.
  destruct (map_get (cm_sourceBindingId c) _) as [s|] eqn:Hs; [|eexists; run; by destruct w as [[]]].
  destruct (map_get (cm_targetBindingId c) _) as [x|]; [|eexists; run; by destruct w as [[]]]. run.
  destruct (dk_binding _ Hd _ _ (co_binding _ Hc _ _ Hs)) as (_ & _ & Hm). rewrite bool_decide_eq_false_2 by done. cbn.
  eexists. by destruct w as [[]].
Qed.
Lemma cutover_settles vid actor c : settles coherent (cutoverStorageMigrate (W:=World) env vid actor c).
Proof.
  apply found_settles. intros b w ((Hc & _) & _ & _). revert w Hc. apply found_settles. intros b2 w ((Hc & _) & _ & _).
  unfold try_catch. change (@on_memory World durable) with (@in_memory). destruct (cutover_refused c (actor_id actor) w Hc) as [e He].
  rewrite (bind_Err_run _ _ _ _ _ He). cbn. by destruct e.
Qed.
End Commands.

(** ** Deleting a binding *)

Record del_at {V} (m m' : list (string * V)) (k : string) : Prop := mkDelAt {
  del_keys : NoDup m.*1 → NoDup m'.*1;
  del_get i : map_get i m' = if decide (i = k) then None else map_get i m;
}.
Lemma del_delete {V} (m : list (string * V)) k : del_at m (map_delete k m) k.
Proof.
  split; [apply map_delete_keys|]. intros i. destruct (decide (i = k)) as [->|Hne]; [apply map_get_delete_eq|by apply map_get_delete_ne].
Qed.
Lemma del_inv {V} (m m' : list (string * V)) k i x : del_at m m' k → map_get i m' = Some x → i ≠ k ∧ map_get i m = Some x.
Proof. intros [_ G]. rewrite G. by destruct (decide (i = k)). Qed.

(** The row of the profile may stay. *)
Lemma coherent_delete w w' id b : coherent w → map_get id (bindings (w_memory w)) = Some b →
  tenants (w_memory w') = tenants (w_memory w) → del_at (bindings (w_memory w)) (bindings (w_memory w')) id →
  del_at (profiles (w_memory w)) (profiles (w_memory w')) (binding_profileId b) →
  adb_tenants (w_db w') = adb_tenants (w_db w) → del_at (adb_bindings (w_db w)) (adb_bindings (w_db w')) id →
  (adb_profiles (w_db w') = adb_profiles (w_db w) ∨ del_at (adb_profiles (w_db w)) (adb_profiles (w_db w')) (binding_profileId b)) →
  hydratedWorkspaces (w_registry w') ⊆ hydratedWorkspaces (w_registry w) → coherent w'.
Proof.
  intros [[K1 K2 K3 K4 K5 K6 K7 K8 K9 K10] C2 C3 C4 C5 C6 C7 C8 C9] Hb Hmt Hmb Hmp Hdt Hdb Hdp Hh.
  assert (∀ i x, i ≠ id → map_get i (adb_bindings (w_db w)) = Some x → binding_profileId x ≠ binding_profileId b) as Hown.
  { intros i x Hne Hx He. by apply Hne, (K9 _ _ _ _ Hx (C6 _ _ Hb)). }
  assert (∀ k, k ≠ binding_profileId b → map_get k (adb_profiles (w_db w')) = map_get k (adb_profiles (w_db w))) as Hkeep.
  { intros k Hk. destruct Hdp as [->|Hdp]; [done|]. by rewrite (del_get _ _ _ Hdp), decide_False. }
  split; rewrite ?Hmt, ?Hdt; try done.
  - split; rewrite ?Hdt; try done.
    + destruct Hdp as [->|Hdp]; [done|by apply Hdp].
    + by apply Hdb.
    + intros i x Hx. apply K6. destruct (decide (i = binding_profileId b)) as [->|Hne]; [|by rewrite <-Hkeep].
      destruct Hdp as [He|Hdp]; [by rewrite <-He|]. by apply (del_inv _ _ _ _ _ Hdp) in Hx as [??].
    + intros i x [Hne Hx]%(del_inv _ _ _ _ _ Hdb). eauto.
    + intros i x [Hne Hx]%(del_inv _ _ _ _ _ Hdb). rewrite Hkeep by eauto. eauto.
    + intros i j x y [_ Hx]%(del_inv _ _ _ _ _ Hdb) [_ Hy]%(del_inv _ _ _ _ _ Hdb). eauto.
    + intros i j x y [_ Hx]%(del_inv _ _ _ _ _ Hdb) [_ Hy]%(del_inv _ _ _ _ _ Hdb). eauto.
  - by apply Hmb.
  - intros i x [Hne Hx]%(del_inv _ _ _ _ _ Hmp). rewrite Hkeep by done. eauto.
  - intros i x [Hne Hx]%(del_inv _ _ _ _ _ Hmb). rewrite (del_get _ _ _ Hdb), decide_False by done. eauto.
  - intros i x [Hne Hx]%(del_inv _ _ _ _ _ Hmb). rewrite (del_get _ _ _ Hmp), decide_False by eauto. eauto.
  - intros ws i x Hws%Hh. by apply C8.
  - intros ws i x Hws%Hh [Hne Hx]%(del_inv _ _ _ _ _ Hdb) Hw. rewrite (del_get _ _ _ Hmb), decide_False by done. by eapply C9.
Qed.

Lemma existsb_values {V} (f : V → bool) (m : list (string * V)) : NoDup m.*1 →
  (∀ k x, map_get k m = Some x → f x = false) → existsb f m.*2 = false.
Proof.
  intros Hn Hf. apply not_true_is_false. intros (x & Hin & Hx)%existsb_exists. apply list_elem_of_In, (value_key _ _ Hn) in Hin as [k Hk].
  by rewrite (Hf _ _ Hk) in Hx.
Qed.
Lemma memory_delete id force b w : coherent w → map_get id (bindings (w_memory w)) = Some b →
  (∃ e, deleteBinding id force (w_memory w) = (Err e, w_memory w)) ∨
  (∃ s r', deleteBinding id force (w_memory w) = (Ok s, r') ∧ tenants r' = tenants (w_memory w) ∧
     bindings r' = map_delete id (bindings (w_memory w)) ∧ profiles r' = map_delete (binding_profileId b) (profiles (w_memory w))).
Proof.
  intros Hc Hb. destruct (co_bound _ Hc _ _ Hb) as [p Hp]. destruct (toSummary_ok _ _ _ Hp) as [s Hs].
  unfold deleteBinding. rewrite (bind_Ok_run _ _ _ _ _ (requireBinding_ok _ _ _ Hb)). run.
  match goal with |- context [if ?c then (Err ?e, ?r) else _] => destruct c; [left; by exists e|] end. run.
  match goal with |- context [if ?c then (Err ?e, ?r) else _] => destruct c; [left; by exists e|] end.
  right. rewrite (bind_Ok_run _ _ _ _ _ Hs). run.
  rewrite existsb_values.
  - run. by eexists _, _.
  - cbn. by apply map_delete_keys, Hc.
  - intros k x [Hne Hx]%(del_inv _ _ _ _ _ (del_delete _ _)). apply bool_decide_eq_false_2. intros He. apply Hne.
    by eapply (dk_own _ (co_db _ Hc)); [apply (co_binding _ Hc _ _ Hx)|apply (co_binding _ Hc _ _ Hb)|].
Qed.
Lemma stored_delete ws id b d u d' : db_ok d → map_get id (adb_bindings d) = Some b → binding_workspaceId b = ws →
  repo_deleteBinding ws id d = (Ok u, d') →
  adb_tenants d' = adb_tenants d ∧ adb_bindings d' = map_delete id (adb_bindings d) ∧
  (adb_profiles d' = adb_profiles d ∨ adb_profiles d' = map_delete (binding_profileId b) (adb_profiles d)).
Proof.
  intros Hd Hb Hw Hx. unfold repo_deleteBinding, repo_getBinding in Hx. tx_inv.
  match goal with Hy : _ = (Ok u, d') |- _ => rename Hy into Hz end. cbn [adb_bindings adb_set_versions] in Hz.
  rewrite Hb, strict_eq_refl in Hz. tx_inv.
  repeat match goal with Hy : context [match ?c with _ => _ end] |- _ => destruct c; tx_inv end; cbn; auto.
Qed.

Lemma delete_settles id ws force : settles coherent (deleteStorageBinding (W:=World) id ws force).
Proof.
  apply found_settles. intros b w ((Hc & _) & Hb & Hw). cbn [countStickyBlobs durable postgres_registry].
  assert (leads (λ w, coherent w ∧ map_get id (bindings (w_memory w)) = Some b)
    (if force then mret tt else pg_countStickyBlobs ws id ≫= λ sticky, throw_when (Z.ltb 0 sticky) (Domain (AppCoded "COMMAND_REJECTED"
      "Binding still referenced by sticky blob routes; disable or force-delete.")))
    (λ _ w, coherent w ∧ map_get id (bindings (w_memory w)) = Some b)) as Hcount.
  { intros x [Hcx Hbx]. destruct force; [done|]. unfold pg_countStickyBlobs, repo_countStickyBlobs.
    match goal with |- context [scoped (gets ?f)] => destruct (scoped_read f x) as [(m & fs & Hx)|(fs & Hx)] end.
    - rewrite (bind_Err_run _ _ _ _ _ Hx). apply Hcx.
    - rewrite (bind_Ok_run _ _ _ _ _ Hx), throw_when_run. pose proof (coherent_faults x fs Hcx) as Hf.
      destruct (Z.ltb 0 _); [exact Hf|split; [exact Hf|exact Hbx]]. }
  revert w Hc Hb. assert (∀ A (m : P A), settles (λ w, coherent w ∧ map_get id (bindings (w_memory w)) = Some b) m →
    ∀ w, coherent w → map_get id (bindings (w_memory w)) = Some b → outcome_ok (m w)) as Happ by (intros; auto).
  apply Happ. eapply settles_bind; [exact Hcount|]. intros [] w [Hc Hb]. change (@on_memory World durable) with (@in_memory).
  destruct (memory_delete id force b w Hc Hb) as [[e He]|(s & r' & Hr & Ht & Hbs & Hps)].
  - assert (in_memory (deleteBinding id force) w = (Err (Domain e), w)) as Hx by (unfold in_memory; rewrite He; cbn; by destruct w as [[]]).
    by rewrite (bind_Err_run _ _ _ _ _ Hx).
  - assert (in_memory (deleteBinding id force) w = (Ok s, set_memory r' w)) as Hx by (unfold in_memory; by rewrite Hr).
    rewrite (bind_Ok_run _ _ _ _ _ Hx). change (deletePersistedBinding ws id) with (pg_deletePersistedBinding ws id).
    unfold pg_deletePersistedBinding. rewrite bind_bind.
    destruct (scoped_db_cases (repo_deleteBinding ws id) (set_memory r' w) (deleteBinding_db_errors ws id)) as [(m & fs & Hy)|(u & d' & fs & Hd & Hy)].
    + rewrite (bind_Err_run _ _ _ _ _ Hy). apply Hc.
    + rewrite (bind_Ok_run _ _ _ _ _ Hy), (bind_Ok_run _ _ _ _ _ (stale_run _ _)). apply answered_settles.
      destruct (stored_delete ws id b (w_db w) u d' (co_db _ Hc) (co_binding _ Hc _ _ Hb) Hw Hd) as (T & B & Pf).
      apply (coherent_delete w _ id b Hc Hb); cbn [w_db w_registry]; unfold w_memory; cbn; rewrite ?Ht, ?Hbs, ?Hps, ?T, ?B; try done.
      * apply del_delete.
      * apply del_delete.
      * apply del_delete.
      * destruct Pf as [->| ->]; [by left|right; apply del_delete].
      * apply filter_sub.
Qed.

(** ** Tenants *)

(** The memory is one change of a tenant ahead of the tables. *)
Record tenant_ahead (w0 : World) (t : ApplicationTenant) (w : World) : Prop := mkTenantAhead {
  ta_base : coherent w0;
  ta_db : w_db w = w_db w0;
  ta_hydrated : hydratedWorkspaces (w_registry w) = hydratedWorkspaces (w_registry w0);
  ta_bindings : bindings (w_memory w) = bindings (w_memory w0);
  ta_profiles : profiles (w_memory w) = profiles (w_memory w0);
  ta_tenants : put_at (tenants (w_memory w0)) (tenants (w_memory w)) (tenant_id t) t;
  ta_stored : stored_tenant t = Some t;
  ta_unique id' t' : map_get id' (adb_tenants (w_db w0)) = Some t' → tenant_workspaceId t' = tenant_workspaceId t →
    tenant_applicationId t' = tenant_applicationId t → tenant_externalTenantKey t' = tenant_externalTenantKey t → id' = tenant_id t;
}.

Lemma coherent_put_tenant w0 t w w' : tenant_ahead w0 t w → w_memory w' = w_memory w →
  hydratedWorkspaces (w_registry w') ⊆ hydratedWorkspaces (w_registry w) →
  adb_bindings (w_db w') = adb_bindings (w_db w0) → adb_profiles (w_db w') = adb_profiles (w_db w0) →
  put_at (adb_tenants (w_db w0)) (adb_tenants (w_db w')) (tenant_id t) t → coherent w'.
Proof.
  intros [[[K1 K2 K3 K4 K5 K6 K7 K8 K9 K10] C2 C3 C4 C5 C6 C7 C8 C9] Td Th Tb Tp Tt Ts Tu] Hm Hh Hb Hp Ht.
  rewrite Th in Hh. split; rewrite ?Hm, ?Tb, ?Tp, ?Hb, ?Hp; try done.
  - split; rewrite ?Hb, ?Hp; try done.
    + by apply Ht.
    + intros i x [[-> ->]|[_ Hx]]%(put_inv _ _ _ _ _ _ Ht); eauto.
    + intros i j x y [[-> ->]|[_ Hx]]%(put_inv _ _ _ _ _ _ Ht) [[-> ->]|[_ Hy]]%(put_inv _ _ _ _ _ _ Ht) H1 H2 H3; eauto; symmetry; eauto.
  - by apply Tt.
  - intros i x Hx. rewrite (put_get _ _ _ _ Tt) in Hx. rewrite (put_get _ _ _ _ Ht). destruct (decide (i = tenant_id t)); eauto.
  - intros ws i x Hws%Hh Hx Hw. rewrite (put_get _ _ _ _ Ht) in Hx. rewrite (put_get _ _ _ _ Tt). destruct (decide (i = tenant_id t)); eauto.
  - intros ws i x Hws%Hh. by apply C9.
Qed.
Lemma tenant_ahead_faults w0 t w fs : tenant_ahead w0 t w → tenant_ahead w0 t (mkWorld (w_registry w) (w_db w) fs).
Proof. intros []. by split. Qed.
Lemma tenant_ahead_base w0 t w : tenant_ahead w0 t w → db_ok (w_db w).
Proof. intros Ha. rewrite (ta_db _ _ _ Ha). apply (ta_base _ _ _ Ha). Qed.


Definition same_tenant (old t : ApplicationTenant) : Prop :=
  tenant_workspaceId old = tenant_workspaceId t ∧ tenant_applicationId old = tenant_applicationId t ∧
  tenant_externalTenantKey old = tenant_externalTenantKey t ∧ tenant_createdAt old = tenant_createdAt t.
Lemma updateTenant_run d t old : db_ok d → map_get (tenant_id t) (adb_tenants d) = Some old → same_tenant old t → stored_tenant t = Some t →
  repo_updateTenant (tenant_workspaceId t) (tenant_applicationId t) (tenant_id t) (tenant_displayName t) (tenant_status t)
    (tenant_updatedAt old) (tenant_updatedAt t) d =
  if not_blank (tenant_displayName t) then (Ok t, adb_set_tenants (map_set (tenant_id t) t) d) else (Err (Database "check constraint"), d).
Proof.
  intros Hd Ho (O1 & O2 & O3 & O4) Hst. destruct (dk_tenant _ Hd _ _ Ho) as [Oi Os]. apply stored_tenant_iff in Os as [_ Ou].
  apply stored_tenant_iff in Hst as [_ Tu]. unfold repo_updateTenant, repo_getTenant, require_row, tenant_at. rewrite Ou, Tu. cbn [param]. run.
  rewrite Ho, O1, O2, !strict_eq_refl. cbn [andb]. run. rewrite strict_ne_refl. run. destruct (not_blank (tenant_displayName t)); [|done].
  cbn [negb]. run. rewrite Oi, O1, O2, O3, O4. by destruct t.
Qed.

Lemma persistTenant_settles w0 t expected : settles (λ w, tenant_ahead w0 t w ∧
    ∀ old, map_get (tenant_id t) (adb_tenants (w_db w0)) = Some old → same_tenant old t ∧
      default (tenant_updatedAt old) expected = tenant_updatedAt old) (pg_persistTenant t expected).
Proof.
  intros w [Ha Hold]. pose proof (ta_db _ _ _ Ha) as Hdb. pose proof (co_db _ (ta_base _ _ _ Ha)) as Hd. unfold pg_persistTenant.
  unfold repo_getTenant at 1. match goal with |- context [scoped (gets ?f)] => destruct (scoped_read f w) as [(m & fs & Hx)|(fs & Hx)] end.
  { rewrite (bind_Err_run _ _ _ _ _ Hx). exact (tenant_ahead_base _ _ _ Ha). }
  rewrite (bind_Ok_run _ _ _ _ _ Hx). rewrite Hdb. clear Hx. apply (tenant_ahead_faults _ _ _ fs) in Ha. rewrite Hdb in Ha.
  set (w1 := mkWorld (w_registry w) (w_db w0) fs) in *. pose proof (ta_stored _ _ _ Ha) as Hst.
  destruct (map_get (tenant_id t) (adb_tenants (w_db w0))) as [old|] eqn:Ho.
  - destruct (Hold _ eq_refl) as [Hsame He]. pose proof Hsame as (O1 & O2 & _). unfold tenant_at. rewrite O1, O2, !strict_eq_refl. cbn [andb].
    rewrite He. pose proof (updateTenant_run (w_db w0) t old Hd Ho Hsame Hst) as Hrun.
    match goal with |- context [scoped ?tx ≫= _] => destruct (scoped_cases tx w1) as [(e & fs2 & Hx & Hc)|(u & d' & fs2 & Hx & Hs)] end.
    + rewrite (bind_Err_run _ _ _ _ _ Hx). cbn [w_db w1] in Hc. rewrite Hrun in Hc.
      destruct Hc as [[m ->]|[d' Hc]]; [exact Hd|]. destruct (not_blank _); [done|]. injection Hc as <- <-. exact Hd.
    + rewrite (bind_Ok_run _ _ _ _ _ Hs), stale_run. cbn [w_db w1] in Hx. rewrite Hrun in Hx. destruct (not_blank _); [|done]. injection Hx as <- <-.
      eapply (coherent_put_tenant w0 t w1); try done; [apply filter_sub|apply put_set].
  - assert (db_errors (repo_createTenant t)) as Hce by (unfold repo_createTenant; solve_db_errors).
    destruct (scoped_db_cases (repo_createTenant t) w1 Hce) as [(m & fs2 & Hx)|(u & d' & fs2 & Hx & Hs)].
    + rewrite (bind_Err_run _ _ _ _ _ Hx). exact Hd.
    + rewrite (bind_Ok_run _ _ _ _ _ Hs), stale_run. cbn [w_db w1] in Hx. unfold repo_createTenant in Hx. rewrite gets_bind in Hx.
      match type of Hx with context [List.find ?f ?l] => destruct (List.find f l) as [x|] eqn:Hf end.
      { exfalso. apply find_Some_elem in Hf as [Hin Hk]. unfold tenants_of in Hin. apply List_filter_elem in Hin as [Hin Hw].
        apply (value_key _ _ (dk_tenant_keys _ Hd)) in Hin as [k Hk']. to_prop.
        assert (k = tenant_id t) as -> by (by eapply (ta_unique _ _ _ Ha)). congruence. }
      rewrite Hst in Hx. tx_inv. eapply (coherent_put_tenant w0 t w1); try done; [apply filter_sub|apply put_set].
Qed.

(** Writing a tenant to memory. *)
Lemma tenant_put w t : coherent w → stored_tenant t = Some t →
  (∀ id' t', map_get id' (adb_tenants (w_db w)) = Some t' → tenant_workspaceId t' = tenant_workspaceId t →
    tenant_applicationId t' = tenant_applicationId t → tenant_externalTenantKey t' = tenant_externalTenantKey t → id' = tenant_id t) →
  tenant_ahead w t (set_memory (set_tenants (map_set (tenant_id t) t) (w_memory w)) w).
Proof. intros Hc Hs Hu. split; rewrite ?memory_put; try done. apply put_set. Qed.
Lemma tenant_unchanged w id t : coherent w → map_get id (tenants (w_memory w)) = Some t → tenant_ahead w t w.
Proof.
  intros Hc Ht. pose proof (co_db _ Hc) as Hd. pose proof (co_tenant _ Hc _ _ Ht) as Hdt. destruct (dk_tenant _ Hd _ _ Hdt) as [<- Hs].
  split; try done; [by apply put_same|]. intros i x Hx H1 H2 H3. by eapply (dk_tenant_unique _ Hd).
Qed.

(** ** The commands *)

(** The identifiers a command is given are new to the tables. *)
Definition fresh_for (env : CallEnv) (d : AppDb) : Prop :=
  map_get (env_tenantId env) (adb_tenants d) = None ∧ map_get (env_profileId env) (adb_profiles d) = None ∧
  map_get (env_bindingId env) (adb_bindings d) = None.

Lemma hydrated_settles {A} ws (Q : AppDb → Prop) (f : P A) :
  (∀ w, hydrated ws w → Q (w_db w) → outcome_ok (f w)) → settles (λ w, coherent w ∧ Q (w_db w)) (ensureHydrated ws ≫= λ _, f).
Proof.
  intros Hf w [Hc HQ]. eapply (settles_bind _ _ (λ _ w', hydrated ws w' ∧ w_db w' = w_db w)); [apply (hydrate_leads ws (w_db w))| |done].
  intros [] w1 [Hh Hd]. apply Hf; [done|by rewrite Hd].
Qed.
Lemma hydrated_settles' {A} ws (f : P A) : (∀ w, hydrated ws w → outcome_ok (f w)) → settles coherent (ensureHydrated ws ≫= λ _, f).
Proof. intros Hf w Hc. apply (hydrated_settles ws (λ _, True)); [auto|done]. Qed.
(** What is only read. *)
Lemma read_settles {A} (m : Reg A) : (∀ r, (m r).2 = r) → settles coherent (in_memory m).
Proof.
  intros Hm w Hc. unfold in_memory. specialize (Hm (w_memory w)). destruct (m (w_memory w)) as [[a|e] r]; cbn in Hm; subst r; cbn.
  all: replace (set_memory (w_memory w) w) with w by (by destruct w as [[]]); exact Hc.
Qed.

Section Changes.
Context (env : CallEnv) (clock : clock_ok env).
Let now_ok : stored_time (env_now env) = Some (env_now env) := proj1 clock.

Lemma create_tenant_settles c : settles (λ w, coherent w ∧ fresh_for env (w_db w)) (createApplicationTenant (W:=World) env c).
Proof using clock.
  apply hydrated_settles. intros w [Hc Hin] (Hfresh & _ & _). change (@on_memory World durable) with (@in_memory).
  pose proof (co_db _ Hc) as Hd. destruct c as [ws app key name]. cbn in *.
  destruct (List.find (λ t, tenant_externalTenantKey t === key) (listTenants ws app (w_memory w))) as [t|] eqn:Hf.
  - assert (in_memory (createTenant env ws app key name) w = (Ok t, w)) as Hx.
    { unfold in_memory, createTenant. run. rewrite Hf. cbn. by destruct w as [[]]. }
    rewrite (bind_Ok_run _ _ _ _ _ Hx). apply find_Some_elem in Hf as [Hl _]. unfold listTenants in Hl.
    apply List_filter_elem in Hl as [Hl _]. apply (value_key _ _ (co_tenant_keys _ Hc)) in Hl as [k Hk].
    pose proof (co_tenant _ Hc _ _ Hk) as Hdt. destruct (dk_tenant _ Hd _ _ Hdt) as [Hi _]. subst k.
    eapply (settles_bind (λ x, x = w) _ (λ _, coherent)); [|intros ?; apply settles_ret|done].
    apply leads_settles. intros ? ->. apply (persistTenant_settles w t None). split; [by eapply tenant_unchanged|].
    intros old Ho. by assert (old = t) as -> by congruence.
  - set (t := mkTenant (env_tenantId env) ws app key name tenant_active (env_now env) (env_now env)).
    assert (in_memory (createTenant env ws app key name) w =
      (Ok t, set_memory (set_tenants (map_set (tenant_id t) t) (w_memory w)) w)) as Hx.
    { unfold in_memory, createTenant. run. by rewrite Hf. }
    rewrite (bind_Ok_run _ _ _ _ _ Hx). set (w1 := set_memory _ w).
    eapply (settles_bind (λ x, x = w1) _ (λ _, coherent)); [|intros ?; apply settles_ret|done].
    apply leads_settles. intros ? ->. apply (persistTenant_settles w t None). split.
    + apply tenant_put; [done|by apply stored_tenant_iff|]. intros i x Hx' H1 H2 H3. exfalso. cbn in H1, H2, H3.
      pose proof (co_tenants _ Hc _ _ _ Hin Hx' H1) as Hm. eapply (find_None_elem _ _ x) in Hf; [cbn beta in Hf; by rewrite H3, strict_eq_refl in Hf|].
      unfold listTenants. apply List_filter_elem. rewrite H1, H2, !strict_eq_refl. split; [|done]. apply value_key; [apply Hc|eauto].
    + cbn. intros old Ho. congruence.
Qed.

(** A change of a tenant that was found, its [updatedAt] the one expected. *)
Lemma tenant_change_settles ws app id expected (m : Reg ApplicationTenant) (f : ApplicationTenant → ApplicationTenant) :
  (∀ t, tenant_id (f t) = tenant_id t ∧ same_tenant t (f t) ∧ tenant_updatedAt (f t) = env_now env) →
  m = (requireTenant ws app id ≫= λ t, assertTenantExpectedUpdatedAt t expected ≫= λ _, put_tenant id (f t) ≫= λ _, mret (f t)) →
  settles coherent (ensureHydrated ws ≫= λ _, on_memory m ≫= λ t, persistTenant t (Some expected) ≫= λ _, mret t).
Proof using clock.
  intros Hf ->. apply hydrated_settles'. intros w [Hc Hin]. change (@on_memory World durable) with (@in_memory).
  pose proof (co_db _ Hc) as Hd. assert (∀ e, outcome_ok (@Err store_exn ApplicationTenant (Domain e), w)) as Herr by (intros; exact Hc).
  assert (set_memory (w_memory w) w = w) as Hsame by (by destruct w as [[]]).
  unfold in_memory, requireTenant, getTenant, assertTenantExpectedUpdatedAt, put_tenant. unfold mbind at 1, M_bind at 1. run.
  destruct (map_get id (tenants (w_memory w))) as [t|] eqn:Ht; [|run; cbn; by rewrite Hsame].
  match goal with |- context [if ?c then None else Some t] => destruct c end; run; [cbn; by rewrite Hsame|].
  match goal with |- context [if ?c then (Err _, _) else _] => destruct c eqn:He end; cbn; [by rewrite Hsame|]. to_prop.
  destruct (Hf t) as (F1 & F2 & F3). pose proof (co_tenant _ Hc _ _ Ht) as Hdt. destruct (dk_tenant _ Hd _ _ Hdt) as [<- Hst].
  rewrite <-F1. set (w1 := set_memory _ w). pose proof F2 as (S1 & S2 & S3 & S4).
  eapply (settles_bind (λ x, x = w1) _ (λ _, coherent)); [|intros ?; apply settles_ret|done].
  apply leads_settles. intros ? ->. apply (persistTenant_settles w (f t) (Some expected)). split.
  - apply tenant_put; [done|apply stored_tenant_iff in Hst as [Hst _]; apply stored_tenant_iff; by rewrite <-S4, F3|].
    rewrite <-S1, <-S2, <-S3, F1. intros i x Hx H1 H2 H3. by eapply (dk_tenant_unique _ Hd).
  - rewrite F1. intros old Ho. assert (old = t) as -> by congruence. split; [done|]. cbn. congruence.
Qed.
Lemma update_tenant_settles id c : settles coherent (updateApplicationTenant (W:=World) env id c).
Proof using clock.
  eapply (tenant_change_settles _ _ id _ _ (λ t, mkTenant (tenant_id t) (tenant_workspaceId t) (tenant_applicationId t)
    (tenant_externalTenantKey t) (ut_displayName c) (tenant_status t) (tenant_createdAt t) (env_now env))); [intros t; by split_and!|done].
Qed.
Lemma tenant_status_settles status id c : settles coherent (changeTenantStatus (W:=World) env status id c).
Proof using clock.
  eapply (tenant_change_settles _ _ id _ _ (λ t, mkTenant (tenant_id t) (tenant_workspaceId t) (tenant_applicationId t)
    (tenant_externalTenantKey t) (tenant_displayName t) status (tenant_createdAt t) (env_now env))); [intros t; by split_and!|done].
Qed.

(** A binding that is new. *)
Definition new_status (c : UpsertStorageBindingCommand) : StorageBindingStatus :=
  if (upsert_credentialMode c === cross_account_role) && negb (truthy (upsert_roleArn c)) then awaiting_customer_role else configured.
Definition new_binding (c : UpsertStorageBindingCommand) : StoredStorageBinding :=
  mkBinding (env_bindingId env) (upsert_workspaceId c) (upsert_applicationId c) (upsert_applicationTenantId c) (env_profileId env)
    (new_status c) 1 None None None None unknown None None None false (env_now env) (env_now env).
Definition new_externalId (c : UpsertStorageBindingCommand) : option string :=
  if upsert_credentialMode c === cross_account_role then Some (env_externalId env) else None.
Definition new_profile (c : UpsertStorageBindingCommand) : StoredStorageProfile :=
  mkProfile (commanded (env_profileId env) c) (upsert_workspaceId c) (new_externalId c) (truthy (new_externalId c)) (env_now env) (env_now env).

Lemma upsert_new_run c actor r : ∃ s template r', upsert_new env c actor r = (Ok (s, new_externalId c, template), r') ∧
  summary_id s = env_bindingId env ∧ profile_id (summary_profile s) = env_profileId env ∧ tenants r' = tenants r ∧
  bindings r' = map_set (env_bindingId env) (new_binding c) (bindings r) ∧
  profiles r' = map_set (env_profileId env) (new_profile c) (profiles r).
Proof.
  unfold upsert_new. fold (new_externalId c). fold (new_profile c). fold (new_status c). fold (new_binding c).
  unfold put_profile, put_binding. rewrite modify_bind.
  match goal with |- context [(?m ≫= _) (set_profiles ?f r)] => set (r1 := set_profiles f r); set (ext := m) end.
  assert (∃ r2, ext r1 = (Ok tt, r2) ∧ tenants r2 = tenants r1 ∧ bindings r2 = bindings r1 ∧ profiles r2 = profiles r1) as (r2 & Hr2 & T2 & B2 & P2).
  { unfold ext. destruct (new_externalId c) as [e|]; [destruct (e === ""); [by eexists|]|]; by eexists. }
  rewrite (bind_Ok_run _ _ _ _ _ Hr2), modify_bind. set (r3 := set_bindings _ r2).
  assert (map_get (binding_profileId (new_binding c)) (profiles r3) = Some (new_profile c)) as Hp by (cbn; rewrite P2; apply map_get_set_eq).
  unfold toSummary. run. rewrite Hp. run. unfold push_version. run. eexists _, _, _. split; [reflexivity|]. cbn. by rewrite T2, B2, P2.
Qed.

Lemma new_ahead c w w' p : hydrated (upsert_workspaceId c) w → fresh_for env (w_db w) →
  find_binding (upsert_workspaceId c) (upsert_applicationId c) (upsert_applicationTenantId c) (w_memory w) = None →
  w_db w' = w_db w → hydratedWorkspaces (w_registry w') = hydratedWorkspaces (w_registry w) → same_profile p (row_of (new_profile c) None) →
  changes (w_memory w) (w_memory w') (new_binding c) p → ahead w (new_binding c) p w'.
Proof using now_ok.
  intros [Hc Hin] (_ & Fp & Fb) Hn Hd Hh [S1 S2 S3 S4] Hch. pose proof (co_db _ Hc) as Hok. cbn in S1, S2, S3, S4. split; try done.
  - split; cbn; rewrite ?S1, ?S2; try done.
    + apply stored_profile_iff. cbn. by rewrite S3, S4.
    + by rewrite now_ok.
    + unfold new_status. by case_match.
    + intros i x Hx He. exfalso. destruct (dk_bound _ Hok _ _ Hx) as (q & Hq & _). rewrite He in Hq. congruence.
    + intros i x Hx H1 H2 H3. exfalso. eapply find_binding_None; [exact Hn| |split_and!; [exact H1|exact H2|exact H3]].
      by eapply (co_bindings _ Hc).
  - cbn. intros old Ho. congruence.
  - cbn. intros old Ho. congruence.
Qed.

Lemma upsert_run c actor w : hydrated (upsert_workspaceId c) w → fresh_for env (w_db w) →
  (∃ e, pg_upsertBinding env c actor w = (Err (Domain e), w)) ∨
  (∃ s x template w' w0 b p, pg_upsertBinding env c actor w = (Ok (s, x, template), w') ∧ ahead w0 b p w' ∧ summary_id s = binding_id b).
Proof using clock.
  intros Hh Hfresh. pose proof Hh as [Hc Hin]. pose proof (co_db _ Hc) as Hd. unfold pg_upsertBinding.
  destruct (find_binding (upsert_workspaceId c) (upsert_applicationId c) (upsert_applicationTenantId c) (w_memory w)) as [b|] eqn:Hf.
  - assert (∃ k, map_get k (bindings (w_memory w)) = Some b) as [k Hb].
    { apply value_key; [apply Hc|]. apply find_Some_elem in Hf as [Hf _]. exact Hf. }
    destruct (dk_binding _ Hd _ _ (co_binding _ Hc _ _ Hb)) as (<- & _). destruct (co_bound _ Hc _ _ Hb) as [p Hp].
    assert (upsertBinding env c actor (w_memory w) = upsert_existing env c actor b (w_memory w)) as Hu by (unfold upsertBinding; run; by rewrite Hf).
    destruct (upsert_existing_one env (binding_id b) clock c actor b _ p Hb eq_refl Hp) as [[e He]|(s & template & r' & b' & p' & Hr & Hs & Hcn & Hre & Hch)].
    + left. exists e. assert (in_memory (upsertBinding env c actor) w = (Err (Domain e), w)) as Hx
        by (unfold in_memory; rewrite Hu, He; cbn; by destruct w as [[]]). by rewrite (bind_Err_run _ _ _ _ _ Hx).
    + right. assert (in_memory (upsertBinding env c actor) w = (Ok (s, None, template), set_memory r' w)) as Hx
        by (unfold in_memory; by rewrite Hu, Hr). rewrite (bind_Ok_run _ _ _ _ _ Hx). run.
      eexists s, None, template, _, w, b', p'. split; [reflexivity|]. split; [|by rewrite Hs, (evolve_id _ _ (cont_evolve _ _ Hcn))].
      destruct Hre as [R1 R2 R3 R4]. eapply ahead_change; try done; [by eapply coherent_ahead|by rewrite R4].
  - right. destruct (upsert_new_run c actor (w_memory w)) as (s & template & r' & Hr & Hs & Hps & Ht & Hbs & Hpr).
    assert (in_memory (upsertBinding env c actor) w = (Ok (s, new_externalId c, template), set_memory r' w)) as Hx
      by (unfold in_memory, upsertBinding; run; by rewrite Hf, Hr).
    rewrite (bind_Ok_run _ _ _ _ _ Hx). clear Hx.
    assert (changes (w_memory w) r' (new_binding c) (new_profile c)) as Hch by (split_and!; [done|rewrite Hbs; apply put_set|rewrite Hpr; apply put_set]).
    destruct (truthy (new_externalId c)) eqn:He.
    + run. rewrite Hps. unfold w_memory at 1. cbn. rewrite Hpr, map_get_set_eq. cbn.
      eexists s, _, template, _, w, (new_binding c), (new_profile c). split; [reflexivity|]. split; [|done].
      apply (new_ahead c w); try done. destruct Hch as (C1 & C2 & C3). split_and!; try done. cbn. rewrite Hpr.
      eapply put_put; apply put_set.
    + run. eexists s, _, template, _, w, (new_binding c), (new_profile c). split; [reflexivity|]. split; [|done].
      by apply (new_ahead c w).
Qed.
Lemma upsert_settles vid actor c : settles (λ w, coherent w ∧ fresh_for env (w_db w)) (upsertStorageBinding (W:=World) env vid actor c).
Proof using clock.
  apply hydrated_settles. intros w Hh Hfresh. pose proof Hh as [Hc _]. rewrite throw_when_bind.
  match goal with |- context [if ?c then _ else _] => destruct c; [exact Hc|] end.
  change (registry_upsertBinding env c (actor_id actor)) with (pg_upsertBinding env c (actor_id actor)).
  destruct (upsert_run c (actor_id actor) w Hh Hfresh) as [[e He]|(s & x & template & w' & w0 & b & p & Hx & Ha & Hs)].
  - by rewrite (bind_Err_run _ _ _ _ _ He).
  - rewrite (bind_Ok_run _ _ _ _ _ Hx). cbn [fst]. rewrite Hs. clear Hx. revert w' Ha.
    eapply (settles_bind (ahead w0 b p)); [by apply leads_settles, persistBinding_settles|]. intros ?.
    eapply settles_bind; [apply leads_settles, settles_read|]. intros ?. apply settles_ret.
Qed.
End Changes.

(** *** Reading *)

Lemma toSummary_reads b r : (toSummary b r).2 = r.
Proof. unfold toSummary. run. by destruct (map_get _ _). Qed.
Lemma map_calls_reads bs r : (map_calls toSummary bs r).2 = r.
Proof.
  induction bs as [|b bs IH]; [done|]. cbn [map_calls]. pose proof (toSummary_reads b r) as Hb. unfold mbind, M_bind.
  destruct (toSummary b r) as [[s|e] r1]; cbn in Hb; subst r1; [|done]. by destruct (map_calls toSummary bs r) as [[ss|e] r1].
Qed.
Lemma listBindings_reads ws a t r : (listBindings ws a t r).2 = r.
Proof. unfold listBindings. rewrite gets_bind. apply map_calls_reads. Qed.
Lemma effectiveSummary_reads ws a t n m r : (effectiveSummary ws a t n m r).2 = r.
Proof.
  unfold effectiveSummary. rewrite gets_bind. destruct (given (resolved_bindingId _)) as [id|]; [|done]. rewrite bind_bind, gets_bind.
  destruct (getBinding id r) as [b|]; [|done]. rewrite bind_bind. unfold mbind, M_bind. pose proof (toSummary_reads b r) as Hb.
  destruct (toSummary b r) as [[s|e] r1]; cbn in Hb; by subst r1.
Qed.
(** Read a workspace, read from memory, check the answer. *)
Lemma read_command_settles {A B} ws (m : Reg A) (f : A → result store_exn B) : (∀ r, (m r).2 = r) →
  settles coherent (ensureHydrated ws ≫= λ _, on_memory m ≫= λ a, lift (f a)).
Proof.
  intros Hm. apply hydrated_settles'. intros w [Hc _]. revert w Hc. change (on_memory m) with (in_memory m).
  eapply (settles_bind coherent); [by apply leads_settles, read_settles|]. intros a. apply settles_read.
Qed.
Lemma read_only_settles {A} ws (m : Reg A) : (∀ r, (m r).2 = r) → settles coherent (ensureHydrated ws ≫= λ _, on_memory m).
Proof. intros Hm. apply hydrated_settles'. intros w [Hc _]. by apply read_settles. Qed.
Lemma checked_settles {A B} ws (m : Reg A) (f : A → json) (g : A → B) : (∀ r, (m r).2 = r) →
  settles coherent (ensureHydrated ws ≫= λ _, on_memory m ≫= λ a, checked (W:=World) (f a) ≫= λ _, mret (g a)).
Proof.
  intros Hm. apply hydrated_settles'. intros w [Hc _]. revert w Hc. change (on_memory m) with (in_memory m).
  eapply (settles_bind coherent); [by apply leads_settles, read_settles|]. intros a.
  eapply settles_bind; [apply leads_settles, settles_read|]. intros ?. apply settles_ret.
Qed.
Lemma getTenant_settles ws a id : settles coherent (getApplicationTenant (W:=World) ws a id).
Proof.
  apply hydrated_settles'. intros w [Hc _]. change (@on_memory World durable) with (@in_memory).
  rewrite (bind_Ok_run _ _ _ _ _ (in_memory_gets _ w)). by destruct (getTenant _ _ _ _).
Qed.
Lemma getBinding_settles ws id : settles coherent (getStorageBinding (W:=World) ws id).
Proof.
  apply found_settles. intros b w ((Hc & _) & _ & _). revert w Hc. change (on_memory (toSummary b)) with (in_memory (toSummary b)).
  eapply (settles_bind coherent); [apply leads_settles, read_settles, toSummary_reads|]. intros s. apply answered_settles.
Qed.

(** ** Any sequence of commands *)

Inductive request :=
  | ListTenants (ws app : string)
  | GetTenant (ws app id : string)
  | CreateTenant (c : CreateApplicationTenantCommand)
  | UpdateTenant (id : string) (c : UpdateApplicationTenantCommand)
  | SuspendTenant (id : string) (c : TenantStatusCommand)
  | CloseTenant (id : string) (c : TenantStatusCommand)
  | EffectiveStorage (ws app : string) (tenant : option string)
  | BindingRollup (ws : string) (apps : list (string * string)) (platform : option (string * string))
  | ListBindings (ws : string) (app : option string) (tenant : option (option string))
  | GetBinding (ws id : string)
  | UpsertBinding (versionId : string) (actor : AuthenticatedActor) (c : UpsertStorageBindingCommand)
  | DeleteBinding (id ws : string) (force : bool)
  | ProbeBinding (c : ProbeStorageBindingCommand)
  | RefreshPlan (c : RefreshStoragePlanCommand)
  | AcceptPlan (c : AcceptStoragePlanCommand)
  | DisableBinding (id ws : string)
  | RollbackBinding (versionId : string) (actor : AuthenticatedActor) (id ws : string)
  | CutoverMigrate (versionId : string) (actor : AuthenticatedActor) (c : CutoverStorageMigrateCommand)
  | ResolveRoute (context : RoutingContext).
Definition void {A} (m : P A) : P unit := m ≫= λ _, mret tt.
Definition run_request (options : CommandOptions) (env : CallEnv) (q : request) : P unit :=
  match q with
  | ListTenants ws app => void (listApplicationTenants ws app)
  | GetTenant ws app id => void (getApplicationTenant ws app id)
  | CreateTenant c => void (createApplicationTenant env c)
  | UpdateTenant id c => void (updateApplicationTenant env id c)
  | SuspendTenant id c => void (suspendApplicationTenant env id c)
  | CloseTenant id c => void (closeApplicationTenant env id c)
  | EffectiveStorage ws app tenant => void (getEffectiveStorage ws app tenant)
  | BindingRollup ws apps platform => void (getStorageBindingRollup ws apps platform)
  | ListBindings ws app tenant => void (listStorageBindings ws app tenant)
  | GetBinding ws id => void (getStorageBinding ws id)
  | UpsertBinding vid actor c => void (upsertStorageBinding env vid actor c)
  | DeleteBinding id ws force => void (deleteStorageBinding id ws force)
  | ProbeBinding c => void (probeStorageBinding options env c)
  | RefreshPlan c => void (refreshStoragePlan env c)
  | AcceptPlan c => void (acceptStoragePlan env c)
  | DisableBinding id ws => void (disableStorageBinding env id ws)
  | RollbackBinding vid actor id ws => void (rollbackStorageBinding env vid actor id ws)
  | CutoverMigrate vid actor c => void (cutoverStorageMigrate env vid actor c)
  | ResolveRoute context => void (resolveStorageRoute context)
  end.

Lemma void_settles {A} Q (m : P A) : settles Q m → settles Q (void m).
Proof. intros Hm. eapply settles_bind; [by apply leads_settles|]. intros ?. apply settles_ret. Qed.
Lemma request_settles options env q w : clock_ok env → fresh_for env (w_db w) → coherent w → outcome_ok (run_request options env q w).
Proof.
  intros Hk Hf Hc. assert (∀ A (m : P A), settles coherent m → outcome_ok (void m w)) as Hv by (intros; by apply void_settles with coherent).
  assert (∀ A (m : P A), settles (λ w, coherent w ∧ fresh_for env (w_db w)) m → outcome_ok (void m w)) as Hv'
    by (intros A m Hm; by apply (void_settles _ _ Hm)).
  destruct q; cbn [run_request].
  - apply Hv, read_only_settles. done.
  - apply Hv, getTenant_settles.
  - by apply Hv', create_tenant_settles.
  - by apply Hv, update_tenant_settles.
  - by apply Hv, tenant_status_settles.
  - by apply Hv, tenant_status_settles.
  - apply Hv, (checked_settles _ _ effective_json id), effectiveSummary_reads.
  - by apply Hv, (checked_settles _ _ rollup_json id).
  - apply Hv, (checked_settles _ _ (λ items, JArray (map summary_json items)) id), listBindings_reads.
  - apply Hv, getBinding_settles.
  - by apply Hv', upsert_settles.
  - apply Hv, delete_settles.
  - by apply Hv, probe_settles.
  - by apply Hv, refresh_settles.
  - by apply Hv, accept_settles.
  - by apply Hv, disable_settles.
  - by apply Hv, rollback_settles.
  - apply Hv, cutover_settles.
  - by apply Hv, read_only_settles.
Qed.

(** A process that starts on the tables as they are. *)
Definition restart (w : World) : World := mkWorld new_registry (w_db w) (w_faults w).
Lemma restart_coherent w : db_ok (w_db w) → coherent (restart w).
Proof.
  intros Hd. split; try done; cbn; try apply NoDup_nil_2.
  - intros ws id t Hin. by apply elem_of_nil in Hin.
  - intros ws id t Hin. by apply elem_of_nil in Hin.
Qed.

(** A process takes commands one after the other, none of which fails on the
    database, and may be replaced between any two of them.  (After a command that
    failed on the database the process goes on with what it did not store:
    [DurabilityWitness.failed_binding_is_served].)  The faults that transactions
    meet are not its choice; those a command recovers from are part of its run. *)
Inductive pg_step (options : CommandOptions) : World → World → Prop :=
  | step_command env q w x w' : clock_ok env → fresh_for env (w_db w) → run_request options env q w = (x, w') →
      (∀ m, x ≠ Err (Database m)) → pg_step options w w'
  | step_restart w : pg_step options w (restart w)
  | step_faults w faults : pg_step options w (mkWorld (w_registry w) (w_db w) faults).

Lemma pg_step_coherent options w w' : coherent w → pg_step options w w' → coherent w'.
Proof.
  intros Hc Hs. destruct Hs as [env q w x w' Hk Hf Hr Hx|w|w fs].
  - pose proof (request_settles options env q w Hk Hf Hc) as Ho. rewrite Hr in Ho. destruct x as [u|[e|m]]; [done|done|by destruct (Hx m)].
  - apply restart_coherent, Hc.
  - by apply coherent_faults.
Qed.
Lemma pg_steps_coherent options w w' : coherent w → rtc (pg_step options) w w' → coherent w'.
Proof. intros Hc Hs. induction Hs as [|x y z Hxy _ IH]; [done|]. by eapply IH, pg_step_coherent. Qed.

(** ** What two processes on the same tables answer *)

Section Agreement.
Context (ws : string) (w1 w2 : World) (H1 : hydrated ws w1) (H2 : hydrated ws w2) (Hdb : w_db w1 = w_db w2).

End Agreement.




(** *** Without faults a workspace is read *)

Definition calm (w : World) : World := mkWorld (w_registry w) (w_db w) [].

(** *** The process and its successor *)

Definition empty_tables (d : AppDb) : Prop := adb_tenants d = [] ∧ adb_profiles d = [] ∧ adb_bindings d = [].
Lemma empty_tables_ok d : empty_tables d → db_ok d.
Proof. intros (Ht & Hp & Hb). split; rewrite ?Ht, ?Hp, ?Hb; cbn; try done; apply NoDup_nil_2. Qed.

Lemma reached_coherent options d0 w : empty_tables d0 → rtc (pg_step options) (mkWorld new_registry d0 []) w → coherent w.
Proof.
  intros He Hs. eapply pg_steps_coherent; [|exact Hs]. apply (restart_coherent (mkWorld new_registry d0 [])), empty_tables_ok, He.
Qed.
(** No command of this registry begins a migration, so none can be cut over. *)
Theorem cutover_unavailable options d0 w env vid actor c : empty_tables d0 → rtc (pg_step options) (mkWorld new_registry d0 []) w →
  is_Ok (cutoverStorageMigrate env vid actor c w).1 = false.
Proof.
  intros He Hs. pose proof (reached_coherent _ _ _ He Hs) as Hc. unfold cutoverStorageMigrate.
  pose proof (require_leads (cm_sourceBindingId c) (cm_workspaceId c) w Hc) as H1. unfold mbind at 1, M_bind at 1.
  destruct (requireWorkspaceBinding _ _ w) as [[b1|e] w1]; [|done]. destruct H1 as ((Hc1 & _) & _).
  pose proof (require_leads (cm_targetBindingId c) (cm_workspaceId c) w1 Hc1) as H2. unfold mbind at 1, M_bind at 1.
  destruct (requireWorkspaceBinding _ _ w1) as [[b2|e] w2]; [|done]. destruct H2 as ((Hc2 & _) & _).
  destruct (cutover_refused env c (actor_id actor) w2 Hc2) as [e Hx]. unfold try_catch.
  change (@on_memory World durable) with (@in_memory). by rewrite (bind_Err_run _ _ _ _ _ Hx).
Qed.


End Durability.

(** ** Witnesses, and where the two registries part *)

Module DurabilityWitness.
#[local] Instance registry : AppStorageRegistry World := durable String.leb.
Definition env (n : string) (t : Z) : CallEnv :=
  mkEnv (toISOString t) (toISOString t) ("tenant-" +:+ n) ("external-" +:+ n) ("profile-" +:+ n) ("binding-" +:+ n) ("version-" +:+ n).
Definition command (tenant : option string) (bucket : string) : UpsertStorageBindingCommand :=
  mkUpsert "w" "app" tenant s3 "eu" bucket None managed platform_iam None None None None None None.
Definition admin : AuthenticatedActor := mkActor "admin" "Admin" None [] [].
Definition options : CommandOptions := mkCommandOptions false (Some (λ _ _, Ok (mkLiveProbe true "Connected." None (Some true)))).
Definition tables : AppDb := mkAppDb ["w"] ["app"] [] [] [] [] [].
Definition start : World := mkWorld new_registry tables [].
Definition after (n : string) (t : Z) (q : request) (w : World) : World := (run_request String.leb options (env n t) q w).2.


(** A tenant, a binding of the application and one of the tenant, both probed. *)
Definition w1 : World := after "1" 1 (CreateTenant (mkCreateTenant "w" "app" "acme" "Acme")) start.
Definition w2 : World := after "2" 2 (UpsertBinding "stored-2" admin (command None "shared")) w1.
Definition w3 : World := after "3" 3 (UpsertBinding "stored-3" admin (command (Some "tenant-1") "acme")) w2.
Definition w4 : World := after "4" 4 (ProbeBinding (mkProbeCommand "w" "binding-3" None)) w3.
Definition in_use : World := after "5" 5 (ResolveRoute (mkContext "w" (Some "app") (Some "tenant-1") None ingest None None)) w4.
Definition tenant_ingest : RoutingContext := mkContext "w" (Some "app") (Some "tenant-1") None ingest None None.
Definition route (w : World) : option (option string * bool * option string) :=
  match resolveStorageRoute tenant_ingest (calm w) with
  | (Ok x, _) => Some (resolved_bindingId x, resolved_allowWrite x, resolved_reason x)
  | (Err _, _) => None
  end.


(** In the process that made the last change a rollback finds no previous
    version: after the change the workspace is read again, and the versions
    stored are added to those in memory, so that the last two are both the
    current one.  A process that starts anew rolls back. *)
Definition changed_twice : World :=
  after "7" 7 (UpsertBinding "stored-7" admin (command None "second")) (after "6" 6 (UpsertBinding "stored-6" admin (command None "first")) start).
Definition rollback (w : World) : result store_exn string :=
  (λ s, profile_bucket (summary_profile s)) <$> (rollbackStorageBinding (env "8" 8) "stored-8" admin "binding-6" "w" (calm w)).1.
Theorem rollback_refused_after_change :
  rollback changed_twice = Err (Domain (AppError "No previous binding version")) ∧ rollback (restart changed_twice) = Ok "first".
Proof. split; vm_compute; reflexivity. Qed.

(** A binding whose insertion failed on the database is served by the process
    that tried, and unknown to any other. *)
Definition failed_insert : result store_exn unit * World :=
  run_request String.leb options (env "6" 6) (UpsertBinding "stored-6" admin (command None "first")) (mkWorld new_registry tables [false; false; false; true]).
Theorem failed_binding_is_served :
  failed_insert.1 = Err (Database "Connection terminated unexpectedly") ∧ adb_bindings (w_db failed_insert.2) = [] ∧
  is_Ok (getStorageBinding "w" "binding-6" (calm failed_insert.2)).1 = true ∧
  (getStorageBinding "w" "binding-6" (calm (restart failed_insert.2))).1 =
    Err (Domain (AppCoded "RESOURCE_NOT_FOUND" "Storage binding was not found.")).
Proof. split_and!; vm_compute; reflexivity. Qed.

(** Two processes on one database: what one of them disables the other, which
    read the workspace before, keeps opening for writes; and when it is asked
    again for a tenant that exists, it writes its old copy back, so that a
    suspended tenant is active again. *)
Definition disabled_elsewhere : World := after "6" 6 (DisableBinding "binding-3" "w") in_use.
Definition suspended_elsewhere : World :=
  after "6" 6 (SuspendTenant "tenant-1" (mkTenantStatus "w" "app" (toISOString 1))) in_use.
(** The process of [in_use] on the tables another one left. *)
Definition other_process (w : World) : World := mkWorld (w_registry in_use) (w_db w) [].
Definition stored_status (w : World) : option TenantStatus := tenant_status <$> map_get "tenant-1" (adb_tenants (w_db w)).
Theorem other_process_is_stale :
  route disabled_elsewhere = Some (Some "binding-3", false, Some "disabled") ∧
  route (other_process disabled_elsewhere) = Some (Some "binding-3", true, None) ∧
  stored_status suspended_elsewhere = Some tenant_suspended ∧
  stored_status (after "7" 7 (CreateTenant (mkCreateTenant "w" "app" "acme" "Acme")) (other_process suspended_elsewhere)) = Some tenant_active.
Proof. split_and!; vm_compute; reflexivity. Qed.

(** An observation sent with a refresh of the plan is always taken. *)
Theorem observation_always_taken :
  summary_observedQuotaBytes <$> (refreshStoragePlan (env "6" 6) (mkRefreshPlan "w" "binding-3" (Some 5%Z) None) (calm in_use)).1 = Ok (Some 5%Z).
Proof. vm_compute. reflexivity. Qed.
End DurabilityWitness.
