(* ===== verification/StorageDiagnostics.v ===== *)
(** * apps/trust-api, storage-diagnostics.ts: what is shown of the storage

    The classification of provider errors, the console links, the projection of
    the configuration, the probe of a bucket, the limiter of probes and the cache
    of the last result.  [new URL] is a parameter; a probe acts on the world of
    [Ingest], so that its storage calls may fail as any other.

    The lemmas: what a probe reports as a success, the limiter against the
    history of its grants, and the text in which secrets are looked for, which
    falls apart at every character that is neither a letter nor a digit. *)
From S2P Require Import Prelude Js Json AuditChain Core StorageKeys Storage IngestStore Ingest Access AppStorage Regex.
From S2P Require Import Archive TransferGrants Contracts Commands Sdk.

(** ** Data *)

(** Source: packages/protocol/src/index.ts:654-657 StorageCredentialMode *)
Inductive StorageCredentialMode := iam_role | static_keys_configured | credentials_missing.
(** Source: packages/protocol/src/index.ts:659-667 StorageIssueClass *)
Inductive StorageIssueClass :=
  | issue_not_configured | issue_auth | issue_permission | issue_not_found | issue_wrong_region | issue_network
  | issue_provider_outage | issue_internal.
(** Source: packages/protocol/src/index.ts:670-670 StorageProbeTier *)
Inductive StorageProbeTier := tier_connectivity | tier_ingest.
#[global] Instance StorageIssueClass_eq_dec : EqDecision StorageIssueClass. Proof. solve_decision. Defined.
#[global] Instance StorageProbeTier_eq_dec : EqDecision StorageProbeTier. Proof. solve_decision. Defined.

(** Source: packages/protocol/src/index.ts:672-676 StorageConsoleLink *)
Record StorageConsoleLink := mkLink { link_id : string; link_label : string; link_url : string }.

(** Source: packages/protocol/src/index.ts:678-692 StorageProbeResult *)
Record StorageProbeResult := mkProbeResult {
  pr_probeId : string;
  pr_tier : StorageProbeTier;
  pr_ok : bool;
  pr_latencyMs : Z;
  pr_issueClass : option StorageIssueClass;
  pr_issueCode : option string;
  pr_checkedAt : string;
  pr_summary : string;
  pr_billingHint : option string;
  pr_bucketRegion : option string;
  pr_regionMatch : option bool;
}.

(** Source: packages/protocol/src/index.ts:695-711 StorageHealthDetails *)
Record StorageHealthDetails := mkDetails {
  hd_provider : StorageProviderName;
  hd_region : string;
  hd_bucket : string;
  hd_credentialMode : StorageCredentialMode;
  hd_endpointHost : option string;
  hd_transferSignerConfigured : bool;
  hd_objectStorageConfigured : bool;
  hd_cataloguedObjects : Z;
  hd_failedVerificationObjects : Z;
  hd_consoleLinks : list StorageConsoleLink;
  hd_probe : option StorageProbeResult;
  hd_minimalIamActions : list string;
  hd_scannerConfigured : bool;
}.

(** Source: packages/protocol/src/index.ts:713-716 ProbeStorageCommand *)
Record ProbeStorageCommand := mkProbeStorage { ps_workspaceId : string; ps_tier : option StorageProbeTier }.

(** Source: apps/trust-api/src/storage-diagnostics.ts:18-28 SafeStorageConfig *)
Record SafeStorageConfig := mkSafeConfig {
  sc_provider : StorageProviderName;
  sc_region : string;
  sc_bucket : string;
  sc_credentialMode : StorageCredentialMode;
  sc_endpointHost : option string;
  sc_consoleUrl : option string;
  sc_transferSignerConfigured : bool;
  sc_objectStorageConfigured : bool;
  sc_expectedBucketOwner : option string;
}.

(** Source: apps/trust-api/src/storage-diagnostics.ts:15-15 STORAGE_HEALTH_CACHE_TTL_MS *)
Definition STORAGE_HEALTH_CACHE_TTL_MS : Z := 30000.
(** Source: apps/trust-api/src/storage-diagnostics.ts:16-16 STORAGE_PROBE_RATE_LIMIT_MS *)
Definition STORAGE_PROBE_RATE_LIMIT_MS : Z := 5000.

(** ** Errors of a provider *)

(** What the code reads of a thrown object: its properties where they are set
    ([$metadata.httpStatusCode ?? $response.statusCode] is one of them), and
    whether it is a [StorageError].  Anything else that is thrown has none. *)
Record ThrownObject := mkThrown {
  th_name : string;
  th_message : string;
  th_Code : option string;
  th_code : option string;
  th_status : option Z;
  th_isStorageError : bool;
}.
Inductive thrown := AnObject (o : ThrownObject) | NotAnObject.

(** [new Error(message)], with the properties assigned to it. *)
Definition new_Error (name message : string) (code : option string) : thrown :=
  AnObject (mkThrown name message None code None false).

(** [/a|b|.../i.test(s)], for alternatives in lower case. *)
Definition mentions (words : list string) (s : string) : bool := existsb (includes (toLowerCase s)) words.

(** [a || b] on strings. *)
Definition or_else (a b : string) : string := if a === EmptyString then b else a.

(** Source: apps/trust-api/src/storage-diagnostics.ts:38-43 ClassifiedStorageIssue *)
Record ClassifiedStorageIssue := mkIssue {
  ci_issueClass : StorageIssueClass;
  ci_issueCode : string;
  ci_billingHint : option string;
  ci_summary : string;
}.

Definition BILLING_HINT : string := "If access looks right, check the provider account or billing page.".
Definition unexpected : ClassifiedStorageIssue :=
  mkIssue issue_internal "unexpected" None "Unexpected server error — check API logs.".

(** [status === n]. *)
Definition status_is (o : ThrownObject) (n : Z) : bool := th_status o === Some n.

(** The branches for objects, [None] where none applies. *)
(** Source: apps/trust-api/src/storage-diagnostics.ts:47-150 classifyStorageError *)
Definition classify_object (o : ThrownObject) : option ClassifiedStorageIssue :=
  let name := th_name o in
  let message := th_message o in
  let code := default (default (or_else name "unknown") (th_code o)) (th_Code o) in
  if (name === "CredentialsProviderError") ||
     array_includes ["InvalidAccessKeyId"; "SignatureDoesNotMatch"; "ExpiredToken"; "InvalidToken"] code ||
     mentions ["credential"; "access key"; "secret key"; "not authorized to perform: sts"] message
  then Some (mkIssue issue_auth (or_else code "auth_failure") None "Server cannot prove identity to the provider.")
  else if array_includes ["PermanentRedirect"; "AuthorizationHeaderMalformed"] code || status_is o 301 ||
          mentions ["region"; "endpoint"; "permanent redirect"] message
  then Some (mkIssue issue_wrong_region (or_else code "wrong_region") None
               "Bucket region does not match TRUST_STORAGE_REGION on the API host.")
  else if array_includes ["AccessDenied"; "AllAccessDisabled"; "AccessDeniedException"] code || status_is o 403
  then Some (mkIssue issue_permission (or_else code "access_denied")
               (if mentions ["disabled"; "delinquent"; "suspend"; "billing"; "payment"] message || (code === "AllAccessDisabled")
                then Some BILLING_HINT else None)
               "Identity works but lacks bucket rights.")
  else if array_includes ["NoSuchBucket"; "NotFound"] code || status_is o 404
  then Some (mkIssue issue_not_found (or_else code "not_found") None "Bucket or region looks wrong.")
  else if array_includes ["SlowDown"; "ServiceUnavailable"; "InternalError"] code ||
          match th_status o with Some status => Z.leb 500 status | None => false end
  then Some (mkIssue issue_provider_outage
               (or_else code ("http_" +:+ match th_status o with Some status => pretty status | None => "undefined" end))
               (Some BILLING_HINT) "Provider side looks unhealthy.")
  else if array_includes ["TimeoutError"; "AbortError"] name ||
          array_includes ["ECONNREFUSED"; "ENOTFOUND"; "ETIMEDOUT"; "EAI_AGAIN"; "ABORT_ERR"] code ||
          mentions ["timeout"; "timed out"; "aborted"; "network"; "econnrefused"; "enotfound"] message
  then Some (mkIssue issue_network (or_else code "network_failure") None
               "Cannot reach the provider (internet / VPC / firewall).")
  else None.

(** Source: apps/trust-api/src/storage-diagnostics.ts:46-181 classifyStorageError *)
Definition classifyStorageError (error : thrown) : ClassifiedStorageIssue :=
  match error with
  | NotAnObject => unexpected
  | AnObject o =>
      match classify_object o with
      | Some issue => issue
      | None =>
          if th_isStorageError o
          then match th_code o with
               | Some code =>
                   if code === "access_denied"
                   then mkIssue issue_permission code None "Identity works but lacks bucket rights."
                   else if code === "not_found"
                   then mkIssue issue_not_found code None "Bucket or region looks wrong."
                   else if (code === "throttled") || (code === "transient")
                   then mkIssue issue_provider_outage code None "Provider side looks unhealthy."
                   else unexpected
               | None => unexpected
               end
          else unexpected
      end
  end.

(** ** Console links *)

(** [new URL(s)], [None] where it throws, and the accessors the code uses. *)
Class WebUrl := {
  Url : Type;
  new_URL : string → option Url;
  url_scheme : Url → string; (* [protocol], with its colon *)
  url_host : Url → string;
  url_hostname : Url → string;
  url_port : Url → string;
  url_set_port : string → Url → Url;
  url_toString : Url → string;
}.

(** Source: apps/trust-api/src/storage-diagnostics.ts:183-195 awsConsoleBase *)
Definition awsConsoleBase (region : string) : string :=
  let normalized := toLowerCase (trim region) in
  if startsWith normalized "us-gov-" then "https://console.amazonaws-us-gov.com"
  else if startsWith normalized "cn-" then "https://console.amazonaws.cn"
  else if normalized !== EmptyString then "https://" +:+ normalized +:+ ".console.aws.amazon.com"
  else "https://console.aws.amazon.com".

(** [s.replace(/\/$/, "")]. *)
Definition drop_slash (s : string) : string :=
  match rev (chars s) with
  | c :: r => if c === "/"%char then string_of_list_ascii (rev r) else s
  | [] => s
  end.
Definition with_scheme (host : string) : string := if includes host "://" then host else "http://" +:+ host.

(** [s.endsWith(suffix)]. *)
Definition endsWith (s suffix : string) : bool :=
  startsWith (string_of_list_ascii (rev (chars s))) (string_of_list_ascii (rev (chars suffix))).

(** [/^(10\.|192\.168\.|172\.(1[6-9]|2\d|3[0-1])\.)/], and a search that is
    anchored at the start only. *)
Definition PRIVATE_ADDRESS : re :=
  OneOf [Text "10."; Text "192.168.";
         Sequence [Text "172."; OneOf [Cat (Char "1"%char) (Chr (in_range 54 57)); Cat (Char "2"%char) (Chr is_digit);
                                       Cat (Char "3"%char) (Chr (in_range 48 49))]; Text "."]].
Definition begins (r : re) (s : string) : bool := matches (Cat r (Star any)) s.

Section Links.
Context `{WebUrl} `{TextCodec}.

(** Source: apps/trust-api/src/storage-diagnostics.ts:247-262 deriveMinioConsoleUrl *)
Definition deriveMinioConsoleUrl (endpointHost : option string) : option string :=
  match endpointHost with
  | None | Some EmptyString => None
  | Some host =>
      match new_URL (with_scheme host) with
      | Some url =>
          let url := if (url_port url === "9000") || (url_port url === EmptyString) then url_set_port "9001" url else url in
          Some (drop_slash (url_toString url))
      | None => None
      end
  end.

(** Source: apps/trust-api/src/storage-diagnostics.ts:264-282 isAllowlistedHttpHost *)
Definition isAllowlistedHttpHost (host : string) : bool :=
  match new_URL (with_scheme host) with
  | Some url =>
      if (url_scheme url !== "http:") && (url_scheme url !== "https:") then false
      else
        let hostname := toLowerCase (url_hostname url) in
        (hostname === "localhost") || (hostname === "127.0.0.1") || endsWith hostname ".local" ||
        begins PRIVATE_ADDRESS hostname || (hostname === "minio") || startsWith hostname "minio."
  | None => false
  end.

(** Source: apps/trust-api/src/storage-diagnostics.ts:197-245 buildConsoleLinks *)
Definition buildConsoleLinks (config : SafeStorageConfig) : list StorageConsoleLink :=
  match sc_provider config with
  | s3 =>
      if negb (blank (sc_bucket config))
      then
        let region := or_else (sc_region config) "us-east-1" in
        let base := awsConsoleBase region in
        [mkLink "s3_bucket" "Open in Amazon S3"
           (base +:+ "/s3/buckets/" +:+ encodeURIComponent (sc_bucket config) +:+ "?region=" +:+ encodeURIComponent region);
         mkLink "iam" "Open IAM" (base +:+ "/iam/home#/home");
         mkLink "billing" "Open billing" (base +:+ "/billing/home")]
      else []
  | minio =>
      match (match sc_consoleUrl config with Some url => Some url | None => deriveMinioConsoleUrl (sc_endpointHost config) end) with
      | Some url =>
          if (url !== EmptyString) && isAllowlistedHttpHost url
          then [mkLink "minio_console" "Open MinIO console" url] else []
      | None => []
      end
  end.

(** ** The configuration that may be shown *)

(** The input of [projectSafeStorageConfig]. *)
Record StorageConfigInput := mkConfigInput {
  ci_provider : StorageProviderName;
  ci_region : string;
  ci_bucket : string;
  ci_endpoint : option string;
  ci_consoleUrl : option string;
  ci_hasStaticKeys : bool;
  ci_transferSignerConfigured : bool;
  ci_objectStorageConfigured : bool;
  ci_expectedBucketOwner : option string;
}.

(** [o?.trim() || undefined]. *)
Definition trimmed (o : option string) : option string :=
  match o with Some s => if blank s then None else Some (trim s) | None => None end.

(** Source: apps/trust-api/src/storage-diagnostics.ts:284-323 projectSafeStorageConfig *)
Definition projectSafeStorageConfig (input : StorageConfigInput) : SafeStorageConfig :=
  let endpointHost :=
    match ci_endpoint input with
    | Some endpoint =>
        if blank endpoint then None
        else match new_URL endpoint with Some url => Some (url_scheme url +:+ "//" +:+ url_host url) | None => None end
    | None => None
    end in
  let credentialMode :=
    if negb (ci_objectStorageConfigured input) then credentials_missing
    else if ci_hasStaticKeys input then static_keys_configured else iam_role in
  mkSafeConfig (ci_provider input) (ci_region input) (ci_bucket input) credentialMode endpointHost
    (match trimmed (ci_consoleUrl input) with Some url => Some url | None => deriveMinioConsoleUrl endpointHost end)
    (ci_transferSignerConfigured input) (ci_objectStorageConfigured input) (trimmed (ci_expectedBucketOwner input)).

(** Source: apps/trust-api/src/storage-diagnostics.ts:584-592 MINIMAL_STORAGE_IAM_ACTIONS *)
Definition MINIMAL_STORAGE_IAM_ACTIONS : list string :=
  ["s3:ListBucket"; "s3:GetObject"; "s3:PutObject"; "s3:DeleteObject"; "s3:AbortMultipartUpload";
   "s3:ListBucketMultipartUploads"; "s3:ListMultipartUploadParts"].

(** Source: apps/trust-api/src/storage-diagnostics.ts:595-607 exampleStorageIamResources *)
Definition exampleStorageIamResources (bucket : string) : string * string * string :=
  let safe := or_else (trim bucket) "YOUR_BUCKET" in
  ("arn:aws:s3:::" +:+ safe, "arn:aws:s3:::" +:+ safe +:+ "/workspaces/*",
   "Prefer HeadBucket (needs s3:ListBucket on the bucket ARN). Do not rely on GetBucketLocation for region discovery. Add kms:Encrypt/Decrypt/GenerateDataKey when SSE-KMS is enabled.").

(** The variable [TRUST_SCANNER] is the argument. *)
(** Source: apps/trust-api/src/storage-diagnostics.ts:610-614 isFakeScannerEnabled *)
Definition isFakeScannerEnabled (TRUST_SCANNER : option string) : bool :=
  toLowerCase (trim (default EmptyString TRUST_SCANNER)) === "fake".

Record CatalogCounts := mkCounts { cc_objects : Z; cc_failed : Z }.

(** Source: apps/trust-api/src/storage-diagnostics.ts:325-345 toStorageHealthDetails *)
Definition toStorageHealthDetails (TRUST_SCANNER : option string) (config : SafeStorageConfig)
    (probe : option StorageProbeResult) (catalog : CatalogCounts) : StorageHealthDetails :=
  mkDetails (sc_provider config) (sc_region config) (sc_bucket config) (sc_credentialMode config) (sc_endpointHost config)
    (sc_transferSignerConfigured config) (sc_objectStorageConfigured config) (cc_objects catalog) (cc_failed catalog)
    (buildConsoleLinks config) probe MINIMAL_STORAGE_IAM_ACTIONS (isFakeScannerEnabled TRUST_SCANNER).
End Links.

(** [{ ...details, cataloguedObjects, failedVerificationObjects }]. *)
Definition with_counts (catalog : CatalogCounts) (d : StorageHealthDetails) : StorageHealthDetails :=
  mkDetails (hd_provider d) (hd_region d) (hd_bucket d) (hd_credentialMode d) (hd_endpointHost d)
    (hd_transferSignerConfigured d) (hd_objectStorageConfigured d) (cc_objects catalog) (cc_failed catalog)
    (hd_consoleLinks d) (hd_probe d) (hd_minimalIamActions d) (hd_scannerConfigured d).

(** ** The search for secrets in what is shown *)

Definition mode_text (mode : StorageCredentialMode) : string :=
  match mode with
  | iam_role => "iam_role" | static_keys_configured => "static_keys_configured" | credentials_missing => "missing"
  end.
Definition issue_text (issue : StorageIssueClass) : string :=
  match issue with
  | issue_not_configured => "not_configured" | issue_auth => "auth" | issue_permission => "permission"
  | issue_not_found => "not_found" | issue_wrong_region => "wrong_region" | issue_network => "network"
  | issue_provider_outage => "provider_outage" | issue_internal => "internal"
  end.
Definition tier_text (tier : StorageProbeTier) : string :=
  match tier with tier_connectivity => "connectivity" | tier_ingest => "ingest" end.
Definition provider_text (p : StorageProviderName) : string := match p with minio => "minio" | s3 => "s3" end.
Definition nullable_text (o : option string) : json := match o with Some s => JString s | None => JNull end.

(** The objects as [JSON.stringify] meets them, their properties in the order
    in which the code sets them. *)
Definition probe_json (p : StorageProbeResult) : json :=
  JObject ([("probeId", JString (pr_probeId p)); ("tier", JString (tier_text (pr_tier p))); ("ok", JBool (pr_ok p));
            ("latencyMs", JNumber (pr_latencyMs p));
            ("issueClass", match pr_issueClass p with Some c => JString (issue_text c) | None => JNull end);
            ("issueCode", nullable_text (pr_issueCode p)); ("checkedAt", JString (pr_checkedAt p));
            ("summary", JString (pr_summary p))] ++
           match pr_billingHint p with Some hint => [("billingHint", JString hint)] | None => [] end ++
           [("bucketRegion", nullable_text (pr_bucketRegion p));
            ("regionMatch", match pr_regionMatch p with Some b => JBool b | None => JNull end)]).
Definition link_json (l : StorageConsoleLink) : json :=
  JObject [("id", JString (link_id l)); ("label", JString (link_label l)); ("url", JString (link_url l))].
Definition details_json (d : StorageHealthDetails) : json :=
  JObject [("provider", JString (provider_text (hd_provider d))); ("region", JString (hd_region d));
           ("bucket", JString (hd_bucket d)); ("credentialMode", JString (mode_text (hd_credentialMode d)));
           ("endpointHost", nullable_text (hd_endpointHost d));
           ("transferSignerConfigured", JBool (hd_transferSignerConfigured d));
           ("objectStorageConfigured", JBool (hd_objectStorageConfigured d));
           ("cataloguedObjects", JNumber (hd_cataloguedObjects d));
           ("failedVerificationObjects", JNumber (hd_failedVerificationObjects d));
           ("consoleLinks", JArray (map link_json (hd_consoleLinks d)));
           ("probe", match hd_probe d with Some p => probe_json p | None => JNull end);
           ("minimalIamActions", JArray (map JString (hd_minimalIamActions d)));
           ("scannerConfigured", JBool (hd_scannerConfigured d))].

(** Some suffix of the text satisfies [p]. *)
Fixpoint somewhere (p : string → bool) (s : string) : bool :=
  p s || match s with EmptyString => false | String _ s' => somewhere p s' end.
Definition is_alnum (c : ascii) : bool := is_lower c || is_digit c || is_upper c.
(** [n] letters or digits come first. *)
Fixpoint alnums (n : nat) (s : string) : bool :=
  match n, s with
  | O, _ => true
  | S n, String c s => is_alnum c && alnums n s
  | S _, EmptyString => false
  end.
(** The word, and [n] letters or digits after it. *)
Fixpoint word_then (word : string) (n : nat) (s : string) : bool :=
  match word, s with
  | EmptyString, _ => alnums n s
  | String c word, String d s => (c === d) && word_then word n s
  | String _ _, EmptyString => false
  end.

(** The alternatives of the pattern, in lower case; the last is
    [AKIA[0-9A-Z]{16}]. *)
Definition secret_patterns : list (string * nat) :=
  [("accesskey", 0); ("secretkey", 0); ("secretaccesskey", 0); ("sessiontoken", 0); ("secret", 0); ("akia", 16)].
Definition has_secret (s : string) : bool := existsb (λ p, somewhere (word_then p.1 p.2) (toLowerCase s)) secret_patterns.

(** Source: apps/trust-api/src/storage-diagnostics.ts:347-358 assertNoSecretFields *)
Definition assertNoSecretFields (details : StorageHealthDetails) : result api_exn unit :=
  throw_if (has_secret (JSON_stringify (details_json details)))
    (plainError "Storage health details must not include secret material.").

(** ** The limiter of probes *)

(** The map [lastByKey]; the answer and the map after the call. *)
(** Source: apps/trust-api/src/storage-diagnostics.ts:360-375 ProbeRateLimiter *)
Definition tryAcquire (windowMs now : Z) (key : string) (lastByKey : list (string * Z)) : bool * list (string * Z) :=
  let last := default 0%Z (map_get key lastByKey) in
  if Z.ltb (now - last) windowMs then (false, lastByKey) else (true, map_set key now lastByKey).

(** ** The cache of the last result *)

(** Source: apps/trust-api/src/storage-diagnostics.ts:377-390 StorageHealthCache *)
Record CacheEntry (Status : Type) := mkEntry {
  ce_storedAt : Z;
  ce_details : StorageHealthDetails;
  ce_status : Status;
  ce_summary : string;
}.
Arguments mkEntry {Status}. Arguments ce_storedAt {Status}. Arguments ce_details {Status}. Arguments ce_status {Status}.
Arguments ce_summary {Status}.

(** Source: apps/trust-api/src/storage-diagnostics.ts:392-402 get *)
Definition cache_get {Status} (ttlMs now : Z) (entry : option (CacheEntry Status)) : option (CacheEntry Status) :=
  match entry with
  | None => None
  | Some e => if Z.ltb ttlMs (now - ce_storedAt e) then None else Some e
  end.
(** Source: apps/trust-api/src/storage-diagnostics.ts:405-414 getLatest *)
Definition cache_getLatest {Status} (entry : option (CacheEntry Status)) : option (CacheEntry Status) := entry.
(** Source: apps/trust-api/src/storage-diagnostics.ts:416-422 set *)
Definition cache_set {Status} (now : Z) (details : StorageHealthDetails) (status : Status) (summary : string) :
    option (CacheEntry Status) := Some (mkEntry now details status summary).
(** Source: apps/trust-api/src/storage-diagnostics.ts:424-426 clear *)
Definition cache_clear {Status} : option (CacheEntry Status) := None.

(** ** The probe *)

(** Source: apps/trust-api/src/storage-diagnostics.ts:456-464 regionsMatch *)
Definition regionsMatch (configured : string) (reported : option string) : option bool :=
  match reported with
  | None => None
  | Some region =>
      if blank region then None else Some (toLowerCase (trim configured) === toLowerCase (trim region))
  end.

(** [s.replace(/-/g, "")]. *)
Definition undash (s : string) : string :=
  string_of_list_ascii (List.filter (λ c, c !== "-"%char) (chars s)).

(** What one run meets: the identifier it draws, the clocks it reads, what the
    prober settles with (the region the provider reported, if any), and whether
    the timer fires before the run settles. *)
Record ProbeEnv := mkProbeEnv {
  pe_probeId : string;
  pe_now : Z;
  pe_started : Z;
  pe_ended : Z;
  pe_temporaryNow : Z;
  pe_reply : result thrown (option string);
  pe_timerFires : bool;
}.

(** [Promise.race] of the run and the timer.  The run is not undone when the
    timer wins: its effects take place all the same. *)
(** Source: apps/trust-api/src/storage-diagnostics.ts:429-454 withAbortTimeout *)
Definition withAbortTimeout {X A} (run : M X thrown A) (timerFires : bool) : M X thrown A := λ x,
  let '(r, x') := run x in
  (if timerFires then Err (new_Error "TimeoutError" "Storage probe timed out." (Some "ETIMEDOUT")) else r, x').

Section Probe.
Context {S : Type}.
(** What the client of the provider throws, where the model keeps only a code or
    the fact that a call did not come back. *)
Context (message : StorageErrorCode → string) (failure : ThrownObject).
Abbreviation W := (M (World S) thrown).

Definition storage_thrown (e : ingest_exn) : thrown :=
  match e with
  | StorageThrew (StorageKeys.StorageError code) =>
      AnObject (mkThrown "StorageError" (message code) None (Some (storage_code code)) None true)
  | StorageThrew (StorageKeys.PlainError text) => new_Error "Error" text None
  | _ => AnObject failure
  end.
Definition probing {A} (m : M (World S) ingest_exn A) : W A := λ w,
  let '(r, w') := m w in (match r with Ok a => Ok a | Err e => Err (storage_thrown e) end, w').

(** [try { body } finally { last }]: what [last] throws takes the place of what
    the body did. *)
Definition try_finally {A} (body : W A) (last : W unit) : W A := λ w,
  let '(r, w1) := body w in
  let '(l, w2) := last w1 in
  (match l with Err e => Err e | Ok _ => r end, w2).

Definition CLEANUP_FAILED : thrown :=
  new_Error "Error"
    "Ingest probe wrote a temporary object but failed to delete it; reconciliation should clean leftovers." (Some "cleanup_failed").
Definition PROBE_BODY : string := "trust-core-storage-probe".

(** The storage is given where the process has one. *)
(** Source: apps/trust-api/src/storage-diagnostics.ts:502-533 runStorageProbe *)
Definition ingest_probe (storage : option (ObjectStorage S)) (workspaceId : string) (env : ProbeEnv) : W unit :=
  match storage with
  | None => throw (new_Error "Error" "Object storage missing for ingest probe." (Some "not_configured"))
  | Some storage =>
      let operationId := "probe-" +:+ slice0 24 (undash (pe_probeId env)) in
      probing (on_storage (createTemporaryUpload (pe_temporaryNow env) workspaceId operationId)) ≫= λ temporary,
      try_finally
        (probing (on_storage (writeTemporary (temporary_key temporary) [PROBE_BODY] "application/octet-stream")) ≫= λ _, mret tt)
        (λ w, let '(r, w') := on_storage (deleteTemporary (temporary_key temporary)) w in
              (match r with Ok _ => Ok tt | Err _ => Err CLEANUP_FAILED end, w'))
  end.

Definition probe_body (tier : StorageProbeTier) (storage : option (ObjectStorage S)) (workspaceId : string) (env : ProbeEnv) :
    W (option string) :=
  lift (pe_reply env) ≫= λ connectivity,
  (match tier with tier_ingest => ingest_probe storage workspaceId env | tier_connectivity => mret tt end) ≫= λ _,
  mret connectivity.

(** What the function returns for a run that settled, either way. *)
(** Source: apps/trust-api/src/storage-diagnostics.ts:537-581 runStorageProbe *)
Definition probe_report `{JsDate} (tier : StorageProbeTier) (config : SafeStorageConfig) (env : ProbeEnv)
    (settled : result thrown (option string)) : StorageProbeResult :=
  let checkedAt := toISOString (pe_now env) in
  let latencyMs := (pe_ended env - pe_started env)%Z in
  match settled with
  | Ok bucketRegion =>
      let regionMatch := regionsMatch (sc_region config) bucketRegion in
      match regionMatch with
      | Some false =>
          mkProbeResult (pe_probeId env) tier false latencyMs (Some issue_wrong_region) (Some "region_mismatch") checkedAt
            ("Provider reports region " +:+ default "undefined" bucketRegion +:+ ", but the API is configured for " +:+
             sc_region config +:+ ".") None bucketRegion (Some false)
      | _ =>
          mkProbeResult (pe_probeId env) tier true latencyMs None None checkedAt
            (match tier with
             | tier_ingest => "Connectivity and upload path succeeded."
             | tier_connectivity => "Provider connectivity succeeded."
             end) None bucketRegion regionMatch
      end
  | Err error =>
      let classified := classifyStorageError error in
      mkProbeResult (pe_probeId env) tier false latencyMs (Some (ci_issueClass classified)) (Some (ci_issueCode classified))
        checkedAt (ci_summary classified) (ci_billingHint classified) None None
  end.

(** The function never throws.  [hasProber] is [Boolean(input.prober)]. *)
(** Source: apps/trust-api/src/storage-diagnostics.ts:466-582 runStorageProbe *)
Definition runStorageProbe `{JsDate} (tier : StorageProbeTier) (config : SafeStorageConfig) (hasProber : bool)
    (storage : option (ObjectStorage S)) (workspaceId : string) (env : ProbeEnv) (w : World S) : StorageProbeResult * World S :=
  if negb (sc_objectStorageConfigured config) || negb hasProber
  then (mkProbeResult (pe_probeId env) tier false (pe_ended env - pe_started env) (Some issue_not_configured)
          (Some "not_configured") (toISOString (pe_now env)) "Storage is not set up on the server." None None None, w)
  else
    let '(settled, w') := withAbortTimeout (probe_body tier storage workspaceId env) (pe_timerFires env) w in
    (probe_report tier config env settled, w').
End Probe.

(** ** What a successful probe saw *)

(** The run settled in time, the provider was reached and did not report another
    region; for the ingest tier, the object was written and deleted. *)
Record reached {S} (message : StorageErrorCode → string) (failure : ThrownObject) (tier : StorageProbeTier)
    (config : SafeStorageConfig) (storage : option (ObjectStorage S)) (workspaceId : string) (env : ProbeEnv) (w w' : World S) :
    Prop := mkReached {
  reached_configured : sc_objectStorageConfigured config = true;
  reached_in_time : pe_timerFires env = false;
  reached_region : ∃ region, pe_reply env = Ok region ∧ regionsMatch (sc_region config) region ≠ Some false;
  reached_ingest : tier = tier_ingest → ingest_probe message failure storage workspaceId env w = (Ok tt, w');
  reached_connectivity : tier = tier_connectivity → w' = w;
}.

Section ProbeFacts.
Context {S : Type} `{JsDate} (message : StorageErrorCode → string) (failure : ThrownObject).
Context (tier : StorageProbeTier) (config : SafeStorageConfig) (storage : option (ObjectStorage S)) (workspaceId : string).

Lemma probe_body_Ok env w r w' :
  probe_body message failure tier storage workspaceId env w = (Ok r, w') →
  pe_reply env = Ok r ∧ (tier = tier_ingest → ingest_probe message failure storage workspaceId env w = (Ok tt, w')) ∧
  (tier = tier_connectivity → w' = w).
Proof.
  unfold probe_body. intros HR. destruct (pe_reply env) as [region|e]; cbn in HR; [|done].
  destruct tier; run_in HR.
  - simplify_eq. by split_and!.
  - apply M_bind_Ok in HR as ([] & w1 & Hi & HR). run_in HR. simplify_eq. by split_and!.
Qed.

(** A probe reports a success exactly when it saw one. *)
Lemma probe_ok_iff hasProber env w p w' :
  runStorageProbe message failure tier config hasProber storage workspaceId env w = (p, w') →
  pr_ok p = true ↔ hasProber = true ∧ reached message failure tier config storage workspaceId env w w'.
Proof.
  unfold runStorageProbe, withAbortTimeout. intros HR.
  destruct (sc_objectStorageConfigured config) eqn:Hc; cbn [negb orb] in HR;
    [|simplify_eq; split; [done|]; intros [_ [? _ _ _ _]]; congruence].
  destruct hasProber; cbn [negb orb] in HR; [|simplify_eq; split; [done|by intros [? _]]].
  destruct (probe_body message failure tier storage workspaceId env w) as [r w1] eqn:Hb.
  destruct (pe_timerFires env) eqn:Ht; simplify_eq.
  { split; [done|]. intros [_ [_ ? _ _ _]]. congruence. }
  destruct r as [region|e]; cbn [probe_report].
  - destruct (probe_body_Ok _ _ _ _ Hb) as (Hreply & Hi & Hn).
    destruct (regionsMatch (sc_region config) region) as [[]|] eqn:Hm; cbn.
    1,3: split; [intros _; split; [done|]; split; try done; exists region; by rewrite Hm|done].
    split; [done|]. intros [_ [_ _ (r' & Hr' & Hne) _ _]]. congruence.
  - split; [done|]. intros [_ [_ _ (r' & Hr' & _) Hi Hn]]. unfold probe_body in Hb. rewrite Hr' in Hb. run_in Hb.
    destruct tier; run_in Hb; [done|].
    apply M_bind_Err in Hb as [Hb|([] & w2 & _ & Hb)]; [|done]. by rewrite (Hi eq_refl) in Hb.
Qed.
End ProbeFacts.

(** ** The limiter and its history *)

Section Limiter.
Context (windowMs : Z).
Local Abbreviation acquire := (tryAcquire windowMs).
Definition last_of (key : string) (m : list (string * Z)) : Z := default 0%Z (map_get key m).

(** An attempt is admitted exactly when the window has passed since the last one
    that was, whatever the clock did meanwhile. *)
Lemma tryAcquire_spec now key m :
  acquire now key m =
    (bool_decide (windowMs <= now - last_of key m)%Z,
     if bool_decide (windowMs <= now - last_of key m)%Z then map_set key now m else m).
Proof.
  unfold tryAcquire, last_of. destruct (Z.ltb_spec (now - default 0%Z (map_get key m)) windowMs);
    [rewrite bool_decide_false by lia|rewrite bool_decide_true by lia]; done.
Qed.

(** The last grant of a key never moves back. *)
Lemma last_of_mono now key key' m :
  (0 <= windowMs)%Z → (last_of key m <= last_of key (acquire now key' m).2)%Z.
Proof.
  intros Hw. rewrite tryAcquire_spec. cbn. case_bool_decide as Hd; [|done].
  destruct (decide (key = key')) as [->|Hne]; unfold last_of in *.
  - rewrite map_get_set_eq. cbn. lia.
  - by rewrite map_get_set_ne.
Qed.
Lemma last_of_granted now key m : (acquire now key m).1 = true → last_of key (acquire now key m).2 = now.
Proof.
  rewrite tryAcquire_spec. cbn. intros Hd. rewrite Hd. unfold last_of. by rewrite map_get_set_eq.
Qed.
Lemma refused_within now key m t :
  (t <= last_of key m)%Z → (now - t < windowMs)%Z → acquire now key m = (false, m).
Proof. intros Ht Hn. rewrite tryAcquire_spec, bool_decide_false by lia. done. Qed.
End Limiter.

(** ** The search for secrets stops at every other character *)

Section Secrets.
#[local] Arguments String.append !s1 s2 /.

Lemma alnums_stop n a c b : is_alnum c = false → alnums n (a +:+ String c b) = alnums n a.
Proof. intros Hc. revert a. induction n as [|n IH]; intros [|d a]; cbn; rewrite ?Hc, ?IH; done. Qed.
Lemma word_then_stops word n a c b :
  Forall (λ d, is_alnum d = true) (chars word) → is_alnum c = false → word_then word n (a +:+ String c b) = word_then word n a.
Proof.
  intros Hw Hc. revert a. induction word as [|d word IH]; intros a; [apply alnums_stop, Hc|].
  cbn in Hw. apply Forall_cons in Hw as [Hd Hw]. destruct a as [|e a]; cbn; [|by rewrite IH].
  rewrite bool_decide_false by congruence. done.
Qed.
Lemma somewhere_split p a c b :
  (∀ a, p (a +:+ String c b) = p a) → somewhere p (a +:+ String c b) = somewhere p a || somewhere p b.
Proof.
  intros Hp. induction a as [|d a IH]; cbn.
  - specialize (Hp EmptyString). cbn in Hp. by rewrite Hp, orb_false_r.
  - specialize (Hp (String d a)). cbn in Hp. by rewrite Hp, IH, orb_assoc.
Qed.

Lemma lower_append a b : toLowerCase (a +:+ b) = toLowerCase a +:+ toLowerCase b.
Proof. induction a as [|c a IH]; cbn; [done|by rewrite IH]. Qed.
Lemma has_secret_split a c b : is_alnum c = false → has_secret (a +:+ String c b) = has_secret a || has_secret b.
Proof.
  intros Hc. unfold has_secret. rewrite lower_append. cbn [toLowerCase].
  assert (lower_char c = c) as -> by (unfold lower_char; unfold is_alnum in Hc; destruct (is_upper c); [by rewrite orb_true_r in Hc|done]).
  assert (Forall (λ p : string * nat, Forall (λ d, is_alnum d = true) (chars p.1)) secret_patterns) as Hw
    by (repeat constructor).
  induction Hw as [|p ps Hp _ IH]; cbn [existsb]; [done|].
  rewrite IH, (somewhere_split (word_then p.1 p.2)) by (intros; by apply word_then_stops).
  destruct (somewhere _ _), (somewhere _ _), (existsb _ _), (existsb _ _); done.
Qed.
Lemma has_secret_head c s : is_alnum c = false → has_secret (String c s) = has_secret s.
Proof. exact (has_secret_split EmptyString c s). Qed.

Lemma has_secret_commas xs : has_secret (commas xs) = existsb has_secret xs.
Proof.
  induction xs as [|x xs IH]; [done|]. destruct xs as [|y xs].
  - cbn [commas existsb]. by rewrite orb_false_r.
  - change (commas (x :: y :: xs)) with (x +:+ String "," (commas (y :: xs))).
    rewrite has_secret_split by done. by rewrite IH.
Qed.

(** An object holds a secret where one of its keys or values does. *)
Lemma has_secret_object entries :
  has_secret (JSON_stringify (JObject entries)) =
  existsb (λ kv, has_secret (stringify_string kv.1) || has_secret (JSON_stringify kv.2)) entries.
Proof.
  cbn [JSON_stringify canonical_with]. unfold JSON_stringify. cbn [canonical_with].
  rewrite sort_keys_id, has_secret_head by done.
  rewrite has_secret_split, has_secret_commas by done. rewrite orb_false_r.
  induction entries as [|kv entries IH]; cbn [map existsb fst snd]; [done|]. rewrite IH. unfold stringify_entry. cbn [fst snd].
  by rewrite has_secret_split.
Qed.

Lemma numeral_char_lower c : numeral_char c = true → lower_char c = c ∧ is_lower c = false.
Proof.
  pose proof (all_ascii_forall (λ c, negb (numeral_char c) || ((lower_char c === c) && negb (is_lower c))) eq_refl c) as Hc.
  cbn beta in Hc. intros Hn. rewrite Hn in Hc. cbn in Hc. apply andb_true_iff in Hc as [Hl Hu].
  apply bool_decide_eq_true in Hl. by apply negb_true_iff in Hu.
Qed.
Lemma has_secret_number z : has_secret (JSON_stringify (JNumber z)) = false.
Proof.
  destruct (pretty_Z_numeral z) as (c & t & Hz & Hc). unfold JSON_stringify. cbn [canonical_with]. rewrite Hz. clear Hz.
  revert Hc. generalize (String c t). clear c t. intros s Hs. unfold has_secret.
  assert (toLowerCase s = s ∧ forallb numeral_char (chars s) = true) as [-> Hn].
  { split; [|done]. revert Hs. induction s as [|c s IH]; cbn; [done|]. intros [Hc Hs]%andb_true_iff. rewrite IH by done.
    f_equal. by apply numeral_char_lower. }
  clear Hs. assert (∀ p, p ∈ secret_patterns → somewhere (word_then p.1 p.2) s = false) as Hp.
  { intros p Hp. induction s as [|c s IH]; cbn in *.
    - unfold secret_patterns in Hp. set_unfold in Hp. by destruct_or! Hp; subst.
    - apply andb_true_iff in Hn as [Hc Hn]. rewrite IH, orb_false_r by done. destruct (numeral_char_lower c Hc) as [_ Hl].
      unfold secret_patterns in Hp. set_unfold in Hp.
      by destruct_or! Hp; subst; cbn; (rewrite bool_decide_false; [done|]); intros <-. }
  unfold secret_patterns in *. cbn [existsb]. by rewrite !Hp by set_solver.
Qed.

(** Escaping a text hides no secret in it: a letter or a digit is written as it
    is. *)
Lemma alnum_unescaped c : is_alnum (lower_char c) = true → escape_char c = String c EmptyString.
Proof.
  pose proof (all_ascii_forall (λ c, negb (is_alnum (lower_char c)) || (escape_char c === String c EmptyString)) eq_refl c) as Hc.
  cbn beta in Hc. intros Ha. rewrite Ha in Hc. by apply bool_decide_eq_true in Hc.
Qed.
Lemma word_then_escape word n s :
  Forall (λ d, is_alnum d = true) (chars word) →
  word_then word n (toLowerCase s) = true → word_then word n (toLowerCase (escape s)) = true.
Proof.
  intros Hw. revert s. induction word as [|d word IH]; intros s.
  - cbn [word_then]. revert s. induction n as [|n IH]; intros s; [done|]. destruct s as [|c s]; [done|].
    cbn [toLowerCase alnums escape]. intros [Hc Hs]%andb_true_iff. rewrite (alnum_unescaped c Hc). cbn. by rewrite Hc, IH.
  - cbn in Hw. apply Forall_cons in Hw as [Hd Hw]. destruct s as [|c s]; [done|].
    cbn [toLowerCase word_then escape]. intros [Hdc%bool_decide_eq_true Hs]%andb_true_iff. subst d.
    rewrite (alnum_unescaped c Hd). cbn. rewrite bool_decide_eq_true_2 by done. by apply IH.
Qed.
Lemma somewhere_tail p a b : somewhere p b = true → somewhere p (a +:+ b) = true.
Proof. intros Hb. induction a as [|c a IH]; cbn; [done|]. by rewrite IH, orb_true_r. Qed.
Lemma has_secret_escape s : has_secret s = true → has_secret (escape s) = true.
Proof.
  unfold has_secret. assert (Forall (λ p : string * nat, Forall (λ d, is_alnum d = true) (chars p.1)) secret_patterns) as Hw
    by (repeat constructor).
  induction Hw as [|p ps Hp _ IH]; cbn [existsb]; [done|]. intros [Hs|Hs]%orb_true_iff; apply orb_true_iff; [left|right; by apply IH].
  clear IH. induction s as [|c s IH]; [done|]. cbn [toLowerCase somewhere] in Hs. apply orb_true_iff in Hs as [Hs|Hs].
  - apply (word_then_escape p.1 p.2 (String c s) Hp) in Hs. destruct (toLowerCase (escape (String c s))); cbn; by rewrite Hs.
  - cbn [escape]. rewrite lower_append. by apply somewhere_tail, IH.
Qed.
Lemma has_secret_string s : has_secret (stringify_string s) = false → has_secret s = false.
Proof.
  unfold stringify_string. rewrite has_secret_head, has_secret_split by done. rewrite orb_false_r. intros Hn.
  destruct (has_secret s) eqn:Hs; [|done]. apply has_secret_escape in Hs. congruence.
Qed.
(** The summary of a probe is part of what is searched. *)
Lemma secret_summary d p :
  assertNoSecretFields d = Ok tt → hd_probe d = Some p → has_secret (pr_summary p) = false.
Proof.
  unfold assertNoSecretFields. intros Hd%throw_if_Ok Hp. apply has_secret_string.
  unfold details_json in Hd. rewrite Hp, has_secret_object in Hd. cbn [existsb fst snd] in Hd.
  repeat (apply orb_false_iff in Hd as [? Hd]).
  match goal with Hj : context [JSON_stringify (probe_json p)] |- _ => apply orb_false_iff in Hj as [_ Hj]; rename Hj into Hprobe end.
  unfold probe_json in Hprobe. rewrite has_secret_object, existsb_app in Hprobe. apply orb_false_iff in Hprobe as [Hprobe _].
  cbn [existsb fst snd] in Hprobe. repeat (apply orb_false_iff in Hprobe as [? Hprobe]).
  match goal with Hj : context [JSON_stringify (JString (pr_summary p))] |- _ => by apply orb_false_iff in Hj as [_ Hj] end.
Qed.

(** The counts have no part in what is refused. *)
Lemma secret_counts catalog d : assertNoSecretFields (with_counts catalog d) = assertNoSecretFields d.
Proof.
  unfold assertNoSecretFields. f_equal. unfold details_json. rewrite !has_secret_object. cbn [existsb fst snd].
  by rewrite !has_secret_number.
Qed.
End Secrets.

(** ** What an ingest probe leaves *)

Section Leaves.
Context {S : Type} `{Crypto} (storage : ObjectStorage S) `{!ObjectStorageLaws S}.
Context (message : StorageErrorCode → string) (failure : ThrownObject).

Lemma storage_call_Ok {A} (m : M S storage_exn A) w a w' :
  on_storage m w = (Ok a, w') → ∃ s', m (w_storage w) = (Ok a, s') ∧ w_storage w' = s' ∧ w_db w' = w_db w.
Proof.
  unfold on_storage. intros HR. apply M_bind_Ok in HR as ([] & w1 & Ht & HR).
  assert (w_storage w1 = w_storage w ∧ w_db w1 = w_db w) as [Hs Hd]
    by (unfold tick in Ht; destruct (w_faults w) as [|[] fs]; by simplify_eq).
  unfold storage_call in HR. rewrite Hs in HR. destruct (m (w_storage w)) as [[a'|e] s']; simplify_eq. by exists s'.
Qed.
Lemma probing_Ok {A} (m : M (World S) ingest_exn A) w a w' : probing message failure m w = (Ok a, w') → m w = (Ok a, w').
Proof. unfold probing. destruct (m w) as [[]]; intros; by simplify_eq. Qed.

(** A probe that succeeded leaves nothing under its key, every other object as
    it was, and no row. *)
Lemma ingest_probe_leaves workspaceId env w w' :
  storage_inv (w_storage w) → ingest_probe message failure (Some storage) workspaceId env w = (Ok tt, w') →
  ∃ key, temporaryObjectKey workspaceId ("probe-" +:+ slice0 24 (undash (pe_probeId env))) = Ok key ∧
    storage_inv (w_storage w') ∧ w_db w' = w_db w ∧ (∀ b m, ¬ stored (w_storage w') key b m) ∧
    ∀ k b m, k ≠ key → stored (w_storage w) k b m ↔ stored (w_storage w') k b m.
Proof.
  intros Hinv HR. cbn in HR. apply M_bind_Ok in HR as (t & w1 & (s1 & Hc & Hs1 & Hd1)%probing_Ok%storage_call_Ok & HR).
  apply createTemporaryUpload_law in Hc as [Hkey ->]. rewrite <- Hs1 in Hinv.
  unfold try_finally in HR.
  destruct ((probing _ _ _ ≫= _) w1) as [[[]|e] w2] eqn:Hw.
  2: { destruct (on_storage _ w2) as [[] w3]; by simplify_eq. }
  apply M_bind_Ok in Hw as (md & w2' & (s2 & Hw & Hs2 & Hd2)%probing_Ok%storage_call_Ok & Hr). run_in Hr. simplify_eq.
  destruct (on_storage (deleteTemporary _) w2) as [[u|e] w3] eqn:Hdel; simplify_eq.
  apply storage_call_Ok in Hdel as (s3 & Hdel & Hs3 & Hd3).
  destruct (writeTemporary_law _ _ _ _ _ _ Hinv Hw) as (Hinv2 & _ & _ & Hother2).
  destruct (deleteTemporary_law _ _ _ _ Hinv2 Hdel) as (Hinv3 & Hgone & Hother3).
  exists (temporary_key t). rewrite Hs3. split_and!; [done..|congruence|done|].
  intros k b m Hk. by rewrite <- Hs1, Hother2, Hother3.
Qed.
End Leaves.
