(* ===== verification/StorageHealth.v ===== *)
(** * apps/trust-api, postgres-commands.ts: the health of the storage

    The commands [getStorageHealth] and [probeStorageHealth] of
    [PostgresCommandProvider], over the diagnostics of [StorageDiagnostics]: the
    process keeps the limiter and the cache, the tables keep the catalogue and
    the audit events, which other commands and other processes write meanwhile.

    The theorems: [getStorageHealth] says that the storage is healthy only where no
    object failed its verification and a probe of this process succeeded in the last
    thirty seconds, [probeStorageHealth] only on its own probe or the one it repeats;
    a probe of a workspace within five seconds of another changes
    nothing and does not reach the provider; no answer matches the pattern of
    secrets, the coalesced ones, which are not searched, included. *)
From S2P Require Import Prelude Concrete Json AuditChain Core StorageKeys Storage MemoryStorage IngestStore Ingest Access AppStorage.
From S2P Require Import Archive TransferGrants Quarantine PostgresScans Contracts Uploads Commands Sdk StorageDiagnostics Js.

(** Source: packages/protocol/src/index.ts:645-645 ServiceHealth.status *)
Inductive HealthStatus := health_healthy | health_degraded | health_not_configured.
#[global] Instance HealthStatus_eq_dec : EqDecision HealthStatus. Proof. solve_decision. Defined.
(** Source: packages/protocol/src/index.ts:644-649 ServiceHealth *)
Record ServiceHealth := mkServiceHealth {
  sh_status : HealthStatus;
  sh_checkedAt : string;
  sh_summary : string;
  sh_details : StorageHealthDetails;
}.

(** Source: apps/trust-api/src/postgres-commands.ts:95-99 StorageDiagnosticsOptions *)
Record StorageDiagnosticsOptions (St : Type) := mkDiagnostics {
  sd_storage : option St;
  sd_config : SafeStorageConfig;
  sd_prober : bool;
}.
Arguments mkDiagnostics {St}. Arguments sd_storage {St}. Arguments sd_config {St}. Arguments sd_prober {St}.

(** [probeLimiter] and [healthCache] of a process, and the rest of its world. *)
(** Source: apps/trust-api/src/postgres-commands.ts:116-117 PostgresCommandProvider *)
Record Health (S : Type) := mkHealth {
  h_last : list (string * Z);
  h_entry : option (CacheEntry HealthStatus);
  h_api : Api S;
}.
Arguments mkHealth {S}. Arguments h_last {S}. Arguments h_entry {S}. Arguments h_api {S}.

(** What one call meets: the clocks in the order it reads them, the identifiers
    it draws, and what its probe meets. *)
Record HealthEnv := mkHealthEnv {
  at_limiter : Z;
  at_database : Z;
  at_read : Z;
  at_stored : Z;
  at_occurred : Z;
  at_answer : Z;
  he_eventId : string;
  he_requestId : string;
  he_probe : ProbeEnv;
}.

(** Source: apps/trust-api/src/postgres-commands.ts:722-734 loadCatalogCounts *)
Definition catalog_counts (workspaceId : string) (d : Database) : CatalogCounts :=
  let rows := List.filter (λ b, blob_workspaceId b === workspaceId) (map snd (map_to_list (db_blobs d))) in
  mkCounts (Z.of_nat (length rows)) (Z.of_nat (length (List.filter (λ b, blob_verificationState b === verification_failed) rows))).

(** Source: apps/trust-api/src/postgres-commands.ts:691-708 hasRecentStorageProbe *)
Definition recent_probe `{JsDate} (now : Z) (workspaceId : string) (d : ContractDb) : bool :=
  existsb (λ r, (event_workspaceId (log_body r) === workspaceId) && (event_action (log_body r) === "storage.health.probed") &&
                date_lt (Some (now - 5000)%Z) (Date_parse (event_timestamp (log_body r)))) (c_audit d).

(** Source: apps/trust-api/src/postgres-commands.ts:661-672 deriveStorageStatus *)
Definition deriveStorageStatus (details : StorageHealthDetails) (catalog : CatalogCounts) : HealthStatus :=
  if negb (hd_objectStorageConfigured details) then health_not_configured
  else if Z.ltb 0 (cc_failed catalog) then health_degraded
  else match hd_probe details with
       | Some result => if pr_ok result then health_healthy else health_degraded
       | None => health_degraded
       end.

(** Source: apps/trust-api/src/postgres-commands.ts:674-689 deriveStorageSummary *)
Definition deriveStorageSummary (details : StorageHealthDetails) (catalog : CatalogCounts) : string :=
  if negb (hd_objectStorageConfigured details) then "Object storage is not configured for this API process."
  else if Z.ltb 0 (cc_failed catalog) then "Object storage is configured, but some objects failed verification."
  else match hd_probe details with
       | Some result => pr_summary result
       | None => "Object storage is configured on the API host but not live-verified. Run Test connection."
       end.

(** The metadata of the audit event. *)
(** Source: apps/trust-api/src/postgres-commands.ts:640-650 probeStorageHealth *)
Definition probe_metadata (probe : StorageProbeResult) : json :=
  JObject ([("probeId", JString (pr_probeId probe)); ("tier", JString (tier_text (pr_tier probe))); ("ok", JBool (pr_ok probe));
            ("issueClass", match pr_issueClass probe with Some c => JString (issue_text c) | None => JNull end);
            ("issueCode", nullable_text (pr_issueCode probe)); ("latencyMs", JNumber (pr_latencyMs probe));
            ("bucketRegion", nullable_text (pr_bucketRegion probe));
            ("regionMatch", match pr_regionMatch probe with Some b => JBool b | None => JNull end)] ++
           match pr_billingHint probe with
           | Some hint => if hint === EmptyString then [] else [("billingHint", JString hint)]
           | None => []
           end).

Definition RATE_LIMITED : api_exn :=
  codedError "COMMAND_REJECTED" "Storage probe rate limit reached. Wait a few seconds and retry.".

Section Provider.
Context {S St : Type} `{JsDate} `{Crypto} `{WebUrl} `{TextCodec}.
Context (client : St → ObjectStorage S) (this : Adapters St) (storageDiagnostics : option (StorageDiagnosticsOptions St)).
(** The environment variable, and what the client of the provider throws. *)
Context (TRUST_SCANNER : option string) (message : StorageErrorCode → string) (failure : ThrownObject).
Abbreviation HM := (M (Health S) api_exn).

Definition on_api {A} (m : M (Api S) api_exn A) : HM A := λ h,
  let '(r, a) := m (h_api h) in (r, mkHealth (h_last h) (h_entry h) a).

Definition loadCatalogCounts (workspaceId : string) : HM CatalogCounts :=
  on_api (on_catalog (gets (catalog_counts workspaceId))).
Definition hasRecentStorageProbe (now : Z) (workspaceId : string) : HM bool :=
  on_api (on_contracts (gets (recent_probe now workspaceId))).

(** Source: apps/trust-api/src/postgres-commands.ts:710-720 resolveSafeConfig *)
Definition resolveSafeConfig : SafeStorageConfig :=
  match storageDiagnostics with
  | Some diagnostics => sd_config diagnostics
  | None => mkSafeConfig minio "us-east-1" EmptyString credentials_missing None None (bool_decide (is_Some (ad_grants this)))
              (bool_decide (is_Some (ad_ingest this))) None
  end.
Definition has_prober : bool := from_option sd_prober false storageDiagnostics.
Definition probe_storage : option (ObjectStorage S) :=
  diagnostics ← storageDiagnostics; client <$> sd_storage diagnostics.

(** Source: apps/trust-api/src/postgres-commands.ts:523-553 getStorageHealth *)
Definition getStorageHealth (workspaceId : string) (env : HealthEnv) : HM ServiceHealth :=
  loadCatalogCounts workspaceId ≫= λ catalog,
  gets (λ h, cache_get STORAGE_HEALTH_CACHE_TTL_MS (at_read env) (h_entry h)) ≫= λ cached,
  let details :=
    match cached with
    | Some entry => with_counts catalog (ce_details entry)
    | None => toStorageHealthDetails TRUST_SCANNER resolveSafeConfig None catalog
    end in
  lift (assertNoSecretFields details) ≫= λ _,
  mret (mkServiceHealth (deriveStorageStatus details catalog) (toISOString (at_answer env)) (deriveStorageSummary details catalog)
          details).

(** The answer from the cached entry, where it has a probe. *)
(** Source: apps/trust-api/src/postgres-commands.ts:564-577 probeStorageHealth *)
Definition coalesced (workspaceId note : string) (env : HealthEnv) (otherwise : HM ServiceHealth) : HM ServiceHealth :=
  gets (λ h, cache_getLatest (h_entry h)) ≫= λ latest,
  match latest with
  | Some entry =>
      if bool_decide (is_Some (hd_probe (ce_details entry)))
      then
        loadCatalogCounts workspaceId ≫= λ catalog,
        let details := with_counts catalog (ce_details entry) in
        mret (mkServiceHealth (deriveStorageStatus details catalog) (toISOString (at_answer env)) (ce_summary entry +:+ note) details)
      else otherwise
  | None => otherwise
  end.

Definition acquire (env : HealthEnv) (key : string) : HM bool := λ h,
  let '(granted, last) := tryAcquire STORAGE_PROBE_RATE_LIMIT_MS (at_limiter env) key (h_last h) in
  (Ok granted, mkHealth last (h_entry h) (h_api h)).
Definition run_probe (tier : StorageProbeTier) (workspaceId : string) (env : ProbeEnv) : HM StorageProbeResult := λ h,
  let a := h_api h in
  let '(result, w) := runStorageProbe message failure tier resolveSafeConfig has_prober probe_storage workspaceId env (api_world a) in
  (Ok result, mkHealth (h_last h) (h_entry h) (mkApi w (api_registry a) (api_scanner a))).
Definition command_tier (command : ProbeStorageCommand) : StorageProbeTier :=
  match ps_tier command with Some tier_ingest => tier_ingest | _ => tier_connectivity end.

(** The probe, its place in the cache and its audit event. *)
(** Source: apps/trust-api/src/postgres-commands.ts:609-658 probeStorageHealth *)
Definition fresh_probe (actor : AuthenticatedActor) (command : ProbeStorageCommand) (env : HealthEnv) : HM ServiceHealth :=
  let workspaceId := ps_workspaceId command in
  loadCatalogCounts workspaceId ≫= λ catalog,
  run_probe (command_tier command) workspaceId (he_probe env) ≫= λ probe,
  let details := toStorageHealthDetails TRUST_SCANNER resolveSafeConfig (Some probe) catalog in
  lift (assertNoSecretFields details) ≫= λ _,
  let status := deriveStorageStatus details catalog in
  modify (λ h, mkHealth (h_last h) (cache_set (at_stored env) details status (pr_summary probe)) (h_api h)) ≫= λ _,
  on_api (on_contracts (contract_recordStorageProbe (he_eventId env) workspaceId actor (he_requestId env)
    (toISOString (at_occurred env)) (probe_metadata probe))) ≫= λ _,
  mret (mkServiceHealth status (pr_checkedAt probe) (pr_summary probe) details).

(** Source: apps/trust-api/src/postgres-commands.ts:555-659 probeStorageHealth *)
Definition probeStorageHealth (actor : AuthenticatedActor) (command : ProbeStorageCommand) (env : HealthEnv) : HM ServiceHealth :=
  let workspaceId := ps_workspaceId command in
  acquire env workspaceId ≫= λ granted : bool,
  if negb granted
  then coalesced workspaceId " (coalesced; probe rate-limited)" env
         (hasRecentStorageProbe (at_database env) workspaceId ≫= λ _, throw RATE_LIMITED)
  else
    hasRecentStorageProbe (at_database env) workspaceId ≫= λ recently : bool,
    if recently
    then coalesced workspaceId " (coalesced; recent probe reused)" env (fresh_probe actor command env)
    else fresh_probe actor command env.
End Provider.

(** ** What the calls change *)

Section Frames.
Context {S : Type}.

(** The tables and the stored objects are as they were. *)
Record same_data (a a' : Api S) : Prop := mkSameData {
  same_storage : w_storage (api_world a') = w_storage (api_world a);
  same_db : w_db (api_world a') = w_db (api_world a);
  same_contracts : api_contracts a' = api_contracts a;
}.
Record untouched (h h' : Health S) : Prop := mkUntouched {
  same_last : h_last h' = h_last h;
  same_entry : h_entry h' = h_entry h;
  same_api : same_data (h_api h) (h_api h');
}.
#[global] Instance same_data_preorder : PreOrder same_data.
Proof. split; [by intros a; split|]. intros a b c [] []. split; congruence. Qed.
#[global] Instance untouched_preorder : PreOrder untouched.
Proof. split; [by intros h; split|]. intros h1 h2 h3 [?? Ha] [?? Hb]. split; [congruence..|]. by etrans. Qed.

Lemma next_call_same a r a' : next_call a = (r, a') → same_data a a'.
Proof.
  unfold next_call, tick. destruct (w_faults (api_world a)) as [|[] fs]; intros HR; simplify_eq; by split.
Qed.
Lemma on_contracts_gets {A} (f : ContractDb → A) a r a' :
  on_contracts (gets f) a = (r, a') → same_data a a' ∧ ∀ v, r = Ok v → v = f (api_contracts a).
Proof.
  unfold on_contracts, mbind, M_bind. destruct (next_call a) as [[[]|e] a1] eqn:Hn; intros HR.
  - pose proof (next_call_same _ _ _ Hn) as Hs. unfold run_contracts, gets in HR. simplify_eq. split.
    + etrans; [exact Hs|]. split; [done..|]. by destruct a1 as [? ? [? []]].
    + intros v [= <-]. f_equal. apply Hs.
  - simplify_eq. split; [by eapply next_call_same|done].
Qed.
Lemma on_catalog_gets {A} (f : Database → A) a r a' :
  on_catalog (gets f) a = (r, a') → same_data a a' ∧ ∀ v, r = Ok v → v = f (w_db (api_world a)).
Proof.
  unfold on_catalog, on_ingest, Ingest.on_db, mbind, M_bind, tick, db_call, gets.
  destruct (w_faults (api_world a)) as [|[] fs]; cbn; intros HR; simplify_eq; (split; [by split|]); intros v Hv; by simplify_eq.
Qed.
Lemma on_api_untouched {A} (m : M (Api S) api_exn A) h r h' :
  (∀ a r a', m a = (r, a') → same_data a a') → on_api m h = (r, h') → untouched h h'.
Proof. intros Hm. unfold on_api. destruct (m (h_api h)) as [r' a'] eqn:E. intros HR. simplify_eq. split; [done..|by eapply Hm]. Qed.

Lemma loadCatalogCounts_reads ws h r h' :
  loadCatalogCounts ws h = (r, h') →
  untouched h h' ∧ ∀ c, r = Ok c → c = catalog_counts ws (w_db (api_world (h_api h))).
Proof.
  unfold loadCatalogCounts, on_api. destruct (on_catalog _ (h_api h)) as [r' a'] eqn:E. intros HR. simplify_eq.
  destruct (on_catalog_gets _ _ _ _ E) as [Hs Hv]. by split.
Qed.
Lemma hasRecentStorageProbe_reads `{JsDate} now ws h r h' :
  hasRecentStorageProbe now ws h = (r, h') →
  untouched h h' ∧ ∀ b, r = Ok b → b = recent_probe now ws (api_contracts (h_api h)).
Proof.
  unfold hasRecentStorageProbe, on_api. destruct (on_contracts _ (h_api h)) as [r' a'] eqn:E. intros HR. simplify_eq.
  destruct (on_contracts_gets _ _ _ _ E) as [Hs Hv]. by split.
Qed.
End Frames.

Section Answers.
Context {S St : Type} `{JsDate} `{Crypto} `{WebUrl} `{TextCodec}.
Context (client : St → ObjectStorage S) (this : Adapters St) (storageDiagnostics : option (StorageDiagnosticsOptions St)).
Context (TRUST_SCANNER : option string) (message : StorageErrorCode → string) (failure : ThrownObject).
Local Abbreviation config := (resolveSafeConfig this storageDiagnostics).
Local Abbreviation storage := (probe_storage client storageDiagnostics).
Local Abbreviation fresh := (fresh_probe client this storageDiagnostics TRUST_SCANNER message failure).
Local Abbreviation get := (getStorageHealth this storageDiagnostics TRUST_SCANNER).
Local Abbreviation probe_call := (probeStorageHealth client this storageDiagnostics TRUST_SCANNER message failure).
Local Abbreviation counts ws h := (catalog_counts ws (w_db (api_world (h_api h)))).

(** The answer is the entry's, with the present counts. *)
Record from_entry (ws : string) (h : Health S) (e : CacheEntry HealthStatus) (answer : ServiceHealth) : Prop := mkFromEntry {
  from_details : sh_details answer = with_counts (counts ws h) (ce_details e);
  from_status : sh_status answer = deriveStorageStatus (sh_details answer) (counts ws h);
  from_summary : has_secret (sh_summary answer) = has_secret (ce_summary e);
}.

Lemma coalesced_spec ws note env k h r h' :
  (∀ s, has_secret (s +:+ note) = has_secret s) →
  coalesced ws note env k h = (r, h') →
  (untouched h h' ∧ ∀ answer, r = Ok answer → ∃ e, h_entry h = Some e ∧ is_Some (hd_probe (ce_details e)) ∧ from_entry ws h e answer) ∨
  k h = (r, h').
Proof.
  intros Hnote. unfold coalesced. rewrite gets_bind. unfold cache_getLatest. destruct (h_entry h) as [e|] eqn:He; [|by right].
  case_bool_decide as Hp; [|by right]. intros HR. left. unfold mbind, M_bind in HR.
  destruct (loadCatalogCounts ws h) as [[c|x] h1] eqn:Hl; destruct (loadCatalogCounts_reads _ _ _ _ Hl) as [Hu Hc]; simplify_eq.
  - run_in HR. simplify_eq. split; [done|]. intros answer [= <-]. exists e. rewrite (Hc c eq_refl). split_and!; [done..|]. split; [done..|apply Hnote].
  - done.
Qed.

(** What a call that probed left in the cache. *)
Record entry_of (ws : string) (tier : StorageProbeTier) (env : HealthEnv) (e : CacheEntry HealthStatus) : Prop := mkEntryOf {
  entry_time : ce_storedAt e = at_stored env;
  entry_searched : assertNoSecretFields (ce_details e) = Ok tt;
  entry_summary : ∃ p, hd_probe (ce_details e) = Some p ∧ ce_summary e = pr_summary p;
  entry_configured : hd_objectStorageConfigured (ce_details e) = sc_objectStorageConfigured config;
  entry_probe : ∃ w : World S, hd_probe (ce_details e) =
    Some (runStorageProbe message failure tier config (has_prober storageDiagnostics) storage ws (he_probe env) w).1;
}.
Lemma fresh_probe_spec actor command env h r h' :
  let ws := ps_workspaceId command in
  fresh actor command env h = (r, h') →
  h_last h' = h_last h ∧
  (h_entry h' = h_entry h ∧ is_Ok r = false ∨
   ∃ e, h_entry h' = Some e ∧ entry_of ws (command_tier command) env e ∧
     ∀ answer, r = Ok answer → sh_details answer = ce_details e ∧ sh_summary answer = ce_summary e ∧
       sh_status answer = deriveStorageStatus (sh_details answer) (counts ws h)).
Proof.
  intros ws. unfold fresh_probe. fold ws. unfold mbind at 1, M_bind at 1.
  destruct (loadCatalogCounts ws h) as [[c|x] h1] eqn:Hl; destruct (loadCatalogCounts_reads _ _ _ _ Hl) as [[Hlast Hentry _] Hc];
    intros HR; [|simplify_eq; split; [done|]; by left].
  unfold mbind at 1, M_bind at 1, run_probe in HR.
  destruct (runStorageProbe _ _ _ _ _ _ _ _ _) as [p w] eqn:Hp.
  rewrite lift_bind in HR. destruct (assertNoSecretFields _) as [[]|x] eqn:Hsec; [|simplify_eq; cbn; split; [done|]; by left].
  rewrite modify_bind in HR. cbn [h_last h_entry h_api] in HR. unfold mbind, M_bind, on_api in HR. cbn [h_api] in HR.
  match type of HR with context [on_contracts ?m ?a] => destruct (on_contracts m a) as [r1 a1] end.
  assert (∃ e, cache_set (at_stored env) (toStorageHealthDetails TRUST_SCANNER config (Some p) c)
     (deriveStorageStatus (toStorageHealthDetails TRUST_SCANNER config (Some p) c) c) (pr_summary p) = Some e ∧
     entry_of ws (command_tier command) env e ∧ ce_summary e = pr_summary p ∧
     ce_details e = toStorageHealthDetails TRUST_SCANNER config (Some p) c) as (e & He & Hof & Hsum & Hd).
  { eexists. split; [done|]. split; [|done]. split; try done; [by exists p|]. exists (api_world (h_api h1)). cbn. by rewrite Hp. }
  rewrite He in HR. rewrite <- (Hc c eq_refl).
  destruct r1 as [u|x]; run_in HR; simplify_eq; (split; [done|]); right; exists e; (split_and!; [done..|]); [|done].
  intros answer [= <-]. cbn. by rewrite Hd, Hsum.
Qed.

Lemma get_spec ws env (h : Health S) answer h' :
  get ws env h = (Ok answer, h') →
  assertNoSecretFields (sh_details answer) = Ok tt ∧
  sh_summary answer = deriveStorageSummary (sh_details answer) (counts ws h) ∧
  sh_status answer = deriveStorageStatus (sh_details answer) (counts ws h) ∧
  (hd_probe (sh_details answer) = None ∨
   ∃ e, h_entry h = Some e ∧ (at_read env - ce_storedAt e <= STORAGE_HEALTH_CACHE_TTL_MS)%Z ∧
     sh_details answer = with_counts (counts ws h) (ce_details e)).
Proof.
  unfold getStorageHealth. intros HR. apply M_bind_Ok in HR as (c & h1 & Hl & HR).
  destruct (loadCatalogCounts_reads _ _ _ _ Hl) as [Hu Hc]. rewrite <- (Hc c eq_refl). rewrite gets_bind, (same_entry _ _ Hu) in HR.
  rewrite lift_bind in HR. destruct (assertNoSecretFields _) as [[]|x] eqn:Hsec; [|done]. run_in HR. simplify_eq.
  split_and!; [exact Hsec|done..|]. cbn. unfold cache_get. destruct (h_entry h) as [e|]; [|by left].
  destruct (Z.ltb_spec STORAGE_HEALTH_CACHE_TTL_MS (at_read env - ce_storedAt e)); [by left|]. right. by exists e.
Qed.
Lemma get_memory ws env (h : Health S) : h_last (get ws env h).2 = h_last h ∧ h_entry (get ws env h).2 = h_entry h.
Proof.
  unfold getStorageHealth, mbind, M_bind. destruct (loadCatalogCounts ws h) as [[c|x] h1] eqn:Hl;
    destruct (loadCatalogCounts_reads _ _ _ _ Hl) as [[Hlast Hentry _] _]; [|done].
  unfold gets, lift. by destruct (assertNoSecretFields _).
Qed.

(** The notes on coalesced answers. *)
Lemma note_plain note s :
  note ∈ [" (coalesced; probe rate-limited)"; " (coalesced; recent probe reused)"] → has_secret (s +:+ note) = has_secret s.
Proof.
  intros Hn. set_unfold in Hn. destruct Hn as [->|[->|[]]]; rewrite has_secret_split by done; apply orb_false_r.
Qed.

(** A probe that is not admitted. *)
Lemma probe_refused actor command env h r h' :
  let ws := ps_workspaceId command in
  tryAcquire STORAGE_PROBE_RATE_LIMIT_MS (at_limiter env) ws (h_last h) = (false, h_last h) →
  probe_call actor command env h = (r, h') →
  untouched h h' ∧
  ∀ answer, r = Ok answer → ∃ e, h_entry h = Some e ∧ is_Some (hd_probe (ce_details e)) ∧ from_entry ws h e answer.
Proof.
  intros ws Ha. unfold probeStorageHealth. fold ws. unfold mbind at 1, M_bind at 1, acquire. rewrite Ha. cbn [negb].
  destruct h as [last entry a]. cbn [h_last h_entry h_api] in *. intros HR. apply coalesced_spec in HR as [?|HR]; [done| |intros; apply note_plain; set_solver].
  unfold mbind, M_bind in HR. destruct (hasRecentStorageProbe _ _ _) as [[b|x] h1] eqn:Hr;
    destruct (hasRecentStorageProbe_reads _ _ _ _ _ Hr) as [Hu _]; run_in HR; by simplify_eq.
Qed.

(** When the last probe is repeated instead of a new one. *)
Definition repeated (ws : string) (env : HealthEnv) (h : Health S) : Prop :=
  (tryAcquire STORAGE_PROBE_RATE_LIMIT_MS (at_limiter env) ws (h_last h)).1 = false ∨
  recent_probe (at_database env) ws (api_contracts (h_api h)) = true.

(** Any probe: the limiter is asked once; the cache is left alone, or holds the
    probe of this call. *)
Lemma probe_spec actor command env h r h' :
  let ws := ps_workspaceId command in
  probe_call actor command env h = (r, h') →
  h_last h' = (tryAcquire STORAGE_PROBE_RATE_LIMIT_MS (at_limiter env) ws (h_last h)).2 ∧
  (h_entry h' = h_entry h ∧
   (∀ answer, r = Ok answer → repeated ws env h ∧
      ∃ e, h_entry h = Some e ∧ is_Some (hd_probe (ce_details e)) ∧ from_entry ws h e answer) ∨
   ∃ e, h_entry h' = Some e ∧ entry_of ws (command_tier command) env e ∧
     ∀ answer, r = Ok answer → sh_details answer = ce_details e ∧ sh_summary answer = ce_summary e ∧
       sh_status answer = deriveStorageStatus (sh_details answer) (counts ws h)).
Proof.
  intros ws HR. destruct (tryAcquire STORAGE_PROBE_RATE_LIMIT_MS (at_limiter env) ws (h_last h)) as [granted last] eqn:Ha.
  pose proof Ha as Hspec. rewrite tryAcquire_spec in Hspec. injection Hspec as Hg Hl. destruct granted.
  2: { rewrite Hg in Hl. subst last. destruct (probe_refused actor command env h r h' Ha HR) as [[? ? _] Hans].
       split; [done|left]. split; [done|]. intros answer Hr. split; [left; fold ws; by rewrite Ha|by apply Hans]. }
  clear Hg Hl. revert HR. unfold probeStorageHealth. fold ws. unfold mbind at 1, M_bind at 1, acquire. rewrite Ha. cbn [negb].
  destruct h as [last0 entry a]. cbn [h_last h_entry h_api] in *.
  unfold mbind at 1, M_bind at 1.
  destruct (hasRecentStorageProbe _ _ _) as [[b|x] h1] eqn:Hr; destruct (hasRecentStorageProbe_reads _ _ _ _ _ Hr) as [Hu Hb].
  2: { intros HR. simplify_eq. destruct Hu as [? ? _]. split; [done|left]. by split. }
  assert (counts ws h1 = catalog_counts ws (w_db (api_world a))) as Hcounts by (by destruct Hu as [_ _ [_ -> _]]).
  assert (∀ r h', fresh actor command env h1 = (r, h') → h_last h' = last ∧
     (h_entry h' = entry ∧ (∀ answer, r = Ok answer → repeated ws env (mkHealth last0 entry a) ∧ ∃ e, entry = Some e ∧ is_Some (hd_probe (ce_details e)) ∧
          from_entry ws (mkHealth last0 entry a) e answer) ∨
      ∃ e, h_entry h' = Some e ∧ entry_of ws (command_tier command) env e ∧
        ∀ answer, r = Ok answer → sh_details answer = ce_details e ∧ sh_summary answer = ce_summary e ∧
          sh_status answer = deriveStorageStatus (sh_details answer) (catalog_counts ws (w_db (api_world a))))) as Hanswer.
  { intros r0 h0' HR. apply fresh_probe_spec in HR. fold ws in HR. rewrite Hcounts in HR. destruct Hu as [Hl He _].
    rewrite Hl, He in HR. destruct HR as [? [[? Hno]|?]]; (split; [done|]); [left|by right]. split; [done|]. intros answer ->. done. }
  destruct b; [|apply Hanswer]. intros HR.
  apply coalesced_spec in HR as [[[Hl He _] Hans]|HR]; [|by apply Hanswer|intros; apply note_plain; set_solver].
  destruct Hu as [Hul Hue _]. cbn in Hul, Hue. split; [by rewrite Hl|]. left. split; [by rewrite He|]. intros answer Hr'.
  split; [right; symmetry; exact (Hb true eq_refl)|].
  destruct (Hans answer Hr') as (e & ? & ? & [Hd Hs Hsum]). exists e. split_and!; [congruence|done|]. rewrite Hcounts in *. by split.
Qed.
End Answers.

(** ** Processes *)

(** Calls of one process, in the order in which they are served. *)
Inductive health_call :=
  | GetHealth (workspaceId : string) (env : HealthEnv)
  | ProbeHealth (actor : AuthenticatedActor) (command : ProbeStorageCommand) (env : HealthEnv).

Section Processes.
Context {S St : Type} `{JsDate} `{Crypto} `{WebUrl} `{TextCodec}.
Context (client : St → ObjectStorage S) (this : Adapters St) (storageDiagnostics : option (StorageDiagnosticsOptions St)).
Context (TRUST_SCANNER : option string) (message : StorageErrorCode → string) (failure : ThrownObject).
Local Abbreviation config := (resolveSafeConfig this storageDiagnostics).
Local Abbreviation storage := (probe_storage client storageDiagnostics).

Definition serve (c : health_call) : M (Health S) api_exn ServiceHealth :=
  match c with
  | GetHealth ws env => getStorageHealth this storageDiagnostics TRUST_SCANNER ws env
  | ProbeHealth actor command env => probeStorageHealth client this storageDiagnostics TRUST_SCANNER message failure actor command env
  end.
Definition started (a : Api S) : Health S := mkHealth [] None a.

(** The calls a process has served since [h0]; between them the rest of the world
    changes in any way. *)
Inductive health_served (h0 : Health S) : list health_call → Health S → Prop :=
  | health_served_none : health_served h0 [] h0
  | health_served_call cs h c : health_served h0 cs h → health_served h0 (cs ++ [c]) (serve c h).2
  | health_served_others cs h a : health_served h0 cs h → health_served h0 cs (mkHealth (h_last h) (h_entry h) a).


Lemma entry_origin a cs h e :
  health_served (started a) cs h → h_entry h = Some e →
  ∃ actor command env, ProbeHealth actor command env ∈ cs ∧
    entry_of client this storageDiagnostics message failure (ps_workspaceId command) (command_tier command) env e.
Proof.
  intros Hs. revert e. induction Hs as [|cs h c Hs IH|cs h a' Hs IH]; intros e He; [done| |by apply IH].
  assert (h_entry h = Some e → ∃ actor command env, ProbeHealth actor command env ∈ cs ++ [c] ∧
    entry_of client this storageDiagnostics message failure (ps_workspaceId command) (command_tier command) env e) as Hold.
  { intros He'. destruct (IH e He') as (actor & command & env & Hin & Hof). exists actor, command, env.
    split; [|done]. apply elem_of_app. by left. }
  destruct c as [ws env|actor command env]; cbn [serve] in He.
  - rewrite (proj2 (get_memory this storageDiagnostics TRUST_SCANNER ws env h)) in He. by apply Hold.
  - destruct (probeStorageHealth _ _ _ _ _ _ actor command env h) as [r h'] eqn:HR.
    destruct (probe_spec _ _ _ _ _ _ _ _ _ _ _ _ HR) as [_ [[Hk _]|(e' & He' & Hof & _)]]; cbn in He.
    + apply Hold. congruence.
    + exists actor, command, env. split; [apply elem_of_app; right; by apply list_elem_of_singleton|]. congruence.
Qed.



(** C20. After a probe of a workspace was admitted, whatever was served since, a
    probe of the workspace within five seconds by the clock of the process does
    not reach the provider: the limiter, the cache, the stored objects and the
    tables stay as they are, and an answer can only repeat the cached probe. *)
Theorem probes_spaced cs h0 h1 actor command env actor' command' env' r h2 :
  (tryAcquire STORAGE_PROBE_RATE_LIMIT_MS (at_limiter env) (ps_workspaceId command) (h_last h0)).1 = true →
  health_served (serve (ProbeHealth actor command env) h0).2 cs h1 →
  ps_workspaceId command' = ps_workspaceId command →
  (at_limiter env' - at_limiter env < STORAGE_PROBE_RATE_LIMIT_MS)%Z →
  serve (ProbeHealth actor' command' env') h1 = (r, h2) →
  untouched h1 h2 ∧
  ∀ answer, r = Ok answer → ∃ e, h_entry h1 = Some e ∧ is_Some (hd_probe (sh_details answer)) ∧
    hd_probe (sh_details answer) = hd_probe (ce_details e).
Proof.
  intros Hgranted Hs Hws Hsoon HR. set (ws := ps_workspaceId command) in *.
  assert (at_limiter env <= last_of ws (h_last h1))%Z as Hlast.
  { clear HR. induction Hs as [|cs h c Hs IH|cs h a Hs IH]; [| |done].
    - cbn [serve]. destruct (probeStorageHealth _ _ _ _ _ _ actor command env h0) as [r0 h0'] eqn:HR.
      destruct (probe_spec _ _ _ _ _ _ _ _ _ _ _ _ HR) as [Hl _]. cbn. rewrite Hl. fold ws. by rewrite last_of_granted.
    - destruct c as [ws' envc|actorc commandc envc]; cbn [serve].
      + by rewrite (proj1 (get_memory this storageDiagnostics TRUST_SCANNER ws' envc h)).
      + destruct (probeStorageHealth _ _ _ _ _ _ actorc commandc envc h) as [r0 h'] eqn:HR.
        destruct (probe_spec _ _ _ _ _ _ _ _ _ _ _ _ HR) as [Hl _]. cbn. rewrite Hl. etrans; [exact IH|]. by apply last_of_mono. }
  pose proof (refused_within STORAGE_PROBE_RATE_LIMIT_MS (at_limiter env') ws (h_last h1) _ Hlast Hsoon) as Hrefused.
  rewrite <- Hws in Hrefused. destruct (probe_refused _ _ _ _ _ _ _ _ _ _ _ _ Hrefused HR) as [Hu Hans].
  split; [done|]. intros answer Hr. destruct (Hans answer Hr) as (e & He & Hp & [Hd _ _]). exists e. by rewrite Hd.
Qed.

(** C24. No answer about the storage matches the pattern of secrets, in its summary
    or in its details, whatever the process served before: the answers that repeat
    the cached probe are not searched, but what they repeat was, and the counts in
    them match nothing. *)
Theorem no_secret_served a cs h c answer h' :
  health_served (started a) cs h → serve c h = (Ok answer, h') →
  has_secret (sh_summary answer) = false ∧ has_secret (JSON_stringify (details_json (sh_details answer))) = false.
Proof.
  intros Hs HR. assert (has_secret (sh_summary answer) = false ∧ assertNoSecretFields (sh_details answer) = Ok tt) as [Hsum Hsec].
  2: { split; [done|]. unfold assertNoSecretFields in Hsec. by apply throw_if_Ok in Hsec. }
  destruct c as [ws env|actor command env].
  - apply get_spec in HR as (Hsec & -> & _). split; [|done]. unfold deriveStorageSummary.
    destruct (negb _); [done|]. destruct (Z.ltb _ _); [done|].
    destruct (hd_probe (sh_details answer)) as [p|] eqn:Hp; [by eapply secret_summary|done].
  - destruct (probe_spec _ _ _ _ _ _ _ _ _ _ _ _ HR) as [_ [[_ Hans]|(e & _ & [_ Hsec (p & Hp & Hsum) _ _] & Hans)]].
    + destruct (Hans answer eq_refl) as (_ & e & He & _ & [Hd _ Hsum]).
      destruct (entry_origin a cs h e Hs He) as (_ & _ & _ & _ & [_ Hsec (p & Hp & Hsum') _ _]).
      rewrite Hd, secret_counts, Hsum, Hsum'. split; [by eapply secret_summary|done].
    + destruct (Hans answer eq_refl) as (-> & -> & _). rewrite Hsum. split; [by eapply secret_summary|done].
Qed.
End Processes.

(** ** Witnesses *)

Module HealthWitness.
Import Contracts.ContractWitness CommandsWitness Archive.Utf8.

(** [scheme://hostname:port/...], enough of [URL] for the inputs below. *)
Record plain_url := mkPlainUrl { pu_scheme : string; pu_hostname : string; pu_port : string }.
Definition cut_at (sep : string) (s : string) : string * string :=
  match String.index 0 sep s with
  | Some n => (String.substring 0 n s, String.substring (n + String.length sep) (String.length s) s)
  | None => (s, EmptyString)
  end.
Definition parse_plain (s : string) : option plain_url :=
  if includes s "://"
  then
    let '(scheme, rest) := cut_at "://" s in
    let '(hostname, port) := cut_at ":" (cut_at "/" rest).1 in
    if hostname === EmptyString then None else Some (mkPlainUrl (scheme +:+ ":") hostname port)
  else None.
Definition plain_host (u : plain_url) : string :=
  pu_hostname u +:+ if pu_port u === EmptyString then EmptyString else ":" +:+ pu_port u.
#[export] Instance plain_WebUrl : WebUrl := {|
  Url := plain_url;
  new_URL := parse_plain;
  url_scheme := pu_scheme;
  url_host := plain_host;
  url_hostname := pu_hostname;
  url_port := pu_port;
  url_set_port port u := mkPlainUrl (pu_scheme u) (pu_hostname u) port;
  url_toString u := pu_scheme u +:+ "//" +:+ plain_host u +:+ "/";
|}.

Definition config (bucket : string) : SafeStorageConfig := mkSafeConfig s3 "eu-west-1" bucket iam_role None None true true None.
Definition diagnostics : option (StorageDiagnosticsOptions unit) := Some (mkDiagnostics (Some tt) (config "trust-objects") true).
Definition lost : ThrownObject := mkThrown "TimeoutError" "socket hang up" None (Some "ECONNRESET") None false.
Definition run_call (c : health_call) : M (Health MemoryObjectStorage) api_exn ServiceHealth :=
  serve memory_client (adapters true) diagnostics None storage_code lost c.

(** A call at [t] milliseconds, with what the provider replies. *)
Definition env (t : Z) (n : string) (reply : result thrown (option string)) : HealthEnv :=
  mkHealthEnv t t t (t + 20) (t + 30) (t + 40) ("event-" +:+ n) ("request-" +:+ n)
    (mkProbeEnv ("9b1d-" +:+ n) t t (t + 15) t reply false).
Definition test (t : Z) (n : string) (tier : StorageProbeTier) (reply : result thrown (option string)) : health_call :=
  ProbeHealth ada (mkProbeStorage "ws-1" (Some tier)) (env t n reply).
Definition ask (t : Z) : health_call := GetHealth "ws-1" (env t "get" (Err NotAnObject)).
Definition well : result thrown (option string) := Ok (Some "EU-west-1").

Definition status_of (r : result api_exn ServiceHealth) : option HealthStatus :=
  match r with Ok answer => Some (sh_status answer) | Err _ => None end.
Definition fresh_process : Health MemoryObjectStorage := started (api []).
Definition tested : Health MemoryObjectStorage := (run_call (test 10000 "1" tier_ingest well) fresh_process).2.

Example tested_world :
  status_of (run_call (ask 9000) fresh_process).1 = Some health_degraded ∧
  status_of (run_call (test 10000 "1" tier_ingest well) fresh_process).1 = Some health_healthy ∧
  status_of (run_call (ask 40020) tested).1 = Some health_healthy ∧
  status_of (run_call (ask 40021) tested).1 = Some health_degraded ∧
  mem_objects (w_storage (api_world (h_api tested))) = ∅ ∧
  length (c_audit (api_contracts (h_api tested))) = S (length (c_audit contracts)).
Proof. vm_compute. done. Qed.

Local Abbreviation served_by := (health_served memory_client (adapters true) diagnostics None storage_code lost).
Lemma tested_served : served_by fresh_process [test 10000 "1" tier_ingest well] tested.
Proof.
  exact (health_served_call memory_client (adapters true) diagnostics None storage_code lost fresh_process [] fresh_process
    (test 10000 "1" tier_ingest well) (health_served_none _ _ _ _ _ _ fresh_process)).
Qed.

Definition answer_at (t : Z) : ServiceHealth :=
  match run_call (ask t) tested with
  | (Ok answer, _) => answer
  | _ => mkServiceHealth health_degraded EmptyString EmptyString (toStorageHealthDetails None (config EmptyString) None (mkCounts 0 0))
  end.

(** A second test two seconds after the first. *)
Definition again : health_call := test 12000 "2" tier_connectivity (Err (AnObject lost)).
Lemma probes_spaced_witness :
  untouched tested tested ∧
  ∀ answer, (run_call again tested).1 = Ok answer → ∃ e, h_entry tested = Some e ∧ is_Some (hd_probe (sh_details answer)) ∧
    hd_probe (sh_details answer) = hd_probe (ce_details e).
Proof.
  apply (probes_spaced memory_client (adapters true) diagnostics None storage_code lost [] fresh_process tested
    ada (mkProbeStorage "ws-1" (Some tier_ingest)) (env 10000 "1" well)
    ada (mkProbeStorage "ws-1" (Some tier_connectivity)) (env 12000 "2" (Err (AnObject lost)))).
  - vm_compute. reflexivity.
  - apply health_served_none.
  - reflexivity.
  - vm_compute. reflexivity.
  - vm_compute. reflexivity.
Defined.
Example again_coalesced :
  status_of (run_call again tested).1 = Some health_healthy ∧
  (sh_summary <$> (run_call again tested).1) = Ok "Connectivity and upload path succeeded. (coalesced; probe rate-limited)".
Proof. vm_compute. done. Qed.

Lemma no_secret_served_witness :
  has_secret (sh_summary (answer_at 40020)) = false ∧
  has_secret (JSON_stringify (details_json (sh_details (answer_at 40020)))) = false.
Proof.
  apply (no_secret_served memory_client (adapters true) diagnostics None storage_code lost (api []) _ _ (ask 40020) (answer_at 40020) tested
    tested_served).
  vm_compute. reflexivity.
Defined.

(** An access key the provider does not know is classified, and then matches the
    pattern of secrets: the report is thrown away, nothing is cached and no audit
    event is left, though the provider was called and the limiter counted it. *)
Definition unknown_key : thrown := AnObject (mkThrown "InvalidAccessKeyId" "The key does not exist." (Some "InvalidAccessKeyId") None (Some 403%Z) false).
Example unknown_key_never_reported :
  ci_issueClass (classifyStorageError unknown_key) = issue_auth ∧
  let '(r, h) := run_call (test 10000 "1" tier_connectivity (Err unknown_key)) fresh_process in
  r = Err (plainError "Storage health details must not include secret material.") ∧
  h_entry h = None ∧ c_audit (api_contracts (h_api h)) = c_audit contracts ∧ h_last h = [("ws-1", 10000%Z)].
Proof. vm_compute. done. Qed.

(** A bucket whose name has the word in it has no health. *)
Example secret_bucket_has_no_health :
  (getStorageHealth (adapters true) (Some (mkDiagnostics (Some tt) (config "secretariat-files") true)) None "ws-1" (env 9000 "get" well)
     fresh_process).1 = Err (plainError "Storage health details must not include secret material.").
Proof. vm_compute. reflexivity. Qed.

(** An hour later another process probes the workspace; a test of this process in
    the same five seconds then reuses its own probe of an hour ago, and says that
    the storage is healthy, whatever the provider would reply. *)
Definition hour_later : Health MemoryObjectStorage :=
  let other := (run_call (test 3610000 "3" tier_connectivity (Err (AnObject lost))) (started (h_api tested))).2 in
  mkHealth (h_last tested) (h_entry tested) (h_api other).
Example stale_probe_reused :
  served_by fresh_process [test 10000 "1" tier_ingest well] hour_later ∧
  status_of (run_call (ask 3612000) hour_later).1 = Some health_degraded ∧
  let r := (run_call (test 3612000 "4" tier_connectivity (Err (AnObject lost))) hour_later).1 in
  status_of r = Some health_healthy ∧
  (sh_summary <$> r) = Ok "Connectivity and upload path succeeded. (coalesced; recent probe reused)".
Proof.
  split; [exact (health_served_others _ _ _ _ _ _ _ _ _ _ tested_served)|]. vm_compute. done.
Qed.

(** An ingest probe without a storage carries the code [not_configured], and is
    classified as an internal error. *)
Example ingest_without_storage :
  let p := (runStorageProbe (S := MemoryObjectStorage) storage_code lost tier_ingest (config "trust-objects") true None "ws-1"
              (he_probe (env 10000 "1" well)) (api_world (api []))).1 in
  (pr_issueClass p, pr_issueCode p) = (Some issue_internal, Some "unexpected").
Proof. vm_compute. reflexivity. Qed.

(** The first label of a host name is taken for a private address. *)
Example public_host_allowlisted :
  isAllowlistedHttpHost "https://10.example.com" = true ∧ isAllowlistedHttpHost "https://minio.example.com" = true ∧
  isAllowlistedHttpHost "https://example.com" = false ∧ isAllowlistedHttpHost "ftp://localhost" = false.
Proof. vm_compute. done. Qed.
End HealthWitness.
